(* ===== verification/_CoqProject ===== *)
-Q . S2P
Prelude.v
Bytes.v
Spinlock.v
Pmm.v
PmmInit.v
Zone.v
Kmsg.v
IpcPort.v
IpcSpec.v
Sched.v
SchedSpec.v
WaitQueue.v
Mqueue.v
Pmap.v
PmapInv.v
PmapMap.v
PmapSpec.v
PmapFork.v
PmapClone.v
PmapCorrect.v
Copy.v
CopySpec.v
Loader.v
LoaderSpec.v
LoaderCorrect.v
Ring.v
Pipe.v
Pty.v
Fileproc.v
Proc.v
ProcSpec.v
Signal.v
Fat32.v
Fat32Spec.v
Fat32Chain.v
Fat32Fs.v
Fat32Edit.v
Fat32Correct.v
Checksum.v
Mbuf.v
Net.v
NetStack.v
NetInv.v
NetSafe.v
NetFlow.v
NetApi.v
NetCorrect.v
Dhcp.v
SocketSpec.v
