(* ===== verification/Prelude.v ===== *)
(** * Verification of the Chimera kernel

    Chimera ([src/]) is a hybrid Mach and BSD kernel for x86-64 in C.  This
    library models the parts of the kernel below and proves what they promise
    to each other and to programs.  All paths are relative to [src/kernel].

    ** How the kernel fits together

    Physical pages come from the buddy allocator ([mm/pmm.c]).  The kernel heap
    ([mm/zone.c]), message buffers ([mach/ipc_kmsg.c]) and page tables
    ([mm/pmap.c]) are built on it; user memory is copied through the page
    tables ([mm/copy.c]), and programs are loaded into them
    ([bsd/mach_loader.c]).  Threads are scheduled on several CPUs
    ([arch/x86_64/scheduler.c]) and sleep on wait queues
    ([mach/wait_queue.c]); Mach ports ([mach/ipc_port.c]) queue messages and
    use both.  Processes ([bsd/proc.c], [bsd/syscall.c]) own an address space,
    a port name space and a table of open files ([bsd/fileproc.c]), which may
    be pipes ([vfs/pipe.c]), the terminal ([vfs/pty.c]), sockets ([net/]) or
    files of a FAT32 volume ([vfs/fat32.c]) on a disk ([drivers/ata.c]).
    Everything is protected by ticket locks ([include/kernel/spinlock.h]).

    ** Which file models what

    - [Prelude], [Bytes]: machine integers, record updates, byte memories,
      little-endian layout; the automation shared by all files.
    - [Spinlock]: ticket lock and reader/writer lock, instruction by
      instruction.
    - [Pmm], [PmmInit]: page descriptors, buddy lists, start from the memory
      map.
    - [Zone], [Kmsg]: heap and message buffers, over the classes by which they
      use the page allocator; [Pmm] provides the instances.
    - [IpcPort], [IpcSpec]: ports, names, rights, service registry.
    - [Sched], [SchedSpec], [WaitQueue], [Mqueue]: scheduler, sleeping, message
      queues.
    - [Pmap] and [PmapInv], [PmapMap], [PmapSpec], [PmapFork], [PmapClone],
      [PmapCorrect]: page tables as words of physical memory, over the class
      [PageFrames].
    - [Copy], [CopySpec]: [copyin], [copyout], [copyinstr].
    - [Loader], [LoaderSpec], [LoaderCorrect]: the Mach-O loader.
    - [Ring], [Pipe], [Pty], [Fileproc]: pipes, terminal, descriptors.
    - [Proc], [ProcSpec], [Signal]: processes and signals.
    - [Fat32], [Fat32Spec], [Fat32Chain], [Fat32Fs], [Fat32Edit],
      [Fat32Correct]: the FAT32 file system on a disk of bytes.
    - [Checksum], [Mbuf], [Net], [NetStack], [NetInv], [NetSafe], [NetFlow],
      [NetApi], [NetCorrect], [Dhcp], [SocketSpec]: the network stack with the
      packet path of the e1000 driver.

    The state of a component is a record with the fields of the C structures
    and static variables, pointers into static arrays are indices, and a
    function of the code is a definition of the same name.  Unsigned integers
    are [Z] with the wrap of their width written out.  An access outside an
    object, a failed assertion and a lock taken twice are outcomes of their
    own, so that theorems can exclude them.  A function that runs under one
    lock is one transition; a function that gives the lock up is cut there
    and the pieces interleave.

    ** What is shown

    - Mutual exclusion, first-in first-out order and progress of the ticket
      lock under all schedules; the reader/writer lock admits two writers.
    - The allocators keep their invariants; live heap blocks and message
      buffers never overlap along any history of calls.
    - A thread is on at most one CPU and run queue and never lost; wait queues
      and message queues are first-in first-out.
    - Receive rights are unique and their names resolve.
    - Fork shares every page copy-on-write, a fault makes a private copy,
      unmapping terminates and removes exactly the range; user copies touch
      only their range; [mprotect] after fork breaks the sharing.
    - A loaded program finds exactly the memory its image and arguments
      describe.
    - Pipes and terminal deliver bytes and lines in order; every descriptor
      leads to a live file.
    - The process table refines a tree of processes; [wait4] and [fork] return
      what the tree says; signal delivery is undone by [sigreturn]; forged
      contexts can block SIGKILL.
    - The FAT32 driver refines a map from files to their contents, on volumes
      with two tables and clusters of at most 4096 bytes, as long as no
      transfer fails and no directory needs a second cluster; with an entry
      in a second cluster a write waits for its own lock.  Mounting sets up
      the bitmap of free clusters; short names survive.
    - No packet and no sequence of socket calls makes the network stack leave
      its buffers, apart from the echo requests, re-entrant polls, DHCP
      replies and mixed socket types described where they are excluded;
      datagrams over loopback arrive unchanged.

    ** Bounds and fuel

    Loops over linked lists, page tables or chains of buffers that have no
    structural measure take fuel.  The theorems give the amount that is enough
    (the number of threads, pages, bytes or buffers) or show that the result
    is reached for every amount above it; [NetStack.stack n] allows [n] nested
    entries of the packet path, and the theorems on the network hold for the
    depth they name.  Cluster chains of a consistent volume have no repetition,
    so the number of clusters is fuel enough for FAT32.  The ticket lock assumes
    fewer than 2^32 threads.

    ** Not modelled

    Interrupt entry, processor start, device registers and direct memory
    access have effects for which the sources give no model; weaker than
    sequentially consistent memory orders are not modelled either.  The file
    system layer with the directory scan and vnode operations of FAT32, the
    kernel object server, copy-in and copy-out of messages and the remaining
    system calls are not modelled; nor are [mm/vm_map.c] and [mm/vm_object.c],
    whose operations nothing calls, the console, the sources imported from
    Darwin, the boot loader and the user programs. *)

From Stdlib Require Export ZArith Lia.
From stdpp Require Export base tactics numbers strings gmap list.

#[global] Open Scope Z_scope.
#[global] Set Default Goal Selector "!".

(** ** Machine integers *)

(** Unsigned C integers are [Z] values kept in range by an explicit wrap. *)
Definition u8 (z : Z) : Z := z mod 2 ^ 8.
Definition u16 (z : Z) : Z := z mod 2 ^ 16.
Definition u32 (z : Z) : Z := z mod 2 ^ 32.
Definition u64 (z : Z) : Z := z mod 2 ^ 64.

(** The signed reading of a 64-bit word, [(i64)z]. *)
Definition i64 (z : Z) : Z :=
  let w := u64 z in if w <? 2 ^ 63 then w else w - 2 ^ 64.

(** [x & m] used as a C truth value. *)
Definition has (x m : Z) : bool := negb (Z.land x m =? 0).

Lemma has_bit x k : 0 <= k -> has x (2 ^ k) = Z.testbit x k.
Proof.
  intros Hk. unfold has. destruct (Z.testbit x k) eqn:E.
  - destruct (Z.eqb_spec (Z.land x (2 ^ k)) 0) as [E0|]; [|done].
    apply (f_equal (fun z => Z.testbit z k)) in E0.
    by rewrite Z.land_spec, E, Z.pow2_bits_true, Z.bits_0 in E0.
  - replace (Z.land x (2 ^ k)) with 0; [done|]. symmetry. apply Z.bits_inj'. intros i Hi.
    rewrite Z.land_spec, Z.bits_0. destruct (decide (i = k)) as [->|]; [by rewrite E|].
    rewrite Z.pow2_bits_false by done. apply andb_false_r.
Qed.

(** [~m] on a 64-bit operand. *)
Definition not64 (m : Z) : Z := Z.lxor m (2 ^ 64 - 1).
Definition not32 (m : Z) : Z := Z.lxor m (2 ^ 32 - 1).

Lemma u8_range z : 0 <= u8 z < 2 ^ 8.
Proof. apply Z.mod_pos_bound; lia. Qed.
Lemma u16_range z : 0 <= u16 z < 2 ^ 16.
Proof. apply Z.mod_pos_bound; lia. Qed.
Lemma u32_range z : 0 <= u32 z < 2 ^ 32.
Proof. apply Z.mod_pos_bound; lia. Qed.
Lemma u64_range z : 0 <= u64 z < 2 ^ 64.
Proof. apply Z.mod_pos_bound; lia. Qed.

Lemma u8_id z : 0 <= z < 2 ^ 8 -> u8 z = z.
Proof. apply Z.mod_small. Qed.
Lemma u16_id z : 0 <= z < 2 ^ 16 -> u16 z = z.
Proof. apply Z.mod_small. Qed.
Lemma u32_id z : 0 <= z < 2 ^ 32 -> u32 z = z.
Proof. apply Z.mod_small. Qed.
Lemma u64_id z : 0 <= z < 2 ^ 64 -> u64 z = z.
Proof. apply Z.mod_small. Qed.

Create HintDb chimera.
#[export] Hint Resolve u8_range u16_range u32_range u64_range : chimera.
#[export] Hint Rewrite u8_id u16_id u32_id u64_id using lia : chimera.

(** Drops the wraps of values in range, then decides. *)
Ltac word := autorewrite with chimera; try lia.

Lemma u32_add_l a b : u32 (u32 a + b) = u32 (a + b).
Proof. unfold u32. by rewrite Zplus_mod_idemp_l. Qed.
Lemma u32_sub_l a b : u32 (u32 a - b) = u32 (a - b).
Proof. unfold u32. by rewrite Zminus_mod_idemp_l. Qed.
Lemma u64_add_l a b : u64 (u64 a + b) = u64 (a + b).
Proof. unfold u64. by rewrite Zplus_mod_idemp_l. Qed.

Lemma u32_inj_near k i j :
  0 <= i < 2 ^ 32 -> 0 <= j < 2 ^ 32 -> u32 (k + i) = u32 (k + j) -> i = j.
Proof.
  unfold u32. intros Hi Hj H.
  pose proof (Z.div_mod (k + i) (2 ^ 32)). pose proof (Z.div_mod (k + j) (2 ^ 32)). nia.
Qed.

(** A duplicate-free list of numbers below [n] has at most [n] elements. *)
Lemma NoDup_below_length (l : list nat) n :
  NoDup l -> (forall x, x ∈ l -> (x < n)%nat) -> (length l <= n)%nat.
Proof.
  intros Hnd Hlt. replace n with (length (seq 0%nat n)) by apply length_seq. apply submseteq_length.
  apply NoDup_submseteq; [done|]. intros x Hx. apply elem_of_seq. specialize (Hlt x Hx). lia.
Qed.

Lemma elem_of_concat {A} (l : list (list A)) x : x ∈ concat l <-> exists y, x ∈ y /\ y ∈ l.
Proof.
  rewrite list_elem_of_In, in_concat. setoid_rewrite list_elem_of_In. naive_solver.
Qed.

Lemma NoDup_concat {A} (l : list (list A)) :
  (forall x, x ∈ l -> NoDup x) ->
  (forall i j x y a, l !! i = Some x -> l !! j = Some y -> a ∈ x -> a ∈ y -> i = j) ->
  NoDup (concat l).
Proof.
  induction l as [|x l IH]; intros Hn Hd; simpl; [constructor|].
  apply NoDup_app. split; [apply Hn; set_solver|]. split.
  - intros a Ha [y [Hay [j Hj]%list_elem_of_lookup]]%elem_of_concat.
    by specialize (Hd 0%nat (S j) x y a eq_refl Hj Ha Hay).
  - apply IH; [set_solver|]. intros i j y z a Hi Hj Hy Hz.
    specialize (Hd (S i) (S j) y z a Hi Hj Hy Hz). lia.
Qed.

(** Invariants of a step relation. *)
Lemma rtc_invariant {A} (R : A -> A -> Prop) (P : A -> Prop) x y :
  (forall x y, R x y -> P x -> P y) -> rtc R x y -> P x -> P y.
Proof. intros HR Hs. induction Hs; eauto. Qed.

(** ** Bit fields *)

Lemma lor_shiftl_add a b n : 0 <= n -> 0 <= b < 2 ^ n -> Z.lor (Z.shiftl a n) b = a * 2 ^ n + b.
Proof.
  intros Hn Hb. rewrite <- Z.shiftl_mul_pow2 by done. rewrite <- (Z.add_lor_land (Z.shiftl a n)).
  assert (Z.land (Z.shiftl a n) b = 0) as ->; [|lia].
  apply Z.bits_inj'. intros i Hi. rewrite Z.land_spec, Z.bits_0.
  destruct (decide (i < n)).
  - by rewrite Z.shiftl_spec_low.
  - destruct (decide (b = 0)) as [->|]; [by rewrite Z.bits_0, andb_false_r|].
    rewrite (Z.bits_above_log2 b i); [apply andb_false_r|lia|]. apply Z.log2_lt_pow2; [lia|].
    apply (Z.lt_le_trans _ (2 ^ n)); [lia|]. apply Z.pow_le_mono_r; lia.
Qed.

(** Clearing the low bits rounds down. *)
Lemma land_not64_ones n v : 0 <= n <= 64 -> 0 <= v < 2 ^ 64 -> Z.land v (not64 (Z.ones n)) = 2 ^ n * (v / 2 ^ n).
Proof.
  intros Hn Hv. rewrite (Z.mul_comm (2 ^ n)), <- Z.shiftl_mul_pow2, <- Z.shiftr_div_pow2 by lia.
  apply Z.bits_inj'. intros k Hk. unfold not64. change (2 ^ 64 - 1) with (Z.ones 64). rewrite Z.land_spec, Z.lxor_spec.
  destruct (decide (k < n)).
  - rewrite !Z.ones_spec_low, Z.shiftl_spec_low by lia. apply andb_false_r.
  - rewrite Z.ones_spec_high, Z.shiftl_spec, Z.shiftr_spec by lia. replace (k - n + n) with k by lia.
    destruct (decide (k < 64)); [rewrite Z.ones_spec_low by lia; apply andb_true_r|].
    rewrite (Z.bits_above_log2 v k); [done|lia|]. destruct (decide (v = 0)) as [->|]; [cbn; lia|].
    apply Z.log2_lt_pow2; [lia|]. apply (Z.lt_le_trans _ (2 ^ 64)); [lia|]. apply Z.pow_le_mono_r; lia.
Qed.

(** ** Counting the keys of a map that lead to a value *)

Section MapCount.
Context {K A : Type} `{Countable K} `{EqDecision A}.
Implicit Types (m : gmap K A).

Definition mcount (m : gmap K A) (a : A) : Z := Z.of_nat (size (filter (fun kv => kv.2 = a) m)).

Lemma mcount_nonneg m a : 0 <= mcount m a.
Proof. unfold mcount. lia. Qed.

Lemma mcount_insert m k a b : m !! k = None -> mcount (<[k := a]> m) b = mcount m b + if decide (b = a) then 1 else 0.
Proof.
  intros Hk. unfold mcount. rewrite map_filter_insert. cbn. case_decide as E; [rewrite decide_True by done|rewrite decide_False by done].
  - rewrite map_size_insert_None; [lia|]. apply map_lookup_filter_None. by left.
  - rewrite delete_id; [lia|]. done.
Qed.

Lemma mcount_delete m k a b : m !! k = Some a -> mcount (delete k m) b = mcount m b - if decide (b = a) then 1 else 0.
Proof.
  intros Hk. rewrite <- (insert_delete_id m k a Hk) at 2. rewrite mcount_insert by apply lookup_delete_eq. lia.
Qed.

Lemma mcount_pos m k a : m !! k = Some a -> 0 < mcount m a.
Proof.
  intros Hk. pose proof (mcount_delete m k a a Hk) as E. rewrite decide_True in E by done. pose proof (mcount_nonneg (delete k m) a). lia.
Qed.
End MapCount.

(** ** Memory as 64-bit words

    Word-aligned memory; unwritten memory reads as 0. *)

Definition store (a w : Z) (m : gmap Z Z) : gmap Z Z := <[a := w]> m.
Definition load (m : gmap Z Z) (a : Z) : Z := default 0 (m !! a).

Lemma load_store m a w x : load (store a w m) x = if decide (x = a) then w else load m x.
Proof.
  unfold load, store. case_decide; subst; [by rewrite lookup_insert_eq|by rewrite lookup_insert_ne].
Qed.

(** A [for] loop over an interval keeps an invariant indexed by the counter. *)
Lemma foldl_seqZ {A} (f : A -> Z -> A) (Q : Z -> A -> Prop) k a : 0 <= k -> Q 0 a ->
  (forall i a, 0 <= i < k -> Q i a -> Q (i + 1) (f a i)) -> Q k (foldl f a (seqZ 0 k)).
Proof.
  intros Hk H0. revert k Hk. refine (natlike_ind _ _ _); [done|]. intros k Hk IH Hf.
  replace (Z.succ k) with (k + 1) by lia. rewrite seqZ_app by lia. rewrite foldl_app. cbn. apply Hf; [lia|].
  apply IH. intros i b Hi. apply Hf. lia.
Qed.

(** Writing [w i] at word [i] of the area at [a], for every [i] of a list. *)
Definition fill_words (a : Z) (w : Z -> Z) (l : list Z) (m : gmap Z Z) : gmap Z Z :=
  foldl (fun m i => store (a + 8 * i) (w i) m) m l.

Lemma fill_words_in m a w l i : i ∈ l -> load (fill_words a w l m) (a + 8 * i) = w i.
Proof.
  intros Hi. assert (Hz : load m (a + 8 * i) = w i \/ i ∈ l) by auto. clear Hi. unfold fill_words.
  revert m Hz. induction l as [|j l IH]; intros m Hz; cbn [foldl]; [set_solver|].
  apply IH. rewrite load_store. case_decide; [left; f_equal; lia|]. rewrite elem_of_cons in Hz.
  destruct Hz as [?|[->|?]]; auto. lia.
Qed.

Lemma fill_words_out m a w l x :
  (forall i, i ∈ l -> x ≠ a + 8 * i) -> load (fill_words a w l m) x = load m x.
Proof.
  unfold fill_words. revert m. induction l as [|j l IH]; intros m Hx; cbn [foldl]; [done|].
  rewrite IH by set_solver. rewrite load_store, decide_False; [done|]. apply Hx. set_solver.
Qed.

(** Bytes of that memory, little-endian inside a word. *)
Definition load8 (m : gmap Z Z) (a : Z) : Z :=
  Z.land (Z.shiftr (load m (8 * (a / 8))) (8 * (a mod 8))) 255.
Definition store8 (a b : Z) (m : gmap Z Z) : gmap Z Z :=
  let w := 8 * (a / 8) in
  let k := 8 * (a mod 8) in
  store w (Z.lor (Z.ldiff (load m w) (Z.shiftl 255 k)) (Z.shiftl b k)) m.

(** [memcpy] of a list of bytes to [a]. *)
Fixpoint store_bytes (a : Z) (l : list Z) (m : gmap Z Z) : gmap Z Z :=
  match l with
  | [] => m
  | b :: l => store_bytes (a + 1) l (store8 a b m)
  end.
Lemma store_bytes_out a l m x :
  (forall i, 0 <= i < Z.of_nat (length l) -> 8 * ((a + i) / 8) ≠ x) -> load (store_bytes a l m) x = load m x.
Proof.
  revert a m. induction l as [|b l IH]; intros a m Hx; cbn [store_bytes]; [done|].
  rewrite IH.
  - unfold store8. rewrite load_store, decide_False; [done|]. intros ->. apply (Hx 0); [cbn; lia|]. by rewrite Z.add_0_r.
  - intros i Hi. replace (a + 1 + i) with (a + (1 + i)) by lia. apply Hx. cbn. lia.
Qed.

Definition load_bytes (m : gmap Z Z) (a n : Z) : list Z :=
  (fun i => load8 m (a + i)) <$> seqZ 0 n.

Definition is_byte (b : Z) : Prop := 0 <= b < 256.

Lemma byte_bits b i : is_byte b -> 8 <= i -> Z.testbit b i = false.
Proof.
  intros Hb Hi. destruct (decide (b = 0)) as [->|]; [apply Z.bits_0|]. unfold is_byte in Hb. apply Z.bits_above_log2; [lia|].
  apply Z.lt_le_trans with 8; [|done]. apply Z.log2_lt_pow2; lia.
Qed.

Lemma testbit_255 i : 0 <= i -> Z.testbit 255 i = bool_decide (i < 8).
Proof.
  intros Hi. change 255 with (Z.ones 8). case_bool_decide; [by apply Z.ones_spec_low|apply Z.ones_spec_high; lia].
Qed.

Lemma load8_bit m a i : 0 <= i ->
  Z.testbit (load8 m a) i = bool_decide (i < 8) && Z.testbit (load m (8 * (a / 8))) (i + 8 * (a mod 8)).
Proof.
  intros Hi. unfold load8. rewrite Z.land_spec, testbit_255, Z.shiftr_spec by done. apply andb_comm.
Qed.

Lemma load8_store8 a b m x : is_byte b -> load8 (store8 a b m) x = if decide (x = a) then b else load8 m x.
Proof.
  intros Hb. apply Z.bits_inj'. intros i Hi. rewrite load8_bit by done. unfold store8. rewrite load_store.
  pose proof (Z.mod_pos_bound x 8 ltac:(done)). pose proof (Z.mod_pos_bound a 8 ltac:(done)).
  pose proof (Z.div_mod x 8 ltac:(done)). pose proof (Z.div_mod a 8 ltac:(done)).
  destruct (decide (x = a)) as [->|Hne].
  - rewrite decide_True by done. case_bool_decide; [|by rewrite (byte_bits b i) by (done || lia)].
    rewrite Z.lor_spec, Z.ldiff_spec, !Z.shiftl_spec, Z.add_simpl_r, testbit_255, bool_decide_true by lia. cbn. by rewrite andb_false_r.
  - rewrite load8_bit by done. case_bool_decide; [|done]. cbn [andb]. case_decide as E; [|done].
    assert (Em : x mod 8 ≠ a mod 8) by lia. replace (x / 8) with (a / 8) by lia.
    rewrite Z.lor_spec, Z.ldiff_spec, !Z.shiftl_spec by lia.
    destruct (decide (x mod 8 < a mod 8)).
    + rewrite (Z.testbit_neg_r 255), (Z.testbit_neg_r b) by lia. by rewrite orb_false_r, andb_true_r.
    + rewrite testbit_255, bool_decide_false, (byte_bits b) by (done || lia). by rewrite orb_false_r, andb_true_r.
Qed.

Lemma load8_store_bytes a l m x : Forall is_byte l ->
  load8 (store_bytes a l m) x =
    if decide (a <= x < a + Z.of_nat (length l)) then l !!! Z.to_nat (x - a) else load8 m x.
Proof.
  revert a m. induction l as [|b l IH]; intros a m Hl; cbn [store_bytes length].
  { rewrite decide_False; [done|cbn; lia]. }
  apply Forall_cons in Hl as [Hb Hl]. rewrite IH by done. rewrite load8_store8 by done.
  destruct (decide (x = a)) as [->|].
  - rewrite decide_False, decide_True by lia. by rewrite Z.sub_diag.
  - repeat case_decide; try lia. replace (Z.to_nat (x - a)) with (S (Z.to_nat (x - (a + 1)))) by lia. done.
Qed.

(** ** Error codes of [chimera_types.h] *)

Inductive chimera_error : Set :=
| CHIMERA_SUCCESS
| CHIMERA_ERR_GENERIC
| CHIMERA_ERR_NOMEM
| CHIMERA_ERR_INVALID
| CHIMERA_ERR_NORESOURCE
| CHIMERA_ERR_NOPERM
| CHIMERA_ERR_NOTFOUND
| CHIMERA_ERR_BUSY
| CHIMERA_ERR_TIMEOUT
| CHIMERA_ERR_OVERFLOW
| CHIMERA_ERR_ALIGN
| CHIMERA_ERR_RANGE
| CHIMERA_ERR_IPC
| CHIMERA_ERR_PORT_DEAD
| CHIMERA_ERR_PORT_FULL
| CHIMERA_ERR_NOTSUP
| CHIMERA_ERR_PORT_EMPTY
| CHIMERA_ERR_WOULDBLOCK
| CHIMERA_ERR_NOTCONN.

#[global] Instance chimera_error_eq_dec : EqDecision chimera_error.
Proof. solve_decision. Defined.

Definition succeeded (e : chimera_error) : bool := bool_decide (e = CHIMERA_SUCCESS).

(** ** Functional update of record fields

    A record type declares how it is rebuilt from its projections ([Eta]);
    the update of one projection is then computed from that expansion. *)

Class Eta (R : Type) := eta : R -> R.
Class FieldUpd {R F : Type} (p : R -> F) := fupd : (F -> F) -> R -> R.

Ltac derive_fupd :=
  match goal with
  | |- @FieldUpd ?R ?F ?p =>
      let f := fresh "f" in
      let r := fresh "r" in
      red; intros f r;
      let b := eval hnf in (@eta R _ r) in
      let g := eval pattern (p r) in b in
      match g with
      | ?k _ => let t := eval cbv beta in (k (f (p r))) in exact t
      end
  end.

#[global] Hint Extern 0 (FieldUpd _) => derive_fupd : typeclass_instances.

Notation "r <| p ::= f |>" := (fupd (p := p) f r)
  (at level 1, left associativity, p at level 99, f at level 99,
   format "r  <| p  ::=  f |>").
Notation "r <| p := v |>" := (fupd (p := p) (fun _ => v) r)
  (at level 1, left associativity, p at level 99, v at level 99,
   format "r  <| p  :=  v |>").


(** ** Linked structures

    Intrusive lists are modelled by their link fields: [nxt x] is the link
    stored in node [x] ([None] is [nullptr]).  [lseg nxt h t l] says that
    following the links from [h] visits exactly [l] and then arrives at [t]. *)

Section Segments.
Context {A : Type} `{EqDecision A}.
Implicit Types (nxt prv : A -> option A) (h t p : option A) (l : list A).

Fixpoint lseg nxt h t l : Prop :=
  match l with
  | [] => h = t
  | x :: l' => h = Some x /\ lseg nxt (nxt x) t l'
  end.

Definition chain nxt h l : Prop := lseg nxt h None l.

Lemma lseg_frame nxt nxt' h t l :
  (forall x, x ∈ l -> nxt' x = nxt x) -> lseg nxt h t l -> lseg nxt' h t l.
Proof.
  revert h. induction l as [|x l IH]; intros h Hf; simpl; [done|].
  intros [-> Hl]. split; [done|]. rewrite Hf by set_solver.
  apply IH; [set_solver | done].
Qed.

Lemma lseg_app nxt h t l1 l2 :
  lseg nxt h t (l1 ++ l2) <-> exists m, lseg nxt h m l1 /\ lseg nxt m t l2.
Proof.
  revert h. induction l1 as [|x l1 IH]; intros h; simpl; [naive_solver|].
  rewrite IH. naive_solver.
Qed.

Lemma lseg_snoc nxt h t l x :
  lseg nxt h t (l ++ [x]) <-> lseg nxt h (Some x) l /\ nxt x = t.
Proof. rewrite lseg_app. simpl. naive_solver. Qed.

Lemma chain_det nxt h l1 l2 : chain nxt h l1 -> chain nxt h l2 -> l1 = l2.
Proof.
  unfold chain. revert h l2. induction l1 as [|x l1 IH]; intros h [|y l2]; simpl;
    [done|naive_solver|naive_solver|].
  intros [-> H1] [[= ->] H2]. f_equal. eauto.
Qed.

Lemma chain_nil_inv nxt l : chain nxt None l -> l = [].
Proof. destruct l; [done|]. intros [? _]. done. Qed.

(** A list that ends in [nullptr] has no cycle. *)
Lemma chain_NoDup nxt h l : chain nxt h l -> NoDup l.
Proof.
  unfold chain. revert h. induction l as [|x l IH]; intros h; [constructor|].
  intros [-> Hl]. constructor; [|eauto].
  intros Hin. apply list_elem_of_split in Hin as (l1 & l2 & ->).
  apply lseg_app in Hl as (m & Hl1 & Hl2).
  assert (Hx : lseg nxt (Some x) None (x :: l1 ++ x :: l2)).
  { simpl. split; [done|]. apply lseg_app. eauto. }
  assert (Heq : x :: l2 = x :: l1 ++ x :: l2).
  { destruct Hl2 as [-> Hl2]. eapply chain_det; [|exact Hx]. by split. }
  apply (f_equal length) in Heq. simpl in Heq. rewrite length_app in Heq.
  simpl in Heq. lia.
Qed.

(** Linking [a] in after [l1], through the head pointer when [l1] is empty. *)
Lemma chain_insert nxt nxt' h h' l1 l2 (a : A) :
  chain nxt h (l1 ++ l2) -> a ∉ l1 ++ l2 -> nxt' a = head l2 ->
  match last l1 with None => h' = Some a | Some p => h' = h /\ nxt' p = Some a end ->
  (forall x, x ∈ l1 ++ l2 -> Some x ≠ last l1 -> nxt' x = nxt x) ->
  chain nxt' h' (l1 ++ a :: l2).
Proof.
  unfold chain. intros Hc Ht Hn Hp Hf. pose proof (chain_NoDup _ _ _ Hc) as Hnd.
  apply lseg_app in Hc as (m & H1 & H2).
  assert (Hm : m = head l2) by (destruct l2; [done|by destruct H2 as [-> _]]). subst m.
  assert (H2' : lseg nxt' (head l2) None l2).
  { eapply lseg_frame; [|exact H2]. intros x Hx. apply Hf; [set_solver|]. intros E. symmetry in E.
    apply last_Some_elem_of in E. apply NoDup_app in Hnd as (_ & Hd & _). by apply (Hd x). }
  apply lseg_app. exists (Some a). split; [|by rewrite Hn || (simpl; rewrite Hn)].
  destruct (last l1) as [p|] eqn:El.
  - apply last_Some in El as [l' ->]. destruct Hp as [-> Hp]. apply lseg_snoc in H1 as [H1 _].
    apply lseg_snoc. split; [|done]. eapply lseg_frame; [|exact H1]. intros x Hx. apply Hf; [set_solver|].
    intros [= ->]. rewrite <- app_assoc in Hnd. apply NoDup_app in Hnd as (_ & Hd & _). apply (Hd p Hx). set_solver.
  - apply last_None in El as ->. by subst.
Qed.

Lemma chain_delete nxt nxt' h h' l1 l2 (a : A) :
  chain nxt h (l1 ++ a :: l2) ->
  match last l1 with None => h' = nxt a | Some p => h' = h /\ nxt' p = nxt a end ->
  (forall x, x ∈ l1 ++ l2 -> Some x ≠ last l1 -> nxt' x = nxt x) ->
  chain nxt' h' (l1 ++ l2).
Proof.
  unfold chain. intros Hc Hp Hf. pose proof (chain_NoDup _ _ _ Hc) as Hnd.
  apply lseg_app in Hc as (m & H1 & [-> H2]).
  assert (H2' : lseg nxt' (nxt a) None l2).
  { eapply lseg_frame; [|exact H2]. intros x Hx. apply Hf; [set_solver|]. intros E. symmetry in E.
    apply last_Some_elem_of in E. apply NoDup_app in Hnd as (_ & Hd & _). apply (Hd x E). set_solver. }
  apply lseg_app. exists (nxt a). split; [|done]. destruct (last l1) as [p|] eqn:El.
  - apply last_Some in El as [l' ->]. destruct Hp as [-> Hp]. apply lseg_snoc in H1 as [H1 _].
    apply lseg_snoc. split; [|done]. eapply lseg_frame; [|exact H1]. intros x Hx. apply Hf; [set_solver|].
    intros [= ->]. rewrite <- app_assoc in Hnd. apply NoDup_app in Hnd as (_ & Hd & _). apply (Hd p Hx). set_solver.
  - apply last_None in El as ->. by subst.
Qed.

(** Lists whose head pointer is the link of a node [o] outside: removing [a],
    and linking [a] in at the end. *)
Lemma chain_unlink nxt nxt' (o a : A) l1 l2 : chain nxt (nxt o) (l1 ++ a :: l2) -> o ∉ l1 ++ a :: l2 ->
  (forall j, j = o \/ j ∈ l1 ++ l2 -> nxt' j = if decide (j = default o (last l1)) then nxt a else nxt j) ->
  chain nxt' (nxt' o) (l1 ++ l2).
Proof.
  intros Hc Ho Hn. apply (chain_delete nxt nxt' (nxt o) _ l1 l2 a); [done| |].
  - rewrite (Hn o) by auto. destruct (last l1) as [p|] eqn:E; cbn in *; [|by rewrite decide_True].
    apply last_Some_elem_of in E. rewrite decide_False by set_solver. split; [done|]. rewrite Hn by set_solver. by rewrite decide_True.
  - intros x Hx Hl. rewrite Hn by auto. rewrite decide_False; [done|]. destruct (last l1) as [p|]; cbn; [congruence|]. set_solver.
Qed.

Lemma chain_push_back nxt nxt' (o a : A) l : chain nxt (nxt o) l -> o ∉ l -> a ∉ l -> nxt' a = None ->
  (forall j, j = o \/ j ∈ l -> nxt' j = if decide (j = default o (last l)) then Some a else nxt j) ->
  chain nxt' (nxt' o) (l ++ [a]).
Proof.
  intros Hc Ho Ha Hna Hn. apply (chain_insert nxt nxt' (nxt o) _ l [] a); rewrite ?app_nil_r; try done.
  - rewrite (Hn o) by auto. destruct (last l) as [p|] eqn:E; cbn in *; [|by rewrite decide_True].
    apply last_Some_elem_of in E. rewrite decide_False by set_solver. split; [done|]. rewrite Hn by auto. by rewrite decide_True.
  - intros x Hx Hl. rewrite Hn by auto. rewrite decide_False; [done|]. destruct (last l) as [p|]; cbn; [congruence|]. set_solver.
Qed.

(** Doubly linked lists: [p] is what the first node's back link holds. *)
Fixpoint dchain nxt prv p h l : Prop :=
  match l with
  | [] => h = None
  | x :: l' => h = Some x /\ prv x = p /\ dchain nxt prv (Some x) (nxt x) l'
  end.

Lemma dchain_chain nxt prv p h l : dchain nxt prv p h l -> chain nxt h l.
Proof.
  unfold chain. revert p h. induction l as [|x l IH]; intros p h; simpl; [done|].
  intros (-> & _ & Hl). eauto.
Qed.

Lemma dchain_NoDup nxt prv p h l : dchain nxt prv p h l -> NoDup l.
Proof. intros H%dchain_chain. by eapply chain_NoDup. Qed.

Lemma dchain_frame nxt nxt' prv prv' p h l :
  (forall x, x ∈ l -> nxt' x = nxt x /\ prv' x = prv x) ->
  dchain nxt prv p h l -> dchain nxt' prv' p h l.
Proof.
  revert p h. induction l as [|x l IH]; intros p h Hf; simpl; [done|].
  intros (-> & Hp & Hl). destruct (Hf x) as [-> ->]; [set_solver|].
  split; [done|]. split; [done|]. apply IH; [set_solver|done].
Qed.

Lemma dchain_head nxt prv p h l x :
  dchain nxt prv p h l -> h = Some x -> exists l', l = x :: l'.
Proof. destruct l; simpl; naive_solver. Qed.

Lemma dchain_prev nxt prv p h l1 x l2 :
  dchain nxt prv p h (l1 ++ x :: l2) -> prv x = from_option Some p (last l1).
Proof.
  revert p h. induction l1 as [|y l1 IH]; intros p h; simpl; [naive_solver|].
  intros (_ & _ & Hl). rewrite (IH _ _ Hl).
  destruct l1 as [|z l1]; [done|]. rewrite last_cons_cons.
  destruct (last (z :: l1)) eqn:E; [done|]. by apply last_None in E.
Qed.

Lemma dchain_next nxt prv p h l1 x l2 :
  dchain nxt prv p h (l1 ++ x :: l2) -> nxt x = head l2.
Proof.
  revert p h. induction l1 as [|y l1 IH]; intros p h; simpl.
  - intros (_ & _ & Hl). destruct l2; simpl in *; naive_solver.
  - intros (_ & _ & Hl). eauto.
Qed.

Lemma dchain_push nxt nxt' prv prv' h l x :
  dchain nxt prv None h l -> x ∉ l ->
  nxt' x = h -> prv' x = None ->
  (forall y, y ∈ l -> nxt' y = nxt y) ->
  (forall y, y ∈ l -> prv' y = if decide (Some y = h) then Some x else prv y) ->
  dchain nxt' prv' None (Some x) (x :: l).
Proof.
  intros Hl Hx Hn Hp Hfn Hfp. simpl. do 2 (split; [done|]). rewrite Hn.
  pose proof (dchain_NoDup _ _ _ _ _ Hl) as Hnd.
  destruct l as [|y l]; simpl in *; [done|]. destruct Hl as (-> & Hpy & Hl).
  split; [done|]. split; [rewrite Hfp by set_solver; by rewrite decide_True|].
  rewrite Hfn by set_solver. eapply dchain_frame; [|exact Hl].
  intros z Hz. split; [set_solver|]. rewrite Hfp by set_solver.
  rewrite decide_False; [done|]. intros [= ->]. by apply NoDup_cons in Hnd as [? _].
Qed.

Lemma dchain_snoc nxt nxt' prv prv' p h l x :
  dchain nxt prv p h l -> x ∉ l -> nxt' x = None -> prv' x = from_option Some p (last l) ->
  (forall y, y ∈ l -> nxt' y = if decide (last l = Some y) then Some x else nxt y) ->
  (forall y, y ∈ l -> prv' y = prv y) ->
  dchain nxt' prv' p (if l is [] then Some x else h) (l ++ [x]).
Proof.
  intros Hl Hx Hn Hp Hfn Hfp. pose proof (dchain_NoDup _ _ _ _ _ Hl) as Hnd.
  revert p h Hl Hp. induction l as [|y l IH]; intros p h Hl Hp; simpl in *; [done|].
  destruct Hl as (-> & Hpy & Hl). split; [done|]. split; [by rewrite Hfp by set_solver|].
  apply NoDup_cons in Hnd as [Hy Hnd]. destruct l as [|z l].
  - simpl in Hl |- *. rewrite Hfn by set_solver. by rewrite decide_True.
  - assert (Hlast : last (y :: z :: l) = last (z :: l)) by done. rewrite Hlast in *.
    rewrite Hfn by set_solver. rewrite decide_False.
    2:{ intros E%last_Some_elem_of. done. }
    apply (IH ltac:(set_solver)); [|intros w Hw; apply Hfp; set_solver|done|done|].
    + intros w Hw. apply Hfn. set_solver.
    + rewrite Hp. destruct (last (z :: l)) eqn:E; [done|]. by apply last_None in E.
Qed.

Lemma dchain_remove_gen nxt nxt' prv prv' p h l1 x l2 :
  dchain nxt prv p h (l1 ++ x :: l2) ->
  (forall q, p = Some q -> q ∉ l1 ++ x :: l2) ->
  (forall y, y ∈ l1 ++ l2 ->
    nxt' y = if decide (Some y = prv x) then nxt x else nxt y) ->
  (forall y, y ∈ l1 ++ l2 ->
    prv' y = if decide (Some y = nxt x) then prv x else prv y) ->
  dchain nxt' prv' p (if l1 is [] then nxt x else h) (l1 ++ l2).
Proof.
  intros Hl Hq Hfn Hfp.
  pose proof (dchain_NoDup _ _ _ _ _ Hl) as Hnd.
  pose proof (dchain_prev _ _ _ _ _ _ _ Hl) as Hpx.
  pose proof (dchain_next _ _ _ _ _ _ _ Hl) as Hnx.
  revert p h Hl Hq Hpx. induction l1 as [|y l1 IH]; intros p h Hl Hq Hpx.
  - simpl in *. destruct Hl as (-> & Hp & Hl).
    destruct l2 as [|z l2]; simpl in *; [done|]. destruct Hl as (Hz & Hpz & Hl).
    split; [done|]. split.
    { rewrite Hfp by set_solver. by rewrite decide_True. }
    assert (Hxz : x ≠ z ∧ (x ∉ l2) ∧ (z ∉ l2)).
    { apply NoDup_cons in Hnd as [? [? _]%NoDup_cons]. set_solver. }
    assert (Hnp : forall y, y ∈ z :: l2 -> Some y ≠ prv x).
    { intros y Hy E. apply (Hq y); [congruence|set_solver]. }
    rewrite Hfn by set_solver. rewrite decide_False by (apply Hnp; set_solver).
    eapply dchain_frame; [|exact Hl]. intros w Hw. split.
    + rewrite Hfn by set_solver. rewrite decide_False; [done|]. apply Hnp. set_solver.
    + rewrite Hfp by set_solver. rewrite decide_False; [done|].
      rewrite Hnx. intros [= ->]. tauto.
  - simpl in Hl |- *. destruct Hl as (-> & Hpy & Hl).
    simpl in Hnd. apply NoDup_cons in Hnd as [Hy Hnd].
    split; [done|]. split.
    { rewrite Hfp by set_solver. rewrite decide_False; [done|]. rewrite Hnx.
      intros E. apply Hy. destruct l2; simpl in *; [done|]. set_solver. }
    assert (Hpx' : prv x = from_option Some (Some y) (last l1)).
    { by eapply dchain_prev. }
    assert (IHr : dchain nxt' prv' (Some y)
              (match l1 with [] => nxt x | _ => nxt y end) (l1 ++ l2)).
    { apply IH; [set_solver|set_solver|done|done|by intros q [= <-]|done]. }
    rewrite Hfn by set_solver. destruct l1 as [|z l1]; simpl in *.
    + rewrite decide_True by done. exact IHr.
    + rewrite decide_False; [exact IHr|].
      intros E. rewrite Hpx' in E. apply Hy.
      destruct (last (z :: l1)) eqn:El; [|by apply last_None in El].
      simpl in E. injection E as ->. apply last_Some_elem_of in El. set_solver.
Qed.

Lemma dchain_remove nxt nxt' prv prv' h l1 x l2 :
  dchain nxt prv None h (l1 ++ x :: l2) ->
  (forall y, y ∈ l1 ++ l2 ->
    nxt' y = if decide (Some y = prv x) then nxt x else nxt y) ->
  (forall y, y ∈ l1 ++ l2 ->
    prv' y = if decide (Some y = nxt x) then prv x else prv y) ->
  dchain nxt' prv' None (if prv x is Some _ then h else nxt x) (l1 ++ l2).
Proof.
  intros Hl Hn Hp. pose proof (dchain_prev _ _ _ _ _ _ _ Hl) as Hpx.
  pose proof (dchain_remove_gen _ nxt' _ prv' _ _ _ _ _ Hl) as HH.
  destruct l1 as [|y l1]; simpl in Hpx; rewrite Hpx in *.
  - simpl in *. apply HH; [done|done|done].
  - destruct (last (y :: l1)) eqn:El; [|by apply last_None in El].
    simpl in *. apply HH; [done|done|done].
Qed.
End Segments.
