(* ===== verification/Bytes.v ===== *)
(** * Little-endian integers and pieces of byte lists

    Shared by the components that lay out structures in memory or on disk. *)

From S2P Require Import Prelude.

(** Integers of [n] bytes in memory, little-endian. *)
Fixpoint le_bytes (n : nat) (z : Z) : list Z :=
  match n with O => [] | S n => z mod 256 :: le_bytes n (z / 256) end.
Fixpoint le_value (l : list Z) : Z :=
  match l with [] => 0 | b :: l => b + 256 * le_value l end.

Lemma le_bytes_length n z : length (le_bytes n z) = n.
Proof. revert z. induction n as [|n IH]; intros z; cbn; [done|]. by rewrite IH. Qed.
Lemma le_bytes_bytes n z : Forall is_byte (le_bytes n z).
Proof. revert z. induction n as [|n IH]; intros z; cbn; constructor; [apply Z.mod_pos_bound; lia|apply IH]. Qed.
Lemma le_value_bytes n z : 0 <= z < 256 ^ Z.of_nat n -> le_value (le_bytes n z) = z.
Proof.
  revert z. induction n as [|n IH]; intros z Hz; cbn [le_bytes le_value].
  - change (256 ^ Z.of_nat 0) with 1 in Hz. lia.
  - rewrite Nat2Z.inj_succ, Z.pow_succ_r in Hz by lia. rewrite IH; [pose proof (Z.div_mod z 256 ltac:(done)); lia|].
    split; [apply Z.div_pos; lia|apply Z.div_lt_upper_bound; lia].
Qed.
Lemma le8_value z : 0 <= z < 2 ^ 64 -> le_value (le_bytes 8 z) = z.
Proof. intros Hz. by apply (le_value_bytes 8). Qed.
Lemma le4_value z : 0 <= z < 2 ^ 32 -> le_value (le_bytes 4 z) = z.
Proof. intros Hz. by apply (le_value_bytes 4). Qed.

Lemma le_value_range l : Forall is_byte l -> 0 <= le_value l < 256 ^ Z.of_nat (length l).
Proof.
  induction 1 as [|b l Hb Hl IH]; cbn [le_value length]; [change (256 ^ Z.of_nat 0) with 1; lia|].
  rewrite Nat2Z.inj_succ, Z.pow_succ_r by lia. unfold is_byte in Hb. lia.
Qed.

(** [new] written over the bytes of [l] from [off] on. *)
Definition patch (off : Z) (new l : list Z) : list Z :=
  take (Z.to_nat off) l ++ new ++ drop (Z.to_nat off + length new) l.

Lemma patch_length off new l : 0 <= off -> off + Z.of_nat (length new) <= Z.of_nat (length l) -> length (patch off new l) = length l.
Proof. intros Ho Hl. unfold patch. rewrite !length_app, length_take, length_drop. lia. Qed.
Lemma patch_bytes off new l : Forall is_byte new -> Forall is_byte l -> Forall is_byte (patch off new l).
Proof. intros Hn Hl. unfold patch. rewrite !Forall_app. auto using Forall_take, Forall_drop. Qed.
Lemma patch_lookup off new l i : 0 <= off -> off + Z.of_nat (length new) <= Z.of_nat (length l) -> 0 <= i ->
  patch off new l !! Z.to_nat i = if decide (off <= i < off + Z.of_nat (length new)) then new !! Z.to_nat (i - off) else l !! Z.to_nat i.
Proof.
  intros Ho Hl Hi. unfold patch. case_decide as D.
  - rewrite lookup_app_r, length_take by (rewrite length_take; lia). rewrite lookup_app_l by lia. f_equal. lia.
  - destruct (decide (i < off)).
    + rewrite lookup_app_l by (rewrite length_take; lia). apply lookup_take_lt. lia.
    + rewrite lookup_app_r, length_take by (rewrite length_take; lia). rewrite lookup_app_r by lia. rewrite lookup_drop. f_equal. lia.
Qed.

Lemma load8_byte m a : is_byte (load8 m a).
Proof. unfold load8, is_byte. change 255 with (Z.ones 8). rewrite Z.land_ones by done. by apply Z.mod_pos_bound. Qed.
Lemma load_bytes_bytes m a n : Forall is_byte (load_bytes m a n).
Proof. unfold load_bytes. apply Forall_fmap, Forall_forall. intros i _. apply load8_byte. Qed.
Lemma load_bytes_len m a n : 0 <= n -> length (load_bytes m a n) = Z.to_nat n.
Proof. intros Hn. unfold load_bytes. by rewrite length_fmap, length_seqZ. Qed.
Lemma load_bytes_at m a n i : 0 <= i < n -> load_bytes m a n !! Z.to_nat i = Some (load8 m (a + i)).
Proof. intros Hi. unfold load_bytes. rewrite list_lookup_fmap, lookup_seqZ_lt by lia. cbn. do 3 f_equal. lia. Qed.
Lemma load_bytes_ext m m' a a' n : (forall i, 0 <= i < n -> load8 m (a + i) = load8 m' (a' + i)) -> load_bytes m a n = load_bytes m' a' n.
Proof.
  intros Hx. unfold load_bytes. apply list_fmap_ext. intros i x Hi. apply lookup_seqZ in Hi. apply Hx. lia.
Qed.

(** Reading a byte of what has been written. *)
Lemma load8_stored a l m x b : Forall is_byte l -> a <= x < a + Z.of_nat (length l) -> l !! Z.to_nat (x - a) = Some b -> load8 (store_bytes a l m) x = b.
Proof. intros Hl Hx Hb. rewrite load8_store_bytes by done. rewrite decide_True by done. by apply list_lookup_total_correct. Qed.
Lemma load8_unstored a l m x : Forall is_byte l -> ~ (a <= x < a + Z.of_nat (length l)) -> load8 (store_bytes a l m) x = load8 m x.
Proof. intros Hl Hx. rewrite load8_store_bytes by done. by rewrite decide_False. Qed.
