(* ===== verification/Spinlock.v ===== *)
(** * Ticket spinlock and reader/writer spinlock

    Models the two locks of [kernel/include/kernel/spinlock.h] at the level of
    their atomic instructions.  A thread's program counter says which
    instruction of [spinlock_lock], [spinlock_unlock] or of the [rwspinlock]
    functions it executes next; a schedule is the list of threads that take the
    next step, so every interleaving is a schedule. *)

From S2P Require Import Prelude.

Module Ticket.

Record spinlock := { sl_next : Z; sl_serving : Z }.
#[global] Instance spinlock_eta : Eta spinlock :=
  fun r => {| sl_next := sl_next r; sl_serving := sl_serving r |}.

(** [spinlock_init]: both counters are stored as 0. *)
Definition spinlock_init : spinlock := {| sl_next := 0; sl_serving := 0 |}.

(** Where a thread is: outside, polling [sl_serving] for its ticket, returned
    from [spinlock_lock], or between the load and the store of
    [spinlock_unlock]. *)
Inductive pc : Set :=
| Outside
| Polling (my_ticket : Z)
| Critical
| Unlocking (now : Z).

#[global] Instance pc_eq_dec : EqDecision pc.
Proof. solve_decision. Defined.
#[global] Instance pc_inhabited : Inhabited pc := populate Outside.

(** The atomic instructions. *)
Definition fetch_add_next (l : spinlock) : spinlock * Z :=
  (l <| sl_next := u32 (sl_next l + 1) |>, sl_next l).

Definition spinlock_lock_poll (l : spinlock) (my_ticket : Z) : bool :=
  sl_serving l =? my_ticket.

Definition spinlock_unlock_store (l : spinlock) (now : Z) : spinlock :=
  l <| sl_serving := u32 (now + 1) |>.

Record sys := { lk : spinlock; pcs : gmap nat pc }.
#[global] Instance sys_eta : Eta sys := fun r => {| lk := lk r; pcs := pcs r |}.

Definition init : sys := {| lk := spinlock_init; pcs := ∅ |}.

(** One instruction of thread [t], which loops through
    [spinlock_lock; spinlock_unlock]. *)
Definition step (t : nat) (s : sys) : sys :=
  match pcs s !!! t with
  | Outside =>
      let '(l, my_ticket) := fetch_add_next (lk s) in
      {| lk := l; pcs := <[t := Polling my_ticket]> (pcs s) |}
  | Polling my_ticket =>
      if spinlock_lock_poll (lk s) my_ticket
      then s <| pcs := <[t := Critical]> (pcs s) |>
      else s
  | Critical => s <| pcs := <[t := Unlocking (sl_serving (lk s))]> (pcs s) |>
  | Unlocking now =>
      {| lk := spinlock_unlock_store (lk s) now; pcs := <[t := Outside]> (pcs s) |}
  end.

Definition run (sched : list nat) (s : sys) : sys := foldl (fun s t => step t s) s sched.

Definition holds (s : sys) (t : nat) : Prop :=
  match pcs s !!! t with Critical | Unlocking _ => True | _ => False end.

(** ** The queue of threads behind the two counters *)

(** [Rep k s q]: with [k] tickets served since [spinlock_init], the threads that
    drew a ticket and have not released it are [q], in ticket order. *)
Definition slot_ok (k : Z) (i : nat) (c : pc) : Prop :=
  match c with
  | Outside => False
  | Polling tk => tk = u32 (k + Z.of_nat i)
  | Critical => i = 0%nat
  | Unlocking now => i = 0%nat /\ now = u32 k
  end.

Record Rep (k : Z) (s : sys) (q : list nat) : Prop := {
  rep_next : sl_next (lk s) = u32 (k + Z.of_nat (length q));
  rep_serving : sl_serving (lk s) = u32 k;
  rep_nodup : NoDup q;
  rep_in : forall i t, q !! i = Some t -> slot_ok k i (pcs s !!! t);
  rep_out : forall t, t ∉ q -> pcs s !!! t = Outside
}.

Lemma init_rep : Rep 0 init [].
Proof. constructor; done || constructor. Qed.

(** The abstract lock: a FIFO queue whose head is served. *)
Inductive fifo_step (t : nat) : list nat -> list nat -> Prop :=
| fifo_arrive q : t ∉ q -> fifo_step t q (q ++ [t])
| fifo_stay q : t ∈ q -> fifo_step t q q
| fifo_leave q : fifo_step t (t :: q) q.

Inductive fifo_run : list nat -> list nat -> list nat -> Prop :=
| fifo_run_nil q : fifo_run [] q q
| fifo_run_cons t sched q q' q'' :
    fifo_step t q q' -> fifo_run sched q' q'' -> fifo_run (t :: sched) q q''.

Lemma rep_queued k s q t : Rep k s q -> pcs s !!! t ≠ Outside -> exists i, q !! i = Some t.
Proof.
  intros HR Ht. apply list_elem_of_lookup. destruct (decide (t ∈ q)) as [|Hn]; [done|].
  by apply (rep_out _ _ _ HR) in Hn.
Qed.

Lemma rep_other k s q t c i x :
  Rep k s q -> q !! i = Some x -> x ≠ t -> slot_ok k i (<[t := c]> (pcs s) !!! x).
Proof. intros HR Hi Hx. rewrite lookup_total_insert_ne by done. by apply (rep_in _ _ _ HR). Qed.

(** Moving the queued thread [t] to another counter value that fits its slot. *)
Lemma rep_move k s q i t c :
  Rep k s q -> q !! i = Some t -> slot_ok k i c ->
  Rep k (s <| pcs := <[t := c]> (pcs s) |>) q.
Proof.
  intros HR Hi Hc. destruct HR as [Hn Hs Hnd Hin Hout]. constructor; simpl; try done.
  - intros j x Hj. destruct (decide (x = t)) as [->|Hx].
    + rewrite lookup_total_insert_eq. by rewrite (NoDup_lookup _ _ _ _ Hnd Hj Hi).
    + rewrite lookup_total_insert_ne by done. eauto.
  - intros x Hx. rewrite lookup_total_insert_ne; [eauto|].
    intros ->. apply Hx. by eapply list_elem_of_lookup_2.
Qed.

Lemma rep_arrive k s q t :
  Rep k s q -> pcs s !!! t = Outside -> Rep k (step t s) (q ++ [t]).
Proof.
  intros HR Ht. assert (Htq : t ∉ q).
  { intros [i Hi]%list_elem_of_lookup. apply (rep_in _ _ _ HR) in Hi. by rewrite Ht in Hi. }
  pose proof HR as [Hn Hs Hnd Hin Hout]. unfold step. rewrite Ht. constructor; simpl.
  - rewrite Hn, u32_add_l, length_app. simpl. f_equal. lia.
  - done.
  - apply NoDup_app. split; [done|]. split; [set_solver|]. apply NoDup_singleton.
  - intros i x Hi. apply lookup_app_Some in Hi as [Hi|[Hle Hi]].
    + eapply rep_other; [done|done|]. intros ->. apply Htq. by eapply list_elem_of_lookup_2.
    + apply list_lookup_singleton_Some in Hi as [Hi ->].
      rewrite lookup_total_insert_eq. simpl. rewrite Hn. f_equal. lia.
  - intros x Hx. rewrite lookup_total_insert_ne by set_solver. apply Hout. set_solver.
Qed.

Lemma rep_leave k s q t now :
  Rep k s (t :: q) -> pcs s !!! t = Unlocking now -> Rep (k + 1) (step t s) q.
Proof.
  intros HR Ht. pose proof (rep_in _ _ _ HR 0%nat t eq_refl) as Hc. rewrite Ht in Hc.
  destruct Hc as [_ ->]. pose proof HR as [Hn Hs Hnd Hin Hout].
  apply NoDup_cons in Hnd as [Htq Hnd]. unfold step. rewrite Ht. constructor; simpl.
  - rewrite Hn. simpl. f_equal. lia.
  - apply u32_add_l.
  - done.
  - intros i x Hi. rewrite lookup_total_insert_ne.
    2:{ intros ->. apply Htq. by eapply list_elem_of_lookup_2. }
    specialize (Hin (S i) x Hi). destruct (pcs s !!! x); simpl in *; try done; [|naive_solver].
    rewrite Hin. f_equal. lia.
  - intros x Hx. destruct (decide (x = t)) as [->|Hne]; [by rewrite lookup_total_insert_eq|].
    rewrite lookup_total_insert_ne by done. apply Hout. set_solver.
Qed.

(** Every instruction of every thread is a step of the FIFO queue. *)
Lemma step_rep n k s q t :
  Rep k s q -> (t < n)%nat -> (forall x, x ∈ q -> (x < n)%nat) -> Z.of_nat n < 2 ^ 32 ->
  exists k' q', Rep k' (step t s) q' /\ fifo_step t q q' /\ (forall x, x ∈ q' -> (x < n)%nat).
Proof.
  intros HR Ht Hq Hn. destruct (decide (pcs s !!! t = Outside)) as [Ho|Ho].
  { exists k, (q ++ [t]). split; [by apply rep_arrive|]. split; [|set_solver].
    constructor. intros [i Hi]%list_elem_of_lookup. apply (rep_in _ _ _ HR) in Hi.
    by rewrite Ho in Hi. }
  destruct (rep_queued _ _ _ _ HR Ho) as [i Hi]. pose proof (rep_in _ _ _ HR _ _ Hi) as Hc.
  pose proof (list_elem_of_lookup_2 _ _ _ Hi) as Hin.
  destruct (pcs s !!! t) as [|tk| |now] eqn:Hpc; simpl in Hc; [done| | |].
  - exists k, q. split; [|by split; [constructor|]]. unfold step. rewrite Hpc.
    unfold spinlock_lock_poll. destruct (Z.eqb_spec (sl_serving (lk s)) tk) as [E|]; [|done].
    apply (rep_move _ _ _ i); [done|done|]. simpl.
    rewrite (rep_serving _ _ _ HR), Hc in E. rewrite <- (Z.add_0_r k) in E at 1.
    pose proof (NoDup_below_length _ _ (rep_nodup _ _ _ HR) Hq).
    pose proof (lookup_lt_Some _ _ _ Hi). apply u32_inj_near in E; lia.
  - exists k, q. split; [|by split; [constructor|]]. unfold step. rewrite Hpc.
    apply (rep_move _ _ _ i); [done|done|]. simpl. split; [done|]. apply (rep_serving _ _ _ HR).
  - destruct Hc as [-> ->]. destruct q as [|y q]; [done|]. injection Hi as ->.
    exists (k + 1), q. split; [by eapply rep_leave|]. split; [constructor|set_solver].
Qed.

Lemma run_rep n sched k s q :
  Rep k s q -> Forall (fun t => (t < n)%nat) sched -> (forall x, x ∈ q -> (x < n)%nat) ->
  Z.of_nat n < 2 ^ 32 ->
  exists k' q', Rep k' (run sched s) q' /\ fifo_run sched q q'.
Proof.
  intros HR Hs Hq Hn. revert k s q HR Hq. induction Hs as [|t sched Ht _ IH]; intros k s q HR Hq.
  { exists k, q. split; [done|constructor]. }
  destruct (step_rep n k s q t HR Ht Hq Hn) as (k' & q' & HR' & Hf & Hq').
  destruct (IH _ _ _ HR' Hq') as (k'' & q'' & HR'' & Hf').
  exists k'', q''. split; [done|by econstructor].
Qed.

Lemma rep_holds_head k s q t : Rep k s q -> holds s t -> q !! 0%nat = Some t.
Proof.
  intros HR Ht. unfold holds in Ht.
  destruct (rep_queued k s q t HR) as [i Hi]; [by intros E; rewrite E in Ht|].
  pose proof (rep_in _ _ _ HR _ _ Hi) as Hc.
  destruct (pcs s !!! t); simpl in *; naive_solver.
Qed.

(** C1: under every interleaving of fewer than 2^32 threads the ticket lock
    gives mutual exclusion: two threads between the return of [spinlock_lock]
    and the store of [spinlock_unlock] are the same thread, although both
    counters wrap at 32 bits. *)
Theorem ticket_mutual_exclusion (n : nat) (sched : list nat) (t1 t2 : nat) :
  Z.of_nat n < 2 ^ 32 -> Forall (fun t => (t < n)%nat) sched ->
  holds (run sched init) t1 -> holds (run sched init) t2 -> t1 = t2.
Proof.
  intros Hn Hs H1 H2.
  destruct (run_rep n sched 0 init [] init_rep Hs) as (k & q & HR & _); [set_solver|done|].
  apply (rep_holds_head _ _ _ _ HR) in H1, H2. congruence.
Qed.

Lemma ticket_mutual_exclusion_witness :
  holds (run [0; 1; 0; 1]%nat init) 0%nat /\ 0%nat = 0%nat.
Proof.
  split; [vm_compute; exact I|].
  apply (ticket_mutual_exclusion 2 [0; 1; 0; 1]%nat);
    [lia | repeat constructor; lia | vm_compute; exact I | vm_compute; exact I].
Defined.

(** C20: the ticket lock refines a FIFO queue: every schedule drives an abstract
    queue on which each instruction is an arrival at the back, a departure of
    the head or no change; the queue holds exactly the threads inside
    [spinlock_lock]/[spinlock_unlock] and the holder is its head, so the lock
    is granted in the order in which tickets were drawn. *)
Theorem ticket_fifo_refinement (n : nat) (sched : list nat) :
  Z.of_nat n < 2 ^ 32 -> Forall (fun t => (t < n)%nat) sched ->
  exists q, fifo_run sched [] q /\
    (forall t, t ∈ q <-> pcs (run sched init) !!! t ≠ Outside) /\
    (forall t, holds (run sched init) t -> head q = Some t).
Proof.
  intros Hn Hs.
  destruct (run_rep n sched 0 init [] init_rep Hs) as (k & q & HR & Hf); [set_solver|done|].
  exists q. split; [done|]. split.
  - intros t. split.
    + intros [i Hi]%list_elem_of_lookup E. apply (rep_in _ _ _ HR) in Hi. by rewrite E in Hi.
    + intros Ho. destruct (rep_queued _ _ _ _ HR Ho) as [i Hi]. by eapply list_elem_of_lookup_2.
  - intros t Ht. rewrite head_lookup. by eapply rep_holds_head.
Qed.

Lemma ticket_fifo_refinement_witness :
  exists q, fifo_run [0; 1; 0; 1]%nat [] q /\
    (forall t, t ∈ q <-> pcs (run [0; 1; 0; 1]%nat init) !!! t ≠ Outside) /\
    (forall t, holds (run [0; 1; 0; 1]%nat init) t -> head q = Some t).
Proof. apply (ticket_fifo_refinement 2); [lia | repeat constructor; lia]. Defined.

Lemma rep_head_progress k s t q :
  Rep k s (t :: q) -> exists m, (m <= 3)%nat /\ pcs (run (replicate m t) s) !!! t = Outside.
Proof.
  intros HR. pose proof (rep_in _ _ _ HR 0%nat t eq_refl) as Hc.
  pose proof (rep_serving _ _ _ HR) as Hsv.
  destruct (pcs s !!! t) as [|tk| |now] eqn:Hpc; simpl in Hc.
  - done.
  - exists 3%nat. split; [lia|]. simpl. unfold step at 3. rewrite Hpc.
    unfold spinlock_lock_poll. rewrite Hsv, Hc, Z.add_0_r, Z.eqb_refl.
    unfold step at 2. simpl. rewrite lookup_total_insert_eq. simpl.
    unfold step. simpl. rewrite lookup_total_insert_eq. apply lookup_total_insert_eq.
  - exists 2%nat. split; [lia|]. simpl. unfold step at 2. rewrite Hpc.
    unfold step. simpl. rewrite lookup_total_insert_eq. apply lookup_total_insert_eq.
  - exists 1%nat. split; [lia|]. simpl. unfold step. rewrite Hpc. apply lookup_total_insert_eq.
Qed.

(** C34: the ticket lock is never stuck: in every reachable state in which some
    thread has entered [spinlock_lock] there is a thread that, scheduled three
    times at most, acquires and releases the lock. *)
Theorem ticket_progress (n : nat) (sched : list nat) (t : nat) :
  Z.of_nat n < 2 ^ 32 -> Forall (fun t => (t < n)%nat) sched ->
  pcs (run sched init) !!! t ≠ Outside ->
  exists t' m, (m <= 3)%nat /\ pcs (run sched init) !!! t' ≠ Outside /\
    pcs (run (sched ++ replicate m t') init) !!! t' = Outside.
Proof.
  intros Hn Hs Ht.
  destruct (run_rep n sched 0 init [] init_rep Hs) as (k & q & HR & _); [set_solver|done|].
  destruct (rep_queued _ _ _ _ HR Ht) as [i Hi]. destruct q as [|t' q]; [done|].
  destruct (rep_head_progress _ _ _ _ HR) as (m & Hm & Hout).
  exists t', m. split; [done|]. split.
  - intros E. pose proof (rep_in _ _ _ HR 0%nat t' eq_refl) as Hc. by rewrite E in Hc.
  - unfold run in *. by rewrite foldl_app.
Qed.

Lemma ticket_progress_witness :
  exists t' m, (m <= 3)%nat /\ pcs (run [0; 1]%nat init) !!! t' ≠ Outside /\
    pcs (run ([0; 1]%nat ++ replicate m t') init) !!! t' = Outside.
Proof.
  apply (ticket_progress 2 [0; 1]%nat 1%nat);
    [lia | repeat constructor; lia | vm_compute; discriminate].
Defined.

End Ticket.

Module RW.

Record rwspinlock := { rw_state : Z; rw_pending_writers : Z }.
#[global] Instance rwspinlock_eta : Eta rwspinlock :=
  fun r => {| rw_state := rw_state r; rw_pending_writers := rw_pending_writers r |}.

Definition rwspinlock_init : rwspinlock := {| rw_state := 0; rw_pending_writers := 0 |}.

(** The next atomic access of a thread in one of the four lock functions. *)
Inductive rwpc : Set :=
| RIdle
| RdLoadPending | RdLoadState | RdFetchAdd | RdUndo   (* rwspinlock_read_lock *)
| Reading
| WrPending | WrCas | WrDone                          (* rwspinlock_write_lock *)
| Writing.

#[global] Instance rwpc_inhabited : Inhabited rwpc := populate RIdle.

(** What an idle thread or a lock holder does when it is scheduled. *)
Inductive role : Set := Reader | Writer.

Definition rwspinlock_step (r : role) (l : rwspinlock) (c : rwpc) : rwspinlock * rwpc :=
  match c with
  | RIdle => (l, match r with Reader => RdLoadPending | Writer => WrPending end)
  | RdLoadPending => (l, if 0 <? rw_pending_writers l then RdLoadPending else RdLoadState)
  | RdLoadState => (l, if rw_state l <? 0 then RdLoadPending else RdFetchAdd)
  | RdFetchAdd =>
      (l <| rw_state := rw_state l + 1 |>, if 0 <=? rw_state l then Reading else RdUndo)
  | RdUndo => (l <| rw_state := rw_state l - 1 |>, RdLoadPending)
  | Reading => (l <| rw_state := rw_state l - 1 |>, RIdle)
  | WrPending => (l <| rw_pending_writers := u32 (rw_pending_writers l + 1) |>, WrCas)
  | WrCas => if rw_state l =? 0 then (l <| rw_state := -1 |>, WrDone) else (l, WrCas)
  | WrDone => (l <| rw_pending_writers := u32 (rw_pending_writers l - 1) |>, Writing)
  | Writing => (l <| rw_state := 0 |>, RIdle)
  end.

Record rwsys := { rwlk : rwspinlock; rwpcs : gmap nat rwpc }.

Definition rwinit : rwsys := {| rwlk := rwspinlock_init; rwpcs := ∅ |}.

Definition rwstep (s : rwsys) (a : nat * role) : rwsys :=
  let '(t, r) := a in
  let '(l, c) := rwspinlock_step r (rwlk s) (rwpcs s !!! t) in
  {| rwlk := l; rwpcs := <[t := c]> (rwpcs s) |}.

Definition rwrun (sched : list (nat * role)) (s : rwsys) : rwsys := foldl rwstep s sched.

(** Reader 2 passes its two loads before writer 0 takes the lock; its increment
    then moves the state from -1 to 0 and writer 1's compare-and-swap succeeds. *)
Definition two_writers_sched : list (nat * role) :=
  [(2, Reader); (2, Reader); (2, Reader);
   (0, Writer); (0, Writer); (0, Writer); (0, Writer);
   (2, Reader);
   (1, Writer); (1, Writer); (1, Writer); (1, Writer)]%nat.

(** C39: The reader/writer lock does not exclude writers: an execution with one
    reader and two writers puts both writers in their critical section. *)
Theorem rwspinlock_two_writers :
  exists sched, rwpcs (rwrun sched rwinit) !!! 0%nat = Writing /\
    rwpcs (rwrun sched rwinit) !!! 1%nat = Writing.
Proof. exists two_writers_sched. vm_compute. auto. Qed.

End RW.
