(* ===== verification/Pmm.v ===== *)
(** * Physical memory manager

    Models [kernel/mm/pmm.c]: the page descriptors of [vm_page.h], the doubly
    linked buddy free lists threaded through them, block merging and splitting,
    reference counts and boot-time initialisation.  Every public operation runs
    under [s_pmm_lock], so an operation is one state transformer.

    The theorems relate the linked lists to an abstract set of free blocks:
    [Inv] says the lists hold disjoint, aligned, maximally merged blocks made of
    exactly the pages whose reference count is 0. *)

From S2P Require Import Prelude.

Module Pmm.

Definition VM_PAGE_FREE : Z := 1.
Definition VM_PAGE_ACTIVE : Z := 2.
Definition VM_PAGE_WIRED : Z := 8.
Definition BUDDY_MAX_ORDER : nat := 14.
Definition CHIMERA_PAGE_SIZE : Z := 4096.
Definition SIZEOF_VM_PAGE : Z := 32.
(** [(chimera_paddr_t)-1] *)
Definition PADDR_NONE : Z := 2 ^ 64 - 1.

(** [next] and [prev] point into the descriptor array, so a pointer is an index. *)
Record vm_page := {
  next : option Z;
  prev : option Z;
  phys_page : Z;
  ref_count : Z;
  wire_count : Z;
  flags : Z;
  order : Z
}.
#[global] Instance vm_page_eta : Eta vm_page := fun r =>
  {| next := next r; prev := prev r; phys_page := phys_page r; ref_count := ref_count r;
     wire_count := wire_count r; flags := flags r; order := order r |}.
#[global] Instance vm_page_inhabited : Inhabited vm_page := populate
  {| next := None; prev := None; phys_page := 0; ref_count := 0; wire_count := 0;
     flags := 0; order := 0 |}.

Record pmm := {
  s_pages : gmap Z vm_page;
  s_buddy_freelist : gmap nat (option Z);
  s_max_phys_page : Z;
  s_total_ram_pages : Z;
  s_free_pages : Z
}.
#[global] Instance pmm_eta : Eta pmm := fun r =>
  {| s_pages := s_pages r; s_buddy_freelist := s_buddy_freelist r;
     s_max_phys_page := s_max_phys_page r; s_total_ram_pages := s_total_ram_pages r;
     s_free_pages := s_free_pages r |}.

Definition pg (s : pmm) (i : Z) : vm_page := s_pages s !!! i.
Definition set_pg (i : Z) (f : vm_page -> vm_page) (s : pmm) : pmm :=
  s <| s_pages ::= fun m => <[i := f (m !!! i)]> m |>.
Definition set_head (o : nat) (h : option Z) (s : pmm) : pmm :=
  s <| s_buddy_freelist ::= <[o := h]> |>.

(** [1U << order] *)
Definition bsize (o : nat) : Z := 2 ^ Z.of_nat o.

(** ** Free lists *)

Definition buddy_list_add (o : nat) (page : Z) (s : pmm) : pmm :=
  let h := s_buddy_freelist s !!! o in
  let s := set_pg page (fun p => p <| order := u16 (Z.of_nat o) |> <| flags := VM_PAGE_FREE |>
                                   <| next := h |> <| prev := None |>) s in
  let s := match h with
           | Some x => set_pg x (fun p => p <| prev := Some page |>) s
           | None => s
           end in
  set_head o (Some page) s.

Definition buddy_list_remove (o : nat) (page : Z) (s : pmm) : pmm :=
  let pr := prev (pg s page) in
  let nx := next (pg s page) in
  let s := match pr with
           | Some q => set_pg q (fun p => p <| next := nx |>) s
           | None => set_head o nx s
           end in
  let s := match nx with
           | Some q => set_pg q (fun p => p <| prev := pr |>) s
           | None => s
           end in
  set_pg page (fun p => p <| next := None |> <| prev := None |> <| flags := 0 |>) s.

(** The merge loop of [buddy_free_block]; it runs at most [BUDDY_MAX_ORDER] times
    because [order] grows in every iteration. *)
Fixpoint buddy_merge (fuel : nat) (pfn : Z) (o : nat) (s : pmm) : pmm * Z * nat :=
  match fuel with
  | O => (s, pfn, o)
  | S fuel =>
      if (o <? BUDDY_MAX_ORDER)%nat then
        let buddy_pfn := Z.lxor pfn (bsize o) in
        if s_max_phys_page s <=? buddy_pfn then (s, pfn, o)
        else
          let b := pg s buddy_pfn in
          if negb (has (flags b) VM_PAGE_FREE) || negb (order b =? Z.of_nat o)
             || negb (ref_count b =? 0)
          then (s, pfn, o)
          else
            buddy_merge fuel (if buddy_pfn <? pfn then buddy_pfn else pfn) (S o)
              (buddy_list_remove o buddy_pfn s)
      else (s, pfn, o)
  end.

Definition buddy_free_block (pfn : Z) (o : nat) (s : pmm) : pmm :=
  let '(s, pfn, o) := buddy_merge BUDDY_MAX_ORDER pfn o s in
  buddy_list_add o pfn s.

(** ** Allocation *)

(** The search for a non-empty list, upwards from [cur]; [None] when [cur]
    passes [BUDDY_MAX_ORDER]. *)
Fixpoint find_order (fuel : nat) (cur : nat) (s : pmm) : option (nat * Z) :=
  match fuel with
  | O => None
  | S fuel =>
      if (BUDDY_MAX_ORDER <? cur)%nat then None
      else match s_buddy_freelist s !!! cur with
           | Some block => Some (cur, block)
           | None => find_order fuel (S cur) s
           end
  end.

(** The split loop: give back the upper halves until [cur] is the target order. *)
Fixpoint buddy_split (cur o : nat) (block : Z) (s : pmm) : pmm :=
  match cur with
  | O => s
  | S c =>
      if (o <? S c)%nat then
        let buddy_pfn := u32 (phys_page (pg s block) + bsize c) in
        buddy_split c o block (buddy_list_add c buddy_pfn s)
      else s
  end.

Definition mark_active (o : nat) (block : Z) (s : pmm) : pmm :=
  foldl (fun s i =>
    set_pg (phys_page (pg s block) + i)
      (fun p => p <| ref_count := 1 |> <| wire_count := 0 |> <| flags := VM_PAGE_ACTIVE |>
                  <| order := u16 (Z.of_nat o) |>) s)
    s (seqZ 0 (bsize o)).

Definition pmm_alloc_order_unlocked (o : nat) (s : pmm) : pmm * Z :=
  if (BUDDY_MAX_ORDER <? o)%nat then (s, PADDR_NONE)
  else match find_order (S BUDDY_MAX_ORDER) o s with
       | None => (s, PADDR_NONE)
       | Some (cur, block) =>
           let s := buddy_list_remove cur block s in
           let s := buddy_split cur o block s in
           let s := mark_active o block s in
           let s := s <| s_free_pages ::= fun n => u64 (n - bsize o) |> in
           (s, u64 (phys_page (pg s block) * CHIMERA_PAGE_SIZE))
       end.

Definition pmm_alloc_page (s : pmm) : pmm * Z :=
  let '(s, addr) := pmm_alloc_order_unlocked 0 s in
  (s, if addr =? PADDR_NONE then 0 else addr).

(** The order loop of [pmm_alloc_pages]. *)
Fixpoint order_for (fuel : nat) (o : nat) (count : Z) : option nat :=
  if bsize o <? count then
    match fuel with
    | O => None
    | S fuel => if (BUDDY_MAX_ORDER <? S o)%nat then None else order_for fuel (S o) count
    end
  else Some o.

Definition pmm_alloc_pages (count : Z) (s : pmm) : pmm * Z :=
  if count =? 0 then (s, PADDR_NONE)
  else if count =? 1 then pmm_alloc_page s
  else match order_for (S BUDDY_MAX_ORDER) 0 count with
       | None => (s, PADDR_NONE)
       | Some o => pmm_alloc_order_unlocked o s
       end.

(** ** Reference counts *)

Definition pmm_retain_page (addr : Z) (s : pmm) : pmm :=
  let idx := addr / CHIMERA_PAGE_SIZE in
  if s_max_phys_page s <=? idx then s
  else if ref_count (pg s idx) <? 65535
       then set_pg idx (fun p => p <| ref_count ::= Z.succ |>) s
       else s.

Definition pmm_release_page (addr : Z) (s : pmm) : pmm :=
  let idx := addr / CHIMERA_PAGE_SIZE in
  if s_max_phys_page s <=? idx then s
  else if 0 <? ref_count (pg s idx) then
    let s := set_pg idx (fun p => p <| ref_count ::= Z.pred |>) s in
    if ref_count (pg s idx) =? 0 then
      let s := set_pg idx (fun p => p <| wire_count := 0 |> <| flags := 0 |>) s in
      let s := buddy_free_block (u32 idx) 0 s in
      s <| s_free_pages ::= fun n => u64 (n + 1) |>
    else s
  else s.

Definition pmm_get_refcount (addr : Z) (s : pmm) : Z :=
  let idx := addr / CHIMERA_PAGE_SIZE in
  if s_max_phys_page s <=? idx then 0 else ref_count (pg s idx).

Definition pmm_free_page (addr : Z) (s : pmm) : pmm := pmm_release_page addr s.

Definition pmm_free_contiguous (addr count : Z) (s : pmm) : pmm :=
  if (addr =? PADDR_NONE) || (addr =? 0) || (count =? 0) then s
  else foldl (fun s i => pmm_release_page (u64 (addr + i * CHIMERA_PAGE_SIZE)) s)
         s (seqZ 0 count).

Definition pmm_total_pages (s : pmm) : Z := s_total_ram_pages s.
Definition pmm_free_pages (s : pmm) : Z := s_free_pages s.

(** The boot loop that makes every descriptor wired before any page is freed. *)
Definition wired_page (i : Z) : vm_page :=
  {| next := None; prev := None; phys_page := u32 i; ref_count := 1; wire_count := 1;
     flags := VM_PAGE_WIRED; order := 0 |}.

Definition wire_pages (max : Z) (s : pmm) : pmm :=
  foldl (fun s i => set_pg i (fun _ => wired_page i) s) s (seqZ 0 max).

(** ** Interleavings of the public operations *)

Inductive pmm_step (s : pmm) : pmm -> Prop :=
| step_alloc count : 0 <= count -> pmm_step s (fst (pmm_alloc_pages count s))
| step_retain addr :
    (* only the holder of a reference may duplicate it *)
    0 <= addr / CHIMERA_PAGE_SIZE < s_max_phys_page s ->
    0 < ref_count (pg s (addr / CHIMERA_PAGE_SIZE)) -> pmm_step s (pmm_retain_page addr s)
| step_release addr : 0 <= addr -> pmm_step s (pmm_release_page addr s)
| step_free_contiguous addr count : 0 <= addr -> pmm_step s (pmm_free_contiguous addr count s).

(** ** Blocks and buddies *)

Definition in_block (p : Z) (o : nat) (x : Z) : Prop := p <= x < p + bsize o.
Definition buddy (p : Z) (o : nat) : Z := Z.lxor p (bsize o).

Lemma bsize_pos o : 0 < bsize o.
Proof. apply Z.pow_pos_nonneg; lia. Qed.

Lemma bsize_S o : bsize (S o) = 2 * bsize o.
Proof. unfold bsize. rewrite Nat2Z.inj_succ, Z.pow_succ_r by lia. done. Qed.

Lemma bsize_plus a b : bsize (a + b) = bsize a * bsize b.
Proof. unfold bsize. rewrite Nat2Z.inj_add, Z.pow_add_r by lia. done. Qed.

Lemma bsize_le a b : (a <= b)%nat -> bsize a <= bsize b.
Proof. intros. apply Z.pow_le_mono_r; lia. Qed.

Lemma aligned_le p a b : (a <= b)%nat -> (bsize b | p) -> (bsize a | p).
Proof.
  intros Hab Hd. etrans; [|exact Hd]. replace b with (a + (b - a))%nat by lia.
  rewrite bsize_plus. by exists (bsize (b - a)); lia.
Qed.

Lemma lxor_1 q : 0 <= q -> Z.lxor q 1 = if Z.even q then q + 1 else q - 1.
Proof. intros Hq. by destruct q as [|[]|]. Qed.

(** The buddy of a block is its other half of the block of the next order. *)
Lemma buddy_cases p o :
  0 <= p -> (bsize o | p) ->
  ((bsize (S o) | p) /\ buddy p o = p + bsize o) \/
  ((bsize (S o) | p - bsize o) /\ buddy p o = p - bsize o).
Proof.
  intros Hp [q ->]. pose proof (bsize_pos o) as Hb. rewrite bsize_S. unfold buddy.
  assert (Hx : Z.lxor (q * bsize o) (bsize o) = Z.lxor q 1 * bsize o).
  { unfold bsize. rewrite <- (Z.mul_1_l (2 ^ Z.of_nat o)) at 2.
    rewrite <- !Z.shiftl_mul_pow2 by lia. by rewrite Z.shiftl_lxor. }
  rewrite Hx, lxor_1 by nia. destruct (Z.even q) eqn:E.
  - left. apply Z.even_spec in E as [r ->]. split; [exists r; lia | lia].
  - right. rewrite <- Z.negb_odd in E. apply negb_false_iff, Z.odd_spec in E as [r ->].
    split; [exists r; lia | lia].
Qed.

Lemma buddy_merge_block p o :
  0 <= p -> (bsize o | p) ->
  let p' := if buddy p o <? p then buddy p o else p in
  0 <= p' /\ (bsize (S o) | p') /\
  (forall x, in_block p' (S o) x <-> in_block p o x \/ in_block (buddy p o) o x) /\
  (forall x, in_block p o x -> ~ in_block (buddy p o) o x).
Proof.
  intros Hp Hd. pose proof (bsize_pos o). unfold in_block. rewrite bsize_S.
  destruct (buddy_cases p o) as [[Hd' E]|[Hd' E]]; [done..| |]; rewrite E; simpl.
  - destruct (Z.ltb_spec (p + bsize o) p); [lia|]. repeat split; [done|by rewrite <- bsize_S|lia..].
  - destruct (Z.ltb_spec (p - bsize o) p); [|lia].
    assert (0 <= p - bsize o) by (destruct Hd' as [q Hq]; rewrite bsize_S in Hq; assert (0 <= q) by nia; nia).
    repeat split; [done|by rewrite <- bsize_S|lia..].
Qed.

Lemma buddy_involutive p o : buddy (buddy p o) o = p.
Proof. unfold buddy. rewrite Z.lxor_assoc, Z.lxor_nilpotent. apply Z.lxor_0_r. Qed.

Lemma buddy_ne p o : buddy p o ≠ p.
Proof.
  intros E. pose proof (bsize_pos o). assert (Z.lxor p (buddy p o) = 0) as E' by (rewrite E; apply Z.lxor_nilpotent).
  unfold buddy in E'. rewrite <- Z.lxor_assoc, Z.lxor_nilpotent, Z.lxor_0_l in E'. lia.
Qed.

Lemma aligned_sub_block p o b o' x :
  (o' <= o)%nat -> (bsize o | p) -> (bsize o' | b) -> in_block p o x -> in_block b o' x ->
  forall y, in_block b o' y -> in_block p o y.
Proof.
  intros Ho Hp Hb. pose proof (aligned_le _ _ _ Ho Hp) as [q ->]. destruct Hb as [r ->].
  assert (Hs : exists k, bsize o = k * bsize o').
  { exists (bsize (o - o')). rewrite <- bsize_plus. f_equal. lia. }
  destruct Hs as [k Hk]. pose proof (bsize_pos o'). unfold in_block. rewrite Hk. intros Hx1 Hx2 y Hy.
  assert (q <= r) by nia. assert (r + 1 <= q + k) by nia. nia.
Qed.

(** ** The invariant of the free lists *)

(** [fl o] are the heads of the free blocks of order [o], in list order; [L] are
    the free pages in transit, in no block, in the middle of an operation. *)
Record Inv (s : pmm) (fl : nat -> list Z) (L : Z -> Prop) : Prop := {
  inv_max : 0 <= s_max_phys_page s <= 2 ^ 32;
  inv_phys : forall x, 0 <= x < s_max_phys_page s -> phys_page (pg s x) = x;
  inv_ref : forall x, 0 <= x < s_max_phys_page s -> 0 <= ref_count (pg s x) <= 65535;
  inv_list : forall o, dchain (fun x => next (pg s x)) (fun x => prev (pg s x)) None
                         (s_buddy_freelist s !!! o) (fl o);
  inv_block : forall o p, p ∈ fl o ->
    (o <= BUDDY_MAX_ORDER)%nat /\ 0 <= p /\ (bsize o | p) /\ p + bsize o <= s_max_phys_page s /\
    flags (pg s p) = VM_PAGE_FREE /\ order (pg s p) = Z.of_nat o;
  inv_disj : forall o o' p p' x, p ∈ fl o -> p' ∈ fl o' ->
    in_block p o x -> in_block p' o' x -> o = o' /\ p = p';
  inv_flag : forall x, 0 <= x < s_max_phys_page s -> has (flags (pg s x)) VM_PAGE_FREE = true ->
    x ∈ fl (Z.to_nat (order (pg s x)));
  inv_free : forall x, 0 <= x < s_max_phys_page s ->
    ref_count (pg s x) = 0 <-> L x \/ exists o p, p ∈ fl o /\ in_block p o x;
  inv_loose : forall x, L x ->
    0 <= x < s_max_phys_page s /\ forall o p, p ∈ fl o -> ~ in_block p o x;
  inv_merged : forall o p, p ∈ fl o -> (o < BUDDY_MAX_ORDER)%nat -> buddy p o ∉ fl o
}.

Definition no_loose (x : Z) : Prop := False.

Lemma Inv_ext s fl L L' : (forall x, L x <-> L' x) -> Inv s fl L -> Inv s fl L'.
Proof.
  intros HL [? ? ? ? ? ? ? Hf Hl ?]. constructor; try done.
  - intros x Hx. rewrite <- HL. by apply Hf.
  - intros x Hx. apply Hl. by apply HL.
Qed.

Lemma in_block_head p o : in_block p o p.
Proof. pose proof (bsize_pos o). unfold in_block. lia. Qed.

Lemma heads_unique s fl L o o' p : Inv s fl L -> p ∈ fl o -> p ∈ fl o' -> o = o'.
Proof.
  intros HI H1 H2.
  by destruct (inv_disj _ _ _ HI o o' p p p H1 H2 (in_block_head _ _) (in_block_head _ _)).
Qed.

Lemma pg_set s i f x : pg (set_pg i f s) x = if decide (x = i) then f (pg s i) else pg s x.
Proof.
  unfold pg, set_pg. simpl. destruct (decide (x = i)) as [->|].
  - by rewrite lookup_total_insert_eq.
  - by rewrite lookup_total_insert_ne.
Qed.

Lemma set_pg_twice s i f g : set_pg i g (set_pg i f s) = set_pg i (fun p => g (f p)) s.
Proof.
  unfold set_pg, fupd. cbn [s_pages s_buddy_freelist s_max_phys_page s_total_ram_pages s_free_pages].
  by rewrite lookup_total_insert_eq, insert_insert_eq.
Qed.

Lemma pg_set_head s o h x : pg (set_head o h s) x = pg s x.
Proof. done. Qed.

Lemma pg_free_pages s f x : pg (s <| s_free_pages ::= f |>) x = pg s x.
Proof. done. Qed.

Ltac pg_cases :=
  repeat (rewrite !pg_set || rewrite !pg_set_head); cbn;
  repeat (case_decide; subst; cbn in *); repeat split; intros; simplify_eq; try congruence; auto.

(** What unlinking does to every descriptor. *)
Lemma remove_pg o p s x :
  let s' := buddy_list_remove o p s in
  let pr := prev (pg s p) in
  let nx := next (pg s p) in
  ref_count (pg s' x) = ref_count (pg s x) /\ phys_page (pg s' x) = phys_page (pg s x) /\
  order (pg s' x) = order (pg s x) /\
  flags (pg s' x) = (if decide (x = p) then 0 else flags (pg s x)) /\
  (x ≠ p -> next (pg s' x) = (if decide (Some x = pr) then nx else next (pg s x))) /\
  (x ≠ p -> prev (pg s' x) = (if decide (Some x = nx) then pr else prev (pg s x))).
Proof.
  unfold buddy_list_remove.
  destruct (prev (pg s p)) as [q|] eqn:Hq, (next (pg s p)) as [r|] eqn:Hr; pg_cases.
Qed.

Lemma remove_frame o p s :
  let s' := buddy_list_remove o p s in
  s_max_phys_page s' = s_max_phys_page s /\ s_free_pages s' = s_free_pages s /\
  s_total_ram_pages s' = s_total_ram_pages s /\
  (forall o', s_buddy_freelist s' !!! o' =
     if decide (o' = o) then
       (if prev (pg s p) is Some _ then s_buddy_freelist s !!! o else next (pg s p))
     else s_buddy_freelist s !!! o').
Proof.
  unfold buddy_list_remove.
  destruct (prev (pg s p)) as [q|], (next (pg s p)) as [r|]; cbn;
    (split; [done|]); (split; [done|]); (split; [done|]); intros o'; case_decide; subst; try done;
    by rewrite ?lookup_total_insert_eq, ?lookup_total_insert_ne.
Qed.

Lemma dchain_links {A} `{EqDecision A} (nxt prv : A -> option A) h l1 x l2 y :
  dchain nxt prv None h (l1 ++ x :: l2) ->
  Some y = prv x \/ Some y = nxt x -> y ∈ l1 ++ l2.
Proof.
  intros Hl [E|E].
  - rewrite (dchain_prev _ _ _ _ _ _ _ Hl) in E. destruct (last l1) eqn:El; [|done].
    simpl in E. injection E as ->. apply last_Some_elem_of in El. set_solver.
  - rewrite (dchain_next _ _ _ _ _ _ _ Hl) in E. destruct l2; [done|]. set_solver.
Qed.

Definition updl (fl : nat -> list Z) (o : nat) (l : list Z) (o' : nat) : list Z :=
  if decide (o' = o) then l else fl o'.

(** Unlinking a block makes its pages loose. *)
Lemma remove_inv s fl L o p :
  Inv s fl L -> p ∈ fl o ->
  exists fl', Inv (buddy_list_remove o p s) fl' (fun x => L x \/ in_block p o x) /\
    forall o' x, x ∈ fl' o' <-> x ∈ fl o' /\ ~ (o' = o /\ x = p).
Proof.
  intros HI Hp. apply list_elem_of_split in Hp as (l1 & l2 & Hfl).
  pose proof (inv_list _ _ _ HI o) as Hch. rewrite Hfl in Hch.
  pose proof (dchain_NoDup _ _ _ _ _ Hch) as Hnd.
  assert (Hpo : p ∈ fl o) by (rewrite Hfl; set_solver).
  assert (Hp12 : p ∉ l1 ++ l2).
  { apply NoDup_app in Hnd as (_ & Hd & [? _]%NoDup_cons). specialize (Hd p). set_solver. }
  set (fl' := updl fl o (l1 ++ l2)).
  assert (Hmem : forall o' x, x ∈ fl' o' <-> x ∈ fl o' /\ ~ (o' = o /\ x = p)).
  { intros o' x. unfold fl', updl. case_decide; subst; [rewrite Hfl|]; set_solver. }
  exists fl'. split; [|done].
  destruct (remove_frame o p s) as (Hmax & _ & _ & Hhd).
  pose proof (remove_pg o p s) as Hpg. cbv zeta in *.
  destruct (inv_block _ _ _ HI o p Hpo) as (Ho & Hp0 & Hpa & Hpm & _).
  constructor; rewrite ?Hmax.
  - apply (inv_max _ _ _ HI).
  - intros x Hx. destruct (Hpg x) as (_ & -> & _). by apply (inv_phys _ _ _ HI).
  - intros x Hx. destruct (Hpg x) as (-> & _). by apply (inv_ref _ _ _ HI).
  - intros o'. rewrite Hhd. unfold fl', updl. case_decide as Ho'; subst.
    + apply (dchain_remove (fun x => next (pg s x)) _ (fun x => prev (pg s x))); [done|..];
        intros y Hy; apply (Hpg y); set_solver.
    + eapply dchain_frame; [|exact (inv_list _ _ _ HI o')]. intros y Hy.
      assert (y ∉ fl o) by (intros Hy'; apply Ho'; by eapply heads_unique).
      assert (Hy12 : y ∉ l1 ++ l2) by (rewrite Hfl in *; set_solver).
      destruct (Hpg y) as (_ & _ & _ & _ & Hn & Hpv).
      rewrite Hn, Hpv by set_solver.
      rewrite !decide_False; [done|..]; intros E; apply Hy12;
        apply (dchain_links _ _ _ _ _ _ _ Hch); auto.
  - intros o' x [Hx Hne]%Hmem. destruct (Hpg x) as (_ & _ & -> & -> & _).
    destruct (inv_block _ _ _ HI o' x Hx) as (? & ? & ? & ? & ? & ?). rewrite decide_False; [done|].
    intros ->. apply Hne. split; [by eapply heads_unique|done].
  - intros o1 o2 p1 p2 x [H1 _]%Hmem [H2 _]%Hmem. by apply (inv_disj _ _ _ HI).
  - intros x Hx. destruct (Hpg x) as (_ & _ & -> & -> & _). case_decide; [done|].
    intros Hf. apply Hmem. split; [by apply (inv_flag _ _ _ HI)|]. naive_solver.
  - intros x Hx. destruct (Hpg x) as (-> & _). rewrite (inv_free _ _ _ HI) by done. split.
    + intros [HL|(o' & q & Hq & Hb)]; [auto|].
      destruct (decide (o' = o /\ q = p)) as [[-> ->]|Hne]; [auto|].
      right. exists o', q. rewrite Hmem. done.
    + intros [[HL|Hb]|(o' & q & [Hq _]%Hmem & Hb)]; eauto.
  - intros x [HL|Hb].
    + destruct (inv_loose _ _ _ HI x HL) as [? Hn]. split; [done|].
      intros o' q [Hq _]%Hmem. by apply Hn.
    + split; [unfold in_block in Hb; lia|]. intros o' q [Hq Hne]%Hmem Hb'. apply Hne.
      destruct (inv_disj _ _ _ HI o' o q p x); auto.
  - intros o' q [Hq _]%Hmem Ho' [Hb _]%Hmem. exact (inv_merged _ _ _ HI o' q Hq Ho' Hb).
Qed.

Lemma add_pg o p s x :
  let s' := buddy_list_add o p s in
  let h := s_buddy_freelist s !!! o in
  ref_count (pg s' x) = ref_count (pg s x) /\ phys_page (pg s' x) = phys_page (pg s x) /\
  order (pg s' x) = (if decide (x = p) then u16 (Z.of_nat o) else order (pg s x)) /\
  flags (pg s' x) = (if decide (x = p) then VM_PAGE_FREE else flags (pg s x)) /\
  next (pg s' x) = (if decide (x = p) then h else next (pg s x)) /\
  prev (pg s' x) = (if decide (Some x = h) then Some p
                    else if decide (x = p) then None else prev (pg s x)).
Proof.
  unfold buddy_list_add. destruct (s_buddy_freelist s !!! o) as [q|] eqn:Hq; pg_cases.
Qed.

Lemma add_frame o p s :
  let s' := buddy_list_add o p s in
  s_max_phys_page s' = s_max_phys_page s /\ s_free_pages s' = s_free_pages s /\
  s_total_ram_pages s' = s_total_ram_pages s /\
  (forall o', s_buddy_freelist s' !!! o' =
     if decide (o' = o) then Some p else s_buddy_freelist s !!! o').
Proof.
  unfold buddy_list_add. destruct (s_buddy_freelist s !!! o) as [q|]; cbn;
    (split; [done|]); (split; [done|]); (split; [done|]); intros o'; case_decide; subst;
    by rewrite ?lookup_total_insert_eq, ?lookup_total_insert_ne.
Qed.

(** Linking a loose block. *)
Lemma add_inv s fl L o p :
  Inv s fl (fun x => L x \/ in_block p o x) ->
  (o <= BUDDY_MAX_ORDER)%nat -> 0 <= p -> (bsize o | p) ->
  (forall x, L x -> ~ in_block p o x) ->
  ((o < BUDDY_MAX_ORDER)%nat -> buddy p o ∉ fl o) ->
  exists fl', Inv (buddy_list_add o p s) fl' L /\
    forall o' x, x ∈ fl' o' <-> x ∈ fl o' \/ (o' = o /\ x = p).
Proof.
  intros HI Ho Hp0 Hpa HLd Hbud.
  assert (Hfree : forall o' q x, q ∈ fl o' -> in_block q o' x -> ~ in_block p o x).
  { intros o' q x Hq Hb Hx. destruct (inv_loose _ _ _ HI x (or_intror Hx)) as [_ Hn].
    by eapply Hn. }
  assert (Hpn : forall o', p ∉ fl o').
  { intros o' Hin. eapply Hfree; [exact Hin|apply in_block_head|apply in_block_head]. }
  set (fl' := updl fl o (p :: fl o)).
  assert (Hmem : forall o' x, x ∈ fl' o' <-> x ∈ fl o' \/ (o' = o /\ x = p)).
  { intros o' x. unfold fl', updl. case_decide; subst; set_solver. }
  exists fl'. split; [|done].
  destruct (add_frame o p s) as (Hmax & _ & _ & Hhd).
  pose proof (add_pg o p s) as Hpg. cbv zeta in *.
  assert (Hord : u16 (Z.of_nat o) = Z.of_nat o).
  { apply u16_id. unfold BUDDY_MAX_ORDER in Ho. lia. }
  assert (Hpm : p + bsize o <= s_max_phys_page s).
  { pose proof (bsize_pos o).
    destruct (inv_loose _ _ _ HI (p + bsize o - 1)) as [? _]; [|lia]. unfold in_block. right. lia. }
  assert (Hhead : forall o', s_buddy_freelist s !!! o' ≠ Some p).
  { intros o' E. destruct (dchain_head _ _ _ _ _ _ (inv_list _ _ _ HI o') E) as [l' Hl].
    apply (Hpn o'). rewrite Hl. set_solver. }
  constructor; rewrite ?Hmax.
  - apply (inv_max _ _ _ HI).
  - intros x Hx. destruct (Hpg x) as (_ & -> & _). by apply (inv_phys _ _ _ HI).
  - intros x Hx. destruct (Hpg x) as (-> & _). by apply (inv_ref _ _ _ HI).
  - intros o'. rewrite Hhd. unfold fl', updl. case_decide as Ho'; subst.
    + eapply dchain_push; [exact (inv_list _ _ _ HI o)|apply Hpn|..].
      * destruct (Hpg p) as (_ & _ & _ & _ & -> & _). by rewrite decide_True.
      * destruct (Hpg p) as (_ & _ & _ & _ & _ & ->).
        rewrite decide_False by (intros E; by apply (Hhead o)). by rewrite decide_True.
      * intros y Hy. destruct (Hpg y) as (_ & _ & _ & _ & -> & _).
        rewrite decide_False; [done|]. intros ->. by apply (Hpn o).
      * intros y Hy. destruct (Hpg y) as (_ & _ & _ & _ & _ & ->). case_decide; [done|].
        rewrite decide_False; [done|]. intros ->. by apply (Hpn o).
    + eapply dchain_frame; [|exact (inv_list _ _ _ HI o')]. intros y Hy.
      assert (y ≠ p) by (intros ->; by apply (Hpn o')).
      destruct (Hpg y) as (_ & _ & _ & _ & -> & ->).
      rewrite !(decide_False (P := y = p)) by done. split; [done|].
      rewrite decide_False; [done|]. intros E. apply Ho'.
      destruct (dchain_head _ _ _ _ _ _ (inv_list _ _ _ HI o) (eq_sym E)) as [l' Hl].
      eapply heads_unique; [exact HI|exact Hy|]. rewrite Hl. set_solver.
  - intros o' x [Hx|[-> ->]]%Hmem.
    + destruct (Hpg x) as (_ & _ & Hox & Hfx & _). destruct (inv_block _ _ _ HI o' x Hx) as (? & ? & ? & ? & ? & ?).
      assert (x ≠ p) by (intros ->; by apply (Hpn o')).
      rewrite Hox, Hfx, !decide_False by done. done.
    + destruct (Hpg p) as (_ & _ & -> & -> & _). rewrite !decide_True by done. done.
  - intros o1 o2 p1 p2 x [H1|[-> ->]]%Hmem [H2|[-> ->]]%Hmem; try done.
    + by apply (inv_disj _ _ _ HI).
    + intros Hb1 Hb2. by destruct (Hfree _ _ _ H1 Hb1).
    + intros Hb1 Hb2. by destruct (Hfree _ _ _ H2 Hb2).
  - intros x Hx. destruct (Hpg x) as (_ & _ & -> & -> & _). case_decide as Hxp.
    + intros _. rewrite Hord, Nat2Z.id. apply Hmem. auto.
    + intros Hf. apply Hmem. left. by apply (inv_flag _ _ _ HI).
  - intros x Hx. destruct (Hpg x) as (-> & _). rewrite (inv_free _ _ _ HI) by done. split.
    + intros [[HL|Hb]|(o' & q & Hq & Hb)]; [auto|..].
      * right. exists o, p. rewrite Hmem. auto.
      * right. exists o', q. rewrite Hmem. auto.
    + intros [HL|(o' & q & [Hq|[-> ->]]%Hmem & Hb)]; eauto.
  - intros x HL. destruct (inv_loose _ _ _ HI x (or_introl HL)) as [? Hn]. split; [done|].
    intros o' q [Hq|[-> ->]]%Hmem; [by apply Hn|by apply HLd].
  - intros o' q [Hq|[-> ->]]%Hmem Ho' [Hb|[Eo Eb]]%Hmem.
    + exact (inv_merged _ _ _ HI o' q Hq Ho' Hb).
    + subst o'. apply (Hbud Ho'). by rewrite <- Eb, buddy_involutive.
    + by apply Hbud.
    + by apply (buddy_ne p o).
Qed.

(** List surgery touches neither reference counts nor the global counters. *)
Definition frame (s s' : pmm) : Prop :=
  s_max_phys_page s' = s_max_phys_page s /\ s_free_pages s' = s_free_pages s /\
  s_total_ram_pages s' = s_total_ram_pages s /\
  (forall x, ref_count (pg s' x) = ref_count (pg s x)).

#[global] Instance frame_preorder : PreOrder frame.
Proof.
  split; unfold frame; [done|].
  intros s1 s2 s3 (? & ? & ? & Hr) (? & ? & ? & Hr'). repeat split; try congruence.
Qed.

Lemma remove_keeps o p s : frame s (buddy_list_remove o p s).
Proof.
  destruct (remove_frame o p s) as (? & ? & ? & _). repeat split; try done.
  intros x. apply (remove_pg o p s x).
Qed.

Lemma add_keeps o p s : frame s (buddy_list_add o p s).
Proof.
  destruct (add_frame o p s) as (? & ? & ? & _). repeat split; try done.
  intros x. apply (add_pg o p s x).
Qed.

Lemma block_head_free s fl L o p : Inv s fl L -> p ∈ fl o -> ref_count (pg s p) = 0.
Proof.
  intros HI Hp. destruct (inv_block _ _ _ HI o p Hp) as (_ & ? & _ & ? & _).
  pose proof (bsize_pos o). apply (inv_free _ _ _ HI); [lia|].
  right. exists o, p. split; [done|apply in_block_head].
Qed.

(** The test of the merge loop decides membership in the free list. *)
Lemma merge_test s fl L o b :
  Inv s fl L -> 0 <= b < s_max_phys_page s ->
  negb (has (flags (pg s b)) VM_PAGE_FREE) || negb (order (pg s b) =? Z.of_nat o)
    || negb (ref_count (pg s b) =? 0) = false <-> b ∈ fl o.
Proof.
  intros HI Hb. rewrite !orb_false_iff, !negb_false_iff, !Z.eqb_eq. split.
  - intros [[Hf Ho] _]. apply (inv_flag _ _ _ HI) in Hf; [|done]. by rewrite Ho, Nat2Z.id in Hf.
  - intros Hin. destruct (inv_block _ _ _ HI o b Hin) as (_ & _ & _ & _ & -> & ->).
    by rewrite (block_head_free _ _ _ _ _ HI Hin).
Qed.

Lemma merge_inv fuel pfn o s fl :
  Inv s fl (in_block pfn o) -> (o <= BUDDY_MAX_ORDER <= fuel + o)%nat ->
  0 <= pfn -> (bsize o | pfn) ->
  let '(s', p', o') := buddy_merge fuel pfn o s in
  exists fl', Inv s' fl' (in_block p' o') /\ frame s s' /\ (o' <= BUDDY_MAX_ORDER)%nat /\
    0 <= p' /\ (bsize o' | p') /\ ((o' < BUDDY_MAX_ORDER)%nat -> buddy p' o' ∉ fl' o').
Proof.
  revert pfn o s fl. induction fuel as [|fuel IH]; intros pfn o s fl HI Ho Hp Ha; simpl.
  { exists fl. split_and!; try done; intros; lia. }
  destruct (Nat.ltb_spec o BUDDY_MAX_ORDER) as [Hlt|Hge].
  2:{ exists fl. split_and!; try done; intros; lia. }
  fold (buddy pfn o).
  assert (Hb0 : 0 <= buddy pfn o).
  { apply Z.lxor_nonneg. pose proof (bsize_pos o). lia. }
  destruct (Z.leb_spec (s_max_phys_page s) (buddy pfn o)) as [Hout|Hin].
  { exists fl. split_and!; try done; [lia|]. intros _ Hb.
    destruct (inv_block _ _ _ HI _ _ Hb) as (_ & _ & _ & ? & _). pose proof (bsize_pos o). lia. }
  destruct (_ || _) eqn:Ht.
  { exists fl. split_and!; try done; [lia|]. intros _ Hb.
    apply (merge_test _ _ _ _ _ HI) in Hb; [congruence|lia]. }
  apply (merge_test _ _ _ _ _ HI) in Ht; [|lia].
  destruct (remove_inv _ _ _ _ _ HI Ht) as (fl1 & HI1 & _).
  destruct (buddy_merge_block pfn o Hp Ha) as (Hp' & Ha' & Hblk & _).
  specialize (IH (if buddy pfn o <? pfn then buddy pfn o else pfn) (S o) (buddy_list_remove o (buddy pfn o) s) fl1).
  destruct (buddy_merge _ _ _ _) as [[s' p'] o'].
  destruct IH as (fl' & HI' & Hfr & Hrest); [|lia|exact Hp'|exact Ha'|].
  - eapply Inv_ext; [|exact HI1]. intros x. rewrite (Hblk x). tauto.
  - exists fl'. split; [done|]. split; [|done]. etrans; [apply remove_keeps|done].
Qed.

(** Freeing a loose block links it, merged as far as possible. *)
Lemma free_block_inv pfn o s fl :
  Inv s fl (in_block pfn o) -> (o <= BUDDY_MAX_ORDER)%nat -> 0 <= pfn -> (bsize o | pfn) ->
  exists fl', Inv (buddy_free_block pfn o s) fl' no_loose /\ frame s (buddy_free_block pfn o s).
Proof.
  intros HI Ho Hp Ha. pose proof (merge_inv BUDDY_MAX_ORDER pfn o s fl HI) as HM.
  unfold buddy_free_block. destruct (buddy_merge _ _ _ _) as [[s' p'] o'].
  destruct HM as (fl' & HI' & Hfr & Ho' & Hp' & Ha' & Hb); [lia|done|done|].
  destruct (add_inv s' fl' no_loose o' p') as (fl'' & HI'' & _); try done.
  - eapply Inv_ext; [|exact HI']. unfold no_loose. tauto.
  - exists fl''. split; [done|]. etrans; [exact Hfr|apply add_keeps].
Qed.

(** ** Allocation *)

Lemma find_order_some fuel cur s c b :
  find_order fuel cur s = Some (c, b) ->
  (cur <= c <= BUDDY_MAX_ORDER)%nat /\ s_buddy_freelist s !!! c = Some b.
Proof.
  revert cur. induction fuel as [|fuel IH]; intros cur; simpl; [done|].
  destruct (Nat.ltb_spec BUDDY_MAX_ORDER cur); [done|].
  destruct (s_buddy_freelist s !!! cur) eqn:E; [intros [= <- <-]; split; [lia|done]|].
  intros Hf%IH. split; [lia|tauto].
Qed.

Lemma find_order_none fuel cur s :
  find_order fuel cur s = None -> (BUDDY_MAX_ORDER < fuel + cur)%nat ->
  forall c, (cur <= c <= BUDDY_MAX_ORDER)%nat -> s_buddy_freelist s !!! c = None.
Proof.
  revert cur. induction fuel as [|fuel IH]; intros cur; simpl; [lia|].
  destruct (Nat.ltb_spec BUDDY_MAX_ORDER cur); [lia|].
  destruct (s_buddy_freelist s !!! cur) eqn:E; [done|].
  intros H' Hf c Hc. destruct (decide (c = cur)) as [->|]; [done|]. apply (IH (S cur)); [done|lia|lia].
Qed.

Lemma buddy_upper b c : 0 <= b -> (bsize (S c) | b) -> buddy (b + bsize c) c = b.
Proof.
  intros Hb Hd. rewrite <- (buddy_involutive b c) at 2. f_equal.
  destruct (buddy_cases b c) as [[_ ->]|[[q Hq] _]]; [done| |done|].
  - apply (aligned_le _ _ (S c)); [lia|done].
  - destruct Hd as [r ->]. rewrite bsize_S in Hq. pose proof (bsize_pos c).
    assert (E : (2 * r - 1 - 2 * q) * bsize c = 0) by lia. apply Z.mul_eq_0 in E. lia.
Qed.

Lemma split_inv cur o b s fl :
  Inv s fl (in_block b cur) -> (o <= cur <= BUDDY_MAX_ORDER)%nat -> 0 <= b -> (bsize cur | b) ->
  exists fl', Inv (buddy_split cur o b s) fl' (in_block b o) /\ frame s (buddy_split cur o b s).
Proof.
  revert s fl. induction cur as [|c IH]; intros s fl HI Ho Hb Ha; simpl.
  { exists fl. replace o with 0%nat by lia. done. }
  destruct (Nat.ltb_spec o (S c)) as [Hlt|Hge].
  2:{ exists fl. replace o with (S c) by lia. done. }
  pose proof (bsize_pos c). pose proof (bsize_S c) as HS. pose proof (inv_max _ _ _ HI) as Hm.
  assert (Hend : b + bsize (S c) <= s_max_phys_page s).
  { destruct (inv_loose _ _ _ HI (b + bsize (S c) - 1)) as [? _]; [unfold in_block; lia|lia]. }
  rewrite (inv_phys _ _ _ HI) by lia. rewrite u32_id by lia.
  destruct (add_inv s fl (in_block b c) c (b + bsize c)) as (fl1 & HI1 & _).
  - eapply Inv_ext; [|exact HI]. unfold in_block. lia.
  - lia.
  - lia.
  - apply Z.divide_add_r; [apply (aligned_le _ _ (S c)); [lia|done]|done].
  - unfold in_block. lia.
  - intros _. rewrite buddy_upper by done. intros Hin.
    destruct (inv_loose _ _ _ HI b (in_block_head _ _)) as [_ Hn].
    by apply (Hn c b Hin), in_block_head.
  - destruct (IH _ fl1 HI1) as (fl' & HI' & Hf); [lia|done|apply (aligned_le _ _ (S c)); [lia|done]|].
    exists fl'. split; [done|]. etrans; [apply add_keeps|exact Hf].
Qed.

Definition activate (o : nat) (p : vm_page) : vm_page :=
  p <| ref_count := 1 |> <| wire_count := 0 |> <| flags := VM_PAGE_ACTIVE |>
    <| order := u16 (Z.of_nat o) |>.

Lemma mark_active_pg o b s x :
  phys_page (pg s b) = b ->
  pg (mark_active o b s) x =
    (if decide (b <= x < b + bsize o) then activate o (pg s x) else pg s x).
Proof.
  intros Hb. unfold mark_active.
  assert (H : forall l s, phys_page (pg s b) = b ->
    pg (foldl (fun s i => set_pg (phys_page (pg s b) + i) (activate o) s) s l) x =
    if decide (x - b ∈ l) then activate o (pg s x) else pg s x).
  { clear. induction l as [|i l IH]; intros s Hb; [done|]. cbn [foldl].
    rewrite IH; rewrite Hb, !pg_set.
    - destruct (decide (x = b + i)) as [->|Hne].
      + rewrite (decide_True (P := _ ∈ i :: l)) by (rewrite elem_of_cons; left; lia).
        by case_decide.
      + assert (Hiff : x - b ∈ i :: l <-> x - b ∈ l).
        { rewrite elem_of_cons. split; [intros [?|?]; [lia|done]|auto]. }
        repeat case_decide; tauto.
    - destruct (decide (b = b + i)) as [Hi|]; [|done]. change (phys_page (pg s (b + i)) = b). congruence. }
  etrans; [apply (H _ s Hb)|].
  repeat case_decide; try done; exfalso; rewrite elem_of_seqZ in *; lia.
Qed.

Lemma mark_active_frame o b s :
  s_max_phys_page (mark_active o b s) = s_max_phys_page s /\
  s_free_pages (mark_active o b s) = s_free_pages s /\
  s_buddy_freelist (mark_active o b s) = s_buddy_freelist s.
Proof.
  unfold mark_active. generalize (seqZ 0 (bsize o)) as l. intros l. revert s.
  induction l as [|i l IH]; intros s; cbn [foldl]; [done|].
  apply (IH (set_pg _ _ s)).
Qed.

Lemma mark_inv o b s fl :
  Inv s fl (in_block b o) -> Inv (mark_active o b s) fl no_loose.
Proof.
  intros HI. destruct (mark_active_frame o b s) as (Hmax & _ & Hhd).
  assert (Hb : phys_page (pg s b) = b).
  { apply (inv_phys _ _ _ HI), (inv_loose _ _ _ HI), in_block_head. }
  assert (Hpg := fun x => mark_active_pg o b s x Hb). fold (in_block b o) in Hpg.
  assert (Hout : forall o' p, p ∈ fl o' -> pg (mark_active o b s) p = pg s p).
  { intros o' p Hp. rewrite Hpg, decide_False; [done|]. intros Hin.
    destruct (inv_loose _ _ _ HI p Hin) as [_ Hn]. by apply (Hn o' p Hp), in_block_head. }
  constructor; rewrite ?Hmax.
  - apply (inv_max _ _ _ HI).
  - intros x Hx. rewrite Hpg. case_decide; by apply (inv_phys _ _ _ HI).
  - intros x Hx. rewrite Hpg. case_decide; [cbn; lia|by apply (inv_ref _ _ _ HI)].
  - intros o'. rewrite Hhd. eapply dchain_frame; [|exact (inv_list _ _ _ HI o')].
    intros x Hx. by rewrite (Hout o' x Hx).
  - intros o' p Hp. rewrite (Hout o' p Hp). by apply (inv_block _ _ _ HI).
  - apply (inv_disj _ _ _ HI).
  - intros x Hx. rewrite Hpg. case_decide; [done|]. by apply (inv_flag _ _ _ HI).
  - intros x Hx. rewrite Hpg. case_decide as Hd.
    + cbn. split; [lia|]. intros [[]|(o' & p & Hp & Hin)].
      destruct (inv_loose _ _ _ HI x Hd) as [_ Hn]. by destruct (Hn o' p Hp).
    + rewrite (inv_free _ _ _ HI) by done. unfold in_block, no_loose in *. tauto.
  - intros x [].
  - apply (inv_merged _ _ _ HI).
Qed.

(** ** Counting free pages *)

Definition free_set (s : pmm) : gset Z :=
  filter (fun x => ref_count (pg s x) = 0) (list_to_set (seqZ 0 (s_max_phys_page s))).

(** The invariant of the public operations. *)
Definition Wf (s : pmm) : Prop :=
  (exists fl, Inv s fl no_loose) /\ s_free_pages s = Z.of_nat (size (free_set s)).

Lemma elem_of_free_set s x :
  x ∈ free_set s <-> 0 <= x < s_max_phys_page s /\ ref_count (pg s x) = 0.
Proof. unfold free_set. rewrite elem_of_filter, elem_of_list_to_set, elem_of_seqZ. lia. Qed.

Lemma free_set_bound s :
  0 <= s_max_phys_page s -> Z.of_nat (size (free_set s)) <= s_max_phys_page s.
Proof.
  intros Hm. assert (Hs : (size (free_set s) <= size (list_to_set (C := gset Z) (seqZ 0 (s_max_phys_page s))))%nat).
  { apply subseteq_size. intros x. rewrite elem_of_list_to_set, elem_of_seqZ, elem_of_free_set. lia. }
  rewrite size_list_to_set in Hs by apply NoDup_seqZ. rewrite length_seqZ in Hs. lia.
Qed.

Definition block_set (b : Z) (o : nat) : gset Z := list_to_set (seqZ b (bsize o)).

Lemma elem_of_block_set b o x : x ∈ block_set b o <-> in_block b o x.
Proof. unfold block_set, in_block. rewrite elem_of_list_to_set, elem_of_seqZ. done. Qed.

Lemma block_set_size b o : Z.of_nat (size (block_set b o)) = bsize o.
Proof.
  unfold block_set. rewrite size_list_to_set by apply NoDup_seqZ. rewrite length_seqZ.
  pose proof (bsize_pos o). lia.
Qed.

(** ** [pmm_alloc_order_unlocked] *)

(** A run of free pages that could serve a request of order [o]. *)
Definition free_run (s : pmm) (o : nat) (b : Z) : Prop :=
  0 <= b /\ (bsize o | b) /\ b + bsize o <= s_max_phys_page s /\
  forall x, in_block b o x -> ref_count (pg s x) = 0.

(** [s'] is [s] with the block taken. *)
Definition taken (s : pmm) (o : nat) (b : Z) (s' : pmm) : Prop :=
  free_run s o b /\ s_max_phys_page s' = s_max_phys_page s /\
  s_free_pages s' = s_free_pages s - bsize o /\
  (forall x, in_block b o x -> ref_count (pg s' x) = 1) /\
  (forall x, ~ in_block b o x -> ref_count (pg s' x) = ref_count (pg s x)).

Lemma free_block_run s fl L o p : Inv s fl L -> p ∈ fl o -> free_run s o p.
Proof.
  intros HI Hp. destruct (inv_block _ _ _ HI o p Hp) as (? & ? & ? & ? & _).
  split_and!; try done. intros x Hx. apply (inv_free _ _ _ HI); [unfold in_block in Hx; lia|eauto].
Qed.

(** Maximal merging: a free aligned run lies inside one free block. *)
Lemma run_in_block s fl o b :
  Inv s fl no_loose -> (o <= BUDDY_MAX_ORDER)%nat -> free_run s o b ->
  exists o' p, (o <= o')%nat /\ p ∈ fl o' /\ forall x, in_block b o x -> in_block p o' x.
Proof.
  intros HI. revert b. induction o as [|o IH]; intros b Ho (Hb & Ha & Hm & Hf).
  { pose proof (in_block_head b 0) as Hbb. pose proof (Hf b Hbb) as Hz.
    apply (inv_free _ _ _ HI) in Hz as [[]|(o' & p & Hp & Hin)]; [|unfold in_block, bsize in *; lia].
    exists o', p. split; [lia|]. split; [done|].
    intros x Hx. replace x with b; [done|]. unfold in_block, bsize in Hx. simpl in Hx. lia. }
  pose proof (bsize_S o) as HS. pose proof (bsize_pos o).
  assert (Hao : (bsize o | b)) by (apply (aligned_le _ _ (S o)); [lia|done]).
  destruct (IH b) as (o1 & p1 & Ho1 & Hp1 & Hin1).
  { lia. } { split_and!; [done|done|lia|]. intros x Hx. apply Hf. unfold in_block in *. lia. }
  destruct (IH (b + bsize o)) as (o2 & p2 & Ho2 & Hp2 & Hin2).
  { lia. } { split_and!; [lia|by apply Z.divide_add_r|lia|].
    intros x Hx. apply Hf. unfold in_block in *. lia. }
  pose proof (inv_block _ _ _ HI _ _ Hp1) as (Hle1 & Hp1p & Ha1 & _).
  destruct (decide (o1 = o)) as [->|Hne].
  - destruct (decide (o2 = o)) as [->|Hne].
    + exfalso. assert (p1 = b) as ->.
      { pose proof (Hin1 b (in_block_head _ _)) as [? _].
        pose proof (Hin1 (b + bsize o - 1)). unfold in_block in *. lia. }
      assert (p2 = b + bsize o) as ->.
      { pose proof (Hin2 _ (in_block_head _ _)) as [? _].
        pose proof (Hin2 (b + bsize o + bsize o - 1)). unfold in_block in *. lia. }
      apply (inv_merged _ _ _ HI o (b + bsize o) Hp2); [lia|]. by rewrite buddy_upper.
    + pose proof (inv_block _ _ _ HI _ _ Hp2) as (_ & _ & Ha2 & _).
      exists o2, p2. split; [lia|]. split; [done|].
      apply (aligned_sub_block _ _ _ _ (b + bsize o)); [lia|done|done|apply Hin2, in_block_head|].
      unfold in_block. lia.
  - exists o1, p1. split; [lia|]. split; [done|].
    apply (aligned_sub_block _ _ _ _ b); [lia|done|done|apply Hin1, in_block_head|apply in_block_head].
Qed.

Lemma alloc_found o s cur block fl :
  Inv s fl no_loose -> s_free_pages s = Z.of_nat (size (free_set s)) ->
  (o <= cur <= BUDDY_MAX_ORDER)%nat -> s_buddy_freelist s !!! cur = Some block ->
  let s1 := mark_active o block (buddy_split cur o block (buddy_list_remove cur block s)) in
  let s2 := s1 <| s_free_pages ::= fun n => u64 (n - bsize o) |> in
  Wf s2 /\ taken s o block s2 /\ phys_page (pg s2 block) = block.
Proof.
  intros HI Hcnt Ho Hhd.
  destruct (dchain_head _ _ _ _ _ _ (inv_list _ _ _ HI cur) Hhd) as [l Hl].
  assert (Hin : block ∈ fl cur) by (rewrite Hl; set_solver).
  pose proof (free_block_run _ _ _ _ _ HI Hin) as (Hb & Ha & Hm & Hz).
  destruct (remove_inv _ _ _ _ _ HI Hin) as (fl1 & HI1 & _).
  destruct (split_inv cur o block (buddy_list_remove cur block s) fl1) as (fl2 & HI2 & Hfr2);
    [|done|done|done|].
  { eapply Inv_ext; [|exact HI1]. unfold no_loose. tauto. }
  assert (Hfr : frame s (buddy_split cur o block (buddy_list_remove cur block s))).
  { etrans; [apply remove_keeps|done]. }
  set (s0 := buddy_split cur o block (buddy_list_remove cur block s)) in *.
  destruct Hfr as (Hmax & Hfp & _ & Href).
  destruct (mark_active_frame o block s0) as (Hmax' & Hfp' & _).
  pose proof (mark_inv _ _ _ _ HI2) as HI3.
  pose proof (bsize_le o cur) as Hle. pose proof (bsize_pos o).
  assert (Hbp : phys_page (pg s0 block) = block) by (apply (inv_phys _ _ _ HI2); lia).
  assert (Hrun : free_run s o block).
  { split_and!; [done|by apply (aligned_le _ _ cur); [lia|]|lia|].
    intros x Hx. apply Hz. unfold in_block in *. lia. }
  assert (Hset : free_set (mark_active o block s0) = free_set s ∖ block_set block o).
  { apply set_eq. intros x. rewrite elem_of_difference, !elem_of_free_set, elem_of_block_set.
    rewrite Hmax', Hmax, (mark_active_pg _ _ _ _ Hbp), <- Href. fold (in_block block o).
    case_decide; cbn; unfold in_block in *; intuition lia. }
  assert (Hsub : block_set block o ⊆ free_set s).
  { intros x. rewrite elem_of_block_set, elem_of_free_set. intros Hx. split; [|by apply Hrun].
    unfold in_block in Hx. lia. }
  pose proof (subseteq_size _ _ Hsub) as Hsz. pose proof (block_set_size block o) as Hbs.
  pose proof (inv_max _ _ _ HI). pose proof (free_set_bound s).
  assert (Hfin : u64 (s_free_pages (mark_active o block s0) - bsize o) = s_free_pages s - bsize o).
  { rewrite Hfp', Hfp. apply u64_id. lia. }
  cbv zeta. split_and!.
  - split.
    + exists fl2. destruct HI3. by constructor.
    + cbn. rewrite Hfin. change (free_set _) with (free_set (mark_active o block s0)).
      rewrite Hset, size_difference by done. lia.
  - split_and!; [done|cbn; congruence|done|..]; intros x Hx;
      rewrite pg_free_pages, (mark_active_pg _ _ _ _ Hbp).
    + by rewrite decide_True.
    + rewrite decide_False by done. apply Href.
  - rewrite pg_free_pages, (mark_active_pg _ _ _ _ Hbp). by case_decide.
Qed.

(** The complete behaviour of an allocation of order [o]. *)
Lemma alloc_order_spec o s :
  Wf s -> (o <= BUDDY_MAX_ORDER)%nat ->
  (pmm_alloc_order_unlocked o s = (s, PADDR_NONE) /\ forall b, ~ free_run s o b) \/
  (exists b s', pmm_alloc_order_unlocked o s = (s', b * CHIMERA_PAGE_SIZE) /\
     Wf s' /\ taken s o b s').
Proof.
  intros [[fl HI] Hcnt] Ho. unfold pmm_alloc_order_unlocked.
  destruct (Nat.ltb_spec BUDDY_MAX_ORDER o); [lia|].
  destruct (find_order _ _ _) as [[cur block]|] eqn:Hf.
  - right. apply find_order_some in Hf as [Hc Hhd].
    destruct (alloc_found o s cur block fl HI Hcnt Hc Hhd) as (HW & Ht & Hp).
    eexists block, _. split; [|split; [exact HW|exact Ht]].
    rewrite Hp. f_equal. apply u64_id. destruct Ht as [(? & _ & ? & _) _].
    pose proof (inv_max _ _ _ HI). pose proof (bsize_pos o). unfold CHIMERA_PAGE_SIZE. lia.
  - left. split; [done|]. intros b Hrun.
    destruct (run_in_block _ _ _ _ HI Ho Hrun) as (o' & p & Ho' & Hp & _).
    pose proof (inv_block _ _ _ HI _ _ Hp) as (Hle & _).
    pose proof (inv_list _ _ _ HI o') as Hch.
    rewrite (find_order_none _ _ _ Hf) in Hch by lia.
    apply dchain_chain, chain_nil_inv in Hch. rewrite Hch in Hp. set_solver.
Qed.

Lemma taken_addr s o b s' : Wf s -> taken s o b s' -> 0 <= b * CHIMERA_PAGE_SIZE < PADDR_NONE.
Proof.
  intros [[fl HI] _] [(? & _ & ? & _) _]. pose proof (inv_max _ _ _ HI). pose proof (bsize_pos o).
  unfold CHIMERA_PAGE_SIZE, PADDR_NONE. lia.
Qed.

(** The loop of [pmm_alloc_pages] finds the least sufficient order. *)
Lemma order_for_spec fuel o count :
  (BUDDY_MAX_ORDER <= fuel + o)%nat -> (o <= BUDDY_MAX_ORDER)%nat ->
  match order_for fuel o count with
  | Some r => (o <= r <= BUDDY_MAX_ORDER)%nat /\ count <= bsize r /\
              (r = o \/ bsize r < 2 * count)
  | None => bsize BUDDY_MAX_ORDER < count
  end.
Proof.
  revert o. induction fuel as [|fuel IH]; intros o Hf Ho; simpl;
    destruct (Z.ltb_spec (bsize o) count); try (split_and!; [lia|lia|done|auto]).
  - replace BUDDY_MAX_ORDER with o by lia. done.
  - destruct (Nat.ltb_spec BUDDY_MAX_ORDER (S o)).
    + replace BUDDY_MAX_ORDER with o by lia. done.
    + specialize (IH (S o)). destruct (order_for fuel (S o) count); [|apply IH; lia].
      destruct IH as (? & ? & HH); [lia..|]. pose proof (bsize_S o).
      split_and!; [lia|lia|done|]. right. destruct HH as [->|?]; lia.
Qed.

(** ** Reference counts *)

Lemma allocated_not_free s fl L i o p :
  Inv s fl L -> 0 <= i < s_max_phys_page s -> 0 < ref_count (pg s i) ->
  p ∈ fl o -> ~ in_block p o i.
Proof.
  intros HI Hi Hr Hp Hb. assert (ref_count (pg s i) = 0); [|lia].
  apply (inv_free _ _ _ HI); eauto.
Qed.

(** Rewriting the descriptor of an allocated page: when its count becomes 0 the
    page is loose. *)
Lemma set_page_inv s fl i f :
  Inv s fl no_loose -> 0 <= i < s_max_phys_page s -> 0 < ref_count (pg s i) ->
  phys_page (f (pg s i)) = phys_page (pg s i) -> 0 <= ref_count (f (pg s i)) <= 65535 ->
  flags (f (pg s i)) = flags (pg s i) \/ flags (f (pg s i)) = 0 ->
  Inv (set_pg i f s) fl (fun x => x = i /\ ref_count (f (pg s i)) = 0).
Proof.
  intros HI Hi Hr Hph Hrc Hfl.
  assert (Hn : forall o p, p ∈ fl o -> ~ in_block p o i).
  { intros o p. by apply (allocated_not_free s fl no_loose). }
  assert (Hni : forall o p, p ∈ fl o -> p ≠ i).
  { intros o p Hp ->. apply (Hn o i Hp), in_block_head. }
  assert (Hpg : forall o p, p ∈ fl o -> pg (set_pg i f s) p = pg s p).
  { intros o p Hp. rewrite pg_set, decide_False; [done|]. by eapply Hni. }
  constructor; change (s_max_phys_page (set_pg i f s)) with (s_max_phys_page s).
  - apply (inv_max _ _ _ HI).
  - intros x Hx. rewrite pg_set. case_decide; subst; [rewrite Hph|]; by apply (inv_phys _ _ _ HI).
  - intros x Hx. rewrite pg_set. case_decide; [done|]. by apply (inv_ref _ _ _ HI).
  - intros o. eapply dchain_frame; [|exact (inv_list _ _ _ HI o)].
    intros x Hx. by rewrite (Hpg o x Hx).
  - intros o p Hp. rewrite (Hpg o p Hp). by apply (inv_block _ _ _ HI).
  - apply (inv_disj _ _ _ HI).
  - intros x Hx. rewrite pg_set. case_decide; subst; [|by apply (inv_flag _ _ _ HI)].
    destruct Hfl as [->| ->]; [|done]. intros Hf%(inv_flag _ _ _ HI); [|done].
    by destruct (Hni _ _ Hf).
  - intros x Hx. rewrite pg_set. case_decide as Hd; subst.
    + split; [auto|]. intros [[_ ?]|(o & p & Hp & Hb)]; [done|]. by destruct (Hn o p Hp).
    + rewrite (inv_free _ _ _ HI) by done. unfold no_loose. intuition.
  - intros x [-> _]. eauto.
  - apply (inv_merged _ _ _ HI).
Qed.

Lemma free_set_same s s' :
  s_max_phys_page s' = s_max_phys_page s ->
  (forall x, 0 <= x < s_max_phys_page s ->
     ref_count (pg s' x) = 0 <-> ref_count (pg s x) = 0) ->
  free_set s' = free_set s.
Proof.
  intros Hm Hr. apply set_eq. intros x. rewrite !elem_of_free_set, Hm. naive_solver.
Qed.

Lemma retain_spec addr s :
  let i := addr / CHIMERA_PAGE_SIZE in
  Wf s -> 0 <= i < s_max_phys_page s -> 0 < ref_count (pg s i) ->
  Wf (pmm_retain_page addr s) /\
  s_max_phys_page (pmm_retain_page addr s) = s_max_phys_page s /\
  s_free_pages (pmm_retain_page addr s) = s_free_pages s /\
  (forall x, ref_count (pg (pmm_retain_page addr s) x) =
     if decide (x = i) then Z.min 65535 (ref_count (pg s i) + 1) else ref_count (pg s x)).
Proof.
  intros i HW Hi Hr. pose proof HW as [[fl HI] Hc]. unfold pmm_retain_page. fold i.
  destruct (Z.leb_spec (s_max_phys_page s) i); [lia|].
  pose proof (inv_ref _ _ _ HI i Hi). destruct (Z.ltb_spec (ref_count (pg s i)) 65535).
  - split_and!; [|done|done|].
    + split.
      * exists fl. eapply Inv_ext; [|apply set_page_inv; eauto; cbn; lia].
        intros x. cbn. unfold no_loose. lia.
      * cbn. rewrite Hc. do 2 f_equal. symmetry. apply free_set_same; [done|].
        intros x Hx. rewrite pg_set. case_decide; subst; cbn; lia.
    + intros x. rewrite pg_set. case_decide; [cbn; lia|done].
  - split_and!; [done..|]. intros x. case_decide; subst; lia.
Qed.

(** What [pmm_release_page] does to the count of page [x]. *)
Definition released (s : pmm) (i x : Z) : Z :=
  if decide (x = i /\ i < s_max_phys_page s /\ 0 < ref_count (pg s i))
  then ref_count (pg s i) - 1 else ref_count (pg s x).

Definition freed_by (s : pmm) (i : Z) : Z :=
  if decide (i < s_max_phys_page s /\ ref_count (pg s i) = 1) then 1 else 0.

(** Dropping the last reference of an allocated page and freeing it. *)
Lemma free_allocated s i f :
  Wf s -> 0 <= i < s_max_phys_page s -> 0 < ref_count (pg s i) ->
  ref_count (f (pg s i)) = 0 -> phys_page (f (pg s i)) = phys_page (pg s i) ->
  flags (f (pg s i)) = flags (pg s i) \/ flags (f (pg s i)) = 0 ->
  let s' := (buddy_free_block (u32 i) 0 (set_pg i f s)) <| s_free_pages ::= fun n => u64 (n + 1) |> in
  Wf s' /\ s_max_phys_page s' = s_max_phys_page s /\ s_free_pages s' = s_free_pages s + 1 /\
  forall x, ref_count (pg s' x) = if decide (x = i) then 0 else ref_count (pg s x).
Proof.
  intros [[fl HI] Hc] Hi Hr Hf0 Hph Hfl. cbv zeta. set (s1 := set_pg i f s).
  pose proof (inv_max _ _ _ HI) as Hmax. rewrite u32_id by lia.
  assert (HI1 : Inv s1 fl (in_block i 0)).
  { eapply Inv_ext; [|apply set_page_inv; eauto; lia].
    intros x. cbn. unfold in_block, bsize. simpl. lia. }
  assert (Hr1 : forall x, ref_count (pg s1 x) = if decide (x = i) then 0 else ref_count (pg s x)).
  { intros x. unfold s1. rewrite pg_set. by case_decide. }
  destruct (free_block_inv i 0 s1 fl HI1) as (fl' & HI' & Hm & Hf & _ & Href);
    [lia|lia|by exists i; rewrite Z.mul_1_r|].
  generalize dependent (buddy_free_block i 0 s1). intros s2 HI' Hm Hf Href.
  assert (Hmx : s_max_phys_page s2 = s_max_phys_page s) by (by rewrite Hm).
  assert (Hset : free_set s2 = {[ i ]} ∪ free_set s).
  { apply set_eq. intros x. rewrite elem_of_union, elem_of_singleton, !elem_of_free_set, Hmx, Href, Hr1.
    case_decide; intuition lia. }
  assert (Hni : i ∉ free_set s) by (rewrite elem_of_free_set; lia).
  pose proof (free_set_bound s2) as Hbd.
  rewrite Hset, size_union, size_singleton in Hbd by set_solver.
  assert (Hcnt : u64 (s_free_pages s2 + 1) = s_free_pages s + 1).
  { rewrite Hf. apply u64_id. cbn. lia. }
  split; [split|split; [exact Hmx|split; [exact Hcnt|]]].
  - exists fl'. destruct HI'. by constructor.
  - cbn. rewrite Hcnt. change (free_set _) with (free_set s2).
    rewrite Hset, size_union, size_singleton by set_solver. lia.
  - intros x. rewrite pg_free_pages, Href. apply Hr1.
Qed.

Lemma release_spec addr s :
  let i := addr / CHIMERA_PAGE_SIZE in
  let s' := pmm_release_page addr s in
  Wf s -> 0 <= addr ->
  Wf s' /\ s_max_phys_page s' = s_max_phys_page s /\
  s_free_pages s' = s_free_pages s + freed_by s i /\
  forall x, ref_count (pg s' x) = released s i x.
Proof.
  intros i s' HW Ha. assert (Hi0 : 0 <= i) by (apply Z.div_pos; unfold CHIMERA_PAGE_SIZE; lia).
  unfold s', pmm_release_page, released, freed_by. fold i. clearbody i. clear s' addr Ha.
  destruct (Z.leb_spec (s_max_phys_page s) i).
  { split_and!; [done|done|rewrite decide_False by lia; lia|]. intros x. by rewrite decide_False by lia. }
  destruct (Z.ltb_spec 0 (ref_count (pg s i))).
  2:{ split_and!; [done|done|rewrite decide_False by lia; lia|]. intros x. by rewrite decide_False by lia. }
  rewrite pg_set, decide_True by done. cbn [ref_count fupd vm_page_eta].
  destruct (Z.eqb_spec (Z.pred (ref_count (pg s i))) 0) as [E|E].
  - rewrite set_pg_twice. cbv beta.
    destruct (free_allocated s i
      (fun p => p <| ref_count ::= Z.pred |> <| wire_count := 0 |> <| flags := 0 |>))
      as (HW' & Hm & Hf & Href); [done|lia|lia|exact E|done|by right|].
    split_and!; [done|done|rewrite decide_True by lia; done|].
    intros x. rewrite Href. repeat case_decide; lia.
  - pose proof HW as [[fl HI] Hc]. pose proof (inv_ref _ _ _ HI i). split_and!; [split| | |].
    + exists fl. eapply Inv_ext; [|apply set_page_inv; eauto; cbn; lia].
      intros x. cbn. unfold no_loose. lia.
    + cbn. rewrite Hc. do 2 f_equal. symmetry. apply free_set_same; [done|].
      intros x Hx. rewrite pg_set. case_decide; subst; cbn; lia.
    + done.
    + rewrite decide_False by lia. cbn. lia.
    + intros x. rewrite pg_set. repeat case_decide; subst; cbn; lia.
Qed.

(** ** Public operations *)

(** The order that [pmm_alloc_pages] uses for [count] pages. *)
Definition request_order (count : Z) : option nat := order_for (S BUDDY_MAX_ORDER) 0 count.

Lemma request_order_spec count :
  0 < count ->
  match request_order count with
  | Some o => (o <= BUDDY_MAX_ORDER)%nat /\ count <= bsize o < 2 * count
  | None => bsize BUDDY_MAX_ORDER < count
  end.
Proof.
  intros Hc. pose proof (order_for_spec (S BUDDY_MAX_ORDER) 0 count) as H.
  unfold request_order. destruct (order_for _ _ _) as [o|]; [|apply H; lia].
  destruct H as (? & ? & [->|?]); [lia..| |lia].
  change (bsize 0) with 1 in *. lia.
Qed.

Lemma alloc_pages_cases count s :
  Wf s -> 0 < count ->
  let fail := if count =? 1 then 0 else PADDR_NONE in
  (exists b s' o, request_order count = Some o /\
     pmm_alloc_pages count s = (s', b * CHIMERA_PAGE_SIZE) /\ Wf s' /\ taken s o b s') \/
  (pmm_alloc_pages count s = (s, fail) /\
     forall o, request_order count = Some o -> forall b, ~ free_run s o b).
Proof.
  intros HW Hc fail. unfold fail, pmm_alloc_pages. pose proof (request_order_spec count Hc) as Ho.
  destruct (Z.eqb_spec count 0); [lia|]. destruct (Z.eqb_spec count 1) as [->|].
  - change (request_order 1) with (Some 0%nat). unfold pmm_alloc_page.
    destruct (alloc_order_spec 0 s HW) as [[-> Hn]|(b & s' & -> & HW' & Ht)]; [lia|right|left].
    + split; [done|]. by intros o [= <-].
    + exists b, s', 0%nat. pose proof (taken_addr _ _ _ _ HW Ht).
      split; [done|]. split; [|done]. destruct (Z.eqb_spec (b * CHIMERA_PAGE_SIZE) PADDR_NONE); [lia|done].
  - fold (request_order count). destruct (request_order count) as [o|]; [|by right].
    destruct (alloc_order_spec o s HW) as [[-> Hn]|(b & s' & -> & HW' & Ht)]; [lia|right|left].
    + split; [done|]. by intros o' [= <-].
    + by exists b, s', o.
Qed.

Lemma release_range b n s :
  Wf s -> 0 <= b -> b + Z.of_nat n <= s_max_phys_page s ->
  (forall x, b <= x < b + Z.of_nat n -> ref_count (pg s x) = 1) ->
  let s' := foldl (fun s i => pmm_release_page (u64 (b * CHIMERA_PAGE_SIZE + i * CHIMERA_PAGE_SIZE)) s)
              s (seqZ 0 (Z.of_nat n)) in
  Wf s' /\ s_max_phys_page s' = s_max_phys_page s /\
  s_free_pages s' = s_free_pages s + Z.of_nat n /\
  forall x, ref_count (pg s' x) = if decide (b <= x < b + Z.of_nat n) then 0 else ref_count (pg s x).
Proof.
  intros HW Hb Hm Hr. induction n as [|n IH].
  { simpl. split_and!; [done|done|lia|]. intros x. by rewrite decide_False by lia. }
  destruct IH as (HW1 & Hm1 & Hf1 & Hr1); [lia|intros x Hx; apply Hr; lia|].
  rewrite seqZ_S, foldl_app. cbn [foldl].
  set (s1 := foldl _ s _) in *. clearbody s1. pose proof HW as [[fl HI] _].
  pose proof (inv_max _ _ _ HI). rewrite Z.add_0_l.
  set (addr := u64 _). assert (Ha : addr = (b + Z.of_nat n) * CHIMERA_PAGE_SIZE).
  { unfold addr. rewrite u64_id; unfold CHIMERA_PAGE_SIZE; lia. }
  assert (Hd : addr / CHIMERA_PAGE_SIZE = b + Z.of_nat n) by (rewrite Ha; by apply Z.div_mul).
  destruct (release_spec addr s1 HW1) as (HW2 & Hm2 & Hf2 & Hr2).
  { rewrite Ha. unfold CHIMERA_PAGE_SIZE. lia. }
  rewrite Hd in *. assert (Hone : ref_count (pg s1 (b + Z.of_nat n)) = 1).
  { rewrite Hr1, decide_False by lia. apply Hr. lia. }
  unfold released, freed_by in *. split_and!; [done|congruence| |].
  - rewrite Hf2, decide_True by lia. lia.
  - intros x. rewrite Hr2, Hone. repeat case_decide; try lia; rewrite Hr1; case_decide; lia.
Qed.

Lemma wire_pages_pg max s x :
  pg (wire_pages max s) x = if decide (0 <= x < max) then wired_page x else pg s x.
Proof.
  unfold wire_pages. assert (H : forall l s, pg (foldl (fun s i => set_pg i (fun _ => wired_page i) s) s l) x =
    if decide (x ∈ l) then wired_page x else pg s x).
  { induction l as [|i l IH]; intros s0; [done|]. cbn [foldl]. rewrite IH, pg_set.
    destruct (decide (x ∈ l)), (decide (x ∈ i :: l)), (decide (x = i)); subst; set_solver. }
  rewrite H. repeat case_decide; rewrite elem_of_seqZ in *; try done; lia.
Qed.

Lemma wire_pages_frame max s :
  s_max_phys_page (wire_pages max s) = s_max_phys_page s /\
  s_free_pages (wire_pages max s) = s_free_pages s /\
  s_buddy_freelist (wire_pages max s) = s_buddy_freelist s.
Proof.
  unfold wire_pages. generalize (seqZ 0 max) as l. intros l. revert s.
  induction l as [|i l IH]; intros s; cbn [foldl]; [done|]. apply (IH (set_pg _ _ s)).
Qed.

(** The state in which the boot loop leaves the manager. *)
Lemma wire_pages_wf s :
  0 <= s_max_phys_page s <= 2 ^ 32 -> s_free_pages s = 0 -> s_buddy_freelist s = ∅ ->
  Wf (wire_pages (s_max_phys_page s) s).
Proof.
  intros Hm Hf Hl. destruct (wire_pages_frame (s_max_phys_page s) s) as (Em & Ef & El).
  assert (Hpg : forall x, 0 <= x < s_max_phys_page s ->
            pg (wire_pages (s_max_phys_page s) s) x = wired_page x).
  { intros x Hx. by rewrite wire_pages_pg, decide_True. }
  split.
  - exists (fun _ => []). constructor; rewrite ?Em; try set_solver.
    + intros x Hx. rewrite Hpg by done. apply u32_id. lia.
    + intros x Hx. rewrite Hpg by done. cbn. lia.
    + intros o. rewrite El, Hl. done.
    + intros x Hx. by rewrite Hpg.
    + intros x Hx. rewrite Hpg by done. cbn. unfold no_loose. set_solver.
    + intros x [].
  - rewrite Ef, Hf. assert (free_set (wire_pages (s_max_phys_page s) s) = ∅) as ->; [|done].
    apply set_eq. intros x. rewrite elem_of_free_set, Em. split; [|set_solver].
    intros [Hx Hr]. rewrite Hpg in Hr by done. done.
Qed.

Lemma alloc_pages_wf count s : 0 <= count -> Wf s -> Wf (fst (pmm_alloc_pages count s)).
Proof.
  intros Hc HW. destruct (decide (count = 0)) as [->|]; [done|].
  destruct (alloc_pages_cases count s HW) as [(b & s' & o & _ & -> & HW' & _)|[-> _]]; [lia|done..].
Qed.

Lemma free_contiguous_wf addr count s : 0 <= addr -> Wf s -> Wf (pmm_free_contiguous addr count s).
Proof.
  intros Ha HW. unfold pmm_free_contiguous. destruct (_ || _); [done|].
  generalize (seqZ 0 count) as l. intros l. revert s HW. induction l as [|i l IH]; intros s HW; [done|].
  cbn [foldl]. apply IH, release_spec; [done|]. apply u64_range.
Qed.

(** Freeing a range leaves the other pages alone, whatever their counts. *)
Lemma free_contiguous_other b count s :
  Wf s -> 0 <= b -> 0 <= count -> b + count <= 2 ^ 32 ->
  s_max_phys_page (pmm_free_contiguous (b * CHIMERA_PAGE_SIZE) count s) = s_max_phys_page s /\
  forall x, ~ (b <= x < b + count) ->
    ref_count (pg (pmm_free_contiguous (b * CHIMERA_PAGE_SIZE) count s) x) = ref_count (pg s x).
Proof.
  intros HW Hb Hc Hm. unfold pmm_free_contiguous. destruct (_ || _); [done|].
  assert (Hl : forall i, i ∈ seqZ 0 count -> 0 <= i < count) by (intros i; rewrite elem_of_seqZ; lia).
  revert s HW Hl. generalize (seqZ 0 count) as l.
  induction l as [|i l IH]; intros s HW Hl; cbn [foldl]; [done|].
  specialize (Hl i) as Hi. destruct Hi; [set_solver|].
  set (addr := u64 _). assert (Hd : addr / CHIMERA_PAGE_SIZE = b + i).
  { unfold addr. rewrite u64_id by (unfold CHIMERA_PAGE_SIZE; lia).
    rewrite <- Z.mul_add_distr_r. by apply Z.div_mul. }
  destruct (release_spec addr s HW) as (HW1 & Hm1 & _ & Hr1); [apply u64_range|].
  destruct (IH (pmm_release_page addr s) HW1) as [Hm2 Hr2]; [set_solver|].
  split; [congruence|]. intros x Hx. rewrite Hr2, Hr1 by done. unfold released.
  rewrite Hd, decide_False by lia. done.
Qed.

(** A small machine for the witnesses: 8 pages, of which 4 to 7 have been freed. *)
Definition demo : pmm :=
  foldl (fun s p => pmm_release_page (p * CHIMERA_PAGE_SIZE) s)
    (wire_pages 8 {| s_pages := ∅; s_buddy_freelist := ∅; s_max_phys_page := 8;
                     s_total_ram_pages := 8; s_free_pages := 0 |}) [4; 5; 6; 7].

Lemma demo_wf : Wf demo.
Proof.
  unfold demo. cbn [foldl].
  repeat (apply release_spec; [|unfold CHIMERA_PAGE_SIZE; lia]).
  apply (wire_pages_wf {| s_pages := ∅; s_buddy_freelist := ∅; s_max_phys_page := 8;
                          s_total_ram_pages := 8; s_free_pages := 0 |}); [cbn; lia|done|done].
Qed.

(** ** Correctness *)

(** C14: every sequence of allocations, retains of held pages, releases and range
    frees keeps the manager well formed: the free lists are consistent doubly
    linked lists of disjoint, aligned, in-range and maximally merged blocks that
    cover exactly the pages with reference count 0, and [s_free_pages] is the
    number of those pages. *)
Theorem pmm_operations_keep_wf (s s' : pmm) : Wf s -> rtc pmm_step s s' -> Wf s'.
Proof.
  intros HW Hs. induction Hs as [|s s1 s2 Hstep _ IH]; [done|]. apply IH.
  destruct Hstep.
  - by apply alloc_pages_wf.
  - by apply retain_spec.
  - by apply release_spec.
  - by apply free_contiguous_wf.
Qed.

Lemma pmm_operations_keep_wf_witness :
  Wf (pmm_release_page (5 * CHIMERA_PAGE_SIZE) (fst (pmm_alloc_pages 3 demo))).
Proof.
  apply (pmm_operations_keep_wf demo); [exact demo_wf|].
  eapply rtc_l; [apply (step_alloc _ 3); lia|].
  apply rtc_once. apply step_release. unfold CHIMERA_PAGE_SIZE. lia.
Defined.

(** C31: [pmm_alloc_pages] is sound and complete.  It succeeds exactly when some
    naturally aligned run of 2^k free pages exists, for the least k with
    count <= 2^k; it then returns such a run, whose pages were all free and now
    have one reference, changing no other reference count.  On failure the state
    is unchanged and the result is 0 for one page and -1 for more. *)
Theorem pmm_alloc_pages_spec (count : Z) (s : pmm) :
  Wf s -> 0 < count <= bsize BUDDY_MAX_ORDER ->
  exists o, count <= bsize o < 2 * count /\
    ((exists b s', pmm_alloc_pages count s = (s', b * CHIMERA_PAGE_SIZE) /\ taken s o b s') \/
     (pmm_alloc_pages count s = (s, if count =? 1 then 0 else PADDR_NONE) /\
        forall b, ~ free_run s o b)).
Proof.
  intros HW Hc. pose proof (request_order_spec count) as Ho.
  destruct (request_order count) as [o|] eqn:E; [|lia]. exists o. split; [apply Ho; lia|].
  destruct (alloc_pages_cases count s HW) as [(b & s' & o' & Eo & Ha & _ & Ht)|[Ha Hn]]; [lia|..].
  - rewrite E in Eo. injection Eo as <-. left. eauto.
  - right. eauto.
Qed.

Lemma pmm_alloc_pages_spec_witness :
  snd (pmm_alloc_pages 3 demo) = 4 * CHIMERA_PAGE_SIZE /\
  exists o, 3 <= bsize o < 2 * 3 /\
    ((exists b s', pmm_alloc_pages 3 demo = (s', b * CHIMERA_PAGE_SIZE) /\ taken demo o b s') \/
     (pmm_alloc_pages 3 demo = (demo, if 3 =? 1 then 0 else PADDR_NONE) /\
        forall b, ~ free_run demo o b)).
Proof.
  split; [vm_compute; reflexivity|].
  apply (pmm_alloc_pages_spec 3 demo demo_wf). vm_compute. split; [reflexivity|discriminate].
Defined.

(** [pmm_release_page] drops exactly one reference: the count of the page
    addressed falls by one (a page out of range or already free is left alone),
    no other count changes, and the page is handed back to the free lists
    exactly when its last reference goes. *)
Theorem pmm_release_page_spec (addr : Z) (s : pmm) :
  Wf s -> 0 <= addr ->
  let i := addr / CHIMERA_PAGE_SIZE in
  let s' := pmm_release_page addr s in
  Wf s' /\ (forall x, pmm_get_refcount (x * CHIMERA_PAGE_SIZE) s' =
    if decide (x = i) then Z.max 0 (pmm_get_refcount (i * CHIMERA_PAGE_SIZE) s - 1)
    else pmm_get_refcount (x * CHIMERA_PAGE_SIZE) s) /\
  pmm_free_pages s' =
    pmm_free_pages s + (if pmm_get_refcount (i * CHIMERA_PAGE_SIZE) s =? 1 then 1 else 0).
Proof.
  intros HW Ha i s'. destruct (release_spec addr s HW Ha) as (HW' & Hm & Hf & Hr).
  assert (Hi0 : 0 <= i) by (apply Z.div_pos; unfold CHIMERA_PAGE_SIZE; lia).
  fold i in Hr, Hf. fold s' in HW', Hm, Hf, Hr. unfold released, freed_by in *.
  pose proof HW as [[fl HI] _]. pose proof (inv_ref _ _ _ HI i).
  unfold pmm_free_pages, pmm_get_refcount. rewrite !Z.div_mul by done. split; [done|]. split.
  - intros x. rewrite !Z.div_mul by done. rewrite Hm, Hr.
    destruct (Z.leb_spec (s_max_phys_page s) i), (Z.leb_spec (s_max_phys_page s) x),
      (decide (x = i)) as [E|E]; repeat case_decide; try lia; rewrite E in *; lia.
  - rewrite Hf. destruct (Z.leb_spec (s_max_phys_page s) i).
    + rewrite decide_False by lia. done.
    + destruct (Z.eqb_spec (ref_count (pg s i)) 1); case_decide; lia.
Qed.

Lemma pmm_release_page_spec_witness :
  let s' := pmm_release_page (3 * CHIMERA_PAGE_SIZE) demo in
  pmm_free_pages s' = 5 /\ Wf s'.
Proof.
  split; [vm_compute; reflexivity|].
  apply (pmm_release_page_spec (3 * CHIMERA_PAGE_SIZE) demo demo_wf).
  unfold CHIMERA_PAGE_SIZE. lia.
Defined.

(** freeing what [pmm_alloc_pages] returned with [pmm_free_contiguous] and
    the same count gives back exactly [count] pages: the pages that rounding up
    to a power of two added stay allocated with one reference.  For a power of
    two the round trip restores every reference count. *)
Theorem pmm_alloc_free_roundtrip (count : Z) (s s1 : pmm) (addr : Z) :
  Wf s -> 1 < count -> pmm_alloc_pages count s = (s1, addr) -> addr ≠ PADDR_NONE -> addr ≠ 0 ->
  let s2 := pmm_free_contiguous addr count s1 in
  exists o b, addr = b * CHIMERA_PAGE_SIZE /\ count <= bsize o < 2 * count /\
    pmm_free_pages s2 = pmm_free_pages s - (bsize o - count) /\
    forall x, ref_count (pg s2 x) =
      if decide (b + count <= x < b + bsize o) then 1 else ref_count (pg s x).
Proof.
  intros HW Hc Ha Hne1 Hne0 s2. pose proof (request_order_spec count) as Ho.
  destruct (alloc_pages_cases count s HW) as [(b & s' & o & Eo & Ha' & HW' & Ht)|[Ha' _]]; [lia| |].
  2:{ destruct (Z.eqb_spec count 1); [lia|]. congruence. }
  rewrite Ha in Ha'. injection Ha' as -> ->. rewrite Eo in Ho.
  destruct Ht as ((Hb & _ & Hm & Hz) & Em & Ef & H1 & Hr). unfold in_block in *.
  exists o, b. split; [done|]. split; [lia|].
  destruct (release_range b (Z.to_nat count) s' HW' Hb) as (_ & _ & Hf2 & Hr2).
  { rewrite Em. lia. } { intros x Hx. apply H1. lia. }
  assert (E2 : s2 = foldl (fun s i => pmm_release_page (u64 (b * CHIMERA_PAGE_SIZE + i * CHIMERA_PAGE_SIZE)) s)
              s' (seqZ 0 (Z.of_nat (Z.to_nat count)))).
  { unfold s2, pmm_free_contiguous. rewrite Z2Nat.id by lia.
    destruct (Z.eqb_spec (b * CHIMERA_PAGE_SIZE) PADDR_NONE); [done|].
    destruct (Z.eqb_spec (b * CHIMERA_PAGE_SIZE) 0); [done|]. by destruct (Z.eqb_spec count 0); [lia|]. }
  rewrite E2. split.
  - unfold pmm_free_pages. rewrite Hf2, Ef. lia.
  - intros x. rewrite Hr2. destruct (decide (b <= x < b + bsize o)) as [Hx|Hx].
    + case_decide; [rewrite decide_False by lia; symmetry; auto|]. rewrite decide_True by lia. auto.
    + rewrite !decide_False by lia. apply Hr. lia.
Qed.

Lemma pmm_alloc_free_roundtrip_witness :
  exists o b, 4 * CHIMERA_PAGE_SIZE = b * CHIMERA_PAGE_SIZE /\ 3 <= bsize o < 2 * 3 /\
    pmm_free_pages (pmm_free_contiguous (4 * CHIMERA_PAGE_SIZE) 3 (fst (pmm_alloc_pages 3 demo)))
      = pmm_free_pages demo - (bsize o - 3) /\
    forall x, ref_count (pg (pmm_free_contiguous (4 * CHIMERA_PAGE_SIZE) 3 (fst (pmm_alloc_pages 3 demo))) x) =
      if decide (b + 3 <= x < b + bsize o) then 1 else ref_count (pg demo x).
Proof.
  apply (pmm_alloc_free_roundtrip 3 demo (fst (pmm_alloc_pages 3 demo)) (4 * CHIMERA_PAGE_SIZE));
    [exact demo_wf|lia|vm_compute; reflexivity|discriminate|discriminate].
Defined.
End Pmm.
