(* ===== verification/PmmInit.v ===== *)
(** * Boot-time initialisation of the physical memory manager

    Models [pmm_init] of [kernel/mm/pmm.c]: the scan of the boot loader's memory
    map, the placement of the descriptor array and the freeing of usable pages.
    The theorem shows that for a map as the boot loader documents it (usable
    entries page aligned and disjoint) the manager starts well formed, with
    exactly the usable pages above 1 MiB outside the descriptor array free. *)

From S2P Require Import Prelude Pmm.

Module PmmInit.
Import Pmm.

(** ** Initialisation from the boot loader's memory map *)

Inductive chimera_mem_type : Set :=
| CHIMERA_MEM_RESERVED
| CHIMERA_MEM_USABLE
| CHIMERA_MEM_ACPI_RECLAIM
| CHIMERA_MEM_ACPI_NVS
| CHIMERA_MEM_BOOTLOADER_RECLAIM
| CHIMERA_MEM_KERNEL
| CHIMERA_MEM_FRAMEBUFFER.

Record chimera_memmap_entry := { base : Z; length : Z; type : chimera_mem_type }.

Definition counts_for_max (t : chimera_mem_type) : bool :=
  match t with
  | CHIMERA_MEM_USABLE | CHIMERA_MEM_BOOTLOADER_RECLAIM | CHIMERA_MEM_KERNEL
  | CHIMERA_MEM_ACPI_RECLAIM | CHIMERA_MEM_ACPI_NVS => true
  | _ => false
  end.
Definition counts_for_ram (t : chimera_mem_type) : bool :=
  match t with
  | CHIMERA_MEM_USABLE | CHIMERA_MEM_BOOTLOADER_RECLAIM | CHIMERA_MEM_KERNEL
  | CHIMERA_MEM_ACPI_RECLAIM => true
  | _ => false
  end.
Definition is_usable (t : chimera_mem_type) : bool :=
  match t with CHIMERA_MEM_USABLE => true | _ => false end.

Definition max_phys_addr (entries : list chimera_memmap_entry) : Z :=
  foldl (fun m e => if counts_for_max (type e) && (m <? u64 (base e + length e))
                    then u64 (base e + length e) else m) 0 entries.
Definition total_ram_bytes (entries : list chimera_memmap_entry) : Z :=
  foldl (fun n e => if counts_for_ram (type e) then u64 (n + length e) else n) 0 entries.

(** Where the descriptor array goes; 0 when no segment is large enough. *)
Definition array_place (entries : list chimera_memmap_entry) (bytes : Z) : Z :=
  let first := match filter (fun e => is_usable (type e) && (u64 (bytes + 0x100000) <=? length e)) entries with
               | e :: _ => if 0x100000 <=? base e then base e else 0x100000
               | [] => 0
               end in
  if first =? 0 then
    match filter (fun e => is_usable (type e) && (bytes <=? length e)) entries with
    | e :: _ => base e
    | [] => 0
    end
  else first.

Definition free_boot_page (p : Z) (s : pmm) : pmm :=
  let s := set_pg p (fun g => g <| ref_count := 0 |> <| wire_count := 0 |>) s in
  let s := buddy_free_block (u32 p) 0 s in
  s <| s_free_pages ::= fun n => u64 (n + 1) |>.

(** The pages [first_page .. last_page) that the last loop frees for an entry. *)
Definition entry_pages (max : Z) (e : chimera_memmap_entry) : list Z :=
  let '(b, len) :=
    if base e <? 0x100000 then
      let skip := 0x100000 - base e in (base e + skip, length e - skip)
    else (base e, length e) in
  if negb (is_usable (type e)) then []
  else if (base e <? 0x100000) && (u64 (base e + length e) <=? 0x100000) then []
  else
    let first_page := b / CHIMERA_PAGE_SIZE in
    let last_page := Z.min (u64 (b + u64 len) / CHIMERA_PAGE_SIZE) max in
    seqZ first_page (last_page - first_page).

(** [None] is the [while(1)] after the panic message. *)
Definition pmm_init (entries : list chimera_memmap_entry) : option pmm :=
  let s := {| s_pages := ∅; s_buddy_freelist := ∅; s_max_phys_page := 0;
              s_total_ram_pages := 0; s_free_pages := 0 |} in
  match entries with
  | [] => Some s
  | _ =>
      let max := max_phys_addr entries / CHIMERA_PAGE_SIZE in
      let s := s <| s_max_phys_page := max |>
                 <| s_total_ram_pages := total_ram_bytes entries / CHIMERA_PAGE_SIZE |> in
      let page_array_bytes := u64 (max * SIZEOF_VM_PAGE) in
      let page_array_pages := u64 (page_array_bytes + CHIMERA_PAGE_SIZE - 1) / CHIMERA_PAGE_SIZE in
      let array_paddr := array_place entries page_array_bytes in
      let array_first_page := array_paddr / CHIMERA_PAGE_SIZE in
      let array_last_page := array_first_page + page_array_pages in
      if array_paddr =? 0 then None
      else
        let s := wire_pages max s in
        let s := foldl (fun s p =>
            if (array_first_page <=? p) && (p <? array_last_page) then s
            else free_boot_page p s)
          s (concat (map (entry_pages max) entries)) in
        Some (if s_total_ram_pages s =? 0 then s <| s_total_ram_pages := s_free_pages s |> else s)
  end.


Definition array_pages (entries : list chimera_memmap_entry) : Z * Z :=
  let max := max_phys_addr entries / CHIMERA_PAGE_SIZE in
  let bytes := u64 (max * SIZEOF_VM_PAGE) in
  let first := array_place entries bytes / CHIMERA_PAGE_SIZE in
  (first, first + u64 (bytes + CHIMERA_PAGE_SIZE - 1) / CHIMERA_PAGE_SIZE).

(** What the boot protocol guarantees: 64-bit ranges that do not wrap, usable
    entries page aligned, and no page in two usable entries. *)
Record memmap_ok (entries : list chimera_memmap_entry) : Prop := {
  mm_nonempty : entries ≠ [];
  mm_range : forall e, e ∈ entries -> 0 <= base e /\ 0 <= length e /\ base e + length e <= 2 ^ 44;
  mm_aligned : forall e, e ∈ entries -> is_usable (type e) = true ->
    (CHIMERA_PAGE_SIZE | base e) /\ (CHIMERA_PAGE_SIZE | length e);
  mm_disjoint : forall i j e e' x, entries !! i = Some e -> entries !! j = Some e' ->
    is_usable (type e) = true -> is_usable (type e') = true ->
    base e <= x < base e + length e -> base e' <= x < base e' + length e' -> i = j
}.

Definition usable_page (entries : list chimera_memmap_entry) (p : Z) : Prop :=
  exists e, e ∈ entries /\ is_usable (type e) = true /\
    base e <= p * CHIMERA_PAGE_SIZE < base e + length e /\ 0x100000 <= p * CHIMERA_PAGE_SIZE.

Lemma max_phys_addr_spec entries :
  (forall e, e ∈ entries -> 0 <= base e /\ 0 <= length e /\ base e + length e <= 2 ^ 44) ->
  0 <= max_phys_addr entries <= 2 ^ 44 /\
  forall e, e ∈ entries -> counts_for_max (type e) = true -> base e + length e <= max_phys_addr entries.
Proof.
  intros Hr. unfold max_phys_addr.
  assert (H : forall l m, (forall e, e ∈ l -> e ∈ entries) -> 0 <= m <= 2 ^ 44 ->
    let r := foldl (fun m e => if counts_for_max (type e) && (m <? u64 (base e + length e))
                    then u64 (base e + length e) else m) m l in
    m <= r <= 2 ^ 44 /\ forall e, e ∈ l -> counts_for_max (type e) = true -> base e + length e <= r).
  { induction l as [|e l IH]; intros m Hl Hm; cbn [foldl]; [split; [lia|set_solver]|].
    destruct (Hr e) as (? & ? & ?); [apply Hl; set_solver|]. rewrite u64_id by lia.
    set (m' := if _ && _ then _ else m).
    assert (Hm' : m <= m' <= 2 ^ 44 /\ (counts_for_max (type e) = true -> base e + length e <= m')).
    { unfold m'. destruct (counts_for_max (type e)); simpl; [|split; [lia|done]].
      destruct (Z.ltb_spec m (base e + length e)); split; lia. }
    destruct (IH m') as [? Hin]; [set_solver|lia|]. split; [lia|].
    intros e' [->|He']%elem_of_cons Hc; [|by apply Hin]. destruct Hm' as [_ Hc']. specialize (Hc' Hc). lia. }
  destruct (H entries 0) as [? Hin]; [done|lia|]. split; [lia|done].
Qed.

Lemma entry_pages_spec entries e p :
  memmap_ok entries -> e ∈ entries ->
  p ∈ entry_pages (max_phys_addr entries / CHIMERA_PAGE_SIZE) e <->
  is_usable (type e) = true /\ base e <= p * CHIMERA_PAGE_SIZE < base e + length e /\
  0x100000 <= p * CHIMERA_PAGE_SIZE.
Proof.
  intros Hok He. destruct (mm_range _ Hok e He) as (Hb & Hl & Hm).
  destruct (max_phys_addr_spec entries (mm_range _ Hok)) as [Hmax Hin].
  unfold entry_pages. destruct (is_usable (type e)) eqn:Hu.
  2:{ destruct (base e <? 0x100000); simpl; split; [set_solver|naive_solver|set_solver|naive_solver]. }
  destruct (mm_aligned _ Hok e He Hu) as [[q Hq] [r Hr]].
  assert (Hc : base e + length e <= max_phys_addr entries).
  { apply Hin; [done|]. by destruct (type e). }
  set (M := max_phys_addr entries) in *. clearbody M. unfold CHIMERA_PAGE_SIZE in *.
  assert (HM : (q + r) * 4096 <= M) by lia. assert (q + r <= M / 4096) by (apply Z.div_le_lower_bound; lia).
  simpl negb. cbv iota. destruct (Z.ltb_spec (base e) 0x100000); simpl.
  - rewrite u64_id by lia. destruct (Z.leb_spec (base e + length e) 0x100000).
    { split; [set_solver|]. intros (_ & ? & ?). lia. }
    rewrite (u64_id (length e - _)) by lia. rewrite u64_id by lia.
    rewrite elem_of_seqZ.
    replace (base e + (0x100000 - base e)) with (256 * 4096) by lia.
    replace (256 * 4096 + (length e - (0x100000 - base e))) with ((q + r) * 4096) by lia.
    rewrite !Z.div_mul by lia. lia.
  - rewrite (u64_id (length e)) by lia. rewrite u64_id by lia.
    rewrite elem_of_seqZ, Hq, Hr, <- Z.mul_add_distr_r, !Z.div_mul by lia. lia.
Qed.

Lemma entry_pages_NoDup max e : NoDup (entry_pages max e).
Proof.
  unfold entry_pages. destruct (base e <? 0x100000), (negb (is_usable (type e))); try constructor;
    destruct (_ && _); try constructor; apply NoDup_seqZ.
Qed.

Lemma boot_pages_NoDup entries :
  memmap_ok entries ->
  NoDup (concat (map (entry_pages (max_phys_addr entries / CHIMERA_PAGE_SIZE)) entries)).
Proof.
  intros Hok. apply NoDup_concat.
  - intros x [e [-> _]]%list_elem_of_fmap. apply entry_pages_NoDup.
  - intros i j x y a. rewrite !list_lookup_fmap.
    intros (e & Hi & ->)%fmap_Some (e' & Hj & ->)%fmap_Some Ha Ha'.
    pose proof (list_elem_of_lookup_2 _ _ _ Hi). pose proof (list_elem_of_lookup_2 _ _ _ Hj).
    apply (entry_pages_spec entries) in Ha as (? & ? & _), Ha' as (? & ? & _); try done.
    by eapply (mm_disjoint _ Hok).
Qed.

Lemma free_boot_page_spec p s :
  Wf s -> 0 <= p < s_max_phys_page s -> 0 < ref_count (pg s p) ->
  Wf (free_boot_page p s) /\ s_max_phys_page (free_boot_page p s) = s_max_phys_page s /\
  forall x, ref_count (pg (free_boot_page p s) x) = if decide (x = p) then 0 else ref_count (pg s x).
Proof.
  intros HW Hp Hr.
  destruct (free_allocated s p (fun g => g <| ref_count := 0 |> <| wire_count := 0 |>))
    as (HW' & Hm & _ & Hx); [done|done|done|done|done|by left|]. split; [exact HW'|]. split; [exact Hm|exact Hx].
Qed.

(** The last loop, over any duplicate-free list of allocated pages. *)
Lemma free_boot_pages_spec (keep : Z -> bool) l s :
  Wf s -> NoDup l -> (forall p, p ∈ l -> 0 <= p < s_max_phys_page s /\ ref_count (pg s p) = 1) ->
  let s' := foldl (fun s p => if keep p then s else free_boot_page p s) s l in
  Wf s' /\ s_max_phys_page s' = s_max_phys_page s /\
  forall x, ref_count (pg s' x) =
    if decide (x ∈ l /\ keep x = false) then 0 else ref_count (pg s x).
Proof.
  revert s. induction l as [|p l IH]; intros s HW Hnd Hl; cbn [foldl].
  { split; [done|]. split; [done|]. intros x. rewrite decide_False by set_solver. done. }
  apply NoDup_cons in Hnd as [Hpl Hnd].
  assert (Hs : exists s1, (if keep p then s else free_boot_page p s) = s1 /\ Wf s1 /\
     s_max_phys_page s1 = s_max_phys_page s /\ forall x, ref_count (pg s1 x) =
       if decide (x = p /\ keep x = false) then 0 else ref_count (pg s x)).
  { destruct (keep p) eqn:Ek.
    - exists s. split_and!; try done. intros x. rewrite decide_False; [done|]. intros [-> ?]. congruence.
    - destruct (Hl p) as [Hp Hr]; [set_solver|].
      destruct (free_boot_page_spec p s HW Hp) as (HW1 & Hm1 & Hr1); [lia|].
      exists (free_boot_page p s). split; [done|]. split; [done|]. split; [done|].
      intros x. rewrite Hr1. repeat case_decide; naive_solver. }
  destruct Hs as (s1 & -> & HW1 & Hm1 & Hr1). destruct (IH s1 HW1 Hnd) as (HW' & Hm' & Hr').
  { intros q Hq. rewrite Hm1, Hr1, decide_False by set_solver. apply Hl. set_solver. }
  split; [done|]. split; [congruence|]. intros x. rewrite Hr', Hr1.
  repeat case_decide; try done; rewrite elem_of_cons in *; naive_solver.
Qed.

Definition boot_map : list chimera_memmap_entry :=
  [ {| base := 0; length := 0x9f000; type := CHIMERA_MEM_USABLE |};
    {| base := 0x9f000; length := 0x61000; type := CHIMERA_MEM_RESERVED |};
    {| base := 0x100000; length := 0x140000; type := CHIMERA_MEM_USABLE |} ].

Lemma boot_map_ok : memmap_ok boot_map.
Proof.
  constructor.
  - done.
  - intros e He. unfold boot_map in He. rewrite !elem_of_cons in He.
    destruct_or!; subst; cbn; try lia. by apply elem_of_nil in He.
  - intros e He. unfold boot_map in He. rewrite !elem_of_cons in He. intros _.
    destruct_or!; subst; cbn; [split..|by apply elem_of_nil in He].
    all: first [by exists 0 | by exists 0x9f | by exists 0x61 | by exists 0x100 | by exists 0x140].
  - intros [|[|[|i]]] [|[|[|j]]] e e' x; cbn; intros [= <-] [= <-]; cbn; try done; lia.
Qed.

(** from a memory map as the boot protocol describes it, [pmm_init] either
    halts for lack of room for the descriptor array or leaves the manager well
    formed, with a page free exactly when it lies in a usable entry, at or above
    1 MiB and outside the descriptor array. *)
Theorem pmm_init_wf (entries : list chimera_memmap_entry) (s : pmm) :
  memmap_ok entries -> pmm_init entries = Some s ->
  Wf s /\ forall p, 0 <= p < s_max_phys_page s ->
    (ref_count (pg s p) = 0 <->
     usable_page entries p /\ ~ (fst (array_pages entries) <= p < snd (array_pages entries))).
Proof.
  intros Hok. unfold pmm_init. destruct entries as [|e0 rest] eqn:Ee; [by destruct (mm_nonempty _ Hok)|].
  rewrite <- Ee in *. clear e0 rest Ee. set (max := max_phys_addr entries / CHIMERA_PAGE_SIZE).
  cbv zeta. destruct (_ =? 0); [done|]. intros [= <-].
  destruct (max_phys_addr_spec entries (mm_range _ Hok)) as [Hmx _].
  assert (Hmax : 0 <= max <= 2 ^ 32).
  { unfold max. split; [apply Z.div_pos; unfold CHIMERA_PAGE_SIZE; lia|]. unfold CHIMERA_PAGE_SIZE.
    apply Z.div_le_upper_bound; lia. }
  set (s0 := {| s_pages := _ |}). set (s1 := s0 <| s_max_phys_page := _ |> <| s_total_ram_pages := _ |>).
  pose proof (wire_pages_wf s1 Hmax eq_refl eq_refl) as HW1.
  change (s_max_phys_page s1) with max in HW1.
  destruct (wire_pages_frame max s1) as (Hm1 & _ & _). change (s_max_phys_page s1) with max in Hm1.
  destruct (free_boot_pages_spec
    (fun p => (fst (array_pages entries) <=? p) && (p <? snd (array_pages entries)))
    (concat (map (entry_pages max) entries)) (wire_pages max s1) HW1 (boot_pages_NoDup _ Hok))
    as (HW2 & Hm2 & Hr2).
  { intros p [l [Hp [e [-> He]]%list_elem_of_fmap]]%elem_of_concat.
    assert (Hin : 0 <= p < max).
    { apply (entry_pages_spec entries) in Hp as (Hu & Hb & Hlo); [|done|done].
      destruct (mm_range _ Hok e He). destruct (max_phys_addr_spec entries (mm_range _ Hok)) as [_ Hin].
      assert (base e + length e <= max_phys_addr entries) by (apply Hin; [done|by destruct (type e)]).
      assert (max_phys_addr entries < (max + 1) * CHIMERA_PAGE_SIZE).
      { unfold max, CHIMERA_PAGE_SIZE. pose proof (Z.mul_succ_div_gt (max_phys_addr entries) 4096). lia. }
      destruct (mm_aligned _ Hok e He Hu) as [[q Hq] [r Hr]]. unfold CHIMERA_PAGE_SIZE in *. 
      assert (p < q + r) by lia. assert ((q + r) * 4096 <= max_phys_addr entries) by lia.
      assert (q + r <= max) by (unfold max; apply Z.div_le_lower_bound; lia). lia. }
    rewrite Hm1, wire_pages_pg, decide_True by done. done. }
  cbv zeta in HW2, Hm2, Hr2.
  change (foldl _ (wire_pages max s1) _) with (foldl
    (fun s p => if (fst (array_pages entries) <=? p) && (p <? snd (array_pages entries))
                then s else free_boot_page p s)
    (wire_pages max s1) (concat (map (entry_pages max) entries))).
  generalize dependent (foldl
    (fun s p => if (fst (array_pages entries) <=? p) && (p <? snd (array_pages entries))
                then s else free_boot_page p s)
    (wire_pages max s1) (concat (map (entry_pages max) entries))).
  intros s2 HW2 Hm2 Hr2.
  assert (Hgoal : Wf s2 /\ forall p, 0 <= p < s_max_phys_page s2 ->
    (ref_count (pg s2 p) = 0 <->
     usable_page entries p /\ ~ (fst (array_pages entries) <= p < snd (array_pages entries)))).
  { split; [done|]. intros p Hp. rewrite Hr2, wire_pages_pg, (decide_True (P := 0 <= p < max)) by lia.
    assert (Hu : p ∈ concat (map (entry_pages max) entries) <-> usable_page entries p).
    { rewrite elem_of_concat. unfold usable_page. split.
      - intros (l & Hl & (e & -> & He)%list_elem_of_fmap). exists e.
        apply (entry_pages_spec entries) in Hl; tauto.
      - intros (e & He & Hrest). exists (entry_pages max e). split.
        + apply (entry_pages_spec entries); tauto.
        + apply list_elem_of_fmap. eauto. }
    rewrite <- Hu. case_decide as Hd; cbn [ref_count wired_page].
    - destruct Hd as [Hd1 Hd2]. split; [intros _|done]. split; [done|]. intros Hc. 
      apply andb_false_iff in Hd2. rewrite Z.leb_gt, Z.ltb_ge in Hd2. lia.
    - split; [done|]. intros [Hd1 Hd2]. exfalso. apply Hd. split; [done|].
      apply andb_false_iff. rewrite Z.leb_gt, Z.ltb_ge. lia. }
  destruct (s_total_ram_pages s2 =? 0); [|exact Hgoal].
  destruct Hgoal as [[[fl HI] Hc] Hp]. split; [|exact Hp]. split; [|exact Hc].
  exists fl. destruct HI. by constructor.
Qed.

Lemma pmm_init_wf_witness :
  match pmm_init boot_map with
  | Some s => s_free_pages s = 315 /\ Wf s
  | None => False
  end.
Proof.
  destruct (pmm_init boot_map) as [s|] eqn:E.
  - split.
    + assert (Hf : option_map s_free_pages (pmm_init boot_map) = Some 315)
        by (vm_compute; reflexivity).
      rewrite E in Hf. injection Hf as Hf. exact Hf.
    + apply (pmm_init_wf boot_map s boot_map_ok E).
  - assert (Hf : option_map s_free_pages (pmm_init boot_map) = Some 315) by (vm_compute; reflexivity).
    rewrite E in Hf. discriminate Hf.
Defined.

End PmmInit.
