(* ===== verification/Zone.v ===== *)
(** * Zone allocator and kernel heap

    Models [kernel/mm/zone.c]: zones whose free elements are linked through
    their own first word, the page refill of [zalloc], and the [kalloc]/[kfree]
    heap with its 64-byte in-band headers.  Kernel memory is a map from aligned
    addresses to 64-bit words, so free-list links and headers live in the same
    memory that callers receive.

    The physical page allocator is used through the interface [PageAllocator];
    [Pmm] implements it ([pmm_page_allocator]).  The theorems show that the heap
    never hands out memory that overlaps a live allocation. *)

From S2P Require Import Prelude Pmm.

(** ** The page allocator as the heap sees it *)

Class PageAllocator (S : Type) := {
  pa_alloc_page : S -> S * Z;
  pa_alloc_pages : Z -> S -> S * Z;
  pa_free_contiguous : Z -> Z -> S -> S;
  pa_ok : S -> Prop;
  (** references held on a physical page *)
  pa_refs : S -> Z -> Z;
  pa_page_law s : pa_alloc_page s = pa_alloc_pages 1 s;
  pa_alloc_law count s s' addr :
    pa_ok s -> 0 < count -> pa_alloc_pages count s = (s', addr) ->
    pa_ok s' /\ (forall x, 0 < pa_refs s x -> pa_refs s' x = pa_refs s x) /\
    (addr ≠ 0 -> addr ≠ Pmm.PADDR_NONE ->
     exists b, addr = b * 4096 /\ 0 < b /\ b + count <= 2 ^ 32 /\ count <= 2 ^ 20 /\
       forall x, b <= x < b + count -> pa_refs s x = 0 /\ pa_refs s' x = 1);
  pa_free_law b count s :
    pa_ok s -> 0 < b -> 0 <= count -> b + count <= 2 ^ 32 ->
    pa_ok (pa_free_contiguous (b * 4096) count s) /\
    forall x, ~ (b <= x < b + count) ->
      pa_refs (pa_free_contiguous (b * 4096) count s) x = pa_refs s x
}.

Module Zone.

Definition ZONE_MAGIC : Z := 0x585A4F4E45484452.
Definition LARGE_MAGIC : Z := 0x584C415247454844.
Definition MAX_ZONES : nat := 32.
Definition KALLOC_ZONE_COUNT : nat := 9.
Definition s_kalloc_sizes : list Z := [16; 32; 64; 128; 256; 512; 1024; 2048; 4096].

Record zone := {
  z_elem_size : Z;
  z_alloc_size : Z;
  z_max_size : Z;
  z_cur_size : Z;
  z_count : Z;
  z_free_count : Z;
  z_free_list : Z  (* 0 is nullptr *)
}.
#[global] Instance zone_eta : Eta zone := fun r =>
  {| z_elem_size := z_elem_size r; z_alloc_size := z_alloc_size r; z_max_size := z_max_size r;
     z_cur_size := z_cur_size r; z_count := z_count r; z_free_count := z_free_count r;
     z_free_list := z_free_list r |}.

(** A [zone_t] is an index into [s_zone_table]; the list holds the
    [s_zone_table_count] entries in use. *)
Record heap {S : Type} := {
  s_zone_table : list zone;
  s_zone_initialized : bool;
  mem : gmap Z Z;
  pm : S
}.
Arguments heap : clear implicits.
#[global] Instance heap_eta S : Eta (heap S) := fun r =>
  {| s_zone_table := s_zone_table r; s_zone_initialized := s_zone_initialized r;
     mem := mem r; pm := pm r |}.

(** [memset(a, 0, n)] for an 8-byte aligned [a]: whole words become 0 and the
    last [n mod 8] bytes, the low-order ones of their word, are cleared. *)
Definition memset0 (a n : Z) (m : gmap Z Z) : gmap Z Z :=
  let m := fill_words a (fun _ => 0) (seqZ 0 (n / 8)) m in
  let k := n mod 8 in
  if k =? 0 then m
  else let e := a + 8 * (n / 8) in
       store e (Z.shiftl (Z.shiftr (load m e) (8 * k)) (8 * k)) m.

Section Heap.
Context {S : Type} `{PageAllocator S} (g_hhdm_base : Z).
Implicit Types (h : heap S).

Definition zinit (size max alloc : Z) (h : heap S) : heap S * option nat :=
  if size =? 0 then (h, None)
  else
    let size := if size <? 8 then 8 else size in
    let size := Z.land (u64 (size + 63)) (not64 63) in
    let alloc := if alloc =? 0 then 4096 else alloc in
    let idx := length (s_zone_table h) in
    if (MAX_ZONES <=? idx)%nat then (h, None)
    else
      (h <| s_zone_table ::= fun t => t ++
          [{| z_elem_size := size; z_alloc_size := alloc; z_max_size := max; z_cur_size := 0;
              z_count := 0; z_free_count := 0; z_free_list := 0 |}] |>, Some idx).

Definition zone_create (size flags : Z) (h : heap S) : heap S * option nat := zinit size 0 4096 h.

(** Push one element on the free list of zone [z]. *)
Definition zpush (zi : nat) (link : Z) (h : heap S) : heap S :=
  match s_zone_table h !! zi with
  | None => h
  | Some z =>
      h <| mem ::= store link (z_free_list z) |>
        <| s_zone_table ::= <[zi := z <| z_free_list := link |>
                                      <| z_free_count ::= fun n => u32 (n + 1) |>]> |>
  end.

Definition zalloc_refill (zi : nat) (z : zone) (h : heap S) : heap S * bool :=
  let '(p, phys) := pa_alloc_page (pm h) in
  let h := h <| pm := p |> in
  if (phys =? 0) || (phys =? Pmm.PADDR_NONE) then (h, false)
  else
    let page_virt := u64 (phys + g_hhdm_base) in
    let count := 4096 / z_elem_size z in
    let h := foldl (fun h i => zpush zi (page_virt + i * z_elem_size z) h) h (seqZ 0 count) in
    (h <| s_zone_table ::= alter (fun z => z <| z_cur_size ::= fun n => u64 (n + 4096) |>) zi |>, true).

Definition zpop (zi : nat) (h : heap S) : heap S * Z :=
  match s_zone_table h !! zi with
  | None => (h, 0)
  | Some z =>
      let item := z_free_list z in
      let h := h <| s_zone_table ::= <[zi := z <| z_free_list := load (mem h) item |>
                      <| z_free_count ::= fun n => u32 (n - 1) |>
                      <| z_count ::= fun n => u32 (n + 1) |>]> |> in
      (h <| mem ::= memset0 item (z_elem_size z) |>, item)
  end.

Definition zalloc (zone : option nat) (h : heap S) : heap S * Z :=
  match zone with
  | None => (h, 0)
  | Some zi =>
      match s_zone_table h !! zi with
      | None => (h, 0)
      | Some z =>
          if z_free_list z =? 0 then
            let '(h, ok) := zalloc_refill zi z h in
            if ok then zpop zi h else (h, 0)
          else zpop zi h
      end
  end.

Definition zalloc_noblock (zone : option nat) (h : heap S) : heap S * Z := zalloc zone h.

Definition zfree (zone : option nat) (elem : Z) (h : heap S) : heap S :=
  match zone with
  | None => h
  | Some zi =>
      if elem =? 0 then h
      else
        let h := zpush zi elem h in
        h <| s_zone_table ::= alter (fun z => if 0 <? z_count z
                                              then z <| z_count ::= Z.pred |> else z) zi |>
  end.

Definition zone_init (h : heap S) : heap S :=
  if s_zone_initialized h then h
  else
    let h := h <| s_zone_table := [] |> in
    let h := foldl (fun h size => fst (zinit size 0 4096 h)) h s_kalloc_sizes in
    h <| s_zone_initialized := true |>.

(** The first of the kalloc zones whose elements are large enough. *)
Definition pick_zone (needed : Z) (t : list zone) : option nat :=
  fst <$> list_find (fun z => needed <= z_elem_size z) (take KALLOC_ZONE_COUNT t).

Definition kalloc_large (size : Z) (h : heap S) : heap S * Z :=
  let total := u64 (size + 64) in
  let pages := u64 (total + 4095) / 4096 in
  let '(p, phys) := pa_alloc_pages pages (pm h) in
  let h := h <| pm := p |> in
  if (phys =? Pmm.PADDR_NONE) || (phys =? 0) then (h, 0)
  else
    let lhdr := u64 (phys + g_hhdm_base) in
    let h := h <| mem ::= fun m => store (lhdr + 16) phys (store (lhdr + 8) pages (store lhdr LARGE_MAGIC m)) |> in
    let ptr := lhdr + 64 in
    (h <| mem ::= memset0 ptr size |>, ptr).

Definition kalloc (size : Z) (h : heap S) : heap S * Z :=
  if size =? 0 then (h, 0)
  else
    let h := zone_init h in
    let needed := u64 (size + 64) in
    match (if needed <=? 4096 then pick_zone needed (s_zone_table h) else None) with
    | Some zi =>
        let '(h, m) := zalloc (Some zi) h in
        if m =? 0 then (h, 0)
        else
          (h <| mem ::= fun mm => store (m + 8) (Z.of_nat zi + 2 ^ 32 * u32 size) (store m ZONE_MAGIC mm) |>,
           m + 64)
    | None => kalloc_large size h
    end.

Definition kfree (ptr : Z) (h : heap S) : heap S :=
  if ptr =? 0 then h
  else
    let raw := ptr - 64 in
    let magic := load (mem h) raw in
    let zi := u32 (load (mem h) (raw + 8)) in
    if (magic =? ZONE_MAGIC) && (zi <? Z.of_nat KALLOC_ZONE_COUNT) then
      zfree (Some (Z.to_nat zi)) raw (h <| mem ::= store raw 0 |>)
    else if magic =? LARGE_MAGIC then
      let page_count := load (mem h) (raw + 8) in
      let phys_base := load (mem h) (raw + 16) in
      if (page_count =? 0) || (2 ^ 20 <? page_count) || negb (Z.land phys_base 4095 =? 0) then h
      else
        let h := h <| mem ::= store raw 0 |> in
        h <| pm ::= pa_free_contiguous phys_base page_count |>
    else h.

(** ** Memory *)

Lemma memset0_out a n m x :
  0 <= n -> x < a \/ a + n <= x -> load (memset0 a n m) x = load m x.
Proof.
  intros Hn Hx. unfold memset0. pose proof (Z.div_mod n 8). pose proof (Z.mod_pos_bound n 8).
  assert (Hout : load (fill_words a (fun _ => 0) (seqZ 0 (n / 8)) m) x = load m x).
  { apply fill_words_out. intros i Hi%elem_of_seqZ. lia. }
  destruct (Z.eqb_spec (n mod 8) 0); [done|]. rewrite load_store, decide_False; [done|lia].
Qed.

Lemma memset0_in a n m i :
  0 <= i -> 8 * i + 8 <= n -> load (memset0 a n m) (a + 8 * i) = 0.
Proof.
  intros Hi Hn. unfold memset0. pose proof (Z.div_mod n 8). pose proof (Z.mod_pos_bound n 8).
  assert (Hin : load (fill_words a (fun _ => 0) (seqZ 0 (n / 8)) m) (a + 8 * i) = 0).
  { apply (fill_words_in m a (fun _ => 0)). apply elem_of_seqZ. lia. }
  destruct (Z.eqb_spec (n mod 8) 0); [done|]. rewrite load_store, decide_False; [done|lia].
Qed.

(** ** The heap invariant *)

Inductive chunk : Set :=
| CFree (zi : nat)              (* on the free list of zone [zi] *)
| CRaw (zi : nat)               (* returned by [zalloc] *)
| CZone (zi : nat) (size : Z)   (* returned by [kalloc] from zone [zi] *)
| CLarge (pages size : Z).      (* returned by [kalloc] from whole pages *)

Definition esize (t : list zone) (zi : nat) : Z := from_option z_elem_size 0 (t !! zi).

Definition clen (t : list zone) (c : chunk) : Z :=
  match c with
  | CFree zi | CRaw zi | CZone zi _ => esize t zi
  | CLarge pages _ => 4096 * pages
  end.

Definition ptr (w : Z) : option Z := if w =? 0 then None else Some w.
Definition link (m : gmap Z Z) (a : Z) : option Z := ptr (load m a).

(** What the header of a [kalloc] chunk at [a] records. *)
Definition header (t : list zone) (m : gmap Z Z) (a : Z) (c : chunk) : Prop :=
  match c with
  | CFree _ | CRaw _ => True
  | CZone zi size =>
      load m a = ZONE_MAGIC /\ u32 (load m (a + 8)) = Z.of_nat zi /\
      (zi < KALLOC_ZONE_COUNT)%nat /\ 0 <= size /\ 64 + size <= esize t zi
  | CLarge pages size =>
      load m a = LARGE_MAGIC /\ load m (a + 8) = pages /\ load m (a + 16) = a - g_hhdm_base /\
      (4096 | a) /\ 0 < pages <= 2 ^ 20 /\ 0 <= size /\ 64 + size <= 4096 * pages
  end.

Definition zone_of (c : chunk) : option nat :=
  match c with CFree zi | CRaw zi | CZone zi _ => Some zi | CLarge _ _ => None end.

Record chunk_ok (h : heap S) (a : Z) (c : chunk) : Prop := {
  co_low : g_hhdm_base + 4096 <= a;
  co_high : a + clen (s_zone_table h) c <= g_hhdm_base + 2 ^ 44;
  co_align : (64 | a);
  co_zone : forall zi, zone_of c = Some zi -> (zi < length (s_zone_table h))%nat;
  co_held : forall x, a <= x < a + clen (s_zone_table h) c ->
    0 < pa_refs (pm h) ((x - g_hhdm_base) / 4096);
  co_header : header (s_zone_table h) (mem h) a c
}.

Definition disjoint (t : list zone) (a : Z) (c : chunk) (a' : Z) (c' : chunk) : Prop :=
  a + clen t c <= a' \/ a' + clen t c' <= a.

Record zone_ok (m : gmap Z Z) (z : zone) (l : list Z) : Prop := {
  zo_size : 64 <= z_elem_size z <= 4096;
  zo_align : (64 | z_elem_size z);
  zo_list : chain (link m) (ptr (z_free_list z)) l;
  zo_count : z_free_count z = u32 (Z.of_nat (length l))
}.

(** [C] gives every carved chunk its state and [fl zi] is the free list of zone
    [zi]; chunks are pairwise disjoint, so links and headers never alias. *)
Record ZInv (h : heap S) (C : gmap Z chunk) (fl : nat -> list Z) : Prop := {
  zi_pm : pa_ok (pm h);
  zi_zone : forall zi z, s_zone_table h !! zi = Some z -> zone_ok (mem h) z (fl zi);
  zi_free : forall zi a, a ∈ fl zi <-> C !! a = Some (CFree zi);
  zi_chunk : forall a c, C !! a = Some c -> chunk_ok h a c;
  zi_disj : forall a a' c c', C !! a = Some c -> C !! a' = Some c' -> a ≠ a' ->
    disjoint (s_zone_table h) a c a' c'
}.

Lemma chunk_len h C fl a c : ZInv h C fl -> C !! a = Some c -> 64 <= clen (s_zone_table h) c.
Proof.
  intros HI Hc. pose proof (zi_chunk _ _ _ HI a c Hc) as Hok. pose proof (co_header _ _ _ Hok) as Hh.
  assert (Hz : forall zi, zone_of c = Some zi -> 64 <= esize (s_zone_table h) zi).
  { intros zi Hzi. apply (co_zone _ _ _ Hok) in Hzi. apply lookup_lt_is_Some in Hzi as [z Hz].
    unfold esize. rewrite Hz. apply (zi_zone _ _ _ HI zi z Hz). }
  destruct c; simpl in *; [by apply Hz..|lia].
Qed.

(** Headers only depend on the memory of their own chunk. *)
Lemma header_frame t t' m m' a c :
  64 <= clen t c -> (forall zi, zone_of c = Some zi -> esize t' zi = esize t zi) ->
  (forall x, a <= x < a + clen t c -> load m' x = load m x) ->
  header t m a c -> header t' m' a c.
Proof.
  intros Hl Ht Hm. destruct c as [| |zi size|pages size]; simpl in *; [done|done|..].
  - rewrite !Hm, (Ht zi) by (done || lia). done.
  - rewrite !Hm by lia. done.
Qed.

(** A change of memory inside one chunk [a0], or inside none, and of the page
    allocator that keeps held pages held, leaves every other chunk as it was. *)
Lemma chunk_frame h h' a c :
  64 <= clen (s_zone_table h) c ->
  (forall zi, esize (s_zone_table h') zi = esize (s_zone_table h) zi) ->
  length (s_zone_table h) = length (s_zone_table h') ->
  (forall x, a <= x < a + clen (s_zone_table h) c -> load (mem h') x = load (mem h) x) ->
  (forall x, a <= x < a + clen (s_zone_table h) c ->
    0 < pa_refs (pm h) ((x - g_hhdm_base) / 4096) -> 0 < pa_refs (pm h') ((x - g_hhdm_base) / 4096)) ->
  chunk_ok h a c -> chunk_ok h' a c.
Proof.
  intros Hl Ht Hlen Hm Hr [H1 H2 H3 H4 H5 H6].
  assert (Hc : clen (s_zone_table h') c = clen (s_zone_table h) c).
  { destruct c; simpl; auto. }
  constructor; rewrite ?Hc; try done.
  - rewrite <- Hlen. done.
  - intros x Hx. by apply Hr, H5.
  - by apply (header_frame (s_zone_table h) _ (mem h)).
Qed.

Definition updf (fl : nat -> list Z) (zi : nat) (l : list Z) (zi' : nat) : list Z :=
  if decide (zi' = zi) then l else fl zi'.

Lemma esize_insert t zi z z' zi' :
  t !! zi = Some z -> z_elem_size z' = z_elem_size z -> esize (<[zi := z']> t) zi' = esize t zi'.
Proof.
  intros Hz He. unfold esize. destruct (decide (zi' = zi)) as [->|].
  - rewrite list_lookup_insert_eq by (by eapply lookup_lt_Some). by rewrite Hz.
  - by rewrite list_lookup_insert_ne.
Qed.

(** Forgetting a chunk that is on no free list. *)
Lemma drop_chunk h C fl a c :
  ZInv h C fl -> C !! a = Some c -> (forall zi, c ≠ CFree zi) -> ZInv h (delete a C) fl.
Proof.
  intros HI Ha Hc. constructor.
  - apply (zi_pm _ _ _ HI).
  - apply (zi_zone _ _ _ HI).
  - intros zi x. rewrite (zi_free _ _ _ HI). destruct (decide (x = a)) as [->|].
    + rewrite lookup_delete_eq, Ha. split; [intros [= ->]; by destruct (Hc zi)|done].
    + by rewrite lookup_delete_ne.
  - intros x c' [_ Hx]%lookup_delete_Some. by apply (zi_chunk _ _ _ HI).
  - intros x y c1 c2 [_ Hx]%lookup_delete_Some [_ Hy]%lookup_delete_Some. by apply (zi_disj _ _ _ HI).
Qed.

Lemma free_list_frame (m m' : gmap Z Z) (z z' : zone) (l : list Z) :
  z_elem_size z' = z_elem_size z -> z_free_list z' = z_free_list z ->
  z_free_count z' = z_free_count z -> (forall x, x ∈ l -> load m' x = load m x) ->
  zone_ok m z l -> zone_ok m' z' l.
Proof.
  intros He Hf Hc Hm [? ? ? ?]. constructor; rewrite ?He, ?Hf, ?Hc; try done.
  eapply lseg_frame; [|done]. intros x Hx. unfold link. by rewrite Hm.
Qed.

(** Replacing the table entry of zone [zi], the memory of chunk [a] and the state
    of that chunk, where the new free list of [zi] is [l]. *)
Lemma update_chunk h C fl h' zi z z' a c l :
  ZInv h C fl -> s_zone_table h !! zi = Some z ->
  s_zone_table h' = <[zi := z']> (s_zone_table h) -> pm h' = pm h ->
  z_elem_size z' = z_elem_size z ->
  (forall x, ~ (a <= x < a + z_elem_size z) -> load (mem h') x = load (mem h) x) ->
  (forall x c', C !! x = Some c' -> x ≠ a ->
     x + clen (s_zone_table h) c' <= a \/ a + z_elem_size z <= x) ->
  zone_ok (mem h') z' l ->
  zone_of c = Some zi -> clen (s_zone_table h) c = z_elem_size z -> chunk_ok h' a c ->
  (forall x, x ∈ l <-> (x = a /\ c = CFree zi) \/ (x ≠ a /\ x ∈ fl zi)) ->
  (forall zi', zi' ≠ zi -> C !! a ≠ Some (CFree zi')) ->
  ZInv h' (<[a := c]> C) (updf fl zi l).
Proof.
  intros HI Hz Ht Hp He Hm Hd Hzo Hcz Hcl Hck Hl Hnf.
  assert (Hes : forall zi', esize (s_zone_table h') zi' = esize (s_zone_table h) zi').
  { intros zi'. rewrite Ht. by eapply esize_insert. }
  assert (Hlen : length (s_zone_table h) = length (s_zone_table h')) by (by rewrite Ht, length_insert).
  assert (Hcl' : forall c', clen (s_zone_table h') c' = clen (s_zone_table h) c').
  { intros []; simpl; auto. }
  constructor.
  - rewrite Hp. apply (zi_pm _ _ _ HI).
  - intros zi' z0. rewrite Ht. unfold updf. case_decide as Hzi; subst.
    + rewrite list_lookup_insert_eq by (by eapply lookup_lt_Some). by intros [= <-].
    + rewrite list_lookup_insert_ne by done. intros Hz0.
      eapply free_list_frame; [done..| |by apply (zi_zone _ _ _ HI)].
      intros x Hx. apply Hm. apply (zi_free _ _ _ HI) in Hx.
      destruct (decide (x = a)) as [->|Hne]; [by destruct (Hnf zi')|].
      pose proof (chunk_len _ _ _ _ _ HI Hx). specialize (Hd x _ Hx Hne). lia.
  - intros zi' x. unfold updf. case_decide as Hzi; subst.
    + rewrite Hl. destruct (decide (x = a)) as [->|Hne].
      * rewrite lookup_insert_eq. naive_solver.
      * rewrite lookup_insert_ne, <- (zi_free _ _ _ HI) by done. naive_solver.
    + rewrite (zi_free _ _ _ HI). destruct (decide (x = a)) as [->|Hne].
      * rewrite lookup_insert_eq. split; [intros Ha; by destruct (Hnf zi')|].
        intros [= ->]. simpl in Hcz. congruence.
      * by rewrite lookup_insert_ne.
  - intros x c' Hx. apply lookup_insert_Some in Hx as [[<- <-]|[Hne Hx]]; [done|].
    pose proof (chunk_len _ _ _ _ _ HI Hx).
    apply (chunk_frame h); [done|done|done| |by rewrite Hp|by apply (zi_chunk _ _ _ HI)].
    intros y Hy. apply Hm. specialize (Hd x c' Hx). lia.
  - intros x y c1 c2 Hx Hy Hxy. unfold disjoint. rewrite !Hcl'.
    apply lookup_insert_Some in Hx as [[<- <-]|[Hne Hx]], Hy as [[<- <-]|[Hne' Hy]]; [done|..].
    + specialize (Hd y c2 Hy). rewrite Hcl. destruct Hd; [done|right; lia|left; lia].
    + specialize (Hd x c1 Hx). rewrite Hcl. destruct Hd; [done|left; lia|right; lia].
    + by apply (zi_disj _ _ _ HI).
Qed.

Hypothesis hhdm_ok : 0 <= g_hhdm_base /\ (4096 | g_hhdm_base) /\ g_hhdm_base + 2 ^ 44 <= 2 ^ 64.

(** A piece of held memory that no chunk uses. *)
Record vacant (h : heap S) (C : gmap Z chunk) (a n : Z) : Prop := {
  va_low : g_hhdm_base + 4096 <= a;
  va_high : a + n <= g_hhdm_base + 2 ^ 44;
  va_align : (64 | a);
  va_held : forall x, a <= x < a + n -> 0 < pa_refs (pm h) ((x - g_hhdm_base) / 4096);
  va_disj : forall x c, C !! x = Some c -> x + clen (s_zone_table h) c <= a \/ a + n <= x
}.

Lemma vacant_none h C fl a n : ZInv h C fl -> 0 < n -> vacant h C a n -> C !! a = None.
Proof.
  intros HI Hn Hv. destruct (C !! a) as [c|] eqn:E; [|done].
  pose proof (va_disj _ _ _ _ Hv a c E). pose proof (chunk_len _ _ _ _ _ HI E). lia.
Qed.

Lemma zpush_inv h C fl zi z a :
  ZInv h C fl -> s_zone_table h !! zi = Some z -> vacant h C a (z_elem_size z) ->
  ZInv (zpush zi a h) (<[a := CFree zi]> C) (updf fl zi (a :: fl zi)) /\
  exists z', s_zone_table (zpush zi a h) = <[zi := z']> (s_zone_table h) /\
    z_elem_size z' = z_elem_size z /\ pm (zpush zi a h) = pm h.
Proof.
  intros HI Hz Hv. destruct (zi_zone _ _ _ HI zi z Hz) as [Hs Hal Hch Hcnt].
  assert (Hpos : 0 < z_elem_size z) by lia.
  pose proof (vacant_none _ _ _ _ _ HI Hpos Hv) as Ha. destruct Hv as [Hlo Hhi H64 Hh Hd].
  assert (Hna : a ∉ fl zi) by (rewrite (zi_free _ _ _ HI); congruence).
  unfold zpush. rewrite Hz. set (z' := z <| z_free_list := a |> <| z_free_count ::= _ |>).
  split; [|by exists z'].
  assert (Hptr : ptr a = Some a) by (unfold ptr; destruct (Z.eqb_spec a 0); [lia|done]).
  assert (Hch' : chain (link (store a (z_free_list z) (mem h))) (ptr a) (a :: fl zi)).
  { assert (Hla : link (store a (z_free_list z) (mem h)) a = ptr (z_free_list z)).
    { unfold link. by rewrite load_store, decide_True. }
    split; [done|]. rewrite Hla. eapply lseg_frame; [|exact Hch]. intros x Hx. unfold link.
    rewrite load_store, decide_False; [done|]. by intros ->. }
  eapply (update_chunk h C fl _ zi z z' a (CFree zi)); try done.
  - intros x Hx. cbn. rewrite load_store, decide_False; [done|]. intros ->. lia.
  - intros x c Hx _. destruct (Hd x c Hx); auto.
  - constructor; try done. cbn. rewrite Hcnt, u32_add_l. f_equal. lia.
  - simpl. unfold esize. by rewrite Hz.
  - assert (He : esize (<[zi := z']> (s_zone_table h)) zi = z_elem_size z).
    { rewrite (esize_insert _ _ z) by done. unfold esize. by rewrite Hz. }
    constructor; cbn; rewrite ?He; try done.
    intros zi' [= <-]. rewrite length_insert. by eapply lookup_lt_Some.
  - intros x. rewrite elem_of_cons. destruct (decide (x = a)); naive_solver.
  - intros zi' _. by rewrite Ha.
Qed.

Lemma zpop_inv h C fl zi z :
  ZInv h C fl -> s_zone_table h !! zi = Some z -> z_free_list z ≠ 0 ->
  let '(h', item) := zpop zi h in
  item = z_free_list z /\ C !! item = Some (CFree zi) /\
  (forall i, 0 <= i -> 8 * i + 8 <= z_elem_size z -> load (mem h') (item + 8 * i) = 0) /\
  (exists z', s_zone_table h' = <[zi := z']> (s_zone_table h) /\ z_elem_size z' = z_elem_size z) /\
  pm h' = pm h /\ s_zone_initialized h' = s_zone_initialized h /\
  exists fl', ZInv h' (<[item := CRaw zi]> C) fl'.
Proof.
  intros HI Hz Hnz. destruct (zi_zone _ _ _ HI zi z Hz) as [Hs Hal Hch Hcnt].
  unfold zpop. rewrite Hz. set (a := z_free_list z) in *.
  set (z' := z <| z_free_list := _ |> <| z_free_count ::= _ |> <| z_count ::= _ |>).
  assert (Hfl : exists l, fl zi = a :: l /\ chain (link (mem h)) (link (mem h) a) l).
  { unfold ptr in Hch. destruct (Z.eqb_spec a 0); [done|].
    destruct (fl zi) as [|x l]; [done|]. destruct Hch as [[= <-] Hch]. by exists l. }
  destruct Hfl as (l & Hfl & Hchl). pose proof (chain_NoDup _ _ _ Hch) as Hnd.
  rewrite Hfl in Hnd. apply NoDup_cons in Hnd as [Hal' _].
  assert (Ha : C !! a = Some (CFree zi)) by (apply (zi_free _ _ _ HI); rewrite Hfl; set_solver).
  pose proof (zi_chunk _ _ _ HI _ _ Ha) as Hck.
  assert (He : esize (s_zone_table h) zi = z_elem_size z) by (unfold esize; by rewrite Hz).
  assert (Hd : forall x c', C !! x = Some c' -> x ≠ a ->
     x + clen (s_zone_table h) c' <= a \/ a + z_elem_size z <= x).
  { intros x c' Hx Hne. destruct (zi_disj _ _ _ HI x a c' _ Hx Ha Hne) as [?|E]; [auto|].
    simpl in E. rewrite He in E. auto. }
  split; [done|]. split; [done|]. split; [intros i Hi Hin; by apply memset0_in|].
  split; [by exists z'|]. split; [done|]. split; [done|]. exists (updf fl zi l).
  eapply (update_chunk h C fl _ zi z z' a (CRaw zi)); try done.
  - intros x Hx. cbn. rewrite memset0_out; [done|lia|lia].
  - constructor; try done.
    + cbn. change (ptr (load (mem h) a)) with (link (mem h) a).
      eapply lseg_frame; [|exact Hchl]. intros x Hx. unfold link. cbn. rewrite memset0_out; [done|lia|].
      assert (Hxc : C !! x = Some (CFree zi)) by (apply (zi_free _ _ _ HI); rewrite Hfl; set_solver).
      assert (x ≠ a) by set_solver. specialize (Hd x _ Hxc). simpl in Hd. lia.
    + cbn. rewrite Hcnt, Hfl. cbn [length]. rewrite u32_sub_l. f_equal. lia.
  - assert (He' : esize (<[zi := z']> (s_zone_table h)) zi = z_elem_size z).
    { by rewrite (esize_insert _ _ z). }
    destruct Hck as [? Hhi ? Hzn Hhd _]. simpl in Hhi, Hhd. rewrite He in Hhi, Hhd.
    constructor; cbn; rewrite ?He'; try done.
    intros zi' [= <-]. rewrite length_insert. by eapply lookup_lt_Some.
  - intros x. rewrite Hfl, elem_of_cons. split.
    + intros Hx. right. split; [by intros ->|auto].
    + intros [[_ [=]]|[? [?|?]]]; done.
  - intros zi' Hne. rewrite Ha. congruence.
Qed.

(** Statistics of a zone do not matter to the invariant. *)
Lemma zone_stat_inv h C fl zi z z' :
  ZInv h C fl -> s_zone_table h !! zi = Some z -> z_elem_size z' = z_elem_size z ->
  z_free_list z' = z_free_list z -> z_free_count z' = z_free_count z ->
  ZInv (h <| s_zone_table ::= <[zi := z']> |>) C fl.
Proof.
  intros HI Hz He Hf Hc.
  assert (Hes : forall zi', esize (<[zi := z']> (s_zone_table h)) zi' = esize (s_zone_table h) zi').
  { intros zi'. by apply (esize_insert _ _ z). }
  constructor; try apply HI.
  - intros zi' z0. cbn. destruct (decide (zi' = zi)) as [->|].
    + rewrite list_lookup_insert_eq by (by eapply lookup_lt_Some). intros [= <-].
      eapply free_list_frame; [done..|]. by apply (zi_zone _ _ _ HI).
    + rewrite list_lookup_insert_ne by done. apply (zi_zone _ _ _ HI).
  - intros a c Hck. pose proof (chunk_len _ _ _ _ _ HI Hck).
    apply (chunk_frame h); auto; [cbn; by rewrite length_insert|by apply (zi_chunk _ _ _ HI)].
  - intros a a' c c' Ha Ha' Hne. pose proof (zi_disj _ _ _ HI a a' c c' Ha Ha' Hne) as Hd.
    unfold disjoint in *. cbn. destruct c, c'; simpl in *; rewrite ?Hes; done.
Qed.

Lemma alter_as_insert {A} (f : A -> A) (l : list A) i x :
  l !! i = Some x -> alter f i l = <[i := f x]> l.
Proof.
  intros Hx. apply list_eq. intros j. destruct (decide (j = i)) as [->|].
  - rewrite list_lookup_alter_eq, list_lookup_insert_eq, Hx by (by eapply lookup_lt_Some). done.
  - by rewrite list_lookup_alter_ne, list_lookup_insert_ne.
Qed.

Lemma alter_zone h zi z f :
  s_zone_table h !! zi = Some z ->
  h <| s_zone_table ::= alter f zi |> = h <| s_zone_table ::= <[zi := f z]> |>.
Proof. intros Hz. unfold fupd. by rewrite (alter_as_insert _ _ _ _ Hz). Qed.

(** ** [zalloc] *)

Definition extends (C C' : gmap Z chunk) : Prop :=
  (forall x c, C !! x = Some c -> C' !! x = Some c) /\
  (forall x c, C' !! x = Some c -> C !! x = Some c \/ exists zi, c = CFree zi).

Lemma pm_frame h C fl p :
  ZInv h C fl -> pa_ok p -> (forall x, 0 < pa_refs (pm h) x -> 0 < pa_refs p x) ->
  ZInv (h <| pm := p |>) C fl.
Proof.
  intros HI Hp Hr. constructor; try apply HI; [done|].
  intros a c Hc. pose proof (chunk_len _ _ _ _ _ HI Hc).
  apply (chunk_frame h); auto. by apply (zi_chunk _ _ _ HI).
Qed.

Lemma carve_inv n h C fl zi z pv :
  ZInv h C fl -> s_zone_table h !! zi = Some z -> vacant h C pv (Z.of_nat n * z_elem_size z) ->
  let h' := foldl (fun h i => zpush zi (pv + i * z_elem_size z) h) h (seqZ 0 (Z.of_nat n)) in
  exists C' fl' z', ZInv h' C' fl' /\ extends C C' /\ pm h' = pm h /\
    s_zone_table h' = <[zi := z']> (s_zone_table h) /\ z_elem_size z' = z_elem_size z /\
    s_zone_initialized h' = s_zone_initialized h /\ ((0 < n)%nat -> z_free_list z' ≠ 0) /\
    forall x c, C' !! x = Some c -> C !! x = Some c \/ x + clen (s_zone_table h) c <= pv + Z.of_nat n * z_elem_size z.
Proof.
  intros HI Hz Hv. destruct (zi_zone _ _ _ HI zi z Hz) as [Hs Hal _ _].
  induction n as [|n IH].
  { simpl. exists C, fl, z. split; [done|]. split; [split; auto|]. rewrite list_insert_id by done.
    repeat split; auto. lia. }
  destruct IH as (C1 & fl1 & z1 & HI1 & [Hx1 Hx2] & Hpm1 & Ht1 & Hz1 & Hin1 & _ & Hlim).
  { destruct Hv as [? ? ? Hh Hd]. constructor; try done; try nia.
    - intros x Hx. apply Hh. nia.
    - intros x c Hx. destruct (Hd x c Hx); [auto|right; nia]. }
  rewrite seqZ_S, foldl_app. cbn [foldl]. set (h1 := foldl _ h _) in *. clearbody h1.
  rewrite Z.add_0_l. set (a := pv + Z.of_nat n * z_elem_size z).
  assert (Htz : s_zone_table h1 !! zi = Some z1).
  { rewrite Ht1. apply list_lookup_insert_eq. by eapply lookup_lt_Some. }
  assert (Hcl : forall c, clen (s_zone_table h1) c = clen (s_zone_table h) c).
  { intros c. rewrite Ht1. destruct c; simpl; try done; by apply (esize_insert _ _ z). }
  assert (Hv1 : vacant h1 C1 a (z_elem_size z1)).
  { rewrite Hz1. destruct Hv as [? ? ? Hh Hd]. unfold a. constructor; try nia.
    - apply Z.divide_add_r; [done|]. by apply Z.divide_mul_r.
    - intros x Hx. rewrite Hpm1. apply Hh. nia.
    - intros x c Hx. rewrite Hcl. destruct (Hlim x c Hx) as [Hc|]; [|auto].
      destruct (Hd x c Hc); [left; nia|right; nia]. }
  destruct (zpush_inv _ _ _ _ _ _ HI1 Htz Hv1) as (HI2 & z2 & Ht2 & Hz2 & Hpm2).
  exists (<[a := CFree zi]> C1), (updf fl1 zi (a :: fl1 zi)), z2.
  pose proof (vacant_none _ _ _ _ _ HI1 (ltac:(rewrite Hz1; lia) : 0 < z_elem_size z1) Hv1) as Hna.
  assert (Hfl2 : z_free_list z2 = a /\ s_zone_initialized (zpush zi a h1) = s_zone_initialized h1).
  { unfold zpush in Ht2 |- *. rewrite Htz in Ht2 |- *. split; [|done].
    apply (f_equal (fun t => t !! zi)) in Ht2. cbn in Ht2.
    rewrite !list_lookup_insert_eq in Ht2 by (by eapply lookup_lt_Some). by injection Ht2 as <-. }
  destruct Hfl2 as [Hfl2 Hin2]. split_and!.
  - done.
  - split.
    + intros x c Hx. apply Hx1 in Hx. rewrite lookup_insert_ne; [done|]. intros ->. congruence.
    + intros x c [[<- <-]|[Hne Hx]]%lookup_insert_Some; [eauto|]. by apply Hx2.
  - congruence.
  - rewrite Ht2, Ht1. apply list_insert_insert_eq.
  - congruence.
  - congruence.
  - intros _. rewrite Hfl2. destruct Hv1. lia.
  - intros x c [[<- <-]|[Hne Hx]]%lookup_insert_Some.
    + right. simpl. unfold esize. rewrite Hz. simpl. unfold a. nia.
    + destruct (Hlim x c Hx); [auto|right; nia].
Qed.

Lemma refill_inv h C fl zi z :
  ZInv h C fl -> s_zone_table h !! zi = Some z ->
  let '(h', ok) := zalloc_refill zi z h in
  exists C' fl' z', ZInv h' C' fl' /\ extends C C' /\
    s_zone_table h' = <[zi := z']> (s_zone_table h) /\ z_elem_size z' = z_elem_size z /\
    s_zone_initialized h' = s_zone_initialized h /\ (ok = true -> z_free_list z' ≠ 0).
Proof.
  intros HI Hz. unfold zalloc_refill. rewrite pa_page_law.
  destruct (pa_alloc_pages 1 (pm h)) as [p phys] eqn:Ha.
  destruct (pa_alloc_law 1 (pm h) p phys (zi_pm _ _ _ HI) eq_refl Ha) as (Hp & Hr & Hb).
  assert (HI1 : ZInv (h <| pm := p |>) C fl).
  { apply pm_frame; [done|done|]. intros x Hx. by rewrite Hr. }
  destruct (Z.eqb_spec phys 0); simpl.
  { exists C, fl, z. rewrite list_insert_id by done. split_and!; try done. split; auto. }
  destruct (Z.eqb_spec phys Pmm.PADDR_NONE); simpl.
  { exists C, fl, z. rewrite list_insert_id by done. split_and!; try done. split; auto. }
  destruct Hb as (b & -> & Hb0 & Hb1 & _ & Hfresh); [done|done|].
  destruct (zi_zone _ _ _ HI zi z Hz) as [Hs Hal _ _]. destruct hhdm_ok as (Hh0 & Hh1 & Hh2).
  rewrite u64_id by lia. set (pv := b * 4096 + g_hhdm_base).
  set (count := 4096 / z_elem_size z).
  assert (Hcnt : 1 <= count /\ count * z_elem_size z <= 4096).
  { unfold count. pose proof (Z.mul_div_le 4096 (z_elem_size z)).
    split; [apply Z.div_le_lower_bound; lia|lia]. }
  assert (Hpage : forall x, pv <= x < pv + 4096 -> (x - g_hhdm_base) / 4096 = b).
  { intros x Hx. symmetry. apply (Z.div_unique _ _ _ (x - pv)); unfold pv in *; lia. }
  destruct (carve_inv (Z.to_nat count) (h <| pm := p |>) C fl zi z pv HI1 Hz)
    as (C' & fl' & z' & HI' & Hext & _ & Ht' & Hz' & Hini & Hnz & _).
  { rewrite Z2Nat.id by lia. constructor; try (unfold pv; lia).
    - apply Z.divide_add_r; [by apply Z.divide_mul_r; exists 64|].
      etrans; [|exact Hh1]. by exists 64.
    - intros x Hx. cbn. rewrite Hpage by lia. destruct (Hfresh b) as [_ ->]; lia.
    - intros x c Hx. cbn. pose proof (chunk_len _ _ _ _ _ HI Hx) as Hl.
      pose proof (co_held _ _ _ (zi_chunk _ _ _ HI x c Hx)) as Hheld.
      destruct (decide (x + clen (s_zone_table h) c <= pv)) as [|Hn1]; [auto|].
      destruct (decide (pv + 4096 <= x)) as [|Hn2]; [right; lia|].
      exfalso. set (y := Z.max x pv). assert (Hy : 0 < pa_refs (pm h) ((y - g_hhdm_base) / 4096)).
      { apply Hheld. unfold y. lia. }
      rewrite Hpage in Hy by (unfold y; lia). destruct (Hfresh b) as [E _]; lia. }
  rewrite Z2Nat.id in * by lia. set (h1 := foldl _ _ _) in *. clearbody h1. cbn in Ht', Hini.
  set (z2 := z' <| z_cur_size ::= fun n => u64 (n + 4096) |>).
  assert (Hz'' : s_zone_table h1 !! zi = Some z').
  { rewrite Ht'. apply list_lookup_insert_eq. by eapply lookup_lt_Some. }
  exists C', fl', z2. rewrite (alter_zone h1 zi z' _ Hz'').
  split_and!; [|done| |done|done|].
  - by apply (zone_stat_inv _ _ _ _ z').
  - rewrite (alter_as_insert _ _ _ _ Hz''), Ht'. apply list_insert_insert_eq.
  - intros _. apply Hnz. lia.
Qed.

(** Element sizes and the flag survive every operation. *)
Definition same_zones (h h' : heap S) : Prop :=
  length (s_zone_table h') = length (s_zone_table h) /\
  (forall zi, esize (s_zone_table h') zi = esize (s_zone_table h) zi) /\
  s_zone_initialized h' = s_zone_initialized h.

Lemma same_zones_insert h h' zi z z' :
  s_zone_table h !! zi = Some z -> s_zone_table h' = <[zi := z']> (s_zone_table h) ->
  z_elem_size z' = z_elem_size z -> s_zone_initialized h' = s_zone_initialized h ->
  same_zones h h'.
Proof.
  intros Hz Ht He Hi. split; [by rewrite Ht, length_insert|]. split; [|done].
  intros zi'. rewrite Ht. by apply (esize_insert _ _ z).
Qed.

Lemma zalloc_spec h C fl zi :
  ZInv h C fl -> (zi < length (s_zone_table h))%nat ->
  let '(h', a) := zalloc (Some zi) h in
  same_zones h h' /\ exists C' fl', extends C C' /\
    ((a = 0 /\ ZInv h' C' fl') \/
     (a ≠ 0 /\ C' !! a = Some (CFree zi) /\ ZInv h' (<[a := CRaw zi]> C') fl' /\
      forall i, 0 <= i -> 8 * i + 8 <= esize (s_zone_table h) zi -> load (mem h') (a + 8 * i) = 0)).
Proof.
  intros HI [z Hz]%lookup_lt_is_Some. unfold zalloc. rewrite Hz.
  assert (Hes : esize (s_zone_table h) zi = z_elem_size z) by (unfold esize; by rewrite Hz).
  destruct (Z.eqb_spec (z_free_list z) 0) as [Hnil|Hnn].
  - pose proof (refill_inv h C fl zi z HI Hz) as HR.
    destruct (zalloc_refill zi z h) as [h1 ok].
    destruct HR as (C1 & fl1 & z1 & HI1 & Hext & Ht & He & Hin & Hnz).
    pose proof (same_zones_insert _ _ _ _ _ Hz Ht He Hin) as Hsz.
    assert (Hz1 : s_zone_table h1 !! zi = Some z1).
    { rewrite Ht. apply list_lookup_insert_eq. by eapply lookup_lt_Some. }
    destruct ok; [|split; [done|]; exists C1, fl1; auto].
    pose proof (zpop_inv _ _ _ _ _ HI1 Hz1 (Hnz eq_refl)) as HP.
    destruct (zpop zi h1) as [h2 a].
    destruct HP as (Ha & Hc & Hzero & (z2 & Ht2 & He2) & _ & Hin2 & fl2 & HI2).
    split.
    + apply (same_zones_insert _ _ zi z z2); [done| |congruence|congruence].
      rewrite Ht2, Ht. apply list_insert_insert_eq.
    + exists C1, fl2. split; [done|]. right. split; [rewrite Ha; auto|].
      split_and!; try done. intros i Hi Hl. apply Hzero; [done|]. rewrite Hes in Hl. lia.
  - pose proof (zpop_inv _ _ _ _ _ HI Hz Hnn) as HP. destruct (zpop zi h) as [h2 a].
    destruct HP as (Ha & Hc & Hzero & (z2 & Ht2 & He2) & _ & Hin2 & fl2 & HI2).
    split; [by apply (same_zones_insert _ _ zi z z2)|].
    exists C, fl2. split; [split; auto|]. right. split; [congruence|].
    split_and!; try done. intros i Hi Hl. apply Hzero; [done|]. by rewrite <- Hes.
Qed.

Lemma chunk_vacant h C fl a c :
  ZInv h C fl -> C !! a = Some c -> vacant h (delete a C) a (clen (s_zone_table h) c).
Proof.
  intros HI Ha. destruct (zi_chunk _ _ _ HI a c Ha). constructor; try done.
  intros x c' [Hne Hx]%lookup_delete_Some.
  destruct (zi_disj _ _ _ HI a x c c' Ha Hx Hne); auto.
Qed.

Lemma zfree_spec h C fl a c zi :
  ZInv h C fl -> C !! a = Some c -> zone_of c = Some zi -> (forall zi', c ≠ CFree zi') ->
  same_zones h (zfree (Some zi) a h) /\ load (mem (zfree (Some zi) a h)) a ≠ ZONE_MAGIC /\
  load (mem (zfree (Some zi) a h)) a ≠ LARGE_MAGIC /\
  exists fl', ZInv (zfree (Some zi) a h) (<[a := CFree zi]> (delete a C)) fl'.
Proof.
  intros HI Ha Hzi Hnf. pose proof (zi_chunk _ _ _ HI a c Ha) as Hck.
  pose proof (co_zone _ _ _ Hck zi Hzi) as [z Hz]%lookup_lt_is_Some.
  assert (Hcl : clen (s_zone_table h) c = z_elem_size z).
  { destruct c; simplify_eq/=; unfold esize; by rewrite Hz. }
  pose proof (chunk_vacant _ _ _ _ _ HI Ha) as Hv. rewrite Hcl in Hv.
  destruct (zpush_inv _ _ _ _ _ _ (drop_chunk _ _ _ _ _ HI Ha Hnf) Hz Hv) as (HI' & z' & Ht & He & _).
  unfold zfree. destruct (Z.eqb_spec a 0) as [->|]; [destruct Hck, hhdm_ok; lia|].
  assert (Hz' : s_zone_table (zpush zi a h) !! zi = Some z').
  { rewrite Ht. apply list_lookup_insert_eq. by eapply lookup_lt_Some. }
  rewrite (alter_zone _ _ _ _ Hz'). set (z2 := if 0 <? z_count z' then _ else z').
  assert (He2 : z_elem_size z2 = z_elem_size z' /\ z_free_list z2 = z_free_list z' /\
                z_free_count z2 = z_free_count z') by (unfold z2; by destruct (0 <? z_count z')).
  destruct He2 as (He2 & Hf2 & Hc2).
  split.
  { apply (same_zones_insert _ _ zi z z2); [done| |congruence|].
    - cbn. rewrite Ht. apply list_insert_insert_eq.
    - unfold zpush. by rewrite Hz. }
  assert (Hld : load (mem (zpush zi a h)) a = z_free_list z).
  { unfold zpush. rewrite Hz. cbn. by rewrite load_store, decide_True. }
  assert (Hmod : (64 | z_free_list z)).
  { destruct (zi_zone _ _ _ HI zi z Hz) as [_ _ Hch _]. unfold ptr in Hch.
    destruct (Z.eqb_spec (z_free_list z) 0) as [->|]; [by exists 0|].
    destruct (fl zi) as [|x l] eqn:El; [done|]. destruct Hch as [[= E] _].
    assert (Hx : C !! x = Some (CFree zi)) by (apply (zi_free _ _ _ HI); rewrite El; set_solver).
    rewrite E. apply (zi_chunk _ _ _ HI _ _ Hx). }
  cbn. rewrite Hld. split; [intros E; rewrite E in Hmod; by apply Z.mod_divide in Hmod|].
  split; [intros E; rewrite E in Hmod; by apply Z.mod_divide in Hmod|].
  eexists. by apply (zone_stat_inv _ _ _ _ z').
Qed.

(** ** [kalloc] and [kfree] *)

Lemma tag_chunk h C fl a zi size :
  ZInv h C fl -> C !! a = Some (CRaw zi) -> (zi < KALLOC_ZONE_COUNT)%nat ->
  0 <= size -> 64 + size <= esize (s_zone_table h) zi ->
  exists fl', ZInv (h <| mem ::= fun mm =>
      store (a + 8) (Z.of_nat zi + 2 ^ 32 * u32 size) (store a ZONE_MAGIC mm) |>)
    (<[a := CZone zi size]> C) fl'.
Proof.
  intros HI Ha Hzi Hs Hfit. pose proof (zi_chunk _ _ _ HI _ _ Ha) as Hck.
  pose proof (co_zone _ _ _ Hck zi eq_refl) as [z Hz]%lookup_lt_is_Some.
  assert (Hes : esize (s_zone_table h) zi = z_elem_size z) by (unfold esize; by rewrite Hz).
  assert (Hd : forall x c', C !! x = Some c' -> x ≠ a ->
     x + clen (s_zone_table h) c' <= a \/ a + z_elem_size z <= x).
  { intros x c' Hx Hne. destruct (zi_disj _ _ _ HI x a c' _ Hx Ha Hne) as [?|E]; [auto|].
    simpl in E. rewrite Hes in E. auto. }
  eexists. eapply (update_chunk h C fl _ zi z z a (CZone zi size) (fl zi)); try done.
  - cbn. by rewrite list_insert_id.
  - intros x Hx. cbn. rewrite !load_store, !decide_False by lia. done.
  - eapply free_list_frame; [done..| |by apply (zi_zone _ _ _ HI)].
    intros x Hx%(zi_free _ _ _ HI). assert (x ≠ a) by congruence.
    pose proof (chunk_len _ _ _ _ _ HI Hx). specialize (Hd x _ Hx).
    cbn. rewrite !load_store, !decide_False by lia. done.
  - destruct Hck as [? ? ? Hzn ? _]. constructor; try done. cbn.
    rewrite !load_store, (decide_True (P := a + 8 = a + 8)), (decide_False (P := a = a + 8)),
      (decide_True (P := a = a)) by (done || lia).
    split_and!; try done. unfold u32, KALLOC_ZONE_COUNT in *.
    rewrite (Z.mul_comm (2 ^ 32)), Z.mod_add by lia. apply Z.mod_small. lia.
  - intros x. split; [|naive_solver]. intros Hx. right. split; [|done].
    intros ->. apply (zi_free _ _ _ HI) in Hx. congruence.
  - intros zi' _. rewrite Ha. done.
Qed.

(** Changing memory and page references where no chunk of [C] lives. *)
Lemma mem_frame h C fl m p :
  ZInv h C fl -> pa_ok p ->
  (forall a c x, C !! a = Some c -> a <= x < a + clen (s_zone_table h) c ->
     load m x = load (mem h) x /\
     (0 < pa_refs (pm h) ((x - g_hhdm_base) / 4096) -> 0 < pa_refs p ((x - g_hhdm_base) / 4096))) ->
  ZInv (h <| mem := m |> <| pm := p |>) C fl.
Proof.
  intros HI Hp Hm. constructor; try apply HI; [done| |].
  - intros zi z Hz. eapply free_list_frame; [done..| |by apply (zi_zone _ _ _ HI)].
    intros x Hx%(zi_free _ _ _ HI). pose proof (chunk_len _ _ _ _ _ HI Hx). apply (Hm x _ x Hx). lia.
  - intros a c Ha. pose proof (chunk_len _ _ _ _ _ HI Ha).
    apply (chunk_frame h); auto.
    + intros x Hx. by apply (Hm a c x Ha).
    + intros x Hx. by apply (Hm a c x Ha).
    + by apply (zi_chunk _ _ _ HI).
Qed.

Lemma add_large h C fl a pages size :
  ZInv h C fl -> vacant h C a (4096 * pages) -> (4096 | a) -> 0 < pages <= 2 ^ 20 ->
  chunk_ok h a (CLarge pages size) -> ZInv h (<[a := CLarge pages size]> C) fl.
Proof.
  intros HI Hv Hal Hp Hck.
  assert (Hna : C !! a = None) by (by eapply vacant_none; [|  |exact Hv]; [done|lia]).
  constructor; try apply HI.
  - intros zi x. rewrite (zi_free _ _ _ HI). destruct (decide (x = a)) as [->|].
    + by rewrite lookup_insert_eq, Hna.
    + by rewrite lookup_insert_ne.
  - intros x c [[<- <-]|[_ Hx]]%lookup_insert_Some; [done|]. by apply (zi_chunk _ _ _ HI).
  - intros x y c1 c2 Hx Hy Hne.
    apply lookup_insert_Some in Hx as [[<- <-]|[? Hx]], Hy as [[<- <-]|[? Hy]]; [done|..].
    + destruct (va_disj _ _ _ _ Hv y c2 Hy); [right|left]; done.
    + destruct (va_disj _ _ _ _ Hv x c1 Hx); [left|right]; done.
    + by apply (zi_disj _ _ _ HI).
Qed.

Lemma kalloc_large_spec h C fl size :
  ZInv h C fl -> 0 < size < 2 ^ 64 - 4159 ->
  let '(h', p) := kalloc_large size h in
  same_zones h h' /\
  ((p = 0 /\ ZInv h' C fl) \/
   exists pages, p - 64 ≠ 0 /\ C !! (p - 64) = None /\ ZInv h' (<[p - 64 := CLarge pages size]> C) fl /\
     forall i, 0 <= i -> 8 * i + 8 <= size -> load (mem h') (p + 8 * i) = 0).
Proof.
  intros HI Hs. unfold kalloc_large. rewrite (u64_id (size + 64)), u64_id by lia.
  set (pages := (size + 64 + 4095) / 4096).
  assert (Hpg : 0 < pages /\ size + 64 <= 4096 * pages).
  { pose proof (Z.div_mod (size + 64 + 4095) 4096). pose proof (Z.mod_pos_bound (size + 64 + 4095) 4096).
    unfold pages. lia. }
  destruct (pa_alloc_pages pages (pm h)) as [p phys] eqn:Ha.
  destruct (pa_alloc_law pages (pm h) p phys (zi_pm _ _ _ HI)) as (Hp & Hr & Hb); [lia|done|].
  assert (HI1 : ZInv (h <| pm := p |>) C fl).
  { apply pm_frame; [done|done|]. intros x Hx. by rewrite Hr. }
  destruct (Z.eqb_spec phys Pmm.PADDR_NONE); [by split; [|left]|].
  destruct (Z.eqb_spec phys 0); [by split; [|left]|]. simpl.
  destruct Hb as (b & -> & Hb0 & Hb1 & Hb20 & Hfresh); [done|done|]. destruct hhdm_ok as (Hh0 & Hh1 & Hh2).
  rewrite u64_id by lia. set (a := b * 4096 + g_hhdm_base). split; [done|]. right. exists pages.
  replace (a + 64 - 64) with a by lia.
  assert (Hpage : forall x, a <= x < a + 4096 * pages -> b <= (x - g_hhdm_base) / 4096 < b + pages).
  { intros x Hx. unfold a in Hx. split; [apply Z.div_le_lower_bound; lia|apply Z.div_lt_upper_bound; lia]. }
  assert (Hal : (4096 | a)) by (apply Z.divide_add_r; [by exists b|done]).
  assert (Hv : forall x c, C !! x = Some c -> x + clen (s_zone_table h) c <= a \/ a + 4096 * pages <= x).
  { intros x c Hx. pose proof (chunk_len _ _ _ _ _ HI Hx) as Hl.
    pose proof (co_held _ _ _ (zi_chunk _ _ _ HI x c Hx)) as Hheld.
    destruct (decide (x + clen (s_zone_table h) c <= a)) as [|Hn1]; [auto|].
    destruct (decide (a + 4096 * pages <= x)) as [|Hn2]; [auto|].
    exfalso. assert (Hy := Hheld (Z.max x a)).
    destruct (Hfresh ((Z.max x a - g_hhdm_base) / 4096)) as [E _]; [apply Hpage; lia|].
    rewrite E in Hy. lia. }
  set (m' := memset0 (a + 64) size
    (store (a + 16) (b * 4096) (store (a + 8) pages (store a LARGE_MAGIC (mem h))))).
  change (fupd (memset0 (a + 64) size) _) with (h <| mem := m' |> <| pm := p |>).
  assert (Hout : forall x, x < a \/ a + 4096 * pages <= x -> load m' x = load (mem h) x).
  { intros x Hx. unfold m'. rewrite memset0_out by lia. cbn. rewrite !load_store, !decide_False by lia. done. }
  assert (HI2 : ZInv (h <| mem := m' |> <| pm := p |>) C fl).
  { apply mem_frame; [done|done|]. intros x c y Hx Hy. destruct (Hv x c Hx);
      (split; [apply Hout; lia|intros Hy0; by rewrite Hr]). }
  assert (Hvac : vacant (h <| mem := m' |> <| pm := p |>) C a (4096 * pages)).
  { constructor; try (unfold a; lia).
    - etrans; [|exact Hal]. by exists 64.
    - intros x Hx. cbn. destruct (Hfresh _ (Hpage x Hx)) as [_ ->]. lia.
    - done. }
  split; [unfold a; lia|]. split; [eapply vacant_none; [exact HI2| |exact Hvac]; lia|]. split.
  - apply (add_large (h <| mem := m' |> <| pm := p |>)); [done|done|done|lia|].
    destruct Hvac. constructor; try done. cbn.
    assert (Hlo : forall x, a <= x < a + 64 -> load m' x =
      load (store (a + 16) (b * 4096) (store (a + 8) pages (store a LARGE_MAGIC (mem h)))) x).
    { intros x Hx. unfold m'. rewrite memset0_out by lia. done. }
    rewrite !Hlo, !load_store by lia. repeat (case_decide; try lia). unfold a. split_and!; try done; lia.
  - intros i Hi Hl. by apply memset0_in.
Qed.

(** ** The abstract heap: live pointers and their sizes *)

Definition csize (c : chunk) : option Z :=
  match c with CZone _ n | CLarge _ n => Some n | _ => None end.

Definition live_map (C : gmap Z chunk) (live : gmap Z Z) : Prop :=
  forall p n, live !! p = Some n <-> exists c, C !! (p - 64) = Some c /\ csize c = Some n.

Definition HeapOk (h : heap S) (live : gmap Z Z) : Prop :=
  s_zone_initialized h = true /\ exists C fl, ZInv h C fl /\ live_map C live.

Lemma live_map_extends C C' live : extends C C' -> live_map C live -> live_map C' live.
Proof.
  intros [H1 H2] HL p n. rewrite (HL p n). split; intros (c & Hc & Hn).
  - exists c. auto.
  - exists c. split; [|done]. destruct (H2 _ _ Hc) as [?|[zi ->]]; done.
Qed.

Lemma live_map_insert C live a c n :
  live_map C live -> csize c = Some n -> live_map (<[a := c]> C) (<[a + 64 := n]> live).
Proof.
  intros HL Hc p k. destruct (decide (p = a + 64)) as [->|Hne].
  - rewrite lookup_insert_eq. replace (a + 64 - 64) with a by lia. rewrite lookup_insert_eq. naive_solver.
  - rewrite !lookup_insert_ne by lia. apply HL.
Qed.

Lemma live_map_delete C live p c :
  live_map C live -> csize c = None -> live_map (<[p - 64 := c]> C) (delete p live).
Proof.
  intros HL Hc q k. destruct (decide (q = p)) as [->|Hne].
  - rewrite lookup_delete_eq, lookup_insert_eq. naive_solver.
  - rewrite lookup_delete_ne, lookup_insert_ne by lia. apply HL.
Qed.

Lemma live_map_remove C live p :
  live_map C live -> live_map (delete (p - 64) C) (delete p live).
Proof.
  intros HL q k. destruct (decide (q = p)) as [->|Hne].
  - rewrite !lookup_delete_eq. naive_solver.
  - rewrite !lookup_delete_ne by lia. apply HL.
Qed.

Lemma live_map_none C live a c :
  live_map C live -> C !! a = Some c -> csize c = None -> live !! (a + 64) = None.
Proof.
  intros HL Ha Hc. destruct (live !! (a + 64)) as [n|] eqn:E; [|done].
  apply HL in E as (c' & Hc' & Hn). replace (a + 64 - 64) with a in Hc' by lia. congruence.
Qed.

(** A live pointer owns its bytes. *)
Lemma chunk_user h C fl a c n :
  ZInv h C fl -> C !! a = Some c -> csize c = Some n -> 0 <= n /\ 64 + n <= clen (s_zone_table h) c.
Proof.
  intros HI Ha Hn. pose proof (co_header _ _ _ (zi_chunk _ _ _ HI a c Ha)) as Hh.
  destruct c; simplify_eq/=; lia.
Qed.

Definition no_overlap (live : gmap Z Z) (p n : Z) : Prop :=
  forall q k, live !! q = Some k -> q ≠ p -> p + n <= q \/ q + k <= p.

Lemma live_disjoint h C fl live p n :
  ZInv h C fl -> live_map C live -> live !! p = Some n -> no_overlap live p n.
Proof.
  intros HI HL Hp q k Hq Hne. apply HL in Hp as (c & Hc & Hn), Hq as (c' & Hc' & Hk).
  pose proof (chunk_user _ _ _ _ _ _ HI Hc Hn). pose proof (chunk_user _ _ _ _ _ _ HI Hc' Hk).
  destruct (zi_disj _ _ _ HI _ _ _ _ Hc Hc'); [lia|left; lia|right; lia].
Qed.

Lemma pick_zone_spec needed t zi :
  pick_zone needed t = Some zi -> (zi < KALLOC_ZONE_COUNT)%nat /\ (zi < length t)%nat /\ needed <= esize t zi.
Proof.
  unfold pick_zone. intros [[i z] [Hf ->]]%fmap_Some. apply list_find_Some in Hf as (Hz & Hn & _).
  apply lookup_take_Some in Hz as [Hz Hi]. split; [done|]. split; [by eapply lookup_lt_Some|].
  unfold esize. simpl. by rewrite Hz.
Qed.

Lemma kalloc_inv h live size :
  HeapOk h live -> 0 < size < 2 ^ 64 - 4159 ->
  let '(h', p) := kalloc size h in
  (p = 0 /\ HeapOk h' live) \/
  (p ≠ 0 /\ (64 | p) /\ live !! p = None /\ HeapOk h' (<[p := size]> live) /\
   forall i, 0 <= i -> 8 * i + 8 <= size -> load (mem h') (p + 8 * i) = 0).
Proof.
  intros (Hin & C & fl & HI & HL) Hs. unfold kalloc, zone_init. rewrite Hin, u64_id by lia.
  destruct (Z.eqb_spec size 0); [lia|].
  destruct (if size + 64 <=? 4096 then _ else None) as [zi|] eqn:Hpick.
  - destruct (Z.leb_spec (size + 64) 4096); [|done].
    apply pick_zone_spec in Hpick as (Hz9 & Hzl & Hfit).
    pose proof (zalloc_spec h C fl zi HI Hzl) as HZ. destruct (zalloc (Some zi) h) as [h1 a].
    destruct HZ as ((Hlen & Hes & Hin1) & C1 & fl1 & Hext & HZ).
    pose proof (live_map_extends _ _ _ Hext HL) as HL1.
    destruct (Z.eqb_spec a 0) as [->|Ha].
    { destruct HZ as [[_ HI1]|[? _]]; [|done]. left. split; [done|]. split; [congruence|eauto]. }
    destruct HZ as [[? _]|(_ & Hc & HI1 & Hzero)]; [done|].
    destruct (tag_chunk h1 (<[a := CRaw zi]> C1) fl1 a zi size HI1) as (fl2 & HI2).
    { by rewrite lookup_insert_eq. } { done. } { lia. } { rewrite Hes. lia. }
    rewrite insert_insert_eq in HI2. right.
    pose proof (zi_chunk _ _ _ HI1 a _ (lookup_insert_eq _ _ _)) as Hck.
    destruct hhdm_ok as (Hh0 & _). pose proof (co_low _ _ _ Hck).
    split; [lia|]. split; [apply Z.divide_add_r; [apply Hck|by exists 1]|].
    split; [by eapply live_map_none|]. split.
    + split; [cbn; congruence|]. eexists _, _. split; [exact HI2|]. by apply live_map_insert.
    + intros i Hi Hl. cbn. rewrite !load_store, !decide_False by lia.
      replace (a + 64 + 8 * i) with (a + 8 * (8 + i)) by lia. apply Hzero; lia.
  - pose proof (kalloc_large_spec h C fl size HI Hs) as HZ. destruct (kalloc_large size h) as [h1 p].
    destruct HZ as ((_ & _ & Hin1) & [[-> HI1]|(pages & Hp & Hn & HI1 & Hzero)]).
    { left. split; [done|]. split; [congruence|eauto]. }
    right. pose proof (zi_chunk _ _ _ HI1 (p - 64) _ (lookup_insert_eq _ _ _)) as Hck.
    destruct hhdm_ok as (Hh0 & _). pose proof (co_low _ _ _ Hck).
    split; [lia|]. split.
    { replace p with (p - 64 + 64) by lia. apply Z.divide_add_r; [apply Hck|by exists 1]. }
    split.
    { destruct (live !! p) eqn:E; [|done]. apply HL in E as (c & Hc & _). congruence. }
    split; [|done]. split; [congruence|]. eexists _, _. split; [exact HI1|].
    replace (<[p := size]> live) with (<[p - 64 + 64 := size]> live) by (f_equal; lia).
    by apply live_map_insert.
Qed.

Lemma untag_chunk h C fl a zi size :
  ZInv h C fl -> C !! a = Some (CZone zi size) ->
  exists fl', ZInv (h <| mem ::= store a 0 |>) (<[a := CRaw zi]> C) fl'.
Proof.
  intros HI Ha. pose proof (zi_chunk _ _ _ HI _ _ Ha) as Hck.
  pose proof (chunk_len _ _ _ _ _ HI Ha) as Hcl. simpl in Hcl.
  pose proof (co_zone _ _ _ Hck zi eq_refl) as [z Hz]%lookup_lt_is_Some.
  assert (Hes : esize (s_zone_table h) zi = z_elem_size z) by (unfold esize; by rewrite Hz).
  assert (Hd : forall x c', C !! x = Some c' -> x ≠ a ->
     x + clen (s_zone_table h) c' <= a \/ a + z_elem_size z <= x).
  { intros x c' Hx Hne. destruct (zi_disj _ _ _ HI x a c' _ Hx Ha Hne) as [?|E]; [auto|].
    simpl in E. rewrite Hes in E. auto. }
  eexists. eapply (update_chunk h C fl _ zi z z a (CRaw zi) (fl zi)); try done.
  - cbn. by rewrite list_insert_id.
  - intros x Hx. cbn. rewrite !load_store, !decide_False by lia. done.
  - eapply free_list_frame; [done..| |by apply (zi_zone _ _ _ HI)].
    intros x Hx%(zi_free _ _ _ HI). assert (x ≠ a) by congruence.
    cbn. rewrite !load_store, !decide_False by lia. done.
  - destruct Hck as [? ? ? Hzn ? _]. by constructor.
  - intros x. split; [|naive_solver]. intros Hx. right. split; [|done].
    intros ->. apply (zi_free _ _ _ HI) in Hx. congruence.
  - intros zi' _. rewrite Ha. done.
Qed.

Lemma kfree_foreign p h :
  load (mem h) (p - 64) ≠ ZONE_MAGIC -> load (mem h) (p - 64) ≠ LARGE_MAGIC -> kfree p h = h.
Proof.
  intros H1 H2. unfold kfree. destruct (Z.eqb_spec p 0); [done|].
  destruct (Z.eqb_spec (load (mem h) (p - 64)) ZONE_MAGIC); [done|].
  by destruct (Z.eqb_spec (load (mem h) (p - 64)) LARGE_MAGIC).
Qed.

Lemma free_large h C fl a pages size :
  ZInv h C fl -> C !! a = Some (CLarge pages size) ->
  ZInv (h <| mem ::= store a 0 |> <| pm ::= pa_free_contiguous (a - g_hhdm_base) pages |>) (delete a C) fl.
Proof.
  intros HI Ha. pose proof (zi_chunk _ _ _ HI _ _ Ha) as Hck. destruct hhdm_ok as (Hh0 & Hh1 & Hh2).
  destruct (co_header _ _ _ Hck) as (_ & _ & _ & Hal & Hpg & _). pose proof (co_low _ _ _ Hck).
  pose proof (co_high _ _ _ Hck) as Hhi. simpl in Hhi.
  assert (Hb : exists b, a - g_hhdm_base = b * 4096) by (by apply Z.divide_sub_r). destruct Hb as [b Hb].
  rewrite Hb. destruct (pa_free_law b pages (pm h) (zi_pm _ _ _ HI)) as [Hp Hr]; [lia..|].
  apply (mem_frame h (delete a C) fl (store a 0 (mem h)) (pa_free_contiguous (b * 4096) pages (pm h)));
    [eapply drop_chunk; done|done|].
  intros x c y [Hne Hx]%lookup_delete_Some Hy.
  assert (Hd : y < a \/ a + 4096 * pages <= y).
  { destruct (zi_disj _ _ _ HI x a c _ Hx Ha) as [?|E]; [done|lia|simpl in E; lia]. }
  split; [rewrite load_store, decide_False by lia; done|].
  intros Hy0. rewrite Hr; [done|]. intros Hin.
  pose proof (Z.div_mod (y - g_hhdm_base) 4096). pose proof (Z.mod_pos_bound (y - g_hhdm_base) 4096). lia.
Qed.

Lemma kfree_inv h live p n :
  HeapOk h live -> live !! p = Some n ->
  HeapOk (kfree p h) (delete p live) /\ kfree p (kfree p h) = kfree p h.
Proof.
  intros (Hin & C & fl & HI & HL) Hp. pose proof Hp as (c & Hc & Hn)%HL.
  pose proof (zi_chunk _ _ _ HI _ _ Hc) as Hck. pose proof (co_header _ _ _ Hck) as Hh.
  pose proof (co_low _ _ _ Hck). destruct hhdm_ok as (Hh0 & Hh1 & _).
  assert (Hp0 : (p =? 0) = false) by lia.
  destruct c as [|zi|zi size|pages size]; try done; simpl in Hh.
  - destruct Hh as (Hm & Hz & Hz9 & Hfit). destruct (untag_chunk _ _ _ _ _ _ HI Hc) as (fl1 & HI1).
    assert (Ek : kfree p h = zfree (Some zi) (p - 64) (h <| mem ::= store (p - 64) 0 |>)).
    { assert (Hlt : (Z.of_nat zi <? Z.of_nat KALLOC_ZONE_COUNT) = true) by (apply Z.ltb_lt; lia).
      unfold kfree. by rewrite Hp0, Hm, Hz, Z.eqb_refl, Hlt, Nat2Z.id. }
    destruct (zfree_spec _ _ _ (p - 64) (CRaw zi) zi HI1) as ((_ & _ & Hin2) & Hnm1 & Hnm2 & fl2 & HI2);
      [by rewrite lookup_insert_eq|done|done|].
    rewrite <- Ek in *. rewrite delete_insert_eq, insert_delete_eq in HI2. split.
    + split; [by rewrite Hin2|]. eexists _, _. split; [exact HI2|]. by apply live_map_delete.
    + by apply kfree_foreign.
  - destruct Hh as (Hm & Hpg & Hph & Hal & Hpages & _).
    assert (Hland : Z.land (p - 64 - g_hhdm_base) 4095 = 0).
    { change 4095 with (Z.ones 12). rewrite Z.land_ones by lia. apply Z.mod_divide; [done|].
      by apply Z.divide_sub_r. }
    assert (Ek : kfree p h = h <| mem ::= store (p - 64) 0 |>
                   <| pm ::= pa_free_contiguous (p - 64 - g_hhdm_base) pages |>).
    { unfold kfree. rewrite Hp0, Hm, Hpg, Hph, Hland. simpl.
      destruct (Z.eqb_spec pages 0); [lia|]. by destruct (Z.ltb_spec (2 ^ 20) pages); [lia|]. }
    split.
    + split; [by rewrite Ek|]. rewrite Ek. eexists _, _. split; [by eapply free_large|].
      by apply live_map_remove.
    + apply kfree_foreign; rewrite Ek; cbn; rewrite load_store, decide_True by done; done.
Qed.

(** ** Histories of the heap *)

(** One use of the heap: an allocation, the free of a live pointer, or a client's
    store into memory it owns.  The second component is the map of live pointers. *)
Inductive heap_step : heap S * gmap Z Z -> heap S * gmap Z Z -> Prop :=
| hs_alloc h live size h' p :
    0 < size < 2 ^ 64 - 4159 -> kalloc size h = (h', p) ->
    heap_step (h, live) (h', if p =? 0 then live else <[p := size]> live)
| hs_free h live p n :
    live !! p = Some n -> heap_step (h, live) (kfree p h, delete p live)
| hs_write h live p n i w :
    live !! p = Some n -> 0 <= i -> 8 * i + 8 <= n ->
    heap_step (h, live) (h <| mem ::= store (p + 8 * i) w |>, live).

Lemma client_write_inv h live p n i w :
  HeapOk h live -> live !! p = Some n -> 0 <= i -> 8 * i + 8 <= n ->
  HeapOk (h <| mem ::= store (p + 8 * i) w |>) live.
Proof.
  intros (Hin & C & fl & HI & HL) Hp Hi Hn. split; [done|]. exists C, fl. split; [|done].
  apply HL in Hp as (c & Hc & Hcn). pose proof (chunk_user _ _ _ _ _ _ HI Hc Hcn) as [_ Hfit].
  assert (Hoth : forall a c', C !! a = Some c' -> a ≠ p - 64 ->
    forall x, a <= x < a + clen (s_zone_table h) c' -> load (store (p + 8 * i) w (mem h)) x = load (mem h) x).
  { intros a c' Ha Hne x Hx. rewrite load_store, decide_False; [done|]. intros ->.
    destruct (zi_disj _ _ _ HI a _ c' c Ha Hc Hne); lia. }
  constructor; try apply HI.
  - intros zi z Hz. eapply free_list_frame; [done..| |by apply (zi_zone _ _ _ HI)].
    intros x Hx%(zi_free _ _ _ HI). pose proof (chunk_len _ _ _ _ _ HI Hx).
    apply (Hoth x _ Hx); [|lia]. intros ->. rewrite Hc in Hx. by injection Hx as ->.
  - intros a c' Ha. pose proof (chunk_len _ _ _ _ _ HI Ha) as Hcl.
    pose proof (zi_chunk _ _ _ HI a c' Ha) as Hck. destruct (decide (a = p - 64)) as [->|Hne].
    + rewrite Hc in Ha. injection Ha as <-. destruct Hck as [? ? ? ? ? Hh]. constructor; try done.
      destruct c; try done; simpl in Hh |- *; rewrite !load_store, !decide_False by lia; done.
    + apply (chunk_frame h); auto. apply (Hoth a c' Ha Hne).
Qed.

Lemma heap_step_inv hl hl' : heap_step hl hl' -> HeapOk (fst hl) (snd hl) -> HeapOk (fst hl') (snd hl').
Proof.
  intros Hs Hok. destruct Hs as [h live size h' p Hsz Hk|h live p n Hp|h live p n i w Hp Hi Hn]; simpl in *.
  - pose proof (kalloc_inv h live size Hok Hsz) as HK. rewrite Hk in HK.
    destruct HK as [[-> HK]|(Hp & _ & _ & HK & _)]; [done|]. by destruct (Z.eqb_spec p 0).
  - by eapply kfree_inv.
  - by eapply client_write_inv.
Qed.

Lemma zone_init_inv h :
  pa_ok (pm h) -> s_zone_initialized h = false -> HeapOk (zone_init h) ∅.
Proof.
  intros Hp Hi. unfold zone_init. rewrite Hi. split; [done|]. exists ∅, (fun _ => []).
  split; [|intros p n; rewrite !lookup_empty; naive_solver].
  constructor.
  - exact Hp.
  - intros zi z Hz. cbn in Hz.
    do 9 (destruct zi as [|zi]; [cbn in Hz; injection Hz as <-; constructor; cbn; try done;
      by apply Z.mod_divide|]).
    by cbn in Hz.
  - intros zi a. rewrite lookup_empty. set_solver.
  - done.
  - done.
Qed.
End Heap.

(** ** The buddy allocator is a page allocator *)

Definition page_refs (s : Pmm.pmm) (x : Z) : Z :=
  if decide (0 <= x < Pmm.s_max_phys_page s) then Pmm.ref_count (Pmm.pg s x) else 0.

#[global] Program Instance pmm_page_allocator : PageAllocator Pmm.pmm := {|
  pa_alloc_page := Pmm.pmm_alloc_page;
  pa_alloc_pages := Pmm.pmm_alloc_pages;
  pa_free_contiguous := Pmm.pmm_free_contiguous;
  pa_ok := Pmm.Wf;
  pa_refs := page_refs
|}.
Next Obligation. done. Qed.
Next Obligation.
  intros count s s' addr HW Hc Ha.
  destruct (Pmm.alloc_pages_cases count s HW Hc) as [(b & s1 & o & Ho & Ha' & HW' & Ht)|[Ha' _]].
  - rewrite Ha in Ha'. injection Ha' as -> ->. pose proof Ht as ((Hb & _ & Hm & Hz) & Em & _ & H1 & Hr).
    pose proof (Pmm.request_order_spec count Hc) as Hro. rewrite Ho in Hro.
    pose proof HW as [[fl HI] _]. pose proof (Pmm.inv_max _ _ _ HI).
    pose proof (Pmm.bsize_le o Pmm.BUDDY_MAX_ORDER). 
    assert (Pmm.bsize Pmm.BUDDY_MAX_ORDER = 16384) by done. unfold Pmm.in_block, page_refs in *.
    split; [done|]. split.
    + intros x. rewrite Em. case_decide; [|done]. intros Hx.
      destruct (decide (b <= x < b + Pmm.bsize o)); [|by apply Hr]. rewrite Hz in Hx; lia.
    + intros Hn0 _. exists b. unfold Pmm.CHIMERA_PAGE_SIZE in *.
      split; [done|]. split; [lia|]. split; [lia|]. split; [lia|].
      intros x Hx. rewrite Em, !decide_True by lia. split; [apply Hz|apply H1]; lia.
  - rewrite Ha in Ha'. injection Ha' as -> ->. split; [done|]. split; [done|].
    intros H0 Hn. by destruct (count =? 1).
Qed.
Next Obligation.
  intros b count s HW Hb Hc Hm.
  destruct (Pmm.free_contiguous_other b count s HW) as [Em Hr]; [lia..|].
  split; [apply Pmm.free_contiguous_wf; [lia|done]|].
  intros x Hx. unfold page_refs. change (b * 4096) with (b * Pmm.CHIMERA_PAGE_SIZE).
  rewrite Em. case_decide; [by apply Hr|done].
Qed.

(** A heap over the small machine of [Pmm], with its direct map at 2^47. *)
Definition demo_hhdm : Z := 2 ^ 47.
Definition demo_heap : heap Pmm.pmm :=
  zone_init {| s_zone_table := []; s_zone_initialized := false; mem := ∅; pm := Pmm.demo |}.

Lemma demo_hhdm_ok : 0 <= demo_hhdm /\ (4096 | demo_hhdm) /\ demo_hhdm + 2 ^ 44 <= 2 ^ 64.
Proof. unfold demo_hhdm. split; [lia|]. split; [by exists (2 ^ 35)|lia]. Qed.

Lemma demo_heap_ok : HeapOk demo_hhdm demo_heap ∅.
Proof. apply zone_init_inv; [exact demo_hhdm_ok|exact Pmm.demo_wf|done]. Qed.

(** ** Correctness *)

Section Claims.
Context {S : Type} `{PageAllocator S} (hhdm : Z).
Hypothesis hhdm_ok : 0 <= hhdm /\ (4096 | hhdm) /\ hhdm + 2 ^ 44 <= 2 ^ 64.


(** [kalloc] returns either 0, leaving the live allocations as they are, or a
    fresh 64-byte aligned pointer to [size] zeroed bytes that overlap no live
    allocation. *)
Theorem kalloc_spec (h : heap S) (live : gmap Z Z) (size : Z) :
  HeapOk hhdm h live -> 0 < size < 2 ^ 64 - 4159 ->
  let '(h', p) := kalloc hhdm size h in
  (p = 0 /\ HeapOk hhdm h' live) \/
  (p ≠ 0 /\ (64 | p) /\ live !! p = None /\ no_overlap live p size /\
   HeapOk hhdm h' (<[p := size]> live) /\
   forall i, 0 <= i -> 8 * i + 8 <= size -> load (mem h') (p + 8 * i) = 0).
Proof.
  intros Hok Hs. pose proof (kalloc_inv hhdm hhdm_ok h live size Hok Hs) as HK.
  destruct (kalloc hhdm size h) as [h' p]. destruct HK as [?|(Hp & Ha & Hn & Hok' & Hz)]; [by left|right].
  split_and!; try done. intros q k Hq Hne. destruct Hok' as (_ & C & fl & HI & HL).
  apply (live_disjoint hhdm h' C fl _ p size HI HL); [by rewrite lookup_insert_eq| |done].
  by rewrite lookup_insert_ne.
Qed.

(** [kfree] of a live pointer removes exactly that allocation, and a second
    [kfree] of the same pointer is recognised and ignored: it changes nothing. *)
Theorem kfree_spec (h : heap S) (live : gmap Z Z) (p n : Z) :
  HeapOk hhdm h live -> live !! p = Some n ->
  HeapOk hhdm (kfree p h) (delete p live) /\ kfree p (kfree p h) = kfree p h.
Proof. apply (kfree_inv hhdm hhdm_ok). Qed.
End Claims.

Definition demo_alloc : heap Pmm.pmm * Z := kalloc demo_hhdm 100 demo_heap.

Lemma demo_alloc_succeeds : snd (kalloc demo_hhdm 100 demo_heap) ≠ 0.
Proof. vm_compute. discriminate. Qed.


Lemma kalloc_spec_witness :
  snd demo_alloc ≠ 0 /\ HeapOk demo_hhdm (fst demo_alloc) (<[snd demo_alloc := 100]> ∅).
Proof.
  pose proof demo_alloc_succeeds as Hnz.
  pose proof (kalloc_spec demo_hhdm demo_hhdm_ok demo_heap ∅ 100 demo_heap_ok) as HK.
  unfold demo_alloc. destruct (kalloc demo_hhdm 100 demo_heap) as [h p]. cbn [fst snd] in *.
  split; [exact Hnz|]. destruct HK as [[E _]|(_ & _ & _ & _ & Hok & _)]; [lia|congruence|exact Hok].
Defined.

Lemma kfree_spec_witness :
  exists h live p n, HeapOk demo_hhdm h live /\ live !! p = Some n /\
    HeapOk demo_hhdm (kfree p h) (delete p live) /\ kfree p (kfree p h) = kfree p h.
Proof.
  assert (Hok : HeapOk demo_hhdm (fst demo_alloc) (<[snd demo_alloc := 100]> ∅)).
  { pose proof demo_alloc_succeeds as Hnz.
    pose proof (kalloc_inv demo_hhdm demo_hhdm_ok demo_heap ∅ 100 demo_heap_ok) as HK.
    unfold demo_alloc. destruct (kalloc demo_hhdm 100 demo_heap) as [h p]. cbn [fst snd] in *.
    destruct HK as [[E _]|(_ & _ & _ & Hok & _)]; [lia|congruence|exact Hok]. }
  assert (Hl : (<[snd demo_alloc := 100]> ∅ : gmap Z Z) !! snd demo_alloc = Some 100)
    by apply lookup_insert_eq.
  exists (fst demo_alloc), (<[snd demo_alloc := 100]> ∅), (snd demo_alloc), 100.
  split; [exact Hok|]. split; [exact Hl|].
  apply (kfree_spec demo_hhdm demo_hhdm_ok (fst demo_alloc) (<[snd demo_alloc := 100]> ∅)
    (snd demo_alloc) 100 Hok Hl).
Defined.

(** a request within 64 bytes of 2^64 wraps: [kalloc] then succeeds with an
    element of the smallest zone, 64 bytes, all of them header. *)
Theorem kalloc_size_wraps :
  let '(h, p) := kalloc demo_hhdm (2 ^ 64 - 64) demo_heap in
  p ≠ 0 /\ u32 (load (mem h) (p - 64 + 8)) = 0 /\ esize (s_zone_table h) 0 = 64.
Proof. vm_compute. split; [discriminate|]. split; reflexivity. Qed.
End Zone.
