(* ===== verification/Kmsg.v ===== *)
(** * Kernel message buffers

    Models the allocation half of [kernel/mach/ipc_kmsg.c]: [ipc_kmsg_alloc] and
    [ipc_kmsg_free] over the static pool of 2048 buffers and, for long messages
    or an exhausted pool, over whole pages of the page allocator.

    A message is known by its address; [kmsgs] holds the [ipc_kmsg_t] header and
    the data bytes stored there.  Other files use messages through the interface
    [KmsgStore], which [kmsg_store] implements. *)

From S2P Require Import Prelude Pmm Zone.

(** What the port layer needs of message buffers. *)
Class KmsgStore (K : Type) := {
  km_next : K -> Z -> option Z;
  km_free : Z -> K -> K
}.

Module Kmsg.

Definition KMSG_POOL_SIZE : Z := 2048.
Definition KMSG_INLINE_MAX : Z := 512.
Definition MACH_MSG_SIZE_MAX : Z := 1024 * 1024.
(** [sizeof(ipc_kmsg_t)], [sizeof(kmsg_pool_entry_t)] (a flag byte and the buffer)
    and [sizeof(mach_msg_audit_trailer_t)]. *)
Definition SIZEOF_KMSG : Z := 384.
Definition SIZEOF_POOL_ENTRY : Z := 1 + SIZEOF_KMSG + KMSG_INLINE_MAX.
Definition SIZEOF_AUDIT_TRAILER : Z := 20.

Record ipc_kmsg := {
  ikm_next : option Z;
  ikm_prev : option Z;
  ikm_size : Z;
  ikm_remote_port : option nat;
  ikm_local_port : option nat;
  ikm_remote_right : Z;
  ikm_local_right : Z;
  ikm_sender_pid : Z;
  ikm_sender_uid : Z;
  ikm_seqno : Z;
  ikm_ool_regions : list (Z * Z);  (* address and size; [ikm_ool_count] is its length *)
  ikm_data : gmap Z Z              (* byte at each offset *)
}.
#[global] Instance ipc_kmsg_eta : Eta ipc_kmsg := fun r =>
  {| ikm_next := ikm_next r; ikm_prev := ikm_prev r; ikm_size := ikm_size r;
     ikm_remote_port := ikm_remote_port r; ikm_local_port := ikm_local_port r;
     ikm_remote_right := ikm_remote_right r; ikm_local_right := ikm_local_right r;
     ikm_sender_pid := ikm_sender_pid r; ikm_sender_uid := ikm_sender_uid r;
     ikm_seqno := ikm_seqno r; ikm_ool_regions := ikm_ool_regions r; ikm_data := ikm_data r |}.

(** A header cleared by [memset]; the data bytes are whatever the buffer held. *)
Definition cleared (data : gmap Z Z) : ipc_kmsg :=
  {| ikm_next := None; ikm_prev := None; ikm_size := 0; ikm_remote_port := None;
     ikm_local_port := None; ikm_remote_right := 0; ikm_local_right := 0; ikm_sender_pid := 0;
     ikm_sender_uid := 0; ikm_seqno := 0; ikm_ool_regions := []; ikm_data := data |}.
#[global] Instance ipc_kmsg_inhabited : Inhabited ipc_kmsg := populate (cleared ∅).

Record kstate {S : Type} := {
  kmsgs : gmap Z ipc_kmsg;
  in_use : gmap Z bool;
  s_kmsg_next : Z;
  kpm : S
}.
Arguments kstate : clear implicits.
#[global] Instance kstate_eta S : Eta (kstate S) := fun r =>
  {| kmsgs := kmsgs r; in_use := in_use r; s_kmsg_next := s_kmsg_next r; kpm := kpm r |}.

Section Kmsgs.
(** The addresses of the direct map and of [s_kmsg_pool]. *)
Context {S : Type} `{PageAllocator S} (g_hhdm_base pool_start : Z).

Definition pool_kmsg (idx : Z) : Z := pool_start + idx * SIZEOF_POOL_ENTRY + 1.
Definition pool_end : Z := pool_start + KMSG_POOL_SIZE * SIZEOF_POOL_ENTRY.

Definition pages_for (size : Z) : Z := (SIZEOF_KMSG + size + SIZEOF_AUDIT_TRAILER + 4095) / 4096.

(** The compare-and-swap scan: the first slot not in use, from [start] on. *)
Fixpoint pool_scan (fuel : nat) (start i : Z) (u : gmap Z bool) : option Z :=
  match fuel with
  | O => None
  | Datatypes.S fuel =>
      let idx := (start + i) mod KMSG_POOL_SIZE in
      if (u !!! idx : bool) then pool_scan fuel start (i + 1) u else Some idx
  end.

Definition fresh_kmsg (a size : Z) (k : kstate S) : kstate S :=
  k <| kmsgs ::= fun m => <[a := (cleared (ikm_data (m !!! a))) <| ikm_size := size |>]> m |>.

(** [None] is [nullptr]. *)
Definition ipc_kmsg_alloc (msg_size : Z) (k : kstate S) : kstate S * option Z :=
  if MACH_MSG_SIZE_MAX <? msg_size then (k, None)
  else
    let '(k, slot) :=
      if msg_size <=? KMSG_INLINE_MAX then
        let start := s_kmsg_next k mod KMSG_POOL_SIZE in
        let k := k <| s_kmsg_next ::= fun n => u32 (n + 1) |> in
        (k, pool_scan (Z.to_nat KMSG_POOL_SIZE) start 0 (in_use k))
      else (k, None) in
    match slot with
    | Some idx =>
        let k := k <| in_use ::= <[idx := true]> |> in
        (fresh_kmsg (pool_kmsg idx) KMSG_INLINE_MAX k, Some (pool_kmsg idx))
    | None =>
        let '(p, paddr) := pa_alloc_pages (pages_for msg_size) (kpm k) in
        let k := k <| kpm := p |> in
        if (paddr =? 0) || (paddr =? Pmm.PADDR_NONE) then (k, None)
        else
          let a := u64 (paddr + g_hhdm_base) in
          (fresh_kmsg a msg_size k, Some a)
    end.

Definition free_ool (r : Z * Z) (k : kstate S) : kstate S :=
  if r.1 =? 0 then k
  else k <| kpm ::= pa_free_contiguous (u64 (r.1 - g_hhdm_base)) ((r.2 + 4095) / 4096) |>.

Definition ipc_kmsg_free (a : Z) (k : kstate S) : kstate S :=
  let regions := ikm_ool_regions (kmsgs k !!! a) in
  let k := foldl (fun k r => free_ool r k) k regions in
  let k := k <| kmsgs ::= fun m => <[a := (m !!! a) <| ikm_ool_regions := [] |>]> m |> in
  if (pool_start <=? a) && (a <? pool_end) then
    let idx := (a - pool_start) / SIZEOF_POOL_ENTRY in
    if idx <? KMSG_POOL_SIZE then k <| in_use ::= <[idx := false]> |> else k
  else
    k <| kpm ::= pa_free_contiguous (u64 (a - g_hhdm_base)) (pages_for (ikm_size (kmsgs k !!! a))) |>.

(** ** Properties *)

Lemma pool_index idx : (pool_kmsg idx - pool_start) / SIZEOF_POOL_ENTRY = idx.
Proof.
  unfold pool_kmsg. symmetry. apply (Z.div_unique _ _ _ 1); [|lia].
  unfold SIZEOF_POOL_ENTRY, SIZEOF_KMSG, KMSG_INLINE_MAX. lia.
Qed.

Lemma pool_scan_some fuel start i u idx :
  pool_scan fuel start i u = Some idx -> 0 <= idx < KMSG_POOL_SIZE /\ u !!! idx = false.
Proof.
  revert i. induction fuel as [|fuel IH]; intros i; cbn [pool_scan]; [done|].
  destruct (u !!! ((start + i) mod KMSG_POOL_SIZE)) eqn:E; [apply IH|]. intros [= <-]. split; [|done].
  apply Z.mod_pos_bound. unfold KMSG_POOL_SIZE. lia.
Qed.

Lemma pool_scan_none fuel start i u :
  pool_scan fuel start i u = None ->
  forall j, i <= j < i + Z.of_nat fuel -> u !!! ((start + j) mod KMSG_POOL_SIZE) = true.
Proof.
  revert i. induction fuel as [|fuel IH]; intros i Hs j Hj; cbn [pool_scan] in Hs; [lia|].
  destruct (u !!! ((start + i) mod KMSG_POOL_SIZE)) eqn:E; [|done].
  destruct (decide (j = i)) as [->|]; [done|].
  apply (IH (i + 1)); [done|lia].
Qed.

(** The scan visits every slot. *)
Lemma pool_scan_full start u :
  0 <= start -> pool_scan (Z.to_nat KMSG_POOL_SIZE) start 0 u = None ->
  forall idx, 0 <= idx < KMSG_POOL_SIZE -> u !!! idx = true.
Proof.
  intros Hs Hn idx Hi.
  assert (HN : 0 < KMSG_POOL_SIZE) by (unfold KMSG_POOL_SIZE; lia).
  set (j := (idx - start) mod KMSG_POOL_SIZE).
  assert (Hj : 0 <= j < KMSG_POOL_SIZE) by (by apply Z.mod_pos_bound).
  pose proof (pool_scan_none _ _ _ _ Hn j) as Hu. rewrite Z2Nat.id in Hu by lia.
  replace ((start + j) mod KMSG_POOL_SIZE) with idx in Hu; [apply Hu; lia|].
  unfold j. rewrite Zplus_mod_idemp_r. replace (start + (idx - start)) with idx by lia.
  symmetry. by apply Z.mod_small.
Qed.

(** ** Live messages *)

Hypothesis hhdm_ok : 0 <= g_hhdm_base /\ (4096 | g_hhdm_base) /\ g_hhdm_base + 2 ^ 44 <= 2 ^ 64.
(** The kernel image, which holds the pool, lies above the direct map. *)
Hypothesis pool_ok : g_hhdm_base + 2 ^ 44 <= pool_start.

Definition in_pool (a : Z) : Prop := pool_start <= a.

(** Page blocks a message owns: its own pages when it is not in the pool, and
    its out-of-line regions. *)
Definition own_pages (k : kstate S) (a : Z) : list (Z * Z) :=
  if pool_start <=? a then [] else [(a, pages_for (ikm_size (kmsgs k !!! a)))].
Definition ool_pages (k : kstate S) (a : Z) : list (Z * Z) :=
  map (fun r => (r.1, (r.2 + 4095) / 4096)) (ikm_ool_regions (kmsgs k !!! a)).
Definition owned (k : kstate S) (a : Z) : list (Z * Z) := ool_pages k a ++ own_pages k a.

Record block_ok (p : S) (B : Z * Z) : Prop := {
  bk_align : (4096 | B.1);
  bk_low : g_hhdm_base + 4096 <= B.1;
  bk_pages : 0 < B.2;
  bk_high : B.1 + 4096 * B.2 <= g_hhdm_base + 2 ^ 44;
  bk_held : forall x, B.1 <= x < B.1 + 4096 * B.2 -> 0 < pa_refs p ((x - g_hhdm_base) / 4096)
}.

Definition apart (B B' : Z * Z) : Prop := B.1 + 4096 * B.2 <= B'.1 \/ B'.1 + 4096 * B'.2 <= B.1.

(** [L] are the messages in the hands of the kernel: pool messages occupy slots
    marked in use, and the page blocks of all messages are held and disjoint. *)
Record KInv (k : kstate S) (L : gset Z) : Prop := {
  ki_pm : pa_ok (kpm k);
  ki_pool : forall a, a ∈ L -> in_pool a ->
    exists idx, 0 <= idx < KMSG_POOL_SIZE /\ a = pool_kmsg idx /\ in_use k !!! idx = true;
  ki_size : forall a, a ∈ L -> 0 <= ikm_size (kmsgs k !!! a) <= MACH_MSG_SIZE_MAX;
  ki_block : forall a B, a ∈ L -> B ∈ owned k a -> block_ok (kpm k) B;
  ki_apart : forall a b i j B B', a ∈ L -> b ∈ L -> owned k a !! i = Some B -> owned k b !! j = Some B' ->
    (a, i) ≠ (b, j) -> apart B B'
}.

Lemma pages_for_bounds size :
  0 <= size <= MACH_MSG_SIZE_MAX ->
  0 < pages_for size <= 258 /\ SIZEOF_KMSG + size + SIZEOF_AUDIT_TRAILER <= 4096 * pages_for size.
Proof.
  unfold pages_for, SIZEOF_KMSG, SIZEOF_AUDIT_TRAILER, MACH_MSG_SIZE_MAX. intros Hs.
  set (n := 384 + size + 20 + 4095).
  pose proof (Z.div_mod n 4096). pose proof (Z.mod_pos_bound n 4096). unfold n in *. lia.
Qed.

Lemma fresh_kmsg_lookup a size k x :
  kmsgs (fresh_kmsg a size k) !!! x =
    if decide (x = a) then (cleared (ikm_data (kmsgs k !!! a))) <| ikm_size := size |> else kmsgs k !!! x.
Proof.
  unfold fresh_kmsg. cbn. case_decide; subst; [by rewrite lookup_total_insert_eq|].
  by rewrite lookup_total_insert_ne.
Qed.

Lemma owned_same k k' a :
  ikm_size (kmsgs k' !!! a) = ikm_size (kmsgs k !!! a) ->
  ikm_ool_regions (kmsgs k' !!! a) = ikm_ool_regions (kmsgs k !!! a) -> owned k' a = owned k a.
Proof. unfold owned, ool_pages, own_pages. by intros -> ->. Qed.

Lemma pool_in_range idx : 0 <= idx < KMSG_POOL_SIZE -> pool_start <= pool_kmsg idx < pool_end.
Proof. unfold pool_kmsg, pool_end, SIZEOF_POOL_ENTRY, SIZEOF_KMSG, KMSG_INLINE_MAX. nia. Qed.

Lemma block_ok_mono p p' B :
  (forall x, 0 < pa_refs p x -> 0 < pa_refs p' x) -> block_ok p B -> block_ok p' B.
Proof. intros Hr []. constructor; auto. Qed.

(** A block of pages nobody held is apart from every held block. *)
Lemma fresh_apart p B b n :
  block_ok p B -> 0 < n -> (forall x, b <= x < b + n -> pa_refs p x = 0) ->
  apart (b * 4096 + g_hhdm_base, n) B.
Proof.
  intros [Ha Hl Hp Hh Hr] Hn Hf. unfold apart. cbn.
  destruct (decide (b * 4096 + g_hhdm_base + 4096 * n <= B.1)); [auto|].
  destruct (decide (B.1 + 4096 * B.2 <= b * 4096 + g_hhdm_base)); [auto|]. exfalso.
  set (x := Z.max B.1 (b * 4096 + g_hhdm_base)).
  assert (Hx : B.1 <= x < B.1 + 4096 * B.2) by lia. specialize (Hr x Hx).
  rewrite Hf in Hr; [lia|].
  split; [apply Z.div_le_lower_bound; lia|apply Z.div_lt_upper_bound; lia].
Qed.

Lemma apart_sym B B' : apart B B' -> apart B' B.
Proof. unfold apart. tauto. Qed.

(** Adding a cleared message [a] at which nothing was live. *)
Lemma add_kmsg k k' L a :
  KInv k L -> a ∉ L -> pa_ok (kpm k') -> (forall x, 0 < pa_refs (kpm k) x -> 0 < pa_refs (kpm k') x) ->
  (forall b, b ∈ L -> kmsgs k' !!! b = kmsgs k !!! b) ->
  (forall idx, in_use k !!! idx = true -> in_use k' !!! idx = true) ->
  (in_pool a -> exists idx, 0 <= idx < KMSG_POOL_SIZE /\ a = pool_kmsg idx /\ in_use k' !!! idx = true) ->
  0 <= ikm_size (kmsgs k' !!! a) <= MACH_MSG_SIZE_MAX -> ikm_ool_regions (kmsgs k' !!! a) = [] ->
  (forall B, B ∈ own_pages k' a -> block_ok (kpm k') B /\
     forall b B', b ∈ L -> B' ∈ owned k b -> apart B B') ->
  KInv k' ({[ a ]} ∪ L).
Proof.
  intros HI Ha Hp Hr Hk Hu Hpool Hsz Hool Hown.
  assert (Hoa : owned k' a = own_pages k' a) by (unfold owned, ool_pages; by rewrite Hool).
  assert (Hob : forall b, b ∈ L -> owned k' b = owned k b).
  { intros b Hb. by apply owned_same; rewrite Hk. }
  constructor.
  - done.
  - intros b [->%elem_of_singleton|Hb]%elem_of_union Hin; [auto|].
    destruct (ki_pool _ _ HI b Hb Hin) as (idx & ? & ? & ?). eauto.
  - intros b [->%elem_of_singleton|Hb]%elem_of_union; [done|]. rewrite Hk by done. by apply (ki_size _ _ HI).
  - intros b B [->%elem_of_singleton|Hb]%elem_of_union HB.
    + rewrite Hoa in HB. by apply Hown.
    + rewrite Hob in HB by done. apply (block_ok_mono (kpm k)); [done|]. by apply (ki_block _ _ HI b).
  - intros b c i j B B' [->%elem_of_singleton|Hb]%elem_of_union [->%elem_of_singleton|Hc]%elem_of_union HB HB' Hne.
    + rewrite Hoa in HB, HB'. unfold own_pages in HB, HB'. exfalso. apply Hne.
      destruct (pool_start <=? a); [done|]. apply list_lookup_singleton_Some in HB as [-> _], HB' as [-> _]. done.
    + rewrite Hoa in HB. rewrite Hob in HB' by done. apply list_elem_of_lookup_2 in HB, HB'.
      by apply (Hown B HB) with c.
    + rewrite Hoa in HB'. rewrite Hob in HB by done. apply list_elem_of_lookup_2 in HB, HB'.
      apply apart_sym. by apply (Hown B' HB') with b.
    + rewrite Hob in HB, HB' by done. by apply (ki_apart _ _ HI b c i j).
Qed.

Lemma pool_alloc_inv k L idx n :
  KInv k L -> 0 <= idx < KMSG_POOL_SIZE -> in_use k !!! idx = false ->
  let k' := fresh_kmsg (pool_kmsg idx) KMSG_INLINE_MAX (k <| s_kmsg_next := n |> <| in_use ::= <[idx := true]> |>) in
  (pool_kmsg idx ∉ L) /\ KInv k' ({[ pool_kmsg idx ]} ∪ L).
Proof.
  intros HI Hidx Hfree k'. pose proof (pool_in_range idx Hidx) as Hr.
  assert (Hn : pool_kmsg idx ∉ L).
  { intros Hin. destruct (ki_pool _ _ HI _ Hin) as (idx' & _ & E & Hu); [unfold in_pool; lia|].
    pose proof (pool_index idx) as E1. rewrite E, pool_index in E1. congruence. }
  assert (Hl : kmsgs k' !!! pool_kmsg idx = (cleared (ikm_data (kmsgs k !!! pool_kmsg idx))) <| ikm_size := KMSG_INLINE_MAX |>).
  { unfold k'. rewrite fresh_kmsg_lookup, decide_True by done. done. }
  split; [done|]. apply (add_kmsg k); try done.
  - apply (ki_pm _ _ HI).
  - intros b Hb. unfold k'. rewrite fresh_kmsg_lookup, decide_False; [done|]. by intros ->.
  - intros i Hi. cbn. destruct (decide (i = idx)) as [->|]; [by rewrite lookup_total_insert_eq|].
    by rewrite lookup_total_insert_ne.
  - intros _. exists idx. split; [done|]. split; [done|]. cbn. by rewrite lookup_total_insert_eq.
  - rewrite Hl. done.
  - rewrite Hl. done.
  - intros B. unfold own_pages. destruct (Z.leb_spec pool_start (pool_kmsg idx)); [set_solver|lia].
Qed.

Lemma pages_alloc_inv k L size p b :
  KInv k L -> 0 <= size <= MACH_MSG_SIZE_MAX -> pa_ok p ->
  (forall x, 0 < pa_refs (kpm k) x -> pa_refs p x = pa_refs (kpm k) x) ->
  0 < b -> b + pages_for size <= 2 ^ 32 ->
  (forall x, b <= x < b + pages_for size -> pa_refs (kpm k) x = 0 /\ pa_refs p x = 1) ->
  let a := b * 4096 + g_hhdm_base in
  let k' := fresh_kmsg a size (k <| kpm := p |>) in
  (a ∉ L) /\ KInv k' ({[ a ]} ∪ L).
Proof.
  intros HI Hs Hp Hr Hb0 Hb1 Hf a k'. destruct hhdm_ok as (Hh0 & Hh1 & Hh2).
  destruct (pages_for_bounds size Hs) as [Hpf _].
  assert (Hout : (pool_start <=? a) = false) by (unfold a; lia).
  assert (Hn : a ∉ L).
  { intros Hin. assert (HB : (a, pages_for (ikm_size (kmsgs k !!! a))) ∈ owned k a).
    { unfold owned, own_pages. rewrite Hout. set_solver. }
    pose proof (ki_block _ _ HI a _ Hin HB) as Hok.
    pose proof (pages_for_bounds _ (ki_size _ _ HI a Hin)) as [Hq _].
    destruct (fresh_apart (kpm k) _ b (pages_for size) Hok) as [E|E]; [lia|by intros; apply Hf|..];
      cbn [fst snd] in E; fold a in E; lia. }
  assert (Hl : kmsgs k' !!! a = (cleared (ikm_data (kmsgs k !!! a))) <| ikm_size := size |>).
  { unfold k'. rewrite fresh_kmsg_lookup, decide_True by done. done. }
  split; [done|]. apply (add_kmsg k); try done.
  - intros x Hx. cbn. by rewrite Hr.
  - intros c Hc. unfold k'. rewrite fresh_kmsg_lookup, decide_False; [done|]. by intros ->.
  - unfold in_pool. lia.
  - by rewrite Hl.
  - by rewrite Hl.
  - intros B. unfold own_pages. rewrite Hout, Hl. cbn [ikm_size fupd ipc_kmsg_eta].
    intros ->%list_elem_of_singleton. split.
    + constructor; cbn; try (unfold a; lia).
      * apply Z.divide_add_r; [by exists b|done].
      * intros x Hx. destruct (Hf ((x - g_hhdm_base) / 4096)) as [_ ->]; [|lia]. unfold a in Hx.
        split; [apply Z.div_le_lower_bound; lia|apply Z.div_lt_upper_bound; lia].
    + intros c B' Hc HB'. apply (fresh_apart (kpm k)); [by eapply (ki_block _ _ HI)|lia|].
      intros x Hx. by apply Hf.
Qed.

Lemma KInv_next k L n : KInv k L -> KInv (k <| s_kmsg_next := n |>) L.
Proof. intros []. by constructor. Qed.

Lemma kmsg_alloc_inv k L size :
  KInv k L -> 0 <= size ->
  match ipc_kmsg_alloc size k with
  | (k', Some a) =>
      (a ∉ L) /\ KInv k' ({[ a ]} ∪ L) /\ size <= MACH_MSG_SIZE_MAX /\
      exists d n, kmsgs k' !!! a = (cleared d) <| ikm_size := n |> /\ size <= n
  | (k', None) =>
      KInv k' L /\
      (MACH_MSG_SIZE_MAX < size \/
       (size <= KMSG_INLINE_MAX -> forall idx, 0 <= idx < KMSG_POOL_SIZE -> in_use k !!! idx = true))
  end.
Proof.
  intros HI Hs. unfold ipc_kmsg_alloc. destruct (Z.ltb_spec MACH_MSG_SIZE_MAX size); [auto|].
  set (k1 := if size <=? KMSG_INLINE_MAX then _ else (k, None)).
  assert (Hk1 : exists n slot, k1 = (k <| s_kmsg_next := n |>, slot) /\
    match slot with
    | Some idx => 0 <= idx < KMSG_POOL_SIZE /\ in_use k !!! idx = false /\ size <= KMSG_INLINE_MAX
    | None => size <= KMSG_INLINE_MAX -> forall idx, 0 <= idx < KMSG_POOL_SIZE -> in_use k !!! idx = true
    end).
  { unfold k1. destruct (Z.leb_spec size KMSG_INLINE_MAX); [|exists (s_kmsg_next k), None; split; [by destruct k|lia]].
    eexists _, _. split; [reflexivity|]. cbn [in_use]. destruct (pool_scan _ _ _ _) as [idx|] eqn:E.
    - by apply pool_scan_some in E as [??].
    - intros _. eapply pool_scan_full; [|exact E]. apply Z.mod_pos_bound. done. }
  clearbody k1. destruct Hk1 as (n & [idx|] & -> & Hslot); cbn [fst snd].
  - destruct Hslot as (Hi & Hf & Hin). destruct (pool_alloc_inv k L idx n HI Hi Hf) as [Hn HI'].
    split; [done|]. split; [done|]. split; [done|]. eexists _, _. split; [|exact Hin].
    rewrite fresh_kmsg_lookup, decide_True by done. done.
  - destruct (pa_alloc_pages _ _) as [p paddr] eqn:Ea. cbn [kpm] in Ea.
    destruct (pages_for_bounds size ltac:(lia)) as [Hpf _].
    destruct (pa_alloc_law (pages_for size) (kpm k) p paddr (ki_pm _ _ HI)) as (Hp & Hr & Hb); [lia|done|].
    assert (HI' : KInv (k <| s_kmsg_next := n |> <| kpm := p |>) L).
    { destruct HI. constructor; try done. intros a B Ha HB. apply (block_ok_mono (kpm k)); [|by eapply ki_block0].
      intros x Hx. cbn. by rewrite Hr. }
    destruct (Z.eqb_spec paddr 0); [by split; [|right]|].
    destruct (Z.eqb_spec paddr Pmm.PADDR_NONE); [by split; [|right]|].
    destruct Hb as (b & -> & Hb0 & Hb1 & _ & Hfr); [done..|]. cbn [orb].
    destruct hhdm_ok as (Hh0 & Hh1 & Hh2). rewrite u64_id by lia.
    destruct (pages_alloc_inv (k <| s_kmsg_next := n |>) L size p b) as [Hn HI2]; try done; try lia.
    { by apply KInv_next. }
    split; [done|]. split; [done|]. split; [done|]. eexists _, _. split; [|reflexivity].
    rewrite fresh_kmsg_lookup, decide_True by done. done.
Qed.

Definition free_block (p : S) (B : Z * Z) : S := pa_free_contiguous (u64 (B.1 - g_hhdm_base)) B.2 p.

Lemma free_block_keeps p B :
  pa_ok p -> block_ok p B ->
  pa_ok (free_block p B) /\ forall B', block_ok p B' -> apart B B' -> block_ok (free_block p B) B'.
Proof.
  intros Hp [Ha Hl Hn Hh _]. destruct hhdm_ok as (Hh0 & Hh1 & Hh2). unfold free_block.
  rewrite u64_id by lia. assert (Hb : exists b, B.1 - g_hhdm_base = b * 4096) by (by apply Z.divide_sub_r).
  destruct Hb as [b Hb]. rewrite Hb. destruct (pa_free_law b B.2 p Hp) as [Hp' Hr]; [lia..|].
  split; [done|]. intros B' [Ha' Hl' Hn' Hh' Hr'] Hd. constructor; try done.
  intros x Hx. rewrite Hr; [by apply Hr'|]. intros Hin. unfold apart in Hd.
  pose proof (Z.div_mod (x - g_hhdm_base) 4096). pose proof (Z.mod_pos_bound (x - g_hhdm_base) 4096). lia.
Qed.

Lemma free_blocks_keep l p :
  pa_ok p -> (forall B, B ∈ l -> block_ok p B) ->
  (forall i j B B', l !! i = Some B -> l !! j = Some B' -> i ≠ j -> apart B B') ->
  pa_ok (foldl free_block p l) /\
  forall B', block_ok p B' -> (forall B, B ∈ l -> apart B B') -> block_ok (foldl free_block p l) B'.
Proof.
  revert p. induction l as [|B l IH]; intros p Hp Hok Hap; cbn [foldl]; [done|].
  destruct (free_block_keeps p B Hp) as [Hp' Hk]; [apply Hok; set_solver|].
  destruct (IH (free_block p B) Hp') as [Hp'' Hk'].
  - intros B' HB'. apply Hk; [apply Hok; set_solver|].
    apply list_elem_of_lookup in HB' as [j Hj]. by apply (Hap 0%nat (Datatypes.S j)).
  - intros i j B1 B2 Hi Hj Hij. apply (Hap (Datatypes.S i) (Datatypes.S j)); auto.
  - split; [done|]. intros B' HB' Hd. apply Hk'; [apply Hk; [done|apply Hd; set_solver]|].
    intros B1 HB1. apply Hd. set_solver.
Qed.

Lemma free_ool_fold l k :
  (forall r, r ∈ l -> r.1 ≠ 0) ->
  foldl (fun k r => free_ool r k) k l =
    k <| kpm := foldl free_block (kpm k) (map (fun r => (r.1, (r.2 + 4095) / 4096)) l) |>.
Proof.
  revert k. induction l as [|r l IH]; intros k Hr; cbn [foldl map]; [by destruct k|].
  rewrite IH by set_solver. unfold free_ool. destruct (Z.eqb_spec r.1 0) as [E|]; [|done].
  destruct (Hr r); [set_solver|done].
Qed.

(** What freeing the live message [a] does. *)
Lemma kmsg_free_eq k L a :
  KInv k L -> a ∈ L ->
  let k' := ipc_kmsg_free a k in
  kpm k' = foldl free_block (kpm k) (owned k a) /\
  (forall b, b ≠ a -> kmsgs k' !!! b = kmsgs k !!! b) /\
  (forall idx, pool_kmsg idx ≠ a -> in_use k' !!! idx = in_use k !!! idx).
Proof.
  intros HI Ha. unfold ipc_kmsg_free. destruct hhdm_ok as (Hh0 & _).
  rewrite free_ool_fold.
  2:{ intros r Hr E. assert (HB : (r.1, (r.2 + 4095) / 4096) ∈ owned k a).
      { unfold owned, ool_pages. apply elem_of_app. left. apply list_elem_of_fmap. eauto. }
      pose proof (bk_low _ _ (ki_block _ _ HI _ _ Ha HB)) as Hl. cbn in Hl. lia. }
  fold (ool_pages k a). unfold owned. rewrite foldl_app.
  assert (Hother : forall b, b ≠ a ->
    <[a := (kmsgs k !!! a) <| ikm_ool_regions := [] |>]> (kmsgs k) !!! b = kmsgs k !!! b).
  { intros b Hb. by rewrite lookup_total_insert_ne. }
  destruct (decide (in_pool a)) as [Hin|Hout].
  - destruct (ki_pool _ _ HI a Ha Hin) as (idx & Hidx & -> & Hu). pose proof (pool_in_range idx Hidx).
    unfold own_pages. destruct (Z.leb_spec pool_start (pool_kmsg idx)); [|lia].
    destruct (Z.ltb_spec (pool_kmsg idx) pool_end); [|lia]. cbn [andb]. rewrite pool_index.
    destruct (Z.ltb_spec idx KMSG_POOL_SIZE); [|lia].
    split; [done|]. split; [done|]. intros i Hi. cbn. rewrite lookup_total_insert_ne; [done|].
    intros <-. done.
  - unfold in_pool, own_pages in *. destruct (Z.leb_spec pool_start a); [lia|]. cbn [andb foldl].
    split; [|done]. cbn. by rewrite lookup_total_insert_eq.
Qed.

Lemma kmsg_free_inv k L a :
  KInv k L -> a ∈ L -> KInv (ipc_kmsg_free a k) (L ∖ {[ a ]}).
Proof.
  intros HI Ha. destruct (kmsg_free_eq k L a HI Ha) as (Hpm & Hk & Hu).
  destruct (free_blocks_keep (owned k a) (kpm k) (ki_pm _ _ HI)) as [Hp Hkeep].
  { intros B HB. by apply (ki_block _ _ HI a). }
  { intros i j B B' Hi Hj Hij. apply (ki_apart _ _ HI a a i j); try done. congruence. }
  assert (Hob : forall b, b ∈ L ∖ {[ a ]} -> b ∈ L /\ b ≠ a /\ owned (ipc_kmsg_free a k) b = owned k b).
  { intros b Hb. assert (b ∈ L /\ b ≠ a) as [? ?] by set_solver. split_and!; try done.
    by apply owned_same; rewrite Hk. }
  constructor; rewrite ?Hpm.
  - done.
  - intros b Hb Hin. destruct (Hob b Hb) as (HbL & Hne & _).
    destruct (ki_pool _ _ HI b HbL Hin) as (idx & ? & -> & ?). exists idx. rewrite Hu by done. done.
  - intros b Hb. destruct (Hob b Hb) as (HbL & Hne & _). rewrite Hk by done. by apply (ki_size _ _ HI).
  - intros b B Hb HB. destruct (Hob b Hb) as (HbL & Hne & Ho). rewrite Ho in HB.
    apply Hkeep; [by apply (ki_block _ _ HI b)|]. intros B' HB'.
    apply list_elem_of_lookup in HB as [i Hi], HB' as [j Hj].
    apply (ki_apart _ _ HI a b j i); try done. congruence.
  - intros b c i j B B' Hb Hc. destruct (Hob b Hb) as (HbL & _ & ->), (Hob c Hc) as (HcL & _ & ->).
    by apply (ki_apart _ _ HI).
Qed.

(** Uses of message buffers: allocations and frees of live messages. *)
Inductive kmsg_step : kstate S * gset Z -> kstate S * gset Z -> Prop :=
| ks_alloc k L size k' a :
    0 <= size -> ipc_kmsg_alloc size k = (k', Some a) -> kmsg_step (k, L) (k', {[ a ]} ∪ L)
| ks_alloc_fail k L size k' :
    0 <= size -> ipc_kmsg_alloc size k = (k', None) -> kmsg_step (k, L) (k', L)
| ks_free k L a : a ∈ L -> kmsg_step (k, L) (ipc_kmsg_free a k, L ∖ {[ a ]}).

Lemma kmsg_step_inv kl kl' : kmsg_step kl kl' -> KInv kl.1 kl.2 -> KInv kl'.1 kl'.2.
Proof.
  intros [k L size k' a Hs Ha|k L size k' Hs Ha|k L a Ha] HI; cbn [fst snd] in *.
  - pose proof (kmsg_alloc_inv k L size HI Hs) as HA. rewrite Ha in HA. apply HA.
  - pose proof (kmsg_alloc_inv k L size HI Hs) as HA. rewrite Ha in HA. apply HA.
  - by apply kmsg_free_inv.
Qed.


(** [ipc_kmsg_alloc] returns a message that was not live, with an empty
    cleared header and room for the requested size; a request of at most 512
    bytes fails only when every pool slot is in use. *)
Theorem kmsg_alloc_spec (k : kstate S) (L : gset Z) (size : Z) :
  KInv k L -> 0 <= size ->
  match ipc_kmsg_alloc size k with
  | (k', Some a) =>
      (a ∉ L) /\ KInv k' ({[ a ]} ∪ L) /\ size <= MACH_MSG_SIZE_MAX /\
      exists d n, kmsgs k' !!! a = (cleared d) <| ikm_size := n |> /\ size <= n
  | (k', None) =>
      KInv k' L /\
      (MACH_MSG_SIZE_MAX < size \/
       (size <= KMSG_INLINE_MAX -> forall idx, 0 <= idx < KMSG_POOL_SIZE -> in_use k !!! idx = true))
  end.
Proof. apply kmsg_alloc_inv. Qed.
End Kmsgs.

Definition demo_pool : Z := Zone.demo_hhdm + 2 ^ 44.
Definition demo_kmsgs : kstate Pmm.pmm :=
  {| kmsgs := ∅; in_use := ∅; s_kmsg_next := 0; kpm := Pmm.demo |}.

Lemma demo_kmsgs_inv : KInv Zone.demo_hhdm demo_pool demo_kmsgs ∅.
Proof. constructor; try (set_solver || exact Pmm.demo_wf). Qed.

Lemma demo_pool_ok : Zone.demo_hhdm + 2 ^ 44 <= demo_pool.
Proof. unfold demo_pool. lia. Qed.

Lemma kmsg_alloc_spec_witness :
  exists k' a, ipc_kmsg_alloc Zone.demo_hhdm demo_pool 100 demo_kmsgs = (k', Some a) /\
    KInv Zone.demo_hhdm demo_pool k' ({[ a ]} ∪ ∅).
Proof.
  pose proof (kmsg_alloc_spec Zone.demo_hhdm demo_pool Zone.demo_hhdm_ok demo_pool_ok
    demo_kmsgs ∅ 100 demo_kmsgs_inv ltac:(lia)) as HA.
  assert (Ha : is_Some (snd (ipc_kmsg_alloc Zone.demo_hhdm demo_pool 100 demo_kmsgs)))
    by (vm_compute; eexists; reflexivity).
  destruct (ipc_kmsg_alloc Zone.demo_hhdm demo_pool 100 demo_kmsgs) as [k' [a|]];
    [|by destruct Ha].
  exists k', a. split; [reflexivity|]. apply HA.
Defined.


#[global] Instance kmsg_store {S} `{PageAllocator S} (hhdm pool : Z) : KmsgStore (kstate S) := {|
  km_next k a := ikm_next (kmsgs k !!! a);
  km_free := ipc_kmsg_free hhdm pool
|}.
End Kmsg.
