(* ===== verification/IpcPort.v ===== *)
(** * Mach ports and name spaces

    Models [kernel/mach/ipc_port.c] and [kernel/include/kernel/ipc_port.h]: the
    port arena and its free list, per-task name tables whose names carry a
    generation, rights, reference counts, port death, the service registry and
    the port traps.

    A [struct ipc_port *] is the index of its slot in [s_port_arena], an
    [ipc_space_t *] the index of its slot in [s_space_pool].  Every operation
    runs under the space or port lock, so it is one state transformer.  Wait
    queues and message buffers are used through [WaitQueues] and [KmsgStore]. *)

From S2P Require Import Prelude Kmsg.

(** The two wait queues of a port. *)
Inductive side : Set := SendWaiters | RecvWaiters.

Class WaitQueues (W : Type) := {
  wq_init : nat * side -> W -> W;
  wq_wakeup_one : nat * side -> W -> W;
  wq_wakeup_all : nat * side -> W -> W
}.

Module IpcPort.

Definition MACH_PORT_NAME_NULL : Z := 0.
Definition MACH_PORT_NAME_DEAD : Z := 2 ^ 32 - 1.
Definition MACH_PORT_TYPE (right : Z) : Z := Z.shiftl 1 (right + 16).
Definition MACH_PORT_TYPE_NONE : Z := 0.
Definition MACH_PORT_TYPE_SEND : Z := MACH_PORT_TYPE 0.
Definition MACH_PORT_TYPE_RECEIVE : Z := MACH_PORT_TYPE 1.
Definition MACH_PORT_TYPE_SEND_ONCE : Z := MACH_PORT_TYPE 2.
Definition MACH_PORT_TYPE_PORT_SET : Z := MACH_PORT_TYPE 3.
Definition MACH_PORT_TYPE_DEAD_NAME : Z := MACH_PORT_TYPE 4.
Definition MACH_PORT_TYPE_SEND_RECEIVE : Z := Z.lor MACH_PORT_TYPE_SEND MACH_PORT_TYPE_RECEIVE.
Definition MACH_PORT_RIGHT_RECEIVE : Z := 1.
Definition MACH_PORT_RIGHT_PORT_SET : Z := 3.
Definition MACH_PORT_RIGHT_DEAD_NAME : Z := 4.
Definition IPC_PORT_ARENA_SIZE : nat := 4096.
Definition IPC_SPACE_INITIAL_CAPACITY : Z := 64.
Definition IPC_PORT_MSG_QUEUE_DEFAULT : Z := 64.
Definition CHIMERA_IPC_PORT_MAGIC : Z := 0x584955504F525421.
Definition MAX_SERVICES : nat := 16.

(** ** Names *)

Definition ipc_name_make (gen idx : Z) : Z :=
  Z.lor (Z.shiftl (Z.land gen 0x3FF) 6) (Z.land idx 0x3F).
Definition ipc_name_index (name : Z) : Z := Z.land name 0x3F.
Definition ipc_name_gen (name : Z) : Z := Z.land (Z.shiftr name 6) 0x3FF.

(** [ie_object] holds a port, or, in a free entry, the next free name cast to a
    pointer. *)
Inductive object : Set :=
| ONull
| OPort (p : nat)
| OName (name : Z).

#[global] Instance object_eq_dec : EqDecision object.
Proof. solve_decision. Defined.

(** [(struct ipc_port * )(uptr)name] *)
Definition name_as_object (name : Z) : object := if name =? 0 then ONull else OName name.

Record ipc_entry := { ie_object : object; ie_bits : Z; ie_urefs : Z; ie_gen : Z }.
#[global] Instance ipc_entry_eta : Eta ipc_entry := fun r =>
  {| ie_object := ie_object r; ie_bits := ie_bits r; ie_urefs := ie_urefs r; ie_gen := ie_gen r |}.
#[global] Instance ipc_entry_inhabited : Inhabited ipc_entry := populate
  {| ie_object := ONull; ie_bits := 0; ie_urefs := 0; ie_gen := 0 |}.

Record ipc_space := {
  is_active : bool;
  is_table_size : Z;
  is_table_used : Z;
  is_table : list ipc_entry;
  is_free_head : Z;
  is_free_count : Z
}.
#[global] Instance ipc_space_eta : Eta ipc_space := fun r =>
  {| is_active := is_active r; is_table_size := is_table_size r; is_table_used := is_table_used r;
     is_table := is_table r; is_free_head := is_free_head r; is_free_count := is_free_count r |}.
#[global] Instance ipc_space_inhabited : Inhabited ipc_space := populate
  {| is_active := false; is_table_size := 0; is_table_used := 0; is_table := [];
     is_free_head := 0; is_free_count := 0 |}.

Definition entry (sp : ipc_space) (idx : Z) : ipc_entry := is_table sp !!! Z.to_nat idx.
Definition set_entry (idx : Z) (f : ipc_entry -> ipc_entry) (sp : ipc_space) : ipc_space :=
  sp <| is_table ::= <[Z.to_nat idx := f (entry sp idx)]> |>.

(** ** Ports *)

Inductive port_state : Set :=
| IPC_PORT_STATE_ACTIVE
| IPC_PORT_STATE_DEAD
| IPC_PORT_STATE_ZOMBIE
| IPC_PORT_STATE_SPECIAL.

#[global] Instance port_state_eq_dec : EqDecision port_state.
Proof. solve_decision. Defined.

Record ipc_mqueue := {
  imq_messages : option Z;
  imq_messages_tail : option Z;
  imq_msgcount : Z;
  imq_qlimit : Z;
  imq_seqno : Z
}.
#[global] Instance ipc_mqueue_eta : Eta ipc_mqueue := fun r =>
  {| imq_messages := imq_messages r; imq_messages_tail := imq_messages_tail r;
     imq_msgcount := imq_msgcount r; imq_qlimit := imq_qlimit r; imq_seqno := imq_seqno r |}.

Definition empty_mqueue : ipc_mqueue :=
  {| imq_messages := None; imq_messages_tail := None; imq_msgcount := 0;
     imq_qlimit := IPC_PORT_MSG_QUEUE_DEFAULT; imq_seqno := 0 |}.

Record ipc_port := {
  ip_signature : Z;
  ip_references : Z;
  ip_state : port_state;
  ip_srights : Z;
  ip_sorights : Z;
  ip_receiver : option nat;
  ip_receiver_name : Z;
  ip_messages : ipc_mqueue;
  ip_next : option nat;
  ip_kobject : option Z;
  ip_kotype : Z
}.
#[global] Instance ipc_port_eta : Eta ipc_port := fun r =>
  {| ip_signature := ip_signature r; ip_references := ip_references r; ip_state := ip_state r;
     ip_srights := ip_srights r; ip_sorights := ip_sorights r; ip_receiver := ip_receiver r;
     ip_receiver_name := ip_receiver_name r; ip_messages := ip_messages r; ip_next := ip_next r;
     ip_kobject := ip_kobject r; ip_kotype := ip_kotype r |}.
(** The arena is static, hence zero-initialised; no state has the value 0. *)
#[global] Instance ipc_port_inhabited : Inhabited ipc_port := populate
  {| ip_signature := 0; ip_references := 0; ip_state := IPC_PORT_STATE_DEAD; ip_srights := 0;
     ip_sorights := 0; ip_receiver := None; ip_receiver_name := 0; ip_messages := empty_mqueue;
     ip_next := None; ip_kobject := None; ip_kotype := 0 |}.

Definition ipc_port_is_active (p : ipc_port) : bool :=
  bool_decide (ip_state p = IPC_PORT_STATE_ACTIVE).

Record ipc {W K : Type} := {
  s_port_arena : gmap nat ipc_port;
  s_port_arena_next : nat;
  s_port_free_list : option nat;
  s_space_pool : gmap nat ipc_space;
  s_space_next : nat;
  s_services : list (string * nat);
  waiters : W;
  msgs : K
}.
Arguments ipc : clear implicits.
#[global] Instance ipc_eta W K : Eta (ipc W K) := fun r =>
  {| s_port_arena := s_port_arena r; s_port_arena_next := s_port_arena_next r;
     s_port_free_list := s_port_free_list r; s_space_pool := s_space_pool r;
     s_space_next := s_space_next r; s_services := s_services r; waiters := waiters r;
     msgs := msgs r |}.

Section Ports.
Context {W : Type} `{WaitQueues W} {K : Type} `{KmsgStore K}.
(** The low 32 bits of the address of an arena slot, which the linker chooses;
    only a corrupted free list would read them. *)
Variable ptr32 : nat -> Z.

Definition port (s : ipc W K) (p : nat) : ipc_port := s_port_arena s !!! p.
Definition set_port (p : nat) (f : ipc_port -> ipc_port) (s : ipc W K) : ipc W K :=
  s <| s_port_arena ::= <[p := f (port s p)]> |>.
Definition space (s : ipc W K) (i : nat) : ipc_space := s_space_pool s !!! i.
Definition set_space (i : nat) (sp : ipc_space) (s : ipc W K) : ipc W K :=
  s <| s_space_pool ::= <[i := sp]> |>.

(** ** The arena *)

Definition port_arena_alloc (s : ipc W K) : ipc W K * option nat :=
  match s_port_free_list s with
  | Some p =>
      let s := s <| s_port_free_list := ip_next (port s p) |> in
      (set_port p (fun x => x <| ip_next := None |>) s, Some p)
  | None =>
      if (s_port_arena_next s <? IPC_PORT_ARENA_SIZE)%nat
      then (s <| s_port_arena_next ::= S |>, Some (s_port_arena_next s))
      else (s, None)
  end.

Definition port_arena_free (p : nat) (s : ipc W K) : ipc W K :=
  if (IPC_PORT_ARENA_SIZE <=? p)%nat then s
  else
    let s := set_port p (fun x => x <| ip_next := s_port_free_list s |>) s in
    s <| s_port_free_list := Some p |>.

(** ** Name tables *)

(** [(mach_port_name_t)(uptr)entry->ie_object] *)
Definition object_as_name (o : object) : Z :=
  match o with ONull => 0 | OName n => n | OPort p => ptr32 p end.

Definition space_alloc_name (sp : ipc_space) : ipc_space * Z :=
  if (0 <? is_free_count sp) && negb (is_free_head sp =? MACH_PORT_NAME_NULL) then
    let idx := ipc_name_index (is_free_head sp) in
    let sp := sp <| is_free_head := object_as_name (ie_object (entry sp idx)) |>
                 <| is_free_count ::= fun n => u32 (n - 1) |> in
    let sp := set_entry idx (fun e => e <| ie_gen ::= fun g => u8 (g + 1) |>) sp in
    (sp, ipc_name_make (ie_gen (entry sp idx)) idx)
  else if is_table_size sp <=? is_table_used sp then (sp, MACH_PORT_NAME_NULL)
  else
    let idx := is_table_used sp in
    (sp <| is_table_used ::= fun n => u32 (n + 1) |>, ipc_name_make (ie_gen (entry sp idx)) idx).

Definition space_free_name (idx : Z) (sp : ipc_space) : ipc_space :=
  let sp := set_entry idx (fun e =>
    e <| ie_object := name_as_object (is_free_head sp) |> <| ie_bits := MACH_PORT_TYPE_NONE |>
      <| ie_urefs := 0 |> <| ie_gen ::= fun g => u8 (g + 1) |>) sp in
  sp <| is_free_head := ipc_name_make (ie_gen (entry sp idx)) idx |>
     <| is_free_count ::= fun n => u32 (n + 1) |>.

(** ** Ports *)

Definition ipc_port_init_internal (p : nat) (s : ipc W K) : ipc W K :=
  let s := set_port p (fun x =>
    x <| ip_signature := CHIMERA_IPC_PORT_MAGIC |> <| ip_references := 1 |>
      <| ip_state := IPC_PORT_STATE_ACTIVE |> <| ip_srights := 0 |> <| ip_sorights := 0 |>
      <| ip_receiver := None |> <| ip_receiver_name := MACH_PORT_NAME_NULL |>
      <| ip_next := None |> <| ip_messages := empty_mqueue |>) s in
  s <| waiters ::= fun w => wq_init (p, RecvWaiters) (wq_init (p, SendWaiters) w) |>.

Definition fresh_space : ipc_space :=
  {| is_active := true; is_table_size := IPC_SPACE_INITIAL_CAPACITY; is_table_used := 1;
     is_table := []; is_free_head := MACH_PORT_NAME_NULL; is_free_count := 0 |}.

(** The entry pool is static: object, rights and counts are cleared here and the
    generations keep their initial 0, since no slot is used twice. *)
Definition ipc_space_create (s : ipc W K) : ipc W K * (chimera_error * option nat) :=
  let idx := s_space_next s in
  if (256 <=? idx)%nat then (s <| s_space_next := 256%nat |>, (CHIMERA_ERR_NOMEM, None))
  else
    let sp := fresh_space <| is_table :=
      replicate (Z.to_nat IPC_SPACE_INITIAL_CAPACITY)
        {| ie_object := ONull; ie_bits := MACH_PORT_TYPE_NONE; ie_urefs := 0; ie_gen := 0 |} |> in
    (set_space idx sp (s <| s_space_next ::= S |>), (CHIMERA_SUCCESS, Some idx)).

Definition ipc_port_reference (p : nat) (s : ipc W K) : ipc W K :=
  set_port p (fun x => x <| ip_references ::= fun n => u32 (n + 1) |>) s.

Definition ipc_port_release (p : nat) (s : ipc W K) : ipc W K :=
  let prev := ip_references (port s p) in
  let s := set_port p (fun x => x <| ip_references ::= fun n => u32 (n - 1) |>) s in
  if prev =? 1 then
    port_arena_free p (set_port p (fun x => x <| ip_signature := 0xDEADDEADDEADDEAD |>) s)
  else s.

Definition ipc_port_alloc (i : nat) (s : ipc W K) : ipc W K * (chimera_error * Z) :=
  match port_arena_alloc s with
  | (s, None) => (s, (CHIMERA_ERR_NOMEM, 0))
  | (s, Some p) =>
      let s := ipc_port_init_internal p s in
      if negb (is_active (space s i)) then (port_arena_free p s, (CHIMERA_ERR_INVALID, 0))
      else
        let '(sp, name) := space_alloc_name (space s i) in
        if name =? MACH_PORT_NAME_NULL then (port_arena_free p (set_space i sp s), (CHIMERA_ERR_NOMEM, 0))
        else
          let sp := set_entry (ipc_name_index name) (fun e =>
            e <| ie_object := OPort p |> <| ie_bits := MACH_PORT_TYPE_SEND_RECEIVE |>
              <| ie_urefs := 1 |>) sp in
          let s := set_space i sp s in
          let s := set_port p (fun x => x <| ip_receiver := Some i |> <| ip_receiver_name := name |>
                                          <| ip_srights := 1 |>) s in
          (s, (CHIMERA_SUCCESS, name))
  end.

(** The drain loop of [ipc_port_destroy]; the queue holds [imq_msgcount]
    messages, so as many iterations reach its end. *)
Fixpoint drain (fuel : nat) (kmsg : option Z) (k : K) : K :=
  match fuel, kmsg with
  | S fuel, Some a => drain fuel (km_next k a) (km_free a k)
  | _, _ => k
  end.

Definition ipc_port_destroy (p : nat) (s : ipc W K) : ipc W K :=
  if negb (ipc_port_is_active (port s p)) then s
  else
    let mq := ip_messages (port s p) in
    let s := s <| msgs ::= drain (Z.to_nat (imq_msgcount mq)) (imq_messages mq) |> in
    let s := set_port p (fun x => x <| ip_state := IPC_PORT_STATE_ZOMBIE |>
      <| ip_messages ::= fun q => q <| imq_messages := None |> <| imq_messages_tail := None |>
                                    <| imq_msgcount := 0 |> |>) s in
    let s :=
      match ip_receiver (port s p) with
      | Some i =>
          let name := ip_receiver_name (port s p) in
          let sp := space s i in
          let sp := if negb (name =? MACH_PORT_NAME_NULL) && (ipc_name_index name <? is_table_size sp)
                       && (ipc_name_gen name =? ie_gen (entry sp (ipc_name_index name)))
                    then space_free_name (ipc_name_index name) sp else sp in
          set_port p (fun x => x <| ip_receiver := None |> <| ip_receiver_name := MACH_PORT_NAME_NULL |>)
            (set_space i sp s)
      | None => s
      end in
    let s := set_port p (fun x => x <| ip_state := IPC_PORT_STATE_DEAD |>) s in
    let s := s <| waiters ::= fun w => wq_wakeup_all (p, SendWaiters) (wq_wakeup_one (p, RecvWaiters) w) |> in
    ipc_port_release p s.

Definition object_port (o : object) : option nat :=
  match o with OPort p => Some p | _ => None end.

(** The ports of a dying space: those it receives on and those it only holds. *)
Definition live_entry (e : ipc_entry) : option (Z * nat) :=
  if ie_bits e =? MACH_PORT_TYPE_NONE then None
  else match object_port (ie_object e) with Some p => Some (ie_bits e, p) | None => None end.

Definition ipc_space_destroy (i : nat) (s : ipc W K) : ipc W K :=
  let sp := (space s i) <| is_active := false |> in
  let used := seqZ 1 (is_table_used sp - 1) in
  let live := omap (fun idx => live_entry (entry sp idx)) used in
  let owns := fun bp : Z * nat =>
    has bp.1 MACH_PORT_TYPE_RECEIVE && bool_decide (ip_receiver (port s bp.2) = Some i) in
  let to_destroy := snd <$> filter (fun bp => owns bp = true) live in
  let to_release := snd <$> filter (fun bp => owns bp = false) live in
  let sp := foldl (fun sp idx => set_entry idx (fun e =>
    e <| ie_object := ONull |> <| ie_bits := MACH_PORT_TYPE_NONE |>) sp) sp used in
  let s := set_space i (sp <| is_table_used := 1 |>) s in
  let s := foldl (fun s p => ipc_port_destroy p s) s to_destroy in
  foldl (fun s p => ipc_port_release p s) s to_release.

Definition ipc_port_lookup (i : option nat) (name required_right : Z) (s : ipc W K) : option nat :=
  match i with
  | None => None
  | Some i =>
      if (name =? MACH_PORT_NAME_NULL) || (name =? MACH_PORT_NAME_DEAD) then None
      else
        let sp := space s i in
        let idx := ipc_name_index name in
        if (is_table_size sp <=? idx) || (is_table_used sp <=? idx) then None
        else if negb (is_active sp) then None
        else
          let e := entry sp idx in
          if (ie_bits e =? MACH_PORT_TYPE_NONE) || negb (ipc_name_gen name =? ie_gen e) then None
          else if negb (required_right =? 0) && negb (has (ie_bits e) required_right) then None
          else match object_port (ie_object e) with
               | None => None
               | Some p => if ipc_port_is_active (port s p) then Some p else None
               end
  end.

(** The entry of [space] that already names [p] with a send right. *)
Definition find_send (p : nat) (sp : ipc_space) : option Z :=
  snd <$> list_find (fun idx => ie_object (entry sp idx) = OPort p /\
                          has (ie_bits (entry sp idx)) MACH_PORT_TYPE_SEND = true)
            (seqZ 1 (is_table_used sp - 1)).

Definition ipc_port_copyout_send (i : option nat) (po : option nat) (s : ipc W K) : ipc W K * Z :=
  match po, i with
  | Some p, Some i =>
      if bool_decide (ip_receiver (port s p) = Some i) then (s, ip_receiver_name (port s p))
      else
        let sp := space s i in
        match find_send p sp with
        | Some idx =>
            (set_space i (set_entry idx (fun e => e <| ie_urefs ::= fun n => u32 (n + 1) |>) sp) s, idx)
        | None =>
            let '(sp, name) := space_alloc_name sp in
            if name =? MACH_PORT_NAME_NULL then (set_space i sp s, MACH_PORT_NAME_NULL)
            else
              let sp := set_entry (ipc_name_index name) (fun e =>
                e <| ie_object := OPort p |> <| ie_bits := MACH_PORT_TYPE_SEND |> <| ie_urefs := 1 |>) sp in
              let s := set_space i sp s in
              (set_port p (fun x => x <| ip_srights ::= fun n => u32 (n + 1) |>) s, name)
        end
  | _, _ => (s, MACH_PORT_NAME_NULL)
  end.

(** ** Traps *)

Definition allocate_bare (i : nat) (bits : Z) (s : ipc W K) : ipc W K * (chimera_error * Z) :=
  let '(sp, name) := space_alloc_name (space s i) in
  if name =? MACH_PORT_NAME_NULL then (set_space i sp s, (CHIMERA_ERR_NOMEM, 0))
  else
    let sp := set_entry (ipc_name_index name) (fun e =>
      e <| ie_object := ONull |> <| ie_bits := bits |> <| ie_urefs := 1 |>) sp in
    (set_space i sp s, (CHIMERA_SUCCESS, name)).

Definition mach_port_allocate_kernel (i : option nat) (right : Z) (s : ipc W K) : ipc W K * (chimera_error * Z) :=
  match i with
  | None => (s, (CHIMERA_ERR_INVALID, 0))
  | Some i =>
      if right =? MACH_PORT_RIGHT_RECEIVE then ipc_port_alloc i s
      else if right =? MACH_PORT_RIGHT_PORT_SET then allocate_bare i MACH_PORT_TYPE_PORT_SET s
      else if right =? MACH_PORT_RIGHT_DEAD_NAME then allocate_bare i MACH_PORT_TYPE_DEAD_NAME s
      else (s, (CHIMERA_ERR_NOTSUP, 0))
  end.

(** [idx] and generation checks shared by the traps. *)
Definition name_current (sp : ipc_space) (name : Z) : bool :=
  (ipc_name_index name <? is_table_used sp) &&
  (ipc_name_gen name =? ie_gen (entry sp (ipc_name_index name))).

Definition mach_port_deallocate_kernel (i : option nat) (name : Z) (s : ipc W K) : ipc W K * chimera_error :=
  match i with
  | None => (s, CHIMERA_ERR_INVALID)
  | Some i =>
      if (name =? MACH_PORT_NAME_NULL) || (name =? MACH_PORT_NAME_DEAD) then (s, CHIMERA_ERR_INVALID)
      else
        let sp := space s i in
        let idx := ipc_name_index name in
        if negb (name_current sp name) then (s, CHIMERA_ERR_INVALID)
        else
          let e := entry sp idx in
          if (ie_bits e =? MACH_PORT_TYPE_NONE) || (ie_urefs e =? 0) then (s, CHIMERA_ERR_INVALID)
          else
            let sp := set_entry idx (fun e => e <| ie_urefs ::= Z.pred |>) sp in
            if ie_urefs e - 1 =? 0 then
              let s := set_space i (space_free_name idx sp) s in
              match object_port (ie_object e) with
              | None => (s, CHIMERA_SUCCESS)
              | Some p =>
                  if has (ie_bits e) MACH_PORT_TYPE_RECEIVE && bool_decide (ip_receiver (port s p) = Some i)
                  then (ipc_port_destroy p s, CHIMERA_SUCCESS)
                  else if has (ie_bits e) MACH_PORT_TYPE_SEND then
                    let s := set_port p (fun x => x <| ip_srights ::= fun n => if 0 <? n then n - 1 else n |>) s in
                    (ipc_port_release p s, CHIMERA_SUCCESS)
                  else (ipc_port_release p s, CHIMERA_SUCCESS)
              end
            else (set_space i sp s, CHIMERA_SUCCESS)
  end.

Definition mach_port_type_kernel (i : option nat) (name : Z) (s : ipc W K) : chimera_error * Z :=
  match i with
  | None => (CHIMERA_ERR_INVALID, 0)
  | Some i =>
      if name =? MACH_PORT_NAME_NULL then (CHIMERA_ERR_INVALID, 0)
      else
        let sp := space s i in
        if negb (name_current sp name) then (CHIMERA_ERR_INVALID, 0)
        else (CHIMERA_SUCCESS, ie_bits (entry sp (ipc_name_index name)))
  end.

(** ** Services *)

(** [strncpy] into a 64-byte array whose last byte is then cleared. *)
Definition service_name (name : string) : string := String.substring 0 63 name.

Definition mach_register_service (name : string) (p : nat) (s : ipc W K) : ipc W K * chimera_error :=
  if (MAX_SERVICES <=? length (s_services s))%nat then (s, CHIMERA_ERR_OVERFLOW)
  else match list_find (fun e => e.1 = name) (s_services s) with
       | Some (j, _) => (s <| s_services ::= alter (fun e => (e.1, p)) j |>, CHIMERA_SUCCESS)
       | None => (s <| s_services ::= fun l => l ++ [(service_name name, p)] |>, CHIMERA_SUCCESS)
       end.

Definition mach_lookup_service (name : string) (s : ipc W K) : option nat :=
  (fun x => x.2.2) <$> list_find (fun e => e.1 = name) (s_services s).

(** [ipc_init]: the space of the kernel task and the bootstrap port; [None] is a
    failed assertion. *)
Definition ipc_init (s : ipc W K) : option (ipc W K * nat) :=
  match ipc_space_create s with
  | (s, (CHIMERA_SUCCESS, Some i)) =>
      match ipc_port_alloc i s with
      | (s, (CHIMERA_SUCCESS, name)) =>
          match object_port (ie_object (entry (space s i) (ipc_name_index name))) with
          | Some p => Some (set_port p (fun x => x <| ip_state := IPC_PORT_STATE_SPECIAL |>) s, p)
          | None => None
          end
      | _ => None
      end
  | _ => None
  end.
End Ports.

(** ** Names *)

Lemma ipc_name_make_eq g i : 0 <= i < 64 -> ipc_name_make g i = (g mod 1024) * 64 + i.
Proof.
  intros Hi. unfold ipc_name_make. change 0x3FF with (Z.ones 10). change 0x3F with (Z.ones 6).
  rewrite !Z.land_ones by lia. rewrite lor_shiftl_add; [|lia|apply Z.mod_pos_bound; lia].
  rewrite (Z.mod_small i) by done. done.
Qed.

Lemma ipc_name_index_make g i : 0 <= i < 64 -> ipc_name_index (ipc_name_make g i) = i.
Proof.
  intros Hi. rewrite ipc_name_make_eq by done. unfold ipc_name_index. change 0x3F with (Z.ones 6).
  rewrite Z.land_ones by lia. change (2 ^ 6) with 64. rewrite Z.add_comm, Z.mod_add by lia.
  by apply Z.mod_small.
Qed.

Lemma ipc_name_gen_make g i : 0 <= g < 256 -> 0 <= i < 64 -> ipc_name_gen (ipc_name_make g i) = g.
Proof.
  intros Hg Hi. rewrite ipc_name_make_eq by done. unfold ipc_name_gen. change 0x3FF with (Z.ones 10).
  rewrite Z.land_ones, Z.shiftr_div_pow2 by lia. rewrite (Z.mod_small g) by lia.
  rewrite Z.div_add_l by lia. rewrite (Z.div_small i) by lia. rewrite Z.add_0_r. apply Z.mod_small. lia.
Qed.

Lemma ipc_name_make_nonzero g i : 0 < i < 64 -> ipc_name_make g i ≠ 0.
Proof. intros Hi. rewrite ipc_name_make_eq by lia. pose proof (Z.mod_pos_bound g 1024). lia. Qed.

Lemma ipc_name_index_range name : 0 <= ipc_name_index name < 64.
Proof.
  unfold ipc_name_index. change 0x3F with (Z.ones 6). rewrite Z.land_ones by lia.
  apply Z.mod_pos_bound. lia.
Qed.

(** ** Entries *)

Lemma entry_set sp idx f j :
  length (is_table sp) = 64%nat -> 0 <= idx < 64 -> 0 <= j ->
  entry (set_entry idx f sp) j = if decide (j = idx) then f (entry sp idx) else entry sp j.
Proof.
  intros Hl Hi Hj. unfold entry, set_entry. cbn. case_decide as Hd.
  - subst. rewrite list_lookup_total_insert_eq; [done|]. rewrite Hl. lia.
  - rewrite list_lookup_total_insert_ne; [done|]. lia.
Qed.

Lemma entry_same_table sp sp' j : is_table sp' = is_table sp -> entry sp' j = entry sp j.
Proof. unfold entry. by intros ->. Qed.

(** ** Well-formed name tables *)

(** The index the name [n] of a free list leads to. *)
Definition name_link (n : Z) : option Z := if n =? 0 then None else Some (ipc_name_index n).
Definition entry_link (sp : ipc_space) (idx : Z) : option Z :=
  match ie_object (entry sp idx) with OName n => name_link n | _ => None end.

(** [fl] are the freed indices, most recent first.  Indices 1 .. used-1 are
    either free or in use, and exactly the free ones carry no right. *)
Record SpaceOk (sp : ipc_space) (fl : list Z) : Prop := {
  so_length : length (is_table sp) = 64%nat;
  so_size : is_table_size sp = 64;
  so_used : 1 <= is_table_used sp <= 64;
  so_gen : forall idx, 0 <= idx < 64 -> 0 <= ie_gen (entry sp idx) < 256;
  so_chain : chain (entry_link sp) (name_link (is_free_head sp)) fl;
  so_count : is_free_count sp = Z.of_nat (length fl);
  so_free : forall idx, idx ∈ fl -> 1 <= idx < is_table_used sp /\
    forall p, ie_object (entry sp idx) ≠ OPort p;
  so_bits : forall idx, 0 <= idx < 64 ->
    ie_bits (entry sp idx) ≠ MACH_PORT_TYPE_NONE <-> 1 <= idx < is_table_used sp /\ idx ∉ fl;
  so_object : forall idx n, 0 <= idx < 64 -> ie_bits (entry sp idx) ≠ MACH_PORT_TYPE_NONE ->
    ie_object (entry sp idx) ≠ OName n
}.

Definition in_use (sp : ipc_space) (idx : Z) : Prop := ie_bits (entry sp idx) ≠ MACH_PORT_TYPE_NONE.

Lemma fresh_table_ok :
  SpaceOk (fresh_space <| is_table := replicate (Z.to_nat IPC_SPACE_INITIAL_CAPACITY)
    {| ie_object := ONull; ie_bits := MACH_PORT_TYPE_NONE; ie_urefs := 0; ie_gen := 0 |} |>) [].
Proof.
  assert (He : forall idx, 0 <= idx < 64 -> entry (fresh_space <| is_table := replicate (Z.to_nat IPC_SPACE_INITIAL_CAPACITY)
    {| ie_object := ONull; ie_bits := MACH_PORT_TYPE_NONE; ie_urefs := 0; ie_gen := 0 |} |>) idx =
    {| ie_object := ONull; ie_bits := MACH_PORT_TYPE_NONE; ie_urefs := 0; ie_gen := 0 |}).
  { intros idx Hi. unfold entry. cbn [is_table fupd]. apply lookup_total_replicate_2.
    unfold IPC_SPACE_INITIAL_CAPACITY. lia. }
  constructor; try done.
  - intros idx Hi. rewrite He by done. cbn. lia.
  - set_solver.
  - intros idx Hi. rewrite He by done. cbn. split; [done|]. lia.
  - intros idx n Hi. rewrite He by done. done.
Qed.

(** What giving out a name does: index [idx] was without rights; the entry keeps
    or bumps its generation and gets [o], [bits]. *)
Definition granted (sp : ipc_space) (sp' : ipc_space) (idx : Z) (o : object) (bits : Z) : Prop :=
  1 <= idx < 64 /\ ~ in_use sp idx /\ is_active sp' = is_active sp /\
  entry sp' idx = {| ie_object := o; ie_bits := bits; ie_urefs := 1;
                     ie_gen := ie_gen (entry sp' idx) |} /\
  (ie_gen (entry sp' idx) = ie_gen (entry sp idx) \/
   ie_gen (entry sp' idx) = u8 (ie_gen (entry sp idx) + 1)) /\
  forall j, 0 <= j < 64 -> j ≠ idx -> entry sp' j = entry sp j.

Definition grant (name : Z) (o : object) (bits : Z) (sp : ipc_space) : ipc_space :=
  set_entry (ipc_name_index name) (fun e =>
    e <| ie_object := o |> <| ie_bits := bits |> <| ie_urefs := 1 |>) sp.

Lemma free_length sp fl : SpaceOk sp fl -> (length fl <= 63)%nat.
Proof.
  intros HS. pose proof (chain_NoDup _ _ _ (so_chain _ _ HS)) as Hnd.
  pose proof (so_used _ _ HS). rewrite <- (length_map (fun x => Z.to_nat (x - 1)) fl).
  apply NoDup_below_length.
  - apply NoDup_fmap_2_strong; [|done]. intros x y Hx Hy.
    destruct (so_free _ _ HS x Hx), (so_free _ _ HS y Hy). lia.
  - intros x (y & -> & Hy)%list_elem_of_fmap. destruct (so_free _ _ HS y Hy). lia.
Qed.

Section Tables.
Variable ptr32 : nat -> Z.

Lemma object_link sp fl idx :
  SpaceOk sp fl -> idx ∈ fl ->
  name_link (object_as_name ptr32 (ie_object (entry sp idx))) = entry_link sp idx.
Proof.
  intros HS Hi. destruct (so_free _ _ HS idx Hi) as [_ Hp]. unfold entry_link.
  destruct (ie_object (entry sp idx)) as [|p|n] eqn:E; [done|by destruct (Hp p)|done].
Qed.

Lemma free_head_cons sp idx l :
  SpaceOk sp (idx :: l) ->
  is_free_head sp ≠ 0 /\ ipc_name_index (is_free_head sp) = idx /\ (idx ∉ l) /\
  chain (entry_link sp) (entry_link sp idx) l.
Proof.
  intros HS. pose proof (so_chain _ _ HS) as Hch. pose proof (chain_NoDup _ _ _ Hch) as Hnd.
  destruct Hch as [Hh Hch]. unfold name_link in Hh. destruct (Z.eqb_spec (is_free_head sp) 0); [done|].
  injection Hh as ->. apply NoDup_cons in Hnd as [Hn _]. done.
Qed.

(** Changing one entry that is on no free list of [l]. *)
Lemma chain_set_entry sp sp' idx f h l :
  length (is_table sp) = 64%nat -> 0 <= idx < 64 -> idx ∉ l -> (forall j, j ∈ l -> 0 <= j) ->
  is_table sp' = is_table (set_entry idx f sp) ->
  chain (entry_link sp) h l -> chain (entry_link sp') h l.
Proof.
  intros Hlen Hi Hn Hl Ht. apply lseg_frame. intros j Hj. unfold entry_link.
  rewrite (entry_same_table (set_entry idx f sp) sp') by done.
  rewrite entry_set, decide_False; [done| |done|done|by apply Hl]. by intros ->.
Qed.

Lemma alloc_name_free sp idx l o bits :
  SpaceOk sp (idx :: l) -> bits ≠ MACH_PORT_TYPE_NONE -> (forall n, o ≠ OName n) ->
  let '(sp', name) := space_alloc_name ptr32 sp in
  let sp'' := grant name o bits sp' in
  name ≠ 0 /\ ipc_name_index name = idx /\ SpaceOk sp'' l /\ granted sp sp'' idx o bits /\
  ipc_name_gen name = ie_gen (entry sp'' idx) /\
  ie_gen (entry sp'' idx) = u8 (ie_gen (entry sp idx) + 1) /\ is_table_used sp'' = is_table_used sp.
Proof.
  intros HS Hbits Ho. destruct (free_head_cons _ _ _ HS) as (Hnz & Hidx & Hnl & Hch).
  pose proof HS as [Hlen Hsize Hused Hgen _ Hcnt Hfree Hb Hobj].
  destruct (Hfree idx) as [Hir Hnp]; [by left|].
  unfold space_alloc_name. rewrite Hcnt. cbn [length].
  destruct (Z.ltb_spec 0 (Z.of_nat (S (length l)))); [|lia].
  destruct (Z.eqb_spec (is_free_head sp) MACH_PORT_NAME_NULL); [done|]. cbn [andb negb]. rewrite Hidx.
  set (sp1 := sp <| is_free_head := _ |> <| is_free_count ::= _ |>).
  set (g := u8 (ie_gen (entry sp idx) + 1)).
  set (sp2 := set_entry idx (fun e => e <| ie_gen ::= fun g => u8 (g + 1) |>) sp1).
  assert (He2 : forall j, 0 <= j -> entry sp2 j =
    if decide (j = idx) then (entry sp idx) <| ie_gen := g |> else entry sp j).
  { intros j Hj. unfold sp2. rewrite entry_set by (done || lia). by case_decide. }
  rewrite He2, decide_True by lia. cbn [ie_gen fupd].
  assert (Hg : 0 <= g < 256) by (unfold g; apply u8_range).
  assert (Hii : ipc_name_index (ipc_name_make g idx) = idx) by (apply ipc_name_index_make; lia).
  assert (Hgg : ipc_name_gen (ipc_name_make g idx) = g) by (apply ipc_name_gen_make; lia).
  set (sp3 := grant (ipc_name_make g idx) o bits sp2).
  assert (Hlen2 : length (is_table sp2) = 64%nat) by (cbn; by rewrite length_insert).
  assert (He3 : forall j, 0 <= j -> entry sp3 j =
    if decide (j = idx) then {| ie_object := o; ie_bits := bits; ie_urefs := 1; ie_gen := g |} else entry sp j).
  { intros j Hj. unfold sp3, grant. rewrite Hii, entry_set by (done || lia).
    case_decide as Hd; [|by rewrite He2, decide_False]. rewrite He2, decide_True by lia. done. }
  split; [apply ipc_name_make_nonzero; lia|]. split; [done|].
  assert (Hidx3 : entry sp3 idx = {| ie_object := o; ie_bits := bits; ie_urefs := 1; ie_gen := g |}).
  { by rewrite He3, decide_True by lia. }
  split; [|split; [|rewrite Hidx3; done]].
  - constructor; try done.
    + cbn. by rewrite !length_insert.
    + intros j Hj. rewrite He3 by lia. case_decide; [done|]. by apply Hgen.
    + assert (E : name_link (is_free_head sp3) = entry_link sp idx).
      { apply (object_link sp (idx :: l)); [done|by left]. }
      rewrite E. eapply lseg_frame; [|exact Hch]. intros j Hj. unfold entry_link.
      rewrite He3, decide_False; [done|by intros ->|]. destruct (Hfree j); [by right|lia].
    + cbn. rewrite Hcnt. cbn [length]. replace (Z.of_nat (S (length l)) - 1) with (Z.of_nat (length l)) by lia.
      apply u32_id. pose proof (free_length _ _ HS) as Hl. cbn [length] in Hl. lia.
    + intros j Hj. cbn. destruct (Hfree j) as [? Hp]; [by right|]. split; [done|].
      rewrite He3, decide_False; [done|by intros ->|lia].
    + intros j Hj. rewrite He3 by lia. cbn. case_decide as Hd; cbn; subst.
      * split; [done|]. done.
      * rewrite Hb, not_elem_of_cons by done. tauto.
    + intros j m Hj. rewrite He3 by lia. case_decide; cbn; [done|]. by apply Hobj.
  - unfold granted. split; [lia|]. split.
    { unfold in_use. rewrite Hb, not_elem_of_cons by lia. tauto. }
    split; [done|]. rewrite Hidx3. split; [done|]. split; [by right|].
    intros j Hj Hne. by rewrite He3, decide_False by lia.
Qed.

Lemma alloc_name_grow sp o bits :
  SpaceOk sp [] -> is_table_used sp < 64 -> bits ≠ MACH_PORT_TYPE_NONE -> (forall n, o ≠ OName n) ->
  let '(sp', name) := space_alloc_name ptr32 sp in
  let sp'' := grant name o bits sp' in
  name ≠ 0 /\ ipc_name_index name = is_table_used sp /\ SpaceOk sp'' [] /\
  granted sp sp'' (is_table_used sp) o bits /\ ipc_name_gen name = ie_gen (entry sp'' (is_table_used sp)).
Proof.
  intros HS Hlt Hbits Ho. pose proof HS as [Hlen Hsize Hused Hgen Hch Hcnt Hfree Hb Hobj].
  unfold space_alloc_name. rewrite Hcnt, Hsize. cbn [length].
  destruct (Z.ltb_spec 0 (Z.of_nat 0)); [lia|]. cbn [andb].
  destruct (Z.leb_spec 64 (is_table_used sp)); [lia|].
  set (idx := is_table_used sp) in *. set (sp1 := sp <| is_table_used ::= _ |>).
  assert (Hg : 0 <= ie_gen (entry sp idx) < 256) by (apply Hgen; lia).
  assert (Hii : ipc_name_index (ipc_name_make (ie_gen (entry sp idx)) idx) = idx)
    by (apply ipc_name_index_make; lia).
  set (sp3 := grant (ipc_name_make (ie_gen (entry sp idx)) idx) o bits sp1).
  assert (He3 : forall j, 0 <= j -> entry sp3 j = if decide (j = idx) then
    {| ie_object := o; ie_bits := bits; ie_urefs := 1; ie_gen := ie_gen (entry sp idx) |} else entry sp j).
  { intros j Hj. unfold sp3, grant. rewrite Hii, entry_set by (done || lia). by case_decide. }
  assert (Hu3 : is_table_used sp3 = idx + 1) by (cbn; apply u32_id; lia).
  assert (Hidx3 : entry sp3 idx = {| ie_object := o; ie_bits := bits; ie_urefs := 1; ie_gen := ie_gen (entry sp idx) |}).
  { by rewrite He3, decide_True by lia. }
  split; [apply ipc_name_make_nonzero; lia|]. split; [done|]. split; [|split].
  - constructor; try done.
    + cbn. by rewrite !length_insert.
    + rewrite Hu3. lia.
    + intros j Hj. rewrite He3 by lia. case_decide; [done|]. by apply Hgen.
    + intros j Hj. by apply elem_of_nil in Hj.
    + intros j Hj. rewrite He3, Hu3 by lia. case_decide as Hd; cbn; subst.
      * split; [|done]. intros _. split; [lia|apply not_elem_of_nil].
      * rewrite Hb by done. split; intros [? ?]; (split; [lia|done]).
    + intros j m Hj. rewrite He3 by lia. case_decide; cbn; [done|]. by apply Hobj.
  - unfold granted. split; [lia|]. split; [unfold in_use; rewrite Hb by lia; lia|].
    split; [done|]. rewrite Hidx3. split; [done|]. split; [by left|].
    intros j Hj Hne. by rewrite He3, decide_False by lia.
  - rewrite Hidx3. apply ipc_name_gen_make; [done|lia].
Qed.

(** A name is refused exactly when all 63 indices carry rights. *)
Lemma alloc_name_spec sp fl o bits :
  SpaceOk sp fl -> bits ≠ MACH_PORT_TYPE_NONE -> (forall n, o ≠ OName n) ->
  let '(sp', name) := space_alloc_name ptr32 sp in
  (name = 0 /\ sp' = sp /\ forall idx, 1 <= idx < 64 -> in_use sp idx) \/
  (name ≠ 0 /\ exists fl', SpaceOk (grant name o bits sp') fl' /\
     granted sp (grant name o bits sp') (ipc_name_index name) o bits /\
     ipc_name_gen name = ie_gen (entry (grant name o bits sp') (ipc_name_index name))).
Proof.
  intros HS Hbits Ho. destruct fl as [|idx l].
  - destruct (Z.ltb_spec (is_table_used sp) 64) as [Hlt|Hge].
    + pose proof (alloc_name_grow sp o bits HS Hlt Hbits Ho) as HG.
      destruct (space_alloc_name ptr32 sp) as [sp' name]. destruct HG as (? & -> & ? & ? & ?).
      right. eauto 10.
    + unfold space_alloc_name. rewrite (so_count _ _ HS), (so_size _ _ HS). cbn [length].
      destruct (Z.ltb_spec 0 (Z.of_nat 0)); [lia|]. cbn [andb].
      destruct (Z.leb_spec 64 (is_table_used sp)); [|lia]. left. split; [done|]. split; [done|].
      intros idx Hi. apply (so_bits _ _ HS); [lia|]. pose proof (so_used _ _ HS).
      split; [lia|apply not_elem_of_nil].
  - pose proof (alloc_name_free sp idx l o bits HS Hbits Ho) as HG.
    destruct (space_alloc_name ptr32 sp) as [sp' name]. destruct HG as (? & -> & ? & ? & ? & _).
    right. eauto 10.
Qed.
End Tables.

(** Returning a name: its entry loses all rights and a generation passes. *)
Lemma free_name_ok sp fl idx :
  SpaceOk sp fl -> 0 <= idx < 64 -> in_use sp idx ->
  SpaceOk (space_free_name idx sp) (idx :: fl) /\
  ~ in_use (space_free_name idx sp) idx /\
  ie_gen (entry (space_free_name idx sp) idx) = u8 (ie_gen (entry sp idx) + 1) /\
  forall j, 0 <= j < 64 -> j ≠ idx -> entry (space_free_name idx sp) j = entry sp j.
Proof.
  intros HS Hi Hu. pose proof HS as [Hlen Hsize Hused Hgen Hch Hcnt Hfree Hb Hobj].
  pose proof (proj1 (Hb idx Hi) Hu) as [Hir Hnf].
  set (g := u8 (ie_gen (entry sp idx) + 1)). assert (Hg : 0 <= g < 256) by apply u8_range.
  set (e' := {| ie_object := name_as_object (is_free_head sp); ie_bits := MACH_PORT_TYPE_NONE;
                ie_urefs := 0; ie_gen := g |}).
  unfold space_free_name. set (sp1 := set_entry idx _ sp).
  assert (He1 : forall j, 0 <= j -> entry sp1 j = if decide (j = idx) then e' else entry sp j).
  { intros j Hj. unfold sp1. rewrite entry_set by (done || lia). done. }
  set (sp2 := sp1 <| is_free_head := _ |> <| is_free_count ::= _ |>).
  assert (He2 : forall j, 0 <= j -> entry sp2 j = if decide (j = idx) then e' else entry sp j) by done.
  assert (Hidx : entry sp1 idx = e') by (by rewrite He1, decide_True by lia).
  assert (Hlink : entry_link sp2 idx = name_link (is_free_head sp)).
  { unfold entry_link. rewrite He2, decide_True by lia. cbn. unfold name_as_object, name_link.
    destruct (Z.eqb_spec (is_free_head sp) 0); [done|]. unfold name_link. by destruct (Z.eqb_spec (is_free_head sp) 0). }
  assert (Hidx2 : entry sp2 idx = e') by exact Hidx.
  split; [|split; [|split]].
  - constructor; try done.
    + cbn. by rewrite length_insert.
    + intros j Hj. rewrite He2 by lia. case_decide; [done|]. by apply Hgen.
    + split.
      * cbn. rewrite Hidx. cbn [ie_gen e']. unfold name_link.
        destruct (Z.eqb_spec (ipc_name_make g idx) 0) as [E|]; [by apply ipc_name_make_nonzero in E; [|lia]|].
        by rewrite ipc_name_index_make.
      * rewrite Hlink. eapply lseg_frame; [|exact Hch]. intros j Hj. unfold entry_link.
        destruct (Hfree j Hj) as [? _]. rewrite He2, decide_False by (lia || by intros ->). done.
    + cbn. rewrite Hcnt, u32_id; [lia|]. pose proof (free_length _ _ HS). lia.
    + intros j [->|Hj]%elem_of_cons.
      * split; [done|]. intros p. rewrite Hidx2. cbn. unfold name_as_object. by destruct (is_free_head sp =? 0).
      * destruct (Hfree j Hj) as [? Hp]. split; [done|]. intros p.
        rewrite He2, decide_False by (lia || by intros ->). apply Hp.
    + intros j Hj. rewrite He2, not_elem_of_cons by lia. case_decide as Hd; cbn; subst.
      * split; [done|]. tauto.
      * rewrite Hb by done. tauto.
    + intros j m Hj. rewrite He2 by lia. case_decide; [done|]. by apply Hobj.
  - unfold in_use. rewrite Hidx2. intros Hx. by apply Hx.
  - by rewrite Hidx2.
  - intros j Hj Hne. by rewrite He2, decide_False by lia.
Qed.

(** ** The invariant of all spaces and ports *)

Section Invariant.
Context {W : Type} `{WaitQueues W} {K : Type} `{KmsgStore K}.
Variable ptr32 : nat -> Z.
Implicit Types s : ipc W K.

(** [ipc_init] creates the space of the kernel task first. *)
Definition ipc_space_kernel : nat := 0.

(** The name a port records for its receiver is current and leads back to it. *)
Definition receives (s : ipc W K) (p i : nat) : Prop :=
  let n := ip_receiver_name (port s p) in
  let e := entry (space s i) (ipc_name_index n) in
  n ≠ MACH_PORT_NAME_NULL /\ ipc_name_gen n = ie_gen e /\ ie_object e = OPort p /\
  has (ie_bits e) MACH_PORT_TYPE_RECEIVE = true.

Record AllOk (s : ipc W K) : Prop := {
  ao_space : forall i, is_active (space s i) = true -> exists fl, SpaceOk (space s i) fl;
  ao_recv : forall p i, ip_receiver (port s p) = Some i -> is_active (space s i) = true -> receives s p i;
  ao_active : forall i, is_active (space s i) = true -> (i < s_space_next s)%nat;
  ao_bound : forall p i, ip_receiver (port s p) = Some i -> (i < s_space_next s)%nat;
  ao_next : (s_space_next s <= 256)%nat;
  ao_state : forall p i, ip_receiver (port s p) = Some i ->
    ip_state (port s p) = IPC_PORT_STATE_ACTIVE \/
    (ip_state (port s p) = IPC_PORT_STATE_SPECIAL /\ i = ipc_space_kernel)
}.

Lemma port_set_port s p f q : port (set_port p f s) q = if decide (q = p) then f (port s p) else port s q.
Proof.
  unfold port, set_port. cbn. case_decide; subst; [by rewrite lookup_total_insert_eq|].
  by rewrite lookup_total_insert_ne.
Qed.

Lemma space_set_space s i sp j : space (set_space i sp s) j = if decide (j = i) then sp else space s j.
Proof.
  unfold space, set_space. cbn. case_decide; subst; [by rewrite lookup_total_insert_eq|].
  by rewrite lookup_total_insert_ne.
Qed.

Lemma space_set_port s p f i : space (set_port p f s) i = space s i.
Proof. done. Qed.
Lemma port_set_space s i sp p : port (set_space i sp s) p = port s p.
Proof. done. Qed.

(** Only the spaces and the receivers of ports matter, and a port may always
    lose its receiver. *)
Lemma AllOk_same s s' :
  (forall i, space s' i = space s i) -> s_space_next s' = s_space_next s ->
  (forall q, ip_receiver (port s' q) = None \/
     ip_receiver (port s' q) = ip_receiver (port s q) /\
     ip_receiver_name (port s' q) = ip_receiver_name (port s q) /\
     ip_state (port s' q) = ip_state (port s q)) ->
  AllOk s -> AllOk s'.
Proof.
  intros Hsp Hn Hq [H1 H2 H3 H4 H5 H6].
  assert (Hr : forall q i, ip_receiver (port s' q) = Some i ->
    ip_receiver (port s q) = Some i /\ ip_receiver_name (port s' q) = ip_receiver_name (port s q) /\
    ip_state (port s' q) = ip_state (port s q)).
  { intros q i Hi. destruct (Hq q) as [E|(E & ? & ?)]; rewrite E in Hi; done. }
  constructor.
  - intros i. rewrite Hsp. apply H1.
  - intros q i Hi. destruct (Hr q i Hi) as (Hi' & E & _). unfold receives. rewrite Hsp, E. by apply H2.
  - intros i. rewrite Hsp, Hn. apply H3.
  - intros q i (Hi & _)%Hr. rewrite Hn. by apply (H4 q).
  - by rewrite Hn.
  - intros q i Hi. destruct (Hr q i Hi) as (Hi' & _ & ->). by apply (H6 q i).
Qed.

Lemma AllOk_ext s s' :
  s_port_arena s' = s_port_arena s -> s_space_pool s' = s_space_pool s ->
  s_space_next s' = s_space_next s -> AllOk s -> AllOk s'.
Proof.
  intros Ha Hp Hn. apply AllOk_same; [|done|].
  - unfold space. by rewrite Hp.
  - unfold port. rewrite Ha. by right.
Qed.

Lemma AllOk_set_port s p f :
  (ip_receiver (f (port s p)) = None \/
   ip_receiver (f (port s p)) = ip_receiver (port s p) /\
   ip_receiver_name (f (port s p)) = ip_receiver_name (port s p) /\
   ip_state (f (port s p)) = ip_state (port s p)) ->
  AllOk s -> AllOk (set_port p f s).
Proof.
  intros Hf. apply AllOk_same; [done|done|]. intros q. rewrite port_set_port. case_decide; subst; [done|by right].
Qed.

Lemma AllOk_set_space s i sp :
  (is_active sp = true -> is_active (space s i) = true /\ (exists fl, SpaceOk sp fl) /\
     forall p, ip_receiver (port s p) = Some i ->
       entry sp (ipc_name_index (ip_receiver_name (port s p))) =
       entry (space s i) (ipc_name_index (ip_receiver_name (port s p)))) ->
  AllOk s -> AllOk (set_space i sp s).
Proof.
  intros Hsp [H1 H2 H3 H4 H5 H6]. constructor; [..|exact H5|exact H6].
  - intros j. rewrite space_set_space. case_decide; subst; [|apply H1]. intros Ha. by apply Hsp.
  - intros p j Hr. unfold receives. rewrite space_set_space, port_set_space. case_decide; subst; [|by apply H2].
    intros Ha. destruct (Hsp Ha) as (Ha' & _ & He). rewrite He by done. by apply H2.
  - intros j. rewrite space_set_space. case_decide; subst; [|apply H3]. intros Ha. apply H3. by apply Hsp.
  - apply H4.
Qed.

Lemma AllOk_arena_alloc s : AllOk s -> AllOk (fst (port_arena_alloc s)).
Proof.
  intros HA. unfold port_arena_alloc. destruct (s_port_free_list s) as [p|].
  - apply AllOk_set_port; [by right|]. by apply (AllOk_ext s).
  - case_match; [by apply (AllOk_ext s)|done].
Qed.

Lemma AllOk_arena_free p s : AllOk s -> AllOk (port_arena_free p s).
Proof.
  intros HA. unfold port_arena_free. case_match; [done|].
  apply (AllOk_ext (set_port p (fun x => x <| ip_next := s_port_free_list s |>) s)); [done..|].
  apply AllOk_set_port; [by right|done].
Qed.

Lemma AllOk_release p s : AllOk s -> AllOk (ipc_port_release p s).
Proof.
  intros HA. unfold ipc_port_release. case_match; [apply AllOk_arena_free|];
    repeat (apply AllOk_set_port; [by right|]); done.
Qed.

Lemma AllOk_init p s : AllOk s -> AllOk (ipc_port_init_internal p s).
Proof.
  intros HA. unfold ipc_port_init_internal. set (s1 := set_port p _ s).
  apply (AllOk_ext s1); [done..|]. apply AllOk_set_port; [by left|done].
Qed.

Lemma alloc_name_active sp : is_active (fst (space_alloc_name ptr32 sp)) = is_active sp.
Proof. unfold space_alloc_name. by repeat case_match. Qed.

(** Giving out a name in space [i] disturbs no receiver. *)
Lemma grant_keeps s i sp' name o bits :
  AllOk s -> bits ≠ MACH_PORT_TYPE_NONE -> (forall n, o ≠ OName n) ->
  space_alloc_name ptr32 (space s i) = (sp', name) -> name ≠ MACH_PORT_NAME_NULL ->
  AllOk (set_space i (grant name o bits sp') s).
Proof.
  intros HA Hb Ho Ha Hn. apply AllOk_set_space; [|done]. intros Hact.
  assert (Hact0 : is_active (space s i) = true).
  { rewrite <- (alloc_name_active (space s i)), Ha. exact Hact. }
  destruct (ao_space _ HA i Hact0) as [fl HS]. pose proof (alloc_name_spec ptr32 _ fl o bits HS Hb Ho) as HG.
  rewrite Ha in HG. destruct HG as [[? _]|(_ & fl' & HS' & Hgr & _)]; [done|].
  split; [done|]. split; [eauto|]. intros p Hp.
  destruct (ao_recv _ HA p i Hp Hact0) as (_ & _ & _ & Hbits).
  destruct Hgr as (_ & Hnu & _ & _ & _ & Hoth). apply Hoth; [apply ipc_name_index_range|].
  intros E. apply Hnu. unfold in_use. rewrite <- E. intros Hz. by rewrite Hz in Hbits.
Qed.

(** A refused name leaves the space as it was, up to inactive spaces. *)
Lemma refused_keeps s i sp' :
  AllOk s -> space_alloc_name ptr32 (space s i) = (sp', MACH_PORT_NAME_NULL) -> AllOk (set_space i sp' s).
Proof.
  intros HA Ha. apply AllOk_set_space; [|done]. intros Hact.
  assert (Hact0 : is_active (space s i) = true).
  { rewrite <- (alloc_name_active (space s i)), Ha. exact Hact. }
  destruct (ao_space _ HA i Hact0) as [fl HS].
  pose proof (alloc_name_spec ptr32 _ fl ONull MACH_PORT_TYPE_PORT_SET HS) as HG.
  rewrite Ha in HG. destruct HG as [(_ & -> & _)|[? _]]; [done|done|eauto|done].
Qed.

Lemma AllOk_set_receiver s p f i n :
  AllOk s -> (i < s_space_next s)%nat -> ip_receiver (f (port s p)) = Some i ->
  ip_receiver_name (f (port s p)) = n -> n ≠ MACH_PORT_NAME_NULL ->
  ip_state (f (port s p)) = IPC_PORT_STATE_ACTIVE -> ipc_name_gen n = ie_gen (entry (space s i) (ipc_name_index n)) ->
  ie_object (entry (space s i) (ipc_name_index n)) = OPort p ->
  has (ie_bits (entry (space s i) (ipc_name_index n))) MACH_PORT_TYPE_RECEIVE = true ->
  AllOk (set_port p f s).
Proof.
  intros [H1 H2 H3 H4 H5 H6] Hi Hr Hn Hn0 Hst Hg Ho Hb. constructor; [exact H1| |exact H3| |exact H5|].
  - intros q j. unfold receives. rewrite port_set_port, space_set_port. case_decide; subst; [|apply H2].
    rewrite Hr. by intros [= <-].
  - intros q j. rewrite port_set_port. case_decide; subst; [|apply H4]. rewrite Hr. by intros [= <-].
  - intros q j. rewrite port_set_port. case_decide; subst; [by left|apply H6].
Qed.

Lemma AllOk_port_alloc i s : AllOk s -> AllOk (fst (ipc_port_alloc ptr32 i s)).
Proof.
  intros HA. unfold ipc_port_alloc. pose proof (AllOk_arena_alloc s HA) as HA1.
  destruct (port_arena_alloc s) as [s1 [p|]]; [|done]. cbn [fst] in HA1.
  pose proof (AllOk_init p s1 HA1) as HA2.
  assert (Hst : ip_state (port (ipc_port_init_internal p s1) p) = IPC_PORT_STATE_ACTIVE).
  { unfold ipc_port_init_internal, port. cbn. by rewrite lookup_total_insert_eq. }
  set (s2 := ipc_port_init_internal p s1) in *. clearbody s2.
  destruct (is_active (space s2 i)) eqn:Hact; cbn [negb]; [|by apply AllOk_arena_free].
  destruct (space_alloc_name ptr32 (space s2 i)) as [sp name] eqn:Ha.
  destruct (Z.eqb_spec name MACH_PORT_NAME_NULL) as [->|Hn].
  { apply AllOk_arena_free. by apply refused_keeps. }
  cbn [fst]. fold (grant name (OPort p) MACH_PORT_TYPE_SEND_RECEIVE sp).
  destruct (ao_space _ HA2 i Hact) as [fl HS].
  pose proof (alloc_name_spec ptr32 _ fl (OPort p) MACH_PORT_TYPE_SEND_RECEIVE HS) as HG.
  rewrite Ha in HG. destruct HG as [[? _]|(_ & fl' & HS' & (_ & _ & _ & He & _) & Hg)]; [done|done|done|].
  eapply (AllOk_set_receiver _ p _ i name); [by apply grant_keeps| |done|done|done|exact Hst|..];
    rewrite ?space_set_space, ?decide_True by done.
  - by apply (ao_active _ HA2).
  - done.
  - by rewrite He.
  - by rewrite He.
Qed.

Lemma free_name_active idx sp : is_active (space_free_name idx sp) = is_active sp.
Proof. done. Qed.

(** Freeing the name of an entry that holds [p] while [p] loses its receiver. *)
Lemma free_name_keeps s i p idx f :
  AllOk s -> 0 <= idx < 64 ->
  (is_active (space s i) = true -> in_use (space s i) idx /\ ie_object (entry (space s i) idx) = OPort p) ->
  ip_receiver (f (port s p)) = None ->
  AllOk (set_port p f (set_space i (space_free_name idx (space s i)) s)).
Proof.
  intros HA Hi Hidx Hf. pose proof HA as [H1 H2 H3 H4 H5 H6]. constructor; [..|exact H5|].
  - intros j. rewrite space_set_port, space_set_space. case_decide; subst; [|apply H1]. intros Hact.
    destruct (Hidx Hact) as [Hu _]. destruct (H1 i Hact) as [fl HS].
    destruct (free_name_ok _ _ _ HS Hi Hu) as [HS' _]. eauto.
  - intros q j. unfold receives. rewrite port_set_port, space_set_port, space_set_space, !port_set_space.
    destruct (decide (q = p)) as [->|Hq]; [by rewrite Hf|]. case_decide; subst; [|apply H2].
    intros Hr Hact. destruct (H2 q i Hr Hact) as (Hn & Hg & Ho & Hb). destruct (Hidx Hact) as [Hu Hop].
    destruct (H1 i Hact) as [fl HS]. destruct (free_name_ok _ _ _ HS Hi Hu) as (_ & _ & _ & Hoth).
    rewrite Hoth; [done|apply ipc_name_index_range|]. intros E. rewrite E, Hop in Ho. congruence.
  - intros j. rewrite space_set_port, space_set_space. case_decide; subst; apply H3.
  - intros q j. rewrite port_set_port, port_set_space. case_decide; subst; [by rewrite Hf|apply H4].
  - intros q j. rewrite port_set_port, port_set_space. case_decide; subst; [by rewrite Hf|apply H6].
Qed.

Definition clear_receiver (x : ipc_port) : ipc_port :=
  x <| ip_receiver := None |> <| ip_receiver_name := MACH_PORT_NAME_NULL |>.

(** Destroying an active port restores the invariant when it only fails for the
    receiver of that port. *)
Lemma destroy_active p s :
  AllOk (set_port p clear_receiver s) -> ip_state (port s p) = IPC_PORT_STATE_ACTIVE ->
  (forall i, ip_receiver (port s p) = Some i -> is_active (space s i) = true ->
     let e := entry (space s i) (ipc_name_index (ip_receiver_name (port s p))) in
     ipc_name_gen (ip_receiver_name (port s p)) = ie_gen e ->
     ie_bits e ≠ MACH_PORT_TYPE_NONE /\ ie_object e = OPort p) ->
  AllOk (ipc_port_destroy p s).
Proof.
  intros HA Hst Hm. unfold ipc_port_destroy, ipc_port_is_active. rewrite bool_decide_eq_true_2 by done. cbn [negb].
  set (s1 := s <| msgs ::= _ |>).
  set (s2 := set_port p _ s1).
  assert (Hr2 : ip_receiver (port s2 p) = ip_receiver (port s p) /\
                ip_receiver_name (port s2 p) = ip_receiver_name (port s p)).
  { unfold s2. rewrite port_set_port, decide_True by done. done. }
  destruct Hr2 as [Hr2 Hn2]. rewrite Hr2, Hn2.
  assert (HA2 : AllOk (set_port p clear_receiver s2)).
  { eapply AllOk_same; [..|exact HA]; [done|done|]. intros q. unfold s2.
    rewrite !port_set_port. case_decide; [by left|by right]. }
  set (s3 := match ip_receiver (port s p) with Some _ => _ | None => s2 end).
  assert (HA3 : AllOk s3).
  { unfold s3. destruct (ip_receiver (port s p)) as [i|] eqn:Hr.
    2:{ eapply AllOk_same; [..|exact HA2]; [done|done|]. intros q. rewrite port_set_port.
        case_decide; [subst; left; by rewrite Hr2|by right]. }
    set (n := ip_receiver_name (port s p)) in *. destruct (_ && _) eqn:Hc.
    - apply andb_true_iff in Hc as [_ Hg]. apply Z.eqb_eq in Hg.
      pose proof (free_name_keeps (set_port p clear_receiver s2) i p (ipc_name_index n) clear_receiver HA2
        (ipc_name_index_range n)) as HF.
      eapply AllOk_same; [..|apply HF]; [done|done| | |done].
      + intros q. rewrite !port_set_port, !port_set_space, !port_set_port. case_decide; [by left|by right].
      + intros Hact. by apply (Hm i eq_refl Hact).
    - eapply AllOk_same; [..|exact HA2]; [|done|].
      + intros j. rewrite space_set_port, space_set_space. case_decide; by subst.
      + intros q. rewrite !port_set_port, port_set_space. case_decide; [by left|by right]. }
  assert (HN3 : ip_receiver (port s3 p) = None).
  { unfold s3. destruct (ip_receiver (port s p)); [|done]. by rewrite port_set_port, decide_True. }
  clearbody s3. apply AllOk_release. set (s4 := set_port p _ s3).
  apply (AllOk_ext s4); [done..|]. apply AllOk_set_port; [by left|done].
Qed.

Lemma AllOk_destroy p s : AllOk s -> AllOk (ipc_port_destroy p s).
Proof.
  intros HA. destruct (decide (ip_state (port s p) = IPC_PORT_STATE_ACTIVE)) as [Hst|Hst].
  - apply destroy_active; [by apply AllOk_set_port; [left|]|done|].
    intros i Hr Hact e _. destruct (ao_recv _ HA p i Hr Hact) as (_ & _ & Ho & Hb). split; [|done].
    intros Hz. unfold e in Hz. by rewrite Hz in Hb.
  - unfold ipc_port_destroy, ipc_port_is_active. by rewrite bool_decide_eq_false_2.
Qed.

Lemma AllOk_create s : AllOk s -> AllOk (fst (ipc_space_create s)).
Proof.
  intros HA. unfold ipc_space_create. pose proof HA as [H1 H2 H3 H4 H5 H6].
  destruct (Nat.leb_spec 256 (s_space_next s)) as [Hge|Hlt]; cbn [fst].
  { apply (AllOk_ext s); [done..| |done]. cbn. lia. }
  constructor; unfold receives; cbn [s_space_next set_space fupd].
  - intros i. rewrite space_set_space. case_decide; [|apply H1]. intros _. exists [].
    exact fresh_table_ok.
  - intros p i. rewrite space_set_space, port_set_space. case_decide; [|apply H2].
    subst. intros Hr%H4. lia.
  - intros i. rewrite space_set_space. case_decide; [subst; cbn; lia|]. intros Hi%H3. cbn. lia.
  - intros p i Hr%H4. cbn. lia.
  - lia.
  - exact H6.
Qed.

Lemma AllOk_bare i bits s :
  bits ≠ MACH_PORT_TYPE_NONE -> AllOk s -> AllOk (fst (allocate_bare ptr32 i bits s)).
Proof.
  intros Hb HA. unfold allocate_bare.
  destruct (space_alloc_name ptr32 (space s i)) as [sp name] eqn:Ha.
  destruct (Z.eqb_spec name MACH_PORT_NAME_NULL) as [->|Hn]; cbn [fst]; [by apply refused_keeps|].
  by apply (grant_keeps s i sp name ONull bits).
Qed.

Lemma AllOk_allocate i right s : AllOk s -> AllOk (fst (mach_port_allocate_kernel ptr32 i right s)).
Proof.
  intros HA. unfold mach_port_allocate_kernel. destruct i as [i|]; [|done].
  repeat (case_match; [by apply AllOk_port_alloc || by apply AllOk_bare|]). done.
Qed.

(** Rewriting only the user reference count of an entry. *)
Lemma urefs_keeps s i idx f :
  AllOk s -> 0 <= idx < 64 -> (forall e, ie_object (f e) = ie_object e /\ ie_bits (f e) = ie_bits e /\ ie_gen (f e) = ie_gen e) ->
  AllOk (set_space i (set_entry idx f (space s i)) s).
Proof.
  intros HA Hi Hf. pose proof HA as [H1 H2 H3 H4 H5 H6].
  assert (He : is_active (space s i) = true -> forall j, 0 <= j ->
    let e := entry (set_entry idx f (space s i)) j in
    ie_object e = ie_object (entry (space s i) j) /\ ie_bits e = ie_bits (entry (space s i) j) /\
    ie_gen e = ie_gen (entry (space s i) j)).
  { intros Hact j Hj. destruct (H1 i Hact) as [fl HS]. cbv zeta.
    rewrite entry_set by (done || apply (so_length _ _ HS)). case_decide; [subst; apply Hf|done]. }
  constructor; [| | |exact H4|exact H5|exact H6].
  - intros j. rewrite space_set_space. case_decide; [subst|apply H1]. intros Hact.
    destruct (H1 i Hact) as [fl HS]. exists fl. pose proof HS as [? ? ? Hg Hc ? Hfr Hb Ho].
    constructor; try done.
    + cbn. by rewrite length_insert.
    + intros j Hj. destruct (He Hact j) as (_ & _ & ->); [lia|]. by apply Hg.
    + eapply lseg_frame; [|exact Hc]. intros j Hj. unfold entry_link.
      destruct (Hfr j Hj). destruct (He Hact j) as (-> & _); [lia|done].
    + intros j Hj. destruct (Hfr j Hj) as [? Hp]. split; [done|].
      destruct (He Hact j) as (-> & _); [lia|done].
    + intros j Hj. destruct (He Hact j) as (_ & -> & _); [lia|]. by apply Hb.
    + intros j m Hj. destruct (He Hact j) as (-> & -> & _); [lia|]. by apply Ho.
  - intros p j. unfold receives. rewrite space_set_space, port_set_space. case_decide; [subst|apply H2].
    intros Hr Hact. destruct (H2 p i Hr Hact) as (? & ? & ? & ?).
    destruct (He Hact (ipc_name_index (ip_receiver_name (port s p)))) as (-> & -> & ->); [|done].
    apply ipc_name_index_range.
  - intros j. rewrite space_set_space. case_decide; subst; apply H3.
Qed.

Lemma find_send_range p sp idx : find_send p sp = Some idx -> 1 <= idx < is_table_used sp.
Proof.
  unfold find_send. intros [[k j] [Hf ->]]%fmap_Some. apply list_find_Some in Hf as (Hk & _).
  apply list_elem_of_lookup_2, elem_of_seqZ in Hk. simpl. lia.
Qed.

Lemma AllOk_copyout i po s : AllOk s -> AllOk (fst (ipc_port_copyout_send ptr32 i po s)).
Proof.
  intros HA. unfold ipc_port_copyout_send. destruct po as [p|], i as [i|]; try done.
  case_match; [done|]. destruct (find_send p (space s i)) as [idx|] eqn:Hf; cbn [fst].
  - destruct (is_active (space s i)) eqn:Hact.
    + apply find_send_range in Hf. destruct (ao_space _ HA i Hact) as [fl HS]. pose proof (so_used _ _ HS).
      apply urefs_keeps; [done|lia|done].
    + apply AllOk_set_space; [|done]. cbn. by rewrite Hact.
  - destruct (space_alloc_name ptr32 (space s i)) as [sp name] eqn:Ha.
    destruct (Z.eqb_spec name MACH_PORT_NAME_NULL) as [->|Hn]; cbn [fst]; [by apply refused_keeps|].
    apply AllOk_set_port; [by right|]. by apply (grant_keeps s i sp name (OPort p) MACH_PORT_TYPE_SEND).
Qed.

Lemma urefs_set_space s i idx f sp : set_space i sp (set_space i (set_entry idx f (space s i)) s) = set_space i sp s.
Proof. unfold set_space, fupd. cbn [s_space_pool]. by rewrite insert_insert_eq. Qed.

(** Deallocating a name; the bootstrap port, the only special one, is received
    on by the kernel's own space, which deallocates nothing. *)
Lemma AllOk_deallocate i name s :
  AllOk s -> i ≠ Some ipc_space_kernel ->
  AllOk (fst (mach_port_deallocate_kernel i name s)).
Proof.
  intros HA Hsp. unfold mach_port_deallocate_kernel. destruct i as [i|]; [|done].
  destruct (_ || _); [done|]. destruct (name_current _ _); [cbn [negb]|done].
  set (idx := ipc_name_index name). assert (Hi : 0 <= idx < 64) by apply ipc_name_index_range. clearbody idx.
  set (e := entry (space s i) idx).
  destruct (_ || _) eqn:Hbits; [done|]. apply orb_false_iff in Hbits as [Hbits _]. apply Z.eqb_neq in Hbits.
  set (sp1 := set_entry idx (fun e => e <| ie_urefs ::= Z.pred |>) (space s i)).
  assert (HA1 : AllOk (set_space i sp1 s)) by (by apply urefs_keeps).
  destruct (_ =? 0); [|done].
  set (s1 := set_space i sp1 s) in *.
  assert (Hsi : space s1 i = sp1) by (unfold s1; by rewrite space_set_space, decide_True).
  assert (He1 : is_active (space s i) = true -> ie_bits (entry sp1 idx) = ie_bits e /\
    ie_object (entry sp1 idx) = ie_object e /\ ie_gen (entry sp1 idx) = ie_gen e).
  { intros Hact. destruct (ao_space _ HA i Hact) as [fl HS]. unfold sp1.
    rewrite entry_set, decide_True by (done || lia || apply (so_length _ _ HS)). done. }
  set (s2 := set_space i (space_free_name idx sp1) s).
  assert (E2 : s2 = set_space i (space_free_name idx (space s1 i)) s1).
  { rewrite Hsi. unfold s2, s1, sp1. by rewrite urefs_set_space. }
  (* freeing the name of an entry that is no port's receiver entry *)
  assert (Hplain : (forall p, ip_receiver (port s p) = Some i -> is_active (space s i) = true ->
      ipc_name_index (ip_receiver_name (port s p)) ≠ idx) -> AllOk s2).
  { intros Hnr. rewrite E2. apply AllOk_set_space; [|done]. rewrite Hsi. intros Hact.
    split; [done|]. destruct (ao_space _ HA1 i) as [fl HS]; [by rewrite Hsi|]. rewrite Hsi in HS.
    destruct (He1 Hact) as (Hb1 & _).
    destruct (free_name_ok sp1 fl idx HS Hi) as (HS' & _ & _ & Hoth); [unfold in_use; by rewrite Hb1|].
    split; [eauto|]. intros p Hp. apply Hoth; [apply ipc_name_index_range|]. by apply Hnr. }
  assert (Hport : forall p, port s2 p = port s p) by done.
  destruct (object_port (ie_object e)) as [p|] eqn:Hop; cbn [fst].
  2:{ apply Hplain. intros p Hr Hact E. destruct (ao_recv _ HA p i Hr Hact) as (_ & _ & Ho & _).
      rewrite E in Ho. fold e in Ho. by rewrite Ho in Hop. }
  assert (Hobj : ie_object e = OPort p) by (destruct (ie_object e); simplify_eq/=; done).
  destruct (has (ie_bits e) MACH_PORT_TYPE_RECEIVE && _) eqn:Hrcv; cbn [fst].
  - apply andb_true_iff in Hrcv as [_ Hr]. apply bool_decide_eq_true in Hr. rewrite Hport in Hr.
    apply destroy_active.
    + rewrite E2. apply free_name_keeps; [done|done| |done]. rewrite Hsi. intros Hact.
      destruct (He1 Hact) as (Hb1 & Ho1 & _). unfold in_use. rewrite Hb1, Ho1. done.
    + rewrite Hport. by destruct (ao_state _ HA p i Hr) as [|[_ ->]].
    + intros j. rewrite Hport, Hr. intros [= <-]. unfold s2. rewrite space_set_space, decide_True by done.
      intros Hact. destruct (ao_recv _ HA p i Hr Hact) as (_ & Hg & Ho & Hb).
      destruct (ao_space _ HA1 i) as [fl HS]; [by rewrite Hsi|]. rewrite Hsi in HS.
      destruct (He1 Hact) as (Hb1 & _ & Hg1).
      destruct (free_name_ok sp1 fl idx HS Hi) as (_ & _ & Hgen & Hoth); [unfold in_use; by rewrite Hb1|].
      set (m := ip_receiver_name (port s p)) in *. destruct (decide (ipc_name_index m = idx)) as [E|Hne].
      * rewrite E in *. rewrite Hgen, Hg1. fold e in Hg. intros E'. exfalso. rewrite Hg in E'.
        pose proof (so_gen _ _ HS idx Hi) as Hrange. rewrite Hg1 in Hrange. unfold u8 in E'.
        destruct (decide (ie_gen e = 255)) as [E255|]; [rewrite E255 in E'; done|].
        rewrite Z.mod_small in E' by lia. lia.
      * pose proof (ipc_name_index_range m). rewrite Hoth by done. intros _.
        unfold sp1. rewrite entry_set, decide_False by (done || lia || (destruct (ao_space _ HA i Hact) as [fl' HS']; apply (so_length _ _ HS'))).
        split; [|done]. intros Hz. by rewrite Hz in Hb.
  - assert (HA2 : AllOk s2).
    { apply Hplain. intros q Hr Hact E. destruct (ao_recv _ HA q i Hr Hact) as (_ & _ & Ho & Hb).
      rewrite E in Ho, Hb. fold e in Ho, Hb. rewrite Hobj in Ho. injection Ho as <-.
      rewrite Hb, Hport, Hr in Hrcv. by rewrite bool_decide_eq_true_2 in Hrcv. }
    case_match; cbn [fst]; apply AllOk_release; [apply AllOk_set_port; [by right|]|]; done.
Qed.

Lemma AllOk_space_destroy i s : AllOk s -> AllOk (ipc_space_destroy i s).
Proof.
  intros HA. unfold ipc_space_destroy. set (l1 := snd <$> _). set (l2 := snd <$> _). clearbody l1 l2.
  set (s1 := set_space i _ s). assert (HA1 : AllOk s1).
  { apply AllOk_set_space; [|done]. cbn [is_active fupd].
    assert (Hin : forall l sp, is_active (foldl (fun sp idx => set_entry idx (fun e =>
      e <| ie_object := ONull |> <| ie_bits := MACH_PORT_TYPE_NONE |>) sp) sp l) = is_active sp).
    { induction l as [|x l IH]; intros sp; [done|]. cbn [foldl]. by rewrite IH. }
    by rewrite Hin. }
  clearbody s1.
  assert (HA2 : AllOk (foldl (fun s p => ipc_port_destroy p s) s1 l1)).
  { clear HA. revert s1 HA1. induction l1 as [|p l IH]; intros s1 HA1; [done|].
    cbn [foldl]. apply IH. by apply AllOk_destroy. }
  revert HA2. generalize (foldl (fun s p => ipc_port_destroy p s) s1 l1). clear HA HA1.
  induction l2 as [|p l IH]; intros s2 HA2; [done|]. cbn [foldl]. apply IH. by apply AllOk_release.
Qed.

Lemma AllOk_reference p s : AllOk s -> AllOk (ipc_port_reference p s).
Proof. intros HA. apply AllOk_set_port; [by right|done]. Qed.

Lemma AllOk_register name p s : AllOk s -> AllOk (fst (mach_register_service name p s)).
Proof.
  intros HA. unfold mach_register_service. case_match; [done|].
  destruct (list_find _ _) as [[]|]; by apply (AllOk_ext s).
Qed.

(** ** Histories *)

Definition boot (w : W) (k : K) : ipc W K :=
  {| s_port_arena := ∅; s_port_arena_next := 0; s_port_free_list := None; s_space_pool := ∅;
     s_space_next := 0; s_services := []; waiters := w; msgs := k |}.

Lemma boot_ok w k : AllOk (boot w k).
Proof. constructor; try done. cbn. lia. Qed.

(** One call of the interface by some thread.  Sends and receives only touch
    the queue of a port, its waiters and the message buffers. *)
Inductive ipc_step : ipc W K -> ipc W K -> Prop :=
| step_create s : ipc_step s (fst (ipc_space_create s))
| step_space_destroy s i : ipc_step s (ipc_space_destroy i s)
| step_allocate s i right : ipc_step s (fst (mach_port_allocate_kernel ptr32 i right s))
| step_deallocate s i name :
    i ≠ Some ipc_space_kernel -> ipc_step s (fst (mach_port_deallocate_kernel i name s))
| step_copyout s i p : ipc_step s (fst (ipc_port_copyout_send ptr32 i p s))
| step_destroy s p : ipc_step s (ipc_port_destroy p s)
| step_reference s p : ipc_step s (ipc_port_reference p s)
| step_release s p : ipc_step s (ipc_port_release p s)
| step_register s name p : ipc_step s (fst (mach_register_service name p s))
| step_queue s p q w k :
    ipc_step s ((set_port p (fun x => x <| ip_messages := q |>) s) <| waiters := w |> <| msgs := k |>).

Lemma step_ok s s' : ipc_step s s' -> AllOk s -> AllOk s'.
Proof.
  intros Hs HA. destruct Hs.
  - by apply AllOk_create.
  - by apply AllOk_space_destroy.
  - by apply AllOk_allocate.
  - by apply AllOk_deallocate.
  - by apply AllOk_copyout.
  - by apply AllOk_destroy.
  - by apply AllOk_reference.
  - by apply AllOk_release.
  - by apply AllOk_register.
  - apply (AllOk_ext (set_port p (fun x => x <| ip_messages := q |>) s)); [done..|].
    apply AllOk_set_port; [by right|done].
Qed.

(** The port a successful [ipc_port_alloc] leaves in slot [p]. *)
Definition new_port (i : nat) (name : Z) (x : ipc_port) : ipc_port :=
  {| ip_signature := CHIMERA_IPC_PORT_MAGIC; ip_references := 1; ip_state := IPC_PORT_STATE_ACTIVE;
     ip_srights := 1; ip_sorights := 0; ip_receiver := Some i; ip_receiver_name := name;
     ip_messages := empty_mqueue; ip_next := None; ip_kobject := ip_kobject x; ip_kotype := ip_kotype x |}.

Lemma arena_alloc_frame s s' p :
  port_arena_alloc s = (s', p) ->
  (forall i, space s' i = space s i) /\ forall q, p ≠ Some q -> port s' q = port s q.
Proof.
  unfold port_arena_alloc. destruct (s_port_free_list s) as [r|].
  - intros [= <- <-]. split; [done|]. intros q Hq. rewrite port_set_port, decide_False; [done|congruence].
  - case_match; by intros [= <- <-].
Qed.

Lemma port_init_internal p s q :
  port (ipc_port_init_internal p s) q = if decide (q = p) then
    (port s p) <| ip_signature := CHIMERA_IPC_PORT_MAGIC |> <| ip_references := 1 |>
      <| ip_state := IPC_PORT_STATE_ACTIVE |> <| ip_srights := 0 |> <| ip_sorights := 0 |>
      <| ip_receiver := None |> <| ip_receiver_name := MACH_PORT_NAME_NULL |>
      <| ip_next := None |> <| ip_messages := empty_mqueue |> else port s q.
Proof. exact (port_set_port s p _ q). Qed.

(** Everything a successful allocation does. *)
Lemma port_alloc_success s i s' name :
  AllOk s -> ipc_port_alloc ptr32 i s = (s', (CHIMERA_SUCCESS, name)) ->
  exists p x, snd (port_arena_alloc s) = Some p /\ is_active (space s i) = true /\ name ≠ 0 /\
    granted (space s i) (space s' i) (ipc_name_index name) (OPort p) MACH_PORT_TYPE_SEND_RECEIVE /\
    (exists fl, SpaceOk (space s' i) fl) /\
    ipc_name_gen name = ie_gen (entry (space s' i) (ipc_name_index name)) /\
    (forall j, j ≠ i -> space s' j = space s j) /\ (forall q, q ≠ p -> port s' q = port s q) /\
    port s' p = new_port i name x.
Proof.
  intros HA. unfold ipc_port_alloc. destruct (port_arena_alloc s) as [s1 [p|]] eqn:Ea; [|done].
  destruct (arena_alloc_frame _ _ _ Ea) as [Hsp Hpo].
  assert (Hact : space (ipc_port_init_internal p s1) i = space s i) by apply Hsp. rewrite Hact.
  destruct (is_active (space s i)) eqn:Ei; cbn [negb]; [|done].
  destruct (ao_space _ HA i Ei) as [fl HS].
  pose proof (alloc_name_spec ptr32 _ fl (OPort p) MACH_PORT_TYPE_SEND_RECEIVE HS) as HG.
  destruct (space_alloc_name ptr32 (space s i)) as [sp n]. destruct (Z.eqb_spec n MACH_PORT_NAME_NULL); [done|].
  destruct HG as [[? _]|(_ & fl' & HS' & Hgr & Hg)]; [done|done|done|]. intros [= <- <-].
  exists p, (port s1 p). rewrite !space_set_port, !space_set_space, decide_True by done.
  do 4 (split; [done|]). split; [eauto|]. split; [done|]. split; [|split].
  - intros j Hj. rewrite space_set_port, space_set_space, decide_False by done. apply Hsp.
  - intros q Hq. rewrite port_set_port, decide_False, port_set_space by done.
    rewrite port_init_internal, decide_False by done. apply Hpo. congruence.
  - rewrite port_set_port, decide_True, port_set_space by done.
    by rewrite port_init_internal, decide_True by done.
Qed.

(** The bootstrap port. *)
Lemma AllOk_ipc_init w k s p : ipc_init ptr32 (boot w k) = Some (s, p) -> AllOk s.
Proof.
  unfold ipc_init. pose proof (AllOk_create _ (boot_ok w k)) as HA1.
  destruct (ipc_space_create (boot w k)) as [s1 r] eqn:Hc. cbn [fst] in HA1.
  injection Hc as <- <-. set (s1 := set_space 0%nat _ _) in *.
  pose proof (AllOk_port_alloc 0%nat s1 HA1) as HA2.
  destruct (ipc_port_alloc ptr32 0%nat s1) as [s2 [[] name]] eqn:Ea; try done. cbn [fst] in HA2.
  destruct (port_alloc_success s1 0 s2 name HA1 Ea) as (q & x & _ & _ & _ & (_ & _ & _ & He & _) & _ & _ & _ & _ & Hq).
  rewrite He. cbn [ie_object object_port]. intros [= <- <-].
  destruct HA2 as [H1 H2 H3 H4 H5 H6]. constructor; try done.
  - intros r i. unfold receives. rewrite port_set_port, space_set_port.
    case_decide; [subst|apply H2]. apply (H2 q).
  - intros r i. rewrite port_set_port. case_decide; [subst|apply H4]. by apply (H4 q).
  - intros r i. rewrite port_set_port. case_decide; [subst|apply H6]. rewrite Hq. cbn.
    intros [= <-]. by right.
Qed.

(** States of the running kernel. *)
Definition running (s : ipc W K) : Prop :=
  exists w k s0 p, ipc_init ptr32 (boot w k) = Some (s0, p) /\ rtc ipc_step s0 s.

Lemma running_ok s : running s -> AllOk s.
Proof.
  intros (w & k & s0 & p & Hi & Hs). eapply rtc_invariant; [exact step_ok|exact Hs|].
  by eapply AllOk_ipc_init.
Qed.
End Invariant.
End IpcPort.
