(* ===== verification/IpcSpec.v ===== *)
(** * What the port interface promises

    Theorems about the operations of [IpcPort]: names resolve to the port they
    were given for, rights are enforced, death of a receive right cuts off every
    sender, and the limits of the generation counters and reference counts. *)

From S2P Require Import Prelude Kmsg IpcPort.
Import IpcPort.

Module IpcSpec.

Section Spec.
Context {W : Type} `{WaitQueues W} {K : Type} `{KmsgStore K}.
Variable ptr32 : nat -> Z.
Implicit Types s : ipc W K.

(** ** Resolution of a name, without the table bounds *)

(** Name [n] of space [i] leads to port [p] and carries one of the rights [r]. *)
Definition resolves (s : ipc W K) (i : nat) (n r : Z) (p : nat) : Prop :=
  let e := entry (space s i) (ipc_name_index n) in
  is_active (space s i) = true /\ ipc_name_gen n = ie_gen e /\ ie_bits e ≠ MACH_PORT_TYPE_NONE /\
  (r = 0 \/ has (ie_bits e) r = true) /\ ie_object e = OPort p /\ ip_state (port s p) = IPC_PORT_STATE_ACTIVE.

Lemma lookup_resolves s i n r p :
  (is_active (space s i) = true -> exists fl, SpaceOk (space s i) fl) ->
  ipc_port_lookup (Some i) n r s = Some p <-> n ≠ 0 /\ resolves s i n r p.
Proof.
  intros HS. unfold ipc_port_lookup, resolves, ipc_port_is_active, MACH_PORT_NAME_NULL.
  pose proof (ipc_name_index_range n) as Hidx.
  destruct (Z.eqb_spec n 0) as [->|Hn]; cbn [orb]; [split; [done|by intros [? _]]|].
  destruct (is_active (space s i)) eqn:Hact; cbn [negb].
  2:{ split; [by repeat case_match|by intros (_ & ? & _)]. }
  destruct HS as [fl HS]; [done|]. pose proof (so_gen _ _ HS _ Hidx) as Hgen.
  destruct (Z.eqb_spec n MACH_PORT_NAME_DEAD) as [->|Hd].
  { split; [done|]. intros (_ & _ & E & _). rewrite <- E in Hgen. change (ipc_name_gen MACH_PORT_NAME_DEAD) with 1023 in Hgen. lia. }
  pose proof (so_bits _ _ HS _ Hidx) as Hb. rewrite (so_size _ _ HS).
  set (e := entry (space s i) (ipc_name_index n)) in *.
  destruct (Z.leb_spec 64 (ipc_name_index n)); [lia|]. cbn [orb].
  destruct (Z.leb_spec (is_table_used (space s i)) (ipc_name_index n)).
  { split; [done|]. intros (_ & _ & _ & Hu & _). apply Hb in Hu. lia. }
  destruct (Z.eqb_spec (ie_bits e) MACH_PORT_TYPE_NONE); cbn [orb]; [naive_solver|].
  destruct (Z.eqb_spec (ipc_name_gen n) (ie_gen e)); cbn [negb]; [|naive_solver].
  destruct (negb (r =? 0) && negb (has (ie_bits e) r)) eqn:Hr.
  - apply andb_true_iff in Hr as [Hr0 Hr]. apply negb_true_iff in Hr0, Hr. apply Z.eqb_neq in Hr0.
    split; [done|]. intros (_ & _ & _ & _ & [?|?] & _); congruence.
  - assert (Hr' : r = 0 \/ has (ie_bits e) r = true).
    { apply andb_false_iff in Hr as [Hr|Hr]; apply negb_false_iff in Hr; [left; by apply Z.eqb_eq|by right]. }
    split.
    + destruct (ie_object e) as [|q|m]; cbn [object_port]; [done| |done].
      case_bool_decide; [|done]. by intros [= <-].
    + intros (_ & _ & _ & _ & _ & Ho & Hst). rewrite Ho. cbn [object_port]. by rewrite bool_decide_eq_true_2.
Qed.

Lemma lookup_ok s j n r p :
  AllOk s -> ipc_port_lookup j n r s = Some p <-> exists i, j = Some i /\ n ≠ 0 /\ resolves s i n r p.
Proof.
  intros HA. destruct j as [i|].
  - rewrite (lookup_resolves s i n r p) by apply (ao_space _ HA). naive_solver.
  - naive_solver.
Qed.

(** Two states resolve names to [q] alike. *)
Definition same_names (s s' : ipc W K) (q : nat) : Prop :=
  forall j n r, ipc_port_lookup j n r s' = Some q <-> ipc_port_lookup j n r s = Some q.

(** Spaces that differ in an entry that leads, before and after, only to [p]
    or nowhere, and ports that agree except on [p]. *)
Lemma same_names_frame s s' p :
  AllOk s -> AllOk s' ->
  (forall q, q ≠ p -> ip_state (port s' q) = ip_state (port s q)) ->
  (forall j, is_active (space s' j) = is_active (space s j)) ->
  (forall j idx, is_active (space s j) = true -> 0 <= idx < 64 ->
     let e := entry (space s j) idx in let e' := entry (space s' j) idx in
     (ie_bits e' = ie_bits e /\ ie_gen e' = ie_gen e /\ ie_object e' = ie_object e) \/
     ((ie_bits e = MACH_PORT_TYPE_NONE \/ ie_object e = OPort p) /\
      (ie_bits e' = MACH_PORT_TYPE_NONE \/ ie_object e' = OPort p))) ->
  forall q, q ≠ p -> same_names s s' q.
Proof.
  intros HA HA' Hst Hact He q Hq j n r. rewrite !lookup_ok by done.
  f_equiv. intros i. f_equiv. f_equiv. unfold resolves. rewrite Hact, (Hst q Hq).
  destruct (is_active (space s i)) eqn:Hi; [|naive_solver].
  destruct (He i (ipc_name_index n) Hi (ipc_name_index_range n)) as [(-> & -> & ->)|[Hb Hb']]; [done|].
  split; intros (_ & _ & ? & _ & ? & _); [destruct Hb'|destruct Hb]; congruence.
Qed.

(** ** Receivers *)

(** C26: in every state of the running kernel the name a live port records for
    its receiver resolves, with the receive right, to that port, and no two
    ports are received on under one name. *)
Theorem receive_names_resolve s p i :
  running ptr32 s -> ip_receiver (port s p) = Some i -> is_active (space s i) = true ->
  ip_state (port s p) = IPC_PORT_STATE_ACTIVE ->
  ipc_port_lookup (Some i) (ip_receiver_name (port s p)) MACH_PORT_TYPE_RECEIVE s = Some p /\
  forall q, ip_receiver (port s q) = Some i -> ip_receiver_name (port s q) = ip_receiver_name (port s p) -> q = p.
Proof.
  intros HA%running_ok Hr Hact Hst. destruct (ao_recv _ HA p i Hr Hact) as (Hn & Hg & Ho & Hb). split.
  - apply lookup_ok; [done|]. exists i. split; [done|]. split; [done|]. unfold resolves.
    do 2 (split; [done|]). split; [|by eauto]. intros E. by rewrite E in Hb.
  - intros q Hq E. destruct (ao_recv _ HA q i Hq Hact) as (_ & _ & Hoq & _). rewrite E in Hoq. congruence.
Qed.

(** ** Allocation *)

Lemma granted_entry sp sp' idx o bits j :
  granted sp sp' idx o bits -> 0 <= j < 64 ->
  (j = idx /\ ie_bits (entry sp j) = MACH_PORT_TYPE_NONE /\ ie_object (entry sp' j) = o /\
     ie_bits (entry sp' j) = bits) \/ (j ≠ idx /\ entry sp' j = entry sp j).
Proof.
  intros (_ & Hnu & _ & He & _ & Hoth) Hj. destruct (decide (j = idx)) as [->|Hne].
  - left. split; [done|]. rewrite He. unfold in_use in Hnu. split; [|done].
    destruct (decide (ie_bits (entry sp idx) = MACH_PORT_TYPE_NONE)); [done|]. by destruct Hnu.
  - right. split; [done|]. by apply Hoth.
Qed.

Lemma granted_same_names s s' i idx p bits :
  AllOk s -> AllOk s' -> (forall q, q ≠ p -> ip_state (port s' q) = ip_state (port s q)) ->
  (forall j, j ≠ i -> space s' j = space s j) -> granted (space s i) (space s' i) idx (OPort p) bits ->
  forall q, q ≠ p -> same_names s s' q.
Proof.
  intros HA HA' Hp Hj Hg. apply same_names_frame; [done|done|done| |].
  - intros j. destruct (decide (j = i)) as [->|]; [by destruct Hg as (_ & _ & -> & _)|by rewrite Hj].
  - intros j k Hact Hk. destruct (decide (j = i)) as [->|]; [|rewrite Hj by done; by left].
    destruct (granted_entry _ _ _ _ _ k Hg Hk) as [(_ & ? & ? & _)|(_ & ->)]; [right|by left].
    split; [by left|by right].
Qed.

(** The errors of [ipc_port_alloc] and what they leave behind. *)
Lemma port_alloc_error s i s' err name :
  AllOk s -> ipc_port_alloc ptr32 i s = (s', (err, name)) -> err ≠ CHIMERA_SUCCESS ->
  (forall j, space s' j = space s j) /\
  (forall q, snd (port_arena_alloc s) ≠ Some q -> port s' q = port s q) /\
  ((err = CHIMERA_ERR_INVALID /\ is_active (space s i) = false) \/
   (err = CHIMERA_ERR_NOMEM /\ (snd (port_arena_alloc s) = None \/
      forall idx, 1 <= idx < 64 -> in_use (space s i) idx))).
Proof.
  intros HA. unfold ipc_port_alloc. destruct (port_arena_alloc s) as [s1 [p|]] eqn:Ea; cbn [snd].
  2:{ intros [= <- <- <-] _. destruct (arena_alloc_frame _ _ _ Ea) as [? Hpo].
      split; [done|]. split; [done|]. right. eauto. }
  destruct (arena_alloc_frame _ _ _ Ea) as [Hsp Hpo].
  assert (Hini : forall j, space (ipc_port_init_internal p s1) j = space s j) by apply Hsp.
  assert (Hfree : forall s2, (forall q, port s2 q = port (ipc_port_init_internal p s1) q) ->
    forall q, Some p ≠ Some q -> port (port_arena_free p s2) q = port s q).
  { intros s2 E q Hq. unfold port_arena_free. case_match.
    - rewrite E, port_init_internal, decide_False by congruence. by apply Hpo.
    - change (port (set_port p (fun x => x <| ip_next := s_port_free_list s2 |>) s2) q = port s q).
      rewrite port_set_port, decide_False, E, port_init_internal, decide_False by congruence. by apply Hpo. }
  assert (Hfs : forall s2 j, space (port_arena_free p s2) j = space s2 j).
  { intros s2 j. unfold port_arena_free. by case_match. }
  rewrite Hini. destruct (is_active (space s i)) eqn:Hact; cbn [negb].
  2:{ intros [= <- <- <-] _. split; [intros j; by rewrite Hfs|]. split; [by apply Hfree|]. by left. }
  destruct (ao_space _ HA i Hact) as [fl HS].
  pose proof (alloc_name_spec ptr32 _ fl (OPort p) MACH_PORT_TYPE_SEND_RECEIVE HS) as HG.
  destruct (space_alloc_name ptr32 (space s i)) as [sp n].
  destruct (Z.eqb_spec n MACH_PORT_NAME_NULL) as [->|]; [|by intros [= <- <- <-]].
  destruct HG as [(_ & -> & Hall)|[? _]]; [done|done| |done].
  intros [= <- <- <-] _. split; [|split; [by apply Hfree|right; eauto]].
  intros j. rewrite Hfs, space_set_space. case_decide; [by subst|apply Hini].
Qed.

(** [ipc_port_alloc] on every branch.  On success the new name resolves to
    a fresh port with an empty queue, one reference and both rights; it fails
    only for an inactive space, an exhausted arena or a space whose 63 indices
    are all in use; and no name of any space that led to another port is
    affected, nor does any new name lead to one. *)
Theorem ipc_port_alloc_spec s i :
  running ptr32 s ->
  let '(s', (err, name)) := ipc_port_alloc ptr32 i s in
  (forall q, snd (port_arena_alloc s) ≠ Some q -> same_names s s' q) /\
  match err with
  | CHIMERA_SUCCESS => exists p, snd (port_arena_alloc s) = Some p /\
      (forall r, r ∈ [0; MACH_PORT_TYPE_SEND; MACH_PORT_TYPE_RECEIVE] ->
         ipc_port_lookup (Some i) name r s' = Some p) /\
      ip_messages (port s' p) = empty_mqueue /\ ip_references (port s' p) = 1
  | CHIMERA_ERR_INVALID => is_active (space s i) = false
  | CHIMERA_ERR_NOMEM => snd (port_arena_alloc s) = None \/
      forall idx, 1 <= idx < 64 -> in_use (space s i) idx
  | _ => False
  end.
Proof.
  intros HA%running_ok. pose proof (AllOk_port_alloc ptr32 i s HA) as HA'.
  destruct (ipc_port_alloc ptr32 i s) as [s' [err name]] eqn:Ea. cbn [fst] in HA'.
  destruct (decide (err = CHIMERA_SUCCESS)) as [->|Herr].
  - destruct (port_alloc_success ptr32 s i s' name HA Ea) as (p & x & Hp & Hact & Hn & Hg & _ & Hgen & Hj & Hq & Hx).
    rewrite Hp. split.
    + intros q Hne. eapply granted_same_names; [done|done| |done|exact Hg|congruence]. intros r Hr. by rewrite Hq.
    + exists p. split; [done|]. rewrite Hx. split; [|done]. intros r Hr. apply lookup_ok; [done|].
      exists i. split; [done|]. split; [done|]. unfold resolves. rewrite Hx.
      destruct Hg as (_ & _ & -> & He & _). rewrite He in *. cbn [ie_bits ie_gen ie_object].
      do 3 (split; [done|]). split; [|done]. rewrite !elem_of_cons, elem_of_nil in Hr.
      destruct Hr as [->|[->|[->|[]]]]; [by left|by right..].
  - destruct (port_alloc_error _ _ _ _ _ HA Ea Herr) as (Hs & Hp & Hcase). split.
    + intros q Hq j n r. rewrite !lookup_ok by done. f_equiv. intros k. unfold resolves.
      by rewrite (Hs k), (Hp q Hq).
    + by destruct Hcase as [[-> ?]|[-> ?]].
Qed.

(** ** Copying a send right into a space *)

Lemma urefs_same_names s i idx f :
  AllOk s -> 0 <= idx < 64 -> (forall e, ie_object (f e) = ie_object e /\ ie_bits (f e) = ie_bits e /\ ie_gen (f e) = ie_gen e) ->
  forall q, same_names s (set_space i (set_entry idx f (space s i)) s) q.
Proof.
  intros HA Hi Hf q. apply (same_names_frame _ _ (S q)); [done|by apply urefs_keeps|done| | |lia].
  - intros j. rewrite space_set_space. by case_decide; subst.
  - intros j k Hact Hk. rewrite space_set_space. case_decide; subst; [|by left].
    destruct (ao_space _ HA i Hact) as [fl HS]. cbv zeta.
    rewrite entry_set by (done || lia || apply (so_length _ _ HS)).
    case_decide; [subst|by left]. destruct (Hf (entry (space s i) idx)) as (-> & -> & ->). by left.
Qed.

Lemma index_gen_zero idx : 0 <= idx < 64 -> ipc_name_index idx = idx /\ ipc_name_gen idx = 0.
Proof.
  intros Hi. unfold ipc_name_index, ipc_name_gen. change 0x3F with (Z.ones 6). change 0x3FF with (Z.ones 10).
  rewrite !Z.land_ones, Z.shiftr_div_pow2 by lia. rewrite (Z.mod_small idx), (Z.div_small idx) by (change (2 ^ 6) with 64; lia).
  done.
Qed.

Lemma find_send_entry p sp idx :
  find_send p sp = Some idx -> ie_object (entry sp idx) = OPort p /\ has (ie_bits (entry sp idx)) MACH_PORT_TYPE_SEND = true.
Proof.
  unfold find_send. intros (x & Hx & ->)%fmap_Some. destruct x as [k idx].
  by apply list_find_Some in Hx as (_ & ? & _).
Qed.

(** [ipc_port_copyout_send] of a live port into an active space.  The
    receiver gets its own name; a first copy gets a name that sends but does
    not receive, unless all 63 indices are in use; a further copy bumps the
    user references but returns the bare table index, which names the port only
    while the generation of the entry is still 0.  No branch takes a reference
    on the port. *)
Theorem ipc_port_copyout_send_spec s i p :
  running ptr32 s -> is_active (space s i) = true -> ip_state (port s p) = IPC_PORT_STATE_ACTIVE ->
  let '(s', name) := ipc_port_copyout_send ptr32 (Some i) (Some p) s in
  ip_references (port s' p) = ip_references (port s p) /\ (forall q, q ≠ p -> same_names s s' q) /\
  ((ip_receiver (port s p) = Some i /\ s' = s /\ ipc_port_lookup (Some i) name MACH_PORT_TYPE_RECEIVE s' = Some p) \/
   (name = MACH_PORT_NAME_NULL /\ forall idx, 1 <= idx < 64 -> in_use (space s i) idx) \/
   (find_send p (space s i) = None /\ ipc_port_lookup (Some i) name MACH_PORT_TYPE_SEND s' = Some p /\
      ipc_port_lookup (Some i) name MACH_PORT_TYPE_RECEIVE s' = None) \/
   (exists idx, find_send p (space s i) = Some idx /\ name = idx /\
      (ipc_port_lookup (Some i) name MACH_PORT_TYPE_SEND s' = Some p <-> ie_gen (entry (space s i) idx) = 0))).
Proof.
  intros HA%running_ok Hact Hst. pose proof (AllOk_copyout ptr32 (Some i) (Some p) s HA) as HA'.
  unfold ipc_port_copyout_send in *. destruct (bool_decide_reflect (ip_receiver (port s p) = Some i)) as [Hr|Hr].
  { split; [done|]. split; [done|]. left. split; [done|]. split; [done|]. apply lookup_ok; [done|].
    destruct (ao_recv _ HA p i Hr Hact) as (Hn & Hg & Ho & Hb). exists i. split; [done|]. split; [done|].
    unfold resolves. do 2 (split; [done|]). split; [|by eauto]. intros E. by rewrite E in Hb. }
  destruct (ao_space _ HA i Hact) as [fl HS].
  destruct (find_send p (space s i)) as [idx|] eqn:Hf.
  - pose proof (find_send_range _ _ _ Hf) as Hi. pose proof (so_used _ _ HS) as Hu. split; [done|]. split.
    { intros q _. apply urefs_same_names; [done|lia|done]. }
    do 3 right. exists idx. split; [done|]. split; [done|].
    etrans; [apply urefs_same_names; [done|lia|done]|]. rewrite lookup_ok by done.
    destruct (find_send_entry _ _ _ Hf) as [Ho Hb]. destruct (index_gen_zero idx) as [Hii Hig]; [lia|].
    unfold resolves. split.
    + intros (j & [= <-] & _ & _ & Hg & _). by rewrite Hii, Hig in Hg.
    + intros Hg. exists i. rewrite Hii, Hig. split; [done|]. split; [lia|]. do 2 (split; [done|]).
      split; [|by eauto]. intros E. by rewrite E in Hb.
  - pose proof (alloc_name_spec ptr32 _ fl (OPort p) MACH_PORT_TYPE_SEND HS) as HG.
    destruct (space_alloc_name ptr32 (space s i)) as [sp n].
    destruct (Z.eqb_spec n MACH_PORT_NAME_NULL) as [Hn|Hn].
    + destruct HG as [(_ & -> & Hall)|[? _]]; [done|done| |done]. cbn [fst] in HA'.
      split; [done|]. split; [|by eauto]. intros q _ j m r. rewrite !lookup_ok by done. f_equiv. intros k.
      unfold resolves. rewrite space_set_space, port_set_space. by case_decide; subst.
    + destruct HG as [[? _]|(_ & fl' & HS' & Hgr & Hg)]; [done|done|done|]. cbn [fst] in HA'.
      fold (grant n (OPort p) MACH_PORT_TYPE_SEND sp) in HA' |- *.
      set (s1 := set_space i (grant n (OPort p) MACH_PORT_TYPE_SEND sp) s) in *.
      assert (Hsi : space s1 i = grant n (OPort p) MACH_PORT_TYPE_SEND sp) by (unfold s1; by rewrite space_set_space, decide_True).
      rewrite <- Hsi in Hgr, Hg. split; [by rewrite port_set_port, decide_True|]. split.
      * eapply (granted_same_names _ _ i); [done|done| | |exact Hgr].
        -- intros q Hq. by rewrite port_set_port, decide_False.
        -- intros j Hj. rewrite space_set_port. unfold s1. by rewrite space_set_space, decide_False.
      * do 2 right. left. split; [done|]. destruct Hgr as (_ & _ & Ha' & He & _). rewrite He in Hg. split.
        -- apply lookup_ok; [done|]. exists i. split; [done|]. split; [done|]. unfold resolves.
           rewrite space_set_port, Ha', He, port_set_port, decide_True by done. do 3 (split; [done|]).
           split; [by right|done].
        -- apply eq_None_not_Some. intros [q (j & [= <-] & _ & Hres)%lookup_ok]; [|done].
           destruct Hres as (_ & _ & _ & [?|Hr'] & _); [done|]. rewrite space_set_port, He in Hr'. done.
Qed.

(** ** Death of ports and names *)

Lemma release_frame p s :
  (forall j, space (ipc_port_release p s) j = space s j) /\
  (forall q, ip_state (port (ipc_port_release p s) q) = ip_state (port s q)) /\
  (forall q, q ≠ p -> port (ipc_port_release p s) q = port s q).
Proof.
  assert (Hset : forall f s, (forall x, ip_state (f x) = ip_state x) ->
    (forall q, ip_state (port (set_port p f s) q) = ip_state (port s q)) /\
    (forall q, q ≠ p -> port (set_port p f s) q = port s q)).
  { intros f s0 Hf. split; intros q; rewrite port_set_port; case_decide; subst; done. }
  unfold ipc_port_release. set (s1 := set_port p _ s).
  destruct (Hset (fun x => x <| ip_references ::= fun n => u32 (n - 1) |>) s) as [H1 H2]; [done|]. fold s1 in H1, H2.
  destruct (_ =? 1); [|done]. set (s2 := set_port p _ s1).
  destruct (Hset (fun x => x <| ip_signature := 0xDEADDEADDEADDEAD |>) s1) as [H3 H4]; [done|]. fold s2 in H3, H4.
  assert (Hs2 : (forall j, space s2 j = space s j) /\ (forall q, ip_state (port s2 q) = ip_state (port s q)) /\
    (forall q, q ≠ p -> port s2 q = port s q)).
  { split; [done|]. split; [intros q; by rewrite H3, H1|]. intros q Hq. by rewrite H4, H2. }
  clearbody s2. unfold port_arena_free. case_match; [done|].
  destruct (Hset (fun x => x <| ip_next := s_port_free_list s2 |>) s2) as [Ha Hb]; [done|].
  destruct Hs2 as (? & Hc & Hd). split; [done|]. split; [intros q; etrans; [apply Ha|apply Hc]|].
  intros q Hq. etrans; [by apply Hb|by apply Hd].
Qed.

(** [ipc_port_destroy] of a live port: the port is dead, and the only name it
    takes away is the receiver's, if still current. *)
Lemma destroy_effect p s :
  ip_state (port s p) = IPC_PORT_STATE_ACTIVE ->
  let s' := ipc_port_destroy p s in
  let n := ip_receiver_name (port s p) in
  ip_state (port s' p) = IPC_PORT_STATE_DEAD /\ (forall q, q ≠ p -> port s' q = port s q) /\
  forall j, space s' j = space s j \/
    (ip_receiver (port s p) = Some j /\ ipc_name_gen n = ie_gen (entry (space s j) (ipc_name_index n)) /\
     space s' j = space_free_name (ipc_name_index n) (space s j)).
Proof.
  intros Hst. unfold ipc_port_destroy, ipc_port_is_active. rewrite bool_decide_eq_true_2 by done. cbn [negb].
  set (s1 := s <| msgs ::= _ |>). set (s2 := set_port p _ s1).
  assert (Hr2 : ip_receiver (port s2 p) = ip_receiver (port s p) /\
                ip_receiver_name (port s2 p) = ip_receiver_name (port s p)).
  { unfold s2. rewrite port_set_port, decide_True by done. done. }
  destruct Hr2 as [Hr2 Hn2]. rewrite Hr2, Hn2.
  assert (Ho2 : forall q, q ≠ p -> port s2 q = port s q).
  { intros q Hq. unfold s2. by rewrite port_set_port, decide_False. }
  assert (Hs2 : forall j, space s2 j = space s j) by done. clearbody s2.
  set (n := ip_receiver_name (port s p)). set (s3 := match ip_receiver (port s p) with Some _ => _ | None => s2 end).
  assert (Hs3 : (forall q, q ≠ p -> port s3 q = port s q) /\ forall j, space s3 j = space s j \/
    (ip_receiver (port s p) = Some j /\ ipc_name_gen n = ie_gen (entry (space s j) (ipc_name_index n)) /\
     space s3 j = space_free_name (ipc_name_index n) (space s j))).
  { unfold s3. clear s3. destruct (ip_receiver (port s p)) as [i|]; [|split; [done|by left]]. split.
    - intros q Hq. rewrite port_set_port, decide_False, port_set_space by done. by apply Ho2.
    - intros j. cbv zeta. rewrite space_set_port, space_set_space, !Hs2. case_decide; [subst|by left].
      destruct (negb _ && _ && _) eqn:Hc; [|by left]. apply andb_true_iff in Hc as [_ Hc]. apply Z.eqb_eq in Hc. by right. }
  clearbody s3. destruct Hs3 as [Hs3 Hs3']. set (s4 := _ <| waiters ::= _ |>).
  destruct (release_frame p s4) as (Hsp & Hstt & Hpo). split; [|split].
  - rewrite Hstt. unfold s4. change (ip_state (port (set_port p (fun x => x <| ip_state := IPC_PORT_STATE_DEAD |>) s3) p) = IPC_PORT_STATE_DEAD).
    by rewrite port_set_port, decide_True.
  - intros q Hq. rewrite Hpo by done. etrans; [|by apply Hs3]. unfold s4.
    change (port (set_port p (fun x => x <| ip_state := IPC_PORT_STATE_DEAD |>) s3) q = port s3 q).
    by rewrite port_set_port, decide_False.
  - intros j. rewrite Hsp. apply Hs3'.
Qed.

(** Table [sp] has lost the entry [idx], which led to [p]. *)
Definition lost (p : nat) (idx : Z) (sp sp' : ipc_space) : Prop :=
  is_active sp' = is_active sp /\ ie_bits (entry sp' idx) = MACH_PORT_TYPE_NONE /\
  forall k, 0 <= k < 64 ->
    (ie_bits (entry sp' k) = ie_bits (entry sp k) /\ ie_gen (entry sp' k) = ie_gen (entry sp k) /\
     ie_object (entry sp' k) = ie_object (entry sp k)) \/
    (ie_bits (entry sp' k) = MACH_PORT_TYPE_NONE /\ ie_object (entry sp k) = OPort p).

Lemma free_name_entry sp idx k :
  length (is_table sp) = 64%nat -> 0 <= idx < 64 -> 0 <= k ->
  entry (space_free_name idx sp) k = if decide (k = idx) then
    {| ie_object := name_as_object (is_free_head sp); ie_bits := MACH_PORT_TYPE_NONE; ie_urefs := 0;
       ie_gen := u8 (ie_gen (entry sp idx) + 1) |} else entry sp k.
Proof. intros Hl Hi Hk. unfold space_free_name. etrans; [by apply entry_set|done]. Qed.

Lemma free_name_lost sp sp1 idx p :
  length (is_table sp1) = 64%nat -> 0 <= idx < 64 -> is_active sp1 = is_active sp ->
  (forall k, 0 <= k < 64 -> ie_bits (entry sp1 k) = ie_bits (entry sp k) /\
     ie_gen (entry sp1 k) = ie_gen (entry sp k) /\ ie_object (entry sp1 k) = ie_object (entry sp k)) ->
  ie_object (entry sp idx) = OPort p -> lost p idx sp (space_free_name idx sp1).
Proof.
  intros Hl Hi Ha Hk Ho. split; [done|]. split; [by rewrite free_name_entry, decide_True by (done || lia)|].
  intros k Hk'. rewrite free_name_entry by (done || lia). case_decide; [subst; by right|]. left. by apply Hk.
Qed.

Lemma lost_more sp sp1 idx m p :
  length (is_table sp1) = 64%nat -> 0 <= idx < 64 -> 0 <= m < 64 -> lost p idx sp sp1 ->
  ie_object (entry sp m) = OPort p -> lost p idx sp (space_free_name m sp1).
Proof.
  intros Hl Hi Hm (Ha & Hb & Hk) Ho. split; [done|].
  split; [rewrite free_name_entry by (done || lia); by case_decide|].
  intros k Hk'. rewrite free_name_entry by (done || lia). case_decide; [subst; by right|]. by apply Hk.
Qed.

Lemma lost_same_names s s' i idx p :
  AllOk s -> AllOk s' -> (forall q, q ≠ p -> ip_state (port s' q) = ip_state (port s q)) ->
  (forall j, j ≠ i -> space s' j = space s j) -> lost p idx (space s i) (space s' i) ->
  forall q, q ≠ p -> same_names s s' q.
Proof.
  intros HA HA' Hp Hj (Ha & _ & Hk). apply same_names_frame; [done|done|done| |].
  - intros j. destruct (decide (j = i)) as [->|]; [done|by rewrite Hj].
  - intros j k Hact Hk'. destruct (decide (j = i)) as [->|]; [|rewrite Hj by done; by left].
    destruct (Hk k Hk') as [?|[? ?]]; [by left|right]. split; [by right|by left].
Qed.

Lemma lost_name s i name idx p sp :
  AllOk s -> idx = ipc_name_index name -> lost p idx sp (space s i) ->
  forall r, ipc_port_lookup (Some i) name r s = None.
Proof.
  intros HA -> (_ & Hb & _) r. apply eq_None_not_Some. intros [q (j & [= <-] & _ & Hres)%lookup_ok]; [|done].
  by destruct Hres as (_ & _ & Hb' & _).
Qed.

(** Destroying the receiver of a port whose own entry is already gone. *)
Lemma destroy_lost s s2 i idx p :
  AllOk s -> ip_state (port s2 p) = IPC_PORT_STATE_ACTIVE -> port s2 p = port s p ->
  ip_receiver (port s p) = Some i -> is_active (space s i) = true -> 0 <= idx < 64 ->
  length (is_table (space s2 i)) = 64%nat -> lost p idx (space s i) (space s2 i) ->
  (forall j, j ≠ i -> space s2 j = space s j) ->
  let s' := ipc_port_destroy p s2 in
  lost p idx (space s i) (space s' i) /\ (forall j, j ≠ i -> space s' j = space s j) /\
  ip_state (port s' p) = IPC_PORT_STATE_DEAD /\ forall q, q ≠ p -> port s' q = port s2 q.
Proof.
  intros HA Hst Hp Hr Hact Hi Hlen HL Hj. cbv zeta. destruct (destroy_effect p s2 Hst) as (Hd & Hq & Hsp).
  rewrite Hp, Hr in Hsp.
  assert (Hother : forall j, j ≠ i -> space (ipc_port_destroy p s2) j = space s j).
  { intros j Hne. destruct (Hsp j) as [->|([= <-] & _)]; [by apply Hj|done]. }
  split; [|done]. destruct (Hsp i) as [->|(_ & _ & ->)]; [done|].
  destruct (ao_recv _ HA p i Hr Hact) as (_ & _ & Ho & _).
  apply lost_more; [done|done|apply ipc_name_index_range|done|done].
Qed.

(** giving up a name.  A name that leads to port [p] loses one user
    reference; the last one retires the name, and if it was the name [p] is
    received under, [p] dies: afterwards no name of any space leads to it.
    Names of other ports are never affected. *)
Theorem mach_port_deallocate_spec s i name r p :
  running ptr32 s -> i ≠ ipc_space_kernel -> ipc_port_lookup (Some i) name r s = Some p ->
  let e := entry (space s i) (ipc_name_index name) in
  let '(s', err) := mach_port_deallocate_kernel (Some i) name s in
  (forall q, q ≠ p -> same_names s s' q) /\
  (ie_urefs e = 0 -> err = CHIMERA_ERR_INVALID /\ s' = s) /\
  (ie_urefs e ≠ 0 -> err = CHIMERA_SUCCESS) /\
  (ie_urefs e ≠ 1 -> same_names s s' p) /\
  (ie_urefs e = 1 -> (forall r', ipc_port_lookup (Some i) name r' s' = None) /\
     (has (ie_bits e) MACH_PORT_TYPE_RECEIVE = true -> ip_receiver (port s p) = Some i ->
      forall j n r', ipc_port_lookup j n r' s' ≠ Some p)).
Proof.
  intros HA%running_ok Hk Hl e. assert (Hk' : Some i ≠ Some ipc_space_kernel) by congruence.
  pose proof (AllOk_deallocate (Some i) name s HA Hk') as HA'.
  assert (Hdead : name ≠ MACH_PORT_NAME_DEAD) by (intros ->; done).
  apply lookup_ok in Hl as (j & [= <-] & Hn & Hact & Hg & Hb & _ & Ho & Hst); [|done].
  destruct (ao_space _ HA i Hact) as [fl HS]. pose proof (ipc_name_index_range name) as Hidx.
  destruct (proj1 (so_bits _ _ HS _ Hidx) Hb) as [Hu _]. fold e in Hg, Hb, Ho.
  revert HA'. unfold mach_port_deallocate_kernel, name_current, MACH_PORT_NAME_NULL. fold e.
  rewrite (proj2 (Z.eqb_neq _ _) Hn), (proj2 (Z.eqb_neq _ _) Hdead). cbn [orb].
  rewrite (proj2 (Z.ltb_lt _ _)) by lia. rewrite Hg, Z.eqb_refl. cbn [andb negb].
  rewrite (proj2 (Z.eqb_neq _ _) Hb). cbn [orb].
  destruct (Z.eqb_spec (ie_urefs e) 0) as [E0|E0]; [intros _; split; [done|]; split; [done|]; split; [done|]; split; [done|lia]|].
  set (sp1 := set_entry _ _ (space s i)).
  assert (Hkeep : forall k, 0 <= k < 64 -> ie_bits (entry sp1 k) = ie_bits (entry (space s i) k) /\
    ie_gen (entry sp1 k) = ie_gen (entry (space s i) k) /\ ie_object (entry sp1 k) = ie_object (entry (space s i) k)).
  { intros k Hk1. unfold sp1. rewrite entry_set by (done || lia || apply (so_length _ _ HS)). by case_decide; subst. }
  destruct (Z.eqb_spec (ie_urefs e - 1) 0) as [E1|E1].
  2:{ intros _. split; [|split; [done|split; [done|split; [|lia]]]]; [intros q _|intros _];
        by apply (urefs_same_names s i _ _ HA). }
  assert (Hlen : length (is_table sp1) = 64%nat) by (cbn; rewrite length_insert; apply (so_length _ _ HS)).
  assert (HL : lost p (ipc_name_index name) (space s i) (space_free_name (ipc_name_index name) sp1))
    by (by apply free_name_lost).
  set (idx := ipc_name_index name) in *. set (s2 := set_space i (space_free_name idx sp1) s).
  assert (Hs2 : space s2 i = space_free_name idx sp1) by (unfold s2; by rewrite space_set_space, decide_True).
  assert (Hs2' : forall j, j ≠ i -> space s2 j = space s j).
  { intros j Hj. unfold s2. by rewrite space_set_space, decide_False. }
  assert (Hp2 : forall q, port s2 q = port s q) by done.
  rewrite <- Hs2 in HL. assert (Hlen2 : length (is_table (space s2 i)) = 64%nat) by (rewrite Hs2; cbn; by rewrite length_insert).
  clearbody s2. rewrite Ho. cbn [object_port]. rewrite Hp2.
  assert (Hend : forall s', AllOk s' -> (forall q, q ≠ p -> ip_state (port s' q) = ip_state (port s q)) ->
    (forall j, j ≠ i -> space s' j = space s j) -> lost p idx (space s i) (space s' i) ->
    (forall q, q ≠ p -> same_names s s' q) /\ forall r', ipc_port_lookup (Some i) name r' s' = None).
  { intros s' HA1 Hq Hj HL1. split; [by eapply lost_same_names|]. by eapply lost_name. }
  destruct (has (ie_bits e) MACH_PORT_TYPE_RECEIVE && bool_decide (ip_receiver (port s p) = Some i)) eqn:Hrcv.
  - apply andb_true_iff in Hrcv as [_ Hr]. apply bool_decide_eq_true in Hr. cbn [fst]. intros HA'.
    destruct (destroy_lost s s2 i idx p) as (HL' & Hj' & Hd & Hq'); try done.
    { by rewrite Hp2. }
    destruct (Hend _ HA') as [Hend1 Hend2]; [intros q Hq; by rewrite Hq', Hp2|done|done|].
    split; [done|]. split; [lia|]. split; [done|]. split; [lia|]. intros _. split; [done|].
    intros _ _ j n r' (k & _ & _ & _ & _ & _ & _ & _ & Ha)%lookup_ok; [|done]. by rewrite Hd in Ha.
  - assert (Hrel : forall s3, (forall q, ip_state (port s3 q) = ip_state (port s q)) -> (forall j, space s3 j = space s2 j) ->
      AllOk (ipc_port_release p s3) ->
      (forall q, q ≠ p -> same_names s (ipc_port_release p s3) q) /\
      forall r', ipc_port_lookup (Some i) name r' (ipc_port_release p s3) = None).
    { intros s3 H3 H3' HA3. destruct (release_frame p s3) as (Ha & Hb' & _). apply Hend; [done| | |].
      - intros q _. by rewrite Hb'.
      - intros j Hj. by rewrite Ha, H3', Hs2'.
      - by rewrite Ha, H3'. }
    destruct (has (ie_bits e) MACH_PORT_TYPE_SEND); cbn [fst]; intros HA'.
    + destruct (fun A B => Hrel _ A B HA') as [? ?].
      * intros q. rewrite port_set_port. destruct (decide (q = p)) as [->|]; [exact (f_equal ip_state (Hp2 p))|by rewrite Hp2].
      * done.
      * split; [done|]. split; [lia|]. split; [done|]. split; [lia|]. intros _. split; [done|].
        intros HR Hrc. by rewrite HR, Hrc, bool_decide_eq_true_2 in Hrcv.
    + destruct (Hrel s2) as [? ?]; [intros q; by rewrite Hp2|done|done|].
      split; [done|]. split; [lia|]. split; [done|]. split; [lia|]. intros _. split; [done|].
      intros HR Hrc. by rewrite HR, Hrc, bool_decide_eq_true_2 in Hrcv.
Qed.
End Spec.

(** ** Reuse of names *)

Section Reuse.
Variable ptr32 : nat -> Z.
Variables (o : object) (bits : Z).
Hypothesis Hbits : bits ≠ MACH_PORT_TYPE_NONE.
Hypothesis Ho : forall n, o ≠ OName n.

(** A right is given up and the next one is given out. *)
Definition reuse (x : ipc_space * Z) : ipc_space * Z :=
  let '(sp, name) := space_alloc_name ptr32 (space_free_name (ipc_name_index x.2) x.1) in
  (grant name o bits sp, name).

Lemma reuse_step sp fl name :
  SpaceOk sp fl -> in_use sp (ipc_name_index name) ->
  let '(sp', name') := reuse (sp, name) in
  let idx := ipc_name_index name in
  SpaceOk sp' fl /\ in_use sp' idx /\ ipc_name_index name' = idx /\
  ipc_name_gen name' = ie_gen (entry sp' idx) /\ ie_gen (entry sp' idx) = u8 (ie_gen (entry sp idx) + 2) /\
  is_table_used sp' = is_table_used sp.
Proof.
  intros HS Hu. unfold reuse. cbn [fst snd]. pose proof (ipc_name_index_range name) as Hi.
  set (idx := ipc_name_index name) in *. pose proof (so_gen _ _ HS _ Hi) as Hg.
  destruct (free_name_ok sp fl idx HS Hi Hu) as (HS1 & _ & Hg1 & _).
  assert (Hu1 : is_table_used (space_free_name idx sp) = is_table_used sp) by done.
  set (sp1 := space_free_name idx sp) in *. clearbody sp1.
  pose proof (alloc_name_free ptr32 sp1 idx fl o bits HS1 Hbits Ho) as HG.
  destruct (space_alloc_name ptr32 sp1) as [sp2 name']. destruct HG as (Hn & Hi' & HS2 & Hgr & Hgn & Hg2 & Hu2).
  split; [done|]. split; [destruct Hgr as (_ & _ & _ & He & _); unfold in_use; by rewrite He|].
  split; [done|]. split; [done|]. split; [|congruence].
  rewrite Hg2, Hg1. unfold u8. rewrite Zplus_mod_idemp_l. f_equal. lia.
Qed.

Lemma reuse_iter sp fl name k :
  SpaceOk sp fl -> in_use sp (ipc_name_index name) -> ipc_name_gen name = ie_gen (entry sp (ipc_name_index name)) ->
  let '(sp', name') := Nat.iter k reuse (sp, name) in
  let idx := ipc_name_index name in
  SpaceOk sp' fl /\ in_use sp' idx /\ ipc_name_index name' = idx /\
  ipc_name_gen name' = ie_gen (entry sp' idx) /\
  ie_gen (entry sp' idx) = u8 (ie_gen (entry sp idx) + 2 * Z.of_nat k) /\
  is_table_used sp' = is_table_used sp.
Proof.
  intros HS Hu Hg. induction k as [|k IH].
  - cbn -[u8]. rewrite Z.add_0_r, u8_id; [done|]. apply (so_gen _ _ HS). apply ipc_name_index_range.
  - rewrite Nat.iter_succ. destruct (Nat.iter k reuse (sp, name)) as [sp1 n1].
    destruct IH as (HS1 & Hu1 & Hi1 & _ & Hg1 & Hus1). rewrite <- Hi1 in Hu1.
    pose proof (reuse_step sp1 fl n1 HS1 Hu1) as HR. destruct (reuse (sp1, n1)) as [sp2 n2].
    rewrite Hi1 in HR. destruct HR as (? & ? & ? & ? & Hg2 & ?). do 4 (split; [done|]). split; [|congruence].
    rewrite Hg2, Hg1. unfold u8. rewrite Zplus_mod_idemp_l. f_equal. lia.
Qed.

(** names are reused with a period.  After [k] times giving up a name and
    taking the next one of the space, the trap interface accepts the old name
    again exactly when 128 divides [k]: each round moves the 8-bit generation by
    two.  So a stale name is rejected for up to 127 reuses of its slot, not for
    ever. *)
Theorem name_reuse_period sp fl name k :
  SpaceOk sp fl -> in_use sp (ipc_name_index name) -> name_current sp name = true ->
  let '(sp', name') := Nat.iter k reuse (sp, name) in
  name_current sp' name' = true /\
  (name_current sp' name = true <-> Z.of_nat k mod 128 = 0).
Proof.
  intros HS Hu Hc. unfold name_current in *. apply andb_true_iff in Hc as [Hlt Hg]. apply Z.eqb_eq in Hg.
  pose proof (reuse_iter sp fl name k HS Hu Hg) as HI. destruct (Nat.iter k reuse (sp, name)) as [sp' n'].
  destruct HI as (_ & _ & Hi & Hgn & Hge & Hus). rewrite Hi, Hus, Hlt, Hgn, Z.eqb_refl. split; [done|].
  rewrite Hge, Hg. cbn [andb]. pose proof (so_gen _ _ HS _ (ipc_name_index_range name)) as Hr.
  set (g := ie_gen (entry sp (ipc_name_index name))) in *. rewrite Z.eqb_eq. unfold u8.
  pose proof (Z.div_mod (g + 2 * Z.of_nat k) (2 ^ 8)) as H1. pose proof (Z.mod_pos_bound (g + 2 * Z.of_nat k) (2 ^ 8)).
  pose proof (Z.div_mod (Z.of_nat k) 128) as H2. pose proof (Z.mod_pos_bound (Z.of_nat k) 128). lia.
Qed.
End Reuse.

(** ** A small kernel to evaluate the operations on *)

Definition no_waiters : WaitQueues unit :=
  {| wq_init := fun _ w => w; wq_wakeup_one := fun _ w => w; wq_wakeup_all := fun _ w => w |}.
Definition no_msgs : KmsgStore unit := {| km_next := fun _ _ => None; km_free := fun _ k => k |}.
#[local] Existing Instances no_waiters no_msgs.

Definition at_zero (p : nat) : Z := 0.
Definition demo0 : ipc unit unit :=
  match ipc_init at_zero (boot tt tt) with Some (s, _) => s | None => boot tt tt end.

(** Two tasks, the first with a port under the name 1. *)
Definition demo3 : ipc unit unit :=
  fst (mach_port_allocate_kernel at_zero (Some 1%nat) MACH_PORT_RIGHT_RECEIVE
        (fst (ipc_space_create (fst (ipc_space_create demo0))))).

Lemma demo0_running : running at_zero demo0.
Proof. exists tt, tt, demo0, 0%nat. split; [by vm_compute|constructor]. Qed.

Lemma running_step {W} `{WaitQueues W} {K} `{KmsgStore K} ptr32 (s s' : ipc W K) :
  running ptr32 s -> ipc_step ptr32 s s' -> running ptr32 s'.
Proof. intros (w & k & s0 & p & Hi & Hs) Hst. exists w, k, s0, p. split; [done|]. by eapply rtc_r. Qed.

Lemma demo3_running : running at_zero demo3.
Proof. repeat (eapply running_step; [|constructor]). apply demo0_running. Qed.

(** The first task's port goes to the second task, which gives its send right
    back and then allocates a port of its own. *)
Definition demo4 := fst (ipc_port_copyout_send at_zero (Some 2%nat) (Some 1%nat) demo3).
Definition demo5 := fst (mach_port_deallocate_kernel (Some 2%nat) 1 demo4).
Definition demo6 := fst (mach_port_allocate_kernel at_zero (Some 2%nat) MACH_PORT_RIGHT_RECEIVE demo5).

Lemma demo6_running : running at_zero demo6.
Proof.
  unfold demo6, demo5, demo4.
  eapply running_step; [|apply step_allocate]. eapply running_step; [|by apply step_deallocate].
  eapply running_step; [apply demo3_running|apply step_copyout].
Qed.

(** receive rights are not exclusive.  Some history of the running kernel
    leaves two tasks whose names both resolve, with the receive right, to one
    port: a copied-out send right takes no reference, so giving it back drops
    the receiver's reference and the slot is handed out again. *)
Theorem receive_right_shared :
  exists s i j n m p, running (W := unit) (K := unit) at_zero s /\ i ≠ j /\
    ipc_port_lookup (Some i) n MACH_PORT_TYPE_RECEIVE s = Some p /\
    ipc_port_lookup (Some j) m MACH_PORT_TYPE_RECEIVE s = Some p.
Proof.
  exists demo6, 1%nat, 2%nat, 1, 129, 1%nat. split; [apply demo6_running|]. split; [done|]. by vm_compute.
Qed.

Lemma receive_names_resolve_witness :
  ipc_port_lookup (Some 1%nat) (ip_receiver_name (port demo3 1%nat)) MACH_PORT_TYPE_RECEIVE demo3 = Some 1%nat.
Proof. apply (receive_names_resolve at_zero demo3 1%nat 1%nat demo3_running); by vm_compute. Defined.

Lemma ipc_port_alloc_spec_witness :
  snd (ipc_port_alloc at_zero 2%nat demo3) = (CHIMERA_SUCCESS, 1) /\
  same_names demo3 (fst (ipc_port_alloc at_zero 2%nat demo3)) 1%nat.
Proof.
  split; [by vm_compute|]. pose proof (ipc_port_alloc_spec at_zero demo3 2%nat demo3_running) as HT.
  destruct (ipc_port_alloc at_zero 2%nat demo3) as [s' [err name]]. apply HT. by vm_compute.
Defined.

Lemma ipc_port_copyout_send_spec_witness :
  same_names demo3 (fst (ipc_port_copyout_send at_zero (Some 2%nat) (Some 1%nat) demo3)) 0%nat.
Proof.
  pose proof (ipc_port_copyout_send_spec at_zero demo3 2%nat 1%nat demo3_running) as HT.
  destruct (ipc_port_copyout_send _ _ _ _) as [s' name]. by apply HT; vm_compute.
Defined.

Lemma mach_port_deallocate_spec_witness :
  snd (mach_port_deallocate_kernel (Some 1%nat) 1 demo3) = CHIMERA_SUCCESS /\
  same_names demo3 (fst (mach_port_deallocate_kernel (Some 1%nat) 1 demo3)) 0%nat.
Proof.
  pose proof (mach_port_deallocate_spec at_zero demo3 1%nat 1 0 1%nat demo3_running) as HT.
  destruct (mach_port_deallocate_kernel _ _ _) as [s' err].
  destruct HT as (H1 & _ & H2 & _); [done|by vm_compute|]. split; [apply H2; by vm_compute|by apply H1].
Defined.

Lemma one_name_ok : SpaceOk (space demo3 1%nat) [].
Proof.
  destruct (ao_space _ (running_ok _ _ demo3_running) 1%nat) as [fl HS]; [by vm_compute|].
  pose proof (so_count _ _ HS) as Hc. destruct fl; [done|by vm_compute in Hc].
Qed.

Lemma name_reuse_period_witness :
  let '(sp', name') := Nat.iter 128 (reuse at_zero (OPort 1) MACH_PORT_TYPE_SEND) (space demo3 1%nat, 1) in
  name_current sp' 1 = true.
Proof.
  pose proof (name_reuse_period at_zero (OPort 1) MACH_PORT_TYPE_SEND ltac:(done) ltac:(done)
    (space demo3 1%nat) [] 1 128 one_name_ok) as HT.
  destruct (Nat.iter 128 _ _) as [sp' name']. apply HT; by vm_compute.
Defined.
End IpcSpec.
