(* ===== verification/Sched.v ===== *)
(** * The scheduler

    Models [kernel/arch/x86_64/scheduler.c]: per-CPU run queues linked through
    [th_next], work stealing, waking, and [scheduler_yield] with the hand-over
    of a thread from one CPU to another through [th_running_cpu].

    A [chimera_thread_t *] is a number.  The parts of [scheduler_yield] between
    two synchronisation points are separate definitions, so that the steps of
    different CPUs interleave; it runs with interrupts disabled on its CPU.
    Register and address space switching, the reschedule interrupt and the
    stacks have no scheduling state and are left out. *)

From stdpp Require Import functions.
From S2P Require Import Prelude.

Module Sched.

Definition CHIMERA_MAX_CPUS : nat := 16.

(** [THREAD_STATE_NEW] is the 0 of a freshly allocated thread. *)
Inductive thread_state : Set :=
| THREAD_STATE_NEW
| THREAD_STATE_READY
| THREAD_STATE_STOPPED
| THREAD_STATE_WAITING
| THREAD_STATE_HALTED
| THREAD_STATE_RUNNING.

#[global] Instance thread_state_eq_dec : EqDecision thread_state.
Proof. solve_decision. Defined.

(** [th_running_cpu] is [None] for 0xFFFFFFFF. *)
Record chimera_thread := {
  th_state : thread_state;
  th_priority : Z;
  th_base_priority : Z;
  th_sched_priority : Z;
  th_cpu_usage : Z;
  th_running_cpu : option nat;
  th_assigned_cpu : nat;
  th_wait_result : chimera_error;
  th_next : option nat;
  th_wait_next : option nat;
  th_sleep_deadline : Z
}.
#[global] Instance chimera_thread_eta : Eta chimera_thread := fun r =>
  {| th_state := th_state r; th_priority := th_priority r; th_base_priority := th_base_priority r;
     th_sched_priority := th_sched_priority r; th_cpu_usage := th_cpu_usage r;
     th_running_cpu := th_running_cpu r; th_assigned_cpu := th_assigned_cpu r;
     th_wait_result := th_wait_result r; th_next := th_next r; th_wait_next := th_wait_next r;
     th_sleep_deadline := th_sleep_deadline r |}.
#[global] Instance chimera_thread_inhabited : Inhabited chimera_thread := populate
  {| th_state := THREAD_STATE_NEW; th_priority := 0; th_base_priority := 0; th_sched_priority := 0;
     th_cpu_usage := 0; th_running_cpu := None; th_assigned_cpu := 0; th_wait_result := CHIMERA_SUCCESS;
     th_next := None; th_wait_next := None; th_sleep_deadline := 0 |}.

Record cpu_runq := { rq_head : option nat; rq_count : Z }.
#[global] Instance cpu_runq_eta : Eta cpu_runq := fun r => {| rq_head := rq_head r; rq_count := rq_count r |}.
#[global] Instance cpu_runq_inhabited : Inhabited cpu_runq := populate {| rq_head := None; rq_count := 0 |}.

Record cpu_local := {
  cpu_current_thread : option nat;
  cpu_is_active : bool;
  cpu_idle_thread : option nat
}.
#[global] Instance cpu_local_eta : Eta cpu_local := fun r =>
  {| cpu_current_thread := cpu_current_thread r; cpu_is_active := cpu_is_active r;
     cpu_idle_thread := cpu_idle_thread r |}.
#[global] Instance cpu_local_inhabited : Inhabited cpu_local := populate
  {| cpu_current_thread := None; cpu_is_active := false; cpu_idle_thread := None |}.

Record wait_queue := { wq_head : option nat; wq_tail : option nat }.
#[global] Instance wait_queue_eta : Eta wait_queue := fun r => {| wq_head := wq_head r; wq_tail := wq_tail r |}.
#[global] Instance wait_queue_inhabited : Inhabited wait_queue := populate {| wq_head := None; wq_tail := None |}.

Record sched := {
  threads : gmap nat chimera_thread;
  s_cpu_runq : gmap nat cpu_runq;
  g_cpu_data : gmap nat cpu_local;
  s_total_cpus : nat;
  s_sleep_list : option nat;
  wait_queues : gmap nat wait_queue
}.
#[global] Instance sched_eta : Eta sched := fun r =>
  {| threads := threads r; s_cpu_runq := s_cpu_runq r; g_cpu_data := g_cpu_data r;
     s_total_cpus := s_total_cpus r; s_sleep_list := s_sleep_list r; wait_queues := wait_queues r |}.

Definition th (s : sched) (t : nat) : chimera_thread := threads s !!! t.
Definition set_th (t : nat) (f : chimera_thread -> chimera_thread) (s : sched) : sched :=
  s <| threads ::= <[t := f (th s t)]> |>.
Definition rq (s : sched) (c : nat) : cpu_runq := s_cpu_runq s !!! c.
Definition set_rq (c : nat) (f : cpu_runq -> cpu_runq) (s : sched) : sched :=
  s <| s_cpu_runq ::= <[c := f (rq s c)]> |>.
Definition cpu (s : sched) (c : nat) : cpu_local := g_cpu_data s !!! c.
Definition set_cpu (c : nat) (f : cpu_local -> cpu_local) (s : sched) : sched :=
  s <| g_cpu_data ::= <[c := f (cpu s c)]> |>.

(** ** Run queues

    The cursor [chimera_thread_t **pp] is the thread whose [th_next] it points
    at, or [None] for the head of the queue; [cur] is what [*pp] holds. *)

Definition set_link (c : nat) (pp : option nat) (v : option nat) (s : sched) : sched :=
  match pp with
  | None => set_rq c (fun r => r <| rq_head := v |>) s
  | Some p => set_th p (fun x => x <| th_next := v |>) s
  end.

Fixpoint enqueue_at (fuel : nat) (prio : Z) (pp cur : option nat) (s : sched) : option nat * option nat :=
  match fuel, cur with
  | S fuel, Some x =>
      if prio <=? th_priority (th s x) then enqueue_at fuel prio (Some x) (th_next (th s x)) s
      else (pp, cur)
  | _, _ => (pp, cur)
  end.

Definition runq_enqueue_locked (c t : nat) (s : sched) : sched :=
  let '(pp, cur) := enqueue_at (Z.to_nat (rq_count (rq s c))) (th_priority (th s t)) None (rq_head (rq s c)) s in
  let s := set_th t (fun x => x <| th_next := cur |>) s in
  let s := set_link c pp (Some t) s in
  set_rq c (fun r => r <| rq_count ::= fun n => u32 (n + 1) |>) s.

Definition runq_dequeue_locked (c : nat) (s : sched) : sched * option nat :=
  match rq_head (rq s c) with
  | Some t =>
      let s := set_rq c (fun r => r <| rq_head := th_next (th s t) |>) s in
      let s := set_th t (fun x => x <| th_next := None |>) s in
      (set_rq c (fun r => r <| rq_count ::= fun n => u32 (n - 1) |>) s, Some t)
  | None => (s, None)
  end.

Fixpoint remove_at (fuel : nat) (t : nat) (pp cur : option nat) (s : sched) : option (option nat) :=
  match fuel, cur with
  | S fuel, Some x => if decide (x = t) then Some pp else remove_at fuel t (Some x) (th_next (th s x)) s
  | _, _ => None
  end.

Definition runq_remove_locked (c t : nat) (s : sched) : sched :=
  match remove_at (Z.to_nat (rq_count (rq s c))) t None (rq_head (rq s c)) s with
  | Some pp =>
      let s := set_link c pp (th_next (th s t)) s in
      let s := set_th t (fun x => x <| th_next := None |>) s in
      set_rq c (fun r => if 0 <? rq_count r then r <| rq_count ::= Z.pred |> else r) s
  | None => s
  end.

(** The last thread of a queue and the one before it. *)
Fixpoint last_at (fuel : nat) (prev : option nat) (curr : nat) (s : sched) : option nat * nat :=
  match fuel, th_next (th s curr) with
  | S fuel, Some n => last_at fuel (Some curr) n s
  | _, _ => (prev, curr)
  end.

(** ** Work stealing *)

Definition busiest (my : nat) (s : sched) : option nat :=
  fst (foldl (fun (acc : option nat * Z) i =>
    if bool_decide (i = my) || negb (cpu_is_active (cpu s i)) then acc
    else if acc.2 <? rq_count (rq s i) then (Some i, rq_count (rq s i)) else acc)
    (None, 1) (seq 0 (Nat.min (s_total_cpus s) CHIMERA_MAX_CPUS))).

Definition scheduler_steal_work (my : nat) (s : sched) : sched * option nat :=
  if (s_total_cpus s <=? 1)%nat then (s, None)
  else
    match busiest my s with
    | None => (s, None)
    | Some v =>
        match rq_head (rq s v) with
        | Some first =>
            if 1 <? rq_count (rq s v) then
              let '(prev, curr) := last_at (Z.to_nat (rq_count (rq s v))) None first s in
              let s := set_link v prev None s in
              let s := set_rq v (fun r => r <| rq_count ::= fun n => u32 (n - 1) |>) s in
              (set_th curr (fun x => x <| th_next := None |> <| th_assigned_cpu := my |>) s, Some curr)
            else (s, None)
        | None => (s, None)
        end
    end.

(** ** Adding, removing and waking threads *)

Definition scheduler_set_initial (t : nat) (s : sched) : sched :=
  let a := th_assigned_cpu (th s t) in
  let s := if (a <? CHIMERA_MAX_CPUS)%nat then runq_remove_locked a t s else s in
  let s := set_th t (fun x => x <| th_running_cpu := Some 0%nat |> <| th_assigned_cpu := 0%nat |>
                                <| th_state := THREAD_STATE_RUNNING |>) s in
  set_cpu 0 (fun c => c <| cpu_current_thread := Some t |>) s.

Definition least_loaded (s : sched) : nat :=
  fst (foldl (fun (acc : nat * Z) i =>
    if negb (cpu_is_active (cpu s i)) && negb (i =? 0)%nat then acc
    else if rq_count (rq s i) <? acc.2 then (i, rq_count (rq s i)) else acc)
    (0%nat, 2 ^ 32 - 1) (seq 0 (Nat.min (s_total_cpus s) CHIMERA_MAX_CPUS))).

Definition scheduler_add_thread (t : nat) (s : sched) : sched :=
  let s := set_th t (fun x => if th_base_priority x =? 0 then x <| th_base_priority := 32 |> else x) s in
  let s := set_th t (fun x => x <| th_sched_priority := th_base_priority x |>
    <| th_priority := th_base_priority x |> <| th_cpu_usage := 0 |> <| th_running_cpu := None |>
    <| th_state := THREAD_STATE_READY |>) s in
  let target_cpu := least_loaded s in
  let s := set_th t (fun x => x <| th_assigned_cpu := target_cpu |>) s in
  runq_enqueue_locked target_cpu t s.

(** The state is written before the lock of the run queue is taken. *)
Definition halt (t : nat) (s : sched) : sched := set_th t (fun x => x <| th_state := THREAD_STATE_HALTED |>) s.

Definition scheduler_remove_thread (t : nat) (s : sched) : sched :=
  let s := halt t s in
  let target := th_assigned_cpu (th s t) in
  if (target <? CHIMERA_MAX_CPUS)%nat then runq_remove_locked target t s else s.

(** [thread_wake]: the compare-and-swap of the state, which elects one waker, *)
Definition wake_cas (t : nat) (s : sched) : sched * bool :=
  if decide (th_state (th s t) = THREAD_STATE_WAITING)
  then (set_th t (fun x => x <| th_state := THREAD_STATE_READY |>) s, true)
  else (s, false).

(** and what the elected one does. *)
Definition wake_enqueue (my t : nat) (s : sched) : sched :=
  let boosted := Z.min 95 (u32 (th_base_priority (th s t) + 16)) in
  let s := set_th t (fun x => x <| th_sched_priority := boosted |> <| th_priority := boosted |>) s in
  let target := th_assigned_cpu (th s t) in
  let away := (s_total_cpus s <=? target)%nat || (negb (target =? 0)%nat && negb (cpu_is_active (cpu s target))) in
  let target := if away then my else target in
  let s := if away then set_th t (fun x => x <| th_assigned_cpu := my |>) s else s in
  runq_enqueue_locked target t s.

Definition thread_wake (my t : nat) (s : sched) : sched :=
  match wake_cas t s with
  | (s, true) => wake_enqueue my t s
  | (s, false) => s
  end.

(** ** Yielding *)

(** Under the lock of the own run queue. *)
Definition yield_locked (my : nat) (s : sched) : sched * option nat :=
  let idle := cpu_idle_thread (cpu s my) in
  let s :=
    match cpu_current_thread (cpu s my) with
    | Some old =>
        if decide (Some old = idle) then s
        else
          let s := set_th old (fun x => x <| th_cpu_usage ::= fun n => u32 (n + 1) |>
            <| th_sched_priority ::= fun n => if th_base_priority x / 2 <? n then n - 1 else n |>) s in
          let s := set_th old (fun x => x <| th_priority := th_sched_priority x |>) s in
          if decide (th_state (th s old) = THREAD_STATE_RUNNING) then
            runq_enqueue_locked my old (set_th old (fun x => x <| th_state := THREAD_STATE_READY |>) s)
          else s
    | None => s
    end in
  runq_dequeue_locked my s.

(** The thread to run next: the dequeued one, a stolen one or the idle thread. *)
Definition yield_pick (my : nat) (new : option nat) (s : sched) : sched * option nat :=
  match new with
  | Some t => (s, Some t)
  | None =>
      match scheduler_steal_work my s with
      | (s, Some t) => (s, Some t)
      | (s, None) => (s, cpu_idle_thread (cpu s my))
      end
  end.

(** The chosen thread is the running one. *)
Definition yield_same (my new : nat) (s : sched) : sched :=
  if decide (Some new = cpu_idle_thread (cpu s my)) then s
  else set_th new (fun x => x <| th_state := THREAD_STATE_RUNNING |>) s.

(** The spin on [th_running_cpu] is over. *)
Definition yield_ready (my new : nat) (s : sched) : bool :=
  bool_decide (Some new = cpu_idle_thread (cpu s my)) || bool_decide (th_running_cpu (th s new) = None).

Definition yield_take (my new : nat) (s : sched) : sched :=
  let s := if decide (Some new = cpu_idle_thread (cpu s my)) then s
           else set_th new (fun x => x <| th_state := THREAD_STATE_RUNNING |>
                  <| th_running_cpu := Some my |> <| th_assigned_cpu := my |>) s in
  set_cpu my (fun c => c <| cpu_current_thread := Some new |>) s.

(** [context_switch] releases the old thread once the stack is the new one. *)
Definition context_switch (my : nat) (old : option nat) (s : sched) : sched :=
  match old with
  | Some t => if decide (Some t = cpu_idle_thread (cpu s my)) then s
              else set_th t (fun x => x <| th_running_cpu := None |>) s
  | None => s
  end.

(** All of it, when no other CPU interferes; [None] where it would spin for ever
    or has no thread to run. *)
Definition scheduler_yield (my : nat) (s : sched) : option sched :=
  let old := cpu_current_thread (cpu s my) in
  let '(s, new) := yield_locked my s in
  match yield_pick my new s with
  | (s, Some new) =>
      if decide (old = Some new) then Some (yield_same my new s)
      else if yield_ready my new s then Some (context_switch my old (yield_take my new s))
      else None
  | (s, None) => None
  end.

(** ** Queue contents *)

(** A thread without its run queue link. *)
Definition core (x : chimera_thread) : chimera_thread := x <| th_next := None |>.

Lemma th_set_th s t f u : th (set_th t f s) u = if decide (u = t) then f (th s t) else th s u.
Proof.
  unfold th, set_th. cbn. case_decide; subst; [by rewrite lookup_total_insert_eq|by rewrite lookup_total_insert_ne].
Qed.
Lemma rq_set_rq s c f d : rq (set_rq c f s) d = if decide (d = c) then f (rq s c) else rq s d.
Proof.
  unfold rq, set_rq. cbn. case_decide; subst; [by rewrite lookup_total_insert_eq|by rewrite lookup_total_insert_ne].
Qed.
Lemma cpu_set_cpu s c f d : cpu (set_cpu c f s) d = if decide (d = c) then f (cpu s c) else cpu s d.
Proof.
  unfold cpu, set_cpu. cbn. case_decide; subst; [by rewrite lookup_total_insert_eq|by rewrite lookup_total_insert_ne].
Qed.
Lemma th_set_rq s c f t : th (set_rq c f s) t = th s t.
Proof. done. Qed.
Lemma rq_set_th s t f c : rq (set_th t f s) c = rq s c.
Proof. done. Qed.

Lemma state_set_th s t f u :
  th_state (th (set_th t f s) u) = if decide (u = t) then th_state (f (th s t)) else th_state (th s u).
Proof. rewrite th_set_th. by case_decide. Qed.
Lemma set_th_twice t f g s : set_th t f (set_th t g s) = set_th t (fun x => f (g x)) s.
Proof.
  unfold set_th, fupd. cbn [threads]. f_equal. rewrite insert_insert_eq. f_equal. unfold th. cbn.
  by rewrite lookup_total_insert_eq.
Qed.

Definition nxt (s : sched) (t : nat) : option nat := th_next (th s t).

Lemma th_set_link s c pp v t :
  th (set_link c pp v s) t = if decide (pp = Some t) then (th s t) <| th_next := v |> else th s t.
Proof.
  destruct pp as [p|]; cbn [set_link]; [|by rewrite decide_False].
  rewrite th_set_th. destruct (decide (t = p)) as [->|]; [by rewrite decide_True|by rewrite decide_False by congruence].
Qed.
Lemma rq_set_link s c pp v d :
  rq (set_link c pp v s) d = if decide (pp = None /\ d = c) then (rq s c) <| rq_head := v |> else rq s d.
Proof.
  destruct pp as [p|]; cbn [set_link]; [by rewrite decide_False by naive_solver|].
  rewrite rq_set_rq. destruct (decide (d = c)) as [->|]; [by rewrite decide_True|by rewrite decide_False by naive_solver].
Qed.

(** The cursor stops after the threads of at least the given priority. *)
Lemma enqueue_at_spec s prio l pp h :
  chain (nxt s) h l ->
  exists l1 l2, l = l1 ++ l2 /\
    enqueue_at (length l) prio pp h s = (if last l1 is Some p then Some p else pp, head l2) /\
    Forall (fun x => prio <= th_priority (th s x)) l1 /\
    (forall x, head l2 = Some x -> th_priority (th s x) < prio).
Proof.
  revert pp h. induction l as [|x l IH]; intros pp h.
  - intros ->. exists [], []. done.
  - intros [-> Hl]. cbn [length enqueue_at]. fold (nxt s x). destruct (Z.leb_spec prio (th_priority (th s x))) as [Hle|Hlt].
    + destruct (IH (Some x) _ Hl) as (l1 & l2 & -> & He & H1 & H2). exists (x :: l1), l2.
      split; [done|]. split; [|split; [by constructor|done]]. rewrite He. f_equal.
      destruct l1 as [|y l1]; [done|]. rewrite last_cons_cons. destruct (last (y :: l1)) eqn:E; [done|].
      by apply last_None in E.
    + exists [], (x :: l). split; [done|]. split; [done|]. split; [constructor|]. by intros ? [= <-].
Qed.

Lemma remove_at_spec s t l pp h :
  chain (nxt s) h l ->
  (exists l1 l2, l = l1 ++ t :: l2 /\ remove_at (length l) t pp h s = Some (if last l1 is Some p then Some p else pp)) \/
  (t ∉ l /\ remove_at (length l) t pp h s = None).
Proof.
  revert pp h. induction l as [|x l IH]; intros pp h.
  - intros ->. right. split; [apply not_elem_of_nil|done].
  - intros [-> Hl]. cbn [length remove_at]. fold (nxt s x). destruct (decide (x = t)) as [->|Hne].
    + left. by exists [], l.
    + destruct (IH (Some x) _ Hl) as [(l1 & l2 & -> & Hr)|[Hn Hr]].
      * left. exists (x :: l1), l2. split; [done|]. rewrite Hr. do 2 f_equal.
        destruct l1 as [|y l1]; [done|]. rewrite last_cons_cons. destruct (last (y :: l1)) eqn:E; [done|].
        by apply last_None in E.
      * right. split; [|done]. apply not_elem_of_cons. split; [congruence|done].
Qed.

Lemma last_at_spec s l x prev :
  chain (nxt s) (Some x) (x :: l) ->
  exists l' y, x :: l = l' ++ [y] /\
    last_at (length (x :: l)) prev x s = (if last l' is Some p then Some p else prev, y).
Proof.
  revert x prev. induction l as [|z l IH]; intros x prev [_ Hl].
  - exists [], x. split; [done|]. cbn. cbn in Hl. unfold nxt in Hl. by rewrite Hl.
  - destruct Hl as [Hx Hl]. cbn [length last_at]. fold (nxt s x). rewrite Hx.
    destruct (IH z (Some x)) as (l' & y & E & Hlast); [by split|]. rewrite E. exists (x :: l'), y. split; [done|].
    cbn [length last_at] in Hlast. rewrite Hlast. f_equal. destruct l' as [|w l']; [done|].
    rewrite last_cons_cons. destruct (last (w :: l')) eqn:E'; [done|]. by apply last_None in E'.
Qed.

(** Everything but the run queue links and the queues is as before. *)
Definition qframe (s s' : sched) : Prop :=
  (forall t, core (th s' t) = core (th s t)) /\ g_cpu_data s' = g_cpu_data s /\
  s_total_cpus s' = s_total_cpus s.

Lemma qframe_refl s : qframe s s.
Proof. done. Qed.

Lemma qframe_cpu s s' c : qframe s s' -> cpu s' c = cpu s c.
Proof. intros (_ & E & _). unfold cpu. by rewrite E. Qed.
Lemma qframe_state s s' t : qframe s s' -> th_state (th s' t) = th_state (th s t).
Proof. intros (E & _). apply (f_equal th_state (E t)). Qed.
Lemma qframe_running s s' t : qframe s s' -> th_running_cpu (th s' t) = th_running_cpu (th s t).
Proof. intros (E & _). apply (f_equal th_running_cpu (E t)). Qed.

Lemma core_next x v : core (x <| th_next := v |>) = core x.
Proof. done. Qed.

Section Queues.
(** Thread objects; their number bounds every queue. *)
Variable N : nat.
Hypothesis N_small : Z.of_nat N < 2 ^ 32 - 1.

(** [q c] are the threads on the run queue of CPU [c], in order. *)
Record QInv (s : sched) (q : nat -> list nat) : Prop := {
  q_chain : forall c, chain (nxt s) (rq_head (rq s c)) (q c);
  q_count : forall c, rq_count (rq s c) = Z.of_nat (length (q c));
  q_disj : forall c d t, t ∈ q c -> t ∈ q d -> c = d;
  q_bound : forall c t, t ∈ q c -> (t < N)%nat
}.

Lemma q_nodup s q c : QInv s q -> NoDup (q c).
Proof. intros HQ. eapply chain_NoDup. apply (q_chain _ _ HQ c). Qed.

Lemma q_length s q c : QInv s q -> Z.of_nat (length (q c)) <= Z.of_nat N.
Proof.
  intros HQ. apply Nat2Z.inj_le. apply NoDup_below_length; [by eapply q_nodup|apply (q_bound _ _ HQ c)].
Qed.

(** Replacing the contents of one queue. *)
Lemma QInv_change s s' q c l :
  QInv s q -> chain (nxt s') (rq_head (rq s' c)) l -> rq_count (rq s' c) = Z.of_nat (length l) ->
  (forall d, d ≠ c -> rq s' d = rq s d) ->
  (forall t, t ∈ l -> (t < N)%nat /\ forall d, d ≠ c -> t ∉ q d) ->
  (forall d t, d ≠ c -> t ∈ q d -> nxt s' t = nxt s t) ->
  QInv s' (<[c := l]> q).
Proof.
  intros HQ Hch Hcnt Hrq Hl Hn. constructor.
  - intros d. destruct (decide (d = c)) as [->|Hd]; [by rewrite fn_lookup_insert|].
    rewrite fn_lookup_insert_ne by done. rewrite Hrq by done.
    eapply lseg_frame; [|apply (q_chain _ _ HQ d)]. intros t Ht. by apply (Hn d).
  - intros d. destruct (decide (d = c)) as [->|Hd]; [by rewrite fn_lookup_insert|].
    rewrite fn_lookup_insert_ne, Hrq by done. apply (q_count _ _ HQ).
  - intros d e t. destruct (decide (d = c)) as [->|Hd], (decide (e = c)) as [->|He]; rewrite ?fn_lookup_insert,
      ?fn_lookup_insert_ne by done; [done| | |apply (q_disj _ _ HQ)].
    + intros [_ Hx]%Hl Ht. by apply Hx in Ht.
    + intros Ht [_ Hx]%Hl. by apply Hx in Ht.
  - intros d t. destruct (decide (d = c)) as [->|Hd].
    + rewrite fn_lookup_insert. by intros [? _]%Hl.
    + rewrite fn_lookup_insert_ne by done. apply (q_bound _ _ HQ).
Qed.

Lemma QInv_same s s' q : QInv s q -> s_cpu_runq s' = s_cpu_runq s -> (forall t, nxt s' t = nxt s t) -> QInv s' q.
Proof.
  intros [H1 H2 H3 H4] Hr Hn. assert (Hrq : forall c, rq s' c = rq s c) by (intros c; unfold rq; by rewrite Hr).
  constructor; [| |done|done]; intros c; rewrite Hrq; [|apply H2].
  eapply lseg_frame; [|apply H1]. done.
Qed.

Lemma QInv_set_th s q t f : QInv s q -> (forall x, th_next (f x) = th_next x) -> QInv (set_th t f s) q.
Proof.
  intros HQ Hf. eapply QInv_same; [exact HQ|done|]. intros u. unfold nxt. rewrite th_set_th.
  case_decide; subst; [apply Hf|done].
Qed.

(** [runq_enqueue_locked] inserts in priority order, after equals. *)
Lemma enqueue_Q s q c t :
  QInv s q -> (forall d, t ∉ q d) -> (t < N)%nat ->
  let s' := runq_enqueue_locked c t s in
  exists l1 l2, q c = l1 ++ l2 /\ QInv s' (<[c := l1 ++ t :: l2]> q) /\ qframe s s' /\
    Forall (fun x => th_priority (th s t) <= th_priority (th s x)) l1 /\
    (forall x, head l2 = Some x -> th_priority (th s x) < th_priority (th s t)).
Proof.
  intros HQ Ht HtN. cbv zeta. unfold runq_enqueue_locked. rewrite (q_count _ _ HQ c), Nat2Z.id.
  destruct (enqueue_at_spec s (th_priority (th s t)) (q c) None _ (q_chain _ _ HQ c)) as (l1 & l2 & El & He & H1 & H2).
  rewrite He. exists l1, l2. split; [done|].
  replace (if last l1 is Some p then Some p else None) with (last l1) by (by destruct (last l1)).
  set (s1 := set_th t _ s). set (s2 := set_link c (last l1) (Some t) s1).
  set (s3 := set_rq c _ s2).
  assert (Htl : last l1 ≠ Some t).
  { intros E%last_Some_elem_of. apply (Ht c). rewrite El. apply elem_of_app. by left. }
  assert (Hth3 : forall x, th s3 x = if decide (last l1 = Some x) then (th s x) <| th_next := Some t |>
    else if decide (x = t) then (th s t) <| th_next := head l2 |> else th s x).
  { intros x. unfold s3. rewrite th_set_rq. unfold s2. rewrite th_set_link. unfold s1. rewrite th_set_th.
    destruct (decide (last l1 = Some x)); [|done]. by rewrite decide_False by congruence. }
  assert (Hrq3 : rq s3 c = {| rq_head := if last l1 is Some _ then rq_head (rq s c) else Some t;
                              rq_count := Z.of_nat (length (l1 ++ t :: l2)) |}).
  { unfold s3. rewrite rq_set_rq, decide_True by done. unfold s2. rewrite rq_set_link. unfold s1. rewrite rq_set_th.
    assert (Hcnt : u32 (rq_count (rq s c) + 1) = Z.of_nat (length (l1 ++ t :: l2))).
    { pose proof (q_length _ _ c HQ) as Hlen. rewrite (q_count _ _ HQ c), El in *. rewrite !length_app in *.
      cbn [length]. rewrite u32_id; lia. }
    destruct (last l1) eqn:E; [rewrite decide_False by naive_solver|rewrite decide_True by done];
      unfold fupd; cbn [rq_head rq_count]; by rewrite Hcnt. }
  split; [|split; [|done]].
  - apply (QInv_change s); [done| | | | |].
    + rewrite Hrq3. cbn [rq_head]. eapply chain_insert; [rewrite <- El; apply (q_chain _ _ HQ c)|by rewrite <- El| | |].
      * unfold nxt. by rewrite Hth3, decide_False, decide_True.
      * destruct (last l1) eqn:E; [|done]. split; [done|]. unfold nxt. by rewrite Hth3, decide_True.
      * intros x Hx Hne. unfold nxt. rewrite Hth3, decide_False, decide_False; [done| |done].
        intros ->. apply (Ht c). by rewrite El.
    + by rewrite Hrq3.
    + intros d Hd. unfold s3. rewrite rq_set_rq, decide_False by done. unfold s2.
      rewrite rq_set_link, decide_False by naive_solver. done.
    + intros x Hx. assert (Hx' : x = t \/ x ∈ q c) by (rewrite El; set_solver). destruct Hx' as [->|Hx']; [by split|].
      split; [by apply (q_bound _ _ HQ c)|]. intros d Hd Hxd. apply Hd. by apply (q_disj _ _ HQ d c x).
    + intros d x Hd Hx. unfold nxt. rewrite Hth3, decide_False, decide_False; [done| |].
      * intros ->. by apply (Ht d).
      * intros E%last_Some_elem_of. apply Hd. apply (q_disj _ _ HQ d c x); [done|]. rewrite El. set_solver.
  - split; [|unfold s3, s2, s1; by destruct (last l1)].
    intros x. rewrite Hth3. case_decide; [by rewrite core_next|]. case_decide; [subst; by rewrite core_next|done].
Qed.

(** Unlinking [t], which the cursor [last l1] leads to. *)
Lemma unlink_Q s s' q c t l1 l2 :
  QInv s q -> q c = l1 ++ t :: l2 ->
  (forall x, th s' x = if decide (last l1 = Some x) then (th s x) <| th_next := nxt s t |>
     else if decide (x = t) then (th s t) <| th_next := None |> else th s x) ->
  rq s' c = {| rq_head := if last l1 is Some _ then rq_head (rq s c) else nxt s t;
               rq_count := rq_count (rq s c) - 1 |} ->
  (forall d, d ≠ c -> rq s' d = rq s d) ->
  QInv s' (<[c := l1 ++ l2]> q).
Proof.
  intros HQ El Hth Hrq Hoth. pose proof (q_nodup _ _ c HQ) as Hnd. rewrite El in Hnd.
  assert (Hsub : forall x, x ∈ l1 ++ l2 -> x ∈ q c /\ x ≠ t).
  { intros x Hx. split; [rewrite El; set_solver|]. intros ->. apply NoDup_app in Hnd as (_ & Hd & Hn2).
    apply NoDup_cons in Hn2 as [Hn2 _]. apply elem_of_app in Hx as [Hx|Hx]; [|done]. apply (Hd t Hx). set_solver. }
  apply (QInv_change s); [done| | |done| |].
  - rewrite Hrq. cbn [rq_head]. eapply chain_delete; [rewrite <- El; apply (q_chain _ _ HQ c)| |].
    + destruct (last l1) as [p|] eqn:E; [|done]. split; [done|]. unfold nxt at 1. by rewrite Hth, decide_True.
    + intros x Hx Hne. destruct (Hsub x Hx) as [_ Hxt]. unfold nxt. by rewrite Hth, decide_False, decide_False.
  - rewrite Hrq. cbn [rq_count]. rewrite (q_count _ _ HQ c), El, !length_app. cbn [length]. lia.
  - intros x Hx. destruct (Hsub x Hx) as [Hx' _]. split; [by apply (q_bound _ _ HQ c)|].
    intros d Hd Hxd. apply Hd. by apply (q_disj _ _ HQ d c x).
  - intros d x Hd Hx. unfold nxt. assert (Hxc : x ∉ q c) by (intros ?; apply Hd; by apply (q_disj _ _ HQ d c x)).
    rewrite Hth, decide_False, decide_False; [done| |].
    + intros ->. apply Hxc. rewrite El. set_solver.
    + intros E%last_Some_elem_of. apply Hxc. rewrite El. set_solver.
Qed.

Lemma dequeue_Q s q c :
  QInv s q ->
  match q c with
  | [] => runq_dequeue_locked c s = (s, None)
  | t :: l => exists s', runq_dequeue_locked c s = (s', Some t) /\ QInv s' (<[c := l]> q) /\ qframe s s'
  end.
Proof.
  intros HQ. unfold runq_dequeue_locked. pose proof (q_chain _ _ HQ c) as Hc.
  destruct (q c) as [|t l] eqn:El; [unfold chain, lseg in Hc; by rewrite Hc|].
  pose proof (proj1 Hc) as Hh. rewrite Hh.
  assert (Hcnt : u32 (rq_count (rq s c) - 1) = rq_count (rq s c) - 1).
  { pose proof (q_length _ _ c HQ) as Hlen. rewrite (q_count _ _ HQ c), El in *. cbn [length] in *. rewrite u32_id; lia. }
  eexists. split; [done|]. split.
  - apply (unlink_Q s _ q c t [] l HQ El).
    + intros x. cbn [last]. rewrite decide_False by done. by rewrite th_set_rq, th_set_th, !th_set_rq.
    + rewrite rq_set_rq, decide_True, rq_set_th, rq_set_rq, decide_True by done.
      unfold fupd. cbn [rq_head rq_count last]. by rewrite Hcnt.
    + intros d Hd. rewrite rq_set_rq, decide_False, rq_set_th, rq_set_rq, decide_False by done. done.
  - split; [|done]. intros x. rewrite th_set_rq, th_set_th, !th_set_rq. case_decide; [subst; by rewrite core_next|done].
Qed.

Lemma remove_Q s q c t :
  QInv s q ->
  let s' := runq_remove_locked c t s in
  ((t ∉ q c) /\ s' = s) \/ exists l1 l2, q c = l1 ++ t :: l2 /\ QInv s' (<[c := l1 ++ l2]> q) /\ qframe s s'.
Proof.
  intros HQ. cbv zeta. unfold runq_remove_locked. rewrite (q_count _ _ HQ c), Nat2Z.id.
  destruct (remove_at_spec s t (q c) None _ (q_chain _ _ HQ c)) as [(l1 & l2 & El & Hr)|[Hn Hr]]; rewrite Hr; [right|by left].
  exists l1, l2. split; [done|]. replace (if last l1 is Some p then Some p else None) with (last l1) by (by destruct (last l1)).
  assert (Htl : last l1 ≠ Some t).
  { intros E%last_Some_elem_of. pose proof (q_nodup _ _ c HQ) as Hnd. rewrite El in Hnd.
    apply NoDup_app in Hnd as (_ & Hd & _). apply (Hd t E). set_solver. }
  set (s1 := set_link c (last l1) _ s). set (s2 := set_th t _ s1). set (s3 := set_rq c _ s2).
  assert (Hth : forall x, th s3 x = if decide (last l1 = Some x) then (th s x) <| th_next := nxt s t |>
     else if decide (x = t) then (th s t) <| th_next := None |> else th s x).
  { intros x. unfold s3. rewrite th_set_rq. unfold s2. rewrite th_set_th. unfold s1. rewrite !th_set_link.
    rewrite (decide_False (P := last l1 = Some t)) by done.
    destruct (decide (x = t)) as [->|]; [by rewrite decide_False|done]. }
  assert (Hcnt : 0 < rq_count (rq s c)) by (rewrite (q_count _ _ HQ c), El, length_app; cbn [length]; lia).
  assert (Hrq : forall d, rq s3 d = if decide (d = c) then {| rq_head := if last l1 is Some _ then rq_head (rq s c) else nxt s t;
               rq_count := rq_count (rq s c) - 1 |} else rq s d).
  { intros d. unfold s3. rewrite rq_set_rq. unfold s2. rewrite !rq_set_th. unfold s1. rewrite !rq_set_link.
    destruct (decide (d = c)) as [->|Hd]; [|by rewrite decide_False by naive_solver].
    destruct (last l1) eqn:E; [rewrite decide_False by naive_solver|rewrite decide_True by done];
      unfold fupd; cbn [rq_head rq_count]; rewrite (proj2 (Z.ltb_lt 0 _)) by done; unfold nxt; by rewrite <- Z.sub_1_r. }
  split.
  - apply (unlink_Q s s3 q c t l1 l2 HQ El Hth); [by rewrite Hrq, decide_True|]. intros d Hd. by rewrite Hrq, decide_False.
  - split; [|unfold s3, s2, s1; by destruct (last l1)].
    intros x. rewrite Hth. case_decide; [by rewrite core_next|]. case_decide; [subst; by rewrite core_next|done].
Qed.

(** A stolen thread leaves the tail of a queue. *)
Lemma steal_Q s q my :
  QInv s q ->
  (scheduler_steal_work my s = (s, None)) \/
  exists v l t s', scheduler_steal_work my s = (s', Some t) /\ q v = l ++ [t] /\ QInv s' (<[v := l]> q) /\
    qframe (set_th t (fun x => x <| th_assigned_cpu := my |>) s) s'.
Proof.
  intros HQ. unfold scheduler_steal_work. destruct (_ <=? 1)%nat; [by left|].
  destruct (busiest my s) as [v|]; [|by left]. pose proof (q_chain _ _ HQ v) as Hc.
  destruct (q v) as [|x l0] eqn:El; [unfold chain, lseg in Hc; rewrite Hc; by left|].
  pose proof (proj1 Hc) as Hh. rewrite Hh in Hc |- *.
  destruct (Z.ltb_spec 1 (rq_count (rq s v))) as [Hgt|]; [right|by left].
  rewrite (q_count _ _ HQ v), Nat2Z.id, El. destruct (last_at_spec s l0 x None Hc) as (l & t & E & Hla).
  rewrite Hla. replace (if last l is Some p then Some p else None) with (last l) by (by destruct (last l)).
  set (s1 := set_link v (last l) None s). set (s2 := set_rq v _ s1). set (s3 := set_th t _ s2).
  exists v, l, t, s3. split; [done|]. split; [by rewrite El, E|].
  assert (Hnt : nxt s t = None).
  { rewrite E in Hc. apply lseg_snoc in Hc as [_ Hc]. done. }
  assert (Htl : last l ≠ Some t).
  { intros E'%last_Some_elem_of. pose proof (q_nodup _ _ v HQ) as Hnd. rewrite El, E in Hnd.
    apply NoDup_app in Hnd as (_ & Hd & _). apply (Hd t E'). set_solver. }
  set (a := fun x : chimera_thread => x <| th_assigned_cpu := my |>).
  assert (Hth : forall y, th s3 y = if decide (last l = Some y) then (th s y) <| th_next := nxt s t |>
     else if decide (y = t) then a ((th s t) <| th_next := None |>) else th s y).
  { intros y. unfold s3. rewrite th_set_th. unfold s2. rewrite !th_set_rq. unfold s1. rewrite !th_set_link, Hnt.
    rewrite (decide_False (P := last l = Some t)) by done.
    destruct (decide (y = t)) as [->|]; [by rewrite decide_False|done]. }
  assert (Hcnt : u32 (rq_count (rq s v) - 1) = rq_count (rq s v) - 1).
  { pose proof (q_length _ _ v HQ). rewrite u32_id; [done|]. rewrite (q_count _ _ HQ v) in *. lia. }
  assert (Hrq : forall d, rq s3 d = if decide (d = v) then {| rq_head := if last l is Some _ then rq_head (rq s v) else nxt s t;
               rq_count := rq_count (rq s v) - 1 |} else rq s d).
  { intros d. unfold s3. rewrite rq_set_th. unfold s2. rewrite rq_set_rq. unfold s1. rewrite !rq_set_link.
    destruct (decide (d = v)) as [->|Hd]; [|by rewrite decide_False by naive_solver]. rewrite Hnt.
    destruct (last l) eqn:E'; [rewrite decide_False by naive_solver|rewrite decide_True by done];
      unfold fupd; cbn [rq_head rq_count]; by rewrite Hcnt. }
  split.
  - assert (HQa : QInv (set_th t a s) q) by (by apply QInv_set_th).
    assert (Hna : nxt (set_th t a s) t = nxt s t) by (unfold nxt; by rewrite th_set_th, decide_True).
    pose proof (unlink_Q (set_th t a s) s3 q v t l [] HQa) as HU. rewrite app_nil_r in HU.
    apply HU; [by rewrite El, E| | |].
    + intros y. rewrite Hna, Hth, !th_set_th, (decide_True (P := t = t)) by done.
      destruct (decide (last l = Some y)) as [E'|]; [by rewrite decide_False by congruence|].
      by destruct (decide (y = t)).
    + by rewrite Hrq, decide_True, Hna by done.
    + intros d Hd. by rewrite Hrq, decide_False.
  - split; [|unfold s3, s2, s1; by destruct (last l)].
    intros y. rewrite Hth, th_set_th. destruct (decide (last l = Some y)) as [E'|].
    + by rewrite decide_False by congruence.
    + case_decide; [subst|]; done.
Qed.
End Queues.
End Sched.
