(* ===== verification/SchedSpec.v ===== *)
(** * Mutual exclusion of the scheduler

    CPUs, wakers and killers as a step relation over [Sched], and the theorem
    that in every reachable state a thread runs on at most one CPU, sits on at
    most one run queue, and is not lost while it is ready. *)

From Stdlib Require Import Sorted.
From stdpp Require Import functions sorting.
From S2P Require Import Prelude Sched.
Import Sched.

Module SchedSpec.

(** Where a CPU is in [scheduler_yield]: running a thread, running a thread that
    has marked itself waiting and is about to yield, after the section under the
    run queue lock, after choosing a thread, and after writing
    [cpu_current_thread] while still on the old stack. *)
Inductive yield_pc : Set :=
| Running
| Parked
| Picked (new : option nat)
| Chosen (new : nat)
| Switching (old : nat).

(** [waking]: threads whose state a waker has swapped to ready and that it has
    not queued yet.  [dying]: threads that [scheduler_remove_thread] was called
    for. *)
Record sys := { sd : sched; pcs : nat -> yield_pc; waking : gset nat; dying : gset nat }.

(** ** The abstract state *)

Record view := {
  vS : nat -> thread_state;
  vR : nat -> option nat;
  vcur : nat -> nat;
  vpc : nat -> yield_pc;
  vW : nat -> Prop;
  vD : nat -> Prop;
  vQ : nat -> Prop
}.
#[global] Instance view_eta : Eta view := fun r =>
  {| vS := vS r; vR := vR r; vcur := vcur r; vpc := vpc r; vW := vW r; vD := vD r; vQ := vQ r |}.

Definition upd {A} (f : nat -> A) (a : nat) (b : A) (x : nat) : A := if decide (x = a) then b else f x.

Definition transit (p : yield_pc) (t : nat) : Prop := p = Picked (Some t) \/ p = Chosen t.
Definition stop (x : thread_state) : Prop := x = THREAD_STATE_READY \/ x = THREAD_STATE_HALTED.

Section View.
(** The idle thread of each CPU. *)
Variable idle : nat -> nat.
Definition normal (t : nat) : Prop := forall c, t ≠ idle c.

(** CPU [c] is on the stack of [t]. *)
Definition exec (v : view) (c t : nat) : Prop := vcur v c = t \/ vpc v c = Switching t.

Record VInv (v : view) : Prop := {
  w_cur : forall c, vcur v c = idle c \/ normal (vcur v c);
  w_old : forall c o, vpc v c = Switching o -> o ≠ vcur v c /\ (o = idle c \/ normal o);
  w_queued : forall t, vQ v t -> normal t /\ stop (vS v t) /\ ~ vW v t;
  w_waking : forall t, vW v t -> normal t /\ stop (vS v t);
  w_transit : forall c t, transit (vpc v c) t -> t = idle c \/
    (normal t /\ stop (vS v t) /\ ~ vQ v t /\ ~ vW v t /\ forall d, transit (vpc v d) t -> d = c);
  w_exec : forall c t, exec v c t -> normal t -> vR v t = Some c /\ vS v t ≠ THREAD_STATE_NEW;
  w_run : forall c, vpc v c = Running \/ (exists o, vpc v c = Switching o) -> normal (vcur v c) ->
    (vS v (vcur v c) = THREAD_STATE_RUNNING \/ vS v (vcur v c) = THREAD_STATE_HALTED) /\
    ~ vQ v (vcur v c) /\ ~ vW v (vcur v c) /\ forall d, ~ transit (vpc v d) (vcur v c);
  w_ready : forall t, normal t -> vS v t = THREAD_STATE_READY -> ~ vD v t ->
    vQ v t \/ vW v t \/ exists c, transit (vpc v c) t
}.

Record veq (v v' : view) : Prop := {
  e_S : forall t, vS v t = vS v' t;
  e_R : forall t, vR v t = vR v' t;
  e_cur : forall c, vcur v c = vcur v' c;
  e_pc : forall c, vpc v c = vpc v' c;
  e_W : forall t, vW v t <-> vW v' t;
  e_D : forall t, vD v t <-> vD v' t;
  e_Q : forall t, vQ v t <-> vQ v' t
}.

#[export] Instance VInv_proper : Proper (veq ==> impl) VInv.
Proof.
  intros v v' [H1 H2 H3 H4 H5 H6 H7] [W1 W2 W3 W4 W5 W6 W7 W8]. unfold exec in *. constructor.
  - intros c. rewrite <- H3. apply W1.
  - intros c o. rewrite <- H4, <- H3. apply W2.
  - intros t. rewrite <- H7, <- H1, <- H5. apply W3.
  - intros t. rewrite <- H5, <- H1. apply W4.
  - intros c t. rewrite <- H4. intros [?|(A & B & C & D & E)]%W5; [by left|right].
    rewrite <- H1, <- H7, <- H5. repeat (split; [done|]). intros d. rewrite <- H4. apply E.
  - intros c t. unfold exec. rewrite <- H3, <- H4, <- H1, <- H2. apply W6.
  - intros c. rewrite <- H4, <- !H3, <- H1, <- H7, <- H5. intros Hp Hn. destruct (W7 c Hp Hn) as (A & B & C & D).
    repeat (split; [done|]). intros d. rewrite <- H4. apply D.
  - intros t. rewrite <- H1, <- H6, <- H7, <- H5. intros Hn Hs Hd. destruct (W8 t Hn Hs Hd) as [?|[?|[c ?]]]; [by left|by right; left|].
    right; right. exists c. by rewrite <- H4.
Qed.

Lemma exec_unique v c d t : VInv v -> exec v c t -> exec v d t -> normal t -> c = d.
Proof. intros HV Hc Hd Hn. destruct (w_exec _ HV c t Hc Hn), (w_exec _ HV d t Hd Hn). congruence. Qed.

Ltac vcase := unfold upd, transit, exec, stop in *; cbn [vS vR vcur vpc vW vD vQ fupd] in *.

(** The current thread of CPU [c] marks itself waiting. *)
Lemma V_sleep v c :
  VInv v -> vpc v c = Running -> normal (vcur v c) ->
  VInv (v <| vS ::= fun f => upd f (vcur v c) THREAD_STATE_WAITING |> <| vpc ::= fun f => upd f c Parked |>).
Proof.
  intros [W1 W2 W3 W4 W5 W6 W7 W8] Hp Hn. destruct (W7 c (or_introl Hp) Hn) as (_ & HnQ & HnW & HnT).
  constructor; vcase.
  - done.
  - intros d o. case_decide; [done|apply W2].
  - intros t Ht. destruct (W3 t Ht) as (? & ? & ?). rewrite decide_False by (intros ->; done). done.
  - intros t Ht. rewrite decide_False by (intros ->; done). by apply W4.
  - intros d t. destruct (decide (d = c)) as [->|]; [naive_solver|]. intros Ht.
    destruct (W5 d t Ht) as [?|(A & B & C & D & E)]; [by left|right].
    rewrite decide_False by (intros ->; by apply (HnT d)). repeat (split; [done|]).
    intros e. case_decide; [naive_solver|apply E].
  - intros d t Ht Hnt. assert (He : vcur v d = t \/ vpc v d = Switching t) by (case_decide; naive_solver).
    destruct (W6 d t He Hnt). split; [done|]. by destruct (decide (t = vcur v c)).
  - intros d Hd Hnd. destruct (decide (d = c)) as [->|Hdc]; [naive_solver|].
    destruct (W7 d Hd Hnd) as (A & B & C & D).
    rewrite decide_False.
    2:{ intros E. destruct (W6 d (vcur v d)) as [E1 _]; [by left|done|].
        destruct (W6 c (vcur v c)) as [E2 _]; [by left|done|]. congruence. }
    repeat (split; [done|]). intros e. case_decide; [naive_solver|apply D].
  - intros t Hnt. case_decide; [done|]. intros Hs Hd. destruct (W8 t Hnt Hs Hd) as [?|[?|[e He]]]; [by left|by right; left|].
    right; right. exists e. rewrite decide_False; [done|]. intros ->. destruct He; congruence.
Qed.

(** A waker wins the compare-and-swap on a waiting thread. *)
Lemma V_cas v t :
  VInv v -> normal t -> vS v t = THREAD_STATE_WAITING ->
  VInv (v <| vS ::= fun f => upd f t THREAD_STATE_READY |> <| vW ::= fun f x => x = t \/ f x |>).
Proof.
  intros [W1 W2 W3 W4 W5 W6 W7 W8] Hn Hs.
  assert (HnQ : ~ vQ v t) by (intros (_ & [?|?] & _)%W3; congruence).
  assert (HnT : forall c, t ≠ idle c -> ~ transit (vpc v c) t).
  { intros c Hc [?|(_ & [?|?] & _)]%W5; congruence. }
  constructor; vcase.
  - done.
  - done.
  - intros u Hu. destruct (W3 u Hu) as (? & ? & ?). rewrite decide_False by (intros ->; done).
    split; [done|]. split; [done|]. intros [->|?]; done.
  - intros u [->|Hu]; [rewrite decide_True by done; eauto|]. destruct (W4 u Hu). split; [done|]. case_decide; eauto.
  - intros d u Hu. destruct (W5 d u Hu) as [?|(A & B & C & D & E)]; [by left|right].
    rewrite decide_False by (intros ->; by destruct (HnT d (Hn d))). repeat (split; [done|]). split; [|done].
    intros [->|?]; [|done]. by destruct (HnT d (Hn d)).
  - intros d u Hu Hnu. destruct (W6 d u Hu Hnu). split; [done|]. by case_decide.
  - intros d Hd Hnd. destruct (W7 d Hd Hnd) as (A & B & C & D).
    assert (Hne : vcur v d ≠ t) by (intros E; rewrite E in A; destruct A; congruence).
    rewrite decide_False by done. repeat (split; [done|]). split; [|done]. intros [?|?]; done.
  - intros u Hnu. case_decide; [by right; left; left|]. intros Hs' Hd.
    destruct (W8 u Hnu Hs' Hd) as [?|[?|[e ?]]]; [by left|by right; left; right|]. right; right. eauto.
Qed.

(** The elected waker queues the thread. *)
Lemma V_enqueue v t :
  VInv v -> vW v t -> VInv (v <| vQ ::= fun f x => x = t \/ f x |> <| vW ::= fun f x => x ≠ t /\ f x |>).
Proof.
  intros [W1 W2 W3 W4 W5 W6 W7 W8] Hw. destruct (W4 t Hw) as [Hn Hs].
  assert (HnT : forall c, ~ transit (vpc v c) t).
  { intros c [->|(_ & _ & _ & ? & _)]%W5; [by destruct (Hn c)|done]. }
  constructor; vcase.
  - done.
  - done.
  - intros u [->|Hu]; [split; [done|]; split; [done|]; by intros [? _]|]. destruct (W3 u Hu) as (? & ? & ?).
    split; [done|]. split; [done|]. by intros [_ ?].
  - intros u [_ Hu]. by apply W4.
  - intros d u Hu. destruct (W5 d u Hu) as [?|(A & B & C & D & E)]; [by left|right].
    do 2 (split; [done|]). split; [intros [->|?]; [by destruct (HnT d)|done]|]. split; [by intros [_ ?]|done].
  - done.
  - intros d Hd Hnd. destruct (W7 d Hd Hnd) as (A & B & C & D). split; [done|].
    split; [intros [E|?]; [rewrite E in C; done|done]|]. split; [by intros [_ ?]|done].
  - intros u Hnu Hs' Hd. destruct (W8 u Hnu Hs' Hd) as [?|[?|[e ?]]]; [by left; right| |right; right; eauto].
    destruct (decide (u = t)); [by left; left|by right; left].
Qed.

(** [scheduler_remove_thread] marks a thread. *)
Lemma V_halt v t :
  VInv v -> normal t ->
  VInv (v <| vS ::= fun f => upd f t THREAD_STATE_HALTED |> <| vD ::= fun f x => x = t \/ f x |>).
Proof.
  intros [W1 W2 W3 W4 W5 W6 W7 W8] Hn. constructor; vcase.
  - done.
  - done.
  - intros u Hu. destruct (W3 u Hu) as (? & ? & ?). split; [done|]. split; [|done]. case_decide; eauto.
  - intros u Hu. destruct (W4 u Hu). split; [done|]. case_decide; eauto.
  - intros d u Hu. destruct (W5 d u Hu) as [?|(A & B & C & D & E)]; [by left|right].
    split; [done|]. split; [case_decide; eauto|done].
  - intros d u Hu Hnu. destruct (W6 d u Hu Hnu). split; [done|]. by case_decide.
  - intros d Hd Hnd. destruct (W7 d Hd Hnd) as (A & B & C & D). split; [case_decide; eauto|done].
  - intros u Hnu. case_decide; [done|]. intros Hs' Hd. apply W8; [done|done|]. intros ?. apply Hd. by right.
Qed.

(** and takes it off its queue. *)
Lemma V_unlink v t : VInv v -> vD v t -> VInv (v <| vQ ::= fun f x => x ≠ t /\ f x |>).
Proof.
  intros [W1 W2 W3 W4 W5 W6 W7 W8] Hd. constructor; vcase; try done.
  - intros u [_ Hu]. by apply W3.
  - intros d u Hu. destruct (W5 d u Hu) as [?|(A & B & C & D & E)]; [by left|right].
    do 2 (split; [done|]). split; [by intros [_ ?]|done].
  - intros d Hd' Hnd. destruct (W7 d Hd' Hnd) as (A & B & C & D). split; [done|]. split; [by intros [_ ?]|done].
  - intros u Hnu Hs' Hu. destruct (W8 u Hnu Hs' Hu) as [?|?]; [|by right]. left. split; [by intros ->|done].
Qed.

Lemma V_add v t :
  VInv v -> normal t -> vS v t = THREAD_STATE_NEW ->
  VInv (v <| vS ::= fun f => upd f t THREAD_STATE_READY |> <| vR ::= fun f => upd f t None |>
          <| vQ ::= fun f x => x = t \/ f x |>).
Proof.
  intros [W1 W2 W3 W4 W5 W6 W7 W8] Hn Hs.
  assert (HnW : ~ vW v t) by (intros (_ & [?|?])%W4; congruence).
  assert (HnT : forall c, ~ transit (vpc v c) t).
  { intros c [->|(_ & [?|?] & _)]%W5; [by destruct (Hn c)|congruence..]. }
  assert (HnE : forall c, ~ exec v c t) by (intros c He; by destruct (W6 c t He Hn)).
  constructor; vcase.
  - done.
  - done.
  - intros u [->|Hu]; [rewrite decide_True by done; eauto|]. destruct (W3 u Hu) as (? & ? & ?).
    split; [done|]. split; [case_decide; eauto|done].
  - intros u Hu. destruct (W4 u Hu). split; [done|]. case_decide; eauto.
  - intros d u Hu. destruct (W5 d u Hu) as [?|(A & B & C & D & E)]; [by left|right].
    assert (u ≠ t) by (intros ->; by destruct (HnT d)). rewrite decide_False by done.
    do 2 (split; [done|]). split; [by intros [?|?]|done].
  - intros d u Hu Hnu. assert (u ≠ t) by (intros ->; by destruct (HnE d)). rewrite !decide_False by done. by apply W6.
  - intros d Hd Hnd. destruct (W7 d Hd Hnd) as (A & B & C & D).
    assert (vcur v d ≠ t) by (intros <-; destruct (HnE d); by left). rewrite decide_False by done.
    split; [done|]. split; [by intros [?|?]|done].
  - intros u Hnu. case_decide; [by left; left|]. intros Hs' Hd.
    destruct (W8 u Hnu Hs' Hd) as [?|?]; [by left; right|by right].
Qed.

(** The section of [scheduler_yield] under the lock: a running thread is queued, *)
Lemma V_yield_enqueue v c :
  VInv v -> vpc v c = Running \/ vpc v c = Parked -> normal (vcur v c) -> vS v (vcur v c) = THREAD_STATE_RUNNING ->
  VInv (v <| vS ::= fun f => upd f (vcur v c) THREAD_STATE_READY |> <| vQ ::= fun f x => x = vcur v c \/ f x |>
          <| vpc ::= fun f => upd f c (Picked None) |>).
Proof.
  intros [W1 W2 W3 W4 W5 W6 W7 W8] Hp Hn Hs.
  assert (HnQ : ~ vQ v (vcur v c)) by (intros (_ & [?|?] & _)%W3; congruence).
  assert (HnW : ~ vW v (vcur v c)) by (intros (_ & [?|?])%W4; congruence).
  assert (HnT : forall d, ~ transit (vpc v d) (vcur v c)).
  { intros d [E|(_ & [?|?] & _)]%W5; [by destruct (Hn d)|congruence..]. }
  assert (HnS : forall o, vpc v c ≠ Switching o) by (intros o; destruct Hp; congruence).
  constructor; vcase.
  - done.
  - intros d o. case_decide; [done|apply W2].
  - intros u [->|Hu]; [rewrite decide_True by done; eauto|]. destruct (W3 u Hu) as (? & ? & ?).
    split; [done|]. split; [case_decide; eauto|done].
  - intros u Hu. destruct (W4 u Hu). split; [done|]. case_decide; eauto.
  - intros d u. destruct (decide (d = c)) as [->|]; [by intros [?|?]|]. intros Hu.
    destruct (W5 d u Hu) as [?|(A & B & C & D & E)]; [by left|right].
    assert (Hne : u ≠ vcur v c) by (intros ->; by apply (HnT d)). rewrite decide_False by done.
    do 2 (split; [done|]). split; [by intros [?|?]|]. split; [done|].
    intros e. case_decide; [by intros [?|?]|apply E].
  - intros d u Hu Hnu. assert (He : vcur v d = u \/ vpc v d = Switching u).
    { destruct (decide (d = c)) as [->|]; [|done]. destruct Hu; [by left|done]. }
    destruct (W6 d u He Hnu). split; [done|]. by destruct (decide (u = vcur v c)).
  - intros d Hd Hnd. destruct (decide (d = c)) as [->|Hdc]; [destruct Hd as [?|[? ?]]; done|].
    destruct (W7 d Hd Hnd) as (A & B & C & D).
    assert (Hne : vcur v d ≠ vcur v c).
    { intros E. destruct (W6 d (vcur v d)) as [E1 _]; [by left|done|].
      destruct (W6 c (vcur v c)) as [E2 _]; [by left|done|]. congruence. }
    rewrite decide_False by done. split; [done|]. split; [by intros [?|?]|]. split; [done|].
    intros e. case_decide; [by intros [?|?]|apply D].
  - intros u Hnu. destruct (decide (u = vcur v c)) as [->|]; [by left; left|]. intros Hs' Hd.
    destruct (W8 u Hnu Hs' Hd) as [?|[?|[e He]]]; [by left; right|by right; left|].
    right; right. exists e. rewrite decide_False; [done|]. intros ->. destruct He, Hp; congruence.
Qed.

(** one that sleeps, dies or is idle is not. *)
Lemma V_yield_keep v c :
  VInv v -> vpc v c = Running \/ vpc v c = Parked ->
  VInv (v <| vpc ::= fun f => upd f c (Picked None) |>).
Proof.
  intros [W1 W2 W3 W4 W5 W6 W7 W8] Hp. constructor; vcase; try done.
  - intros d o. case_decide; [done|apply W2].
  - intros d u. destruct (decide (d = c)) as [->|]; [by intros [?|?]|]. intros Hu.
    destruct (W5 d u Hu) as [?|(A & B & C & D & E)]; [by left|right]. do 4 (split; [done|]).
    intros e. case_decide; [by intros [?|?]|apply E].
  - intros d u Hu. apply W6. destruct (decide (d = c)) as [->|]; [|done]. destruct Hu; [by left|done].
  - intros d Hd Hnd. destruct (decide (d = c)) as [->|Hdc]; [destruct Hd as [?|[? ?]]; done|].
    destruct (W7 d Hd Hnd) as (A & B & C & D). do 3 (split; [done|]).
    intros e. case_decide; [by intros [?|?]|apply D].
  - intros u Hnu Hs' Hd. destruct (W8 u Hnu Hs' Hd) as [?|[?|[e He]]]; [by left|by right; left|].
    right; right. exists e. rewrite decide_False; [done|]. intros ->. destruct He, Hp; congruence.
Qed.

(** A queued thread is dequeued or stolen by CPU [c]. *)
Lemma V_take_queued v c t p :
  VInv v -> vpc v c = Picked None -> vQ v t -> p = Picked (Some t) \/ p = Chosen t ->
  VInv (v <| vQ ::= fun f x => x ≠ t /\ f x |> <| vpc ::= fun f => upd f c p |>).
Proof.
  intros [W1 W2 W3 W4 W5 W6 W7 W8] Hp HQ Hpp. destruct (W3 t HQ) as (Hn & Hst & HnW).
  assert (HnT : forall d, ~ transit (vpc v d) t).
  { intros d [->|(_ & _ & ? & _)]%W5; [by destruct (Hn d)|done]. }
  assert (Htr : forall u, transit p u <-> u = t).
  { intros u. unfold transit. destruct Hpp as [->| ->]; naive_solver. }
  assert (HnS : forall o, p ≠ Switching o) by (intros o; destruct Hpp; congruence).
  assert (HnR : p ≠ Running) by (destruct Hpp; congruence).
  constructor; unfold upd, exec in *; cbn [vS vR vcur vpc vW vD vQ fupd] in *.
  - done.
  - intros d o. case_decide; [intros ?; by destruct (HnS o)|apply W2].
  - intros u [_ Hu]. by apply W3.
  - done.
  - intros d u. destruct (decide (d = c)) as [->|Hdc].
    + intros ->%Htr. right. do 2 (split; [done|]). split; [by intros [? _]|]. split; [done|].
      intros e. case_decide; [done|]. intros He. by destruct (HnT e).
    + intros Hu. destruct (W5 d u Hu) as [?|(A & B & C & D & E)]; [by left|right].
      do 2 (split; [done|]). split; [by intros [_ ?]|]. split; [done|].
      intros e. case_decide; [|apply E]. intros ->%Htr. by destruct (HnT d).
  - intros d u Hu. apply W6. destruct (decide (d = c)) as [->|]; [|done]. destruct Hu; [by left|by destruct (HnS u)].
  - intros d Hd Hnd. destruct (decide (d = c)) as [->|Hdc]; [destruct Hd as [?|[o ?]]; [done|by destruct (HnS o)]|].
    destruct (W7 d Hd Hnd) as (A & B & C & D). split; [done|]. split; [by intros [_ ?]|]. split; [done|].
    intros e. case_decide; [|apply D]. intros E%Htr. rewrite E in B. done.
  - intros u Hnu Hs' Hd. destruct (decide (u = t)) as [->|Hne].
    { right; right. exists c. rewrite decide_True by done. by apply Htr. }
    destruct (W8 u Hnu Hs' Hd) as [?|[?|[e He]]]; [by left|by right; left|].
    right; right. exists e. rewrite decide_False; [done|]. intros ->. unfold transit in He. destruct He; congruence.
Qed.

(** Choosing the thread in hand, or the idle thread. *)
Lemma V_choose v c t :
  VInv v -> vpc v c = Picked (Some t) \/ (vpc v c = Picked None /\ t = idle c) ->
  VInv (v <| vpc ::= fun f => upd f c (Chosen t) |>).
Proof.
  intros [W1 W2 W3 W4 W5 W6 W7 W8] Hp.
  assert (Htr : forall d u, transit (if decide (d = c) then Chosen t else vpc v d) u ->
    transit (vpc v d) u \/ (d = c /\ u = idle c)).
  { intros d u. case_decide; [subst|by left]. intros [?|[= <-]]; [done|].
    destruct Hp as [Hp|[_ ->]]; [left; by left|by right]. }
  constructor; unfold upd, exec in *; cbn [vS vR vcur vpc vW vD vQ fupd] in *; try done.
  - intros d o. case_decide; [done|apply W2].
  - intros d u [Hu|[-> ->]]%Htr; [|by left]. destruct (W5 d u Hu) as [?|(A & B & C & D & E)]; [by left|right].
    do 4 (split; [done|]). intros e [He|[-> ->]]%Htr; [by apply E|]. by destruct (A c).
  - intros d u Hu. apply W6. destruct (decide (d = c)) as [->|]; [|done]. destruct Hu; [by left|done].
  - intros d Hd Hnd. destruct (decide (d = c)) as [->|Hdc]; [destruct Hd as [?|[? ?]]; done|].
    destruct (W7 d Hd Hnd) as (A & B & C & D). do 3 (split; [done|]).
    intros e [He|[-> E]]%Htr; [by apply (D e)|]. by destruct (Hnd c).
  - intros u Hnu Hs' Hd. destruct (W8 u Hnu Hs' Hd) as [?|[?|[e He]]]; [by left|by right; left|].
    right; right. exists e. destruct (decide (e = c)) as [->|]; [|done]. right.
    destruct He as [E|E], Hp as [Hp|[Hp _]]; congruence.
Qed.

(** The chosen thread is the current one: it keeps running. *)
Lemma V_same v c :
  VInv v -> vpc v c = Chosen (vcur v c) ->
  VInv (v <| vS ::= fun f => if decide (vcur v c = idle c) then f else upd f (vcur v c) THREAD_STATE_RUNNING |>
          <| vpc ::= fun f => upd f c Running |>).
Proof.
  intros HV Hp. pose proof HV as [W1 W2 W3 W4 W5 W6 W7 W8]. set (t := vcur v c) in *.
  assert (Htr : forall d u, transit (if decide (d = c) then Running else vpc v d) u -> transit (vpc v d) u /\ d ≠ c).
  { intros d u. case_decide; [|done]. by intros [?|?]. }
  destruct (decide (t = idle c)) as [Ei|Ei].
  - constructor; unfold upd, exec in *; cbn [vS vR vcur vpc vW vD vQ fupd] in *; try done.
    + intros d o. case_decide; [done|apply W2].
    + intros d u [Hu Hdc]%Htr. destruct (W5 d u Hu) as [?|(A & B & C & D & E)]; [by left|right].
      do 4 (split; [done|]). intros e [He _]%Htr. by apply E.
    + intros d u Hu. apply W6. destruct (decide (d = c)) as [->|]; [|done]. destruct Hu; [by left|done].
    + intros d Hd Hnd. destruct (decide (d = c)) as [->|Hdc]; [by destruct (Hnd c)|].
      destruct (W7 d Hd Hnd) as (A & B & C & D). do 3 (split; [done|]). intros e [He _]%Htr. by apply (D e).
    + intros u Hnu Hs' Hd. destruct (W8 u Hnu Hs' Hd) as [?|[?|[e He]]]; [by left|by right; left|].
      right; right. exists e. rewrite decide_False; [done|]. intros ->. destruct He as [?|[=]]; [congruence|].
      destruct (Hnu c). congruence.
  - destruct (W5 c t (or_intror Hp)) as [?|(Hn & Hst & HnQ & HnW & Huniq)]; [done|].
    constructor; unfold upd, exec in *; cbn [vS vR vcur vpc vW vD vQ fupd] in *; try done.
    + intros d o. case_decide; [done|apply W2].
    + intros u Hu. rewrite decide_False by (intros ->; done). by apply W3.
    + intros u Hu. rewrite decide_False by (intros ->; done). by apply W4.
    + intros d u [Hu Hdc]%Htr. destruct (W5 d u Hu) as [?|(A & B & C & D & E)]; [by left|right].
      rewrite decide_False by (intros ->; by apply Hdc, Huniq).
      do 4 (split; [done|]). intros e [He _]%Htr. by apply E.
    + intros d u Hu Hnu. assert (He : vcur v d = u \/ vpc v d = Switching u).
      { destruct (decide (d = c)) as [->|]; [|done]. destruct Hu; [by left|done]. }
      destruct (W6 d u He Hnu). split; [done|]. by destruct (decide (u = t)).
    + intros d Hd Hnd. destruct (decide (d = c)) as [->|Hdc].
      * fold t. rewrite decide_True by done. split; [by left|]. do 2 (split; [done|]). intros e [He Hec]%Htr.
        by apply Hec, Huniq.
      * destruct (W7 d Hd Hnd) as (A & B & C & D). rewrite decide_False.
        2:{ intros E. apply Hdc. apply (exec_unique v d c t HV); [by left|by left|done]. }
        do 3 (split; [done|]). intros e [He _]%Htr. by apply (D e).
    + intros u Hnu. case_decide; [done|]. intros Hs' Hd.
      destruct (W8 u Hnu Hs' Hd) as [?|[?|[e He]]]; [by left|by right; left|].
      right; right. exists e. rewrite decide_False; [done|]. intros ->. destruct He as [?|[=]]; congruence.
Qed.

(** CPU [c] takes a thread no CPU runs, or its idle thread. *)
Lemma V_take v c t :
  VInv v -> vpc v c = Chosen t -> t ≠ vcur v c -> t = idle c \/ vR v t = None ->
  VInv (v <| vS ::= fun f => if decide (t = idle c) then f else upd f t THREAD_STATE_RUNNING |>
          <| vR ::= fun f => if decide (t = idle c) then f else upd f t (Some c) |>
          <| vcur ::= fun f => upd f c t |> <| vpc ::= fun f => upd f c (Switching (vcur v c)) |>).
Proof.
  intros HV Hp Hne Hr. pose proof HV as [W1 W2 W3 W4 W5 W6 W7 W8]. set (o := vcur v c) in *.
  assert (Htr : forall d u, transit (if decide (d = c) then Switching o else vpc v d) u -> transit (vpc v d) u /\ d ≠ c).
  { intros d u. case_decide; [|done]. by intros [?|?]. }
  assert (Hex : forall d u, (if decide (d = c) then t else vcur v d) = u \/
    (if decide (d = c) then Switching o else vpc v d) = Switching u -> (d = c /\ u = t) \/ exec v d u).
  { intros d u. case_decide as E; [rewrite E|]; [|by right]. intros [<-|[= <-]]; [by left|right; by left]. }
  destruct (decide (t = idle c)) as [Ei|Ei].
  - constructor; unfold upd, exec in *; cbn [vS vR vcur vpc vW vD vQ fupd] in *; try done.
    + intros d. case_decide; [subst; by left|apply W1].
    + intros d o'. case_decide; [|apply W2]. intros [= <-]. subst. split; [done|apply W1].
    + intros d u [Hu Hdc]%Htr. destruct (W5 d u Hu) as [?|(A & B & C & D & E)]; [by left|right].
      do 4 (split; [done|]). intros e [He _]%Htr. by apply E.
    + intros d u [[-> ->]|He]%Hex Hnu; [by destruct (Hnu c)|by apply W6].
    + intros d Hd Hnd. destruct (decide (d = c)) as [->|Hdc]; [by destruct (Hnd c)|].
      destruct (W7 d Hd Hnd) as (A & B & C & D). do 3 (split; [done|]). intros e [He _]%Htr. by apply (D e).
    + intros u Hnu Hs' Hd. destruct (W8 u Hnu Hs' Hd) as [?|[?|[e He]]]; [by left|by right; left|].
      right; right. exists e. rewrite decide_False; [done|]. intros ->. destruct He as [?|?]; [congruence|].
      destruct (Hnu c). congruence.
  - destruct Hr as [?|Hr]; [done|].
    destruct (W5 c t (or_intror Hp)) as [?|(Hn & Hst & HnQ & HnW & Huniq)]; [done|].
    assert (HnE : forall d, ~ exec v d t) by (intros d He; destruct (W6 d t He Hn); congruence).
    constructor; unfold upd, exec in *; cbn [vS vR vcur vpc vW vD vQ fupd] in *; try done.
    + intros d. case_decide; [by right|apply W1].
    + intros d o'. case_decide; [|apply W2]. intros [= <-]. subst. split; [done|apply W1].
    + intros u Hu. rewrite decide_False by (intros ->; done). by apply W3.
    + intros u Hu. rewrite decide_False by (intros ->; done). by apply W4.
    + intros d u [Hu Hdc]%Htr. destruct (W5 d u Hu) as [?|(A & B & C & D & E)]; [by left|right].
      rewrite decide_False by (intros ->; by apply Hdc, Huniq).
      do 4 (split; [done|]). intros e [He _]%Htr. by apply E.
    + intros d u [[-> ->]|He]%Hex Hnu; [by rewrite !decide_True|].
      assert (u ≠ t) by (intros ->; by apply (HnE d)). rewrite !decide_False by done. by apply W6.
    + intros d Hd Hnd. destruct (decide (d = c)) as [->|Hdc].
      * rewrite decide_True by done. split; [by left|]. do 2 (split; [done|]). intros e [He Hec]%Htr.
        by apply Hec, Huniq.
      * destruct (W7 d Hd Hnd) as (A & B & C & D).
        rewrite decide_False by (intros E; apply (HnE d); by left).
        do 3 (split; [done|]). intros e [He _]%Htr. by apply (D e).
    + intros u Hnu. case_decide; [done|]. intros Hs' Hd.
      destruct (W8 u Hnu Hs' Hd) as [?|[?|[e He]]]; [by left|by right; left|].
      right; right. exists e. rewrite decide_False; [done|]. intros ->. destruct He as [?|?]; congruence.
Qed.

(** The stack is switched; the old thread is released. *)
Lemma V_switch v c o :
  VInv v -> vpc v c = Switching o ->
  VInv (v <| vR ::= fun f => if decide (o = idle c) then f else upd f o None |> <| vpc ::= fun f => upd f c Running |>).
Proof.
  intros HV Hp. pose proof HV as [W1 W2 W3 W4 W5 W6 W7 W8]. destruct (W2 c o Hp) as [Hne Hon].
  assert (Htr : forall d u, transit (if decide (d = c) then Running else vpc v d) u <-> transit (vpc v d) u).
  { intros d u. case_decide; [subst|done]. rewrite Hp. unfold transit. naive_solver. }
  assert (Hex : forall d u, vcur v d = u \/ (if decide (d = c) then Running else vpc v d) = Switching u ->
    exec v d u /\ (d = c -> u ≠ o)).
  { intros d u. destruct (decide (d = c)) as [->|].
    - intros [<-|?]; [|done]. split; [by left|]. congruence.
    - intros ?. by split. }
  constructor; unfold upd, exec in *; cbn [vS vR vcur vpc vW vD vQ fupd] in *; try done.
  - intros d o'. case_decide; [done|apply W2].
  - intros d u Hu%Htr. destruct (W5 d u Hu) as [?|(A & B & C & D & E)]; [by left|right].
    do 4 (split; [done|]). intros e He%Htr. by apply E.
  - intros d u [He Hdo]%Hex Hnu. destruct (W6 d u He Hnu) as [E1 ?]. split; [|done].
    destruct (decide (o = idle c)); [done|]. rewrite decide_False; [done|]. intros ->.
    destruct (W6 c o) as [E2 _]; [by right|done|]. apply Hdo; congruence.
  - intros d Hd Hnd. destruct (W7 d) as (A & B & C & D); [|done|].
    + destruct (decide (d = c)) as [->|]; [right; eauto|done].
    + do 3 (split; [done|]). intros e He%Htr. by apply (D e).
  - intros u Hnu Hs' Hd. destruct (W8 u Hnu Hs' Hd) as [?|[?|[e He]]]; [by left|by right; left|].
    right; right. exists e. by apply Htr.
Qed.
End View.

(** ** Steps *)

Section Steps.
(** Threads are numbered below [N], the idle thread of CPU [c] is [N + c]. *)
Variable N : nat.
Hypothesis N_small : Z.of_nat N < 2 ^ 32 - 1.
Definition idle_of (c : nat) : nat := (N + c)%nat.

Lemma normal_below t : normal idle_of t <-> (t < N)%nat.
Proof.
  unfold normal, idle_of. split; [|intros ? ?; lia]. intros Hn. destruct (decide (t < N)%nat); [done|].
  destruct (Hn (t - N)%nat). lia.
Qed.

Definition at_pc (y : sys) (c : nat) (p : yield_pc) (s : sched) : sys :=
  {| sd := s; pcs := upd (pcs y) c p; waking := waking y; dying := dying y |}.

(** Wait queues and the sleep list only touch these fields. *)
Definition forget_wait (x : chimera_thread) : chimera_thread :=
  x <| th_wait_next := None |> <| th_wait_result := CHIMERA_SUCCESS |> <| th_sleep_deadline := 0 |>.
Definition same_sched (s s' : sched) : Prop :=
  (forall t, forget_wait (th s' t) = forget_wait (th s t)) /\ s_cpu_runq s' = s_cpu_runq s /\
  g_cpu_data s' = g_cpu_data s /\ s_total_cpus s' = s_total_cpus s.

Inductive step (y : sys) : sys -> Prop :=
| st_sleep c t :
    (c < s_total_cpus (sd y))%nat -> pcs y c = Running -> cpu_current_thread (cpu (sd y) c) = Some t ->
    (t < N)%nat -> step y (at_pc y c Parked (set_th t (fun x => x <| th_state := THREAD_STATE_WAITING |>) (sd y)))
| st_cas t s' :
    (t < N)%nat -> wake_cas t (sd y) = (s', true) ->
    step y {| sd := s'; pcs := pcs y; waking := {[t]} ∪ waking y; dying := dying y |}
| st_wake c t :
    t ∈ waking y ->
    step y {| sd := wake_enqueue c t (sd y); pcs := pcs y; waking := waking y ∖ {[t]}; dying := dying y |}
| st_halt t :
    (t < N)%nat -> step y {| sd := halt t (sd y); pcs := pcs y; waking := waking y; dying := {[t]} ∪ dying y |}
| st_unlink c t :
    t ∈ dying y ->
    step y {| sd := runq_remove_locked c t (sd y); pcs := pcs y; waking := waking y; dying := dying y |}
| st_add t :
    (t < N)%nat -> th_state (th (sd y) t) = THREAD_STATE_NEW ->
    step y {| sd := scheduler_add_thread t (sd y); pcs := pcs y; waking := waking y; dying := dying y |}
| st_yield c s' new :
    (c < s_total_cpus (sd y))%nat -> pcs y c = Running \/ pcs y c = Parked ->
    yield_locked c (sd y) = (s', new) -> step y (at_pc y c (Picked new) s')
| st_pick c new s' t :
    (c < s_total_cpus (sd y))%nat -> pcs y c = Picked new -> yield_pick c new (sd y) = (s', Some t) ->
    step y (at_pc y c (Chosen t) s')
| st_same c t :
    (c < s_total_cpus (sd y))%nat -> pcs y c = Chosen t -> cpu_current_thread (cpu (sd y) c) = Some t ->
    step y (at_pc y c Running (yield_same c t (sd y)))
| st_take c t old :
    (c < s_total_cpus (sd y))%nat -> pcs y c = Chosen t -> cpu_current_thread (cpu (sd y) c) = Some old ->
    old ≠ t -> yield_ready c t (sd y) = true -> step y (at_pc y c (Switching old) (yield_take c t (sd y)))
| st_switch c old :
    (c < s_total_cpus (sd y))%nat -> pcs y c = Switching old ->
    step y (at_pc y c Running (context_switch c (Some old) (sd y)))
| st_wait s' :
    same_sched (sd y) s' ->
    step y {| sd := s'; pcs := pcs y; waking := waking y; dying := dying y |}.

(** ** The invariant *)

Definition view_of (y : sys) (q : nat -> list nat) : view :=
  {| vS := fun t => th_state (th (sd y) t); vR := fun t => th_running_cpu (th (sd y) t);
     vcur := fun c => default (idle_of c) (cpu_current_thread (cpu (sd y) c)); vpc := pcs y;
     vW := fun t => t ∈ waking y; vD := fun t => t ∈ dying y; vQ := fun t => exists c, t ∈ q c |}.

Definition CpuOk (s : sched) : Prop := forall c, (c < s_total_cpus s)%nat ->
  cpu_idle_thread (cpu s c) = Some (idle_of c) /\ is_Some (cpu_current_thread (cpu s c)).

Definition Inv (y : sys) : Prop :=
  exists q, QInv N (sd y) q /\ CpuOk (sd y) /\ VInv idle_of (view_of y q).

Lemma queued_insert (q : nat -> list nat) c l1 l2 t x :
  q c = l1 ++ l2 -> (exists d, x ∈ (<[c := l1 ++ t :: l2]> q) d) <-> x = t \/ exists d, x ∈ q d.
Proof.
  intros E. split.
  - intros [d Hd]. destruct (decide (d = c)) as [->|Hne]; [|rewrite fn_lookup_insert_ne in Hd by done; eauto].
    rewrite fn_lookup_insert in Hd. assert (Hx : x = t \/ x ∈ q c) by (rewrite E; set_solver). destruct Hx; eauto.
  - intros [->|[d Hd]]; [exists c; rewrite fn_lookup_insert; set_solver|]. exists d.
    destruct (decide (d = c)) as [->|Hne]; [|by rewrite fn_lookup_insert_ne]. rewrite fn_lookup_insert.
    rewrite E in Hd. set_solver.
Qed.

Lemma queued_delete s (q : nat -> list nat) c l1 l2 t x :
  QInv N s q -> q c = l1 ++ t :: l2 -> (exists d, x ∈ (<[c := l1 ++ l2]> q) d) <-> x ≠ t /\ exists d, x ∈ q d.
Proof.
  intros HQ E. pose proof (q_nodup _ _ _ c HQ) as Hnd. rewrite E in Hnd. split.
  - intros [d Hd]. destruct (decide (d = c)) as [->|Hne].
    + rewrite fn_lookup_insert in Hd. split; [|exists c; rewrite E; set_solver]. intros ->.
      apply NoDup_app in Hnd as (_ & Hdj & [Hn2 _]%NoDup_cons). apply elem_of_app in Hd as [Hd|Hd]; [|done].
      apply (Hdj t Hd). set_solver.
    + rewrite fn_lookup_insert_ne in Hd by done. split; [|eauto]. intros ->. apply Hne.
      apply (q_disj _ _ _ HQ d c t); [done|]. rewrite E. set_solver.
  - intros [Hne [d Hd]]. exists d. destruct (decide (d = c)) as [->|Hdc]; [|by rewrite fn_lookup_insert_ne].
    rewrite fn_lookup_insert. rewrite E in Hd. set_solver.
Qed.

Lemma CpuOk_frame s s' : CpuOk s -> g_cpu_data s' = g_cpu_data s -> s_total_cpus s' = s_total_cpus s -> CpuOk s'.
Proof. intros HC Hg Hn c. unfold cpu. rewrite Hg, Hn. apply HC. Qed.

(** Fields of threads and CPUs as functions. *)
Lemma running_set_th s t f u :
  th_running_cpu (th (set_th t f s) u) = if decide (u = t) then th_running_cpu (f (th s t)) else th_running_cpu (th s u).
Proof. rewrite th_set_th. by case_decide. Qed.

Lemma th_set_cpu s c f t : th (set_cpu c f s) t = th s t.
Proof. done. Qed.

Lemma Inv_sleep y c t :
  Inv y -> (c < s_total_cpus (sd y))%nat -> pcs y c = Running -> cpu_current_thread (cpu (sd y) c) = Some t ->
  (t < N)%nat -> Inv (at_pc y c Parked (set_th t (fun x => x <| th_state := THREAD_STATE_WAITING |>) (sd y))).
Proof.
  intros (q & HQ & HC & HV) Hc Hp Ht Hn. exists q. split; [by apply QInv_set_th|].
  split; [by eapply CpuOk_frame|]. assert (Hcur : vcur (view_of y q) c = t) by (cbn; by rewrite Ht).
  eapply VInv_proper; [|apply (V_sleep idle_of (view_of y q) c HV Hp); by rewrite Hcur; apply normal_below].
  rewrite Hcur. constructor; try done.
  - intros u. cbn. rewrite state_set_th. unfold upd. by case_decide.
  - intros u. cbn. rewrite running_set_th. by case_decide; subst.
Qed.

Lemma Inv_cas y t s' :
  Inv y -> (t < N)%nat -> wake_cas t (sd y) = (s', true) ->
  Inv {| sd := s'; pcs := pcs y; waking := {[t]} ∪ waking y; dying := dying y |}.
Proof.
  intros (q & HQ & HC & HV) Hn. unfold wake_cas. destruct (decide _) as [Hs|]; [|done]. intros [= <-].
  exists q. split; [by apply QInv_set_th|]. split; [by eapply CpuOk_frame|].
  eapply VInv_proper; [|apply (V_cas idle_of (view_of y q) t HV); [by apply normal_below|done]].
  constructor; try done.
  - intros u. cbn. rewrite state_set_th. unfold upd. by case_decide.
  - intros u. cbn. rewrite running_set_th. by case_decide; subst.
  - intros u. cbn. rewrite elem_of_union, elem_of_singleton. done.
Qed.

(** Updating a thread that is on no queue and queueing it. *)
Lemma Inv_enqueue s1 q c t f :
  QInv N s1 q -> (forall d, t ∉ q d) -> (t < N)%nat -> (forall x, th_next (f x) = th_next x) ->
  let s' := runq_enqueue_locked c t (set_th t f s1) in
  exists l1 l2, q c = l1 ++ l2 /\ QInv N s' (<[c := l1 ++ t :: l2]> q) /\ qframe (set_th t f s1) s'.
Proof.
  intros HQ Ht Hn Hf. destruct (enqueue_Q N N_small (set_th t f s1) q c t) as (l1 & l2 & ? & ? & ? & _); [by apply QInv_set_th|done|done|].
  by exists l1, l2.
Qed.

Lemma qframe_set_th_state s s' t f u :
  qframe (set_th t f s) s' ->
  th_state (th s' u) = if decide (u = t) then th_state (f (th s t)) else th_state (th s u).
Proof. intros HF. by rewrite (qframe_state _ _ _ HF), state_set_th. Qed.
Lemma qframe_set_th_running s s' t f u :
  qframe (set_th t f s) s' ->
  th_running_cpu (th s' u) = if decide (u = t) then th_running_cpu (f (th s t)) else th_running_cpu (th s u).
Proof. intros HF. by rewrite (qframe_running _ _ _ HF), running_set_th. Qed.

Lemma CpuOk_qframe s s' : CpuOk s -> qframe s s' -> CpuOk s'.
Proof. intros HC (_ & Hg & Hn). by eapply CpuOk_frame. Qed.
Lemma CpuOk_set_th s t f : CpuOk s -> CpuOk (set_th t f s).
Proof. intros HC. by eapply CpuOk_frame. Qed.

Lemma Inv_wake y c t :
  Inv y -> t ∈ waking y ->
  Inv {| sd := wake_enqueue c t (sd y); pcs := pcs y; waking := waking y ∖ {[t]}; dying := dying y |}.
Proof.
  intros (q & HQ & HC & HV) Hw. unfold wake_enqueue. set (s1 := set_th t _ (sd y)).
  set (away := _ || _). set (target := if away then c else _).
  assert (Hf : exists f, (if away then set_th t (fun x => x <| th_assigned_cpu := c |>) s1 else s1) = set_th t f (sd y) /\
    (forall x, th_next (f x) = th_next x) /\ (forall x, th_state (f x) = th_state x) /\
    (forall x, th_running_cpu (f x) = th_running_cpu x)).
  { unfold s1. destruct away; [rewrite set_th_twice|]; eexists; split; try done. }
  destruct Hf as (f & -> & Hf1 & Hf2 & Hf3). clearbody target.
  destruct (w_waking _ _ HV t Hw) as [Hn _].
  assert (HnQ : forall d, t ∉ q d). { intros d Hd. by destruct (w_queued _ _ HV t (ex_intro _ d Hd)) as (_ & _ & []). }
  destruct (Inv_enqueue (sd y) q target t f HQ HnQ) as (l1 & l2 & El & HQ' & HF); [by apply normal_below|done|].
  eexists. split; [exact HQ'|]. split; [by eapply CpuOk_qframe, HF; apply CpuOk_set_th|].
  eapply VInv_proper; [|apply (V_enqueue idle_of (view_of y q) t HV Hw)]. constructor; try done.
  - intros u. cbn. rewrite (qframe_set_th_state _ _ _ _ _ HF), Hf2. by case_decide; subst.
  - intros u. cbn. rewrite (qframe_set_th_running _ _ _ _ _ HF), Hf3. by case_decide; subst.
  - intros d. cbn. by rewrite (qframe_cpu _ _ d HF).
  - intros u. cbn. rewrite elem_of_difference, elem_of_singleton. tauto.
  - intros u. cbn. by rewrite (queued_insert q target l1 l2 t u El).
Qed.

Lemma Inv_halt y t :
  Inv y -> (t < N)%nat -> Inv {| sd := halt t (sd y); pcs := pcs y; waking := waking y; dying := {[t]} ∪ dying y |}.
Proof.
  intros (q & HQ & HC & HV) Hn. exists q. split; [by apply QInv_set_th|]. split; [by apply CpuOk_set_th|].
  eapply VInv_proper; [|apply (V_halt idle_of (view_of y q) t HV); by apply normal_below]. constructor; try done.
  - intros u. cbn. unfold halt. rewrite state_set_th. unfold upd. by case_decide.
  - intros u. cbn. unfold halt. rewrite running_set_th. by case_decide; subst.
  - intros u. cbn. rewrite elem_of_union, elem_of_singleton. done.
Qed.

Lemma Inv_unlink y c t :
  Inv y -> t ∈ dying y ->
  Inv {| sd := runq_remove_locked c t (sd y); pcs := pcs y; waking := waking y; dying := dying y |}.
Proof.
  intros (q & HQ & HC & HV) Hd. destruct (remove_Q N N_small (sd y) q c t HQ) as [[Hn ->]|(l1 & l2 & El & HQ' & HF)].
  { exists q. split; [done|]. split; [done|]. eapply VInv_proper; [|exact HV]. by constructor. }
  eexists. split; [exact HQ'|]. split; [by eapply CpuOk_qframe|].
  eapply VInv_proper; [|apply (V_unlink idle_of (view_of y q) t HV Hd)]. constructor; try done.
  - intros u. cbn. by rewrite (qframe_state _ _ _ HF).
  - intros u. cbn. by rewrite (qframe_running _ _ _ HF).
  - intros d. cbn. by rewrite (qframe_cpu _ _ d HF).
  - intros u. cbn. by rewrite (queued_delete _ q c l1 l2 t u HQ El).
Qed.

Lemma Inv_add y t :
  Inv y -> (t < N)%nat -> th_state (th (sd y) t) = THREAD_STATE_NEW ->
  Inv {| sd := scheduler_add_thread t (sd y); pcs := pcs y; waking := waking y; dying := dying y |}.
Proof.
  intros (q & HQ & HC & HV) Hn Hs. unfold scheduler_add_thread. rewrite set_th_twice.
  generalize (least_loaded (set_th t (fun x => (if th_base_priority x =? 0 then x <| th_base_priority := 32 |> else x)
    <| th_sched_priority := th_base_priority (if th_base_priority x =? 0 then x <| th_base_priority := 32 |> else x) |>
    <| th_priority := th_base_priority (if th_base_priority x =? 0 then x <| th_base_priority := 32 |> else x) |>
    <| th_cpu_usage := 0 |> <| th_running_cpu := None |> <| th_state := THREAD_STATE_READY |>) (sd y))).
  intros target. rewrite set_th_twice. set (f := fun x : chimera_thread => _).
  assert (HnQ : forall d, t ∉ q d).
  { intros d Hd. destruct (w_queued _ _ HV t (ex_intro _ d Hd)) as (_ & [E|E] & _); cbn in E; congruence. }
  assert (Hf1 : forall x, th_next (f x) = th_next x) by (intros x; unfold f; by destruct (_ =? 0)).
  destruct (Inv_enqueue (sd y) q target t f HQ HnQ Hn Hf1) as (l1 & l2 & El & HQ' & HF).
  eexists. split; [exact HQ'|]. split; [by eapply CpuOk_qframe, HF; apply CpuOk_set_th|].
  eapply VInv_proper; [|apply (V_add idle_of (view_of y q) t HV); [by apply normal_below|done]]. constructor; try done.
  - intros u. cbn. rewrite (qframe_set_th_state _ _ _ _ _ HF). unfold upd. by case_decide; subst.
  - intros u. cbn. rewrite (qframe_set_th_running _ _ _ _ _ HF). unfold upd. by case_decide; subst.
  - intros d. cbn. by rewrite (qframe_cpu _ _ d HF).
  - intros u. cbn. by rewrite (queued_insert q target l1 l2 t u El).
Qed.

Lemma Inv_at_pc_twice y c p p' s s' : Inv (at_pc (at_pc y c p s) c p' s') -> Inv (at_pc y c p' s').
Proof.
  intros (q & HQ & HC & HV). exists q. split; [done|]. split; [done|]. eapply VInv_proper; [|exact HV].
  constructor; try done. intros d. cbn. unfold upd. by case_decide.
Qed.

Lemma Inv_dequeue y c s' new :
  Inv y -> pcs y c = Picked None -> runq_dequeue_locked c (sd y) = (s', new) -> Inv (at_pc y c (Picked new) s').
Proof.
  intros (q & HQ & HC & HV) Hp Hd. pose proof (dequeue_Q N N_small (sd y) q c HQ) as HD.
  destruct (q c) as [|t l] eqn:El.
  - rewrite HD in Hd. injection Hd as <- <-. exists q. split; [done|]. split; [done|].
    eapply VInv_proper; [|exact HV]. constructor; try done. intros d. cbn. unfold upd. by case_decide; subst.
  - destruct HD as (s1 & E & HQ' & HF). rewrite E in Hd. injection Hd as <- <-.
    eexists. split; [exact HQ'|]. split; [by eapply CpuOk_qframe|].
    eapply VInv_proper; [|apply (V_take_queued idle_of (view_of y q) c t (Picked (Some t)) HV Hp); [|by left]].
    2:{ exists c. rewrite El. by left. }
    constructor; try done.
    + intros u. cbn. by rewrite (qframe_state _ _ _ HF).
    + intros u. cbn. by rewrite (qframe_running _ _ _ HF).
    + intros d. cbn. by rewrite (qframe_cpu _ _ d HF).
    + intros u. cbn. by rewrite (queued_delete _ q c [] l t u HQ El).
Qed.

Lemma current_vcur y q c t :
  cpu_current_thread (cpu (sd y) c) = Some t -> vcur (view_of y q) c = t.
Proof. cbn. by intros ->. Qed.

Lemma Inv_yield y c s' new :
  Inv y -> (c < s_total_cpus (sd y))%nat -> pcs y c = Running \/ pcs y c = Parked ->
  yield_locked c (sd y) = (s', new) -> Inv (at_pc y c (Picked new) s').
Proof.
  intros HI Hc Hp Hy. pose proof HI as (q & HQ & HC & HV). destruct (HC c Hc) as [Hid [old Hcur]].
  unfold yield_locked in Hy. rewrite Hid, Hcur in Hy.
  assert (Hkeep : forall s1 f, s1 = set_th old f (sd y) -> (forall x, th_next (f x) = th_next x) ->
    (forall x, th_state (f x) = th_state x) -> (forall x, th_running_cpu (f x) = th_running_cpu x) ->
    Inv (at_pc y c (Picked None) s1)).
  { intros s1 f -> Hf1 Hf2 Hf3. exists q. split; [by apply QInv_set_th|]. split; [by apply CpuOk_set_th|].
    eapply VInv_proper; [|apply (V_yield_keep idle_of (view_of y q) c HV Hp)]. constructor; try done.
    - intros u. cbn. rewrite state_set_th, Hf2. by destruct (decide (u = old)) as [->|].
    - intros u. cbn. rewrite running_set_th, Hf3. by destruct (decide (u = old)) as [->|]. }
  assert (Hdeq : forall s1, Inv (at_pc y c (Picked None) s1) -> runq_dequeue_locked c s1 = (s', new) ->
    Inv (at_pc y c (Picked new) s')).
  { intros s1 HI1 Hd. eapply Inv_at_pc_twice, Inv_dequeue; [exact HI1| |exact Hd].
    cbn. unfold upd. by rewrite decide_True. }
  destruct (decide (Some old = Some (idle_of c))) as [E|Hne].
  { eapply Hdeq; [|exact Hy]. exists q. split; [done|]. split; [done|].
    eapply VInv_proper; [|apply (V_yield_keep idle_of (view_of y q) c HV Hp)]. by constructor. }
  rewrite set_th_twice in Hy. set (f := fun x : chimera_thread => _) in Hy.
  destruct (decide _) as [Hrun|Hrun] in Hy; [|by eapply Hdeq, Hy; eapply (Hkeep _ f)].
  eapply Hdeq; [|exact Hy]. rewrite set_th_twice. set (g := fun x : chimera_thread => _).
  assert (Hn : normal idle_of old).
  { pose proof (w_cur _ _ HV c) as Hw. rewrite (current_vcur y q c old Hcur) in Hw. destruct Hw; [congruence|done]. }
  assert (Hs : th_state (th (sd y) old) = THREAD_STATE_RUNNING) by (by rewrite state_set_th, decide_True in Hrun).
  assert (HnQ : forall d, old ∉ q d).
  { intros d Hd. destruct (w_queued _ _ HV old (ex_intro _ d Hd)) as (_ & [E|E] & _); cbn in E; congruence. }
  destruct (Inv_enqueue (sd y) q c old g HQ HnQ) as (l1 & l2 & El & HQ' & HF); [by apply normal_below|done|].
  eexists. split; [exact HQ'|]. split; [by eapply CpuOk_qframe, HF; apply CpuOk_set_th|].
  eapply VInv_proper; [|apply (V_yield_enqueue idle_of (view_of y q) c HV Hp); by rewrite (current_vcur y q c old Hcur)].
  rewrite (current_vcur y q c old Hcur). constructor; try done.
  - intros u. cbn. rewrite (qframe_set_th_state _ _ _ _ _ HF). unfold upd. by case_decide; subst.
  - intros u. cbn. rewrite (qframe_set_th_running _ _ _ _ _ HF). by case_decide; subst.
  - intros d. cbn. by rewrite (qframe_cpu _ _ d HF).
  - intros u. cbn. by rewrite (queued_insert q c l1 l2 old u El).
Qed.

Lemma Inv_pick y c new s' t :
  Inv y -> (c < s_total_cpus (sd y))%nat -> pcs y c = Picked new -> yield_pick c new (sd y) = (s', Some t) ->
  Inv (at_pc y c (Chosen t) s').
Proof.
  intros (q & HQ & HC & HV) Hc Hp Hy. unfold yield_pick in Hy. destruct new as [u|].
  { injection Hy as <- <-. exists q. split; [done|]. split; [done|].
    eapply VInv_proper; [|apply (V_choose idle_of (view_of y q) c u HV); by left]. by constructor. }
  destruct (steal_Q N N_small (sd y) q c HQ) as [E|(v & l & u & s1 & E & El & HQ' & HF)]; rewrite E in Hy.
  - injection Hy as <- Hi. destruct (HC c Hc) as [Hid _]. rewrite Hid in Hi. injection Hi as <-.
    exists q. split; [done|]. split; [done|].
    eapply VInv_proper; [|apply (V_choose idle_of (view_of y q) c (idle_of c) HV); by right]. by constructor.
  - injection Hy as <- <-. eexists. split; [exact HQ'|].
    split; [by eapply CpuOk_qframe, HF; apply CpuOk_set_th|].
    eapply VInv_proper; [|apply (V_take_queued idle_of (view_of y q) c u (Chosen u) HV Hp); [|by right]].
    2:{ exists v. rewrite El. set_solver. }
    constructor; try done.
    + intros w. cbn. rewrite (qframe_set_th_state _ _ _ _ _ HF). by case_decide; subst.
    + intros w. cbn. rewrite (qframe_set_th_running _ _ _ _ _ HF). by case_decide; subst.
    + intros d. cbn. by rewrite (qframe_cpu _ _ d HF).
    + intros w. cbn. pose proof (queued_delete _ q v l [] u w HQ El) as HD. rewrite app_nil_r in HD. by rewrite HD.
Qed.

Lemma Inv_same y c t :
  Inv y -> (c < s_total_cpus (sd y))%nat -> pcs y c = Chosen t -> cpu_current_thread (cpu (sd y) c) = Some t ->
  Inv (at_pc y c Running (yield_same c t (sd y))).
Proof.
  intros (q & HQ & HC & HV) Hc Hp Hcur. destruct (HC c Hc) as [Hid _]. unfold yield_same. rewrite Hid.
  pose proof (V_same idle_of (view_of y q) c HV) as HS. rewrite (current_vcur y q c t Hcur) in HS.
  destruct (decide (Some t = Some (idle_of c))) as [E|E].
  - exists q. split; [done|]. split; [done|]. eapply VInv_proper; [|by apply HS].
    constructor; try done; intros u; cbn; by rewrite (decide_True (P := _ = idle_of c)) by congruence.
  - exists q. split; [by apply QInv_set_th|]. split; [by apply CpuOk_set_th|]. eapply VInv_proper; [|by apply HS].
    constructor; try done.
    + intros u. cbn. rewrite state_set_th, decide_False by congruence. unfold upd. by destruct (decide (u = t)).
    + intros u. cbn. rewrite running_set_th. by destruct (decide (u = t)) as [->|].
Qed.

Lemma Inv_take y c t old :
  Inv y -> (c < s_total_cpus (sd y))%nat -> pcs y c = Chosen t -> cpu_current_thread (cpu (sd y) c) = Some old ->
  old ≠ t -> yield_ready c t (sd y) = true -> Inv (at_pc y c (Switching old) (yield_take c t (sd y))).
Proof.
  intros (q & HQ & HC & HV) Hc Hp Hcur Hne Hr. destruct (HC c Hc) as [Hid _].
  unfold yield_ready in Hr. rewrite Hid in Hr.
  assert (Hr' : t = idle_of c \/ th_running_cpu (th (sd y) t) = None).
  { apply orb_true_iff in Hr as [Hr|Hr]; apply bool_decide_eq_true in Hr; [left; congruence|by right]. }
  pose proof (V_take idle_of (view_of y q) c t HV Hp) as HT. rewrite (current_vcur y q c old Hcur) in HT.
  specialize (HT (not_eq_sym Hne) Hr'). unfold yield_take. rewrite Hid.
  assert (HC' : forall s1, CpuOk s1 -> CpuOk (set_cpu c (fun x => x <| cpu_current_thread := Some t |>) s1)).
  { intros s1 HC1 d Hd. rewrite cpu_set_cpu. destruct (HC1 d Hd).
    destruct (decide (d = c)) as [->|]; [by split; [|eexists]|done]. }
  assert (Hcur' : forall s1 d, default (idle_of d) (cpu_current_thread (cpu (set_cpu c (fun x => x <| cpu_current_thread := Some t |>) s1) d)) =
    upd (fun d => default (idle_of d) (cpu_current_thread (cpu s1 d))) c t d).
  { intros s1 d. rewrite cpu_set_cpu. unfold upd. by destruct (decide (d = c)). }
  destruct (decide (Some t = Some (idle_of c))) as [E|E].
  - exists q. split; [by eapply QInv_same|]. split; [by apply HC'|].
    eapply VInv_proper; [|exact HT].
    constructor; try done; intros d; cbn -[set_cpu]; [by rewrite decide_True by congruence..|by rewrite Hcur'].
  - exists q. split.
    { eapply QInv_same; [by apply (QInv_set_th N (sd y) q t (fun x => x <| th_state := THREAD_STATE_RUNNING |>
        <| th_running_cpu := Some c |> <| th_assigned_cpu := c |>) HQ)|done|done]. }
    split; [by apply HC', CpuOk_set_th|]. eapply VInv_proper; [|exact HT].
    constructor; try done.
    + intros u. cbn -[set_cpu set_th]. rewrite th_set_cpu, state_set_th, decide_False by congruence. unfold upd. by destruct (decide (u = t)).
    + intros u. cbn -[set_cpu set_th]. rewrite th_set_cpu, running_set_th, decide_False by congruence. unfold upd. by destruct (decide (u = t)).
    + intros d. cbn -[set_cpu set_th]. by rewrite Hcur'.
Qed.

Lemma Inv_switch y c old :
  Inv y -> (c < s_total_cpus (sd y))%nat -> pcs y c = Switching old ->
  Inv (at_pc y c Running (context_switch c (Some old) (sd y))).
Proof.
  intros (q & HQ & HC & HV) Hc Hp. destruct (HC c Hc) as [Hid _]. unfold context_switch. rewrite Hid.
  pose proof (V_switch idle_of (view_of y q) c old HV Hp) as HS.
  destruct (decide (Some old = Some (idle_of c))) as [E|E].
  - exists q. split; [done|]. split; [done|]. eapply VInv_proper; [|exact HS].
    constructor; try done; intros u; cbn; by rewrite (decide_True (P := _ = idle_of c)) by congruence.
  - exists q. split; [by apply QInv_set_th|]. split; [by apply CpuOk_set_th|]. eapply VInv_proper; [|exact HS].
    constructor; try done.
    + intros u. cbn. rewrite state_set_th. by destruct (decide (u = old)) as [->|].
    + intros u. cbn. rewrite running_set_th, decide_False by congruence. unfold upd. by destruct (decide (u = old)).
Qed.

Lemma Inv_wait y s' :
  Inv y -> same_sched (sd y) s' -> Inv {| sd := s'; pcs := pcs y; waking := waking y; dying := dying y |}.
Proof.
  intros (q & HQ & HC & HV) (Hth & Hrq & Hg & Hn). exists q.
  split; [eapply QInv_same; [exact HQ|done|]|split; [by eapply CpuOk_frame|]].
  - intros t. exact (f_equal th_next (Hth t)).
  - eapply VInv_proper; [|exact HV]. constructor; try done.
    + intros t. exact (eq_sym (f_equal th_state (Hth t))).
    + intros t. exact (eq_sym (f_equal th_running_cpu (Hth t))).
    + intros d. cbn. unfold cpu. by rewrite Hg.
Qed.

Lemma step_Inv y y' : step y y' -> Inv y -> Inv y'.
Proof.
  intros Hs HI. destruct Hs;
    eauto using Inv_sleep, Inv_cas, Inv_wake, Inv_halt, Inv_unlink, Inv_add, Inv_yield, Inv_pick, Inv_same,
      Inv_take, Inv_switch, Inv_wait.
Qed.

(** ** What the scheduler guarantees *)

(** CPU [c] executes on the stack of [t], or is leaving it. *)
Definition on_stack (y : sys) (c t : nat) : Prop :=
  cpu_current_thread (cpu (sd y) c) = Some t \/ pcs y c = Switching t.

(** After boot: empty queues, and every CPU runs its idle thread or a thread
    handed to it by [scheduler_set_initial]. *)
Record booted (y : sys) : Prop := {
  b_rq : forall c, rq (sd y) c = {| rq_head := None; rq_count := 0 |};
  b_cpu : CpuOk (sd y);
  b_pc : forall c, pcs y c = Running;
  b_sets : waking y = ∅ /\ dying y = ∅;
  b_current : forall c t, cpu_current_thread (cpu (sd y) c) = Some t -> t = idle_of c \/
    ((t < N)%nat /\ th_state (th (sd y) t) = THREAD_STATE_RUNNING /\ th_running_cpu (th (sd y) t) = Some c);
  b_state : forall t, (t < N)%nat ->
    th_state (th (sd y) t) = THREAD_STATE_NEW \/ th_state (th (sd y) t) = THREAD_STATE_RUNNING
}.

Lemma booted_Inv y : booted y -> Inv y.
Proof.
  intros [Hrq HC Hpc [Hw Hd] Hcur Hst]. exists (fun _ => []). split; [|split; [done|]].
  { constructor; [| |set_solver|set_solver]; intros c; by rewrite Hrq. }
  assert (HnT : forall c t, ~ transit (pcs y c) t) by (intros c t [E|E]; by rewrite Hpc in E).
  assert (Hvc : forall c, vcur (view_of y (fun _ => [])) c = idle_of c \/
    ((vcur (view_of y (fun _ => [])) c < N)%nat /\ th_state (th (sd y) (vcur (view_of y (fun _ => [])) c)) = THREAD_STATE_RUNNING /\
     th_running_cpu (th (sd y) (vcur (view_of y (fun _ => [])) c)) = Some c)).
  { intros c. cbn. destruct (cpu_current_thread (cpu (sd y) c)) eqn:E; [by apply Hcur|by left]. }
  constructor.
  - intros c. destruct (Hvc c) as [?|(? & _)]; [by left|right; by apply normal_below].
  - intros c o E. cbn in E. by rewrite Hpc in E.
  - intros t [c Hc]. by apply elem_of_nil in Hc.
  - intros t Ht. cbn in Ht. rewrite Hw in Ht. set_solver.
  - intros c t Ht. by apply HnT in Ht.
  - intros c t [E|E] Hn; [|cbn in E; by rewrite Hpc in E]. subst t.
    destruct (Hvc c) as [E|(_ & E & Hr)]; [by destruct (Hn c)|]. split; [done|]. cbn in *. congruence.
  - intros c _ Hn. destruct (Hvc c) as [E|(_ & E & Hr)]; [by destruct (Hn c)|]. split; [by left|].
    split; [intros [d Hd']; by apply elem_of_nil in Hd'|]. split; [cbn; rewrite Hw; set_solver|].
    intros d. apply HnT.
  - intros t Hn%normal_below Hs _. cbn in Hs. destruct (Hst t Hn); congruence.
Qed.


Definition by_priority (s : sched) (a b : nat) : Prop := th_priority (th s b) <= th_priority (th s a).

(** [runq_enqueue_locked] keeps a queue in priority order and is fair among
    equals: the thread goes behind every queued thread of at least its priority
    and before every one of lower priority, nothing else moves, and the other
    queues stay as they are. *)
Theorem runq_enqueue_priority s q c t :
  QInv N s q -> (forall d, t ∉ q d) -> (t < N)%nat -> StronglySorted (by_priority s) (q c) ->
  let s' := runq_enqueue_locked c t s in
  exists l1 l2, q c = l1 ++ l2 /\ QInv N s' (<[c := l1 ++ t :: l2]> q) /\
    StronglySorted (by_priority s') (l1 ++ t :: l2) /\
    Forall (fun x => th_priority (th s t) <= th_priority (th s x)) l1 /\
    Forall (fun x => th_priority (th s x) < th_priority (th s t)) l2.
Proof.
  intros HQ Hn Ht Hsort s'. destruct (enqueue_Q N N_small s q c t HQ Hn Ht) as (l1 & l2 & El & HQ' & HF & H1 & H2).
  assert (Hp : forall x, th_priority (th s' x) = th_priority (th s x)).
  { intros x. apply (f_equal th_priority (proj1 HF x)). }
  rewrite El in Hsort. assert (Hl2 : Forall (fun x => th_priority (th s x) < th_priority (th s t)) l2).
  { destruct l2 as [|x l2]; [constructor|]. specialize (H2 x eq_refl). constructor; [done|].
    apply StronglySorted_app_1_r in Hsort. apply StronglySorted_inv in Hsort as [_ Hx].
    eapply Forall_impl; [exact Hx|]. unfold by_priority. cbn. lia. }
  exists l1, l2. split; [done|]. split; [done|]. split; [|done].
  assert (Hs' : StronglySorted (by_priority s) (l1 ++ t :: l2)).
  { clear El HQ'. induction l1 as [|x l1 IH]; cbn in *.
    - constructor; [done|]. eapply Forall_impl; [exact Hl2|]. unfold by_priority. cbn. lia.
    - apply StronglySorted_inv in Hsort as [Hs Hf]. apply Forall_cons in H1 as [Hx H1].
      constructor; [by apply IH|]. apply Forall_app in Hf as [Hf1 Hf2]. apply Forall_app. split; [done|].
      by constructor. }
  clear -Hs' Hp. induction Hs' as [|x l _ IH Hf]; constructor; [done|].
  eapply Forall_impl; [exact Hf|]. intros y. unfold by_priority. by rewrite !Hp.
Qed.
End Steps.

(** ** A machine with two CPUs and two threads *)

Definition demo_sched : sched :=
  {| threads := ∅; s_cpu_runq := ∅;
     g_cpu_data := {[0%nat := {| cpu_current_thread := Some 2%nat; cpu_is_active := true; cpu_idle_thread := Some 2%nat |};
                     1%nat := {| cpu_current_thread := Some 3%nat; cpu_is_active := true; cpu_idle_thread := Some 3%nat |}]};
     s_total_cpus := 2; s_sleep_list := None; wait_queues := ∅ |}.
Definition demo_boot : sys := {| sd := demo_sched; pcs := fun _ => Running; waking := ∅; dying := ∅ |}.

Lemma demo_booted : booted 2 demo_boot.
Proof.
  constructor.
  - done.
  - intros c Hc. cbn in Hc. destruct c as [|[|c]]; [by split..|lia].
  - done.
  - done.
  - intros c t. unfold cpu. cbn [sd demo_boot g_cpu_data demo_sched].
    destruct (decide (c = 0%nat)) as [->|]; [intros [= <-]; by left|].
    destruct (decide (c = 1%nat)) as [->|]; [intros [= <-]; by left|].
    by rewrite lookup_total_insert_ne, lookup_total_singleton_ne by done.
  - intros t _. by left.
Qed.

Definition demo_added : sys :=
  {| sd := scheduler_add_thread 0 demo_sched; pcs := fun _ => Running; waking := ∅; dying := ∅ |}.

Lemma demo_steps : rtc (step 2) demo_boot demo_added.
Proof. apply rtc_once. apply (st_add 2 demo_boot 0%nat); [lia|done]. Qed.


Lemma demo_queues : QInv 2 demo_sched (fun _ => []).
Proof. constructor; [done|done|set_solver|set_solver]. Qed.

Lemma runq_enqueue_priority_witness :
  exists l1 l2, [] = l1 ++ l2 /\
    StronglySorted (by_priority (runq_enqueue_locked 0 1 demo_sched)) (l1 ++ 1%nat :: l2).
Proof.
  destruct (runq_enqueue_priority 2 ltac:(done) demo_sched (fun _ => []) 0 1 demo_queues) as (l1 & l2 & H1 & _ & H2 & _);
    [set_solver|lia|constructor|]. exists l1, l2. exact (conj H1 H2).
Defined.
End SchedSpec.
