(* ===== verification/WaitQueue.v ===== *)
(** * Wait queues and timed sleep

    Models [kernel/mach/wait_queue.c] and the sleep list of
    [kernel/arch/x86_64/scheduler.c].  Both are linked through [th_wait_next].

    The sleeping functions are modelled up to their call of [scheduler_yield],
    which is a step of its own in [SchedSpec].  Loops over links take fuel and
    give [None] when it runs out; the theorems show how much is enough. *)

From stdpp Require Import functions.
From S2P Require Import Prelude Sched.
Import Sched.

Module WaitQueue.

Definition wq (s : sched) (k : nat) : wait_queue := wait_queues s !!! k.
Definition set_wq (k : nat) (f : wait_queue -> wait_queue) (s : sched) : sched :=
  s <| wait_queues ::= <[k := f (wq s k)]> |>.

Definition wait_queue_init (k : nat) (s : sched) : sched :=
  set_wq k (fun _ => {| wq_head := None; wq_tail := None |}) s.

(** What the three sleeping functions do under [wq_lock]. *)
Definition wait_enqueue (k curr : nat) (s : sched) : sched :=
  let s := set_th curr (fun x => x <| th_state := THREAD_STATE_WAITING |> <| th_wait_next := None |>
                                   <| th_wait_result := CHIMERA_SUCCESS |>) s in
  let s := match wq_tail (wq s k) with
           | Some t => set_th t (fun x => x <| th_wait_next := Some curr |>) s
           | None => set_wq k (fun q => q <| wq_head := Some curr |>) s
           end in
  set_wq k (fun q => q <| wq_tail := Some curr |>) s.

Definition wait_queue_sleep (k curr : nat) (s : sched) : sched := wait_enqueue k curr s.
Definition wait_queue_sleep_irqrestore (k curr : nat) (s : sched) : sched := wait_enqueue k curr s.

Definition wait_queue_wakeup_one (my k : nat) (s : sched) : sched :=
  match wq_head (wq s k) with
  | None => s
  | Some t =>
      let s := set_wq k (fun q => q <| wq_head := th_wait_next (th s t) |>) s in
      let s := match wq_head (wq s k) with
               | None => set_wq k (fun q => q <| wq_tail := None |>) s
               | Some _ => s
               end in
      let s := set_th t (fun x => x <| th_wait_next := None |> <| th_wait_result := CHIMERA_SUCCESS |>) s in
      thread_wake my t s
  end.

(** The loops that detach and wake every thread of a chain; [clear] is what they
    write to it. *)
Fixpoint wake_chain (clear : chimera_thread -> chimera_thread) (fuel my : nat) (list : option nat) (s : sched) : option sched :=
  match list with
  | None => Some s
  | Some t =>
      match fuel with
      | O => None
      | S fuel =>
          let next := th_wait_next (th s t) in
          wake_chain clear fuel my next (thread_wake my t (set_th t clear s))
      end
  end.

Definition wait_queue_wakeup_all (fuel my k : nat) (s : sched) : option sched :=
  let list := wq_head (wq s k) in
  wake_chain (fun x => x <| th_wait_next := None |> <| th_wait_result := CHIMERA_SUCCESS |>) fuel my list
    (set_wq k (fun _ => {| wq_head := None; wq_tail := None |}) s).

(** ** The sleep list *)

Definition set_sleep_link (pp v : option nat) (s : sched) : sched :=
  match pp with
  | None => s <| s_sleep_list := v |>
  | Some p => set_th p (fun x => x <| th_wait_next := v |>) s
  end.

(** The cursor at [t], if it is on the list. *)
Fixpoint sleep_find (fuel : nat) (t : nat) (pp cur : option nat) (s : sched) : option (option (option nat)) :=
  match cur with
  | None => Some None
  | Some x =>
      if decide (x = t) then Some (Some pp)
      else match fuel with
           | O => None
           | S fuel => sleep_find fuel t (Some x) (th_wait_next (th s x)) s
           end
  end.

Definition sleep_list_remove (fuel t : nat) (s : sched) : option sched :=
  match sleep_find fuel t None (s_sleep_list s) s with
  | None => None
  | Some None => Some s
  | Some (Some pp) =>
      Some (set_th t (fun x => x <| th_wait_next := None |>) (set_sleep_link pp (th_wait_next (th s t)) s))
  end.

Definition thread_sleep_list_add (fuel t : nat) (deadline_ms : Z) (s : sched) : option sched :=
  s ← sleep_list_remove fuel t s;
  let s := set_th t (fun x => x <| th_sleep_deadline := deadline_ms |> <| th_wait_next := s_sleep_list s |>) s in
  Some (s <| s_sleep_list := Some t |>).

Definition thread_sleep_until (fuel t : nat) (deadline_ms : Z) (s : sched) : option sched :=
  s ← thread_sleep_list_add fuel t deadline_ms s;
  Some (set_th t (fun x => x <| th_state := THREAD_STATE_WAITING |>) s).

Definition wait_queue_sleep_until_irqrestore (fuel k curr : nat) (deadline_ms : Z) (s : sched) : option sched :=
  thread_sleep_list_add fuel curr deadline_ms (wait_enqueue k curr s).

(** [(i64)(th->th_sleep_deadline - now) <= 0] *)
Definition is_expired (now : Z) (x : chimera_thread) : bool := i64 (th_sleep_deadline x - now) <=? 0.

(** Unlinks the expired threads and chains them through [th_wait_next]. *)
Fixpoint expire (fuel : nat) (now : Z) (pp cur expired : option nat) (s : sched) : option (sched * option nat) :=
  match cur with
  | None => Some (s, expired)
  | Some t =>
      match fuel with
      | O => None
      | S fuel =>
          if is_expired now (th s t) then
            let next := th_wait_next (th s t) in
            let s := set_sleep_link pp next s in
            let s := set_th t (fun x => x <| th_wait_next := expired |>) s in
            expire fuel now pp next (Some t) s
          else expire fuel now (Some t) (th_wait_next (th s t)) expired s
      end
  end.

Definition timer_wake_sleepers (fuel my : nat) (now : Z) (s : sched) : option sched :=
  '(s, expired) ← expire fuel now None (s_sleep_list s) None s;
  wake_chain (fun x => x <| th_wait_next := None |>) fuel my expired s.

(** ** Waking does not touch the wait links *)

Definition wnxt (s : sched) (t : nat) : option nat := th_wait_next (th s t).

Lemma enqueue_core c t s u : core (th (runq_enqueue_locked c t s) u) = core (th s u).
Proof.
  unfold runq_enqueue_locked. destruct (enqueue_at _ _ _ _ _) as [pp cur].
  rewrite th_set_rq, th_set_link, th_set_th. destruct (decide (pp = Some u)), (decide (u = t)); subst; done.
Qed.

(** A thread without what [thread_wake] writes. *)
Definition waitcore (x : chimera_thread) : option nat * chimera_error * Z :=
  (th_wait_next x, th_wait_result x, th_sleep_deadline x).

Lemma thread_wake_frame my t s :
  (forall u, waitcore (th (thread_wake my t s) u) = waitcore (th s u)) /\
  (forall u, th_state (th (thread_wake my t s) u) =
     if decide (u = t /\ th_state (th s u) = THREAD_STATE_WAITING) then THREAD_STATE_READY else th_state (th s u)) /\
  s_sleep_list (thread_wake my t s) = s_sleep_list s /\ wait_queues (thread_wake my t s) = wait_queues s.
Proof.
  unfold thread_wake, wake_cas. destruct (decide (th_state (th s t) = THREAD_STATE_WAITING)) as [Hw|Hw].
  2:{ split; [done|]. split; [|done]. intros u. rewrite decide_False; [done|]. by intros [-> ?]. }
  unfold wake_enqueue. set (s1 := set_th t _ s). set (s2 := set_th t _ s1). set (away := _ || _).
  set (s3 := if away then _ else s2). set (target := if away then my else _).
  assert (Hf : exists f, s3 = set_th t f s /\ (forall x, waitcore (f x) = waitcore x) /\
    forall x, th_state (f x) = THREAD_STATE_READY).
  { unfold s3, s2, s1. destruct away; rewrite ?set_th_twice; eexists; split; done. }
  destruct Hf as (f & -> & Hf1 & Hf2). clearbody target. clear s1 s2 away. set (s3 := set_th t f s).
  assert (H3 : (forall u, waitcore (th s3 u) = waitcore (th s u)) /\
    (forall u, th_state (th s3 u) = if decide (u = t) then THREAD_STATE_READY else th_state (th s u)) /\
    s_sleep_list s3 = s_sleep_list s /\ wait_queues s3 = wait_queues s).
  { unfold s3. split; [|split; [|done]]; intros u; rewrite th_set_th; destruct (decide (u = t)) as [->|]; eauto. }
  destruct H3 as (Ha & Hb & Hc & Hd). clearbody s3. split; [|split].
  - intros u. rewrite <- Ha. exact (f_equal waitcore (enqueue_core target t s3 u)).
  - intros u. etrans; [exact (f_equal th_state (enqueue_core target t s3 u))|]. cbn [core th_state fupd]. rewrite Hb.
    destruct (decide (u = t)) as [->|]; [by rewrite decide_True|by rewrite decide_False by naive_solver].
  - unfold runq_enqueue_locked. destruct (enqueue_at _ _ _ _ _) as [[pp|] cur]; done.
Qed.

(** ** Queues as lists *)

(** [L k] are the threads sleeping on queue [k], first come first. *)
Record Rep (s : sched) (L : nat -> list nat) : Prop := {
  r_chain : forall k, chain (wnxt s) (wq_head (wq s k)) (L k);
  r_tail : forall k, wq_tail (wq s k) = last (L k);
  r_disj : forall k k' t, t ∈ L k -> t ∈ L k' -> k = k'
}.

Lemma wq_set_wq s k f j : wq (set_wq k f s) j = if decide (j = k) then f (wq s k) else wq s j.
Proof.
  unfold wq, set_wq. cbn. case_decide; subst; [by rewrite lookup_total_insert_eq|by rewrite lookup_total_insert_ne].
Qed.
Lemma wq_set_th s t f k : wq (set_th t f s) k = wq s k.
Proof. done. Qed.
Lemma th_set_wq s k f t : th (set_wq k f s) t = th s t.
Proof. done. Qed.

Lemma Rep_change s s' L k l :
  Rep s L -> chain (wnxt s') (wq_head (wq s' k)) l -> wq_tail (wq s' k) = last l ->
  (forall j, j ≠ k -> wq s' j = wq s j) -> (forall t, t ∈ l -> forall j, j ≠ k -> t ∉ L j) ->
  (forall j t, j ≠ k -> t ∈ L j -> wnxt s' t = wnxt s t) -> Rep s' (<[k := l]> L).
Proof.
  intros HR Hch Ht Hq Hl Hn. constructor.
  - intros j. destruct (decide (j = k)) as [->|Hj]; [by rewrite fn_lookup_insert|].
    rewrite fn_lookup_insert_ne, Hq by done. eapply lseg_frame; [|apply (r_chain _ _ HR j)]. intros t Hin. by apply (Hn j).
  - intros j. destruct (decide (j = k)) as [->|Hj]; [by rewrite fn_lookup_insert|].
    rewrite fn_lookup_insert_ne, Hq by done. apply (r_tail _ _ HR).
  - intros i j t. destruct (decide (i = k)) as [->|Hi], (decide (j = k)) as [->|Hj];
      rewrite ?fn_lookup_insert, ?fn_lookup_insert_ne by done; [done| | |apply (r_disj _ _ HR)].
    + intros Hx Hy. by apply (Hl t Hx j) in Hy.
    + intros Hx Hy. by apply (Hl t Hy i) in Hx.
Qed.

Lemma sleep_Rep s L k t :
  Rep s L -> (forall j, t ∉ L j) -> Rep (wait_enqueue k t s) (<[k := L k ++ [t]]> L).
Proof.
  intros HR Ht. unfold wait_enqueue. set (s1 := set_th t _ s).
  change (wq_tail (wq s1 k)) with (wq_tail (wq s k)). rewrite (r_tail _ _ HR k).
  set (s2 := match last (L k) with Some _ => _ | None => _ end). set (s3 := set_wq k _ s2).
  assert (Hn : forall u, wnxt s3 u = if decide (last (L k) = Some u) then Some t
    else if decide (u = t) then None else wnxt s u).
  { intros u. unfold s3, wnxt. rewrite th_set_wq. unfold s2. destruct (last (L k)) as [p|] eqn:El.
    - assert (p ≠ t) by (intros ->; apply (Ht k); by apply last_Some_elem_of).
      rewrite th_set_th. unfold s1. rewrite !th_set_th.
      destruct (decide (u = p)) as [->|]; [by rewrite (decide_True (P := Some p = Some p))|].
      rewrite (decide_False (P := Some p = Some u)) by congruence. by destruct (decide (u = t)).
    - rewrite th_set_wq. unfold s1. rewrite th_set_th, (decide_False (P := None = Some u)) by done.
      by destruct (decide (u = t)). }
  assert (Hq : forall j, wq s3 j = if decide (j = k) then
    {| wq_head := if last (L k) is Some _ then wq_head (wq s k) else Some t; wq_tail := Some t |} else wq s j).
  { intros j. unfold s3. rewrite wq_set_wq. unfold s2. destruct (last (L k)); rewrite ?wq_set_th, ?wq_set_wq;
      by destruct (decide (j = k)); rewrite ?decide_True by done. }
  apply (Rep_change s).
  - done.
  - rewrite Hq, decide_True by done. cbn [wq_head]. eapply chain_insert.
    + rewrite app_nil_r. apply (r_chain _ _ HR k).
    + rewrite app_nil_r. apply Ht.
    + rewrite Hn, decide_False, decide_True; [done..|]. intros E%last_Some_elem_of. by apply (Ht k).
    + destruct (last (L k)) eqn:El; [|done]. split; [done|]. by rewrite Hn, decide_True.
    + intros u Hu Hne. rewrite app_nil_r in Hu. rewrite Hn, decide_False, decide_False; [done| |congruence].
      intros ->. by apply (Ht k).
  - rewrite Hq, decide_True by done. by rewrite last_snoc.
  - intros j Hj. by rewrite Hq, decide_False.
  - intros u Hu j Hj Huj. apply elem_of_app in Hu as [Hu| ->%list_elem_of_singleton]; [|by apply (Ht j)].
    apply Hj. by apply (r_disj _ _ HR j k u).
  - intros j u Hj Hu. rewrite Hn, decide_False, decide_False; [done| |].
    + intros ->. by apply (Ht j).
    + intros E%last_Some_elem_of. apply Hj. by apply (r_disj _ _ HR j k u).
Qed.

Lemma waitcore_next s s' u : waitcore (th s' u) = waitcore (th s u) -> wnxt s' u = wnxt s u.
Proof. unfold waitcore, wnxt. congruence. Qed.

(** Taking the first sleeper off and waking it. *)
Lemma wakeup_one_Rep s L my k :
  Rep s L -> Rep (wait_queue_wakeup_one my k s) (<[k := tail (L k)]> L) /\
  forall u, th_state (th (wait_queue_wakeup_one my k s) u) =
    if decide (head (L k) = Some u /\ th_state (th s u) = THREAD_STATE_WAITING)
    then THREAD_STATE_READY else th_state (th s u).
Proof.
  intros HR. unfold wait_queue_wakeup_one. pose proof (r_chain _ _ HR k) as Hc.
  destruct (L k) as [|t l] eqn:El.
  { unfold chain, lseg in Hc. rewrite Hc. cbn [tail head]. split; [|intros u; by rewrite decide_False by naive_solver].
    apply (Rep_change s); [done|by rewrite Hc|by rewrite (r_tail _ _ HR k), El|done|set_solver|done]. }
  pose proof (chain_NoDup _ _ _ Hc) as Hnd. destruct Hc as [Hh Hc]. rewrite Hh. cbn [tail head].
  set (s1 := set_wq k _ s). set (s2 := match wq_head (wq s1 k) with None => _ | Some _ => s1 end).
  set (s3 := set_th t _ s2).
  assert (Hwq2 : forall j, wq s2 j = if decide (j = k) then
    {| wq_head := wnxt s t; wq_tail := if wnxt s t is Some _ then wq_tail (wq s k) else None |} else wq s j).
  { intros j. unfold s2. unfold s1 at 1. rewrite wq_set_wq, decide_True by done. cbn [wq_head fupd]. fold (wnxt s t).
    unfold s1. destruct (wnxt s t) eqn:Ew; rewrite ?wq_set_wq; destruct (decide (j = k)); rewrite ?decide_True by done;
      unfold fupd; cbn [wq_head wq_tail]; fold (wnxt s t); by rewrite ?Ew. }
  assert (Hth2 : forall u, th s2 u = th s u) by (intros u; unfold s2; by destruct (wq_head (wq s1 k))).
  assert (Hn3 : forall u, wnxt s3 u = if decide (u = t) then None else wnxt s u).
  { intros u. unfold wnxt, s3. rewrite th_set_th, !Hth2. by destruct (decide (u = t)). }
  destruct (thread_wake_frame my t s3) as (Hf1 & Hf2 & _ & Hf4).
  assert (Hq' : forall j, wq (thread_wake my t s3) j = wq s2 j) by (intros j; unfold wq; by rewrite Hf4).
  assert (Hn' : forall u, wnxt (thread_wake my t s3) u = if decide (u = t) then None else wnxt s u).
  { intros u. rewrite <- Hn3. by apply waitcore_next. }
  split.
  - apply (Rep_change s); [done| | | | |].
    + rewrite Hq', Hwq2, decide_True by done. cbn [wq_head]. eapply lseg_frame; [|exact Hc].
      intros u Hu. rewrite Hn', decide_False; [done|]. intros ->. by apply NoDup_cons in Hnd as [? _].
    + rewrite Hq', Hwq2, decide_True by done. cbn [wq_tail]. rewrite (r_tail _ _ HR k), El.
      destruct l as [|x l]; [unfold lseg in Hc; by rewrite Hc|]. destruct Hc as [-> _]. by rewrite last_cons_cons.
    + intros j Hj. by rewrite Hq', Hwq2, decide_False.
    + intros u Hu j Hj Huj. apply Hj. apply (r_disj _ _ HR j k u); [done|]. rewrite El. by right.
    + intros j u Hj Hu. rewrite Hn', decide_False; [done|]. intros ->. apply Hj.
      apply (r_disj _ _ HR j k t); [done|]. rewrite El. by left.
  - intros u. rewrite Hf2. assert (Hs3 : th_state (th s3 u) = th_state (th s u)).
    { unfold s3. rewrite th_set_th, !Hth2. by destruct (decide (u = t)) as [->|]. }
    rewrite Hs3. destruct (decide (u = t /\ _)) as [[-> Hw]|Hno]; [by rewrite decide_True|].
    rewrite decide_False; [done|]. intros [[= ->] Hw]. by apply Hno.
Qed.

(** The waking loops end after one round per thread of the chain. *)
Lemma wake_chain_spec clear my l :
  (forall x, th_wait_next (clear x) = None /\ th_state (clear x) = th_state x) ->
  forall fuel h s, chain (wnxt s) h l -> (length l <= fuel)%nat ->
  exists s', wake_chain clear fuel my h s = Some s' /\
    (forall u, wnxt s' u = if decide (u ∈ l) then None else wnxt s u) /\
    (forall u, th_state (th s' u) = if decide (u ∈ l /\ th_state (th s u) = THREAD_STATE_WAITING)
       then THREAD_STATE_READY else th_state (th s u)) /\
    s_sleep_list s' = s_sleep_list s /\ wait_queues s' = wait_queues s.
Proof.
  intros Hcl. induction l as [|t l IH]; intros fuel h s Hc Hf.
  - unfold chain, lseg in Hc. subst h. exists s. split; [by destruct fuel|]. split; [|split; [|done]]; intros u.
    + by rewrite decide_False by apply not_elem_of_nil.
    + rewrite decide_False; [done|]. intros [Hn _]. by apply elem_of_nil in Hn.
  - pose proof (chain_NoDup _ _ _ Hc) as [Hnt _]%NoDup_cons. destruct Hc as [-> Hc].
    destruct fuel as [|fuel]; [cbn in Hf; lia|]. cbn [wake_chain]. fold (wnxt s t).
    set (s1 := set_th t clear s). destruct (thread_wake_frame my t s1) as (Hf1 & Hf2 & Hf3 & Hf4).
    assert (Hn1 : forall u, wnxt (thread_wake my t s1) u = if decide (u = t) then None else wnxt s u).
    { intros u. rewrite (waitcore_next s1) by apply Hf1. unfold wnxt, s1. rewrite th_set_th.
      destruct (decide (u = t)); [apply Hcl|done]. }
    assert (Hs1 : forall u, th_state (th (thread_wake my t s1) u) =
      if decide (u = t /\ th_state (th s u) = THREAD_STATE_WAITING) then THREAD_STATE_READY else th_state (th s u)).
    { intros u. rewrite Hf2. assert (E : th_state (th s1 u) = th_state (th s u)).
      { unfold s1. rewrite th_set_th. destruct (decide (u = t)) as [->|]; [apply Hcl|done]. } by rewrite E. }
    destruct (IH fuel (wnxt s t) (thread_wake my t s1)) as (s' & -> & Hn & Hst & Hsl & Hwq); [|cbn in Hf; lia|].
    { eapply lseg_frame; [|exact Hc]. intros u Hu. rewrite Hn1, decide_False; [done|]. by intros ->. }
    exists s'. split; [done|]. split; [|split; [|by rewrite Hsl, Hwq]]; intros u.
    + rewrite Hn, Hn1. destruct (decide (u = t)) as [->|Hne].
      * rewrite (decide_True (P := t ∈ t :: l)) by (by left). by destruct (decide (t ∈ l)).
      * destruct (decide (u ∈ l)); [rewrite decide_True by (by right)|rewrite decide_False by set_solver]; done.
    + rewrite Hst, !Hs1. destruct (decide (u = t /\ _)) as [[-> Hw]|Hno].
      * rewrite decide_False by (by intros [? _]). rewrite decide_True; [done|]. split; [by left|done].
      * destruct (decide (u ∈ l /\ _)) as [[Hu Hw]|Hno2].
        -- rewrite decide_True; [done|]. split; [by right|done].
        -- rewrite decide_False; [done|]. intros [[->|Hu]%elem_of_cons Hw]; [by apply Hno|by apply Hno2].
Qed.

Lemma wakeup_all_Rep s L my k fuel :
  Rep s L -> (length (L k) <= fuel)%nat ->
  exists s', wait_queue_wakeup_all fuel my k s = Some s' /\ Rep s' (<[k := []]> L) /\
    forall u, th_state (th s' u) = if decide (u ∈ L k /\ th_state (th s u) = THREAD_STATE_WAITING)
      then THREAD_STATE_READY else th_state (th s u).
Proof.
  intros HR Hf. unfold wait_queue_wakeup_all. set (s1 := set_wq k _ s).
  destruct (wake_chain_spec (fun x => x <| th_wait_next := None |> <| th_wait_result := CHIMERA_SUCCESS |>) my (L k)
    ltac:(done) fuel (wq_head (wq s k)) s1) as (s' & -> & Hn & Hst & _ & Hwq); [apply (r_chain _ _ HR k)|done|].
  assert (Hq : forall j, wq s' j = if decide (j = k) then {| wq_head := None; wq_tail := None |} else wq s j).
  { intros j. unfold wq at 1. rewrite Hwq. exact (wq_set_wq s k (fun _ => {| wq_head := None; wq_tail := None |}) j). }
  exists s'. split; [done|]. split; [|done]. apply (Rep_change s); [done| | | | |].
  - by rewrite Hq, decide_True.
  - by rewrite Hq, decide_True.
  - intros j Hj. by rewrite Hq, decide_False.
  - set_solver.
  - intros j u Hj Hu. rewrite Hn, decide_False; [done|]. intros Huk. apply Hj. by apply (r_disj _ _ HR j k u).
Qed.


(** ** The timer *)

(** A thread without its wait link. *)
Definition unlinked (x : chimera_thread) : chimera_thread := x <| th_wait_next := None |>.

Lemma th_set_sleep_link pp v s u :
  th (set_sleep_link pp v s) u = if decide (pp = Some u) then (th s u) <| th_wait_next := v |> else th s u.
Proof.
  destruct pp as [p|]; cbn [set_sleep_link]; [|by rewrite decide_False].
  rewrite th_set_th. destruct (decide (u = p)) as [->|]; [by rewrite decide_True|by rewrite decide_False by congruence].
Qed.

Definition live (now : Z) (s : sched) (t : nat) : Prop := is_expired now (th s t) = false.
Definition due (now : Z) (s : sched) (t : nat) : Prop := is_expired now (th s t) = true.
#[local] Instance live_dec now s t : Decision (live now s t) := decide (is_expired now (th s t) = false).
#[local] Instance due_dec now s t : Decision (due now s t) := decide (is_expired now (th s t) = true).

(** One pass over the list: [kept] has been passed, [E] is the expired chain. *)
Lemma expire_spec now l :
  forall fuel kept E cur e s,
  chain (wnxt s) (s_sleep_list s) (kept ++ l) -> cur = head l -> chain (wnxt s) e E ->
  NoDup (kept ++ l ++ E) -> (length l <= fuel)%nat ->
  exists s' e', expire fuel now (last kept) cur e s = Some (s', e') /\
    chain (wnxt s') (s_sleep_list s') (kept ++ filter (live now s) l) /\
    chain (wnxt s') e' (rev (filter (due now s) l) ++ E) /\
    (forall u, unlinked (th s' u) = unlinked (th s u)) /\
    (forall u, u ∉ kept ++ l ++ E -> wnxt s' u = wnxt s u) /\ wait_queues s' = wait_queues s.
Proof.
  induction l as [|x l IH]; intros fuel kept E cur e s Hs -> He Hnd Hf.
  { exists s, e. split; [by destruct fuel|]. done. }
  destruct fuel as [|fuel]; [cbn in Hf; lia|]. cbn [length] in Hf. cbn [head expire].
  assert (Hnx : wnxt s x = head l).
  { apply lseg_app in Hs as (m & _ & [-> Hl]). destruct l; [done|by destruct Hl as [-> _]]. }
  fold (wnxt s x). rewrite Hnx. destruct (is_expired now (th s x)) eqn:Hx.
  - set (s1 := set_sleep_link (last kept) (head l) s). set (s2 := set_th x _ s1).
    assert (Hxk : last kept ≠ Some x).
    { intros E'%last_Some_elem_of. apply NoDup_app in Hnd as (_ & Hd & _). apply (Hd x E'). set_solver. }
    assert (Hn2 : forall u, wnxt s2 u = if decide (u = x) then e else if decide (last kept = Some u) then head l else wnxt s u).
    { intros u. unfold wnxt, s2. rewrite th_set_th. destruct (decide (u = x)); [done|]. unfold s1. rewrite th_set_sleep_link.
      by destruct (decide (last kept = Some u)). }
    assert (Hu2 : forall u, unlinked (th s2 u) = unlinked (th s u)).
    { intros u. unfold s2. rewrite th_set_th. unfold s1. rewrite !th_set_sleep_link.
      destruct (decide (u = x)) as [->|]; [by rewrite (decide_False (P := last kept = Some x))|]. by case_decide. }
    assert (Hex : forall u, is_expired now (th s2 u) = is_expired now (th s u)).
    { intros u. exact (f_equal (is_expired now) (Hu2 u)). }
    assert (Hxn : (x ∉ kept) /\ (x ∉ l) /\ (x ∉ E)).
    { apply NoDup_app in Hnd as (_ & Hd & Hnd). apply NoDup_cons in Hnd as [Hx' _].
      split; [intros ?; by apply (Hd x); [|left]|]. set_solver. }
    destruct Hxn as (Hxk' & Hxl & HxE).
    destruct (IH fuel kept (x :: E) (head l) (Some x) s2) as (s' & e' & Hex' & Hc1 & Hc2 & Hul & Hfr & Hw).
    + eapply chain_delete; [exact Hs| |].
      * unfold s2, s1. destruct (last kept) as [p|] eqn:El; cbn [set_sleep_link]; [|by rewrite Hnx].
        split; [done|]. rewrite Hnx. change (wnxt s2 p = head l). rewrite Hn2, decide_False by congruence.
        by rewrite decide_True.
      * intros u Hu Hne. rewrite Hn2, decide_False, decide_False; [done|congruence|]. intros ->. set_solver.
    + done.
    + split; [done|]. rewrite Hn2, decide_True by done. eapply lseg_frame; [|exact He].
      intros u Hu. rewrite Hn2, decide_False, decide_False; [done| |by intros ->].
      intros E'%last_Some_elem_of. apply NoDup_app in Hnd as (_ & Hd & _). apply (Hd u E'). set_solver.
    + eapply NoDup_Permutation_proper; [|exact Hnd]. f_equiv. cbn. by rewrite Permutation_middle.
    + lia.
    + exists s', e'. split; [done|].
      assert (Hfl : filter (live now s2) l = filter (live now s) l).
      { apply list_filter_iff. intros u. unfold live. by rewrite Hex. }
      assert (Hfd : filter (due now s2) l = filter (due now s) l).
      { apply list_filter_iff. intros u. unfold due. by rewrite Hex. }
      rewrite Hfl in Hc1. rewrite Hfd in Hc2. rewrite filter_cons_False by (unfold live; congruence).
      rewrite (filter_cons_True (due now s)) by done. cbn [rev]. rewrite <- app_assoc. split; [done|]. split; [done|].
      split; [intros u; by rewrite Hul|]. split; [|by rewrite Hw; unfold s2, s1; destruct (last kept)].
      intros u Hu. rewrite Hfr by set_solver. rewrite Hn2, decide_False, decide_False; [done| |set_solver].
      intros E'%last_Some_elem_of. set_solver.
  - assert (Hl1 : last (kept ++ [x]) = Some x) by apply last_snoc.
    destruct (IH fuel (kept ++ [x]) E (head l) e s) as (s' & e' & Hex' & Hc1 & Hc2 & Hul & Hfr & Hw);
      [by rewrite <- app_assoc|done|done|by rewrite <- app_assoc|lia|].
    rewrite Hl1 in Hex'. exists s', e'. split; [done|]. rewrite (filter_cons_True (live now s)) by done.
    rewrite (filter_cons_False (due now s)) by (unfold due; congruence). rewrite <- app_assoc in Hc1.
    split; [done|]. split; [done|]. split; [done|]. split; [|done]. intros u Hu. apply Hfr. by rewrite <- app_assoc.
Qed.

Lemma timer_wakes fuel my now s l :
  chain (wnxt s) (s_sleep_list s) l -> (length l <= fuel)%nat ->
  exists s', timer_wake_sleepers fuel my now s = Some s' /\
    chain (wnxt s') (s_sleep_list s') (filter (fun t => is_expired now (th s t) = false) l) /\
    (forall u, th_state (th s' u) =
       if decide (u ∈ l /\ is_expired now (th s u) = true /\ th_state (th s u) = THREAD_STATE_WAITING)
       then THREAD_STATE_READY else th_state (th s u)) /\
    wait_queues s' = wait_queues s.
Proof.
  intros Hc Hf. pose proof (chain_NoDup _ _ _ Hc) as Hnd.
  assert (Hh : s_sleep_list s = head l) by (destruct l; [done|by destruct Hc as [-> _]]).
  destruct (expire_spec now l fuel [] [] (head l) None s) as (s1 & e & He & Hc1 & Hc2 & Hu & _ & Hw1); [done..|by rewrite app_nil_r|done|].
  unfold timer_wake_sleepers. rewrite Hh. cbn [last] in He. rewrite He. cbn [mbind option_bind].
  rewrite app_nil_r in Hc2. cbn [app] in Hc1.
  destruct (wake_chain_spec (fun x => x <| th_wait_next := None |>) my (rev (filter (due now s) l)) ltac:(done) fuel e s1 Hc2)
    as (s' & -> & Hn & Hst & Hsl & Hw).
  { rewrite length_rev. etrans; [apply length_filter|done]. }
  exists s'. split; [done|]. split; [|split; [|congruence]].
  - rewrite Hsl. eapply lseg_frame; [|exact Hc1]. intros u Hu'. rewrite Hn, decide_False; [done|].
    rewrite list_elem_of_In, <- in_rev, <- list_elem_of_In. apply list_elem_of_filter in Hu' as [Hlv _].
    intros [Hd _]%list_elem_of_filter. unfold live, due in *. congruence.
  - intros u. rewrite Hst. assert (Es : th_state (th s1 u) = th_state (th s u)) by exact (f_equal th_state (Hu u)).
    rewrite Es. apply decide_ext. rewrite list_elem_of_In, <- in_rev, <- list_elem_of_In, list_elem_of_filter.
    unfold due. tauto.
Qed.

(** the timer interrupt.  On a well-formed sleep list [timer_wake_sleepers]
    terminates, keeps exactly the threads whose deadline is still ahead, in
    order, and readies exactly the waiting threads whose deadline has passed. *)
Theorem timer_wake_sleepers_spec fuel my now s l :
  chain (wnxt s) (s_sleep_list s) l -> (length l <= fuel)%nat ->
  exists s', timer_wake_sleepers fuel my now s = Some s' /\
    chain (wnxt s') (s_sleep_list s') (filter (fun t => is_expired now (th s t) = false) l) /\
    (forall u, th_state (th s' u) =
       if decide (u ∈ l /\ is_expired now (th s u) = true /\ th_state (th s u) = THREAD_STATE_WAITING)
       then THREAD_STATE_READY else th_state (th s u)) /\
    wait_queues s' = wait_queues s.
Proof. apply timer_wakes. Qed.

(** ** Timed waits *)

Definition idle_machine : sched :=
  {| threads := ∅; s_cpu_runq := ∅; g_cpu_data := ∅; s_total_cpus := 1; s_sleep_list := None; wait_queues := ∅ |}.

(** Thread 0 waits on queue 0 until [d0], thread 1 on queue 1 until [d1], and
    queue 1 is woken. *)
Definition two_timed_waits (d0 d1 : Z) : option sched :=
  s ← wait_queue_sleep_until_irqrestore 2 0 0 d0 idle_machine;
  s ← wait_queue_sleep_until_irqrestore 2 1 1 d1 s;
  Some (wait_queue_wakeup_one 0 1 s).

(** a timed wait can lose its deadline.  After two timed waits on different
    queues, waking the second queue cuts the first thread off the sleep list:
    it is still waiting, and no timer interrupt at whatever time readies it. *)
Theorem timed_wait_lost d0 d1 :
  exists s, two_timed_waits d0 d1 = Some s /\ th_state (th s 0) = THREAD_STATE_WAITING /\
    forall fuel now, (0 < fuel)%nat -> exists s', timer_wake_sleepers fuel 0 now s = Some s' /\
      th_state (th s' 0) = THREAD_STATE_WAITING.
Proof.
  destruct (two_timed_waits d0 d1) as [s|] eqn:E; [|by vm_compute in E]. exists s. split; [done|].
  assert (Hs : th_state (th s 0) = THREAD_STATE_WAITING /\ s_sleep_list s = Some 1%nat /\ wnxt s 1 = None).
  { vm_compute in E. injection E as <-. done. }
  destruct Hs as (Hst & Hsl & Hn). split; [done|]. intros fuel now Hf.
  destruct (timer_wakes fuel 0 now s [1%nat]) as (s' & -> & _ & Hs' & _); [by rewrite Hsl|cbn; lia|].
  exists s'. split; [done|]. rewrite Hs', decide_False; [done|]. intros [H0%list_elem_of_singleton _]. done.
Qed.

Lemma idle_machine_Rep : Rep idle_machine (fun _ => []).
Proof. constructor; [done|done|]. intros k k' t Ht. by apply elem_of_nil in Ht. Qed.


(** Thread 4 asleep until 100. *)
Definition one_sleeper : sched := default idle_machine (thread_sleep_until 0 4 100 idle_machine).

Lemma timer_wake_sleepers_spec_witness :
  exists s', timer_wake_sleepers 1 0 100 one_sleeper = Some s' /\ th_state (th s' 4) = THREAD_STATE_READY.
Proof.
  destruct (timer_wake_sleepers_spec 1 0 100 one_sleeper [4%nat]) as (s' & H1 & _ & H2 & _); [done|done|].
  exists s'. split; [exact H1|]. rewrite H2. by vm_compute.
Defined.
End WaitQueue.
