(* ===== verification/Mqueue.v ===== *)
(** * Message queues of ports

    Models [ipc_mqueue_send] and [ipc_mqueue_receive] of
    [kernel/mach/ipc_kmsg.c].  Each function is cut where it gives up the queue
    lock to sleep: a first part and a part that runs after every wake-up, so
    that senders and receivers interleave at these points.  A port with a kernel
    object hands the message to [ipc_kobject_server], which is outside this
    component. *)

From stdpp Require Import functions.
From S2P Require Import Prelude Pmm Zone Kmsg IpcPort.
Import Kmsg IpcPort.

(** A bounded wait on one of the two queues of a port. *)
Class TimedWait (W : Type) := wq_sleep_until : nat * side -> Z -> W -> W.

Module Mqueue.

(** [Kobject]: handed to [ipc_kobject_server]; [Blocked d]: asleep until [d];
    [Fault]: a null pointer is dereferenced. *)
Inductive outcome (A : Type) : Type :=
| Done (err : chimera_error) (v : A)
| Kobject
| Blocked (deadline : Z)
| Fault.
Arguments Done {A}. Arguments Kobject {A}. Arguments Fault {A}. Arguments Blocked {A}.

Section Queue.
Context {W : Type} `{WaitQueues W} `{TimedWait W} {S : Type}.
Notation state := (ipc W (kstate S)).
Implicit Types s : state.

Definition kmsg (s : state) (k : Z) : ipc_kmsg := kmsgs (msgs s) !!! k.
Definition set_kmsg (k : Z) (f : ipc_kmsg -> ipc_kmsg) (s : state) : state :=
  s <| msgs ::= fun m => m <| kmsgs ::= <[k := f (kmsgs m !!! k)]> |> |>.
Definition mq (s : state) (p : nat) : ipc_mqueue := ip_messages (port s p).
Definition set_mq (p : nat) (f : ipc_mqueue -> ipc_mqueue) (s : state) : state :=
  set_port p (fun x => x <| ip_messages ::= f |>) s.

(** Appending the message and waking a receiver. *)
Definition send_enqueue (p : nat) (k : Z) (s : state) : state :=
  let tail := imq_messages_tail (mq s p) in
  let s := set_kmsg k (fun m => m <| ikm_seqno := imq_seqno (mq s p) |> <| ikm_next := None |>
                                  <| ikm_prev := tail |>) s in
  let s := set_mq p (fun q => q <| imq_seqno ::= fun n => u32 (n + 1) |>) s in
  let s := match tail with
           | Some t => set_kmsg t (fun m => m <| ikm_next := Some k |>) s
           | None => set_mq p (fun q => q <| imq_messages := Some k |>) s
           end in
  let s := set_mq p (fun q => q <| imq_messages_tail := Some k |> <| imq_msgcount ::= fun n => u32 (n + 1) |>) s in
  s <| waiters ::= wq_wakeup_one (p, RecvWaiters) |>.

Definition send_sleep (p : nat) (deadline : Z) (s : state) : state :=
  s <| waiters ::= wq_sleep_until (p, SendWaiters) deadline |>.

(** [ipc_mqueue_send] up to its first sleep; [now] is the uptime. *)
Definition ipc_mqueue_send (p : nat) (k : Z) (timeout_ms now : Z) (s : state) : state * outcome unit :=
  if negb (ipc_port_is_active (port s p)) then (s, Done CHIMERA_ERR_PORT_DEAD tt)
  else if bool_decide (is_Some (ip_kobject (port s p))) then (s, Kobject)
  else if imq_qlimit (mq s p) <=? imq_msgcount (mq s p) then
    if timeout_ms =? 0 then (s, Done CHIMERA_ERR_PORT_FULL tt)
    else
      let deadline := u64 (now + timeout_ms) in
      (send_sleep p deadline s, Blocked deadline)
  else (send_enqueue p k s, Done CHIMERA_SUCCESS tt).

(** One round of its loop, after a wake-up. *)
Definition send_retry (p : nat) (k : Z) (deadline now : Z) (s : state) : state * outcome unit :=
  if negb (ipc_port_is_active (port s p)) then (s, Done CHIMERA_ERR_PORT_DEAD tt)
  else if imq_msgcount (mq s p) <? imq_qlimit (mq s p) then (send_enqueue p k s, Done CHIMERA_SUCCESS tt)
  else if i64 (deadline - now) <=? 0 then (s, Done CHIMERA_ERR_TIMEOUT tt)
  else (send_sleep p deadline s, Blocked deadline).

(** Taking the head of the queue and waking a sender. *)
Definition recv_dequeue (p : nat) (s : state) : state * outcome (option Z) :=
  match imq_messages (mq s p) with
  | None => (s, Fault)
  | Some k =>
      let next := ikm_next (kmsg s k) in
      let s := set_mq p (fun q => q <| imq_messages := next |>) s in
      let s := match next with
               | Some n => set_kmsg n (fun m => m <| ikm_prev := None |>) s
               | None => set_mq p (fun q => q <| imq_messages_tail := None |>) s
               end in
      let s := set_mq p (fun q => q <| imq_msgcount ::= fun n => u32 (n - 1) |>) s in
      let s := set_kmsg k (fun m => m <| ikm_next := None |> <| ikm_prev := None |>) s in
      (s <| waiters ::= wq_wakeup_one (p, SendWaiters) |>, Done CHIMERA_SUCCESS (Some k))
  end.

(** One round of the loop of [ipc_mqueue_receive]. *)
Definition recv_try (p : nat) (timeout_ms deadline now : Z) (s : state) : state * outcome (option Z) :=
  if negb (ipc_port_is_active (port s p)) then (s, Done CHIMERA_ERR_PORT_DEAD None)
  else if 0 <? imq_msgcount (mq s p) then recv_dequeue p s
  else if timeout_ms =? 0 then (s, Done CHIMERA_ERR_TIMEOUT None)
  else if i64 (deadline - now) <=? 0 then (s, Done CHIMERA_ERR_TIMEOUT None)
  else (s <| waiters ::= wq_sleep_until (p, RecvWaiters) deadline |>, Blocked deadline).

Definition ipc_mqueue_receive (p : nat) (timeout_ms now : Z) (s : state) : state * outcome (option Z) :=
  let deadline := if timeout_ms =? 0 then 0 else u64 (now + timeout_ms) in
  recv_try p timeout_ms deadline now s.

(** ** The queue as a list *)

(** Port [p] holds the messages [l], oldest first: a doubly linked list with
    consecutive sequence numbers. *)
Record MqRep (s : state) (p : nat) (l : list Z) : Prop := {
  mr_chain : dchain (fun k => ikm_next (kmsg s k)) (fun k => ikm_prev (kmsg s k)) None (imq_messages (mq s p)) l;
  mr_tail : imq_messages_tail (mq s p) = last l;
  mr_count : imq_msgcount (mq s p) = Z.of_nat (length l);
  mr_limit : Z.of_nat (length l) <= imq_qlimit (mq s p) < 2 ^ 32 - 1;
  mr_range : 0 <= imq_seqno (mq s p) < 2 ^ 32;
  mr_seqno : forall i k, l !! i = Some k ->
    ikm_seqno (kmsg s k) = u32 (imq_seqno (mq s p) - Z.of_nat (length l) + Z.of_nat i)
}.

Lemma kmsg_set_kmsg s k f j : kmsg (set_kmsg k f s) j = if decide (j = k) then f (kmsg s k) else kmsg s j.
Proof.
  unfold kmsg, set_kmsg. cbn. case_decide; subst; [by rewrite lookup_total_insert_eq|by rewrite lookup_total_insert_ne].
Qed.
Lemma mq_set_mq s p f q : mq (set_mq p f s) q = if decide (q = p) then f (mq s p) else mq s q.
Proof. unfold mq, set_mq. rewrite port_set_port. by case_decide. Qed.
Lemma kmsg_set_mq s p f k : kmsg (set_mq p f s) k = kmsg s k.
Proof. done. Qed.
Lemma mq_set_kmsg s k f p : mq (set_kmsg k f s) p = mq s p.
Proof. done. Qed.

(** All ports; no message is queued twice. *)
Definition MqAll (s : state) (L : nat -> list Z) : Prop :=
  (forall p, MqRep s p (L p)) /\ forall p q k, k ∈ L p -> k ∈ L q -> p = q.

Lemma mr_nodup s p l : MqRep s p l -> NoDup l.
Proof. intros HR. eapply dchain_NoDup. apply (mr_chain _ _ _ HR). Qed.

(** Queues whose messages and fields are untouched. *)
Lemma MqRep_frame s s' p l :
  MqRep s p l -> mq s' p = mq s p -> (forall k, k ∈ l -> kmsg s' k = kmsg s k) -> MqRep s' p l.
Proof.
  intros [H1 H2 H3 H4 H5 H6] Hq Hk. constructor; rewrite ?Hq; try done.
  - eapply dchain_frame; [|exact H1]. intros k Hin. by rewrite Hk.
  - intros i k Hi. rewrite Hk by (by eapply list_elem_of_lookup_2). by apply H6.
Qed.

Lemma MqAll_waiters s L f : MqAll s L -> MqAll (s <| waiters ::= f |>) L.
Proof. intros [HR Hd]. split; [|done]. intros p. by apply (MqRep_frame s). Qed.

(** Changing the queue of one port. *)
Lemma MqAll_change s s' L p l :
  MqAll s L -> MqRep s' p l -> (forall k, k ∈ l -> forall q, q ≠ p -> k ∉ L q) ->
  (forall q, q ≠ p -> mq s' q = mq s q) -> (forall q k, q ≠ p -> k ∈ L q -> kmsg s' k = kmsg s k) ->
  MqAll s' (<[p := l]> L).
Proof.
  intros [HR Hd] Hp Hl Hq Hk. split.
  - intros q. destruct (decide (q = p)) as [->|Hne]; [by rewrite fn_lookup_insert|].
    rewrite fn_lookup_insert_ne by done. apply (MqRep_frame s); [apply HR|by apply Hq|]. intros k. by apply Hk.
  - intros q r k. destruct (decide (q = p)) as [->|Hq'], (decide (r = p)) as [->|Hr];
      rewrite ?fn_lookup_insert, ?fn_lookup_insert_ne by done; [done| | |apply Hd].
    + intros Hx Hy. by apply (Hl k Hx r) in Hy.
    + intros Hx Hy. by apply (Hl k Hy q) in Hx.
Qed.

Lemma send_enqueue_MqAll s L p k :
  MqAll s L -> (forall q, k ∉ L q) -> imq_msgcount (mq s p) < imq_qlimit (mq s p) ->
  MqAll (send_enqueue p k s) (<[p := L p ++ [k]]> L).
Proof.
  intros HA Hk Hlt. pose proof HA as [HR Hd]. destruct (HR p) as [Hch Htl Hcnt Hlim Hrng Hseq].
  unfold send_enqueue. apply MqAll_waiters. rewrite Htl. set (l := L p) in *.
  set (s1 := set_kmsg k _ s). set (s2 := set_mq p _ s1).
  set (s3 := match last l with Some _ => _ | None => _ end). set (s4 := set_mq p _ s3).
  assert (Hkl : last l ≠ Some k) by (intros E%last_Some_elem_of; by apply (Hk p)).
  assert (Hmq4 : forall q, mq s4 q = if decide (q = p) then
    {| imq_messages := if l is [] then Some k else imq_messages (mq s p); imq_messages_tail := Some k;
       imq_msgcount := Z.of_nat (length (l ++ [k])); imq_qlimit := imq_qlimit (mq s p);
       imq_seqno := u32 (imq_seqno (mq s p) + 1) |} else mq s q).
  { assert (Hc : u32 (imq_msgcount (mq s p) + 1) = Z.of_nat (length (l ++ [k]))).
    { rewrite length_app, u32_id; cbn [length]; lia. }
    intros q. unfold s4. rewrite mq_set_mq. unfold s3.
    destruct (last l) as [t|] eqn:El; rewrite ?mq_set_kmsg, ?mq_set_mq; unfold s2; rewrite ?mq_set_mq, ?(decide_True (P := p = p)) by done;
      destruct (decide (q = p)) as [->|]; try done; unfold fupd;
      cbn [imq_messages imq_messages_tail imq_msgcount imq_qlimit imq_seqno]; unfold s1; rewrite mq_set_kmsg, Hc.
    - destruct l; [done|done].
    - apply last_None in El. by rewrite El. }
  assert (Hkm4 : forall j, kmsg s4 j = if decide (last l = Some j) then (kmsg s j) <| ikm_next := Some k |>
    else if decide (j = k) then (kmsg s k) <| ikm_seqno := imq_seqno (mq s p) |> <| ikm_next := None |> <| ikm_prev := last l |>
    else kmsg s j).
  { intros j. unfold s4. rewrite kmsg_set_mq. unfold s3. destruct (last l) as [t|] eqn:El.
    - rewrite kmsg_set_kmsg. unfold s2. rewrite !kmsg_set_mq. unfold s1. rewrite !kmsg_set_kmsg.
      destruct (decide (j = t)) as [->|]; [rewrite (decide_True (P := Some t = Some t)) by done; by rewrite decide_False by congruence|].
      by rewrite (decide_False (P := Some t = Some j)) by congruence.
    - rewrite kmsg_set_mq. unfold s2. rewrite kmsg_set_mq. unfold s1. rewrite kmsg_set_kmsg.
      by rewrite (decide_False (P := None = Some j)) by done. }
  clearbody s4. apply (MqAll_change s); [done| | | |].
  - constructor; rewrite ?Hmq4, ?decide_True by done; cbn [imq_messages imq_messages_tail imq_msgcount imq_qlimit imq_seqno].
    + eapply dchain_snoc; [exact Hch|apply Hk| | | |].
      * by rewrite Hkm4, decide_False, decide_True.
      * rewrite Hkm4, decide_False, decide_True by done. cbn [ikm_prev fupd]. by destruct (last l).
      * intros j Hj. rewrite Hkm4. destruct (decide (last l = Some j)); [done|].
        rewrite decide_False; [done|]. intros ->. by apply (Hk p).
      * intros j Hj. rewrite Hkm4. destruct (decide (last l = Some j)); [done|].
        rewrite decide_False; [done|]. intros ->. by apply (Hk p).
    + by rewrite last_snoc.
    + done.
    + rewrite length_app. cbn [length]. lia.
    + apply u32_range.
    + intros i j Hi. rewrite length_app. cbn [length].
      replace (u32 (imq_seqno (mq s p) + 1) - Z.of_nat (length l + 1) + Z.of_nat i) with
        (u32 (imq_seqno (mq s p) + 1) + (Z.of_nat i - Z.of_nat (length l + 1))) by lia. rewrite u32_add_l.
      replace (imq_seqno (mq s p) + 1 + _) with (imq_seqno (mq s p) - Z.of_nat (length l) + Z.of_nat i) by lia.
      destruct (decide (i < length l)%nat) as [Hil|Hil].
      * rewrite lookup_app_l in Hi by done. rewrite <- (Hseq i j Hi).
        rewrite Hkm4. destruct (decide (last l = Some j)); [done|]. rewrite decide_False; [done|].
        intros ->. apply (Hk p). by eapply list_elem_of_lookup_2.
      * rewrite lookup_app_r in Hi by lia. destruct (i - length l)%nat eqn:E; [|done]. injection Hi as <-.
        rewrite Hkm4, decide_False, decide_True by done. cbn [ikm_seqno fupd]. rewrite u32_id; lia.
  - intros j Hj q Hq Hjq. apply elem_of_app in Hj as [Hj| ->%list_elem_of_singleton]; [|by apply (Hk q)].
    apply Hq. by apply (Hd q p j).
  - intros q Hq. by rewrite Hmq4, decide_False.
  - intros q j Hq Hj. rewrite Hkm4, decide_False, decide_False; [done| |].
    + intros ->. by apply (Hk q).
    + intros E%last_Some_elem_of. apply Hq. by apply (Hd q p j).
Qed.

(** The head of a non-empty queue is taken. *)
Lemma recv_dequeue_MqAll s L p k l :
  MqAll s L -> L p = k :: l ->
  exists s', recv_dequeue p s = (s', Done CHIMERA_SUCCESS (Some k)) /\ MqAll s' (<[p := l]> L) /\
    ikm_seqno (kmsg s' k) = ikm_seqno (kmsg s k).
Proof.
  intros HA El. pose proof HA as [HR Hd]. destruct (HR p) as [Hch Htl Hcnt Hlim Hrng Hseq].
  pose proof (mr_nodup _ _ _ (HR p)) as Hnd. rewrite El in *. apply NoDup_cons in Hnd as [Hkl _].
  destruct Hch as (Hh & Hpk & Hch). unfold recv_dequeue. rewrite Hh. cbv zeta.
  set (s1 := set_mq p _ s). set (s2 := match ikm_next (kmsg s k) with Some _ => _ | None => _ end).
  set (s3 := set_mq p _ s2). set (s4 := set_kmsg k _ s3).
  assert (Hnx : ikm_next (kmsg s k) = head l) by (destruct l; [done|by destruct Hch as [-> _]]).
  assert (Hmq4 : forall q, mq s4 q = if decide (q = p) then
    {| imq_messages := head l; imq_messages_tail := last l; imq_msgcount := Z.of_nat (length l);
       imq_qlimit := imq_qlimit (mq s p); imq_seqno := imq_seqno (mq s p) |} else mq s q).
  { assert (Hc : u32 (imq_msgcount (mq s p) - 1) = Z.of_nat (length l)).
    { rewrite Hcnt. cbn [length] in *. rewrite u32_id; lia. }
    intros q. unfold s4. rewrite mq_set_kmsg. unfold s3. rewrite mq_set_mq. unfold s2. rewrite Hnx.
    destruct l as [|n l]; cbn [head]; rewrite ?mq_set_kmsg, ?mq_set_mq; unfold s1; rewrite ?mq_set_mq, ?(decide_True (P := p = p)) by done;
      destruct (decide (q = p)) as [->|]; try done; unfold fupd;
      cbn [imq_messages imq_messages_tail imq_msgcount imq_qlimit imq_seqno]; rewrite Hc, ?Htl, ?Hnx; done. }
  assert (Hkm4 : forall j, kmsg s4 j = if decide (j = k) then (kmsg s k) <| ikm_next := None |> <| ikm_prev := None |>
    else if decide (head l = Some j) then (kmsg s j) <| ikm_prev := None |> else kmsg s j).
  { assert (Hkh : head l ≠ Some k) by (intros E; apply Hkl; destruct l; simplify_eq/=; by left).
    intros j. unfold s4. rewrite kmsg_set_kmsg. unfold s3. rewrite !kmsg_set_mq. unfold s2. rewrite Hnx.
    destruct l as [|n l]; cbn [head] in *; rewrite ?kmsg_set_kmsg, ?kmsg_set_mq; [by destruct (decide (j = k))|].
    unfold s1. rewrite !kmsg_set_mq. rewrite (decide_False (P := k = n)) by congruence.
    destruct (decide (j = k)); [done|]. destruct (decide (j = n)) as [->|]; [by rewrite decide_True|by rewrite decide_False by congruence]. }
  clearbody s4. eexists. split; [done|]. split.
  - apply MqAll_waiters. apply (MqAll_change s); [done| | | |].
    + constructor; rewrite ?Hmq4, ?decide_True by done; cbn [imq_messages imq_messages_tail imq_msgcount imq_qlimit imq_seqno].
      * rewrite Hnx in Hch. destruct l as [|n l]; [done|]. destruct Hch as (_ & _ & Hch). cbn [head]. split; [done|].
        assert (n ≠ k /\ (k ∉ l)) by set_solver. rewrite Hkm4, decide_False, decide_True by (done || tauto). split; [done|].
        pose proof (mr_nodup _ _ _ (HR p)) as Hnd. rewrite El in Hnd. apply NoDup_cons in Hnd as [_ [Hnl _]%NoDup_cons].
        eapply dchain_frame; [|exact Hch]. intros j Hj. rewrite Hkm4, decide_False by (intros ->; tauto).
        rewrite decide_False by (intros [= ->]; done). done.
      * done.
      * done.
      * cbn [length] in *. lia.
      * done.
      * intros i j Hi. cbn [length] in Hseq. specialize (Hseq (Datatypes.S i) j Hi).
        assert (Hjk : j ≠ k) by (intros ->; apply Hkl; by eapply list_elem_of_lookup_2).
        rewrite Hkm4, decide_False by done.
        assert (Hsn : ikm_seqno (kmsg s j) = u32 (imq_seqno (mq s p) - Z.of_nat (length l) + Z.of_nat i)).
        { rewrite Hseq. f_equal. lia. }
        by destruct (decide (head l = Some j)).
    + intros j Hj q Hq Hjq. apply Hq. apply (Hd q p j Hjq). rewrite El. by right.
    + intros q Hq. by rewrite Hmq4, decide_False.
    + intros q j Hq Hj. assert (Hjp : j ∉ L p) by (intros Hjp; apply Hq; by apply (Hd q p j)). rewrite El in Hjp.
      rewrite Hkm4, decide_False by (intros ->; apply Hjp; by left). rewrite decide_False; [done|].
      intros E. apply Hjp. right. destruct l; simplify_eq/=. by left.
  - change (ikm_seqno (kmsg s4 k) = ikm_seqno (kmsg s k)). by rewrite Hkm4, decide_True.
Qed.

(** ** Histories of sends and receives *)

(** The messages accepted and delivered so far, per port. *)
Record msys := { ms : state; sent : nat -> list Z; rcvd : nat -> list Z }.

Definition inflight (y : msys) (p : nat) : list Z := drop (length (rcvd y p)) (sent y p).

Definition accept (p : nat) (k : Z) (out : outcome unit) (f : nat -> list Z) : nat -> list Z :=
  match out with Done CHIMERA_SUCCESS _ => <[p := f p ++ [k]]> f | _ => f end.
Definition deliver (p : nat) (out : outcome (option Z)) (f : nat -> list Z) : nat -> list Z :=
  match out with Done CHIMERA_SUCCESS (Some k) => <[p := f p ++ [k]]> f | _ => f end.

(** A thread sends a buffer it owns, retries, or receives. *)
Inductive mstep (y : msys) : msys -> Prop :=
| ms_send p k t now s' out :
    (forall q, k ∉ inflight y q) -> ipc_mqueue_send p k t now (ms y) = (s', out) ->
    mstep y {| ms := s'; sent := accept p k out (sent y); rcvd := rcvd y |}
| ms_resend p k d now s' out :
    (forall q, k ∉ inflight y q) -> send_retry p k d now (ms y) = (s', out) ->
    mstep y {| ms := s'; sent := accept p k out (sent y); rcvd := rcvd y |}
| ms_receive p t now s' out :
    ipc_mqueue_receive p t now (ms y) = (s', out) ->
    mstep y {| ms := s'; sent := sent y; rcvd := deliver p out (rcvd y) |}
| ms_rereceive p t d now s' out :
    recv_try p t d now (ms y) = (s', out) ->
    mstep y {| ms := s'; sent := sent y; rcvd := deliver p out (rcvd y) |}.

Definition MInv (y : msys) : Prop :=
  MqAll (ms y) (inflight y) /\ forall p, rcvd y p `prefix_of` sent y p.

Lemma MqAll_ext s L L' : (forall p, L p = L' p) -> MqAll s L -> MqAll s L'.
Proof.
  intros HL [HR Hd]. split; [intros p; by rewrite <- HL|]. intros p q k. rewrite <- !HL. apply Hd.
Qed.

Lemma MInv_accept y p k :
  MInv y -> (forall q, k ∉ inflight y q) -> imq_msgcount (mq (ms y) p) < imq_qlimit (mq (ms y) p) ->
  MInv {| ms := send_enqueue p k (ms y); sent := <[p := sent y p ++ [k]]> (sent y); rcvd := rcvd y |}.
Proof.
  intros [HA Hpre] Hk Hlt. split.
  - eapply MqAll_ext; [|by apply send_enqueue_MqAll]. intros q. unfold inflight. cbn.
    destruct (decide (q = p)) as [->|Hne]; [|by rewrite !fn_lookup_insert_ne]. rewrite !fn_lookup_insert.
    symmetry. apply drop_app_le. apply prefix_length, Hpre.
  - intros q. cbn. destruct (decide (q = p)) as [->|Hne]; [|by rewrite fn_lookup_insert_ne].
    rewrite fn_lookup_insert. by apply prefix_app_r.
Qed.

Lemma MInv_waiters y f :
  MInv y -> MInv {| ms := (ms y) <| waiters ::= f |>; sent := sent y; rcvd := rcvd y |}.
Proof. intros [HA Hpre]. split; [by apply MqAll_waiters|done]. Qed.

Lemma MInv_same y : MInv y -> MInv {| ms := ms y; sent := sent y; rcvd := rcvd y |}.
Proof. done. Qed.

Lemma MInv_recv y p t d now s' out :
  MInv y -> recv_try p t d now (ms y) = (s', out) ->
  MInv {| ms := s'; sent := sent y; rcvd := deliver p out (rcvd y) |}.
Proof.
  intros HI. pose proof HI as [HA Hpre]. unfold recv_try. destruct (ipc_port_is_active _); cbn [negb]; [|by intros [= <- <-]].
  destruct (Z.ltb_spec 0 (imq_msgcount (mq (ms y) p))) as [Hpos|Hz].
  - destruct (inflight y p) as [|k l] eqn:El.
    { rewrite (mr_count _ _ _ (proj1 HA p)), El in Hpos. done. }
    destruct (recv_dequeue_MqAll (ms y) (inflight y) p k l HA El) as (s1 & -> & HA1 & _). intros [= <- <-]. cbn [deliver].
    unfold inflight in El. destruct (Hpre p) as [rest Hrest]. rewrite Hrest, drop_app_length in El. subst rest. split.
    + eapply MqAll_ext; [|exact HA1]. intros q. unfold inflight. cbn.
      destruct (decide (q = p)) as [->|Hne]; [|by rewrite !fn_lookup_insert_ne]. rewrite !fn_lookup_insert, Hrest.
      replace (rcvd y p ++ k :: l) with ((rcvd y p ++ [k]) ++ l) by (by rewrite <- app_assoc).
      symmetry. apply drop_app_length.
    + intros q. cbn. destruct (decide (q = p)) as [->|Hne]; [|by rewrite fn_lookup_insert_ne].
      rewrite fn_lookup_insert, Hrest. exists l. by rewrite <- app_assoc.
  - destruct (t =? 0); [by intros [= <- <-]|]. destruct (_ <=? 0); [by intros [= <- <-]|].
    intros [= <- <-]. by apply MInv_waiters.
Qed.

Lemma mstep_MInv y y' : mstep y y' -> MInv y -> MInv y'.
Proof.
  intros Hs HI. destruct Hs as [p k t now s' out Hk E|p k d now s' out Hk E|p t now s' out E|p t d now s' out E].
  - unfold ipc_mqueue_send in E. destruct (ipc_port_is_active _); cbn [negb] in E; [|by injection E as <- <-].
    case_bool_decide; [by injection E as <- <-|]. destruct (Z.leb_spec (imq_qlimit (mq (ms y) p)) (imq_msgcount (mq (ms y) p))).
    + destruct (t =? 0); injection E as <- <-; [done|by apply MInv_waiters].
    + injection E as <- <-. by apply MInv_accept.
  - unfold send_retry in E. destruct (ipc_port_is_active _); cbn [negb] in E; [|by injection E as <- <-].
    destruct (Z.ltb_spec (imq_msgcount (mq (ms y) p)) (imq_qlimit (mq (ms y) p))).
    + injection E as <- <-. by apply MInv_accept.
    + destruct (_ <=? 0); injection E as <- <-; [done|by apply MInv_waiters].
  - by eapply MInv_recv.
  - by eapply MInv_recv.
Qed.

(** C17: message queues are first-in first-out, lossless and bounded.  Whatever
    sends, retries and receives on whatever ports interleave, the messages
    delivered on a port are a prefix of those accepted on it, in order; the rest
    is exactly what its queue holds, with consecutive sequence numbers; and no
    queue exceeds its limit. *)
Theorem mqueue_fifo y0 y p :
  (forall q, sent y0 q = [] /\ rcvd y0 q = [] /\ MqRep (ms y0) q []) -> rtc mstep y0 y ->
  sent y p = rcvd y p ++ inflight y p /\ MqRep (ms y) p (inflight y p) /\
  Z.of_nat (length (inflight y p)) <= imq_qlimit (mq (ms y) p).
Proof.
  intros Hini Hs. assert (HI0 : MInv y0).
  { split; [split|].
    - intros q. destruct (Hini q) as (E1 & E2 & HR). unfold inflight. by rewrite E1, E2.
    - intros q r k. destruct (Hini q) as (E1 & E2 & _). unfold inflight. rewrite E1, E2. by intros ?%elem_of_nil.
    - intros q. destruct (Hini q) as (E1 & E2 & _). by rewrite E1, E2. }
  destruct (rtc_invariant mstep MInv y0 y mstep_MInv Hs HI0) as [[HR _] Hpre]. split; [|split; [done|apply (HR p)]].
  destruct (Hpre p) as [rest E]. unfold inflight. rewrite E. by rewrite drop_app_length.
Qed.

(** ** Bounded waiting *)

(** The loops of the two functions, woken at the given uptimes after the other
    threads have changed the state; [None] is still asleep, or stuck. *)
Fixpoint send_loop (p : nat) (k d : Z) (wakes : list (Z * (state -> state))) (s : state) : option (state * chimera_error) :=
  match wakes with
  | [] => None
  | (now, f) :: wakes =>
      match send_retry p k d now (f s) with
      | (s, Done err _) => Some (s, err)
      | (s, Blocked _) => send_loop p k d wakes s
      | _ => None
      end
  end.

Fixpoint recv_loop (p : nat) (t d : Z) (wakes : list (Z * (state -> state))) (s : state) : option (state * chimera_error * option Z) :=
  match wakes with
  | [] => None
  | (now, f) :: wakes =>
      match recv_try p t d now (f s) with
      | (s, Done err v) => Some (s, err, v)
      | (s, Blocked _) => recv_loop p t d wakes s
      | _ => None
      end
  end.

(** The count of the queue does not promise messages that are not there. *)
Definition counted (p : nat) (s : state) : Prop :=
  0 < imq_msgcount (mq s p) -> is_Some (imq_messages (mq s p)).

Lemma send_retry_ends p k d now s :
  (exists err, (send_retry p k d now s).2 = Done err tt) \/
  (~ i64 (d - now) <= 0) /\ send_retry p k d now s = (send_sleep p d s, Blocked d).
Proof. unfold send_retry. repeat case_match; eauto; right; (split; [lia|done]). Qed.

Lemma recv_try_ends p t d now s : counted p s ->
  (exists err v, (recv_try p t d now s).2 = Done err v) \/
  (~ i64 (d - now) <= 0) /\
    recv_try p t d now s = (s <| waiters ::= wq_sleep_until (p, RecvWaiters) d |>, Blocked d).
Proof.
  intros Hc. unfold recv_try, recv_dequeue. repeat case_match; eauto.
  - destruct Hc; [lia|congruence].
  - right. split; [lia|done].
Qed.

(** waiting is bounded by the deadline.  While other threads keep the count
    of the queue right and otherwise change the state in any way between
    wake-ups, a blocked sender and a blocked receiver return as soon as one
    wake-up happens at or after their deadline, if not earlier. *)
Theorem mqueue_wait_bounded p k t d wakes s :
  Forall (fun w => forall s, counted p s -> counted p (w.2 s)) wakes -> counted p s ->
  Exists (fun w => i64 (d - w.1) <= 0) wakes ->
  is_Some (send_loop p k d wakes s) /\ is_Some (recv_loop p t d wakes s).
Proof.
  intros Hf Hc Hw. split.
  - clear Hf Hc. revert s. induction Hw as [[now f] wakes Hd|[now f] wakes _ IH]; intros s; cbn [send_loop];
      destruct (send_retry_ends p k d now (f s)) as [[err E]|[Hn E]]; cbn in *; [| tauto | |].
    1, 2: destruct (send_retry _ _ _ _ _) as [? out]; cbn in E; subst; eauto.
    rewrite E. apply IH.
  - revert s Hc Hf. induction Hw as [[now f] wakes Hd|[now f] wakes _ IH]; intros s Hc [Hf Hfs]%Forall_cons; cbn [recv_loop];
      destruct (recv_try_ends p t d now (f s) (Hf _ Hc)) as [(err & v & E)|[Hn E]]; cbn in *; [| tauto | |].
    1, 2: destruct (recv_try _ _ _ _ _) as [? out]; cbn in E; subst; eauto.
    rewrite E. apply IH; [|done]. apply (Hf _ Hc).
Qed.
End Queue.

(** ** Evaluation *)

Definition no_waiters : WaitQueues unit :=
  {| wq_init := fun _ w => w; wq_wakeup_one := fun _ w => w; wq_wakeup_all := fun _ w => w |}.
Definition no_sleep : TimedWait unit := fun _ _ w => w.
#[local] Existing Instances no_waiters no_sleep.

(** One live port, number 5. *)
Definition demo_ports : ipc unit (kstate unit) :=
  {| s_port_arena := {[5%nat := (inhabitant : ipc_port) <| ip_state := IPC_PORT_STATE_ACTIVE |>]};
     s_port_arena_next := 6; s_port_free_list := None; s_space_pool := ∅; s_space_next := 0; s_services := [];
     waiters := tt; msgs := {| kmsgs := ∅; Kmsg.in_use := ∅; s_kmsg_next := 0; kpm := tt |} |}.
Definition demo_empty : msys := {| ms := demo_ports; sent := fun _ => []; rcvd := fun _ => [] |}.

Lemma demo_empty_rep q : MqRep demo_ports q [].
Proof.
  assert (E : mq demo_ports q = empty_mqueue).
  { unfold mq, port. cbn [s_port_arena demo_ports]. destruct (decide (q = 5%nat)) as [->|].
    - by rewrite lookup_total_singleton.
    - by rewrite lookup_total_singleton_ne. }
  constructor; rewrite ?E; done.
Qed.

Definition demo_sent : msys :=
  {| ms := fst (ipc_mqueue_send 5 1000 0 0 demo_ports); sent := <[5%nat := [1000]]> (fun _ => []); rcvd := fun _ => [] |}.

Lemma demo_send : rtc mstep demo_empty demo_sent.
Proof.
  apply rtc_once. apply (ms_send demo_empty 5 1000 0 0 _ (Done CHIMERA_SUCCESS tt)); [|by vm_compute].
  intros q. apply not_elem_of_nil.
Qed.

Lemma mqueue_fifo_witness : MqRep (ms demo_sent) 5 [1000].
Proof.
  apply (mqueue_fifo demo_empty demo_sent 5); [|exact demo_send].
  intros q. split; [done|]. split; [done|apply demo_empty_rep].
Defined.

Lemma mqueue_wait_bounded_witness :
  is_Some (send_loop 5 1000 100 [(50, id); (100, id)] demo_ports).
Proof.
  apply (mqueue_wait_bounded 5 1000 1 100 [(50, id); (100, id)] demo_ports); [|done|].
  - by repeat constructor.
  - right. left. done.
Defined.
End Mqueue.
