(* ===== verification/Pmap.v ===== *)
(** * Page tables

    Models [kernel/mm/pmap.c]: the four-level x86-64 page tables of the user
    address spaces, kept in physical memory.  A pointer into the direct map is
    given by its physical address.  Every function runs under [s_pmap_lock]
    where the code takes it; the requests made of the TLB shootdown code are
    recorded in order.

    The physical page allocator is used through the interface [PageFrames];
    [Pmm] implements it ([pmm_page_frames]). *)

From S2P Require Import Prelude Pmm.

(** ** Reference-counted page frames *)

Definition aligned (f : Z) : Prop := f mod 4096 = 0.

Class PageFrames (S : Type) := {
  pf_alloc : S -> S * Z;
  pf_retain : Z -> S -> S;
  pf_release : Z -> S -> S;
  pf_refcount : S -> Z -> Z;
  pf_ok : S -> Prop;
  (** the frame belongs to the allocator *)
  pf_managed : S -> Z -> Prop;
  (** frames that can still be handed out *)
  pf_avail : S -> Z;
  pf_avail_nonneg s : pf_ok s -> 0 <= pf_avail s;
  pf_avail_alloc s s' a : pf_ok s -> pf_alloc s = (s', a) ->
    pf_avail s - 1 <= pf_avail s' /\ (0 < pf_avail s -> a ≠ 0 /\ a ≠ Pmm.PADDR_NONE);
  pf_avail_retain s f : pf_ok s -> 0 <= f -> (pf_managed s f -> 0 < pf_refcount s f) -> pf_avail s <= pf_avail (pf_retain f s);
  pf_avail_release s f : pf_ok s -> 0 < f -> aligned f -> pf_avail s <= pf_avail (pf_release f s);
  pf_refcount_law s f : pf_ok s -> 0 <= f -> 0 <= pf_refcount s f;
  pf_alloc_law s s' a :
    pf_ok s -> pf_alloc s = (s', a) ->
    pf_ok s' /\ (forall f, pf_managed s' f <-> pf_managed s f) /\
    (forall f, 0 < pf_refcount s f -> pf_refcount s' f = pf_refcount s f) /\
    (a ≠ 0 -> a ≠ Pmm.PADDR_NONE ->
     aligned a /\ 0 < a < 2 ^ 52 /\ pf_managed s a /\ pf_refcount s a = 0 /\ pf_refcount s' a = 1);
  pf_retain_law s f :
    pf_ok s -> 0 <= f -> aligned f -> (pf_managed s f -> 0 < pf_refcount s f) ->
    let s' := pf_retain f s in
    pf_ok s' /\ (forall g, pf_managed s' g <-> pf_managed s g) /\
    (forall g, aligned g -> g ≠ f -> pf_refcount s' g = pf_refcount s g) /\
    (pf_managed s f -> pf_refcount s' f = Z.min 65535 (pf_refcount s f + 1));
  pf_release_law s f :
    pf_ok s -> 0 <= f -> aligned f ->
    let s' := pf_release f s in
    pf_ok s' /\ (forall g, pf_managed s' g <-> pf_managed s g) /\
    forall g, aligned g ->
      pf_refcount s' g = if decide (g = f) then Z.max 0 (pf_refcount s f - 1) else pf_refcount s g
}.

Module Pmap.

Definition PAGE_PRESENT : Z := 2 ^ 0.
Definition PAGE_WRITE : Z := 2 ^ 1.
Definition PAGE_USER : Z := 2 ^ 2.
Definition PAGE_PWT : Z := 2 ^ 3.
Definition PAGE_PCD : Z := 2 ^ 4.
Definition PAGE_LARGE : Z := 2 ^ 7.
Definition PAGE_COW : Z := 2 ^ 9.
Definition PAGE_NX : Z := 2 ^ 63.
Definition PTE_PHYS_MASK : Z := 0x000FFFFFFFFFF000.
Definition SIGNAL_TRAMP_VA : Z := 0x70000000.
Definition CHIMERA_MAX_CPUS : nat := 16.

(** What is asked of the TLBs: a flush on the CPUs running on [pml4], where
    start and size 0 ask for everything, or [invlpg] on the executing CPU. *)
Inductive tlb_op :=
| Flush (pml4 start size : Z)
| Invlpg (va : Z).

Record pmap {S : Type} := {
  mem : gmap Z Z;               (* physical memory *)
  frames : S;
  s_kernel_pml4_phys : Z;
  s_tramp_phys : Z;
  cr3 : Z;                      (* of the executing CPU *)
  cpu_active_cr3 : gmap nat Z;
  tlb : list tlb_op             (* newest first *)
}.
Arguments pmap : clear implicits.
#[global] Instance pmap_eta S : Eta (pmap S) := fun r =>
  {| mem := mem r; frames := frames r; s_kernel_pml4_phys := s_kernel_pml4_phys r;
     s_tramp_phys := s_tramp_phys r; cr3 := cr3 r; cpu_active_cr3 := cpu_active_cr3 r; tlb := tlb r |}.

Definition s_tramp_code : list Z :=
  [0x48; 0x8B; 0x3C; 0x24;
   0xFF; 0x54; 0x24; 0x08;
   0x48; 0x8B; 0x7C; 0x24; 0x10;
   0xB8; 0xB8; 0x00; 0x00; 0x00;
   0x0F; 0x05].

Definition va_of (pml4_i pdpt_i pd_i pt_i : Z) : Z :=
  Z.lor (Z.lor (Z.lor (Z.shiftl pml4_i 39) (Z.shiftl pdpt_i 30)) (Z.shiftl pd_i 21)) (Z.shiftl pt_i 12).

Definition pmap_is_trampoline_va (va : Z) : bool := Z.land va (not64 0xFFF) =? SIGNAL_TRAMP_VA.

(** [(va >> sh) & 0x1FF] *)
Definition index (sh va : Z) : Z := Z.land (Z.shiftr va sh) 0x1FF.

Definition get_table_ptr (phys : Z) : Z := Z.land phys PTE_PHYS_MASK.

(** The address of entry [i] of the table an entry or [cr3] value points to. *)
Definition slot (phys i : Z) : Z := get_table_ptr phys + 8 * i.

Section Ops.
Context {S : Type} `{PageFrames S}.
Notation state := (pmap S).
Implicit Types s : state.

Definition word (s : state) (a : Z) : Z := load (mem s) a.
Definition set_word (a w : Z) (s : state) : state := s <| mem ::= store a w |>.

Definition alloc_page (s : state) : state * Z :=
  let '(fr, phys) := pf_alloc (frames s) in (s <| frames := fr |>, phys).
Definition release_page (phys : Z) (s : state) : state := s <| frames ::= pf_release phys |>.
Definition retain_page (phys : Z) (s : state) : state := s <| frames ::= pf_retain phys |>.
Definition no_page (phys : Z) : bool := (phys =? 0) || (phys =? 2 ^ 64 - 1).

(** [memset] and [memcpy] of a page. *)
Definition set_page (phys w : Z) (s : state) : state :=
  s <| mem ::= fill_words phys (fun _ => w) (seqZ 0 512) |>.
Definition copy_page (dst src : Z) (s : state) : state :=
  s <| mem := fill_words dst (fun i => load (mem s) (src + 8 * i)) (seqZ 0 512) (mem s) |>.

Definition smp_tlb_flush_range_pml4 (pml4 start size : Z) (s : state) : state :=
  s <| tlb ::= cons (Flush pml4 start size) |>.
Definition smp_tlb_flush_page_pml4 (pml4 va : Z) : state -> state := smp_tlb_flush_range_pml4 pml4 va 4096.
Definition smp_tlb_shootdown_pml4 (pml4 : Z) : state -> state := smp_tlb_flush_range_pml4 pml4 0 0.

Definition pmap_kernel_pml4 (s : state) : Z := s_kernel_pml4_phys s.

Definition pmap_bootstrap (s : state) : state :=
  s <| s_kernel_pml4_phys := Z.land (cr3 s) PTE_PHYS_MASK |>.

(** ** Walking the tables *)

Definition pmap_get_pte_ptr (pml4_phys vaddr : Z) (s : state) : option Z :=
  if pml4_phys =? 0 then None else
  let pml4e := word s (slot pml4_phys (index 39 vaddr)) in
  if negb (has pml4e PAGE_PRESENT) then None else
  let pdpte := word s (slot pml4e (index 30 vaddr)) in
  if negb (has pdpte PAGE_PRESENT) || has pdpte PAGE_LARGE then None else
  let pde := word s (slot pdpte (index 21 vaddr)) in
  if negb (has pde PAGE_PRESENT) || has pde PAGE_LARGE then None else
  Some (slot pde (index 12 vaddr)).

Definition pmap_extract (pml4_phys vaddr : Z) (s : state) : Z :=
  if (pml4_phys =? 0) || (vaddr <? 0x1000) || (0x0000800000000000 <=? vaddr) then 0 else
  let pml4e := word s (slot pml4_phys (index 39 vaddr)) in
  if negb (has pml4e PAGE_PRESENT) || negb (has pml4e PAGE_USER) then 0 else
  let pdpte := word s (slot pml4e (index 30 vaddr)) in
  if negb (has pdpte PAGE_PRESENT) || negb (has pdpte PAGE_USER) then 0 else
  if has pdpte PAGE_LARGE then Z.lor (Z.land pdpte 0x000FFFFFC0000000) (Z.land vaddr 0x3FFFFFFF) else
  let pde := word s (slot pdpte (index 21 vaddr)) in
  if negb (has pde PAGE_PRESENT) || negb (has pde PAGE_USER) then 0 else
  if has pde PAGE_LARGE then Z.lor (Z.land pde 0x000FFFFFFFE00000) (Z.land vaddr 0x1FFFFF) else
  let pte := word s (slot pde (index 12 vaddr)) in
  if negb (has pte PAGE_PRESENT) || negb (has pte PAGE_USER) then 0 else
  Z.lor (Z.land pte PTE_PHYS_MASK) (Z.land vaddr 0xFFF).

(** Any address, the kernel's direct map at [g_hhdm_base] included. *)
Definition pmap_vtophys (g_hhdm_base pml4_phys vaddr : Z) (s : state) : Z :=
  if pml4_phys =? 0 then 0 else
  if (g_hhdm_base <=? vaddr) && (vaddr <? u64 (g_hhdm_base + 0x400000000000)) then vaddr - g_hhdm_base else
  let pml4e := word s (slot pml4_phys (index 39 vaddr)) in
  if negb (has pml4e PAGE_PRESENT) then 0 else
  let pdpte := word s (slot pml4e (index 30 vaddr)) in
  if negb (has pdpte PAGE_PRESENT) then 0 else
  if has pdpte PAGE_LARGE then Z.lor (Z.land pdpte 0x000FFFFFC0000000) (Z.land vaddr 0x3FFFFFFF) else
  let pde := word s (slot pdpte (index 21 vaddr)) in
  if negb (has pde PAGE_PRESENT) then 0 else
  if has pde PAGE_LARGE then Z.lor (Z.land pde 0x000FFFFFFFE00000) (Z.land vaddr 0x1FFFFF) else
  let pte := word s (slot pde (index 12 vaddr)) in
  if negb (has pte PAGE_PRESENT) then 0 else
  Z.lor (Z.land pte PTE_PHYS_MASK) (Z.land vaddr 0xFFF).

(** ** Mapping a page *)

(** Makes the entry at [ea] point to a user table, which [replace_large] also
    does to a large page; [false] when the code returns 0. *)
Definition user_table (replace_large : bool) (ea : Z) (s : state) : state * bool :=
  let e := word s ea in
  if negb (has e PAGE_PRESENT) || (replace_large && has e PAGE_LARGE) then
    let '(s, phys) := alloc_page s in
    if no_page phys then (s, false) else
    let s := set_page (get_table_ptr phys) 0 s in
    (set_word ea (Z.lor (Z.lor (Z.lor (Z.land phys PTE_PHYS_MASK) PAGE_PRESENT) PAGE_WRITE) PAGE_USER) s, true)
  else (s, has e PAGE_USER).

(** Installing the leaf entry at [ea]. *)
Definition map_leaf (ea vaddr paddr flags : Z) (s : state) : state :=
  let old_pte := word s ea in
  let s := if has old_pte PAGE_PRESENT
              && negb (Z.land old_pte PTE_PHYS_MASK =? Z.land paddr PTE_PHYS_MASK)
              && negb (pmap_is_trampoline_va vaddr)
           then release_page (Z.land old_pte PTE_PHYS_MASK) s else s in
  set_word ea (Z.lor (Z.lor (Z.lor (Z.land paddr PTE_PHYS_MASK) flags) PAGE_PRESENT) PAGE_USER) s.

Definition pmap_map_user_page_unlocked (target_pml4_phys vaddr paddr flags : Z) (s : state) : state * Z :=
  if (target_pml4_phys =? 0) || (vaddr <? 0x1000) || (0x0000800000000000 <=? vaddr) then (s, 0) else
  if 256 <=? index 39 vaddr then (s, 0) else
  let ea4 := slot target_pml4_phys (index 39 vaddr) in
  let '(s, ok) := user_table false ea4 s in
  if negb ok then (s, 0) else
  let ea3 := slot (word s ea4) (index 30 vaddr) in
  let '(s, ok) := user_table false ea3 s in
  if negb ok then (s, 0) else
  let ea2 := slot (word s ea3) (index 21 vaddr) in
  let '(s, ok) := user_table true ea2 s in
  if negb ok then (s, 0) else
  (map_leaf (slot (word s ea2) (index 12 vaddr)) vaddr paddr flags s, paddr).

Definition pmap_map_user_page : Z -> Z -> Z -> Z -> state -> state * Z := pmap_map_user_page_unlocked.

(** The shared page, created by the first caller. *)
Definition trampoline_page (s : state) : state * bool :=
  if s_tramp_phys s =? 0 then
    let '(s, phys) := alloc_page s in
    if no_page phys then (s, false) else
    let s := set_page phys 0x9090909090909090 s in
    let s := s <| mem ::= store_bytes phys s_tramp_code |> <| s_tramp_phys := phys |> in
    (retain_page phys s, true)
  else (s, true).

Definition pmap_trampoline_install (pml4_phys : Z) (s : state) : state :=
  let '(s, ok) := trampoline_page s in
  if negb ok then s
  else (pmap_map_user_page_unlocked pml4_phys SIGNAL_TRAMP_VA (s_tramp_phys s) PAGE_USER s).1.

(** ** Address spaces *)

(** Entries 256..511 of a new top-level table. *)
Definition copy_kernel_half (dst src : Z) (s : state) : state :=
  s <| mem := fill_words (get_table_ptr dst) (fun i => load (mem s) (slot src i)) (seqZ 256 256) (mem s) |>.

Definition pmap_create (s : state) : state * Z :=
  let '(s, pml4_phys) := alloc_page s in
  if no_page pml4_phys then (s, 0) else
  let s := set_page (get_table_ptr pml4_phys) 0 s in
  let s := copy_kernel_half pml4_phys (s_kernel_pml4_phys s) s in
  (pmap_trampoline_install pml4_phys s, pml4_phys).
(** One entry of the parent, shared copy-on-write with the child. *)
Definition clone_pte (dst_pml4_phys src_pt pml4_i pdpt_i pd_i : Z) (s : state) (pt_i : Z) : state :=
  let ea := slot src_pt pt_i in
  let pte := word s ea in
  if negb (has pte PAGE_PRESENT) || negb (has pte PAGE_USER) then s else
  let va := va_of pml4_i pdpt_i pd_i pt_i in
  let phys := Z.land pte PTE_PHYS_MASK in
  let '(s, flags) :=
    if has pte PAGE_WRITE
    then (set_word ea (Z.lor (Z.land pte (not64 PAGE_WRITE)) PAGE_COW) s, PAGE_COW)
    else (s, if has pte PAGE_COW then PAGE_COW else 0) in
  let '(s, r) := pmap_map_user_page_unlocked dst_pml4_phys va phys flags s in
  if r =? 0 then s else retain_page phys s.

(** An entry the sweeps descend into. *)
Definition user_dir (large_ok : bool) (e : Z) : bool :=
  has e PAGE_PRESENT && has e PAGE_USER && (large_ok || negb (has e PAGE_LARGE)).

Definition clone_pt (dst src_pd pml4_i pdpt_i : Z) (s : state) (pd_i : Z) : state :=
  let pde := word s (slot src_pd pd_i) in
  if negb (user_dir false pde) then s
  else foldl (clone_pte dst pde pml4_i pdpt_i pd_i) s (seqZ 0 512).
Definition clone_pd (dst src_pdpt pml4_i : Z) (s : state) (pdpt_i : Z) : state :=
  let pdpte := word s (slot src_pdpt pdpt_i) in
  if negb (user_dir false pdpte) then s
  else foldl (clone_pt dst pdpte pml4_i pdpt_i) s (seqZ 0 512).
Definition clone_pdpt (dst src_pml4 : Z) (s : state) (pml4_i : Z) : state :=
  let pml4e := word s (slot src_pml4 pml4_i) in
  if negb (user_dir true pml4e) then s
  else foldl (clone_pd dst pml4e pml4_i) s (seqZ 0 512).

Definition pmap_clone_user_space (src_pml4_phys : Z) (s : state) : state * Z :=
  if src_pml4_phys =? 0 then (s, 0) else
  let '(s, dst) := alloc_page s in
  if no_page dst then (s, 0) else
  let s := set_page (get_table_ptr dst) 0 s in
  let s := copy_kernel_half dst src_pml4_phys s in
  let s := foldl (clone_pdpt dst src_pml4_phys) s (seqZ 0 256) in
  let s := smp_tlb_shootdown_pml4 src_pml4_phys s in
  (pmap_trampoline_install dst s, dst).

(** The sweep that frees pages and tables.  [pmap_destroy_user_space] visits
    every present entry, [pmap_clear_user_mappings] only those of the user. *)
Definition swept (user_only large_ok : bool) (e : Z) : bool :=
  has e PAGE_PRESENT && (negb user_only || has e PAGE_USER) && (large_ok || negb (has e PAGE_LARGE)).

Definition sweep_pte (user_only : bool) (pt pml4_i pdpt_i pd_i : Z) (s : state) (pt_i : Z) : state :=
  let ea := slot pt pt_i in
  let pte := word s ea in
  if negb (swept user_only true pte) then s else
  let s := set_word ea 0 s in
  if pmap_is_trampoline_va (va_of pml4_i pdpt_i pd_i pt_i) then s
  else release_page (Z.land pte PTE_PHYS_MASK) s.
Definition sweep_pt (user_only : bool) (pd pml4_i pdpt_i : Z) (s : state) (pd_i : Z) : state :=
  let ea := slot pd pd_i in
  let pde := word s ea in
  if negb (swept user_only false pde) then s else
  let s := foldl (sweep_pte user_only pde pml4_i pdpt_i pd_i) s (seqZ 0 512) in
  set_word ea 0 (release_page (Z.land pde PTE_PHYS_MASK) s).
Definition sweep_pd (user_only : bool) (pdpt pml4_i : Z) (s : state) (pdpt_i : Z) : state :=
  let ea := slot pdpt pdpt_i in
  let pdpte := word s ea in
  if negb (swept user_only false pdpte) then s else
  let s := foldl (sweep_pt user_only pdpte pml4_i pdpt_i) s (seqZ 0 512) in
  set_word ea 0 (release_page (Z.land pdpte PTE_PHYS_MASK) s).
Definition sweep_pdpt (user_only : bool) (pml4 : Z) (s : state) (pml4_i : Z) : state :=
  let ea := slot pml4 pml4_i in
  let pml4e := word s ea in
  if negb (swept user_only true pml4e) then s else
  let s := foldl (sweep_pd user_only pml4e pml4_i) s (seqZ 0 512) in
  set_word ea 0 (release_page (Z.land pml4e PTE_PHYS_MASK) s).

Definition pmap_destroy_user_space (my_cpu : nat) (pml4_phys : Z) (s : state) : state :=
  if pml4_phys =? 0 then s else
  let s :=
    if Z.land (cr3 s) PTE_PHYS_MASK =? Z.land pml4_phys PTE_PHYS_MASK then
      let s := s <| cr3 := s_kernel_pml4_phys s |> in
      if (my_cpu <? CHIMERA_MAX_CPUS)%nat
      then s <| cpu_active_cr3 ::= <[my_cpu := Z.land (s_kernel_pml4_phys s) 0x000FFFFFFFFFF000]> |>
      else s
    else s in
  let s := smp_tlb_shootdown_pml4 pml4_phys s in
  let s := foldl (sweep_pdpt false pml4_phys) s (seqZ 0 256) in
  release_page (Z.land pml4_phys PTE_PHYS_MASK) s.

Definition pmap_clear_user_mappings (pml4_phys : Z) (s : state) : state :=
  if pml4_phys =? 0 then s else
  let s := smp_tlb_shootdown_pml4 pml4_phys s in
  foldl (sweep_pdpt true pml4_phys) s (seqZ 0 256).

(** ** Unmapping and protecting a range *)

(** The page addresses of [for (va = start; va < end; va += 4096)]. *)
Definition page_range (start end_ : Z) : list Z :=
  (fun i => start + 4096 * i) <$> seqZ 0 ((end_ - start + 4095) / 4096).

Definition page_trunc (a : Z) : Z := Z.land a (not64 0xFFF).

(** Clears one entry and collects the frame to free. *)
Definition unmap_pte (pml4_phys : Z) (release_pages : bool) (acc : state * list Z) (va : Z) : state * list Z :=
  let '(s, phys_to_free) := acc in
  match pmap_get_pte_ptr pml4_phys va s with
  | None => (s, phys_to_free)
  | Some ea =>
      let pte := word s ea in
      if negb (has pte PAGE_PRESENT) then (s, phys_to_free) else
      (set_word ea 0 s,
       if release_pages && negb (pmap_is_trampoline_va va)
       then phys_to_free ++ [Z.land pte PTE_PHYS_MASK] else phys_to_free)
  end.

Definition unmap_chunk (pml4_phys chunk_start chunk_end : Z) (release_pages : bool) (s : state) : state :=
  let '(s, phys_to_free) := foldl (unmap_pte pml4_phys release_pages) (s, []) (page_range chunk_start chunk_end) in
  let s := smp_tlb_flush_range_pml4 pml4_phys chunk_start (u64 (chunk_end - chunk_start)) s in
  foldl (fun s phys => release_page phys s) s phys_to_free.

(** The chunk loop; [None] when the fuel does not suffice. *)
Fixpoint unmap_chunks (fuel : nat) (pml4_phys chunk_start end_ : Z) (release_pages : bool) (s : state) : option state :=
  if end_ <=? chunk_start then Some s else
  match fuel with
  | O => None
  | Datatypes.S fuel =>
      let chunk_end := u64 (chunk_start + 64 * 4096) in
      let chunk_end := if end_ <? chunk_end then end_ else chunk_end in
      unmap_chunks fuel pml4_phys chunk_end end_ release_pages
        (unmap_chunk pml4_phys chunk_start chunk_end release_pages s)
  end.

Definition pmap_unmap_user_range_ex (fuel : nat) (pml4_phys vaddr len : Z) (release_pages : bool) (s : state) : option state :=
  if (pml4_phys =? 0) || (len =? 0) then Some s else
  let start := page_trunc vaddr in
  let end_ := page_trunc (u64 (vaddr + len + 4095)) in
  unmap_chunks fuel pml4_phys start end_ release_pages s.

Definition pmap_unmap_user_range (fuel : nat) (pml4_phys vaddr len : Z) : state -> option state :=
  pmap_unmap_user_range_ex fuel pml4_phys vaddr len true.

(** The leaf entry [pmap_protect_user_range] writes. *)
Definition protect_pte (prot pte : Z) : Z :=
  let new_flags := Z.lor PAGE_PRESENT PAGE_USER in
  let new_flags := if has prot 2 then Z.lor new_flags PAGE_WRITE else new_flags in
  let new_flags := if negb (has prot 4) then Z.lor new_flags PAGE_NX else new_flags in
  let new_flags := if prot =? 0 then Z.land new_flags (not64 PAGE_PRESENT) else new_flags in
  Z.lor (Z.land pte PTE_PHYS_MASK) new_flags.

Definition protect_page (pml4_phys prot : Z) (s : state) (va : Z) : state :=
  match pmap_get_pte_ptr pml4_phys va s with
  | None => s
  | Some ea => if has (word s ea) PAGE_PRESENT then set_word ea (protect_pte prot (word s ea)) s else s
  end.

Definition pmap_protect_user_range (pml4_phys virt_start len prot : Z) (s : state) : state * Z :=
  if (pml4_phys =? 0) || (len =? 0) then (s, -1) else
  let start_va := page_trunc virt_start in
  let end_va := page_trunc (u64 (virt_start + len + 0xFFF)) in
  if 0x0000800000000000 <=? end_va then (s, -1) else
  let s := foldl (protect_page pml4_phys prot) s (page_range start_va end_va) in
  (smp_tlb_flush_range_pml4 pml4_phys start_va (u64 (end_va - start_va)) s, 0).

(** ** Copy on write *)

Definition pmap_handle_cow_fault (pml4_phys fault_va : Z) (s : state) : state * bool :=
  if (pml4_phys =? 0) || (0x0000800000000000 <=? fault_va) then (s, false) else
  match pmap_get_pte_ptr pml4_phys fault_va s with
  | None => (s, false)
  | Some ea =>
      let pte := word s ea in
      if negb (has pte PAGE_PRESENT) || negb (has pte PAGE_COW) then (s, false) else
      let old_phys := Z.land pte PTE_PHYS_MASK in
      if 1 <? pf_refcount (frames s) old_phys then
        let '(s, new_phys) := alloc_page s in
        if no_page new_phys then (s, false) else
        let s := copy_page (Z.land new_phys PTE_PHYS_MASK) old_phys s in
        let s := release_page old_phys s in
        let pte := word s ea in
        let pte := Z.lor (Z.lor (Z.land new_phys PTE_PHYS_MASK) (Z.land pte (not64 PTE_PHYS_MASK))) PAGE_WRITE in
        let s := set_word ea (Z.land pte (not64 PAGE_COW)) s in
        (smp_tlb_flush_page_pml4 pml4_phys fault_va s, true)
      else
        let s := set_word ea (Z.land (Z.lor pte PAGE_WRITE) (not64 PAGE_COW)) s in
        (smp_tlb_flush_page_pml4 pml4_phys fault_va s, true)
  end.

(** ** Device memory *)

(** Makes the kernel entry at [ea] point to a table. *)
Definition kernel_table (ea : Z) (s : state) : state * bool :=
  if negb (has (word s ea) PAGE_PRESENT) then
    let '(s, table_phys) := alloc_page s in
    if no_page table_phys then (s, false) else
    let s := set_page (get_table_ptr table_phys) 0 s in
    (set_word ea (Z.lor (Z.lor table_phys PAGE_PRESENT) PAGE_WRITE) s, true)
  else (s, true).

Definition map_mmio_page (va pa : Z) (s : state) : state * bool :=
  let pml4e := slot (s_kernel_pml4_phys s) (index 39 va) in
  let '(s, ok) := kernel_table pml4e s in
  if negb ok then (s, false) else
  let pdpte := slot (word s pml4e) (index 30 va) in
  let large := has (word s pdpte) PAGE_PRESENT && has (word s pdpte) PAGE_LARGE in
  let '(s, ok) := kernel_table pdpte s in
  if negb ok then (s, false) else
  if large then (s, true) else
  let pde := slot (word s pdpte) (index 21 va) in
  let large := has (word s pde) PAGE_PRESENT && has (word s pde) PAGE_LARGE in
  let '(s, ok) := kernel_table pde s in
  if negb ok then (s, false) else
  if large then (s, true) else
  let s := set_word (slot (word s pde) (index 12 va))
             (Z.lor (Z.lor (Z.lor (Z.lor pa PAGE_PRESENT) PAGE_WRITE) PAGE_PWT) PAGE_PCD) s in
  (s <| tlb ::= cons (Invlpg va) |>, true).

Fixpoint map_mmio_pages (virt_start phys_start : Z) (l : list Z) (s : state) : state * bool :=
  match l with
  | [] => (s, true)
  | page :: l =>
      let '(s, ok) := map_mmio_page (u64 (virt_start + 4096 * page)) (u64 (phys_start + 4096 * page)) s in
      if negb ok then (s, false) else map_mmio_pages virt_start phys_start l s
  end.

Definition pmap_map_kernel_mmio (g_hhdm_base paddr size : Z) (s : state) : state * Z :=
  if (s_kernel_pml4_phys s =? 0) || (size =? 0) then (s, 0) else
  let page_offset := Z.land paddr 0xFFF in
  let phys_start := Z.land paddr PTE_PHYS_MASK in
  let page_count := Z.shiftr (u64 (page_offset + size + 0xFFF)) 12 in
  let virt_start := u64 (g_hhdm_base + phys_start) in
  let '(s, ok) := map_mmio_pages virt_start phys_start (seqZ 0 page_count) s in
  (s, if ok then u64 (virt_start + page_offset) else 0).
End Ops.
End Pmap.

(** ** The physical allocator provides the frames *)

Lemma aligned_div f g : aligned f -> aligned g -> f / 4096 = g / 4096 -> f = g.
Proof. unfold aligned. intros Hf Hg E. pose proof (Z.div_mod f 4096). pose proof (Z.div_mod g 4096). lia. Qed.

#[global] Program Instance pmm_page_frames : PageFrames Pmm.pmm := {|
  pf_alloc := Pmm.pmm_alloc_page;
  pf_retain := Pmm.pmm_retain_page;
  pf_release := Pmm.pmm_release_page;
  pf_refcount s f := Pmm.pmm_get_refcount f s;
  pf_ok := Pmm.Wf;
  pf_managed s f := 0 <= f / 4096 < Pmm.s_max_phys_page s;
  pf_avail s := if Pmm.pmm_get_refcount 0 s =? 0 then 0 else Pmm.pmm_free_pages s
|}.
Next Obligation.
  intros s [_ Hc]. unfold Pmm.pmm_free_pages. destruct (_ =? 0); lia.
Qed.
Next Obligation.
  intros s s' a HW Ha. unfold Pmm.pmm_get_refcount, Pmm.pmm_free_pages. change (0 / Pmm.CHIMERA_PAGE_SIZE) with 0.
  destruct (Pmm.alloc_pages_cases 1 s HW eq_refl) as [(b & s1 & o & Eo & Ha' & HW' & Ht)|[Ha' Hn]];
    change (Pmm.pmm_alloc_pages 1 s) with (Pmm.pmm_alloc_page s) in Ha'; rewrite Ha in Ha'; injection Ha' as -> ->.
  - injection Eo as <-. pose proof Ht as ((Hb & _ & Hm & Hz) & Em & Ef & H1 & Hr).
    assert (Hin : forall x, Pmm.in_block b 0 x <-> x = b).
    { intros x. unfold Pmm.in_block. change (Pmm.bsize 0) with 1. lia. }
    pose proof (proj2 HW') as Hc. pose proof (Pmm.taken_addr _ _ _ _ HW Ht).
    rewrite Em, Ef in *. change (Pmm.bsize 0) with 1 in *.
    destruct (Z.leb_spec (Pmm.s_max_phys_page s) 0); [lia|].
    destruct (decide (b = 0)) as [->|Hne].
    + rewrite Hz, H1 by (by apply Hin). cbn. lia.
    + rewrite (Hr 0) by (rewrite Hin; lia). unfold Pmm.CHIMERA_PAGE_SIZE in *.
      destruct (Z.eqb_spec (Pmm.ref_count (Pmm.pg s 0)) 0); lia.
  - split; [lia|]. intros Hp. exfalso. specialize (Hn 0%nat eq_refl). destruct HW as [[fl HI] Hc].
    assert (Hfree : 0 < Z.of_nat (size (Pmm.free_set s))) by (destruct (Z.eqb _ 0); lia).
    destruct (set_choose_or_empty (Pmm.free_set s)) as [[x Hx]|He].
    + apply Pmm.elem_of_free_set in Hx as [Hx Hx0]. apply (Hn x). unfold Pmm.free_run. change (Pmm.bsize 0) with 1.
      split; [lia|]. split; [by exists x; lia|]. split; [lia|]. intros y Hy. unfold Pmm.in_block in Hy.
      change (Pmm.bsize 0) with 1 in Hy. by replace y with x by lia.
    + apply size_empty_iff in He. lia.
Qed.
Next Obligation.
  intros s f HW Hf Hr. unfold Pmm.pmm_get_refcount, Pmm.pmm_free_pages in *. change (0 / Pmm.CHIMERA_PAGE_SIZE) with 0.
  unfold Pmm.CHIMERA_PAGE_SIZE in *. destruct (Z.leb_spec (Pmm.s_max_phys_page s) (f / 4096)).
  { unfold Pmm.pmm_retain_page, Pmm.CHIMERA_PAGE_SIZE. rewrite (proj2 (Z.leb_le _ (f / 4096))) by lia. done. }
  assert (H1 : 0 <= f / 4096 < Pmm.s_max_phys_page s) by (split; [apply Z.div_pos; lia|done]). specialize (Hr H1).
  destruct (Pmm.retain_spec f s HW) as (_ & Em & Ef & Hrc); [by unfold Pmm.CHIMERA_PAGE_SIZE|done|].
  rewrite Em, Ef. destruct (Z.leb_spec (Pmm.s_max_phys_page s) 0); [done|]. rewrite Hrc.
  unfold Pmm.CHIMERA_PAGE_SIZE. pose proof (proj2 HW) as Hc. case_decide as E.
  - rewrite <- E in *. destruct (Z.eqb_spec (Pmm.ref_count (Pmm.pg s 0)) 0); [lia|].
    destruct (Z.eqb_spec (Z.min 65535 (Pmm.ref_count (Pmm.pg s 0) + 1)) 0); lia.
  - done.
Qed.
Next Obligation.
  intros s f HW Hf Ha. destruct (Pmm.release_spec f s HW ltac:(lia)) as (_ & Em & Ef & Hrc).
  unfold Pmm.pmm_get_refcount, Pmm.pmm_free_pages. change (0 / Pmm.CHIMERA_PAGE_SIZE) with 0. rewrite Em, Ef, Hrc.
  unfold Pmm.released, Pmm.freed_by, Pmm.CHIMERA_PAGE_SIZE. unfold aligned in Ha. pose proof (Z.div_mod f 4096 ltac:(done)).
  rewrite decide_False by lia. repeat case_decide; destruct (_ =? 0); lia.
Qed.
Next Obligation.
  intros s f [[fl HI] _] Hf. unfold Pmm.pmm_get_refcount, Pmm.CHIMERA_PAGE_SIZE.
  destruct (Z.leb_spec (Pmm.s_max_phys_page s) (f / 4096)); [done|].
  apply (Pmm.inv_ref _ _ _ HI). split; [apply Z.div_pos; lia|done].
Qed.
Next Obligation.
  intros s s' a HW Ha. destruct (Pmm.alloc_pages_cases 1 s HW eq_refl) as [(b & s1 & o & Eo & Ha' & HW' & Ht)|[Ha' _]].
  - injection Eo as <-. change (Pmm.pmm_alloc_pages 1 s) with (Pmm.pmm_alloc_page s) in Ha'.
    rewrite Ha in Ha'. injection Ha' as -> ->. pose proof Ht as ((Hb & _ & Hm & Hz) & Em & _ & H1 & Hr).
    change (Pmm.bsize 0) with 1 in *. assert (Hin : forall x, Pmm.in_block b 0 x <-> x = b).
    { intros x. unfold Pmm.in_block. change (Pmm.bsize 0) with 1. lia. }
    pose proof HW as [[fl HI] _]. pose proof (Pmm.inv_max _ _ _ HI). unfold Pmm.pmm_get_refcount, Pmm.CHIMERA_PAGE_SIZE.
    rewrite Em. split; [done|]. split; [done|]. split.
    + intros f. destruct (Z.leb_spec (Pmm.s_max_phys_page s) (f / 4096)); [done|]. intros Hf.
      apply Hr. rewrite Hin. intros E. rewrite E, Hz in Hf by (by apply Hin). done.
    + intros Hn0 _. unfold Pmm.CHIMERA_PAGE_SIZE in *. unfold aligned. rewrite Z.mod_mul, !Z.div_mul by done.
      destruct (Z.leb_spec (Pmm.s_max_phys_page s) b); [lia|]. rewrite Hz, H1 by (by apply Hin). lia.
  - change (Pmm.pmm_alloc_pages 1 s) with (Pmm.pmm_alloc_page s) in Ha'. rewrite Ha in Ha'. injection Ha' as -> ->.
    split; [done|]. split; [done|]. split; [done|]. done.
Qed.
Next Obligation.
  intros s f HW Hf Ha Hr. cbn. unfold Pmm.pmm_get_refcount in *. unfold Pmm.CHIMERA_PAGE_SIZE in *.
  destruct (Z.leb_spec (Pmm.s_max_phys_page s) (f / 4096)).
  - assert (E : Pmm.pmm_retain_page f s = s).
    { unfold Pmm.pmm_retain_page, Pmm.CHIMERA_PAGE_SIZE. by rewrite (proj2 (Z.leb_le _ _)). }
    rewrite E. split; [done|]. split; [done|]. split; [done|]. lia.
  - assert (Hi : 0 <= f / 4096) by (apply Z.div_pos; lia).
    destruct (Pmm.retain_spec f s HW) as (HW' & Em & _ & Hrc); [by unfold Pmm.CHIMERA_PAGE_SIZE|by apply Hr|].
    unfold Pmm.CHIMERA_PAGE_SIZE in *. rewrite Em. split; [done|]. split; [done|]. split.
    + intros g Hg Hne. rewrite Hrc, decide_False; [done|]. intros E. by apply Hne, aligned_div.
    + intros _. rewrite Hrc, decide_True by done. destruct (Z.leb_spec (Pmm.s_max_phys_page s) (f / 4096)); [lia|done].
Qed.
Next Obligation.
  intros s f HW Hf Ha. cbn. destruct (Pmm.release_spec f s HW Hf) as (HW' & Em & _ & Hrc).
  unfold Pmm.pmm_get_refcount, Pmm.released, Pmm.CHIMERA_PAGE_SIZE in *. rewrite Em.
  split; [done|]. split; [done|]. intros g Hg. pose proof HW as [[fl HI] _].
  assert (Hi : 0 <= f / 4096) by (apply Z.div_pos; lia).
  destruct (decide (g = f)) as [->|Hne].
  - destruct (Z.leb_spec (Pmm.s_max_phys_page s) (f / 4096)); [done|]. rewrite Hrc.
    pose proof (Pmm.inv_ref _ _ _ HI (f / 4096) ltac:(lia)). clear Hrc. case_decide; lia.
  - destruct (Z.leb_spec (Pmm.s_max_phys_page s) (g / 4096)); [done|]. rewrite Hrc, decide_False; [done|].
    intros [E _]. by apply Hne, aligned_div.
Qed.
