(* ===== verification/PmapInv.v ===== *)
(** * The page-table invariant

    Physical memory holds a forest of page tables: every table but the roots is
    pointed to by exactly one entry, table frames are never mapped by a leaf
    entry, and a managed frame has at least as many references as leaf entries
    map it.  The walks of [Pmap] are then partial maps from user addresses to
    leaf entries, and the lemmas of this file say what each basic step of the
    code does to all of these maps at once. *)

From S2P Require Import Prelude Pmm Pmap.
Import Pmap.

Module PmapInv.

(** ** Bits of entries and addresses *)

(** Reduces the flag tests of an entry to bits. *)
Ltac bits :=
  unfold PAGE_PRESENT, PAGE_WRITE, PAGE_USER, PAGE_LARGE, PAGE_COW, PAGE_NX in *;
  rewrite ?has_bit in * by done; rewrite ?Z.lor_spec, ?Z.land_spec in *.

Lemma mask_div e : get_table_ptr e = 4096 * ((e / 4096) mod 2 ^ 40).
Proof.
  unfold get_table_ptr. rewrite <- Z.land_ones by done.
  rewrite (Z.mul_comm 4096). change 4096 with (2 ^ 12). rewrite <- Z.shiftl_mul_pow2 by done.
  rewrite <- Z.shiftr_div_pow2 by done. apply Z.bits_inj'. intros i Hi. rewrite Z.land_spec.
  destruct (decide (i < 12)).
  - rewrite Z.shiftl_spec_low by done. change PTE_PHYS_MASK with (Z.shiftl (Z.ones 40) 12).
    by rewrite Z.shiftl_spec_low, andb_false_r by done.
  - rewrite Z.shiftl_spec by lia. rewrite Z.land_spec, Z.shiftr_spec by lia.
    change PTE_PHYS_MASK with (Z.shiftl (Z.ones 40) 12). rewrite Z.shiftl_spec by lia. do 2 f_equal. lia.
Qed.

Lemma get_table_ptr_range e : aligned (get_table_ptr e) /\ 0 <= get_table_ptr e < 2 ^ 52.
Proof.
  rewrite mask_div. pose proof (Z.mod_pos_bound (e / 4096) (2 ^ 40)). unfold aligned.
  split; [|lia]. rewrite Z.mul_comm. apply Z.mod_mul. done.
Qed.

Lemma get_table_ptr_id f : aligned f -> 0 <= f < 2 ^ 52 -> get_table_ptr f = f.
Proof.
  intros Ha Hf. rewrite mask_div. unfold aligned in Ha. pose proof (Z.div_mod f 4096).
  rewrite Z.mod_small by (split; [apply Z.div_pos; lia|apply Z.div_lt_upper_bound; lia]). lia.
Qed.

Lemma get_table_ptr_lor a b : get_table_ptr b = 0 -> get_table_ptr (Z.lor a b) = get_table_ptr a.
Proof. unfold get_table_ptr. intros Hb. by rewrite Z.land_lor_distr_l, Hb, Z.lor_0_r. Qed.

Lemma get_table_ptr_mask a : get_table_ptr (Z.land a PTE_PHYS_MASK) = get_table_ptr a.
Proof. unfold get_table_ptr. by rewrite <- Z.land_assoc, Z.land_diag. Qed.

(** The frame of an entry composed from a frame and flags. *)
Lemma get_table_ptr_entry phys fl : get_table_ptr fl = 0 ->
  get_table_ptr (Z.lor (Z.lor (Z.lor (Z.land phys PTE_PHYS_MASK) fl) PAGE_PRESENT) PAGE_USER) = get_table_ptr phys.
Proof. intros Hf. rewrite !get_table_ptr_lor by done. apply get_table_ptr_mask. Qed.

Lemma index_div sh va : 0 <= sh -> index sh va = (va / 2 ^ sh) mod 512.
Proof.
  intros Hs. unfold index. rewrite Z.shiftr_div_pow2 by done. change 0x1FF with (Z.ones 9).
  by rewrite Z.land_ones.
Qed.

Lemma index_range sh va : 0 <= sh -> 0 <= index sh va < 512.
Proof. intros Hs. rewrite index_div by done. apply Z.mod_pos_bound. done. Qed.

Lemma index_top va : 0 <= va < 2 ^ 47 -> 0 <= index 39 va < 256.
Proof.
  intros Hv. rewrite index_div by done. assert (va / 2 ^ 39 < 256) by (apply Z.div_lt_upper_bound; lia).
  assert (0 <= va / 2 ^ 39) by (apply Z.div_pos; lia). rewrite Z.mod_small; lia.
Qed.

(** The four indices determine the page. *)
Lemma index_inj va va' :
  0 <= va < 2 ^ 47 -> 0 <= va' < 2 ^ 47 ->
  index 39 va = index 39 va' -> index 30 va = index 30 va' ->
  index 21 va = index 21 va' -> index 12 va = index 12 va' -> va / 4096 = va' / 4096.
Proof.
  assert (Hd : forall v, 0 <= v < 2 ^ 47 ->
    v / 4096 = index 39 v * 2 ^ 27 + index 30 v * 2 ^ 18 + index 21 v * 2 ^ 9 + index 12 v).
  { intros v Hv. rewrite !index_div by done.
    assert (H39 : v / 2 ^ 39 = v / 4096 / 2 ^ 27) by (rewrite Z.div_div by done; done).
    assert (H30 : v / 2 ^ 30 = v / 4096 / 2 ^ 18) by (rewrite Z.div_div by done; done).
    assert (H21 : v / 2 ^ 21 = v / 4096 / 2 ^ 9) by (rewrite Z.div_div by done; done).
    change (v / 2 ^ 12) with (v / 4096). rewrite H39, H30, H21.
    assert (0 <= v / 4096 < 2 ^ 35) by (split; [apply Z.div_pos; lia|apply Z.div_lt_upper_bound; lia]).
    generalize dependent (v / 4096). clear. intros q _ _ _ Hq.
    change (2 ^ 27) with (512 * (512 * 512)). change (2 ^ 18) with (512 * 512). change (2 ^ 9) with 512.
    rewrite <- !Z.div_div by done.
    pose proof (Z.div_mod q 512). pose proof (Z.div_mod (q / 512) 512). pose proof (Z.div_mod (q / 512 / 512) 512).
    rewrite (Z.mod_small (q / 512 / 512 / 512)).
    - lia.
    - split; [repeat apply Z.div_pos; lia|]. repeat (apply Z.div_lt_upper_bound; [lia|]). lia. }
  intros Hv Hv' E1 E2 E3 E4. rewrite (Hd va Hv), (Hd va' Hv'). congruence.
Qed.

Lemma same_page_index sh va va' : 12 <= sh -> va / 4096 = va' / 4096 -> index sh va = index sh va'.
Proof.
  intros Hs E. rewrite !index_div by lia. replace sh with (12 + (sh - 12)) by lia.
  rewrite Z.pow_add_r by lia. rewrite <- !Z.div_div by lia. change (2 ^ 12) with 4096. by rewrite E.
Qed.
Lemma page_trunc_div v : 0 <= v < 2 ^ 64 -> page_trunc v = 4096 * (v / 4096).
Proof. by apply (land_not64_ones 12). Qed.

(** ** How often a frame is mapped *)

Definition ind (P : Prop) `{Decision P} : Z := if decide P then 1 else 0.

Definition count (M : gmap Z Z) (g : Z) : Z := Z.of_nat (size (filter (fun kv : Z * Z => kv.2 = g) M)).

Lemma count_nonneg M g : 0 <= count M g.
Proof. unfold count. lia. Qed.

Lemma count_delete M a g : count (delete a M) g = count M g - ind (M !! a = Some g).
Proof.
  unfold count, ind. rewrite map_filter_delete. case_decide as E.
  - assert (Hf : filter (fun kv : Z * Z => kv.2 = g) M !! a = Some g) by (by apply map_lookup_filter_Some).
    rewrite map_size_delete_Some by eauto. assert (size (filter (fun kv : Z * Z => kv.2 = g) M) ≠ 0%nat); [|lia].
    intros H0%map_size_empty_inv. by rewrite H0 in Hf.
  - rewrite delete_id; [lia|]. apply map_lookup_filter_None. right. intros x Hx Hg. cbn in Hg. by subst.
Qed.

Lemma count_insert M a h g : M !! a = None -> count (<[a := h]> M) g = count M g + ind (h = g).
Proof.
  unfold count, ind. intros Ha. case_decide as E.
  - rewrite map_filter_insert_True by done. rewrite map_size_insert_None; [lia|].
    apply map_lookup_filter_None. by left.
  - rewrite map_filter_insert_False by done. rewrite delete_id by done. lia.
Qed.

(** Replacing the entry at [a]. *)
Definition upd (a : Z) (o : option Z) (M : gmap Z Z) : gmap Z Z :=
  match o with Some g => <[a := g]> M | None => delete a M end.

Lemma lookup_upd a o M x : upd a o M !! x = if decide (x = a) then o else M !! x.
Proof.
  destruct o; cbn; case_decide; subst; by rewrite ?lookup_insert_eq, ?lookup_insert_ne, ?lookup_delete_eq, ?lookup_delete_ne.
Qed.

Lemma count_upd M a o g : count (upd a o M) g = count M g - ind (M !! a = Some g) + ind (o = Some g).
Proof.
  destruct o as [h|]; cbn [upd].
  - rewrite <- insert_delete_eq, count_insert, count_delete by apply lookup_delete_eq.
    unfold ind. repeat case_decide; congruence || lia.
  - rewrite count_delete. unfold ind. repeat case_decide; congruence || lia.
Qed.

Lemma count_pos M a g : M !! a = Some g -> 1 <= count M g.
Proof. intros E. pose proof (count_delete M a g) as H. pose proof (count_nonneg (delete a M) g). unfold ind in H. rewrite decide_True in H by done. lia. Qed.

(** ** The invariant *)

(** Level and parent entry of each table frame; level 4 is a root. *)
Notation tables := (gmap Z (nat * Z)).

(** The entries of a table that belong to user space. *)
Definition limit (l : nat) : Z := if (l =? 4)%nat then 256 else 512.

Section Inv.
Context {F : Type} `{PageFrames F}.
Notation state := (pmap F).
Implicit Types (s : state) (T : tables) (M : gmap Z Z) (owed : Z -> Z).

Definition child (s : state) (f i : Z) : option Z :=
  if has (word s (f + 8 * i)) PAGE_PRESENT then Some (get_table_ptr (word s (f + 8 * i))) else None.

(** The leaf entry's address, and the entry of a mapped user address. *)
Definition walk (s : state) (root va : Z) : option Z :=
  f3 ← child s root (index 39 va); f2 ← child s f3 (index 30 va); f1 ← child s f2 (index 21 va);
  Some (f1 + 8 * index 12 va).
Definition pte (s : state) (root va : Z) : option Z :=
  ea ← walk s root va; if has (word s ea) PAGE_PRESENT then Some (word s ea) else None.

Definition is_tramp (s : state) (g : Z) : Prop := g = s_tramp_phys s /\ g ≠ 0.
#[global] Instance is_tramp_dec s g : Decision (is_tramp s g).
Proof. unfold is_tramp. apply _. Defined.

(** What a leaf entry adds to the mapped frames. *)
Definition maps (s : state) (e : Z) : option Z :=
  if has e PAGE_PRESENT && bool_decide (~ is_tramp s (get_table_ptr e)) then Some (get_table_ptr e) else None.

(** [M] gives the frame of each leaf entry but the trampoline's; [owed g]
    references to frame [g] are held by others, or are still to be taken where
    it is negative. *)
Record PInv (s : state) (T : tables) (M : gmap Z Z) (owed : Z -> Z) : Prop := {
  pi_ok : pf_ok (frames s);
  pi_table : forall f l p, T !! f = Some (l, p) ->
    aligned f /\ 0 < f < 2 ^ 52 /\ (1 <= l <= 4)%nat /\ pf_managed (frames s) f /\
    0 < pf_refcount (frames s) f /\ owed f = 0;
  pi_dir : forall f l p i, T !! f = Some (S l, p) -> (1 <= l)%nat -> 0 <= i < limit (S l) ->
    has (word s (f + 8 * i)) PAGE_PRESENT = true ->
    has (word s (f + 8 * i)) PAGE_USER = true /\ has (word s (f + 8 * i)) PAGE_LARGE = false /\
    T !! get_table_ptr (word s (f + 8 * i)) = Some (l, f + 8 * i);
  pi_leaf : forall a g, M !! a = Some g <->
    exists f p i, T !! f = Some (1%nat, p) /\ 0 <= i < 512 /\ a = f + 8 * i /\ maps s (word s a) = Some g;
  pi_data : forall a g, M !! a = Some g -> T !! g = None;
  pi_owed : forall g, aligned g -> 0 <= g < 2 ^ 52 -> pf_managed (frames s) g -> pf_refcount (frames s) g = 0 -> 0 <= owed g;
  pi_count : forall g, aligned g -> 0 <= g < 2 ^ 52 -> pf_managed (frames s) g ->
    owed g + count M g <= pf_refcount (frames s) g;
  pi_tramp : forall g, is_tramp s g ->
    T !! g = None /\ aligned g /\ 0 < g < 2 ^ 52 /\ pf_managed (frames s) g /\ owed g + 1 <= pf_refcount (frames s) g;
  pi_tramp_va : forall root p va e, T !! root = Some (4%nat, p) -> 0 <= va < 2 ^ 47 ->
    pte s root va = Some e -> is_tramp s (get_table_ptr e) -> pmap_is_trampoline_va va = true
}.
Lemma maps_frame s w g : maps s w = Some g -> g = get_table_ptr w /\ has w PAGE_PRESENT = true /\ ~ is_tramp s g.
Proof.
  unfold maps. destruct (has w PAGE_PRESENT); cbn [andb]; [|done]. case_bool_decide; [|done]. by intros [= <-].
Qed.

(** ** Walks stay inside the forest *)

Lemma slot_inj f i f' i' :
  aligned f -> aligned f' -> 0 <= i < 512 -> 0 <= i' < 512 -> f + 8 * i = f' + 8 * i' -> f = f' /\ i = i'.
Proof.
  unfold aligned. intros Hf Hf' Hi Hi' E. pose proof (Z.div_mod f 4096). pose proof (Z.div_mod f' 4096). lia.
Qed.

Lemma limit_le l : limit l <= 512.
Proof. unfold limit. destruct (l =? 4)%nat; lia. Qed.

(** The entries of two tables are different memory. *)
Lemma table_slots s T M owed f l p i f' l' p' i' :
  PInv s T M owed -> T !! f = Some (l, p) -> T !! f' = Some (l', p') ->
  0 <= i < 512 -> 0 <= i' < 512 -> f + 8 * i = f' + 8 * i' -> f = f' /\ i = i'.
Proof.
  intros HI Hf Hf' Hi Hi'. apply slot_inj; [| |done|done].
  - apply (pi_table _ _ _ _ HI _ _ _ Hf).
  - apply (pi_table _ _ _ _ HI _ _ _ Hf').
Qed.

Lemma slot_table s T M owed f l p i : PInv s T M owed -> T !! f = Some (l, p) -> slot f i = f + 8 * i.
Proof.
  intros HI Hf. unfold slot. destruct (pi_table _ _ _ _ HI _ _ _ Hf) as (? & ? & _).
  rewrite get_table_ptr_id; [done|done|lia].
Qed.

Lemma child_table s T M owed f l p i g :
  PInv s T M owed -> T !! f = Some (S l, p) -> (1 <= l)%nat -> 0 <= i < limit (S l) ->
  child s f i = Some g -> T !! g = Some (l, f + 8 * i).
Proof.
  intros HI Hf Hl Hi. unfold child. destruct (has _ _) eqn:E; [|done]. intros [= <-].
  by apply (pi_dir _ _ _ _ HI _ _ _ _ Hf Hl Hi E).
Qed.

(** The tables a walk passes. *)
Lemma walk_tables s T M owed root p va ea :
  PInv s T M owed -> T !! root = Some (4%nat, p) -> 0 <= va < 2 ^ 47 -> walk s root va = Some ea ->
  exists f3 f2 f1,
    T !! f3 = Some (3%nat, root + 8 * index 39 va) /\ T !! f2 = Some (2%nat, f3 + 8 * index 30 va) /\
    T !! f1 = Some (1%nat, f2 + 8 * index 21 va) /\ ea = f1 + 8 * index 12 va.
Proof.
  intros HI Hr Hv. unfold walk. intros (f3 & H3 & (f2 & H2 & (f1 & H1 & [= <-])%bind_Some)%bind_Some)%bind_Some.
  pose proof (index_top va Hv). pose proof (index_range 30 va ltac:(done)). pose proof (index_range 21 va ltac:(done)).
  eapply child_table in H3; [|done|done|lia|done].
  eapply child_table in H2; [|done|done|lia|cbn; lia].
  eapply child_table in H1; [|done|done|lia|cbn; lia]. eauto 8.
Qed.

Lemma pte_ptr_walk s T M owed root p va :
  PInv s T M owed -> T !! root = Some (4%nat, p) -> 0 <= va < 2 ^ 47 ->
  pmap_get_pte_ptr root va s = walk s root va.
Proof.
  intros HI Hr Hv. unfold pmap_get_pte_ptr, walk, child.
  pose proof (pi_table _ _ _ _ HI _ _ _ Hr) as (_ & ? & _). destruct (Z.eqb_spec root 0); [lia|].
  rewrite (slot_table _ _ _ _ _ _ _ _ HI Hr). unfold slot.
  pose proof (index_top va Hv). pose proof (index_range 30 va ltac:(done)). pose proof (index_range 21 va ltac:(done)).
  set (e4 := word s (root + _)). destruct (has e4 _) eqn:E4; cbn [negb mbind option_bind]; [|done].
  destruct (pi_dir _ _ _ _ HI _ 3%nat _ (index 39 va) Hr ltac:(lia) ltac:(cbn; lia) E4) as (_ & _ & K3).
  fold e4 in K3. set (e3 := word s (get_table_ptr e4 + _)). destruct (has e3 PAGE_PRESENT) eqn:E3; cbn [negb orb mbind option_bind]; [|done].
  destruct (pi_dir _ _ _ _ HI _ 2%nat _ (index 30 va) K3 ltac:(lia) ltac:(cbn; lia) E3) as (_ & L3 & K2).
  fold e3 in L3, K2. rewrite L3. set (e2 := word s (get_table_ptr e3 + _)).
  destruct (has e2 PAGE_PRESENT) eqn:E2; cbn [negb orb mbind option_bind]; [|done].
  destruct (pi_dir _ _ _ _ HI _ 1%nat _ (index 21 va) K2 ltac:(lia) ltac:(cbn; lia) E2) as (_ & L2 & _).
  fold e2 in L2. by rewrite L2.
Qed.
(** Different pages have different leaf entries. *)
Lemma walk_inj s T M owed root p va root' p' va' ea :
  PInv s T M owed -> T !! root = Some (4%nat, p) -> T !! root' = Some (4%nat, p') ->
  0 <= va < 2 ^ 47 -> 0 <= va' < 2 ^ 47 ->
  walk s root va = Some ea -> walk s root' va' = Some ea -> root = root' /\ va / 4096 = va' / 4096.
Proof.
  intros HI Hr Hr' Hv Hv' Hw Hw'.
  destruct (walk_tables _ _ _ _ _ _ _ _ HI Hr Hv Hw) as (f3 & f2 & f1 & H3 & H2 & H1 & ->).
  destruct (walk_tables _ _ _ _ _ _ _ _ HI Hr' Hv' Hw') as (g3 & g2 & g1 & K3 & K2 & K1 & E1).
  pose proof (index_top va Hv). pose proof (index_top va' Hv').
  eapply table_slots in E1 as [<- E1]; [|done|exact H1|exact K1|by apply index_range..].
  rewrite H1 in K1. injection K1 as E2.
  eapply table_slots in E2 as [<- E2]; [|done|exact H2|exact K2|by apply index_range..].
  rewrite H2 in K2. injection K2 as E3.
  eapply table_slots in E3 as [<- E3]; [|done|exact H3|exact K3|by apply index_range..].
  rewrite H3 in K3. injection K3 as E4.
  eapply table_slots in E4 as [<- E4]; [|done|exact Hr|exact Hr'|by apply index_range..].
  split; [done|]. by apply index_inj.
Qed.

Lemma walk_same_page s root va va' : va / 4096 = va' / 4096 -> walk s root va = walk s root va'.
Proof.
  intros E. unfold walk. rewrite (same_page_index 39 va va'), (same_page_index 30 va va'),
    (same_page_index 21 va va'), (same_page_index 12 va va') by done. done.
Qed.

Lemma pte_same_page s root va va' : va / 4096 = va' / 4096 -> pte s root va = pte s root va'.
Proof. intros E. unfold pte. by rewrite (walk_same_page s root va va'). Qed.

(** Walks depend on the directories only. *)
Lemma walk_frame s s' T M owed root p va :
  PInv s T M owed -> T !! root = Some (4%nat, p) -> 0 <= va < 2 ^ 47 ->
  (forall f l p i, T !! f = Some (S l, p) -> (1 <= l)%nat -> 0 <= i < limit (S l) ->
     word s' (f + 8 * i) = word s (f + 8 * i)) ->
  walk s' root va = walk s root va.
Proof.
  intros HI Hr Hv Hd. unfold walk.
  pose proof (index_top va Hv). pose proof (index_range 30 va ltac:(done)). pose proof (index_range 21 va ltac:(done)).
  assert (Hc : forall f l p i, T !! f = Some (S l, p) -> (1 <= l)%nat -> 0 <= i < limit (S l) -> child s' f i = child s f i).
  { intros f l q i Hf Hl Hi. unfold child. by rewrite (Hd _ _ _ _ Hf Hl Hi). }
  rewrite (Hc root 3%nat p) by (done || lia). destruct (child s root _) as [f3|] eqn:E3; [|done]. cbn.
  eapply child_table in E3; [|done|done|lia|done].
  rewrite (Hc f3 2%nat _ (index 30 va) E3) by (cbn; lia). destruct (child s f3 _) as [f2|] eqn:E2; [|done]. cbn.
  eapply child_table in E2; [|done|done|lia|cbn; lia].
  rewrite (Hc f2 1%nat _ (index 21 va) E2) by (cbn; lia). done.
Qed.

(** [pmap_extract] is the walk. *)
Lemma extract_pte s T M owed root p va :
  PInv s T M owed -> T !! root = Some (4%nat, p) -> 0x1000 <= va < 2 ^ 47 ->
  pmap_extract root va s =
    match pte s root va with
    | Some e => if has e PAGE_USER then Z.lor (get_table_ptr e) (Z.land va 0xFFF) else 0
    | None => 0
    end.
Proof.
  intros HI Hr Hv. unfold pmap_extract, pte, walk, child.
  pose proof (pi_table _ _ _ _ HI _ _ _ Hr) as (_ & ? & _). destruct (Z.eqb_spec root 0); [lia|].
  destruct (Z.ltb_spec va 0x1000); [lia|]. destruct (Z.leb_spec 0x0000800000000000 va); [lia|]. cbn [orb].
  rewrite (slot_table _ _ _ _ _ _ _ _ HI Hr). unfold slot.
  pose proof (index_top va ltac:(lia)). pose proof (index_range 30 va ltac:(done)). pose proof (index_range 21 va ltac:(done)).
  set (e4 := word s (root + _)). destruct (has e4 PAGE_PRESENT) eqn:E4; cbn [negb orb mbind option_bind]; [|done].
  destruct (pi_dir _ _ _ _ HI _ 3%nat _ (index 39 va) Hr ltac:(lia) ltac:(cbn; lia) E4) as (U4 & _ & K3).
  fold e4 in K3, U4. rewrite U4. cbn [negb]. set (e3 := word s (get_table_ptr e4 + _)).
  destruct (has e3 PAGE_PRESENT) eqn:E3; cbn [negb orb mbind option_bind]; [|done].
  destruct (pi_dir _ _ _ _ HI _ 2%nat _ (index 30 va) K3 ltac:(lia) ltac:(cbn; lia) E3) as (U3 & L3 & K2).
  fold e3 in L3, K2, U3. rewrite L3, U3. cbn [negb]. set (e2 := word s (get_table_ptr e3 + _)).
  destruct (has e2 PAGE_PRESENT) eqn:E2; cbn [negb orb mbind option_bind]; [|done].
  destruct (pi_dir _ _ _ _ HI _ 1%nat _ (index 21 va) K2 ltac:(lia) ltac:(cbn; lia) E2) as (U2 & L2 & _).
  fold e2 in L2, U2. rewrite L2, U2. cbn [negb]. set (e1 := word s (get_table_ptr e2 + _)).
  destruct (has e1 PAGE_PRESENT) eqn:E1; cbn [negb orb]; [|done]. by destruct (has e1 PAGE_USER).
Qed.

(** ** References *)

Lemma PInv_owed s T M owed owed' :
  PInv s T M owed -> (forall g, owed' g <= owed g) ->
  (forall g, pf_managed (frames s) g -> owed' g ≠ owed g ->
     0 <= owed' g \/ T !! g = None /\ 0 < pf_refcount (frames s) g) ->
  PInv s T M owed'.
Proof.
  intros HI Hle Hnn. destruct HI as [H1 H2 H3 H4 H5 H6 H7 H8 H9]. constructor; try done.
  - intros f l p Hf. destruct (H2 f l p Hf) as (? & ? & ? & Hm & ? & ?).
    specialize (Hle f). split_and!; try (done || lia). destruct (decide (owed' f = owed f)) as [->|Hd]; [done|].
    destruct (Hnn f Hm Hd) as [?|[? _]]; [lia|congruence].
  - intros g Ha Hg Hm H0. destruct (decide (owed' g = owed g)) as [->|Hd]; [by apply H6|].
    destruct (Hnn g Hm Hd) as [?|[_ ?]]; lia.
  - intros g Ha Hg Hm. specialize (H7 g Ha Hg Hm). specialize (Hle g). lia.
  - intros g Hg. destruct (H8 g Hg) as (? & ? & ? & ? & ?). specialize (Hle g). split_and!; done || lia.
Qed.

(** A mapped frame of the allocator is not free. *)
Lemma mapped_live s T M owed a g : PInv s T M owed -> M !! a = Some g -> pf_managed (frames s) g ->
  T !! g = None /\ 0 < pf_refcount (frames s) g.
Proof.
  intros HI Ha Hm. split; [by apply (pi_data _ _ _ _ HI a)|].
  assert (Hg : aligned g /\ 0 <= g < 2 ^ 52).
  { apply (pi_leaf _ _ _ _ HI) in Ha as (? & ? & ? & _ & _ & _ & E). apply maps_frame in E as (-> & _).
    apply get_table_ptr_range. }
  destruct Hg as [Hal Hg]. pose proof (pi_count _ _ _ _ HI g Hal Hg Hm). pose proof (count_pos _ _ _ Ha).
  pose proof (pi_owed _ _ _ _ HI g Hal Hg Hm). pose proof (pf_refcount_law _ g (pi_ok _ _ _ _ HI)). lia.
Qed.

Lemma release_inv s T M owed g :
  PInv s T M owed -> aligned g -> 0 <= g < 2 ^ 52 ->
  (pf_managed (frames s) g -> T !! g = None /\ 1 <= pf_refcount (frames s) g /\ (pf_refcount (frames s) g = 1 -> 1 <= owed g)) ->
  PInv (release_page g s) T M (fun h => owed h - ind (h = g)).
Proof.
  intros HI Ha Hg Ho. destruct HI as [H1 H2 H3 H4 H5 H6 H7 H8 H9].
  destruct (pf_release_law (frames s) g H1 ltac:(lia) Ha) as (Hok & Hm & Hr).
  assert (Hrel : forall h, aligned h -> 0 <= h < 2 ^ 52 -> pf_managed (frames s) h ->
    pf_refcount (pf_release g (frames s)) h = pf_refcount (frames s) h - ind (h = g)).
  { intros h Hh Hb Hmh. rewrite Hr by done. unfold ind. case_decide; subst; [|lia]. destruct (Ho Hmh) as (_ & ? & _). lia. }
  constructor; try done; cbn [frames release_page fupd pmap_eta].
  - intros f l p Hf. destruct (H2 f l p Hf) as (Hal & ? & ? & Hmf & Hrf & Hof).
    assert (f ≠ g) by (intros ->; destruct (Ho Hmf) as [? _]; congruence).
    rewrite Hm, Hrel by (done || lia). unfold ind. rewrite decide_False by done. split_and!; done || lia.
  - intros h Hah Hh Hmh. apply Hm in Hmh. rewrite Hrel by done. unfold ind. case_decide; subst.
    + destruct (Ho Hmh) as (_ & _ & ?). lia.
    + specialize (H6 h Hah Hh Hmh). lia.
  - intros h Hh Hb Hmh. apply Hm in Hmh. rewrite Hrel by done. specialize (H7 h Hh Hb Hmh). lia.
  - intros h Hh. destruct (H8 h Hh) as (? & ? & ? & ? & ?). rewrite Hm, Hrel by (done || lia). split_and!; done || lia.
Qed.

Lemma retain_inv s T M owed g :
  PInv s T M owed -> aligned g -> 0 <= g < 2 ^ 52 -> T !! g = None ->
  (pf_managed (frames s) g -> 0 < pf_refcount (frames s) g < 65535) ->
  PInv (retain_page g s) T M (fun h => owed h + ind (h = g)).
Proof.
  intros HI Ha Hg Ht Ho. destruct HI as [H1 H2 H3 H4 H5 H6 H7 H8 H9].
  destruct (pf_retain_law (frames s) g H1 ltac:(lia) Ha) as (Hok & Hm & Hr & Hr'); [intros Hmg; apply Ho in Hmg; lia|].
  assert (Hrel : forall h, aligned h -> pf_managed (frames s) h ->
    pf_refcount (pf_retain g (frames s)) h = pf_refcount (frames s) h + ind (h = g)).
  { intros h Hh Hmh. unfold ind. case_decide; subst; [|rewrite Hr by done; lia].
    rewrite Hr' by done. specialize (Ho Hmh). lia. }
  constructor; try done; cbn [frames retain_page fupd pmap_eta].
  - intros f l p Hf. destruct (H2 f l p Hf) as (Hal & ? & ? & Hmf & Hrf & Hof).
    assert (f ≠ g) by (intros ->; congruence).
    rewrite Hm, Hrel by done. unfold ind. rewrite decide_False by done. split_and!; done || lia.
  - intros h Hah Hh Hmh. apply Hm in Hmh. rewrite Hrel by done. specialize (H6 h Hah Hh Hmh). unfold ind.
    case_decide; subst; [|lia]. specialize (Ho Hmh). lia.
  - intros h Hh Hb Hmh. apply Hm in Hmh. rewrite Hrel by done. specialize (H7 h Hh Hb Hmh). lia.
  - intros h Hh. destruct (H8 h Hh) as (? & ? & ? & ? & ?). rewrite Hm, Hrel by done. split_and!; done || lia.
Qed.
(** Reference counts may grow. *)
Lemma frames_inv s T M owed fr :
  PInv s T M owed -> pf_ok fr -> (forall f, pf_managed fr f <-> pf_managed (frames s) f) ->
  (forall g x, 0 <= g -> x <= pf_refcount (frames s) g -> x <= pf_refcount fr g) ->
  PInv (s <| frames := fr |>) T M owed.
Proof.
  intros [H1 H2 H3 H4 H5 H6 H7 H8 H9] Hok Hm Hge. constructor; try done; cbn [frames fupd pmap_eta].
  - intros f l p Hf. destruct (H2 f l p Hf) as (? & ? & ? & ? & ? & ?). specialize (Hge f 1 ltac:(lia)). rewrite Hm.
    split_and!; done || lia.
  - intros g Ha Hg Hmg H0. apply H6; [done|done|by apply Hm|]. pose proof (pf_refcount_law (frames s) g H1 ltac:(lia)).
    specialize (Hge g 1 ltac:(lia)). lia.
  - intros g Ha Hg Hmg. apply Hge; [lia|]. apply H7; [done..|]. by apply Hm.
  - intros g Hg. destruct (H8 g Hg) as (? & ? & ? & ? & Hc). rewrite Hm. specialize (Hge g _ ltac:(lia) Hc). split_and!; done || lia.
Qed.

(** A fresh frame is no table, mapped nowhere and not the trampoline. *)
Lemma alloc_inv s s' a T M owed :
  PInv s T M owed -> alloc_page s = (s', a) ->
  s' = s <| frames := frames s' |> /\
  if no_page a then PInv s' T M owed
  else T !! a = None /\ aligned a /\ 0 < a < 2 ^ 52 /\ pf_managed (frames s') a /\
       pf_refcount (frames s') a = 1 /\ ~ is_tramp s a /\ count M a = 0 /\ owed a = 0 /\
       PInv s' T M (fun h => owed h + ind (h = a)) /\ pf_refcount (frames s) a = 0.
Proof.
  intros HI. unfold alloc_page. destruct (pf_alloc (frames s)) as [fr b] eqn:Ea. intros [= <- <-]. cbn [frames fupd pmap_eta].
  pose proof HI as [H1 H2 _ _ _ H6 H7 H8 _].
  destruct (pf_alloc_law _ _ _ H1 Ea) as (Hok & Hm & Hk & Hnew). split; [done|].
  assert (HI' : PInv (s <| frames := fr |>) T M owed).
  { apply frames_inv; try done. intros g x Hg Hx. pose proof (pf_refcount_law fr g Hok Hg).
    pose proof (pf_refcount_law (frames s) g H1 Hg).
    destruct (decide (pf_refcount (frames s) g = 0)) as [E|]; [lia|]. rewrite Hk; lia. }
  unfold no_page. destruct (Z.eqb_spec b 0); [done|]. destruct (Z.eqb_spec b (2 ^ 64 - 1)); [done|]. cbn [orb].
  destruct Hnew as (Ha & Hb & Hmb & Hr0 & Hr1); [done|done|].
  assert (Hc : owed b + count M b <= 0) by (rewrite <- Hr0; apply H7; done || lia).
  pose proof (count_nonneg M b). pose proof (H6 b Ha ltac:(lia) Hmb Hr0).
  assert (Htr : ~ is_tramp s b) by (intros Ht; destruct (H8 b Ht) as (_ & _ & _ & _ & ?); lia).
  assert (Hnt : T !! b = None).
  { destruct (T !! b) as [[l p]|] eqn:E; [|done]. destruct (H2 _ _ _ E) as (_ & _ & _ & _ & ? & _). lia. }
  split; [done|]. split; [done|]. split; [done|]. split; [by apply Hm|]. split; [done|]. split; [done|].
  split; [lia|]. split; [lia|]. split; [|done]. clear H1 H2 H6 H7 H8. destruct HI' as [K1 K2 K3 K4 K5 K6 K7 K8 K9].
  constructor; try done; cbn [frames fupd pmap_eta] in *; unfold ind.
  - intros f l p Hf. rewrite decide_False by congruence. rewrite Z.add_0_r. by apply (K2 f l p).
  - intros g Hag Hg Hmg H00. specialize (K6 g Hag Hg Hmg H00). case_decide; lia.
  - intros g Hal Hg Hmg. specialize (K7 g Hal Hg Hmg). case_decide; subst; lia.
  - intros g Hg. rewrite decide_False by (by intros ->). rewrite Z.add_0_r. by apply K8.
Qed.

(** ** Writing a leaf entry *)

Lemma word_set_word a w s x : word (set_word a w s) x = if decide (x = a) then w else word s x.
Proof. apply load_store. Qed.

Lemma walk_leaf_write s T M owed f q i w root p va :
  PInv s T M owed -> T !! f = Some (1%nat, q) -> 0 <= i < 512 ->
  T !! root = Some (4%nat, p) -> 0 <= va < 2 ^ 47 ->
  walk (set_word (f + 8 * i) w s) root va = walk s root va.
Proof.
  intros HI Hf Hi Hr Hv. eapply walk_frame; [done..|]. intros g l p' j Hg Hl Hj.
  rewrite word_set_word, decide_False; [done|]. intros E. pose proof (limit_le (S l)).
  eapply table_slots in E as [-> _]; [|done|exact Hg|exact Hf|lia|done]. rewrite Hg in Hf. injection Hf. lia.
Qed.

Lemma pte_leaf_write s T M owed f q i w root p va :
  PInv s T M owed -> T !! f = Some (1%nat, q) -> 0 <= i < 512 ->
  T !! root = Some (4%nat, p) -> 0 <= va < 2 ^ 47 ->
  pte (set_word (f + 8 * i) w s) root va =
    if decide (walk s root va = Some (f + 8 * i)) then (if has w PAGE_PRESENT then Some w else None)
    else pte s root va.
Proof.
  intros HI Hf Hi Hr Hv. unfold pte. erewrite walk_leaf_write by done.
  destruct (walk s root va) as [ea|]; cbn; [|done].
  rewrite word_set_word. destruct (decide (ea = f + 8 * i)) as [->|Hne].
  - by rewrite decide_True.
  - by rewrite decide_False by congruence.
Qed.

(** Writing the leaf entry of one page changes the translation of that page. *)
Lemma pte_update s T M owed root p va ea w root' p' va' :
  PInv s T M owed -> T !! root = Some (4%nat, p) -> 0 <= va < 2 ^ 47 -> walk s root va = Some ea ->
  T !! root' = Some (4%nat, p') -> 0 <= va' < 2 ^ 47 ->
  pte (set_word ea w s) root' va' =
    if decide (root' = root /\ va' / 4096 = va / 4096) then (if has w PAGE_PRESENT then Some w else None)
    else pte s root' va'.
Proof.
  intros HI Hr Hv Hw Hr' Hv'. pose proof (walk_tables _ _ _ _ _ _ _ _ HI Hr Hv Hw) as (f3 & f2 & f1 & _ & _ & H1 & ->).
  erewrite pte_leaf_write by (done || by apply index_range). destruct (decide (walk s root' va' = _)) as [E|E].
  - rewrite decide_True; [done|]. exact (walk_inj _ _ _ _ _ _ _ _ _ _ _ HI Hr' Hr Hv' Hv E Hw).
  - rewrite decide_False; [done|]. intros [-> E']. apply E. by rewrite (walk_same_page s root va' va).
Qed.

Lemma maps_set_word s a w e : maps (set_word a w s) e = maps s e.
Proof. done. Qed.

Lemma leaf_write_inv s T M owed f q i w :
  let ea := f + 8 * i in
  PInv s T M owed -> T !! f = Some (1%nat, q) -> 0 <= i < 512 ->
  (forall g, maps s w = Some g ->
     T !! g = None /\ (pf_managed (frames s) g -> 0 < pf_refcount (frames s) g)) ->
  (forall root p va, T !! root = Some (4%nat, p) -> 0 <= va < 2 ^ 47 -> walk s root va = Some ea ->
     has w PAGE_PRESENT = true -> is_tramp s (get_table_ptr w) -> pmap_is_trampoline_va va = true) ->
  PInv (set_word ea w s) T (upd ea (maps s w) M)
    (fun h => owed h + ind (M !! ea = Some h) - ind (maps s w = Some h)).
Proof.
  intros ea HI Hf Hi Hnew Htr. pose proof HI as [H1 H2 H3 H4 H5 H6 H7 H8 H9].
  assert (Hold : forall h, T !! h ≠ None \/ is_tramp s h -> ind (M !! ea = Some h) = 0 /\ ind (maps s w = Some h) = 0).
  { intros h Hh. unfold ind. split; rewrite decide_False; try done; intros E.
    - destruct Hh as [Hh|Hh]; [by apply H5 in E|]. apply H4 in E as (? & ? & ? & _ & _ & _ & E).
      apply maps_frame in E as (_ & _ & E). done.
    - destruct Hh as [Hh|Hh]; [by apply Hnew in E as [? _]|]. by apply maps_frame in E as (_ & _ & ?). }
  constructor; try done; cbn [frames set_word fupd pmap_eta].
  - intros g l p Hg. destruct (H2 g l p Hg) as (? & ? & ? & ? & ? & ?).
    destruct (Hold g) as [-> ->]; [by left; rewrite Hg|]. split_and!; done || lia.
  - intros g l p j Hg Hl Hj. rewrite word_set_word, decide_False; [by apply (H3 _ _ p)|].
    unfold ea. intros E. pose proof (limit_le (S l)).
    eapply table_slots in E as [-> _]; [|done|exact Hg|exact Hf|lia|done]. rewrite Hg in Hf. injection Hf. lia.
  - intros a g. rewrite lookup_upd, word_set_word, maps_set_word. destruct (decide (a = ea)) as [->|]; [|apply H4].
    split; [|by intros (? & ? & ? & _ & _ & _ & ?)]. intros E. exists f, q, i. done.
  - intros a g. rewrite lookup_upd. case_decide; [|apply H5]. intros E. by apply Hnew.
  - intros g Ha Hg Hm H0. specialize (H6 g Ha Hg Hm H0). unfold ind at 2. case_decide as E; [|unfold ind; case_decide; lia].
    destruct (Hnew g E) as [_ Ho]. specialize (Ho Hm). lia.
  - intros g Ha Hg Hm. rewrite count_upd. specialize (H7 g Ha Hg Hm). lia.
  - intros g Hg. destruct (H8 g Hg) as (? & ? & ? & ? & ?). destruct (Hold g) as [-> ->]; [by right|].
    split_and!; done || lia.
  - intros root p va e Hr Hv. unfold ea. erewrite pte_leaf_write by done. case_decide as Ew; [|by apply (H9 root p)].
    destruct (has w PAGE_PRESENT) eqn:Ep; [|done]. intros [= <-] Ht. by apply (Htr root p).
Qed.
(** ** Adding a table *)

Lemma word_set_page a w s f j : aligned a -> aligned f -> 0 <= j < 512 ->
  word (set_page a w s) (f + 8 * j) = if decide (f = a) then w else word s (f + 8 * j).
Proof.
  intros Ha Hf Hj. unfold word, set_page. cbn. case_decide as E.
  - subst. apply (fill_words_in _ a (fun _ => w)). apply elem_of_seqZ. lia.
  - apply fill_words_out. intros i Hi%elem_of_seqZ Heq. apply slot_inj in Heq; done || lia.
Qed.

(** A zeroed frame [a] hung into the empty entry [i] of directory [f]. *)
Section NewTable.
Context (s : state) (T : tables) (M : gmap Z Z) (owed : Z -> Z) (f : Z) (l : nat) (p i a e : Z).
Hypothesis HI : PInv s T M owed.
Hypothesis Hf : T !! f = Some (S l, p).
Hypothesis Hl : (1 <= l)%nat.
Hypothesis Hi : 0 <= i < limit (S l).
Hypothesis Hempty : has (word s (f + 8 * i)) PAGE_PRESENT = false.
Hypothesis Hnew : T !! a = None.
Hypothesis Hal : aligned a.
Hypothesis Hra : 0 < a < 2 ^ 52.
Hypothesis Hea : get_table_ptr e = a.
Hypothesis Hep : has e PAGE_PRESENT = true.

Let s' : state := set_word (f + 8 * i) e (set_page a 0 s).
Let T' : tables := <[a := (l, f + 8 * i)]> T.

Lemma new_table_word g q j : T !! g = q -> aligned g -> 0 <= j < 512 ->
  word s' (g + 8 * j) =
    if decide (g = f /\ j = i) then e else if decide (g = a) then 0 else word s (g + 8 * j).
Proof.
  intros Hg Hag Hj. unfold s'. rewrite word_set_word. pose proof (limit_le (S l)).
  destruct (decide (g = f /\ j = i)) as [[-> ->]|Hne]; [by rewrite decide_True|].
  rewrite decide_False; [by rewrite word_set_page|].
  intros E. apply slot_inj in E; [done|done| |done|lia]. apply (pi_table _ _ _ _ HI _ _ _ Hf).
Qed.

Lemma new_table_child g k q j : T !! g = Some (k, q) -> 0 <= j < 512 ->
  child s' g j = if decide (g = f /\ j = i) then Some a else child s g j.
Proof.
  intros Hg Hj. unfold child. erewrite new_table_word by (done || apply (pi_table _ _ _ _ HI _ _ _ Hg)).
  rewrite (decide_False (P := g = a)) by congruence. destruct (decide (g = f /\ j = i)); [by rewrite Hep, Hea|done].
Qed.

Lemma new_table_zero j : 0 <= j < 512 -> word s' (a + 8 * j) = 0.
Proof.
  intros Hj. erewrite new_table_word by done. rewrite decide_False by (intros [-> _]; congruence).
  by rewrite decide_True.
Qed.

Lemma new_table_nochild j : 0 <= j < 512 -> child s' a j = None.
Proof. intros Hj. unfold child. by rewrite new_table_zero. Qed.

(** No translation changes. *)
Lemma new_table_pte root q va : T !! root = Some (4%nat, q) -> 0 <= va < 2 ^ 47 -> pte s' root va = pte s root va.
Proof.
  intros Hr Hv. pose proof (index_top va Hv). pose proof (index_range 30 va ltac:(done)).
  pose proof (index_range 21 va ltac:(done)). pose proof (index_range 12 va ltac:(done)).
  assert (Hnone : child s f i = None) by (unfold child; by rewrite Hempty).
  unfold pte, walk. rewrite (new_table_child root _ _ _ Hr) by lia.
  case_decide as E4; [destruct E4 as [-> ->]; rewrite Hnone; cbn; by rewrite new_table_nochild|].
  destruct (child s root _) as [f3|] eqn:E3; [|done]. cbn. eapply child_table in E3; [|done|done|lia|done].
  rewrite (new_table_child f3 _ _ _ E3) by lia.
  case_decide as E4'; [destruct E4' as [-> ->]; rewrite Hnone; cbn; by rewrite new_table_nochild|].
  destruct (child s f3 _) as [f2|] eqn:E2; [|done]. cbn. eapply child_table in E2; [|done|done|lia|cbn; lia].
  rewrite (new_table_child f2 _ _ _ E2) by lia.
  case_decide as E2'; [destruct E2' as [-> ->]; rewrite Hnone; cbn; by rewrite new_table_zero|].
  destruct (child s f2 _) as [f1|] eqn:E1; [|done]. cbn. eapply child_table in E1; [|done|done|lia|cbn; lia].
  erewrite new_table_word; [|done|apply (pi_table _ _ _ _ HI _ _ _ E1)|done].
  rewrite (decide_False (P := f1 = a)) by congruence. rewrite decide_False; [done|].
  intros [-> _]. rewrite E1 in Hf. injection Hf. lia.
Qed.

Hypothesis Heu : has e PAGE_USER = true.
Hypothesis Hel : has e PAGE_LARGE = false.
Hypothesis Hma : pf_managed (frames s) a.
Hypothesis Hrc : 0 < pf_refcount (frames s) a.
Hypothesis Hown : owed a = 1.
Hypothesis Hcount : count M a = 0.
Hypothesis Htramp : ~ is_tramp s a.

Lemma new_table_inv : PInv s' T' M (fun h => owed h - ind (h = a)).
Proof.
  pose proof HI as [H1 H2 H3 H4 H5 H6 H7 H8 H9].
  assert (Hfr : frames s' = frames s) by done.
  assert (Hlv : (1 <= l <= 3)%nat) by (destruct (H2 _ _ _ Hf) as (_ & _ & ? & _); lia).
  constructor; rewrite ?Hfr; try done; unfold T'.
  - intros g k q. rewrite lookup_insert_Some. intros [[<- [= <- <-]]|[Hne Hg]]; unfold ind.
    + rewrite decide_True by done. split_and!; done || lia.
    + rewrite decide_False by done. rewrite Z.sub_0_r. by apply (H2 g k q).
  - intros g k q j. rewrite lookup_insert_Some. intros [[<- [= <- <-]]|[Hne Hg]] Hk Hj Hp.
    { rewrite new_table_zero in Hp by (pose proof (limit_le l); lia). done. }
    pose proof (limit_le (S k)). rewrite (new_table_word g _ j Hg (proj1 (H2 _ _ _ Hg)) ltac:(lia)) in Hp |- *.
    revert Hp. rewrite (decide_False (P := g = a)) by done. case_decide as E.
    + destruct E as [-> ->]. intros _. rewrite Hg in Hf. injection Hf as -> ->. rewrite Hea, lookup_insert_eq. done.
    + intros Hp. destruct (H3 _ _ _ _ Hg Hk Hj Hp) as (? & ? & Hc). rewrite lookup_insert_ne by congruence. done.
  - intros x g. rewrite H4. split.
    + intros (h & q & j & Hh & Hj & -> & Hm). exists h, q, j. rewrite lookup_insert_ne by congruence.
      split; [done|]. split; [done|]. split; [done|].
      erewrite new_table_word; [|done|apply (H2 _ _ _ Hh)|done].
      rewrite (decide_False (P := h = a)) by congruence. rewrite decide_False; [done|].
      intros [-> _]. rewrite Hh in Hf. injection Hf. lia.
    + intros (h & q & j & Hh & Hj & -> & Hm). apply lookup_insert_Some in Hh as [[<- _]|[Hne Hh]].
      * by rewrite new_table_zero in Hm.
      * exists h, q, j. split; [done|]. split; [done|]. split; [done|]. revert Hm.
        erewrite new_table_word; [|done|apply (H2 _ _ _ Hh)|done].
        rewrite (decide_False (P := h = a)) by congruence. rewrite decide_False; [done|].
        intros [-> _]. rewrite Hh in Hf. injection Hf. lia.
  - intros x g Hx. rewrite lookup_insert_ne; [by apply (H5 x)|]. intros <-. apply count_pos in Hx. lia.
  - intros g Ha' Hg Hmg H0. specialize (H6 g Ha' Hg Hmg H0). unfold ind. case_decide; subst; lia.
  - intros g Ha' Hg Hmg. specialize (H7 g Ha' Hg Hmg). unfold ind. case_decide; lia.
  - intros g Hg. destruct (H8 g Hg) as (? & ? & ? & ? & ?). unfold ind. rewrite decide_False by (by intros ->).
    rewrite lookup_insert_ne by (by intros <-). split_and!; done || lia.
  - intros root q va x Hr Hv. apply lookup_insert_Some in Hr as [[_ [= ? _]]|[_ Hr]]; [lia|].
    erewrite new_table_pte by done. by apply (H9 root q).
Qed.
End NewTable.
End Inv.
End PmapInv.
