(* ===== verification/PmapMap.v ===== *)
(** * Mapping pages

    [pmap_map_user_page], [pmap_trampoline_install] and [pmap_create] as
    updates of the translations of all address spaces: the directories they add
    on the way change no translation, and the leaf entry changes exactly one. *)

From S2P Require Import Prelude Pmm Pmap PmapInv.
Import Pmap PmapInv.

Module PmapMap.
Notation tables := (gmap Z (nat * Z)).

Section Map.
Context {F : Type} `{PageFrames F}.
Notation state := (pmap F).
Implicit Types (s : state) (T : tables) (M : gmap Z Z) (owed : Z -> Z).

(** What may happen on the way to a leaf: tables are added, and nothing that
    can be observed through the existing address spaces changes. *)
Record grown (s : state) (T : tables) (s' : state) (T' : tables) : Prop := {
  gr_sub : T ⊆ T';
  gr_root : forall f p, T' !! f = Some (4%nat, p) -> T !! f = Some (4%nat, p);
  gr_pte : forall root p va, T !! root = Some (4%nat, p) -> 0 <= va < 2 ^ 47 -> pte s' root va = pte s root va;
  gr_mem : forall f j, T' !! f = None -> aligned f -> 0 <= j < 512 -> word s' (f + 8 * j) = word s (f + 8 * j);
  gr_child : forall f l p i g, T !! f = Some (S l, p) -> (1 <= l)%nat -> 0 <= i < limit (S l) ->
    child s f i = Some g -> child s' f i = Some g;
  gr_kernel : forall root p j, T !! root = Some (4%nat, p) -> 256 <= j < 512 ->
    word s' (root + 8 * j) = word s (root + 8 * j);
  gr_refs : forall g, 0 < pf_refcount (frames s) g -> pf_refcount (frames s') g = pf_refcount (frames s) g;
  gr_managed : forall g, pf_managed (frames s') g <-> pf_managed (frames s) g;
  gr_other : s' = s <| mem := mem s' |> <| frames := frames s' |>
}.

(** The tables added were free frames. *)
Definition fresh_tables (s : state) (T T' : tables) : Prop :=
  forall g, T !! g = None -> is_Some (T' !! g) -> ~ 0 < pf_refcount (frames s) g.

Lemma fresh_tables_trans s1 T1 s2 T2 T3 :
  grown s1 T1 s2 T2 -> fresh_tables s1 T1 T2 -> fresh_tables s2 T2 T3 -> fresh_tables s1 T1 T3.
Proof.
  intros G H1 H2 g Hn H3 Hg. destruct (T2 !! g) eqn:E; [by apply (H1 g)|].
  apply (H2 g E H3). by rewrite (gr_refs _ _ _ _ G).
Qed.

Lemma grown_refl s T : grown s T s T.
Proof. constructor; try done. by destruct s. Qed.

Lemma grown_trans s1 T1 s2 T2 s3 T3 : grown s1 T1 s2 T2 -> grown s2 T2 s3 T3 -> grown s1 T1 s3 T3.
Proof.
  intros G1 G2. constructor.
  - etrans; [apply G1|apply G2].
  - intros f p Hf. by apply (gr_root _ _ _ _ G1), (gr_root _ _ _ _ G2).
  - intros root p va Hr Hv. rewrite (gr_pte _ _ _ _ G2 root p) by (done || by eapply lookup_weaken, G1).
    by apply (gr_pte _ _ _ _ G1 root p).
  - intros f j Hf Ha Hj. rewrite (gr_mem _ _ _ _ G2) by done. apply (gr_mem _ _ _ _ G1); [|done..].
    destruct (T2 !! f) eqn:E; [|done]. eapply lookup_weaken in E; [|apply G2]. congruence.
  - intros f l p i g Hf Hl Hi Hc. eapply (gr_child _ _ _ _ G2); [by eapply lookup_weaken, G1|done..|].
    by eapply (gr_child _ _ _ _ G1).
  - intros root p j Hr Hj. rewrite (gr_kernel _ _ _ _ G2 root p) by (done || by eapply lookup_weaken, G1).
    by apply (gr_kernel _ _ _ _ G1 root p).
  - intros g Hg. rewrite (gr_refs _ _ _ _ G2); [by apply G1|]. by rewrite (gr_refs _ _ _ _ G1).
  - intros g. rewrite (gr_managed _ _ _ _ G2). apply G1.
  - rewrite (gr_other _ _ _ _ G2). rewrite (gr_other _ _ _ _ G1). by destruct s1.
Qed.

Lemma grown_tramp s T s' T' : grown s T s' T' -> s_tramp_phys s' = s_tramp_phys s.
Proof. intros G. by rewrite (gr_other _ _ _ _ G). Qed.

Lemma maps_tramp s s' w : s_tramp_phys s' = s_tramp_phys s -> maps s' w = maps s w.
Proof.
  intros E. unfold maps. rewrite (bool_decide_ext (~ is_tramp s' (get_table_ptr w)) (~ is_tramp s (get_table_ptr w))); [done|].
  unfold is_tramp. by rewrite E.
Qed.

(** The entry written for a new table. *)
Definition dir_entry (phys : Z) : Z :=
  Z.lor (Z.lor (Z.lor (Z.land phys PTE_PHYS_MASK) PAGE_PRESENT) PAGE_WRITE) PAGE_USER.

Lemma dir_entry_bits phys :
  get_table_ptr (dir_entry phys) = get_table_ptr phys /\ has (dir_entry phys) PAGE_PRESENT = true /\
  has (dir_entry phys) PAGE_USER = true /\ has (dir_entry phys) PAGE_LARGE = false.
Proof.
  unfold dir_entry. split; [rewrite !get_table_ptr_lor by done; apply get_table_ptr_mask|].
  bits. split; [rewrite !orb_true_r; done|]. split; [by rewrite !orb_true_r|].
  cbn. by rewrite andb_false_r.
Qed.

Lemma grown_alloc s T M owed s1 a :
  PInv s T M owed -> alloc_page s = (s1, a) ->
  grown s T s1 T /\ pf_avail (frames s) - 1 <= pf_avail (frames s1) /\ (no_page a = true -> pf_avail (frames s) <= 0).
Proof.
  intros HI. unfold alloc_page. destruct (pf_alloc (frames s)) as [fr b] eqn:E. intros [= <- <-].
  destruct (pf_avail_alloc _ _ _ (pi_ok _ _ _ _ HI) E) as [Hav Hno]. split; [|split; [done|]].
  - destruct (pf_alloc_law _ _ _ (pi_ok _ _ _ _ HI) E) as (_ & Hm & Hr & _). constructor; done.
  - intros En. destruct (Z.le_gt_cases (pf_avail (frames s)) 0) as [|Hlt]; [done|]. destruct (Hno Hlt) as [H0 H1].
    unfold no_page in En. apply orb_prop in En as [->%Z.eqb_eq|E1%Z.eqb_eq]; [done|]. by rewrite E1 in H1.
Qed.

(** Hanging a fresh zeroed frame into an empty entry. *)
Lemma grown_table s T M owed f l p i a e :
  PInv s T M owed -> T !! f = Some (S l, p) -> (1 <= l)%nat -> 0 <= i < limit (S l) ->
  has (word s (f + 8 * i)) PAGE_PRESENT = false -> T !! a = None -> aligned a -> 0 < a < 2 ^ 52 ->
  get_table_ptr e = a -> has e PAGE_PRESENT = true ->
  grown s T (set_word (f + 8 * i) e (set_page a 0 s)) (<[a := (l, f + 8 * i)]> T).
Proof.
  intros HI Hf Hl Hi Hp Ht Ha Hra Hea Hep. pose proof (limit_le (S l)).
  destruct (pi_table _ _ _ _ HI _ _ _ Hf) as (Haf & _ & Hlv & _). constructor; try done.
  - by apply insert_subseteq.
  - intros g q. rewrite lookup_insert_Some. intros [[_ [= ? _]]|[_ ?]]; [lia|done].
  - intros root q va Hr Hv. by eapply new_table_pte.
  - intros g j Hg Hag Hj. apply lookup_insert_None in Hg as [Hg Hne]. erewrite new_table_word by done.
    rewrite (decide_False (P := g = a)) by done. rewrite decide_False; [done|]. intros [-> _]. congruence.
  - intros g k q j c Hg Hk Hj Hc. pose proof (limit_le (S k)). erewrite new_table_child by (done || lia).
    rewrite decide_False; [done|]. intros [-> ->]. unfold child in Hc. by rewrite Hp in Hc.
  - intros root q j Hr Hj. erewrite new_table_word; [|done..|apply (pi_table _ _ _ _ HI _ _ _ Hr)|lia].
    rewrite (decide_False (P := root = a)) by congruence. rewrite decide_False; [done|].
    intros [-> ->]. rewrite Hf in Hr. injection Hr as ->. cbn in Hi. lia.
Qed.

Lemma user_table_spec large s T M owed f l p i s' ok :
  PInv s T M owed -> T !! f = Some (S l, p) -> (1 <= l)%nat -> 0 <= i < limit (S l) ->
  user_table large (f + 8 * i) s = (s', ok) ->
  exists T', PInv s' T' M owed /\ grown s T s' T' /\ fresh_tables s T T' /\
    pf_avail (frames s) - 1 <= pf_avail (frames s') /\
    if ok then T' !! get_table_ptr (word s' (f + 8 * i)) = Some (l, f + 8 * i) /\
               child s' f i = Some (get_table_ptr (word s' (f + 8 * i)))
    else pf_avail (frames s) <= 0.
Proof.
  intros HI Hf Hl Hi. unfold user_table. destruct (has (word s (f + 8 * i)) PAGE_PRESENT) eqn:Ep.
  { destruct (pi_dir _ _ _ _ HI _ _ _ _ Hf Hl Hi Ep) as (-> & -> & Hc). rewrite andb_false_r.
    intros [= <- <-]. exists T. split; [done|]. split; [apply grown_refl|]. split; [intros g -> []; done|]. split; [lia|]. unfold child. by rewrite Ep. }
  cbn [negb orb]. destruct (alloc_page s) as [s1 a] eqn:Ea.
  destruct (alloc_inv _ _ _ _ _ _ HI Ea) as [Es1 Halloc]. destruct (grown_alloc _ _ _ _ _ _ HI Ea) as (G1 & Hav & Hno).
  destruct (no_page a) eqn:Eno; intros [= <- <-].
  { exists T. split; [done|]. split; [done|]. split; [intros g -> []; done|]. split; [done|by apply Hno]. }
  destruct Halloc as (Ht & Ha & Hra & Hm & Hrc & Htr & Hcnt & Ho & HI1 & Hr0).
  assert (Ep1 : has (word s1 (f + 8 * i)) PAGE_PRESENT = false) by (by rewrite Es1).
  fold (dir_entry a). destruct (dir_entry_bits a) as (Eg & Eep & Eu & El).
  rewrite (get_table_ptr_id a) in Eg |- * by (done || lia). exists (<[a := (l, f + 8 * i)]> T). split; [|split; [|split; [|split]]].
  - eapply PInv_owed.
    + assert (Hown : owed a + ind (a = a) = 1) by (unfold ind; rewrite decide_True; lia).
      assert (Htr1 : ~ is_tramp s1 a) by (by rewrite Es1). assert (Hrc1 : 0 < pf_refcount (frames s1) a) by lia.
      by eapply (new_table_inv s1 T M _ f l p i a (dir_entry a) HI1).
    + intros g. unfold ind. case_decide; lia.
    + intros g _ Hne. exfalso. apply Hne. cbn. lia.
  - eapply grown_trans; [exact G1|]. by eapply grown_table.
  - intros g Hg [x [[<- _]|[_ ?]]%lookup_insert_Some]; [lia|congruence].
  - exact Hav.
  - rewrite word_set_word, decide_True by done. rewrite Eg, lookup_insert_eq. split; [done|].
    unfold child. rewrite word_set_word, decide_True by done. by rewrite Eep, Eg.
Qed.
(** ** The leaf *)

Lemma same_trampoline va va' : 0 <= va < 2 ^ 47 -> 0 <= va' < 2 ^ 47 ->
  va / 4096 = va' / 4096 -> pmap_is_trampoline_va va = pmap_is_trampoline_va va'.
Proof.
  intros Hv Hv' E. unfold pmap_is_trampoline_va. fold (page_trunc va) (page_trunc va').
  by rewrite !page_trunc_div, E by lia.
Qed.

Lemma map_leaf_empty ea va paddr flags s :
  has (word s ea) PAGE_PRESENT = false -> frames (map_leaf ea va paddr flags s) = frames s.
Proof. intros E. unfold map_leaf. by rewrite E. Qed.

Lemma map_leaf_avail ea va paddr flags s : pf_ok (frames s) ->
  (has (word s ea) PAGE_PRESENT = true -> get_table_ptr (word s ea) ≠ 0) ->
  pf_avail (frames s) <= pf_avail (frames (map_leaf ea va paddr flags s)).
Proof.
  intros Hok Hz. unfold map_leaf. destruct (has (word s ea) PAGE_PRESENT); cbn [andb]; [|done]. destruct (_ && _); [|done].
  destruct (get_table_ptr_range (word s ea)) as [Ha Hr]. specialize (Hz eq_refl). apply pf_avail_release; [done| |done]. unfold get_table_ptr in *. lia.
Qed.

Lemma map_leaf_spec s T M owed root p va f q paddr flags :
  let ea := f + 8 * index 12 va in
  let w := Z.lor (Z.lor (Z.lor (Z.land paddr PTE_PHYS_MASK) flags) PAGE_PRESENT) PAGE_USER in
  let s' := map_leaf ea va paddr flags s in
  PInv s T M owed -> T !! root = Some (4%nat, p) -> 0 <= va < 2 ^ 47 -> T !! f = Some (1%nat, q) ->
  walk s root va = Some ea -> get_table_ptr flags = 0 ->
  (forall g, maps s w = Some g -> T !! g = None /\ (pf_managed (frames s) g -> 0 < pf_refcount (frames s) g)) ->
  pte s root va = None \/ (forall h, pf_managed (frames s) h -> 0 <= owed h) ->
  (is_tramp s (get_table_ptr paddr) -> pmap_is_trampoline_va va = true) ->
  PInv s' T (upd ea (maps s w) M) (fun h => owed h - ind (maps s w = Some h)) /\
  (forall root' p' va', T !! root' = Some (4%nat, p') -> 0 <= va' < 2 ^ 47 ->
     pte s' root' va' = if decide (root' = root /\ va' / 4096 = va / 4096) then Some w else pte s root' va').
Proof.
  intros ea w s' HI Hr Hv Hf Hw Hfl Hg Hnn Htr. pose proof (index_range 12 va ltac:(done)) as Hi.
  assert (Ewg : get_table_ptr w = get_table_ptr paddr) by (by apply get_table_ptr_entry).
  assert (Ewp : has w PAGE_PRESENT = true) by (unfold w; bits; cbn; by rewrite orb_true_r).
  assert (HI1 : PInv (set_word ea w s) T (upd ea (maps s w) M)
            (fun h => owed h + ind (M !! ea = Some h) - ind (maps s w = Some h))).
  { eapply leaf_write_inv; try done.
    intros root' p' va' Hr' Hv' Hw' _. rewrite Ewg. intros Ht. apply Htr in Ht.
      rewrite <- Ht. apply same_trampoline; [done..|]. by destruct (walk_inj _ _ _ _ _ _ _ _ _ _ _ HI Hr' Hr Hv' Hv Hw' Hw). }
  split.
  - unfold s', map_leaf. fold w. destruct (has (word s ea) PAGE_PRESENT && _ && _) eqn:Erel.
    + apply andb_prop in Erel as [[Ep Hne]%andb_prop Hnt].
      set (old := get_table_ptr (word s ea)). change (Z.land (word s ea) PTE_PHYS_MASK) with old.
      assert (Hold : M !! ea = Some old).
      { apply (pi_leaf _ _ _ _ HI). exists f, q, (index 12 va). split; [done|]. split; [done|]. split; [done|].
        unfold maps. rewrite Ep. cbn. rewrite bool_decide_true; [done|]. intros Ht.
        rewrite (pi_tramp_va _ _ _ _ HI root p va (word s ea)) in Hnt; [done|done|done| |done].
        unfold pte. rewrite Hw. cbn. by rewrite Ep. }
      destruct Hnn as [Hnn|Hnn]; [unfold pte in Hnn; rewrite Hw in Hnn; cbn in Hnn; by rewrite Ep in Hnn|].
      change (set_word ea w (release_page old s)) with (release_page old (set_word ea w s)).
      destruct (get_table_ptr_range (word s ea)) as [Hao Hro]. eapply PInv_owed.
      * eapply release_inv; [exact HI1|done|done|]. intros Hm. specialize (Hnn old Hm).
        pose proof (pi_count _ _ _ _ HI old Hao Hro Hm). pose proof (count_pos _ _ _ Hold).
        split; [by eapply (pi_data _ _ _ _ HI)|]. split; [cbn; lia|]. intros _.
        unfold ind. rewrite (decide_True (P := M !! ea = Some old)) by done. rewrite decide_False; [lia|].
        intros [E _]%maps_frame. change (negb (old =? get_table_ptr paddr) = true) in Hne. by rewrite E, Ewg, Z.eqb_refl in Hne.
      * intros h. unfold ind. repeat case_decide; congruence || lia.
      * intros h Hm Hd. exfalso. apply Hd. unfold ind. repeat case_decide; congruence || lia.
    + eapply PInv_owed; [exact HI1|intros h; unfold ind; repeat case_decide; lia|].
      intros h Hm Hd. right. apply (mapped_live _ _ _ _ ea _ HI); [|done]. revert Hd. unfold ind. repeat case_decide; done || lia.
  - intros root' p' va' Hr' Hv'. transitivity (pte (set_word ea w s) root' va').
    { unfold s', map_leaf. fold w. by destruct (_ && _ && _). }
    rewrite (pte_update s T M owed root p va ea w root' p' va') by done. by rewrite Ewp.
Qed.
(** ** The whole operation *)

(** What the operations on one address space leave alone. *)
Record framed (s : state) (T : tables) (s' : state) (T' : tables) : Prop := {
  fr_sub : T ⊆ T';
  fr_root : forall f p, T' !! f = Some (4%nat, p) -> T !! f = Some (4%nat, p);
  fr_mem : forall f j, T' !! f = None -> aligned f -> 0 <= j < 512 -> word s' (f + 8 * j) = word s (f + 8 * j);
  fr_child : forall f l p i g, T !! f = Some (S l, p) -> (1 <= l)%nat -> 0 <= i < limit (S l) ->
    child s f i = Some g -> child s' f i = Some g;
  fr_kernel : forall root p j, T !! root = Some (4%nat, p) -> 256 <= j < 512 ->
    word s' (root + 8 * j) = word s (root + 8 * j);
  fr_managed : forall g, pf_managed (frames s') g <-> pf_managed (frames s) g;
  fr_other : s_tramp_phys s' = s_tramp_phys s /\ s_kernel_pml4_phys s' = s_kernel_pml4_phys s
}.

Lemma grown_framed s T s' T' : grown s T s' T' -> framed s T s' T'.
Proof. intros [? ? ? ? ? ? ? ? E]. constructor; try done. by rewrite E. Qed.

Lemma framed_trans s1 T1 s2 T2 s3 T3 : framed s1 T1 s2 T2 -> framed s2 T2 s3 T3 -> framed s1 T1 s3 T3.
Proof.
  intros G1 G2. constructor.
  - etrans; [apply G1|apply G2].
  - intros f p Hf. by apply (fr_root _ _ _ _ G1), (fr_root _ _ _ _ G2).
  - intros f j Hf Ha Hj. rewrite (fr_mem _ _ _ _ G2) by done. apply (fr_mem _ _ _ _ G1); [|done..].
    destruct (T2 !! f) eqn:E; [|done]. eapply lookup_weaken in E; [|apply G2]. congruence.
  - intros f l p i g Hf Hl Hi Hc. eapply (fr_child _ _ _ _ G2); [by eapply lookup_weaken, G1|done..|].
    by eapply (fr_child _ _ _ _ G1).
  - intros root p j Hr Hj. rewrite (fr_kernel _ _ _ _ G2 root p) by (done || by eapply lookup_weaken, G1).
    by apply (fr_kernel _ _ _ _ G1 root p).
  - intros g. rewrite (fr_managed _ _ _ _ G2). apply G1.
  - destruct (fr_other _ _ _ _ G2) as [-> ->]. apply G1.
Qed.

Lemma framed_tramp s T s' T' : framed s T s' T' -> s_tramp_phys s' = s_tramp_phys s.
Proof. intros G. apply G. Qed.

Lemma framed_leaf s T M owed f q i va paddr flags :
  PInv s T M owed -> T !! f = Some (1%nat, q) -> 0 <= i < 512 ->
  framed s T (map_leaf (f + 8 * i) va paddr flags s) T.
Proof.
  intros HI Hf Hi. destruct (pi_table _ _ _ _ HI _ _ _ Hf) as (Ha & _).
  assert (Hm : mem (map_leaf (f + 8 * i) va paddr flags s) =
    store (f + 8 * i) (Z.lor (Z.lor (Z.lor (Z.land paddr PTE_PHYS_MASK) flags) PAGE_PRESENT) PAGE_USER) (mem s)).
  { unfold map_leaf. by destruct (_ && _ && _). }
  constructor; try done.
  - intros g j Hg Hag Hj. unfold word. rewrite Hm, load_store, decide_False; [done|].
    intros [-> _]%slot_inj; try done. congruence.
  - intros g l p j c Hg Hl Hj. pose proof (limit_le (S l)). unfold child, word. rewrite Hm, load_store, decide_False; [done|].
    intros [-> _]%slot_inj; [|apply (pi_table _ _ _ _ HI _ _ _ Hg)|done|lia|done]. rewrite Hg in Hf. injection Hf. lia.
  - intros root p j Hr Hj. unfold word. rewrite Hm, load_store, decide_False; [done|].
    intros [-> _]%slot_inj; try done; [|apply (pi_table _ _ _ _ HI _ _ _ Hr)|lia]. rewrite Hr in Hf. done.
  - intros g. unfold map_leaf. destruct (_ && _ && _); [|done]. cbn.
    destruct (get_table_ptr_range (word s (f + 8 * i))) as [Hao Hro].
    apply (pf_release_law (frames s) _ (pi_ok _ _ _ _ HI)); [apply Hro|done].
  - unfold map_leaf. by destruct (_ && _ && _), s.
Qed.

Lemma map_spec s T M owed root p va paddr flags s' r :
  let g := get_table_ptr paddr in
  let w := Z.lor (Z.lor (Z.lor (Z.land paddr PTE_PHYS_MASK) flags) PAGE_PRESENT) PAGE_USER in
  PInv s T M owed -> T !! root = Some (4%nat, p) -> 0x1000 <= va < 2 ^ 47 -> get_table_ptr flags = 0 ->
  (~ is_tramp s g -> T !! g = None /\ (pf_managed (frames s) g -> 0 < pf_refcount (frames s) g)) ->
  pte s root va = None \/ (forall h, pf_managed (frames s) h -> 0 <= owed h) ->
  (is_tramp s g -> pmap_is_trampoline_va va = true) ->
  pmap_map_user_page_unlocked root va paddr flags s = (s', r) ->
  exists T', framed s T s' T' /\
    ((r = 0 /\ PInv s' T' M owed /\ grown s T s' T' /\ pf_avail (frames s) <= 2) \/
     (r = paddr /\ (exists M', PInv s' T' M' (fun h => owed h - ind (maps s w = Some h))) /\
      (pte s root va = None -> forall h, 0 < pf_refcount (frames s) h -> pf_refcount (frames s') h = pf_refcount (frames s) h) /\
      ((forall e, pte s root va = Some e -> get_table_ptr e ≠ 0) -> pf_avail (frames s) - 3 <= pf_avail (frames s')) /\
      forall root' p' va', T !! root' = Some (4%nat, p') -> 0 <= va' < 2 ^ 47 ->
        pte s' root' va' = if decide (root' = root /\ va' / 4096 = va / 4096) then Some w else pte s root' va')).
Proof.
  intros g w HI Hr Hv Hfl Hg Hnn Htr. unfold pmap_map_user_page_unlocked.
  destruct (pi_table _ _ _ _ HI _ _ _ Hr) as (_ & Hr0 & _).
  destruct (Z.eqb_spec root 0); [lia|]. destruct (Z.ltb_spec va 0x1000); [lia|].
  destruct (Z.leb_spec 0x0000800000000000 va); [lia|]. cbn [orb].
  pose proof (index_top va ltac:(lia)). pose proof (index_range 30 va ltac:(done)).
  pose proof (index_range 21 va ltac:(done)). pose proof (index_range 12 va ltac:(done)).
  destruct (Z.leb_spec 256 (index 39 va)); [lia|]. rewrite (slot_table _ _ _ _ _ _ _ _ HI Hr).
  unfold slot. destruct (user_table false _ s) as [s1 ok] eqn:E1.
  destruct (user_table_spec _ _ _ _ _ _ 3 _ (index 39 va) _ _ HI Hr ltac:(lia) ltac:(cbn; lia) E1) as (T1 & HI1 & G1 & N1 & A1 & C1).
  destruct ok; cbn [negb].
  2:{ intros [= <- <-]. exists T1. split; [by apply grown_framed|]. left. do 3 (split; [done|]). lia. }
  set (f3 := get_table_ptr _) in C1 |- *. destruct C1 as [Hf3 C1]. destruct (user_table false _ s1) as [s2 ok] eqn:E2.
  destruct (user_table_spec _ _ _ _ _ _ 2 _ (index 30 va) _ _ HI1 Hf3 ltac:(lia) ltac:(cbn; lia) E2) as (T2 & HI2 & G2 & N2 & A2 & C2).
  pose proof (grown_trans _ _ _ _ _ _ G1 G2) as G12. destruct ok; cbn [negb].
  2:{ intros [= <- <-]. exists T2. split; [by apply grown_framed|]. left. do 3 (split; [done|]). lia. }
  set (f2 := get_table_ptr _) in C2 |- *. destruct C2 as [Hf2 C2]. destruct (user_table true _ s2) as [s3 ok] eqn:E3.
  destruct (user_table_spec _ _ _ _ _ _ 1 _ (index 21 va) _ _ HI2 Hf2 ltac:(lia) ltac:(cbn; lia) E3) as (T3 & HI3 & G3 & N3 & A3 & C3).
  pose proof (grown_trans _ _ _ _ _ _ G12 G3) as G. destruct ok; cbn [negb].
  2:{ intros [= <- <-]. exists T3. split; [by apply grown_framed|]. left. do 3 (split; [done|]). lia. }
  assert (N : fresh_tables s T T3).
  { eapply fresh_tables_trans; [exact G12| |exact N3]. eapply fresh_tables_trans; [exact G1|exact N1|exact N2]. }
  set (f1 := get_table_ptr _) in C3 |- *. destruct C3 as [Hf1 C3]. intros [= <- <-].
  assert (Hw : walk s3 root va = Some (f1 + 8 * index 12 va)).
  { unfold walk. rewrite (gr_child _ _ _ _ G3 root 3 p _ f3); [|by eapply lookup_weaken, G12|lia|cbn; lia|].
    - cbn. rewrite (gr_child _ _ _ _ G3 f3 2 _ (index 30 va) f2 ltac:(by eapply lookup_weaken, G2) ltac:(lia) ltac:(cbn; lia) C2). cbn.
      by rewrite C3.
    - apply (gr_child _ _ _ _ G2 root 3 p (index 39 va) f3 ltac:(by eapply lookup_weaken, G1) ltac:(lia) ltac:(cbn; lia) C1). }
  assert (Hr3 : T3 !! root = Some (4%nat, p)) by (by eapply lookup_weaken, G).
  pose proof (grown_tramp _ _ _ _ G) as Etr.
  assert (Ewg : get_table_ptr w = g) by (by apply get_table_ptr_entry).
  destruct (map_leaf_spec s3 T3 M owed root p va f1 _ paddr flags HI3 Hr3 ltac:(lia) Hf1 Hw Hfl) as [HI' Hpte].
  { fold w. rewrite (maps_tramp s s3 w Etr). intros h Hh. pose proof (maps_frame _ _ _ Hh) as (-> & _ & Hnt).
    rewrite Ewg in *. destruct (Hg Hnt) as [Hn Ho]. rewrite (gr_managed _ _ _ _ G).
    split; [|intros Hm; rewrite (gr_refs _ _ _ _ G); by apply Ho].
    destruct (T3 !! g) as [[k q]|] eqn:E; [|done]. destruct (pi_table _ _ _ _ HI3 _ _ _ E) as (_ & _ & _ & Hm & _).
    rewrite (gr_managed _ _ _ _ G) in Hm. destruct (N g); eauto. }
  { rewrite (gr_pte _ _ _ _ G root p) by (done || lia). setoid_rewrite (gr_managed _ _ _ _ G). exact Hnn. }
  { unfold is_tramp. rewrite Etr. exact Htr. }
  fold w in HI', Hpte. rewrite (maps_tramp s s3 w Etr) in HI'. exists T3. split.
  - eapply framed_trans; [by apply grown_framed|]. by eapply framed_leaf.
  - right. split; [done|]. split; [eauto|]. split.
    { rewrite <- (gr_pte _ _ _ _ G root p) by (done || lia). unfold pte. rewrite Hw. cbn [mbind option_bind].
      destruct (has (word s3 _) PAGE_PRESENT) eqn:Ep; [done|]. intros _ h Hh. rewrite map_leaf_empty by done.
      by rewrite (gr_refs _ _ _ _ G). }
    split.
    { rewrite <- (gr_pte _ _ _ _ G root p) by (done || lia). unfold pte. rewrite Hw. cbn [mbind option_bind]. intros Hz.
      pose proof (map_leaf_avail (f1 + 8 * index 12 va) va paddr flags s3 (pi_ok _ _ _ _ HI3)) as Hl.
      destruct (has (word s3 _) PAGE_PRESENT) eqn:Ep; [specialize (Hl (fun _ => Hz _ eq_refl)); lia|specialize (Hl ltac:(done)); lia]. }
    intros root' p' va' Hr' Hv'.
    rewrite (Hpte root' p' va') by (done || by eapply lookup_weaken, G). by rewrite (gr_pte _ _ _ _ G root' p').
Qed.
End Map.
End PmapMap.
