(* ===== verification/PmapSpec.v ===== *)
(** * What the page-table operations do

    Unmapping, copy-on-write faults and forking as operations on the
    translations of all address spaces, on top of [PmapInv] and [PmapMap]. *)

From S2P Require Import Prelude Pmm Pmap PmapInv PmapMap.
Import Pmap PmapInv PmapMap.

Module PmapSpec.

(** Occurrences of a frame in a list. *)
Fixpoint occ (l : list Z) (h : Z) : Z :=
  match l with [] => 0 | g :: l => ind (h = g) + occ l h end.

Lemma occ_app l1 l2 h : occ (l1 ++ l2) h = occ l1 h + occ l2 h.
Proof. induction l1; cbn; lia. Qed.

Lemma occ_nonneg l h : 0 <= occ l h.
Proof. induction l; cbn; [lia|]. unfold ind. case_decide; lia. Qed.

Section Spec.
Context {F : Type} `{PageFrames F}.
Notation state := (pmap F).
Implicit Types (s : state) (T : tables) (M : gmap Z Z) (owed : Z -> Z).

Definition frame_addr (g : Z) : Prop := aligned g /\ 0 <= g < 2 ^ 52.

(** ** Unmapping *)

(** Clearing a leaf entry turns its mapping into a reference to give back. *)
Lemma clear_leaf s T M owed f q i :
  PInv s T M owed -> T !! f = Some (1%nat, q) -> 0 <= i < 512 ->
  PInv (set_word (f + 8 * i) 0 s) T (upd (f + 8 * i) None M) (fun h => owed h + ind (M !! (f + 8 * i) = Some h)).
Proof.
  intros HI Hf Hi. assert (E : maps s 0 = None) by done. pose proof (leaf_write_inv s T M owed f q i 0 HI Hf Hi) as HL.
  rewrite E in HL. eapply PInv_owed; [apply HL; done|intros g; unfold ind; repeat case_decide; done || lia|].
  intros g _ Hd. exfalso. apply Hd. unfold ind. repeat case_decide; done || lia.
Qed.

Lemma framed_word s T M owed f q i w :
  PInv s T M owed -> T !! f = Some (1%nat, q) -> 0 <= i < 512 -> framed s T (set_word (f + 8 * i) w s) T.
Proof.
  intros HI Hf Hi. destruct (pi_table _ _ _ _ HI _ _ _ Hf) as (Ha & _). constructor; try done.
  - intros g j Hg Hag Hj. rewrite word_set_word, decide_False; [done|]. intros [-> _]%slot_inj; try done. congruence.
  - intros g l p j c Hg Hl Hj. pose proof (limit_le (S l)). unfold child. rewrite word_set_word, decide_False; [done|].
    intros [-> _]%slot_inj; [|apply (pi_table _ _ _ _ HI _ _ _ Hg)|done|lia|done]. rewrite Hg in Hf. injection Hf. lia.
  - intros root p j Hr Hj. rewrite word_set_word, decide_False; [done|].
    intros [-> _]%slot_inj; try done; [|apply (pi_table _ _ _ _ HI _ _ _ Hr)|lia]. rewrite Hr in Hf. done.
Qed.

Lemma framed_refl s T : framed s T s T.
Proof. by constructor. Qed.

(** The mapped frame of a present leaf entry off the trampoline. *)
Lemma pte_mapped s T M owed root p va ea :
  PInv s T M owed -> T !! root = Some (4%nat, p) -> 0 <= va < 2 ^ 47 -> walk s root va = Some ea ->
  has (word s ea) PAGE_PRESENT = true -> pmap_is_trampoline_va va = false ->
  M !! ea = Some (get_table_ptr (word s ea)).
Proof.
  intros HI Hr Hv Hw Ep Hn. destruct (walk_tables _ _ _ _ _ _ _ _ HI Hr Hv Hw) as (f3 & f2 & f1 & _ & _ & H1 & Ee).
  apply (pi_leaf _ _ _ _ HI). exists f1, (f2 + 8 * index 21 va), (index 12 va).
  split; [done|]. split; [by apply index_range|]. split; [done|]. unfold maps. rewrite Ep. cbn.
  rewrite bool_decide_true; [done|]. intros Ht.
  rewrite (pi_tramp_va _ _ _ _ HI root p va (word s ea)) in Hn; try done.
  unfold pte. rewrite Hw. cbn. by rewrite Ep.
Qed.

Lemma unmap_pte_spec s T M owed root p va rel l s' l' :
  PInv s T M owed -> T !! root = Some (4%nat, p) -> 0 <= va < 2 ^ 47 ->
  unmap_pte root rel (s, l) va = (s', l') ->
  exists M' new, l' = l ++ new /\ Forall frame_addr new /\ PInv s' T M' (fun h => owed h + occ new h) /\
    framed s T s' T /\ frames s' = frames s /\
    forall root' p' va', T !! root' = Some (4%nat, p') -> 0 <= va' < 2 ^ 47 ->
      pte s' root' va' = if decide (root' = root /\ va' / 4096 = va / 4096) then None else pte s root' va'.
Proof.
  intros HI Hr Hv. unfold unmap_pte. rewrite (pte_ptr_walk _ _ _ _ _ _ _ HI Hr Hv).
  assert (Hsame : forall ea, walk s root va = ea -> (forall a, ea = Some a -> has (word s a) PAGE_PRESENT = false) ->
    forall root' p' va', T !! root' = Some (4%nat, p') -> 0 <= va' < 2 ^ 47 ->
      pte s root' va' = if decide (root' = root /\ va' / 4096 = va / 4096) then None else pte s root' va').
  { intros ea Ew Hn root' p' va' _ _. case_decide as E; [|done]. destruct E as [-> E].
    unfold pte. rewrite (walk_same_page _ _ _ va) by done. rewrite Ew. destruct ea as [a|]; [|done]. cbn. by rewrite Hn. }
  assert (Hid : s' = s -> l' = l -> PInv s' T M (fun h => owed h + occ [] h) /\ framed s T s' T).
  { intros -> _. split; [|apply framed_refl]. eapply PInv_owed; [exact HI|cbn; lia|]. intros g _ Hd. cbn in Hd. lia. }
  destruct (walk s root va) as [ea|] eqn:Ew.
  2:{ intros [= <- <-]. exists M, []. rewrite app_nil_r. destruct Hid as [? ?]; [done..|]. split_and!; try done.
      by apply (Hsame None). }
  destruct (has (word s ea) PAGE_PRESENT) eqn:Ep; cbn [negb].
  2:{ intros [= <- <-]. exists M, []. rewrite app_nil_r. destruct Hid as [? ?]; [done..|]. split_and!; try done.
      apply (Hsame (Some ea)); [done|]. by intros a [= <-]. }
  clear Hid Hsame. intros [= <- <-].
  pose proof (walk_tables _ _ _ _ _ _ _ _ HI Hr Hv Ew) as (f3 & f2 & f1 & _ & _ & H1 & ->).
  pose proof (index_range 12 va ltac:(done)) as Hi. pose proof (clear_leaf _ _ _ _ _ _ _ HI H1 Hi) as HI1.
  assert (Hpte : forall root' p' va', T !! root' = Some (4%nat, p') -> 0 <= va' < 2 ^ 47 ->
    pte (set_word (f1 + 8 * index 12 va) 0 s) root' va' =
      if decide (root' = root /\ va' / 4096 = va / 4096) then None else pte s root' va').
  { intros root' p' va' Hr' Hv'. by rewrite (pte_update s T M owed root p va _ 0 root' p' va'). }
  pose proof (framed_word _ _ _ _ _ _ _ 0 HI H1 Hi) as Hfr.
  exists (upd (f1 + 8 * index 12 va) None M). destruct (rel && negb (pmap_is_trampoline_va va)) eqn:Erel.
  - apply andb_prop in Erel as [_ Hnt]. exists [get_table_ptr (word s (f1 + 8 * index 12 va))].
    split; [done|]. split; [by repeat constructor; apply get_table_ptr_range|]. split; [|done].
    pose proof (pte_mapped _ _ _ _ _ _ _ _ HI Hr Hv Ew Ep) as HM. rewrite HM in HI1 by (by destruct (pmap_is_trampoline_va va)).
    eapply PInv_owed; [exact HI1|intros h|intros h _ Hd; exfalso; apply Hd]; cbn; unfold ind; repeat case_decide; congruence || lia.
  - exists []. rewrite app_nil_r. split; [done|]. split; [done|]. split; [|done].
    eapply PInv_owed; [exact HI1|intros h; cbn; unfold ind; case_decide; lia|].
    intros h Hm Hd. right. refine (mapped_live s T M owed (f1 + 8 * index 12 va) h HI _ Hm). revert Hd. cbn. unfold ind. case_decide; [done|lia].
Qed.

(** Any list of user addresses. *)
Definition in_pages (vas : list Z) (va' : Z) : Prop := Exists (fun va => va' / 4096 = va / 4096) vas.
#[local] Instance in_pages_dec vas va' : Decision (in_pages vas va').
Proof. unfold in_pages. apply _. Defined.

Lemma unmap_ptes_spec T root p rel vas s M owed l s' l' :
  PInv s T M owed -> T !! root = Some (4%nat, p) -> Forall (fun va => 0 <= va < 2 ^ 47) vas ->
  foldl (unmap_pte root rel) (s, l) vas = (s', l') ->
  exists M' new, l' = l ++ new /\ Forall frame_addr new /\ PInv s' T M' (fun h => owed h + occ new h) /\
    framed s T s' T /\ frames s' = frames s /\
    forall root' p' va', T !! root' = Some (4%nat, p') -> 0 <= va' < 2 ^ 47 ->
      (root' = root /\ in_pages vas va' -> pte s' root' va' = None) /\
      (~ (root' = root /\ in_pages vas va') -> pte s' root' va' = pte s root' va').
Proof.
  intros HI Hr. revert s M owed l HI. induction vas as [|va vas IH]; intros s M owed l HI Hvas.
  - intros [= <- <-]. exists M, []. rewrite app_nil_r. split; [done|]. split; [done|]. split.
    { eapply PInv_owed; [exact HI|cbn; lia|]. intros g _ Hd. cbn in Hd. lia. }
    split; [apply framed_refl|]. split; [done|]. intros root' p' va' _ _. split; [|done].
    by intros [_ ?%Exists_nil].
  - apply Forall_cons in Hvas as [Hv Hvas]. cbn [foldl]. destruct (unmap_pte root rel (s, l) va) as [s1 l1] eqn:E1.
    destruct (unmap_pte_spec _ _ _ _ _ _ _ _ _ _ _ HI Hr Hv E1) as (M1 & n1 & -> & Hn1 & HI1 & F1 & Ef1 & P1).
    intros E2. destruct (IH _ _ _ _ HI1 Hvas E2) as (M2 & n2 & -> & Hn2 & HI2 & F2 & Ef2 & P2).
    exists M2, (n1 ++ n2). rewrite app_assoc. split; [done|]. split; [by apply Forall_app|]. split.
    { eapply PInv_owed; [exact HI2|intros h; cbn; rewrite occ_app; lia|].
      intros h _ Hd. exfalso. apply Hd. rewrite occ_app. lia. }
    split; [by eapply framed_trans|]. split; [congruence|]. intros root' p' va' Hr' Hv'.
    destruct (P2 root' p' va' Hr' Hv') as [Hin Hout]. rewrite (P1 root' p' va' Hr' Hv') in Hout.
    unfold in_pages. rewrite Exists_cons. fold (in_pages vas va'). split.
    + intros [-> Hor]. destruct (decide (in_pages vas va')); [by apply Hin|].
      rewrite Hout by tauto. by rewrite decide_True by tauto.
    + intros Hn. rewrite Hout by tauto. by rewrite decide_False by tauto.
Qed.

Lemma release_all T M l s owed :
  PInv s T M (fun h => owed h + occ l h) -> Forall frame_addr l ->
  (forall h, pf_managed (frames s) h -> 0 <= owed h) ->
  let s' := foldl (fun s phys => release_page phys s) s l in
  PInv s' T M owed /\ mem s' = mem s /\ framed s T s' T.
Proof.
  revert s. induction l as [|g l IH]; intros s HI Hl Hnn; cbn [foldl].
  - split; [|split; [done|apply framed_refl]]. eapply PInv_owed; [exact HI|cbn; lia|].
    intros h _ Hd. cbn in Hd. lia.
  - apply Forall_cons in Hl as [[Ha Hg] Hl].
    destruct (pf_release_law (frames s) g (pi_ok _ _ _ _ HI) ltac:(lia) Ha) as (_ & Hm & _).
    pose proof (occ_nonneg l g) as Ho.
    assert (HI1 : PInv (release_page g s) T M (fun h => owed h + occ l h)).
    { eapply PInv_owed; [eapply release_inv; [exact HI|done|done|]| |].
      - intros Hmg. specialize (Hnn g Hmg). assert (E : owed g + occ (g :: l) g = owed g + 1 + occ l g).
        { cbn. unfold ind. rewrite decide_True by done. lia. }
        pose proof (pi_count _ _ _ _ HI g Ha Hg Hmg) as Hc. cbn [occ] in *. pose proof (count_nonneg M g). split; [|lia].
        destruct (T !! g) as [[k q]|] eqn:ET; [|done]. destruct (pi_table _ _ _ _ HI _ _ _ ET) as (_ & _ & _ & _ & _ & ?).
        cbn [occ] in *. lia.
      - intros h. cbn. lia.
      - intros h _ Hd. exfalso. apply Hd. cbn. lia. }
    destruct (IH _ HI1 Hl) as (HI' & Em & Hf); [intros h Hh; apply Hnn; by apply Hm|].
    split; [done|]. split; [by rewrite Em|]. eapply framed_trans; [|exact Hf]. by constructor.
Qed.

Lemma PInv_ext s s' T M owed :
  mem s' = mem s -> frames s' = frames s -> s_tramp_phys s' = s_tramp_phys s -> PInv s T M owed -> PInv s' T M owed.
Proof.
  destruct s, s'. cbn. intros -> -> -> [H1 H2 H3 H4 H5 H6 H7 H8 H9]. constructor.
  - exact H1.
  - exact H2.
  - exact H3.
  - exact H4.
  - exact H5.
  - exact H6.
  - exact H7.
  - exact H8.
  - exact H9.
Qed.

Lemma page_range_pages start end_ va' : aligned start -> aligned end_ ->
  in_pages (page_range start end_) va' <-> start <= va' < end_.
Proof.
  unfold aligned, in_pages, page_range. intros Hs He. rewrite Exists_fmap, Exists_exists.
  pose proof (Z.div_mod start 4096 ltac:(done)) as Ds. pose proof (Z.div_mod end_ 4096 ltac:(done)) as De.
  pose proof (Z.div_mod va' 4096 ltac:(done)). pose proof (Z.mod_pos_bound va' 4096 ltac:(done)).
  assert (En : (end_ - start + 4095) / 4096 = end_ / 4096 - start / 4096).
  { symmetry. apply (Z.div_unique _ _ _ 4095); lia. }
  assert (Hd : forall i, (start + 4096 * i) / 4096 = start / 4096 + i).
  { intros i. symmetry. apply (Z.div_unique _ _ _ 0); lia. }
  setoid_rewrite elem_of_seqZ. rewrite En. split.
  - intros (i & Hi & E). cbn in E. rewrite Hd in E. lia.
  - intros Hv. exists (va' / 4096 - start / 4096). cbn. rewrite Hd. lia.
Qed.

Lemma page_range_user start end_ : 0 <= start -> end_ <= 2 ^ 47 -> aligned start -> aligned end_ ->
  Forall (fun va => 0 <= va < 2 ^ 47) (page_range start end_).
Proof.
  intros H0 He Hs Ha. apply Forall_forall. intros va Hva.
  assert (start <= va < end_); [|lia]. apply page_range_pages; [done..|]. unfold in_pages. apply Exists_exists. eauto.
Qed.

Lemma unmap_chunk_spec s T M owed root p cs ce rel :
  PInv s T M owed -> (forall h, pf_managed (frames s) h -> 0 <= owed h) -> T !! root = Some (4%nat, p) ->
  0 <= cs -> ce <= 2 ^ 47 -> aligned cs -> aligned ce ->
  let s' := unmap_chunk root cs ce rel s in
  (exists M', PInv s' T M' owed) /\ framed s T s' T /\
  forall root' p' va', T !! root' = Some (4%nat, p') -> 0 <= va' < 2 ^ 47 ->
    pte s' root' va' = if decide (root' = root /\ cs <= va' < ce) then None else pte s root' va'.
Proof.
  intros HI Hnn Hr H0 He Hs Ha. cbv zeta. unfold unmap_chunk.
  destruct (foldl (unmap_pte root rel) (s, []) (page_range cs ce)) as [s1 l] eqn:E1.
  destruct (unmap_ptes_spec _ _ _ _ _ _ _ _ _ _ _ HI Hr (page_range_user _ _ H0 He Hs Ha) E1) as (M1 & n & -> & Hn & HI1 & F1 & Ef & P1).
  set (s2 := smp_tlb_flush_range_pml4 root cs (u64 (ce - cs)) s1). cbn [app].
  assert (HI2 : PInv s2 T M1 (fun h => owed h + occ n h)) by (by apply (PInv_ext s1)).
  assert (F2 : framed s T s2 T) by (eapply framed_trans; [exact F1|]; by constructor).
  destruct (release_all T M1 n s2 owed HI2 Hn) as (HI3 & Em & F3); [intros h; cbn; rewrite Ef; apply Hnn|].
  generalize dependent (foldl (fun s phys => release_page phys s) s2 n). intros s3 HI3 Em F3.
  split; [eauto|]. split; [by eapply framed_trans|]. intros root' p' va' Hr' Hv'.
  transitivity (pte s1 root' va'); [unfold pte, walk, child, word; by rewrite Em|].
  destruct (P1 root' p' va' Hr' Hv') as [Hin Hout]. rewrite page_range_pages in Hin, Hout by done.
  case_decide; [by apply Hin|by apply Hout].
Qed.

Lemma unmap_chunks_spec T root p rel owed end_ : T !! root = Some (4%nat, p) -> end_ <= 2 ^ 47 -> aligned end_ ->
  forall fuel s M cs, PInv s T M owed -> (forall h, pf_managed (frames s) h -> 0 <= owed h) ->
  0 <= cs <= end_ -> aligned cs -> end_ - cs <= Z.of_nat fuel * 262144 ->
  exists s' M', unmap_chunks fuel root cs end_ rel s = Some s' /\ PInv s' T M' owed /\ framed s T s' T /\
  forall root' p' va', T !! root' = Some (4%nat, p') -> 0 <= va' < 2 ^ 47 ->
    pte s' root' va' = if decide (root' = root /\ cs <= va' < end_) then None else pte s root' va'.
Proof.
  intros Hr He Hae. induction fuel as [|fuel IH]; intros s M cs HI Hnn Hc Hac Hfuel; cbn [unmap_chunks];
    destruct (Z.leb_spec end_ cs); [|lia| |].
  1, 2: exists s, M; split; [done|]; split; [done|]; split; [apply framed_refl|]; intros; rewrite decide_False; [done|lia].
  assert (Hce : exists ce, (if end_ <? u64 (cs + 64 * 4096) then end_ else u64 (cs + 64 * 4096)) = ce /\
    aligned ce /\ cs <= ce <= end_ /\ end_ - ce <= Z.of_nat fuel * 262144).
  { eexists. split; [done|]. rewrite u64_id by lia. destruct (Z.ltb_spec end_ (cs + 64 * 4096)); [split; [done|lia]|].
    split; [|lia]. unfold aligned in *. rewrite Z.add_mod, Hac by done. done. }
  destruct Hce as (ce & -> & Hace & Hce & Hf').
  destruct (unmap_chunk_spec s T M owed root p cs ce rel HI Hnn Hr) as ([M1 HI1] & F1 & P1); [lia|lia|done|done|].
  destruct (IH _ M1 ce HI1) as (s' & M' & E & HI' & F' & P'); [|lia|done|done|].
  { intros h. rewrite (fr_managed _ _ _ _ F1). apply Hnn. }
  exists s', M'. split; [done|]. split; [done|]. split; [by eapply framed_trans|]. intros root' p' va' Hr' Hv'.
  rewrite (P' root' p') by done. rewrite (P1 root' p') by done. repeat case_decide; try done; exfalso; lia.
Qed.

(** ** Copy on write *)

Lemma word_copy_page dst src s f j : aligned dst -> aligned f -> 0 <= j < 512 ->
  word (copy_page dst src s) (f + 8 * j) = if decide (f = dst) then word s (src + 8 * j) else word s (f + 8 * j).
Proof.
  intros Ha Hf Hj. unfold word, copy_page. cbn. case_decide as E.
  - subst. apply (fill_words_in _ dst (fun i => load (mem s) (src + 8 * i))). apply elem_of_seqZ. lia.
  - apply fill_words_out. intros i Hi%elem_of_seqZ Heq. apply slot_inj in Heq; done || lia.
Qed.

(** Memory outside the tables is of no concern to the invariant. *)
Lemma data_write_inv s s' T M owed :
  PInv s T M owed -> frames s' = frames s -> s_tramp_phys s' = s_tramp_phys s ->
  (forall f l p j, T !! f = Some (l, p) -> 0 <= j < 512 -> word s' (f + 8 * j) = word s (f + 8 * j)) ->
  PInv s' T M owed /\
  forall root p va, T !! root = Some (4%nat, p) -> 0 <= va < 2 ^ 47 -> pte s' root va = pte s root va.
Proof.
  intros HI Ef Et Hw. pose proof HI as [H1 H2 H3 H4 H5 H6 H7 H8 H9].
  assert (Hd : forall f l p i, T !! f = Some (S l, p) -> (1 <= l)%nat -> 0 <= i < limit (S l) ->
     word s' (f + 8 * i) = word s (f + 8 * i)).
  { intros f l p i Hf _ Hi. pose proof (limit_le (S l)). apply (Hw _ _ _ _ Hf). lia. }
  assert (Hpte : forall root p va, T !! root = Some (4%nat, p) -> 0 <= va < 2 ^ 47 -> pte s' root va = pte s root va).
  { intros root p va Hr Hv. unfold pte. rewrite (walk_frame s s' T M owed root p va) by done.
    destruct (walk s root va) as [ea|] eqn:Ew; [|done]. cbn.
    destruct (walk_tables _ _ _ _ _ _ _ _ HI Hr Hv Ew) as (f3 & f2 & f1 & _ & _ & K1 & ->).
    by rewrite (Hw f1 _ _ _ K1) by (by apply index_range). }
  assert (Htr : forall g, is_tramp s' g <-> is_tramp s g) by (intros g; unfold is_tramp; by rewrite Et).
  split; [|done]. constructor; rewrite ?Ef; try done.
  - intros f l p i Hf Hl Hi. rewrite (Hd f l p i) by done. by apply (H3 f l p i).
  - intros a g. rewrite H4. split; intros (f & p & i & Hf & Hi & -> & Hm); exists f, p, i;
      rewrite (Hw f _ _ _ Hf Hi) in *; rewrite (maps_tramp s s') in *; done.
  - intros g. rewrite Htr. apply H8.
  - intros root p va e Hr Hv. rewrite (Hpte root p va Hr Hv), Htr. by apply (H9 root p).
Qed.

(** The state in which no reference is still to be taken. *)
Definition Spaces (s : state) (T : tables) (M : gmap Z Z) (owed : Z -> Z) : Prop :=
  PInv s T M owed /\ forall h, pf_managed (frames s) h -> 0 <= owed h.

(** A translation leads to the trampoline or is counted in [M]. *)
Lemma pte_cases s T M owed root p va e :
  PInv s T M owed -> T !! root = Some (4%nat, p) -> 0 <= va < 2 ^ 47 -> pte s root va = Some e ->
  is_tramp s (get_table_ptr e) \/ exists ea, walk s root va = Some ea /\ M !! ea = Some (get_table_ptr e).
Proof.
  intros HI Hr Hv He. destruct (decide (is_tramp s (get_table_ptr e))) as [Ht|Ht]; [by left|right].
  unfold pte in He. apply bind_Some in He as (ea & Hw & He). destruct (has _ PAGE_PRESENT) eqn:Ep; [|done]. injection He as <-.
  exists ea. split; [done|]. pose proof (walk_tables _ _ _ _ _ _ _ _ HI Hr Hv Hw) as (f3 & f2 & f1 & _ & _ & H1 & E).
  apply (pi_leaf _ _ _ _ HI). exists f1, (f2 + 8 * index 21 va), (index 12 va).
  split; [done|]. split; [by apply index_range|]. split; [done|]. unfold maps. rewrite Ep. cbn. by rewrite bool_decide_true.
Qed.

(** A frame that only the leaf entry at [ea] maps. *)
Lemma sole_mapper s T M owed root p va ea g :
  PInv s T M owed -> T !! root = Some (4%nat, p) -> 0 <= va < 2 ^ 47 -> walk s root va = Some ea ->
  M !! ea = Some g -> count M g = 1 -> ~ is_tramp s g ->
  forall root' p' va' e, T !! root' = Some (4%nat, p') -> 0 <= va' < 2 ^ 47 -> pte s root' va' = Some e ->
    get_table_ptr e = g -> root' = root /\ va' / 4096 = va / 4096.
Proof.
  intros HI Hr Hv Hw Hm Hc Ht root' p' va' e Hr' Hv' He <-.
  destruct (pte_cases _ _ _ _ _ _ _ _ HI Hr' Hv' He) as [?|(ea' & Hw' & Hm')]; [done|].
  destruct (decide (ea' = ea)) as [->|Hne]; [exact (walk_inj _ _ _ _ _ _ _ _ _ _ _ HI Hr' Hr Hv' Hv Hw' Hw)|].
  pose proof (count_delete M ea (get_table_ptr e)) as Hd. unfold ind in Hd. rewrite decide_True in Hd by done.
  assert (1 <= count (delete ea M) (get_table_ptr e)); [|lia]. apply (count_pos _ ea'). by rewrite lookup_delete_ne.
Qed.

(** The bits a fault must keep. *)
Definition KEPT : Z := not64 (Z.lor (Z.lor PTE_PHYS_MASK PAGE_WRITE) PAGE_COW).

Lemma own_entry e : has e PAGE_PRESENT = true ->
  let e' := Z.land (Z.lor e PAGE_WRITE) (not64 PAGE_COW) in
  get_table_ptr e' = get_table_ptr e /\ has e' PAGE_PRESENT = true /\
  has e' PAGE_WRITE = true /\ has e' PAGE_COW = false /\ Z.land e' KEPT = Z.land e KEPT.
Proof.
  intros Ep. cbv zeta. unfold get_table_ptr. rewrite <- !Z.land_assoc.
  change (Z.land (not64 PAGE_COW) PTE_PHYS_MASK) with PTE_PHYS_MASK. change (Z.land (not64 PAGE_COW) KEPT) with KEPT.
  rewrite !Z.land_lor_distr_l, !Z.lor_0_r. bits. rewrite Ep. cbn. by rewrite !orb_true_r, andb_false_r.
Qed.

Lemma copy_entry a e : has e PAGE_PRESENT = true ->
  let e' := Z.land (Z.lor (Z.lor (Z.land a PTE_PHYS_MASK) (Z.land e (not64 PTE_PHYS_MASK))) PAGE_WRITE) (not64 PAGE_COW) in
  get_table_ptr e' = get_table_ptr a /\ has e' PAGE_PRESENT = true /\
  has e' PAGE_WRITE = true /\ has e' PAGE_COW = false /\ Z.land e' KEPT = Z.land e KEPT.
Proof.
  intros Ep. cbv zeta. unfold get_table_ptr. rewrite <- !Z.land_assoc.
  change (Z.land (not64 PAGE_COW) PTE_PHYS_MASK) with PTE_PHYS_MASK. change (Z.land (not64 PAGE_COW) KEPT) with KEPT.
  rewrite !Z.land_lor_distr_l, <- !Z.land_assoc.
  change (Z.land PTE_PHYS_MASK PTE_PHYS_MASK) with PTE_PHYS_MASK. change (Z.land (not64 PTE_PHYS_MASK) PTE_PHYS_MASK) with 0.
  change (Z.land PTE_PHYS_MASK KEPT) with 0. change (Z.land (not64 PTE_PHYS_MASK) KEPT) with KEPT.
  change (Z.land PAGE_WRITE PTE_PHYS_MASK) with 0. change (Z.land PAGE_WRITE KEPT) with 0.
  rewrite !Z.land_0_r, !Z.lor_0_r, Z.lor_0_l. bits. rewrite Ep. cbn. by rewrite !orb_true_r, !andb_false_r.
Qed.

(** A resolved fault on the page of [va]: the entry [e] became the writable
    [e'], whose frame holds what that of [e] held and is mapped nowhere else. *)
Record resolved (s : state) (T : tables) (root va e : Z) (s' : state) (e' : Z) : Prop := {
  rs_write : has e' PAGE_WRITE = true /\ has e' PAGE_COW = false /\ Z.land e' KEPT = Z.land e KEPT;
  rs_pte : forall root' p' va', T !! root' = Some (4%nat, p') -> 0 <= va' < 2 ^ 47 ->
    pte s' root' va' = if decide (root' = root /\ va' / 4096 = va / 4096) then Some e' else pte s root' va';
  rs_contents : forall j, 0 <= j < 512 ->
    word s' (get_table_ptr e' + 8 * j) = word s (get_table_ptr e + 8 * j);
  rs_others : forall root' p' va' x j, T !! root' = Some (4%nat, p') -> 0 <= va' < 2 ^ 47 ->
    pte s root' va' = Some x -> 0 <= j < 512 ->
    word s' (get_table_ptr x + 8 * j) = word s (get_table_ptr x + 8 * j);
  rs_private : pf_managed (frames s) (get_table_ptr e') ->
    forall root' p' va' x, T !! root' = Some (4%nat, p') -> 0 <= va' < 2 ^ 47 ->
      pte s' root' va' = Some x -> get_table_ptr x = get_table_ptr e' -> root' = root /\ va' / 4096 = va / 4096;
  rs_frames : (forall g, pf_managed (frames s') g <-> pf_managed (frames s) g) /\
    (get_table_ptr e' = get_table_ptr e \/ pf_managed (frames s) (get_table_ptr e') /\ get_table_ptr e' ≠ 0)
}.

Lemma pte_data s T M owed root p va e :
  PInv s T M owed -> T !! root = Some (4%nat, p) -> 0 <= va < 2 ^ 47 -> pte s root va = Some e ->
  T !! get_table_ptr e = None.
Proof.
  intros HI Hr Hv He. destruct (pte_cases _ _ _ _ _ _ _ _ HI Hr Hv He) as [Ht|(ea & _ & HM)].
  - by apply (pi_tramp _ _ _ _ HI).
  - by apply (pi_data _ _ _ _ HI ea).
Qed.

(** The last mapper of a frame just becomes its owner. *)
Lemma cow_last s T M owed root p va ea :
  let e := word s ea in
  let e' := Z.land (Z.lor e PAGE_WRITE) (not64 PAGE_COW) in
  Spaces s T M owed -> T !! root = Some (4%nat, p) -> 0 <= va < 2 ^ 47 -> walk s root va = Some ea ->
  has e PAGE_PRESENT = true -> pmap_is_trampoline_va va = false -> pf_refcount (frames s) (get_table_ptr e) <= 1 ->
  (exists M', Spaces (set_word ea e' s) T M' owed) /\ resolved s T root va e (set_word ea e' s) e'.
Proof.
  intros e e' [HI Hnn] Hr Hv Hw Ep Hnt Hrc. pose proof (pte_mapped _ _ _ _ _ _ _ _ HI Hr Hv Hw Ep Hnt) as HM. fold e in HM.
  pose proof (walk_tables _ _ _ _ _ _ _ _ HI Hr Hv Hw) as (f3 & f2 & f1 & _ & _ & H1 & Ee).
  assert (Hnt' : ~ is_tramp s (get_table_ptr e)).
  { apply (pi_leaf _ _ _ _ HI) in HM as (? & ? & ? & _ & _ & _ & E). by apply maps_frame in E as (_ & _ & ?). }
  destruct (own_entry e Ep) as (Eg & Ep' & Ebits). fold e' in Eg, Ep', Ebits. clearbody e' e.
  assert (Em : maps s e' = Some (get_table_ptr e)) by (unfold maps; rewrite Ep', Eg; cbn; by rewrite bool_decide_true).
  assert (HI1 : PInv (set_word ea e' s) T (upd ea (Some (get_table_ptr e)) M) owed).
  { eapply PInv_owed; [|intros h; reflexivity|by intros]. rewrite <- Em.
    pose proof (leaf_write_inv s T M owed f1 _ (index 12 va) e' HI H1 ltac:(by apply index_range)) as HL. rewrite <- Ee, HM, Em in HL.
    eapply PInv_owed; [rewrite Em; apply HL| |].
    - intros g [= <-]. split; [by apply (pi_data _ _ _ _ HI ea)|]. intros Hm. by apply (mapped_live _ _ _ _ ea _ HI HM).
    - intros root' p' va' _ _ _ _. rewrite Eg. done.
    - intros h. unfold ind. repeat case_decide; congruence || lia.
    - intros h _ Hd. exfalso. apply Hd. unfold ind. repeat case_decide; congruence || lia. }
  assert (Hfr : framed s T (set_word ea e' s) T) by (rewrite Ee; eapply framed_word; [done..|by apply index_range]).
  split; [eexists; split; [exact HI1|done]|]. constructor.
  - exact Ebits.
  - intros root' p' va' Hr' Hv'. rewrite (pte_update s T M owed root p va ea e' root' p' va') by done. by rewrite Ep'.
  - intros j Hj. rewrite Eg. apply (fr_mem _ _ _ _ Hfr); [by apply (pi_data _ _ _ _ HI ea)|apply get_table_ptr_range|done].
  - intros root' p' va' x j Hr' Hv' Hx Hj. apply (fr_mem _ _ _ _ Hfr); [|apply get_table_ptr_range|done]. exact (pte_data _ _ _ _ _ _ _ _ HI Hr' Hv' Hx).
  - rewrite Eg. intros Hm. eapply (sole_mapper _ _ _ _ root p va ea); [exact HI1|done|done| | | |done].
    + rewrite Ee. erewrite walk_leaf_write by (done || by apply index_range). by rewrite <- Ee.
    + by rewrite lookup_upd, decide_True.
    + destruct (get_table_ptr_range e) as [Ha Hg]. pose proof (pi_count _ _ _ _ HI _ Ha Hg Hm).
      specialize (Hnn _ Hm). pose proof (count_pos _ _ _ HM). rewrite count_upd, HM. lia.
  - split; [done|by left].
Qed.

(** Otherwise a fresh frame [a] takes the contents over. *)
Section CowCopy.
Context (s : state) (T : tables) (M : gmap Z Z) (owed : Z -> Z) (root p va ea : Z) (s1 : state) (a : Z).
Hypothesis HS : Spaces s T M owed.
Hypothesis Hr : T !! root = Some (4%nat, p).
Hypothesis Hv : 0 <= va < 2 ^ 47.
Hypothesis Hw : walk s root va = Some ea.
Hypothesis Ep : has (word s ea) PAGE_PRESENT = true.
Hypothesis Hnt : pmap_is_trampoline_va va = false.
Hypothesis Ea : alloc_page s = (s1, a).
Hypothesis Eno : no_page a = false.

Let e : Z := word s ea.
Let old : Z := get_table_ptr e.
Let e' : Z := Z.land (Z.lor (Z.lor (Z.land a PTE_PHYS_MASK) (Z.land e (not64 PTE_PHYS_MASK))) PAGE_WRITE) (not64 PAGE_COW).
Let s2 : state := copy_page a old s1.
Let s' : state := release_page old (set_word ea e' s2).

Let HI : PInv s T M owed := proj1 HS.

Lemma cow_old : M !! ea = Some old.
Proof. exact (pte_mapped _ _ _ _ _ _ _ _ HI Hr Hv Hw Ep Hnt). Qed.

Lemma cow_alloc :
  s1 = s <| frames := frames s1 |> /\ T !! a = None /\ aligned a /\ 0 < a < 2 ^ 52 /\
  pf_refcount (frames s1) a = 1 /\ ~ is_tramp s a /\ count M a = 0 /\
  PInv s1 T M (fun h => owed h + ind (h = a)) /\ grown s T s1 T.
Proof.
  destruct (alloc_inv _ _ _ _ _ _ HI Ea) as [Es1 Hal]. rewrite Eno in Hal.
  destruct Hal as (? & ? & ? & _ & ? & ? & ? & _ & ? & _). destruct (grown_alloc _ _ _ _ _ _ HI Ea) as [? _]. done.
Qed.

Lemma cow_entry :
  get_table_ptr e' = a /\ has e' PAGE_PRESENT = true /\
  has e' PAGE_WRITE = true /\ has e' PAGE_COW = false /\ Z.land e' KEPT = Z.land e KEPT.
Proof.
  destruct cow_alloc as (_ & _ & Ha & Hb & _). destruct (copy_entry a e Ep) as (Eg & ?).
  rewrite (get_table_ptr_id a) in Eg by (done || lia). done.
Qed.

(** The copy touches no table. *)
Lemma cow_copied :
  PInv s2 T M (fun h => owed h + ind (h = a)) /\ walk s2 root va = Some ea /\
  (forall g, is_tramp s2 g <-> is_tramp s g) /\
  forall root' p' va', T !! root' = Some (4%nat, p') -> 0 <= va' < 2 ^ 47 -> pte s2 root' va' = pte s root' va'.
Proof.
  destruct cow_alloc as (Es1 & Ht & Ha & _ & _ & _ & _ & HI1 & _).
  assert (Hdata : forall f l q j, T !! f = Some (l, q) -> 0 <= j < 512 -> word s2 (f + 8 * j) = word s1 (f + 8 * j)).
  { intros f l q j Hf Hj. unfold s2. rewrite word_copy_page, decide_False; [done|congruence|done| |done].
    apply (pi_table _ _ _ _ HI _ _ _ Hf). }
  destruct (data_write_inv s1 s2 T M _ HI1) as [HI2 Hpte2]; [done|done|exact Hdata|]. split; [done|]. split.
  { rewrite <- Hw. eapply walk_frame; [exact HI|done..|]. intros f l q j Hf Hl Hj. pose proof (limit_le (S l)).
    rewrite (Hdata f _ q) by (done || lia). by rewrite Es1. }
  split; [intros g; unfold s2; by rewrite Es1|].
  intros root' p' va' Hr' Hv'. rewrite (Hpte2 root' p' va') by done. by rewrite Es1.
Qed.

Lemma cow_copy_inv : PInv s' T (upd ea (Some a) M) owed.
Proof.
  destruct cow_alloc as (Es1 & Ht & Ha & Hb & Hrc & Htr & Hc & _ & G1). pose proof cow_old as HM.
  destruct cow_entry as (Eg & Ep' & _). destruct cow_copied as (HI2 & _ & Htr2 & _).
  pose proof (walk_tables _ _ _ _ _ _ _ _ HI Hr Hv Hw) as (f3 & f2 & f1 & _ & _ & H1 & Ee).
  destruct (get_table_ptr_range e) as [Hao Hro]. fold old in Hao, Hro.
  assert (Hold : old ≠ a) by (intros E; rewrite E in HM; apply count_pos in HM; lia).
  assert (Em : maps s2 e' = Some a).
  { unfold maps. rewrite Ep', Eg. cbn [andb]. rewrite bool_decide_true; [done|]. by rewrite Htr2. }
  assert (HI3 : PInv (set_word ea e' s2) T (upd ea (Some a) M) (fun h => owed h + ind (h = old))).
  { pose proof (leaf_write_inv s2 T M _ f1 _ (index 12 va) e' HI2 H1 ltac:(by apply index_range)) as HL. rewrite <- Ee, HM, Em in HL.
    eapply PInv_owed; [apply HL| |].
    - intros g [= <-]. split; [done|]. intros _. change (frames s2) with (frames s1). lia.
    - intros root' p' va' _ _ _ _. rewrite Eg, Htr2. done.
    - intros h. unfold ind. repeat case_decide; congruence || lia.
    - intros h _ Hd. exfalso. apply Hd. unfold ind. repeat case_decide; congruence || lia. }
  eapply PInv_owed; [eapply release_inv; [exact HI3|done|done|]| |].
  - change (frames (set_word ea e' s2)) with (frames s1). rewrite (gr_managed _ _ _ _ G1). intros Hm.
    destruct (mapped_live _ _ _ _ _ _ HI HM Hm) as [? Hrf]. rewrite (gr_refs _ _ _ _ G1) by done. pose proof (proj2 HS _ Hm).
    split; [done|]. split; [lia|]. intros _. unfold ind. rewrite decide_True by done. lia.
  - intros h. unfold ind. case_decide; lia.
  - intros h _ Hd. exfalso. apply Hd. unfold ind. case_decide; lia.
Qed.

Lemma cow_copy : (exists M', Spaces s' T M' owed) /\ resolved s T root va e s' e'.
Proof.
  pose proof cow_copy_inv as HI4. destruct cow_alloc as (Es1 & Ht & Ha & Hb & Hrc & Htr & Hc & HI1 & G1).
  destruct cow_entry as (Eg & Ep' & Ebits). destruct cow_copied as (HI2 & Hw2 & Htr2 & Hpte2).
  pose proof (walk_tables _ _ _ _ _ _ _ _ HI Hr Hv Hw) as (f3 & f2 & f1 & _ & _ & H1 & Ee).
  pose proof (framed_word _ _ _ _ _ _ _ e' HI2 H1 (index_range 12 va ltac:(done))) as Hfr. rewrite <- Ee in Hfr.
  destruct (get_table_ptr_range e) as [Hao Hro]. fold old in Hao, Hro. split; [|constructor].
  - eexists. split; [exact HI4|]. intros h Hm. apply (proj2 HS), (gr_managed _ _ _ _ G1).
    by apply (pf_release_law (frames s1) old (pi_ok _ _ _ _ HI1) ltac:(lia) Hao) in Hm.
  - exact Ebits.
  - intros root' p' va' Hr' Hv'. change (pte s' root' va') with (pte (set_word ea e' s2) root' va').
    rewrite (pte_update s2 T M _ root p va ea e' root' p' va' HI2) by done. rewrite Ep'. case_decide; [done|by apply (Hpte2 root' p')].
  - intros j Hj. rewrite Eg. fold old. change (word (set_word ea e' s2) (a + 8 * j) = word s (old + 8 * j)).
    rewrite (fr_mem _ _ _ _ Hfr) by done. unfold s2. rewrite word_copy_page, decide_True by done. by rewrite Es1.
  - intros root' p' va' x j Hr' Hv' Hx Hj. destruct (get_table_ptr_range x) as [Hax Hrx].
    change (word (set_word ea e' s2) (get_table_ptr x + 8 * j) = word s (get_table_ptr x + 8 * j)).
    rewrite (fr_mem _ _ _ _ Hfr); [|exact (pte_data _ _ _ _ _ _ _ _ HI Hr' Hv' Hx)|done|done].
    unfold s2. rewrite word_copy_page, decide_False; [by rewrite Es1| |done..]. intros E.
    destruct (pte_cases _ _ _ _ _ _ _ _ HI Hr' Hv' Hx) as [Hx'|(ea' & _ & HM')]; rewrite E in *; [done|].
    apply count_pos in HM'. lia.
  - rewrite Eg. intros Hm. eapply (sole_mapper _ _ _ _ root p va ea); [exact HI4|done|done| | | |].
    + change (walk (set_word ea e' s2) root va = Some ea). rewrite Ee. erewrite walk_leaf_write by (done || by apply index_range). by rewrite <- Ee.
    + by rewrite lookup_upd, decide_True.
    + rewrite count_upd, Hc. pose proof cow_old as HM. rewrite HM. unfold ind.
      rewrite (decide_True (P := Some a = Some a)), decide_False; [done| |done].
      intros [= E]. rewrite E in HM. apply count_pos in HM. lia.
    + change (~ is_tramp s2 a). by rewrite Htr2.
  - destruct (alloc_inv _ _ _ _ _ _ HI Ea) as [_ Hal]. rewrite Eno in Hal. destruct Hal as (_ & _ & _ & Hma & _).
    split; [|right; rewrite Eg; split; [by apply (gr_managed _ _ _ _ G1)|lia]]. intros g.
    rewrite <- (gr_managed _ _ _ _ G1 g). by apply (pf_release_law (frames s1) old (pi_ok _ _ _ _ HI1) ltac:(lia) Hao).
Qed.
End CowCopy.
End Spec.
End PmapSpec.
