(* ===== verification/PmapFork.v ===== *)
(** * New address spaces

    [pmap_create], [pmap_trampoline_install] and [pmap_clone_user_space].  A fork
    visits the user pages of the parent in address order; the loop invariant
    says that the pages below the current one are shared copy-on-write and the
    rest are untouched. *)

From S2P Require Import Prelude Pmm Pmap PmapInv PmapMap PmapSpec.
Import Pmap PmapInv PmapMap PmapSpec.

Module PmapFork.

Section Fork.
Context {F : Type} `{PageFrames F}.
Notation state := (pmap F).
Implicit Types (s : state) (T : tables) (M : gmap Z Z) (owed : Z -> Z).

(** ** A new root *)

Lemma add_root s T M owed a :
  PInv s T M owed -> T !! a = None -> aligned a -> 0 < a < 2 ^ 52 -> pf_managed (frames s) a ->
  0 < pf_refcount (frames s) a -> owed a = 1 -> count M a = 0 -> ~ is_tramp s a ->
  (forall j, 0 <= j < 256 -> word s (a + 8 * j) = 0) ->
  PInv s (<[a := (4%nat, 0)]> T) M (fun h => owed h - ind (h = a)) /\ forall va, 0 <= va < 2 ^ 47 -> pte s a va = None.
Proof.
  intros HI Ht Ha Hb Hm Hrc Ho Hc Htr Hz. pose proof HI as [H1 H2 H3 H4 H5 H6 H7 H8 H9].
  assert (Hnone : forall va, 0 <= va < 2 ^ 47 -> pte s a va = None).
  { intros va Hv. unfold pte, walk, child. by rewrite Hz by (by apply index_top). }
  split; [|done]. constructor; try done.
  - intros f l p. rewrite lookup_insert_Some. unfold ind. intros [[<- [= <- <-]]|[Hne Hf]].
    + rewrite decide_True by done. split_and!; done || lia.
    + rewrite decide_False by done. rewrite Z.sub_0_r. by apply (H2 f l p).
  - intros f l p i. rewrite lookup_insert_Some. intros [[<- [= <- <-]]|[Hne Hf]] Hl Hi Hp.
    + rewrite Hz in Hp by (cbn in Hi; lia). done.
    + destruct (H3 f l p i Hf Hl Hi Hp) as (? & ? & ?). rewrite lookup_insert_ne by congruence. done.
  - intros x g. rewrite H4. split; intros (f & p & i & Hf & Hi & -> & Hmp); exists f, p, i.
    + rewrite lookup_insert_ne by congruence. done.
    + apply lookup_insert_Some in Hf as [[_ [=]]|[_ Hf]]. done.
  - intros x g Hx. rewrite lookup_insert_ne; [by apply (H5 x)|]. intros <-. apply count_pos in Hx. lia.
  - intros g Hag Hg Hmg H0. specialize (H6 g Hag Hg Hmg H0). unfold ind. case_decide; subst; lia.
  - intros g Hag Hg Hmg. specialize (H7 g Hag Hg Hmg). unfold ind. case_decide; lia.
  - intros g Hg. destruct (H8 g Hg) as (? & ? & ? & ? & ?). rewrite lookup_insert_ne by (by intros <-).
    unfold ind. rewrite decide_False by (by intros ->). split_and!; done || lia.
  - intros root p va e Hr Hv. destruct (decide (root = a)) as [->|Hne]; [by rewrite Hnone|].
    rewrite lookup_insert_ne in Hr by done. by apply (H9 root p).
Qed.

Lemma copy_kernel_word dst src s f j : aligned dst -> 0 <= dst < 2 ^ 52 -> aligned f -> 0 <= j < 512 ->
  word (copy_kernel_half dst src s) (f + 8 * j) =
    if decide (f = dst /\ 256 <= j) then word s (slot src j) else word s (f + 8 * j).
Proof.
  intros Ha Hb Hf Hj. unfold word, copy_kernel_half. cbn. rewrite get_table_ptr_id by done. case_decide as E.
  - destruct E as [-> ?]. apply (fill_words_in _ dst (fun i => load (mem s) (slot src i))). apply elem_of_seqZ. lia.
  - apply fill_words_out. intros i Hi%elem_of_seqZ Heq. apply slot_inj in Heq; done || lia.
Qed.

(** The root table both [pmap_create] and [pmap_clone_user_space] start from. *)
Lemma new_root s T M owed s1 a src :
  PInv s T M owed -> alloc_page s = (s1, a) -> no_page a = false ->
  let s' := copy_kernel_half a src (set_page (get_table_ptr a) 0 s1) in
  T !! a = None /\ aligned a /\ 0 < a < 2 ^ 52 /\
  PInv s' (<[a := (4%nat, 0)]> T) M owed /\ frames s' = frames s1 /\ s_tramp_phys s' = s_tramp_phys s /\
  (forall root p va, T !! root = Some (4%nat, p) -> 0 <= va < 2 ^ 47 -> pte s' root va = pte s root va) /\
  (forall va, 0 <= va < 2 ^ 47 -> pte s' a va = None) /\
  (forall f j, aligned f -> f ≠ a -> 0 <= j < 512 -> word s' (f + 8 * j) = word s (f + 8 * j)).
Proof.
  intros HI Ea Eno. cbv zeta. destruct (alloc_inv _ _ _ _ _ _ HI Ea) as [Es1 Hal]. rewrite Eno in Hal.
  destruct Hal as (Ht & Ha & Hb & Hm & Hrc & Htr & Hc & Ho & HI1 & _). rewrite (get_table_ptr_id a) by (done || lia).
  set (s' := copy_kernel_half a src (set_page a 0 s1)).
  assert (Hw : forall f j, aligned f -> f ≠ a -> 0 <= j < 512 -> word s' (f + 8 * j) = word s1 (f + 8 * j)).
  { intros f j Hf Hne Hj. unfold s'. rewrite copy_kernel_word by (done || lia). rewrite decide_False by tauto.
    by rewrite word_set_page, decide_False. }
  destruct (data_write_inv s1 s' T M _ HI1) as [HI2 Hpte]; [done|done| |].
  { intros f l p j Hf Hj. apply Hw; [|congruence|done]. apply (pi_table _ _ _ _ HI _ _ _ Hf). }
  destruct (add_root s' T M _ a HI2) as [HI3 Hnone]; try done.
  - change (frames s') with (frames s1). lia.
  - unfold ind. rewrite decide_True by done. lia.
  - change (~ is_tramp s1 a). by rewrite Es1.
  - intros j Hj. unfold s'. rewrite copy_kernel_word by (done || lia). rewrite decide_False by lia.
    by rewrite word_set_page, decide_True by (done || lia).
  - do 3 (split; [done|]). split.
    { eapply PInv_owed; [exact HI3|intros h; unfold ind; case_decide; lia|].
      intros h _ Hd. exfalso. apply Hd. unfold ind. case_decide; lia. }
    split; [done|]. split; [change (s_tramp_phys s1 = s_tramp_phys s); by rewrite Es1|]. split.
    { intros root p va Hr Hv. rewrite (Hpte root p va) by done. by rewrite Es1. }
    split; [done|]. intros f j Hf Hne Hj. rewrite Hw by done. by rewrite Es1.
Qed.

(** ** The signal trampoline *)

Lemma set_tramp_inv s T M owed a :
  PInv s T M owed -> s_tramp_phys s = 0 -> T !! a = None -> aligned a -> 0 < a < 2 ^ 52 -> pf_managed (frames s) a ->
  count M a = 0 -> owed a + 1 <= pf_refcount (frames s) a ->
  PInv (s <| s_tramp_phys := a |>) T M owed.
Proof.
  intros HI E0 Ht Ha Hb Hm Hc Hrc. pose proof HI as [H1 H2 H3 H4 H5 H6 H7 H8 H9].
  assert (Hno : forall g, ~ is_tramp s g) by (unfold is_tramp; rewrite E0; tauto).
  set (s' := s <| s_tramp_phys := a |>). assert (Htr : forall g, is_tramp s' g <-> g = a) by (unfold is_tramp; cbn; lia).
  assert (Hmaps : forall w g, maps s' w = Some g <-> maps s w = Some g /\ g ≠ a).
  { intros w g. unfold maps. destruct (has w PAGE_PRESENT); cbn [andb]; [|naive_solver].
    rewrite (bool_decide_true (~ is_tramp s _)) by done. case_bool_decide as E; rewrite Htr in E; naive_solver. }
  assert (Hna : forall x, M !! x ≠ Some a) by (intros x Hx%count_pos; lia).
  constructor; try done.
  - intros x g. rewrite H4. split; intros (f & p & i & Hf & Hi & -> & Hmp); exists f, p, i.
    + split; [done|]. split; [done|]. split; [done|]. apply Hmaps. split; [done|]. intros ->.
      apply (Hna (f + 8 * i)). apply H4. by exists f, p, i.
    + apply Hmaps in Hmp as [Hmp _]. done.
  - intros g Hg%Htr. subst g. done.
  - intros root p va e Hr Hv He Hg%Htr.
    destruct (pte_cases _ _ _ _ _ _ _ _ HI Hr Hv He) as [?|(ea & _ & HM)]; [by destruct (Hno _ H0)|].
    rewrite Hg in HM. by destruct (Hna ea).
Qed.

Lemma trampoline_word a s f j : aligned a -> aligned f -> f ≠ a -> 0 <= j < 512 ->
  load (store_bytes a s_tramp_code (fill_words a (fun _ => 0x9090909090909090) (seqZ 0 512) (mem s))) (f + 8 * j)
    = word s (f + 8 * j).
Proof.
  intros Ha Hf Hne Hj. rewrite store_bytes_out.
  - apply fill_words_out. intros i Hi%elem_of_seqZ Heq. apply slot_inj in Heq; done || lia.
  - change (Z.of_nat (length s_tramp_code)) with 20. intros i Hi Heq.
    assert (E : 8 * ((a + i) / 8) = a + 8 * (i / 8)).
    { unfold aligned in Ha. pose proof (Z.div_mod a 4096 ltac:(done)).
      replace (a + i) with (i + (512 * (a / 4096)) * 8) by lia. rewrite Z.div_add by done. lia. }
    rewrite E in Heq. pose proof (Z.div_mod i 8 ltac:(done)). pose proof (Z.mod_pos_bound i 8 ltac:(done)).
    apply slot_inj in Heq; [by destruct Heq|done|done|lia|done].
Qed.

(** A frame outside the allocator, or with references. *)
Definition live (s : state) (f : Z) : Prop := pf_managed (frames s) f -> 0 < pf_refcount (frames s) f.

#[local] Opaque store_bytes fill_words s_tramp_code.

Lemma trampoline_page_spec s T M owed s' ok :
  PInv s T M owed -> trampoline_page s = (s', ok) ->
  PInv s' T M owed /\ (forall g, pf_managed (frames s') g <-> pf_managed (frames s) g) /\
  (forall root p va, T !! root = Some (4%nat, p) -> 0 <= va < 2 ^ 47 -> pte s' root va = pte s root va) /\
  (forall f j, aligned f -> live s f -> 0 <= j < 512 -> word s' (f + 8 * j) = word s (f + 8 * j)) /\
  pf_avail (frames s) - 1 <= pf_avail (frames s') /\
  (if ok then is_tramp s' (s_tramp_phys s') else pf_avail (frames s) <= 0).
Proof.
  intros HI. unfold trampoline_page. destruct (Z.eqb_spec (s_tramp_phys s) 0) as [E0|E0].
  2:{ intros [= <- <-]. split; [done|]. split; [done|]. split; [done|]. split; [done|]. split; [lia|]. by split. }
  destruct (alloc_page s) as [s1 a] eqn:Ea. destruct (alloc_inv _ _ _ _ _ _ HI Ea) as [Es1 Hal].
  destruct (grown_alloc _ _ _ _ _ _ HI Ea) as (G1 & Hav & Hno). destruct (no_page a) eqn:Eno.
  { intros [= <- <-]. split; [done|]. split; [apply G1|]. split; [apply (gr_pte _ _ _ _ G1)|].
    split; [by rewrite Es1|]. split; [done|by apply Hno]. }
  destruct Hal as (Ht & Ha & Hb & Hm & Hrc & Htr & Hc & Ho & HI1 & Hr0). intros [<- <-]%pair_eq.
  set (s2 := s1 <| mem ::= fun m => store_bytes a s_tramp_code (fill_words a (fun _ => 0x9090909090909090) (seqZ 0 512) m) |>).
  destruct (data_write_inv s1 s2 T M _ HI1) as [HI2 Hpte]; [done|done| |].
  { intros f l p j Hf Hj. apply trampoline_word; [done| |congruence|done]. apply (pi_table _ _ _ _ HI _ _ _ Hf). }
  pose proof (retain_inv s2 T M _ a HI2 Ha ltac:(lia) Ht ltac:(intros _; change (frames s2) with (frames s1); lia)) as HI3.
  destruct (pf_retain_law (frames s1) a (pi_ok _ _ _ _ HI1) ltac:(lia) Ha ltac:(lia)) as (_ & Hmr & _ & Hr').
  assert (HI4 : PInv (retain_page a s2) T M owed).
  { eapply PInv_owed; [exact HI3|intros h; unfold ind; case_decide; lia|]. intros h Hmh. unfold ind. case_decide; [subst; lia|lia]. }
  split; [|split; [|split; [|split; [|split]]]].
  - change (PInv ((retain_page a s2) <| s_tramp_phys := a |>) T M owed). apply set_tramp_inv; try done.
    + change (s_tramp_phys s1 = 0). by rewrite Es1.
    + by apply Hmr.
    + change (frames (retain_page a s2)) with (pf_retain a (frames s1)). rewrite Hr' by done. lia.
  - intros g. cbn. rewrite Hmr. apply G1.
  - intros root p va Hr Hv. change (pte s2 root va = pte s root va). rewrite (Hpte root p va) by done. by apply (gr_pte _ _ _ _ G1 root p).
  - intros f j Hf Hl Hj. etrans; [apply (trampoline_word a s1 f j); try done|by rewrite Es1]. intros ->.
    apply G1 in Hm. specialize (Hl Hm). lia.
  - cbn. pose proof (pf_avail_retain (frames s1) a (pi_ok _ _ _ _ HI1) ltac:(lia) ltac:(lia)). lia.
  - split; [done|]. cbn. lia.
Qed.

(** ** A fresh address space *)

Definition tramp_entry (s : state) : Z :=
  Z.lor (Z.lor (Z.lor (Z.land (s_tramp_phys s) PTE_PHYS_MASK) PAGE_USER) PAGE_PRESENT) PAGE_USER.

Lemma trampoline_install_spec s T M owed root p :
  PInv s T M owed -> T !! root = Some (4%nat, p) ->
  pte s root SIGNAL_TRAMP_VA = None \/ (forall h, pf_managed (frames s) h -> 0 <= owed h) ->
  let s' := pmap_trampoline_install root s in
  exists T' M', PInv s' T' M' owed /\ T ⊆ T' /\ (forall f q, T' !! f = Some (4%nat, q) -> T !! f = Some (4%nat, q)) /\
    (forall g, pf_managed (frames s') g <-> pf_managed (frames s) g) /\
    (forall root' p' va, T !! root' = Some (4%nat, p') -> 0 <= va < 2 ^ 47 ->
       ~ (root' = root /\ va / 4096 = SIGNAL_TRAMP_VA / 4096) -> pte s' root' va = pte s root' va) /\
    (forall f j, T' !! f = None -> aligned f -> live s f -> 0 <= j < 512 -> word s' (f + 8 * j) = word s (f + 8 * j)) /\
    (4 <= pf_avail (frames s) -> forall va, va / 4096 = SIGNAL_TRAMP_VA / 4096 -> pte s' root va = Some (tramp_entry s')).
Proof.
  intros HI Hr Hnn. cbv zeta. unfold pmap_trampoline_install. destruct (trampoline_page s) as [s1 ok] eqn:E1.
  destruct (trampoline_page_spec _ _ _ _ _ _ HI E1) as (HI1 & Hm1 & P1 & W1 & A1 & Hok). destruct ok; cbn [negb].
  2:{ exists T, M. split; [done|]. split; [done|]. split; [done|]. split; [done|]. split; [|split; [|lia]].
      - intros root' p' va Hr' Hv _. by apply (P1 root' p').
      - intros f j _. apply W1. }
  assert (Eg : get_table_ptr (s_tramp_phys s1) = s_tramp_phys s1).
  { destruct (pi_tramp _ _ _ _ HI1 _ Hok) as (_ & ? & ? & _). apply get_table_ptr_id; [done|lia]. }
  destruct (pmap_map_user_page_unlocked root SIGNAL_TRAMP_VA (s_tramp_phys s1) PAGE_USER s1) as [s2 r] eqn:E2.
  destruct (map_spec s1 T M owed root p SIGNAL_TRAMP_VA (s_tramp_phys s1) PAGE_USER s2 r HI1 Hr) as (T2 & F2 & Hcase); try done.
  { rewrite Eg. done. }
  { rewrite (P1 root p) by done. setoid_rewrite Hm1. exact Hnn. }
  cbn [fst]. pose proof (framed_tramp _ _ _ _ F2) as Etr.
  assert (W2 : forall f j, T2 !! f = None -> aligned f -> live s f -> 0 <= j < 512 -> word s2 (f + 8 * j) = word s (f + 8 * j)).
  { intros f j Hf Ha Hl Hj. rewrite (fr_mem _ _ _ _ F2) by done. by apply W1. }
  destruct Hcase as [(-> & HI2 & G2 & A2)|(-> & [M2 HI2] & _ & _ & P2)].
  - exists T2, M. split; [done|]. split; [apply F2|]. split; [apply F2|]. split; [intros g; rewrite (fr_managed _ _ _ _ F2); apply Hm1|].
    split; [|split; [done|lia]]. intros root' p' va Hr' Hv _. rewrite (gr_pte _ _ _ _ G2 root' p') by done. by apply (P1 root' p').
  - exists T2, M2. split.
    { assert (Em : maps s1 (Z.lor (Z.lor (Z.lor (Z.land (s_tramp_phys s1) PTE_PHYS_MASK) PAGE_USER) PAGE_PRESENT) PAGE_USER) = None).
      { unfold maps. rewrite get_table_ptr_entry, Eg by done. rewrite bool_decide_false by tauto. by rewrite andb_false_r. }
      rewrite Em in HI2. eapply PInv_owed; [exact HI2|intros h|intros h _ Hd; exfalso; apply Hd]; unfold ind; rewrite decide_False; done || lia. }
    split; [apply F2|]. split; [apply F2|]. split; [intros g; rewrite (fr_managed _ _ _ _ F2); apply Hm1|]. split; [|split; [done|]].
    + intros root' p' va Hr' Hv Hne. rewrite (P2 root' p' va Hr' Hv), decide_False by done. by apply (P1 root' p').
    + intros _ va Hva. unfold tramp_entry. rewrite Etr. rewrite (pte_same_page s2 root va SIGNAL_TRAMP_VA Hva).
      by rewrite (P2 root p SIGNAL_TRAMP_VA Hr ltac:(done)), decide_True.
Qed.
End Fork.
End PmapFork.
