(* ===== verification/PmapClone.v ===== *)
(** * Forking an address space

    [pmap_clone_user_space] visits the user pages of the parent in address
    order.  The loop invariant [CInv n] says that the pages below page number
    [n] are shared copy-on-write with the child and the others are untouched. *)

From S2P Require Import Prelude Pmm Pmap PmapInv PmapMap PmapSpec PmapFork.
Import Pmap PmapInv PmapMap PmapSpec PmapFork.

Module PmapClone.

(** ** Page numbers *)

Definition page_no (i4 i3 i2 i1 : Z) : Z := ((i4 * 512 + i3) * 512 + i2) * 512 + i1.

Lemma va_of_page i4 i3 i2 i1 : 0 <= i4 < 256 -> 0 <= i3 < 512 -> 0 <= i2 < 512 -> 0 <= i1 < 512 ->
  va_of i4 i3 i2 i1 = 4096 * page_no i4 i3 i2 i1.
Proof.
  intros H4 H3 H2 H1. unfold va_of, page_no. rewrite !(Z.shiftl_mul_pow2 i3), !(Z.shiftl_mul_pow2 i2), !(Z.shiftl_mul_pow2 i1) by done.
  rewrite (lor_shiftl_add i4) by lia.
  replace (i4 * 2 ^ 39 + i3 * 2 ^ 30) with ((i4 * 512 + i3) * 2 ^ 30) by lia.
  rewrite <- (Z.shiftl_mul_pow2 _ 30), lor_shiftl_add by lia.
  replace ((i4 * 512 + i3) * 2 ^ 30 + i2 * 2 ^ 21) with (((i4 * 512 + i3) * 512 + i2) * 2 ^ 21) by lia.
  rewrite <- (Z.shiftl_mul_pow2 _ 21), lor_shiftl_add by lia. lia.
Qed.

Lemma index_page i4 i3 i2 i1 va : 0 <= i4 < 256 -> 0 <= i3 < 512 -> 0 <= i2 < 512 -> 0 <= i1 < 512 ->
  va / 4096 = page_no i4 i3 i2 i1 ->
  index 39 va = i4 /\ index 30 va = i3 /\ index 21 va = i2 /\ index 12 va = i1.
Proof.
  intros H4 H3 H2 H1 E. rewrite !index_div by done.
  assert (Hd : forall k, 0 <= k -> va / 2 ^ (12 + k) = page_no i4 i3 i2 i1 / 2 ^ k).
  { intros k Hk. rewrite Z.pow_add_r, <- Z.div_div, <- E by lia. done. }
  change (2 ^ 39) with (2 ^ (12 + 27)). change (2 ^ 30) with (2 ^ (12 + 18)). change (2 ^ 21) with (2 ^ (12 + 9)).
  change (2 ^ 12) with (2 ^ (12 + 0)). rewrite (Hd 27), (Hd 18), (Hd 9), (Hd 0) by done. unfold page_no.
  assert (E1 : (((i4 * 512 + i3) * 512 + i2) * 512 + i1) / 2 ^ 9 = (i4 * 512 + i3) * 512 + i2).
  { symmetry. apply (Z.div_unique _ _ _ i1); lia. }
  assert (E2 : (((i4 * 512 + i3) * 512 + i2) * 512 + i1) / 2 ^ 18 = i4 * 512 + i3).
  { symmetry. apply (Z.div_unique _ _ _ (i2 * 512 + i1)); lia. }
  assert (E3 : (((i4 * 512 + i3) * 512 + i2) * 512 + i1) / 2 ^ 27 = i4).
  { symmetry. apply (Z.div_unique _ _ _ (i3 * 262144 + i2 * 512 + i1)); lia. }
  rewrite E1, E2, E3, Z.div_1_r. split_and!; symmetry.
  - apply (Z.mod_unique _ _ 0); lia.
  - apply (Z.mod_unique _ _ i4); lia.
  - apply (Z.mod_unique _ _ (i4 * 512 + i3)); lia.
  - apply (Z.mod_unique _ _ ((i4 * 512 + i3) * 512 + i2)); lia.
Qed.

(** How many numbers below [n] satisfy a test. *)
Definition count_below (P : Z -> bool) (n : Z) : Z := Z.of_nat (length (filter (fun m => P m = true) (seqZ 0 n))).

Lemma count_below_add P n k : 0 <= n -> 0 <= k ->
  count_below P (n + k) = count_below P n + Z.of_nat (length (filter (fun m => P m = true) (seqZ n k))).
Proof.
  intros Hn Hk. unfold count_below. rewrite seqZ_app by done. rewrite filter_app, length_app. change (0 + n) with n. lia.
Qed.

Lemma count_below_nonneg P n : 0 <= count_below P n.
Proof. unfold count_below. lia. Qed.

Lemma count_below_mono P n m : 0 <= n <= m -> count_below P n <= count_below P m.
Proof. intros Hn. replace m with (n + (m - n)) by lia. rewrite count_below_add; lia. Qed.

Lemma count_below_S P n : 0 <= n -> count_below P (n + 1) = count_below P n + (if P n then 1 else 0).
Proof.
  intros Hn. rewrite count_below_add by lia. f_equal. change (seqZ n 1) with [n].
  unfold filter. cbn. destruct (P n) eqn:E; [rewrite decide_True|rewrite decide_False]; cbn; done || congruence.
Qed.

Lemma count_below_none P n k : 0 <= n -> 0 <= k -> (forall m, n <= m < n + k -> P m = false) ->
  count_below P (n + k) = count_below P n.
Proof.
  intros Hn Hk. revert k Hk. refine (natlike_ind _ _ _); [by rewrite Z.add_0_r|].
  intros k Hk IH HP. replace (n + Z.succ k) with (n + k + 1) by lia. rewrite count_below_S, IH, HP by (intros; lia || (apply HP; lia)). lia.
Qed.

Section Clone.
Context {F : Type} `{PageFrames F}.
Notation state := (pmap F).
Implicit Types (s : state) (T : tables) (M : gmap Z Z).

(** What becomes of a writable entry of the parent, and the entry the child gets. *)
Definition parent_pte (e : Z) : Z :=
  if has e PAGE_USER && has e PAGE_WRITE then Z.lor (Z.land e (not64 PAGE_WRITE)) PAGE_COW else e.
Definition child_flags (e : Z) : Z := if has e PAGE_WRITE || has e PAGE_COW then PAGE_COW else 0.
Definition child_pte (e : Z) : Z :=
  Z.lor (Z.lor (Z.lor (Z.land (Z.land e PTE_PHYS_MASK) PTE_PHYS_MASK) (child_flags e)) PAGE_PRESENT) PAGE_USER.

Lemma downgraded e : has e PAGE_PRESENT = true ->
  let w := Z.lor (Z.land e (not64 PAGE_WRITE)) PAGE_COW in
  get_table_ptr w = get_table_ptr e /\ has w PAGE_PRESENT = true.
Proof.
  intros Ep w. unfold w. split; [|by bits; rewrite Ep].
  rewrite get_table_ptr_lor by done. unfold get_table_ptr. rewrite <- Z.land_assoc. done.
Qed.

(** The state [s0] in which the loops start. *)
Context (s0 : state) (T0 : tables) (M0 : gmap Z Z) (owed : Z -> Z) (src dst ps pd : Z).
Hypothesis HI0 : PInv s0 T0 M0 owed.
Hypothesis Hsrc : T0 !! src = Some (4%nat, ps).
Hypothesis Hdst : T0 !! dst = Some (4%nat, pd).
Hypothesis Hne : src ≠ dst.
Hypothesis Hempty : forall va, 0 <= va < 2 ^ 47 -> pte s0 dst va = None.

(** Frame 0 is never mapped: the code could not tell it from a failure. *)
Hypothesis Hzero : forall va e, 0 <= va < 2 ^ 47 -> pte s0 src va = Some e -> get_table_ptr e ≠ 0.

(** The frame of page [n] of the parent, when it is shared. *)
Definition shared (n : Z) : option Z :=
  e ← pte s0 src (4096 * n); if has e PAGE_USER then Some (get_table_ptr e) else None.
Definition shares (g n : Z) : bool := bool_decide (shared n = Some g).
Definition is_shared (n : Z) : bool := bool_decide (is_Some (shared n)).

Definition PAGES : Z := 2 ^ 35.

(** No reference count saturates. *)
Hypothesis Hsat : forall n g, 0 <= n < PAGES -> shared n = Some g -> pf_managed (frames s0) g ->
  pf_refcount (frames s0) g + count_below (shares g) PAGES <= 65535.

Definition inherited (va : Z) : option Z :=
  e ← pte s0 src va; if has e PAGE_USER && (0x1000 <=? va) then Some (child_pte e) else None.

Record CInv (n : Z) (s : state) (T : tables) (M : gmap Z Z) : Prop := {
  ci_inv : PInv s T M owed;
  ci_sub : T0 ⊆ T;
  ci_root : forall f q, T !! f = Some (4%nat, q) -> T0 !! f = Some (4%nat, q);
  ci_managed : forall g, pf_managed (frames s) g <-> pf_managed (frames s0) g;
  ci_tramp : s_tramp_phys s = s_tramp_phys s0;
  ci_src : forall va, 0 <= va < 2 ^ 47 ->
    pte s src va = if va / 4096 <? n then parent_pte <$> pte s0 src va else pte s0 src va;
  ci_dst : forall va, 0 <= va < 2 ^ 47 -> va / 4096 < n ->
    pte s dst va = inherited va \/
    pte s dst va = None /\ pf_avail (frames s0) < 3 * count_below is_shared n;
  ci_rest : forall va, 0 <= va < 2 ^ 47 -> n <= va / 4096 -> pte s dst va = None;
  ci_other : forall root p va, T0 !! root = Some (4%nat, p) -> 0 <= va < 2 ^ 47 -> root ≠ src -> root ≠ dst ->
    pte s root va = pte s0 root va;
  ci_refs : forall g, aligned g -> pf_managed (frames s0) g -> 0 < pf_refcount (frames s0) g ->
    pf_refcount (frames s0) g <= pf_refcount (frames s) g <= pf_refcount (frames s0) g + count_below (shares g) n;
  ci_avail : pf_avail (frames s0) - 3 * count_below is_shared n <= pf_avail (frames s)
}.

Lemma pte_present s root va e : pte s root va = Some e -> has e PAGE_PRESENT = true.
Proof. unfold pte. intros (ea & _ & E)%bind_Some. destruct (has (word s ea) PAGE_PRESENT) eqn:Ep; [|done]. by injection E as <-. Qed.

Lemma page_va va n : 0 <= va -> va / 4096 = n -> pte s0 src va = pte s0 src (4096 * n).
Proof. intros Hv E. apply pte_same_page. rewrite E. symmetry. rewrite Z.mul_comm. by apply Z.div_mul. Qed.

(** Pages that are not shared are passed over. *)
Lemma clone_skip n k s T M : 0 <= n -> 0 <= k ->
  (forall m, n <= m < n + k -> shared m = None /\ (forall e, pte s0 src (4096 * m) = Some e -> has e PAGE_USER = false)) ->
  CInv n s T M -> CInv (n + k) s T M.
Proof.
  intros Hn Hk Hno [C1 C2 C3 C4 C5 C6 C7 C8 C9 C10 C11].
  assert (E1 : count_below is_shared (n + k) = count_below is_shared n).
  { apply count_below_none; [done..|]. intros m Hm. unfold is_shared. rewrite (proj1 (Hno m Hm)).
    apply bool_decide_false. by intros [? [=]]. }
  assert (E2 : forall g, count_below (shares g) (n + k) = count_below (shares g) n).
  { intros g. apply count_below_none; [done..|]. intros m Hm. unfold shares. rewrite (proj1 (Hno m Hm)). by apply bool_decide_false. }
  constructor; rewrite ?E1; try done.
  - intros va Hv. rewrite C6 by done. destruct (Z.ltb_spec (va / 4096) n), (Z.ltb_spec (va / 4096) (n + k)); try done; [lia|].
    rewrite (page_va va _ ltac:(lia) eq_refl). destruct (pte s0 src _) as [e|] eqn:E; [|done]. cbn. unfold parent_pte.
    rewrite (proj2 (Hno (va / 4096) ltac:(lia)) e E). done.
  - intros va Hv Hlt. destruct (decide (va / 4096 < n)); [by apply C7|]. left. rewrite C8 by (done || lia). unfold inherited.
    rewrite (page_va va _ ltac:(lia) eq_refl). destruct (pte s0 src _) as [e|] eqn:E; [|done]. cbn.
    by rewrite (proj2 (Hno (va / 4096) ltac:(lia)) e E).
  - intros va Hv Hle. apply C8; [done|lia].
  - intros g Ha Hm Hg. rewrite E2. by apply C10.
Qed.

(** The mapping recorded for a leaf entry. *)
Lemma leaf_maps s T M ow f q i : PInv s T M ow -> T !! f = Some (1%nat, q) -> 0 <= i < 512 ->
  M !! (f + 8 * i) = maps s (word s (f + 8 * i)).
Proof.
  intros HI Hf Hi. apply option_eq. intros g. rewrite (pi_leaf _ _ _ _ HI). split; [|by eauto 10].
  by intros (? & ? & ? & _ & _ & _ & ?).
Qed.

(** Making the parent's entry copy-on-write. *)
Lemma downgrade_spec s T M va ea :
  let e := word s ea in
  let s1 := if has e PAGE_WRITE then set_word ea (Z.lor (Z.land e (not64 PAGE_WRITE)) PAGE_COW) s else s in
  PInv s T M owed -> T !! src = Some (4%nat, ps) -> 0 <= va < 2 ^ 47 -> walk s src va = Some ea ->
  has e PAGE_PRESENT = true -> has e PAGE_USER = true ->
  (exists M1, PInv s1 T M1 owed) /\ framed s T s1 T /\ frames s1 = frames s /\
  forall root p va', T !! root = Some (4%nat, p) -> 0 <= va' < 2 ^ 47 ->
    pte s1 root va' = if decide (root = src /\ va' / 4096 = va / 4096) then Some (parent_pte e) else pte s root va'.
Proof.
  intros e s1 HI Hr Hv Hw Ep Eu.
  assert (Hpte : pte s src va = Some e) by (unfold pte; rewrite Hw; cbn [mbind option_bind]; fold e; by rewrite Ep).
  unfold s1, parent_pte. rewrite Eu. cbn [andb]. destruct (has e PAGE_WRITE) eqn:Ew.
  2:{ split; [eauto|]. split; [apply framed_refl|]. split; [done|]. intros root p va' _ _. case_decide as E; [|done].
      destruct E as [-> E]. by rewrite (pte_same_page s src va' va). }
  destruct (downgraded e Ep) as [Eg Epw]. set (w := Z.lor (Z.land e (not64 PAGE_WRITE)) PAGE_COW) in *. clearbody w.
  pose proof (walk_tables _ _ _ _ _ _ _ _ HI Hr Hv Hw) as (f3 & f2 & f1 & _ & _ & H1 & Ee).
  pose proof (index_range 12 va ltac:(done)) as Hi.
  assert (HM : M !! ea = maps s w).
  { transitivity (maps s e); [unfold e; rewrite Ee; by eapply leaf_maps|]. unfold maps. by rewrite Ep, Epw, Eg. }
  split; [|split; [|split; [done|]]].
  - exists (upd ea (maps s w) M). pose proof (leaf_write_inv s T M owed f1 _ (index 12 va) w HI H1 Hi) as HL. rewrite <- Ee, HM in HL.
    eapply PInv_owed; [apply HL|..].
    + intros g Hg. rewrite <- HM in Hg. split; [by apply (pi_data _ _ _ _ HI ea)|]. intros Hm. by apply (mapped_live _ _ _ _ ea _ HI Hg).
    + intros root' p' va' Hr' Hv' Hw' _. rewrite Eg. intros Ht. eapply (pi_tramp_va _ _ _ _ HI root' p' va' e); try done.
      unfold pte. rewrite Hw'. cbn [mbind option_bind]. fold e. by rewrite Ep.
    + intros h. unfold ind. repeat case_decide; congruence || lia.
    + intros h _ Hd. exfalso. apply Hd. unfold ind. repeat case_decide; congruence || lia.
  - rewrite Ee. eapply framed_word; done.
  - intros root p va' Hr' Hv'. rewrite (pte_update s T M owed src ps va ea w root p va') by done. by rewrite Epw.
Qed.

Lemma pte_live s T M ow root p va e : PInv s T M ow -> T !! root = Some (4%nat, p) -> 0 <= va < 2 ^ 47 ->
  pte s root va = Some e -> pf_managed (frames s) (get_table_ptr e) -> 0 < pf_refcount (frames s) (get_table_ptr e).
Proof.
  intros HI Hr Hv He Hm. destruct (pte_cases _ _ _ _ _ _ _ _ HI Hr Hv He) as [Ht|(ea & _ & HM)].
  - destruct (pi_tramp _ _ _ _ HI _ Ht) as (_ & Ha & Hg & _ & Hc).
    pose proof (pf_refcount_law (frames s) _ (pi_ok _ _ _ _ HI) (Z.lt_le_incl _ _ (proj1 Hg))).
    destruct (decide (pf_refcount (frames s) (get_table_ptr e) = 0)) as [E0|]; [|lia].
    pose proof (pi_owed _ _ _ _ HI _ Ha ltac:(lia) Hm E0). lia.
  - by apply (mapped_live _ _ _ _ ea _ HI HM).
Qed.

(** A shared page: the parent's entry is downgraded, the child's is either
    installed with a reference or left out for lack of a table page. *)
Lemma clone_advance n e s T M s' T' M' :
  0 <= n < PAGES -> CInv n s T M -> pte s0 src (4096 * n) = Some e -> has e PAGE_USER = true ->
  PInv s' T' M' owed -> framed s T s' T' ->
  (forall root p va, T !! root = Some (4%nat, p) -> 0 <= va < 2 ^ 47 -> root ≠ dst ->
     pte s' root va = if decide (root = src /\ va / 4096 = n) then Some (parent_pte e) else pte s root va) ->
  (forall va, 0 <= va < 2 ^ 47 -> va / 4096 ≠ n -> pte s' dst va = pte s dst va) ->
  (forall va, 0 <= va < 2 ^ 47 -> va / 4096 = n -> pte s' dst va = inherited va \/ pte s' dst va = None /\ pf_avail (frames s) <= 2) ->
  (forall g, aligned g -> pf_managed (frames s) g -> 0 < pf_refcount (frames s) g ->
     pf_refcount (frames s) g <= pf_refcount (frames s') g <= pf_refcount (frames s) g + ind (g = get_table_ptr e)) ->
  pf_avail (frames s) - 3 <= pf_avail (frames s') ->
  CInv (n + 1) s' T' M'.
Proof.
  intros Hn [C1 C2 C3 C4 C5 C6 C7 C8 C9 C10 C11] He Eu HI' HF Hsrc' Hd1 Hd2 Hrc Hav.
  assert (Hs : shared n = Some (get_table_ptr e)) by (unfold shared; rewrite He; cbn; by rewrite Eu).
  assert (E1 : count_below is_shared (n + 1) = count_below is_shared n + 1).
  { rewrite count_below_S by lia. unfold is_shared at 2. rewrite Hs. by rewrite bool_decide_true by eauto. }
  assert (E2 : forall g, count_below (shares g) (n + 1) = count_below (shares g) n + ind (g = get_table_ptr e)).
  { intros g. rewrite count_below_S by lia. f_equal. unfold shares, ind. rewrite Hs. case_decide; [rewrite bool_decide_true|rewrite bool_decide_false]; congruence. }
  constructor; rewrite ?E1.
  - done.
  - etrans; [done|]. by apply (fr_sub _ _ _ _ HF).
  - intros f q Hf. by apply C3, (fr_root _ _ _ _ HF).
  - intros g. by rewrite (fr_managed _ _ _ _ HF), C4.
  - destruct (fr_other _ _ _ _ HF) as [-> _]. done.
  - intros va Hv. rewrite (Hsrc' src ps va) by (done || by eapply lookup_weaken). case_decide as E.
    + destruct E as [_ E]. rewrite (page_va va n), He by (lia || done). by rewrite (proj2 (Z.ltb_lt _ _)) by lia.
    + rewrite C6 by done. destruct (Z.ltb_spec (va / 4096) n), (Z.ltb_spec (va / 4096) (n + 1)); try done; [lia|]. exfalso. apply E. split; [done|lia].
  - intros va Hv Hlt. destruct (decide (va / 4096 = n)) as [E|].
    + destruct (Hd2 va Hv E) as [?|[? ?]]; [by left|right]. split; [done|lia].
    + rewrite Hd1 by done. destruct (C7 va Hv ltac:(lia)) as [?|[? ?]]; [by left|right]. split; [done|lia].
  - intros va Hv Hle. rewrite Hd1 by (done || lia). apply C8; [done|lia].
  - intros root p va Hr Hv N1 N2. rewrite (Hsrc' root p va) by (done || by eapply lookup_weaken). rewrite decide_False by tauto. by eapply C9.
  - intros g Ha Hm H0. rewrite E2. pose proof (C10 g Ha Hm H0). apply C4 in Hm. pose proof (Hrc g Ha Hm ltac:(lia)). lia.
  - lia.
Qed.

Lemma child_flags_ptr e : get_table_ptr (child_flags e) = 0.
Proof. unfold child_flags. by destruct (_ || _). Qed.

Lemma page_step n va : 0 <= n -> va / 4096 = n <-> va / 4096 = (4096 * n) / 4096.
Proof. intros Hn. by rewrite (Z.mul_comm 4096), Z.div_mul by done. Qed.

(** Page 0 is refused by [pmap_map_user_page_unlocked]. *)
Lemma map_low root paddr flags s : pmap_map_user_page_unlocked root 0 paddr flags s = (s, 0).
Proof. unfold pmap_map_user_page_unlocked. by destruct (root =? 0). Qed.

(** A reference taken on a frame that has just been mapped. *)
Lemma retain_mapped s T M e w va h :
  PInv s T M (fun h => owed h - ind (maps s w = Some h)) -> T !! dst = Some (4%nat, pd) -> 0 <= va < 2 ^ 47 ->
  pte s dst va = Some w -> get_table_ptr w = get_table_ptr e -> has w PAGE_PRESENT = true -> h = get_table_ptr e ->
  (pf_managed (frames s) h -> 0 < pf_refcount (frames s) h < 65535) ->
  PInv (retain_page h s) T M owed.
Proof.
  intros HI Hr Hv Hw Eg Ep -> Hrc. pose proof (pte_data _ _ _ _ _ _ _ _ HI Hr Hv Hw) as Ht. rewrite Eg in Ht.
  destruct (get_table_ptr_range e) as [Ha Hb].
  pose proof (retain_inv _ _ _ _ _ HI Ha Hb Ht Hrc) as HI'. eapply PInv_owed; [exact HI'|..].
  - intros h. cbn beta. unfold ind. repeat case_decide; try lia; exfalso;
    match goal with E : maps _ _ = Some _ |- _ => apply maps_frame in E as (-> & _) end; congruence.
  - intros h Hm Hd. right. assert (h = get_table_ptr e) as ->.
    { apply dec_stable. intros N. apply Hd. unfold ind. rewrite (decide_False (P := h = _)) by done.
      rewrite decide_False; [lia|]. intros (-> & _)%maps_frame. congruence. }
    split; [done|]. destruct (pf_retain_law (frames s) _ (pi_ok _ _ _ _ HI) (proj1 Hb) Ha) as (_ & Hmg & _ & Hr'); [intros Hx; apply Hrc in Hx; lia|].
    change (frames (retain_page ?x s)) with (pf_retain x (frames s)) in *. apply Hmg in Hm. rewrite Hr' by done. specialize (Hrc Hm). lia.
Qed.

Lemma parent_pte_ptr e : has e PAGE_PRESENT = true -> get_table_ptr (parent_pte e) = get_table_ptr e.
Proof. intros Ep. unfold parent_pte. destruct (_ && _); [|done]. by apply (downgraded e Ep). Qed.

Lemma child_pte_bits e : get_table_ptr (child_pte e) = get_table_ptr e /\ has (child_pte e) PAGE_PRESENT = true.
Proof.
  unfold child_pte. pose proof (child_flags_ptr e). split; [by rewrite get_table_ptr_entry, get_table_ptr_mask|].
  bits. by rewrite orb_true_r.
Qed.

Lemma framed_retain s T s' T' g : framed s T s' T' ->
  pf_ok (frames s') -> 0 <= g -> aligned g -> (pf_managed (frames s') g -> 0 < pf_refcount (frames s') g) ->
  framed s T (retain_page g s') T'.
Proof.
  intros [H1 H2 H3 H4 H5 H6 H7] Hok Hg Ha Hl. constructor; try done. intros h. rewrite <- H6.
  by apply (pf_retain_law (frames s') g).
Qed.

(** There is room for another reference to a frame that is still to be shared. *)
Lemma clone_room n s T M e : 0 <= n < PAGES -> CInv n s T M -> pte s0 src (4096 * n) = Some e -> has e PAGE_USER = true ->
  pf_managed (frames s) (get_table_ptr e) -> pf_refcount (frames s) (get_table_ptr e) < 65535.
Proof.
  intros Hn HC Hs Eu Hm. apply (ci_managed _ _ _ _ HC) in Hm.
  assert (Hv : 0 <= 4096 * n < 2 ^ 47) by (unfold PAGES in *; lia).
  pose proof (pte_live _ _ _ _ _ _ _ _ HI0 Hsrc Hv Hs Hm) as Hl.
  pose proof (ci_refs _ _ _ _ HC _ (proj1 (get_table_ptr_range e)) Hm Hl). 
  assert (Hsh : shared n = Some (get_table_ptr e)) by (unfold shared; rewrite Hs; cbn; by rewrite Eu). pose proof (Hsat n _ Hn Hsh Hm).
  pose proof (count_below_mono (shares (get_table_ptr e)) (n + 1) PAGES ltac:(lia)) as Hc.
  rewrite count_below_S in Hc by lia. unfold shares at 2 in Hc. rewrite Hsh in Hc.
  rewrite bool_decide_true in Hc by done. lia.
Qed.

(** Mapping a shared frame in the child, once the parent's entry is downgraded. *)
Lemma clone_child n s T M e s1 M1 :
  0 <= n < PAGES -> CInv n s T M -> pte s0 src (4096 * n) = Some e -> has e PAGE_PRESENT = true -> has e PAGE_USER = true ->
  PInv s1 T M1 owed -> framed s T s1 T -> frames s1 = frames s ->
  (forall root p va', T !! root = Some (4%nat, p) -> 0 <= va' < 2 ^ 47 ->
     pte s1 root va' = if decide (root = src /\ va' / 4096 = 4096 * n / 4096) then Some (parent_pte e) else pte s root va') ->
  let r := (let '(s, r) := pmap_map_user_page_unlocked dst (4096 * n) (Z.land e PTE_PHYS_MASK) (child_flags e) s1 in
            if r =? 0 then s else retain_page (Z.land e PTE_PHYS_MASK) s) in
  exists T' M', CInv (n + 1) r T' M' /\ framed s T r T'.
Proof.
  intros Hn HC Hs Ep Eu HI1 HF1 Ef1 Hp1. assert (Hv : 0 <= 4096 * n < 2 ^ 47) by (unfold PAGES in *; lia).
  pose proof (lookup_weaken _ _ _ _ Hsrc (ci_sub _ _ _ _ HC)) as Hsr. pose proof (lookup_weaken _ _ _ _ Hdst (ci_sub _ _ _ _ HC)) as Hds.
  assert (Hd : forall va, 0 <= va < 2 ^ 47 -> pte s1 dst va = pte s dst va).
  { intros va Hv'. rewrite (Hp1 dst pd) by done. by rewrite decide_False by naive_solver. }
  assert (Hd0 : forall va, 0 <= va < 2 ^ 47 -> va / 4096 = n -> pte s1 dst va = None).
  { intros va Hv' E. rewrite Hd by done. apply (ci_rest _ _ _ _ HC); [done|lia]. }
  assert (Hpages : 4096 * n / 4096 = n) by (by rewrite (Z.mul_comm 4096), Z.div_mul). rewrite Hpages in Hp1.
  destruct (decide (n = 0)) as [->|Hn0].
  { change (4096 * 0) with 0. rewrite map_low. cbn. exists T, M1. split; [|done].
    eapply (clone_advance 0 e s T M); try done; rewrite ?Ef1; try lia.
    - intros root p va Hr Hv' _. by apply (Hp1 root p).
    - intros va Hv' _. by apply Hd.
    - intros va Hv' E. left. rewrite Hd0 by done. unfold inherited. rewrite (page_va va 0), Hs by (lia || done). cbn.
      rewrite (proj2 (Z.leb_gt _ va)); [by rewrite andb_false_r|]. pose proof (Z.div_mod va 4096). pose proof (Z.mod_pos_bound va 4096). lia.
    - intros g _ _ _. unfold ind. case_decide; lia. }
  assert (Hsp : pte s1 src (4096 * n) = Some (parent_pte e)) by (rewrite (Hp1 src ps) by done; by rewrite decide_True).
  pose proof (pte_data _ _ _ _ _ _ _ _ HI1 Hsr Hv Hsp) as HT. pose proof (pte_live _ _ _ _ _ _ _ _ HI1 Hsr Hv Hsp) as Hlv.
  rewrite (parent_pte_ptr e Ep) in HT, Hlv.
  destruct (child_pte_bits e) as [Eg Epw].
  destruct (pmap_map_user_page_unlocked _ _ _ _ s1) as [s2 r] eqn:Em.
  assert (Hmap := map_spec s1 T M1 owed dst pd (4096 * n) (Z.land e PTE_PHYS_MASK) (child_flags e) s2 r).
  cbv zeta in Hmap. fold (child_pte e) in Hmap. rewrite get_table_ptr_mask in Hmap.
  destruct Hmap as (T' & HF2 & Hcases); try done.
  { lia. } { apply child_flags_ptr. } { left. by apply Hd0. }
  { intros Ht. eapply (pi_tramp_va _ _ _ _ HI1 src ps); try done. by rewrite parent_pte_ptr. }
  pose proof (framed_trans _ _ _ _ _ _ HF1 HF2) as HF. pose proof (pf_avail_nonneg (frames s2)) as Hnn.
  destruct Hcases as [(-> & HI2 & HG & Hav)|(-> & (M2 & HI2) & Hrf & Hav & Hp2)].
  - cbn. exists T', M1. split; [|done]. rewrite Ef1 in *.
    eapply (clone_advance n e s T M); try done.
    + intros root p va Hr Hv' _. rewrite (gr_pte _ _ _ _ HG root p) by done. by apply (Hp1 root p).
    + intros va Hv' _. rewrite (gr_pte _ _ _ _ HG dst pd) by done. by apply Hd.
    + intros va Hv' E. right. rewrite (gr_pte _ _ _ _ HG dst pd) by done. split; [by apply Hd0|done].
    + intros g _ _ H0. rewrite (gr_refs _ _ _ _ HG) by (by rewrite Ef1). rewrite Ef1. unfold ind. case_decide; lia.
    + specialize (Hnn (pi_ok _ _ _ _ HI2)). lia.
  - change (Z.land e PTE_PHYS_MASK) with (get_table_ptr e). pose proof (Hzero _ _ Hv Hs). rewrite (proj2 (Z.eqb_neq _ _)) by done.
    assert (Hv0 : forall va, 0 <= va < 2 ^ 47 -> va / 4096 = n -> pte s2 dst va = Some (child_pte e)).
    { intros va Hv' E. rewrite (Hp2 dst pd) by done. rewrite decide_True by (split; [done|lia]). done. }
    assert (Hrc : pf_managed (frames s2) (get_table_ptr e) -> 0 < pf_refcount (frames s2) (get_table_ptr e) < 65535).
    { intros Hm. apply (fr_managed _ _ _ _ HF2) in Hm. specialize (Hlv Hm). rewrite Hrf by (done || by apply Hd0).
      split; [done|]. rewrite Ef1 in *. by apply (clone_room n s T M). }
    assert (Hex : exists s3, s3 = retain_page (get_table_ptr e) s2) by eauto. destruct Hex as [s3 Es3]. rewrite <- Es3.
    assert (HI3 : PInv s3 T' M2 owed).
    { rewrite Es3. eapply (retain_mapped s2 T' M2 e (child_pte e) (4096 * n)); try done; [|by eapply lookup_weaken, (fr_sub _ _ _ _ HF2)|by apply Hv0].
      eapply PInv_owed; [exact HI2|..]; intros h; rewrite (maps_tramp s1 s2) by apply (framed_tramp _ _ _ _ HF2); [lia|done]. }
    destruct (get_table_ptr_range e) as [Hal Hrg]. pose proof (fun Hm => proj1 (Hrc Hm)) as Hl2.
    destruct (pf_retain_law (frames s2) (get_table_ptr e) (pi_ok _ _ _ _ HI2) (proj1 Hrg) Hal Hl2) as (_ & Hmg & Hro & Hrg').
    pose proof (pf_avail_retain (frames s2) (get_table_ptr e) (pi_ok _ _ _ _ HI2) (proj1 Hrg) Hl2) as Har.
    assert (Ep3 : forall root va, pte s3 root va = pte s2 root va) by (by rewrite Es3).
    assert (Ef3 : frames s3 = pf_retain (get_table_ptr e) (frames s2)) by (by rewrite Es3).
    exists T', M2. assert (HF3 : framed s T s3 T') by (rewrite Es3; apply framed_retain; try done; [apply (pi_ok _ _ _ _ HI2)|lia]). split; [|done].
    eapply (clone_advance n e s T M); try done.
    + intros root p va Hr Hv' N. rewrite Ep3, (Hp2 root p), decide_False by (done || tauto). by apply (Hp1 root p).
    + intros va Hv' E. rewrite Ep3, (Hp2 dst pd) by done. rewrite decide_False by lia. by apply Hd.
    + intros va Hv' E. left. rewrite Ep3, Hv0 by done. unfold inherited. rewrite (page_va va n), Hs by (lia || done). cbn. rewrite Eu.
      rewrite (proj2 (Z.leb_le _ va)); [done|]. pose proof (Z.div_mod va 4096). pose proof (Z.mod_pos_bound va 4096). lia.
    + intros g Hg Hm Hg0. rewrite Ef3. unfold ind. case_decide as E.
      * subst g. apply (fr_managed _ _ _ _ HF) in Hm. rewrite Hrg' by done. specialize (Hrc Hm). rewrite <- Ef1 in *.
        rewrite Hrf in * by (done || by apply Hd0). lia.
      * rewrite Hro by done. rewrite <- Ef1 in *. rewrite Hrf in * by (done || by apply Hd0). lia.
    + rewrite Ef3, <- Ef1. rewrite (Hd0 _ Hv Hpages) in Hav. specialize (Hav ltac:(done)). lia.
Qed.

Lemma clone_pte_step n s T M i4 i3 i2 i1 f1 :
  CInv n s T M -> 0 <= i4 < 256 -> 0 <= i3 < 512 -> 0 <= i2 < 512 -> 0 <= i1 < 512 -> n = page_no i4 i3 i2 i1 ->
  walk s src (4096 * n) = Some (slot f1 i1) ->
  exists T' M', CInv (n + 1) (clone_pte dst f1 i4 i3 i2 s i1) T' M' /\ framed s T (clone_pte dst f1 i4 i3 i2 s i1) T'.
Proof.
  intros HC H4 H3 H2 H1 En Hw. assert (Hn : 0 <= n < PAGES) by (unfold page_no, PAGES in *; lia).
  assert (Hv : 0 <= 4096 * n < 2 ^ 47) by (unfold PAGES in *; lia).
  assert (Hs : pte s src (4096 * n) = pte s0 src (4096 * n)).
  { rewrite (ci_src _ _ _ _ HC) by done. rewrite (Z.mul_comm 4096), Z.div_mul by done. by rewrite Z.ltb_irrefl. }
  pose proof (lookup_weaken _ _ _ _ Hsrc (ci_sub _ _ _ _ HC)) as Hsr. pose proof (lookup_weaken _ _ _ _ Hdst (ci_sub _ _ _ _ HC)) as Hds.
  unfold clone_pte. rewrite va_of_page, <- En by done. set (ea := slot f1 i1) in *. set (e := word s ea).
  assert (Ee : pte s src (4096 * n) = if has e PAGE_PRESENT then Some e else None) by (unfold pte; by rewrite Hw).
  destruct (has e PAGE_PRESENT) eqn:Ep; cbn [negb orb].
  2:{ exists T, M. split; [|apply framed_refl]. apply clone_skip; [lia..| |done]. intros m Hm. replace m with n by lia. unfold shared.
      by rewrite <- Hs, Ee. }
  destruct (has e PAGE_USER) eqn:Eu; cbn [negb].
  2:{ exists T, M. split; [|apply framed_refl]. apply clone_skip; [lia..| |done]. intros m Hm. replace m with n by lia. unfold shared.
      rewrite <- Hs, Ee. cbn. rewrite Eu. split; [done|]. by intros ? [= <-]. }
  destruct (downgrade_spec s T M (4096 * n) ea (ci_inv _ _ _ _ HC) Hsr Hv Hw Ep Eu) as ((M1 & HI1) & HF1 & Ef1 & Hp1). fold e in HI1, HF1, Ef1, Hp1.
  rewrite Ee in Hs. symmetry in Hs.
  assert (Hgo := fun s1 => clone_child n s T M e s1 M1 Hn HC Hs Ep Eu). cbv zeta in Hgo.
  unfold child_flags in Hgo. destruct (has e PAGE_WRITE); cbn [orb] in Hgo; by apply Hgo.
Qed.

(** ** The loops *)

Definition advanced (n : Z) (s : state) (T : tables) (s' : state) : Prop :=
  exists T' M', CInv n s' T' M' /\ framed s T s' T'.

Lemma clone_loop (f : state -> Z -> state) K k n s T M : 0 <= K -> CInv n s T M ->
  (forall i s1 T1 M1, 0 <= i < K -> CInv (n + i * k) s1 T1 M1 -> framed s T s1 T1 ->
     advanced (n + i * k + k) s1 T1 (f s1 i)) ->
  advanced (n + K * k) s T (foldl f s (seqZ 0 K)).
Proof.
  intros HK HC Hf. apply (foldl_seqZ f (fun i s' => advanced (n + i * k) s T s')); [done|..].
  - exists T, M. rewrite Z.add_0_r. split; [done|apply framed_refl].
  - intros i s1 Hi (T1 & M1 & HC1 & HF1). destruct (Hf i s1 T1 M1 Hi HC1 HF1) as (T2 & M2 & HC2 & HF2).
    exists T2, M2. replace (n + (i + 1) * k) with (n + i * k + k) by lia. split; [done|by eapply framed_trans].
Qed.

(** The entries the loops descend into are those that lead to a table. *)
Lemma dir_child s T M f l p i b : PInv s T M owed -> T !! f = Some (S l, p) -> (1 <= l)%nat -> 0 <= i < limit (S l) ->
  let e := word s (f + 8 * i) in
  child s f i = if user_dir b e then Some (get_table_ptr e) else None.
Proof.
  intros HI Hf Hl Hi e. unfold child, user_dir. fold e. destruct (has e PAGE_PRESENT) eqn:Ep; [|done].
  destruct (pi_dir _ _ _ _ HI _ _ _ _ Hf Hl Hi Ep) as (Eu & El & _). fold e in Eu, El.
  rewrite Eu, El. cbn. by rewrite orb_true_r.
Qed.

(** A range without page tables holds no shared page. *)
Lemma clone_hole n k s T M : 0 <= n -> 0 <= k -> n + k <= PAGES ->
  (forall m, n <= m < n + k -> walk s src (4096 * m) = None) -> CInv n s T M -> advanced (n + k) s T s.
Proof.
  intros Hn Hk Hp Hw HC. exists T, M. split; [|apply framed_refl]. apply clone_skip; try done. intros m Hm.
  assert (E : pte s0 src (4096 * m) = None); [|unfold shared; by rewrite E].
  pose proof (ci_src _ _ _ _ HC (4096 * m)) as Hs. rewrite (Z.mul_comm 4096), Z.div_mul, <- (Z.mul_comm 4096) in Hs by done.
  unfold PAGES in *. rewrite (proj2 (Z.ltb_ge _ _)) in Hs by lia. rewrite <- Hs by lia. unfold pte. by rewrite Hw.
Qed.

Lemma slot_entry e i f : get_table_ptr e = f -> slot e i = f + 8 * i.
Proof. unfold slot. by intros ->. Qed.

Lemma clone_pt_step n s T M i4 i3 i2 f3 f2 e2 :
  CInv n s T M -> 0 <= i4 < 256 -> 0 <= i3 < 512 -> 0 <= i2 < 512 -> n = page_no i4 i3 i2 0 ->
  child s src i4 = Some f3 -> child s f3 i3 = Some f2 ->
  T !! f3 = Some (3%nat, src + 8 * i4) -> T !! f2 = Some (2%nat, f3 + 8 * i3) -> get_table_ptr e2 = f2 ->
  advanced (n + 512) s T (clone_pt dst e2 i4 i3 s i2).
Proof.
  intros HC H4 H3 H2 En C4 C3 Hf3 Hf2 E2. pose proof (lookup_weaken _ _ _ _ Hsrc (ci_sub _ _ _ _ HC)) as Hsr. assert (Hp : 0 <= n /\ n + 512 <= PAGES) by (unfold page_no, PAGES in *; lia).
  assert (Hx : forall i, 0 <= i < 512 -> n + i = page_no i4 i3 i2 i) by (intros; unfold page_no in *; lia).
  unfold clone_pt. rewrite (slot_entry e2 i2 f2 E2). pose proof (dir_child s T M f2 1 _ i2 false (ci_inv _ _ _ _ HC) Hf2 ltac:(lia) ltac:(cbn; lia)) as C2.
  cbv zeta in C2. set (e := word s (f2 + 8 * i2)) in *. clearbody e. destruct (user_dir false e); cbn [negb].
  - change (n + 512) with (n + 512 * 1). eapply clone_loop; [done..|]. intros i s1 T1 M1 Hi HC1 HF1. rewrite Z.mul_1_r in *.
    eapply clone_pte_step; [done..|by apply Hx|].
    destruct (index_page i4 i3 i2 i (4096 * (n + i))) as (E4 & E3 & E2' & E1); try done.
    { rewrite (Z.mul_comm 4096), Z.div_mul by done. by apply Hx. }
    unfold walk. rewrite E4, E3, E2', E1.
    rewrite (fr_child _ _ _ _ HF1 src 3 _ i4 f3 Hsr ltac:(lia) H4 C4). cbn.
    rewrite (fr_child _ _ _ _ HF1 f3 2 _ i3 f2 Hf3 ltac:(lia) H3 C3). cbn.
    rewrite (fr_child _ _ _ _ HF1 f2 1 _ i2 _ Hf2 ltac:(lia) H2 C2). done.
  - apply (clone_hole n 512 s T M); try lia; try done. intros m Hm. unfold walk.
    destruct (index_page i4 i3 i2 (m - n) (4096 * m)) as (-> & -> & -> & _); try done || lia.
    { rewrite <- Hx by lia. rewrite (Z.mul_comm 4096), Z.div_mul by done. lia. }
    rewrite C4. cbn. rewrite C3. cbn. by rewrite C2.
Qed.

Lemma clone_pd_step n s T M i4 i3 f3 e3 :
  CInv n s T M -> 0 <= i4 < 256 -> 0 <= i3 < 512 -> n = page_no i4 i3 0 0 ->
  child s src i4 = Some f3 -> T !! f3 = Some (3%nat, src + 8 * i4) -> get_table_ptr e3 = f3 ->
  advanced (n + 512 * 512) s T (clone_pd dst e3 i4 s i3).
Proof.
  intros HC H4 H3 En C4 Hf3 E3. pose proof (lookup_weaken _ _ _ _ Hsrc (ci_sub _ _ _ _ HC)) as Hsr.
  assert (Hp : 0 <= n /\ n + 512 * 512 <= PAGES) by (unfold page_no, PAGES in *; lia).
  unfold clone_pd. rewrite (slot_entry e3 i3 f3 E3). pose proof (dir_child s T M f3 2 _ i3 false (ci_inv _ _ _ _ HC) Hf3 ltac:(lia) ltac:(cbn; lia)) as C3.
  cbv zeta in C3. set (e := word s (f3 + 8 * i3)) in *. clearbody e. destruct (user_dir false e); cbn [negb].
  - eapply clone_loop; [done..|]. intros i s1 T1 M1 Hi HC1 HF1.
    pose proof (fr_child _ _ _ _ HF1 src 3 _ i4 f3 Hsr ltac:(lia) H4 C4) as D4. pose proof (fr_child _ _ _ _ HF1 f3 2 _ i3 _ Hf3 ltac:(lia) H3 C3) as D3.
    pose proof (lookup_weaken _ _ _ _ Hf3 (fr_sub _ _ _ _ HF1)) as Hf3'.
    eapply clone_pt_step; [done..|unfold page_no in *; lia|exact D4|exact D3|done| |done].
    by eapply child_table; [apply (ci_inv _ _ _ _ HC1)|exact Hf3'|lia|cbn; lia|].
  - apply (clone_hole n _ s T M); try lia; try done. intros m Hm. unfold walk.
    destruct (index_page i4 i3 ((m - n) / 512) ((m - n) mod 512) (4096 * m)) as (-> & -> & _); try done.
    { split; [apply Z.div_pos|apply Z.div_lt_upper_bound]; lia. } { by apply Z.mod_pos_bound. }
    { rewrite (Z.mul_comm 4096), Z.div_mul by done. pose proof (Z.div_mod (m - n) 512). unfold page_no in *. lia. }
    rewrite C4. cbn. by rewrite C3.
Qed.

Lemma clone_pdpt_step n s T M i4 :
  CInv n s T M -> 0 <= i4 < 256 -> n = page_no i4 0 0 0 ->
  advanced (n + 512 * (512 * 512)) s T (clone_pdpt dst src s i4).
Proof.
  intros HC H4 En. pose proof (lookup_weaken _ _ _ _ Hsrc (ci_sub _ _ _ _ HC)) as Hsr. pose proof (ci_inv _ _ _ _ HC) as HI.
  assert (Hp : 0 <= n /\ n + 512 * (512 * 512) <= PAGES) by (unfold page_no, PAGES in *; lia).
  unfold clone_pdpt. rewrite (slot_table _ _ _ _ _ _ _ _ HI Hsr).
  pose proof (dir_child s T M src 3 _ i4 true HI Hsr ltac:(lia) ltac:(cbn; lia)) as C4.
  cbv zeta in C4. set (e := word s (src + 8 * i4)) in *. clearbody e. destruct (user_dir true e); cbn [negb].
  - eapply clone_loop; [done..|]. intros i s1 T1 M1 Hi HC1 HF1.
    pose proof (fr_child _ _ _ _ HF1 src 3 _ i4 _ Hsr ltac:(lia) H4 C4) as D4.
    pose proof (lookup_weaken _ _ _ _ Hsr (fr_sub _ _ _ _ HF1)) as Hsr'.
    eapply clone_pd_step; [done..|unfold page_no in *; lia|exact D4| |done].
    by eapply child_table; [apply (ci_inv _ _ _ _ HC1)|exact Hsr'|lia|cbn; lia|].
  - apply (clone_hole n _ s T M); try lia; try done. intros m Hm. unfold walk.
    assert (Ei : index 39 (4096 * m) = i4); [|by rewrite Ei, C4].
    rewrite index_div by done. change (2 ^ 39) with (4096 * 134217728). rewrite Z.div_mul_cancel_l by done.
    rewrite <- (Z.div_unique m 134217728 i4 (m - n)) by (unfold page_no in *; lia). apply Z.mod_small. lia.
Qed.

Lemma clone_loops : advanced PAGES s0 T0 (foldl (clone_pdpt dst src) s0 (seqZ 0 256)).
Proof.
  change PAGES with (0 + 256 * (512 * (512 * 512))). eapply clone_loop; [done|..].
  - constructor; try done.
    + intros va Hv. by rewrite (proj2 (Z.ltb_ge _ _)) by (apply Z.div_pos; lia).
    + intros va Hv Hlt. exfalso. assert (0 <= va / 4096) by (apply Z.div_pos; lia). lia.
    + intros va Hv _. by apply Hempty.
    + intros g _ _ _. change (count_below (shares g) 0) with 0. lia.
    + change (count_below is_shared 0) with 0. lia.
  - intros i s1 T1 M1 Hi HC HF. apply (clone_pdpt_step _ _ _ M1); [done..|unfold page_no; lia].
Qed.
End Clone.

Lemma count_below_ext P Q n : 0 <= n -> (forall m, 0 <= m < n -> P m = Q m) -> count_below P n = count_below Q n.
Proof.
  revert n. refine (natlike_ind _ _ _); [done|]. intros n Hn IH HPQ. replace (Z.succ n) with (n + 1) by lia.
  rewrite !count_below_S, HPQ, IH by (done || lia || (intros; apply HPQ; lia)). done.
Qed.

(** ** The whole fork *)

Section Fork.
Context {F : Type} `{PageFrames F}.
Notation state := (pmap F).
Implicit Types (s : state) (T : tables) (M : gmap Z Z).

(** What [pmap_clone_user_space] makes of an address space [src]. *)
Record forked (s : state) (T : tables) (src : Z) (s' : state) (T' : tables) (dst : Z) : Prop := {
  fk_root : T !! dst = None /\ exists p, T' !! dst = Some (4%nat, p);
  fk_parent : forall va, 0 <= va < 2 ^ 47 -> pte s' src va = parent_pte <$> pte s src va;
  fk_child : forall va, 0 <= va < 2 ^ 47 -> pmap_is_trampoline_va va = false -> pte s' dst va = inherited s src va;
  fk_tramp : forall va, 0 <= va < 2 ^ 47 -> pmap_is_trampoline_va va = true -> pte s' dst va = Some (tramp_entry s');
  fk_others : forall root p va, T !! root = Some (4%nat, p) -> 0 <= va < 2 ^ 47 -> root ≠ src -> pte s' root va = pte s root va;
  fk_memory : forall root p va e j, T !! root = Some (4%nat, p) -> 0 <= va < 2 ^ 47 -> pte s root va = Some e ->
    0 <= j < 512 -> word s' (get_table_ptr e + 8 * j) = word s (get_table_ptr e + 8 * j)
}.

Context (s : state) (T : tables) (M : gmap Z Z) (owed : Z -> Z) (src ps : Z).
Hypothesis HS : Spaces s T M owed.
Hypothesis Hsrc : T !! src = Some (4%nat, ps).
Hypothesis Hzero : forall va e, 0 <= va < 2 ^ 47 -> pte s src va = Some e -> get_table_ptr e ≠ 0.
Hypothesis Hsat : forall n g, 0 <= n < PAGES -> shared s src n = Some g -> pf_managed (frames s) g ->
  pf_refcount (frames s) g + count_below (shares s src g) PAGES <= 65535.
Hypothesis Hroom : 3 * count_below (is_shared s src) PAGES + 5 <= pf_avail (frames s).

(** After the loops, before the trampoline is mapped. *)
Lemma clone_shared s1 a s3 : alloc_page s = (s1, a) -> no_page a = false ->
  s3 = foldl (clone_pdpt a src) (copy_kernel_half a src (set_page (get_table_ptr a) 0 s1)) (seqZ 0 256) ->
  exists T3 M3, PInv s3 T3 M3 owed /\ T ⊆ T3 /\ T !! a = None /\ T3 !! a = Some (4%nat, 0) /\
    (forall g, pf_managed (frames s3) g <-> pf_managed (frames s) g) /\ 4 <= pf_avail (frames s3) /\
    (forall va, 0 <= va < 2 ^ 47 -> pte s3 src va = parent_pte <$> pte s src va /\ pte s3 a va = inherited s src va) /\
    (forall root p va, T !! root = Some (4%nat, p) -> 0 <= va < 2 ^ 47 -> root ≠ src -> pte s3 root va = pte s root va) /\
    (forall f j, T3 !! f = None -> aligned f -> 0 <= j < 512 -> word s3 (f + 8 * j) = word s (f + 8 * j)).
Proof.
  intros Ea Eno Es3. destruct HS as [HI Hnn]. destruct (grown_alloc _ _ _ _ _ _ HI Ea) as (G1 & Hav & _).
  destruct (new_root _ _ _ _ _ _ src HI Ea Eno) as (Ht & Ha & Hb & HI2 & Ef2 & Etr2 & Hp2 & He2 & Hw2).
  set (s2 := copy_kernel_half a src (set_page (get_table_ptr a) 0 s1)) in *. clearbody s2.
  assert (Hne : src ≠ a) by congruence. set (T2 := <[a := (4%nat, 0)]> T) in *.
  assert (Hsub : T ⊆ T2) by (by apply insert_subseteq).
  assert (Hsh : forall n, 0 <= n < PAGES -> shared s2 src n = shared s src n).
  { intros n Hn. unfold shared. by rewrite (Hp2 src ps) by (done || unfold PAGES in *; lia). }
  assert (Ecs : count_below (is_shared s2 src) PAGES = count_below (is_shared s src) PAGES).
  { apply count_below_ext; [done|]. intros n Hn. unfold is_shared. by rewrite Hsh. }
  assert (Hz2 : forall va e, 0 <= va < 2 ^ 47 -> pte s2 src va = Some e -> get_table_ptr e ≠ 0).
  { intros va e Hv He. rewrite (Hp2 src ps) in He by done. by eapply Hzero. }
  assert (Hsat2 : forall n g, 0 <= n < PAGES -> shared s2 src n = Some g -> pf_managed (frames s2) g ->
    pf_refcount (frames s2) g + count_below (shares s2 src g) PAGES <= 65535).
  { intros n g Hn Hg Hm. rewrite Hsh in Hg by done. rewrite Ef2 in *. apply (gr_managed _ _ _ _ G1) in Hm.
    rewrite (gr_refs _ _ _ _ G1).
    - rewrite (count_below_ext _ (shares s src g)); [by apply (Hsat n)|done|]. intros k Hk. unfold shares. by rewrite Hsh.
    - unfold shared in Hg. apply bind_Some in Hg as (e & He & Hg). destruct (has e PAGE_USER); [|done]. injection Hg as <-.
      eapply pte_live; [done|done| |done|done]. unfold PAGES in *; lia. }
  destruct (clone_loops s2 T2 M owed src a ps 0 HI2 (lookup_weaken _ _ _ _ Hsrc Hsub) (lookup_insert_eq _ _ _) Hne He2 Hz2 Hsat2)
    as (T3 & M3 & HC & HF).
  rewrite Ef2 in *. rewrite <- Es3 in *. clear Es3.
  destruct HC as [C1 C2 C3 C4 C5 C6 C7 C8 C9 C10 C11]. rewrite Ef2, Ecs in *.
  assert (Hpg : forall va, 0 <= va < 2 ^ 47 -> va / 4096 < PAGES) by (intros; apply Z.div_lt_upper_bound; unfold PAGES; lia).
  exists T3, M3. split; [done|]. split; [by etrans|]. split; [done|]. split; [eapply lookup_weaken, C2; apply lookup_insert_eq|].
  split; [intros g; rewrite C4; apply G1|]. split; [lia|]. split; [|split].
  - intros va Hv. split.
    + rewrite C6, (Hp2 src ps) by done. by rewrite (proj2 (Z.ltb_lt _ _)) by auto.
    + unfold inherited. rewrite <- (Hp2 src ps) by done. destruct (C7 va Hv (Hpg va Hv)) as [?|[_ ?]]; [done|lia].
  - intros root p va Hr Hv N. assert (Na : root ≠ a) by (intros ->; congruence).
    rewrite (C9 root p va (lookup_weaken _ _ _ _ Hr Hsub) Hv N Na). by apply (Hp2 root p).
  - intros f j Hf Hfa Hj. rewrite (fr_mem _ _ _ _ HF) by done. apply Hw2; [done| |done]. intros ->.
    rewrite (lookup_weaken _ _ _ _ (lookup_insert_eq T a (4%nat, 0)) C2) in Hf. done.
Qed.

Lemma trampoline_page_va va : 0 <= va < 2 ^ 47 -> pmap_is_trampoline_va va = true <-> va / 4096 = SIGNAL_TRAMP_VA / 4096.
Proof.
  intros Hv. unfold pmap_is_trampoline_va. fold (page_trunc va). rewrite page_trunc_div, Z.eqb_eq by lia.
  change SIGNAL_TRAMP_VA with (4096 * (SIGNAL_TRAMP_VA / 4096)) at 1. lia.
Qed.

Lemma shootdown_same s3 T3 M3 : PInv s3 T3 M3 owed ->
  let s4 := smp_tlb_shootdown_pml4 src s3 in
  PInv s4 T3 M3 owed /\ frames s4 = frames s3 /\ (forall root va, pte s4 root va = pte s3 root va) /\
  (forall a, word s4 a = word s3 a).
Proof. intros HI. split; [by apply (PInv_ext s3)|done]. Qed.

Lemma clone_spec s' dst : pmap_clone_user_space src s = (s', dst) ->
  exists T' M', Spaces s' T' M' owed /\ T ⊆ T' /\ forked s T src s' T' dst.
Proof.
  pose proof HS as [HI Hnn]. destruct (pi_table _ _ _ _ HI _ _ _ Hsrc) as (_ & Hs0 & _).
  unfold pmap_clone_user_space. rewrite (proj2 (Z.eqb_neq src 0)) by lia.
  destruct (alloc_page s) as [s1 a] eqn:Ea. destruct (grown_alloc _ _ _ _ _ _ HI Ea) as (G1 & Hav & Hno).
  pose proof (count_below_nonneg (is_shared s src) PAGES) as Hc0.
  destruct (no_page a) eqn:Eno; [specialize (Hno eq_refl); lia|].
  remember (foldl _ _ _) as s3 eqn:Es3.
  destruct (clone_shared s1 a s3 Ea Eno Es3) as (T3 & M3 & HI3 & HT3 & Ht & Hr3 & Hm3 & Hav3 & Hp3 & Ho3 & Hw3).
  clear Es3. intros [Es' <-]%pair_eq.
  destruct (shootdown_same s3 T3 M3 HI3) as (HI4 & Ef4 & Ep4 & Ew4).
  set (s4 := smp_tlb_shootdown_pml4 src s3) in *. clearbody s4.
  destruct (trampoline_install_spec s4 T3 M3 owed a 0 HI4 Hr3) as (T' & M' & HI' & HT' & _ & Hm' & Hp' & Hw' & Htr').
  { right. intros h Hh. rewrite Ef4 in Hh. by apply Hnn, Hm3. }
  rewrite Ef4 in *.
  rewrite Es' in *. clear Es'. specialize (Htr' Hav3).
  assert (Hpr : forall root p va, T !! root = Some (4%nat, p) -> 0 <= va < 2 ^ 47 -> pte s' root va = pte s3 root va).
  { intros root p va Hr Hv. rewrite <- Ep4. apply (Hp' root p); [by eapply lookup_weaken|done|]. intros [-> _]. congruence. }
  exists T', M'. split; [split; [done|intros h Hh; by apply Hnn, Hm3, Hm']|]. split; [by etrans|]. constructor.
  - split; [done|]. exists 0. by eapply lookup_weaken.
  - intros va Hv. rewrite (Hpr src ps) by done. by apply Hp3.
  - intros va Hv Hn. rewrite (Hp' a 0 va Hr3 Hv); [rewrite Ep4; by apply Hp3|]. intros [_ E]. apply trampoline_page_va in E; congruence.
  - intros va Hv Hn. apply Htr'. by apply trampoline_page_va.
  - intros root p va Hr Hv N. rewrite (Hpr root p) by done. by apply (Ho3 root p).
  - intros root p va e j Hr Hv He Hj.
    assert (He' : exists e', pte s3 root va = Some e' /\ get_table_ptr e' = get_table_ptr e).
    { destruct (decide (root = src)) as [->|N]; [|exists e; by rewrite (Ho3 root p)].
      destruct (Hp3 va Hv) as [-> _]. rewrite He. eexists. split; [done|]. apply parent_pte_ptr. by eapply pte_present. }
    destruct He' as (e' & He' & <-). destruct (get_table_ptr_range e') as [Hae _].
    pose proof (pte_data _ _ _ _ _ _ _ _ HI' (lookup_weaken _ _ _ _ (lookup_weaken _ _ _ _ Hr HT3) HT') Hv (eq_trans (Hpr root p va Hr Hv) He')) as HTn.
    rewrite Hw'; [|done|done| |done].
    + rewrite Ew4. apply (Hw3 _ j); [|done|done]. by apply (lookup_weaken_None _ _ _ HTn).
    + rewrite <- Ep4 in He'. exact (pte_live _ _ _ _ _ _ _ _ HI4 (lookup_weaken _ _ _ _ Hr HT3) Hv He').
Qed.
End Fork.
End PmapClone.
