(* ===== verification/PmapCorrect.v ===== *)
(** * The address-space operations: theorems

    What the operations of [Pmap] promise to the rest of the kernel, for
    states in which [Spaces] holds: every table is reached once, every mapped
    frame is counted, and no frame is mapped more often than it is referenced. *)

From S2P Require Import Prelude Pmm Pmap PmapInv PmapMap PmapSpec PmapFork PmapClone.
Import Pmap PmapInv PmapMap PmapSpec PmapFork PmapClone.

Module PmapCorrect.

Section Correct.
Context {F : Type} `{PageFrames F}.
Notation state := (pmap F).
Implicit Types (s : state) (T : tables) (M : gmap Z Z).

(** Flushing translations leaves the address spaces as they are. *)
Lemma Spaces_flush s T M owed pml4 start size :
  Spaces s T M owed -> Spaces (smp_tlb_flush_range_pml4 pml4 start size s) T M owed.
Proof. intros [HI Hnn]. split; [by apply (PInv_ext s)|done]. Qed.

Lemma resolved_flush s T root va e s' e' pml4 start size :
  resolved s T root va e s' e' -> resolved s T root va e (smp_tlb_flush_range_pml4 pml4 start size s') e'.
Proof. intros [H1 H2 H3 H4 H5 H6]. by constructor. Qed.

Lemma cow_word s T M owed root p va ea s1 a old :
  PInv s T M owed -> T !! root = Some (4%nat, p) -> 0 <= va < 2 ^ 47 -> walk s root va = Some ea ->
  alloc_page s = (s1, a) -> no_page a = false -> word (release_page old (copy_page a old s1)) ea = word s ea.
Proof.
  intros HI Hr Hv Hw Ea Eno. destruct (alloc_inv _ _ _ _ _ _ HI Ea) as [Es1 Hal]. rewrite Eno in Hal.
  destruct Hal as (Ht & Ha & Hb & _).
  pose proof (walk_tables _ _ _ _ _ _ _ _ HI Hr Hv Hw) as (f3 & f2 & f1 & _ & _ & H1 & ->).
  change (word (copy_page a old s1) (f1 + 8 * index 12 va) = word s (f1 + 8 * index 12 va)).
  destruct (pi_table _ _ _ _ HI _ _ _ H1) as (Hf1 & _). pose proof (index_range 12 va ltac:(done)).
  rewrite word_copy_page by done. rewrite decide_False by congruence. by rewrite Es1.
Qed.

(** The copy-on-write fault handler on every branch. *)
Lemma cow_fault_spec s T M owed root p va s' ok :
  Spaces s T M owed -> T !! root = Some (4%nat, p) -> 0 <= va < 2 ^ 47 -> pmap_is_trampoline_va va = false ->
  pmap_handle_cow_fault root va s = (s', ok) ->
  (exists M', Spaces s' T M' owed) /\
  if ok then exists e e', pte s root va = Some e /\ has e PAGE_COW = true /\ resolved s T root va e s' e'
  else mem s' = mem s /\ (forall g, pf_managed (frames s') g <-> pf_managed (frames s) g) /\
       (forall root' va', pte s' root' va' = pte s root' va') /\
       forall e, pte s root va = Some e -> has e PAGE_COW = true -> pf_avail (frames s) <= 0.
Proof.
  intros HS Hr Hv Hnt. pose proof HS as [HI Hnn]. destruct (pi_table _ _ _ _ HI _ _ _ Hr) as (_ & Hr0 & _).
  unfold pmap_handle_cow_fault. rewrite (proj2 (Z.eqb_neq root 0)), (proj2 (Z.leb_gt _ va)) by lia. cbn [orb].
  rewrite (pte_ptr_walk s T M owed root p va) by done. unfold pte at 1 4. destruct (walk s root va) as [ea|] eqn:Hw.
  2:{ intros [= <- <-]. split; [by exists M|done]. }
  cbn [mbind option_bind]. destruct (has (word s ea) PAGE_PRESENT) eqn:Ep; cbn [negb orb].
  2:{ intros [= <- <-]. split; [by exists M|done]. }
  destruct (has (word s ea) PAGE_COW) eqn:Ec; cbn [negb].
  2:{ intros [= <- <-]. split; [by exists M|]. split; [done|]. split; [done|]. split; [done|]. intros e [= <-]. congruence. }
  change (Z.land (word s ea) PTE_PHYS_MASK) with (get_table_ptr (word s ea)).
  destruct (Z.ltb_spec 1 (pf_refcount (frames s) (get_table_ptr (word s ea)))) as [_|Hrc].
  2:{ intros [<- <-]%pair_eq. destruct (cow_last s T M owed root p va ea) as ([M' HS'] & Hres); try done.
      split; [exists M'; by apply Spaces_flush|]. exists (word s ea). eexists. split; [done|]. split; [done|]. by apply resolved_flush. }
  destruct (alloc_page s) as [s1 a] eqn:Ea. destruct (no_page a) eqn:Eno.
  { intros [<- <-]%pair_eq. destruct (alloc_inv _ _ _ _ _ _ HI Ea) as [Es1 Hal]. rewrite Eno in Hal.
    destruct (grown_alloc _ _ _ _ _ _ HI Ea) as (G & _ & Hno). split.
    - exists M. split; [done|]. intros h Hm. by apply Hnn, (gr_managed _ _ _ _ G).
    - split; [by rewrite Es1|]. split; [apply G|]. split; [by rewrite Es1|]. intros _ _ _. by apply Hno. }
  destruct (cow_alloc s T M owed s1 a HS Ea Eno) as (_ & _ & Ha & Hb & _).
  change (Z.land a PTE_PHYS_MASK) with (get_table_ptr a). rewrite (get_table_ptr_id a) by (done || lia).
  rewrite (cow_word s T M owed root p va ea s1 a) by done. intros [<- <-]%pair_eq.
  destruct (cow_copy s T M owed root p va ea s1 a HS Hr Hv Hw Ep Hnt Ea Eno) as ([M' HS'] & Hres).
  change (Z.land a PTE_PHYS_MASK) with (get_table_ptr a) in HS', Hres. rewrite (get_table_ptr_id a) in HS', Hres by (done || lia).
  split; [exists M'; exact (Spaces_flush _ _ _ _ _ _ _ HS')|]. exists (word s ea). eexists. split; [done|]. split; [done|]. exact (resolved_flush _ _ _ _ _ _ _ _ _ _ Hres).
Qed.


(** ** Mapping *)

Lemma mapped_entry paddr flags : get_table_ptr flags = 0 ->
  let w := Z.lor (Z.lor (Z.lor (Z.land paddr PTE_PHYS_MASK) flags) PAGE_PRESENT) PAGE_USER in
  get_table_ptr w = get_table_ptr paddr /\ has w PAGE_PRESENT = true /\ has w PAGE_USER = true.
Proof. intros Hf w. split; [by apply get_table_ptr_entry|]. unfold w. bits. by rewrite !orb_true_r. Qed.

(** The page of [va] of [root] translates to the frame [paddr]; nothing else changed. *)
Record page_mapped (s : state) (T : tables) (root va paddr flags : Z) (s' : state) : Prop := {
  pm_pte : forall root' p' va', T !! root' = Some (4%nat, p') -> 0 <= va' < 2 ^ 47 ->
    pte s' root' va' = if decide (root' = root /\ va' / 4096 = va / 4096)
                       then Some (Z.lor (Z.lor (Z.lor (Z.land paddr PTE_PHYS_MASK) flags) PAGE_PRESENT) PAGE_USER)
                       else pte s root' va';
  pm_extract : pmap_extract root va s' = Z.lor paddr (Z.land va 0xFFF);
  pm_memory : forall root' p' va' e j, T !! root' = Some (4%nat, p') -> 0 <= va' < 2 ^ 47 ->
    pte s' root' va' = Some e -> 0 <= j < 512 ->
    word s' (get_table_ptr e + 8 * j) = word s (get_table_ptr e + 8 * j)
}.

Lemma map_page_spec s T M owed root p va paddr flags s' r :
  Spaces s T M owed -> T !! root = Some (4%nat, p) -> 0x1000 <= va < 2 ^ 47 -> get_table_ptr flags = 0 ->
  aligned paddr -> 0 <= paddr < 2 ^ 52 -> ~ is_tramp s paddr -> T !! paddr = None ->
  (pf_managed (frames s) paddr -> 0 < pf_refcount (frames s) paddr /\ 0 < owed paddr) ->
  pmap_map_user_page root va paddr flags s = (s', r) ->
  exists T' M', framed s T s' T' /\
    ((r = 0 /\ Spaces s' T' M' owed /\ pf_avail (frames s) <= 2 /\
      forall root' p' va', T !! root' = Some (4%nat, p') -> 0 <= va' < 2 ^ 47 -> pte s' root' va' = pte s root' va') \/
     (r = paddr /\ Spaces s' T' M' (fun h => owed h - ind (h = paddr)) /\ page_mapped s T root va paddr flags s')).
Proof.
  intros [HI Hnn] Hr Hv Hfl Ha Hb Hnt Ht Hown E. pose proof (get_table_ptr_id paddr Ha Hb) as Eg.
  destruct (mapped_entry paddr flags Hfl) as (Egw & Epw & Euw). cbv zeta in Egw, Epw, Euw.
  assert (Hmap := map_spec s T M owed root p va paddr flags s' r). cbv zeta in Hmap. rewrite Eg in *.
  destruct Hmap as (T' & HF & Hc); try done; [|by right|].
  { intros _. split; [done|]. intros Hm. by apply Hown. }
  destruct Hc as [(-> & HI' & HG & Hav)|(-> & [M' HI'] & _ & _ & Hp)].
  { exists T', M. split; [done|]. left. split; [done|]. split; [split; [done|]|].
    - intros h Hm. by apply Hnn, (fr_managed _ _ _ _ HF).
    - split; [done|]. apply (gr_pte _ _ _ _ HG). }
  exists T', M'. split; [done|]. right. split; [done|].
  assert (Em : forall h, maps s (Z.lor (Z.lor (Z.lor (Z.land paddr PTE_PHYS_MASK) flags) PAGE_PRESENT) PAGE_USER) = Some h <-> h = paddr).
  { intros h. unfold maps. rewrite Epw, Egw. cbn [andb]. rewrite bool_decide_true by done. split; congruence. }
  split; [split|].
  - eapply PInv_owed; [exact HI'|intros h|intros h _ Hd; exfalso; apply Hd]; specialize (Em h); unfold ind; repeat case_decide; tauto || lia.
  - intros h Hm. apply (fr_managed _ _ _ _ HF) in Hm. specialize (Hnn h Hm). unfold ind. case_decide; [subst; specialize (Hown Hm); lia|lia].
  - constructor.
    + intros root' p' va' Hr' Hv'. by apply (Hp root' p').
    + rewrite (extract_pte s' T' M' _ root p va HI' (lookup_weaken _ _ _ _ Hr (fr_sub _ _ _ _ HF)) Hv).
      rewrite (Hp root p) by (done || lia). rewrite decide_True by done. by rewrite Euw, Egw.
    + intros root' p' va' e j Hr' Hv' He Hj. apply (fr_mem _ _ _ _ HF); [|apply get_table_ptr_range|done].
      exact (pte_data _ _ _ _ _ _ _ _ HI' (lookup_weaken _ _ _ _ Hr' (fr_sub _ _ _ _ HF)) Hv' He).
Qed.

(** Mapping a frame the caller holds a reference to.  The call fails (and
    returns 0) only when fewer than three frames are left for tables, and
    then no translation has changed; otherwise it returns the frame, the page
    translates to it with the given flags and [pmap_extract] finds it, all
    other translations and the contents of every mapped page are kept, the
    frame the page had before is released, and the caller's reference has
    moved into the mapping. *)
Theorem pmap_map_user_page_maps s T M owed root p va paddr flags s' r :
  Spaces s T M owed -> T !! root = Some (4%nat, p) -> 0x1000 <= va < 2 ^ 47 -> get_table_ptr flags = 0 ->
  aligned paddr -> 0 <= paddr < 2 ^ 52 -> ~ is_tramp s paddr -> T !! paddr = None ->
  (pf_managed (frames s) paddr -> 0 < pf_refcount (frames s) paddr /\ 0 < owed paddr) ->
  pmap_map_user_page root va paddr flags s = (s', r) ->
  exists T' M', framed s T s' T' /\
    ((r = 0 /\ Spaces s' T' M' owed /\ pf_avail (frames s) <= 2 /\
      forall root' p' va', T !! root' = Some (4%nat, p') -> 0 <= va' < 2 ^ 47 -> pte s' root' va' = pte s root' va') \/
     (r = paddr /\ Spaces s' T' M' (fun h => owed h - ind (h = paddr)) /\ page_mapped s T root va paddr flags s')).
Proof. apply map_page_spec. Qed.

(** ** Unmapping *)

(** C32: Unmapping a range that lies in the user half terminates: one step of
    fuel per 256 KiB is enough.  Exactly the pages that meet the range lose
    their translation, in that address space only, and the references of the
    frames they mapped are accounted for. *)
Theorem pmap_unmap_user_range_removes s T M owed root p va len rel fuel :
  Spaces s T M owed -> T !! root = Some (4%nat, p) -> 0 <= va -> 0 < len -> va + len <= 2 ^ 47 ->
  len + 8192 <= Z.of_nat fuel * 262144 ->
  exists s' M', pmap_unmap_user_range_ex fuel root va len rel s = Some s' /\ Spaces s' T M' owed /\
  (forall root' p' va', T !! root' = Some (4%nat, p') -> 0 <= va' < 2 ^ 47 ->
     pte s' root' va' = if decide (root' = root /\ va / 4096 <= va' / 4096 <= (va + len - 1) / 4096) then None else pte s root' va') /\
  (forall f j, T !! f = None -> aligned f -> 0 <= j < 512 -> word s' (f + 8 * j) = word s (f + 8 * j)).
Proof.
  intros [HI Hnn] Hr Hv Hl Hend Hfuel. destruct (pi_table _ _ _ _ HI _ _ _ Hr) as (_ & Hr0 & _).
  unfold pmap_unmap_user_range_ex. rewrite (proj2 (Z.eqb_neq root 0)), (proj2 (Z.eqb_neq len 0)) by lia. cbn [orb].
  rewrite u64_id by lia. rewrite !page_trunc_div by lia.
  pose proof (Z.div_mod va 4096 ltac:(done)). pose proof (Z.mod_pos_bound va 4096 ltac:(done)).
  pose proof (Z.div_mod (va + len + 4095) 4096 ltac:(done)). pose proof (Z.mod_pos_bound (va + len + 4095) 4096 ltac:(done)).
  assert (Hal : forall x, aligned (4096 * x)) by (intros x; unfold aligned; rewrite Z.mul_comm; by apply Z.mod_mul).
  destruct (unmap_chunks_spec T root p rel owed (4096 * ((va + len + 4095) / 4096)) Hr ltac:(lia) (Hal _) fuel s M
              (4096 * (va / 4096)) HI Hnn) as (s' & M' & E & HI' & HF & Hp); [lia|done|lia|].
  exists s', M'. split; [done|]. split; [split; [done|]|split].
  - intros h Hm. by apply Hnn, (fr_managed _ _ _ _ HF).
  - intros root' p' va' Hr' Hv'. rewrite (Hp root' p') by done.
    pose proof (Z.div_mod va' 4096 ltac:(done)). pose proof (Z.mod_pos_bound va' 4096 ltac:(done)).
    assert (E1 : (va + len + 4095) / 4096 = (va + len - 1) / 4096 + 1).
    { replace (va + len + 4095) with (va + len - 1 + 1 * 4096) by lia. by rewrite Z.div_add. }
    rewrite E1. repeat case_decide; try done; exfalso; lia.
  - intros f j Hf Ha Hj. by apply (fr_mem _ _ _ _ HF).
Qed.

(** The range test of [munmap] is missing.  Asked to unmap the last but
    one page of the 64-bit address space, the chunk loop wraps around the end
    of the address space, comes back to where it started and never
    terminates, clearing kernel translations on its way. *)
Theorem pmap_unmap_user_range_diverges s root fuel : root ≠ 0 ->
  pmap_unmap_user_range fuel root (2 ^ 64 - 8192) 4096 s = None.
Proof.
  intros Hr. unfold pmap_unmap_user_range, pmap_unmap_user_range_ex. rewrite (proj2 (Z.eqb_neq root 0)) by done.
  change (4096 =? 0) with false. cbn [orb]. change (page_trunc (u64 (2 ^ 64 - 8192 + 4096 + 4095))) with (2 ^ 64 - 4096).
  change (page_trunc (2 ^ 64 - 8192)) with (262144 * (2 ^ 46 - 1) + 253952).
  assert (Hk : 0 <= 2 ^ 46 - 1 < 2 ^ 46) by lia. revert Hk s. generalize (2 ^ 46 - 1). induction fuel as [|fuel IH]; intros k Hk s; cbn [unmap_chunks];
    (rewrite (proj2 (Z.leb_gt _ _)) by lia); [done|].
  destruct (decide (k = 2 ^ 46 - 1)) as [->|].
  - change (u64 _) with (262144 * 0 + 253952). rewrite (proj2 (Z.ltb_ge _ _)) by lia. apply IH. lia.
  - rewrite u64_id by lia. replace (262144 * k + 253952 + 64 * 4096) with (262144 * (k + 1) + 253952) by lia.
    rewrite (proj2 (Z.ltb_ge _ _)) by lia. apply IH. lia.
Qed.

(** ** Protection *)

Lemma protected_entry prot e : has prot 2 = true ->
  let e' := protect_pte prot e in
  get_table_ptr e' = get_table_ptr e /\ has e' PAGE_PRESENT = true /\ has e' PAGE_WRITE = true.
Proof.
  intros Hp e'. assert (E0 : (prot =? 0) = false).
  { apply Z.eqb_neq. intros ->. done. }
  unfold e', protect_pte. rewrite Hp, E0. split.
  - rewrite get_table_ptr_lor; [apply get_table_ptr_mask|]. by destruct (negb _).
  - bits. split; destruct (negb _); rewrite ?Z.lor_spec; cbn; by rewrite ?orb_true_r.
Qed.

(** C40: [mprotect] with write permission undoes copy-on-write.  When the page
    at [va] of [root] shares its frame with another page (as after a fork),
    the call makes it writable while the other page still maps the same
    frame, so a write through the one is seen through the other. *)
Theorem pmap_protect_user_range_breaks_cow s T M owed root p va e root2 p2 va2 e2 prot :
  Spaces s T M owed -> T !! root = Some (4%nat, p) -> T !! root2 = Some (4%nat, p2) ->
  aligned va -> 0 <= va -> va + 4096 < 2 ^ 47 -> 0 <= va2 < 2 ^ 47 -> root2 ≠ root ->
  pte s root va = Some e -> pte s root2 va2 = Some e2 -> get_table_ptr e2 = get_table_ptr e -> has prot 2 = true ->
  exists s' e', pmap_protect_user_range root va 4096 prot s = (s', 0) /\
    pte s' root va = Some e' /\ has e' PAGE_WRITE = true /\ pte s' root2 va2 = Some e2 /\
    get_table_ptr e2 = get_table_ptr e'.
Proof.
  intros [HI Hnn] Hr Hr2 Ha Hv Hend Hv2 Hne He He2 Eg Hp. destruct (pi_table _ _ _ _ HI _ _ _ Hr) as (_ & Hr0 & _).
  unfold pmap_protect_user_range. rewrite (proj2 (Z.eqb_neq root 0)) by lia. change (4096 =? 0) with false. cbn [orb].
  rewrite u64_id by lia. rewrite !page_trunc_div by lia. unfold aligned in Ha. pose proof (Z.div_mod va 4096 ltac:(done)).
  replace (va + 4096 + 4095) with (4095 + (va / 4096 + 1) * 4096) by lia. rewrite Z.div_add by done. change (4095 / 4096) with 0.
  replace (4096 * (va / 4096)) with va by lia. replace (4096 * (0 + (va / 4096 + 1))) with (va + 4096) by lia.
  rewrite (proj2 (Z.leb_gt _ _)) by lia. unfold page_range. replace ((va + 4096 - va + 4095) / 4096) with 1 by (replace (va + 4096 - va + 4095) with 8191 by lia; done).
  change (seqZ 0 1) with [0]. cbn [fmap list_fmap foldl]. rewrite Z.add_0_r. unfold protect_page.
  rewrite (pte_ptr_walk s T M owed root p va) by (done || lia).
  destruct (protected_entry prot e Hp) as (Eg' & Ep' & Ew'). unfold pte in He. apply bind_Some in He as (ea & Hw & He).
  rewrite Hw. destruct (has (word s ea) PAGE_PRESENT) eqn:Ep; [|done]. injection He as <-.
  eexists. exists (protect_pte prot (word s ea)). split; [done|].
  pose proof (fun root' p' va' => pte_update s T M owed root p va ea (protect_pte prot (word s ea)) root' p' va' HI Hr ltac:(lia) Hw) as Hu.
  rewrite Ep' in Hu.
  split; [|split; [done|split; [|congruence]]].
  - etrans; [exact (Hu root p va Hr ltac:(lia))|]. by rewrite decide_True.
  - etrans; [exact (Hu root2 p2 va2 Hr2 Hv2)|]. rewrite decide_False by tauto. done.
Qed.

(** ** Address spaces *)

(** A new address space maps the signal trampoline and nothing else. *)
Lemma create_spec s T M owed s' a : Spaces s T M owed -> 5 <= pf_avail (frames s) -> pmap_create s = (s', a) ->
  exists T' M', Spaces s' T' M' owed /\ T ⊆ T' /\ T !! a = None /\ T' !! a = Some (4%nat, 0) /\
    (forall va, 0 <= va < 2 ^ 47 ->
       pte s' a va = if pmap_is_trampoline_va va then Some (tramp_entry s') else None) /\
    (forall root p va, T !! root = Some (4%nat, p) -> 0 <= va < 2 ^ 47 -> pte s' root va = pte s root va).
Proof.
  intros [HI Hnn] Hav. unfold pmap_create. destruct (alloc_page s) as [s1 b] eqn:Ea.
  destruct (grown_alloc _ _ _ _ _ _ HI Ea) as (G1 & Hav1 & Hno). destruct (no_page b) eqn:Eno; [specialize (Hno eq_refl); lia|].
  destruct (new_root _ _ _ _ _ _ (s_kernel_pml4_phys (set_page (get_table_ptr b) 0 s1)) HI Ea Eno) as (Ht & Ha & Hb & HI2 & Ef2 & _ & Hp2 & He2 & _).
  set (s2 := copy_kernel_half _ _ _) in *. clearbody s2. intros [<- <-]%pair_eq.
  pose proof (lookup_insert_eq T b (4%nat, 0)) as Hr.
  destruct (trampoline_install_spec s2 _ M owed b 0 HI2 Hr) as (T' & M' & HI' & HT' & _ & Hm' & Hp' & _ & Htr'); [by left; apply He2|].
  rewrite Ef2 in *. specialize (Htr' ltac:(lia)). assert (Hsub : T ⊆ <[b := (4%nat, 0)]> T) by (by apply insert_subseteq).
  exists T', M'. split; [split; [done|]|split; [by etrans|]].
  { intros h Hm. by apply Hnn, (gr_managed _ _ _ _ G1), Hm'. }
  split; [done|]. split; [by eapply lookup_weaken|]. split.
  - intros va Hv. destruct (pmap_is_trampoline_va va) eqn:Et; [by apply Htr', trampoline_page_va|].
    rewrite (Hp' b 0) by (done || (intros [_ E]; apply trampoline_page_va in E; congruence)). by apply He2.
  - intros root p va Hr' Hv. rewrite (Hp' root p); [by apply (Hp2 root p)|by eapply lookup_weaken|done|]. intros [-> _]. congruence.
Qed.

Lemma phys_bit a : has (Z.land a PTE_PHYS_MASK) PAGE_WRITE = false.
Proof. bits. apply andb_false_r. Qed.

Lemma child_protected e : has (child_pte e) PAGE_WRITE = false.
Proof.
  pose proof (phys_bit (Z.land e PTE_PHYS_MASK)) as Hb. unfold child_pte, child_flags.
  destruct (_ || _); bits; by rewrite Hb.
Qed.

Lemma tramp_protected s : has (tramp_entry s) PAGE_WRITE = false.
Proof. pose proof (phys_bit (s_tramp_phys s)) as Hb. unfold tramp_entry. bits. by rewrite Hb. Qed.

Lemma parent_protected e : has (parent_pte e) PAGE_USER = true -> has (parent_pte e) PAGE_WRITE = false.
Proof.
  unfold parent_pte. destruct (has e PAGE_USER) eqn:Eu, (has e PAGE_WRITE) eqn:Ew; cbn [andb]; intros Hu; try congruence.
  bits. by rewrite andb_false_r.
Qed.


(** A frame with two references, none of them in a mapping. *)
Lemma take_frame s T M s1 f : Spaces s T M (fun _ => 0) -> alloc_page s = (s1, f) -> no_page f = false ->
  let s2 := retain_page f s1 in
  Spaces s2 T M (fun h => ind (h = f) + ind (h = f)) /\ T !! f = None /\ ~ is_tramp s2 f /\
  0 < pf_refcount (frames s2) f /\ forall root va, pte s2 root va = pte s root va.
Proof.
  intros [HI Hnn] E Eno s2. destruct (alloc_inv _ _ _ _ _ _ HI E) as [Es1 Hal]. rewrite Eno in Hal.
  destruct Hal as (Ht & Ha & Hb & Hm & Hrc & Hnt & _ & _ & HI1 & _).
  pose proof (retain_inv s1 T M _ f HI1 Ha ltac:(lia) Ht ltac:(intros; lia)) as HI2.
  destruct (pf_retain_law (frames s1) f (pi_ok _ _ _ _ HI1) ltac:(lia) Ha ltac:(intros; lia)) as (_ & _ & _ & Hr).
  split; [split|].
  - exact HI2.
  - intros h _. unfold ind. case_decide; lia.
  - split; [done|]. split; [|split].
    + change (~ is_tramp s1 f). by rewrite Es1.
    + change (frames s2) with (pf_retain f (frames s1)). rewrite Hr by done. lia.
    + intros root va. change (pte s1 root va = pte s root va). by rewrite Es1.
Qed.

Record alloced (T : tables) (M : gmap Z Z) (root f : Z) (s : state) : Prop := {
  al_spaces : Spaces s T M (fun h => ind (h = f) + ind (h = f));
  al_root : T !! root = Some (4%nat, 0);
  al_free : T !! f = None /\ ~ is_tramp s f /\ aligned f /\ 0 <= f < 2 ^ 52;
  al_refs : pf_managed (frames s) f -> 0 < pf_refcount (frames s) f /\ 0 < ind (f = f) + ind (f = f)
}.

Record demo_state (T : tables) (M : gmap Z Z) (root f va tramp : Z) (s : state) : Prop := {
  ds_spaces : Spaces s T M (fun h => ind (h = f));
  ds_root : T !! root = Some (4%nat, 0);
  ds_pte : forall va', 0 <= va' < 2 ^ 47 ->
    pte s root va' = if decide (va' / 4096 = va / 4096)
      then Some (Z.lor (Z.lor (Z.lor (Z.land f PTE_PHYS_MASK) PAGE_COW) PAGE_PRESENT) PAGE_USER)
      else if pmap_is_trampoline_va va' then Some tramp else None
}.

(** An address space is created, a frame allocated and mapped. *)
Lemma demo_build s0 sc root s1 f va sm :
  Spaces s0 ∅ ∅ (fun _ => 0) -> 5 <= pf_avail (frames s0) -> pmap_create s0 = (sc, root) ->
  alloc_page sc = (s1, f) -> no_page f = false -> 0x1000 <= va < 2 ^ 47 ->
  pmap_map_user_page root va f PAGE_COW (retain_page f s1) = (sm, f) ->
  (exists T M, alloced T M root f (retain_page f s1)) /\ exists T M, demo_state T M root f va (tramp_entry sc) sm.
Proof.
  intros HS0 Hav Ec Ea Eno Hv Em. destruct (create_spec _ _ _ _ _ _ HS0 Hav Ec) as (T & M & HS & _ & _ & Hr & Hp & _).
  destruct (take_frame sc T M s1 f HS Ea Eno) as (HS' & Ht & Hnt & Hrc & Hp').
  destruct (alloc_inv _ _ _ _ _ _ (proj1 HS) Ea) as [_ Hal]. rewrite Eno in Hal. destruct Hal as (_ & Ha & Hb & _).
  set (s2 := retain_page f s1) in *. clearbody s2.
  assert (Hown : pf_managed (frames s2) f -> 0 < pf_refcount (frames s2) f /\ 0 < ind (f = f) + ind (f = f)).
  { intros _. split; [done|]. unfold ind. rewrite decide_True by done. lia. }
  split; [exists T, M; constructor; try done; split_and!; done || lia|].
  destruct (map_page_spec s2 T M _ root 0 va f PAGE_COW sm f HS' Hr Hv eq_refl Ha ltac:(lia) Hnt Ht Hown Em) as (T' & M' & HT & Hc).
  destruct Hc as [(E0 & _)|(_ & [HI Hnn] & Hm)]; [lia|]. exists T', M'. constructor.
  - split; [eapply PInv_owed; [exact HI|..]|]; intros h; unfold ind; repeat case_decide; intros; lia.
  - exact (lookup_weaken _ _ _ _ Hr (fr_sub _ _ _ _ HT)).
  - intros va' Hv'. rewrite (pm_pte _ _ _ _ _ _ _ Hm root 0 va' Hr Hv'). rewrite Hp', Hp by done. repeat case_decide; tauto || done.
Qed.

Lemma count_below_two P n a b : (forall m, P m = true -> m = a \/ m = b) -> count_below P n <= 2.
Proof.
  intros HP. unfold count_below. change 2 with (Z.of_nat (length [a; b])). apply inj_le, submseteq_length, NoDup_submseteq.
  - apply NoDup_filter, NoDup_seqZ.
  - intros m (Hm & _)%list_elem_of_filter. apply HP in Hm. set_solver.
Qed.

(** The pages of the example that a fork shares. *)
Lemma demo_shared T M root f va tramp s n g : demo_state T M root f va tramp s -> aligned f -> 0 <= f < 2 ^ 52 ->
  0 <= n < PAGES -> shared s root n = Some g ->
  (n = va / 4096 \/ n = SIGNAL_TRAMP_VA / 4096) /\ (g = f \/ g = get_table_ptr tramp).
Proof.
  intros HD Ha Hf Hn Hs. unfold shared in Hs. apply bind_Some in Hs as (e & He & Hs). destruct (has e PAGE_USER); [|done]. injection Hs as <-.
  rewrite (ds_pte _ _ _ _ _ _ _ HD) in He by (unfold PAGES in *; lia). rewrite (Z.mul_comm 4096), Z.div_mul in He by done. case_decide as E.
  - injection He as <-. split; [by left|]. left. rewrite get_table_ptr_entry by done. by apply get_table_ptr_id.
  - destruct (pmap_is_trampoline_va (n * 4096)) eqn:Et; [|done]. injection He as <-. split; [right|by right].
    apply trampoline_page_va in Et; [by rewrite Z.div_mul in Et|unfold PAGES in *; lia].
Qed.

Lemma demo_fork T M root f va tramp s : demo_state T M root f va tramp s -> aligned f -> 0 < f < 2 ^ 52 ->
  get_table_ptr tramp ≠ 0 ->
  pf_refcount (frames s) f <= 100 -> pf_refcount (frames s) (get_table_ptr tramp) <= 100 -> 11 <= pf_avail (frames s) ->
  (forall va' e, 0 <= va' < 2 ^ 47 -> pte s root va' = Some e -> get_table_ptr e ≠ 0) /\
  (forall n g, 0 <= n < PAGES -> shared s root n = Some g -> pf_managed (frames s) g ->
     pf_refcount (frames s) g + count_below (shares s root g) PAGES <= 65535) /\
  3 * count_below (is_shared s root) PAGES + 5 <= pf_avail (frames s).
Proof.
  intros HD Ha Hf Ht Hr1 Hr2 Hav.
  assert (Hc : forall P, (forall n, 0 <= n < PAGES -> P n = true -> exists g, shared s root n = Some g) -> count_below P PAGES <= 2).
  { intros P HP. rewrite (count_below_ext _ (fun n => bool_decide (0 <= n < PAGES) && P n)) by (done || (intros m Hm; by rewrite bool_decide_true)).
    apply (count_below_two _ _ (va / 4096) (SIGNAL_TRAMP_VA / 4096)). intros m [Hm%bool_decide_eq_true HPm]%andb_prop.
    destruct (HP m Hm HPm) as [g Hg]. exact (proj1 (demo_shared _ _ _ _ _ _ _ _ _ HD Ha ltac:(lia) Hm Hg)). }
  split; [|split].
  - intros va' e Hv He. rewrite (ds_pte _ _ _ _ _ _ _ HD) in He by done. case_decide.
    + injection He as <-. rewrite get_table_ptr_entry, get_table_ptr_id by (done || lia). lia.
    + destruct (pmap_is_trampoline_va va'); [|done]. by injection He as <-.
  - intros n g Hn Hg _. pose proof (Hc (shares s root g) ltac:(intros m _ E%bool_decide_eq_true; eauto)).
    destruct (demo_shared _ _ _ _ _ _ _ _ _ HD Ha ltac:(lia) Hn Hg) as [_ [->| ->]]; lia.
  - pose proof (Hc (is_shared s root) ltac:(intros m _ [? E]%bool_decide_eq_true; eauto)). lia.
Qed.

(** Two address spaces that map the same frame at [va]. *)
Record sharing (T : tables) (M : gmap Z Z) (p src dst va : Z) (s : state) (owed : Z -> Z) : Prop := {
  sh_spaces : Spaces s T M owed;
  sh_src : T !! src = Some (4%nat, 0);
  sh_dst : T !! dst = Some (4%nat, p);
  sh_distinct : src ≠ dst;
  sh_frame : exists e e2, pte s dst va = Some e /\ pte s src va = Some e2 /\ get_table_ptr e2 = get_table_ptr e
}.

Lemma demo_shares T M root f va tramp s s' dst : demo_state T M root f va tramp s ->
  (forall va' e, 0 <= va' < 2 ^ 47 -> pte s root va' = Some e -> get_table_ptr e ≠ 0) ->
  (forall n g, 0 <= n < PAGES -> shared s root n = Some g -> pf_managed (frames s) g ->
     pf_refcount (frames s) g + count_below (shares s root g) PAGES <= 65535) ->
  3 * count_below (is_shared s root) PAGES + 5 <= pf_avail (frames s) ->
  0x1000 <= va < 2 ^ 47 -> pmap_is_trampoline_va va = false -> pmap_clone_user_space root s = (s', dst) ->
  exists T' M' p, sharing T' M' p root dst va s' (fun h => ind (h = f)).
Proof.
  intros HD H1 H2 H3 Hv Hnt E. pose proof (ds_root _ _ _ _ _ _ _ HD) as Hr.
  destruct (clone_spec s T M _ root 0 (ds_spaces _ _ _ _ _ _ _ HD) Hr H1 H2 H3 _ _ E) as (T' & M' & HS & HT & HF).
  destruct (fk_root _ _ _ _ _ _ HF) as (Hn & p & Hc). exists T', M', p. constructor.
  - exact HS.
  - by eapply lookup_weaken.
  - done.
  - congruence.
  - rewrite (fk_child _ _ _ _ _ _ HF), (fk_parent _ _ _ _ _ _ HF) by (done || lia). unfold inherited.
    rewrite (ds_pte _ _ _ _ _ _ _ HD) by lia. rewrite decide_True by done.
    destruct (mapped_entry f PAGE_COW eq_refl) as (_ & Epr & Eus). cbv zeta in Epr, Eus.
    cbn [mbind option_bind]. rewrite Eus, (proj2 (Z.leb_le _ va)) by lia. do 2 eexists. split; [done|]. split; [done|].
    by rewrite (proj1 (child_pte_bits _)), parent_pte_ptr.
Qed.
End Correct.

(** ** A concrete machine

    64 frames, the first 16 of them reserved; one address space with a page
    whose frame has a second reference. *)

Definition boot_frames : Pmm.pmm :=
  foldl (fun s p => Pmm.pmm_release_page (p * Pmm.CHIMERA_PAGE_SIZE) s)
    (Pmm.wire_pages 64 {| Pmm.s_pages := ∅; Pmm.s_buddy_freelist := ∅; Pmm.s_max_phys_page := 64;
                          Pmm.s_total_ram_pages := 64; Pmm.s_free_pages := 0 |}) (seqZ 16 48).
Definition boot_with (fr : Pmm.pmm) : pmap Pmm.pmm :=
  {| mem := ∅; frames := fr; s_kernel_pml4_phys := 0; s_tramp_phys := 0; cr3 := 0;
     cpu_active_cr3 := ∅; tlb := [] |}.
Definition boot : pmap Pmm.pmm := boot_with boot_frames.

Definition demo_root : Z := snd (pmap_create boot).
Definition created : pmap Pmm.pmm := fst (pmap_create boot).
Definition demo_frame : Z := snd (alloc_page created).
Definition allocated : pmap Pmm.pmm := retain_page demo_frame (fst (alloc_page created)).
Definition demo_va : Z := 0x400000.
Definition mapped : pmap Pmm.pmm := fst (pmap_map_user_page demo_root demo_va demo_frame PAGE_COW allocated).

Lemma boot_wf : Pmm.Wf boot_frames.
Proof.
  unfold boot_frames. generalize (fun p => proj1 (elem_of_seqZ 16 48 p)). generalize (seqZ 16 48). intros l Hl.
  assert (HW : Pmm.Wf (Pmm.wire_pages 64 {| Pmm.s_pages := ∅; Pmm.s_buddy_freelist := ∅; Pmm.s_max_phys_page := 64;
                          Pmm.s_total_ram_pages := 64; Pmm.s_free_pages := 0 |})).
  { apply (Pmm.wire_pages_wf {| Pmm.s_pages := ∅; Pmm.s_buddy_freelist := ∅; Pmm.s_max_phys_page := 64;
                          Pmm.s_total_ram_pages := 64; Pmm.s_free_pages := 0 |}); [cbn; lia|done|done]. }
  revert HW. generalize (Pmm.wire_pages 64 {| Pmm.s_pages := ∅; Pmm.s_buddy_freelist := ∅; Pmm.s_max_phys_page := 64;
                          Pmm.s_total_ram_pages := 64; Pmm.s_free_pages := 0 |}).
  induction l as [|x l IH]; intros s HW; [done|]. cbn [foldl]. apply IH; [intros y Hy; apply Hl; set_solver|].
  apply Pmm.release_spec; [done|]. unfold Pmm.CHIMERA_PAGE_SIZE. specialize (Hl x ltac:(set_solver)). lia.
Qed.

Lemma no_spaces fr : Pmm.Wf fr -> Spaces (boot_with fr) ∅ ∅ (fun _ => 0).
Proof.
  intros HW. split; [|done]. assert (Hc : forall g, count ∅ g = 0) by (intros; done).
  constructor; try done.
  - intros a g. split; [done|]. by intros (? & ? & ? & ? & _).
  - intros g Ha Hg Hm. rewrite Hc. apply (pf_refcount_law (frames (boot_with fr))); [exact HW|lia].
  - by intros g [-> ?].
Qed.

Lemma created_eq : pmap_create boot = (created, demo_root).
Proof. apply surjective_pairing. Qed.

Lemma demo_frame_eq : alloc_page created = (fst (alloc_page created), demo_frame).
Proof. apply surjective_pairing. Qed.

Lemma demo_frame_ok : no_page demo_frame = false.
Proof. vm_compute. reflexivity. Qed.

Lemma boot_avail : 5 <= pf_avail (frames boot).
Proof. vm_compute. congruence. Qed.

Lemma mapped_eq : pmap_map_user_page demo_root demo_va demo_frame PAGE_COW allocated = (mapped, demo_frame).
Proof.
  assert (E : snd (pmap_map_user_page demo_root demo_va demo_frame PAGE_COW allocated) = demo_frame) by (vm_compute; reflexivity).
  unfold mapped. destruct (pmap_map_user_page _ _ _ _ _) as [s r]. cbn in E. by rewrite E.
Qed.

Lemma demo_spaces :
  (exists T M, alloced T M demo_root demo_frame allocated) /\
  exists T M, demo_state T M demo_root demo_frame demo_va (tramp_entry created) mapped.
Proof.
  exact (demo_build boot created demo_root _ demo_frame demo_va mapped (no_spaces _ boot_wf) boot_avail created_eq demo_frame_eq
           demo_frame_ok ltac:(done) mapped_eq).
Qed.

Lemma demo_va_range : 0x1000 <= demo_va < 2 ^ 47.
Proof. unfold demo_va. lia. Qed.

Definition cow_faulted : pmap Pmm.pmm := fst (pmap_handle_cow_fault demo_root demo_va mapped).


Lemma pmap_map_user_page_maps_witness :
  exists T M, alloced T M demo_root demo_frame allocated /\ page_mapped allocated T demo_root demo_va demo_frame PAGE_COW mapped.
Proof.
  destruct (proj1 demo_spaces) as (T & M & HA). exists T, M. split; [exact HA|].
  destruct (al_free _ _ _ _ _ HA) as (Ht & Hnt & Ha & Hb).
  destruct (pmap_map_user_page_maps allocated T M _ demo_root 0 demo_va demo_frame PAGE_COW mapped demo_frame (al_spaces _ _ _ _ _ HA)
              (al_root _ _ _ _ _ HA) demo_va_range eq_refl Ha Hb Hnt Ht (al_refs _ _ _ _ _ HA) mapped_eq) as (T' & M' & _ & [[E _]|(_ & _ & Hm)]).
  - pose proof demo_frame_ok as Hok. rewrite E in Hok. discriminate Hok.
  - exact Hm.
Defined.

Lemma pmap_unmap_user_range_removes_witness :
  exists T M, demo_state T M demo_root demo_frame demo_va (tramp_entry created) mapped /\
  exists s', pmap_unmap_user_range_ex 1 demo_root demo_va 4096 true mapped = Some s' /\ pte s' demo_root demo_va = None.
Proof.
  destruct (proj2 demo_spaces) as (T & M & HD). exists T, M. split; [exact HD|].
  assert (Hv : 0 <= demo_va < 2 ^ 47) by (pose proof demo_va_range; lia).
  destruct (pmap_unmap_user_range_removes mapped T M _ demo_root 0 demo_va 4096 true 1 (ds_spaces _ _ _ _ _ _ _ HD)
              (ds_root _ _ _ _ _ _ _ HD) (proj1 Hv) ltac:(lia) ltac:(unfold demo_va; lia) ltac:(lia)) as (s' & M' & E & _ & Hp & _).
  exists s'. split; [exact E|]. rewrite (Hp demo_root 0 demo_va (ds_root _ _ _ _ _ _ _ HD) Hv).
  apply decide_True. split; [reflexivity|]. unfold demo_va. vm_compute. split; discriminate.
Defined.

Lemma pmap_unmap_user_range_diverges_witness :
  4096 ≠ 0 /\ pmap_unmap_user_range 5 4096 (2 ^ 64 - 8192) 4096 boot = None.
Proof. split; [discriminate|]. apply (pmap_unmap_user_range_diverges boot 4096 5). discriminate. Defined.

Definition demo_child : Z := snd (pmap_clone_user_space demo_root mapped).
Definition forked_state : pmap Pmm.pmm := fst (pmap_clone_user_space demo_root mapped).

Lemma forked_eq : pmap_clone_user_space demo_root mapped = (forked_state, demo_child).
Proof. apply surjective_pairing. Qed.

Lemma demo_fork_ok T M : demo_state T M demo_root demo_frame demo_va (tramp_entry created) mapped ->
  (forall va' e, 0 <= va' < 2 ^ 47 -> pte mapped demo_root va' = Some e -> get_table_ptr e ≠ 0) /\
  (forall n g, 0 <= n < PAGES -> shared mapped demo_root n = Some g -> pf_managed (frames mapped) g ->
     pf_refcount (frames mapped) g + count_below (shares mapped demo_root g) PAGES <= 65535) /\
  3 * count_below (is_shared mapped demo_root) PAGES + 5 <= pf_avail (frames mapped).
Proof.
  intros HD. destruct (proj1 demo_spaces) as (T' & M' & HA). destruct (al_free _ _ _ _ _ HA) as (_ & _ & Ha & Hb).
  apply (demo_fork T M demo_root demo_frame demo_va (tramp_entry created) mapped HD Ha).
  - split; [vm_compute; reflexivity|exact (proj2 Hb)].
  - vm_compute. discriminate.
  - vm_compute. discriminate.
  - vm_compute. discriminate.
  - vm_compute. discriminate.
Qed.


Lemma demo_sharing : exists T M p, sharing T M p demo_root demo_child demo_va forked_state (fun h => ind (h = demo_frame)).
Proof.
  destruct (proj2 demo_spaces) as (T & M & HD). destruct (demo_fork_ok T M HD) as (H1 & H2 & H3).
  exact (demo_shares T M demo_root demo_frame demo_va _ mapped forked_state demo_child HD H1 H2 H3
           (conj (Z.le_trans 0 0x1000 _ ltac:(lia) (proj1 demo_va_range)) (proj2 demo_va_range)) eq_refl forked_eq).
Qed.

Lemma pmap_protect_user_range_breaks_cow_witness :
  exists s' e e', pmap_protect_user_range demo_child demo_va 4096 3 forked_state = (s', 0) /\
    pte s' demo_child demo_va = Some e' /\ has e' PAGE_WRITE = true /\
    pte s' demo_root demo_va = Some e /\ get_table_ptr e = get_table_ptr e'.
Proof.
  destruct demo_sharing as (T & M & p & [HS Hr Hc Hne (e & e2 & He & He2 & Eg)]).
  assert (Hv : 0 <= demo_va < 2 ^ 47) by (pose proof demo_va_range; lia).
  destruct (pmap_protect_user_range_breaks_cow forked_state T M _ demo_child p demo_va e demo_root 0 demo_va e2 3 HS Hc Hr eq_refl
              (proj1 Hv) ltac:(unfold demo_va; lia) Hv Hne He He2 Eg eq_refl) as (s' & e' & Hx).
  exists s', e2, e'. exact Hx.
Defined.
End PmapCorrect.
