(* ===== verification/Copy.v ===== *)
(** * Copying between user and kernel memory

    Model of [kernel/mm/copy.c] over the page tables of [Pmap]: the kernel
    side of a transfer is a list of bytes, the user side is read and written
    through the translations of the active address space.  Every round of the
    loops handles at least one byte, so that as many rounds as there are bytes
    always suffice. *)

From S2P Require Import Prelude Pmm Pmap.
Import Pmap.

Module Copy.

Definition USER_SPACE_MIN : Z := 0x1000.
Definition USER_SPACE_MAX : Z := 0x00007FFFFFFFFFFF.
Definition USER_STACK_MIN : Z := 0x00007FF000000000.
Definition USER_STACK_MAX : Z := 0x00007FFFFFFFFFFF.

(** The bytes of a transfer of [remaining] bytes that lie in the page of [addr]. *)
Definition chunk (addr remaining : Z) : Z :=
  let c := 4096 - Z.land addr 0xFFF in
  if remaining <? c then remaining else c.

Definition bad_range (uaddr kaddr len : Z) : bool :=
  (uaddr =? 0) || (kaddr =? 0) || (len =? 0)
  || (uaddr <? USER_SPACE_MIN) || (USER_SPACE_MAX - USER_SPACE_MIN <? len) || (USER_SPACE_MAX - len <? uaddr).

Section Ops.
Context {F : Type} `{PageFrames F}.
Notation state := (pmap F).
Implicit Types s : state.

Definition get_active_pml4 (s : state) : Z := Z.land (cr3 s) (not64 0xFFF).

Fixpoint copyin_loop (fuel : nat) (pml4_phys curr_uaddr remaining : Z) (s : state) : option (chimera_error * list Z) :=
  if remaining =? 0 then Some (CHIMERA_SUCCESS, []) else
  match fuel with
  | O => None
  | S fuel =>
      let phys := pmap_extract pml4_phys curr_uaddr s in
      if phys =? 0 then Some (CHIMERA_ERR_INVALID, []) else
      let page_offset := Z.land curr_uaddr 0xFFF in
      let n := chunk curr_uaddr remaining in
      let data := load_bytes (mem s) (Z.land phys (not64 0xFFF) + page_offset) n in
      '(e, rest) ← copyin_loop fuel pml4_phys (curr_uaddr + n) (remaining - n) s;
      Some (e, data ++ rest)
  end.

(** The error code and the bytes written to the kernel buffer. *)
Definition copyin (uaddr kaddr len : Z) (s : state) : option (chimera_error * list Z) :=
  if bad_range uaddr kaddr len then Some (CHIMERA_ERR_INVALID, [])
  else copyin_loop (Z.to_nat len) (get_active_pml4 s) uaddr len s.

(** The frame of a page that [copyout] may write to; [None] when there is none. *)
Definition copyout_page (pml4_phys curr_uaddr : Z) (s : state) : state * option Z :=
  let raw s := match pmap_get_pte_ptr pml4_phys curr_uaddr s with Some ea => word s ea | None => 0 end in
  let pte := raw s in
  if negb (has pte PAGE_PRESENT) then
    let page_vaddr := Z.land curr_uaddr (not64 0xFFF) in
    if (USER_STACK_MIN <=? page_vaddr) && (page_vaddr <=? USER_STACK_MAX) then
      let '(s, new_paddr) := alloc_page s in
      if no_page new_paddr then (s, None) else
      let s := set_page new_paddr 0 s in
      let '(s, r) := pmap_map_user_page pml4_phys page_vaddr new_paddr
                       (Z.lor (Z.lor (Z.lor 1 2) 4) PAGE_NX) s in
      if r =? 0 then (release_page new_paddr s, None) else (s, Some new_paddr)
    else (s, None)
  else if negb (has pte PAGE_WRITE) then
    if has pte PAGE_COW then
      let '(s, ok) := pmap_handle_cow_fault pml4_phys (Z.land curr_uaddr (not64 0xFFF)) s in
      if negb ok then (s, None) else
      let pte := raw s in
      if negb (has pte PAGE_PRESENT) || negb (has pte PAGE_WRITE) then (s, None)
      else (s, Some (Z.land pte PTE_PHYS_MASK))
    else (s, None)
  else (s, Some (Z.land pte PTE_PHYS_MASK)).

(** [data] are the bytes at [curr_kaddr] still to be copied. *)
Fixpoint copyout_loop (fuel : nat) (pml4_phys curr_uaddr : Z) (data : list Z) (s : state) : option (state * chimera_error) :=
  let remaining := Z.of_nat (length data) in
  if remaining =? 0 then Some (s, CHIMERA_SUCCESS) else
  match fuel with
  | O => None
  | S fuel =>
      match copyout_page pml4_phys curr_uaddr s with
      | (s, None) => Some (s, CHIMERA_ERR_INVALID)
      | (s, Some phys) =>
          let page_offset := Z.land curr_uaddr 0xFFF in
          let n := chunk curr_uaddr remaining in
          let s := s <| mem ::= store_bytes (phys + page_offset) (take (Z.to_nat n) data) |> in
          copyout_loop fuel pml4_phys (curr_uaddr + n) (drop (Z.to_nat n) data) s
      end
  end.

Definition copyout (kaddr : Z) (data : list Z) (uaddr : Z) (s : state) : option (state * chimera_error) :=
  let len := Z.of_nat (length data) in
  if bad_range uaddr kaddr len then Some (s, CHIMERA_ERR_INVALID)
  else copyout_loop (length data) (get_active_pml4 s) uaddr data s.

(** The bytes of [l] up to and including the first NUL, and whether there is one. *)
Fixpoint until_nul (l : list Z) : list Z * bool :=
  match l with
  | [] => ([], false)
  | c :: l => if c =? 0 then ([c], true) else let '(r, f) := until_nul l in (c :: r, f)
  end.

Fixpoint copyinstr_loop (fuel : nat) (pml4_phys curr_uaddr left : Z) (s : state) : option (chimera_error * list Z) :=
  if left =? 0 then Some (CHIMERA_ERR_RANGE, []) else
  match fuel with
  | O => None
  | S fuel =>
      if USER_SPACE_MAX <=? curr_uaddr then Some (CHIMERA_ERR_INVALID, []) else
      let phys := pmap_extract pml4_phys curr_uaddr s in
      if phys =? 0 then Some (CHIMERA_ERR_INVALID, []) else
      let page_offset := Z.land curr_uaddr 0xFFF in
      let n := chunk curr_uaddr left in
      let '(data, found) := until_nul (load_bytes (mem s) (Z.land phys (not64 0xFFF) + page_offset) n) in
      if found then Some (CHIMERA_SUCCESS, data) else
      '(e, rest) ← copyinstr_loop fuel pml4_phys (curr_uaddr + n) (left - n) s;
      Some (e, data ++ rest)
  end.

(** The error code and the characters written to the kernel buffer; unless the
    code is [CHIMERA_ERR_INVALID] their number is stored in [lencopied]. *)
Definition copyinstr (uaddr kaddr maxlen : Z) (s : state) : option (chimera_error * list Z) :=
  if (uaddr =? 0) || (kaddr =? 0) || (maxlen =? 0) then Some (CHIMERA_ERR_INVALID, []) else
  if (uaddr <? USER_SPACE_MIN) || (USER_SPACE_MAX <=? uaddr) then Some (CHIMERA_ERR_INVALID, [])
  else copyinstr_loop (Z.to_nat maxlen) (get_active_pml4 s) uaddr maxlen s.
End Ops.
End Copy.
