(* ===== verification/CopySpec.v ===== *)
(** * Copying between user and kernel memory: theorems

    [ubyte s root va] is the byte a user program sees at [va] in the address
    space [root].  The copy routines read and write exactly these bytes. *)

From S2P Require Import Prelude Pmm Pmap PmapInv PmapMap PmapSpec PmapFork PmapClone PmapCorrect Copy.
Import Pmap PmapInv PmapMap PmapSpec PmapFork PmapClone PmapCorrect Copy.

Module CopySpec.

Lemma page_offset va : Z.land va 0xFFF = va mod 4096.
Proof. change 0xFFF with (Z.ones 12). by rewrite Z.land_ones. Qed.

Lemma extract_frame e va :
  Z.land (Z.lor (get_table_ptr e) (Z.land va 0xFFF)) (not64 0xFFF) = get_table_ptr e.
Proof.
  unfold get_table_ptr. rewrite Z.land_lor_distr_l, <- !Z.land_assoc.
  change (Z.land 0xFFF (not64 0xFFF)) with 0. change (Z.land PTE_PHYS_MASK (not64 0xFFF)) with PTE_PHYS_MASK.
  by rewrite Z.land_0_r, Z.lor_0_r.
Qed.

(** The bytes of a chunk lie in one page. *)
Lemma chunk_range va n : 0 <= va -> 0 < n ->
  0 < chunk va n <= n /\ forall i, 0 <= i < chunk va n -> (va + i) / 4096 = va / 4096 /\ (va + i) mod 4096 = va mod 4096 + i.
Proof.
  intros Hv Hn. unfold chunk. rewrite page_offset. pose proof (Z.mod_pos_bound va 4096 ltac:(done)).
  assert (Hc : 0 < (if n <? 4096 - va mod 4096 then n else 4096 - va mod 4096) <= n /\
    (if n <? 4096 - va mod 4096 then n else 4096 - va mod 4096) <= 4096 - va mod 4096).
  { destruct (Z.ltb_spec n (4096 - va mod 4096)); lia. }
  split; [lia|]. intros i Hi. pose proof (Z.div_mod va 4096 ltac:(done)).
  assert (Ei : (va + i) / 4096 = va / 4096) by (symmetry; apply (Z.div_unique _ _ _ (va mod 4096 + i)); lia).
  split; [done|]. pose proof (Z.div_mod (va + i) 4096 ltac:(done)). lia.
Qed.

Lemma load_bytes_length m a n : 0 <= n -> Z.of_nat (length (load_bytes m a n)) = n.
Proof. intros Hn. unfold load_bytes. rewrite length_fmap, length_seqZ. lia. Qed.

Lemma load_bytes_lookup m a n i : 0 <= i < n -> load_bytes m a n !! Z.to_nat i = Some (load8 m (a + i)).
Proof.
  intros Hi. unfold load_bytes. rewrite list_lookup_fmap, lookup_seqZ_lt by lia. cbn. do 3 f_equal. lia.
Qed.

Section Copies.
Context {F : Type} `{PageFrames F}.
Notation state := (pmap F).
Implicit Types (s : state) (T : tables) (M : gmap Z Z) (owed : Z -> Z).

Definition ubyte (s : state) (root va : Z) : option Z :=
  e ← pte s root va; Some (load8 (mem s) (get_table_ptr e + va mod 4096)).

(** The pages of a range that are mapped are user pages. *)
Definition user_range (s : state) (root lo hi : Z) : Prop :=
  forall va e, lo <= va < hi -> pte s root va = Some e ->
    has e PAGE_USER = true /\ get_table_ptr e ≠ 0 /\ pf_managed (frames s) (get_table_ptr e).

(** [data] are the bytes a user sees from [lo] on. *)
Definition reads (s : state) (root lo : Z) (data : list Z) : Prop :=
  forall i, 0 <= i < Z.of_nat (length data) -> ubyte s root (lo + i) = data !! Z.to_nat i.

Lemma reads_app s root lo d1 d2 : reads s root lo d1 -> reads s root (lo + Z.of_nat (length d1)) d2 -> reads s root lo (d1 ++ d2).
Proof.
  intros H1 H2 i Hi. rewrite length_app in Hi. destruct (decide (i < Z.of_nat (length d1))).
  - rewrite H1 by lia. symmetry. apply lookup_app_l. lia.
  - rewrite lookup_app_r by lia. replace (Z.to_nat i - length d1)%nat with (Z.to_nat (i - Z.of_nat (length d1))) by lia.
    rewrite <- H2 by lia. f_equal. lia.
Qed.

(** What is found in the page of a mapped address. *)
Lemma page_reads s root va e n : 0 <= va -> pte s root va = Some e ->
  (forall i, 0 <= i < n -> (va + i) / 4096 = va / 4096 /\ (va + i) mod 4096 = va mod 4096 + i) ->
  reads s root va (load_bytes (mem s) (get_table_ptr e + va mod 4096) n).
Proof.
  intros Hv He Hpage i Hi. destruct (decide (0 <= n)); [|unfold load_bytes in Hi; rewrite length_fmap, length_seqZ in Hi; lia].
  rewrite load_bytes_length in Hi by done. rewrite load_bytes_lookup by done. destruct (Hpage i Hi) as [E1 E2].
  unfold ubyte. rewrite (pte_same_page s root (va + i) va E1), He. cbn. rewrite E2. do 2 f_equal. lia.
Qed.

Lemma extract_cases s T M owed root p va :
  PInv s T M owed -> T !! root = Some (4%nat, p) -> 0x1000 <= va < 2 ^ 47 ->
  (forall e, pte s root va = Some e -> has e PAGE_USER = true /\ get_table_ptr e ≠ 0) ->
  match pte s root va with
  | Some e => pmap_extract root va s ≠ 0 /\ Z.land (pmap_extract root va s) (not64 0xFFF) = get_table_ptr e
  | None => pmap_extract root va s = 0
  end.
Proof.
  intros HI Hr Hv Hu. rewrite (extract_pte _ _ _ _ _ _ _ HI Hr Hv). destruct (pte s root va) as [e|]; [|done].
  destruct (Hu e eq_refl) as [-> Hz]. split; [|apply extract_frame]. intros E. by apply Z.lor_eq_0_iff in E as [? _].
Qed.

Lemma copyin_loop_spec s T M owed root p : PInv s T M owed -> T !! root = Some (4%nat, p) ->
  forall fuel cur rem, 0x1000 <= cur -> 0 <= rem -> cur + rem < 2 ^ 47 -> rem <= Z.of_nat fuel -> user_range s root cur (cur + rem) ->
  exists e data, copyin_loop fuel root cur rem s = Some (e, data) /\ reads s root cur data /\
    (e = CHIMERA_SUCCESS /\ Z.of_nat (length data) = rem \/
     e = CHIMERA_ERR_INVALID /\ Z.of_nat (length data) < rem /\ pte s root (cur + Z.of_nat (length data)) = None).
Proof.
  intros HI Hr. induction fuel as [|fuel IH]; intros cur rem Hc Hrem Hend Hfuel Hu; cbn [copyin_loop].
  all: destruct (Z.eqb_spec rem 0) as [->|Hne];
    [exists CHIMERA_SUCCESS, []; split; [done|]; split; [intros i Hi; cbn in Hi; lia|by left]|].
  { lia. }
  pose proof (extract_cases s T M owed root p cur HI Hr ltac:(lia)) as Hx.
  destruct (pte s root cur) as [e0|] eqn:He.
  2:{ rewrite Hx by done. cbn. exists CHIMERA_ERR_INVALID, []. split; [done|]. split; [intros i Hi; cbn in Hi; lia|right].
      cbn. rewrite Z.add_0_r. split; [done|]. split; [lia|done]. }
  destruct Hx as [Hx1 Hx2]. { intros e [= <-]. by destruct (Hu cur e0 ltac:(lia) He) as (? & ? & _). }
  rewrite (proj2 (Z.eqb_neq _ _)) by done. rewrite Hx2, page_offset.
  destruct (chunk_range cur rem ltac:(lia) ltac:(lia)) as [Hn Hpage]. set (n := chunk cur rem) in *.
  destruct (IH (cur + n) (rem - n)) as (e & rest & -> & Hrd & Hcase); [lia..|intros va x Hva; apply Hu; lia|].
  cbn [mbind option_bind]. pose proof (load_bytes_length (mem s) (get_table_ptr e0 + cur mod 4096) n ltac:(lia)) as Hlen.
  eexists e, _. split; [done|]. split.
  - apply reads_app; [by apply page_reads; [lia|..]|]. by rewrite Hlen.
  - rewrite length_app, Nat2Z.inj_add, Hlen. destruct Hcase as [[-> ?]|(-> & ? & Hp)]; [left; split; [done|lia]|right].
    split; [done|]. split; [lia|]. by rewrite Z.add_assoc.
Qed.

(** ** Writing to user memory *)

Lemma byte_word g off : aligned g -> 0 <= off < 4096 -> 8 * ((g + off) / 8) = g + 8 * (off / 8) /\ (g + off) mod 8 = off mod 8.
Proof.
  intros Ha Ho. unfold aligned in Ha. pose proof (Z.div_mod g 4096 ltac:(done)).
  replace (g + off) with (off + (512 * (g / 4096)) * 8) by lia. rewrite Z.div_add, Z.mod_add by done. lia.
Qed.

(** Equal words hold equal bytes. *)
Lemma load8_page s s' g g' off : aligned g -> aligned g' -> 0 <= off < 4096 ->
  (forall j, 0 <= j < 512 -> word s' (g' + 8 * j) = word s (g + 8 * j)) ->
  load8 (mem s') (g' + off) = load8 (mem s) (g + off).
Proof.
  intros Ha Ha' Ho Hw. unfold load8. destruct (byte_word g off Ha Ho) as [-> ->]. destruct (byte_word g' off Ha' Ho) as [-> ->].
  do 2 f_equal. apply Hw. pose proof (Z.div_mod off 8 ltac:(done)). pose proof (Z.mod_pos_bound off 8 ltac:(done)). lia.
Qed.

(** Where [store_bytes] inside a page writes. *)
Lemma store_page_word g off l s f j : aligned g -> aligned f -> f ≠ g -> 0 <= off -> off + Z.of_nat (length l) <= 4096 -> 0 <= j < 512 ->
  load (store_bytes (g + off) l (mem s)) (f + 8 * j) = word s (f + 8 * j).
Proof.
  intros Ha Hf Hne Ho Hl Hj. apply store_bytes_out. intros i Hi E. replace (g + off + i) with (g + (off + i)) in E by lia.
  destruct (byte_word g (off + i) Ha ltac:(lia)) as [E' _]. rewrite E' in E.
  pose proof (Z.div_mod (off + i) 8 ltac:(done)). pose proof (Z.mod_pos_bound (off + i) 8 ltac:(done)).
  apply slot_inj in E; [by destruct E|done|done|lia|done].
Qed.

Lemma same_page_addr g g' a b : aligned g -> aligned g' -> 0 <= a < 4096 -> 0 <= b < 4096 -> g + a = g' + b -> g = g' /\ a = b.
Proof.
  intros Hg Hg' Ha Hb E. unfold aligned in *. pose proof (Z.div_mod g 4096 ltac:(done)). pose proof (Z.div_mod g' 4096 ltac:(done)). lia.
Qed.

Lemma release_fresh s T M owed a : Spaces s T M (fun h => owed h + ind (h = a)) -> aligned a -> 0 < a < 2 ^ 52 ->
  pf_managed (frames s) a -> 0 <= owed a -> (forall h, pf_managed (frames s) h -> 0 <= owed h) ->
  Spaces (release_page a s) T M owed.
Proof.
  intros [HI _] Ha Hb Hm Ho Hnn. assert (Hi : ind (a = a) = 1) by (unfold ind; by rewrite decide_True).
  pose proof (pi_count _ _ _ _ HI a Ha ltac:(lia) Hm) as Hc. cbn beta in Hc. pose proof (count_nonneg M a).
  split.
  - eapply PInv_owed; [apply (release_inv s T M _ a HI Ha ltac:(lia))|..].
    + intros _. split; [|lia]. destruct (T !! a) as [[l q]|] eqn:E; [|done].
      destruct (pi_table _ _ _ _ HI _ _ _ E) as (_ & _ & _ & _ & _ & E0). cbn beta in E0. lia.
    + intros h. unfold ind. repeat case_decide; lia.
    + intros h _ Hd. exfalso. apply Hd. unfold ind. repeat case_decide; lia.
  - intros h Hh. apply Hnn. by apply (pf_release_law (frames s) a (pi_ok _ _ _ _ HI) ltac:(lia) Ha).
Qed.

Lemma page_trunc_page va : 0 <= va < 2 ^ 64 -> Z.land va (not64 0xFFF) = 4096 * (va / 4096) /\ (4096 * (va / 4096)) / 4096 = va / 4096.
Proof. intros Hv. fold (page_trunc va). rewrite page_trunc_div by lia. split; [done|]. by rewrite (Z.mul_comm 4096), Z.div_mul. Qed.

(** The address spaces in which nothing but [lo, hi) of [root] may change, a
    part of a range [blo, bhi) of user pages. *)
Context (s0 : state) (T0 : tables) (owed : Z -> Z) (root p blo bhi lo hi : Z) (data : list Z).
Hypothesis Hroot : T0 !! root = Some (4%nat, p).
Hypothesis Hlo : 0x1000 <= lo.
Hypothesis Hhi : hi < 2 ^ 47.
Hypothesis Hwide : 0 <= blo <= lo /\ hi <= bhi <= 2 ^ 47.
Hypothesis Hlen : hi = lo + Z.of_nat (length data).
Hypothesis Hdata : Forall is_byte data.
Hypothesis Htramp : forall va, lo <= va < hi -> pmap_is_trampoline_va va = false.

(** The frames of the writable pages of the range are mapped nowhere else. *)
Definition private (s : state) : Prop := forall va e, blo <= va < bhi -> pte s root va = Some e -> has e PAGE_WRITE = true ->
  forall root' p' va' e', T0 !! root' = Some (4%nat, p') -> 0 <= va' < 2 ^ 47 -> pte s root' va' = Some e' ->
    get_table_ptr e' = get_table_ptr e -> root' = root /\ va' / 4096 = va / 4096.

Record CO (cur : Z) (s : state) (T : tables) (M : gmap Z Z) : Prop := {
  co_spaces : Spaces s T M owed;
  co_sub : T0 ⊆ T;
  co_user : user_range s root blo bhi;
  co_priv : private s;
  co_pte : forall root' p' va', T0 !! root' = Some (4%nat, p') -> 0 <= va' < 2 ^ 47 ->
    ~ (root' = root /\ lo / 4096 <= va' / 4096 <= (hi - 1) / 4096) -> pte s root' va' = pte s0 root' va';
  co_keep : forall root' p' va' b, T0 !! root' = Some (4%nat, p') -> 0 <= va' < 2 ^ 47 ->
    ~ (root' = root /\ lo <= va' < cur) -> ubyte s0 root' va' = Some b -> ubyte s root' va' = Some b;
  co_done : reads s root lo (take (Z.to_nat (cur - lo)) data)
}.

(** A step that leaves the page tables and all mapped memory alone. *)
Lemma CO_same cur s T M s' T' M' : CO cur s T M -> Spaces s' T' M' owed -> T ⊆ T' ->
  (forall g, pf_managed (frames s') g <-> pf_managed (frames s) g) ->
  (forall root' p' va', T0 !! root' = Some (4%nat, p') -> 0 <= va' < 2 ^ 47 -> pte s' root' va' = pte s root' va') ->
  (forall root' p' va' x j, T0 !! root' = Some (4%nat, p') -> 0 <= va' < 2 ^ 47 -> pte s root' va' = Some x -> 0 <= j < 512 ->
     word s' (get_table_ptr x + 8 * j) = word s (get_table_ptr x + 8 * j)) ->
  CO cur s' T' M'.
Proof.
  intros [C1 C2 C3 C4 C5 C6 C7] HS' HT Hm Hp Hw.
  assert (Hub : forall root' p' va', T0 !! root' = Some (4%nat, p') -> 0 <= va' < 2 ^ 47 -> ubyte s' root' va' = ubyte s root' va').
  { intros root' p' va' Hr Hv. unfold ubyte. rewrite (Hp root' p') by done. destruct (pte s root' va') as [x|] eqn:Ex; [|done]. cbn. f_equal.
    apply load8_page; [apply get_table_ptr_range..|by apply Z.mod_pos_bound|]. intros j Hj. by apply (Hw root' p' va'). }
  constructor; try done.
  - by etrans.
  - intros va e Hva He. rewrite (Hp root p) in He by (done || lia). rewrite Hm. by apply (C3 va).
  - intros va e Hva He Hew root' p' va' e' Hr Hv He'. rewrite (Hp root p) in He by (done || lia). rewrite (Hp root' p') in He' by done.
    by apply (C4 va e Hva He Hew root' p' va' e').
  - intros root' p' va' Hr Hv N. rewrite (Hp root' p') by done. by apply (C5 root' p').
  - intros root' p' va' b Hr Hv N Hb. rewrite (Hub root' p') by done. by apply (C6 root' p').
  - intros i Hi. rewrite (Hub root p) by (done || (rewrite length_take in Hi; lia)). by apply C7.
Qed.

(** A step that gives the page of [cur] a frame of its own. *)
Lemma CO_page cur s T M s' T' M' e' : lo <= cur < hi -> CO cur s T M -> Spaces s' T' M' owed -> T ⊆ T' ->
  (forall g, pf_managed (frames s') g <-> pf_managed (frames s) g) ->
  (forall root' p' va', T0 !! root' = Some (4%nat, p') -> 0 <= va' < 2 ^ 47 ->
     pte s' root' va' = if decide (root' = root /\ va' / 4096 = cur / 4096) then Some e' else pte s root' va') ->
  (forall root' p' va' x j, T0 !! root' = Some (4%nat, p') -> 0 <= va' < 2 ^ 47 -> pte s root' va' = Some x -> 0 <= j < 512 ->
     word s' (get_table_ptr x + 8 * j) = word s (get_table_ptr x + 8 * j)) ->
  (forall x j, pte s root cur = Some x -> 0 <= j < 512 -> word s' (get_table_ptr e' + 8 * j) = word s (get_table_ptr x + 8 * j)) ->
  (has e' PAGE_USER = true /\ get_table_ptr e' ≠ 0 /\ pf_managed (frames s) (get_table_ptr e')) ->
  (forall root' p' va' x, T0 !! root' = Some (4%nat, p') -> 0 <= va' < 2 ^ 47 -> pte s' root' va' = Some x ->
     get_table_ptr x = get_table_ptr e' -> root' = root /\ va' / 4096 = cur / 4096) ->
  CO cur s' T' M'.
Proof.
  intros Hcur [C1 C2 C3 C4 C5 C6 C7] HS' HT Hm Hp Hw Hnew Hue Hpr.
  assert (Hub : forall root' p' va' b, T0 !! root' = Some (4%nat, p') -> 0 <= va' < 2 ^ 47 -> ubyte s root' va' = Some b -> ubyte s' root' va' = Some b).
  { intros root' p' va' b Hr Hv Hb. unfold ubyte in *. rewrite (Hp root' p') by done. apply bind_Some in Hb as (x & Hx & [= <-]).
    case_decide as E; cbn.
    - destruct E as [-> E]. f_equal. apply load8_page; [apply get_table_ptr_range..|by apply Z.mod_pos_bound|]. intros j Hj.
      apply Hnew; [|done]. by rewrite <- (pte_same_page s root va' cur).
    - rewrite Hx. cbn. f_equal. apply load8_page; [apply get_table_ptr_range..|by apply Z.mod_pos_bound|]. intros j Hj. by apply (Hw root' p' va'). }
  constructor; try done.
  - by etrans.
  - intros va e Hva He. rewrite (Hp root p) in He by (done || lia). rewrite Hm. case_decide; [injection He as <-; done|]. by apply (C3 va).
  - intros va e Hva He Hew root' p' va' x Hr Hv Hx Eg. rewrite (Hp root p) in He by (done || lia). case_decide as E.
    + injection He as <-. destruct (Hpr root' p' va' x Hr Hv Hx Eg) as [-> ->]. split; [done|]. by destruct E as [_ ->].
    + pose proof Hx as Hx0. rewrite (Hp root' p') in Hx by done. case_decide as E'; [|by apply (C4 va e Hva He Hew root' p' va' x)].
      injection Hx as <-. destruct (Hpr root p va e) as [_ Ec]; [done|lia| |done|tauto].
      rewrite (Hp root p) by (done || lia). by rewrite decide_False.
  - intros root' p' va' Hr Hv N. rewrite (Hp root' p'), decide_False; [by apply (C5 root' p')| |done|done].
    intros [-> E]. apply N. split; [done|]. rewrite E. split; apply Z.div_le_mono; lia.
  - intros root' p' va' b Hr Hv N Hb. apply (Hub root' p' va' b Hr Hv). by apply (C6 root' p').
  - intros i Hi. pose proof (C7 i Hi) as Hb. destruct (take _ data !! Z.to_nat i) as [b|] eqn:Eb.
    + apply (Hub root p); [done|rewrite length_take in Hi; lia|done].
    + apply lookup_ge_None_1 in Eb. lia.
Qed.

Lemma CO_write cur s T M e n : let l := take (Z.to_nat n) (drop (Z.to_nat (cur - lo)) data) in
  let s' := s <| mem ::= store_bytes (get_table_ptr e + cur mod 4096) l |> in
  lo <= cur < hi -> CO cur s T M -> pte s root cur = Some e -> has e PAGE_WRITE = true -> n = chunk cur (hi - cur) ->
  CO (cur + n) s' T M.
Proof.
  intros l s' Hcur [C1 C2 C3 C4 C5 C6 C7] He Hew En. destruct (chunk_range cur (hi - cur) ltac:(lia) ltac:(lia)) as [Hn Hpage].
  rewrite <- En in *. destruct (get_table_ptr_range e) as [Hae _]. pose proof (Z.mod_pos_bound cur 4096 ltac:(done)) as Hoff.
  assert (Ell : Z.of_nat (length l) = n) by (unfold l; rewrite length_take, length_drop; lia).
  assert (Hlb : Forall is_byte l) by (by apply Forall_take, Forall_drop).
  destruct (Hpage (n - 1) ltac:(lia)) as [_ Hfit]. pose proof (Z.mod_pos_bound (cur + (n - 1)) 4096 ltac:(done)).
  assert (Hr : T !! root = Some (4%nat, p)) by (by eapply lookup_weaken). destruct C1 as [HI Hnn].
  assert (Hcv : 0 <= cur < 2 ^ 47) by lia. pose proof (pte_data _ _ _ _ _ _ _ _ HI Hr Hcv He) as Ht.
  destruct (data_write_inv s s' T M owed HI) as [HI' Hp]; [done|done| |].
  { intros f q l' j Hf Hj. apply store_page_word; try done; [|congruence|lia|lia]. apply (pi_table _ _ _ _ HI _ _ _ Hf). }
  assert (Hp' : forall root' p' va', T0 !! root' = Some (4%nat, p') -> 0 <= va' < 2 ^ 47 -> pte s' root' va' = pte s root' va').
  { intros root' p' va' Hr'. apply (Hp root' p'). by eapply lookup_weaken. }
  assert (Hub : forall root' p' va', T0 !! root' = Some (4%nat, p') -> 0 <= va' < 2 ^ 47 ->
    ~ (root' = root /\ cur <= va' < cur + n) -> ubyte s' root' va' = ubyte s root' va').
  { intros root' p' va' Hr' Hv' N. unfold ubyte. rewrite (Hp' root' p') by done. destruct (pte s root' va') as [x|] eqn:Ex; [|done]. cbn. f_equal.
    rewrite load8_store_bytes by done. rewrite decide_False; [done|]. intros Hin. apply N.
    destruct (same_page_addr (get_table_ptr x) (get_table_ptr e) (va' mod 4096) (get_table_ptr x + va' mod 4096 - get_table_ptr e)) as [Eg Eo];
      [apply get_table_ptr_range|done|by apply Z.mod_pos_bound|lia|lia|].
    destruct (C4 cur e ltac:(lia) He Hew root' p' va' x Hr' Hv' Ex Eg) as [-> Epg]. split; [done|].
    pose proof (Z.div_mod va' 4096 ltac:(done)). pose proof (Z.div_mod cur 4096 ltac:(done)). lia. }
  constructor; try done.
  - intros va e' Hva He'. rewrite (Hp' root p) in He' by (done || lia). by apply (C3 va).
  - intros va e1 Hva He1 Hw1 root' p' va' e2 Hr' Hv' He2. rewrite (Hp' root p) in He1 by (done || lia). rewrite (Hp' root' p') in He2 by done.
    by apply (C4 va e1 Hva He1 Hw1 root' p' va' e2).
  - intros root' p' va' Hr' Hv' N. rewrite (Hp' root' p') by done. by apply (C5 root' p').
  - intros root' p' va' b Hr' Hv' N Hb. rewrite (Hub root' p') by (done || (intros [-> ?]; apply N; split; [done|lia])).
    apply (C6 root' p'); [done|done| |done]. intros [-> ?]. apply N. split; [done|lia].
  - intros i Hi. rewrite length_take in Hi. rewrite lookup_take_lt by lia. destruct (decide (i < cur - lo)).
    + rewrite (Hub root p) by (done || lia). rewrite (C7 i) by (rewrite length_take; lia). rewrite lookup_take_lt by lia. done.
    + unfold ubyte. rewrite (Hp' root p) by (done || lia). destruct (Hpage (lo + i - cur) ltac:(lia)) as [E1 E2].
      replace (cur + (lo + i - cur)) with (lo + i) in E1, E2 by lia. rewrite (pte_same_page s root (lo + i) cur E1), He. cbn.
      rewrite load8_store_bytes by done. rewrite decide_True by lia. symmetry.
      rewrite list_lookup_lookup_total_lt by lia. f_equal. unfold l. rewrite lookup_total_take_lt by lia. rewrite lookup_total_drop. f_equal. lia.
Qed.

(** [copyout_page] leaves the page of [cur] writable, or reports that it cannot. *)
Definition page_ready (cur : Z) (r : state * option Z) : Prop :=
  exists T M, CO cur r.1 T M /\
  match r.2 with
  | Some phys => exists e, pte r.1 root cur = Some e /\ has e PAGE_WRITE = true /\ get_table_ptr e = phys
  | None => True
  end.

Definition STACK_FLAGS : Z := Z.lor (Z.lor (Z.lor 1 2) 4) PAGE_NX.

Lemma stack_entry a : let w := Z.lor (Z.lor (Z.lor (Z.land a PTE_PHYS_MASK) STACK_FLAGS) PAGE_PRESENT) PAGE_USER in
  has w PAGE_USER = true /\ has w PAGE_WRITE = true.
Proof. intros w. unfold w. bits. by rewrite !orb_true_r. Qed.

(** A zeroed frame that no page maps yet. *)
Lemma fresh_page cur s T M s1 a : CO cur s T M -> alloc_page s = (s1, a) -> no_page a = false ->
  let s2 := set_page a 0 s1 in
  aligned a /\ 0 < a < 2 ^ 52 /\ ~ is_tramp s2 a /\ T !! a = None /\ pf_managed (frames s2) a /\ 0 < pf_refcount (frames s2) a /\
  owed a = 0 /\ Spaces s2 T M (fun h => owed h + ind (h = a)) /\
  (forall g, pf_managed (frames s2) g <-> pf_managed (frames s) g) /\
  (forall root' p' va', T0 !! root' = Some (4%nat, p') -> 0 <= va' < 2 ^ 47 -> pte s2 root' va' = pte s root' va') /\
  (forall root' p' va' x, T0 !! root' = Some (4%nat, p') -> 0 <= va' < 2 ^ 47 -> pte s root' va' = Some x ->
     get_table_ptr x ≠ a /\ forall j, 0 <= j < 512 -> word s2 (get_table_ptr x + 8 * j) = word s (get_table_ptr x + 8 * j)).
Proof.
  intros HC Ea Eno s2. pose proof (co_spaces _ _ _ _ HC) as [HI Hnn]. pose proof (co_sub _ _ _ _ HC) as HT.
  destruct (alloc_inv _ _ _ _ _ _ HI Ea) as [Es1 Hal]. rewrite Eno in Hal.
  destruct (grown_alloc _ _ _ _ _ _ HI Ea) as (G1 & _ & _). destruct Hal as (Ht & Ha & Hb & Hm & Hrc & Hnt & Hc & Ho & HI1 & Hr0).
  destruct (data_write_inv s1 s2 T M _ HI1) as [HI2 Hp2]; [done|done| |].
  { intros f l q j Hf Hj. unfold s2. rewrite word_set_page, decide_False; [done|congruence|done| |done]. apply (pi_table _ _ _ _ HI _ _ _ Hf). }
  do 2 (split; [done|]). split; [change (~ is_tramp s1 a); by rewrite Es1|]. do 2 (split; [done|]).
  split; [change (frames s2) with (frames s1); lia|]. split; [done|]. split; [split; [exact HI2|]|split; [apply G1|split]].
  - intros h Hh. apply (gr_managed _ _ _ _ G1) in Hh. specialize (Hnn h Hh). unfold ind. case_decide; lia.
  - intros root' p' va' Hr' Hv'. rewrite (Hp2 root' p') by (done || by eapply lookup_weaken). by rewrite Es1.
  - intros root' p' va' x Hr' Hv' Hx. assert (Hxa : get_table_ptr x ≠ a).
    { intros E. apply (gr_managed _ _ _ _ G1) in Hm. rewrite <- E in Hm, Hr0.
      pose proof (pte_live _ _ _ _ _ _ _ _ HI (lookup_weaken _ _ _ _ Hr' HT) Hv' Hx Hm). lia. }
    split; [done|]. intros j Hj. unfold s2. rewrite word_set_page, decide_False by (done || apply get_table_ptr_range). by rewrite Es1.
Qed.

Lemma copyout_stack cur s T M s1 a s3 r : lo <= cur < hi -> CO cur s T M -> pte s root cur = None ->
  alloc_page s = (s1, a) -> no_page a = false ->
  pmap_map_user_page root (4096 * (cur / 4096)) a STACK_FLAGS (set_page a 0 s1) = (s3, r) ->
  page_ready cur (if r =? 0 then (release_page a s3, None) else (s3, Some a)).
Proof.
  intros Hcur HC Hno Ea Eno Em. pose proof (co_spaces _ _ _ _ HC) as [HI Hnn]. pose proof (co_sub _ _ _ _ HC) as HT.
  pose proof (lookup_weaken _ _ _ _ Hroot HT) as Hr.
  destruct (fresh_page cur s T M s1 a HC Ea Eno) as (Ha & Hb & Hnt & Ht & Hm & Hrc & Ho & HS2 & Hm2 & Hp2 & Hx2).
  set (s2 := set_page a 0 s1) in *. clearbody s2.
  destruct (page_trunc_page cur ltac:(lia)) as [_ Hpg]. pose proof (Z.div_mod cur 4096 ltac:(done)). pose proof (Z.mod_pos_bound cur 4096 ltac:(done)).
  assert (Hpv : 0x1000 <= 4096 * (cur / 4096) < 2 ^ 47).
  { split; [|lia]. assert (1 <= cur / 4096) by (apply Z.div_le_lower_bound; lia). lia. }
  assert (Hown : pf_managed (frames s2) a -> 0 < pf_refcount (frames s2) a /\ 0 < owed a + ind (a = a)).
  { intros _. split; [done|]. unfold ind. rewrite decide_True by done. lia. }
  destruct (map_page_spec s2 T M _ root p (4096 * (cur / 4096)) a STACK_FLAGS s3 r HS2 Hr Hpv eq_refl Ha ltac:(lia) Hnt Ht Hown Em) as (T' & M' & HF & Hcase).
  assert (Hm3 : forall g, pf_managed (frames s3) g <-> pf_managed (frames s) g) by (intros g; by rewrite (fr_managed _ _ _ _ HF)).
  pose proof (fr_sub _ _ _ _ HF) as HT'.
  assert (Hw3 : forall ow root' p' va' x j, PInv s3 T' M' ow -> T0 !! root' = Some (4%nat, p') -> 0 <= va' < 2 ^ 47 -> pte s root' va' = Some x ->
    pte s3 root' va' = Some x -> 0 <= j < 512 -> word s3 (get_table_ptr x + 8 * j) = word s (get_table_ptr x + 8 * j)).
  { intros ow root' p' va' x j HI3 Hr' Hv' Hx Hx3 Hj. destruct (Hx2 root' p' va' x Hr' Hv' Hx) as [_ <-]; [|done].
    apply (fr_mem _ _ _ _ HF); [|apply get_table_ptr_range|done].
    exact (pte_data _ _ _ _ _ _ _ _ HI3 (lookup_weaken _ _ _ _ (lookup_weaken _ _ _ _ Hr' HT) HT') Hv' Hx3). }
  destruct Hcase as [(-> & HS3 & _ & Hp3)|(-> & HS3 & Hpm)].
  - cbn. exists T', M'. split; [|done]. apply (CO_same cur s T M); try done.
    + apply release_fresh; try done; [by apply Hm3, Hm2|lia|]. intros h Hh. by apply Hnn, Hm3.
    + intros g. cbn. rewrite <- Hm3. by apply (pf_release_law (frames s3) a (pi_ok _ _ _ _ (proj1 HS3)) ltac:(lia) Ha).
    + intros root' p' va' Hr' Hv'. change (pte s3 root' va' = pte s root' va'). rewrite (Hp3 root' p') by (done || by eapply lookup_weaken). by apply (Hp2 root' p').
    + intros root' p' va' x j Hr' Hv' Hx Hj. change (word s3 (get_table_ptr x + 8 * j) = word s (get_table_ptr x + 8 * j)).
      eapply (Hw3 _ root' p' va'); try done; [apply HS3|]. rewrite (Hp3 root' p') by (done || by eapply lookup_weaken). by rewrite (Hp2 root' p').
  - rewrite (proj2 (Z.eqb_neq a 0)) by lia. set (w := Z.lor (Z.lor (Z.lor (Z.land a PTE_PHYS_MASK) STACK_FLAGS) PAGE_PRESENT) PAGE_USER).
    assert (Hp3 : forall root' p' va', T0 !! root' = Some (4%nat, p') -> 0 <= va' < 2 ^ 47 ->
      pte s3 root' va' = if decide (root' = root /\ va' / 4096 = cur / 4096) then Some w else pte s root' va').
    { intros root' p' va' Hr' Hv'. rewrite (pm_pte _ _ _ _ _ _ _ Hpm root' p') by (done || by eapply lookup_weaken). rewrite Hpg.
      by rewrite (Hp2 root' p'). }
    assert (Ew : get_table_ptr w = a) by (unfold w; rewrite get_table_ptr_entry by done; apply get_table_ptr_id; [done|lia]).
    destruct (stack_entry a) as [Eu Eww]. fold w in Eu, Eww. clearbody w. exists T', M'. split.
    + apply (CO_page cur s T M s3 T' M' w Hcur HC); try done; rewrite ?Ew.
      * destruct HS3 as [HI3 _]. split; [eapply PInv_owed; [exact HI3|..]|intros h Hh; by apply Hnn, Hm3].
        -- intros h. unfold ind. repeat case_decide; lia.
        -- intros h _ Hd. exfalso. apply Hd. unfold ind. repeat case_decide; lia.
      * intros root' p' va' x j Hr' Hv' Hx Hj. eapply (Hw3 _ root' p' va'); try done; [apply HS3|]. rewrite (Hp3 root' p') by done.
        rewrite decide_False; [done|]. intros [-> E]. rewrite (pte_same_page s root va' cur E) in Hx. congruence.
      * intros x j Hx. congruence.
      * split; [done|]. split; [lia|by apply Hm2].
      * intros root' p' va' x Hr' Hv' Hx Ex. rewrite (Hp3 root' p') in Hx by done. case_decide; [done|].
        by destruct (Hx2 root' p' va' x Hr' Hv' Hx).
    + cbn. exists w. rewrite (Hp3 root p) by (done || lia). by rewrite decide_True.
Qed.

Lemma kept_user e e' : Z.land e' KEPT = Z.land e KEPT -> has e PAGE_USER = true -> has e' PAGE_USER = true.
Proof.
  intros Hk Hu. assert (E : has (Z.land e' KEPT) PAGE_USER = has (Z.land e KEPT) PAGE_USER) by (by rewrite Hk). bits.
  by rewrite Hu, andb_true_r in E.
Qed.

(** The copy-on-write branch. *)
Lemma copyout_cow cur s T M e s1 ok : lo <= cur < hi -> CO cur s T M -> pte s root cur = Some e ->
  pmap_handle_cow_fault root (4096 * (cur / 4096)) s = (s1, ok) ->
  exists M1, CO cur s1 T M1 /\ (ok = true -> exists e1, pte s1 root cur = Some e1 /\ has e1 PAGE_WRITE = true).
Proof.
  intros Hcur HC He Ec. pose proof (co_spaces _ _ _ _ HC) as HS. pose proof (co_sub _ _ _ _ HC) as HT.
  pose proof (lookup_weaken _ _ _ _ Hroot HT) as Hr. destruct (page_trunc_page cur ltac:(lia)) as [_ Hpg].
  pose proof (Z.div_mod cur 4096 ltac:(done)). pose proof (Z.mod_pos_bound cur 4096 ltac:(done)).
  assert (Hv : 0 <= 4096 * (cur / 4096) < 2 ^ 47) by lia.
  destruct (cow_fault_spec s T M owed root p (4096 * (cur / 4096)) s1 ok HS Hr Hv) as ((M1 & HS1) & Hcase); [|done|].
  { rewrite <- (Htramp cur Hcur). apply same_trampoline; [done|lia|done]. }
  exists M1. rewrite (pte_same_page s root _ cur Hpg) in Hcase. rewrite He in Hcase. destruct ok.
  - destruct Hcase as (e0 & e' & [= <-] & _ & Hres).
    assert (Hp : forall root' p' va', T0 !! root' = Some (4%nat, p') -> 0 <= va' < 2 ^ 47 ->
      pte s1 root' va' = if decide (root' = root /\ va' / 4096 = cur / 4096) then Some e' else pte s root' va').
    { intros root' p' va' Hr' Hv'. rewrite (rs_pte _ _ _ _ _ _ _ Hres root' p') by (done || by eapply lookup_weaken). by rewrite Hpg. }
    destruct (co_user _ _ _ _ HC cur e ltac:(lia) He) as (Hu & Hz & Hmg). destruct (rs_frames _ _ _ _ _ _ _ Hres) as [Hmf Hfr].
    assert (Hmg' : get_table_ptr e' ≠ 0 /\ pf_managed (frames s) (get_table_ptr e')) by (destruct Hfr as [->|[? ?]]; done).
    destruct (rs_write _ _ _ _ _ _ _ Hres) as (Hw' & _ & Hkept). split.
    + apply (CO_page cur s T M s1 T M1 e' Hcur HC HS1); try done.
      * intros root' p' va' x j Hr' Hv' Hx Hj. apply (rs_others _ _ _ _ _ _ _ Hres root' p' va'); try done. by eapply lookup_weaken.
      * intros x j Hx Hj. assert (x = e) as -> by congruence. by apply (rs_contents _ _ _ _ _ _ _ Hres).
      * split; [by apply (kept_user e)|done].
      * intros root' p' va' x Hr' Hv' Hx Ex. rewrite <- Hpg.
        apply (rs_private _ _ _ _ _ _ _ Hres (proj2 Hmg') root' p' va' x); try done. by eapply lookup_weaken.
    + intros _. exists e'. rewrite (Hp root p) by (done || lia). by rewrite decide_True.
  - destruct Hcase as (Em & Hmf & Hp & _). split; [|done].
    apply (CO_same cur s T M s1 T M1 HC HS1); try done. intros root' p' va' x j _ _ _ _. unfold word. by rewrite Em.
Qed.

Lemma raw_pte s T M ow cur : PInv s T M ow -> T !! root = Some (4%nat, p) -> 0 <= cur < 2 ^ 47 ->
  let e := match pmap_get_pte_ptr root cur s with Some ea => word s ea | None => 0 end in
  pte s root cur = if has e PAGE_PRESENT then Some e else None.
Proof.
  intros HI Hr Hv. cbv zeta. rewrite (pte_ptr_walk s T M ow root p cur) by done. unfold pte. by destruct (walk s root cur).
Qed.

Lemma copyout_page_spec cur s T M : lo <= cur < hi -> CO cur s T M -> page_ready cur (copyout_page root cur s).
Proof.
  intros Hcur HC. pose proof (co_spaces _ _ _ _ HC) as [HI Hnn]. pose proof (lookup_weaken _ _ _ _ Hroot (co_sub _ _ _ _ HC)) as Hr.
  pose proof (raw_pte s T M owed cur HI Hr ltac:(lia)) as Hp. cbv zeta in Hp.
  assert (Hsame : page_ready cur (s, None)) by (exists T, M; done).
  unfold copyout_page. set (e := match pmap_get_pte_ptr root cur s with Some ea => word s ea | None => 0 end) in *. clearbody e.
  destruct (page_trunc_page cur ltac:(lia)) as [-> _]. destruct (has e PAGE_PRESENT) eqn:Ep; cbn [negb].
  - destruct (has e PAGE_WRITE) eqn:Ew; cbn [negb]; [exists T, M; split; [done|]; by exists e|].
    destruct (has e PAGE_COW); [|done]. destruct (pmap_handle_cow_fault root (4096 * (cur / 4096)) s) as [s1 ok] eqn:Ec.
    destruct (copyout_cow cur s T M e s1 ok Hcur HC Hp Ec) as (M1 & HC1 & Hok). destruct ok; cbn [negb]; [|by exists T, M1].
    destruct (Hok eq_refl) as (e1 & He1 & Hw1). pose proof (raw_pte s1 T M1 owed cur (proj1 (co_spaces _ _ _ _ HC1)) Hr ltac:(lia)) as Hp1.
    cbv zeta in Hp1. set (e2 := match pmap_get_pte_ptr root cur s1 with Some ea => word s1 ea | None => 0 end) in *. clearbody e2.
    rewrite He1 in Hp1. destruct (has e2 PAGE_PRESENT); [|done]. injection Hp1 as <-. rewrite Hw1. cbn. exists T, M1. split; [done|]. by exists e1.
  - destruct (_ && _); [|done]. destruct (alloc_page s) as [s1 a] eqn:Ea. destruct (no_page a) eqn:Eno.
    + destruct (alloc_inv _ _ _ _ _ _ HI Ea) as [Es1 Hal]. rewrite Eno in Hal. destruct (grown_alloc _ _ _ _ _ _ HI Ea) as (G1 & _ & _).
      exists T, M. split; [|done]. apply (CO_same cur s T M); try done.
      * split; [done|]. intros h Hh. by apply Hnn, (gr_managed _ _ _ _ G1).
      * apply G1.
      * intros. cbn. by rewrite Es1.
      * intros. cbn. by rewrite Es1.
    + destruct (pmap_map_user_page root (4096 * (cur / 4096)) a _ (set_page a 0 s1)) as [s3 r] eqn:Em.
      exact (copyout_stack cur s T M s1 a s3 r Hcur HC Hp Ea Eno Em).
Qed.

Lemma copyout_loop_spec fuel : forall cur s T M, lo <= cur <= hi -> CO cur s T M -> hi - cur <= Z.of_nat fuel ->
  exists s' e, copyout_loop fuel root cur (drop (Z.to_nat (cur - lo)) data) s = Some (s', e) /\
  exists T' M' cur', cur <= cur' <= hi /\ CO cur' s' T' M' /\ (e = CHIMERA_SUCCESS /\ cur' = hi \/ e = CHIMERA_ERR_INVALID).
Proof.
  induction fuel as [|fuel IH]; intros cur s T M Hcur HC Hfuel; cbn [copyout_loop]; rewrite length_drop.
  all: destruct (Z.eqb_spec (Z.of_nat (length data - Z.to_nat (cur - lo))) 0) as [E0|E0];
    [assert (cur = hi) as -> by lia; exists s, CHIMERA_SUCCESS; split; [done|]; exists T, M, hi; split; [lia|]; split; [done|by left]|].
  { lia. }
  destruct (copyout_page_spec cur s T M ltac:(lia) HC) as (T1 & M1 & HC1 & Hr). destruct (copyout_page root cur s) as [s1 [phys|]]; cbn in HC1, Hr.
  2:{ exists s1, CHIMERA_ERR_INVALID. split; [done|]. exists T1, M1, cur. split; [lia|]. split; [done|by right]. }
  destruct Hr as (e & He & Hw & <-). replace (Z.of_nat (length data - Z.to_nat (cur - lo))) with (hi - cur) by lia.
  rewrite page_offset, drop_drop. destruct (chunk_range cur (hi - cur) ltac:(lia) ltac:(lia)) as [Hn _].
  pose proof (CO_write cur s1 T1 M1 e _ ltac:(lia) HC1 He Hw eq_refl) as HC2. cbv zeta in HC2. set (n := chunk cur (hi - cur)) in *. clearbody n.
  replace (Z.to_nat (cur - lo) + Z.to_nat n)%nat with (Z.to_nat (cur + n - lo)) by lia.
  destruct (IH (cur + n) _ T1 M1 ltac:(lia) HC2 ltac:(lia)) as (s' & e' & E & T' & M' & cur' & Hc' & Hrest).
  exists s', e'. split; [exact E|]. exists T', M', cur'. split; [lia|done].
Qed.
End Copies.

Section Claims.
Context {F : Type} `{PageFrames F}.
Notation state := (pmap F).
Implicit Types (s : state) (T : tables) (M : gmap Z Z) (owed : Z -> Z).

Lemma good_range uaddr kaddr len : kaddr ≠ 0 -> 0 < len -> 0x1000 <= uaddr -> uaddr + len < 2 ^ 47 -> bad_range uaddr kaddr len = false.
Proof.
  intros Hk Hl Hu He. unfold bad_range, USER_SPACE_MAX, USER_SPACE_MIN.
  rewrite !(proj2 (Z.eqb_neq _ _)), !(proj2 (Z.ltb_ge _ _)) by lia. done.
Qed.

(** [copyin] of a range that lies in the user half. *)
Lemma copyin_spec s T M owed root p uaddr kaddr len :
  PInv s T M owed -> T !! root = Some (4%nat, p) -> get_active_pml4 s = root -> kaddr ≠ 0 -> 0 < len ->
  0x1000 <= uaddr -> uaddr + len < 2 ^ 47 -> user_range s root uaddr (uaddr + len) ->
  exists e data, copyin uaddr kaddr len s = Some (e, data) /\ reads s root uaddr data /\
    (e = CHIMERA_SUCCESS /\ Z.of_nat (length data) = len \/
     e = CHIMERA_ERR_INVALID /\ Z.of_nat (length data) < len /\ pte s root (uaddr + Z.of_nat (length data)) = None).
Proof.
  intros HI Hr Ha Hk Hl Hu He Hur. unfold copyin. rewrite good_range by done. rewrite Ha.
  apply (copyin_loop_spec s T M owed root p); try done; lia.
Qed.

Lemma cr3_map root va pa fl s : cr3 (pmap_map_user_page root va pa fl s).1 = cr3 s.
Proof.
  assert (Ht : forall b ea s, cr3 (user_table b ea s).1 = cr3 s).
  { intros b ea s1. unfold user_table. destruct (_ || _); [|done]. unfold alloc_page.
    destruct (pf_alloc _) as [fr a]. by destruct (no_page a). }
  unfold pmap_map_user_page, pmap_map_user_page_unlocked. destruct (_ || _); [done|]. destruct (_ <=? _); [done|].
  repeat match goal with |- context [user_table ?b ?ea ?s] =>
    pose proof (Ht b ea s); destruct (user_table b ea s) as [? []]; cbn [negb fst snd] in *; [|congruence] end.
  assert (Hl : forall ea s, cr3 (map_leaf ea va pa fl s) = cr3 s) by (intros; unfold map_leaf; by destruct (_ && _ && _)).
  rewrite Hl. congruence.
Qed.

Lemma cr3_cow root va s : cr3 (pmap_handle_cow_fault root va s).1 = cr3 s.
Proof.
  unfold pmap_handle_cow_fault. destruct (_ || _); [done|]. destruct (pmap_get_pte_ptr _ _ _); [|done].
  destruct (_ || _); [done|]. destruct (_ <? _); [|done]. unfold alloc_page. destruct (pf_alloc _) as [fr a]. by destruct (no_page a).
Qed.

Lemma cr3_page root cur s : cr3 (copyout_page root cur s).1 = cr3 s.
Proof.
  unfold copyout_page. destruct (negb _).
  - destruct (_ && _); [|done]. unfold alloc_page. destruct (pf_alloc _) as [fr a]. destruct (no_page a); [done|].
    match goal with |- context [pmap_map_user_page ?r ?v ?a ?f ?s] => pose proof (cr3_map r v a f s); destruct (pmap_map_user_page r v a f s) end.
    by destruct (_ =? 0).
  - destruct (negb _); [|done]. destruct (has _ _); [|done].
    match goal with |- context [pmap_handle_cow_fault ?r ?v ?s] => pose proof (cr3_cow r v s); destruct (pmap_handle_cow_fault r v s) as [? []] end; [|done].
    cbn [negb]. by destruct (_ || _).
Qed.

Lemma cr3_loop fuel root cur data s s' e : copyout_loop fuel root cur data s = Some (s', e) -> cr3 s' = cr3 s.
Proof.
  revert cur data s. induction fuel as [|fuel IH]; intros cur data s; cbn [copyout_loop]; (destruct (_ =? 0); [by intros [= <- <-]|]); [done|].
  pose proof (cr3_page root cur s) as Hp. destruct (copyout_page root cur s) as [s1 [phys|]]; [|by intros [= <- <-]].
  intros E%IH. by rewrite E.
Qed.

(** What the other pages of the range may hold for [copyout] to be safe. *)
Definition private_range (s : state) (T : tables) (root lo hi : Z) : Prop := private T root lo hi s.

(** An address space whose range [blo, bhi) user memory is copied to and from:
    it is active, and outside of it no page shares a writable frame of the range. *)
Record uspace (T0 : tables) (owed : Z -> Z) (root blo bhi : Z) (s : state) (T : tables) (M : gmap Z Z) : Prop := {
  us_spaces : Spaces s T M owed;
  us_sub : T0 ⊆ T;
  us_user : user_range s root blo bhi;
  us_priv : private T0 root blo bhi s;
  us_active : get_active_pml4 s = root
}.

Lemma copyout_spec s T0 T M owed root p blo bhi uaddr kaddr data :
  let hi := uaddr + Z.of_nat (length data) in
  uspace T0 owed root blo bhi s T M -> T0 !! root = Some (4%nat, p) -> kaddr ≠ 0 -> data ≠ [] -> Forall is_byte data ->
  0x1000 <= uaddr -> hi < 2 ^ 47 -> 0 <= blo <= uaddr /\ hi <= bhi <= 2 ^ 47 ->
  (forall va, uaddr <= va < hi -> pmap_is_trampoline_va va = false) ->
  exists s' e T' M', copyout kaddr data uaddr s = Some (s', e) /\ uspace T0 owed root blo bhi s' T' M' /\
    (forall root' p' va b, T0 !! root' = Some (4%nat, p') -> 0 <= va < 2 ^ 47 -> ~ (root' = root /\ uaddr <= va < hi) ->
       ubyte s root' va = Some b -> ubyte s' root' va = Some b) /\
    (e = CHIMERA_SUCCESS /\ reads s' root uaddr data \/ e = CHIMERA_ERR_INVALID).
Proof.
  intros hi [HS HT Hu Hpr Ha] Hr Hk Hd Hb Hlo Hhi Hw Htr. assert (Hl : 0 < Z.of_nat (length data)) by (destruct data; [done|cbn; lia]).
  assert (HC0 : CO s T0 owed root blo bhi uaddr hi data uaddr s T M).
  { constructor; try done. intros i Hi. rewrite length_take in Hi. lia. }
  destruct (copyout_loop_spec s T0 owed root p blo bhi uaddr hi data Hr Hlo Hhi Hw eq_refl Hb Htr (length data) uaddr s T M ltac:(lia) HC0 ltac:(lia))
    as (s' & e & E & T' & M' & cur' & Hc & HC & Hcase).
  rewrite Z.sub_diag in E. cbn [Z.to_nat drop] in E. exists s', e, T', M'. unfold copyout. rewrite good_range, Ha by done. split; [done|].
  split; [|split].
  - constructor; [apply HC..|]. unfold get_active_pml4. by rewrite (cr3_loop _ _ _ _ _ _ _ E).
  - intros root' p' va b Hr' Hv N Hvb. apply (co_keep _ _ _ _ _ _ _ _ _ _ _ _ _ HC root' p'); try done. intros [-> ?]. apply N. split; [done|lia].
  - destruct Hcase as [[-> ->]| ->]; [left|by right]. split; [done|].
    pose proof (co_done _ _ _ _ _ _ _ _ _ _ _ _ _ HC) as Hdone. by rewrite take_ge in Hdone by lia.
Qed.

(** What a user can read, [copyin] copies. *)
Lemma copyin_reads s T M owed root p uaddr kaddr data :
  PInv s T M owed -> T !! root = Some (4%nat, p) -> get_active_pml4 s = root -> kaddr ≠ 0 -> data ≠ [] ->
  0x1000 <= uaddr -> uaddr + Z.of_nat (length data) < 2 ^ 47 -> user_range s root uaddr (uaddr + Z.of_nat (length data)) ->
  reads s root uaddr data -> copyin uaddr kaddr (Z.of_nat (length data)) s = Some (CHIMERA_SUCCESS, data).
Proof.
  intros HI Hr Ha Hk Hd Hlo Hhi Hu Hdata. assert (Hl : 0 < Z.of_nat (length data)) by (destruct data; [done|cbn; lia]).
  destruct (copyin_spec s T M owed root p uaddr kaddr _ HI Hr Ha Hk Hl Hlo Hhi Hu) as (e & d & -> & Hrd & Hcase).
  assert (Hsame : forall i, (i < length d)%nat -> d !! i = data !! i).
  { intros i Hi. assert (Hi' : (i < length data)%nat) by (destruct Hcase as [[_ ?]|(_ & ? & _)]; lia).
    rewrite <- (Nat2Z.id i), <- Hrd, <- Hdata by lia. done. }
  destruct Hcase as [[-> El]|(_ & El & Hn)].
  - do 2 f_equal. apply list_eq. intros i. destruct (decide (i < length d)%nat); [by apply Hsame|].
    rewrite !lookup_ge_None_2 by lia. done.
  - exfalso. pose proof (Hdata (Z.of_nat (length d)) ltac:(lia)) as Hx. unfold ubyte in Hx. rewrite Hn in Hx. cbn in Hx.
    symmetry in Hx. apply lookup_ge_None_1 in Hx. lia.
Qed.


Lemma until_nul_spec l : let '(r, f) := until_nul l in
  r `prefix_of` l /\ (if f then exists str, r = str ++ [0] /\ 0 ∉ str else r = l /\ 0 ∉ l).
Proof.
  induction l as [|c l IH]; cbn [until_nul]; [split; [done|split; [done|set_solver]]|].
  destruct (Z.eqb_spec c 0) as [->|Hc].
  - split; [by apply prefix_cons, prefix_nil|]. exists []. set_solver.
  - destruct (until_nul l) as [r f]. destruct IH as [Hp IH]. split; [by apply prefix_cons|]. destruct f.
    + destruct IH as (str & -> & Hs). exists (c :: str). set_solver.
    + destruct IH as [-> Hl]. set_solver.
Qed.

Lemma reads_prefix s root lo d1 d2 : d1 `prefix_of` d2 -> reads s root lo d2 -> reads s root lo d1.
Proof.
  intros [k ->] Hr i Hi. rewrite Hr by (rewrite length_app; lia). apply lookup_app_l. lia.
Qed.

(** What a string copy delivers: the string with its terminator, or the
    characters up to the limit or to the first unmapped address. *)
Definition string_copied (s : state) (root lo maxlen : Z) (e : chimera_error) (data : list Z) : Prop :=
  reads s root lo data /\ Z.of_nat (length data) <= maxlen /\
  match e with
  | CHIMERA_SUCCESS => exists str, data = str ++ [0] /\ 0 ∉ str
  | CHIMERA_ERR_RANGE => Z.of_nat (length data) = maxlen /\ 0 ∉ data
  | CHIMERA_ERR_INVALID => 0 ∉ data /\
      (USER_SPACE_MAX <= lo + Z.of_nat (length data) \/ pte s root (lo + Z.of_nat (length data)) = None)
  | _ => False
  end.

Lemma copyinstr_loop_spec s T M owed root p : PInv s T M owed -> T !! root = Some (4%nat, p) ->
  forall fuel cur rem, 0x1000 <= cur <= 2 ^ 47 -> 0 <= rem <= Z.of_nat fuel -> user_range s root cur (2 ^ 47) ->
  exists e data, copyinstr_loop fuel root cur rem s = Some (e, data) /\ string_copied s root cur rem e data.
Proof.
  intros HI Hr. induction fuel as [|fuel IH]; intros cur rem Hc Hrem Hu; cbn [copyinstr_loop].
  all: destruct (Z.eqb_spec rem 0) as [->|Hne];
    [exists CHIMERA_ERR_RANGE, []; split; [done|]; split; [intros i Hi; cbn in Hi; lia|]; split; [done|]; set_solver|].
  { lia. }
  assert (Hinv : USER_SPACE_MAX <= cur \/ pte s root cur = None -> string_copied s root cur rem CHIMERA_ERR_INVALID []).
  { intros Hx. split; [intros i Hi; cbn in Hi; lia|]. split; [cbn; lia|]. cbn. rewrite Z.add_0_r. split; [set_solver|done]. }
  destruct (Z.leb_spec USER_SPACE_MAX cur); [eexists _, []; split; [done|]; by apply Hinv; left|]. unfold USER_SPACE_MAX in *.
  pose proof (extract_cases s T M owed root p cur HI Hr ltac:(lia)) as Hx. destruct (pte s root cur) as [e0|] eqn:He.
  2:{ rewrite Hx by done. cbn. eexists _, []. split; [done|]. by apply Hinv; right. }
  destruct Hx as [Hx1 Hx2]. { intros e [= <-]. by destruct (Hu cur e0 ltac:(lia) He) as (? & ? & _). }
  rewrite (proj2 (Z.eqb_neq _ _)) by done. rewrite Hx2, page_offset.
  destruct (chunk_range cur rem ltac:(lia) ltac:(lia)) as [Hn Hpage]. set (n := chunk cur rem) in *.
  assert (Hend : cur + n <= 2 ^ 47).
  { destruct (Hpage (n - 1) ltac:(lia)) as [E _]. pose proof (Z.div_mod (cur + (n - 1)) 4096 ltac:(done)).
    pose proof (Z.mod_pos_bound (cur + (n - 1)) 4096 ltac:(done)). assert (cur / 4096 < 2 ^ 35) by (apply Z.div_lt_upper_bound; lia). lia. }
  clearbody n. pose proof (page_reads s root cur e0 n ltac:(lia) He Hpage) as Hrd.
  pose proof (load_bytes_length (mem s) (get_table_ptr e0 + cur mod 4096) n ltac:(lia)) as Hlen.
  set (l := load_bytes _ _ _) in *. clearbody l. pose proof (until_nul_spec l) as Hl. destruct (until_nul l) as [r f].
  destruct Hl as [Hpre Hl]. pose proof (prefix_length _ _ Hpre). destruct f.
  { eexists _, _. split; [done|]. split; [by apply (reads_prefix _ _ _ _ l)|]. split; [lia|done]. }
  destruct Hl as [-> Hl0]. destruct (IH (cur + n) (rem - n)) as (e & rest & -> & Hr1 & Hr2 & Hr3); [lia..|intros va x Hva; apply Hu; lia|].
  cbn [mbind option_bind]. eexists _, _. split; [done|]. split; [apply reads_app; [done|by rewrite Hlen]|].
  rewrite length_app, Nat2Z.inj_add, Hlen. split; [lia|]. destruct e; try done.
  - destruct Hr3 as (str & -> & Hs). exists (l ++ str). rewrite app_assoc. set_solver.
  - rewrite Z.add_assoc. set_solver.
  - split; [lia|set_solver].
Qed.

(** C33: [copyinstr] on every branch.  It terminates; what it stores are the
    characters the user sees at the address; success means a complete string
    with its terminator and none inside, [CHIMERA_ERR_RANGE] that there is no
    terminator within the limit, and [CHIMERA_ERR_INVALID] that the characters
    end, without a terminator, at an address that is not mapped. *)
Theorem copyinstr_spec s T M owed root p uaddr kaddr maxlen :
  PInv s T M owed -> T !! root = Some (4%nat, p) -> get_active_pml4 s = root -> kaddr ≠ 0 -> 0 < maxlen ->
  0x1000 <= uaddr < USER_SPACE_MAX -> user_range s root uaddr (2 ^ 47) ->
  exists e data, copyinstr uaddr kaddr maxlen s = Some (e, data) /\ string_copied s root uaddr maxlen e data.
Proof.
  intros HI Hr Ha Hk Hl Hu Hur. unfold copyinstr. unfold USER_SPACE_MAX, USER_SPACE_MIN in *.
  rewrite !(proj2 (Z.eqb_neq _ _)), (proj2 (Z.ltb_ge _ _)), (proj2 (Z.leb_gt _ _)) by lia. cbn [orb]. rewrite Ha.
  apply (copyinstr_loop_spec s T M owed root p); try done; lia.
Qed.

Lemma demo_user T M root f va tramp s : demo_state T M root f va tramp s -> aligned f -> 0 < f < 2 ^ 52 ->
  has tramp PAGE_USER = true -> get_table_ptr tramp ≠ 0 -> pf_managed (frames s) f -> pf_managed (frames s) (get_table_ptr tramp) ->
  forall lo hi, 0 <= lo -> hi <= 2 ^ 47 -> user_range s root lo hi.
Proof.
  intros HD Ha Hf Ht1 Ht2 Hm1 Hm2 lo hi Hlo Hhi va' e Hva He. rewrite (ds_pte _ _ _ _ _ _ _ HD) in He by lia. case_decide.
  - injection He as <-. destruct (mapped_entry f PAGE_COW eq_refl) as (Eg & _ & Eu). cbv zeta in Eg, Eu. rewrite Eu, Eg.
    rewrite get_table_ptr_id by (done || lia). split; [done|]. split; [lia|done].
  - destruct (pmap_is_trampoline_va va'); [|done]. by injection He as <-.
Qed.

(** The page of the example is not writable. *)
Lemma demo_private T M root f va tramp s n : demo_state T M root f va tramp s -> aligned va -> 0 <= va -> 0 <= n <= 4096 -> va + n < 2 ^ 47 ->
  private_range s T root va (va + n).
Proof.
  intros HD Ha Hv Hn He va' e Hva Hx Hw. exfalso. rewrite (ds_pte _ _ _ _ _ _ _ HD) in Hx by lia. rewrite decide_True in Hx.
  - injection Hx as <-. pose proof (phys_bit f) as Hb. bits. by rewrite Hb in Hw.
  - unfold aligned in Ha. pose proof (Z.div_mod va 4096 ltac:(done)). symmetry. apply (Z.div_unique _ _ _ (va' - va)); lia.
Qed.
End Claims.

(** The example of [PmapCorrect], with its address space active. *)
Definition active : pmap Pmm.pmm := mapped <| cr3 := demo_root |>.

Lemma demo_active T M : demo_state T M demo_root demo_frame demo_va (tramp_entry created) mapped ->
  demo_state T M demo_root demo_frame demo_va (tramp_entry created) active.
Proof.
  unfold active. generalize mapped (tramp_entry created) demo_frame demo_root. intros s t f r [[HI Hnn] H2 H3].
  constructor; [split; [by apply (PInv_ext s)|done]|done|done].
Qed.

Lemma demo_active_user T M : demo_state T M demo_root demo_frame demo_va (tramp_entry created) active ->
  forall lo hi, 0 <= lo -> hi <= 2 ^ 47 -> user_range active demo_root lo hi.
Proof.
  intros HD. destruct (proj1 demo_spaces) as (T' & M' & HA). destruct (al_free _ _ _ _ _ HA) as (_ & _ & Ha & Hb).
  apply (demo_user T M demo_root demo_frame demo_va (tramp_entry created) active HD Ha).
  - split; [vm_compute; reflexivity|exact (proj2 Hb)].
  - vm_compute. reflexivity.
  - vm_compute. discriminate.
  - vm_compute. split; [discriminate|reflexivity].
  - vm_compute. split; [discriminate|reflexivity].
Qed.

Lemma active_root : get_active_pml4 active = demo_root.
Proof. vm_compute. reflexivity. Qed.


Lemma copyinstr_spec_witness : exists e data,
  copyinstr demo_va 1 16 active = Some (e, data) /\ string_copied active demo_root demo_va 16 e data.
Proof.
  destruct (proj2 demo_spaces) as (T & M & HD0). pose proof (demo_active T M HD0) as HD.
  apply (copyinstr_spec active T M _ demo_root 0 demo_va 1 16 (proj1 (ds_spaces _ _ _ _ _ _ _ HD)) (ds_root _ _ _ _ _ _ _ HD) active_root).
  - discriminate.
  - reflexivity.
  - split; [exact (proj1 demo_va_range)|vm_compute; reflexivity].
  - apply (demo_active_user T M HD); vm_compute; discriminate.
Defined.
End CopySpec.
