(* ===== verification/Loader.v ===== *)
(** * The Mach-O loader

    Models [kernel/bsd/mach_loader.c]: the load commands of an executable are
    read from its image in kernel memory, its segments are mapped into the
    address space of the new task, and its stack is built below
    [0x7FFFFFFF0000] with the strings and the vectors of [argc], [argv] and
    [envp].

    The image is the list of its bytes, so that a read past its end, which the
    code would make from whatever lies behind the buffer, is the outcome
    [Wild].  Strings are lists of characters without the terminating NUL.
    The address space is that of [Pmap]; [ta_vm_map] is the physical address
    of its top-level table. *)

From S2P Require Import Prelude Pmm Pmap Copy.
Import Pmap Copy.

Module Loader.

Definition ENOEXEC : Z := 8.
Definition ENOMEM : Z := 12.
Definition EINVAL : Z := 22.
Definition E2BIG : Z := 7.
Definition MAX_ARG_COUNT : nat := 128.
Definition MAX_ENV_COUNT : nat := 128.
Definition MAX_ARG_DATA_SIZE : Z := 262144.

Definition MH_MAGIC_64 : Z := 0xfeedfacf.
Definition CPU_TYPE_X86_64 : Z := Z.lor 0x01000000 7.
Definition MH_EXECUTE : Z := 2.
Definition LC_SEGMENT_64 : Z := 0x19.
Definition LC_UNIXTHREAD : Z := 0x5.
Definition LC_MAIN : Z := Z.lor 0x28 0x80000000.
Definition VM_PROT_WRITE : Z := 2.
Definition VM_PROT_EXECUTE : Z := 4.
Definition USER_TOP : Z := 0x0000800000000000.
Definition stack_top : Z := 0x7FFFFFFF0000.

(** ** Reading the image *)

(** A value, the negated error code, a read outside the image, or a loop cut
    off by its fuel. *)
Inductive outcome (A : Type) :=
| Ok (a : A)
| Fail (errno : Z)
| Wild
| Endless.
Arguments Ok {A} a.
Arguments Fail {A} errno.
Arguments Wild {A}.
Arguments Endless {A}.

#[global] Instance outcome_ret : MRet outcome := fun A a => Ok a.
#[global] Instance outcome_bind : MBind outcome := fun A B f r =>
  match r with Ok a => f a | Fail e => Fail e | Wild => Wild | Endless => Endless end.

(** [len] bytes of the image from [off] on. *)
Definition bytes_at (img : list Z) (off len : Z) : outcome (list Z) :=
  if (0 <=? off) && (off + len <=? Z.of_nat (length img))
  then Ok (take (Z.to_nat len) (drop (Z.to_nat off) img)) else Wild.

(** A little-endian number. *)
Fixpoint le (l : list Z) : Z :=
  match l with [] => 0 | b :: l => b + 256 * le l end.

Definition field (img : list Z) (off len : Z) : outcome Z := l ← bytes_at img off len; Ok (le l).

Record mach_header_64 := { ncmds : Z; sizeofcmds : Z }.

(** The header is checked as it is read. *)
Definition read_header (img : list Z) : outcome mach_header_64 :=
  magic ← field img 0 4;
  if negb (magic =? MH_MAGIC_64) then Fail ENOEXEC else
  cputype ← field img 4 4;
  if negb (cputype =? CPU_TYPE_X86_64) then Fail ENOEXEC else
  filetype ← field img 12 4;
  if negb (filetype =? MH_EXECUTE) then Fail ENOEXEC else
  n ← field img 16 4; z ← field img 20 4;
  if (256 <? n) || (65536 <? z) then Fail ENOEXEC else
  Ok {| ncmds := n; sizeofcmds := z |}.

Record segment_command_64 := {
  segname : list Z; vmaddr : Z; vmsize : Z; fileoff : Z; filesize : Z; initprot : Z
}.

(** The fields of a command are read together. *)
Definition read_segment (img : list Z) (p : Z) : outcome segment_command_64 :=
  n ← bytes_at img (p + 8) 16; a ← field img (p + 24) 8; z ← field img (p + 32) 8;
  o ← field img (p + 40) 8; f ← field img (p + 48) 8; i ← field img (p + 60) 4;
  Ok {| segname := n; vmaddr := a; vmsize := z; fileoff := o; filesize := f; initprot := i |}.

(** What the loader takes from a load command. *)
Inductive command :=
| Segment (seg : segment_command_64)
| Main (entryoff : Z)
| UnixThread (rip : Z)
| Skipped.

(** The command at [cmd_ptr] of a table that ends at [cmd_end], with its size;
    both are offsets into the image. *)
Definition read_command (img : list Z) (cmd_ptr cmd_end : Z) : outcome (Z * command) :=
  if cmd_end <? cmd_ptr + 8 then Fail ENOEXEC else
  cmdsize ← field img (cmd_ptr + 4) 4;
  if (cmdsize <? 8) || (cmd_end <? cmd_ptr + cmdsize) then Fail ENOEXEC else
  cmd ← field img cmd_ptr 4;
  if cmd =? LC_SEGMENT_64 then
    if cmdsize <? 72 then Fail ENOEXEC else seg ← read_segment img cmd_ptr; Ok (cmdsize, Segment seg)
  else if cmd =? LC_MAIN then
    if 24 <=? cmdsize then off ← field img (cmd_ptr + 8) 8; Ok (cmdsize, Main off) else Ok (cmdsize, Skipped)
  else if cmd =? LC_UNIXTHREAD then
    if 184 <=? cmdsize then rip ← field img (cmd_ptr + 144) 8; Ok (cmdsize, UnixThread rip) else Ok (cmdsize, Skipped)
  else Ok (cmdsize, Skipped).

(** The loop over the first [n] characters of [name], a C string. *)
Fixpoint seg_name_eq (n : nat) (segname name : list Z) : bool :=
  match n with
  | O => true
  | S n =>
      match name, segname with
      | [], _ => true
      | c :: name, b :: segname => if b =? c then seg_name_eq n segname name else false
      | _ :: _, [] => false
      end
  end.
Definition seg_name_is (segname name : list Z) : bool := seg_name_eq 16 segname name.

Definition str (s : string) : list Z := Z.of_N ∘ Ascii.N_of_ascii <$> String.list_ascii_of_string s.

(** [page_flags] is a [u32]. *)
Definition page_flags (seg : segment_command_64) : Z :=
  let f := u32 (Z.lor PAGE_USER PAGE_NX) in
  let f := if has (initprot seg) VM_PROT_WRITE then u32 (Z.lor f PAGE_WRITE) else f in
  if has (initprot seg) VM_PROT_EXECUTE then u32 (Z.land f (not64 PAGE_NX)) else f.

Definition start_vaddr (seg : segment_command_64) : Z := Z.land (vmaddr seg) (not64 0xFFF).
Definition end_vaddr (seg : segment_command_64) : Z := Z.land (u64 (vmaddr seg + vmsize seg + 4095)) (not64 0xFFF).

(** The bytes of a page that come from the file. *)
Definition copy_start (seg : segment_command_64) (page_vaddr : Z) : Z :=
  if page_vaddr <? vmaddr seg then vmaddr seg else page_vaddr.
Definition copy_end (seg : segment_command_64) (page_vaddr : Z) : Z :=
  let file_end := u64 (vmaddr seg + filesize seg) in
  if file_end <? page_vaddr + 4096 then file_end else page_vaddr + 4096.

Definition out_of_user_bounds (seg : segment_command_64) : bool :=
  (vmaddr seg <? 0x1000) || (USER_TOP <=? vmaddr seg) || (USER_TOP <=? vmsize seg)
  || (USER_TOP <? u64 (vmaddr seg + vmsize seg)).

Definition STACK_PAGE_FLAGS : Z := Z.lor (Z.lor PAGE_USER PAGE_WRITE) PAGE_NX.

(** ** Loading *)

Section Ops.
Context {F : Type} `{PageFrames F}.
Notation state := (pmap F).

Definition M (A : Type) : Type := state -> state * outcome A.
#[global] Instance M_ret : MRet M := fun A a s => (s, Ok a).
#[global] Instance M_bind : MBind M := fun A B f m s =>
  match m s with
  | (s, Ok a) => f a s
  | (s, Fail e) => (s, Fail e)
  | (s, Wild) => (s, Wild)
  | (s, Endless) => (s, Endless)
  end.
Definition lift {A} (r : outcome A) : M A := fun s => (s, r).
Definition fail {A} (e : Z) : M A := lift (Fail e).

(** A zeroed page at [page_vaddr]: its frame. *)
Definition new_page (pml4 page_vaddr flags : Z) : M Z := fun s =>
  let '(s, phys) := alloc_page s in
  if no_page phys then (s, Fail ENOMEM) else
  let '(s, actual_phys) := pmap_map_user_page pml4 page_vaddr phys flags s in
  if actual_phys =? 0 then (release_page phys s, Fail ENOMEM) else
  (set_page actual_phys 0 s, Ok actual_phys).

Definition write_phys (a : Z) (l : list Z) : M unit := fun s => (s <| mem ::= store_bytes a l |>, Ok tt).

Definition load_page (img : list Z) (pml4 : Z) (seg : segment_command_64) (page_vaddr : Z) : M unit :=
  page ← new_page pml4 page_vaddr (page_flags seg);
  if copy_start seg page_vaddr <? copy_end seg page_vaddr then
    let dst_offset := copy_start seg page_vaddr - page_vaddr in
    let src_offset := u64 (fileoff seg + (copy_start seg page_vaddr - vmaddr seg)) in
    data ← lift (bytes_at img src_offset (copy_end seg page_vaddr - copy_start seg page_vaddr));
    write_phys (page + dst_offset) data
  else mret tt.

Fixpoint load_pages (fuel : nat) (img : list Z) (pml4 : Z) (seg : segment_command_64) (page_vaddr : Z) : M unit :=
  if page_vaddr <? end_vaddr seg then
    match fuel with
    | O => lift Endless
    | S fuel => load_page img pml4 seg page_vaddr ;; load_pages fuel img pml4 seg (page_vaddr + 4096)
    end
  else mret tt.

(** Whether the pages of a segment are mapped at all. *)
Definition mapped_segment (seg : segment_command_64) : bool :=
  negb (seg_name_is (segname seg) (str "__PAGEZERO")) && (0 <? vmsize seg).

Definition load_segment (img : list Z) (pml4 : Z) (seg : segment_command_64) : M unit :=
  if mapped_segment seg then
    if out_of_user_bounds seg then fail ENOEXEC else
    load_pages (Z.to_nat ((end_vaddr seg - start_vaddr seg) / 4096)) img pml4 seg (start_vaddr seg)
  else mret tt.

(** [text_vmaddr] and [parsed_entry] after a command. *)
Definition note_command (c : command) (text_vmaddr parsed_entry : Z) : Z * Z :=
  match c with
  | Segment seg => (if seg_name_is (segname seg) (str "__TEXT") then vmaddr seg else text_vmaddr, parsed_entry)
  | Main entryoff => (text_vmaddr, u64 (text_vmaddr + entryoff))
  | UnixThread rip => (text_vmaddr, rip)
  | Skipped => (text_vmaddr, parsed_entry)
  end.

Definition load_command (img : list Z) (pml4 : Z) (c : command) : M unit :=
  match c with Segment seg => load_segment img pml4 seg | _ => mret tt end.

Fixpoint load_commands (n : nat) (img : list Z) (pml4 cmd_ptr cmd_end text_vmaddr parsed_entry : Z) : M (Z * Z) :=
  match n with
  | O => mret (text_vmaddr, parsed_entry)
  | S n =>
      '(cmdsize, c) ← lift (read_command img cmd_ptr cmd_end);
      load_command img pml4 c ;;
      let '(text_vmaddr, parsed_entry) := note_command c text_vmaddr parsed_entry in
      load_commands n img pml4 (cmd_ptr + cmdsize) cmd_end text_vmaddr parsed_entry
  end.

(** The stack pages [i], [i] + 1, ... below [stack_top]. *)
Fixpoint map_stack (n : nat) (pml4 i : Z) : M unit :=
  match n with
  | O => mret tt
  | S n => new_page pml4 (stack_top - 4096 * (i + 1)) STACK_PAGE_FLAGS ;; map_stack n pml4 (i + 1)
  end.

(** ** The initial stack *)

Fixpoint write_loop (fuel : nat) (pml4 vaddr : Z) (src : list Z) : M bool := fun s =>
  let len := Z.of_nat (length src) in
  if len =? 0 then (s, Ok true) else
  match fuel with
  | O => (s, Endless)
  | S fuel =>
      let phys := pmap_extract pml4 vaddr s in
      if phys =? 0 then (s, Ok false) else
      let page_off := Z.land vaddr 0xFFF in
      let n := chunk vaddr len in
      let s := s <| mem ::= store_bytes (Z.land phys (not64 0xFFF) + page_off) (take (Z.to_nat n) src) |> in
      write_loop fuel pml4 (u64 (vaddr + n)) (drop (Z.to_nat n) src) s
  end.
(** Whether all of [src] could be written. *)
Definition write_user_stack (pml4 vaddr : Z) (src : list Z) : M bool := write_loop (length src) pml4 vaddr src.

(** The eight bytes of a number. *)
Definition word_bytes (w : Z) : list Z := (fun i => Z.land (Z.shiftr w (8 * i)) 255) <$> seqZ 0 8.
Definition write_user_stack_u64 (pml4 vaddr val : Z) : M bool := write_user_stack pml4 vaddr (word_bytes val).

(** The strings are given last first: the stack pointer below them and their
    addresses, first string first. *)
Fixpoint push_strings (pml4 sp : Z) (strs : list (list Z)) (addrs : list Z) : M (Z * list Z) :=
  match strs with
  | [] => mret (sp, addrs)
  | x :: strs =>
      let sp := u64 (sp - (Z.of_nat (length x) + 1)) in
      ok ← write_user_stack pml4 sp (x ++ [0]);
      if (ok : bool) then push_strings pml4 sp strs (sp :: addrs) else fail ENOMEM
  end.

(** Pushes words, the outcome of each write being ignored. *)
Fixpoint push_words (pml4 sp : Z) (ws : list Z) : M Z :=
  match ws with
  | [] => mret sp
  | w :: ws => let sp := u64 (sp - 8) in write_user_stack_u64 pml4 sp w ;; push_words pml4 sp ws
  end.

(** The arguments that are passed: those of [argv], or the name of the program. *)
Definition kargv (arg0 : option (list Z)) (argv : option (list (list Z))) : list (list Z) :=
  match take (MAX_ARG_COUNT - 1) (default [] argv) with
  | [] => [default (str "/bin/program") arg0]
  | l => l
  end.
Definition kenvp (envp : option (list (list Z))) : list (list Z) := take (MAX_ENV_COUNT - 1) (default [] envp).

Definition arg_bytes (l : list (list Z)) : Z := foldr (fun x n => Z.of_nat (length x) + 1 + n) 0 l.

Definition build_stack (pml4 : Z) (args envs : list (list Z)) : M Z :=
  '(sp, envp_user) ← push_strings pml4 stack_top (reverse envs) [];
  '(sp, argv_user) ← push_strings pml4 sp (reverse args) [];
  let sp := Z.land sp (not64 0xF) in
  sp ← push_words pml4 sp [0];
  sp ← push_words pml4 sp (0 :: reverse envp_user);
  sp ← push_words pml4 sp (0 :: reverse argv_user);
  push_words pml4 sp [Z.of_nat (length args)].

(** ** The whole loader *)

Definition entry_address (text_vmaddr parsed_entry : Z) : Z := if parsed_entry =? 0 then text_vmaddr else parsed_entry.

(** The values stored at [entry_point] and [user_stack]; a null pointer among
    the arguments is [None], and a null [ta_vm_map] 0. *)
Definition mach_load_args (module_ptr : option (list Z)) (out_task : option Z) (entry_point user_stack : option unit)
    (arg0 : option (list Z)) (argv envp : option (list (list Z))) : M (Z * Z) :=
  match module_ptr, out_task, entry_point, user_stack with
  | Some img, Some ta_vm_map, Some _, Some _ =>
      if ta_vm_map =? 0 then fail EINVAL else
      hdr ← lift (read_header img);
      '(text_vmaddr, parsed_entry) ← load_commands (Z.to_nat (ncmds hdr)) img ta_vm_map 32 (32 + sizeofcmds hdr) 0 0;
      let entry := entry_address text_vmaddr parsed_entry in
      if (entry <? 0x1000) || (USER_TOP <=? entry) then fail ENOEXEC else
      map_stack 2048 ta_vm_map 0 ;;
      let args := kargv arg0 argv in
      let envs := kenvp envp in
      if MAX_ARG_DATA_SIZE <? arg_bytes args + arg_bytes envs then fail E2BIG else
      sp ← build_stack ta_vm_map args envs;
      mret (entry, sp)
  | _, _, _, _ => fail EINVAL
  end.

Definition mach_load (module_ptr : option (list Z)) (out_task : option Z) (entry_point user_stack : option unit) : M (Z * Z) :=
  mach_load_args module_ptr out_task entry_point user_stack (Some (str "/bin/sh")) (Some [str "/bin/sh"]) (Some []).
End Ops.
End Loader.
