(* ===== verification/LoaderSpec.v ===== *)
(** * The Mach-O loader: what a program finds in its memory

    [uview s root va] is what a user program finds at an address: the byte and
    whether the page can be written and is non-executable.  [exec_view] gives
    the contents of the address space of a loaded program, and the loader is
    shown to produce it, to leave every other address space alone, and to
    stay within the image when the offsets of the image do. *)

From S2P Require Import Prelude Pmm Pmap PmapInv PmapMap PmapSpec PmapFork PmapClone PmapCorrect Copy CopySpec Loader.
Import Pmap PmapInv PmapMap PmapSpec PmapFork PmapClone PmapCorrect Copy CopySpec Loader.

Module LoaderSpec.

(** The byte, whether it can be written, and whether it cannot be executed. *)
Definition cell : Type := Z * bool * bool.
Definition aspace : Type := Z -> option cell.

Definition set_byte (b : Z) (c : cell) : cell := (b, c.1.2, c.2).

(** A zeroed page of the given flags, and bytes written over what is there. *)
Definition with_page (page flags : Z) (m : aspace) : aspace := fun va =>
  if decide (va / 4096 = page) then Some (0, has flags PAGE_WRITE, has flags PAGE_NX) else m va.
Definition with_bytes (lo : Z) (l : list Z) (m : aspace) : aspace := fun va =>
  if decide (lo <= va < lo + Z.of_nat (length l)) then set_byte (l !!! Z.to_nat (va - lo)) <$> m va else m va.

(** What the file gives a segment at [va]. *)
Definition seg_byte (img : list Z) (seg : segment_command_64) (va : Z) : Z :=
  if decide (vmaddr seg <= va < u64 (vmaddr seg + filesize seg))
  then img !!! Z.to_nat (u64 (fileoff seg + (va - vmaddr seg))) else 0.

(** A segment laid over what was there. *)
Definition with_segment (img : list Z) (seg : segment_command_64) (m : aspace) : aspace := fun va =>
  if mapped_segment seg then
    if decide (start_vaddr seg <= va < end_vaddr seg)
    then Some (seg_byte img seg va, has (page_flags seg) PAGE_WRITE, has (page_flags seg) PAGE_NX) else m va
  else m va.

Definition segment_pages (seg : segment_command_64) : Z :=
  if mapped_segment seg then Z.max 0 ((end_vaddr seg - start_vaddr seg) / 4096) else 0.

(** The commands of the table, as far as they can be read, and whether all can. *)
Fixpoint read_commands (n : nat) (img : list Z) (ptr cmd_end : Z) : list command * bool :=
  match n with
  | O => ([], true)
  | S n =>
      match read_command img ptr cmd_end with
      | Ok (cmdsize, c) => let '(l, ok) := read_commands n img (ptr + cmdsize) cmd_end in (c :: l, ok)
      | _ => ([], false)
      end
  end.
Definition with_command (img : list Z) (m : aspace) (c : command) : aspace :=
  match c with Segment seg => with_segment img seg m | _ => m end.
Definition noted (te : Z * Z) (c : command) : Z * Z := note_command c te.1 te.2.

(** The pages a program's segments take. *)
Definition command_pages (c : command) : Z := match c with Segment seg => segment_pages seg | _ => 0 end.
Definition pages (cmds : list command) : Z := foldr (fun c n => command_pages c + n) 0 cmds.

Lemma command_pages_nonneg c : 0 <= command_pages c.
Proof. destruct c as [seg| | |]; cbn; try lia. unfold segment_pages. destruct (mapped_segment seg); lia. Qed.

Lemma pages_nonneg cmds : 0 <= pages cmds.
Proof. induction cmds as [|c cmds IH]; [done|]. pose proof (command_pages_nonneg c). change (0 <= command_pages c + pages cmds). lia. Qed.

Lemma le_range l : Forall is_byte l -> 0 <= le l < 2 ^ (8 * Z.of_nat (length l)).
Proof.
  induction 1 as [|b l Hb Hl IH]; cbn [le length]; [done|]. unfold is_byte in Hb.
  replace (8 * Z.of_nat (S (length l))) with (8 + 8 * Z.of_nat (length l)) by lia. rewrite Z.pow_add_r by lia. lia.
Qed.

(** The stack pages from [lo] on, and the stack whose top holds [b]. *)
Definition with_zeros (lo : Z) (m : aspace) : aspace := fun va =>
  if decide (lo <= va < stack_top) then Some (0, true, true) else m va.
Definition with_stack (b : list Z) (m : aspace) : aspace := fun va =>
  let sp := stack_top - Z.of_nat (length b) in
  if decide (sp <= va < stack_top) then Some (b !!! Z.to_nat (va - sp), true, true)
  else with_zeros (stack_top - 4096 * 2048) m va.

(** The stack of a program: the counts and vectors, padding, the strings. *)
Definition cstrings (l : list (list Z)) : list Z := concat ((fun x => x ++ [0]) <$> l).
Definition words (l : list Z) : list Z := concat (word_bytes <$> l).
Fixpoint addresses (a : Z) (l : list (list Z)) : list Z :=
  match l with [] => [] | x :: l => a :: addresses (a + (Z.of_nat (length x) + 1)) l end.

Definition string_base (args envs : list (list Z)) : Z := stack_top - Z.of_nat (length (cstrings args ++ cstrings envs)).
Definition vectors (args envs : list (list Z)) : list Z :=
  let a := string_base args envs in
  Z.of_nat (length args) :: addresses a args ++ 0 :: addresses (a + Z.of_nat (length (cstrings args))) envs ++ [0; 0].
Definition initial_stack (args envs : list (list Z)) : list Z :=
  words (vectors args envs) ++ replicate (Z.to_nat (string_base args envs mod 16)) 0 ++ cstrings args ++ cstrings envs.
Definition initial_sp (args envs : list (list Z)) : Z := stack_top - Z.of_nat (length (initial_stack args envs)).

Lemma word_bytes_length w : length (word_bytes w) = 8%nat.
Proof. done. Qed.

Lemma word_bytes_bytes w : Forall is_byte (word_bytes w).
Proof.
  unfold word_bytes. apply Forall_fmap, Forall_forall. intros i _. cbn. change 255 with (Z.ones 8). rewrite Z.land_ones by done. by apply Z.mod_pos_bound.
Qed.

Lemma vector_words_length l : Z.of_nat (length (words l)) = 8 * Z.of_nat (length l).
Proof. induction l as [|w l IH]; [done|]. unfold words in *. cbn [fmap list_fmap concat length]. rewrite length_app, word_bytes_length. lia. Qed.

Lemma vector_words_app l1 l2 : words (l1 ++ l2) = words l1 ++ words l2.
Proof. unfold words. by rewrite fmap_app, concat_app. Qed.

Lemma vector_words n l1 l2 b : words (n :: l1 ++ 0 :: l2 ++ [0; 0]) ++ b = words [n] ++ words (l1 ++ [0]) ++ words (l2 ++ [0]) ++ words [0] ++ b.
Proof.
  replace (n :: l1 ++ 0 :: l2 ++ [0; 0]) with ([n] ++ (l1 ++ [0]) ++ (l2 ++ [0]) ++ [0]) by (cbn; by rewrite <- !app_assoc).
  by rewrite !vector_words_app, <- !app_assoc.
Qed.

Lemma cstrings_length l : Z.of_nat (length (cstrings l)) = arg_bytes l.
Proof.
  induction l as [|x l IH]; [done|]. unfold cstrings in *. cbn [fmap list_fmap concat arg_bytes foldr]. rewrite !length_app. cbn [length].
  fold (arg_bytes l). lia.
Qed.

Lemma addresses_length a l : length (addresses a l) = length l.
Proof. revert a. induction l as [|x l IH]; intros a; cbn; [done|]. by rewrite IH. Qed.

Lemma arg_bytes_reverse l : arg_bytes (reverse l) = arg_bytes l.
Proof.
  induction l as [|x l IH]; [done|]. rewrite reverse_cons, <- cstrings_length. unfold cstrings. rewrite fmap_app, concat_app, length_app, Nat2Z.inj_add.
  fold (cstrings (reverse l)). rewrite cstrings_length, IH.
  change (arg_bytes (x :: l)) with (Z.of_nat (length x) + 1 + arg_bytes l). cbn [fmap list_fmap concat]. rewrite app_nil_r, length_app. cbn [length]. lia.
Qed.

Lemma kargv_length arg0 argv : (length (kargv arg0 argv) <= 127)%nat.
Proof. unfold kargv. destruct (take _ _) as [|x l] eqn:E; [cbn; lia|]. rewrite <- E, length_take. unfold MAX_ARG_COUNT. lia. Qed.

Lemma kenvp_length envp : (length (kenvp envp) <= 127)%nat.
Proof. unfold kenvp. rewrite length_take. unfold MAX_ENV_COUNT. lia. Qed.

Lemma arg_bytes_nonneg l : 0 <= arg_bytes l.
Proof. rewrite <- cstrings_length. lia. Qed.

(** What the image says: its commands and the entry point. *)
Definition command_table (img : list Z) : list command * bool :=
  match read_header img with
  | Ok hdr => read_commands (Z.to_nat (ncmds hdr)) img 32 (32 + sizeofcmds hdr)
  | _ => ([], false)
  end.
Definition image_commands (img : list Z) : list command := (command_table img).1.
Definition program_entry (img : list Z) : Z :=
  let te := foldl noted (0, 0) (image_commands img) in entry_address te.1 te.2.

(** The offsets in the image lie inside it. *)
Definition image_in_bounds (img : list Z) : Prop :=
  match read_header img with Ok hdr => 32 + sizeofcmds hdr <= Z.of_nat (length img) | Wild => False | _ => True end /\
  forall seg, Segment seg ∈ image_commands img -> mapped_segment seg = true -> fileoff seg + filesize seg <= Z.of_nat (length img).

(** The header is accepted, all commands are well formed, and all addresses
    are in the user half. *)
Definition executable (img : list Z) : Prop :=
  match read_header img with Ok _ => True | _ => False end /\ (command_table img).2 = true /\
  (forall seg, Segment seg ∈ image_commands img -> mapped_segment seg = true -> out_of_user_bounds seg = false) /\
  0x1000 <= program_entry img < 2 ^ 47.

(** The address space of a program: the segments in their order, over what
    was mapped before, and the stack over them. *)
Definition exec_view (img : list Z) (args envs : list (list Z)) (m : aspace) : aspace :=
  with_stack (initial_stack args envs) (foldl (with_command img) m (image_commands img)).

Lemma align16 a : 0 <= a < 2 ^ 64 -> Z.land a (not64 0xF) = a - a mod 16.
Proof. intros Ha. pose proof (land_not64_ones 4 a ltac:(lia) Ha) as E. change (Z.ones 4) with 0xF in E. change (2 ^ 4) with 16 in E. rewrite E, Z.mod_eq by done. lia. Qed.

(** Zeros may be counted to the top of the stack. *)
Lemma with_stack_pad pad b m va : Forall (eq 0) pad -> Z.of_nat (length (pad ++ b)) <= 4096 * 2048 ->
  with_stack (pad ++ b) m va = with_stack b m va.
Proof.
  intros Hp Hl. rewrite length_app in Hl. unfold with_stack, with_zeros. rewrite length_app. repeat case_decide; try lia; try done; do 3 f_equal.
  - rewrite lookup_total_app_r by lia. f_equal. lia.
  - rewrite lookup_total_app_l by lia. symmetry. apply (Forall_lookup_total_1 (eq 0)); [done|lia].
Qed.

Lemma replicate_zeros n : Forall (eq 0) (replicate n 0).
Proof. by apply Forall_replicate. Qed.

Section Load.
Context {F : Type} `{PageFrames F}.
Notation state := (pmap F).
Implicit Types (s : state) (T : tables).

Definition uview (s : state) (root : Z) : aspace := fun va =>
  e ← pte s root va; Some (load8 (mem s) (get_table_ptr e + va mod 4096), has e PAGE_WRITE, has e PAGE_NX).

Lemma uview_same s s' root root' va : pte s' root' va = pte s root va ->
  (forall e j, pte s root va = Some e -> 0 <= j < 512 -> word s' (get_table_ptr e + 8 * j) = word s (get_table_ptr e + 8 * j)) ->
  uview s' root' va = uview s root va.
Proof.
  intros Hp Hw. unfold uview. rewrite Hp. destruct (pte s root va) as [e|]; [|done]. cbn. do 3 f_equal.
  apply load8_page; [apply get_table_ptr_range..|by apply Z.mod_pos_bound|]. intros j Hj. by apply Hw.
Qed.

(** The address space [root] is being filled; nothing else may change. *)
Context (s0 : state) (T0 : tables) (owed : Z -> Z) (root p : Z).
Hypothesis Hroot : T0 !! root = Some (4%nat, p).

(** The frame of the page of [va] is mapped there only. *)
Definition sole (s : state) (va e : Z) : Prop := forall root' p' va' e',
  T0 !! root' = Some (4%nat, p') -> 0 <= va' < 2 ^ 47 -> pte s root' va' = Some e' ->
  get_table_ptr e' = get_table_ptr e -> root' = root /\ va' / 4096 = va / 4096.

(** [m] is what the address space holds, the pages [own] are the loader's, and
    [av] frames are still available. *)
Record LD (av : Z) (own : Z -> Prop) (m : aspace) (s : state) (T : tables) (M : gmap Z Z) : Prop := {
  ld_spaces : Spaces s T M owed;
  ld_sub : T0 ⊆ T;
  ld_kernel : forall root' p' j, T0 !! root' = Some (4%nat, p') -> 256 <= j < 512 ->
    word s (root' + 8 * j) = word s0 (root' + 8 * j);
  ld_other : forall root' p' va, T0 !! root' = Some (4%nat, p') -> root' ≠ root -> 0 <= va < 2 ^ 47 ->
    uview s root' va = uview s0 root' va;
  ld_view : forall va, 0 <= va < 2 ^ 47 -> uview s root va = m va;
  ld_own : forall va e, 0 <= va < 2 ^ 47 -> own (va / 4096) -> pte s root va = Some e ->
    has e PAGE_USER = true /\ sole s va e;
  ld_nonzero : forall va e, 0 <= va < 2 ^ 47 -> pte s root va = Some e -> get_table_ptr e ≠ 0;
  ld_avail : av <= pf_avail (frames s)
}.

Lemma LD_ext av av' own own' m m' s T M : LD av own m s T M -> (forall g, own' g -> own g) ->
  (forall va, 0 <= va < 2 ^ 47 -> m' va = m va) -> av' <= av -> LD av' own' m' s T M.
Proof.
  intros [H1 H2 H3 H4 H5 H6 H7 H8] Ho Hm Hav. constructor; try done; [..|lia].
  - intros va Hv. rewrite Hm by done. by apply H5.
  - intros va e Hv Hva. apply H6; [done|by apply Ho].
Qed.

(** A step that changes no translation and no mapped memory. *)
Lemma LD_same av own m s T M s' T' M' av' : LD av own m s T M -> Spaces s' T' M' owed -> T ⊆ T' -> av' <= pf_avail (frames s') ->
  (forall root' p' j, T0 !! root' = Some (4%nat, p') -> 256 <= j < 512 -> word s' (root' + 8 * j) = word s (root' + 8 * j)) ->
  (forall root' p' va, T0 !! root' = Some (4%nat, p') -> 0 <= va < 2 ^ 47 -> pte s' root' va = pte s root' va) ->
  (forall root' p' va e j, T0 !! root' = Some (4%nat, p') -> 0 <= va < 2 ^ 47 -> pte s root' va = Some e -> 0 <= j < 512 ->
     word s' (get_table_ptr e + 8 * j) = word s (get_table_ptr e + 8 * j)) ->
  LD av' own m s' T' M'.
Proof.
  intros [H1 H2 H3 H4 H5 H6 H7 H8] HS HT Hav Hk Hp Hw. constructor; try done.
  - by etrans.
  - intros root' p' j Hr Hj. rewrite (Hk root' p') by done. by apply (H3 root' p').
  - intros root' p' va Hr Hne Hv. rewrite <- (H4 root' p') by done.
    apply uview_same; [by apply (Hp root' p')|]. intros e j He. by apply (Hw root' p' va).
  - intros va Hv. rewrite <- H5 by done. apply uview_same; [by apply (Hp root p)|]. intros e j He. by apply (Hw root p va).
  - intros va e Hv Ho He. rewrite (Hp root p) in He by done. destruct (H6 va e Hv Ho He) as (Hu & Hs). split; [done|].
    intros root' p' va' e' Hr Hv' He'. rewrite (Hp root' p') in He' by done. by apply (Hs root' p').
  - intros va e Hv He. rewrite (Hp root p) in He by done. by apply (H7 va).
Qed.

(** A step that puts a fresh, zeroed frame into the page [page]. *)
Lemma LD_page av own m s T M s' T' M' page flags e' av' : LD av own m s T M -> Spaces s' T' M' owed -> T ⊆ T' -> av' <= pf_avail (frames s') ->
  (forall root' p' j, T0 !! root' = Some (4%nat, p') -> 256 <= j < 512 -> word s' (root' + 8 * j) = word s (root' + 8 * j)) ->
  (forall root' p' va, T0 !! root' = Some (4%nat, p') -> 0 <= va < 2 ^ 47 ->
     pte s' root' va = if decide (root' = root /\ va / 4096 = page) then Some e' else pte s root' va) ->
  (forall root' p' va e j, T0 !! root' = Some (4%nat, p') -> 0 <= va < 2 ^ 47 -> pte s root' va = Some e ->
     pte s' root' va = Some e -> get_table_ptr e ≠ get_table_ptr e' -> 0 <= j < 512 ->
     word s' (get_table_ptr e + 8 * j) = word s (get_table_ptr e + 8 * j)) ->
  (forall root' p' va e, T0 !! root' = Some (4%nat, p') -> 0 <= va < 2 ^ 47 -> pte s root' va = Some e -> get_table_ptr e ≠ get_table_ptr e') ->
  (forall j, 0 <= j < 512 -> word s' (get_table_ptr e' + 8 * j) = 0) ->
  has e' PAGE_USER = true -> get_table_ptr e' ≠ 0 -> has e' PAGE_WRITE = has flags PAGE_WRITE -> has e' PAGE_NX = has flags PAGE_NX ->
  LD av' (fun g => own g \/ g = page) (with_page page flags m) s' T' M'.
Proof.
  intros [H1 H2 H3 H4 H5 H6 H7 H8] HS HT Hav Hk Hp Hw Hn Hz0 Hu Hz Ew En.
  assert (Hub : forall root' p' va, T0 !! root' = Some (4%nat, p') -> 0 <= va < 2 ^ 47 -> ~ (root' = root /\ va / 4096 = page) ->
    pte s' root' va = pte s root' va /\ uview s' root' va = uview s root' va).
  { intros root' p' va Hr Hv N. assert (Ep : pte s' root' va = pte s root' va) by (rewrite (Hp root' p') by done; by rewrite decide_False).
    split; [done|]. apply uview_same; [done|]. intros e j He Hj. apply (Hw root' p' va); try done; [by rewrite Ep|by apply (Hn root' p' va)]. }
  constructor; try done.
  - by etrans.
  - intros root' p' j Hr Hj. rewrite (Hk root' p') by done. by apply (H3 root' p').
  - intros root' p' va Hr Hne Hv. rewrite <- (H4 root' p') by done. apply (Hub root' p'); [done..|tauto].
  - intros va Hv. unfold with_page. case_decide as E.
    + unfold uview. rewrite (Hp root p), decide_True by done. cbn. rewrite Ew, En. do 3 f_equal.
      unfold load8. destruct (byte_word (get_table_ptr e') (va mod 4096)) as [-> ->]; [apply get_table_ptr_range|by apply Z.mod_pos_bound|].
      fold (word s' (get_table_ptr e' + 8 * (va mod 4096 / 8))). rewrite Hz0, Z.shiftr_0_l; [done|].
      pose proof (Z.mod_pos_bound va 4096 ltac:(done)). split; [apply Z.div_pos; lia|apply Z.div_lt_upper_bound; lia].
    + rewrite <- H5 by done. apply (Hub root p); [done..|tauto].
  - intros va e Hv Ho He. rewrite (Hp root p) in He by done. case_decide as E.
    + injection He as <-. split; [done|]. intros root' p' va' x Hr Hv' Hx Ex. rewrite (Hp root' p') in Hx by done.
      case_decide as E'; [destruct E, E'; split; congruence|]. by destruct (Hn root' p' va' x).
    + destruct Ho as [Ho|Ho]; [|tauto]. destruct (H6 va e Hv Ho He) as (Hu' & Hs). split; [done|].
      intros root' p' va' x Hr Hv' Hx Ex. rewrite (Hp root' p') in Hx by done. case_decide as E'; [|by apply (Hs root' p' va' x)].
      injection Hx as <-. by destruct (Hn root p va e Hroot Hv He).
  - intros va e Hv He. rewrite (Hp root p) in He by done. case_decide; [by injection He as <-|by apply (H7 va)].
Qed.

(** Writing to a page of the loader's. *)
Lemma LD_write av own m s T M va e l : LD av own m s T M -> 0 <= va < 2 ^ 47 -> own (va / 4096) -> pte s root va = Some e ->
  Forall is_byte l -> va mod 4096 + Z.of_nat (length l) <= 4096 ->
  LD av own (with_bytes va l m) (s <| mem ::= store_bytes (get_table_ptr e + va mod 4096) l |>) T M.
Proof.
  intros [H1 H2 H3 H4 H5 H6 H7 H8] Hv Ho He Hl Hfit. set (s' := s <| mem ::= _ |>).
  destruct (get_table_ptr_range e) as [Hae _]. pose proof (Z.mod_pos_bound va 4096 ltac:(done)) as Hoff.
  destruct (H6 va e Hv Ho He) as (_ & Hs). assert (Hr : T !! root = Some (4%nat, p)) by (by eapply lookup_weaken).
  destruct H1 as [HI Hnn]. pose proof (pte_data _ _ _ _ _ _ _ _ HI Hr Hv He) as Ht.
  assert (Hwt : forall f q l' j, T !! f = Some (l', q) -> 0 <= j < 512 -> word s' (f + 8 * j) = word s (f + 8 * j)).
  { intros f q l' j Hf Hj. apply store_page_word; try done; [|congruence|lia]. apply (pi_table _ _ _ _ HI _ _ _ Hf). }
  destruct (data_write_inv s s' T M owed HI) as [HI' Hp]; [done|done|by intros f l' q j; apply Hwt|].
  assert (Hub : forall root' p' va', T0 !! root' = Some (4%nat, p') -> 0 <= va' < 2 ^ 47 ->
    uview s' root' va' = if decide (root' = root /\ va <= va' < va + Z.of_nat (length l)) then set_byte (l !!! Z.to_nat (va' - va)) <$> uview s root' va'
                         else uview s root' va').
  { intros root' p' va' Hr' Hv'. unfold uview. rewrite (Hp root' p') by (done || by eapply lookup_weaken).
    destruct (pte s root' va') as [x|] eqn:Ex; [|by case_decide]. cbn. rewrite load8_store_bytes by done.
    pose proof (Z.div_mod va' 4096 ltac:(done)). pose proof (Z.div_mod va 4096 ltac:(done)). pose proof (Z.mod_pos_bound va' 4096 ltac:(done)).
    destruct (decide (root' = root /\ va <= va' < va + Z.of_nat (length l))) as [[-> E]|E].
    - assert (Epg : va' / 4096 = va / 4096) by (symmetry; apply (Z.div_unique _ _ _ (va' - 4096 * (va / 4096))); lia).
      rewrite (pte_same_page s root va' va Epg), He in Ex. injection Ex as <-. rewrite decide_True by lia. cbn. unfold set_byte. cbn. do 4 f_equal. lia.
    - rewrite decide_False; [done|]. intros Hin. apply E.
      destruct (same_page_addr (get_table_ptr x) (get_table_ptr e) (va' mod 4096) (get_table_ptr x + va' mod 4096 - get_table_ptr e)) as [Eg Eo];
        [apply get_table_ptr_range|done|lia|lia|lia|].
      destruct (Hs root' p' va' x Hr' Hv' Ex Eg) as [-> Epg]. split; [done|lia]. }
  constructor; try done.
  - intros root' p' j Hr' Hj. rewrite <- (H3 root' p') by done. apply (Hwt root' p' 4%nat); [by eapply lookup_weaken|lia].
  - intros root' p' va' Hr' Hne Hv'. rewrite (Hub root' p'), decide_False by (done || tauto). by apply (H4 root' p').
  - intros va' Hv'. rewrite (Hub root p), H5 by done. unfold with_bytes. repeat case_decide; tauto.
  - intros va' e' Hv' Ho' He'. rewrite (Hp root p) in He' by done. destruct (H6 va' e' Hv' Ho' He') as (? & Hs'). split; [done|].
    intros root' p' va1 x Hr' Hv1 Hx. rewrite (Hp root' p') in Hx by (done || by eapply lookup_weaken). by apply (Hs' root' p').
  - intros va' e' Hv' He'. rewrite (Hp root p) in He' by done. by apply (H7 va').
Qed.

Lemma page_entry a flags : let e := Z.lor (Z.lor (Z.lor (Z.land a PTE_PHYS_MASK) flags) PAGE_PRESENT) PAGE_USER in
  has e PAGE_WRITE = has flags PAGE_WRITE /\ has e PAGE_NX = has flags PAGE_NX.
Proof. intros e. unfold e. bits. split; cbn; by rewrite !andb_false_r, !orb_false_r. Qed.

(** The frame of a page that has just been mapped. *)
Lemma fresh_frame s T M s1 a : Spaces s T M owed -> T0 ⊆ T -> alloc_page s = (s1, a) -> no_page a = false ->
  s1 = s <| frames := frames s1 |> /\ T !! a = None /\ aligned a /\ 0 < a < 2 ^ 52 /\ ~ is_tramp s1 a /\ owed a = 0 /\
  pf_managed (frames s1) a /\ pf_refcount (frames s1) a = 1 /\ Spaces s1 T M (fun h => owed h + ind (h = a)) /\
  (forall g, pf_managed (frames s1) g <-> pf_managed (frames s) g) /\
  forall root' p' va e, T0 !! root' = Some (4%nat, p') -> 0 <= va < 2 ^ 47 -> pte s root' va = Some e -> get_table_ptr e ≠ a.
Proof.
  intros [HI Hnn] HT Ea Eno. destruct (alloc_inv _ _ _ _ _ _ HI Ea) as [Es1 Hal]. rewrite Eno in Hal.
  destruct (grown_alloc _ _ _ _ _ _ HI Ea) as (G1 & _ & _). pose proof (gr_managed _ _ _ _ G1) as Hm1.
  destruct Hal as (Ht & Ha & Hb & Hm & Hrc & Hnt & Hc & Ho & HI1 & Hr0). do 4 (split; [done|]). split; [by rewrite Es1|]. do 3 (split; [done|]).
  split; [split; [done|]|split; [done|]].
  - intros h Hh. apply Hm1 in Hh. specialize (Hnn h Hh). unfold ind. case_decide; lia.
  - intros root' p' va e Hr Hv He E. apply Hm1 in Hm. rewrite <- E in Hm, Hr0.
    pose proof (pte_live _ _ _ _ _ _ _ _ HI (lookup_weaken _ _ _ _ Hr HT) Hv He Hm). lia.
Qed.

(** Mapping a page takes at most three frames for tables. *)
Lemma map_page_avail s T M ow va a flags s' :
  Spaces s T M ow -> T !! root = Some (4%nat, p) -> 0x1000 <= va < 2 ^ 47 -> get_table_ptr flags = 0 ->
  aligned a -> 0 < a < 2 ^ 52 -> ~ is_tramp s a -> T !! a = None -> (pf_managed (frames s) a -> 0 < pf_refcount (frames s) a) ->
  (forall e, pte s root va = Some e -> get_table_ptr e ≠ 0) ->
  pmap_map_user_page root va a flags s = (s', a) -> pf_avail (frames s) - 3 <= pf_avail (frames s').
Proof.
  intros [HI Hnn] Hr Hv Hfl Ha Hb Hnt Ht Hown Hz E. pose proof (get_table_ptr_id a Ha ltac:(lia)) as Eg.
  assert (Hmap := map_spec s T M ow root p va a flags s' a). cbv zeta in Hmap. rewrite Eg in Hmap.
  destruct Hmap as (T' & _ & [(? & _)|(_ & _ & _ & Hav & _)]); try done; [by right|lia|by apply Hav].
Qed.

(** A page that has just been mapped to a fresh frame, and is cleared. *)
Lemma cleared_page av av' own m s T M s1 a va flags s3 T' M' :
  LD av own m s T M -> 0x1000 <= va < 2 ^ 47 -> get_table_ptr flags = 0 -> s1 = s <| frames := frames s1 |> -> aligned a -> 0 < a < 2 ^ 52 ->
  (forall root' p' va e, T0 !! root' = Some (4%nat, p') -> 0 <= va < 2 ^ 47 -> pte s root' va = Some e -> get_table_ptr e ≠ a) ->
  framed s1 T s3 T' -> Spaces s3 T' M' owed -> page_mapped s1 T root va a flags s3 -> av' <= pf_avail (frames s3) ->
  LD av' (fun h => own h \/ h = va / 4096) (with_page (va / 4096) flags m) (set_page a 0 s3) T' M' /\
  exists e, pte (set_page a 0 s3) root va = Some e /\ get_table_ptr e = a.
Proof.
  intros HL Hv Hf Es1 Ha Hb Hne HF HS3 Hpm Hav. pose proof (ld_sub _ _ _ _ _ _ HL) as HT. pose proof (fr_sub _ _ _ _ HF) as HT'.
  assert (HTT : forall f x, T0 !! f = Some x -> T' !! f = Some x) by (intros f x Hfx; eapply lookup_weaken; [|exact HT']; by eapply lookup_weaken).
  set (e' := Z.lor (Z.lor (Z.lor (Z.land a PTE_PHYS_MASK) flags) PAGE_PRESENT) PAGE_USER).
  destruct (mapped_entry a flags Hf) as (Eg & _ & Eu). destruct (page_entry a flags) as [Ew En]. cbv zeta in Eg, Eu, Ew, En.
  rewrite (get_table_ptr_id a) in Eg by (done || lia). pose proof (pm_pte _ _ _ _ _ _ _ Hpm) as Hp3. fold e' in Eg, Eu, Ew, En, Hp3. clearbody e'.
  assert (Hp : forall root' p' va', T0 !! root' = Some (4%nat, p') -> 0 <= va' < 2 ^ 47 ->
    pte s3 root' va' = if decide (root' = root /\ va' / 4096 = va / 4096) then Some e' else pte s root' va').
  { intros root' p' va' Hr' Hv'. rewrite (Hp3 root' p') by (done || by eapply lookup_weaken). by rewrite Es1. }
  assert (Hv0 : 0 <= va < 2 ^ 47) by lia. assert (He' : pte s3 root va = Some e') by (rewrite (Hp root p) by done; by rewrite decide_True).
  destruct HS3 as [HI3 Hnn3]. pose proof (pte_data _ _ _ _ _ _ _ _ HI3 (HTT _ _ Hroot) Hv0 He') as Hta. rewrite Eg in Hta.
  assert (Hwt : forall f l q j, T' !! f = Some (l, q) -> 0 <= j < 512 -> word (set_page a 0 s3) (f + 8 * j) = word s3 (f + 8 * j)).
  { intros f l q j Hf' Hj. rewrite word_set_page, decide_False; [done|congruence|done| |done]. apply (pi_table _ _ _ _ HI3 _ _ _ Hf'). }
  destruct (data_write_inv s3 (set_page a 0 s3) T' M' _ HI3) as [HI4 Hp4]; [done|done|exact Hwt|].
  assert (Hp4' : forall root' p' va', T0 !! root' = Some (4%nat, p') -> 0 <= va' < 2 ^ 47 -> pte (set_page a 0 s3) root' va' = pte s3 root' va').
  { intros root' p' va' Hr' Hv'. apply (Hp4 root' p'); [|done]. by apply HTT. }
  split; [|exists e'; by rewrite (Hp4' root p)].
  apply (LD_page av own m s T M _ T' M' (va / 4096) flags e' av' HL (conj HI4 Hnn3) HT' Hav); rewrite ?Eg;
    [| | |exact Hne| |exact Eu|lia|exact Ew|exact En].
  - intros root' p' j Hr' Hj. rewrite (Hwt root' 4%nat p') by (by apply HTT || lia).
    rewrite (fr_kernel _ _ _ _ HF root' p') by (done || by eapply lookup_weaken). by rewrite Es1.
  - intros root' p' va' Hr' Hv'. rewrite (Hp4' root' p') by done. by apply (Hp root' p').
  - intros root' p' va' e j Hr' Hv' He He4 Hnea Hj. rewrite word_set_page, decide_False by (done || apply get_table_ptr_range).
    rewrite (Hp4' root' p') in He4 by done. rewrite (pm_memory _ _ _ _ _ _ _ Hpm root' p' va' e) by (done || by eapply lookup_weaken). by rewrite Es1.
  - intros j Hj. rewrite word_set_page by done. by apply decide_True.
Qed.

Lemma new_page_spec av own m s T M va flags s' r : LD av own m s T M -> 0x1000 <= va < 2 ^ 47 -> get_table_ptr flags = 0 ->
  new_page root va flags s = (s', r) ->
  exists T' M' av', match r with
  | Ok g => LD (av - 4) (fun h => own h \/ h = va / 4096) (with_page (va / 4096) flags m) s' T' M' /\
      exists e, pte s' root va = Some e /\ get_table_ptr e = g
  | Fail e => e = ENOMEM /\ av < 4 /\ LD av' own m s' T' M'
  | _ => False
  end.
Proof.
  intros HL Hv Hf. unfold new_page. destruct (alloc_page s) as [s1 a] eqn:Ea.
  pose proof (ld_spaces _ _ _ _ _ _ HL) as HS. pose proof HS as [HI Hnn]. pose proof (ld_sub _ _ _ _ _ _ HL) as HT.
  pose proof (ld_avail _ _ _ _ _ _ HL) as Hav. destruct (grown_alloc _ _ _ _ _ _ HI Ea) as (G1 & Hav1 & Hav0).
  destruct (no_page a) eqn:Eno.
  { destruct (alloc_inv _ _ _ _ _ _ HI Ea) as [Es1 Hal]. rewrite Eno in Hal. specialize (Hav0 eq_refl).
    intros [= <- <-]. exists T, M, (pf_avail (frames s1)). split; [done|]. split; [lia|].
    apply (LD_same av own m s T M); try done; try (intros; by rewrite Es1).
    split; [done|]. intros h Hh. by apply Hnn, (gr_managed _ _ _ _ G1). }
  destruct (fresh_frame s T M s1 a HS HT Ea Eno) as (Es1 & Ht & Ha & Hb & Hnt & Ho & Hm & Hrc & HS1 & Hm1 & Hne).
  destruct (pmap_map_user_page root va a flags s1) as [s3 r3] eqn:Em. pose proof (lookup_weaken _ _ _ _ Hroot HT) as Hr.
  assert (Hi : ind (a = a) = 1) by (unfold ind; by rewrite decide_True).
  destruct (map_page_spec s1 T M _ root p va a flags s3 r3 HS1 Hr Hv Hf Ha ltac:(lia) Hnt Ht) as (T' & M' & HF & Hcase); [intros _; lia|done|].
  pose proof (fr_sub _ _ _ _ HF) as HT'. pose proof (fr_managed _ _ _ _ HF) as Hm3.
  assert (Hnn3 : forall h, pf_managed (frames s3) h -> 0 <= owed h) by (intros h Hh; by apply Hnn, Hm1, Hm3).
  destruct Hcase as [(-> & HS3 & Hlow & Hp3)|(-> & HS3 & Hpm)].
  - cbn. intros [= <- <-]. exists T', M', (pf_avail (pf_release a (frames s3))). split; [done|]. split; [lia|].
    assert (Hp : forall root' p' va', T0 !! root' = Some (4%nat, p') -> 0 <= va' < 2 ^ 47 -> pte s3 root' va' = pte s root' va').
    { intros root' p' va' Hr' Hv'. rewrite (Hp3 root' p') by (done || by eapply lookup_weaken). by rewrite Es1. }
    apply (LD_same av own m s T M); try done.
    + apply release_fresh; try done; [by apply Hm3|lia].
    + intros root' p' j Hr' Hj. change (word s3 (root' + 8 * j) = word s (root' + 8 * j)).
      rewrite (fr_kernel _ _ _ _ HF root' p') by (done || by eapply lookup_weaken). by rewrite Es1.
    + intros root' p' va' e j Hr' Hv' He Hj. change (word s3 (get_table_ptr e + 8 * j) = word s (get_table_ptr e + 8 * j)).
      rewrite (fr_mem _ _ _ _ HF); [by rewrite Es1| |apply get_table_ptr_range|done].
      assert (He3 : pte s3 root' va' = Some e) by (by rewrite (Hp root' p')).
      exact (pte_data _ _ _ _ _ _ _ _ (proj1 HS3) (lookup_weaken _ _ _ _ (lookup_weaken _ _ _ _ Hr' HT) HT') Hv' He3).
  - rewrite (proj2 (Z.eqb_neq a 0)) by lia. intros [= <- <-]. exists T', M', 0.
    apply (cleared_page av (av - 4) own m s T M s1 a va flags s3 T' M' HL); try done.
    + destruct HS3 as [HI3 _]. split; [eapply PInv_owed; [exact HI3|..]|done].
      * intros h. unfold ind. repeat case_decide; lia.
      * intros h _ Hd. exfalso. apply Hd. unfold ind. repeat case_decide; lia.
    + pose proof (map_page_avail s1 T M _ va a flags s3 HS1 Hr Hv Hf Ha Hb Hnt Ht ltac:(lia)) as Hav3. specialize (Hav3 ltac:(rewrite Es1; intros e; apply (ld_nonzero _ _ _ _ _ _ HL); lia) Em). lia.
Qed.

(** The outcome of a step of the loader: on success the address space holds
    [f] and [av] frames are available, on failure it is some address space;
    [E] is the reason of an error and [W] of a read outside the image. *)
Definition stopped (s : state) : Prop := exists T M av m, LD av (fun _ => False) m s T M.
Definition loads {A} (av : Z) (own : Z -> Prop) (f : A -> aspace) (Q : A -> Prop) (E : Z -> Prop) (W : Prop) (r : state * outcome A) : Prop :=
  match r with
  | (s, Ok a) => Q a /\ exists T M, LD av own (f a) s T M
  | (s, Fail e) => E e /\ stopped s
  | (s, Wild) => W /\ stopped s
  | (s, Endless) => False
  end.

Lemma LD_stopped av own m s T M : LD av own m s T M -> stopped s.
Proof. intros HL. exists T, M, av, m. by apply (LD_ext av av own _ m). Qed.

Lemma loads_bind {A B} av av' own own' f g Q Q' (E E' : Z -> Prop) W W' (x : Loader.M A) (k : A -> Loader.M B) s :
  loads av own f Q E W (x s) -> (forall e, E e -> E' e) -> (W -> W') ->
  (forall a s' T M, x s = (s', Ok a) -> Q a -> LD av own (f a) s' T M -> loads av' own' g Q' E' W' (k a s')) ->
  loads av' own' g Q' E' W' ((x ≫= k) s).
Proof.
  intros Hx HE HW Hk. unfold mbind, M_bind. destruct (x s) as [s1 [a|e| |]] eqn:Ex; cbn in Hx |- *.
  - destruct Hx as (Hq & T & M & HL). by apply (Hk a s1 T M).
  - destruct Hx as [He Hs]. split; [by apply HE|done].
  - destruct Hx as [Hw Hs]. split; [by apply HW|done].
  - done.
Qed.

Lemma loads_weaken {A} av av' own (f g : A -> aspace) (Q Q' : A -> Prop) (E E' : Z -> Prop) (W W' : Prop) r : loads av own f Q E W r ->
  (forall a va, 0 <= va < 2 ^ 47 -> g a va = f a va) -> av' <= av -> (forall a, Q a -> Q' a) -> (forall e, E e -> E' e) -> (W -> W') ->
  loads av' own g Q' E' W' r.
Proof.
  destruct r as [s [a|e| |]]; cbn; intros Hr Hfg Hav HQ HE HW; [|destruct Hr; split; [by apply HE|done]|destruct Hr; split; [by apply HW|done]|done].
  destruct Hr as (Hq & T & M & HL). split; [by apply HQ|]. exists T, M. apply (LD_ext av av' own own (f a)); [done|done| |done]. apply Hfg.
Qed.

Lemma loads_ext {A} av own (f g : A -> aspace) (Q : A -> Prop) E W r : loads av own f Q E W r ->
  (forall a va, 0 <= va < 2 ^ 47 -> g a va = f a va) -> loads av own g Q E W r.
Proof. intros Hr Hfg. by apply (loads_weaken av av own f g Q Q E E W W). Qed.

Lemma loads_ret {A} av own (f : A -> aspace) (Q : A -> Prop) E W (a : A) s T M : LD av own (f a) s T M -> Q a ->
  loads av own f Q E W ((mret a : Loader.M A) s).
Proof. intros HL Hq. split; [done|]. by exists T, M. Qed.

Lemma loads_fail {A} av av' own own' (f : A -> aspace) (Q : A -> Prop) (E : Z -> Prop) W e s T M m : LD av' own' m s T M -> E e ->
  loads av own f Q E W (fail e s).
Proof. intros HL He. split; [done|]. by eapply LD_stopped. Qed.

(** Fewer than [n] frames. *)
Definition no_memory (av n e : Z) : Prop := e = ENOMEM /\ av < n.

Lemma loads_new_page av own m s T M va flags W : LD av own m s T M -> 0x1000 <= va < 2 ^ 47 -> get_table_ptr flags = 0 ->
  let r := new_page root va flags s in
  loads (av - 4) (fun h => own h \/ h = va / 4096) (fun _ => with_page (va / 4096) flags m)
    (fun g => exists e, pte r.1 root va = Some e /\ get_table_ptr e = g) (no_memory av 4) W r.
Proof.
  intros HL Hv Hf r. unfold r. destruct (new_page root va flags s) as [s' r0] eqn:E.
  destruct (new_page_spec av own m s T M va flags s' r0 HL Hv Hf E) as (T' & M' & av' & Hr). destruct r0 as [g|e| |]; try done; cbn.
  - destruct Hr as [HL' He]. split; [done|]. by exists T', M'.
  - destruct Hr as (-> & Hav & HL'). split; [done|by eapply LD_stopped].
Qed.

(** ** Segments *)

Context (img : list Z).
Hypothesis Himg : Forall is_byte img.
Hypothesis Hlen : Z.of_nat (length img) < 2 ^ 63.

Lemma bytes_at_cases off len : match bytes_at img off len with
  | Ok l => 0 <= off /\ off + len <= Z.of_nat (length img) /\ l = take (Z.to_nat len) (drop (Z.to_nat off) img)
  | Wild => off < 0 \/ Z.of_nat (length img) < off + len
  | _ => False
  end.
Proof.
  unfold bytes_at. destruct (Z.leb_spec 0 off), (Z.leb_spec (off + len) (Z.of_nat (length img))); cbn; [done|lia..].
Qed.

Definition fields_ok (seg : segment_command_64) : Prop :=
  0 <= vmaddr seg < 2 ^ 64 /\ 0 <= vmsize seg < 2 ^ 64 /\ 0 <= fileoff seg < 2 ^ 64 /\ 0 <= filesize seg < 2 ^ 64.
Definition outside (seg : segment_command_64) : Prop := Z.of_nat (length img) < fileoff seg + filesize seg.

(** The page at [page_vaddr] of a segment, over what was there. *)
Definition with_segment_from (seg : segment_command_64) (lo hi : Z) (m : aspace) : aspace := fun va =>
  if decide (lo <= va < hi) then Some (seg_byte img seg va, has (page_flags seg) PAGE_WRITE, has (page_flags seg) PAGE_NX) else m va.

Lemma page_flags_frame seg : get_table_ptr (page_flags seg) = 0.
Proof. unfold page_flags. by destruct (has (initprot seg) VM_PROT_WRITE), (has (initprot seg) VM_PROT_EXECUTE). Qed.

Lemma load_page_spec av own m s T M seg pv : LD av own m s T M -> fields_ok seg -> aligned pv -> 0x1000 <= pv <= 2 ^ 47 - 4096 ->
  loads (av - 4) own (fun _ => with_segment_from seg pv (pv + 4096) m) (fun _ => True) (no_memory av 4) (outside seg) (load_page img root seg pv s).
Proof.
  intros HL (Hva & _ & Hfo & Hfs) Ha Hpv. unfold load_page. eapply loads_bind; [apply (loads_new_page av own m s T M); [done|lia|apply page_flags_frame]|done|exact id|].
  intros page s1 T1 M1 E (e & He & Eg) HL1. rewrite E in He. cbn in He.
  set (cs := copy_start seg pv) in *. set (ce := copy_end seg pv) in *.
  assert (Hcs : pv <= cs /\ vmaddr seg <= cs /\ forall va, pv <= va -> vmaddr seg <= va -> cs <= va).
  { unfold cs, copy_start. destruct (Z.ltb_spec pv (vmaddr seg)); (split; [lia|]; split; [lia|]; intros; lia). }
  pose proof (u64_range (vmaddr seg + filesize seg)) as Hwr. assert (Hwl : u64 (vmaddr seg + filesize seg) <= vmaddr seg + filesize seg) by (apply Z.mod_le; lia).
  assert (Hce : ce <= pv + 4096 /\ ce <= u64 (vmaddr seg + filesize seg) /\ forall va, va < pv + 4096 -> va < u64 (vmaddr seg + filesize seg) -> va < ce).
  { unfold ce, copy_end. destruct (Z.ltb_spec (u64 (vmaddr seg + filesize seg)) (pv + 4096)); (split; [lia|]; split; [lia|]; intros; lia). }
  clearbody cs ce.
  destruct Hcs as (Hcs1 & Hcs2 & Hcs3), Hce as (Hce1 & Hce2 & Hce3). unfold aligned in Ha.
  assert (Hpage : forall va, 0 <= va -> va / 4096 = pv / 4096 <-> pv <= va < pv + 4096).
  { intros va Hv. pose proof (Z.div_mod va 4096 ltac:(done)). pose proof (Z.mod_pos_bound va 4096 ltac:(done)).
    pose proof (Z.div_mod pv 4096 ltac:(done)). split; [lia|]. intros ?. symmetry. apply (Z.div_unique _ _ _ (va - pv)); lia. }
  assert (Hweak : forall m', (forall va, 0 <= va < 2 ^ 47 -> with_segment_from seg pv (pv + 4096) m va = m' va) ->
    forall s2, LD (av - 4) (fun h => own h \/ h = pv / 4096) m' s2 T1 M1 ->
    loads (av - 4) own (fun _ => with_segment_from seg pv (pv + 4096) m) (fun _ => True) (no_memory av 4) (outside seg) (s2, Ok tt)).
  { intros m' Hm s2 HL2. split; [done|]. exists T1, M1. apply (LD_ext _ _ _ own _ _ _ _ _ HL2); [by left|done|done]. }
  destruct (Z.ltb_spec cs ce) as [Hlt|Hge].
  - set (src := u64 _). pose proof (u64_range (fileoff seg + (cs - vmaddr seg))) as Hsr.
    assert (Hsl : src <= fileoff seg + (cs - vmaddr seg)) by (apply Z.mod_le; lia).
    pose proof (bytes_at_cases src (ce - cs)) as Hb. unfold lift, mbind, M_bind.
    destruct (bytes_at img src (ce - cs)) as [data|er| |]; try done.
    + destruct Hb as (_ & Hb & ->). set (l := take _ _). assert (Hcp : cs / 4096 = pv / 4096) by (apply Hpage; lia).
      assert (Ell : Z.of_nat (length l) = ce - cs) by (unfold l; rewrite length_take, length_drop; lia).
      assert (Hcm : cs mod 4096 = cs - pv).
      { pose proof (Z.div_mod cs 4096 ltac:(done)). pose proof (Z.div_mod pv 4096 ltac:(done)). lia. }
      unfold write_phys. replace (page + (cs - pv)) with (get_table_ptr e + cs mod 4096) by lia.
      apply (Hweak (with_bytes cs l (with_page (pv / 4096) (page_flags seg) m))).
      * intros va Hv. unfold with_segment_from, with_bytes, with_page. rewrite Ell. destruct (decide (va / 4096 = pv / 4096)) as [Ep|Ep].
        -- apply Hpage in Ep; [|lia]. rewrite decide_True by done. unfold seg_byte. destruct (decide (cs <= va < cs + (ce - cs))) as [Ei|Ei].
           ++ rewrite decide_True by lia. cbn. unfold set_byte. cbn. do 3 f_equal. unfold l. rewrite lookup_total_take_lt, lookup_total_drop by lia. f_equal.
              replace (fileoff seg + (va - vmaddr seg)) with (fileoff seg + (cs - vmaddr seg) + (va - cs)) by lia.
              rewrite <- u64_add_l. fold src. rewrite u64_id by lia. lia.
           ++ rewrite decide_False; [done|]. intros [Hl1 Hl2]. pose proof (Hcs3 va ltac:(lia) ltac:(lia)). pose proof (Hce3 va ltac:(lia) ltac:(lia)). lia.
        -- rewrite decide_False by (rewrite <- Hpage; [done|lia]). rewrite decide_False; [done|]. intros ?. apply Ep, Hpage; lia.
      * apply (LD_write (av - 4) (fun h => own h \/ h = pv / 4096)); try done; [lia|by right| | |lia].
        -- by rewrite (pte_same_page s1 root cs pv).
        -- by apply Forall_take, Forall_drop.
    + split; [unfold outside; lia|]. by eapply LD_stopped.
  - apply (Hweak (with_page (pv / 4096) (page_flags seg) m)); [|done]. intros va Hv. unfold with_segment_from, with_page.
    destruct (decide (va / 4096 = pv / 4096)) as [Ep|Ep].
    + apply Hpage in Ep; [|lia]. rewrite decide_True by done. unfold seg_byte. rewrite decide_False; [done|].
      intros [Hl1 Hl2]. pose proof (Hcs3 va ltac:(lia) ltac:(lia)). pose proof (Hce3 va ltac:(lia) ltac:(lia)). lia.
    + rewrite decide_False; [done|]. intros ?. apply Ep, Hpage; lia.
Qed.

Lemma load_pages_spec own n seg : fields_ok seg -> aligned (end_vaddr seg) -> end_vaddr seg <= 2 ^ 47 ->
  forall pv av m s T M, LD av own m s T M -> aligned pv -> 0x1000 <= pv -> 4096 * Z.of_nat n = Z.max 0 (end_vaddr seg - pv) ->
  loads (av - 4 * Z.of_nat n) own (fun _ => with_segment_from seg pv (end_vaddr seg) m) (fun _ => True) (no_memory av (4 * Z.of_nat n)) (outside seg)
    (load_pages n img root seg pv s).
Proof.
  intros Hf Hae Hend. unfold aligned in *. pose proof (Z.div_mod (end_vaddr seg) 4096 ltac:(done)).
  induction n as [|n IH]; intros pv av m s T M HL Hap Hpv Hn; cbn [load_pages]; unfold aligned in Hap;
    pose proof (Z.div_mod pv 4096 ltac:(done)); destruct (Z.ltb_spec pv (end_vaddr seg)) as [Hlt|Hge]; try lia.
  - apply (loads_ret _ own _ _ _ _ tt s T M); [|done]. apply (LD_ext av _ own own m _ s T M HL); [done| |lia]. intros va Hv. unfold with_segment_from.
    by rewrite decide_False by lia.
  - eapply loads_bind; [apply (load_page_spec av own m s T M seg pv HL Hf); [done|lia]| |exact id|].
    { intros e [-> ?]. split; [done|lia]. }
    intros [] s1 T1 M1 _ _ HL1. eapply loads_weaken; [apply (IH (pv + 4096) (av - 4) _ s1 T1 M1 HL1); unfold aligned; [|lia..]| |lia|done| |done].
    + rewrite <- (Z.mod_add pv 1 4096) in Hap by done. by rewrite Z.mul_1_l in Hap.
    + intros [] va Hv. unfold with_segment_from. repeat case_decide; done || lia.
    + intros e [-> ?]. split; [done|lia].
Qed.

(** The page-aligned bounds of a segment in the user half. *)
Lemma segment_bounds seg : fields_ok seg -> out_of_user_bounds seg = false ->
  start_vaddr seg = 4096 * (vmaddr seg / 4096) /\ 0x1000 <= start_vaddr seg /\
  aligned (start_vaddr seg) /\ aligned (end_vaddr seg) /\ end_vaddr seg <= 2 ^ 47 /\ vmaddr seg + vmsize seg <= end_vaddr seg.
Proof.
  intros (Hv & Hz & _) Hb. unfold out_of_user_bounds, USER_TOP in Hb. rewrite !orb_false_iff in Hb. destruct Hb as [[[H1 H2] H3] H4].
  apply Z.ltb_ge in H1, H4. apply Z.leb_gt in H2, H3. rewrite u64_id in H4 by lia.
  unfold start_vaddr, end_vaddr. rewrite u64_id by lia.
  destruct (page_trunc_page (vmaddr seg) ltac:(lia)) as [-> _]. destruct (page_trunc_page (vmaddr seg + vmsize seg + 4095) ltac:(lia)) as [-> _].
  pose proof (Z.div_mod (vmaddr seg) 4096 ltac:(done)). pose proof (Z.mod_pos_bound (vmaddr seg) 4096 ltac:(done)).
  pose proof (Z.div_mod (vmaddr seg + vmsize seg + 4095) 4096 ltac:(done)). pose proof (Z.mod_pos_bound (vmaddr seg + vmsize seg + 4095) 4096 ltac:(done)).
  assert (forall k, aligned (4096 * k)) by (intros k; unfold aligned; rewrite Z.mul_comm; by apply Z.mod_mul).
  assert (1 <= vmaddr seg / 4096) by (apply Z.div_le_lower_bound; lia).
  assert ((vmaddr seg + vmsize seg + 4095) / 4096 < 2 ^ 35 + 1) by (apply Z.div_lt_upper_bound; lia).
  split; [done|]. split; [lia|]. do 2 (split; [done|]). lia.
Qed.

Lemma load_segment_spec av own m s T M seg : LD av own m s T M -> fields_ok seg ->
  loads (av - 4 * segment_pages seg) own (fun _ => with_segment img seg m) (fun _ => mapped_segment seg = true -> out_of_user_bounds seg = false)
    (fun e => no_memory av (4 * segment_pages seg) e \/ e = ENOEXEC /\ mapped_segment seg = true /\ out_of_user_bounds seg = true)
    (mapped_segment seg = true /\ outside seg) (load_segment img root seg s).
Proof.
  intros HL Hf. unfold load_segment, with_segment, segment_pages. destruct (mapped_segment seg) eqn:Em.
  2:{ apply (loads_ret _ own _ _ _ _ tt s T M); [|done]. by apply (LD_ext av _ own own m _ s T M HL); [..|lia]. }
  destruct (out_of_user_bounds seg) eqn:Eb; [eapply loads_fail; [done|by right]|].
  destruct (segment_bounds seg Hf Eb) as (_ & H1 & H2 & H3 & H4 & _). unfold aligned in *.
  pose proof (Z.div_mod (end_vaddr seg) 4096 ltac:(done)). pose proof (Z.div_mod (start_vaddr seg) 4096 ltac:(done)).
  assert (En : (end_vaddr seg - start_vaddr seg) / 4096 = end_vaddr seg / 4096 - start_vaddr seg / 4096).
  { replace (end_vaddr seg - start_vaddr seg) with ((end_vaddr seg / 4096 - start_vaddr seg / 4096) * 4096) by lia. by rewrite Z.div_mul. }
  rewrite En. eapply loads_weaken; [apply (load_pages_spec own _ seg Hf H3 H4 (start_vaddr seg) av m s T M HL H2 H1); lia|done|lia|done| |done].
  intros e [-> ?]. left. split; [done|lia].
Qed.

(** ** Load commands *)

Lemma field_cases off len : 0 <= len -> match field img off len with
  | Ok v => 0 <= v < 2 ^ (8 * len) /\ 0 <= off /\ off + len <= Z.of_nat (length img)
  | Wild => off < 0 \/ Z.of_nat (length img) < off + len
  | _ => False
  end.
Proof.
  intros Hl. unfold field. pose proof (bytes_at_cases off len) as Hb. destruct (bytes_at img off len) as [l|e| |]; cbn; try done.
  destruct Hb as (Ho & He & ->). split; [|done]. set (l := take _ _). assert (Hlb : Forall is_byte l) by (by apply Forall_take, Forall_drop).
  replace len with (Z.of_nat (length l)) by (unfold l; rewrite length_take, length_drop; lia). by apply le_range.
Qed.

Lemma read_segment_cases ptr : 0 <= ptr -> match read_segment img ptr with
  | Ok seg => fields_ok seg
  | Wild => Z.of_nat (length img) < ptr + 72
  | _ => False
  end.
Proof.
  intros Hp. unfold read_segment. pose proof (bytes_at_cases (ptr + 8) 16) as Hn. destruct (bytes_at img (ptr + 8) 16) as [n|e| |]; try done; [|cbn; lia].
  pose proof (field_cases (ptr + 24) 8 ltac:(done)) as H1. destruct (field img (ptr + 24) 8) as [a|e| |]; try done; [|cbn; lia].
  pose proof (field_cases (ptr + 32) 8 ltac:(done)) as H2. destruct (field img (ptr + 32) 8) as [z|e| |]; try done; [|cbn; lia].
  pose proof (field_cases (ptr + 40) 8 ltac:(done)) as H3. destruct (field img (ptr + 40) 8) as [o|e| |]; try done; [|cbn; lia].
  pose proof (field_cases (ptr + 48) 8 ltac:(done)) as H4. destruct (field img (ptr + 48) 8) as [f|e| |]; try done; [|cbn; lia].
  pose proof (field_cases (ptr + 60) 4 ltac:(done)) as H5. destruct (field img (ptr + 60) 4) as [i|e| |]; try done; [|cbn; lia].
  cbn. unfold fields_ok. cbn. change (8 * 8) with 64 in *. tauto.
Qed.

Lemma read_command_cases ptr cmd_end : 0 <= ptr -> match read_command img ptr cmd_end with
  | Ok (sz, c) => 8 <= sz /\ ptr + sz <= cmd_end /\ (forall seg, c = Segment seg -> fields_ok seg)
  | Fail e => e = ENOEXEC
  | Wild => Z.of_nat (length img) < cmd_end
  | Endless => False
  end.
Proof.
  intros Hp. unfold read_command. destruct (Z.ltb_spec cmd_end (ptr + 8)); [done|].
  pose proof (field_cases (ptr + 4) 4 ltac:(done)) as K1. destruct (field img (ptr + 4) 4) as [sz|e| |]; cbn [mbind outcome_bind]; try done; [|lia].
  destruct (Z.ltb_spec sz 8); [done|]. destruct (Z.ltb_spec cmd_end (ptr + sz)); [done|]. cbn [orb].
  pose proof (field_cases ptr 4 ltac:(done)) as K2. destruct (field img ptr 4) as [cmd|e| |]; cbn [mbind outcome_bind]; try done; [|lia].
  destruct (cmd =? LC_SEGMENT_64).
  { destruct (Z.ltb_spec sz 72); [done|]. pose proof (read_segment_cases ptr Hp) as K3.
    destruct (read_segment img ptr) as [seg|e| |]; cbn [mbind outcome_bind]; try done; [|lia]. do 2 (split; [done|]). by intros seg' [= <-]. }
  destruct (cmd =? LC_MAIN).
  { destruct (Z.leb_spec 24 sz); [|done]. pose proof (field_cases (ptr + 8) 8 ltac:(done)) as K3.
    destruct (field img (ptr + 8) 8) as [o|e| |]; cbn [mbind outcome_bind]; try done; lia. }
  destruct (cmd =? LC_UNIXTHREAD); [|done]. destruct (Z.leb_spec 184 sz); [|done]. pose proof (field_cases (ptr + 144) 8 ltac:(done)) as K3.
  destruct (field img (ptr + 144) 8) as [o|e| |]; cbn [mbind outcome_bind]; try done; lia.
Qed.

(** Why the image may be read outside, and why it is rejected. *)
Definition bad_image (cmds : list command) (cmd_end : Z) : Prop :=
  Z.of_nat (length img) < cmd_end \/ exists seg, Segment seg ∈ cmds /\ mapped_segment seg = true /\ outside seg.
Definition not_loadable (t : list command * bool) : Prop :=
  t.2 = false \/ exists seg, Segment seg ∈ t.1 /\ mapped_segment seg = true /\ out_of_user_bounds seg = true.

Lemma load_command_spec av own m s T M c : LD av own m s T M -> (forall seg, c = Segment seg -> fields_ok seg) ->
  loads (av - 4 * command_pages c) own (fun _ => with_command img m c) (fun _ => forall seg, c = Segment seg -> mapped_segment seg = true -> out_of_user_bounds seg = false)
    (fun e => no_memory av (4 * command_pages c) e \/ e = ENOEXEC /\ exists seg, c = Segment seg /\ mapped_segment seg = true /\ out_of_user_bounds seg = true)
    (exists seg, c = Segment seg /\ mapped_segment seg = true /\ outside seg) (load_command img root c s).
Proof.
  intros HL Hf. destruct c as [seg| | |]; cbn [load_command with_command command_pages];
    try (apply (loads_ret _ own _ _ _ _ tt s T M); [by apply (LD_ext av _ own own m _ s T M HL); [..|lia]|done]).
  eapply loads_weaken; [apply (load_segment_spec av own m s T M seg HL (Hf seg eq_refl))|done|done|by intros a Hq seg' [= <-]| |].
  - intros e [He|(-> & ?)]; [by left|right]. split; [done|]. by exists seg.
  - intros ?. by exists seg.
Qed.

Lemma load_commands_spec own n : forall ptr cmd_end text entry av m s T M, LD av own m s T M -> 0 <= ptr ->
  let t := read_commands n img ptr cmd_end in
  loads (av - 4 * pages t.1) own (fun _ => foldl (with_command img) m t.1)
    (fun te => ~ not_loadable t /\ te = foldl noted (text, entry) t.1)
    (fun e => no_memory av (4 * pages t.1) e \/ e = ENOEXEC /\ not_loadable t) (bad_image t.1 cmd_end)
    (load_commands n img root ptr cmd_end text entry s).
Proof.
  induction n as [|n IH]; intros ptr cmd_end text entry av m s T M HL Hp; cbn [load_commands read_commands].
  { apply (loads_ret _ own _ _ _ _ (text, entry) s T M); [|split; [|done]; intros [?|(seg & Hin & _)]; [done|by apply elem_of_nil in Hin]]. by apply (LD_ext av _ own own m _ s T M HL); [..|cbn; lia]. }
  pose proof (read_command_cases ptr cmd_end Hp) as Hc. unfold lift at 1. unfold mbind at 1, M_bind at 1.
  destruct (read_command img ptr cmd_end) as [[sz c]|e| |]; cbn [fst snd]; try done.
  2:{ split; [right; split; [done|by left]|by eapply LD_stopped]. }
  2:{ split; [by left|by eapply LD_stopped]. }
  destruct Hc as (Hsz & Hend & Hf). destruct (read_commands n img (ptr + sz) cmd_end) as [cmds ok] eqn:Er. cbn [fst snd foldl].
  pose proof (pages_nonneg cmds) as Hpn. pose proof (command_pages_nonneg c) as Hcn.
  assert (Epg : pages (c :: cmds) = command_pages c + pages cmds) by done. rewrite Epg.
  eapply loads_bind; [apply (load_command_spec av own m s T M c HL Hf)| | |].
  { intros e [[-> ?]|(-> & seg & -> & Hm & Ho)]; [left; split; [done|lia]|right]. split; [done|]. right. exists seg. split; [by left|done]. }
  { intros (seg & -> & Hm & Ho). right. exists seg. split; [by left|done]. }
  intros [] s1 T1 M1 _ Hq HL1. destruct (note_command c text entry) as [text1 entry1] eqn:En.
  pose proof (IH (ptr + sz) cmd_end text1 entry1 _ _ s1 T1 M1 HL1 ltac:(lia)) as HIH. rewrite Er in HIH. cbn [fst snd] in HIH.
  eapply loads_weaken; [exact HIH|done|lia| | |].
  - intros te [Hn ->]. split; [|by assert (noted (text, entry) c = (text1, entry1)) as -> by exact En].
    intros [?|(seg & [<-|Hin]%elem_of_cons & Hm & Ho)]; [by apply Hn; left|specialize (Hq seg eq_refl Hm); congruence|]. apply Hn. right. by exists seg.
  - intros e [[-> ?]|(-> & [Hn|(seg & Hin & Hx)])]; [left; split; [done|lia]|right; split; [done|]..]; [by left|right]. exists seg. split; [by right|done].
  - intros [Hb|(seg & Hin & Hx)]; [by left|right]. exists seg. split; [by right|done].
Qed.

(** ** The stack *)

(** The pages from [lo] up to the top of the stack. *)
Definition stack_page (lo g : Z) : Prop := lo <= 4096 * g < stack_top.

Lemma stack_page_va lo va : aligned lo -> stack_page lo (va / 4096) <-> lo <= va < stack_top.
Proof.
  intros Ha. unfold aligned, stack_page, stack_top in *. pose proof (Z.div_mod va 4096 ltac:(done)). pose proof (Z.mod_pos_bound va 4096 ltac:(done)).
  pose proof (Z.div_mod lo 4096 ltac:(done)). lia.
Qed.

Lemma stack_aligned i : aligned (stack_top - 4096 * i).
Proof.
  unfold aligned, stack_top. replace (0x7FFFFFFF0000 - 4096 * i) with (0 + (34359738352 - i) * 4096) by lia. by rewrite Z.mod_add.
Qed.

Lemma map_stack_spec m n : forall i av s T M, 0 <= i -> i + Z.of_nat n <= 2048 ->
  LD av (stack_page (stack_top - 4096 * i)) (with_zeros (stack_top - 4096 * i) m) s T M ->
  loads (av - 4 * Z.of_nat n) (stack_page (stack_top - 4096 * (i + Z.of_nat n))) (fun _ => with_zeros (stack_top - 4096 * (i + Z.of_nat n)) m)
    (fun _ => True) (no_memory av (4 * Z.of_nat n)) False (map_stack n root i s).
Proof.
  induction n as [|n IH]; intros i av s T M Hi Hn HL; cbn [map_stack].
  { rewrite Z.add_0_r, Z.mul_0_r, Z.sub_0_r. by apply (loads_ret _ _ _ _ _ _ tt s T M). }
  set (lo := stack_top - 4096 * (i + 1)). pose proof (stack_aligned (i + 1)) as Ha. fold lo in Ha. unfold aligned in Ha.
  assert (Hlo : 0x1000 <= lo < 2 ^ 47) by (unfold lo, stack_top; lia).
  eapply loads_bind; [by apply (loads_new_page _ _ _ s T M lo STACK_PAGE_FLAGS False HL Hlo)|intros e [-> ?]; split; [done|lia]|done|].
  intros g s1 T1 M1 _ _ HL1. replace (i + Z.of_nat (S n)) with (i + 1 + Z.of_nat n) by lia.
  eapply loads_weaken; [apply (IH (i + 1) (av - 4) s1 T1 M1); [lia..|]|done|lia|done|intros e [-> ?]; split; [done|lia]|done]. fold lo.
  assert (Hstep : forall va, va / 4096 = lo / 4096 <-> lo <= va < stack_top - 4096 * i).
  { intros va. unfold lo in *. pose proof (Z.div_mod va 4096 ltac:(done)). pose proof (Z.mod_pos_bound va 4096 ltac:(done)).
    pose proof (Z.div_mod (stack_top - 4096 * (i + 1)) 4096 ltac:(done)). lia. }
  apply (LD_ext _ _ _ _ _ _ _ _ _ HL1); [| |done].
  - intros h. unfold stack_page. pose proof (Z.div_mod lo 4096 ltac:(done)). unfold lo in *. lia.
  - intros va Hv. unfold with_zeros, with_page. specialize (Hstep va). unfold lo in *. repeat case_decide; done || lia.
Qed.

Notation bottom := (stack_top - 4096 * 2048).
Notation stack_own := (stack_page bottom).

Lemma write_loop_spec fuel : forall va l av m s T M, LD av stack_own m s T M -> (forall x, bottom <= x < stack_top -> is_Some (m x)) ->
  bottom <= va -> va + Z.of_nat (length l) <= stack_top -> Forall is_byte l -> (length l <= fuel)%nat ->
  loads av stack_own (fun _ => with_bytes va l m) (fun ok => ok = true) (fun _ => False) False (write_loop fuel root va l s).
Proof.
  induction fuel as [|fuel IH]; intros va l av m s T M HL Hm Hlo Hhi Hl Hfuel; cbn [write_loop].
  all: destruct (Z.eqb_spec (Z.of_nat (length l)) 0) as [E0|E0];
    [apply (loads_ret _ _ _ _ _ _ true s T M); [|done]; apply (LD_ext _ _ _ _ m _ _ _ _ HL); [done| |done]; intros x Hx; unfold with_bytes; by rewrite decide_False by lia|].
  { lia. }
  assert (Hv : 0x1000 <= va < 2 ^ 47) by (unfold stack_top in *; lia). assert (Hs : bottom <= va < stack_top) by lia.
  pose proof (proj2 (stack_page_va bottom va (stack_aligned 2048)) Hs) as Hown.
  pose proof (ld_view _ _ _ _ _ _ HL va ltac:(lia)) as Hvw. destruct (pte s root va) as [e|] eqn:He.
  2:{ unfold uview in Hvw. rewrite He in Hvw. destruct (Hm va Hs) as [c Hc]. by rewrite Hc in Hvw. }
  destruct (ld_own _ _ _ _ _ _ HL va e ltac:(lia) Hown He) as (Hu & _). pose proof (ld_nonzero _ _ _ _ _ _ HL va e ltac:(lia) He) as Hz.
  pose proof (extract_cases s T M owed root p va (proj1 (ld_spaces _ _ _ _ _ _ HL)) (lookup_weaken _ _ _ _ Hroot (ld_sub _ _ _ _ _ _ HL)) Hv) as Hx.
  rewrite He in Hx. destruct Hx as [Hx1 Hx2]; [by intros e' [= <-]|]. rewrite (proj2 (Z.eqb_neq _ _)) by done. rewrite Hx2, page_offset.
  destruct (chunk_range va (Z.of_nat (length l)) ltac:(lia) ltac:(lia)) as [Hn Hpage]. set (n := chunk va (Z.of_nat (length l))) in *. clearbody n.
  destruct (Hpage (n - 1) ltac:(lia)) as [_ Hfit]. pose proof (Z.mod_pos_bound (va + (n - 1)) 4096 ltac:(done)).
  assert (Hlt : Z.of_nat (length (take (Z.to_nat n) l)) = n) by (rewrite length_take; lia).
  pose proof (LD_write _ _ m s T M va e (take (Z.to_nat n) l) HL ltac:(lia) Hown He (Forall_take _ _ _ Hl) ltac:(lia)) as HL1.
  rewrite u64_id by (unfold stack_top in *; lia).
  eapply loads_ext; [apply (IH (va + n) (drop (Z.to_nat n) l) _ _ _ T M HL1)|].
  - intros x Hx. unfold with_bytes. case_decide; [|by apply Hm]. by apply fmap_is_Some, Hm.
  - lia.
  - rewrite length_drop. lia.
  - by apply Forall_drop.
  - rewrite length_drop. lia.
  - intros a x Hx. unfold with_bytes. rewrite Hlt, length_drop. repeat case_decide; try lia; [|by rewrite lookup_total_take_lt by lia|done].
    rewrite lookup_total_drop. do 3 f_equal. lia.
Qed.

Lemma push_spec av m b l s T M : LD av stack_own (with_stack b m) s T M -> Forall is_byte l ->
  Z.of_nat (length l) + Z.of_nat (length b) <= 4096 * 2048 ->
  loads av stack_own (fun _ => with_stack (l ++ b) m) (fun ok => ok = true) (fun _ => False) False
    (write_user_stack root (stack_top - Z.of_nat (length (l ++ b))) l s).
Proof.
  intros HL Hl Hlen'. rewrite length_app, Nat2Z.inj_add. eapply loads_ext.
  - apply (write_loop_spec (length l) _ l _ (with_stack b m) s T M HL); [|lia|lia|done|lia].
    intros x Hx. unfold with_stack, with_zeros. repeat case_decide; eauto || lia.
  - intros a x Hx. unfold with_bytes, with_stack, with_zeros. rewrite length_app, Nat2Z.inj_add. repeat case_decide; try lia; try done.
    all: unfold set_byte; cbn; do 3 f_equal.
    + by rewrite lookup_total_app_l by lia.
    + rewrite lookup_total_app_r by lia. f_equal. lia.
Qed.

Lemma push_strings_spec m strs : forall b d av s T M, LD av stack_own (with_stack (cstrings d ++ b) m) s T M ->
  Forall (Forall is_byte) strs -> arg_bytes strs + Z.of_nat (length (cstrings d ++ b)) <= 4096 * 2048 ->
  let b' := cstrings (reverse strs ++ d) ++ b in
  loads av stack_own (fun _ => with_stack b' m)
    (fun r => r = (stack_top - Z.of_nat (length b'), addresses (stack_top - Z.of_nat (length b')) (reverse strs ++ d))) (fun _ => False) False
    (push_strings root (stack_top - Z.of_nat (length (cstrings d ++ b))) strs (addresses (stack_top - Z.of_nat (length (cstrings d ++ b))) d) s).
Proof.
  induction strs as [|x strs IH]; intros b d av s T M HL Hb Hsz; cbn [push_strings]; [by apply (loads_ret _ _ _ _ _ _ _ s T M)|].
  apply Forall_cons in Hb as [Hx Hb]. change (arg_bytes (x :: strs)) with (Z.of_nat (length x) + 1 + arg_bytes strs) in Hsz.
  pose proof (arg_bytes_nonneg strs). set (b1 := cstrings d ++ b) in *.
  assert (E1 : cstrings (x :: d) ++ b = (x ++ [0]) ++ b1) by (unfold b1, cstrings; cbn [fmap list_fmap concat]; by rewrite !app_assoc).
  assert (El : Z.of_nat (length ((x ++ [0]) ++ b1)) = Z.of_nat (length x) + 1 + Z.of_nat (length b1)) by (rewrite !length_app; cbn [length]; lia).
  replace (u64 (stack_top - Z.of_nat (length b1) - (Z.of_nat (length x) + 1))) with (stack_top - Z.of_nat (length ((x ++ [0]) ++ b1)))
    by (rewrite u64_id; unfold stack_top; lia).
  eapply loads_bind; [apply (push_spec av m b1 (x ++ [0]) s T M HL)|done|done|].
  - apply Forall_app. split; [done|]. by repeat constructor.
  - rewrite length_app. cbn [length]. lia.
  - intros ok s1 T1 M1 _ -> HL1. rewrite <- E1 in HL1.
    pose proof (IH b (x :: d) av s1 T1 M1 HL1 Hb ltac:(rewrite E1; lia)) as HIH. cbv zeta in HIH. rewrite reverse_cons, <- app_assoc. cbn [app].
    rewrite E1 in HIH. cbn [addresses] in HIH. rewrite El in HIH |- *.
    replace (stack_top - (Z.of_nat (length x) + 1 + Z.of_nat (length b1)) + (Z.of_nat (length x) + 1)) with (stack_top - Z.of_nat (length b1)) in HIH by lia.
    exact HIH.
Qed.

Lemma push_words_spec m ws : forall b av s T M, LD av stack_own (with_stack b m) s T M ->
  8 * Z.of_nat (length ws) + Z.of_nat (length b) <= 4096 * 2048 ->
  let b' := words (reverse ws) ++ b in
  loads av stack_own (fun _ => with_stack b' m) (fun sp => sp = stack_top - Z.of_nat (length b')) (fun _ => False) False
    (push_words root (stack_top - Z.of_nat (length b)) ws s).
Proof.
  induction ws as [|w ws IH]; intros b av s T M HL Hsz; cbn [push_words]; [by apply (loads_ret _ _ _ _ _ _ _ s T M)|]. cbn [length] in Hsz.
  replace (u64 (stack_top - Z.of_nat (length b) - 8)) with (stack_top - Z.of_nat (length (word_bytes w ++ b)))
    by (rewrite u64_id, length_app, word_bytes_length; unfold stack_top; lia).
  eapply loads_bind; [apply (push_spec av m b (word_bytes w) s T M HL (word_bytes_bytes w)); rewrite word_bytes_length; lia|done|done|].
  intros ok s1 T1 M1 _ _ HL1. assert (E : words (reverse (w :: ws)) ++ b = words (reverse ws) ++ word_bytes w ++ b).
  { rewrite reverse_cons, vector_words_app, <- app_assoc. unfold words at 2. cbn [fmap list_fmap concat]. by rewrite app_nil_r. }
  rewrite E. apply (IH (word_bytes w ++ b) av s1 T1 M1 HL1). rewrite length_app, word_bytes_length. lia.
Qed.

Lemma build_stack_spec av m args envs s T M : LD av stack_own (with_stack [] m) s T M ->
  Forall (Forall is_byte) args -> Forall (Forall is_byte) envs -> arg_bytes args + arg_bytes envs <= MAX_ARG_DATA_SIZE ->
  (length args <= 127)%nat -> (length envs <= 127)%nat ->
  loads av stack_own (fun _ => with_stack (initial_stack args envs) m) (fun sp => sp = initial_sp args envs) (fun _ => False) False (build_stack root args envs s).
Proof.
  intros HL Ha He Hsz Hna Hne. unfold MAX_ARG_DATA_SIZE in Hsz. pose proof (arg_bytes_nonneg args). pose proof (arg_bytes_nonneg envs).
  unfold build_stack, initial_sp, initial_stack, vectors, string_base.
  eapply loads_bind; [apply (push_strings_spec m (reverse envs) [] [] av s T M HL)|done|done|].
  { by apply Forall_reverse. }
  { rewrite arg_bytes_reverse. cbn. lia. }
  rewrite reverse_involutive, !app_nil_r. intros [sp1 ep] s1 T1 M1 _ [= -> ->] HL1.
  eapply loads_bind; [apply (push_strings_spec m (reverse args) (cstrings envs) [] av s1 T1 M1 HL1)|done|done|].
  { by apply Forall_reverse. }
  { rewrite arg_bytes_reverse. cbn. rewrite cstrings_length. lia. }
  rewrite reverse_involutive, !app_nil_r. intros [sp2 ap] s2 T2 M2 _ [= -> ->] HL2.
  set (area := cstrings args ++ cstrings envs) in *. set (base := stack_top - Z.of_nat (length area)).
  assert (HS : Z.of_nat (length area) <= 262144) by (unfold area; rewrite length_app, Nat2Z.inj_add, !cstrings_length; lia).
  set (pad := replicate (Z.to_nat (base mod 16)) 0). pose proof (Z.mod_pos_bound base 16 ltac:(done)) as Hpad.
  assert (Epad : Z.of_nat (length pad) = base mod 16) by (unfold pad; rewrite length_replicate; lia).
  assert (HLp : LD av stack_own (with_stack (pad ++ area) m) s2 T2 M2).
  { apply (LD_ext _ _ _ _ _ _ _ _ _ HL2); [done| |done]. intros va Hv. apply with_stack_pad; [apply replicate_zeros|]. rewrite length_app. lia. }
  assert (Eal : Z.land base (not64 0xF) = stack_top - Z.of_nat (length (pad ++ area))).
  { rewrite align16 by (unfold base, stack_top; lia). rewrite length_app. unfold base in *. lia. }
  rewrite Eal. assert (Hps : Z.of_nat (length (pad ++ area)) <= 300000) by (rewrite length_app; lia). clearbody pad. clear Eal HL HL1 HL2.
  set (ap := addresses base args). set (ep := addresses (stack_top - Z.of_nat (length (cstrings envs))) envs).
  assert (Hap : length ap = length args) by apply addresses_length. assert (Hep : length ep = length envs) by apply addresses_length.
  eapply loads_bind; [apply (push_words_spec m [0] _ av s2 T2 M2 HLp); cbn [length]; lia|done|done|]. intros sp3 s3 T3 M3 _ -> HL3.
  eapply loads_bind; [apply (push_words_spec m (0 :: reverse ep) _ av s3 T3 M3 HL3)|done|done|]; [|intros sp4 s4 T4 M4 _ -> HL4].
  { rewrite length_app, Nat2Z.inj_add, vector_words_length. cbn [length]. rewrite !length_reverse. cbn [length]. lia. }
  eapply loads_bind; [apply (push_words_spec m (0 :: reverse ap) _ av s4 T4 M4 HL4)|done|done|]; [|intros sp5 s5 T5 M5 _ -> HL5].
  { rewrite !length_app, !Nat2Z.inj_add, !vector_words_length. cbn [length]. rewrite !length_reverse. cbn [length]. rewrite !length_reverse. lia. }
  eapply loads_weaken; [apply (push_words_spec m [Z.of_nat (length args)] _ av s5 T5 M5 HL5)| |done| |done|done].
  { rewrite !length_app, !Nat2Z.inj_add, !vector_words_length. cbn [length]. rewrite !length_reverse. cbn [length]. rewrite !length_reverse. cbn [length]. lia. }
  all: rewrite !reverse_cons, !reverse_involutive, !reverse_nil, !app_nil_l.
  all: assert (Eep : addresses (base + Z.of_nat (length (cstrings args))) envs = ep)
    by (unfold ep, base, area; f_equal; rewrite length_app; lia); rewrite Eep; rewrite (vector_words (Z.of_nat (length args)) ap ep); (done || by intros ? ->).
Qed.

(** ** The whole loader *)

Lemma read_header_cases : match read_header img with
  | Ok hdr => 0 <= sizeofcmds hdr <= 65536 /\ 0 <= ncmds hdr <= 256
  | Fail e => e = ENOEXEC
  | Wild => Z.of_nat (length img) < 24
  | Endless => False
  end.
Proof.
  unfold read_header. pose proof (field_cases 0 4 ltac:(done)) as K. destruct (field img 0 4) as [v0|e| |]; cbn [mbind outcome_bind]; try done; [|lia].
  destruct (negb _); [done|]. pose proof (field_cases 4 4 ltac:(done)) as K1. destruct (field img 4 4) as [v1|e| |]; cbn [mbind outcome_bind]; try done; [|lia].
  destruct (negb _); [done|]. pose proof (field_cases 12 4 ltac:(done)) as K2. destruct (field img 12 4) as [v2|e| |]; cbn [mbind outcome_bind]; try done; [|lia].
  destruct (negb _); [done|]. pose proof (field_cases 16 4 ltac:(done)) as K3. destruct (field img 16 4) as [n|e| |]; cbn [mbind outcome_bind]; try done; [|lia].
  pose proof (field_cases 20 4 ltac:(done)) as K4. destruct (field img 20 4) as [z|e| |]; cbn [mbind outcome_bind]; try done; [|lia].
  destruct (Z.ltb_spec 256 n); [done|]. destruct (Z.ltb_spec 65536 z); [done|]. cbn. lia.
Qed.

Lemma mach_load_args_loads av m s T M arg0 argv envp : LD av (fun _ => False) m s T M ->
  let args := kargv arg0 argv in
  let envs := kenvp envp in
  Forall (Forall is_byte) args -> Forall (Forall is_byte) envs ->
  loads (av - 4 * (pages (image_commands img) + 2048)) stack_own (fun _ => exec_view img args envs m)
    (fun r => executable img /\ r = (program_entry img, initial_sp args envs))
    (fun e => no_memory av (4 * (pages (image_commands img) + 2048)) e \/ e = ENOEXEC /\ ~ executable img \/
              e = E2BIG /\ MAX_ARG_DATA_SIZE < arg_bytes args + arg_bytes envs)
    (~ image_in_bounds img) (mach_load_args (Some img) (Some root) (Some tt) (Some tt) arg0 argv envp s).
Proof.
  intros HL args envs Ha He. unfold mach_load_args. fold args envs.
  destruct (pi_table _ _ _ _ (proj1 (ld_spaces _ _ _ _ _ _ HL)) _ _ _ (lookup_weaken _ _ _ _ Hroot (ld_sub _ _ _ _ _ _ HL))) as (_ & Hr0 & _).
  rewrite (proj2 (Z.eqb_neq root 0)) by lia. unfold exec_view, executable, program_entry, image_in_bounds, image_commands, command_table.
  pose proof read_header_cases as Hh. unfold lift at 1. unfold mbind at 1, M_bind at 1. destruct (read_header img) as [hdr|e| |]; try done.
  2:{ split; [right; left; split; [done|tauto]|by eapply LD_stopped]. }
  2:{ split; [tauto|by eapply LD_stopped]. }
  pose proof (load_commands_spec (fun _ => False) (Z.to_nat (ncmds hdr)) 32 (32 + sizeofcmds hdr) 0 0 av m s T M HL ltac:(lia)) as Hlc.
  set (t := read_commands _ img 32 _) in *. cbv zeta in Hlc. pose proof (pages_nonneg t.1) as Hpn.
  eapply loads_bind; [exact Hlc| | |].
  { intros e [[-> ?]|[-> Hn]]; [left; split; [done|lia]|right; left]. split; [done|]. intros (_ & Hok & Hin & _).
    destruct Hn as [Hn|(seg & Hs & Hm & Ho)]; [congruence|]. specialize (Hin seg Hs Hm). congruence. }
  { intros [Hb|(seg & Hin & Hm & Ho)] [Hi1 Hi2]; [lia|]. specialize (Hi2 seg Hin Hm). unfold outside in Ho. lia. }
  intros [text entry] s1 T1 M1 _ [Hnl Ete] HL1. rewrite <- Ete. set (m1 := foldl _ m t.1) in *. cbn [fst snd].
  destruct (Z.ltb_spec (entry_address text entry) 0x1000);
    [eapply loads_fail; [done|]; right; left; split; [done|]; unfold USER_TOP in *; lia|].
  destruct (Z.leb_spec USER_TOP (entry_address text entry));
    [eapply loads_fail; [done|]; right; left; split; [done|]; unfold USER_TOP in *; lia|]. cbn [orb].
  eapply loads_bind; [apply (map_stack_spec m1 2048 0 (av - 4 * pages t.1) s1 T1 M1); [lia..|]|intros e [-> ?]; left; split; [done|lia]|done|].
  { apply (LD_ext _ _ _ _ _ _ _ _ _ HL1); [unfold stack_page; lia| |done]. intros va Hv. unfold with_zeros. by rewrite decide_False by lia. }
  intros [] s2 T2 M2 _ _ HL2. change (0 + Z.of_nat 2048) with 2048 in HL2.
  destruct (Z.ltb_spec MAX_ARG_DATA_SIZE (arg_bytes args + arg_bytes envs)); [eapply loads_fail; [done|]; by right; right|].
  eapply loads_bind; [apply (build_stack_spec _ m1 _ _ s2 T2 M2); [|done|done|done| |]|done|done|].
  - apply (LD_ext _ _ _ _ _ _ _ _ _ HL2); [done| |done]. intros va Hv. unfold with_stack. cbn [length]. by rewrite decide_False by lia.
  - apply kargv_length.
  - apply kenvp_length.
  - intros sp s3 T3 M3 _ -> HL3. split; [|exists T3, M3; by apply (LD_ext _ _ _ _ _ _ _ _ _ HL3); [..|lia]]. split; [|done].
    split; [done|]. unfold USER_TOP in *. split; [|split; [|lia]].
    + destruct t.2 eqn:E2; [done|]. exfalso. apply Hnl. by left.
    + intros seg Hs Hm. destruct (out_of_user_bounds seg) eqn:Eo; [|done]. exfalso. apply Hnl. right. by exists seg.
Qed.
End Load.
End LoaderSpec.
