(* ===== verification/LoaderCorrect.v ===== *)
(** * The Mach-O loader: theorems

    The loader against [LoaderSpec.exec_view], the arguments a program finds
    on its stack, and the protection its pages really have. *)

From S2P Require Import Prelude Pmm Pmap PmapInv PmapMap PmapSpec PmapFork PmapClone PmapCorrect Copy CopySpec Loader LoaderSpec.
Import Pmap PmapInv PmapMap PmapSpec PmapFork PmapClone PmapCorrect Copy CopySpec Loader LoaderSpec.

Module LoaderCorrect.

Section Claims.
Context {F : Type} `{PageFrames F}.
Notation state := (pmap F).
Implicit Types (s : state) (T : tables).

(** An address space a program can be loaded into. *)
Record loadable (s : state) (T : tables) (M : gmap Z Z) (owed : Z -> Z) (root : Z) : Prop := {
  lo_spaces : Spaces s T M owed;
  lo_root : exists p, T !! root = Some (4%nat, p);
  lo_nonzero : forall va e, 0 <= va < 2 ^ 47 -> pte s root va = Some e -> get_table_ptr e ≠ 0
}.

(** Nothing but the user half of [root] has changed. *)
Record only_user (s : state) (T : tables) (root : Z) (s' : state) : Prop := {
  ou_kernel : forall root' p' j, T !! root' = Some (4%nat, p') -> 256 <= j < 512 ->
    word s' (root' + 8 * j) = word s (root' + 8 * j);
  ou_other : forall root' p' va, T !! root' = Some (4%nat, p') -> root' ≠ root -> 0 <= va < 2 ^ 47 ->
    uview s' root' va = uview s root' va
}.

Lemma loadable_LD s T M owed root : loadable s T M owed root ->
  LD s T owed root (pf_avail (frames s)) (fun _ => False) (uview s root) s T M.
Proof. intros [HS _ Hz]. by constructor. Qed.

Lemma LD_only_user s T owed root av own m s' T' M' : LD s T owed root av own m s' T' M' -> only_user s T root s'.
Proof. intros HL. constructor; [apply (ld_kernel _ _ _ _ _ _ _ _ _ _ HL)|apply (ld_other _ _ _ _ _ _ _ _ _ _ HL)]. Qed.

Definition is_string (x : list Z) : Prop := Forall is_byte x.

(** C4: The loader implements [exec_view].  It always returns.  Whatever it
    returns, the page tables stay consistent, every other address space and
    the kernel half of all of them are as before.  On success the image is
    one that can be executed, the entry point is the one it gives, and at
    every user address there is exactly what the image and the arguments put
    there: the byte of the last segment that covers the address, zero where
    the file gives none, the stack over them, with the protection of the
    page.  It fails only for an image that is not executable, arguments that
    are too long, or when there are fewer than four free frames per page; it
    reads outside the image only if offsets in the image point there. *)
Theorem mach_load_args_refines s T M owed root img arg0 argv envp :
  let args := kargv arg0 argv in
  let envs := kenvp envp in
  loadable s T M owed root -> Forall is_byte img -> Z.of_nat (length img) < 2 ^ 63 -> Forall is_string args -> Forall is_string envs ->
  exists s' r, mach_load_args (Some img) (Some root) (Some tt) (Some tt) arg0 argv envp s = (s', r) /\
    (exists T' M', Spaces s' T' M' owed /\ T ⊆ T') /\ only_user s T root s' /\
    match r with
    | Ok (entry, sp) => executable img /\ entry = program_entry img /\ sp = initial_sp args envs /\
        forall va, 0 <= va < 2 ^ 47 -> uview s' root va = exec_view img args envs (uview s root) va
    | Fail e => e = ENOEXEC /\ ~ executable img \/ e = E2BIG /\ MAX_ARG_DATA_SIZE < arg_bytes args + arg_bytes envs \/
        e = ENOMEM /\ pf_avail (frames s) < 4 * (pages (image_commands img) + 2048)
    | Wild => ~ image_in_bounds img
    | Endless => False
    end.
Proof.
  intros args envs HL Hi Hl Ha He. destruct (lo_root _ _ _ _ _ HL) as [p Hr].
  pose proof (mach_load_args_loads s T owed root p Hr img Hi Hl _ _ s T M arg0 argv envp (loadable_LD _ _ _ _ _ HL) Ha He) as Hres.
  destruct (mach_load_args _ _ _ _ _ _ _ s) as [s' r]. exists s', r. split; [done|].
  assert (Hst : forall av own m T' M', LD s T owed root av own m s' T' M' -> (exists T' M', Spaces s' T' M' owed /\ T ⊆ T') /\ only_user s T root s').
  { intros av own m T' M' HL'. split; [|by eapply LD_only_user]. exists T', M'. split; [apply HL'|apply HL']. }
  destruct r as [[entry sp]|e| |]; cbn in Hres.
  - destruct Hres as ((Hx & Hr') & T' & M' & HL'). destruct (Hst _ _ _ _ _ HL') as [H1 H2]. do 2 (split; [done|]). split; [done|].
    injection Hr' as -> ->. do 2 (split; [done|]). intros va Hv. by apply (ld_view _ _ _ _ _ _ _ _ _ _ HL').
  - destruct Hres as (HE & T' & M' & av & m & HL'). destruct (Hst _ _ _ _ _ HL') as [H1 H2]. do 2 (split; [done|]).
    destruct HE as [[-> ?]|[?|?]]; [by right; right|by left|by right; left].
  - destruct Hres as (HW & T' & M' & av & m & HL'). by destruct (Hst _ _ _ _ _ HL').
  - done.
Qed.

(** ** The stack of the program *)

Lemma reads_sub s root a l1 l2 l3 : reads s root a (l1 ++ l2 ++ l3) -> reads s root (a + Z.of_nat (length l1)) l2.
Proof.
  intros Hr i Hi. rewrite <- Z.add_assoc, Hr by (rewrite !length_app; lia).
  rewrite lookup_app_r by lia. replace (Z.to_nat (Z.of_nat (length l1) + i) - length l1)%nat with (Z.to_nat i) by lia. apply lookup_app_l. lia.
Qed.

Lemma words_lookup l i w : l !! i = Some w -> exists l1 l2, words l = l1 ++ word_bytes w ++ l2 /\ Z.of_nat (length l1) = 8 * Z.of_nat i.
Proof.
  intros Hi. exists (words (take i l)), (words (drop (S i) l)). split.
  - rewrite <- (take_drop_middle l i w Hi) at 1. rewrite vector_words_app. done.
  - rewrite vector_words_length, length_take. apply lookup_lt_Some in Hi. lia.
Qed.

Lemma cstrings_lookup l a i x : l !! i = Some x ->
  exists l1 l2, cstrings l = l1 ++ (x ++ [0]) ++ l2 /\ addresses a l !! i = Some (a + Z.of_nat (length l1)).
Proof.
  revert a i. induction l as [|y l IH]; intros a [|i]; cbn [lookup list_lookup]; try done.
  - intros [= ->]. exists [], (cstrings l). split; [done|]. cbn. f_equal. lia.
  - intros Hi. destruct (IH (a + (Z.of_nat (length y) + 1)) i Hi) as (l1 & l2 & E1 & E2). exists ((y ++ [0]) ++ l1), l2.
    split; [unfold cstrings in *; cbn [fmap list_fmap concat]; rewrite E1; by rewrite <- !app_assoc|].
    etrans; [exact E2|]. f_equal. rewrite !length_app. cbn [length]. lia.
Qed.

Lemma ubyte_uview s root va : ubyte s root va = (fun c : cell => c.1.1) <$> uview s root va.
Proof. unfold ubyte, uview. by destruct (pte s root va). Qed.

(** What a program finds at [sp] on: the words of a vector whose entries are
    the addresses of the strings. *)
Definition vector_at (s : state) (root a : Z) (strs : list (list Z)) : Prop :=
  (forall i x, strs !! i = Some x -> exists b, 0 <= b < 2 ^ 47 /\
     reads s root (a + 8 * Z.of_nat i) (word_bytes b) /\ reads s root b (x ++ [0])) /\
  reads s root (a + 8 * Z.of_nat (length strs)) (word_bytes 0).

Lemma stack_size args envs : Z.of_nat (length (initial_stack args envs)) =
  8 * (Z.of_nat (length args) + Z.of_nat (length envs) + 4) + string_base args envs mod 16 + (arg_bytes args + arg_bytes envs).
Proof.
  unfold initial_stack. pose proof (Z.mod_pos_bound (string_base args envs) 16 ltac:(done)).
  rewrite !length_app, !Nat2Z.inj_add, vector_words_length, !cstrings_length, length_replicate. unfold vectors. cbn [length].
  rewrite !length_app. cbn [length]. rewrite length_app, !addresses_length. cbn [length]. lia.
Qed.

Lemma string_base_eq args envs : string_base args envs = stack_top - (arg_bytes args + arg_bytes envs).
Proof. unfold string_base. by rewrite length_app, Nat2Z.inj_add, !cstrings_length. Qed.

(** The strings of a part [strs] of the string area. *)
Lemma vector_reads s root sp V area pre strs post k l1 l2 b0 :
  reads s root sp (words V ++ area) -> area = pre ++ cstrings strs ++ post -> V = l1 ++ addresses b0 strs ++ 0 :: l2 -> k = Z.of_nat (length l1) ->
  b0 = sp + Z.of_nat (length (words V)) + Z.of_nat (length pre) -> 0 <= b0 -> b0 + Z.of_nat (length (cstrings strs)) <= 2 ^ 47 ->
  vector_at s root (sp + 8 * k) strs.
Proof.
  intros Hr -> HV Hk Hb0 Hlo Hhi.
  assert (HwV : forall i w, V !! i = Some w -> reads s root (sp + 8 * Z.of_nat i) (word_bytes w)).
  { intros i w Hi. destruct (words_lookup V i w Hi) as (w1 & w2 & Ew & El). rewrite Ew, <- !app_assoc in Hr.
    apply reads_sub in Hr. by rewrite El in Hr. }
  assert (Hidx : forall i w, (addresses b0 strs ++ [0]) !! i = Some w -> V !! (length l1 + i)%nat = Some w).
  { intros i w Hi. rewrite HV, lookup_app_r by lia. replace (length l1 + i - length l1)%nat with i by lia.
    change (0 :: l2) with ([0] ++ l2). rewrite app_assoc. by apply lookup_app_l_Some. }
  subst k. split.
  - intros i x Hi. destruct (cstrings_lookup strs b0 i x Hi) as (c1 & c2 & Ec & Ea). exists (b0 + Z.of_nat (length c1)).
    rewrite Ec, !length_app in Hhi. cbn [length] in Hhi. split; [lia|]. split.
    + rewrite <- Z.add_assoc, <- Z.mul_add_distr_l, <- Nat2Z.inj_add. apply HwV, Hidx. by apply lookup_app_l_Some.
    + rewrite Ec in Hr. replace (words V ++ pre ++ (c1 ++ (x ++ [0]) ++ c2) ++ post) with ((words V ++ pre ++ c1) ++ (x ++ [0]) ++ c2 ++ post) in Hr
        by (by rewrite <- !app_assoc).
      apply reads_sub in Hr. rewrite !length_app, !Nat2Z.inj_add in Hr. by rewrite Hb0, <- !Z.add_assoc.
  - rewrite <- Z.add_assoc, <- Z.mul_add_distr_l, <- Nat2Z.inj_add. apply HwV, Hidx.
    rewrite lookup_app_r by (rewrite addresses_length; lia). by rewrite addresses_length, Nat.sub_diag.
Qed.

Lemma initial_stack_vectors s root args envs : arg_bytes args + arg_bytes envs <= MAX_ARG_DATA_SIZE ->
  (length args <= 127)%nat -> (length envs <= 127)%nat ->
  let sp := initial_sp args envs in
  reads s root sp (initial_stack args envs) ->
  reads s root sp (word_bytes (Z.of_nat (length args))) /\ vector_at s root (sp + 8) args /\
  vector_at s root (sp + 8 * (2 + Z.of_nat (length args))) envs.
Proof.
  intros Hsz Hna Hne sp Hr. pose proof (stack_size args envs) as Hss. pose proof (string_base_eq args envs) as Hsb.
  pose proof (Z.mod_pos_bound (string_base args envs) 16 ltac:(done)). pose proof (arg_bytes_nonneg args). pose proof (arg_bytes_nonneg envs).
  unfold MAX_ARG_DATA_SIZE in Hsz. set (pad := replicate (Z.to_nat (string_base args envs mod 16)) 0) in *.
  assert (Hpad : Z.of_nat (length pad) = string_base args envs mod 16) by (unfold pad; rewrite length_replicate; lia).
  assert (HV : Z.of_nat (length (words (vectors args envs))) = 8 * (Z.of_nat (length args) + Z.of_nat (length envs) + 4)).
  { rewrite vector_words_length. unfold vectors. cbn [length]. rewrite !length_app. cbn [length]. rewrite length_app, !addresses_length. cbn [length]. lia. }
  assert (Hb : string_base args envs = sp + Z.of_nat (length (words (vectors args envs))) + Z.of_nat (length pad)).
  { unfold sp, initial_sp. rewrite Hss, HV, Hpad, Hsb. lia. }
  unfold initial_stack in Hr. fold pad in Hr. split; [|split].
  - destruct (words_lookup (vectors args envs) 0 (Z.of_nat (length args)) eq_refl) as (w1 & w2 & Ew & El).
    rewrite Ew, <- !app_assoc in Hr. apply reads_sub in Hr. rewrite El in Hr. by rewrite Z.mul_0_r, Z.add_0_r in Hr.
  - apply (vector_reads s root sp (vectors args envs) _ pad args (cstrings envs) 1 [Z.of_nat (length args)]
      (addresses (string_base args envs + Z.of_nat (length (cstrings args))) envs ++ [0; 0]) (string_base args envs) Hr); try done.
    + unfold stack_top in *. lia.
    + rewrite cstrings_length. unfold stack_top in *. lia.
  - apply (vector_reads s root sp (vectors args envs) _ (pad ++ cstrings args) envs [] _
      (Z.of_nat (length args) :: addresses (string_base args envs) args ++ [0]) [0] (string_base args envs + Z.of_nat (length (cstrings args))) Hr).
    + by rewrite app_nil_r, <- app_assoc.
    + unfold vectors. cbn. f_equal. by rewrite <- app_assoc.
    + cbn [length]. rewrite length_app, addresses_length. cbn [length]. lia.
    + rewrite length_app. lia.
    + unfold stack_top in *. lia.
    + rewrite !cstrings_length. unfold stack_top in *. lia.
Qed.

(** What the loader needs to succeed. *)
Record can_load (s : state) (img : list Z) (args envs : list (list Z)) : Prop := {
  cl_bytes : Forall is_byte img /\ Z.of_nat (length img) < 2 ^ 63;
  cl_image : executable img /\ image_in_bounds img;
  cl_strings : Forall is_string args /\ Forall is_string envs;
  cl_size : arg_bytes args + arg_bytes envs <= MAX_ARG_DATA_SIZE;
  cl_memory : 4 * (pages (image_commands img) + 2048) <= pf_avail (frames s)
}.

Lemma load_succeeds s T M owed root img arg0 argv envp :
  let args := kargv arg0 argv in
  let envs := kenvp envp in
  loadable s T M owed root -> can_load s img args envs ->
  exists s', mach_load_args (Some img) (Some root) (Some tt) (Some tt) arg0 argv envp s = (s', Ok (program_entry img, initial_sp args envs)) /\
    forall va, 0 <= va < 2 ^ 47 -> uview s' root va = exec_view img args envs (uview s root) va.
Proof.
  intros args envs HL [[Hi Hl] [Hx Hb] [Ha He] Hsz Hm]. destruct (lo_root _ _ _ _ _ HL) as [p Hr].
  pose proof (mach_load_args_loads s T owed root p Hr img Hi Hl _ _ s T M arg0 argv envp (loadable_LD _ _ _ _ _ HL) Ha He) as Hres.
  fold args envs in Hres. unfold loads in Hres. destruct (mach_load_args _ _ _ _ _ _ _ s) as [s' r]. exists s'. destruct r as [r|e| |]; cbn beta iota in Hres; [| |tauto..].
  - destruct Hres as ((_ & ->) & T' & M' & HL'). split; [done|]. intros va Hv. by apply (ld_view _ _ _ _ _ _ _ _ _ _ HL').
  - destruct Hres as ([[_ ?]|[[_ ?]|[_ ?]]] & _); [lia|tauto|lia].
Qed.

Lemma exec_reads s root img args envs m : arg_bytes args + arg_bytes envs <= MAX_ARG_DATA_SIZE ->
  (length args <= 127)%nat -> (length envs <= 127)%nat ->
  (forall va, 0 <= va < 2 ^ 47 -> uview s root va = exec_view img args envs m va) ->
  reads s root (initial_sp args envs) (initial_stack args envs).
Proof.
  intros Hsz Hna Hne Hv i Hi. pose proof (stack_size args envs) as Hss. pose proof (Z.mod_pos_bound (string_base args envs) 16 ltac:(done)).
  unfold MAX_ARG_DATA_SIZE, initial_sp, stack_top in *. rewrite ubyte_uview, Hv by lia. unfold exec_view, with_stack, stack_top.
  rewrite decide_True, list_lookup_lookup_total_lt by lia. cbn [fmap option_fmap option_map fst snd]. do 2 f_equal. lia.
Qed.

Lemma initial_sp_mod args envs : initial_sp args envs mod 16 = 8 * ((Z.of_nat (length args) + Z.of_nat (length envs)) mod 2).
Proof.
  unfold initial_sp. rewrite stack_size. pose proof (string_base_eq args envs) as Hb. set (n := Z.of_nat (length args) + Z.of_nat (length envs)).
  pose proof (Z.div_mod (string_base args envs) 16 ltac:(done)). pose proof (Z.div_mod n 2 ltac:(done)). pose proof (Z.mod_pos_bound n 2 ltac:(done)).
  symmetry. apply (Z.mod_unique _ _ (string_base args envs / 16 - n / 2 - n mod 2 - 2)); [left; lia|lia].
Qed.

(** C12: A program finds its arguments.  For an executable image and with
    enough memory the loader succeeds.  At the stack pointer it returns the
    program then reads [argc], a vector of [argc] pointers ended by a null
    pointer, each to one of the arguments in their order with its terminator,
    and behind it the vector of the environment in the same form.  The stack
    pointer is a multiple of 16 exactly when the number of arguments and
    environment strings is even. *)
Theorem program_finds_arguments s T M owed root img arg0 argv envp :
  let args := kargv arg0 argv in
  let envs := kenvp envp in
  loadable s T M owed root -> can_load s img args envs ->
  exists s' sp, mach_load_args (Some img) (Some root) (Some tt) (Some tt) arg0 argv envp s = (s', Ok (program_entry img, sp)) /\
    reads s' root sp (word_bytes (Z.of_nat (length args))) /\ vector_at s' root (sp + 8) args /\
    vector_at s' root (sp + 8 * (2 + Z.of_nat (length args))) envs /\
    sp mod 16 = 8 * ((Z.of_nat (length args) + Z.of_nat (length envs)) mod 2).
Proof.
  intros args envs HL HC. destruct (load_succeeds s T M owed root img arg0 argv envp HL HC) as (s' & E & Hv). fold args envs in E, Hv.
  exists s', (initial_sp args envs). split; [done|].
  pose proof (exec_reads s' root img args envs _ (cl_size _ _ _ _ HC) (kargv_length _ _) (kenvp_length _) Hv) as Hr.
  destruct (initial_stack_vectors s' root args envs (cl_size _ _ _ _ HC) (kargv_length _ _) (kenvp_length _) Hr) as (H1 & H2 & H3).
  do 3 (split; [done|]). apply initial_sp_mod.
Qed.

(** ** Protection *)

Lemma page_flags_nx seg : has (page_flags seg) PAGE_NX = false.
Proof. unfold page_flags. by destruct (has (initprot seg) VM_PROT_WRITE), (has (initprot seg) VM_PROT_EXECUTE). Qed.

Definition covers (seg : segment_command_64) (va : Z) : Prop := mapped_segment seg = true /\ start_vaddr seg <= va < end_vaddr seg.

Lemma segments_nx img cmds va : forall m, (exists b w, m va = Some (b, w, false)) \/ (exists seg, Segment seg ∈ cmds /\ covers seg va) ->
  exists b w, foldl (with_command img) m cmds va = Some (b, w, false).
Proof.
  induction cmds as [|c cmds IH]; intros m Hm; cbn [foldl]; [destruct Hm as [?|(seg & Hin & _)]; [done|by apply elem_of_nil in Hin]|]. apply IH.
  assert (Hc : (exists seg, c = Segment seg /\ covers seg va) \/ (exists b w, m va = Some (b, w, false)) \/ (exists seg, Segment seg ∈ cmds /\ covers seg va)).
  { destruct Hm as [?|(seg & [<-|Hin]%elem_of_cons & Hc)]; [by right; left|by left; exists seg|right; right; by exists seg]. }
  destruct Hc as [(seg & -> & Hs & Hr)|[(b & w & Eb)|Hc]]; [left|left|by right].
  - cbn. unfold with_segment. rewrite Hs, decide_True, page_flags_nx by done. by do 2 eexists.
  - destruct c as [seg| | |]; cbn [with_command]; eauto. unfold with_segment. destruct (mapped_segment seg); [|eauto].
    case_decide; [|eauto]. rewrite page_flags_nx. by do 2 eexists.
Qed.

(** No segment is ever protected against execution.  [page_flags] has 32
    bits and so never holds [PAGE_NX], bit 63: whatever protection a segment
    asks for, its pages can be executed after a successful load, data as
    well as code. *)
Theorem segments_always_executable s T M owed root img arg0 argv envp seg va :
  loadable s T M owed root -> can_load s img (kargv arg0 argv) (kenvp envp) ->
  Segment seg ∈ image_commands img -> covers seg va -> 0 <= va < stack_top - 4096 * 2048 ->
  exists s' r e, mach_load_args (Some img) (Some root) (Some tt) (Some tt) arg0 argv envp s = (s', Ok r) /\
    pte s' root va = Some e /\ has e PAGE_NX = false.
Proof.
  intros HL HC Hin Hcov Hva. destruct (load_succeeds s T M owed root img arg0 argv envp HL HC) as (s' & E & Hv).
  assert (Hv2 : 0 <= va < 2 ^ 47) by (unfold stack_top in *; lia). specialize (Hv va Hv2).
  destruct (segments_nx img (image_commands img) va (uview s root)) as (b & w & Eb); [right; by exists seg|].
  pose proof (stack_size (kargv arg0 argv) (kenvp envp)) as Hss. pose proof (cl_size _ _ _ _ HC). unfold MAX_ARG_DATA_SIZE in *.
  pose proof (kargv_length arg0 argv). pose proof (kenvp_length envp). pose proof (Z.mod_pos_bound (string_base (kargv arg0 argv) (kenvp envp)) 16 ltac:(done)).
  unfold exec_view, with_stack, with_zeros in Hv. rewrite !decide_False, Eb in Hv by lia.
  unfold uview in Hv. apply bind_Some in Hv as (e & He & [= _ _ Hnx]). eexists s', _, e. done.
Qed.

(** ** Reads outside the image *)

(** The offsets of a segment are not checked against the size of the
    image.  When the file range of a page ends behind the image, and there is
    a frame for the page, the loader copies what lies behind the image into
    the new program. *)
Theorem load_page_reads_past_image s T M owed root img seg pv :
  loadable s T M owed root -> 4 <= pf_avail (frames s) -> 0x1000 <= pv < 2 ^ 47 -> copy_start seg pv < copy_end seg pv ->
  Z.of_nat (length img) < u64 (fileoff seg + (copy_start seg pv - vmaddr seg)) + (copy_end seg pv - copy_start seg pv) ->
  exists s', load_page img root seg pv s = (s', Wild).
Proof.
  intros HL Hav Hpv Hlt Hout. destruct (lo_root _ _ _ _ _ HL) as [p Hr].
  pose proof (loads_new_page s T owed root p Hr _ _ _ s T M pv (page_flags seg) False (loadable_LD _ _ _ _ _ HL) Hpv (page_flags_frame seg)) as Hn.
  cbv zeta in Hn. unfold load_page, mbind at 1, M_bind at 1. destruct (new_page root pv (page_flags seg) s) as [s1 [g|e| |]]; cbn [loads] in Hn; try done.
  - exists s1. rewrite (proj2 (Z.ltb_lt _ _)) by done. unfold lift, mbind, M_bind, bytes_at.
    match goal with |- context [?a <=? Z.of_nat (length img)] => rewrite (proj2 (Z.leb_gt a _)) by done end. by rewrite andb_false_r.
  - destruct Hn as [[_ Hn] _]. lia.
  - by destruct Hn.
Qed.

(** ** A machine with enough memory *)

Lemma install_avail s T M owed root p : PInv s T M owed -> T !! root = Some (4%nat, p) -> pte s root SIGNAL_TRAMP_VA = None ->
  4 <= pf_avail (frames s) ->
  let s' := pmap_trampoline_install root s in
  pf_avail (frames s) - 4 <= pf_avail (frames s') /\ is_tramp s' (s_tramp_phys s').
Proof.
  intros HI Hr Hn Hav. cbv zeta. unfold pmap_trampoline_install. destruct (trampoline_page s) as [s1 ok] eqn:E1.
  destruct (trampoline_page_spec _ _ _ _ _ _ HI E1) as (HI1 & Hm1 & P1 & W1 & A1 & Hok). destruct ok; cbn [negb]; [|lia].
  assert (Eg : get_table_ptr (s_tramp_phys s1) = s_tramp_phys s1).
  { destruct (pi_tramp _ _ _ _ HI1 _ Hok) as (_ & ? & ? & _). apply get_table_ptr_id; [done|lia]. }
  destruct (pmap_map_user_page_unlocked root SIGNAL_TRAMP_VA (s_tramp_phys s1) PAGE_USER s1) as [s2 r] eqn:E2.
  assert (Hn1 : pte s1 root SIGNAL_TRAMP_VA = None) by (by rewrite (P1 root p)).
  destruct (map_spec s1 T M owed root p SIGNAL_TRAMP_VA (s_tramp_phys s1) PAGE_USER s2 r HI1 Hr) as (T2 & F2 & Hcase); try done.
  { by rewrite Eg. }
  { by left. }
  cbn [fst]. split; [|unfold is_tramp in *; by rewrite (framed_tramp _ _ _ _ F2)].
  destruct Hcase as [(_ & _ & _ & A2)|(_ & _ & _ & A2 & _)]; [lia|]. specialize (A2 ltac:(by rewrite Hn1)). lia.
Qed.

(** A new address space can be loaded into. *)
Lemma created_loadable s0 s root : Spaces s0 ∅ ∅ (fun _ => 0) -> 5 <= pf_avail (frames s0) -> pmap_create s0 = (s, root) ->
  exists T M, loadable s T M (fun _ => 0) root /\ pf_avail (frames s0) - 5 <= pf_avail (frames s).
Proof.
  intros HS Hav Ec. destruct (create_spec _ _ _ _ _ _ HS Hav Ec) as (T & M & HS' & _ & _ & Hr & Hp & _). exists T, M.
  assert (Hx : pf_avail (frames s0) - 5 <= pf_avail (frames s) /\ is_tramp s (s_tramp_phys s)).
  { destruct HS as [HI _]. unfold pmap_create in Ec. destruct (alloc_page s0) as [s1 b] eqn:Ea.
    destruct (grown_alloc _ _ _ _ _ _ HI Ea) as (_ & Hav1 & Hno). destruct (no_page b) eqn:Eno; [specialize (Hno eq_refl); lia|].
    destruct (new_root _ _ _ _ _ _ (s_kernel_pml4_phys (set_page (get_table_ptr b) 0 s1)) HI Ea Eno) as (_ & _ & _ & HI2 & Ef2 & _ & _ & He2 & _).
    set (s2 := copy_kernel_half _ _ _) in *. clearbody s2. apply pair_eq in Ec as [<- <-].
    destruct (install_avail s2 _ ∅ _ b 0 HI2 (lookup_insert_eq _ b _) ltac:(by apply He2) ltac:(rewrite Ef2; lia)) as [Hi1 Hi2].
    rewrite Ef2 in Hi1. split; [lia|done]. }
  destruct Hx as [Hav' Htr]. split; [|done]. constructor; [done|by exists 0|].
  intros va e Hv He. rewrite Hp in He by done. destruct (pmap_is_trampoline_va va); [|done]. injection He as <-.
  destruct (pi_tramp _ _ _ _ (proj1 HS') _ Htr) as (_ & Ha & Hb & _). unfold tramp_entry. rewrite get_table_ptr_entry, get_table_ptr_id by (done || lia). lia.
Qed.
End Claims.

(** [n] frames, the first 16 of them reserved. *)
Definition wired (n : Z) : Pmm.pmm :=
  Pmm.wire_pages n {| Pmm.s_pages := ∅; Pmm.s_buddy_freelist := ∅; Pmm.s_max_phys_page := n; Pmm.s_total_ram_pages := n; Pmm.s_free_pages := 0 |}.
Definition machine (n : Z) : pmap Pmm.pmm :=
  boot_with (foldl (fun s p => Pmm.pmm_release_page (p * Pmm.CHIMERA_PAGE_SIZE) s) (wired n) (seqZ 16 (n - 16))).

Lemma release_wired l : forall s, Pmm.Wf s -> NoDup l -> (forall x, x ∈ l -> 0 < x < Pmm.s_max_phys_page s /\ Pmm.ref_count (Pmm.pg s x) = 1) ->
  let s' := foldl (fun s p => Pmm.pmm_release_page (p * Pmm.CHIMERA_PAGE_SIZE) s) s l in
  Pmm.Wf s' /\ Pmm.s_max_phys_page s' = Pmm.s_max_phys_page s /\ Pmm.s_free_pages s' = Pmm.s_free_pages s + Z.of_nat (length l) /\
  Pmm.ref_count (Pmm.pg s' 0) = Pmm.ref_count (Pmm.pg s 0).
Proof.
  induction l as [|x l IH]; intros s HW Hnd Hl; cbn [foldl length]; [split; [done|]; split; [done|]; split; [lia|done]|].
  apply NoDup_cons in Hnd as [Hx Hnd]. destruct (Hl x ltac:(by left)) as [Hr H1].
  destruct (Pmm.release_spec (x * Pmm.CHIMERA_PAGE_SIZE) s HW ltac:(unfold Pmm.CHIMERA_PAGE_SIZE; lia)) as (HW' & Em & Ef & Hrc).
  rewrite Z.div_mul in Ef, Hrc by done. unfold Pmm.freed_by in Ef. rewrite decide_True in Ef by lia. unfold Pmm.released in Hrc.
  destruct (IH _ HW' Hnd) as (IH1 & IH2 & IH3 & IH4).
  - intros y Hy. rewrite Em, Hrc, decide_False by (intros [-> _]; done). apply Hl. by right.
  - split; [done|]. split; [congruence|]. split; [lia|]. rewrite IH4, Hrc. by rewrite decide_False by lia.
Qed.

Lemma machine_spec n : 16 < n <= 2 ^ 32 -> Spaces (machine n) ∅ ∅ (fun _ => 0) /\ pf_avail (frames (machine n)) = n - 16.
Proof.
  intros Hn. set (s := {| Pmm.s_pages := ∅; Pmm.s_buddy_freelist := ∅; Pmm.s_max_phys_page := n; Pmm.s_total_ram_pages := n; Pmm.s_free_pages := 0 |}).
  pose proof (Pmm.wire_pages_wf s ltac:(cbn; lia) eq_refl eq_refl) as HW. destruct (Pmm.wire_pages_frame n s) as (Em & Ef & _).
  change (Pmm.wire_pages (Pmm.s_max_phys_page s) s) with (wired n) in HW. change (Pmm.wire_pages n s) with (wired n) in Em, Ef.
  assert (Hpg : forall x, 0 <= x < n -> Pmm.ref_count (Pmm.pg (wired n) x) = 1).
  { intros x Hx. unfold wired. by rewrite Pmm.wire_pages_pg, decide_True. }
  destruct (release_wired (seqZ 16 (n - 16)) (wired n) HW (NoDup_seqZ _ _)) as (HW' & Em' & Ef' & Hr0).
  { intros x Hx%elem_of_seqZ. rewrite Em. cbn. split; [lia|]. apply Hpg. lia. }
  split; [by apply no_spaces|]. unfold machine, boot_with. cbn [frames]. unfold pf_avail, pmm_page_frames, Pmm.pmm_get_refcount, Pmm.pmm_free_pages.
  change (0 / Pmm.CHIMERA_PAGE_SIZE) with 0. rewrite Em', Em, Hr0, Hpg, Ef', Ef by lia. cbn [Pmm.s_max_phys_page Pmm.s_free_pages s].
  rewrite (proj2 (Z.leb_gt n 0)) by lia. rewrite length_seqZ. cbn. lia.
Qed.

(** A machine of 64 MiB and a new address space. *)
Lemma machine_loadable : exists T M, loadable (pmap_create (machine 16384)).1 T M (fun _ => 0) (pmap_create (machine 16384)).2 /\
  16363 <= pf_avail (frames (pmap_create (machine 16384)).1).
Proof.
  destruct (machine_spec 16384 ltac:(lia)) as [HS Hav]. 
  destruct (created_loadable (machine 16384) _ _ HS ltac:(rewrite Hav; lia) (surjective_pairing _)) as (T & M & HL & Hle).
  exists T, M. split; [exact HL|]. rewrite Hav in Hle. lia.
Qed.

(** ** A program

    Two segments, of which the second is writable data, and an entry point. *)

Definition le_bytes (n w : Z) : list Z := (fun i => Z.land (Z.shiftr w (8 * i)) 255) <$> seqZ 0 n.
Definition pad16 (l : list Z) : list Z := take 16 (l ++ replicate 16 0).
Definition demo_segment (name : string) (addr size off fsize prot : Z) : list Z :=
  le_bytes 4 LC_SEGMENT_64 ++ le_bytes 4 72 ++ pad16 (str name) ++ le_bytes 8 addr ++ le_bytes 8 size ++ le_bytes 8 off ++ le_bytes 8 fsize
  ++ le_bytes 4 7 ++ le_bytes 4 prot ++ le_bytes 4 0 ++ le_bytes 4 0.
Definition demo_image : list Z :=
  le_bytes 4 MH_MAGIC_64 ++ le_bytes 4 CPU_TYPE_X86_64 ++ le_bytes 4 3 ++ le_bytes 4 MH_EXECUTE ++ le_bytes 4 3 ++ le_bytes 4 168 ++ le_bytes 8 0
  ++ demo_segment "__TEXT" 0x400000 0x1000 0 200 5 ++ demo_segment "__DATA" 0x600000 0x1000 200 4 3
  ++ le_bytes 4 LC_MAIN ++ le_bytes 4 24 ++ le_bytes 8 0x80 ++ le_bytes 8 0 ++ [1; 2; 3; 4].
Definition demo_data : option command := image_commands demo_image !! 1%nat.
Definition demo_argv : option (list (list Z)) := Some [str "prog"; str "-x"].

Lemma demo_commands : forall seg, Segment seg ∈ image_commands demo_image ->
  out_of_user_bounds seg = false /\ fileoff seg + filesize seg <= Z.of_nat (length demo_image).
Proof.
  assert (E : forallb (fun c => match c with
    | Segment seg => negb (out_of_user_bounds seg) && (fileoff seg + filesize seg <=? Z.of_nat (length demo_image)) | _ => true end) (image_commands demo_image) = true)
    by (vm_compute; reflexivity).
  intros seg Hin%list_elem_of_In. rewrite forallb_forall in E. specialize (E _ Hin). cbn beta iota in E. apply andb_prop in E as [E1 E2].
  apply negb_true_iff in E1. by apply Z.leb_le in E2.
Qed.

Lemma demo_can_load (s : pmap Pmm.pmm) : 16363 <= pf_avail (frames s) -> can_load s demo_image (kargv None demo_argv) (kenvp None).
Proof.
  intros Hav. assert (Hp : pages (image_commands demo_image) = 2) by (vm_compute; reflexivity).
  assert (Hb : forallb (fun b => (0 <=? b) && (b <? 256)) demo_image = true) by (vm_compute; reflexivity).
  constructor.
  - split; [|vm_compute; reflexivity]. apply Forall_forall. intros b Hin%list_elem_of_In. rewrite forallb_forall in Hb. specialize (Hb b Hin).
    apply andb_prop in Hb as [H1%Z.leb_le H2%Z.ltb_lt]. by split.
  - split; split.
    + vm_compute. exact I.
    + split; [vm_compute; reflexivity|]. split; [by intros seg Hin _; apply demo_commands|]. vm_compute. split; [discriminate|reflexivity].
    + vm_compute. discriminate.
    + intros seg Hin _. by apply demo_commands.
  - split; [|constructor]. repeat constructor; vm_compute; (discriminate || reflexivity).
  - vm_compute. discriminate.
  - rewrite Hp. lia.
Qed.

Lemma demo_args : Forall is_string (kargv None demo_argv) /\ Forall is_string (kenvp None).
Proof. destruct machine_loadable as (T & M & _ & Hav). exact (cl_strings _ _ _ _ (demo_can_load _ Hav)). Qed.

Lemma mach_load_args_refines_witness : exists s' r,
  mach_load_args (Some demo_image) (Some (pmap_create (machine 16384)).2) (Some tt) (Some tt) None demo_argv None (pmap_create (machine 16384)).1 = (s', r) /\
  match r with
  | Ok (entry, sp) => entry = 0x400080 /\ uview s' (pmap_create (machine 16384)).2 0x600001 = Some (2, true, false)
  | _ => False
  end.
Proof.
  destruct machine_loadable as (T & M & HL & Hav). pose proof (demo_can_load _ Hav) as [[Hi Hl] [Hx Hb] [Ha He] Hsz Hm].
  destruct (mach_load_args_refines _ T M _ _ demo_image None demo_argv None HL Hi Hl Ha He) as (s' & r & E & _ & _ & Hr).
  exists s', r. split; [exact E|]. destruct r as [[entry sp]|e| |].
  - destruct Hr as (_ & -> & _ & Hv). split; [vm_compute; reflexivity|]. rewrite Hv by lia. unfold exec_view.
    generalize (uview (pmap_create (machine 16384)).1 (pmap_create (machine 16384)).2). intros m. vm_compute. reflexivity.
  - destruct Hr as [[_ Hr]|[[_ Hr]|[_ Hr]]]; [by apply Hr|lia|]. apply Z.lt_nge in Hr. by apply Hr.
  - by apply Hr.
  - exact Hr.
Defined.

Lemma program_finds_arguments_witness : exists s' sp,
  mach_load_args (Some demo_image) (Some (pmap_create (machine 16384)).2) (Some tt) (Some tt) None demo_argv None (pmap_create (machine 16384)).1
    = (s', Ok (program_entry demo_image, sp)) /\
  vector_at s' (pmap_create (machine 16384)).2 (sp + 8) [str "prog"; str "-x"] /\ sp mod 16 = 0.
Proof.
  destruct machine_loadable as (T & M & HL & Hav). pose proof (demo_can_load _ Hav) as HC.
  destruct (program_finds_arguments _ T M _ _ demo_image None demo_argv None HL HC) as (s' & sp & E & _ & Hv & _ & Hm).
  exists s', sp. split; [exact E|]. split; [exact Hv|exact Hm].
Defined.

Lemma segments_always_executable_witness : exists seg s' r e,
  demo_data = Some (Segment seg) /\ has (initprot seg) VM_PROT_EXECUTE = false /\
  mach_load_args (Some demo_image) (Some (pmap_create (machine 16384)).2) (Some tt) (Some tt) None demo_argv None (pmap_create (machine 16384)).1 = (s', Ok r) /\
  pte s' (pmap_create (machine 16384)).2 0x600001 = Some e /\ has e PAGE_NX = false.
Proof.
  destruct machine_loadable as (T & M & HL & Hav). pose proof (demo_can_load _ Hav) as HC.
  assert (Hd : exists seg, demo_data = Some (Segment seg) /\ has (initprot seg) VM_PROT_EXECUTE = false /\ covers seg 0x600001).
  { eexists. split; [vm_compute; reflexivity|]. split; [vm_compute; reflexivity|]. split; [vm_compute; reflexivity|]. vm_compute. split; [discriminate|reflexivity]. }
  destruct Hd as (seg & Hd & Hx & Hc). exists seg.
  destruct (segments_always_executable _ T M _ _ demo_image None demo_argv None seg 0x600001 HL HC (list_elem_of_lookup_2 _ _ _ Hd) Hc) as (s' & r & e & Hr);
    [unfold stack_top; lia|]. exists s', r, e. split; [exact Hd|]. split; [exact Hx|exact Hr].
Defined.

Lemma load_page_reads_past_image_witness : exists seg s',
  demo_data = Some (Segment seg) /\ load_page (take 202 demo_image) (pmap_create (machine 16384)).2 seg 0x600000 (pmap_create (machine 16384)).1 = (s', Wild).
Proof.
  destruct machine_loadable as (T & M & HL & Hav).
  assert (Hd : exists seg, demo_data = Some (Segment seg) /\ copy_start seg 0x600000 < copy_end seg 0x600000 /\
    Z.of_nat (length (take 202 demo_image)) < u64 (fileoff seg + (copy_start seg 0x600000 - vmaddr seg)) + (copy_end seg 0x600000 - copy_start seg 0x600000)).
  { eexists. split; [vm_compute; reflexivity|]. split; vm_compute; reflexivity. }
  destruct Hd as (seg & Hd & Hc & Ho). exists seg.
  destruct (load_page_reads_past_image _ T M _ _ (take 202 demo_image) seg 0x600000 HL ltac:(lia) ltac:(lia) Hc Ho) as (s' & E).
  exists s'. split; [exact Hd|exact E].
Defined.
End LoaderCorrect.
