(* ===== verification/Ring.v ===== *)
(** * Ring buffers

    Bytes kept in an array that is written and read in a circle, as pipes and
    terminals do.  Positions are taken modulo the capacity. *)

From S2P Require Import Prelude.

Module Ring.

(** [buf[(at + i) % cap] = l[i]] for every [i] *)
Fixpoint put_bytes (cap at_ : Z) (l : list Z) (b : gmap Z Z) : gmap Z Z :=
  match l with
  | [] => b
  | c :: l => put_bytes cap (at_ + 1) l (store (at_ mod cap) c b)
  end.
Definition get_bytes (cap at_ n : Z) (b : gmap Z Z) : list Z :=
  (fun i => load b ((at_ + i) mod cap)) <$> seqZ 0 n.

Section Ring.
Context (cap : Z).

Lemma get_bytes_length a n b : 0 <= n -> Z.of_nat (length (get_bytes cap a n b)) = n.
Proof. intros Hn. unfold get_bytes. rewrite length_fmap, length_seqZ. lia. Qed.

Lemma get_bytes_app a n k b : 0 <= n -> 0 <= k -> get_bytes cap a (n + k) b = get_bytes cap a n b ++ get_bytes cap (a + n) k b.
Proof.
  intros Hn Hk. unfold get_bytes. rewrite seqZ_app, fmap_app by done. f_equal. rewrite (Z.add_comm 0 n), <- (fmap_add_seqZ n 0 k).
  rewrite <- list_fmap_compose. apply list_fmap_ext. intros i x _. cbn. f_equal. f_equal. lia.
Qed.

Lemma get_bytes_mod a n b : get_bytes cap (a mod cap) n b = get_bytes cap a n b.
Proof. unfold get_bytes. apply list_fmap_ext. intros i x _. by rewrite Zplus_mod_idemp_l. Qed.

Lemma get_bytes_ext a n b b' : (forall i, 0 <= i < n -> load b' ((a + i) mod cap) = load b ((a + i) mod cap)) ->
  get_bytes cap a n b' = get_bytes cap a n b.
Proof.
  intros Hb. unfold get_bytes. apply list_fmap_ext. intros k x Hx%list_elem_of_lookup_2. apply elem_of_seqZ in Hx. apply Hb. lia.
Qed.

(** Positions less than a turn apart are different. *)
Lemma ring_inj a b : a mod cap = b mod cap -> Z.abs (a - b) < cap -> a = b.
Proof.
  intros E Hd. pose proof (Z.div_mod a cap ltac:(lia)). pose proof (Z.div_mod b cap ltac:(lia)).
  assert (a / cap = b / cap) by nia. lia.
Qed.

Lemma put_bytes_out a l b x : (forall i, 0 <= i < Z.of_nat (length l) -> x ≠ (a + i) mod cap) -> load (put_bytes cap a l b) x = load b x.
Proof.
  revert a b. induction l as [|c l IH]; intros a b Hx; cbn [put_bytes]; [done|]. rewrite IH.
  - rewrite load_store, decide_False; [done|]. intros ->. apply (Hx 0); [cbn; lia|]. by rewrite Z.add_0_r.
  - intros i Hi. replace (a + 1 + i) with (a + (1 + i)) by lia. apply Hx. cbn. lia.
Qed.

Lemma get_put a l b : Z.of_nat (length l) <= cap -> get_bytes cap a (Z.of_nat (length l)) (put_bytes cap a l b) = l.
Proof.
  revert a b. induction l as [|c l IH]; intros a b Hl; [done|]. cbn [length] in *. cbn [put_bytes].
  replace (Z.of_nat (S (length l))) with (1 + Z.of_nat (length l)) by lia. rewrite get_bytes_app, IH by lia.
  change (get_bytes cap a 1 ?b') with [load b' ((a + 0) mod cap)]. cbn [app]. f_equal.
  rewrite Z.add_0_r, put_bytes_out; [by rewrite load_store, decide_True|].
  intros i Hi E. apply ring_inj in E; lia.
Qed.

(** Bytes put behind [n] bytes that fit into the ring with them. *)
Lemma get_put_app a n l b : 0 <= n -> n + Z.of_nat (length l) <= cap ->
  get_bytes cap a (n + Z.of_nat (length l)) (put_bytes cap (a + n) l b) = get_bytes cap a n b ++ l.
Proof.
  intros Hn Hl. rewrite get_bytes_app, get_put by lia. f_equal. apply get_bytes_ext. intros i Hi. apply put_bytes_out.
  intros j Hj E. apply ring_inj in E; lia.
Qed.

Lemma put_bytes_mod a l b : put_bytes cap (a mod cap) l b = put_bytes cap a l b.
Proof.
  revert a b. induction l as [|c l IH]; intros a b; cbn [put_bytes]; [done|]. rewrite Zmod_mod.
  rewrite <- (IH (a mod cap + 1)), Zplus_mod_idemp_l. apply IH.
Qed.
End Ring.
End Ring.
