(* ===== verification/Pipe.v ===== *)
(** * Pipes

    Model of [kernel/vfs/pipe.c].  A pipe is a ring buffer under a spinlock;
    the critical sections of [read] and [write] are single transitions of the
    pipe, and a thread inside one of the calls is a small state machine that
    sleeps on one of the two wait queues of the pipe.  Wait queues are
    first-in first-out lists of threads, as [WaitQueue] shows them to be.
    Whether [copyin] and [copyout] of the user's buffer succeed is left open. *)

From stdpp Require Import relations.
From S2P Require Import Prelude Ring.
Import Ring.

Module Pipe.

Definition PIPE_BUF_SIZE : Z := 65536.
Definition MAX_PIPES : nat := 32.
Definition TMP_SIZE : Z := 256.

Record chimera_pipe := {
  buf : gmap Z Z;
  head : Z;
  tail : Z;
  count : Z;
  readers : Z;
  writers : Z;
  active : bool;
  r_wq : list nat;
  w_wq : list nat
}.
#[global] Instance chimera_pipe_eta : Eta chimera_pipe := fun r =>
  {| buf := buf r; head := head r; tail := tail r; count := count r; readers := readers r; writers := writers r;
     active := active r; r_wq := r_wq r; w_wq := w_wq r |}.

(** ** Data transfer *)

#[local] Notation put_bytes := (Ring.put_bytes PIPE_BUF_SIZE).
#[local] Notation get_bytes := (Ring.get_bytes PIPE_BUF_SIZE).

Inductive read_round :=
| ReadEnd                       (* end of file, or the data read so far *)
| ReadBlock
| ReadData (tmp : list Z).

(** One round of the loop of [pipe_read_vop_read] by thread [t]. *)
Definition pipe_read_round (t : nat) (uio_resid total_read : Z) (p : chimera_pipe) : chimera_pipe * read_round :=
  if count p =? 0 then
    if (writers p =? 0) || (0 <? total_read) then (p, ReadEnd)
    else (p <| r_wq ::= fun q => q ++ [t] |>, ReadBlock)
  else
    let to_read := if uio_resid <? TMP_SIZE then uio_resid else TMP_SIZE in
    let to_read := if count p <? to_read then count p else to_read in
    let tmp := get_bytes (tail p) to_read (buf p) in
    let p := p <| tail ::= fun x => (x + to_read) mod PIPE_BUF_SIZE |> <| count ::= fun c => c - to_read |> in
    (p <| w_wq ::= List.tl |>, ReadData tmp).

Inductive write_round :=
| WriteBroken                   (* no reader: SIGPIPE *)
| WriteBlock
| WriteTaken (to_write : Z).

(** One round of the loop of [pipe_write_vop_write], the chunk [tmp] copied in. *)
Definition pipe_write_round (t : nat) (tmp : list Z) (p : chimera_pipe) : chimera_pipe * write_round :=
  let chunk_to_copy := Z.of_nat (length tmp) in
  if readers p =? 0 then (p, WriteBroken) else
  if PIPE_BUF_SIZE <=? count p then (p <| w_wq ::= fun q => q ++ [t] |>, WriteBlock) else
  let space := PIPE_BUF_SIZE - count p in
  let to_write := if chunk_to_copy <? space then chunk_to_copy else space in
  let p := p <| buf ::= put_bytes (head p) (take (Z.to_nat to_write) tmp) |>
             <| head ::= fun x => (x + to_write) mod PIPE_BUF_SIZE |> <| count ::= fun c => c + to_write |> in
  (p <| r_wq ::= List.tl |>, WriteTaken to_write).

Definition close_end (p : chimera_pipe) : chimera_pipe :=
  if (readers p =? 0) && (writers p =? 0) then p <| active := false |> else p.

Definition pipe_read_vop_close (p : chimera_pipe) : chimera_pipe :=
  let p := if 0 <? readers p then p <| readers ::= Z.pred |> else p in
  (close_end p) <| w_wq := [] |>.

Definition pipe_write_vop_close (p : chimera_pipe) : chimera_pipe :=
  let p := if 0 <? writers p then p <| writers ::= Z.pred |> else p in
  (close_end p) <| r_wq := [] |>.

(** The pool; [buf] keeps what an earlier pipe left in it. *)
Definition fresh (p : chimera_pipe) : chimera_pipe :=
  {| buf := buf p; head := 0; tail := 0; count := 0; readers := 1; writers := 1; active := true; r_wq := []; w_wq := [] |}.

Definition pipe_create (s_pipes : list chimera_pipe) : list chimera_pipe * (chimera_error * option nat) :=
  match list_find (fun p => active p = false) s_pipes with
  | Some (i, p) => (<[i := fresh p]> s_pipes, (CHIMERA_SUCCESS, Some i))
  | None => (s_pipes, (CHIMERA_ERR_NOMEM, None))
  end.

Definition POLLIN : Z := 1.
Definition POLLOUT : Z := 4.
Definition POLLERR : Z := 8.
Definition POLLHUP : Z := 16.

Definition pipe_poll (is_read : bool) (events : Z) (p : chimera_pipe) : Z :=
  if is_read then
    Z.lor (if negb (Z.land events POLLIN =? 0) && ((0 <? count p) || (writers p =? 0)) then POLLIN else 0)
          (if writers p =? 0 then POLLHUP else 0)
  else
    Z.lor (if negb (Z.land events POLLOUT =? 0) && ((0 <? readers p) && (0 <? PIPE_BUF_SIZE - count p)) then POLLOUT else 0)
          (if readers p =? 0 then Z.lor POLLERR POLLHUP else 0).

(** ** Threads inside [read] and [write] *)

Inductive thread :=
| ReadLoop (uio_resid total_read : Z)
| ReadSleep (uio_resid total_read : Z)
| ReadCopyout (uio_resid total_read : Z) (tmp : list Z)
| WriteLoop (uio_resid : Z)
| WriteLock (uio_resid : Z) (tmp : list Z)
| WriteSleep (uio_resid : Z)
| Returned (e : chimera_error).

(** Threads, the pipe, and (for the specification) the bytes it has taken in and handed out. *)
Record system := {
  threads : gmap nat thread;
  pipe : chimera_pipe;
  accepted : list Z;
  delivered : list Z
}.
#[global] Instance system_eta : Eta system := fun r =>
  {| threads := threads r; pipe := pipe r; accepted := accepted r; delivered := delivered r |}.

Inductive step (s : system) : system -> Prop :=
| read_done t n : threads s !! t = Some (ReadLoop 0 n) ->
    step s (s <| threads ::= <[t := Returned CHIMERA_SUCCESS]> |>)
| read_end t r n p : threads s !! t = Some (ReadLoop r n) -> 0 < r -> pipe_read_round t r n (pipe s) = (p, ReadEnd) ->
    step s (s <| threads ::= <[t := Returned CHIMERA_SUCCESS]> |> <| pipe := p |>)
| read_block t r n p : threads s !! t = Some (ReadLoop r n) -> 0 < r -> pipe_read_round t r n (pipe s) = (p, ReadBlock) ->
    step s (s <| threads ::= <[t := ReadSleep r n]> |> <| pipe := p |>)
| read_data t r n p tmp : threads s !! t = Some (ReadLoop r n) -> 0 < r -> pipe_read_round t r n (pipe s) = (p, ReadData tmp) ->
    step s (s <| threads ::= <[t := ReadCopyout r n tmp]> |> <| pipe := p |> <| delivered ::= fun l => l ++ tmp |>)
| read_wake t r n : threads s !! t = Some (ReadSleep r n) -> t ∉ r_wq (pipe s) ->
    step s (s <| threads ::= <[t := ReadLoop r n]> |>)
| read_copied t r n tmp : threads s !! t = Some (ReadCopyout r n tmp) ->
    step s (s <| threads ::= <[t := ReadLoop (r - Z.of_nat (length tmp)) (n + Z.of_nat (length tmp))]> |>)
| read_fault t r n tmp : threads s !! t = Some (ReadCopyout r n tmp) ->
    step s (s <| threads ::= <[t := Returned CHIMERA_ERR_GENERIC]> |>)
| write_done t : threads s !! t = Some (WriteLoop 0) ->
    step s (s <| threads ::= <[t := Returned CHIMERA_SUCCESS]> |>)
| write_copied t r tmp : threads s !! t = Some (WriteLoop r) -> 0 < r ->
    Z.of_nat (length tmp) = (if r <? TMP_SIZE then r else TMP_SIZE) ->
    step s (s <| threads ::= <[t := WriteLock r tmp]> |>)
| write_fault t r : threads s !! t = Some (WriteLoop r) -> 0 < r ->
    step s (s <| threads ::= <[t := Returned CHIMERA_ERR_GENERIC]> |>)
| write_broken t r tmp p : threads s !! t = Some (WriteLock r tmp) -> pipe_write_round t tmp (pipe s) = (p, WriteBroken) ->
    step s (s <| threads ::= <[t := Returned CHIMERA_ERR_GENERIC]> |> <| pipe := p |>)
| write_block t r tmp p : threads s !! t = Some (WriteLock r tmp) -> pipe_write_round t tmp (pipe s) = (p, WriteBlock) ->
    step s (s <| threads ::= <[t := WriteSleep r]> |> <| pipe := p |>)
| write_taken t r tmp p n : threads s !! t = Some (WriteLock r tmp) -> pipe_write_round t tmp (pipe s) = (p, WriteTaken n) ->
    step s (s <| threads ::= <[t := WriteLoop (r - n)]> |> <| pipe := p |> <| accepted ::= fun l => l ++ take (Z.to_nat n) tmp |>)
| write_wake t r : threads s !! t = Some (WriteSleep r) -> t ∉ w_wq (pipe s) ->
    step s (s <| threads ::= <[t := WriteLoop r]> |>)
| close_read : step s (s <| pipe := pipe_read_vop_close (pipe s) |>)
| close_write : step s (s <| pipe := pipe_write_vop_close (pipe s) |>)
| call t th : (exists r, th = ReadLoop r 0 /\ 0 < r) \/ (exists r, th = WriteLoop r /\ 0 < r) ->
    threads s !! t = None \/ (exists e, threads s !! t = Some (Returned e)) ->
    step s (s <| threads ::= <[t := th]> |>).

(** ** The ring buffer is a queue *)

Definition contents (p : chimera_pipe) : list Z := get_bytes (tail p) (count p) (buf p).

Record ring_ok (p : chimera_pipe) : Prop := {
  ro_tail : 0 <= tail p < PIPE_BUF_SIZE;
  ro_count : 0 <= count p <= PIPE_BUF_SIZE;
  ro_head : head p = (tail p + count p) mod PIPE_BUF_SIZE
}.

Lemma read_round_spec t r n p p' res : ring_ok p -> 0 < r -> pipe_read_round t r n p = (p', res) ->
  ring_ok p' /\ contents p = (match res with ReadData tmp => tmp | _ => [] end) ++ contents p'.
Proof.
  intros [Ht Hc Hh] Hr. unfold pipe_read_round. destruct (Z.eqb_spec (count p) 0) as [E|E].
  { destruct (_ || _); by intros [= <- <-]. }
  set (k := if count p <? _ then count p else _). assert (Hk : 0 <= k <= count p).
  { unfold k, TMP_SIZE. destruct (Z.ltb_spec r 256).
    - destruct (Z.ltb_spec (count p) r); lia.
    - destruct (Z.ltb_spec (count p) 256); lia. }
  clearbody k. intros [= <- <-]. unfold contents. cbn. split.
  - constructor; cbn; [by apply Z.mod_pos_bound|lia|]. rewrite Zplus_mod_idemp_l, Hh. f_equal. lia.
  - rewrite get_bytes_mod, <- get_bytes_app by lia. f_equal. lia.
Qed.

Lemma write_round_spec t tmp p p' res : ring_ok p -> pipe_write_round t tmp p = (p', res) ->
  ring_ok p' /\ contents p' = contents p ++ match res with WriteTaken n => take (Z.to_nat n) tmp | _ => [] end.
Proof.
  intros [Ht Hc Hh]. unfold pipe_write_round. destruct (readers p =? 0); [intros [= <- <-]; by rewrite app_nil_r|].
  destruct (Z.leb_spec PIPE_BUF_SIZE (count p)); [intros [= <- <-]; unfold contents; by rewrite app_nil_r|].
  set (k := if _ <? _ then _ else _). assert (Hk : 0 <= k <= PIPE_BUF_SIZE - count p /\ k <= Z.of_nat (length tmp)).
  { unfold k. destruct (Z.ltb_spec (Z.of_nat (length tmp)) (PIPE_BUF_SIZE - count p)); lia. }
  clearbody k. intros [= <- <-]. unfold contents. cbn. set (l := take (Z.to_nat k) tmp).
  assert (El : Z.of_nat (length l) = k) by (unfold l; rewrite length_take; lia). split.
  - constructor; cbn; [done|lia|]. rewrite Hh, Zplus_mod_idemp_l. f_equal. lia.
  - rewrite <- El, Hh, put_bytes_mod. apply get_put_app; lia.
Qed.

(** ** All interleavings *)

Definition initial (p : chimera_pipe) : system := {| threads := ∅; pipe := fresh p; accepted := []; delivered := [] |}.

Definition fifo (s : system) : Prop := ring_ok (pipe s) /\ accepted s = delivered s ++ contents (pipe s).

Lemma close_contents p : ring_ok p -> 
  (ring_ok (pipe_read_vop_close p) /\ contents (pipe_read_vop_close p) = contents p) /\
  (ring_ok (pipe_write_vop_close p) /\ contents (pipe_write_vop_close p) = contents p).
Proof.
  intros [H1 H2 H3]. unfold pipe_read_vop_close, pipe_write_vop_close, close_end, contents.
  split; destruct (0 <? _); cbn; destruct (_ && _); cbn; done.
Qed.

Lemma step_fifo s s' : fifo s -> step s s' -> fifo s'.
Proof.
  intros [Hr Ha] Hst. unfold fifo. destruct Hst; cbn; try done.
  all: try match goal with E : pipe_read_round _ _ _ _ = _ |- _ => destruct (read_round_spec _ _ _ _ _ _ Hr ltac:(done) E) as [? Ec] end.
  all: try match goal with E : pipe_write_round _ _ _ = _ |- _ => destruct (write_round_spec _ _ _ _ _ Hr E) as [? Ec] end.
  all: try (split; [done|]; rewrite Ha; first [by rewrite Ec | by rewrite Ec, app_nil_r | by rewrite Ec, app_assoc]).
  - split; [apply (close_contents _ Hr)|]. by rewrite (proj2 (proj1 (close_contents _ Hr))).
  - split; [apply (close_contents _ Hr)|]. by rewrite (proj2 (proj2 (close_contents _ Hr))).
Qed.

(** C19: A pipe is a queue of bytes.  However reads, writes and closes of any
    number of threads interleave, the bytes handed out to readers are, in
    order, exactly those accepted from writers except for the ones still in
    the buffer, of which there are never more than 65536; no byte is lost,
    duplicated or reordered inside the pipe. *)
Theorem pipe_fifo p s : rtc step (initial p) s ->
  accepted s = delivered s ++ contents (pipe s) /\ Z.of_nat (length (contents (pipe s))) = count (pipe s) /\
  0 <= count (pipe s) <= PIPE_BUF_SIZE.
Proof.
  intros Hs. assert (Hf : fifo s).
  { revert Hs. apply (rtc_ind_r (fun s => fifo s)); [|by intros ? ? _ ? ?; eapply step_fifo].
    split; [|done]. constructor; unfold PIPE_BUF_SIZE; cbn; lia || done. }
  destruct Hf as [[H1 H2 H3] H4]. split; [done|]. split; [apply get_bytes_length; lia|done].
Qed.

Lemma pipe_read_ready t r n p events : Z.land (pipe_poll true events p) POLLIN ≠ 0 -> snd (pipe_read_round t r n p) ≠ ReadBlock.
Proof.
  unfold pipe_poll, pipe_read_round. destruct (Z.eqb_spec (count p) 0) as [E|E].
  - rewrite E. destruct (writers p =? 0); [done|]. change (0 <? 0) with false. cbn [orb]. rewrite andb_false_r. done.
  - done.
Qed.

(** ** Two readers and one writer *)

Definition unused : chimera_pipe :=
  {| buf := ∅; head := 0; tail := 0; count := 0; readers := 0; writers := 0; active := false; r_wq := []; w_wq := [] |}.

(** Threads 1 and 2 wait for one byte each; thread 3 writes two bytes, which
    wakes thread 1, and thread 1 takes its byte. *)
Definition stalled : system := {|
  threads := <[1%nat := Returned CHIMERA_SUCCESS]> (<[2%nat := ReadSleep 1 0]> (<[3%nat := Returned CHIMERA_SUCCESS]> ∅));
  pipe := {| buf := <[0 := 10]> (<[1 := 11]> ∅); head := 2; tail := 1; count := 1; readers := 1; writers := 1; active := true;
             r_wq := [2%nat]; w_wq := [] |};
  accepted := [10; 11]; delivered := [10] |}.


Lemma stalled_reachable : rtc step (initial unused) stalled.
Proof.
  eapply rtc_l; [apply (call _ 1 (ReadLoop 1 0)); [left; eexists; split; [reflexivity|lia]|left; vm_compute; reflexivity]|].
  eapply rtc_l; [apply (call _ 2 (ReadLoop 1 0)); [left; eexists; split; [reflexivity|lia]|left; vm_compute; reflexivity]|].
  eapply rtc_l; [eapply (read_block _ 1 1 0); vm_compute; reflexivity|].
  eapply rtc_l; [eapply (read_block _ 2 1 0); vm_compute; reflexivity|].
  eapply rtc_l; [apply (call _ 3 (WriteLoop 2)); [right; eexists; split; [reflexivity|lia]|left; vm_compute; reflexivity]|].
  eapply rtc_l; [eapply (write_copied _ 3 2 [10; 11]); vm_compute; reflexivity|].
  eapply rtc_l; [eapply (write_taken _ 3 2 [10; 11]); vm_compute; reflexivity|].
  eapply rtc_l; [eapply (write_done _ 3); vm_compute; reflexivity|].
  eapply rtc_l; [eapply (read_wake _ 1 1 0); [vm_compute; reflexivity|cbn; set_solver]|].
  eapply rtc_l; [eapply (read_data _ 1 1 0); vm_compute; reflexivity|].
  eapply rtc_l; [eapply (read_copied _ 1 1 0 [10]); vm_compute; reflexivity|].
  eapply rtc_l; [eapply (read_done _ 1); vm_compute; reflexivity|].
  match goal with |- rtc step ?s _ => replace s with stalled by (vm_compute; reflexivity) end. apply rtc_refl.
Qed.

Lemma pipe_fifo_witness : rtc step (initial unused) stalled /\ accepted stalled = delivered stalled ++ contents (pipe stalled).
Proof. split; [exact stalled_reachable|]. apply (pipe_fifo unused stalled stalled_reachable). Defined.

(** A wake-up can be lost.  There is a reachable state in which a byte is
    in the pipe and a reader sleeps on the wait queue, while every other
    thread has returned: only one of several sleeping readers is woken per
    chunk written, and a reader that leaves data behind wakes nobody. *)
Theorem pipe_reader_stalls : exists s t, rtc step (initial unused) s /\ 0 < count (pipe s) /\
  threads s !! t = Some (ReadSleep 1 0) /\ t ∈ r_wq (pipe s) /\
  forall t' th, threads s !! t' = Some th -> t' = t \/ exists e, th = Returned e.
Proof.
  exists stalled, 2%nat. split; [exact stalled_reachable|]. split; [done|]. split; [done|]. split; [set_solver|].
  intros t' th. cbn [threads stalled]. rewrite !lookup_insert_Some, lookup_empty. intros H.
  destruct H as [[<- <-]|[_ [[<- <-]|[_ [[<- <-]|[_ H]]]]]]; [right; eauto|by left|right; eauto|done].
Qed.
End Pipe.
