(* ===== verification/Pty.v ===== *)
(** * The pseudo-terminal

    Model of [kernel/vfs/pty.c]: the terminal application writes keys to the
    master side, where the line discipline edits and echoes them, and reads
    the screen output; the shell reads finished lines from the slave side and
    writes output to it.  Each side has a ring buffer.  What a call does under
    [g_pty0.lock] is one transition; a thread inside a call is a small state
    machine, and [slave_wq] is the first-in first-out list of sleepers that
    [WaitQueue] shows wait queues to be.  Whether [copyin] and [copyout] of
    the user's buffer succeed is left open. *)

From stdpp Require Import relations.
From S2P Require Import Prelude Ring.
Import Ring.

Module Pty.

Definition PTY_BUF_SIZE : Z := 4096.
Definition TMP_SIZE : Z := 512.

Record pty := {
  master_buf : gmap Z Z;
  master_head : Z;
  master_tail : Z;
  slave_buf : gmap Z Z;
  slave_head : Z;
  slave_tail : Z;
  line_buf : gmap Z Z;
  line_len : Z;
  line_ready : bool;
  master_wq : list nat;
  slave_wq : list nat
}.
#[global] Instance pty_eta : Eta pty := fun r =>
  {| master_buf := master_buf r; master_head := master_head r; master_tail := master_tail r;
     slave_buf := slave_buf r; slave_head := slave_head r; slave_tail := slave_tail r;
     line_buf := line_buf r; line_len := line_len r; line_ready := line_ready r;
     master_wq := master_wq r; slave_wq := slave_wq r |}.

(** ** Ring buffers *)

Definition ring_used (head tail cap : Z) : Z := if tail <=? head then head - tail else u32 (cap - tail + head).
Definition ring_free (head tail cap : Z) : Z := u32 (cap - 1 - ring_used head tail cap).

Fixpoint write_bytes (cap head : Z) (src : list Z) (b : gmap Z Z) : gmap Z Z * Z :=
  match src with
  | [] => (b, head)
  | c :: src => write_bytes cap (u32 (head + 1) mod cap) src (store head c b)
  end.
(** The buffer, the new head and the number of bytes taken. *)
Definition ring_write (b : gmap Z Z) (head tail cap : Z) (src : list Z) : gmap Z Z * Z * Z :=
  let avail := ring_free head tail cap in
  let len := Z.of_nat (length src) in
  let len := if avail <? len then avail else len in
  let '(b, head) := write_bytes cap head (take (Z.to_nat len) src) b in
  (b, head, len).

Fixpoint read_bytes (n : nat) (cap tail : Z) (b : gmap Z Z) : list Z * Z :=
  match n with
  | O => ([], tail)
  | S n => let '(l, t) := read_bytes n cap (u32 (tail + 1) mod cap) b in (load b tail :: l, t)
  end.
(** The bytes read and the new tail. *)
Definition ring_read (b : gmap Z Z) (head tail cap len : Z) : list Z * Z :=
  let avail := ring_used head tail cap in
  read_bytes (Z.to_nat (if avail <? len then avail else len)) cap tail b.

Definition write_slave (src : list Z) (p : pty) : pty :=
  let '(b, h, _) := ring_write (slave_buf p) (slave_head p) (slave_tail p) PTY_BUF_SIZE src in
  p <| slave_buf := b |> <| slave_head := h |>.
Definition write_master (src : list Z) (p : pty) : pty :=
  let '(b, h, _) := ring_write (master_buf p) (master_head p) (master_tail p) PTY_BUF_SIZE src in
  p <| master_buf := b |> <| master_head := h |>.

(** ** The line discipline *)

Definition line (p : pty) : list Z := (fun i => load (line_buf p) i) <$> seqZ 0 (line_len p).

Definition erases (ch : Z) : bool := (ch =? 0x08) || (ch =? 0x7f).
Definition ends_line (ch : Z) : bool := (ch =? 10) || (ch =? 13).

(** One key of [pty_master_write]. *)
Definition master_key (p : pty) (ch : Z) : pty :=
  if erases ch then
    if 0 <? line_len p then write_slave [0x08; 0x20; 0x08] (p <| line_len ::= Z.pred |>) else p
  else if line_len p <? PTY_BUF_SIZE - 1 then
    let p := p <| line_buf ::= store (line_len p) ch |> <| line_len ::= Z.succ |> in
    let p := write_slave [ch] p in
    if ends_line ch then (write_master (line p) p) <| line_len := 0 |> <| line_ready := true |> else p
  else p.

(** What [pty_master_write] does with the lock held. *)
Definition pty_master_write (tmp : list Z) (p : pty) : pty :=
  (foldl master_key p tmp) <| slave_wq ::= List.tl |> <| master_wq ::= List.tl |>.

(** What the reads do with the lock held: [None] when there is nothing. *)
Definition to_read (uio_resid avail : Z) : Z :=
  let n := if uio_resid <? avail then uio_resid else avail in
  if TMP_SIZE <? n then TMP_SIZE else n.

Definition pty_master_read (uio_resid : Z) (p : pty) : pty * option (list Z) :=
  let avail := ring_used (slave_head p) (slave_tail p) PTY_BUF_SIZE in
  if 0 <? avail then
    let '(tmp, t) := ring_read (slave_buf p) (slave_head p) (slave_tail p) PTY_BUF_SIZE (to_read uio_resid avail) in
    (p <| slave_tail := t |>, Some tmp)
  else (p, None).

Definition pty_slave_read (t : nat) (uio_resid : Z) (p : pty) : pty * option (list Z) :=
  let avail := ring_used (master_head p) (master_tail p) PTY_BUF_SIZE in
  if 0 <? avail then
    let '(tmp, tl) := ring_read (master_buf p) (master_head p) (master_tail p) PTY_BUF_SIZE (to_read uio_resid avail) in
    (p <| master_tail := tl |>, Some tmp)
  else (p <| slave_wq ::= fun q => q ++ [t] |>, None).

Definition pty_slave_write (tmp : list Z) (p : pty) : pty * Z :=
  let '(b, h, n) := ring_write (slave_buf p) (slave_head p) (slave_tail p) PTY_BUF_SIZE tmp in
  (p <| slave_buf := b |> <| slave_head := h |> <| master_wq ::= List.tl |>, n).

(** The window size is copied out, other requests are accepted. *)
Definition pty_ioctl (copyout : list Z -> chimera_error) (cmd arg : Z) : chimera_error :=
  if (cmd =? 0x5413) && negb (arg =? 0) then copyout [25; 0; 80; 0; 0; 0; 0; 0] else CHIMERA_SUCCESS.

(** The buffers keep their contents. *)
Definition pty_init (p : pty) : pty :=
  p <| master_wq := [] |> <| slave_wq := [] |> <| master_head := 0 |> <| master_tail := 0 |>
    <| slave_head := 0 |> <| slave_tail := 0 |> <| line_len := 0 |> <| line_ready := false |>.

Definition POLLIN : Z := 1.
Definition POLLOUT : Z := 4.

Definition pty_master_poll (events : Z) (p : pty) : Z :=
  Z.lor (if has events POLLIN && (0 <? ring_used (slave_head p) (slave_tail p) PTY_BUF_SIZE) then POLLIN else 0)
        (if has events POLLOUT then POLLOUT else 0).
Definition pty_slave_poll (events : Z) (p : pty) : Z :=
  Z.lor (if has events POLLIN && (0 <? ring_used (master_head p) (master_tail p) PTY_BUF_SIZE) then POLLIN else 0)
        (if has events POLLOUT && (0 <? ring_free (slave_head p) (slave_tail p) PTY_BUF_SIZE) then POLLOUT else 0).

(** ** Threads inside the calls *)

Inductive thread :=
| MasterRead (uio_resid : Z)
| MasterCopyout (uio_resid : Z) (tmp : list Z)
| MasterCopyin (uio_resid : Z)
| MasterWrite (uio_resid : Z) (tmp : list Z)
| SlaveRead (uio_resid : Z)
| SlaveSleep (uio_resid : Z)
| SlaveCopyout (uio_resid : Z) (tmp : list Z)
| SlaveCopyin (uio_resid : Z)
| SlaveWrite (uio_resid : Z) (tmp : list Z)
| Returned (e : chimera_error) (uio_resid : Z).

(** Threads, the terminal, and (for the specification) the keys typed, the
    bytes given to readers of the slave side, and the length of the finished
    lines for which there was no room. *)
Record system := {
  threads : gmap nat thread;
  g_pty0 : pty;
  typed : list Z;
  input : list Z;
  dropped : Z
}.
#[global] Instance system_eta : Eta system := fun r =>
  {| threads := threads r; g_pty0 := g_pty0 r; typed := typed r; input := input r; dropped := dropped r |}.

Definition chunk (uio_resid : Z) : Z := if TMP_SIZE <? uio_resid then TMP_SIZE else uio_resid.

(** The bytes of a finished line that do not fit. *)
Definition overflow (p : pty) (ch : Z) : Z :=
  if negb (erases ch) && ends_line ch && (line_len p <? PTY_BUF_SIZE - 1)
  then Z.max 0 (line_len p + 1 - ring_free (master_head p) (master_tail p) PTY_BUF_SIZE) else 0.
Fixpoint overflows (p : pty) (ks : list Z) : Z :=
  match ks with [] => 0 | ch :: ks => overflow p ch + overflows (master_key p ch) ks end.

Inductive step (s : system) : system -> Prop :=
| master_read_none t r p : threads s !! t = Some (MasterRead r) -> pty_master_read r (g_pty0 s) = (p, None) ->
    step s (s <| threads ::= <[t := Returned CHIMERA_SUCCESS r]> |> <| g_pty0 := p |>)
| master_read_some t r p tmp : threads s !! t = Some (MasterRead r) -> pty_master_read r (g_pty0 s) = (p, Some tmp) ->
    step s (s <| threads ::= <[t := MasterCopyout r tmp]> |> <| g_pty0 := p |>)
| master_copied t r tmp : threads s !! t = Some (MasterCopyout r tmp) ->
    step s (s <| threads ::= <[t := Returned CHIMERA_SUCCESS (r - Z.of_nat (length tmp))]> |>)
| master_not_copied t r tmp : threads s !! t = Some (MasterCopyout r tmp) ->
    step s (s <| threads ::= <[t := Returned CHIMERA_SUCCESS r]> |>)
| master_copied_in t r tmp : threads s !! t = Some (MasterCopyin r) -> Z.of_nat (length tmp) = chunk r -> Forall is_byte tmp ->
    step s (s <| threads ::= <[t := MasterWrite r tmp]> |>)
| master_fault t r : threads s !! t = Some (MasterCopyin r) ->
    step s (s <| threads ::= <[t := Returned CHIMERA_ERR_GENERIC r]> |>)
| master_written t r tmp : threads s !! t = Some (MasterWrite r tmp) ->
    step s (s <| threads ::= <[t := Returned CHIMERA_SUCCESS (r - Z.of_nat (length tmp))]> |>
              <| g_pty0 ::= pty_master_write tmp |> <| typed ::= fun l => l ++ tmp |>
              <| dropped ::= fun n => n + overflows (g_pty0 s) tmp |>)
| slave_read_none t r p : threads s !! t = Some (SlaveRead r) -> pty_slave_read t r (g_pty0 s) = (p, None) ->
    step s (s <| threads ::= <[t := SlaveSleep r]> |> <| g_pty0 := p |>)
| slave_read_some t r p tmp : threads s !! t = Some (SlaveRead r) -> pty_slave_read t r (g_pty0 s) = (p, Some tmp) ->
    step s (s <| threads ::= <[t := SlaveCopyout r tmp]> |> <| g_pty0 := p |> <| input ::= fun l => l ++ tmp |>)
| slave_wake t r : threads s !! t = Some (SlaveSleep r) -> t ∉ slave_wq (g_pty0 s) ->
    step s (s <| threads ::= <[t := SlaveRead r]> |>)
| slave_copied t r tmp : threads s !! t = Some (SlaveCopyout r tmp) ->
    step s (s <| threads ::= <[t := Returned CHIMERA_SUCCESS (r - Z.of_nat (length tmp))]> |>)
| slave_not_copied t r tmp : threads s !! t = Some (SlaveCopyout r tmp) ->
    step s (s <| threads ::= <[t := Returned CHIMERA_SUCCESS r]> |>)
| slave_copied_in t r tmp : threads s !! t = Some (SlaveCopyin r) -> Z.of_nat (length tmp) = chunk r -> Forall is_byte tmp ->
    step s (s <| threads ::= <[t := SlaveWrite r tmp]> |>)
| slave_fault t r : threads s !! t = Some (SlaveCopyin r) ->
    step s (s <| threads ::= <[t := Returned CHIMERA_ERR_GENERIC r]> |>)
| slave_written t r tmp p n : threads s !! t = Some (SlaveWrite r tmp) -> pty_slave_write tmp (g_pty0 s) = (p, n) ->
    step s (s <| threads ::= <[t := Returned CHIMERA_SUCCESS (r - n)]> |> <| g_pty0 := p |>)
| call t th r : th = MasterRead r \/ th = MasterCopyin r \/ th = SlaveRead r \/ th = SlaveCopyin r -> 0 < r ->
    threads s !! t = None \/ (exists e r', threads s !! t = Some (Returned e r')) ->
    step s (s <| threads ::= <[t := th]> |>).

Definition initial (p : pty) : system := {| threads := ∅; g_pty0 := pty_init p; typed := []; input := []; dropped := 0 |}.

(** ** The rings are queues *)

Definition master_contents (p : pty) : list Z :=
  get_bytes PTY_BUF_SIZE (master_tail p) (ring_used (master_head p) (master_tail p) PTY_BUF_SIZE) (master_buf p).
Definition slave_contents (p : pty) : list Z :=
  get_bytes PTY_BUF_SIZE (slave_tail p) (ring_used (slave_head p) (slave_tail p) PTY_BUF_SIZE) (slave_buf p).

Lemma ring_used_mod h t : 0 <= h < PTY_BUF_SIZE -> 0 <= t < PTY_BUF_SIZE ->
  0 <= ring_used h t PTY_BUF_SIZE < PTY_BUF_SIZE /\ (t + ring_used h t PTY_BUF_SIZE) mod PTY_BUF_SIZE = h /\
  ring_free h t PTY_BUF_SIZE = PTY_BUF_SIZE - 1 - ring_used h t PTY_BUF_SIZE.
Proof.
  unfold ring_free, ring_used, PTY_BUF_SIZE. intros Hh Ht. destruct (Z.leb_spec t h); rewrite !u32_id by lia; split; try lia; split; try lia.
  - replace (t + (h - t)) with h by lia. by apply Z.mod_small.
  - replace (t + (4096 - t + h)) with (h + 1 * 4096) by lia. rewrite Z.mod_add by done. by apply Z.mod_small.
Qed.

Lemma ring_used_unique h t n : 0 <= t < PTY_BUF_SIZE -> 0 <= n < PTY_BUF_SIZE -> h = (t + n) mod PTY_BUF_SIZE ->
  ring_used h t PTY_BUF_SIZE = n.
Proof.
  intros Ht Hn ->. pose proof (Z.mod_pos_bound (t + n) PTY_BUF_SIZE ltac:(done)) as Hh.
  destruct (ring_used_mod _ t Hh Ht) as (H1 & H2 & _). apply (ring_inj PTY_BUF_SIZE) in H2; unfold PTY_BUF_SIZE in *; lia.
Qed.

Lemma write_bytes_put src : forall h b, 0 <= h < PTY_BUF_SIZE ->
  write_bytes PTY_BUF_SIZE h src b = (put_bytes PTY_BUF_SIZE h src b, (h + Z.of_nat (length src)) mod PTY_BUF_SIZE).
Proof.
  induction src as [|c src IH]; intros h b Hh; cbn [write_bytes put_bytes length].
  - by rewrite Z.add_0_r, Z.mod_small.
  - rewrite u32_id by (unfold PTY_BUF_SIZE in *; lia). rewrite IH by (by apply Z.mod_pos_bound). rewrite put_bytes_mod, (Z.mod_small h) by done.
    f_equal. rewrite Zplus_mod_idemp_l. f_equal. lia.
Qed.

Lemma read_bytes_get n : forall t b, 0 <= t < PTY_BUF_SIZE ->
  read_bytes n PTY_BUF_SIZE t b = (get_bytes PTY_BUF_SIZE t (Z.of_nat n) b, (t + Z.of_nat n) mod PTY_BUF_SIZE).
Proof.
  induction n as [|n IH]; intros t b Ht; cbn [read_bytes]; [by rewrite Z.add_0_r, Z.mod_small|].
  rewrite u32_id by (unfold PTY_BUF_SIZE in *; lia). rewrite IH by (by apply Z.mod_pos_bound).
  replace (Z.of_nat (S n)) with (1 + Z.of_nat n) by lia. rewrite get_bytes_app, get_bytes_mod by lia. f_equal.
  - change (get_bytes PTY_BUF_SIZE t 1 b) with [load b ((t + 0) mod PTY_BUF_SIZE)]. by rewrite Z.add_0_r, (Z.mod_small t).
  - rewrite Zplus_mod_idemp_l. f_equal. lia.
Qed.

Lemma ring_write_spec b h t src b' h' n : 0 <= h < PTY_BUF_SIZE -> 0 <= t < PTY_BUF_SIZE -> ring_write b h t PTY_BUF_SIZE src = (b', h', n) ->
  let old := get_bytes PTY_BUF_SIZE t (ring_used h t PTY_BUF_SIZE) b in
  0 <= h' < PTY_BUF_SIZE /\ n = Z.min (Z.of_nat (length src)) (PTY_BUF_SIZE - 1 - Z.of_nat (length old)) /\
  get_bytes PTY_BUF_SIZE t (ring_used h' t PTY_BUF_SIZE) b' = old ++ take (Z.to_nat n) src.
Proof.
  intros Hh Ht. destruct (ring_used_mod h t Hh Ht) as (Hu & Hm & Hf). unfold ring_write. rewrite Hf. cbv zeta.
  set (len := if _ <? _ then _ else _). set (u := ring_used h t PTY_BUF_SIZE) in *.
  assert (Hlen : len = Z.min (Z.of_nat (length src)) (PTY_BUF_SIZE - 1 - u)) by (unfold len; destruct (Z.ltb_spec (PTY_BUF_SIZE - 1 - u) (Z.of_nat (length src))); lia).
  clearbody len. rewrite write_bytes_put by done. set (l := take (Z.to_nat len) src). intros [= <- <- <-].
  assert (El : Z.of_nat (length l) = len) by (unfold l; rewrite length_take; lia). rewrite get_bytes_length by lia.
  split; [by apply Z.mod_pos_bound|]. split; [done|].
  rewrite (ring_used_unique _ t (u + Z.of_nat (length l))) by (try lia; rewrite <- Hm, Zplus_mod_idemp_l; f_equal; lia).
  rewrite <- (put_bytes_mod PTY_BUF_SIZE h), <- Hm, Zmod_mod, put_bytes_mod. fold l. clearbody l. apply get_put_app; lia.
Qed.

Lemma ring_read_spec b h t len l t' : 0 <= h < PTY_BUF_SIZE -> 0 <= t < PTY_BUF_SIZE -> 0 <= len -> ring_read b h t PTY_BUF_SIZE len = (l, t') ->
  0 <= t' < PTY_BUF_SIZE /\ Z.of_nat (length l) = Z.min len (ring_used h t PTY_BUF_SIZE) /\
  get_bytes PTY_BUF_SIZE t (ring_used h t PTY_BUF_SIZE) b = l ++ get_bytes PTY_BUF_SIZE t' (ring_used h t' PTY_BUF_SIZE) b.
Proof.
  intros Hh Ht Hl. destruct (ring_used_mod h t Hh Ht) as (Hu & Hm & _). unfold ring_read. set (u := ring_used h t PTY_BUF_SIZE) in *.
  set (k := if _ <? _ then _ else _). assert (Hk : k = Z.min len u) by (unfold k; destruct (Z.ltb_spec u len); lia). clearbody k.
  rewrite read_bytes_get by done. rewrite Z2Nat.id by lia. intros [= <- <-]. rewrite get_bytes_length by lia.
  split; [by apply Z.mod_pos_bound|]. split; [lia|].
  rewrite (ring_used_unique h _ (u - k)); [|by apply Z.mod_pos_bound|lia|rewrite Zplus_mod_idemp_l, <- Hm; f_equal; lia].
  rewrite get_bytes_mod, <- get_bytes_app by lia. f_equal. lia.
Qed.

(** ** The specification of the line discipline

    [key ln ch] is the line after a key, and the line it finishes. *)

Definition key (ln : list Z) (ch : Z) : list (list Z) * list Z :=
  if erases ch then ([], removelast ln)
  else if Z.of_nat (length ln) <? PTY_BUF_SIZE - 1 then
    if ends_line ch then ([ln ++ [ch]], []) else ([], ln ++ [ch])
  else ([], ln).
Fixpoint edit (ln : list Z) (ks : list Z) : list (list Z) * list Z :=
  match ks with
  | [] => ([], ln)
  | ch :: ks => let '(f, ln) := key ln ch in let '(fs, ln) := edit ln ks in (f ++ fs, ln)
  end.

(** What the terminal shows for the keys. *)
Fixpoint echo (ln : list Z) (ks : list Z) : list Z :=
  match ks with
  | [] => []
  | ch :: ks =>
      (if erases ch then if bool_decide (ln = []) then [] else [0x08; 0x20; 0x08]
       else if Z.of_nat (length ln) <? PTY_BUF_SIZE - 1 then [ch] else []) ++ echo (key ln ch).2 ks
  end.

Lemma edit_app ln a b : edit ln (a ++ b) = ((edit ln a).1 ++ (edit (edit ln a).2 b).1, (edit (edit ln a).2 b).2).
Proof.
  revert ln. induction a as [|ch a IH]; intros ln; cbn [app edit fst snd]; [by destruct (edit ln b)|].
  destruct (key ln ch) as [f ln1]. rewrite (IH ln1). destruct (edit ln1 a) as [fs ln2]. cbn. by rewrite app_assoc.
Qed.

Record pty_ok (p : pty) : Prop := {
  ok_mh : 0 <= master_head p < PTY_BUF_SIZE;
  ok_mt : 0 <= master_tail p < PTY_BUF_SIZE;
  ok_sh : 0 <= slave_head p < PTY_BUF_SIZE;
  ok_st : 0 <= slave_tail p < PTY_BUF_SIZE;
  ok_line : 0 <= line_len p <= PTY_BUF_SIZE - 1
}.

Lemma line_length p : 0 <= line_len p -> Z.of_nat (length (line p)) = line_len p.
Proof. intros Hl. unfold line. rewrite length_fmap, length_seqZ. lia. Qed.

Lemma write_slave_spec src p : pty_ok p ->
  let p' := write_slave src p in
  pty_ok p' /\ master_contents p' = master_contents p /\ line p' = line p /\ line_len p' = line_len p /\
  slave_contents p' = slave_contents p ++ take (Z.to_nat (Z.min (Z.of_nat (length src)) (PTY_BUF_SIZE - 1 - Z.of_nat (length (slave_contents p))))) src /\
  (master_head p' = master_head p /\ master_tail p' = master_tail p).
Proof.
  intros [H1 H2 H3 H4 H5] p'. unfold p', write_slave. destruct (ring_write _ _ _ _ _) as [[b h] n] eqn:E.
  destruct (ring_write_spec _ _ _ _ _ _ _ H3 H4 E) as (Hh & -> & Hc). split; [by constructor|]. do 3 (split; [done|]). split; [exact Hc|done].
Qed.

Lemma write_master_spec src p : pty_ok p ->
  let p' := write_master src p in
  let n := Z.min (Z.of_nat (length src)) (PTY_BUF_SIZE - 1 - Z.of_nat (length (master_contents p))) in
  pty_ok p' /\ slave_contents p' = slave_contents p /\ line p' = line p /\ line_len p' = line_len p /\
  master_contents p' = master_contents p ++ take (Z.to_nat n) src.
Proof.
  intros [H1 H2 H3 H4 H5] p'. unfold p', write_master. destruct (ring_write _ _ _ _ _) as [[b h] n] eqn:E.
  destruct (ring_write_spec _ _ _ _ _ _ _ H1 H2 E) as (Hh & -> & Hc). split; [by constructor|]. do 3 (split; [done|]). exact Hc.
Qed.

(** Adding to and taking from the line. *)
Lemma line_add p ch : 0 <= line_len p -> line (p <| line_buf ::= store (line_len p) ch |> <| line_len ::= Z.succ |>) = line p ++ [ch].
Proof.
  intros Hl. unfold line. cbn. unfold Z.succ. rewrite seqZ_app, fmap_app by lia. f_equal.
  - apply list_fmap_ext. intros i x Hx%list_elem_of_lookup_2. apply elem_of_seqZ in Hx. rewrite load_store, decide_False by lia. done.
  - change (seqZ (0 + line_len p) 1) with [0 + (0 + line_len p)]. cbn [fmap list_fmap]. by rewrite load_store, decide_True by lia.
Qed.

Lemma line_drop p : 0 < line_len p -> line (p <| line_len ::= Z.pred |>) = removelast (line p).
Proof.
  intros Hl. unfold line. cbn. replace (line_len p) with (Z.pred (line_len p) + 1) at 2 by lia.
  rewrite seqZ_app, fmap_app by lia.
  change (seqZ (0 + Z.pred (line_len p)) 1) with [0 + (0 + Z.pred (line_len p))]. cbn [fmap list_fmap]. by rewrite removelast_last.
Qed.

Lemma master_key_spec p ch : pty_ok p ->
  let p' := master_key p ch in
  let '(f, ln) := key (line p) ch in
  pty_ok p' /\ line p' = ln /\ exists l, master_contents p' = master_contents p ++ l /\ l `sublist_of` concat f /\
    Z.of_nat (length (concat f)) = Z.of_nat (length l) + overflow p ch.
Proof.
  intros Hok p'. unfold p', master_key, key, overflow. pose proof Hok as [H1 H2 H3 H4 H5]. destruct (erases ch); cbn [negb andb].
  { destruct (Z.ltb_spec 0 (line_len p)).
    - destruct (write_slave_spec [0x08; 0x20; 0x08] (p <| line_len ::= Z.pred |>)) as (K1 & K2 & K3 & _); [constructor; cbn; lia|].
      split; [done|]. split; [by rewrite K3, line_drop|]. exists []. by rewrite app_nil_r, K2.
    - split; [done|]. assert (E : line p = []) by (unfold line; replace (line_len p) with 0 by lia; done). split; [by rewrite E|].
      exists []. by rewrite app_nil_r. }
  rewrite line_length by lia. destruct (Z.ltb_spec (line_len p) (PTY_BUF_SIZE - 1)) as [Hlt|Hge].
  2:{ rewrite andb_false_r. split; [done|]. split; [done|]. exists []. by rewrite app_nil_r. }
  rewrite andb_true_r. set (p1 := p <| line_buf ::= store (line_len p) ch |> <| line_len ::= Z.succ |>).
  assert (Hok1 : pty_ok p1) by (constructor; cbn; lia). pose proof (line_add p ch ltac:(lia)) as Eln. fold p1 in Eln.
  destruct (write_slave_spec [ch] p1 Hok1) as (K1 & K2 & K3 & K4 & _ & K5 & K6). destruct (ends_line ch).
  2:{ split; [done|]. split; [by rewrite K3|]. exists []. rewrite app_nil_r, K2. done. }
  destruct (write_master_spec (line (write_slave [ch] p1)) _ K1) as (L1 & _ & _ & _ & L5).
  set (p2 := write_master _ _) in *. clearbody p2. rewrite K3, Eln, K2 in L5. split; [destruct L1; constructor; cbn; unfold PTY_BUF_SIZE in *; lia|]. split; [done|].
  change (master_contents (p2 <| line_len := 0 |> <| line_ready := true |>)) with (master_contents p2). change (master_contents p1) with (master_contents p) in L5.
  rewrite L5. eexists. split; [done|]. cbn [concat]. rewrite app_nil_r. split; [apply sublist_take|].
  destruct (ring_used_mod _ _ H1 H2) as (Hu & _ & Hf). rewrite Hf. unfold master_contents. rewrite get_bytes_length by lia.
  rewrite length_take, length_app, Nat2Z.inj_min, Nat2Z.inj_add. pose proof (line_length p ltac:(lia)) as El. cbn [length]. lia.
Qed.

Lemma master_keys_spec ks : forall p, pty_ok p ->
  let p' := foldl master_key p ks in
  let '(f, ln) := edit (line p) ks in
  pty_ok p' /\ line p' = ln /\ exists l, master_contents p' = master_contents p ++ l /\ l `sublist_of` concat f /\
    Z.of_nat (length (concat f)) = Z.of_nat (length l) + overflows p ks.
Proof.
  induction ks as [|ch ks IH]; intros p Hok; cbn [foldl edit overflows]; [split; [done|]; split; [done|]; exists []; by rewrite app_nil_r|].
  pose proof (master_key_spec p ch Hok) as Hk. cbv zeta in Hk. destruct (key (line p) ch) as [f ln]. destruct Hk as (K1 & K2 & l & K3 & K4 & K5).
  specialize (IH (master_key p ch) K1). cbv zeta in IH. rewrite K2 in IH. destruct (edit ln ks) as [fs ln']. destruct IH as (I1 & I2 & l' & I3 & I4 & I5).
  split; [done|]. split; [done|]. exists (l ++ l'). rewrite I3, K3, <- app_assoc. split; [done|]. rewrite concat_app.
  split; [by apply sublist_app|]. rewrite !length_app. lia.
Qed.

(** ** All interleavings *)

Definition thread_ok (th : thread) : Prop :=
  match th with MasterRead r | SlaveRead r | SlaveSleep r => 0 < r | _ => True end.

Record inv (s : system) : Prop := {
  inv_pty : pty_ok (g_pty0 s);
  inv_threads : forall t th, threads s !! t = Some th -> thread_ok th;
  inv_line : line (g_pty0 s) = (edit [] (typed s)).2;
  inv_lines : input s ++ master_contents (g_pty0 s) `sublist_of` concat (edit [] (typed s)).1;
  inv_count : Z.of_nat (length (concat (edit [] (typed s)).1)) = Z.of_nat (length (input s ++ master_contents (g_pty0 s))) + dropped s
}.

Lemma to_read_min r avail : to_read r avail = Z.min (Z.min r avail) TMP_SIZE.
Proof.
  unfold to_read. destruct (Z.ltb_spec r avail).
  - destruct (Z.ltb_spec TMP_SIZE r); lia.
  - destruct (Z.ltb_spec TMP_SIZE avail); lia.
Qed.

Lemma to_read_nonneg r avail : 0 < r -> 0 < avail -> 0 <= Z.min (Z.min r avail) TMP_SIZE.
Proof. unfold TMP_SIZE. lia. Qed.

Lemma sublist_same {A} (l1 l2 : list A) : l1 `sublist_of` l2 -> (length l2 <= length l1)%nat -> l1 = l2.
Proof.
  induction 1 as [|x l1 l2 Hs IH|x l1 l2 Hs IH]; cbn; intros Hl; [done|f_equal; apply IH; lia|]. apply sublist_length in Hs. lia.
Qed.

Lemma master_read_spec r p p' res : pty_ok p -> 0 < r -> pty_master_read r p = (p', res) ->
  pty_ok p' /\ master_contents p' = master_contents p /\ line p' = line p.
Proof.
  intros [H1 H2 H3 H4 H5] Hr. unfold pty_master_read. destruct (Z.ltb_spec 0 (ring_used (slave_head p) (slave_tail p) PTY_BUF_SIZE)) as [Hu|Hu]; [|by intros [= <- <-]].
  destruct (ring_read _ _ _ _ _) as [tmp t] eqn:E. rewrite to_read_min in E.
  destruct (ring_read_spec _ _ _ _ _ _ H3 H4 (to_read_nonneg _ _ Hr Hu) E) as (Ht & _). intros [= <- <-]. split; [by constructor|done].
Qed.

Lemma slave_read_spec t r p p' res : pty_ok p -> 0 < r -> pty_slave_read t r p = (p', res) ->
  pty_ok p' /\ line p' = line p /\ master_contents p = default [] res ++ master_contents p' /\
  match res with Some l => l ≠ [] /\ Z.of_nat (length l) <= r | None => master_contents p = [] end.
Proof.
  intros [H1 H2 H3 H4 H5] Hr. unfold pty_slave_read. destruct (Z.ltb_spec 0 (ring_used (master_head p) (master_tail p) PTY_BUF_SIZE)) as [Hu|Hu].
  - destruct (ring_read _ _ _ _ _) as [tmp tl] eqn:E. rewrite to_read_min in E.
    destruct (ring_read_spec _ _ _ _ _ _ H1 H2 (to_read_nonneg _ _ Hr Hu) E) as (Ht & Hl & Hc). intros [= <- <-]. split; [by constructor|].
    split; [done|]. split; [exact Hc|]. unfold TMP_SIZE in *. split; [intros ->; cbn in Hl; lia|lia].
  - intros [= <- <-]. split; [by constructor|]. split; [done|]. destruct (ring_used_mod _ _ H1 H2) as [Hb _].
    assert (E : master_contents p = []) by (unfold master_contents; replace (ring_used _ _ _) with 0 by lia; done). split; [|done].
    change (master_contents p = [] ++ master_contents p). done.
Qed.

Lemma slave_write_spec tmp p p' n : pty_ok p -> pty_slave_write tmp p = (p', n) ->
  pty_ok p' /\ master_contents p' = master_contents p /\ line p' = line p.
Proof.
  intros [H1 H2 H3 H4 H5]. unfold pty_slave_write. destruct (ring_write _ _ _ _ _) as [[b h] k] eqn:E.
  destruct (ring_write_spec _ _ _ _ _ _ _ H3 H4 E) as (Hh & _). intros [= <- <-]. split; [by constructor|done].
Qed.

Lemma threads_insert (ths : gmap nat thread) t th : (forall t th, ths !! t = Some th -> thread_ok th) -> thread_ok th ->
  forall t' th', <[t := th]> ths !! t' = Some th' -> thread_ok th'.
Proof. intros Hi Ht t' th' [[-> <-]|[_ ?]]%lookup_insert_Some; [done|by eapply Hi]. Qed.

Lemma terminal_step_inv s s' : inv s -> step s s' -> inv s'.
Proof.
  intros [I1 I2 I3 I4 I5] Hst.
  assert (Hsame : forall ths p, (forall t th, ths !! t = Some th -> thread_ok th) -> pty_ok p -> line p = line (g_pty0 s) ->
    master_contents p = master_contents (g_pty0 s) -> inv (s <| threads := ths |> <| g_pty0 := p |>)).
  { intros ths p Ht Hp El Ec. constructor; cbn; rewrite ?El, ?Ec; done. }
  assert (Hth : forall ths, (forall t th, ths !! t = Some th -> thread_ok th) -> inv (s <| threads := ths |>)) by (intros ths Ht; by apply (Hsame ths (g_pty0 s))).
  destruct Hst as [t r p Ht E|t r p tmp Ht E|t r tmp Ht|t r tmp Ht|t r tmp Ht ? ?|t r Ht|t r tmp Ht|t r p Ht E|t r p tmp Ht E|t r Ht Hw|t r tmp Ht|t r tmp Ht|t r tmp Ht ? ?|t r Ht|t r tmp p n Ht E|t th r Hth' Hr Ht].
  all: try (apply Hth, threads_insert; done).
  - destruct (master_read_spec _ _ _ _ I1 (I2 _ _ Ht) E) as (? & ? & ?). apply Hsame; [by apply threads_insert|done..].
  - destruct (master_read_spec _ _ _ _ I1 (I2 _ _ Ht) E) as (? & ? & ?). apply Hsame; [by apply threads_insert|done..].
  - pose proof (master_keys_spec tmp (g_pty0 s) I1) as Hk. cbv zeta in Hk. rewrite I3 in Hk.
    pose proof (edit_app [] (typed s) tmp) as Ea. destruct (edit (edit [] (typed s)).2 tmp) as [f ln] eqn:Ef. cbn [fst snd] in Ea.
    destruct Hk as (K1 & K2 & l & K3 & K4 & K5). constructor; cbn; rewrite ?Ea; cbn [fst snd].
    + destruct K1. by constructor.
    + by apply threads_insert.
    + exact K2.
    + unfold pty_master_write, master_contents. cbn. fold (master_contents (foldl master_key (g_pty0 s) tmp)). rewrite K3, app_assoc, concat_app. by apply sublist_app.
    + unfold pty_master_write, master_contents. cbn. fold (master_contents (foldl master_key (g_pty0 s) tmp)). rewrite K3, concat_app, !length_app in *. lia.
  - destruct (slave_read_spec _ _ _ _ _ I1 (I2 _ _ Ht) E) as (? & ? & Ec & ?). apply Hsame; [apply threads_insert; [done|exact (I2 t _ Ht)]|done..].
  - destruct (slave_read_spec _ _ _ _ _ I1 (I2 _ _ Ht) E) as (? & El & Ec & ?). cbn in Ec. constructor; cbn; rewrite ?El; try done; [by apply threads_insert|..].
    + by rewrite <- app_assoc, <- Ec.
    + by rewrite <- app_assoc, <- Ec.
  - apply Hth, threads_insert; [done|]. exact (I2 t _ Ht).
  - destruct (slave_write_spec _ _ _ _ I1 E) as (? & ? & ?). apply Hsame; [by apply threads_insert|done..].
  - apply Hth, threads_insert; [done|]. by destruct Hth' as [->|[->|[->| ->]]].
Qed.

Lemma reachable_inv p s : rtc step (initial p) s -> inv s.
Proof.
  apply (rtc_ind_r (fun s => inv s)); [|intros ? ? _ ? ?; by eapply terminal_step_inv].
  constructor; [constructor; cbn; unfold PTY_BUF_SIZE; lia|done..].
Qed.

(** C18: The shell reads the lines that were typed.  However reads and writes
    of any number of threads on both sides interleave, the bytes handed to
    readers of the slave side, followed by those still in the ring, come from
    the finished lines of the keys typed, edited as the line discipline
    specifies, in their order, none twice.  They are exactly these lines when
    every finished line found room, and otherwise exactly the bytes counted
    as dropped are missing.  The line being edited is that of the
    specification, and the ring holds less than 4096 bytes. *)
Theorem terminal_lines p s : rtc step (initial p) s ->
  let '(lines, ln) := edit [] (typed s) in
  let given := input s ++ master_contents (g_pty0 s) in
  line (g_pty0 s) = ln /\ given `sublist_of` concat lines /\
  Z.of_nat (length given) = Z.of_nat (length (concat lines)) - dropped s /\
  (dropped s = 0 -> given = concat lines) /\ Z.of_nat (length (master_contents (g_pty0 s))) < PTY_BUF_SIZE.
Proof.
  intros Hs. destruct (reachable_inv p s Hs) as [[H1 H2 H3 H4 H5] _ I3 I4 I5]. destruct (edit [] (typed s)) as [lines ln]. cbn [fst snd] in *.
  cbv zeta. split; [done|]. split; [done|]. split; [lia|]. split.
  - intros E0. rewrite E0, Z.add_0_r in I5. apply sublist_same; [done|lia].
  - destruct (ring_used_mod _ _ H1 H2) as [Hu _]. unfold master_contents. rewrite get_bytes_length; lia.
Qed.

(** ** The screen *)

Lemma master_key_echo p ch : pty_ok p -> Z.of_nat (length (slave_contents p)) + 3 < PTY_BUF_SIZE ->
  slave_contents (master_key p ch) = slave_contents p ++ echo (line p) [ch].
Proof.
  intros Hok Hroom. unfold master_key. cbn [echo]. rewrite app_nil_r. pose proof Hok as [H1 H2 H3 H4 H5]. pose proof (line_length p ltac:(lia)) as El.
  destruct (erases ch).
  { destruct (Z.ltb_spec 0 (line_len p)).
    - rewrite bool_decide_false by (intros E; rewrite E in El; cbn in El; lia).
      destruct (write_slave_spec [0x08; 0x20; 0x08] (p <| line_len ::= Z.pred |>)) as (_ & _ & _ & _ & Ec & _); [constructor; cbn; lia|].
      rewrite Ec. change (slave_contents (p <| line_len ::= Z.pred |>)) with (slave_contents p). rewrite Z.min_l by (cbn; unfold PTY_BUF_SIZE in *; lia). done.
    - rewrite bool_decide_true by (apply nil_length_inv; lia). by rewrite app_nil_r. }
  rewrite El. destruct (Z.ltb_spec (line_len p) (PTY_BUF_SIZE - 1)); [|by rewrite app_nil_r].
  set (p1 := p <| line_buf ::= store (line_len p) ch |> <| line_len ::= Z.succ |>). assert (Hok1 : pty_ok p1) by (constructor; cbn; lia).
  destruct (write_slave_spec [ch] p1 Hok1) as (K1 & _ & _ & _ & Ec & _). change (slave_contents p1) with (slave_contents p) in Ec.
  rewrite Z.min_l in Ec by (cbn; unfold PTY_BUF_SIZE in *; lia). cbn in Ec. destruct (ends_line ch); [|done].
  destruct (write_master_spec (line (write_slave [ch] p1)) _ K1) as (_ & K2 & _). etrans; [|exact Ec]. exact K2.
Qed.

(** While the screen has room, what is shown for the keys is their echo: each
    key that enters the line, and an erased blank for each key that leaves
    it. *)
Theorem terminal_echo ks : forall p, pty_ok p -> Z.of_nat (length (slave_contents p)) + 3 * Z.of_nat (length ks) < PTY_BUF_SIZE ->
  slave_contents (foldl master_key p ks) = slave_contents p ++ echo (line p) ks.
Proof.
  induction ks as [|ch ks IH]; intros p Hok Hroom; cbn [foldl]; [by rewrite app_nil_r|]. cbn [length] in Hroom.
  pose proof (master_key_echo p ch Hok ltac:(lia)) as Ek. pose proof (master_key_spec p ch Hok) as Hk. cbv zeta in Hk.
  destruct (key (line p) ch) as [f ln] eqn:Eq. destruct Hk as (K1 & K2 & _).
  assert (Hlen : (length (echo (line p) [ch]) <= 3)%nat) by (cbn [echo]; rewrite app_nil_r; repeat case_match; cbn; lia).
  rewrite IH; [|done|rewrite Ek, length_app; lia]. rewrite Ek, K2, <- app_assoc. f_equal. cbn [echo]. rewrite Eq, app_nil_r. done.
Qed.

(** ** A line that is too long *)

Definition printing (ch : Z) : Prop := erases ch = false /\ ends_line ch = false.

Lemma edit_printing ks : forall ln, Forall printing ks -> Z.of_nat (length ln) + Z.of_nat (length ks) < PTY_BUF_SIZE ->
  edit ln ks = ([], ln ++ ks).
Proof.
  induction ks as [|ch ks IH]; intros ln Hk Hl; cbn [edit]; [by rewrite app_nil_r|]. apply Forall_cons in Hk as [[E1 E2] Hk]. cbn [length] in Hl.
  unfold key. rewrite E1, E2. destruct (Z.ltb_spec (Z.of_nat (length ln)) (PTY_BUF_SIZE - 1)); [|lia].
  rewrite IH by (done || (rewrite length_app; cbn; lia)). by rewrite <- app_assoc.
Qed.

Lemma edit_full ks : forall ln, Forall (fun ch => erases ch = false) ks -> PTY_BUF_SIZE - 1 <= Z.of_nat (length ln) -> edit ln ks = ([], ln).
Proof.
  induction ks as [|ch ks IH]; intros ln Hk Hl; cbn [edit]; [done|]. apply Forall_cons in Hk as [E1 Hk]. unfold key. rewrite E1.
  rewrite (proj2 (Z.ltb_ge _ _)) by done. by rewrite IH.
Qed.

(** A line that fills the line buffer cannot be finished.  After 4095
    characters the end of the line has no room left and is dropped like every
    other key: whatever is typed from then on, without erasing, no byte
    reaches the shell and the line stays as it is. *)
Theorem terminal_line_stuck p ks ks' : pty_ok p -> line p = [] -> Forall printing ks -> length ks = 4095%nat ->
  Forall (fun ch => erases ch = false) ks' ->
  let p' := foldl master_key p (ks ++ ks') in
  master_contents p' = master_contents p /\ line p' = ks.
Proof.
  intros Hok El Hk Hl Hk'. cbv zeta. pose proof (master_keys_spec (ks ++ ks') p Hok) as Hm. cbv zeta in Hm. rewrite El, edit_app in Hm.
  rewrite (edit_printing ks []) in Hm by (done || (rewrite Hl; done)). cbn [fst snd app] in Hm.
  rewrite (edit_full ks' ks) in Hm by (done || (rewrite Hl; done)). destruct Hm as (_ & Hln & l & Hc & Hs & _). split; [|done].
  cbn in Hs. apply sublist_nil_r in Hs as ->. by rewrite Hc, app_nil_r.
Qed.

(** ** Examples *)

Definition unused : pty := {| master_buf := ∅; master_head := 0; master_tail := 0; slave_buf := ∅; slave_head := 0; slave_tail := 0;
  line_buf := ∅; line_len := 0; line_ready := false; master_wq := []; slave_wq := [] |}.

(** A reader waits; [ls] is typed with a correction, and the reader gets the line. *)
Definition demo_keys : list Z := [108; 116; 8; 115; 10].
Lemma terminal_lines_witness : exists s, rtc step (initial unused) s /\ input s = [108; 115; 10] /\
  input s ++ master_contents (g_pty0 s) = concat (edit [] demo_keys).1.
Proof.
  assert (Hs : exists s, rtc step (initial unused) s /\ input s = [108; 115; 10] /\ typed s = demo_keys /\ dropped s = 0).
  { eexists. split; [|split; [|split]].
    - eapply rtc_l; [apply (call _ 1 (SlaveRead 100) 100); [tauto|lia|by left]|].
      eapply rtc_l; [eapply (slave_read_none _ 1 100); [reflexivity|vm_compute; reflexivity]|].
      eapply rtc_l; [apply (call _ 2 (MasterCopyin 5) 5); [tauto|lia|by left]|].
      eapply rtc_l; [eapply (master_copied_in _ 2 5 demo_keys); [reflexivity|reflexivity|by repeat constructor]|].
      eapply rtc_l; [eapply (master_written _ 2 5 demo_keys); reflexivity|].
      eapply rtc_l; [eapply (slave_wake _ 1 100); [reflexivity|vm_compute; apply not_elem_of_nil]|].
      eapply rtc_l; [eapply (slave_read_some _ 1 100 _ [108; 115; 10]); [reflexivity|vm_compute; reflexivity]|]. apply rtc_refl.
    - reflexivity.
    - reflexivity.
    - vm_compute. reflexivity. }
  destruct Hs as (s & Hs & Hi & Ht & Hd). exists s. split; [exact Hs|]. split; [exact Hi|].
  pose proof (terminal_lines unused s Hs) as H. rewrite Ht in H. destruct (edit [] demo_keys) as [lines ln]. destruct H as (_ & _ & _ & H & _). exact (H Hd).
Defined.

Lemma terminal_line_stuck_witness : master_contents (foldl master_key unused (replicate 4095 97 ++ [10])) = [].
Proof.
  refine (proj1 (terminal_line_stuck unused (replicate 4095 97) [10] _ eq_refl _ _ _)).
  - constructor; vm_compute; split; (discriminate || reflexivity).
  - apply Forall_replicate. split; reflexivity.
  - apply length_replicate.
  - repeat constructor.
Defined.
End Pty.
