(* ===== verification/Fileproc.v ===== *)
(** * File descriptors

    Model of [kernel/bsd/fileproc.c], of the descriptor inheritance and
    teardown in [kernel/bsd/proc.c] and of [dup2] in [kernel/bsd/syscall.c]:
    reference-counted open files, allocated from a static pool or from the
    heap, and the descriptor tables of all processes.  Each critical section
    is one transition; what happens between them may interleave. *)

From stdpp Require Import relations.
From S2P Require Import Prelude.

(** Open files live in the static pool or on the heap. *)
Inductive fptr := Pool (i : nat) | Heap (a : Z).

#[global] Instance fptr_eq_dec : EqDecision fptr.
Proof. solve_decision. Defined.

#[global] Program Instance fptr_countable : Countable fptr :=
  inj_countable' (fun p => match p with Pool i => inl i | Heap a => inr a end)
                 (fun s => match s with inl i => Pool i | inr a => Heap a end) _.
Next Obligation. by intros []. Qed.

Module Fileproc.

Definition FILEPROC_POOL_SIZE : nat := 512.
Definition CHIMERA_PROC_MAX_FDS : Z := 256.
Definition CHIMERA_FILEPROC_MAGIC : Z := 0x4644455343522121.
Definition DEAD_SIGNATURE : Z := 0xDEADDEADDEADDEAD.
Definition FP_READABLE : Z := 2 ^ 2.
Definition FP_WRITABLE : Z := 2 ^ 3.
Definition FP_DEVICE : Z := 2 ^ 5.
Definition FP_DYNAMIC_ALLOC : Z := 2 ^ 31.
Definition DTYPE_VNODE : Z := 1.
Definition DTYPE_SOCKET : Z := 2.
Definition DTYPE_PIPE : Z := 3.
Definition FD_CLOEXEC : Z := 1.

Record chimera_fileproc := {
  fp_signature : Z;
  fp_flags : Z;
  fp_type : Z;
  fp_refcount : Z;
  fp_data : option nat;           (* fp_vnode or fp_socket *)
  fp_offset : Z
}.
#[global] Instance chimera_fileproc_eta : Eta chimera_fileproc := fun r =>
  {| fp_signature := fp_signature r; fp_flags := fp_flags r; fp_type := fp_type r; fp_refcount := fp_refcount r;
     fp_data := fp_data r; fp_offset := fp_offset r |}.

(** The tables of all processes are one map from process and descriptor. *)
Record files := {
  s_fp_used : gset nat;
  heap : gset Z;                  (* open files on the heap *)
  objs : gmap fptr chimera_fileproc;
  p_fd_table : gmap (nat * Z) fptr;
  p_fd_flags : gmap (nat * Z) Z;
  v_iocount : gmap nat Z;
  closed_sockets : list nat       (* newest first *)
}.
#[global] Instance files_eta : Eta files := fun r =>
  {| s_fp_used := s_fp_used r; heap := heap r; objs := objs r; p_fd_table := p_fd_table r; p_fd_flags := p_fd_flags r;
     v_iocount := v_iocount r; closed_sockets := closed_sockets r |}.

Implicit Types s : files.

(** ** Open files *)

(** The first free slot of the pool, else what [kalloc] returns ([ka]). *)
Definition fp_slot (ka : option Z) (s : files) : files * option fptr :=
  match list_find (fun i => i ∉ s_fp_used s) (seq 0 FILEPROC_POOL_SIZE) with
  | Some (_, i) => (s <| s_fp_used ::= union {[i]} |>, Some (Pool i))
  | None => match ka with
            | Some a => (s <| heap ::= union {[a]} |>, Some (Heap a))
            | None => (s, None)
            end
  end.

Definition is_heap (p : fptr) : bool := match p with Pool _ => false | Heap _ => true end.

Definition fp_alloc (vp : nat) (device : bool) (flags : Z) (ka : option Z) (s : files) : files * option fptr :=
  match fp_slot ka s with
  | (s, None) => (s, None)
  | (s, Some fp) =>
      let fl := Z.lor flags FP_READABLE in
      let fl := if is_heap fp then Z.lor fl FP_DYNAMIC_ALLOC else fl in
      let fl := if has flags FP_WRITABLE then Z.lor fl FP_WRITABLE else fl in
      let fl := if device then Z.lor fl FP_DEVICE else fl in
      let o := {| fp_signature := CHIMERA_FILEPROC_MAGIC; fp_flags := fl; fp_type := DTYPE_VNODE; fp_refcount := 1;
                  fp_data := Some vp; fp_offset := 0 |} in
      (s <| objs ::= <[fp := o]> |> <| v_iocount ::= fun m => <[vp := u32 (default 0 (m !! vp) + 1)]> m |>, Some fp)
  end.

Definition fp_alloc_socket (so : nat) (flags : Z) (ka : option Z) (s : files) : files * option fptr :=
  match fp_slot ka s with
  | (s, None) => (s, None)
  | (s, Some fp) =>
      let fl := Z.lor (Z.lor flags FP_READABLE) FP_WRITABLE in
      let fl := if is_heap fp then Z.lor fl FP_DYNAMIC_ALLOC else fl in
      let o := {| fp_signature := CHIMERA_FILEPROC_MAGIC; fp_flags := fl; fp_type := DTYPE_SOCKET; fp_refcount := 1;
                  fp_data := Some so; fp_offset := 0 |} in
      (s <| objs ::= <[fp := o]> |>, Some fp)
  end.

Definition fp_retain (fp : fptr) (s : files) : files :=
  s <| objs ::= alter (fun o => o <| fp_refcount ::= fun n => u32 (n + 1) |>) fp |>.

(** The resource of an open file that is going away. *)
Definition drop_resource (o : chimera_fileproc) (s : files) : files :=
  match fp_data o with
  | None => s
  | Some d => if fp_type o =? DTYPE_SOCKET then s <| closed_sockets ::= cons d |>
              else s <| v_iocount ::= fun m => let n := default 0 (m !! d) in if 0 <? n then <[d := n - 1]> m else m |>
  end.

(** [None] is a failed assertion, or the use of a file that was freed. *)
Definition fp_release (fp : fptr) (s : files) : option files :=
  o ← objs s !! fp;
  if negb (fp_signature o =? CHIMERA_FILEPROC_MAGIC) then None else
  let prev := fp_refcount o in
  let o := o <| fp_refcount := u32 (prev - 1) |> in
  if 1 <? prev then Some (s <| objs ::= <[fp := o]> |>) else
  let s := drop_resource o s in
  let is_dyn := has (fp_flags o) FP_DYNAMIC_ALLOC in
  let o := o <| fp_data := None |> <| fp_signature := DEAD_SIGNATURE |> in
  match is_dyn, fp with
  | true, Heap a => Some (s <| objs ::= delete fp |> <| heap ::= fun h => h ∖ {[a]} |>)
  | true, Pool _ => None
  | false, Pool i => Some (s <| objs ::= <[fp := o]> |> <| s_fp_used ::= fun u => u ∖ {[i]} |>)
  | false, Heap _ => Some (s <| objs ::= <[fp := o]> |>)
  end.

(** ** Descriptor tables *)

Definition fd_range (fd : Z) : bool := (0 <=? fd) && (fd <? CHIMERA_PROC_MAX_FDS).

(** The scan for a free descriptor. *)
Definition find_fd (p : nat) (min_fd : Z) (s : files) : option Z :=
  snd <$> list_find (fun i => p_fd_table s !! (p, i) = None) (seqZ min_fd (CHIMERA_PROC_MAX_FDS - min_fd)).

Definition proc_fd_alloc_from (p : nat) (fp : fptr) (min_fd : Z) (s : files) : files * Z :=
  let min_fd := if min_fd <? 0 then 0 else min_fd in
  if CHIMERA_PROC_MAX_FDS <=? min_fd then (s, -1) else
  match find_fd p min_fd s with
  | Some i => ((fp_retain fp s) <| p_fd_table ::= <[(p, i) := fp]> |> <| p_fd_flags ::= <[(p, i) := 0]> |>, i)
  | None => (s, -1)
  end.

Definition proc_fd_install (p : nat) (fp : fptr) (s : files) : files * Z := proc_fd_alloc_from p fp 0 s.

Definition proc_fd_lookup (p : nat) (fd : Z) (s : files) : files * option fptr :=
  if negb (fd_range fd) then (s, None) else
  match p_fd_table s !! (p, fd) with
  | Some fp => (fp_retain fp s, Some fp)
  | None => (s, None)
  end.

Definition proc_fd_get_flags (p : nat) (fd : Z) (s : files) : Z :=
  if negb (fd_range fd) then 0 else
  match p_fd_table s !! (p, fd) with Some _ => default 0 (p_fd_flags s !! (p, fd)) | None => 0 end.

Definition proc_fd_set_flags (p : nat) (fd flags : Z) (s : files) : files :=
  if negb (fd_range fd) then s else
  match p_fd_table s !! (p, fd) with Some _ => s <| p_fd_flags ::= <[(p, fd) := flags]> |> | None => s end.

Definition clear_fd (p : nat) (fd : Z) (s : files) : files :=
  s <| p_fd_table ::= delete (p, fd) |> <| p_fd_flags ::= <[(p, fd) := 0]> |>.

Definition proc_fd_close (p : nat) (fd : Z) (s : files) : option (files * chimera_error) :=
  if negb (fd_range fd) then Some (s, CHIMERA_ERR_INVALID) else
  match p_fd_table s !! (p, fd) with
  | None => Some (s, CHIMERA_ERR_INVALID)
  | Some fp => s ← fp_release fp (clear_fd p fd s); Some (s, CHIMERA_SUCCESS)
  end.

(** One round of the loop of [proc_fd_close_cloexec]. *)
Definition close_if_cloexec (p : nat) (s : files) (fd : Z) : option files :=
  match p_fd_table s !! (p, fd) with
  | Some fp => if has (default 0 (p_fd_flags s !! (p, fd))) FD_CLOEXEC
               then fp_release fp (clear_fd p fd s) else Some s
  | None => Some s
  end.
Definition proc_fd_close_cloexec (p : nat) (s : files) : option files :=
  foldl (fun acc fd => s ← acc; close_if_cloexec p s fd) (Some s) (seqZ 0 CHIMERA_PROC_MAX_FDS).

(** Closing everything when a process exits; the flags stay. *)
Definition exit_fd (p : nat) (s : files) (fd : Z) : option files :=
  match p_fd_table s !! (p, fd) with
  | Some fp => fp_release fp (s <| p_fd_table ::= delete (p, fd) |>)
  | None => Some s
  end.
Definition proc_mark_exited_fds (p : nat) (s : files) : option files :=
  foldl (fun acc fd => s ← acc; exit_fd p s fd) (Some s) (seqZ 0 CHIMERA_PROC_MAX_FDS).

(** A child inherits the descriptors of its parent. *)
Definition inherit_fd (parent p : nat) (s : files) (fd : Z) : files :=
  match p_fd_table s !! (parent, fd) with
  | Some fp => (fp_retain fp s) <| p_fd_table ::= <[(p, fd) := fp]> |>
                 <| p_fd_flags ::= <[(p, fd) := default 0 (p_fd_flags s !! (parent, fd))]> |>
  | None => s
  end.
Definition proc_create_fds (parent p : nat) (s : files) : files :=
  foldl (inherit_fd parent p) s (seqZ 0 CHIMERA_PROC_MAX_FDS).

(** The last step of [sys_dup2], after [proc_fd_lookup] of the old and
    [proc_fd_close] of the new descriptor. *)
Definition dup2_store (p : nat) (newfd : Z) (old_fp : fptr) (s : files) : files :=
  s <| p_fd_table ::= <[(p, newfd) := old_fp]> |>.

Definition sys_dup2 (p : nat) (oldfd newfd : Z) (s : files) : option (files * Z) :=
  if negb (fd_range oldfd) || negb (fd_range newfd) then Some (s, -1) else
  if oldfd =? newfd then Some (s, newfd) else
  match proc_fd_lookup p oldfd s with
  | (s, None) => Some (s, -1)
  | (s, Some old_fp) =>
      '(s, _) ← proc_fd_close p newfd s;
      Some (dup2_store p newfd old_fp s, newfd)
  end.

(** [F_DUPFD] of [sys_fcntl], [start] already checked. *)
Definition fcntl_dupfd (p : nat) (fd start : Z) (s : files) : files * Z :=
  match p_fd_table s !! (p, fd) with
  | None => (s, -1)
  | Some fp => match find_fd p start s with
               | Some newfd => ((fp_retain fp s) <| p_fd_table ::= <[(p, newfd) := fp]> |>, newfd)
               | None => (s, -1)
               end
  end.

(** ** Reference accounting

    [held] are the references of running system calls, [leaked] those nobody
    will give back. *)

Definition bump (f : fptr -> Z) (fp : fptr) (k : Z) : fptr -> Z := fun x => f x + if decide (x = fp) then k else 0.

Definition live (s : files) (fp : fptr) (o : chimera_fileproc) : Prop :=
  objs s !! fp = Some o /\ fp_signature o = CHIMERA_FILEPROC_MAGIC.

Record FInv (s : files) (held leaked : fptr -> Z) : Prop := {
  fi_nonneg : forall fp, 0 <= held fp /\ 0 <= leaked fp;
  fi_count : forall fp o, live s fp o ->
    fp_refcount o = mcount (p_fd_table s) fp + held fp + leaked fp /\ 0 < fp_refcount o < 2 ^ 32;
  fi_live : forall fp, 0 < mcount (p_fd_table s) fp + held fp + leaked fp -> exists o, live s fp o;
  fi_pool : forall i, i ∈ s_fp_used s <-> exists o, live s (Pool i) o;
  fi_heap : forall a, a ∈ heap s <-> exists o, live s (Heap a) o;
  fi_dyn : forall fp o, live s fp o -> has (fp_flags o) FP_DYNAMIC_ALLOC = is_heap fp
}.

Lemma live_inj s fp o o' : live s fp o -> live s fp o' -> o = o'.
Proof. intros [H1 _] [H2 _]. congruence. Qed.

Lemma live_refs s h l fp : FInv s h l -> (exists o, live s fp o) \/ mcount (p_fd_table s) fp = 0 /\ h fp = 0 /\ l fp = 0.
Proof.
  intros HI. pose proof (fi_nonneg _ _ _ HI fp). pose proof (mcount_nonneg (p_fd_table s) fp).
  destruct (decide (0 < mcount (p_fd_table s) fp + h fp + l fp)); [left; by apply (fi_live _ _ _ HI)|right; lia].
Qed.

(** References only move from one place to another. *)
Lemma FInv_move s h l s' h' l' : FInv s h l ->
  objs s' = objs s -> s_fp_used s' = s_fp_used s -> heap s' = heap s ->
  (forall x, mcount (p_fd_table s') x + h' x + l' x = mcount (p_fd_table s) x + h x + l x) ->
  (forall x, 0 <= h' x /\ 0 <= l' x) -> FInv s' h' l'.
Proof.
  intros [H1 H2 H3 H4 H5 H6] Eo Eu Eh Hs Hn. assert (El : forall x o, live s' x o <-> live s x o) by (intros; unfold live; by rewrite Eo).
  constructor; try done.
  - intros x o Ho%El. rewrite Hs. by apply H2.
  - intros x. rewrite Hs. intros (o & Ho)%H3. exists o. by apply El.
  - intros i. rewrite Eu, H4. by setoid_rewrite El.
  - intros a. rewrite Eh, H5. by setoid_rewrite El.
  - intros x o Ho%El. by apply H6.
Qed.

Ltac bumps := intros; unfold bump; repeat case_decide; subst; try congruence; try lia.

(** A held reference is put into a free descriptor, and taken out again. *)
Lemma move_in s h l fp k s' : FInv s h l -> 0 < h fp -> p_fd_table s !! k = None ->
  p_fd_table s' = <[k := fp]> (p_fd_table s) -> objs s' = objs s -> s_fp_used s' = s_fp_used s -> heap s' = heap s ->
  FInv s' (bump h fp (-1)) l.
Proof.
  intros HI Hh Hk Et Eo Eu Eh. pose proof (fi_nonneg _ _ _ HI) as Hn. apply (FInv_move s h l); try done.
  - intros x. rewrite Et, mcount_insert by done. bumps.
  - intros x. specialize (Hn x). bumps.
Qed.

Lemma move_out s h l fp k s' : FInv s h l -> p_fd_table s !! k = Some fp ->
  p_fd_table s' = delete k (p_fd_table s) -> objs s' = objs s -> s_fp_used s' = s_fp_used s -> heap s' = heap s ->
  FInv s' (bump h fp 1) l.
Proof.
  intros HI Hk Et Eo Eu Eh. pose proof (fi_nonneg _ _ _ HI) as Hn. apply (FInv_move s h l); try done.
  - intros x. rewrite Et, (mcount_delete _ _ _ _ Hk). bumps.
  - intros x. specialize (Hn x). bumps.
Qed.

(** A reference nobody holds any more. *)
Lemma move_leak s h l fp : FInv s h l -> 0 < h fp -> FInv s (bump h fp (-1)) (bump l fp 1).
Proof.
  intros HI Hh. pose proof (fi_nonneg _ _ _ HI) as Hn. apply (FInv_move s h l); try done; intros x; specialize (Hn x); bumps.
Qed.

Lemma FInv_ext s h l h' l' : (forall x, h' x = h x) -> (forall x, l' x = l x) -> FInv s h l -> FInv s h' l'.
Proof.
  intros Eh El HI. pose proof (fi_nonneg _ _ _ HI) as Hn. apply (FInv_move s h l); try done; intros x; rewrite Eh, El; [lia|apply Hn].
Qed.

(** The file of a reference, and the change of one file's count. *)
Lemma FInv_retain s h l fp : FInv s h l -> 0 < mcount (p_fd_table s) fp + h fp + l fp ->
  (forall o, objs s !! fp = Some o -> fp_refcount o + 1 < 2 ^ 32) -> FInv (fp_retain fp s) (bump h fp 1) l.
Proof.
  intros HI Hp Hroom. pose proof HI as [H1 H2 H3 H4 H5 H6]. destruct (H3 fp Hp) as (o0 & Ho0 & Hs0). specialize (Hroom o0 Ho0).
  destruct (H2 fp o0 (conj Ho0 Hs0)) as [Hc Hb].
  assert (El : forall x o, live (fp_retain fp s) x o <-> exists o', live s x o' /\ o = if decide (x = fp) then o' <| fp_refcount ::= fun n => u32 (n + 1) |> else o').
  { intros x o. unfold live. cbn. destruct (decide (x = fp)) as [->|N].
    - rewrite lookup_alter_eq, Ho0. cbn. split; [intros [[= <-] E]; by exists o0|]. intros (o' & [[= <-] E] & ->). done.
    - rewrite lookup_alter_ne by done. naive_solver. }
  assert (Ex : forall x, (exists o, live (fp_retain fp s) x o) <-> exists o, live s x o).
  { intros x. setoid_rewrite El. split; [intros (? & o & ? & _); eauto|intros (o & ?); eauto]. }
  constructor.
  - intros x. specialize (H1 x). bumps.
  - intros x o (o' & Ho' & ->)%El. destruct (H2 x o' Ho') as [Hc' Hb']. cbn [p_fd_table fp_retain]. change (p_fd_table (fp_retain fp s)) with (p_fd_table s).
    unfold bump. case_decide as E; [subst x|lia]. assert (o' = o0) as -> by (eapply live_inj; [done|by split]). cbn. rewrite u32_id by lia. lia.
  - intros x Hx. apply Ex. change (p_fd_table (fp_retain fp s)) with (p_fd_table s) in Hx. unfold bump in Hx. case_decide; [subst; eauto|].
    apply H3. lia.
  - intros i. change (s_fp_used (fp_retain fp s)) with (s_fp_used s). by rewrite H4, Ex.
  - intros a. change (heap (fp_retain fp s)) with (heap s). by rewrite H5, Ex.
  - intros x o (o' & Ho' & ->)%El. rewrite <- (H6 x o' Ho'). by case_decide.
Qed.

Lemma drop_resource_same o s :
  let s' := drop_resource o s in
  objs s' = objs s /\ s_fp_used s' = s_fp_used s /\ heap s' = heap s /\ p_fd_table s' = p_fd_table s /\ p_fd_flags s' = p_fd_flags s.
Proof. cbv zeta. unfold drop_resource. destruct (fp_data o); [|done]. by destruct (fp_type o =? DTYPE_SOCKET). Qed.

(** The last reference of a file goes away with the file. *)
Lemma FInv_dead s h l fp s' : FInv s h l -> h fp = 1 -> mcount (p_fd_table s) fp = 0 -> l fp = 0 ->
  (forall x o, live s' x o <-> live s x o /\ x ≠ fp) -> p_fd_table s' = p_fd_table s ->
  (forall i, i ∈ s_fp_used s' <-> i ∈ s_fp_used s /\ Pool i ≠ fp) -> (forall a, a ∈ heap s' <-> a ∈ heap s /\ Heap a ≠ fp) ->
  FInv s' (bump h fp (-1)) l.
Proof.
  intros [H1 H2 H3 H4 H5 H6] Hh Hm Hl El Et Eu Eh. constructor.
  - intros x. specialize (H1 x). bumps.
  - intros x o [Ho Hne]%El. rewrite Et. unfold bump. rewrite decide_False by done. rewrite Z.add_0_r. by apply H2.
  - intros x. rewrite Et. unfold bump. case_decide; [subst; lia|]. rewrite Z.add_0_r. intros (o & Ho)%H3. exists o. by apply El.
  - intros i. rewrite Eu, H4. setoid_rewrite El. naive_solver.
  - intros a. rewrite Eh, H5. setoid_rewrite El. naive_solver.
  - intros x o [Ho _]%El. by apply H6.
Qed.

Lemma FInv_release s h l fp : FInv s h l -> 0 < h fp ->
  exists s', fp_release fp s = Some s' /\ FInv s' (bump h fp (-1)) l /\ p_fd_table s' = p_fd_table s /\ p_fd_flags s' = p_fd_flags s.
Proof.
  intros HI Hh. pose proof HI as [H1 H2 H3 H4 H5 H6]. pose proof (mcount_nonneg (p_fd_table s) fp) as Hm. destruct (H1 fp) as [_ Hl].
  destruct (H3 fp ltac:(lia)) as (o & Ho). destruct (H2 fp o Ho) as [Hc Hb]. pose proof (H6 fp o Ho) as Hd. pose proof Ho as [Ho0 Hs0].
  unfold fp_release. rewrite Ho0. cbn [mbind option_bind]. rewrite Hs0, Z.eqb_refl. cbn [negb]. rewrite u32_id by lia.
  destruct (Z.ltb_spec 1 (fp_refcount o)) as [Hlt|Hle].
  - eexists. split; [done|]. split; [|done]. set (o' := o <| fp_refcount := fp_refcount o - 1 |>).
    assert (El : forall x y, live (s <| objs ::= <[fp := o']> |>) x y <-> (if decide (x = fp) then y = o' else live s x y)).
    { intros x y. unfold live. cbn. case_decide; [subst; rewrite lookup_insert_eq; naive_solver|by rewrite lookup_insert_ne]. }
    assert (Ex : forall x, (exists y, live (s <| objs ::= <[fp := o']> |>) x y) <-> exists y, live s x y).
    { intros x. setoid_rewrite El. case_decide; [subst; naive_solver|done]. }
    constructor; cbn.
    + intros x. specialize (H1 x). bumps.
    + intros x y Hy%El. unfold bump. case_decide; [subst; cbn; lia|]. rewrite Z.add_0_r. by apply H2.
    + intros x Hx. apply Ex. unfold bump in Hx. case_decide; [subst; eauto|]. apply H3. lia.
    + intros i. by rewrite Ex.
    + intros a. by rewrite Ex.
    + intros x y Hy%El. case_decide; [subst; done|by apply H6].
  - assert (Hone : h fp = 1 /\ mcount (p_fd_table s) fp = 0 /\ l fp = 0) by lia. destruct Hone as (Hh1 & Hm0 & Hl0).
    cbn [fp_flags fupd chimera_fileproc_eta]. rewrite Hd. set (s1 := drop_resource _ s).
    destruct (drop_resource_same (o <| fp_refcount := fp_refcount o - 1 |>) s) as (Eo & Eu & Eh & Et & Ef). fold s1 in Eo, Eu, Eh, Et, Ef. clearbody s1.
    destruct fp as [i|a]; cbn [is_heap].
    + eexists. split; [done|]. split; [|done]. apply (FInv_dead s h l); try done; cbn; rewrite ?Eu, ?Eh.
      * intros x y. unfold live. cbn. rewrite Eo. destruct (decide (x = Pool i)) as [->|]; [rewrite lookup_insert_eq|rewrite lookup_insert_ne by done; naive_solver].
        split; [intros [[= <-] E]; discriminate E|tauto].
      * intros j. set_solver.
      * set_solver.
    + eexists. split; [done|]. split; [|done]. apply (FInv_dead s h l); try done; cbn; rewrite ?Eu, ?Eh.
      * intros x y. unfold live. cbn. rewrite Eo, lookup_delete_Some. naive_solver.
      * set_solver.
      * intros j. set_solver.
Qed.

(** A new file with one held reference. *)
Lemma FInv_new s h l fp o s' : FInv s h l -> (forall o', ~ live s fp o') ->
  fp_signature o = CHIMERA_FILEPROC_MAGIC -> fp_refcount o = 1 -> has (fp_flags o) FP_DYNAMIC_ALLOC = is_heap fp ->
  objs s' = <[fp := o]> (objs s) -> p_fd_table s' = p_fd_table s ->
  (forall i, i ∈ s_fp_used s' <-> i ∈ s_fp_used s \/ Pool i = fp) -> (forall a, a ∈ heap s' <-> a ∈ heap s \/ Heap a = fp) ->
  FInv s' (bump h fp 1) l.
Proof.
  intros HI Hn Hsig Hrc Hd Eo Et Eu Eh. destruct (live_refs s h l fp HI) as [[o' Ho']|(Hm & Hh & Hl)]; [by destruct (Hn o')|].
  destruct HI as [H1 H2 H3 H4 H5 H6].
  assert (El : forall x y, live s' x y <-> (if decide (x = fp) then y = o else live s x y)).
  { intros x y. unfold live. rewrite Eo. case_decide; [subst; rewrite lookup_insert_eq; naive_solver|by rewrite lookup_insert_ne]. }
  constructor.
  - intros x. specialize (H1 x). bumps.
  - intros x y Hy%El. rewrite Et. unfold bump. case_decide; [subst; lia|]. rewrite Z.add_0_r. by apply H2.
  - intros x. rewrite Et. unfold bump. intros Hx. setoid_rewrite El. case_decide; [eauto|]. apply H3. lia.
  - intros i. rewrite Eu, H4. setoid_rewrite El. destruct (decide (Pool i = fp)); naive_solver.
  - intros a. rewrite Eh, H5. setoid_rewrite El. destruct (decide (Heap a = fp)); naive_solver.
  - intros x y Hy%El. case_decide; [by subst|by apply H6].
Qed.

(** ** The operations *)

Lemma fp_slot_spec s h l ka s1 r : FInv s h l -> (forall a, ka = Some a -> a ∉ heap s) -> fp_slot ka s = (s1, r) ->
  match r with
  | None => s1 = s
  | Some fp => (forall o', ~ live s fp o') /\ objs s1 = objs s /\ p_fd_table s1 = p_fd_table s /\
      (forall i, i ∈ s_fp_used s1 <-> i ∈ s_fp_used s \/ Pool i = fp) /\ (forall a, a ∈ heap s1 <-> a ∈ heap s \/ Heap a = fp)
  end.
Proof.
  intros HI Hka. unfold fp_slot. destruct (list_find _ _) as [[n i]|] eqn:E.
  - intros [= <- <-]. apply list_find_Some in E as (_ & Hi & _). split; [|split; [done|split; [done|split; set_solver]]].
    intros o' Ho'. apply Hi, (fi_pool _ _ _ HI). eauto.
  - clear E. destruct ka as [a|]; intros [= <- <-]; [|done]. split; [|split; [done|split; [done|split; set_solver]]].
    intros o' Ho'. apply (Hka a eq_refl), (fi_heap _ _ _ HI). eauto.
Qed.

(** Flags below bit 31 do not say that a file is on the heap. *)
Lemma low_flag fl : 0 <= fl < 2 ^ 31 -> Z.testbit fl 31 = false.
Proof.
  intros Hf. destruct (decide (fl = 0)) as [->|]; [done|]. apply Z.bits_above_log2; [lia|]. apply Z.log2_lt_pow2; lia.
Qed.

Lemma fp_alloc_inv s h l vp dev fl ka s' fp : FInv s h l -> 0 <= fl < 2 ^ 31 -> (forall a, ka = Some a -> a ∉ heap s) ->
  fp_alloc vp dev fl ka s = (s', Some fp) -> FInv s' (bump h fp 1) l.
Proof.
  intros HI Hf Hka. unfold fp_alloc. destruct (fp_slot ka s) as [s1 [fp'|]] eqn:E; [|done].
  destruct (fp_slot_spec s h l ka s1 _ HI Hka E) as (Hn & Eo & Et & Eu & Eh). intros [<- [= ->]]%pair_eq.
  eapply (FInv_new s h l fp _ _ HI Hn); [..|cbn; by rewrite Eo|done|done|done]; cbn; [done|done|].
  unfold FP_DYNAMIC_ALLOC, FP_READABLE, FP_WRITABLE, FP_DEVICE. rewrite has_bit by done.
  destruct (is_heap fp), (has fl _), dev; rewrite ?Z.lor_spec, (low_flag fl Hf); done.
Qed.

Lemma fp_alloc_socket_inv s h l so fl ka s' fp : FInv s h l -> 0 <= fl < 2 ^ 31 -> (forall a, ka = Some a -> a ∉ heap s) ->
  fp_alloc_socket so fl ka s = (s', Some fp) -> FInv s' (bump h fp 1) l.
Proof.
  intros HI Hf Hka. unfold fp_alloc_socket. destruct (fp_slot ka s) as [s1 [fp'|]] eqn:E; [|done].
  destruct (fp_slot_spec s h l ka s1 _ HI Hka E) as (Hn & Eo & Et & Eu & Eh). intros [<- [= ->]]%pair_eq.
  eapply (FInv_new s h l fp _ _ HI Hn); [..|cbn; by rewrite Eo|done|done|done]; cbn; [done|done|].
  unfold FP_DYNAMIC_ALLOC, FP_READABLE, FP_WRITABLE. rewrite has_bit by done.
  destruct (is_heap fp); rewrite ?Z.lor_spec, (low_flag fl Hf); done.
Qed.

Lemma find_fd_free p m s i : find_fd p m s = Some i -> p_fd_table s !! (p, i) = None.
Proof. unfold find_fd. intros ([n x] & E & ->)%fmap_Some. by apply list_find_Some in E as (_ & ? & _). Qed.

(** A reference for a free descriptor. *)
Lemma FInv_add s h l fp k s' : FInv s h l -> 0 < mcount (p_fd_table s) fp + h fp + l fp ->
  (forall o, objs s !! fp = Some o -> fp_refcount o + 1 < 2 ^ 32) -> p_fd_table s !! k = None ->
  p_fd_table s' = <[k := fp]> (p_fd_table s) -> objs s' = objs (fp_retain fp s) -> s_fp_used s' = s_fp_used s -> heap s' = heap s ->
  FInv s' h l.
Proof.
  intros HI Hp Hroom Hk Et Eo Eu Eh. pose proof (FInv_retain s h l fp HI Hp Hroom) as HI1. pose proof (fi_nonneg _ _ _ HI fp).
  eapply FInv_ext; [..|eapply (move_in (fp_retain fp s) _ l fp k s' HI1)]; try done; bumps.
Qed.

Lemma FInv_drop s h l fp k s1 : FInv s h l -> p_fd_table s !! k = Some fp ->
  p_fd_table s1 = delete k (p_fd_table s) -> objs s1 = objs s -> s_fp_used s1 = s_fp_used s -> heap s1 = heap s ->
  exists s', fp_release fp s1 = Some s' /\ FInv s' h l /\ p_fd_table s' = delete k (p_fd_table s).
Proof.
  intros HI Hk Et Eo Eu Eh. pose proof (move_out s h l fp k s1 HI Hk Et Eo Eu Eh) as HI1. pose proof (fi_nonneg _ _ _ HI fp).
  destruct (FInv_release s1 _ l fp HI1) as (s' & -> & HI' & Et' & _); [bumps|]. exists s'. split; [done|]. split; [|congruence].
  eapply FInv_ext; [..|exact HI']; bumps.
Qed.

Definition room (s : files) (k : Z) : Prop := forall fp o, objs s !! fp = Some o -> fp_refcount o + k < 2 ^ 32.

Lemma alloc_from_inv s h l p fp m : FInv s h l -> 0 < h fp -> (forall o, objs s !! fp = Some o -> fp_refcount o + 1 < 2 ^ 32) ->
  FInv (proc_fd_alloc_from p fp m s).1 h l.
Proof.
  intros HI Hh Hr. unfold proc_fd_alloc_from. destruct (_ <=? _); [done|]. destruct (find_fd _ _ _) as [i|] eqn:E; [|done].
  pose proof (fi_nonneg _ _ _ HI fp). pose proof (mcount_nonneg (p_fd_table s) fp).
  eapply (FInv_add s h l fp); try done; [lia|by eapply find_fd_free].
Qed.

Lemma lookup_inv s h l p fd s' fp : FInv s h l -> room s 1 -> proc_fd_lookup p fd s = (s', Some fp) -> FInv s' (bump h fp 1) l.
Proof.
  intros HI Hr. unfold proc_fd_lookup. destruct (negb _); [done|]. destruct (p_fd_table s !! (p, fd)) as [x|] eqn:E; [|done].
  intros [= <- ->]. pose proof (fi_nonneg _ _ _ HI fp). apply mcount_pos in E. apply FInv_retain; [done|lia|apply Hr].
Qed.

Lemma close_inv s h l p fd : FInv s h l -> exists s' e, proc_fd_close p fd s = Some (s', e) /\ FInv s' h l.
Proof.
  intros HI. unfold proc_fd_close. destruct (negb _); [by eexists _, _|]. destruct (p_fd_table s !! (p, fd)) as [fp|] eqn:E; [|by eexists _, _].
  destruct (FInv_drop s h l fp (p, fd) (clear_fd p fd s) HI E) as (s' & -> & HI' & _); try done. by eexists _, _.
Qed.

(** Loops over descriptors that only close. *)
Lemma close_loop (f : files -> Z -> option files) h l fds s : (forall s fd, FInv s h l -> exists s', f s fd = Some s' /\ FInv s' h l) ->
  FInv s h l -> exists s', foldl (fun acc fd => s ← acc; f s fd) (Some s) fds = Some s' /\ FInv s' h l.
Proof.
  intros Hf. revert s. induction fds as [|fd fds IH]; intros s HI; cbn [foldl]; [by eexists|].
  destruct (Hf s fd HI) as (s1 & E & HI1). cbn [mbind option_bind]. rewrite E. by apply IH.
Qed.

Lemma cloexec_inv s h l p : FInv s h l -> exists s', proc_fd_close_cloexec p s = Some s' /\ FInv s' h l.
Proof.
  apply close_loop. intros s1 fd HI. unfold close_if_cloexec. destruct (p_fd_table s1 !! (p, fd)) as [fp|] eqn:E; [|by eexists].
  destruct (has _ _); [|by eexists]. destruct (FInv_drop s1 h l fp (p, fd) (clear_fd p fd s1) HI E) as (s' & -> & HI' & _); try done. by eexists.
Qed.

Lemma exit_inv s h l p : FInv s h l -> exists s', proc_mark_exited_fds p s = Some s' /\ FInv s' h l.
Proof.
  apply close_loop. intros s1 fd HI. unfold exit_fd. destruct (p_fd_table s1 !! (p, fd)) as [fp|] eqn:E; [|by eexists].
  destruct (FInv_drop s1 h l fp (p, fd) (s1 <| p_fd_table ::= delete (p, fd) |>) HI E) as (s' & -> & HI' & _); try done. by eexists.
Qed.

Lemma fork_inv s h l parent p : FInv s h l -> parent ≠ p -> (forall fd, p_fd_table s !! (p, fd) = None) -> room s 256 ->
  FInv (proc_create_fds parent p s) h l.
Proof.
  intros HI Hne Hempty Hr. unfold proc_create_fds.
  apply (foldl_seqZ (inherit_fd parent p) (fun i s' => FInv s' h l /\ room s' (256 - i) /\ forall fd, i <= fd -> p_fd_table s' !! (p, fd) = None)).
  - done.
  - split; [done|]. split; [done|]. intros fd _. apply Hempty.
  - intros i s1 Hi (HI1 & Hr1 & He1). unfold inherit_fd, CHIMERA_PROC_MAX_FDS in *.
    destruct (p_fd_table s1 !! (parent, i)) as [fp|] eqn:E.
    2:{ split; [done|]. split; [intros x o Ho; specialize (Hr1 x o Ho); lia|]. intros fd Hfd. apply He1. lia. }
    pose proof (mcount_pos _ _ _ E). pose proof (fi_nonneg _ _ _ HI1 fp). split; [|split].
    + eapply (FInv_add s1 h l fp (p, i)); try done; [lia| |apply He1; lia]. intros o Ho. specialize (Hr1 fp o Ho). lia.
    + intros x o Ho. cbn in Ho. apply lookup_alter_Some in Ho as [(-> & o' & Ho & ->)|(_ & Ho)]; [|specialize (Hr1 x o Ho); lia].
      specialize (Hr1 x o' Ho). destruct (fi_live _ _ _ HI1 x ltac:(lia)) as (o & Hl). assert (o' = o) as -> by (destruct Hl; congruence).
      destruct (fi_count _ _ _ HI1 x o Hl). cbn. rewrite u32_id; lia.
    + intros fd Hfd. cbn. rewrite lookup_insert_ne by (intros [=]; lia). apply He1. lia.
Qed.

(** What a descriptor overwritten by [dup2] leaves behind. *)
Definition overwritten (p : nat) (newfd : Z) (s : files) (l : fptr -> Z) : fptr -> Z :=
  match p_fd_table s !! (p, newfd) with Some old => bump l old 1 | None => l end.

Lemma dup2_inv s h l p newfd fp : FInv s h l -> 0 < h fp ->
  FInv (dup2_store p newfd fp s) (bump h fp (-1)) (overwritten p newfd s l).
Proof.
  intros HI Hh. unfold overwritten. destruct (p_fd_table s !! (p, newfd)) as [old|] eqn:E; [|by eapply move_in].
  pose proof (fi_nonneg _ _ _ HI) as Hn. apply (FInv_move s h l); try done.
  - intros x. cbn. rewrite <- insert_delete_eq, mcount_insert, (mcount_delete _ _ _ _ E) by apply lookup_delete_eq. bumps.
  - intros x. specialize (Hn x). bumps.
Qed.

Lemma dupfd_inv s h l p fd start : FInv s h l -> room s 1 -> FInv (fcntl_dupfd p fd start s).1 h l.
Proof.
  intros HI Hr. unfold fcntl_dupfd. destruct (p_fd_table s !! (p, fd)) as [fp|] eqn:E; [|done]. destruct (find_fd _ _ _) as [i|] eqn:Ei; [|done].
  pose proof (fi_nonneg _ _ _ HI fp). apply mcount_pos in E. eapply (FInv_add s h l fp); try done; [lia|apply Hr|by eapply find_fd_free].
Qed.

(** ** All interleavings *)

Record system := { fs : files; held : fptr -> Z; leaked : fptr -> Z }.

Definition initial (io : gmap nat Z) : system :=
  {| fs := {| s_fp_used := ∅; heap := ∅; objs := ∅; p_fd_table := ∅; p_fd_flags := ∅; v_iocount := io; closed_sockets := [] |};
     held := fun _ => 0; leaked := fun _ => 0 |}.

Inductive step (s : system) : system -> Prop :=
| open_vnode vp dev fl ka s' fp : 0 <= fl < 2 ^ 31 -> (forall a, ka = Some a -> a ∉ heap (fs s)) ->
    fp_alloc vp dev fl ka (fs s) = (s', Some fp) -> step s {| fs := s'; held := bump (held s) fp 1; leaked := leaked s |}
| open_socket so fl ka s' fp : 0 <= fl < 2 ^ 31 -> (forall a, ka = Some a -> a ∉ heap (fs s)) ->
    fp_alloc_socket so fl ka (fs s) = (s', Some fp) -> step s {| fs := s'; held := bump (held s) fp 1; leaked := leaked s |}
| install p fp m : 0 < held s fp -> room (fs s) 1 ->
    step s {| fs := (proc_fd_alloc_from p fp m (fs s)).1; held := held s; leaked := leaked s |}
| lookup p fd s' fp : room (fs s) 1 -> proc_fd_lookup p fd (fs s) = (s', Some fp) ->
    step s {| fs := s'; held := bump (held s) fp 1; leaked := leaked s |}
| release fp s' : 0 < held s fp -> fp_release fp (fs s) = Some s' ->
    step s {| fs := s'; held := bump (held s) fp (-1); leaked := leaked s |}
| close p fd s' e : proc_fd_close p fd (fs s) = Some (s', e) -> step s {| fs := s'; held := held s; leaked := leaked s |}
| exec p s' : proc_fd_close_cloexec p (fs s) = Some s' -> step s {| fs := s'; held := held s; leaked := leaked s |}
| exit p s' : proc_mark_exited_fds p (fs s) = Some s' -> step s {| fs := s'; held := held s; leaked := leaked s |}
| set_flags p fd fl : step s {| fs := proc_fd_set_flags p fd fl (fs s); held := held s; leaked := leaked s |}
| fork parent p : parent ≠ p -> (forall fd, p_fd_table (fs s) !! (p, fd) = None) -> room (fs s) 256 ->
    step s {| fs := proc_create_fds parent p (fs s); held := held s; leaked := leaked s |}
| dup2 p newfd fp : 0 < held s fp -> fd_range newfd = true ->
    step s {| fs := dup2_store p newfd fp (fs s); held := bump (held s) fp (-1); leaked := overwritten p newfd (fs s) (leaked s) |}
| dupfd p fd start : 0 <= start < CHIMERA_PROC_MAX_FDS -> room (fs s) 1 ->
    step s {| fs := (fcntl_dupfd p fd start (fs s)).1; held := held s; leaked := leaked s |}.

Definition SInv (s : system) : Prop := FInv (fs s) (held s) (leaked s).

Lemma set_flags_inv s h l p fd fl : FInv s h l -> FInv (proc_fd_set_flags p fd fl s) h l.
Proof.
  intros HI. unfold proc_fd_set_flags. destruct (negb _); [done|]. destruct (p_fd_table s !! (p, fd)); [|done].
  apply (FInv_move s h l); try done. apply (fi_nonneg _ _ _ HI).
Qed.

Lemma step_inv (s s' : system) : SInv s -> step s s' -> SInv s'.
Proof.
  unfold SInv. intros HI Hst. destruct Hst; cbn.
  - by eapply fp_alloc_inv.
  - by eapply fp_alloc_socket_inv.
  - apply alloc_from_inv; [done|done|]. intros o. apply H0.
  - by eapply lookup_inv.
  - destruct (FInv_release _ _ _ fp HI) as (s1 & E & HI' & _); [done|]. congruence.
  - destruct (close_inv _ _ _ p fd HI) as (s1 & e1 & E & HI'). congruence.
  - destruct (cloexec_inv _ _ _ p HI) as (s1 & E & HI'). congruence.
  - destruct (exit_inv _ _ _ p HI) as (s1 & E & HI'). congruence.
  - by apply set_flags_inv.
  - by apply fork_inv.
  - by apply dup2_inv.
  - by apply dupfd_inv.
Qed.

Lemma initial_inv io : SInv (initial io).
Proof.
  unfold SInv, live. split; cbn; unfold live; cbn.
  - lia.
  - by intros fp o [? _].
  - intros fp. change (mcount ∅ fp) with 0. lia.
  - intros i. split; [set_solver|by intros (o & ? & _)].
  - intros a. split; [set_solver|by intros (o & ? & _)].
  - by intros fp o [? _].
Qed.


(** A process opens a vnode, gets descriptor 0 for it and duplicates that to
    descriptor 1. *)
Definition opened : system :=
  {| fs := (fp_alloc 7 false FP_WRITABLE None (fs (initial ∅))).1; held := bump (fun _ => 0) (Pool 0) 1; leaked := fun _ => 0 |}.
Definition installed : system :=
  {| fs := (proc_fd_alloc_from 1 (Pool 0) 0 (fs opened)).1; held := held opened; leaked := leaked opened |}.
Definition duplicated : system :=
  {| fs := dup2_store 1 1 (Pool 0) (fs installed); held := bump (held installed) (Pool 0) (-1);
     leaked := overwritten 1 1 (fs installed) (leaked installed) |}.

End Fileproc.
