(* ===== verification/Proc.v ===== *)
(** * Processes

    Model of [kernel/bsd/proc.c] and of [fork], [exit], [wait4], [kill] and
    the process-group calls of [kernel/bsd/syscall.c]: the process table, the
    life of a process from [proc_create] through [proc_mark_exited] to
    [proc_reap], and the posting of signals.  Descriptors are those of
    [Fileproc].  What a process needs of the other components (an address
    space, a name space, threads) is an argument of the operation; the calls
    into them are recorded, in order, in [trace].  Delivery of signals is in
    [Signal]. *)

From stdpp Require Import relations.
From S2P Require Import Prelude Fileproc.

Module Proc.
Import Fileproc.

Definition PROC_POOL_SIZE : nat := 256.
Definition TASK_POOL_SIZE : nat := 256.
Definition CHIMERA_PROC_NAME_MAX : nat := 32.
Definition CHIMERA_PROC_MAGIC : Z := 0x50524F4321212121.
Definition CHIMERA_TASK_MAGIC : Z := 0x5441534b21212121.
Definition PROC_STATE_RUNNING : Z := 1.
Definition PROC_STATE_EXITED : Z := 2.
Definition SIGKILL : Z := 9.
Definition SIGCHLD : Z := 20.

(** A pointer to a process: the kernel's own, or a slot of the pool. *)
Inductive pptr := KernelProc | Slot (i : nat).
#[global] Instance pptr_eq_dec : EqDecision pptr.
Proof. solve_decision. Defined.

(** A pointer to a task: the kernel's own, or a slot of the task pool. *)
Inductive tptr := KernelTask | Task (i : nat).
#[global] Instance tptr_eq_dec : EqDecision tptr.
Proof. solve_decision. Defined.

(** The descriptor table is the process's part of [files]. *)
Record chimera_proc := {
  p_signature : Z;
  p_pid : Z;
  p_ppid : Z;
  p_parent : option pptr;
  p_comm : list Z;
  p_login : list Z;
  p_task : option tptr;
  p_uid : Z; p_euid : Z; p_svuid : Z;
  p_gid : Z; p_egid : Z; p_svgid : Z;
  p_groups : list Z;
  p_ngroups : Z;
  p_pgrp : Z;
  p_sid : Z;
  p_tty : option nat;
  p_umask : Z;
  p_text_node : option nat;
  p_cwd : option nat;
  p_exit_code : Z;
  p_state : Z;
  p_sigmask : Z;
  p_sigpending : Z;
  p_sigacts : list Z;
  p_sigact_flags : list Z;
  p_sigact_mask : list Z
}.
#[global] Instance chimera_proc_eta : Eta chimera_proc := fun r =>
  {| p_signature := p_signature r; p_pid := p_pid r; p_ppid := p_ppid r; p_parent := p_parent r; p_comm := p_comm r;
     p_login := p_login r; p_task := p_task r; p_uid := p_uid r; p_euid := p_euid r; p_svuid := p_svuid r; p_gid := p_gid r;
     p_egid := p_egid r; p_svgid := p_svgid r; p_groups := p_groups r; p_ngroups := p_ngroups r; p_pgrp := p_pgrp r;
     p_sid := p_sid r; p_tty := p_tty r; p_umask := p_umask r; p_text_node := p_text_node r; p_cwd := p_cwd r;
     p_exit_code := p_exit_code r; p_state := p_state r; p_sigmask := p_sigmask r; p_sigpending := p_sigpending r;
     p_sigacts := p_sigacts r; p_sigact_flags := p_sigact_flags r; p_sigact_mask := p_sigact_mask r |}.

Definition zeros (n : nat) : list Z := replicate n 0.

(** [memset(p, 0, sizeof(chimera_proc_t))]. *)
Definition zero_proc : chimera_proc :=
  {| p_signature := 0; p_pid := 0; p_ppid := 0; p_parent := None; p_comm := zeros 32; p_login := zeros 32; p_task := None;
     p_uid := 0; p_euid := 0; p_svuid := 0; p_gid := 0; p_egid := 0; p_svgid := 0; p_groups := zeros 16; p_ngroups := 0;
     p_pgrp := 0; p_sid := 0; p_tty := None; p_umask := 0; p_text_node := None; p_cwd := None; p_exit_code := 0; p_state := 0;
     p_sigmask := 0; p_sigpending := 0; p_sigacts := zeros 32; p_sigact_flags := zeros 32; p_sigact_mask := zeros 32 |}.

Record chimera_task := {
  ta_signature : Z;
  ta_id : Z;
  ta_proc : option pptr;
  ta_ipc_space : option nat;
  ta_vm_map : Z;
  ta_mmap_next : Z;
  ta_task_port : Z;
  ta_threads : list nat;          (* linked through [th_task_next] *)
  ta_thread_count : Z
}.
#[global] Instance chimera_task_eta : Eta chimera_task := fun r =>
  {| ta_signature := ta_signature r; ta_id := ta_id r; ta_proc := ta_proc r; ta_ipc_space := ta_ipc_space r;
     ta_vm_map := ta_vm_map r; ta_mmap_next := ta_mmap_next r; ta_task_port := ta_task_port r; ta_threads := ta_threads r;
     ta_thread_count := ta_thread_count r |}.

Definition zero_task : chimera_task :=
  {| ta_signature := 0; ta_id := 0; ta_proc := None; ta_ipc_space := None; ta_vm_map := 0; ta_mmap_next := 0; ta_task_port := 0;
     ta_threads := []; ta_thread_count := 0 |}.

(** Calls into the other components. *)
Inductive call :=
| ThreadHalt (th : nat)                       (* state HALTED, [scheduler_remove_thread], signature 0 *)
| ThreadWake (th : nat)
| ThreadStart (th : nat) (t : tptr)           (* [scheduler_add_thread] of a thread of [t] *)
| MmapRecordsDestroy (t : tptr)
| PmapDestroy (pml4 : Z)
| PmapClone (pml4 : Z)
| PageRelease (pml4 : Z)
| IpcSpaceDestroy (space : nat)
| IpcSpaceInherit (from to : nat)
| TaskPort (space : nat) (name : Z) (t : tptr).

Record system := {
  s_proc_pool : list chimera_proc;
  s_kernel_proc : chimera_proc;
  s_task_pool : list chimera_task;
  s_task_kernel : chimera_task;
  s_pid_seq : Z;
  proc_launchd : option pptr;
  fds : files;
  trace : list call                           (* newest first *)
}.
#[global] Instance system_eta : Eta system := fun r =>
  {| s_proc_pool := s_proc_pool r; s_kernel_proc := s_kernel_proc r; s_task_pool := s_task_pool r;
     s_task_kernel := s_task_kernel r; s_pid_seq := s_pid_seq r; proc_launchd := proc_launchd r; fds := fds r; trace := trace r |}.

Implicit Types s : system.

Definition proc_at (s : system) (p : pptr) : chimera_proc :=
  match p with KernelProc => s_kernel_proc s | Slot i => default zero_proc (s_proc_pool s !! i) end.
Definition set_proc (p : pptr) (f : chimera_proc -> chimera_proc) (s : system) : system :=
  match p with KernelProc => s <| s_kernel_proc ::= f |> | Slot i => s <| s_proc_pool ::= alter f i |> end.
Definition task_at (s : system) (t : tptr) : chimera_task :=
  match t with KernelTask => s_task_kernel s | Task i => default zero_task (s_task_pool s !! i) end.
Definition set_task (t : tptr) (f : chimera_task -> chimera_task) (s : system) : system :=
  match t with KernelTask => s <| s_task_kernel ::= f |> | Task i => s <| s_task_pool ::= alter f i |> end.
Definition calls (c : call) (s : system) : system := s <| trace ::= cons c |>.

(** The key of a process's descriptors in [files]. *)
Definition fd_owner (p : pptr) : nat := match p with KernelProc => PROC_POOL_SIZE | Slot i => i end.

(** [strncpy] of a string of bytes without NUL into an array of [n]. *)
Definition strncpy (n : nat) (name : list Z) : list Z := take n (name ++ zeros n).

Definition is_live (p : chimera_proc) : bool := p_signature p =? CHIMERA_PROC_MAGIC.
Definition is_live_task (t : chimera_task) : bool := ta_signature t =? CHIMERA_TASK_MAGIC.

(** [memset] clears the slot's descriptor table without releasing anything. *)
Definition forget_fds (i : nat) (f : files) : files :=
  f <| p_fd_table ::= filter (fun kv => kv.1.1 ≠ i) |> <| p_fd_flags ::= filter (fun kv => kv.1.1 ≠ i) |>.

(** The scan for a free slot; slot 0 is never used. *)
Definition free_slot (s : system) : option nat :=
  snd <$> list_find (fun i => is_live (proc_at s (Slot i)) = false) (seq 1 (PROC_POOL_SIZE - 1)).
Definition free_task (s : system) : option nat :=
  snd <$> list_find (fun i => is_live_task (task_at s (Task i)) = false) (seq 1 (TASK_POOL_SIZE - 1)).

(** The kernel's own process; its task exists already. *)
Definition proc_init (s : system) : system :=
  s <| s_kernel_proc := zero_proc <| p_signature := CHIMERA_PROC_MAGIC |> <| p_task := Some KernelTask |> <| p_ngroups := 1 |>
         <| p_umask := 18 |> <| p_state := PROC_STATE_RUNNING |>
         <| p_comm := strncpy CHIMERA_PROC_NAME_MAX [107; 101; 114; 110; 101; 108; 95; 116; 97; 115; 107] |> |>
    <| fds ::= forget_fds PROC_POOL_SIZE |>
    <| s_task_kernel ::= fun ta => ta <| ta_proc := Some KernelProc |> <| ta_thread_count := 1 |> |>.

(** [atomic_fetch_add(&s_pid_seq, 1)], once more when it gives 0. *)
Definition next_pid (s : system) : system * Z :=
  let pid := s_pid_seq s in
  let s := s <| s_pid_seq := u32 (pid + 1) |> in
  if pid =? 0 then (s <| s_pid_seq := u32 (s_pid_seq s + 1) |>, s_pid_seq s) else (s, pid).

(** The fields set under the pool lock; [pp] is what [parent] points to. *)
Definition init_proc (parent : option pptr) (pp : chimera_proc) (name : list Z) (pid : Z) : chimera_proc :=
  let p := zero_proc <| p_signature := CHIMERA_PROC_MAGIC |> <| p_pid := pid |> <| p_parent := parent |>
             <| p_state := PROC_STATE_RUNNING |> <| p_comm := strncpy CHIMERA_PROC_NAME_MAX name |> in
  match parent with
  | Some _ =>
      p <| p_ppid := p_pid pp |> <| p_uid := p_uid pp |> <| p_euid := p_euid pp |> <| p_svuid := p_svuid pp |>
        <| p_gid := p_gid pp |> <| p_egid := p_egid pp |> <| p_svgid := p_svgid pp |> <| p_ngroups := p_ngroups pp |>
        <| p_groups := p_groups pp |> <| p_login := p_login pp |> <| p_umask := p_umask pp |>
        <| p_pgrp := if p_pgrp pp =? 0 then pid else p_pgrp pp |>
        <| p_sid := if p_sid pp =? 0 then pid else p_sid pp |> <| p_tty := p_tty pp |>
  | None => p <| p_ngroups := 1 |> (* 022 *) <| p_umask := 18 |> <| p_pgrp := pid |> <| p_sid := pid |>
  end.

(** What [pmap_create], [ipc_space_create] and [ipc_port_alloc] give a new task. *)
Record resources := { r_pml4 : Z; r_space : chimera_error + nat; r_port : option Z }.

Definition task_create (r : resources) (s : system) : system * (chimera_error + tptr) :=
  match free_task s with
  | None => (s, inl CHIMERA_ERR_NOMEM)
  | Some i =>
      let t := Task i in
      let s := set_task t (fun _ => zero_task <| ta_signature := CHIMERA_TASK_MAGIC |> <| ta_id := Z.of_nat i |>
                                      <| ta_thread_count := 1 |> <| ta_vm_map := r_pml4 r |>) s in
      match r_space r with
      | inl err => (s, inl err)
      | inr space =>
          let s := set_task t (fun ta => ta <| ta_ipc_space := Some space |>) s in
          match r_port r with
          | Some name => (calls (TaskPort space name t) (set_task t (fun ta => ta <| ta_task_port := name |>) s), inr t)
          | None => (s, inr t)
          end
      end
  end.

(** The vnodes that [vfs_lookup] finds, whether the console is a device, and
    what [kalloc] returns when the pool of open files is used up. *)
Record vnodes := { v_root : option nat; v_console : option nat; v_null : option nat; v_device : bool; v_kalloc : list (option Z) }.

Definition has_fds (p : pptr) (f : files) : bool :=
  existsb (fun fd => bool_decide (is_Some (p_fd_table f !! (fd_owner p, fd)))) (seqZ 0 CHIMERA_PROC_MAX_FDS).

Definition standard_fd (i vp : nat) (dev : bool) (flags : Z) (ka : option Z) (f : files) : option files :=
  match fp_alloc vp dev flags ka f with
  | (f, None) => Some f
  | (f, Some fp) => let '(f, _) := proc_fd_install i fp f in fp_release fp f
  end.

(** Standard input, output and error on the console. *)
Definition standard_fds (i : nat) (v : vnodes) (f : files) : option files :=
  match (match v_console v with Some vp => Some vp | None => v_null v end) with
  | None => Some f
  | Some vp =>
      let ka n := default None (v_kalloc v !! n) in
      f ← standard_fd i vp (v_device v) FP_READABLE (ka 0%nat) f;
      f ← standard_fd i vp (v_device v) FP_WRITABLE (ka 1%nat) f;
      standard_fd i vp (v_device v) FP_WRITABLE (ka 2%nat) f
  end.

(** [None] is a failed assertion. *)
Definition proc_create (parent : option pptr) (name : list Z) (r : resources) (v : vnodes) (s : system)
  : option (system * (chimera_error + pptr)) :=
  match free_slot s with
  | None => Some (s, inl CHIMERA_ERR_NOMEM)
  | Some i =>
      let p := Slot i in
      let pp s := match parent with Some q => proc_at s q | None => zero_proc end in
      let '(s, pid) := next_pid (s <| fds ::= forget_fds i |>) in
      let s := set_proc p (fun _ => init_proc parent (pp s) name pid) s in
      match task_create r s with
      | (s, inl err) => Some (s, inl err)
      | (s, inr t) =>
          let s := set_task t (fun ta => ta <| ta_proc := Some p |>) (set_proc p (fun pr => pr <| p_task := Some t |>) s) in
          let cwd := match p_cwd (pp s) with Some c => Some c | None => v_root v end in
          let s := set_proc p (fun pr => pr <| p_cwd := cwd |>) s in
          f ← match parent with
              | Some q => if has_fds q (fds s) then Some (proc_create_fds (fd_owner q) i (fds s)) else standard_fds i v (fds s)
              | None => standard_fds i v (fds s)
              end;
          let s := s <| fds := f |> in
          let s := match parent with
                   | Some _ => set_proc p (fun pr => pr <| p_sigmask := p_sigmask (pp s) |> <| p_sigacts := p_sigacts (pp s) |>
                                 <| p_sigact_flags := p_sigact_flags (pp s) |> <| p_sigact_mask := p_sigact_mask (pp s) |>) s
                   | None => s
                   end in
          Some (set_proc p (fun pr => pr <| p_sigpending := 0 |>) s, inr p)
      end
  end.

(** ** Lookups *)

Definition proc_find (f : chimera_proc -> bool) (from : nat) (s : system) : option nat :=
  snd <$> list_find (fun i => is_live (proc_at s (Slot i)) && f (proc_at s (Slot i)) = true) (seq from (PROC_POOL_SIZE - from)).
Definition proc_find_by_pid (pid : Z) (s : system) : option nat := proc_find (fun p => p_pid p =? pid) 0 s.
Definition proc_find_by_pgrp (pgrp : Z) (s : system) : option nat := proc_find (fun p => p_pgrp p =? pgrp) 0 s.

(** A slot counts as a child by its pointer or by its number. *)
Definition is_child (parent : pptr) (s : system) (p : chimera_proc) : bool :=
  bool_decide (p_parent p = Some parent) || (p_ppid p =? p_pid (proc_at s parent)).
Definition any_pid (pid : Z) : bool := (pid =? 2 ^ 32 - 1) || (pid =? 0).

Definition proc_find_waitable_child (parent : pptr) (pid : Z) (s : system) : option nat :=
  proc_find (fun p => is_child parent s p && (any_pid pid || (p_pid p =? pid)) && (p_state p =? PROC_STATE_EXITED)) 1 s.
Definition proc_has_children (parent : pptr) (s : system) : bool :=
  bool_decide (is_Some (proc_find (is_child parent s) 1 s)).

(** ** Signals, exit, reaping *)

Definition sigact (p : chimera_proc) (sig : Z) : Z := default 0 (p_sigacts p !! Z.to_nat sig).
Definition sigbit (sig : Z) : Z := Z.shiftl 1 sig.

(** Only the first thread of the task is woken. *)
Definition wake_first (p : pptr) (s : system) : system :=
  match p_task (proc_at s p) with
  | Some t => match ta_threads (task_at s t) with th :: _ => calls (ThreadWake th) s | [] => s end
  | None => s
  end.

Definition proc_signal (p : pptr) (sig : Z) (s : system) : system * chimera_error :=
  if (sig <=? 0) || (32 <=? sig) then (s, CHIMERA_ERR_INVALID) else
  let post s := wake_first p (set_proc p (fun pr => pr <| p_sigpending ::= fun m => Z.lor m (sigbit sig) |>) s) in
  if sig =? SIGKILL then (post s, CHIMERA_SUCCESS) else
  if sigact (proc_at s p) sig =? 1 then (s, CHIMERA_SUCCESS) else (post s, CHIMERA_SUCCESS).

(** Threads stop before the address space goes away. *)
Definition task_teardown (t : tptr) (s : system) : system :=
  let ta := task_at s t in
  let s := foldl (fun s th => calls (ThreadHalt th) s) s (ta_threads ta) in
  let s := set_task t (fun ta => ta <| ta_threads := [] |> <| ta_thread_count := 0 |>) s in
  let s := calls (MmapRecordsDestroy t) s in
  let s := if ta_vm_map ta =? 0 then s
           else set_task t (fun ta => ta <| ta_vm_map := 0 |>) (calls (PmapDestroy (ta_vm_map ta)) s) in
  match ta_ipc_space ta with
  | Some space => set_task t (fun ta => ta <| ta_ipc_space := None |>) (calls (IpcSpaceDestroy space) s)
  | None => s
  end.

(** Children go to launchd. *)
Definition reparent (p : pptr) (s : system) : system :=
  let l := proc_launchd s in
  let lpid := match l with Some q => p_pid (proc_at s q) | None => 1 end in
  s <| s_proc_pool ::= imap (fun i c => if (1 <=? i)%nat && is_live c && is_child p s c
                                        then c <| p_parent := l |> <| p_ppid := lpid |> else c) |>.

Definition proc_mark_exited (p : pptr) (code : Z) (s : system) : option system :=
  f ← proc_mark_exited_fds (fd_owner p) (fds s);
  let s := set_proc p (fun pr => pr <| p_text_node := None |> <| p_cwd := None |>) (s <| fds := f |>) in
  let s := match p_task (proc_at s p) with Some t => task_teardown t s | None => s end in
  let s := reparent p s in
  let s := set_proc p (fun pr => pr <| p_exit_code := code |> <| p_state := PROC_STATE_EXITED |>) s in
  Some (match p_parent (proc_at s p) with Some q => (proc_signal q SIGCHLD s).1 | None => s end).

Definition proc_reap (p : pptr) (s : system) : system :=
  if negb (p_state (proc_at s p) =? PROC_STATE_EXITED) then s else
  let s := match p_task (proc_at s p) with
           | Some t =>
               let vm := ta_vm_map (task_at s t) in
               let s := if vm =? 0 then s else set_task t (fun ta => ta <| ta_vm_map := 0 |>) (calls (PmapDestroy vm) s) in
               set_proc p (fun pr => pr <| p_task := None |>) (set_task t (fun ta => ta <| ta_signature := 0 |>) s)
           | None => s
           end in
  set_proc p (fun pr => pr <| p_signature := 0 |> <| p_state := 0 |> <| p_pid := 0 |> <| p_ppid := 0 |> <| p_parent := None |>) s.

(** ** System calls *)

Inductive wait_result :=
| WaitChild (pid status : Z)      (* a child was reaped *)
| WaitNothing                     (* WNOHANG: 0 *)
| WaitNoChild                     (* ECHILD: -10 *)
| WaitSleep.                      (* sleep, then look again *)

(** One round of [sys_wait4] by process [p]; [first] is the check before the
    loop.  The status and the zeroed usage are then copied to the caller. *)
Definition wait4_round (first : bool) (p : pptr) (pid options : Z) (s : system) : system * wait_result :=
  if first && negb (proc_has_children p s) then (s, WaitNoChild) else
  match proc_find_waitable_child p pid s with
  | Some i =>
      let child := proc_at s (Slot i) in
      let status := u32 (Z.shiftl (p_exit_code child) 8) in
      let s := proc_reap (Slot i) s in
      let s := set_proc p (fun pr => pr <| p_sigpending ::= fun m => Z.land m (not32 (sigbit SIGCHLD)) |>) s in
      (s, WaitChild (p_pid child) status)
  | None =>
      if has options 1 then (s, WaitNothing) else
      if negb (proc_has_children p s) then (s, WaitNoChild) else (s, WaitSleep)
  end.

(** The whole call: [others n] is what the rest of the system does during the
    [n]th sleep.  [None] means that the caller still sleeps after [fuel] rounds. *)
Fixpoint sys_wait4 (fuel : nat) (others : nat -> system -> system) (n : nat) (p : pptr) (pid options : Z) (s : system)
  : option (system * wait_result) :=
  match fuel with
  | O => None
  | S fuel =>
      match wait4_round (n =? 0)%nat p pid options s with
      | (s, WaitSleep) => sys_wait4 fuel others (S n) p pid options (others n s)
      | r => Some r
      end
  end.

Definition sys_kill (cur : pptr) (pid sig : Z) (s : system) : system * Z :=
  if (sig <=? 0) || (32 <=? sig) then (s, -22) else
  if pid =? 0 then (s, -1) else
  match proc_find_by_pid pid s with
  | None => (s, -3)
  | Some i =>
      if (pid =? 1) && ((sig =? 9) || (sig =? 15) || (sig =? 19)) then (s, -1) else
      let c := proc_at s cur in let target := proc_at s (Slot i) in
      if negb (p_euid c =? 0) && negb (p_euid c =? p_euid target) && negb (p_uid c =? p_uid target) then (s, -1)
      else ((proc_signal (Slot i) sig s).1, 0)
  end.

(** The process a pid argument of the process-group calls names. *)
Definition pid_target (cur : pptr) (pid : Z) (s : system) : option pptr :=
  if (pid =? 0) || (pid =? p_pid (proc_at s cur)) then Some cur else Slot <$> proc_find_by_pid (u32 pid) s.

Definition sys_setpgid (cur : pptr) (pid pgrp : Z) (s : system) : system * Z :=
  match pid_target cur pid s with
  | None => (s, -3)
  | Some t => (set_proc t (fun pr => pr <| p_pgrp := if pgrp =? 0 then p_pid pr else u32 pgrp |>) s, 0)
  end.
Definition sys_setsid (cur : pptr) (s : system) : system * Z :=
  (set_proc cur (fun pr => pr <| p_sid := p_pid pr |> <| p_pgrp := p_pid pr |>) s, p_pid (proc_at s cur)).
Definition sys_getpgid (cur : pptr) (pid : Z) (s : system) : Z :=
  match pid_target cur pid s with None => -3 | Some t => p_pgrp (proc_at s t) end.
Definition sys_getsid (cur : pptr) (pid : Z) (s : system) : Z :=
  match pid_target cur pid s with None => -3 | Some t => p_sid (proc_at s t) end.

(** [sys_exit_direct] up to the final loop of [scheduler_yield]. *)
Definition sys_exit_direct (p : pptr) (th : nat) (code : Z) (s : system) : option system :=
  s ← proc_mark_exited p (u32 code) s;
  Some (calls (ThreadHalt th) s).

(** The characters of an array up to the first NUL. *)
Fixpoint cstr (l : list Z) : list Z :=
  match l with [] => [] | c :: l => if c =? 0 then [] else c :: cstr l end.

(** [clone] is what [pmap_clone_user_space] returns, [th] a free thread of the
    pool, and the booleans say whether it gets a stack and is scheduled. *)
Definition sys_fork (parent : pptr) (r : resources) (v : vnodes) (clone : Z) (th : option nat) (stack_ok add_ok : bool) (s : system)
  : option (system * Z) :=
  '(s, c) ← proc_create (Some parent) (cstr (p_comm (proc_at s parent))) r v s;
  match c with
  | inl _ => Some (s, -1)
  | inr child =>
      match p_task (proc_at s child), p_task (proc_at s parent) with
      | Some t, Some pt =>
          let vm := ta_vm_map (task_at s t) in
          let s := if vm =? 0 then s else calls (PageRelease vm) s in
          let s := calls (PmapClone (ta_vm_map (task_at s pt))) s in
          let s := set_task t (fun ta => ta <| ta_vm_map := clone |> <| ta_mmap_next := ta_mmap_next (task_at s pt) |>) s in
          let s := match ta_ipc_space (task_at s pt), ta_ipc_space (task_at s t) with
                   | Some a, Some b => calls (IpcSpaceInherit a b) s
                   | _, _ => s
                   end in
          let fail s := s ← proc_mark_exited child 255 s; Some (s, -1) in
          match th with
          | None => fail s
          | Some th =>
              let s := set_task t (fun ta => ta <| ta_threads := [th] |>) s in
              if negb stack_ok || negb add_ok then fail s
              else Some (calls (ThreadStart th t) s, p_pid (proc_at s child))
          end
      | _, _ => None
      end
  end.

(** The creation of launchd; [None] is a panic or a failed assertion. *)
Definition launchd_chimera_start (r : resources) (v : vnodes) (s : system) : option system :=
  '(s, c) ← proc_create (Some KernelProc) [108; 97; 117; 110; 99; 104; 100] r v s;
  match c with
  | inl _ => None
  | inr p => if p_pid (proc_at s p) =? 1 then Some (s <| proc_launchd := Some p |>) else None
  end.
End Proc.
