(* ===== verification/ProcSpec.v ===== *)
(** * The life of a process

    What the process table of [Proc] promises: an abstract tree of processes
    ([ptree]) in which a process is forked, exits and is waited for, and the
    proof that [proc_create], [proc_mark_exited] and [sys_wait4] implement it,
    however the calls of all processes follow each other. *)

From stdpp Require Import relations.
From S2P Require Import Prelude Fileproc Proc.

Module ProcSpec.
Import Fileproc Proc.
Implicit Types s : system.

(** ** What matters of a process *)

Record brief := { b_pid : Z; b_ppid : Z; b_parent : option pptr; b_exit : option Z; b_task : option tptr }.
#[global] Instance brief_eta : Eta brief := fun r =>
  {| b_pid := b_pid r; b_ppid := b_ppid r; b_parent := b_parent r; b_exit := b_exit r; b_task := b_task r |}.

Definition brief_of (p : chimera_proc) : option brief :=
  if is_live p then Some {| b_pid := p_pid p; b_ppid := p_ppid p; b_parent := p_parent p;
                            b_exit := if p_state p =? PROC_STATE_EXITED then Some (p_exit_code p) else None; b_task := p_task p |}
  else None.
Definition table (s : system) (i : nat) : option brief := s_proc_pool s !! i ≫= brief_of.

(** The process that owns a task. *)
Definition owner (s : system) (j : nat) : option pptr :=
  t ← s_task_pool s !! j; if is_live_task t then ta_proc t else None.

Lemma table_proc_at s i b : table s i = Some b -> brief_of (proc_at s (Slot i)) = Some b.
Proof. unfold table, proc_at. by destruct (s_proc_pool s !! i). Qed.
Lemma table_none s i : brief_of (proc_at s (Slot i)) = table s i.
Proof. unfold table, proc_at. by destruct (s_proc_pool s !! i). Qed.

Lemma brief_fields p b : brief_of p = Some b ->
  is_live p = true /\ p_pid p = b_pid b /\ p_ppid p = b_ppid b /\ p_parent p = b_parent b /\ p_task p = b_task b /\
  (p_state p =? PROC_STATE_EXITED) = bool_decide (is_Some (b_exit b)) /\ (forall c, b_exit b = Some c -> p_exit_code p = c).
Proof.
  unfold brief_of. destruct (is_live p); [|done]. intros [= <-]. cbn. do 5 (split; [done|]).
  destruct (_ =? _); split; try done. by intros c [= <-].
Qed.
Lemma table_fields s i b : table s i = Some b -> let p := proc_at s (Slot i) in
  is_live p = true /\ p_pid p = b_pid b /\ p_ppid p = b_ppid b /\ p_parent p = b_parent b /\ p_task p = b_task b /\
  (p_state p =? PROC_STATE_EXITED) = bool_decide (is_Some (b_exit b)) /\ (forall c, b_exit b = Some c -> p_exit_code p = c).
Proof. intros Hb%table_proc_at. by apply brief_fields. Qed.
Lemma is_live_table s i : is_live (proc_at s (Slot i)) = true <-> is_Some (table s i).
Proof. rewrite <- table_none. unfold brief_of. destruct (is_live _); split; [by eexists|done|done|by intros []]. Qed.

Lemma table_slot s k f i : table (set_proc (Slot k) f s) i = if decide (i = k) then s_proc_pool s !! k ≫= (brief_of ∘ f) else table s i.
Proof.
  unfold table. cbn. case_decide as E; [subst; rewrite list_lookup_alter_eq; by destruct (_ !! k)|by rewrite list_lookup_alter_ne].
Qed.
Lemma table_same q f s i : (forall p, brief_of (f p) = brief_of p) -> table (set_proc q f s) i = table s i.
Proof.
  intros Hf. destruct q as [|k]; [done|]. rewrite table_slot. case_decide; [subst|done]. unfold table. destruct (s_proc_pool s !! k); [|done].
  apply Hf.
Qed.
Definition valid (s : system) (q : pptr) : bool := match q with KernelProc => true | Slot k => bool_decide (k < length (s_proc_pool s))%nat end.
Lemma proc_at_set q q' f s : proc_at (set_proc q f s) q' = if decide (q' = q /\ valid s q = true) then f (proc_at s q') else proc_at s q'.
Proof.
  destruct q as [|k], q' as [|k']; try by cbn; repeat case_decide; tauto || naive_solver.
  case_decide as E; cbn in E |- *; rewrite bool_decide_eq_true in E.
  - destruct E as [[= ->] [p Hp]%lookup_lt_is_Some_2]. by rewrite list_lookup_alter_eq, Hp.
  - destruct (decide (k' = k)) as [->|]; [|by rewrite list_lookup_alter_ne]. rewrite list_lookup_alter_eq.
    destruct (s_proc_pool s !! k) eqn:Ek; [|done]. apply lookup_lt_Some in Ek. tauto.
Qed.
Lemma table_set_task t f s i : table (set_task t f s) i = table s i.
Proof. by destruct t. Qed.
Lemma owner_set_proc q f s j : owner (set_proc q f s) j = owner s j.
Proof. by destruct q. Qed.
Lemma owner_same t f s j : (forall ta, ta_signature (f ta) = ta_signature ta /\ ta_proc (f ta) = ta_proc ta) -> owner (set_task t f s) j = owner s j.
Proof.
  intros Hf. destruct t as [|k]; [done|]. unfold owner. cbn. destruct (decide (j = k)) as [->|N].
  - rewrite list_lookup_alter_eq. destruct (s_task_pool s !! k) as [ta|]; [|done]. cbn. unfold is_live_task. destruct (Hf ta) as [-> ->]. done.
  - by rewrite list_lookup_alter_ne.
Qed.
Lemma owner_task s k f j : owner (set_task (Task k) f s) j =
  if decide (j = k) then ta ← s_task_pool s !! k; if is_live_task (f ta) then ta_proc (f ta) else None else owner s j.
Proof.
  unfold owner. cbn. case_decide as E; [subst; rewrite list_lookup_alter_eq; by destruct (_ !! k)|by rewrite list_lookup_alter_ne].
Qed.

(** The parts of the state that the operations do not touch. *)
Record frame_of (s s' : system) : Prop := {
  f_pool : length (s_proc_pool s') = length (s_proc_pool s);
  f_tasks : length (s_task_pool s') = length (s_task_pool s);
  f_kernel : p_pid (s_kernel_proc s') = p_pid (s_kernel_proc s);
  f_launchd : proc_launchd s' = proc_launchd s
}.
#[global] Instance frame_of_preorder : PreOrder frame_of.
Proof. split; [by constructor|]. intros s1 s2 s3 [] []. constructor; congruence. Qed.

Lemma frame_set_proc q f s : (q = KernelProc -> p_pid (f (s_kernel_proc s)) = p_pid (s_kernel_proc s)) -> frame_of s (set_proc q f s).
Proof. intros Hf. destruct q; constructor; cbn; try done; [by apply Hf|by rewrite length_alter]. Qed.
Lemma frame_set_task t f s : frame_of s (set_task t f s).
Proof. destruct t; constructor; cbn; try done. by rewrite length_alter. Qed.

(** Changes nobody notices. *)
Record quiet (s s' : system) : Prop := {
  q_frame : frame_of s s';
  q_table : forall i, table s' i = table s i;
  q_owner : forall j, owner s' j = owner s j;
  q_fds : fds s' = fds s;
  q_seq : s_pid_seq s' = s_pid_seq s;
  q_proc : forall q, p_pid (proc_at s' q) = p_pid (proc_at s q) /\ p_parent (proc_at s' q) = p_parent (proc_at s q)
}.
#[global] Instance quiet_preorder : PreOrder quiet.
Proof.
  split; [done|]. intros s1 s2 s3 [F1 T1 O1 D1 Q1 P1] [F2 T2 O2 D2 Q2 P2]. constructor; [by etrans|..|congruence|congruence|].
  - intros i. by rewrite T2.
  - intros j. by rewrite O2.
  - intros q. destruct (P2 q) as [-> ->]. apply P1.
Qed.

Lemma quiet_calls c s : quiet s (calls c s).
Proof. done. Qed.
Lemma quiet_proc q f s : (forall p, brief_of (f p) = brief_of p /\ p_pid (f p) = p_pid p /\ p_parent (f p) = p_parent p) -> quiet s (set_proc q f s).
Proof.
  intros Hf. constructor.
  - apply frame_set_proc. intros _. apply Hf.
  - intros i. apply table_same. apply Hf.
  - intros j. apply owner_set_proc.
  - by destruct q.
  - by destruct q.
  - intros q'. rewrite proc_at_set. case_decide; [apply Hf|done].
Qed.
Lemma quiet_task t f s : (forall ta, ta_signature (f ta) = ta_signature ta /\ ta_proc (f ta) = ta_proc ta) -> quiet s (set_task t f s).
Proof.
  intros Hf. constructor.
  - apply frame_set_task.
  - intros i. apply table_set_task.
  - intros j. by apply owner_same.
  - by destruct t.
  - by destruct t.
  - by destruct t, q.
Qed.
Create HintDb procs.
#[export] Hint Resolve quiet_calls : procs.
#[export] Hint Extern 2 (quiet _ (set_proc _ _ _)) => apply quiet_proc; by intros []; split_and! : procs.
#[export] Hint Extern 2 (quiet _ (set_task _ _ _)) => apply quiet_task; by intros []; split_and! : procs.
#[export] Hint Extern 1 (quiet ?s ?s) => reflexivity : procs.

Lemma quiet_foldl {A} (f : system -> A -> system) l s : (forall s x, quiet s (f s x)) -> quiet s (foldl f s l).
Proof. intros Hf. revert s. induction l as [|x l IH]; intros s; cbn; [done|]. etrans; [apply Hf|apply IH]. Qed.

Lemma quiet_teardown t s : quiet s (task_teardown t s).
Proof.
  unfold task_teardown. set (s1 := foldl _ _ _). assert (H1 : quiet s s1) by (apply quiet_foldl; auto with procs). clearbody s1.
  set (s2 := calls _ (set_task t _ s1)). assert (H2 : quiet s1 s2) by (unfold s2; etrans; [|apply quiet_calls]; auto with procs). clearbody s2.
  set (s3 := if (_ =? 0) then s2 else _). assert (H3 : quiet s2 s3).
  { unfold s3. destruct (_ =? 0); [done|]. etrans; [apply quiet_calls|]. auto with procs. }
  clearbody s3. do 3 (etrans; [eassumption|]). destruct (ta_ipc_space _); [|done]. etrans; [apply quiet_calls|]. auto with procs.
Qed.

Lemma quiet_wake p s : quiet s (wake_first p s).
Proof. unfold wake_first. destruct (p_task _); [|done]. by destruct (ta_threads _). Qed.
#[export] Hint Resolve quiet_teardown quiet_wake : procs.

Lemma quiet_signal p sig s : quiet s (proc_signal p sig s).1.
Proof.
  unfold proc_signal. destruct (_ || _); [done|]. assert (Hp : forall m : Z -> Z, quiet s (wake_first p (set_proc p (fun pr => pr <| p_sigpending ::= m |>) s))).
  { intros m. etrans; [|apply quiet_wake]. auto with procs. }
  destruct (_ =? SIGKILL); [apply Hp|]. destruct (_ =? 1); [done|apply Hp].
Qed.
#[export] Hint Resolve quiet_signal : procs.

Lemma quiet_kill cur pid sig s : quiet s (sys_kill cur pid sig s).1.
Proof.
  unfold sys_kill. destruct (_ || _); [done|]. destruct (pid =? 0); [done|]. destruct (proc_find_by_pid _ _); [|done].
  destruct (_ && _); [done|]. destruct (_ && _); [done|]. apply quiet_signal.
Qed.
Lemma quiet_setpgid cur pid pgrp s : quiet s (sys_setpgid cur pid pgrp s).1.
Proof. unfold sys_setpgid. destruct (pid_target _ _ _); [|done]. cbn. auto with procs. Qed.
Lemma quiet_setsid cur s : quiet s (sys_setsid cur s).1.
Proof. unfold sys_setsid. cbn. auto with procs. Qed.

(** ** What the operations do to the table *)

Definition child_of (p : pptr) (pid : Z) (b : brief) : bool := bool_decide (b_parent b = Some p) || (b_ppid b =? pid).

Definition adopted (p l : pptr) (pid : Z) (i : nat) (b : brief) : brief :=
  if (1 <=? i)%nat && child_of p pid b then b <| b_parent := Some l |> <| b_ppid := 1 |> else b.

Lemma reparent_effect p l s : proc_launchd s = Some l -> p_pid (proc_at s l) = 1 ->
  let s' := reparent p s in
  frame_of s s' /\ (forall i, table s' i = adopted p l (p_pid (proc_at s p)) i <$> table s i) /\
  (forall j, owner s' j = owner s j) /\ fds s' = fds s /\ s_pid_seq s' = s_pid_seq s.
Proof.
  intros Hl Hpid s'. split; [|split; [|done]].
  - constructor; try done. cbn. by rewrite length_imap.
  - intros i. unfold s', reparent, table, brief_of, adopted, child_of, is_child. cbn. rewrite Hl, Hpid, list_lookup_imap.
    destruct (s_proc_pool s !! i) as [c|]; [|done]. cbn. destruct (is_live c) eqn:Ec.
    + rewrite andb_true_r. destruct i as [|i]; cbn; [by rewrite Ec|]. destruct (_ || _); unfold is_live in *; cbn; by rewrite Ec.
    + rewrite andb_false_r. cbn. by rewrite Ec.
Qed.

Lemma exit_effect p i code s f l : p = Slot i -> proc_launchd s = Some l -> p_pid (proc_at s l) = 1 ->
  proc_mark_exited_fds i (fds s) = Some f ->
  exists s', proc_mark_exited p code s = Some s' /\ frame_of s s' /\
  (forall k, table s' k = (fun b => if decide (k = i) then b <| b_exit := Some code |> else b) ∘ adopted p l (p_pid (proc_at s p)) k <$> table s k) /\
  (forall j, owner s' j = owner s j) /\ fds s' = f /\ s_pid_seq s' = s_pid_seq s.
Proof.
  intros -> Hl Hpid Hf. unfold proc_mark_exited. cbn [fd_owner]. rewrite Hf. cbn [mbind option_bind]. eexists. split; [done|].
  set (s1 := set_proc (Slot i) _ (s <| fds := f |>)).
  set (s2 := match p_task (proc_at s1 (Slot i)) with Some t => task_teardown t s1 | None => s1 end).
  assert (H2 : quiet (s <| fds := f |>) s2).
  { transitivity s1; [unfold s1; auto with procs|]. unfold s2. destruct (p_task _); auto with procs. }
  clearbody s2. clear s1. destruct H2 as [F2 T2 O2 D2 Q2 P2].
  destruct (reparent_effect (Slot i) l s2) as (F3 & T3 & O3 & D3 & Q3); [by rewrite (f_launchd _ _ F2)|by rewrite (proj1 (P2 l))|].
  set (s3 := reparent (Slot i) s2) in *. clearbody s3. rewrite (proj1 (P2 (Slot i))) in T3. change (proc_at (s <| fds := f |>)) with (proc_at s) in *.
  change (table (s <| fds := f |>)) with (table s) in *. change (owner (s <| fds := f |>)) with (owner s) in *.
  set (s4 := set_proc (Slot i) _ s3).
  assert (H4 : quiet s4 (match p_parent (proc_at s4 (Slot i)) with Some q => (proc_signal q SIGCHLD s4).1 | None => s4 end))
    by (destruct (p_parent _); auto with procs).
  destruct H4 as [F5 T5 O5 D5 Q5 _]. split; [|split; [|split; [|split]]].
  - transitivity s4; [|done]. transitivity s3; [transitivity s2; [destruct F2; by constructor|done]|]. apply (frame_set_proc (Slot i)); intros [=].
  - intros k. rewrite T5. unfold s4. rewrite table_slot. case_decide as E; [subst k|].
    + assert (Et : table s3 i = adopted (Slot i) l (p_pid (proc_at s (Slot i))) i <$> table s i) by (by rewrite T3, T2).
      unfold table in Et at 1. destruct (s_proc_pool s3 !! i) as [c|]; cbn in Et |- *.
      * unfold brief_of in Et |- *. unfold is_live in *. cbn. destruct (_ =? CHIMERA_PROC_MAGIC).
        -- destruct (table s i); [|done]. injection Et as Et. cbn. by rewrite <- Et.
        -- by destruct (table s i).
      * by destruct (table s i).
    + rewrite T3, T2. by destruct (table s k).
  - intros j. rewrite O5. unfold s4. by rewrite owner_set_proc, O3, O2.
  - rewrite D5. change (fds s4) with (fds s3). by rewrite D3, D2.
  - rewrite Q5. change (s_pid_seq s4) with (s_pid_seq s3). by rewrite Q3, Q2.
Qed.

Lemma reap_effect i s b c : table s i = Some b -> b_exit b = Some c ->
  let s' := proc_reap (Slot i) s in
  frame_of s s' /\ (forall k, table s' k = if decide (k = i) then None else table s k) /\
  (forall j, owner s' j = if decide (b_task b = Some (Task j)) then None else owner s j) /\ fds s' = fds s /\ s_pid_seq s' = s_pid_seq s.
Proof.
  intros Hb Hc s'. destruct (table_fields s i b Hb) as (_ & _ & _ & _ & Et & Est & _). cbv zeta in *. unfold s', proc_reap.
  rewrite Est, Hc, Et. cbn [negb bool_decide]. rewrite bool_decide_true by done. cbn [negb].
  set (s1 := match b_task b with Some t => _ | None => s end).
  assert (H1 : frame_of s s1 /\ (forall k, k ≠ i -> table s1 k = table s k) /\
    (forall j, owner s1 j = if decide (b_task b = Some (Task j)) then None else owner s j) /\ fds s1 = fds s /\ s_pid_seq s1 = s_pid_seq s).
  { unfold s1. destruct (b_task b) as [t|]; [|done]. set (s2 := if (_ =? 0) then s else _).
    assert (H2 : quiet s s2) by (unfold s2; destruct (_ =? 0); [done|]; etrans; [apply quiet_calls|]; auto with procs).
    clearbody s2. destruct H2 as [F2 T2 O2 D2 Q2 _]. split; [|split; [|split; [|split]]].
    - etrans; [exact F2|]. etrans; [apply frame_set_task|]. by apply frame_set_proc.
    - intros k Hk. rewrite table_slot, decide_False by done. by rewrite table_set_task.
    - intros j. rewrite owner_set_proc. destruct t as [|k].
      + rewrite decide_False by done. apply O2.
      + rewrite owner_task, O2. destruct (decide (j = k)) as [->|N]; [rewrite decide_True by done; by destruct (_ !! k)|].
        rewrite decide_False; [done|congruence].
    - by destruct t.
    - by destruct t. }
  clearbody s1. destruct H1 as (F1 & T1 & O1 & D1 & Q1). split; [|split; [|split; [|split]]]; try done.
  - etrans; [exact F1|]. by apply frame_set_proc.
  - intros k. rewrite table_slot. case_decide; [by destruct (_ !! i)|by apply T1].
Qed.

(** The scans of the pools. *)
Lemma scan_some (P : nat -> Prop) `{forall i, Decision (P i)} a n i : snd <$> list_find P (seq a n) = Some i ->
  (a <= i < a + n)%nat /\ P i /\ forall j, (a <= j < i)%nat -> ~ P j.
Proof.
  intros ([k j] & E & ->)%fmap_Some. apply list_find_Some in E as (Hj & HP & Hmin). cbn in *.
  apply lookup_seq in Hj as [-> Hn]. split; [lia|]. split; [done|]. intros j Hj. apply (Hmin (j - a)%nat); [|lia].
  rewrite lookup_seq_lt by lia. f_equal. lia.
Qed.
Lemma scan_none (P : nat -> Prop) `{forall i, Decision (P i)} a n i : snd <$> list_find P (seq a n) = None -> (a <= i < a + n)%nat -> ~ P i.
Proof.
  intros E%fmap_None Hi. apply list_find_None in E. rewrite Forall_forall in E. apply E. apply list_elem_of_In, in_seq. lia.
Qed.

Lemma free_slot_spec s i : free_slot s = Some i -> (1 <= i < 256)%nat /\ table s i = None.
Proof.
  intros (Hi & Hl & _)%scan_some. unfold PROC_POOL_SIZE in Hi. split; [lia|]. rewrite <- table_none. unfold brief_of. by rewrite Hl.
Qed.
Lemma free_slot_none s i : free_slot s = None -> (1 <= i < 256)%nat -> is_Some (table s i).
Proof.
  intros E Hi. apply is_live_table. pose proof (scan_none _ _ _ i E) as Hn. unfold PROC_POOL_SIZE in Hn.
  destruct (is_live _); [done|]. by destruct (Hn ltac:(lia)).
Qed.
Lemma free_task_spec s j : free_task s = Some j -> (1 <= j < 256)%nat /\ is_live_task (task_at s (Task j)) = false.
Proof. intros (Hj & Hl & _)%scan_some. unfold TASK_POOL_SIZE in Hj. split; [lia|done]. Qed.

Lemma task_create_effect r s : length (s_task_pool s) = TASK_POOL_SIZE ->
  let '(s', t) := task_create r s in
  frame_of s s' /\ s_proc_pool s' = s_proc_pool s /\ s_kernel_proc s' = s_kernel_proc s /\ fds s' = fds s /\ s_pid_seq s' = s_pid_seq s /\
  (forall j, owner s' j = owner s j) /\
  match t with
  | inl _ => True
  | inr t => exists j, t = Task j /\ owner s j = None /\ exists ta, s_task_pool s' !! j = Some ta /\ is_live_task ta = true
  end.
Proof.
  intros Hlen. unfold task_create. destruct (free_task s) as [j|] eqn:E; [|done].
  destruct (free_task_spec s j E) as [Hj Hf].
  destruct (lookup_lt_is_Some_2 (s_task_pool s) j) as [t0 Ht0]; [rewrite Hlen; unfold TASK_POOL_SIZE in *; lia|].
  assert (Hfree : owner s j = None) by (unfold owner; rewrite Ht0; cbn in Hf |- *; rewrite Ht0 in Hf; cbn in Hf; by rewrite Hf).
  set (s1 := set_task (Task j) _ s). assert (Hl1 : exists ta, s_task_pool s1 !! j = Some ta /\ is_live_task ta = true).
  { eexists. unfold s1. cbn. rewrite list_lookup_alter_eq, Ht0. by split. }
  assert (Ho : forall k, owner s1 k = owner s k).
  { intros k. unfold s1. rewrite owner_task. case_decide; [subst k; by rewrite Hfree, Ht0|done]. }
  assert (F1 : frame_of s s1) by apply frame_set_task.
  destruct (r_space r) as [err|space]; [by do 5 (split; [done|])|].
  destruct (r_port r) as [name|]; cbn [fst snd].
  - split; [etrans; [exact F1|]; etrans; [apply frame_set_task|]; etrans; [apply frame_set_task|apply quiet_calls]|]. do 4 (split; [done|]). destruct Hl1 as (ta & Hta & Hlive). split.
    + intros k. rewrite <- Ho. change (owner (set_task (Task j) (fun ta => ta <| ta_task_port := name |>)
        (set_task (Task j) (fun ta => ta <| ta_ipc_space := Some space |>) s1)) k = owner s1 k). by rewrite !owner_same.
    + exists j. split; [done|]. split; [done|]. eexists. clearbody s1. cbn. rewrite !list_lookup_alter_eq, Hta. by split.
  - split; [etrans; [exact F1|]; apply frame_set_task|]. do 4 (split; [done|]). destruct Hl1 as (ta & Hta & Hlive). split.
    + intros k. rewrite <- Ho. by apply owner_same.
    + exists j. split; [done|]. split; [done|]. eexists. clearbody s1. cbn. rewrite !list_lookup_alter_eq, Hta. by split.
Qed.

(** The record of a new process. *)
Definition newborn (s : system) (q : pptr) (t : option tptr) : brief :=
  {| b_pid := s_pid_seq s; b_ppid := p_pid (proc_at s q); b_parent := Some q; b_exit := None; b_task := t |}.
Definition newborn_fds (q : pptr) (i : nat) (v : vnodes) (f : files) : option files :=
  if has_fds q (forget_fds i f) then Some (proc_create_fds (fd_owner q) i (forget_fds i f)) else standard_fds i v (forget_fds i f).

Lemma next_pid_seq s : 0 < s_pid_seq s < 2 ^ 32 - 1 -> next_pid s = (s <| s_pid_seq := s_pid_seq s + 1 |>, s_pid_seq s).
Proof. intros Hs. unfold next_pid. rewrite (proj2 (Z.eqb_neq _ _)) by lia. by rewrite u32_id by lia. Qed.

Lemma create_effect q name r v s i : free_slot s = Some i -> length (s_proc_pool s) = PROC_POOL_SIZE -> length (s_task_pool s) = TASK_POOL_SIZE ->
  0 < s_pid_seq s < 2 ^ 32 - 1 -> q ≠ Slot i ->
  match proc_create (Some q) name r v s with
  | None => newborn_fds q i v (fds s) = None
  | Some (s', c) =>
      frame_of s s' /\ s_pid_seq s' = s_pid_seq s + 1 /\
      match c with
      | inl _ => (forall k, table s' k = if decide (k = i) then Some (newborn s q None) else table s k) /\
                 (forall j, owner s' j = owner s j) /\ fds s' = forget_fds i (fds s)
      | inr p => p = Slot i /\ exists j, owner s j = None /\
                 (forall k, table s' k = if decide (k = i) then Some (newborn s q (Some (Task j))) else table s k) /\
                 (forall k, owner s' k = if decide (k = j) then Some (Slot i) else owner s k) /\
                 newborn_fds q i v (fds s) = Some (fds s')
      end
  end.
Proof.
  intros Hfree Hlp Hlt Hseq Hq. unfold proc_create. rewrite Hfree, next_pid_seq by done.
  set (s0 := s <| fds ::= forget_fds i |> <| s_pid_seq := _ |>). set (s1 := set_proc (Slot i) _ s0).
  assert (F1 : frame_of s s1) by (unfold s1; etrans; [|by apply frame_set_proc]; by constructor).
  destruct (free_slot_spec s i Hfree) as [Hi _].
  destruct (lookup_lt_is_Some_2 (s_proc_pool s) i) as [p0 Hp0]; [rewrite Hlp; unfold PROC_POOL_SIZE; lia|].
  assert (Hq1 : proc_at s1 q = proc_at s q).
  { unfold s1. rewrite proc_at_set. rewrite decide_False by tauto. by destruct q. }
  pose proof (task_create_effect r s1) as Ht. specialize (Ht ltac:(by rewrite (f_tasks _ _ F1))).
  assert (Hi1 : exists pr, s_proc_pool s1 !! i = Some pr /\ brief_of pr = Some (newborn s q None)).
  { eexists. unfold s1. cbn -[init_proc]. rewrite list_lookup_alter_eq, Hp0. by split. }
  assert (Ht1 : forall k, k ≠ i -> table s1 k = table s k) by (intros k Hk; unfold s1; by rewrite table_slot, decide_False).
  assert (Eo1 : forall j, owner s1 j = owner s j) by done.
  assert (Ef1 : fds s1 = forget_fds i (fds s)) by done. assert (Es1 : s_pid_seq s1 = s_pid_seq s + 1) by done.
  clearbody s1. clear s0. destruct (task_create r s1) as [s2 [err|t]]; destruct Ht as (F2 & Ep2 & Ek2 & Ef2 & Es2 & Eo2 & Ht).
  all: destruct Hi1 as (pr & Hpr & Hbr); rewrite <- Ep2 in Hpr;
    assert (Ht2 : forall k, k ≠ i -> table s2 k = table s k) by (intros k Hk; rewrite <- (Ht1 k Hk); unfold table; by rewrite Ep2).
  { split; [by etrans|]. split; [congruence|]. split; [|split; [intros j; by rewrite Eo2, Eo1|congruence]].
    intros k. case_decide; [subst; unfold table; by rewrite Hpr|by apply Ht2]. }
  destruct Ht as (j & -> & Hj & ta & Hta & Hlive). rewrite Eo1 in Hj.
  set (s3 := set_task (Task j) _ _).
  assert (F3 : frame_of s s3).
  { unfold s3. etrans; [|apply frame_set_task]. etrans; [|by apply frame_set_proc]. by etrans. }
  assert (Ht3 : forall k, table s3 k = if decide (k = i) then Some (newborn s q (Some (Task j))) else table s k).
  { intros k. unfold s3. rewrite table_set_task, table_slot. case_decide; [|by apply Ht2]. rewrite Hpr. cbn. revert Hbr. unfold brief_of, is_live.
    cbn. destruct (_ =? _); [|done]. by intros [= -> -> -> ->]. }
  assert (Ho3 : forall k, owner s3 k = if decide (k = j) then Some (Slot i) else owner s k).
  { intros k. unfold s3. rewrite owner_task. case_decide; [|rewrite owner_set_proc, Eo2; apply Eo1]. change (s_task_pool (set_proc (Slot i) _ s2)) with (s_task_pool s2).
    rewrite Hta. unfold is_live_task in *. cbn. by rewrite Hlive. }
  assert (Ef3 : fds s3 = forget_fds i (fds s)) by (change (fds s3) with (fds s2); congruence).
  assert (Es3 : s_pid_seq s3 = s_pid_seq s + 1) by (change (s_pid_seq s3) with (s_pid_seq s2); congruence).
  clearbody s3. set (s4 := set_proc (Slot i) _ s3). assert (H4 : quiet s3 s4) by (unfold s4; auto with procs). clearbody s4.
  destruct H4 as [F4 T4 O4 D4 Q4 _]. rewrite D4, Ef3. fold (newborn_fds q i v (fds s)).
  destruct (newborn_fds q i v (fds s)) as [f|]; [|done]. cbn [mbind option_bind].
  assert (H5 : forall g, quiet (s4 <| fds := f |>) (set_proc (Slot i) (fun pr => pr <| p_sigpending := 0 |>) (set_proc (Slot i) g (s4 <| fds := f |>))) ->
    frame_of s4 (set_proc (Slot i) (fun pr => pr <| p_sigpending := 0 |>) (set_proc (Slot i) g (s4 <| fds := f |>)))).
  { intros g [F5 _ _ _ _ _]. destruct F5. by constructor. }
  match goal with |- context [set_proc (Slot i) (fun pr => pr <| p_sigpending := 0 |>) (set_proc (Slot i) ?g _)] => specialize (H5 g); set (g' := g) in * end.
  assert (H6 : quiet (s4 <| fds := f |>) (set_proc (Slot i) (fun pr => pr <| p_sigpending := 0 |>) (set_proc (Slot i) g' (s4 <| fds := f |>)))).
  { etrans; [|apply quiet_proc; by intros []]. apply quiet_proc. by intros []. }
  specialize (H5 H6). destruct H6 as [_ T6 O6 D6 Q6 _]. split; [by do 2 (etrans; [eassumption|])|]. split; [rewrite Q6; change (s_pid_seq (s4 <| fds := f |>)) with (s_pid_seq s4); congruence|].
  split; [done|]. exists j. split; [done|]. split; [|split].
  - intros k. rewrite T6. change (table (s4 <| fds := f |>) k) with (table s4 k). by rewrite T4, Ht3.
  - intros k. rewrite O6. change (owner (s4 <| fds := f |>) k) with (owner s4 k). by rewrite O4, Ho3.
  - by rewrite D6.
Qed.

(** ** The descriptors of a new process *)

Lemma release_keeps fp f f' : fp_release fp f = Some f' -> heap f' ⊆ heap f /\ p_fd_table f' = p_fd_table f.
Proof.
  unfold fp_release. destruct (objs f !! fp) as [o|]; [|done]. cbn [mbind option_bind]. destruct (negb _); [done|].
  destruct (_ <? _); [by intros [= <-]|]. match goal with |- context [drop_resource ?o ?f] => destruct (drop_resource_same o f) as (_ & _ & Eh & Et & _) end.
  destruct (has _ _), fp; try done; intros [= <-]; cbn; rewrite Eh, Et; (split; [set_solver|done]).
Qed.

Lemma standard_fd_inv i vp dev fl ka f h l : FInv f h l -> 0 <= fl < 2 ^ 31 -> (forall a, ka = Some a -> a ∉ heap f) ->
  exists f', standard_fd i vp dev fl ka f = Some f' /\ FInv f' h l /\ (forall a, a ∈ heap f' -> a ∈ heap f \/ ka = Some a) /\
    (forall k fd fp, p_fd_table f' !! (k, fd) = Some fp -> k = i /\ 0 <= fd < 256 \/ p_fd_table f !! (k, fd) = Some fp).
Proof.
  intros HI Hfl Hka. unfold standard_fd. destruct (fp_alloc vp dev fl ka f) as [f1 [fp|]] eqn:E.
  2:{ exists f. unfold fp_alloc in E. destruct (fp_slot ka f) as [f2 [?|]] eqn:Es; [done|]. injection E as <-.
      pose proof (fp_slot_spec _ _ _ _ _ _ HI Hka Es) as ->. split; [done|]. split; [done|]. split; auto. }
  pose proof (fp_alloc_inv _ _ _ _ _ _ _ _ _ HI Hfl Hka E) as HI1.
  assert (Hf1 : (forall o, objs f1 !! fp = Some o -> fp_refcount o = 1) /\ p_fd_table f1 = p_fd_table f /\ forall a, a ∈ heap f1 -> a ∈ heap f \/ ka = Some a).
  { unfold fp_alloc in E. destruct (fp_slot ka f) as [f2 [fp2|]] eqn:Es; [|done]. injection E as <- ->. cbn. split; [intros o; rewrite lookup_insert_eq; by intros [= <-]|].
    unfold fp_slot in Es. destruct (list_find _ _) as [[? j]|]; [by injection Es as <- <-; auto|].
    destruct ka as [a|]; [|done]. injection Es as <- <-. split; [done|]. cbn. intros x [->%elem_of_singleton|?]%elem_of_union; auto. }
  destruct Hf1 as (Hrc & Et1 & Hh1). pose proof (fi_nonneg _ _ _ HI fp) as Hnn.
  assert (HI2 : FInv (proc_fd_install i fp f1).1 (bump h fp 1) l).
  { apply alloc_from_inv; [done|bumps|]. intros o ->%Hrc. lia. }
  assert (Hi : heap (proc_fd_install i fp f1).1 = heap f1 /\
    forall k fd x, p_fd_table (proc_fd_install i fp f1).1 !! (k, fd) = Some x -> k = i /\ 0 <= fd < 256 \/ p_fd_table f1 !! (k, fd) = Some x).
  { unfold proc_fd_install, proc_fd_alloc_from. cbn -[find_fd]. destruct (find_fd i 0 f1) as [m|] eqn:Em; [|by auto]. split; [done|].
    intros k fd x. cbn. intros [[[= <- <-] _]|[_ ?]]%lookup_insert_Some; [left|by right]. split; [done|].
    unfold find_fd in Em. apply fmap_Some in Em as ([n y] & Em & ->). apply list_find_Some in Em as (Hn & _). apply lookup_seqZ in Hn.
    unfold CHIMERA_PROC_MAX_FDS in Hn. cbn. lia. }
  destruct (proc_fd_install i fp f1) as [f2 n]. cbn [fst] in *. destruct Hi as [Eh2 Ht2].
  destruct (FInv_release f2 _ l fp HI2) as (f3 & E3 & HI3 & Et3 & _); [bumps|]. exists f3. split; [done|].
  split; [eapply FInv_ext; [..|exact HI3]; bumps|]. split.
  - intros a Ha. apply (proj1 (release_keeps _ _ _ E3)) in Ha. rewrite Eh2 in Ha. auto.
  - intros k fd x. rewrite Et3. intros [?|?]%Ht2; [by left|right; congruence].
Qed.

(** Addresses from [kalloc] are new and differ from each other. *)
Definition fresh_heap (v : vnodes) (f : files) : Prop :=
  (forall n a, v_kalloc v !! n = Some (Some a) -> a ∉ heap f) /\
  (forall n m a, v_kalloc v !! n = Some (Some a) -> v_kalloc v !! m = Some (Some a) -> n = m).

Lemma standard_fds_inv i v f h l : FInv f h l -> fresh_heap v f ->
  exists f', standard_fds i v f = Some f' /\ FInv f' h l /\
    (forall k fd fp, p_fd_table f' !! (k, fd) = Some fp -> k = i /\ 0 <= fd < 256 \/ p_fd_table f !! (k, fd) = Some fp).
Proof.
  intros HI [Hf1 Hf2]. unfold standard_fds. destruct (match v_console v with Some vp => _ | None => _ end) as [vp|]; [|by eauto].
  assert (Hka : forall n a, default None (v_kalloc v !! n) = Some a -> v_kalloc v !! n = Some (Some a)) by (intros n a; destruct (v_kalloc v !! n) as [[]|]; naive_solver).
  destruct (standard_fd_inv i vp (v_device v) FP_READABLE (default None (v_kalloc v !! 0%nat)) f h l HI) as (g1 & E1 & HI1 & Hh1 & Ht1); [done|by intros a ?%Hka%Hf1|].
  destruct (standard_fd_inv i vp (v_device v) FP_WRITABLE (default None (v_kalloc v !! 1%nat)) g1 h l HI1) as (g2 & E2 & HI2 & Hh2 & Ht2); [done| |].
  { intros a Ha [?|Ha']%Hh1; [by apply (Hf1 _ _ (Hka _ _ Ha))|]. by apply Hka in Ha, Ha'; specialize (Hf2 _ _ _ Ha Ha'). }
  destruct (standard_fd_inv i vp (v_device v) FP_WRITABLE (default None (v_kalloc v !! 2%nat)) g2 h l HI2) as (g3 & E3 & HI3 & Hh3 & Ht3); [done| |].
  { intros a Ha [[?|Ha']%Hh1|Ha']%Hh2; [by apply (Hf1 _ _ (Hka _ _ Ha))|..]; by apply Hka in Ha, Ha'; specialize (Hf2 _ _ _ Ha Ha'). }
  exists g3. rewrite E1. cbn [mbind option_bind]. rewrite E2. cbn [mbind option_bind]. split; [done|]. split; [done|]. intros k fd fp [?|[?|[?|?]%Ht1]%Ht2]%Ht3; auto.
Qed.

Lemma inherit_keys parent p f k fd fp : p_fd_table (proc_create_fds parent p f) !! (k, fd) = Some fp -> k = p /\ 0 <= fd < 256 \/ p_fd_table f !! (k, fd) = Some fp.
Proof.
  unfold proc_create_fds. revert k fd fp. apply (foldl_seqZ (inherit_fd parent p)
    (fun _ f' => forall k fd fp, p_fd_table f' !! (k, fd) = Some fp -> k = p /\ 0 <= fd < 256 \/ p_fd_table f !! (k, fd) = Some fp)); [done|by auto|].
  intros n f' Hn IH k fd fp. unfold inherit_fd, CHIMERA_PROC_MAX_FDS in *. destruct (p_fd_table f' !! (parent, n)); [|apply IH].
  cbn. intros [[[= <- <-] _]|[_ ?%IH]]%lookup_insert_Some; auto.
Qed.

Lemma forget_fds_same i f h l : (forall fd, p_fd_table f !! (i, fd) = None) ->
  p_fd_table (forget_fds i f) = p_fd_table f /\ (FInv f h l -> FInv (forget_fds i f) h l).
Proof.
  intros He. assert (Et : p_fd_table (forget_fds i f) = p_fd_table f).
  { cbn. apply map_filter_id. intros [k fd] fp Hk E. cbn in E. subst k. by rewrite He in Hk. }
  split; [done|]. intros HI. apply (FInv_move f h l); try done; [by intros x; rewrite Et|apply (fi_nonneg _ _ _ HI)].
Qed.

Lemma newborn_fds_inv q i v f h l : FInv f h l -> (forall fd, p_fd_table f !! (i, fd) = None) -> fd_owner q ≠ i -> room f 256 -> fresh_heap v f ->
  exists f', newborn_fds q i v f = Some f' /\ FInv f' h l /\
    (forall k fd fp, p_fd_table f' !! (k, fd) = Some fp -> k = i /\ 0 <= fd < 256 \/ p_fd_table f !! (k, fd) = Some fp).
Proof.
  intros HI He Hq Hr Hv. destruct (forget_fds_same i f h l He) as [Et HI1]. specialize (HI1 HI).
  unfold newborn_fds. destruct (has_fds _ _).
  - eexists. split; [done|]. split; [apply fork_inv; try done; intros fd; by rewrite Et|]. intros k fd fp Hk%inherit_keys. by rewrite Et in Hk.
  - destruct (standard_fds_inv i v (forget_fds i f) h l HI1 Hv) as (f' & -> & HI' & Hk). eexists. split; [done|]. split; [done|].
    intros k fd fp Hk'%Hk. by rewrite Et in Hk'.
Qed.

(** Exiting closes every descriptor. *)
Lemma exit_keys p f f' k fd : proc_mark_exited_fds p f = Some f' ->
  p_fd_table f' !! (k, fd) = if decide (k = p /\ 0 <= fd < 256) then None else p_fd_table f !! (k, fd).
Proof.
  unfold proc_mark_exited_fds, CHIMERA_PROC_MAX_FDS. intros E.
  assert (H : p_fd_table f' !! (k, fd) = if decide (k = p /\ fd ∈ seqZ 0 256) then None else p_fd_table f !! (k, fd)).
  { revert E. generalize (seqZ 0 256). intros l. revert f. induction l as [|x l IH]; intros f; cbn [foldl mbind option_bind].
    { intros [= <-]. rewrite decide_False; [done|]. intros [_ ?]. set_solver. }
    destruct (exit_fd p f x) as [f1|] eqn:E1.
    2:{ assert (En : foldl (fun acc fd => s ← acc; exit_fd p s fd) None l = None) by (clear; by induction l). by rewrite En. }
    intros ->%IH. assert (E2 : p_fd_table f1 !! (k, fd) = if decide (k = p /\ fd = x) then None else p_fd_table f !! (k, fd)).
    { unfold exit_fd in E1. destruct (p_fd_table f !! (p, x)) as [fp|] eqn:Ex.
      - apply release_keeps in E1 as [_ ->]. destruct (decide (k = p /\ fd = x)) as [[-> ->]|D]; [apply lookup_delete_eq|].
        change (delete (p, x) (p_fd_table f) !! (k, fd) = p_fd_table f !! (k, fd)).
        rewrite lookup_delete_ne; [done|]. intros [= <- <-]. tauto.
      - injection E1 as <-. by destruct (decide (k = p /\ fd = x)) as [[-> ->]|D]. }
    rewrite E2. repeat case_decide; try done; exfalso; set_solver. }
  rewrite H. pose proof (elem_of_seqZ 0 256 fd) as Hz. repeat case_decide; try done; exfalso; rewrite Hz in *; lia.
Qed.

(** ** The invariant of the process table *)

(** The parent of the process in slot [i]. *)
Definition parent_ok (s : system) (i : nat) (b : brief) : Prop :=
  b_parent b = Some KernelProc /\ b_ppid b = 0 \/
  exists j c, b_parent b = Some (Slot j) /\ table s j = Some c /\ b_ppid b = b_pid c /\ j ≠ i.

Record KInv (s : system) (h l : fptr -> Z) : Prop := {
  k_pool : length (s_proc_pool s) = PROC_POOL_SIZE;
  k_tasks : length (s_task_pool s) = TASK_POOL_SIZE;
  k_kernel : p_pid (s_kernel_proc s) = 0;
  k_files : FInv (fds s) h l;
  k_seq : 1 < s_pid_seq s;
  k_range : forall i b, table s i = Some b -> (1 <= i)%nat /\ 0 < b_pid b < s_pid_seq s;
  k_inj : forall i j b c, table s i = Some b -> table s j = Some c -> b_pid b = b_pid c -> i = j;
  k_parent : forall i b, table s i = Some b -> parent_ok s i b;
  k_launchd : exists j b, proc_launchd s = Some (Slot j) /\ table s j = Some b /\ b_pid b = 1 /\ b_parent b = Some KernelProc;
  k_orphan : forall i j b c code, table s i = Some b -> table s j = Some c -> b_ppid b = b_pid c -> b_exit c = Some code -> b_pid c = 1;
  k_task : forall i b t, table s i = Some b -> b_task b = Some t -> exists j, t = Task j /\ owner s j = Some (Slot i);
  k_fds : forall i fd fp, p_fd_table (fds s) !! (i, fd) = Some fp ->
    0 <= fd < 256 /\ (i = PROC_POOL_SIZE \/ exists b, table s i = Some b /\ b_exit b = None)
}.

Lemma parent_ok_ext s s' i b : (forall k, table s' k = table s k) -> parent_ok s i b -> parent_ok s' i b.
Proof. intros Ht [?|(j & c & ? & ? & ? & ?)]; [by left|right]. exists j, c. by rewrite Ht. Qed.

Lemma kinv_quiet s s' h l : quiet s s' -> KInv s h l -> KInv s' h l.
Proof.
  intros [[Fp Ft Fk Fl] Ht Ho Hd Hq _] [K1 K2 K3 K4 K5 K6 K7 K8 K9 K10 K11 K12]. constructor; try congruence.
  - intros i b. rewrite Ht, Hq. apply K6.
  - intros i j b c. rewrite !Ht. apply K7.
  - intros i b. rewrite Ht. intros Hb. apply (parent_ok_ext s); [done|by apply K8].
  - destruct K9 as (j & b & ? & ? & ? & ?). exists j, b. rewrite Ht. split; [congruence|done].
  - intros i j b c code. rewrite !Ht. apply K10.
  - intros i b t. rewrite Ht. intros Hb (j & -> & Hj)%(K11 i); [|done]. exists j. by rewrite Ho.
  - intros i fd fp. rewrite Hd. intros [? [?|(b & ? & ?)]]%K12; (split; [done|]); [by left|right]. exists b. by rewrite Ht.
Qed.

(** Children are found by number. *)
Lemma child_of_pid s h l i b j c : KInv s h l -> table s i = Some b -> table s j = Some c -> child_of (Slot i) (b_pid b) c = (b_ppid c =? b_pid b).
Proof.
  intros HK Hb Hc. unfold child_of. destruct (Z.eqb_spec (b_ppid c) (b_pid b)) as [|N]; [apply orb_true_r|]. rewrite orb_false_r.
  apply bool_decide_eq_false. intros E. destruct (k_parent _ _ _ HK j c Hc) as [[E' _]|(k & d & E' & Hd & Hp & _)]; [congruence|].
  assert (k = i) as -> by congruence. congruence.
Qed.

Lemma kinv_reap s h l i b code : KInv s h l -> table s i = Some b -> b_exit b = Some code -> b_pid b ≠ 1 -> KInv (proc_reap (Slot i) s) h l.
Proof.
  intros HK Hb Hx Hn1. destruct (reap_effect i s b code Hb Hx) as ([Fp Ft Fk Fl] & Ht & Ho & Hd & Hq). cbv zeta in *.
  set (s' := proc_reap (Slot i) s) in *. clearbody s'. pose proof HK as [K1 K2 K3 K4 K5 K6 K7 K8 K9 K10 K11 K12].
  assert (Hs : forall k c, table s' k = Some c -> k ≠ i /\ table s k = Some c) by (intros k c; rewrite Ht; case_decide; [done|by split]).
  constructor; try congruence.
  - intros k c [_ Hc]%Hs. rewrite Hq. by apply K6.
  - intros k j c d [_ Hc]%Hs [_ Hd']%Hs. by apply K7.
  - intros k c [Hk Hc]%Hs. destruct (K8 k c Hc) as [?|(j & d & Hj & Hd' & Hp & Hne)]; [by left|right]. exists j, d. rewrite Ht.
    rewrite decide_False; [done|]. intros ->. assert (d = b) as -> by congruence. by apply Hn1, (K10 k i c b code).
  - destruct K9 as (j & d & ? & Hj & Hp & ?). exists j, d. rewrite Ht, decide_False; [by rewrite Fl|]. intros ->. congruence.
  - intros k j c d x [_ Hc]%Hs [_ Hd']%Hs. by apply (K10 k j).
  - intros k c t [Hk Hc]%Hs Htk. destruct (K11 k c t Hc Htk) as (j & -> & Hj). exists j. split; [done|]. rewrite Ho, decide_False; [done|].
    intros E. destruct (K11 i b _ Hb E) as (j' & [= <-] & Hj'). congruence.
  - intros k fd fp. rewrite Hd. intros [? [?|(c & Hc & Hx')]]%K12; (split; [done|]); [by left|right]. exists c. rewrite Ht, decide_False; [done|].
    intros ->. congruence.
Qed.

(** A process that may act: the kernel's, or one that has not exited. *)
Definition running (s : system) (q : pptr) : Prop :=
  match q with KernelProc => True | Slot i => exists b, table s i = Some b /\ b_exit b = None end.

Lemma running_pid s h l q : KInv s h l -> running s q -> 0 <= p_pid (proc_at s q) < s_pid_seq s.
Proof.
  intros HK. pose proof (k_seq _ _ _ HK). destruct q as [|i]; [intros _; cbn; rewrite (k_kernel _ _ _ HK); lia|].
  intros (b & Hb & _). destruct (table_fields s i b Hb) as (_ & -> & _). destruct (k_range _ _ _ HK i b Hb). lia.
Qed.

(** A slot is filled. *)
Lemma kinv_newborn s s' h l q i t : KInv s h l -> running s q -> table s i = None -> (1 <= i < 256)%nat -> frame_of s s' ->
  s_pid_seq s' = s_pid_seq s + 1 -> (forall k, table s' k = if decide (k = i) then Some (newborn s q t) else table s k) ->
  (forall k b' t', table s k = Some b' -> b_task b' = Some t' -> exists j, t' = Task j /\ owner s' j = Some (Slot k)) ->
  (forall t', t = Some t' -> exists j, t' = Task j /\ owner s' j = Some (Slot i)) -> FInv (fds s') h l ->
  (forall k fd fp, p_fd_table (fds s') !! (k, fd) = Some fp -> k = i /\ 0 <= fd < 256 \/ p_fd_table (fds s) !! (k, fd) = Some fp) ->
  KInv s' h l.
Proof.
  intros HK Hq Hi Hr [Fp Ft Fk Fl] Hseq Ht Hold Hnew Hf Hfd. pose proof (running_pid _ _ _ _ HK Hq) as Hpid.
  pose proof HK as [K1 K2 K3 K4 K5 K6 K7 K8 K9 K10 K11 K12].
  assert (Hs : forall k c, table s' k = Some c -> k = i /\ c = newborn s q t \/ k ≠ i /\ table s k = Some c).
  { intros k c. rewrite Ht. case_decide; [intros [= <-]; by left|by right]. }
  constructor; try congruence; try lia.
  - intros k c [[-> ->]|[_ Hc]]%Hs; [cbn; lia|]. destruct (K6 k c Hc). lia.
  - intros k j c d [[-> ->]|[Hk Hc]]%Hs [[-> ->]|[Hj Hd]]%Hs; try done; cbn.
    + destruct (K6 j d Hd). lia.
    + destruct (K6 k c Hc). lia.
    + by apply K7.
  - intros k c [[-> ->]|[Hk Hc]]%Hs.
    + destruct q as [|j]; [left; split; [done|]; exact K3|right]. destruct Hq as (d & Hd & _). exists j, d. rewrite Ht, decide_False by congruence.
      destruct (table_fields s j d Hd) as (_ & Ep & _). split; [done|]. split; [done|]. split; [exact Ep|congruence].
    + destruct (K8 k c Hc) as [?|(j & d & Hj & Hd & Hp & Hne)]; [by left|right]. exists j, d. rewrite Ht, decide_False by congruence. done.
  - destruct K9 as (j & d & ? & Hd & ? & ?). exists j, d. rewrite Ht, decide_False by congruence. by rewrite Fl.
  - intros k j c d x [[-> ->]|[Hk Hc]]%Hs [[-> ->]|[Hj Hd]]%Hs; cbn; try done.
    + intros Ep Hx. destruct q as [|m]; [cbn in Ep; rewrite K3 in Ep; destruct (K6 j d Hd); lia|]. destruct Hq as (e & He & Hex).
      destruct (table_fields s m e He) as (_ & Em & _). rewrite Em in Ep. assert (m = j) as -> by (by eapply (K7 m j)). congruence.
    + by apply (K10 k j).
  - intros k c t' [[-> ->]|[Hk Hc]]%Hs; [by apply Hnew|by eapply Hold].
  - intros k fd fp [[-> ?]|[? [?|(b & Hb & Hx)]]%K12]%Hfd; (split; [done|]).
    + right. exists (newborn s q t). by rewrite Ht, decide_True.
    + by left.
    + right. exists b. rewrite Ht, decide_False by congruence. done.
Qed.

Lemma kinv_no_fds s h l i : KInv s h l -> (i < 256)%nat -> (forall b, table s i = Some b -> is_Some (b_exit b)) -> forall fd, p_fd_table (fds s) !! (i, fd) = None.
Proof.
  intros HK Hi Hb fd. destruct (_ !! _) as [fp|] eqn:E; [|done]. destruct (k_fds _ _ _ HK _ _ _ E) as [_ [->|(b & Hb' & Hx)]].
  - unfold PROC_POOL_SIZE in Hi. lia.
  - destruct (Hb b Hb') as [? ?]. congruence.
Qed.

(** Creating a process never fails an assertion; unless the table is full it
    fills a slot, even when it returns an error. *)
Lemma create_child s h l q name r v : KInv s h l -> running s q -> s_pid_seq s < 2 ^ 32 - 1 -> room (fds s) 256 -> fresh_heap v (fds s) ->
  exists s' c, proc_create (Some q) name r v s = Some (s', c) /\ KInv s' h l /\
    (c = inl CHIMERA_ERR_NOMEM /\ s' = s /\ (forall i, (1 <= i < 256)%nat -> is_Some (table s i)) \/
     exists i t, table s i = None /\ (1 <= i < 256)%nat /\ (forall k, table s' k = if decide (k = i) then Some (newborn s q t) else table s k) /\
       match c with inl _ => t = None | inr p => p = Slot i /\ is_Some t end).
Proof.
  intros HK Hq Hseq Hroom Hv. pose proof (k_seq _ _ _ HK) as Hs1.
  destruct (free_slot s) as [i|] eqn:Ef.
  2:{ exists s, (inl CHIMERA_ERR_NOMEM). unfold proc_create. rewrite Ef. split; [done|]. split; [done|]. left. split; [done|]. split; [done|].
      intros i. by apply free_slot_none. }
  destruct (free_slot_spec s i Ef) as [Hi Hti].
  assert (Hqi : q ≠ Slot i) by (intros ->; destruct Hq as (? & ? & _); congruence).
  assert (Hoi : fd_owner q ≠ i) by (destruct q; cbn; [unfold PROC_POOL_SIZE; lia|congruence]).
  pose proof (kinv_no_fds s h l i HK ltac:(lia) ltac:(by rewrite Hti)) as Hno.
  destruct (newborn_fds_inv q i v (fds s) h l (k_files _ _ _ HK) Hno Hoi Hroom Hv) as (f & Enf & HIf & Hkeys).
  pose proof (create_effect q name r v s i Ef (k_pool _ _ _ HK) (k_tasks _ _ _ HK) ltac:(lia) Hqi) as Hc. rewrite Enf in Hc.
  destruct (proc_create (Some q) name r v s) as [[s' c]|]; [|done]. destruct Hc as (F & Hseq' & Hc).
  exists s', c. split; [done|]. destruct c as [e|p].
  - destruct Hc as (Ht & Ho & Hd). split; [|right; by exists i, None]. destruct (forget_fds_same i (fds s) h l Hno) as [Et HF].
    apply (kinv_newborn s s' h l q i None); try done.
    + intros k b' t' Hb Ht'. destruct (k_task _ _ _ HK k b' t' Hb Ht') as (j & -> & Hj). exists j. by rewrite Ho.
    + rewrite Hd. apply HF, HK.
    + intros k fd fp. rewrite Hd, Et. auto.
  - destruct Hc as (-> & j & Hj & Ht & Ho & [= ->]). split; [|right; exists i, (Some (Task j)); by eauto].
    apply (kinv_newborn s s' h l q i (Some (Task j))); try done.
    + intros k b' t' Hb Ht'. destruct (k_task _ _ _ HK k b' t' Hb Ht') as (j' & -> & Hj'). exists j'. rewrite Ho, decide_False; [done|congruence].
    + intros t' [= <-]. exists j. by rewrite Ho, decide_True.
Qed.

(** The table after the process [pid] in slot [i] has exited. *)
Definition after_exit (i ld : nat) (pid code : Z) (k : nat) (c : brief) : brief :=
  let c := if b_ppid c =? pid then c <| b_parent := Some (Slot ld) |> <| b_ppid := 1 |> else c in
  if decide (k = i) then c <| b_exit := Some code |> else c.

Lemma after_exit_fields i ld pid code k c : let c' := after_exit i ld pid code k c in
  b_pid c' = b_pid c /\ b_task c' = b_task c /\ b_exit c' = (if decide (k = i) then Some code else b_exit c) /\
  (if b_ppid c =? pid then b_parent c' = Some (Slot ld) /\ b_ppid c' = 1 else b_parent c' = b_parent c /\ b_ppid c' = b_ppid c).
Proof. unfold after_exit. by destruct (_ =? _), (decide _). Qed.

Lemma exit_spec s h l i b code : KInv s h l -> table s i = Some b -> b_exit b = None ->
  exists s' ld, proc_mark_exited (Slot i) code s = Some s' /\ KInv s' h l /\
    (forall k, table s' k = after_exit i ld (b_pid b) code k <$> table s k).
Proof.
  intros HK Hb Hx. pose proof HK as [K1 K2 K3 K4 K5 K6 K7 K8 K9 K10 K11 K12]. destruct K9 as (ld & lb & Hld & Hlb & Hl1 & Hlp).
  destruct (exit_inv (fds s) h l i K4) as (f & Ef & HIf). destruct (table_fields s i b Hb) as (_ & Epid & _). cbv zeta in Epid.
  destruct (exit_effect (Slot i) i code s f (Slot ld) eq_refl Hld) as (s' & E & [Fp Ft Fk Fl] & Ht & Ho & Hd & Hq); [|done|].
  { by destruct (table_fields s ld lb Hlb) as (_ & -> & _). }
  assert (Ht' : forall k, table s' k = after_exit i ld (b_pid b) code k <$> table s k).
  { intros k. rewrite Ht, Epid. destruct (table s k) as [c|] eqn:Hc; [|done]. cbn. f_equal. unfold after_exit, adopted.
    rewrite (child_of_pid s h l i b k c HK Hb Hc). destruct (K6 k c Hc) as [Hk _]. destruct k; [lia|]. cbn [Nat.leb andb]. done. }
  clear Ht. rename Ht' into Ht. exists s', ld. split; [done|]. split; [|done].
  assert (Hs : forall k c', table s' k = Some c' -> exists c, table s k = Some c /\ c' = after_exit i ld (b_pid b) code k c).
  { intros k c'. rewrite Ht. intros (c & Hc & ->)%fmap_Some. by exists c. }
  assert (Hpos : 0 < b_pid b) by (apply (K6 i b Hb)).
  assert (Hl0 : b_ppid lb = 0) by (destruct (K8 ld lb Hlb) as [[_ ?]|(? & ? & ? & _)]; [done|congruence]).
  assert (Hlp' : b_ppid lb =? b_pid b = false) by (apply Z.eqb_neq; lia).
  constructor; try congruence.
  - intros k c' (c & Hc & ->)%Hs. destruct (after_exit_fields i ld (b_pid b) code k c) as (-> & _). rewrite Hq. by apply K6.
  - intros k j c' d' (c & Hc & ->)%Hs (d & Hd' & ->)%Hs. destruct (after_exit_fields i ld (b_pid b) code k c) as (-> & _).
    destruct (after_exit_fields i ld (b_pid b) code j d) as (-> & _). by apply K7.
  - intros k c' (c & Hc & ->)%Hs. destruct (after_exit_fields i ld (b_pid b) code k c) as (_ & _ & _ & Hp). destruct (Z.eqb_spec (b_ppid c) (b_pid b)) as [Ec|Ec].
    + destruct Hp as [Hp1 Hp2]. right. exists ld, (after_exit i ld (b_pid b) code ld lb). split; [done|]. split; [by rewrite Ht, Hlb|].
      destruct (after_exit_fields i ld (b_pid b) code ld lb) as (-> & _). split; [lia|]. intros ->. assert (c = lb) as -> by congruence. lia.
    + destruct Hp as [Hp1 Hp2]. destruct (K8 k c Hc) as [[? ?]|(j & d & Hj & Hd' & Hpp & Hne)]; [left; split; congruence|right].
      exists j, (after_exit i ld (b_pid b) code j d). split; [congruence|]. split; [by rewrite Ht, Hd'|].
      destruct (after_exit_fields i ld (b_pid b) code j d) as (-> & _). split; [congruence|done].
  - exists ld, (after_exit i ld (b_pid b) code ld lb). rewrite Ht, Hlb. destruct (after_exit_fields i ld (b_pid b) code ld lb) as (-> & _ & _ & Hp).
    rewrite Hlp' in Hp. destruct Hp as [-> _]. split; [congruence|done].
  - intros k j c' d' x (c & Hc & ->)%Hs (d & Hd' & ->)%Hs. destruct (after_exit_fields i ld (b_pid b) code k c) as (_ & _ & _ & Hp).
    destruct (after_exit_fields i ld (b_pid b) code j d) as (-> & _ & -> & _). destruct (Z.eqb_spec (b_ppid c) (b_pid b)) as [Ec|Ec]; destruct Hp as [_ ->].
    + intros <-. done.
    + intros Ep. case_decide as D; [subst j; assert (d = b) as -> by congruence; congruence|]. by apply (K10 k j c d).
  - intros k c' t (c & Hc & ->)%Hs. destruct (after_exit_fields i ld (b_pid b) code k c) as (_ & -> & _). intros (j & -> & Hj)%(K11 k); [|done].
    exists j. by rewrite Ho.
  - intros k fd fp. rewrite Hd, (exit_keys i _ _ k fd Ef). case_decide as D; [done|]. intros [Hr [?|(c & Hc & Hx')]]%K12; (split; [done|]); [by left|right].
    exists (after_exit i ld (b_pid b) code k c). rewrite Ht, Hc. split; [done|].
    destruct (after_exit_fields i ld (b_pid b) code k c) as (_ & _ & -> & _). rewrite decide_False; [done|]. intros ->. tauto.
Qed.

(** ** The tree of processes *)

(** Every process has a parent and, once it has exited, an exit code. *)
Notation ptree := (gmap Z (Z * option Z)).

Definition orphan (pid : Z) (x : Z * option Z) : Z * option Z := if x.1 =? pid then (1, x.2) else x.

Inductive label :=
| Fork (ppid pid : Z)
| LostFork (ppid pid : Z)         (* the caller is told that it failed *)
| Exit (pid code : Z)
| Wait (pid child status : Z)
| Other.

Inductive tstep (t : ptree) : label -> ptree -> Prop :=
| t_fork ppid pid : t !! pid = None -> ppid = 0 \/ (exists pp, t !! ppid = Some (pp, None)) ->
    tstep t (Fork ppid pid) (<[pid := (ppid, None)]> t)
| t_lost ppid pid : t !! pid = None -> ppid = 0 \/ (exists pp, t !! ppid = Some (pp, None)) ->
    tstep t (LostFork ppid pid) (<[pid := (ppid, None)]> t)
| t_exit pid ppid code : t !! pid = Some (ppid, None) ->
    tstep t (Exit pid code) (<[pid := (ppid, Some code)]> (orphan pid <$> t))
| t_wait pid child code : t !! child = Some (pid, Some code) ->
    tstep t (Wait pid child (u32 (Z.shiftl code 8))) (delete child t)
| t_other : tstep t Other t.

Definition represents (s : system) (t : ptree) : Prop :=
  forall pid x, t !! pid = Some x <-> exists i b, table s i = Some b /\ b_pid b = pid /\ x = (b_ppid b, b_exit b).

Lemma represents_quiet s s' t : (forall i, table s' i = table s i) -> represents s t -> represents s' t.
Proof. intros Ht Hr pid x. rewrite (Hr pid x). split; intros (i & b & Hb & ?); exists i, b; by rewrite Ht in *. Qed.

Lemma represents_running s h l t q : KInv s h l -> represents s t -> running s q ->
  p_pid (proc_at s q) = 0 \/ exists pp, t !! p_pid (proc_at s q) = Some (pp, None).
Proof.
  intros HK Hr. destruct q as [|i]; [intros _; left; apply (k_kernel _ _ _ HK)|]. intros (b & Hb & Hx). right. exists (b_ppid b).
  destruct (table_fields s i b Hb) as (_ & -> & _). apply Hr. exists i, b. by rewrite Hx.
Qed.

Lemma represents_create s s' h l t q i u : KInv s h l -> represents s t -> table s i = None ->
  (forall k, table s' k = if decide (k = i) then Some (newborn s q u) else table s k) ->
  t !! s_pid_seq s = None /\ represents s' (<[s_pid_seq s := (p_pid (proc_at s q), None)]> t).
Proof.
  intros HK Hr Hi Ht. assert (Hnone : t !! s_pid_seq s = None).
  { destruct (t !! s_pid_seq s) eqn:E; [|done]. apply Hr in E as (k & b & Hb & Hp & _). destruct (k_range _ _ _ HK k b Hb). lia. }
  split; [done|]. intros pid x. rewrite lookup_insert_Some, (Hr pid x). split.
  - intros [[<- <-]|[Hne (k & b & Hb & Hp & Hx)]]; [exists i, (newborn s q u); by rewrite Ht, decide_True|].
    exists k, b. rewrite Ht, decide_False; [done|congruence].
  - intros (k & b & Hb & Hp & Hx). rewrite Ht in Hb. case_decide; [injection Hb as <-; left; by subst|right].
    split; [|by exists k, b]. destruct (k_range _ _ _ HK k b Hb). lia.
Qed.

Lemma represents_exit s s' h l t i b ld code : KInv s h l -> represents s t -> table s i = Some b -> b_exit b = None ->
  (forall k, table s' k = after_exit i ld (b_pid b) code k <$> table s k) ->
  t !! b_pid b = Some (b_ppid b, None) /\ represents s' (<[b_pid b := (b_ppid b, Some code)]> (orphan (b_pid b) <$> t)).
Proof.
  intros HK Hr Hb Hx Ht. split; [apply Hr; exists i, b; by rewrite Hx|].
  assert (Hself : b_ppid b ≠ b_pid b).
  { intros E. destruct (k_parent _ _ _ HK i b Hb) as [[_ E0]|(j & c & _ & Hc & Ec & Hne)]; [destruct (k_range _ _ _ HK i b Hb); lia|].
    apply Hne. eapply (k_inj _ _ _ HK); [done..|congruence]. }
  intros pid x. rewrite lookup_insert_Some, lookup_fmap, fmap_Some. split.
  - intros [[<- <-]|[Hne (y & (k & c & Hc & Hp & ->)%Hr & ->)]].
    + exists i, (after_exit i ld (b_pid b) code i b). rewrite Ht, Hb. split; [done|].
      destruct (after_exit_fields i ld (b_pid b) code i b) as (-> & _ & -> & Hp). rewrite decide_True by done.
      rewrite (proj2 (Z.eqb_neq _ _)) in Hp by done. by destruct Hp as [_ ->].
    + exists k, (after_exit i ld (b_pid b) code k c). rewrite Ht, Hc. split; [done|].
      destruct (after_exit_fields i ld (b_pid b) code k c) as (-> & _ & -> & Hpp). split; [done|]. rewrite decide_False by congruence.
      unfold orphan. cbn. destruct (_ =? _); by destruct Hpp as [_ ->].
  - intros (k & c' & Hc' & Hp & ->). rewrite Ht in Hc'. apply fmap_Some in Hc' as (c & Hc & ->).
    destruct (after_exit_fields i ld (b_pid b) code k c) as (Ep & _ & Ee & Hpp). rewrite Ep in Hp. rewrite Ee. destruct (decide (k = i)) as [->|Hk].
    + assert (c = b) as -> by congruence. left. split; [done|]. rewrite (proj2 (Z.eqb_neq _ _)) in Hpp by done. by destruct Hpp as [_ ->].
    + right. split; [intros E; apply Hk; eapply (k_inj _ _ _ HK); [done..|congruence]|]. exists (b_ppid c, b_exit c). split; [apply Hr; by exists k, c|].
      unfold orphan. cbn. destruct (_ =? _); by destruct Hpp as [_ ->].
Qed.

Lemma represents_reap s h l t i b code : KInv s h l -> represents s t -> table s i = Some b -> b_exit b = Some code ->
  t !! b_pid b = Some (b_ppid b, Some code) /\ represents (proc_reap (Slot i) s) (delete (b_pid b) t).
Proof.
  intros HK Hr Hb Hx. destruct (reap_effect i s b code Hb Hx) as (_ & Ht & _). cbv zeta in Ht. split; [apply Hr; exists i, b; by rewrite Hx|].
  intros pid x. rewrite lookup_delete_Some, (Hr pid x). split.
  - intros (Hne & k & c & Hc & Hp & ->). exists k, c. rewrite Ht, decide_False; [done|]. intros ->. congruence.
  - intros (k & c & Hc & Hp & ->). rewrite Ht in Hc. case_decide as D; [done|]. split; [|by exists k, c].
    intros E. apply D. eapply (k_inj _ _ _ HK); [done..|congruence].
Qed.

(** ** Waiting for a child *)

Lemma find_some f from s i : proc_find f from s = Some i -> (from <= i)%nat /\ exists b, table s i = Some b /\ f (proc_at s (Slot i)) = true.
Proof.
  intros (Hi & [Hl Hf]%andb_true_iff & _)%scan_some. split; [lia|]. apply is_live_table in Hl as [b Hb]. by exists b.
Qed.
Lemma find_none f from s h l i b : KInv s h l -> proc_find f from s = None -> (from <= 1)%nat -> table s i = Some b -> f (proc_at s (Slot i)) = false.
Proof.
  intros HK E Hf Hb. destruct (k_range _ _ _ HK i b Hb) as [Hi _]. assert (Hl : (i < PROC_POOL_SIZE)%nat).
  { rewrite <- (k_pool _ _ _ HK). unfold table in Hb. destruct (s_proc_pool s !! i) eqn:Ep; [|done]. by apply lookup_lt_Some in Ep. }
  destruct (f _) eqn:Ef; [|done]. exfalso. apply (scan_none _ _ _ i E); [lia|]. apply andb_true_iff. split; [|done].
  apply is_live_table. by exists b.
Qed.

Lemma is_child_pid s h l i b k c : KInv s h l -> table s i = Some b -> table s k = Some c ->
  is_child (Slot i) s (proc_at s (Slot k)) = (b_ppid c =? b_pid b).
Proof.
  intros HK Hb Hc. rewrite <- (child_of_pid s h l i b k c HK Hb Hc). unfold is_child, child_of.
  destruct (table_fields s k c Hc) as (_ & _ & -> & -> & _). by destruct (table_fields s i b Hb) as (_ & -> & _).
Qed.

Lemma has_children_spec s h l t i b : KInv s h l -> represents s t -> table s i = Some b ->
  if proc_has_children (Slot i) s then exists c y, t !! c = Some (b_pid b, y) else forall c y, t !! c ≠ Some (b_pid b, y).
Proof.
  intros HK Hr Hb. unfold proc_has_children. destruct (proc_find _ 1 s) as [k|] eqn:E.
  - rewrite bool_decide_true by done. destruct (find_some _ _ _ _ E) as (_ & c & Hc & Hch). rewrite (is_child_pid s h l i b k c HK Hb Hc) in Hch.
    apply Z.eqb_eq in Hch. exists (b_pid c), (b_exit c). apply Hr. exists k, c. by rewrite Hch.
  - rewrite bool_decide_false by (by intros []). intros c y (k & d & Hd & _ & [= Ed _])%Hr.
    pose proof (find_none _ _ s h l k d HK E ltac:(lia) Hd) as Hf. rewrite (is_child_pid s h l i b k d HK Hb Hd), <- Ed, Z.eqb_refl in Hf. done.
Qed.

(** A child of [ppid] that a wait for [pid] may take. *)
Definition zombie (t : ptree) (ppid pid c code : Z) : Prop := t !! c = Some (ppid, Some code) /\ (any_pid pid = true \/ c = pid).

Lemma waitable_spec s h l t i b pid : KInv s h l -> represents s t -> table s i = Some b ->
  match proc_find_waitable_child (Slot i) pid s with
  | Some k => exists c code, table s k = Some c /\ b_ppid c = b_pid b /\ b_exit c = Some code /\ zombie t (b_pid b) pid (b_pid c) code
  | None => forall c code, ~ zombie t (b_pid b) pid c code
  end.
Proof.
  intros HK Hr Hb. unfold proc_find_waitable_child. destruct (proc_find _ 1 s) as [k|] eqn:E.
  - destruct (find_some _ _ _ _ E) as (_ & c & Hc & [[Hch Hp]%andb_true_iff Hx]%andb_true_iff).
    rewrite (is_child_pid s h l i b k c HK Hb Hc) in Hch. apply Z.eqb_eq in Hch.
    destruct (table_fields s k c Hc) as (_ & Ep & _ & _ & _ & Ex & _). cbv zeta in *. rewrite Ex in Hx. apply bool_decide_eq_true in Hx as [code Hx].
    exists c, code. do 3 (split; [done|]). split; [apply Hr; exists k, c; by rewrite Hx, Hch|].
    apply orb_true_iff in Hp as [?|Hp%Z.eqb_eq]; [by left|right; congruence].
  - intros c code [(k & d & Hd & Hp & [= Ed Ex])%Hr Hsel]. pose proof (find_none _ _ s h l k d HK E ltac:(lia) Hd) as Hf. cbv beta in Hf.
    rewrite (is_child_pid s h l i b k d HK Hb Hd), <- Ed, Z.eqb_refl in Hf. destruct (table_fields s k d Hd) as (_ & Ep & _ & _ & _ & Es & _). cbv zeta in *.
    rewrite Es, <- Ex, Ep, Hp in Hf. rewrite bool_decide_true in Hf by done. destruct Hsel as [Ha| ->]; [by rewrite Ha in Hf|by rewrite Z.eqb_refl, orb_true_r in Hf].
Qed.

Lemma wait4_round_spec s h l t i b first pid options : KInv s h l -> represents s t -> table s i = Some b -> b_exit b = None ->
  let '(s', r) := wait4_round first (Slot i) pid options s in
  KInv s' h l /\
  match r with
  | WaitChild c st => exists code, zombie t (b_pid b) pid c code /\ st = u32 (Z.shiftl code 8) /\ represents s' (delete c t)
  | WaitNothing => s' = s /\ has options 1 = true /\ (forall c code, ~ zombie t (b_pid b) pid c code)
  | WaitNoChild => s' = s /\ (forall c y, t !! c ≠ Some (b_pid b, y))
  | WaitSleep => s' = s /\ has options 1 = false /\ (forall c code, ~ zombie t (b_pid b) pid c code) /\ exists c y, t !! c = Some (b_pid b, y)
  end.
Proof.
  intros HK Hr Hb Hx. unfold wait4_round. pose proof (has_children_spec s h l t i b HK Hr Hb) as Hch.
  pose proof (waitable_spec s h l t i b pid HK Hr Hb) as Hw.
  destruct (first && negb (proc_has_children (Slot i) s)) eqn:E0.
  { apply andb_true_iff in E0 as [_ E0%negb_true_iff]. rewrite E0 in Hch. done. }
  destruct (proc_find_waitable_child (Slot i) pid s) as [k|].
  - destruct Hw as (c & code & Hc & Hpp & Hxc & Hz). destruct (table_fields s k c Hc) as (_ & Ep & _ & _ & _ & _ & Ec). cbv zeta in *.
    assert (Hn1 : b_pid c ≠ 1).
    { intros E1. destruct (k_launchd _ _ _ HK) as (j & d & _ & Hd & Hd1 & Hdp). assert (k = j) as -> by (eapply (k_inj _ _ _ HK); [done..|congruence]).
      assert (c = d) as -> by congruence. destruct (k_parent _ _ _ HK j d Hd) as [[_ E]|(? & ? & E & _)]; [|congruence].
      destruct (k_range _ _ _ HK i b Hb). lia. }
    pose proof (kinv_reap s h l k c code HK Hc Hxc Hn1) as HK'. destruct (represents_reap s h l t k c code HK Hr Hc Hxc) as [_ Hr'].
    set (s1 := proc_reap (Slot k) s) in *. clearbody s1.
    assert (Hq : quiet s1 (set_proc (Slot i) (fun pr => pr <| p_sigpending ::= fun m => Z.land m (not32 (sigbit SIGCHLD)) |>) s1)) by auto with procs.
    split; [by apply (kinv_quiet s1)|]. exists code. rewrite Ep, (Ec code Hxc). split; [done|]. split; [done|]. apply (represents_quiet s1); [apply Hq|done].
  - destruct (has options 1); [done|]. by destruct (proc_has_children (Slot i) s).
Qed.

(** ** All processes together *)

(** The state with the references to open files that running system calls
    hold, and those that are lost. *)
Record kernel_state := { sys : system; kheld : fptr -> Z; kleaked : fptr -> Z }.

Implicit Types x : kernel_state.

(** What the step may take from the other components. *)
Definition can_create (s : system) (q : pptr) (v : vnodes) : Prop :=
  running s q /\ s_pid_seq s < 2 ^ 32 - 1 /\ room (fds s) 256 /\ fresh_heap v (fds s).

Inductive kstep x : label -> kernel_state -> Prop :=
| k_create q name r v s' p : can_create (sys x) q v -> proc_create (Some q) name r v (sys x) = Some (s', inr p) ->
    kstep x (Fork (p_pid (proc_at (sys x) q)) (p_pid (proc_at s' p))) {| sys := s'; kheld := kheld x; kleaked := kleaked x |}
| k_create_failed q name r v s' e : can_create (sys x) q v -> proc_create (Some q) name r v (sys x) = Some (s', inl e) ->
    kstep x (if free_slot (sys x) then LostFork (p_pid (proc_at (sys x) q)) (s_pid_seq (sys x)) else Other)
      {| sys := s'; kheld := kheld x; kleaked := kleaked x |}
| k_exit i code s' : running (sys x) (Slot i) -> proc_mark_exited (Slot i) code (sys x) = Some s' ->
    kstep x (Exit (p_pid (proc_at (sys x) (Slot i))) code) {| sys := s'; kheld := kheld x; kleaked := kleaked x |}
| k_wait i first pid options s' r : running (sys x) (Slot i) -> wait4_round first (Slot i) pid options (sys x) = (s', r) ->
    kstep x (match r with WaitChild c st => Wait (p_pid (proc_at (sys x) (Slot i))) c st | _ => Other end)
      {| sys := s'; kheld := kheld x; kleaked := kleaked x |}
| k_kill cur pid sig : kstep x Other {| sys := (sys_kill cur pid sig (sys x)).1; kheld := kheld x; kleaked := kleaked x |}
| k_setpgid cur pid pgrp : kstep x Other {| sys := (sys_setpgid cur pid pgrp (sys x)).1; kheld := kheld x; kleaked := kleaked x |}
| k_setsid cur : kstep x Other {| sys := (sys_setsid cur (sys x)).1; kheld := kheld x; kleaked := kleaked x |}
| k_task_change t f : (forall ta, ta_signature (f ta) = ta_signature ta /\ ta_proc (f ta) = ta_proc ta) ->
    kstep x Other {| sys := set_task t f (sys x); kheld := kheld x; kleaked := kleaked x |}
| k_call c : kstep x Other {| sys := calls c (sys x); kheld := kheld x; kleaked := kleaked x |}
| k_descriptors y : step {| fs := fds (sys x); held := kheld x; leaked := kleaked x |} y ->
    (forall i fd fp, p_fd_table (fs y) !! (i, fd) = Some fp -> 0 <= fd < 256 /\ (i = PROC_POOL_SIZE \/ running (sys x) (Slot i))) ->
    kstep x Other {| sys := (sys x) <| fds := fs y |>; kheld := held y; kleaked := leaked y |}.

Inductive steps {A} (R : A -> label -> A -> Prop) (a : A) : list label -> A -> Prop :=
| steps_nil : steps R a [] a
| steps_snoc ls b l c : steps R a ls b -> R b l c -> steps R a (ls ++ [l]) c.

Definition kinv x : Prop := KInv (sys x) (kheld x) (kleaked x).

Lemma quiet_step x s' t : quiet (sys x) s' -> kinv x -> represents (sys x) t ->
  kinv {| sys := s'; kheld := kheld x; kleaked := kleaked x |} /\ represents s' t.
Proof. intros Hq HK Hr. split; [by apply (kinv_quiet (sys x))|]. apply (represents_quiet (sys x)); [apply Hq|done]. Qed.

Lemma kinv_fds s h l f h' l' : KInv s h l -> FInv f h' l' ->
  (forall i fd fp, p_fd_table f !! (i, fd) = Some fp -> 0 <= fd < 256 /\ (i = PROC_POOL_SIZE \/ running s (Slot i))) -> KInv (s <| fds := f |>) h' l'.
Proof. intros [K1 K2 K3 K4 K5 K6 K7 K8 K9 K10 K11 K12] HF Hk. constructor; try done. Qed.

Lemma kstep_tstep x l x' t : kstep x l x' -> kinv x -> represents (sys x) t -> kinv x' /\ exists t', tstep t l t' /\ represents (sys x') t'.
Proof.
  intros Hs HK Hr. assert (Hquiet : forall s', quiet (sys x) s' -> kinv {| sys := s'; kheld := kheld x; kleaked := kleaked x |} /\
    exists t', tstep t Other t' /\ represents s' t').
  { intros s' Hq. destruct (quiet_step x s' t Hq HK Hr). split; [done|]. exists t. by split; [constructor|]. }
  destruct Hs as [q name r v s' p (Hq & Hseq & Hroom & Hv) E|q name r v s' e (Hq & Hseq & Hroom & Hv) E|i code s' (b & Hb & Hx) E
    |i first pid options s' r (b & Hb & Hx) E|cur pid sig|cur pid pgrp|cur|tp f Hf|c|y Hy Hk]; cbn [sys].
  - destruct (create_child _ _ _ q name r v HK Hq Hseq Hroom Hv) as (s1 & c & E1 & HK' & Hc). rewrite E in E1. injection E1 as <- <-.
    split; [done|]. destruct Hc as [(? & _)|(i & u & Hi & _ & Ht & -> & _)]; [done|].
    destruct (represents_create _ s' _ _ t q i u HK Hr Hi Ht) as [Hn Hr']. eexists. split; [|exact Hr'].
    assert (Hnew : table s' i = Some (newborn (sys x) q u)) by (by rewrite Ht, decide_True).
    destruct (table_fields s' i _ Hnew) as (_ & -> & _). constructor; [done|by apply (represents_running _ _ _ t q HK)].
  - destruct (create_child _ _ _ q name r v HK Hq Hseq Hroom Hv) as (s1 & c & E1 & HK' & Hc). rewrite E in E1. injection E1 as <- <-.
    split; [done|]. destruct Hc as [(_ & -> & Hfull)|(i & u & Hi & Hr1 & Ht & _)].
    + destruct (free_slot (sys x)) as [i|] eqn:Ef; [|exists t; split; [constructor|done]]. destruct (free_slot_spec _ _ Ef) as [Hi Hn].
      destruct (Hfull i Hi). congruence.
    + destruct (free_slot (sys x)) as [k|] eqn:Ef; [|destruct (free_slot_none _ i Ef Hr1); congruence].
      destruct (represents_create _ s' _ _ t q i u HK Hr Hi Ht) as [Hn Hr']. eexists. split; [|exact Hr'].
      constructor; [done|by apply (represents_running _ _ _ t q HK)].
  - destruct (exit_spec _ _ _ i b code HK Hb Hx) as (s1 & ld & E1 & HK' & Ht). rewrite E in E1. injection E1 as <-. split; [done|].
    destruct (represents_exit _ s' _ _ t i b ld code HK Hr Hb Hx Ht) as [Hp Hr']. eexists. split; [|exact Hr'].
    destruct (table_fields _ i b Hb) as (_ & -> & _). by constructor.
  - pose proof (wait4_round_spec _ _ _ t i b first pid options HK Hr Hb Hx) as Hw. rewrite E in Hw. destruct Hw as [HK' Hw]. split; [done|].
    destruct r as [c st| | |]; try (destruct Hw as [-> _]; exists t; by split; [constructor|]).
    destruct Hw as (code & [Hz _] & -> & Hr'). eexists. split; [|exact Hr']. destruct (table_fields _ i b Hb) as (_ & -> & _). by constructor.
  - apply Hquiet, quiet_kill.
  - apply Hquiet, quiet_setpgid.
  - apply Hquiet, quiet_setsid.
  - by apply Hquiet, quiet_task.
  - by apply Hquiet.
  - split; [|exists t; by split; [constructor|]]. eapply (kinv_fds (sys x)); [exact HK|exact (step_inv {| fs := fds (sys x); held := kheld x; leaked := kleaked x |} y (k_files _ _ _ HK) Hy)|done].
Qed.

(** ** Start-up *)

Definition empty_system (io : gmap nat Z) : system :=
  {| s_proc_pool := replicate PROC_POOL_SIZE zero_proc; s_kernel_proc := zero_proc; s_task_pool := replicate TASK_POOL_SIZE zero_task;
     s_task_kernel := zero_task; s_pid_seq := 1; proc_launchd := None; fds := fs (initial io); trace := [] |}.

(** The kernel's process is set up, then launchd is created. *)
Definition boot (io : gmap nat Z) (r : resources) (v : vnodes) : option system := launchd_chimera_start r v (proc_init (empty_system io)).

Lemma empty_table io i : table (proc_init (empty_system io)) i = None.
Proof. unfold table. cbn [s_proc_pool proc_init empty_system fupd system_eta]. destruct (_ !! i) as [p|] eqn:E; [|done]. by apply lookup_replicate in E as [-> _]. Qed.

Lemma launch_inv io r v s : fresh_heap v (fs (initial io)) -> boot io r v = Some s ->
  kinv {| sys := s; kheld := fun _ => 0; kleaked := fun _ => 0 |} /\ represents s {[1 := (0, None)]}.
Proof.
  intros Hv. unfold boot, launchd_chimera_start. set (s0 := proc_init (empty_system io)).
  assert (Et0 : forall i, table s0 i = None) by apply empty_table.
  assert (Hf : free_slot s0 = Some 1%nat) by (vm_compute; reflexivity).
  assert (Hfd : forall k fd, p_fd_table (fds s0) !! (k, fd) = None) by (intros k fd; unfold s0; cbn; by rewrite map_filter_empty, lookup_empty).
  destruct (forget_fds_same PROC_POOL_SIZE (fs (initial io)) (fun _ => 0) (fun _ => 0)) as [_ HF]; [by intros|].
  specialize (HF (initial_inv io)). change (forget_fds PROC_POOL_SIZE (fs (initial io))) with (fds s0) in HF.
  destruct (newborn_fds_inv KernelProc 1 v (fds s0) _ _ HF (Hfd 1%nat)) as (f & Enf & HIf & Hkeys); [done|by intros fp o|done|].
  pose proof (create_effect KernelProc [108; 97; 117; 110; 99; 104; 100] r v s0 1 Hf eq_refl eq_refl ltac:(done) ltac:(done)) as Hc.
  rewrite Enf in Hc. assert (Hk0 : p_pid (s_kernel_proc s0) = 0) by done. assert (Hs0 : s_pid_seq s0 = 1) by done.
  assert (Hl0 : length (s_proc_pool s0) = PROC_POOL_SIZE /\ length (s_task_pool s0) = TASK_POOL_SIZE) by done. clearbody s0.
  destruct (proc_create _ _ r v s0) as [[s' [e|p]]|]; [done| |done]. destruct Hc as ([Fp Ft Fk Fl] & Hq & -> & j & Hj & Ht & Ho & [= ->]).
  cbn [mbind option_bind]. destruct (_ =? 1); [|done]. intros [= <-].
  set (b := newborn s0 KernelProc (Some (Task j))) in *.
  assert (Hb : forall k c, table s' k = Some c -> k = 1%nat /\ c = b).
  { intros k c. rewrite Ht. case_decide; [intros [= <-]; by split|by rewrite Et0]. }
  assert (Hb1 : table s' 1 = Some b) by (by rewrite Ht). assert (Ebp : b_pid b = 1) by done. assert (Ebpp : b_ppid b = 0) by done.
  split; [constructor; cbn [sys kheld kleaked]|].
  - cbn. rewrite Fp. apply Hl0.
  - cbn. rewrite Ft. apply Hl0.
  - cbn. by rewrite Fk.
  - done.
  - cbn. lia.
  - intros k c [-> ->]%Hb. cbn [s_pid_seq fupd system_eta]. rewrite Hq. lia.
  - by intros k k' c d [-> _]%Hb [-> _]%Hb.
  - intros k c [-> ->]%Hb. by left.
  - exists 1%nat, b. done.
  - intros k k' c d code [-> ->]%Hb [-> ->]%Hb. lia.
  - intros k c t [-> ->]%Hb [= <-]. exists j. split; [done|]. change (owner s' j = Some (Slot 1)). by rewrite Ho, decide_True.
  - intros k fd fp [[-> Hr]|Hr]%Hkeys; [|by rewrite Hfd in Hr]. split; [done|]. right. by exists b.
  - intros pid y. rewrite lookup_singleton_Some. split.
    + intros [<- <-]. exists 1%nat, b. split; [exact Hb1|]. split; [done|]. by rewrite Ebpp.
    + intros (k & c & [-> ->]%Hb & <- & ->). by rewrite Ebp, Ebpp.
Qed.

Lemma steps_sim x ls x' t : steps kstep x ls x' -> kinv x -> represents (sys x) t ->
  kinv x' /\ exists t', steps tstep t ls t' /\ represents (sys x') t'.
Proof.
  intros Hs HK Hr. induction Hs as [|ls y l z Hs IH Hstep]; [split; [done|]; exists t; by split; [constructor|]|].
  destruct IH as (HKy & ty & Hty & Hry). destruct (kstep_tstep y l z ty Hstep HKy Hry) as (HKz & tz & Htz & Hrz).
  split; [done|]. exists tz. split; [by econstructor|done].
Qed.

(** C5: Processes form a tree.  However the processes of the system fork,
    exit, wait for children, send signals and use descriptors, the process
    table behaves like a tree in which a process is added below its running
    parent, becomes a zombie with its exit code when it exits, its children
    then moving to launchd, and disappears when its parent has waited for it
    and received that code.  At any time the parent of every process is the
    kernel, a process that has not exited, or launchd.  Exiting never fails
    an assertion. *)
Theorem process_tree io r v s ls x : fresh_heap v (fs (initial io)) -> boot io r v = Some s ->
  steps kstep {| sys := s; kheld := fun _ => 0; kleaked := fun _ => 0 |} ls x ->
  exists t, steps tstep {[1 := (0, None)]} ls t /\ represents (sys x) t /\
    (forall pid ppid y, t !! pid = Some (ppid, y) -> ppid = 0 \/ exists pp z, t !! ppid = Some (pp, z) /\ (z = None \/ ppid = 1)) /\
    (forall i code, running (sys x) (Slot i) -> proc_mark_exited (Slot i) code (sys x) ≠ None).
Proof.
  intros Hv Hb Hs. destruct (launch_inv io r v s Hv Hb) as [HK Hr]. destruct (steps_sim _ _ _ _ Hs HK Hr) as (HKx & t & Ht & Hrx).
  exists t. split; [done|]. split; [done|]. split.
  - intros pid ppid y (i & b & Hi & Hp & [= -> ->])%Hrx. destruct (k_parent _ _ _ HKx i b Hi) as [[_ ?]|(j & c & _ & Hc & Ec & _)]; [by left|right].
    exists (b_ppid c), (b_exit c). split; [apply Hrx; by exists j, c|]. destruct (b_exit c) as [code|] eqn:Ex; [right|by left].
    rewrite Ec. by apply (k_orphan _ _ _ HKx i j b c code).
  - intros i code (b & Hi & Hx). by destruct (exit_spec _ _ _ i b code HKx Hi Hx) as (s' & ld & -> & _).
Qed.

(** A run: launchd forks, the child exits with 7, launchd waits for it. *)
Definition demo_resources : resources := {| r_pml4 := 0x1000; r_space := inr 1%nat; r_port := Some 0x103 |}.
Definition demo_vnodes : vnodes := {| v_root := Some 1%nat; v_console := None; v_null := None; v_device := false; v_kalloc := [] |}.

Definition booted : system := default (empty_system ∅) (boot ∅ demo_resources demo_vnodes).
Definition forked : system := match proc_create (Some (Slot 1)) [] demo_resources demo_vnodes booted with Some (s, _) => s | None => booted end.
Definition exited : system := default forked (proc_mark_exited (Slot 2) 7 forked).
Definition waited : system := (wait4_round true (Slot 1) 0 0 exited).1.

Lemma booted_boot : boot ∅ demo_resources demo_vnodes = Some booted.
Proof.
  assert (H : (match boot ∅ demo_resources demo_vnodes with Some _ => true | None => false end) = true) by (vm_compute; reflexivity).
  unfold booted. by destruct (boot ∅ demo_resources demo_vnodes).
Qed.
Lemma forked_create : proc_create (Some (Slot 1)) [] demo_resources demo_vnodes booted = Some (forked, inr (Slot 2)).
Proof.
  assert (H : (match proc_create (Some (Slot 1)) [] demo_resources demo_vnodes booted with Some (_, inr (Slot 2)) => true | _ => false end) = true) by (vm_compute; reflexivity).
  unfold forked. by destruct (proc_create _ _ _ _ booted) as [[s [?|[|[|[|[]]]]]]|].
Qed.
Lemma demo_heap io : fresh_heap demo_vnodes (fs (initial io)).
Proof. by split. Qed.
Lemma booted_can : can_create booted (Slot 1) demo_vnodes.
Proof.
  split; [|split; [vm_compute; reflexivity|split]].
  - exists (default (newborn booted KernelProc None) (table booted 1)). vm_compute. by split.
  - intros fp o. assert (E : objs (fds booted) = ∅) by (vm_compute; reflexivity). by rewrite E, lookup_empty.
  - split; intros n; by destruct n.
Qed.

Definition idle (s : system) : kernel_state := {| sys := s; kheld := fun _ => 0; kleaked := fun _ => 0 |}.

Lemma two_steps s0 s1 s2 r v i j p c code : can_create s0 (Slot i) v -> proc_create (Some (Slot i)) [] r v s0 = Some (s1, inr (Slot j)) ->
  p_pid (proc_at s0 (Slot i)) = p -> p_pid (proc_at s1 (Slot j)) = c -> running s1 (Slot j) -> proc_mark_exited (Slot j) code s1 = Some s2 ->
  steps kstep (idle s0) [Fork p c; Exit c code] (idle s2).
Proof.
  intros Hc E1 Ep Ec Hr1 E2. change [Fork p c; Exit c code] with (([] ++ [Fork p c]) ++ [Exit c code]).
  apply (steps_snoc _ _ _ (idle s1)); [apply (steps_snoc _ _ _ (idle s0)); [constructor|]|].
  - rewrite <- Ep, <- Ec. by apply (k_create (idle s0) (Slot i) [] r v s1 (Slot j)).
  - rewrite <- Ec. by apply (k_exit (idle s1) j code s2).
Qed.

Lemma wait_step s0 ls s2 s3 i p c pid st : steps kstep (idle s0) ls (idle s2) -> running s2 (Slot i) -> p_pid (proc_at s2 (Slot i)) = p ->
  wait4_round true (Slot i) pid 0 s2 = (s3, WaitChild c st) -> steps kstep (idle s0) (ls ++ [Wait p c st]) (idle s3).
Proof.
  intros Hs Hr <- E. apply (steps_snoc _ _ _ (idle s2)); [done|]. by apply (k_wait (idle s2) i true pid 0 s3 (WaitChild c st)).
Qed.

Lemma demo_zombie : steps kstep (idle booted) [Fork 1 2; Exit 2 7] (idle exited).
Proof.
  apply (two_steps booted forked exited demo_resources demo_vnodes 1 2 1 2 7 booted_can forked_create).
  - vm_compute. reflexivity.
  - vm_compute. reflexivity.
  - eexists. split; vm_compute; reflexivity.
  - assert (H : (match proc_mark_exited (Slot 2) 7 forked with Some _ => true | None => false end) = true) by (vm_compute; reflexivity).
    unfold exited. by destruct (proc_mark_exited (Slot 2) 7 forked).
Qed.

Lemma demo_run : steps kstep (idle booted) ([Fork 1 2; Exit 2 7] ++ [Wait 1 2 1792]) (idle waited).
Proof.
  apply (wait_step booted _ exited waited 1 1 2 0 1792 demo_zombie).
  - eexists. split; vm_compute; reflexivity.
  - vm_compute. reflexivity.
  - assert (H : (wait4_round true (Slot 1) 0 0 exited).2 = WaitChild 2 1792) by (vm_compute; reflexivity).
    unfold waited. destruct (wait4_round true (Slot 1) 0 0 exited) as [s w]. cbn in H |- *. by rewrite H.
Qed.

Lemma process_tree_witness : exists t, steps tstep {[1 := (0, None)]} [Fork 1 2; Exit 2 7; Wait 1 2 1792] t /\ represents (sys (idle waited)) t.
Proof.
  destruct (process_tree ∅ demo_resources demo_vnodes booted _ (idle waited) (demo_heap ∅) booted_boot demo_run) as (t & Ht & Hr & _). exists t. split; [exact Ht|exact Hr].
Defined.

(** ** The calls of a process *)

Definition reachable x : Prop :=
  exists io r v s ls, fresh_heap v (fs (initial io)) /\ boot io r v = Some s /\ steps kstep (idle s) ls x.

Lemma reachable_kinv x : reachable x -> kinv x /\ exists t, represents (sys x) t.
Proof.
  intros (io & r & v & s & ls & Hv & Hb & Hs). destruct (launch_inv io r v s Hv Hb) as [HK Hr].
  destruct (steps_sim (idle s) _ _ _ Hs HK Hr) as (HKx & t & _ & Hrx). split; [done|by exists t].
Qed.

(** C22: A round of [wait4] does what the tree of processes says.  It returns
    a child with its exit status, and the child is gone, exactly when the
    tree has a zombie below the caller that the argument selects; it returns
    ECHILD only to a caller without children, 0 only with WNOHANG, and sleeps
    only while there are children but no such zombie. *)
Theorem wait4_result x i b first pid options : reachable x -> table (sys x) i = Some b -> b_exit b = None ->
  exists t, represents (sys x) t /\
  let '(s', r) := wait4_round first (Slot i) pid options (sys x) in
  match r with
  | WaitChild c st => exists code, zombie t (b_pid b) pid c code /\ st = u32 (Z.shiftl code 8) /\ represents s' (delete c t)
  | WaitNothing => s' = sys x /\ has options 1 = true /\ (forall c code, ~ zombie t (b_pid b) pid c code)
  | WaitNoChild => s' = sys x /\ (forall c y, t !! c ≠ Some (b_pid b, y))
  | WaitSleep => s' = sys x /\ has options 1 = false /\ (forall c code, ~ zombie t (b_pid b) pid c code) /\ exists c y, t !! c = Some (b_pid b, y)
  end.
Proof.
  intros [HK [t Hr]]%reachable_kinv Hb Hx. exists t. split; [done|].
  pose proof (wait4_round_spec _ _ _ t i b first pid options HK Hr Hb Hx) as Hw. destruct (wait4_round _ _ _ _ _). apply Hw.
Qed.

(** No process is a child of a number not yet given. *)
Lemma no_child_yet s h l t c ppid y : KInv s h l -> represents s t -> t !! c = Some (ppid, y) -> ppid ≠ s_pid_seq s.
Proof.
  intros HK Hr (k & d & Hd & _ & [= -> _])%Hr. pose proof (k_seq _ _ _ HK). destruct (k_parent _ _ _ HK k d Hd) as [[_ ?]|(j & e & _ & He & -> & _)]; [lia|].
  destruct (k_range _ _ _ HK j e He). lia.
Qed.

Lemma orphan_none pid (t : ptree) : (forall c ppid y, t !! c = Some (ppid, y) -> ppid ≠ pid) -> orphan pid <$> t = t.
Proof.
  intros Ht. apply map_eq. intros c. rewrite lookup_fmap. destruct (t !! c) as [[ppid y]|] eqn:E; [|done]. cbn. f_equal. unfold orphan. cbn.
  by rewrite (proj2 (Z.eqb_neq _ _)) by (by eapply Ht).
Qed.

(** The end of a failed fork. *)
Lemma fork_fail s s1 h l t t1 i u : KInv s h l -> KInv s1 h l -> represents s t -> represents s1 t1 -> t1 = <[s_pid_seq s := (u, None)]> t -> u ≠ s_pid_seq s ->
  (exists b, table s1 i = Some b /\ b_exit b = None /\ b_pid b = s_pid_seq s /\ b_ppid b = u) ->
  exists s', proc_mark_exited (Slot i) 255 s1 = Some s' /\ represents s' (<[s_pid_seq s := (u, Some 255)]> t).
Proof.
  intros HK HK1 Hr Hr1 -> Hu (b & Hb & Hx & Hp & Hpp). destruct (exit_spec s1 h l i b 255 HK1 Hb Hx) as (s' & ld & E & HK' & Ht). exists s'. split; [done|].
  destruct (represents_exit s1 s' h l _ i b ld 255 HK1 Hr1 Hb Hx Ht) as [_ Hr']. rewrite Hp, Hpp, orphan_none, insert_insert_eq in Hr'; [done|].
  intros c ppid y [[<- [= <- _]]|[_ Hc]]%lookup_insert_Some; [done|by eapply no_child_yet].
Qed.

(** What a fork of process [ppid] in state [s] with tree [t] may lead to. *)
Definition fork_outcome (s : system) (t : ptree) (ppid : Z) (s' : system) (ret : Z) : Prop :=
  ret = -1 /\ s' = s \/
  ret = s_pid_seq s /\ represents s' (<[s_pid_seq s := (ppid, None)]> t) \/
  ret = -1 /\ exists y, represents s' (<[s_pid_seq s := (ppid, y)]> t) /\ (y = None \/ y = Some 255).


Lemma create_no_space q name r v s s' c e : r_space r = inl e -> proc_create q name r v s = Some (s', c) -> exists e', c = inl e'.
Proof.
  intros Hr. unfold proc_create. destruct (free_slot s); [|intros [= _ <-]; eauto]. destruct (next_pid _) as [s1 pid]. unfold task_create. rewrite Hr.
  destruct (free_task _); intros [= _ <-]; eauto.
Qed.

(** A failed fork blocks its caller.  When no name space can be created
    for a new process, [proc_create] reports an error but the slot stays
    taken by a process without a task, which nothing will ever run.  A caller
    that had no children before and now waits for any child does not get
    ECHILD: it sleeps, as it will in every later round. *)
Theorem failed_fork_blocks_wait x i b name r v k e first : reachable x -> table (sys x) i = Some b -> can_create (sys x) (Slot i) v ->
  free_slot (sys x) = Some k -> r_space r = inl e -> (forall j c, table (sys x) j = Some c -> b_ppid c ≠ b_pid b) ->
  exists s' e', proc_create (Some (Slot i)) name r v (sys x) = Some (s', inl e') /\ wait4_round first (Slot i) 0 0 s' = (s', WaitSleep).
Proof.
  intros [HK [t Hr]]%reachable_kinv Hb (Hq & Hseq & Hroom & Hv) Hk Hsp Hno. destruct (table_fields _ i b Hb) as (_ & Epid & _). cbv zeta in Epid.
  destruct Hq as (b' & Hb' & Hx). assert (b' = b) as -> by congruence.
  destruct (create_child _ _ _ (Slot i) name r v HK (ex_intro _ b (conj Hb Hx)) Hseq Hroom Hv) as (s' & c & E & HK' & Hc).
  destruct (create_no_space _ _ _ _ _ _ _ _ Hsp E) as [e' ->]. exists s', e'. split; [done|].
  destruct Hc as [(_ & _ & Hfull)|(j & u & Hj & _ & Ht & _)].
  { destruct (free_slot_spec _ _ Hk) as [Hkr Hkn]. destruct (Hfull k Hkr). congruence. }
  destruct (represents_create _ s' _ _ t (Slot i) j u HK Hr Hj Ht) as [_ Hr']. rewrite Epid in Hr'.
  assert (Hbi : table s' i = Some b) by (rewrite Ht, decide_False; [done|congruence]).
  pose proof (wait4_round_spec s' _ _ _ i b first 0 0 HK' Hr' Hbi Hx) as Hw.
  assert (Hz : forall c code, ~ zombie (<[s_pid_seq (sys x) := (b_pid b, None)]> t) (b_pid b) 0 c code).
  { intros c code [[[_ ?]|[_ Hc]]%lookup_insert_Some _]; [congruence|]. apply Hr in Hc as (m & d & Hd & _ & [= Ed _]). by apply (Hno m d). }
  destruct (wait4_round first (Slot i) 0 0 s') as [s2 w]. destruct Hw as [_ Hw]. destruct w as [c st| | |].
  - destruct Hw as (code & Hzc & _). by apply Hz in Hzc.
  - by destruct Hw as (_ & Hw & _).
  - destruct Hw as [_ Hw]. by destruct (Hw (s_pid_seq (sys x)) None); rewrite lookup_insert_eq.
  - by destruct Hw as [-> _].
Qed.

Lemma booted_reachable : reachable (idle booted).
Proof. exists ∅, demo_resources, demo_vnodes, booted, []. split; [apply demo_heap|]. split; [apply booted_boot|constructor]. Qed.
Lemma exited_reachable : reachable (idle exited).
Proof. exists ∅, demo_resources, demo_vnodes, booted, [Fork 1 2; Exit 2 7]. split; [apply demo_heap|]. split; [apply booted_boot|exact demo_zombie]. Qed.

Definition launchd_brief : brief := {| b_pid := 1; b_ppid := 0; b_parent := Some KernelProc; b_exit := None; b_task := Some (Task 1) |}.
Lemma booted_launchd : table (sys (idle booted)) 1 = Some launchd_brief.
Proof. vm_compute. reflexivity. Qed.
Lemma exited_launchd : table (sys (idle exited)) 1 = Some launchd_brief.
Proof. vm_compute. reflexivity. Qed.

Lemma wait4_result_witness : exists t, represents (sys (idle exited)) t /\ t !! 2 = Some (1, Some 7) /\
  (wait4_round true (Slot 1) 0 0 (sys (idle exited))).2 = WaitChild 2 1792.
Proof.
  destruct (wait4_result (idle exited) 1 launchd_brief true 0 0 exited_reachable exited_launchd eq_refl) as (t & Hr & Hw). exists t. split; [exact Hr|].
  assert (E : (wait4_round true (Slot 1) 0 0 (sys (idle exited))).2 = WaitChild 2 1792) by (vm_compute; reflexivity).
  destruct (wait4_round true (Slot 1) 0 0 (sys (idle exited))) as [s' w]. cbn [snd] in E. subst w. split; [|reflexivity].
  destruct Hw as (code & [Hz _] & Hst & _). rewrite Hz. apply Hr in Hz as (k & c & Hc & Hp & [= _ Hx]).
  destruct (reachable_kinv _ exited_reachable) as [HK _].
  assert (Hc2 : b_exit <$> table (sys (idle exited)) 2 = Some (Some 7) /\ b_pid <$> table (sys (idle exited)) 2 = Some 2) by (vm_compute; split; reflexivity).
  destruct Hc2 as [Ha Hb]. destruct (table (sys (idle exited)) 2) as [d|] eqn:Hd; [|discriminate Ha]. injection Ha as Ha. injection Hb as Hb.
  assert (k = 2%nat) as -> by (eapply (k_inj _ _ _ HK); [exact Hc|exact Hd|congruence]).
  assert (code = 7) as -> by congruence. reflexivity.
Defined.


Definition no_space : resources := {| r_pml4 := 0x1000; r_space := inl CHIMERA_ERR_NOMEM; r_port := None |}.
Lemma only_launchd s : represents s {[1 := (0, None)]} -> forall j c, table (sys (idle s)) j = Some c -> b_ppid c ≠ b_pid launchd_brief.
Proof.
  intros Hr j c Hc. assert (Hp : ({[1 := (0, None)]} : ptree) !! b_pid c = Some (b_ppid c, b_exit c)) by (apply (Hr (b_pid c)); by exists j, c).
  apply lookup_singleton_Some in Hp as [_ [= <- _]]. discriminate.
Qed.
Lemma failed_fork_blocks_wait_witness : exists s' e', proc_create (Some (Slot 1)) [] no_space demo_vnodes (sys (idle booted)) = Some (s', inl e') /\
  wait4_round true (Slot 1) 0 0 s' = (s', WaitSleep).
Proof.
  assert (Hf : free_slot (sys (idle booted)) = Some 2%nat) by (vm_compute; reflexivity).
  exact (failed_fork_blocks_wait (idle booted) 1 launchd_brief [] no_space demo_vnodes 2 CHIMERA_ERR_NOMEM true booted_reachable booted_launchd booted_can Hf eq_refl
    (only_launchd booted (proj2 (launch_inv ∅ _ _ _ (demo_heap ∅) booted_boot)))).
Defined.
End ProcSpec.
