(* ===== verification/Signal.v ===== *)
(** * Signals

    Model of the delivery of signals at the return from a system call
    ([proc_deliver_signals] in [kernel/bsd/proc.c]) and of the signal calls of
    [kernel/bsd/syscall.c], over the processes of [Proc] and the user memory
    of [Copy].  Theorems: a handled signal is undone exactly by [sigreturn];
    SIGKILL cannot be blocked or caught by the calls meant for that, but a
    forged context given to [sigreturn] blocks it. *)

From stdpp Require Import relations.
From S2P Require Import Prelude Bytes Pmm Pmap PmapInv PmapMap PmapSpec PmapFork PmapClone PmapCorrect Copy CopySpec Fileproc Proc.

Module Signal.
Import Pmap PmapInv PmapMap PmapSpec PmapFork PmapClone PmapCorrect Copy CopySpec Proc.

Definition SIGCTX_MAGIC : Z := 0x5349474354585F31.

(** The registers saved on entry to a system call ([syscall_user_frame_t]). *)
Record user_frame := { r15 : Z; r14 : Z; r13 : Z; r12 : Z; rbx : Z; rbp : Z; rip : Z; rflags : Z; rsp : Z }.
#[global] Instance user_frame_eta : Eta user_frame := fun r =>
  {| r15 := r15 r; r14 := r14 r; r13 := r13 r; r12 := r12 r; rbx := rbx r; rbp := rbp r; rip := rip r; rflags := rflags r; rsp := rsp r |}.

Record sigctx := { magic : Z; sc_sig : Z; old_mask : Z; rax : Z; regs : list Z }.

Definition frame_regs (f : user_frame) : list Z := [r15 f; r14 f; r13 f; r12 f; rbx f; rbp f; rip f; rflags f; rsp f].
Definition reg (l : list Z) (i : nat) : Z := default 0 (l !! i).
Definition regs_frame (l : list Z) : user_frame :=
  {| r15 := reg l 0; r14 := reg l 1; r13 := reg l 2; r12 := reg l 3; rbx := reg l 4; rbp := reg l 5; rip := reg l 6; rflags := reg l 7; rsp := reg l 8 |}.

(** The little-endian field of [n] bytes at [off]. *)
Definition field (l : list Z) (off n : nat) : Z := le_value (take n (drop off l)).
Definition i32 (z : Z) : Z := let w := u32 z in if w <? 2 ^ 31 then w else w - 2 ^ 32.

(** The packed structure of 96 bytes on the user's stack. *)
Definition sigctx_bytes (c : sigctx) : list Z :=
  le_bytes 8 (magic c) ++ le_bytes 4 (u32 (sc_sig c)) ++ le_bytes 4 (old_mask c) ++ le_bytes 8 (rax c) ++ concat (le_bytes 8 <$> regs c).
Definition sigctx_size : nat := 96.
Definition sigctx_of (l : list Z) : sigctx :=
  {| magic := field l 0 8; sc_sig := i32 (field l 8 4); old_mask := field l 12 4; rax := field l 16 8;
     regs := (fun i => field l (24 + 8 * i) 8) <$> seq 0 9 |}.

(** [memset] to 0, then what [copyin] has written. *)
Definition filled (n : nat) (data : list Z) : list Z := take n (data ++ replicate n 0).

(** How a call ends: back in the program, or in [sys_exit_direct]. *)
Inductive ending := Return (ret : Z) | Kill (code : Z).

Section Calls.
Context {F : Type} `{PageFrames F}.
Notation state := (pmap F).
Implicit Types (s : state) (p : chimera_proc) (f : user_frame).

(** The kernel buffer of a copy. *)
Context (kbuf : Z).

Definition first_signal (deliverable : Z) : option Z :=
  snd <$> list_find (fun sig => has deliverable (sigbit sig) = true) (seqZ 1 31).

Definition slots_va (f : user_frame) : Z := Z.land (u64 (rsp f - 512)) (not64 0xF).
Definition ctx_va (f : user_frame) : Z := u64 (slots_va f + 32).

(** The signal frame of a handled signal; [None] when the stack faults. *)
Definition push_signal (sig handler mask ret : Z) (f : user_frame) (s : state) : option (state * bool) :=
  let ctx := {| magic := SIGCTX_MAGIC; sc_sig := sig; old_mask := mask; rax := u64 ret; regs := frame_regs f |} in
  let slots := le_bytes 8 sig ++ le_bytes 8 handler ++ le_bytes 8 (ctx_va f) in
  '(s, e) ← copyout kbuf slots (slots_va f) s;
  if negb (succeeded e) then Some (s, false) else
  '(s, e) ← copyout kbuf (sigctx_bytes ctx) (ctx_va f) s;
  Some (s, succeeded e).

(** Delivery to process [p] with frame [f] after a call that returned [ret];
    [None] does not occur: see [copyout]. *)
Definition proc_deliver_signals (ret : Z) (p : chimera_proc) (f : user_frame) (s : state)
  : option (chimera_proc * user_frame * state * ending) :=
  if p_pid p =? 0 then Some (p, f, s, Return ret) else
  let deliverable := Z.land (p_sigpending p) (not32 (p_sigmask p)) in
  match (if deliverable =? 0 then None else first_signal deliverable) with
  | None => Some (p, f, s, Return ret)
  | Some sig =>
      let p := p <| p_sigpending ::= fun m => Z.land m (not32 (sigbit sig)) |> in
      let handler := sigact p sig in
      let mask := p_sigmask p in
      if handler =? 1 then Some (p, f, s, Return ret) else
      if handler =? 0 then
        if (sig =? 20) || (sig =? 28) || (sig =? 16) || (sig =? 29) then Some (p, f, s, Return ret)
        else Some (p, f, s, Kill (128 + sig))
      else
        '(s, ok) ← push_signal sig handler mask ret f s;
        if negb ok then Some (p, f, s, Kill (128 + sig)) else
        Some (p <| p_sigmask := Z.lor mask (sigbit sig) |>, f <| rip := SIGNAL_TRAMP_VA |> <| rsp := slots_va f |>, s, Return ret)
  end.

Definition sys_sigreturn (ctx_ptr : Z) (p : chimera_proc) (f : user_frame) (s : state)
  : option (chimera_proc * user_frame * ending) :=
  if ctx_ptr =? 0 then Some (p, f, Return (-1)) else
  '(e, data) ← copyin ctx_ptr kbuf (Z.of_nat sigctx_size) s;
  let ctx := sigctx_of (filled sigctx_size data) in
  if negb (succeeded e) || negb (magic ctx =? SIGCTX_MAGIC) || (sc_sig ctx <=? 0) || (32 <=? sc_sig ctx)
  then Some (p, f, Kill 139)
  else Some (p <| p_sigmask := old_mask ctx |>, regs_frame (regs ctx), Return (i64 (rax ctx))).

(** The results of the copies of the old values are ignored. *)
Definition sys_sigaction (signum act_ptr oldact_ptr : Z) (p : chimera_proc) (s : state) : option (chimera_proc * state * Z) :=
  let sig := i32 signum in
  if (sig <=? 0) || (32 <=? sig) || (sig =? 9) || (sig =? 19) then Some (p, s, -22) else
  let i := Z.to_nat sig in
  '(s, _) ← (if oldact_ptr =? 0 then Some (s, CHIMERA_SUCCESS) else
             copyout kbuf (le_bytes 8 (sigact p sig) ++ le_bytes 4 (default 0 (p_sigact_mask p !! i))
                            ++ le_bytes 4 (default 0 (p_sigact_flags p !! i))) oldact_ptr s);
  if act_ptr =? 0 then Some (p, s, 0) else
  '(e, data) ← copyin act_ptr kbuf 16 s;
  if negb (succeeded e) then Some (p, s, 0) else
  Some (p <| p_sigacts ::= <[i := field data 0 8]> |> <| p_sigact_flags ::= <[i := field data 12 4]> |>
          <| p_sigact_mask ::= <[i := field data 8 4]> |>, s, 0).

Definition sys_sigprocmask (how set_ptr oldset_ptr : Z) (p : chimera_proc) (s : state) : option (chimera_proc * state * Z) :=
  '(s, _) ← (if oldset_ptr =? 0 then Some (s, CHIMERA_SUCCESS) else copyout kbuf (le_bytes 4 (p_sigmask p)) oldset_ptr s);
  if set_ptr =? 0 then Some (p, s, 0) else
  '(e, data) ← copyin set_ptr kbuf 4 s;
  if negb (succeeded e) then Some (p, s, 0) else
  let set := Z.land (field data 0 4) (not32 (Z.lor (sigbit 9) (sigbit 19))) in
  let how := i32 how in
  let p := if how =? 0 then p <| p_sigmask ::= fun m => Z.lor m set |>
           else if how =? 1 then p <| p_sigmask ::= fun m => Z.land m (not32 set) |>
           else if how =? 2 then p <| p_sigmask := set |> else p in
  Some (p, s, 0).

Definition sys_sigpending (set_ptr : Z) (p : chimera_proc) (s : state) : option (state * Z) :=
  if set_ptr =? 0 then Some (s, -14) else
  '(s, e) ← copyout kbuf (le_bytes 4 (p_sigpending p)) set_ptr s;
  Some (s, if succeeded e then 0 else -14).

(** [SYS_sigreturn] as [syscall_dispatch] runs it: the next signal is
    delivered on top of the restored registers. *)
Definition sigreturn_dispatch (ctx_ptr : Z) (p : chimera_proc) (f : user_frame) (s : state)
  : option (chimera_proc * user_frame * state * ending) :=
  '(p, f, e) ← sys_sigreturn ctx_ptr p f s;
  match e with
  | Return ret => proc_deliver_signals ret p f s
  | Kill code => Some (p, f, s, Kill code)
  end.
End Calls.

(** ** Contexts in memory *)

(** A context that fits its structure. *)
Definition ctx_ok (c : sigctx) : Prop :=
  0 <= magic c < 2 ^ 64 /\ - 2 ^ 31 <= sc_sig c < 2 ^ 31 /\ 0 <= old_mask c < 2 ^ 32 /\ 0 <= rax c < 2 ^ 64 /\
  length (regs c) = 9%nat /\ Forall (fun r => 0 <= r < 2 ^ 64) (regs c).

Lemma sigctx_length c : length (regs c) = 9%nat -> length (sigctx_bytes c) = sigctx_size.
Proof.
  intros Hl. unfold sigctx_bytes. destruct c as [m sg o r l]. cbn in Hl.
  do 9 (destruct l as [|? l]; [discriminate Hl|]). destruct l; [|discriminate Hl]. by rewrite !length_app, !le_bytes_length.
Qed.
Lemma sigctx_is_bytes c : Forall is_byte (sigctx_bytes c).
Proof.
  unfold sigctx_bytes. rewrite !Forall_app. do 4 (split; [apply le_bytes_bytes|]). apply Forall_concat, Forall_fmap, Forall_forall.
  intros x _. apply le_bytes_bytes.
Qed.

Lemma i32_u32 z : - 2 ^ 31 <= z < 2 ^ 31 -> i32 (u32 z) = z.
Proof.
  intros Hz. unfold i32. rewrite (u32_id (u32 z)) by apply u32_range. unfold u32. destruct (decide (0 <= z)).
  - rewrite Z.mod_small by lia. rewrite (proj2 (Z.ltb_lt _ _)) by lia. done.
  - replace (z mod 2 ^ 32) with (z + 2 ^ 32) by (apply (Z.mod_unique _ _ (-1)); lia). rewrite (proj2 (Z.ltb_ge _ _)); lia.
Qed.

(** The structure read back is the one written. *)
Lemma sigctx_roundtrip c : ctx_ok c -> sigctx_of (sigctx_bytes c) = c.
Proof.
  destruct c as [m sg o r l]. intros (Hm & Hs & Ho & Hr & Hl & Hf). cbn [magic sc_sig old_mask rax regs] in *.
  do 9 (destruct l as [|? l]; [discriminate Hl|]). destruct l; [|discriminate Hl]. rewrite !Forall_cons in Hf.
  assert (E : sigctx_of (sigctx_bytes {| magic := m; sc_sig := sg; old_mask := o; rax := r; regs := [z; z0; z1; z2; z3; z4; z5; z6; z7] |}) =
    {| magic := le_value (le_bytes 8 m); sc_sig := i32 (le_value (le_bytes 4 (u32 sg))); old_mask := le_value (le_bytes 4 o);
       rax := le_value (le_bytes 8 r); regs := (fun x => le_value (le_bytes 8 x)) <$> [z; z0; z1; z2; z3; z4; z5; z6; z7] |}) by reflexivity.
  rewrite E, (le8_value m Hm), (le4_value o Ho), (le8_value r Hr), le4_value, i32_u32 by (done || apply u32_range).
  cbn [fmap list_fmap]. rewrite !le8_value by tauto. done.
Qed.

Lemma filled_exact l : length l = sigctx_size -> filled sigctx_size l = l.
Proof. intros <-. unfold filled. by rewrite take_app_length. Qed.

Definition frame_ok (f : user_frame) : Prop := Forall (fun r => 0 <= r < 2 ^ 64) (frame_regs f).
Lemma regs_frame_regs f : regs_frame (frame_regs f) = f.
Proof. by destruct f. Qed.

(** ** The first signal *)

Lemma sigbit_pow sig : 0 <= sig -> sigbit sig = 2 ^ sig.
Proof. intros Hs. unfold sigbit. by rewrite Z.shiftl_mul_pow2, Z.mul_1_l. Qed.

Lemma first_signal_some d sig : first_signal d = Some sig -> 1 <= sig < 32 /\ Z.testbit d sig = true /\ forall k, 1 <= k < sig -> Z.testbit d k = false.
Proof.
  unfold first_signal. intros ([n k] & E & ->)%fmap_Some. apply list_find_Some in E as (Hk & Hh & Hmin). cbn [snd] in *.
  apply lookup_seqZ in Hk as [-> Hn]. rewrite sigbit_pow, has_bit in Hh by lia. split; [lia|]. split; [done|].
  intros k Hk. specialize (Hmin (Z.to_nat (k - 1)) k). rewrite sigbit_pow, has_bit in Hmin by lia.
  destruct (Z.testbit d k); [|done]. exfalso. apply Hmin; [|lia|done]. apply lookup_seqZ. lia.
Qed.
Lemma first_signal_none d k : first_signal d = None -> 1 <= k < 32 -> Z.testbit d k = false.
Proof.
  unfold first_signal. intros E%fmap_None Hk. apply list_find_None in E. rewrite Forall_forall in E. specialize (E k).
  rewrite sigbit_pow, has_bit in E by lia. destruct (Z.testbit d k); [|done]. exfalso. apply E; [|done]. apply elem_of_seqZ. lia.
Qed.

(** Bits of the 32-bit masks. *)
Lemma not32_bit m k : 0 <= k < 32 -> Z.testbit (not32 m) k = negb (Z.testbit m k).
Proof.
  intros Hk. unfold not32. rewrite Z.lxor_spec. change (2 ^ 32 - 1) with (Z.ones 32). rewrite Z.ones_spec_low by lia. apply xorb_true_r.
Qed.
Lemma sigbit_bit sig k : 0 <= sig -> Z.testbit (sigbit sig) k = bool_decide (k = sig).
Proof. intros Hs. rewrite sigbit_pow by done. rewrite Z.pow2_bits_eqb by done. rewrite Z.eqb_sym. by destruct (Z.eqb_spec k sig); case_bool_decide. Qed.

(** ** The signal frame on the user's stack *)

Section Frames.
Context {F : Type} `{PageFrames F}.
Notation state := (pmap F).
Implicit Types (s : state) (T : tables) (M : gmap Z Z) (f : user_frame).

(** Nothing of the interrupted program is in the way: the frame lies below
    the stack pointer and its red zone. *)
Lemma slots_position f : 0x2000 <= rsp f < 2 ^ 47 ->
  0x1000 <= slots_va f /\ slots_va f mod 16 = 0 /\ ctx_va f = slots_va f + 32 /\ slots_va f + 128 <= rsp f - 128.
Proof.
  intros Hr. unfold ctx_va, slots_va. change 0xF with (Z.ones 4). rewrite u64_id by lia. rewrite land_not64_ones by lia. change (2 ^ 4) with 16.
  set (q := (rsp f - 512) / 16). pose proof (Z.div_mod (rsp f - 512) 16 ltac:(done)). pose proof (Z.mod_pos_bound (rsp f - 512) 16 ltac:(done)). fold q in H0.
  rewrite u64_id by lia. split; [lia|]. split; [rewrite Z.mul_comm; by apply Z.mod_mul|]. split; [done|lia].
Qed.

Lemma reads_keep (s s' : state) root a data : reads s root a data ->
  (forall va b, a <= va < a + Z.of_nat (length data) -> ubyte s root va = Some b -> ubyte s' root va = Some b) -> reads s' root a data.
Proof.
  intros Hr Hk i Hi. specialize (Hr i Hi). destruct (data !! Z.to_nat i) as [b|] eqn:E.
  - apply Hk; [lia|done].
  - apply lookup_ge_None_1 in E. lia.
Qed.

Context (kbuf : Z) (T0 : tables) (owed : Z -> Z) (root p blo bhi : Z).
Hypothesis Hroot : T0 !! root = Some (4%nat, p).
Hypothesis Hkbuf : kbuf ≠ 0.

(** The part of the user's stack that signal frames may use. *)
Definition stack_room (f : user_frame) : Prop :=
  0x2000 <= rsp f < 2 ^ 47 /\ 0 <= blo <= slots_va f /\ slots_va f + 128 <= bhi <= 2 ^ 47 /\
  (forall va, slots_va f <= va < slots_va f + 128 -> pmap_is_trampoline_va va = false).

Definition frame_slots (sig handler : Z) (f : user_frame) : list Z := le_bytes 8 sig ++ le_bytes 8 handler ++ le_bytes 8 (ctx_va f).
Definition frame_ctx (sig mask ret : Z) (f : user_frame) : sigctx :=
  {| magic := SIGCTX_MAGIC; sc_sig := sig; old_mask := mask; rax := u64 ret; regs := frame_regs f |}.

Lemma push_signal_spec sig handler mask ret f s T M : uspace T0 owed root blo bhi s T M -> stack_room f ->
  exists s' ok T' M', push_signal kbuf sig handler mask ret f s = Some (s', ok) /\ uspace T0 owed root blo bhi s' T' M' /\
    (forall root' p' va b, T0 !! root' = Some (4%nat, p') -> 0 <= va < 2 ^ 47 -> ~ (root' = root /\ slots_va f <= va < slots_va f + 128) ->
       ubyte s root' va = Some b -> ubyte s' root' va = Some b) /\
    (ok = true -> reads s' root (slots_va f) (frame_slots sig handler f) /\ reads s' root (ctx_va f) (sigctx_bytes (frame_ctx sig mask ret f))).
Proof.
  intros HU (Hrsp & Hlo & Hhi & Htr). destruct (slots_position f Hrsp) as (Hs & _ & Ec & Hz). unfold push_signal. fold (frame_ctx sig mask ret f).
  fold (frame_slots sig handler f). set (slots := frame_slots sig handler f).
  assert (Hl1 : length slots = 24%nat) by (unfold slots, frame_slots; by rewrite !length_app, !le_bytes_length).
  assert (Hl2 : length (sigctx_bytes (frame_ctx sig mask ret f)) = 96%nat) by (by apply sigctx_length).
  assert (Hb1 : Forall is_byte slots) by (unfold slots, frame_slots; rewrite !Forall_app; auto using le_bytes_bytes).
  pose proof (sigctx_is_bytes (frame_ctx sig mask ret f)) as Hb2. set (ctx := sigctx_bytes (frame_ctx sig mask ret f)) in *. clearbody slots ctx.
  destruct (copyout_spec s T0 T M owed root p blo bhi (slots_va f) kbuf slots) as (s1 & e1 & T1 & M1 & -> & HU1 & Hk1 & Hc1);
    [done|done|done|by destruct slots|done|lia|lia|lia|intros va ?; apply Htr; lia|]. cbn [mbind option_bind].
  destruct Hc1 as [[-> Hr1]| ->]; cbn [negb succeeded bool_decide decide_rel].
  2:{ exists s1, false, T1, M1. split; [done|]. split; [done|]. split; [|done]. intros root' p' va b Hr' Hv N. apply (Hk1 root' p'); [done|done|]. intros [-> ?]. apply N. split; [done|lia]. }
  change (negb (succeeded CHIMERA_SUCCESS)) with false. cbv iota.
  destruct (copyout_spec s1 T0 T1 M1 owed root p blo bhi (ctx_va f) kbuf ctx) as (s2 & e2 & T2 & M2 & -> & HU2 & Hk2 & Hc2);
    [done|done|done|by destruct ctx|done|lia|lia|lia|intros va ?; apply Htr; lia|]. cbn [mbind option_bind].
  exists s2, (succeeded e2), T2, M2. split; [done|]. split; [done|]. split.
  - intros root' p' va b Hr' Hv N Hb. apply (Hk2 root' p'); [done|done|intros [-> ?]; apply N; split; [done|lia]|].
    apply (Hk1 root' p'); [done|done|intros [-> ?]; apply N; split; [done|lia]|done].
  - destruct Hc2 as [[-> Hr2]| ->]; [|done]. intros _. split; [|done]. apply (reads_keep s1); [done|]. intros va b Hva Hb.
    apply (Hk2 root p); [done|lia|intros [_ ?]; lia|done].
Qed.
End Frames.

(** ** Claims *)

Section Claims.
Context {F : Type} `{PageFrames F}.
Notation state := (pmap F).
Implicit Types (s : state) (T : tables) (M : gmap Z Z) (f : user_frame) (pr : chimera_proc).

Lemma deliverable_nonzero d sig : first_signal d = Some sig -> d =? 0 = false.
Proof. intros (_ & Hb & _)%first_signal_some. apply Z.eqb_neq. intros ->. by rewrite Z.bits_0 in Hb. Qed.

Lemma i64_u64 z : - 2 ^ 63 <= z < 2 ^ 63 -> i64 (u64 z) = z.
Proof.
  intros Hz. unfold i64. rewrite (u64_id (u64 z)) by apply u64_range. unfold u64. destruct (decide (0 <= z)).
  - rewrite Z.mod_small by lia. rewrite (proj2 (Z.ltb_lt _ _)) by lia. done.
  - replace (z mod 2 ^ 64) with (z + 2 ^ 64) by (apply (Z.mod_unique _ _ (-1)); lia). rewrite (proj2 (Z.ltb_ge _ _)); lia.
Qed.

(** [sigreturn] of a context in user memory. *)
Lemma sigreturn_spec kbuf s T0 T M owed root p blo bhi a c pr f : kbuf ≠ 0 -> T0 !! root = Some (4%nat, p) -> uspace T0 owed root blo bhi s T M ->
  0x1000 <= a -> blo <= a -> a + 96 <= bhi -> a + 96 < 2 ^ 47 -> ctx_ok c -> magic c = SIGCTX_MAGIC -> 1 <= sc_sig c < 32 -> reads s root a (sigctx_bytes c) ->
  sys_sigreturn kbuf a pr f s = Some (pr <| p_sigmask := old_mask c |>, regs_frame (regs c), Return (i64 (rax c))).
Proof.
  intros Hk Hr [[HI _] HT Hu _ Ha] Hlo Hblo Hbhi Hhi Hc Hm Hs Hrd. assert (Hl : length (sigctx_bytes c) = sigctx_size) by (apply sigctx_length, Hc).
  assert (Hl' : Z.of_nat (length (sigctx_bytes c)) = 96) by (by rewrite Hl). unfold sys_sigreturn. rewrite (proj2 (Z.eqb_neq _ _)) by lia.
  rewrite <- Hl, (copyin_reads s T M owed root p a kbuf (sigctx_bytes c) HI (lookup_weaken _ _ _ _ Hr HT) Ha Hk);
    [|by intros E; rewrite E in Hl|lia|lia|intros va e ?; apply Hu; lia|done].
  cbn [mbind option_bind]. rewrite Hl, filled_exact, sigctx_roundtrip, Hm, Z.eqb_refl by done.
  rewrite (proj2 (Z.leb_gt (sc_sig c) 0)), (proj2 (Z.leb_gt 32 (sc_sig c))) by lia. done.
Qed.

(** C10: A signal handler runs without a trace.  When the first deliverable
    signal has a handler, the return from the system call either ends the
    process (the signal frame cannot be written) or enters the handler's
    trampoline: exactly that signal is no longer pending and is blocked
    meanwhile, the stack pointer is 16-aligned and the signal number, the
    handler and the address of the saved context lie there.  No byte of any
    address space changes except in the 128 bytes of the signal frame, which
    lie below the interrupted program's stack and red zone.  Whatever the
    handler then does, if it leaves the saved context alone, [sigreturn]
    brings back all registers, the signal mask and the interrupted call's
    return value. *)
Theorem signal_roundtrip kbuf s T0 T M owed root p blo bhi pr f ret sig :
  kbuf ≠ 0 -> T0 !! root = Some (4%nat, p) -> uspace T0 owed root blo bhi s T M -> stack_room blo bhi f -> frame_ok f ->
  0 <= p_sigmask pr < 2 ^ 32 -> - 2 ^ 63 <= ret < 2 ^ 63 -> p_pid pr ≠ 0 ->
  first_signal (Z.land (p_sigpending pr) (not32 (p_sigmask pr))) = Some sig -> sigact pr sig ≠ 0 -> sigact pr sig ≠ 1 ->
  exists pr' f' s' e T' M', proc_deliver_signals kbuf ret pr f s = Some (pr', f', s', e) /\ uspace T0 owed root blo bhi s' T' M' /\
    (forall root' p' va b, T0 !! root' = Some (4%nat, p') -> 0 <= va < 2 ^ 47 -> ~ (root' = root /\ slots_va f <= va < slots_va f + 128) ->
       ubyte s root' va = Some b -> ubyte s' root' va = Some b) /\
    slots_va f + 128 <= rsp f - 128 /\
    (e = Kill (128 + sig) \/
     e = Return ret /\
     p_sigpending pr' = Z.land (p_sigpending pr) (not32 (sigbit sig)) /\ p_sigmask pr' = Z.lor (p_sigmask pr) (sigbit sig) /\
     rip f' = SIGNAL_TRAMP_VA /\ rsp f' = slots_va f /\ rsp f' mod 16 = 0 /\
     reads s' root (rsp f') (le_bytes 8 sig ++ le_bytes 8 (sigact pr sig) ++ le_bytes 8 (ctx_va f)) /\
     forall s2 T2 M2 pr2 f2, uspace T0 owed root blo bhi s2 T2 M2 ->
       (forall i, 0 <= i < 96 -> ubyte s2 root (ctx_va f + i) = ubyte s' root (ctx_va f + i)) ->
       sys_sigreturn kbuf (ctx_va f) pr2 f2 s2 = Some (pr2 <| p_sigmask := p_sigmask pr |>, f, Return ret)).
Proof.
  intros Hk Hr HU Hroom Hf Hmask Hret Hpid Hsig H0 H1. destruct (first_signal_some _ _ Hsig) as (Hrange & _).
  destruct (push_signal_spec kbuf T0 owed root p blo bhi Hr Hk sig (sigact pr sig) (p_sigmask pr) ret f s T M HU Hroom) as (s' & ok & T' & M' & E & HU' & Hkeep & Hok).
  destruct Hroom as (Hrsp & Hlo & Hhi & _). destruct (slots_position f Hrsp) as (Hs1 & Hs2 & Hs3 & Hs4).
  unfold proc_deliver_signals. rewrite (proj2 (Z.eqb_neq _ _)) by done. rewrite (deliverable_nonzero _ _ Hsig), Hsig.
  change (sigact (pr <| p_sigpending ::= fun m => Z.land m (not32 (sigbit sig)) |>) sig) with (sigact pr sig).
  change (p_sigmask (pr <| p_sigpending ::= fun m => Z.land m (not32 (sigbit sig)) |>)) with (p_sigmask pr).
  rewrite (proj2 (Z.eqb_neq _ 1)), (proj2 (Z.eqb_neq _ 0)) by done. rewrite E. cbn [mbind option_bind].
  destruct ok; cbn [negb]; [|eexists _, _, s', _, T', M'; split; [reflexivity|]; split; [done|]; split; [done|]; split; [done|]; by left].
  eexists _, _, s', _, T', M'. split; [reflexivity|]. split; [done|]. split; [done|]. split; [done|]. right. destruct (Hok eq_refl) as [Hslots Hctx].
  do 6 (split; [done|]). split; [exact Hslots|]. intros s2 T2 M2 pr2 f2 HU2 Hsame.
  assert (Hcok : ctx_ok (frame_ctx sig (p_sigmask pr) ret f)) by (split_and!; cbn; try done; try lia; apply u64_range).
  rewrite (sigreturn_spec kbuf s2 T0 T2 M2 owed root p blo bhi (ctx_va f) (frame_ctx sig (p_sigmask pr) ret f)); try done; try lia.
  - cbn [frame_ctx old_mask regs rax]. by rewrite regs_frame_regs, i64_u64.
  - intros i Hi. rewrite sigctx_length in Hi by done. change (Z.of_nat sigctx_size) with 96 in Hi. rewrite Hsame by done. apply Hctx.
    rewrite sigctx_length by done. exact Hi.
Qed.

(** ** SIGKILL *)

Definition killable pr : Prop := Z.testbit (p_sigmask pr) 9 = false /\ sigact pr 9 = 0.

(** What a process and those who signal it do, apart from calling [sigreturn]
    on a context that no delivery has saved. *)
Inductive sigstep kbuf (x : chimera_proc * state) : chimera_proc * state -> Prop :=
| s_mask how set_ptr oldset_ptr pr' s' ret : sys_sigprocmask kbuf how set_ptr oldset_ptr x.1 x.2 = Some (pr', s', ret) -> sigstep kbuf x (pr', s')
| s_action signum act_ptr oldact_ptr pr' s' ret : sys_sigaction kbuf signum act_ptr oldact_ptr x.1 x.2 = Some (pr', s', ret) -> sigstep kbuf x (pr', s')
| s_deliver ret f pr' f' s' : proc_deliver_signals kbuf ret x.1 f x.2 = Some (pr', f', s', Return ret) -> sigstep kbuf x (pr', s')
| s_return a f pr' f' ret : sys_sigreturn kbuf a x.1 f x.2 = Some (pr', f', Return ret) -> Z.testbit (p_sigmask pr') 9 = false -> sigstep kbuf x (pr', x.2)
| s_post pending : sigstep kbuf x (x.1 <| p_sigpending := pending |>, x.2)
| s_memory s' : sigstep kbuf x (x.1, s').

Lemma sigact_insert pr i h fl m : i ≠ 9%nat ->
  sigact (pr <| p_sigacts ::= <[i := h]> |> <| p_sigact_flags ::= <[i := fl]> |> <| p_sigact_mask ::= <[i := m]> |>) 9 = sigact pr 9.
Proof. intros Hi. unfold sigact. cbn. by rewrite list_lookup_insert_ne. Qed.

Lemma deliver_spec kbuf ret pr f s pr' f' s' e : killable pr -> proc_deliver_signals kbuf ret pr f s = Some (pr', f', s', e) ->
  (e = Return ret /\ killable pr' \/ exists sig, first_signal (Z.land (p_sigpending pr) (not32 (p_sigmask pr))) = Some sig /\ e = Kill (128 + sig)) /\
  forall sig, p_pid pr ≠ 0 -> first_signal (Z.land (p_sigpending pr) (not32 (p_sigmask pr))) = Some sig -> p_sigpending pr' = Z.land (p_sigpending pr) (not32 (sigbit sig)) /\ (sig = 9 -> e = Kill 137).
Proof.
  intros [Hm Ha]. unfold proc_deliver_signals. destruct (Z.eqb_spec (p_pid pr) 0); [intros [= <- <- <- <-]; split; [by left|done]|].
  destruct (Z.land (p_sigpending pr) (not32 (p_sigmask pr)) =? 0) eqn:E0.
  { intros [= <- <- <- <-]. split; [by left|]. intros sig _ Hs%deliverable_nonzero. congruence. }
  destruct (first_signal _) as [sig|] eqn:Es; [|intros [= <- <- <- <-]; by split; [left|]].
  destruct (first_signal_some _ _ Es) as (Hrange & _).
  change (sigact (pr <| p_sigpending ::= fun m => Z.land m (not32 (sigbit sig)) |>) sig) with (sigact pr sig).
  destruct (sigact pr sig =? 1) eqn:E1.
  { intros [= <- <- <- <-]. split; [by left|]. intros ? _ [= <-]. split; [done|]. intros ->. by rewrite Ha in E1. }
  destruct (sigact pr sig =? 0) eqn:E2.
  { destruct (_ || _) eqn:E3; intros [= <- <- <- <-].
    - split; [by left|]. intros ? _ [= <-]. split; [done|]. by intros ->.
    - split; [by eauto|]. intros ? _ [= <-]. split; [done|]. by intros ->. }
  destruct (push_signal _ _ _ _ _ _ _) as [[s1 ok]|]; [|done]. cbn [mbind option_bind]. destruct ok; cbn [negb]; intros [= <- <- <- <-].
  - split; [left|intros ? _ [= <-]; split; [done|intros ->; by rewrite Ha in E2]]. split; [done|]. split; [|exact Ha]. change (Z.testbit (Z.lor (p_sigmask pr) (sigbit sig)) 9 = false).
    rewrite Z.lor_spec, sigbit_bit, Hm by lia. cbn [orb]. apply bool_decide_eq_false. intros <-. by rewrite Ha in E2.
  - split; [by eauto|]. intros ? _ [= <-]. split; [done|]. by intros ->.
Qed.

Lemma sigstep_killable kbuf x y : sigstep kbuf x y -> killable x.1 -> killable y.1.
Proof.
  intros Hs [Hm Ha]. destruct x as [pr s]. destruct Hs as [how set_ptr oldset_ptr pr' s' ret E|signum act_ptr oldact_ptr pr' s' ret E|ret f pr' f' s' E|a f pr' f' ret E Hm'|pending|s']; cbn [fst snd] in *; try done.
  - unfold sys_sigprocmask in E. destruct (if oldset_ptr =? 0 then _ else _) as [[s1 e1]|]; [|done]. cbn [mbind option_bind] in E.
    destruct (set_ptr =? 0); [by injection E as <- <- <-|]. destruct (copyin _ _ _ s1) as [[e data]|]; [|done]. cbn [mbind option_bind] in E.
    destruct (negb _); [by injection E as <- <- <-|]. injection E as <- <- <-.
    assert (Hset : Z.testbit (Z.land (field data 0 4) (not32 (Z.lor (sigbit 9) (sigbit 19)))) 9 = false) by (rewrite Z.land_spec; apply andb_false_r).
    set (set := Z.land (field data 0 4) _) in *. clearbody set.
    destruct (_ =? 0); [split; [change (Z.testbit (Z.lor (p_sigmask pr) set) 9 = false); by rewrite Z.lor_spec, Hm, Hset|done]|].
    destruct (_ =? 1); [split; [change (Z.testbit (Z.land (p_sigmask pr) (not32 set)) 9 = false); by rewrite Z.land_spec, Hm|done]|]. by destruct (_ =? 2).
  - unfold sys_sigaction in E. destruct ((i32 signum <=? 0) || _ || _ || _) eqn:Eg; [by injection E as <- <- <-|].
    rewrite !orb_false_iff in Eg. destruct Eg as [[[Eg1%Z.leb_gt _] Eg2%Z.eqb_neq] _].
    destruct (if oldact_ptr =? 0 then _ else _) as [[s1 e1]|]; [|done]. cbn [mbind option_bind] in E.
    destruct (act_ptr =? 0); [by injection E as <- <- <-|]. destruct (copyin _ _ _ s1) as [[e data]|]; [|done]. cbn [mbind option_bind] in E.
    destruct (negb _); injection E as <- <- <-; [done|]. split; [done|]. rewrite sigact_insert by lia. done.
  - destruct (deliver_spec kbuf ret pr f s pr' f' s' _ (conj Hm Ha) E) as [[[_ ?]|(sig & _ & ?)] _]; [done|discriminate].
  - unfold sys_sigreturn in E. destruct (a =? 0); [by injection E as <- <- <-|]. destruct (copyin _ _ _ _) as [[e data]|]; [|done]. cbn [mbind option_bind] in E.
    destruct (_ || _); [discriminate|]. injection E as <- <- <-. split; [exact Hm'|exact Ha].
Qed.


(** C38: A forged context blocks SIGKILL and sets the flags.  [sigreturn]
    takes the signal mask and all registers, the processor flags included,
    from user memory without checking them.  A program that writes a context
    with any mask that covers bit 9 and calls [sigreturn] on it can no longer
    be killed: the pending SIGKILL is not delivered. *)
Theorem sigreturn_blocks_sigkill kbuf s T0 T M owed root p blo bhi a c pr f : kbuf ≠ 0 -> T0 !! root = Some (4%nat, p) -> uspace T0 owed root blo bhi s T M ->
  0x1000 <= a -> blo <= a -> a + 96 <= bhi -> a + 96 < 2 ^ 47 -> ctx_ok c -> magic c = SIGCTX_MAGIC -> 1 <= sc_sig c < 32 -> reads s root a (sigctx_bytes c) ->
  Z.testbit (old_mask c) 9 = true ->
  exists pr' f' ret, sys_sigreturn kbuf a pr f s = Some (pr', f', Return ret) /\ frame_regs f' = regs c /\ p_sigmask pr' = old_mask c /\
    forall s', proc_deliver_signals kbuf ret (pr' <| p_sigpending := sigbit SIGKILL |>) f' s' = Some (pr' <| p_sigpending := sigbit SIGKILL |>, f', s', Return ret).
Proof.
  intros Hk Hr HU Hlo Hblo Hbhi Hhi Hc Hm Hs Hrd H9. eexists _, _, _.
  split; [by apply (sigreturn_spec kbuf s T0 T M owed root p blo bhi)|]. split; [|split; [done|]].
  - destruct Hc as (_ & _ & _ & _ & Hl & _). destruct (regs c) as [|x1 [|x2 [|x3 [|x4 [|x5 [|x6 [|x7 [|x8 [|x9 [|]]]]]]]]]]; by cbn in Hl.
  - intros s'. unfold proc_deliver_signals. destruct (_ =? 0); [done|]. cbn [p_sigpending p_sigmask fupd chimera_proc_eta].
    assert (E : Z.land (sigbit SIGKILL) (not32 (old_mask c)) = 0).
    { apply Z.bits_inj'. intros k Hk'. rewrite Z.land_spec, sigbit_bit, Z.bits_0 by done. case_bool_decide as Ek; [|done]. subst k. change SIGKILL with 9.
      by rewrite not32_bit, H9 by lia. }
    by rewrite E.
Qed.
End Claims.

(** ** Examples on the address space of [CopySpec] *)

Definition demo_proc : chimera_proc := zero_proc <| p_pid := 5 |> <| p_sigpending := 2 ^ 15 |> <| p_sigacts := <[15%nat := 0x401000]> (zeros 32) |>.
Definition demo_regs : user_frame :=
  {| r15 := 1; r14 := 2; r13 := 3; r12 := 4; rbx := 5; rbp := 6; rip := 0x400100; rflags := 0x202; rsp := demo_va + 2048 |}.

Lemma demo_not_tramp va : demo_va <= va < demo_va + 4096 -> pmap_is_trampoline_va va = false.
Proof.
  intros Hva. unfold pmap_is_trampoline_va. fold (page_trunc va). unfold demo_va in Hva. rewrite page_trunc_div by lia. apply Z.eqb_neq.
  unfold SIGNAL_TRAMP_VA. assert (va / 4096 < 1025) by (apply Z.div_lt_upper_bound; lia). lia.
Qed.

Lemma demo_uspace : exists T M, T !! demo_root = Some (4%nat, 0) /\ uspace T (fun h => ind (h = demo_frame)) demo_root demo_va (demo_va + 4096) active T M.
Proof.
  destruct (proj2 demo_spaces) as (T & M & HD0). pose proof (demo_active T M HD0) as HD. exists T, M. split; [exact (ds_root _ _ _ _ _ _ _ HD)|].
  constructor; [exact (ds_spaces _ _ _ _ _ _ _ HD)|done| | |exact active_root].
  - apply (demo_active_user T M HD); vm_compute; discriminate.
  - apply (demo_private T M demo_root demo_frame demo_va (tramp_entry created) active _ HD);
      [reflexivity|vm_compute; discriminate|split; vm_compute; discriminate|vm_compute; reflexivity].
Qed.

Lemma demo_stack_room : stack_room demo_va (demo_va + 4096) demo_regs.
Proof.
  assert (E : slots_va demo_regs = demo_va + 1536) by (vm_compute; reflexivity). unfold stack_room. rewrite E. unfold demo_regs. cbn [rsp]. unfold demo_va in *.
  split; [lia|]. split; [lia|]. split; [lia|]. intros va Hva. apply demo_not_tramp. unfold demo_va. lia.
Qed.

Lemma signal_roundtrip_witness : exists pr' f' s', proc_deliver_signals 1 42 demo_proc demo_regs active = Some (pr', f', s', Return 42) /\
  sys_sigreturn 1 (ctx_va demo_regs) pr' f' s' = Some (pr' <| p_sigmask := 0 |>, demo_regs, Return 42).
Proof.
  destruct demo_uspace as (T & M & Hr & HU).
  assert (Hf : frame_ok demo_regs) by (repeat constructor; vm_compute; (discriminate || reflexivity)).
  assert (Hk : 1 ≠ 0) by discriminate. assert (Hm : 0 <= p_sigmask demo_proc < 2 ^ 32) by (split; vm_compute; (discriminate || reflexivity)).
  assert (Hret : - 2 ^ 63 <= 42 < 2 ^ 63) by (split; vm_compute; (discriminate || reflexivity)). assert (Hp : p_pid demo_proc ≠ 0) by discriminate.
  assert (Hs : first_signal (Z.land (p_sigpending demo_proc) (not32 (p_sigmask demo_proc))) = Some 15) by (vm_compute; reflexivity).
  assert (H0 : sigact demo_proc 15 ≠ 0) by (vm_compute; discriminate). assert (H1 : sigact demo_proc 15 ≠ 1) by (vm_compute; discriminate).
  destruct (signal_roundtrip 1 active T T M _ demo_root 0 demo_va (demo_va + 4096) demo_proc demo_regs 42 15 Hk Hr HU demo_stack_room Hf Hm Hret Hp Hs H0 H1)
    as (pr' & f' & s' & e & T' & M' & E & HU' & _ & _ & Hcase).
  exists pr', f', s'. assert (Ee : snd <$> proc_deliver_signals 1 42 demo_proc demo_regs active = Some (Return 42)) by (vm_compute; reflexivity).
  rewrite E in Ee. injection Ee as ->. split; [exact E|]. destruct Hcase as [Hc|(_ & _ & _ & _ & _ & _ & _ & Hback)]; [discriminate Hc|].
  apply (Hback s' T' M' pr' f' HU'). reflexivity.
Defined.


Definition forged : sigctx := {| magic := SIGCTX_MAGIC; sc_sig := 1; old_mask := 2 ^ 32 - 1; rax := 0; regs := [0; 0; 0; 0; 0; 0; 0x400100; 0x3202; demo_va] |}.

Lemma sigreturn_blocks_sigkill_witness : exists s pr' f' ret, sys_sigreturn 1 demo_va demo_proc demo_regs s = Some (pr', f', Return ret) /\ rflags f' = 0x3202 /\
  proc_deliver_signals 1 ret (pr' <| p_sigpending := sigbit SIGKILL |>) f' s = Some (pr' <| p_sigpending := sigbit SIGKILL |>, f', s, Return ret).
Proof.
  destruct demo_uspace as (T & M & Hr & HU). assert (Hk : 1 ≠ 0) by discriminate.
  assert (Hl : length (sigctx_bytes forged) = 96%nat) by (vm_compute; reflexivity). unfold demo_va in HU.
  destruct (copyout_spec active T T M _ demo_root 0 demo_va (demo_va + 4096) demo_va 1 (sigctx_bytes forged) HU Hr Hk) as (s' & e & T' & M' & E & HU' & _ & Hc).
  - intros E0. rewrite E0 in Hl. discriminate Hl.
  - apply sigctx_is_bytes.
  - unfold demo_va. lia.
  - rewrite Hl. unfold demo_va. lia.
  - rewrite Hl. unfold demo_va. lia.
  - intros va Hva. apply demo_not_tramp. rewrite Hl in Hva. lia.
  - assert (Ee : snd <$> copyout 1 (sigctx_bytes forged) demo_va active = Some CHIMERA_SUCCESS) by (vm_compute; reflexivity).
    rewrite E in Ee. injection Ee as ->. destruct Hc as [[_ Hrd]|Hc]; [|discriminate Hc].
    assert (Hok : ctx_ok forged).
    { unfold ctx_ok, forged. cbn [magic sc_sig old_mask rax regs length]. unfold SIGCTX_MAGIC, demo_va.
      do 4 (split; [lia|]). split; [reflexivity|]. repeat (constructor; [lia|]). constructor. }
    destruct (sigreturn_blocks_sigkill 1 s' T T' M' _ demo_root 0 demo_va (demo_va + 4096) demo_va forged demo_proc demo_regs Hk Hr HU') as (pr' & f' & ret & E1 & Ef & _ & Hd);
      [unfold demo_va; lia|unfold demo_va; lia|unfold demo_va; lia|unfold demo_va; lia|exact Hok|reflexivity|cbn; lia|exact Hrd|reflexivity|].
    exists s', pr', f', ret. split; [exact E1|]. split; [|apply Hd]. destruct f'. cbn in Ef |- *. injection Ef. intros. assumption.
Defined.
End Signal.
