(* ===== verification/Fat32.v ===== *)
(** * The FAT32 file system

    Model of [kernel/vfs/fat32.c] over the sector interface of
    [kernel/drivers/ata.c]: the file allocation table (FAT) in two copies with
    a cached sector, the bitmap of free clusters, cluster chains, and mounting,
    reading, writing, resizing, creating and removing files.

    The disk, a legacy drive, is a memory of bytes.  [faults] says of each
    coming transfer of a sector, and of each flush, with which error it fails,
    if it does; [lock] is [s_fat_lock].
    Waiting for a lock held by oneself, a loop that does not end within its
    fuel and an access outside a buffer are outcomes of their own. *)

From S2P Require Import Prelude Bytes.

Module Fat32.

Definition ATA_SECTOR_SIZE : Z := 512.
Definition EOC : Z := 0x0FFFFFFF.
Definition FAT32_MAX_VNODES : nat := 4096.
Definition FAT_BITMAP_MAX_BYTES : Z := 8 * 2 ^ 20.
Definition BUF_SECTORS : Z := 8.        (* sizeof(cluster_buf) / ATA_SECTOR_SIZE *)

Record fat32_fs := {
  bytes_per_sector : Z;
  sectors_per_cluster : Z;
  reserved_sectors : Z;
  num_fats : Z;
  total_sectors : Z;
  sectors_per_fat : Z;
  root_cluster : Z;
  data_start_lba : Z;
  cluster_size_bytes : Z;
  mounted : bool
}.

(** The data of a file or directory, with the size its vnode shows.  The path
    is stored with it in the code and never read. *)
Record fat32_node := {
  start_cluster : Z;
  file_size : Z;
  is_dir : bool;
  parent_dir_cluster : Z;
  dir_entry_offset : Z;
  va_size : Z
}.
#[global] Instance fat32_node_eta : Eta fat32_node := fun r =>
  {| start_cluster := start_cluster r; file_size := file_size r; is_dir := is_dir r; parent_dir_cluster := parent_dir_cluster r;
     dir_entry_offset := dir_entry_offset r; va_size := va_size r |}.

Record fat := {
  g_fat32 : fat32_fs;
  sector_count : Z;
  disk : gmap Z Z;
  faults : list (option chimera_error);
  lock : bool;
  s_cached_fat_sec : option Z;
  s_cached_fat_buf : list Z;
  s_free_bitmap : option (gset Z);      (* the bits that are set *)
  s_bitmap_clusters : Z;
  s_free_hint : Z;
  s_free_count : Z;
  s_fat_data : list fat32_node
}.
#[global] Instance fat_eta : Eta fat := fun r =>
  {| g_fat32 := g_fat32 r; sector_count := sector_count r; disk := disk r; faults := faults r; lock := lock r;
     s_cached_fat_sec := s_cached_fat_sec r; s_cached_fat_buf := s_cached_fat_buf r; s_free_bitmap := s_free_bitmap r;
     s_bitmap_clusters := s_bitmap_clusters r; s_free_hint := s_free_hint r; s_free_count := s_free_count r;
     s_fat_data := s_fat_data r |}.

Inductive outcome (A : Type) := Done (a : A) (s : fat) | Deadlock | Endless | Wild.
Arguments Done {A} a s.
Arguments Deadlock {A}.
Arguments Endless {A}.
Arguments Wild {A}.

Definition M (A : Type) : Type := fat -> outcome A.
Definition ret {A} (a : A) : M A := fun s => Done a s.
Definition bind {A B} (m : M A) (k : A -> M B) : M B := fun s =>
  match m s with Done a s => k a s | Deadlock => Deadlock | Endless => Endless | Wild => Wild end.
Declare Scope fat_scope.
Delimit Scope fat_scope with fat.
Notation "x <- m ;; k" := (bind m (fun x => k)) (at level 100, m at next level, right associativity) : fat_scope.
Notation "'let*' p := m 'in' k" := (bind m (fun x => match x with p => k end))
  (at level 200, p strict pattern, m at level 200, k at level 200) : fat_scope.
Notation "m ;;; k" := (bind m (fun _ => k)) (at level 100, right associativity) : fat_scope.
Open Scope fat_scope.

Definition get : M fat := fun s => Done s s.
Definition modify (f : fat -> fat) : M unit := fun s => Done tt (f s).
Definition geo {A} (f : fat32_fs -> A) : M A := fun s => Done (f (g_fat32 s)) s.

(** [spinlock_lock_irqsave] and [spinlock_unlock_irqrestore] of [s_fat_lock]. *)
Definition lock_fat : M unit := fun s => if lock s then Deadlock else Done tt (s <| lock := true |>).
Definition unlock_fat : M unit := modify (fun s => s <| lock := false |>).

(** ** The disk *)

Definition fault : M (option chimera_error) := fun s =>
  match faults s with [] => Done None s | x :: l => Done x (s <| faults := l |>) end.

(** A sector that cannot be transferred leaves buffer and disk as they are. *)
Definition ata_read_sector (lba off : Z) (buf : list Z) : M (list Z * chimera_error) :=
  x <- fault;;
  match x with
  | Some e => ret (buf, e)
  | None => s <- get;; ret (patch off (load_bytes (disk s) (ATA_SECTOR_SIZE * lba) ATA_SECTOR_SIZE) buf, CHIMERA_SUCCESS)
  end.
Definition ata_write_sector (lba off : Z) (buf : list Z) : M chimera_error :=
  x <- fault;;
  match x with
  | Some e => ret e
  | None => modify (fun s => s <| disk ::= store_bytes (ATA_SECTOR_SIZE * lba) (take 512 (drop (Z.to_nat off) buf)) |>);;; ret CHIMERA_SUCCESS
  end.
Definition ata_flush_cache : M chimera_error := x <- fault;; ret (default CHIMERA_SUCCESS x).

Fixpoint read_each (n : nat) (lba i : Z) (buf : list Z) : M (list Z * chimera_error) :=
  match n with
  | O => ret (buf, CHIMERA_SUCCESS)
  | S n =>
      let* (buf, e) := ata_read_sector (lba + i) (i * ATA_SECTOR_SIZE) buf in
      if succeeded e then read_each n lba (i + 1) buf else ret (buf, e)
  end.
Fixpoint write_each (n : nat) (lba i : Z) (buf : list Z) : M chimera_error :=
  match n with
  | O => ret CHIMERA_SUCCESS
  | S n =>
      e <- ata_write_sector (lba + i) (i * ATA_SECTOR_SIZE) buf;;
      if succeeded e then write_each n lba (i + 1) buf else ret e
  end.

Definition ata_read_sectors (lba count : Z) (buf : list Z) : M (list Z * chimera_error) :=
  s <- get;;
  if sector_count s <? lba + count then ret (buf, CHIMERA_ERR_OVERFLOW) else read_each (Z.to_nat count) lba 0 buf.
Definition ata_write_sectors (lba count : Z) (buf : list Z) : M chimera_error :=
  s <- get;;
  if sector_count s <? lba + count then ret CHIMERA_ERR_OVERFLOW else
  e <- write_each (Z.to_nat count) lba 0 buf;;
  if succeeded e then ata_flush_cache else ret e.

(** Where only success matters. *)
Definition get_sectors (lba count : Z) (buf : list Z) : M (list Z * bool) :=
  let* (buf, e) := ata_read_sectors lba count buf in ret (buf, succeeded e).
Definition put_sectors (lba count : Z) (buf : list Z) : M bool := e <- ata_write_sectors lba count buf;; ret (succeeded e).

(** A read into a buffer that is used only if the read succeeds. *)
Definition read_new (lba count : Z) : M (option (list Z)) :=
  let* (buf, ok) := get_sectors lba count (replicate (Z.to_nat (count * ATA_SECTOR_SIZE)) 0) in
  ret (if (ok : bool) then Some buf else None).

(** ** The allocation table *)

Definition is_cluster (c : Z) : bool := (2 <=? c) && (c <? 0x0FFFFFF8).
Definition get_u16 (off : Z) (buf : list Z) : Z := le_value (take 2 (drop (Z.to_nat off) buf)).
Definition get_u32 (off : Z) (buf : list Z) : Z := le_value (take 4 (drop (Z.to_nat off) buf)).
Definition get_u8 (off : Z) (buf : list Z) : Z := nth (Z.to_nat off) buf 0.

Definition fat32_cluster_to_lba (g : fat32_fs) (cluster : Z) : Z :=
  u32 (data_start_lba g + u32 (u32 (cluster - 2) * sectors_per_cluster g)).

Definition fat32_get_next_cluster_unlocked (cluster : Z) : M Z :=
  if negb (is_cluster cluster) then ret EOC else
  let fat_offset_bytes := u32 (cluster * 4) in
  reserved <- geo reserved_sectors;;
  let fat_sector := u32 (reserved + fat_offset_bytes / ATA_SECTOR_SIZE) in
  let entry_offset := fat_offset_bytes mod ATA_SECTOR_SIZE in
  s <- get;;
  ok <- (if bool_decide (s_cached_fat_sec s = Some fat_sector) then ret true else
         let* (buf, ok) := get_sectors fat_sector 1 (s_cached_fat_buf s) in
         modify (fun s => s <| s_cached_fat_buf := buf |>);;;
         if (ok : bool) then modify (fun s => s <| s_cached_fat_sec := Some fat_sector |>);;; ret true else ret false);;
  if (ok : bool) then s <- get;; ret (Z.land (get_u32 entry_offset (s_cached_fat_buf s)) 0x0FFFFFFF) else ret EOC.

Definition fat32_get_next_cluster (cluster : Z) : M Z :=
  lock_fat;;;
  next <- fat32_get_next_cluster_unlocked cluster;;
  unlock_fat;;;
  ret next.

(** ** The bitmap of free clusters *)

Definition fat_bitmap_test_free (cluster : Z) (b : gset Z) : bool := bool_decide (u32 (cluster - 2) ∈ b).
Definition fat_bitmap_mark_used (cluster : Z) (s : fat) : fat :=
  s <| s_free_bitmap ::= fmap (fun b : gset Z => b ∖ {[u32 (cluster - 2)]}) |>
    <| s_free_count ::= fun n => if n =? 0 then n else n - 1 |>.
Definition fat_bitmap_mark_free (cluster : Z) (s : fat) : fat :=
  s <| s_free_bitmap ::= fmap (fun b : gset Z => {[u32 (cluster - 2)]} ∪ b) |>
    <| s_free_count ::= fun n => u32 (n + 1) |>
    <| s_free_hint ::= fun h => if cluster <? h then cluster else h |>.

(** The first part of [fat32_set_fat_entry]: the bitmap follows the table. *)
Definition bitmap_sync (cluster val : Z) (s : fat) : fat :=
  match s_free_bitmap s with
  | Some b =>
      if u32 (cluster - 2) <? s_bitmap_clusters s then
        if Z.land val 0x0FFFFFFF =? 0
        then if fat_bitmap_test_free cluster b then s else fat_bitmap_mark_free cluster s
        else if fat_bitmap_test_free cluster b then fat_bitmap_mark_used cluster s else s
      else s
  | None => s
  end.

Definition fat32_set_fat_entry (cluster val : Z) : M chimera_error :=
  if negb (is_cluster cluster) then ret CHIMERA_ERR_INVALID else
  modify (bitmap_sync cluster val);;;
  let fat_offset_bytes := u32 (cluster * 4) in
  let fat_sector_idx := fat_offset_bytes / ATA_SECTOR_SIZE in
  let entry_offset := fat_offset_bytes mod ATA_SECTOR_SIZE in
  modify (fun s => s <| s_cached_fat_sec := None |>);;;
  reserved <- geo reserved_sectors;;
  per_fat <- geo sectors_per_fat;;
  r <- read_new (u32 (reserved + fat_sector_idx)) 1;;
  match r with
  | None => ret CHIMERA_ERR_GENERIC
  | Some buf =>
      let orig := get_u32 entry_offset buf in
      let buf := patch entry_offset (le_bytes 4 (Z.lor (Z.land val 0x0FFFFFFF) (Z.land orig 0xF0000000))) buf in
      ok <- put_sectors (u32 (reserved + fat_sector_idx)) 1 buf;;
      if negb ok then ret CHIMERA_ERR_GENERIC else
      ok <- put_sectors (u32 (u32 (reserved + per_fat) + fat_sector_idx)) 1 buf;;
      ret (if (ok : bool) then CHIMERA_SUCCESS else CHIMERA_ERR_GENERIC)
  end.

(** The scan of the bitmap from the hint on, with one wrap-around. *)
Definition bitmap_scan (b : gset Z) (n hint : Z) : option Z :=
  let start := if 2 <=? hint then hint - 2 else 0 in
  snd <$> list_find (fun i => i ∈ b) (seqZ start (n - start) ++ seqZ 0 (Z.min start n)).

(** The scan of the table without a bitmap: one sector, all sectors. *)
Definition sector_cluster (sec k : Z) : Z := u32 (u32 (sec * ATA_SECTOR_SIZE) + 4 * k) / 4.
Definition sector_scan (sec total_clusters : Z) (buf : list Z) : option Z :=
  sector_cluster sec ∘ snd <$>
    list_find (fun k => 2 <= sector_cluster sec k /\ sector_cluster sec k < u32 (total_clusters + 2)
                        /\ Z.land (get_u32 (4 * k) buf) 0x0FFFFFFF = 0) (seqZ 0 128).
Fixpoint fat_scan (n : nat) (sec total_clusters : Z) : M Z :=
  match n with
  | O => ret 0
  | S n =>
      reserved <- geo reserved_sectors;;
      r <- read_new (u32 (reserved + sec)) 1;;
      match r with
      | None => ret 0
      | Some buf => match sector_scan sec total_clusters buf with
                    | Some c => ret c
                    | None => fat_scan n (sec + 1) total_clusters
                    end
      end
  end.

Fixpoint zero_sectors (n : nat) (lba : Z) : M unit :=
  match n with
  | O => ret tt
  | S n => put_sectors lba 1 (replicate 512 0);;; zero_sectors n (u32 (lba + 1))
  end.

Definition fat32_alloc_cluster : M Z :=
  s <- get;;
  let g := g_fat32 s in
  let total_clusters := u32 (total_sectors g - data_start_lba g) / sectors_per_cluster g in
  cluster <- match s_free_bitmap s with
             | Some b => match bitmap_scan b (s_bitmap_clusters s) (s_free_hint s) with
                         | Some i => modify (fat_bitmap_mark_used (u32 (i + 2)));;; ret (u32 (i + 2))
                         | None => ret 0
                         end
             | None => fat_scan (Z.to_nat (sectors_per_fat g)) 0 total_clusters
             end;;
  if cluster =? 0 then ret 0 else
  fat32_set_fat_entry cluster EOC;;;
  zero_sectors (Z.to_nat (sectors_per_cluster g)) (fat32_cluster_to_lba g cluster);;;
  modify (fun s => s <| s_free_hint ::= fun h => if h <? u32 (cluster + 1) then u32 (cluster + 1) else h |>);;;
  ret cluster.

Fixpoint fat32_free_cluster_chain_unlocked (fuel : nat) (cluster : Z) : M unit :=
  if negb (is_cluster cluster) then ret tt else
  match fuel with
  | O => fun _ => Endless
  | S fuel =>
      next <- fat32_get_next_cluster_unlocked cluster;;
      fat32_set_fat_entry cluster 0;;;
      fat32_free_cluster_chain_unlocked fuel next
  end.
Definition fat32_free_cluster_chain (fuel : nat) (cluster : Z) : M unit :=
  lock_fat;;; fat32_free_cluster_chain_unlocked fuel cluster;;; unlock_fat.

(** ** Names *)

(** Characters of a C string; [32] is the blank and [46] the dot. *)
Definition to_lower (c : Z) : Z := if (65 <=? c) && (c <=? 90) then c + 32 else c.
Definition to_upper (c : Z) : Z := if (97 <=? c) && (c <=? 122) then c - 32 else c.

Definition fat32_format_name (entry : list Z) (out_max : Z) : list Z :=
  let name := to_lower <$> filter (fun c => c <> 32) (take 8 entry) in
  let ext := to_lower <$> filter (fun c => c <> 32) (take 3 (drop 8 entry)) in
  take (Z.to_nat (out_max - 1)) (match ext with [] => name | _ => name ++ 46 :: ext end).

(** The position of the last dot. *)
Fixpoint last_dot (l : list Z) : option nat :=
  match l with
  | [] => None
  | c :: l => match last_dot l with Some i => Some (S i) | None => if c =? 46 then Some 0%nat else None end
  end.
Definition blank_pad (n : nat) (l : list Z) : list Z := take n (l ++ replicate n 32).
Definition fat32_make_83_name (in_name : list Z) : list Z :=
  let upper := to_upper <$> take 63 in_name in
  match last_dot upper with
  | Some d => blank_pad 8 (take d upper) ++ blank_pad 3 (drop (S d) upper)
  | None => blank_pad 8 upper ++ blank_pad 3 []
  end.

(** ** Directory entries *)

(** The cluster of a directory that holds the byte [offset], and the offset
    in it. *)
Fixpoint dir_walk (next : Z -> M Z) (fuel : nat) (cluster_size offset cluster : Z) : M (Z * Z) :=
  if (cluster_size <=? offset) && is_cluster cluster then
    match fuel with
    | O => fun _ => Endless
    | S fuel => cluster <- next cluster;; dir_walk next fuel cluster_size (offset - cluster_size) cluster
    end
  else ret (cluster, offset).

Definition set_cluster_fields (off cluster : Z) (buf : list Z) : list Z :=
  patch (off + 26) (le_bytes 2 (Z.land cluster 0xFFFF)) (patch (off + 20) (le_bytes 2 (Z.land (Z.shiftr cluster 16) 0xFFFF)) buf).

Definition fat32_update_dir_entry (nd : fat32_node) : M chimera_error :=
  if parent_dir_cluster nd <? 2 then ret CHIMERA_SUCCESS else
  g <- geo id;;
  let cluster_size := cluster_size_bytes g in
  let* (cluster, offset) := dir_walk fat32_get_next_cluster (Z.to_nat (dir_entry_offset nd / cluster_size)) cluster_size
                                 (dir_entry_offset nd) (parent_dir_cluster nd) in
  if negb (is_cluster cluster) then ret CHIMERA_ERR_INVALID else
  let lba := u32 (fat32_cluster_to_lba g cluster + offset / ATA_SECTOR_SIZE) in
  let sec_off := offset mod ATA_SECTOR_SIZE in
  r <- read_new lba 1;;
  match r with
  | None => ret CHIMERA_ERR_GENERIC
  | Some sec =>
      ata_write_sectors lba 1 (patch (sec_off + 28) (le_bytes 4 (file_size nd)) (set_cluster_fields sec_off (start_cluster nd) sec))
  end.

(** ** Reading *)

(** Sectors transferred at a time: a cluster, but no more than the buffer. *)
Definition buf_count (g : fat32_fs) : Z := if BUF_SECTORS <? sectors_per_cluster g then BUF_SECTORS else sectors_per_cluster g.

Fixpoint read_skip (n : nat) (cluster : Z) : M (option Z) :=
  match n with
  | O => ret (Some cluster)
  | S n => cluster <- fat32_get_next_cluster cluster;;
           if negb (is_cluster cluster) then ret None else read_skip n cluster
  end.

Fixpoint read_loop (fuel : nat) (cluster cluster_offset to_read : Z) (dst : list Z) : M (option (list Z)) :=
  if (0 <? to_read) && is_cluster cluster then
    match fuel with
    | O => fun _ => Endless
    | S fuel =>
        g <- geo id;;
        r <- read_new (fat32_cluster_to_lba g cluster) (buf_count g);;
        match r with
        | None => ret None
        | Some cluster_buf =>
            let buf_bytes := buf_count g * ATA_SECTOR_SIZE in
            let avail := if cluster_offset <? buf_bytes then buf_bytes - cluster_offset else 0 in
            let chunk := Z.min to_read avail in
            let dst := dst ++ take (Z.to_nat chunk) (drop (Z.to_nat cluster_offset) cluster_buf) in
            cluster <- (if chunk <? to_read then fat32_get_next_cluster cluster else ret cluster);;
            read_loop fuel cluster 0 (to_read - chunk) dst
        end
    end
  else ret (Some dst).

(** The bytes read, as many as [*bytes_read] says. *)
Definition fat32_read_file (start_cluster file_size offset len : Z) : M (chimera_error * list Z) :=
  g <- geo id;;
  if negb (mounted g) || (start_cluster <? 2) || (file_size <=? offset) || (len =? 0) then ret (CHIMERA_SUCCESS, []) else
  let to_read := if file_size <? u32 (offset + len) then file_size - offset else len in
  let cluster_size := cluster_size_bytes g in
  c <- read_skip (Z.to_nat (offset / cluster_size)) start_cluster;;
  match c with
  | None => ret (CHIMERA_ERR_GENERIC, [])
  | Some cluster =>
      r <- read_loop (S (Z.to_nat to_read)) cluster (offset mod cluster_size) to_read [];;
      ret (match r with Some dst => (CHIMERA_SUCCESS, dst) | None => (CHIMERA_ERR_GENERIC, []) end)
  end.

(** ** Writing *)

Definition node_at (i : nat) (s : fat) : fat32_node :=
  nth i (s_fat_data s) {| start_cluster := 0; file_size := 0; is_dir := false; parent_dir_cluster := 0; dir_entry_offset := 0; va_size := 0 |}.
Definition set_node (i : nat) (f : fat32_node -> fat32_node) : M unit := modify (fun s => s <| s_fat_data ::= alter f i |>).
Definition update_entry_of (i : nat) : M chimera_error := fun s => fat32_update_dir_entry (node_at i s) s.

(** The next cluster of a chain, or a new one linked to its end; less than 2
    when the disk is full. *)
Definition next_or_extend (cluster : Z) : M Z :=
  next <- fat32_get_next_cluster_unlocked cluster;;
  if is_cluster next then ret next else
  new <- fat32_alloc_cluster;;
  if new <? 2 then ret new else
  fat32_set_fat_entry cluster new;;;
  ret new.

Fixpoint write_skip (n : nat) (cluster : Z) : M (option Z) :=
  match n with
  | O => ret (Some cluster)
  | S n => cluster <- next_or_extend cluster;;
           if cluster <? 2 then ret None else write_skip n cluster
  end.

(** [src] is what remains to be written; the result is the number of bytes
    written, [None] after a failed transfer. *)
Fixpoint write_loop (fuel : nat) (cluster cluster_offset written : Z) (src cluster_buf : list Z) : M (option Z) :=
  match src with
  | [] => ret (Some written)
  | _ :: _ =>
      match fuel with
      | O => fun _ => Endless
      | S fuel =>
          g <- geo id;;
          let lba := fat32_cluster_to_lba g cluster in
          let count := buf_count g in
          let buf_bytes := count * ATA_SECTOR_SIZE in
          let len := Z.of_nat (length src) in
          cluster_buf <- (if negb (cluster_offset =? 0) || (len <? buf_bytes)
                          then let* (b, _) := get_sectors lba count cluster_buf in ret b else ret cluster_buf);;
          let avail := if cluster_offset <? buf_bytes then buf_bytes - cluster_offset else 0 in
          let chunk := Z.min len avail in
          let cluster_buf := if 0 <? chunk then patch cluster_offset (take (Z.to_nat chunk) src) cluster_buf else cluster_buf in
          ok <- put_sectors lba count cluster_buf;;
          if negb ok then ret None else
          let written := written + chunk in
          let src := drop (Z.to_nat chunk) src in
          if chunk <? len then
            cluster <- next_or_extend cluster;;
            if cluster <? 2 then ret (Some written) else write_loop fuel cluster 0 written src cluster_buf
          else ret (Some written)
      end
  end.

(** [junk] is what the stack holds where [cluster_buf] lies. *)
Definition fat32_write_node (i : nat) (offset : Z) (src junk : list Z) : M (chimera_error * Z) :=
  g <- geo id;;
  if negb (mounted g) || (Z.of_nat (length src) =? 0) then ret (CHIMERA_SUCCESS, 0) else
  lock_fat;;;
  s <- get;;
  started <- (if start_cluster (node_at i s) <? 2 then
                c <- fat32_alloc_cluster;;
                set_node i (fun nd => nd <| start_cluster := c |>);;;
                if c <? 2 then ret false else update_entry_of i;;; ret true
              else ret true);;
  if negb started then unlock_fat;;; ret (CHIMERA_ERR_NORESOURCE, 0) else
  let cluster_size := cluster_size_bytes g in
  s <- get;;
  c <- write_skip (Z.to_nat (offset / cluster_size)) (start_cluster (node_at i s));;
  match c with
  | None => unlock_fat;;; ret (CHIMERA_ERR_NORESOURCE, 0)
  | Some cluster =>
      w <- write_loop (S (length src)) cluster (offset mod cluster_size) 0 src junk;;
      match w with
      | None => unlock_fat;;; ret (CHIMERA_ERR_GENERIC, 0)
      | Some written =>
          s <- get;;
          (if file_size (node_at i s) <? u32 (offset + written) then
             set_node i (fun nd => nd <| file_size := u32 (offset + written) |> <| va_size := u32 (offset + written) |>);;;
             update_entry_of i;;; ret tt
           else ret tt);;;
          unlock_fat;;;
          ret (CHIMERA_SUCCESS, written)
      end
  end.
(** ** Resizing *)

(** Zeroes a cluster from [off] on, sector by sector. *)
Fixpoint zero_tail (fuel : nat) (lba off cluster_size : Z) : M chimera_error :=
  if off <? cluster_size then
    match fuel with
    | O => fun _ => Endless
    | S fuel =>
        let sec_off := off mod ATA_SECTOR_SIZE in
        let sec_lba := u32 (lba + off / ATA_SECTOR_SIZE) in
        r <- read_new sec_lba 1;;
        match r with
        | None => ret CHIMERA_ERR_GENERIC
        | Some sec =>
            ok <- put_sectors sec_lba 1 (patch sec_off (replicate (Z.to_nat (ATA_SECTOR_SIZE - sec_off)) 0) sec);;
            if negb ok then ret CHIMERA_ERR_GENERIC else zero_tail fuel lba (off + (ATA_SECTOR_SIZE - sec_off)) cluster_size
        end
    end
  else ret CHIMERA_SUCCESS.
Definition fat32_zero_cluster_tail (cluster from_off : Z) : M chimera_error :=
  g <- geo id;;
  zero_tail (Z.to_nat (sectors_per_cluster g)) (fat32_cluster_to_lba g cluster) from_off (cluster_size_bytes g).

(** Follows a chain for at most [n] links; the cluster reached and the number
    of links followed. *)
Fixpoint chain_walk (n : nat) (cluster count : Z) : M (Z * Z) :=
  match n with
  | O => ret (cluster, count)
  | S n => next <- fat32_get_next_cluster_unlocked cluster;;
           if is_cluster next then chain_walk n next (count + 1) else ret (cluster, count)
  end.

(** Links [n] new clusters behind [cluster]. *)
Fixpoint chain_grow (n : nat) (cluster : Z) : M chimera_error :=
  match n with
  | O => ret CHIMERA_SUCCESS
  | S n => next <- fat32_alloc_cluster;;
           if next <? 2 then ret CHIMERA_ERR_NORESOURCE else
           fat32_set_fat_entry cluster next;;;
           chain_grow n next
  end.

(** The number of clusters for [size] bytes. *)
Definition clusters_for (g : fat32_fs) (size : Z) : Z :=
  u32 (u64 (u64 (size + cluster_size_bytes g) - 1) / cluster_size_bytes g).

Definition resize_grow (start old_clusters needed : Z) : M chimera_error :=
  if (old_clusters <? needed) && (2 <=? start) then
    let* (cluster, count) := chain_walk (Z.to_nat (old_clusters - 1)) start 1 in
    chain_grow (Z.to_nat (needed - count)) cluster
  else ret CHIMERA_SUCCESS.

Definition resize_zero (g : fat32_fs) (start old_size new_size : Z) : M chimera_error :=
  if (old_size <? new_size) && (0 <? old_size) && negb (old_size mod cluster_size_bytes g =? 0) && (2 <=? start) then
    let* (cluster, _) := chain_walk (Z.to_nat ((old_size - 1) / cluster_size_bytes g)) start 0 in
    fat32_zero_cluster_tail cluster (old_size mod cluster_size_bytes g)
  else ret CHIMERA_SUCCESS.

Definition resize_shrink (fuel i : nat) (start old_clusters needed : Z) : M unit :=
  if (needed <? old_clusters) && (2 <=? start) then
    if needed =? 0 then
      fat32_free_cluster_chain_unlocked fuel start;;;
      set_node i (fun nd => nd <| start_cluster := 0 |>)
    else
      let* (cluster, _) := chain_walk (Z.to_nat (needed - 1)) start 1 in
      tail <- fat32_get_next_cluster_unlocked cluster;;
      fat32_set_fat_entry cluster EOC;;;
      if is_cluster tail then fat32_free_cluster_chain_unlocked fuel tail else ret tt
  else ret tt.

Definition fat32_resize_node (fuel i : nat) (new_size : Z) : M chimera_error :=
  g <- geo id;;
  if negb (mounted g) then ret CHIMERA_ERR_INVALID else
  if 0xFFFFFFFF <? new_size then ret CHIMERA_ERR_OVERFLOW else
  lock_fat;;;
  s <- get;;
  let old_size := file_size (node_at i s) in
  let old_clusters := clusters_for g old_size in
  let needed := clusters_for g new_size in
  started <- (if (0 <? needed) && (start_cluster (node_at i s) <? 2) then
                c <- fat32_alloc_cluster;;
                if c <? 2 then ret false else set_node i (fun nd => nd <| start_cluster := c |>);;; ret true
              else ret true);;
  if negb started then unlock_fat;;; ret CHIMERA_ERR_NORESOURCE else
  s <- get;;
  let start := start_cluster (node_at i s) in
  err <- resize_grow start old_clusters needed;;
  err <- (if succeeded err then resize_zero g start old_size new_size else ret err);;
  (if succeeded err then resize_shrink fuel i start old_clusters needed else ret tt);;;
  err <- (if succeeded err then
            set_node i (fun nd => nd <| file_size := u32 new_size |> <| va_size := u32 new_size |>);;;
            update_entry_of i
          else ret err);;
  unlock_fat;;;
  ret err.

(** ** Creating and removing files *)

(** Parent directory and name of a path; [47] is the slash.  [None] when the
    arrays for them are too short: the copy of the parent overruns, and a
    name of 63 characters or more is left without its terminator. *)
Fixpoint last_slash (l : list Z) : option nat :=
  match l with
  | [] => None
  | c :: l => match last_slash l with Some i => Some (S i) | None => if c =? 47 then Some 0%nat else None end
  end.
Definition split_parent_child_path (path : list Z) : option (list Z * list Z) :=
  let '(parent, child) := match last_slash path with
                          | Some (S i) => (take (S i) path, drop (S (S i)) path)
                          | Some O => ([47], drop 1 path)
                          | None => ([47], path)
                          end in
  if (256 <=? length parent)%nat || (63 <=? length child)%nat then None else Some (parent, child).

(** The first free entry of a directory cluster, at most 4096 bytes of which
    have been read; [None] when the search leaves the buffer. *)
Definition free_slot (cluster_size : Z) (buf : list Z) : option (option Z) :=
  match list_find (fun k => get_u8 (32 * k) buf = 0 \/ get_u8 (32 * k) buf = 0xE5)
                  (seqZ 0 (Z.min cluster_size 4096 / 32)) with
  | Some (_, k) => Some (Some (32 * k))
  | None => if 4096 <? cluster_size then None else Some None
  end.

(** Sector, offset in the sector and offset in the directory of a free entry.
    [extend] says whether a full directory gets a new cluster, as it does for
    files but not for directories; [inl] is the error to return. *)
Fixpoint find_slot (fuel : nat) (extend : bool) (cluster entry_offset_in_dir : Z) : M (chimera_error + Z * Z * Z) :=
  if negb (is_cluster cluster) then ret (inl CHIMERA_ERR_NORESOURCE) else
  match fuel with
  | O => fun _ => Endless
  | S fuel =>
      g <- geo id;;
      let lba := fat32_cluster_to_lba g cluster in
      r <- read_new lba (buf_count g);;
      match r with
      | None => ret (inl CHIMERA_ERR_NORESOURCE)
      | Some cluster_buf =>
          match free_slot (cluster_size_bytes g) cluster_buf with
          | None => fun _ => Wild
          | Some (Some i) => ret (inr (u32 (lba + i / ATA_SECTOR_SIZE), i mod ATA_SECTOR_SIZE, u32 (entry_offset_in_dir + i)))
          | Some None =>
              let entry_offset_in_dir := u32 (entry_offset_in_dir + cluster_size_bytes g) in
              next <- fat32_get_next_cluster_unlocked cluster;;
              if is_cluster next || negb extend then find_slot fuel extend next entry_offset_in_dir else
              new_c <- fat32_alloc_cluster;;
              if new_c <? 2 then ret (inl CHIMERA_ERR_NORESOURCE) else
              fat32_set_fat_entry cluster new_c;;;
              ret (inr (fat32_cluster_to_lba g new_c, 0, entry_offset_in_dir))
          end
      end
  end.

(** A new entry of 32 bytes in the sector [sec]. *)
Definition new_entry (off : Z) (name_83 : list Z) (attr cluster : Z) (sec : list Z) : list Z :=
  set_cluster_fields off cluster (patch (off + 11) [attr] (patch off name_83 (patch off (replicate 32 0) sec))).

(** A new vnode; [vfs_register] is a call into the file system layer. *)
Definition new_node (nd : fat32_node) : M (chimera_error * option nat) :=
  s <- get;;
  if (FAT32_MAX_VNODES <=? length (s_fat_data s))%nat then ret (CHIMERA_ERR_NORESOURCE, None) else
  modify (fun s => s <| s_fat_data ::= (.++ [nd]) |>);;;
  ret (CHIMERA_SUCCESS, Some (length (s_fat_data s))).

Section Paths.
(** What [vfs_lookup] finds: a node of this file system, or a vnode without
    data such as the root directory. *)
Variable vfs_lookup : list Z -> option (option nat).

Definition parent_cluster (pdir : option nat) (s : fat) : Z :=
  match pdir with Some j => start_cluster (node_at j s) | None => root_cluster (g_fat32 s) end.

(** The result is the vnode found or created. *)
Definition fat32_create_file_locked (fuel : nat) (path : list Z) : M (chimera_error * option (option nat)) :=
  match vfs_lookup path with Some v => ret (CHIMERA_SUCCESS, Some v) | None =>
  match split_parent_child_path path with None => fun _ => Wild | Some (parent, child) =>
  match vfs_lookup parent with None => ret (CHIMERA_ERR_NOTFOUND, None) | Some pdir =>
  s <- get;;
  let dir := parent_cluster pdir s in
  slot <- find_slot fuel true dir 0;;
  match slot with inl e => ret (e, None) | inr (target_lba, target_sec_off, entry_offset_in_dir) =>
  r <- read_new target_lba 1;;
  match r with None => ret (CHIMERA_ERR_GENERIC, None) | Some sec =>
  ok <- put_sectors target_lba 1
          (patch (target_sec_off + 28) (le_bytes 4 0) (new_entry target_sec_off (fat32_make_83_name child) 0x20 0 sec));;
  if negb ok then ret (CHIMERA_ERR_GENERIC, None) else
  let* (e, v) := new_node {| start_cluster := 0; file_size := 0; is_dir := false; parent_dir_cluster := dir;
                         dir_entry_offset := entry_offset_in_dir; va_size := 0 |} in
  ret (e, Some <$> v)
  end end end end end.

Definition fat32_create_file (fuel : nat) (path : list Z) : M (chimera_error * option (option nat)) :=
  lock_fat;;; r <- fat32_create_file_locked fuel path;; unlock_fat;;; ret r.

(** The entries for the directory itself and for its parent. *)
Definition dot_entries (new_dir_cluster dotdot_cluster : Z) : list Z :=
  let dots := patch 11 [0x10] (blank_pad 11 [46] ++ replicate 501 0) in
  let dots := patch 43 [0x10] (patch 32 (blank_pad 11 [46; 46]) dots) in
  set_cluster_fields 32 dotdot_cluster (set_cluster_fields 0 new_dir_cluster dots).

(** [junk] is what the stack holds where the sector buffer lies. *)
Definition fat32_create_dir_locked (fuel : nat) (path junk : list Z) : M (chimera_error * option nat) :=
  match split_parent_child_path path with None => fun _ => Wild | Some (parent, child) =>
  match vfs_lookup parent with None => ret (CHIMERA_ERR_NOTFOUND, None) | Some pdir =>
  s <- get;;
  let g := g_fat32 s in
  let dir := parent_cluster pdir s in
  new_dir_cluster <- fat32_alloc_cluster;;
  if new_dir_cluster <? 2 then ret (CHIMERA_ERR_NORESOURCE, None) else
  let dotdot_cluster := if dir =? root_cluster g then 0 else dir in
  put_sectors (fat32_cluster_to_lba g new_dir_cluster) 1 (dot_entries new_dir_cluster dotdot_cluster);;;
  slot <- find_slot fuel false dir 0;;
  match slot with inl e => ret (e, None) | inr (target_lba, target_sec_off, entry_offset_in_dir) =>
  let* (sec, _) := get_sectors target_lba 1 junk in
  put_sectors target_lba 1
    (patch (target_sec_off + 28) (le_bytes 4 0) (new_entry target_sec_off (fat32_make_83_name child) 0x10 new_dir_cluster sec));;;
  new_node {| start_cluster := new_dir_cluster; file_size := 0; is_dir := true; parent_dir_cluster := dir;
              dir_entry_offset := entry_offset_in_dir; va_size := 0 |}
  end end end.

Definition fat32_create_dir (fuel : nat) (path junk : list Z) : M (chimera_error * option nat) :=
  lock_fat;;; r <- fat32_create_dir_locked fuel path junk;; unlock_fat;;; ret r.

Definition fat32_unlink_file_locked (fuel : nat) (path : list Z) : M chimera_error :=
  match vfs_lookup path with None => ret CHIMERA_ERR_NOTFOUND | Some None => ret CHIMERA_ERR_INVALID | Some (Some i) =>
  s <- get;;
  let g := g_fat32 s in
  let nd := node_at i s in
  if parent_dir_cluster nd <? 2 then ret CHIMERA_ERR_INVALID else
  let* (cluster, offset) := dir_walk fat32_get_next_cluster_unlocked (Z.to_nat (dir_entry_offset nd / cluster_size_bytes g))
                                 (cluster_size_bytes g) (dir_entry_offset nd) (parent_dir_cluster nd) in
  (if is_cluster cluster then
     let lba := u32 (fat32_cluster_to_lba g cluster + offset / ATA_SECTOR_SIZE) in
     r <- read_new lba 1;;
     match r with
     | Some sec => put_sectors lba 1 (patch (offset mod ATA_SECTOR_SIZE) [0xE5] sec);;; ret tt
     | None => ret tt
     end
   else ret tt);;;
  (if 2 <=? start_cluster nd then
     fat32_free_cluster_chain_unlocked fuel (start_cluster nd);;;
     set_node i (fun nd => nd <| start_cluster := 0 |>)
   else ret tt);;;
  set_node i (fun nd => nd <| file_size := 0 |> <| va_size := 0 |>);;;
  ret CHIMERA_SUCCESS
  end.

Definition fat32_unlink_file (fuel : nat) (path : list Z) : M chimera_error :=
  lock_fat;;; r <- fat32_unlink_file_locked fuel path;; unlock_fat;;; ret r.
End Paths.

(** ** Mounting *)

Definition boot_geometry (boot_sec : list Z) : fat32_fs :=
  {| bytes_per_sector := get_u16 11 boot_sec; sectors_per_cluster := get_u8 13 boot_sec; reserved_sectors := get_u16 14 boot_sec;
     num_fats := get_u8 16 boot_sec; total_sectors := get_u32 32 boot_sec; sectors_per_fat := get_u32 36 boot_sec;
     root_cluster := get_u32 44 boot_sec; data_start_lba := 0; cluster_size_bytes := 0; mounted := false |}.
Definition mounted_geometry (g : fat32_fs) : fat32_fs :=
  {| bytes_per_sector := bytes_per_sector g; sectors_per_cluster := sectors_per_cluster g; reserved_sectors := reserved_sectors g;
     num_fats := num_fats g; total_sectors := total_sectors g; sectors_per_fat := sectors_per_fat g; root_cluster := root_cluster g;
     data_start_lba := u32 (reserved_sectors g + u32 (num_fats g * sectors_per_fat g));
     cluster_size_bytes := u32 (sectors_per_cluster g * ATA_SECTOR_SIZE); mounted := true |}.
Definition no_geometry : fat32_fs :=
  {| bytes_per_sector := 0; sectors_per_cluster := 0; reserved_sectors := 0; num_fats := 0; total_sectors := 0; sectors_per_fat := 0;
     root_cluster := 0; data_start_lba := 0; cluster_size_bytes := 0; mounted := false |}.

(** One entry, one sector and all sectors of the table. *)
Definition bitmap_entry (sec : Z) (buf : list Z) (s : fat) (k : Z) : fat :=
  let c := sector_cluster sec k in
  if (c <? 2) || (u32 (s_bitmap_clusters s + 2) <=? c) || (Z.land (get_u32 (4 * k) buf) 0x0FFFFFFF =? 0) then s
  else s <| s_free_count ::= fun n => u32 (n - 1) |> <| s_free_bitmap ::= fmap (fun b : gset Z => b ∖ {[u32 (c - 2)]}) |>.
Fixpoint bitmap_fill (n : nat) (sec : Z) : M unit :=
  match n with
  | O => ret tt
  | S n =>
      reserved <- geo reserved_sectors;;
      r <- read_new (u32 (reserved + sec)) 1;;
      match r with
      | None => ret tt
      | Some buf => modify (fun s => foldl (bitmap_entry sec buf) s (seqZ 0 128));;; bitmap_fill n (sec + 1)
      end
  end.

(** [kalloc_ok] is whether the heap has room for the bitmap.  The directory
    scan that follows is not part of the model. *)
Definition fat32_build_bitmap (kalloc_ok : bool) : M unit :=
  g <- geo id;;
  let n := u32 (total_sectors g - data_start_lba g) / sectors_per_cluster g in
  let bitmap_bytes := u32 (n + 7) / 8 in
  modify (fun s => s <| s_bitmap_clusters := n |>);;;
  if (2 <=? n) && (bitmap_bytes <=? FAT_BITMAP_MAX_BYTES) then
    if kalloc_ok then
      modify (fun s => s <| s_free_bitmap := Some (list_to_set (seqZ 0 (8 * bitmap_bytes))) |> <| s_free_count := n |> <| s_free_hint := 2 |>);;;
      bitmap_fill (Z.to_nat (sectors_per_fat g)) 0
    else modify (fun s => s <| s_free_bitmap := None |>)
  else ret tt.

Definition fat32_init (kalloc_ok : bool) : M chimera_error :=
  lock_fat;;;
  modify (fun s => s <| g_fat32 := no_geometry |>);;;
  r <- read_new 0 1;;
  match r with
  | None => unlock_fat;;; ret CHIMERA_ERR_GENERIC
  | Some boot_sec =>
      if negb (get_u8 510 boot_sec =? 0x55) || negb (get_u8 511 boot_sec =? 0xAA) then unlock_fat;;; ret CHIMERA_ERR_INVALID else
      let g := boot_geometry boot_sec in
      modify (fun s => s <| g_fat32 := g |>);;;
      if negb (bytes_per_sector g =? 512) || (sectors_per_cluster g =? 0) || (64 <? sectors_per_cluster g) || (sectors_per_fat g =? 0)
      then unlock_fat;;; ret CHIMERA_ERR_NOTSUP
      else
        modify (fun s => s <| g_fat32 := mounted_geometry g |>);;;
        unlock_fat;;;
        fat32_build_bitmap kalloc_ok;;;
        ret CHIMERA_SUCCESS
  end.
End Fat32.
