(* ===== verification/Fat32Spec.v ===== *)
(** * The FAT32 file system: clusters and chains

    What the operations of [Fat32] do to a volume whose disk does not fail:
    to the entries of the allocation table ([entry]) and to the bytes of the
    clusters ([dbyte]), with the cached sector, the bitmap and the second copy
    of the table kept in step ([sane]). *)

From S2P Require Import Prelude Bytes Fat32.
Import Fat32.

(** ** More on bytes *)

Lemma load_bytes_app m a n k : 0 <= n -> 0 <= k -> load_bytes m a (n + k) = load_bytes m a n ++ load_bytes m (a + n) k.
Proof.
  intros Hn Hk. unfold load_bytes. rewrite seqZ_app, fmap_app by done. f_equal. rewrite Z.add_0_l.
  replace n with (n + 0) at 1 by lia. rewrite <- fmap_add_seqZ, <- list_fmap_compose. apply list_fmap_ext. intros i x _. cbn. f_equal. lia.
Qed.
Lemma load_bytes_drop_take m a n i k : 0 <= i -> 0 <= k -> i + k <= n ->
  take (Z.to_nat k) (drop (Z.to_nat i) (load_bytes m a n)) = load_bytes m (a + i) k.
Proof.
  intros Hi Hk Hn. replace n with (i + (k + (n - i - k))) by lia. rewrite !load_bytes_app by lia.
  rewrite drop_app_length' by (rewrite load_bytes_len; lia). rewrite take_app_length'; [done|]. by rewrite load_bytes_len.
Qed.
Lemma store_bytes_app a l1 l2 m : store_bytes a (l1 ++ l2) m = store_bytes (a + Z.of_nat (length l1)) l2 (store_bytes a l1 m).
Proof.
  revert a m. induction l1 as [|b l1 IH]; intros a m; cbn [app store_bytes length]; [by rewrite Z.add_0_r|].
  rewrite IH. f_equal. lia.
Qed.

Lemma patch_all new l : length new = length l -> patch 0 new l = new.
Proof. intros H. unfold patch. change (Z.to_nat 0) with 0%nat. rewrite take_0, drop_ge by lia. apply app_nil_r. Qed.
Lemma patch_nil off l : patch off [] l = l.
Proof. unfold patch. cbn [app length]. by rewrite Nat.add_0_r, take_drop. Qed.
Lemma patch_patch off x y l : 0 <= off -> off + Z.of_nat (length x) + Z.of_nat (length y) <= Z.of_nat (length l) ->
  patch (off + Z.of_nat (length x)) y (patch off x l) = patch off (x ++ y) l.
Proof.
  intros Ho Hl. unfold patch. set (p := take (Z.to_nat off) l).
  assert (Hp : length p = Z.to_nat off) by (unfold p; rewrite length_take; lia).
  rewrite !(app_assoc p x). rewrite take_app_length' by (rewrite length_app; lia).
  rewrite drop_app_ge by (rewrite length_app; lia). rewrite drop_drop, length_app, <- !app_assoc. do 3 f_equal.
  rewrite length_app. f_equal. lia.
Qed.

Lemma patch_app_l off x l l' : 0 <= off -> off + Z.of_nat (length x) <= Z.of_nat (length l) -> patch off x (l ++ l') = patch off x l ++ l'.
Proof. intros Ho Hl. unfold patch. rewrite take_app_le, drop_app_le by lia. by rewrite <- !app_assoc. Qed.

Module Fat32Spec.

(** Executes the first command of a sequence by its equation. *)
Ltac run E := unfold bind at 1; rewrite E; cbv beta iota.

(** ** The disk *)

Lemma fupd_disk (s : fat) : s <| disk := disk s |> = s.
Proof. by destruct s. Qed.

Lemma read_each_ok n lba i buf s : faults s = [] -> 0 <= i -> ATA_SECTOR_SIZE * (i + Z.of_nat n) <= Z.of_nat (length buf) ->
  read_each n lba i buf s
  = Done (patch (ATA_SECTOR_SIZE * i) (load_bytes (disk s) (ATA_SECTOR_SIZE * (lba + i)) (ATA_SECTOR_SIZE * Z.of_nat n)) buf, CHIMERA_SUCCESS) s.
Proof.
  intros Hf. unfold ATA_SECTOR_SIZE. revert i buf. induction n as [|n IH]; intros i buf Hi Hl; cbn [read_each].
  - change (512 * Z.of_nat 0) with 0. change (load_bytes _ _ 0) with (@nil Z). by rewrite patch_nil.
  - unfold bind, ata_read_sector, bind, fault. rewrite Hf. unfold get, ret, ATA_SECTOR_SIZE. rewrite (Z.mul_comm i).
    assert (Hlen : length (load_bytes (disk s) (512 * (lba + i)) 512) = 512%nat) by by rewrite load_bytes_len.
    change (succeeded CHIMERA_SUCCESS) with true. cbv beta iota. rewrite IH by (rewrite ?patch_length; rewrite ?Hlen; lia). do 2 f_equal.
    replace (512 * Z.of_nat (S n)) with (512 + 512 * Z.of_nat n) by lia. rewrite load_bytes_app by lia.
    rewrite <- patch_patch; rewrite ?Hlen, ?load_bytes_len by lia; [|lia|lia]. f_equal; [lia|]. f_equal. lia.
Qed.

Lemma write_each_ok n lba i buf s : faults s = [] -> 0 <= i -> ATA_SECTOR_SIZE * (i + Z.of_nat n) <= Z.of_nat (length buf) ->
  write_each n lba i buf s
  = Done CHIMERA_SUCCESS (s <| disk := store_bytes (ATA_SECTOR_SIZE * (lba + i)) (take (512 * n) (drop (Z.to_nat (ATA_SECTOR_SIZE * i)) buf)) (disk s) |>).
Proof.
  unfold ATA_SECTOR_SIZE. revert i s. induction n as [|n IH]; intros i s Hf Hi Hl; cbn [write_each].
  - change (512 * 0)%nat with 0%nat. rewrite take_0. cbn [store_bytes]. by rewrite fupd_disk.
  - unfold bind, ata_write_sector, bind, fault. rewrite Hf. unfold get, ret, modify, ATA_SECTOR_SIZE. rewrite (Z.mul_comm i).
    change (succeeded CHIMERA_SUCCESS) with true. cbv beta iota. rewrite IH by (cbn; lia || done). f_equal.
    set (b := drop (Z.to_nat (512 * i)) buf). unfold fupd. cbn -[take drop Nat.mul Z.mul]. f_equal.
    replace (512 * S n)%nat with (512 + 512 * n)%nat by lia. rewrite <- (take_take_drop b 512 (512 * n)), store_bytes_app.
    assert (length b >= 512)%nat by (unfold b; rewrite length_drop; lia). rewrite length_take, Nat.min_l by lia.
    unfold b at 2. rewrite drop_drop. f_equal; [lia|]. do 2 f_equal. lia.
Qed.
Lemma ata_read_ok lba count buf s : faults s = [] -> 0 <= count -> lba + count <= sector_count s ->
  512 * count <= Z.of_nat (length buf) ->
  get_sectors lba count buf s = Done (patch 0 (load_bytes (disk s) (512 * lba) (512 * count)) buf, true) s.
Proof.
  intros Hf Hc Hs Hl. unfold get_sectors, ata_read_sectors, bind, get. destruct (Z.ltb_spec (sector_count s) (lba + count)); [lia|].
  rewrite read_each_ok by (unfold ATA_SECTOR_SIZE; lia || done). unfold ATA_SECTOR_SIZE. by rewrite Z2Nat.id, Z.add_0_r by done.
Qed.
Lemma read_new_ok lba count s : faults s = [] -> 0 <= count -> lba + count <= sector_count s ->
  read_new lba count s = Done (Some (load_bytes (disk s) (512 * lba) (512 * count))) s.
Proof.
  intros Hf Hc Hs. unfold read_new, bind. rewrite ata_read_ok; [|done..|rewrite length_replicate; unfold ATA_SECTOR_SIZE; lia].
  unfold ret. rewrite patch_all; [done|]. rewrite length_replicate, load_bytes_len by lia. unfold ATA_SECTOR_SIZE. lia.
Qed.
Lemma ata_write_done lba count buf s : faults s = [] -> 0 <= count -> lba + count <= sector_count s ->
  512 * count <= Z.of_nat (length buf) ->
  ata_write_sectors lba count buf s
  = Done CHIMERA_SUCCESS (s <| disk := store_bytes (512 * lba) (take (Z.to_nat (512 * count)) buf) (disk s) |>).
Proof.
  intros Hf Hc Hs Hl. unfold ata_write_sectors, bind, get. destruct (Z.ltb_spec (sector_count s) (lba + count)); [lia|].
  rewrite write_each_ok by (unfold ATA_SECTOR_SIZE; lia || done). change (succeeded CHIMERA_SUCCESS) with true. unfold ata_flush_cache, bind, fault, ret.
  cbn -[take drop Nat.mul Z.mul]. rewrite Hf. cbn [default].
  unfold ATA_SECTOR_SIZE. replace (512 * Z.to_nat count)%nat with (Z.to_nat (512 * count)) by lia. by rewrite Z.add_0_r.
Qed.
Lemma ata_write_ok lba count buf s : faults s = [] -> 0 <= count -> lba + count <= sector_count s ->
  512 * count <= Z.of_nat (length buf) ->
  put_sectors lba count buf s = Done true (s <| disk := store_bytes (512 * lba) (take (Z.to_nat (512 * count)) buf) (disk s) |>).
Proof. intros Hf Hc Hs Hl. unfold put_sectors, bind. by rewrite ata_write_done. Qed.

Lemma put_done lba count buf s s' : put_sectors lba count buf s = Done true s' -> ata_write_sectors lba count buf s = Done CHIMERA_SUCCESS s'.
Proof.
  unfold put_sectors, bind. destruct (ata_write_sectors lba count buf s) as [e s1| | |]; try done. unfold ret, succeeded.
  case_bool_decide; [|done]. by intros [= <-]; subst.
Qed.

(** ** Volumes *)

Definition nclusters (g : fat32_fs) : Z := u32 (total_sectors g - data_start_lba g) / sectors_per_cluster g.
Definition valid (g : fat32_fs) (c : Z) : Prop := 2 <= c < nclusters g + 2.

(** A volume that lies on the disk, with a table for all its clusters in at
    least two copies, and clusters that fit into the buffers of the code. *)
Record geometry (g : fat32_fs) (sectors : Z) : Prop := {
  geo_mounted : mounted g = true;
  geo_spc : 1 <= sectors_per_cluster g <= 8;
  geo_reserved : 0 <= reserved_sectors g;
  geo_fats : 2 <= num_fats g;
  geo_per_fat : 0 <= sectors_per_fat g < 2 ^ 23;
  geo_start : data_start_lba g = reserved_sectors g + num_fats g * sectors_per_fat g;
  geo_size : cluster_size_bytes g = 512 * sectors_per_cluster g;
  geo_total : data_start_lba g <= total_sectors g <= sectors;
  geo_sectors : sectors < 2 ^ 32;
  geo_table : 4 * (nclusters g + 2) <= 512 * sectors_per_fat g;
  geo_few : nclusters g + 2 <= 0x0FFFFFF8
}.

(** The address of a cluster, and of an entry of the table. *)
Definition caddr (g : fat32_fs) (c : Z) : Z := 512 * (data_start_lba g + (c - 2) * sectors_per_cluster g).
Definition eaddr (g : fat32_fs) (c : Z) : Z := 512 * reserved_sectors g + 4 * c.

Definition word (s : fat) (c : Z) : Z := le_value (load_bytes (disk s) (eaddr (g_fat32 s) c) 4).
Definition entry (s : fat) (c : Z) : Z := Z.land (word s c) 0x0FFFFFFF.
Definition dbyte (s : fat) (c x : Z) : Z := load8 (disk s) (caddr (g_fat32 s) c + x).

(** The state of the driver fits the disk; the bit of [except], if any, may be
    wrong. *)
Record sane_but (except : option Z) (s : fat) : Prop := {
  sn_geo : geometry (g_fat32 s) (sector_count s);
  sn_faults : faults s = [];
  sn_buf : length (s_cached_fat_buf s) = 512%nat;
  sn_cache : forall k, s_cached_fat_sec s = Some k ->
    reserved_sectors (g_fat32 s) <= k < reserved_sectors (g_fat32 s) + sectors_per_fat (g_fat32 s)
    /\ s_cached_fat_buf s = load_bytes (disk s) (512 * k) 512;
  sn_mirror : forall x, 0 <= x < 512 * sectors_per_fat (g_fat32 s) ->
    load8 (disk s) (512 * (reserved_sectors (g_fat32 s) + sectors_per_fat (g_fat32 s)) + x)
    = load8 (disk s) (512 * reserved_sectors (g_fat32 s) + x);
  sn_bitmap : forall b, s_free_bitmap s = Some b -> s_bitmap_clusters s = nclusters (g_fat32 s)
    /\ forall c, valid (g_fat32 s) c -> except <> Some c -> (c - 2 ∈ b <-> entry s c = 0);
  sn_hint : 2 <= s_free_hint s <= nclusters (g_fat32 s) + 2
}.
Notation sane := (sane_but None).

Definition frame (s s' : fat) : Prop :=
  g_fat32 s' = g_fat32 s /\ sector_count s' = sector_count s /\ lock s' = lock s /\ s_fat_data s' = s_fat_data s.
#[global] Instance frame_preorder : PreOrder frame.
Proof. split; unfold frame; [done|]. intros x y z (? & ? & ? & ?) (? & ? & ? & ?). split_and!; congruence. Qed.

(** From [s] to [s'] the entries become [E] and the bytes of clusters [D]. *)
Record changes (s s' : fat) (E : Z -> Z) (D : Z -> Z -> Z) : Prop := {
  ch_sane : sane s';
  ch_frame : frame s s';
  ch_entry : forall c, valid (g_fat32 s) c -> entry s' c = E c;
  ch_data : forall c x, valid (g_fat32 s) c -> 0 <= x < cluster_size_bytes (g_fat32 s) -> dbyte s' c x = D c x
}.

Section Geometry.
Context (g : fat32_fs) (sectors : Z) (G : geometry g sectors).

Lemma nclusters_range : 0 <= nclusters g /\ data_start_lba g + nclusters g * sectors_per_cluster g <= total_sectors g.
Proof.
  destruct G. assert (0 <= data_start_lba g) by nia. unfold nclusters. rewrite u32_id by lia. split; [apply Z.div_pos; lia|].
  pose proof (Z.mul_div_le (total_sectors g - data_start_lba g) (sectors_per_cluster g)). lia.
Qed.
Lemma cluster_sectors c : valid g c -> 0 <= (c - 2) * sectors_per_cluster g /\ data_start_lba g + (c - 2) * sectors_per_cluster g + sectors_per_cluster g <= total_sectors g.
Proof. intros Hc. pose proof nclusters_range. unfold valid in Hc. destruct G. nia. Qed.
Lemma data_start_pos : 0 <= data_start_lba g /\ reserved_sectors g + 2 * sectors_per_fat g <= data_start_lba g.
Proof. destruct G. nia. Qed.
Lemma cluster_lba c : valid g c -> fat32_cluster_to_lba g c = data_start_lba g + (c - 2) * sectors_per_cluster g.
Proof.
  intros Hc. pose proof (cluster_sectors c Hc). pose proof data_start_pos. destruct G. unfold valid in Hc. unfold fat32_cluster_to_lba.
  rewrite (u32_id (c - 2)) by lia. rewrite (u32_id (_ * _)) by lia. rewrite u32_id; [done|lia].
Qed.
Lemma valid_cluster c : valid g c -> is_cluster c = true.
Proof. unfold valid, is_cluster. destruct G. lia. Qed.
Lemma cluster_disjoint c c' x x' : valid g c -> valid g c' -> c <> c' -> 0 <= x < cluster_size_bytes g -> 0 <= x' < cluster_size_bytes g ->
  caddr g c + x <> caddr g c' + x'.
Proof.
  intros Hc Hc' Hn Hx Hx'. destruct G. unfold caddr. assert (c - 2 < c' - 2 \/ c' - 2 < c - 2) as [?|?] by lia; nia.
Qed.
Lemma entry_addr c : valid g c -> 512 * reserved_sectors g <= eaddr g c /\ eaddr g c + 4 <= 512 * (reserved_sectors g + sectors_per_fat g).
Proof. unfold valid, eaddr. destruct G. lia. Qed.
End Geometry.
Lemma valid_frame s s' c : frame s s' -> valid (g_fat32 s') c <-> valid (g_fat32 s) c.
Proof. intros (-> & _). done. Qed.

Lemma changes_refl s : sane s -> changes s s (entry s) (dbyte s).
Proof. by split. Qed.
Lemma changes_trans s s1 s2 E1 D1 E2 D2 E D : changes s s1 E1 D1 -> changes s1 s2 E2 D2 ->
  (forall c, valid (g_fat32 s) c -> (forall c', valid (g_fat32 s) c' -> entry s1 c' = E1 c') -> E2 c = E c) ->
  (forall c x, valid (g_fat32 s) c -> 0 <= x < cluster_size_bytes (g_fat32 s) -> dbyte s1 c x = D1 c x -> D2 c x = D c x) ->
  changes s s2 E D.
Proof.
  intros [S1 F1 HE1 HD1] [S2 F2 HE2 HD2] HE HD. destruct F1 as (Eg & F1). split; [done|by etrans; [split; [exact Eg|]|]| |].
  - intros c Hc. rewrite HE2 by by rewrite Eg. auto.
  - intros c x Hc Hx. rewrite HD2 by (by rewrite Eg). auto.
Qed.

(** Writes behind the tables keep the driver's state right. *)
Lemma entry_same s m c : valid (g_fat32 s) c -> geometry (g_fat32 s) (sector_count s) ->
  (forall x, x < 512 * data_start_lba (g_fat32 s) -> load8 m x = load8 (disk s) x) -> entry (s <| disk := m |>) c = entry s c.
Proof.
  intros Hc G Hm. unfold entry, word. cbn. do 2 f_equal. apply load_bytes_ext. intros i Hi. apply Hm.
  pose proof (entry_addr _ _ G c Hc). pose proof (data_start_pos _ _ G). destruct G. lia.
Qed.
Lemma sane_disk s m : sane s -> (forall x, x < 512 * data_start_lba (g_fat32 s) -> load8 m x = load8 (disk s) x) -> sane (s <| disk := m |>).
Proof.
  intros S Hm. pose proof S as [G Hf Hb Hc Hmir Hbit Hh]. pose proof (data_start_pos _ _ G) as Hd. split; try done; cbn.
  - intros k [Hk ->]%Hc. split; [done|]. apply load_bytes_ext. intros i Hi. symmetry. apply Hm. lia.
  - intros x Hx. rewrite !Hm by lia. by apply Hmir.
  - intros b [Hn Hv]%Hbit. split; [done|]. intros c Hvc He. rewrite Hv by done. by rewrite (entry_same s m c).
Qed.

Lemma data_write s lba count buf : sane s -> data_start_lba (g_fat32 s) <= lba -> 0 <= count -> lba + count <= sector_count s ->
  512 * count <= Z.of_nat (length buf) -> Forall is_byte buf ->
  exists s', put_sectors lba count buf s = Done true s'
    /\ changes s s' (entry s) (fun c x => if decide (512 * lba <= caddr (g_fat32 s) c + x < 512 * (lba + count))
                                         then buf !!! Z.to_nat (caddr (g_fat32 s) c + x - 512 * lba) else dbyte s c x).
Proof.
  intros S Hl Hc Hs Hb HB. pose proof S as [G Hf _ _ _ _ _]. rewrite ata_write_ok by done. eexists. split; [done|].
  set (l := take (Z.to_nat (512 * count)) buf).
  assert (Hll : Z.of_nat (length l) = 512 * count) by (unfold l; rewrite length_take; lia).
  assert (HlB : Forall is_byte l) by by apply Forall_take.
  assert (Hlow : forall x, x < 512 * data_start_lba (g_fat32 s) -> load8 (store_bytes (512 * lba) l (disk s)) x = load8 (disk s) x).
  { intros x Hx. apply load8_unstored; [done|lia]. }
  split; [by apply sane_disk|done|intros c Hvc; by apply entry_same|].
  intros c x Hvc Hx. unfold dbyte. cbn -[Z.mul]. rewrite load8_store_bytes by done. rewrite Hll.
  case_decide as D1; case_decide as D2; try lia. unfold l. rewrite !list_lookup_total_alt, lookup_take_lt by lia. done.
Qed.

(** ** Entries of the table *)

Lemma get_u32_load m a off n : 0 <= off -> off + 4 <= n -> get_u32 off (load_bytes m a n) = le_value (load_bytes m (a + off) 4).
Proof. intros H1 H2. unfold get_u32. change 4%nat with (Z.to_nat 4). by rewrite load_bytes_drop_take by lia. Qed.

Lemma entry_sector g sectors c : geometry g sectors -> valid g c ->
  u32 (c * 4) = 4 * c /\ 0 <= 4 * c / 512 < sectors_per_fat g /\ 0 <= (4 * c) mod 512 <= 508
  /\ 512 * (4 * c / 512) + (4 * c) mod 512 = 4 * c.
Proof.
  intros G Hc. destruct G. unfold valid in Hc. rewrite u32_id by lia. pose proof (Z.div_mod (4 * c) 512 ltac:(done)).
  pose proof (Z.mod_pos_bound (4 * c) 512 ltac:(done)).
  assert ((4 * c) mod 512 mod 4 = 0) by (rewrite Z.mod_mod_divide by (by exists 128); by rewrite Z.mul_comm, Z_mod_mult).
  pose proof (Z.div_mod ((4 * c) mod 512) 4 ltac:(done)). lia.
Qed.

Lemma get_next_ok s c : sane s -> valid (g_fat32 s) c ->
  exists s', fat32_get_next_cluster_unlocked c s = Done (entry s c) s' /\ changes s s' (entry s) (dbyte s).
Proof.
  intros S Hc. pose proof S as [G Hf Hb Hca Hmir Hbit Hh]. pose proof (data_start_pos _ _ G).
  destruct (entry_sector _ _ c G Hc) as (E1 & E2 & E3 & E4). pose proof G as G'. destruct G'.
  unfold fat32_get_next_cluster_unlocked. rewrite (valid_cluster _ _ G c Hc). cbn [negb]. unfold bind, geo, get, ATA_SECTOR_SIZE. rewrite E1.
  set (k := reserved_sectors (g_fat32 s) + 4 * c / 512). rewrite (u32_id k) by (unfold k; lia).
  assert (He : Z.land (get_u32 ((4 * c) mod 512) (load_bytes (disk s) (512 * k) 512)) 268435455 = entry s c).
  { rewrite get_u32_load by lia. unfold entry, word, eaddr. do 3 f_equal. unfold k. lia. }
  case_bool_decide as D.
  - destruct (Hca _ D) as [_ Ebuf]. exists s. unfold ret. rewrite Ebuf, He. split; [done|]. by apply changes_refl.
  - rewrite ata_read_ok by (try done; unfold k; lia). unfold modify, ret. cbn -[Z.mul Z.land patch].
    rewrite patch_all by (rewrite load_bytes_len; lia). change (512 * 1) with 512. rewrite He. eexists. split; [done|].
    split; [|done|done|done]. split; try done; cbn -[Z.mul load_bytes].
    intros k' [= <-]. split; [unfold k; lia|done].
Qed.
Definition put (c v : Z) (E : Z -> Z) (c' : Z) : Z := if decide (c' = c) then v else E c'.
Lemma put_eq c v E : put c v E c = v.
Proof. unfold put. by rewrite decide_True. Qed.
Lemma put_ne c v E c' : c' <> c -> put c v E c' = E c'.
Proof. intros H. unfold put. by rewrite decide_False. Qed.

(** The word stored for an entry keeps its upper four bits. *)
Definition new_word (v orig : Z) : Z := Z.lor (Z.land v 0x0FFFFFFF) (Z.land orig 0xF0000000).
Lemma new_word_range v orig : 0 <= new_word v orig < 2 ^ 32.
Proof.
  assert (E : new_word v orig = Z.land (new_word v orig) (Z.ones 32)).
  { unfold new_word. rewrite Z.land_lor_distr_l, <- !Z.land_assoc. done. }
  rewrite E, Z.land_ones by done. by apply Z.mod_pos_bound.
Qed.
Lemma new_word_entry v orig : Z.land (new_word v orig) 0x0FFFFFFF = Z.land v 0x0FFFFFFF.
Proof. unfold new_word. rewrite Z.land_lor_distr_l, <- !Z.land_assoc. cbn. by rewrite Z.land_0_r, Z.lor_0_r. Qed.

Section SetEntry.
Context (s : fat) (c v : Z) (o : option Z) (S : sane_but o s) (Hc : valid (g_fat32 s) c) (Ho : o = None \/ o = Some c).
Let g := g_fat32 s.
Let idx := 4 * c / 512.
Let off := (4 * c) mod 512.
Let w := new_word v (word s c).
Let sec := patch off (le_bytes 4 w) (load_bytes (disk s) (512 * (reserved_sectors g + idx)) 512).
Let m1 := store_bytes (512 * (reserved_sectors g + idx)) sec (disk s).
Let m2 := store_bytes (512 * (reserved_sectors g + sectors_per_fat g + idx)) sec m1.

Lemma sec_length : length sec = 512%nat.
Proof.
  destruct (entry_sector _ _ c (sn_geo _ _ S) Hc) as (_ & _ & E3 & _). unfold sec.
  rewrite patch_length; rewrite ?le_bytes_length, ?load_bytes_len; unfold off; lia.
Qed.
Lemma sec_bytes : Forall is_byte sec.
Proof. apply patch_bytes; [apply le_bytes_bytes|apply load_bytes_bytes]. Qed.

(** A byte of the first table after the update. *)
Definition table_byte (y : Z) : Z :=
  if decide (eaddr g c <= y < eaddr g c + 4) then le_bytes 4 w !!! Z.to_nat (y - eaddr g c) else load8 (disk s) y.

Lemma sec_lookup y : 512 * (reserved_sectors g + idx) <= y < 512 * (reserved_sectors g + idx) + 512 ->
  sec !! Z.to_nat (y - 512 * (reserved_sectors g + idx)) = Some (table_byte y).
Proof.
  intros Hy. destruct (entry_sector _ _ c (sn_geo _ _ S) Hc) as (_ & _ & E3 & E4). fold idx off in E3, E4.
  unfold sec, table_byte, eaddr. rewrite patch_lookup by (rewrite ?le_bytes_length, ?load_bytes_len; lia). rewrite le_bytes_length.
  case_decide as D1; case_decide as D2; try lia.
  - replace (y - 512 * (reserved_sectors g + idx) - off) with (y - (512 * reserved_sectors g + 4 * c)) by lia.
    apply list_lookup_lookup_total_lt. rewrite le_bytes_length. lia.
  - rewrite load_bytes_at by lia. do 2 f_equal. lia.
Qed.

Lemma table_update y : 512 * reserved_sectors g <= y < 512 * (reserved_sectors g + sectors_per_fat g) ->
  load8 m2 y = table_byte y /\ load8 m2 (y + 512 * sectors_per_fat g) = table_byte y.
Proof.
  intros Hy. pose proof (sn_geo _ _ S) as G. destruct (entry_sector _ _ c G Hc) as (_ & E2 & E3 & E4). fold idx off in E2, E3, E4. fold g in E2.
  pose proof sec_length as HL. pose proof sec_bytes as HB.
  assert (Hout : ~ (512 * (reserved_sectors g + idx) <= y < 512 * (reserved_sectors g + idx) + 512) -> table_byte y = load8 (disk s) y).
  { intros Hn. unfold table_byte. rewrite decide_False; [done|]. unfold eaddr. lia. }
  unfold m2, m1. destruct (decide (512 * (reserved_sectors g + idx) <= y < 512 * (reserved_sectors g + idx) + 512)) as [D|D]; split.
  - rewrite load8_unstored by (done || lia). apply load8_stored; [done|lia|by apply sec_lookup].
  - apply load8_stored; [done|lia|].
    replace (y + 512 * sectors_per_fat g - 512 * (reserved_sectors g + sectors_per_fat g + idx))
      with (y - 512 * (reserved_sectors g + idx)) by lia. by apply sec_lookup.
  - rewrite !load8_unstored by (done || lia). by rewrite Hout.
  - rewrite !load8_unstored by (done || lia). rewrite Hout by done.
    pose proof (sn_mirror _ _ S (y - 512 * reserved_sectors g)) as Hm. fold g in Hm.
    replace (y + 512 * sectors_per_fat g) with (512 * (reserved_sectors g + sectors_per_fat g) + (y - 512 * reserved_sectors g)) by lia.
    rewrite Hm by lia. f_equal. lia.
Qed.
Lemma table_above y : 512 * data_start_lba g <= y -> load8 m2 y = load8 (disk s) y.
Proof.
  intros Hy. pose proof (sn_geo _ _ S) as G. destruct (entry_sector _ _ c G Hc) as (_ & E2 & _). pose proof (data_start_pos _ _ G) as Hd.
  fold g in Hd, E2. fold idx in E2. pose proof sec_length. pose proof sec_bytes. unfold m2, m1. rewrite !load8_unstored by (done || lia). done.
Qed.

Lemma table_word c' : valid g c' -> le_value (load_bytes m2 (eaddr g c') 4) = if decide (c' = c) then w else word s c'.
Proof.
  intros Hc'. pose proof (sn_geo _ _ S) as G. pose proof (entry_addr _ _ G c' Hc') as Ha. fold g in Ha. case_decide as D.
  - subst c'. rewrite <- (le4_value w) by apply new_word_range. f_equal. apply list_eq_same_length with 4%nat.
    { by rewrite le_bytes_length. } { by rewrite load_bytes_len. }
    intros i x y Hi Hx Hy. rewrite <- (Nat2Z.id i), load_bytes_at in Hx by lia. rewrite (proj1 (table_update (eaddr g c + Z.of_nat i) ltac:(lia))) in Hx.
    unfold table_byte in Hx. rewrite decide_True in Hx by lia.
    replace (eaddr g c + Z.of_nat i - eaddr g c) with (Z.of_nat i) in Hx by lia. rewrite Nat2Z.id in Hx.
    apply list_lookup_total_correct in Hy. congruence.
  - unfold word. f_equal. apply load_bytes_ext. intros i Hi. rewrite (proj1 (table_update (eaddr g c' + i) ltac:(lia))). unfold table_byte.
    rewrite decide_False; [done|]. unfold eaddr. lia.
Qed.
Lemma sync_fields : let s1 := bitmap_sync c v s in
  frame s s1 /\ disk s1 = disk s /\ faults s1 = faults s /\ s_cached_fat_buf s1 = s_cached_fat_buf s /\ s_bitmap_clusters s1 = s_bitmap_clusters s
  /\ 2 <= s_free_hint s1 <= nclusters g + 2.
Proof.
  pose proof (sn_hint _ _ S) as Hh. fold g in Hh. pose proof Hc as Hc'. fold g in Hc'. unfold valid in Hc'. cbv zeta. unfold bitmap_sync.
  repeat case_match; split_and!; cbn; try done; try lia. all: case_match; lia.
Qed.
Lemma sync_bits b : s_free_bitmap (bitmap_sync c v s) = Some b ->
  s_bitmap_clusters s = nclusters g
  /\ forall c', valid g c' -> (c' - 2 ∈ b <-> if decide (c' = c) then Z.land v 0x0FFFFFFF = 0 else entry s c' = 0).
Proof.
  pose proof (sn_geo _ _ S) as G. pose proof (nclusters_range _ _ G) as Hn. fold g in Hn.
  pose proof Hc as Hc'. fold g in Hc'. unfold valid in Hc'. pose proof (geo_few _ _ G) as Hfew. fold g in Hfew.
  unfold bitmap_sync. destruct (s_free_bitmap s) as [b0|] eqn:Eb; [|congruence].
  destruct (sn_bitmap _ _ S b0 Eb) as [En Hb]. fold g in En, Hb. rewrite En.
  assert (Hoth : forall c', valid g c' -> c' <> c -> c' - 2 ∈ b0 <-> entry s c' = 0).
  { intros c' Hv Hd. apply Hb; [done|]. destruct Ho; congruence. }
  rewrite (u32_id (c - 2)) by lia. destruct (Z.ltb_spec (c - 2) (nclusters g)); [|lia].
  unfold fat_bitmap_test_free, fat_bitmap_mark_free, fat_bitmap_mark_used. rewrite (u32_id (c - 2)) by lia.
  intros Hs. split; [done|]. intros c' Hv. specialize (Hoth c' Hv).
  destruct (Z.eqb_spec (Z.land v 268435455) 0) as [Ez|Ez]; case_bool_decide as Ein; cbn in Hs;
    try (rewrite Eb in Hs; cbn in Hs); injection Hs as <-; case_decide as D; subst; try specialize (Hoth D);
    rewrite ?elem_of_union, ?elem_of_difference, ?elem_of_singleton; intuition lia.
Qed.

Lemma set_entry_ok : exists s', fat32_set_fat_entry c v s = Done CHIMERA_SUCCESS s'
  /\ changes s s' (put c (Z.land v 0x0FFFFFFF) (entry s)) (dbyte s).
Proof.
  pose proof (sn_geo _ _ S) as G. pose proof (data_start_pos _ _ G) as Hd. destruct (entry_sector _ _ c G Hc) as (E1 & E2 & E3 & E4).
  pose proof sync_fields as ((Fg & Fs & Fl & Fn) & Fd & Ff & Fb & Fc & Fh). pose proof sync_bits as HB.
  pose proof G as [? ? ? ? ? ? ? ? ? ? ?]. fold idx off in E2, E3, E4.
  repeat match goal with H : context [g_fat32 s] |- _ => progress fold g in H end.
  unfold fat32_set_fat_entry. rewrite (valid_cluster _ _ G c Hc). cbn [negb]. unfold bind at 1, modify.
  unfold ATA_SECTOR_SIZE. rewrite E1. fold idx off. unfold bind at 1. set (s1 := (bitmap_sync c v s) <| s_cached_fat_sec := None |>).
  change (g_fat32 (bitmap_sync c v s)) with (g_fat32 s1) in Fg. change (disk (bitmap_sync c v s)) with (disk s1) in Fd.
  unfold bind at 1, geo. unfold bind at 1. rewrite Fg.
  rewrite (u32_id (reserved_sectors g + sectors_per_fat g)), (u32_id (reserved_sectors g + idx)), u32_id by lia.
  unfold bind at 1. rewrite read_new_ok by (cbn; rewrite ?Ff, ?Fs; try apply (sn_faults _ _ S); lia). rewrite Fd.
  change (512 * 1) with 512.
  assert (Eo : get_u32 off (load_bytes (disk s) (512 * (reserved_sectors g + idx)) 512) = word s c).
  { rewrite get_u32_load by lia. unfold word, eaddr. fold g. do 2 f_equal. lia. }
  rewrite Eo. fold (new_word v (word s c)). fold w sec. pose proof sec_length as HL.
  unfold bind at 1. rewrite ata_write_ok; [|cbn; rewrite Ff; apply (sn_faults _ _ S)|done|cbn; rewrite Fs; lia|rewrite HL; lia]. cbn [negb].
  change (Z.to_nat (512 * 1)) with 512%nat. rewrite firstn_all2 by lia. rewrite Fd. fold m1.
  unfold bind at 1. rewrite ata_write_ok; [|cbn; rewrite Ff; apply (sn_faults _ _ S)|done|cbn; rewrite Fs; lia|rewrite HL; lia].
  change (Z.to_nat (512 * 1)) with 512%nat. rewrite firstn_all2 by lia. change (disk (s1 <| disk := m1 |>)) with m1. fold m2.
  unfold ret. eexists. split; [done|].
  assert (HE : forall c', valid g c' -> Z.land (le_value (load_bytes m2 (eaddr g c') 4)) 268435455
                                      = put c (Z.land v 268435455) (entry s) c').
  { intros c' Hv. rewrite table_word by done. case_decide as D; [subst; rewrite put_eq; apply new_word_entry|].
    by rewrite put_ne. }
  split.
  - split; cbn; change (g_fat32 (bitmap_sync c v s)) with (g_fat32 s1); rewrite ?Fg, ?Fs, ?Ff, ?Fb, ?Fc; try done.
    + apply (sn_faults _ _ S).
    + apply (sn_buf _ _ S).
    + intros x Hx. destruct (table_update (512 * reserved_sectors g + x) ltac:(lia)) as [-> Ht]. rewrite <- Ht. f_equal. lia.
    + intros b [Hn Hb]%HB. split; [done|]. intros c' Hv _. rewrite Hb by done. unfold entry at 2, word. cbn.
      change (g_fat32 (bitmap_sync c v s)) with (g_fat32 s1). rewrite Fg, HE by done.
      case_decide as D; [subst; by rewrite put_eq|by rewrite put_ne].
  - done.
  - intros c' Hv. unfold entry at 1, word. cbn. change (g_fat32 (bitmap_sync c v s)) with (g_fat32 s1). rewrite Fg. by apply HE.
  - intros c' x Hv Hx. unfold dbyte. cbn. change (g_fat32 (bitmap_sync c v s)) with (g_fat32 s1). rewrite Fg. apply table_above.
    pose proof (cluster_sectors _ _ G c' Hv) as Hcs. fold g in Hcs. unfold caddr. fold g. fold g in Hx. lia.
Qed.
End SetEntry.
(** ** Allocation *)

Lemma bitmap_scan_ok b n hint : 2 <= hint <= n + 2 ->
  match bitmap_scan b n hint with Some i => 0 <= i < n /\ i ∈ b | None => forall i, 0 <= i < n -> i ∉ b end.
Proof.
  intros Hh. unfold bitmap_scan. destruct (Z.leb_spec 2 hint); [|lia]. destruct (list_find _ _) as [[k i]|] eqn:E; cbn.
  - apply list_find_Some in E as (Hk & Hi & _). apply list_elem_of_lookup_2 in Hk. rewrite elem_of_app, !elem_of_seqZ in Hk. split; [lia|done].
  - apply list_find_None in E. rewrite Forall_forall in E. intros i Hi. apply E. rewrite elem_of_app, !elem_of_seqZ. lia.
Qed.

Lemma sector_scan_ok s sec : sane s -> 0 <= sec < sectors_per_fat (g_fat32 s) ->
  match sector_scan sec (nclusters (g_fat32 s)) (load_bytes (disk s) (512 * (reserved_sectors (g_fat32 s) + sec)) 512) with
  | Some c => valid (g_fat32 s) c /\ entry s c = 0
  | None => forall c, valid (g_fat32 s) c -> 128 * sec <= c < 128 * sec + 128 -> entry s c <> 0
  end.
Proof.
  intros S Hs. pose proof (sn_geo _ _ S) as G. pose proof (nclusters_range _ _ G) as [Hn _]. destruct G.
  assert (Hc : forall k, 0 <= k < 128 -> sector_cluster sec k = 128 * sec + k).
  { intros k Hk. unfold sector_cluster, ATA_SECTOR_SIZE. rewrite (u32_id (sec * 512)) by lia. rewrite u32_id by lia.
    replace (sec * 512 + 4 * k) with ((128 * sec + k) * 4) by lia. by apply Z.div_mul. }
  assert (He : forall k, 0 <= k < 128 ->
    Z.land (get_u32 (4 * k) (load_bytes (disk s) (512 * (reserved_sectors (g_fat32 s) + sec)) 512)) 268435455 = entry s (128 * sec + k)).
  { intros k Hk. rewrite get_u32_load by lia. unfold entry, word, eaddr. do 3 f_equal. lia. }
  unfold sector_scan. destruct (list_find _ _) as [[j k]|] eqn:E; cbn.
  - apply list_find_Some in E as (Hk & (H1 & H2 & H3) & _). apply list_elem_of_lookup_2, elem_of_seqZ in Hk.
    rewrite Hc in * by lia. rewrite He in H3 by lia. rewrite u32_id in H2 by lia. unfold valid. split; [lia|done].
  - apply list_find_None in E. rewrite Forall_forall in E. intros c Hv Hr. specialize (E (c - 128 * sec)). rewrite elem_of_seqZ in E.
    rewrite Hc, He, u32_id in E by lia. replace (128 * sec + (c - 128 * sec)) with c in E by lia. unfold valid in Hv. intros Hz. apply E; [lia|].
    split_and!; [lia|lia|done].
Qed.

Lemma fat_scan_ok n sec s : sane s -> 0 <= sec -> sec + Z.of_nat n = sectors_per_fat (g_fat32 s) ->
  exists c, fat_scan n sec (nclusters (g_fat32 s)) s = Done c s
    /\ ((valid (g_fat32 s) c /\ entry s c = 0) \/ (c = 0 /\ forall c', valid (g_fat32 s) c' -> 128 * sec <= c' -> entry s c' <> 0)).
Proof.
  intros S. pose proof (sn_geo _ _ S) as G. pose proof (data_start_pos _ _ G). revert sec. induction n as [|n IH]; intros sec H0 Hn; cbn [fat_scan].
  - exists 0. split; [done|]. right. split; [done|]. intros c' Hv Hc'. unfold valid in Hv. destruct G. lia.
  - unfold bind, geo. pose proof (sector_scan_ok s sec S ltac:(lia)) as Hscan. destruct G.
    rewrite u32_id by lia. rewrite read_new_ok; [|apply (sn_faults _ _ S)|lia|lia]. change (512 * 1) with 512.
    destruct (sector_scan _ _ _) as [c|]; [exists c; by split; [|left]|].
    destruct (IH (sec + 1) ltac:(lia) ltac:(lia)) as (c & -> & Hc). exists c. split; [done|].
    destruct Hc as [Hc|[-> Hc]]; [by left|right]. split; [done|]. intros c' Hv Hc'. destruct (decide (c' < 128 * sec + 128)).
    + apply Hscan; [done|lia].
    + apply Hc; [done|lia].
Qed.

Lemma zero_sectors_ok n lba s : sane s -> data_start_lba (g_fat32 s) <= lba -> lba + Z.of_nat n <= sector_count s ->
  exists s', zero_sectors n lba s = Done tt s'
    /\ changes s s' (entry s) (fun c x => if decide (512 * lba <= caddr (g_fat32 s) c + x < 512 * (lba + Z.of_nat n)) then 0 else dbyte s c x).
Proof.
  revert lba s. induction n as [|n IH]; intros lba s S Hl Hs; cbn [zero_sectors].
  - exists s. split; [done|]. split; try done. intros c x _ _. rewrite decide_False; [done|]. lia.
  - pose proof (sn_geo _ _ S) as G. pose proof (data_start_pos _ _ G).
    destruct (data_write s lba 1 (replicate 512 0) S) as (s1 & E1 & C1);
      [lia|lia|lia|by rewrite length_replicate|by apply Forall_replicate|].
    unfold bind. rewrite E1. pose proof (geo_sectors _ _ G). pose proof (ch_frame _ _ _ _ C1) as (Eg & Es & _).
    destruct (IH (u32 (lba + 1)) s1) as (s2 & E2 & C2); [apply C1|rewrite Eg, u32_id by lia; lia|rewrite Es, u32_id by lia; lia|].
    exists s2. split; [done|]. eapply changes_trans; [exact C1|exact C2| |].
    + intros c Hc HE. by apply HE.
    + intros c x Hc Hx HD. cbn beta. rewrite HD, Eg, u32_id by lia. repeat case_decide; try lia.
      apply lookup_total_replicate_2. lia.
Qed.

(** The choice of a free cluster by [fat32_alloc_cluster]. *)
Lemma pick_ok s : sane s ->
  exists c s1, match s_free_bitmap s with
               | Some b => match bitmap_scan b (s_bitmap_clusters s) (s_free_hint s) with
                           | Some i => modify (fat_bitmap_mark_used (u32 (i + 2)));;; ret (u32 (i + 2))
                           | None => ret 0
                           end
               | None => fat_scan (Z.to_nat (sectors_per_fat (g_fat32 s))) 0 (nclusters (g_fat32 s))
               end s = Done c s1
    /\ ((valid (g_fat32 s) c /\ entry s c = 0 /\ sane_but (Some c) s1 /\ frame s s1 /\ disk s1 = disk s)
        \/ (c = 0 /\ s1 = s /\ forall c', valid (g_fat32 s) c' -> entry s c' <> 0)).
Proof.
  intros S. pose proof (sn_geo _ _ S) as G. pose proof (nclusters_range _ _ G) as [Hn _]. pose proof (sn_hint _ _ S) as Hh.
  pose proof (geo_few _ _ G) as Hfew. destruct (s_free_bitmap s) as [b|] eqn:Eb.
  - destruct (sn_bitmap _ _ S b Eb) as [En Hb]. rewrite En. pose proof (bitmap_scan_ok b _ _ Hh) as Hscan.
    destruct (bitmap_scan _ _ _) as [i|].
    + destruct Hscan as [Hi Hin]. unfold bind, modify, ret. rewrite (u32_id (i + 2)) by lia. eexists _, _. split; [done|]. left.
      assert (Hv : valid (g_fat32 s) (i + 2)) by (unfold valid; lia). split; [done|].
      split; [apply Hb; [done|done|]; by replace (i + 2 - 2) with i by lia|]. split; [|done].
      destruct S. split; try done. cbn. intros b'. rewrite Eb. cbn. intros [= <-]. split; [done|]. intros c Hc Hne.
      rewrite u32_id by lia. rewrite elem_of_difference, elem_of_singleton. unfold entry, word. cbn. rewrite Hb by done.
      unfold entry, word. split; [by intros [? _]|]. intros Hz. split; [done|]. intros ?. apply Hne. f_equal. lia.
    + eexists _, _. split; [done|]. right. split_and!; [done|done|]. intros c' Hv. rewrite <- Hb by done. apply Hscan. unfold valid in Hv. lia.
  - destruct (fat_scan_ok (Z.to_nat (sectors_per_fat (g_fat32 s))) 0 s S) as (c & -> & Hc); [done|destruct G; lia|].
    eexists _, _. split; [done|]. destruct Hc as [[Hv He]|[-> Hc]]; [left|right].
    + split_and!; try done. destruct S. split; try done. congruence.
    + split_and!; [done|done|]. intros c' Hv. apply Hc; [done|]. unfold valid in Hv. lia.
Qed.

Lemma hint_sane s h : sane s -> 2 <= h <= nclusters (g_fat32 s) + 2 -> sane (s <| s_free_hint := h |>).
Proof. intros [] Hh. by split. Qed.

Lemma alloc_ok s : sane s ->
  (exists s', fat32_alloc_cluster s = Done 0 s' /\ changes s s' (entry s) (dbyte s) /\ forall c, valid (g_fat32 s) c -> entry s c <> 0)
  \/ exists c s', fat32_alloc_cluster s = Done c s' /\ valid (g_fat32 s) c /\ entry s c = 0
     /\ changes s s' (put c EOC (entry s)) (fun c' x => if decide (c' = c) then 0 else dbyte s c' x).
Proof.
  intros S. pose proof (sn_geo _ _ S) as G. destruct (pick_ok s S) as (c & s1 & Ep & Hp).
  assert (Ea : fat32_alloc_cluster s = bind (fun _ => Done c s1) (fun cluster =>
    if cluster =? 0 then ret 0 else
    fat32_set_fat_entry cluster EOC;;;
    zero_sectors (Z.to_nat (sectors_per_cluster (g_fat32 s))) (fat32_cluster_to_lba (g_fat32 s) cluster);;;
    modify (fun s => s <| s_free_hint ::= fun h => if h <? u32 (cluster + 1) then u32 (cluster + 1) else h |>);;;
    ret cluster) s).
  { unfold fat32_alloc_cluster. unfold bind at 1, get. fold (nclusters (g_fat32 s)). by run Ep. }
  rewrite Ea. clear Ea Ep.
  destruct Hp as [(Hv & He & S1 & F1 & Ed)|(-> & -> & Hfull)]; [right|left; exists s; split; [done|]; by split; [apply changes_refl|]].
  unfold bind at 1. cbv beta iota.
  pose proof Hv as Hv0. unfold valid in Hv0. destruct (Z.eqb_spec c 0); [lia|]. pose proof F1 as (Eg & Es & _).
  destruct (set_entry_ok s1 c EOC (Some c) S1) as (s2 & E2 & C2); [by rewrite Eg|by right|].
  run E2. pose proof (ch_frame _ _ _ _ C2) as F2. pose proof F2 as (Eg2 & Es2 & _).
  pose proof (cluster_sectors _ _ G c Hv) as Hcs. pose proof (geo_spc _ _ G) as Hspc. pose proof (geo_total _ _ G) as Htot.
  pose proof (geo_few _ _ G) as Hfew. pose proof (geo_size _ _ G) as Hsz.
  destruct (zero_sectors_ok (Z.to_nat (sectors_per_cluster (g_fat32 s))) (fat32_cluster_to_lba (g_fat32 s) c) s2) as (s3 & E3 & C3);
    [apply C2|rewrite Eg2, Eg, (cluster_lba _ _ G c Hv); lia|rewrite Es2, Es, (cluster_lba _ _ G c Hv); lia|].
  run E3. unfold bind at 1, modify, ret. eexists c, _. split; [done|]. split; [done|]. split; [done|].
  pose proof (ch_frame _ _ _ _ C3) as F3. pose proof (transitivity F1 (transitivity F2 F3)) as F. pose proof F as (Eg3 & _).
  split.
  - apply hint_sane; [apply C3|]. pose proof (sn_hint _ _ (ch_sane _ _ _ _ C3)) as Hh. rewrite Eg3 in *. rewrite u32_id by lia. case_match; lia.
  - done.
  - intros c' Hc'. change (entry _ c') with (entry s3 c'). rewrite (ch_entry _ _ _ _ C3), (ch_entry _ _ _ _ C2) by by rewrite ?Eg2, Eg.
    unfold put. case_decide; [done|]. unfold entry, word. by rewrite Ed, Eg.
  - intros c' x Hc' Hx. transitivity (dbyte s3 c' x); [done|]. rewrite (ch_data _ _ _ _ C3) by by rewrite ?Eg2, Eg.
    rewrite Eg2, Eg, (cluster_lba _ _ G c Hv). unfold caddr. rewrite Z2Nat.id by lia. case_decide as D1; case_decide as D2; [done| | |].
    + exfalso. pose proof (cluster_disjoint _ _ G c c' (caddr (g_fat32 s) c' + x - caddr (g_fat32 s) c) x Hv Hc') as Hd. unfold caddr in Hd. lia.
    + subst. lia.
    + rewrite (ch_data _ _ _ _ C2) by by rewrite Eg. unfold dbyte. by rewrite Ed, Eg.
Qed.
End Fat32Spec.
