(* ===== verification/Fat32Chain.v ===== *)
(** * The FAT32 file system: the clusters of a file

    [file s l] says that the clusters [l] form a chain of the table; [fdata]
    are the bytes they hold.  [grown] describes an operation on one chain that
    may add free clusters at its end and leaves all other clusters alone.
    Reading, writing and resizing are shown to act on [fdata] as on a list of
    bytes. *)

From S2P Require Import Prelude Bytes Fat32 Fat32Spec.
Import Fat32 Fat32Spec.

Module Fat32Chain.

Definition nxt (s : fat) (c : Z) : option Z := if is_cluster (entry s c) then Some (entry s c) else None.
Record file (s : fat) (l : list Z) : Prop := {
  fl_valid : forall c, c ∈ l -> valid (g_fat32 s) c;
  fl_chain : chain (nxt s) (head l) l;
  fl_used : forall c, c ∈ l -> entry s c <> 0
}.

Notation csize s := (cluster_size_bytes (g_fat32 s)).
Definition cbytes (s : fat) (c : Z) : list Z := load_bytes (disk s) (caddr (g_fat32 s) c) (csize s).
Definition fdata (s : fat) (l : list Z) : list Z := concat (cbytes s <$> l).
Definition full (s : fat) : Prop := forall c, valid (g_fat32 s) c -> entry s c <> 0.

(** A list of bytes brought to the length [n] with zeros. *)
Definition pad (n : Z) (l : list Z) : list Z := l ++ replicate (Z.to_nat n - length l) 0.

Lemma pad_length n l : Z.of_nat (length l) <= n -> length (pad n l) = Z.to_nat n.
Proof. intros H. unfold pad. rewrite length_app, length_replicate. lia. Qed.
Lemma pad_id l : pad (Z.of_nat (length l)) l = l.
Proof. unfold pad. rewrite Nat2Z.id, Nat.sub_diag. apply app_nil_r. Qed.
Lemma pad_pad n n' l : Z.of_nat (length l) <= n -> n <= n' -> pad n' (pad n l) = pad n' l.
Proof. intros H1 H2. unfold pad at 1. rewrite pad_length by done. unfold pad. rewrite <- app_assoc, <- replicate_add. do 2 f_equal. lia. Qed.
Lemma pad_patch n off x l : 0 <= off -> off + Z.of_nat (length x) <= Z.of_nat (length l) -> pad n (patch off x l) = patch off x (pad n l).
Proof. intros Ho Hl. unfold pad. by rewrite patch_length, patch_app_l by done. Qed.

Lemma cbytes_length s c : 0 <= csize s -> length (cbytes s c) = Z.to_nat (csize s).
Proof. apply load_bytes_len. Qed.
Lemma cbytes_lookup s c x : 0 <= x < csize s -> cbytes s c !! Z.to_nat x = Some (dbyte s c x).
Proof. intros Hx. unfold cbytes. by rewrite load_bytes_at. Qed.
Lemma cbytes_bytes s c : Forall is_byte (cbytes s c).
Proof. apply load_bytes_bytes. Qed.
Lemma cbytes_ext s s' c : g_fat32 s' = g_fat32 s -> (forall x, 0 <= x < csize s -> dbyte s' c x = dbyte s c x) -> cbytes s' c = cbytes s c.
Proof. intros Eg Hx. unfold cbytes. rewrite Eg. apply load_bytes_ext. intros i Hi. specialize (Hx i Hi). unfold dbyte in Hx. by rewrite Eg in Hx. Qed.

Lemma fdata_app s l1 l2 : fdata s (l1 ++ l2) = fdata s l1 ++ fdata s l2.
Proof. unfold fdata. by rewrite fmap_app, concat_app. Qed.
Lemma fdata_length s l : 0 <= csize s -> Z.of_nat (length (fdata s l)) = csize s * Z.of_nat (length l).
Proof.
  intros Hc. induction l as [|c l IH]; [cbn; lia|]. change (fdata s (c :: l)) with (cbytes s c ++ fdata s l).
  rewrite length_app, cbytes_length by done. cbn [length]. lia.
Qed.
Lemma fdata_bytes s l : Forall is_byte (fdata s l).
Proof. unfold fdata. apply Forall_concat, Forall_fmap, Forall_forall. intros c _. apply cbytes_bytes. Qed.
Lemma fdata_ext s s' l : (forall c, c ∈ l -> cbytes s' c = cbytes s c) -> fdata s' l = fdata s l.
Proof. intros H. unfold fdata. f_equal. apply list_fmap_ext. intros i c Hi. apply H. by eapply list_elem_of_lookup_2. Qed.
Lemma fdata_patch s s' l k c off new : 0 <= csize s -> NoDup l -> l !! k = Some c ->
  (forall c', c' ∈ l -> c' <> c -> cbytes s' c' = cbytes s c') -> cbytes s' c = patch off new (cbytes s c) ->
  0 <= off -> off + Z.of_nat (length new) <= csize s ->
  fdata s' l = patch (csize s * Z.of_nat k + off) new (fdata s l).
Proof.
  intros Hs Hnd Hk Ho Hc Hoff Hlen. apply list_elem_of_split_length in Hk as (l1 & l2 & -> & ->).
  apply NoDup_app in Hnd as (_ & Hd & Hnd). apply NoDup_cons in Hnd as [Hc2 _].
  rewrite !fdata_app. change (fdata ?t (c :: l2)) with (cbytes t c ++ fdata t l2).
  rewrite (fdata_ext s s' l1), (fdata_ext s s' l2), Hc.
  - pose proof (fdata_length s l1 Hs) as HL. pose proof (cbytes_length s c Hs) as HC. unfold patch.
    rewrite take_app_ge by lia. rewrite drop_app_ge by lia.
    rewrite take_app_le by lia. rewrite drop_app_le by lia. rewrite <- !app_assoc. f_equal. f_equal; [f_equal; lia|]. do 2 f_equal. f_equal. lia.
  - intros c' Hc'. apply Ho; [set_solver|]. congruence.
  - intros c' Hc'. apply Ho; [set_solver|]. intros ->. apply (Hd c Hc'). set_solver.
Qed.

Lemma file_frame s s' l : g_fat32 s' = g_fat32 s -> (forall c, c ∈ l -> entry s' c = entry s c) -> file s l -> file s' l.
Proof.
  intros Eg He [Hv Hc Hu]. split.
  - intros c Hin. rewrite Eg. auto.
  - eapply lseg_frame; [|exact Hc]. intros c Hin. unfold nxt. by rewrite He.
  - intros c Hin. rewrite He by done. auto.
Qed.
Lemma file_NoDup s l : file s l -> NoDup l.
Proof. intros [_ Hc _]. by eapply chain_NoDup. Qed.
Lemma file_next s l k c : file s l -> l !! k = Some c -> nxt s c = l !! S k.
Proof.
  intros [_ Hc _] Hk. apply list_elem_of_split_length in Hk as (l1 & l2 & -> & ->). apply lseg_app in Hc as (m & _ & [_ Hc]).
  rewrite lookup_app_r by lia. replace (S (length l1) - length l1)%nat with 1%nat by lia. cbn. destruct l2 as [|d l2]; cbn in *; [done|by destruct Hc].
Qed.

(** The effect of an operation on one chain. *)
Record grown (s s' : fat) (l l' : list Z) (d : list Z) : Prop := {
  gr_sane : sane s';
  gr_frame : frame s s';
  gr_file : file s' l';
  gr_prefix : l `prefix_of` l';
  gr_fresh : forall c, c ∈ l' -> c ∉ l -> entry s c = 0;
  gr_entry : forall c, valid (g_fat32 s) c -> c ∉ l' -> entry s' c = entry s c;
  gr_data : forall c, valid (g_fat32 s) c -> c ∉ l' -> cbytes s' c = cbytes s c;
  gr_bytes : fdata s' l' = d
}.

Lemma chain_grown_trans s s1 s2 l l1 l2 d1 d2 : grown s s1 l l1 d1 -> grown s1 s2 l1 l2 d2 -> grown s s2 l l2 d2.
Proof.
  intros [S1 F1 L1 P1 R1 E1 D1 B1] [S2 F2 L2 P2 R2 E2 D2 B2]. pose proof F1 as (Eg & _). pose proof F2 as (Eg2 & _).
  assert (Hsub : forall c, c ∈ l1 -> c ∈ l2) by (intros c Hc; destruct P2 as [k ->]; set_solver).
  split; [done|by etrans|done|by etrans| | | |done].
  - intros c H2 Hn. destruct (decide (c ∈ l1)) as [H1|H1]; [auto|]. rewrite <- E1; [auto| |done].
    rewrite <- Eg, <- Eg2. by apply (fl_valid _ _ L2).
  - intros c Hv Hn. rewrite E2; [|by rewrite Eg|done]. apply E1; [done|]. auto.
  - intros c Hv Hn. rewrite D2; [|by rewrite Eg|done]. apply D1; [done|]. auto.
Qed.
Lemma grown_full s s' l l' d : grown s s' l l' d -> full s -> full s'.
Proof.
  intros [S1 F1 L1 P1 R1 E1 D1 B1] Hf c Hv. destruct (decide (c ∈ l')) as [Hc|Hc]; [by apply (fl_used _ _ L1)|].
  destruct F1 as (Eg & _). rewrite Eg in Hv. rewrite E1 by done. by apply Hf.
Qed.
Lemma changes_grown s s' l : file s l -> changes s s' (entry s) (dbyte s) -> grown s s' l l (fdata s l).
Proof.
  intros L [S F HE HD]. pose proof F as (Eg & _).
  assert (HC : forall c, valid (g_fat32 s) c -> cbytes s' c = cbytes s c) by (intros c Hc; apply cbytes_ext; auto).
  split; auto; try done.
  - eapply file_frame; [done| |done]. intros c Hc. apply HE. by apply (fl_valid _ _ L).
  - apply fdata_ext. intros c Hc. apply HC. by apply (fl_valid _ _ L).
Qed.
(** ** Extending a chain *)

(** A list of clusters linked up to its last one, whatever follows that. *)
Record linked (s : fat) (l0 : list Z) (c : Z) : Prop := {
  lk_valid : forall x, x ∈ l0 ++ [c] -> valid (g_fat32 s) x;
  lk_used : forall x, x ∈ l0 ++ [c] -> entry s x <> 0;
  lk_seg : lseg (nxt s) (head (l0 ++ [c])) (Some c) l0;
  lk_nodup : NoDup (l0 ++ [c])
}.
Lemma file_linked s l k c : file s l -> l !! k = Some c -> linked s (take k l) c.
Proof.
  intros L Hk. pose proof (file_NoDup _ _ L) as Hnd. pose proof (take_S_r _ _ _ Hk) as Et.
  assert (Hsub : forall x, x ∈ take k l ++ [c] -> x ∈ l) by (rewrite <- Et; intros x; apply subseteq_take).
  destruct L as [Hv Hc Hu]. split; auto.
  - rewrite <- Et. pose proof (take_drop (S k) l) as Ed. rewrite <- Ed in Hc at 2. rewrite Et, <- app_assoc in Hc.
    apply lseg_app in Hc as (m & H1 & H2). cbn in H2. destruct H2 as [-> _]. rewrite Et. destruct l as [|x l]; [done|]. destruct k; cbn in *; congruence || done.
  - rewrite <- Et. eapply sublist_NoDup; [done|apply sublist_take].
Qed.

Lemma land_cluster g sectors c : geometry g sectors -> valid g c -> Z.land c 0x0FFFFFFF = c.
Proof.
  intros G Hv. unfold valid in Hv. destruct G. change 0x0FFFFFFF with (Z.ones 28). rewrite Z.land_ones by done. apply Z.mod_small. lia.
Qed.

Lemma link_ok s s1 l0 c c' : sane s -> linked s l0 c -> valid (g_fat32 s) c' -> entry s c' = 0 ->
  changes s s1 (put c' EOC (entry s)) (fun c'' x => if decide (c'' = c') then 0 else dbyte s c'' x) ->
  exists s2, fat32_set_fat_entry c c' s1 = Done CHIMERA_SUCCESS s2
    /\ grown s s2 (l0 ++ [c]) (l0 ++ [c; c']) (fdata s (l0 ++ [c]) ++ replicate (Z.to_nat (csize s)) 0).
Proof.
  intros S [Hv Hu Hseg Hnd] Hv' Hz C1. pose proof (sn_geo _ _ S) as G. pose proof (ch_frame _ _ _ _ C1) as F1. pose proof F1 as (Eg & _).
  assert (Hne : c' ∉ l0 ++ [c]) by (intros Hin; by apply Hu in Hin).
  destruct (set_entry_ok s1 c c' None (ch_sane _ _ _ _ C1)) as (s2 & E2 & C2); [rewrite Eg; apply Hv; set_solver|by left|].
  exists s2. split; [done|]. pose proof (ch_frame _ _ _ _ C2) as F2. pose proof F2 as (Eg2 & _). rewrite Eg in Eg2.
  rewrite (land_cluster _ _ c' G Hv') in C2.
  assert (HE : forall x, valid (g_fat32 s) x -> entry s2 x = if decide (x = c) then c' else if decide (x = c') then EOC else entry s x).
  { intros x Hx. rewrite (ch_entry _ _ _ _ C2) by by rewrite Eg. unfold put. case_decide; [done|].
    rewrite (ch_entry _ _ _ _ C1) by done. done. }
  assert (HC : forall x, valid (g_fat32 s) x -> x <> c' -> cbytes s2 x = cbytes s x).
  { intros x Hx Hn. apply cbytes_ext; [done|]. intros y Hy. rewrite (ch_data _ _ _ _ C2) by (by rewrite Eg).
    rewrite (ch_data _ _ _ _ C1) by done. by rewrite decide_False. }
  assert (HZ : cbytes s2 c' = replicate (Z.to_nat (csize s)) 0).
  { pose proof (geo_size _ _ G). pose proof (geo_spc _ _ G). apply list_eq_same_length with (Z.to_nat (csize s)); [by rewrite length_replicate| |].
    { rewrite cbytes_length by (rewrite Eg2; lia). by rewrite Eg2. }
    intros i x y Hi Hx Hy. apply lookup_replicate in Hy as [-> _]. rewrite <- (Nat2Z.id i), cbytes_lookup in Hx by (rewrite Eg2; lia).
    injection Hx as <-. rewrite (ch_data _ _ _ _ C2), (ch_data _ _ _ _ C1) by (rewrite ?Eg; done || lia). by rewrite decide_True. }
  replace (l0 ++ [c; c']) with ((l0 ++ [c]) ++ [c']) by by rewrite <- app_assoc.
  assert (Hcc : c' <> c) by set_solver. assert (Hvc : valid (g_fat32 s) c) by (apply Hv; set_solver).
  split; [apply C2|by etrans| |by eexists| | | |].
  - split.
    + intros x [Hx| ->%list_elem_of_singleton]%elem_of_app; rewrite Eg2; auto.
    + assert (Hh : head ((l0 ++ [c]) ++ [c']) = head (l0 ++ [c])) by by destruct l0. rewrite Hh. apply lseg_snoc. split; [apply lseg_snoc; split|].
      * eapply lseg_frame; [|exact Hseg]. intros x Hx. unfold nxt. rewrite HE by (apply Hv; set_solver).
        apply NoDup_app in Hnd as (_ & Hd & _). rewrite !decide_False; [done|set_solver|set_solver].
      * unfold nxt. rewrite HE, decide_True by done. by rewrite (valid_cluster _ _ G c' Hv').
      * unfold nxt. rewrite HE by done. by rewrite decide_False, decide_True.
    + intros x Hx. unfold valid in Hv'. rewrite HE; [|destruct (proj1 (elem_of_app _ _ _) Hx) as [?| ->%list_elem_of_singleton]; auto].
      case_decide; [lia|]. case_decide; [done|]. apply Hu. set_solver.
  - intros x Hx Hn. assert (x = c') as -> by set_solver. done.
  - intros x Hx Hn. rewrite HE by done. rewrite !decide_False; [done|set_solver|set_solver].
  - intros x Hx Hn. apply HC; [done|set_solver].
  - rewrite fdata_app. f_equal; [apply fdata_ext; intros x Hx; apply HC; [auto|set_solver]|].
    unfold fdata. cbn. by rewrite app_nil_r.
Qed.
Lemma next_or_extend_ok s l k c : sane s -> file s l -> l !! k = Some c ->
  exists r s' l', next_or_extend c s = Done r s' /\ grown s s' l l' (pad (csize s * Z.of_nat (length l')) (fdata s l))
    /\ ((2 <= r /\ l' !! S k = Some r /\ length l' = Nat.max (length l) (S (S k))) \/ (r = 0 /\ l' = l /\ length l = S k /\ full s')).
Proof.
  intros S L Hk. pose proof (sn_geo _ _ S) as G. pose proof (geo_size _ _ G) as Hsz. pose proof (geo_spc _ _ G) as Hspc.
  pose proof (fl_valid _ _ L c (list_elem_of_lookup_2 _ _ _ Hk)) as Hv. pose proof (lookup_lt_Some _ _ _ Hk) as Hlt.
  pose proof (fdata_length s l ltac:(lia)) as HL.
  destruct (get_next_ok s c S Hv) as (s1 & E1 & C1). unfold next_or_extend. run E1.
  pose proof (file_next _ _ _ _ L Hk) as Hn. unfold nxt in Hn. pose proof (changes_grown _ _ _ L C1) as G1.
  destruct (is_cluster (entry s c)) eqn:Ec.
  { eexists _, _, l. split; [done|]. rewrite <- HL, pad_id. split; [done|]. left. unfold is_cluster in Ec.
    symmetry in Hn. pose proof (lookup_lt_Some _ _ _ Hn). split_and!; [lia|done|lia]. }
  assert (Hlen : length l = Datatypes.S k) by (symmetry in Hn; apply lookup_ge_None in Hn; lia).
  pose proof (gr_frame _ _ _ _ _ G1) as F1. pose proof F1 as (Eg & _).
  destruct (alloc_ok s1 (gr_sane _ _ _ _ _ G1)) as [(s2 & E2 & C2 & Hfull)|(c' & s2 & E2 & Hv' & Hz & C2)]; run E2.
  - eexists 0, s2, l. split; [done|]. rewrite <- HL, pad_id. pose proof (changes_grown _ _ _ (gr_file _ _ _ _ _ G1) C2) as G2.
    rewrite (gr_bytes _ _ _ _ _ G1) in G2. split; [by eapply chain_grown_trans|]. right. split_and!; try done. eapply grown_full; [exact G2|done].
  - pose proof Hv' as Hr. unfold valid in Hr. destruct (Z.ltb_spec c' 2); [lia|].
    destruct (link_ok s1 s2 (take k l) c c') as (s3 & E3 & G3); [apply G1|apply file_linked; [apply G1|done]|done|done|done|].
    run E3. rewrite Eg in G3. rewrite <- (take_S_r _ _ _ Hk), firstn_all2 in G3 by lia.
    replace (take k l ++ [c; c']) with (l ++ [c']) in G3.
    2: { rewrite <- (firstn_all2 (n := Datatypes.S k) l) at 1 by lia. by rewrite (take_S_r _ _ _ Hk), <- app_assoc. }
    rewrite (gr_bytes _ _ _ _ _ G1) in G3. eexists c', s3, (l ++ [c']). split; [done|]. split.
    + replace (pad _ _) with (fdata s l ++ replicate (Z.to_nat (csize s)) 0); [by eapply chain_grown_trans|]. unfold pad. do 2 f_equal.
      rewrite length_app. cbn. lia.
    + left. split; [lia|]. split; [by rewrite <- Hlen, lookup_app_r, Nat.sub_diag by lia|]. rewrite length_app. cbn. lia.
Qed.

Lemma write_skip_ok n s l k c : sane s -> file s l -> l !! k = Some c ->
  exists r s' l', write_skip n c s = Done r s' /\ grown s s' l l' (pad (csize s * Z.of_nat (length l')) (fdata s l))
    /\ match r with
       | Some c' => l' !! (k + n)%nat = Some c' /\ length l' = Nat.max (length l) (S (k + n))
       | None => full s' /\ (length l' <= Nat.max (length l) (S (k + n)))%nat
       end.
Proof.
  revert s l k c. induction n as [|n IH]; intros s l k c S L Hk; cbn [write_skip];
    pose proof (sn_geo _ _ S) as G; pose proof (geo_size _ _ G) as Hsz; pose proof (geo_spc _ _ G) as Hspc; pose proof (lookup_lt_Some _ _ _ Hk) as Hlt;
    pose proof (fdata_length s l ltac:(lia)) as HL.
  - eexists (Some c), s, l. split; [done|]. rewrite <- HL, pad_id. split; [by apply changes_grown, changes_refl|]. rewrite Nat.add_0_r. split; [done|lia].
  - destruct (next_or_extend_ok s l k c S L Hk) as (r & s1 & l1 & E1 & G1 & Hr). run E1. pose proof (gr_frame _ _ _ _ _ G1) as (Eg & _).
    destruct Hr as [(Hr & Hk1 & Hl1)|(-> & -> & Hl & Hfull)].
    + destruct (Z.ltb_spec r 2); [lia|]. destruct (IH s1 l1 (Datatypes.S k) r (gr_sane _ _ _ _ _ G1) (gr_file _ _ _ _ _ G1) Hk1) as (r2 & s2 & l2 & E2 & G2 & Hr2).
      exists r2, s2, l2. split; [done|]. rewrite Eg, (gr_bytes _ _ _ _ _ G1) in G2.
      pose proof (prefix_length _ _ (gr_prefix _ _ _ _ _ G2)) as Hp.
      rewrite pad_pad in G2 by nia. split; [by eapply chain_grown_trans|].
      replace (k + Datatypes.S n)%nat with (Datatypes.S k + n)%nat by lia. destruct r2; destruct Hr2 as [Hr2 Hr3]; (split; [done|lia]).
    + eexists None, s1, l. split; [done|]. split; [done|]. split; [done|lia].
Qed.

(** Writing back a cluster of a file. *)
Lemma write_cluster_ok s l k c buf off new : sane s -> file s l -> l !! k = Some c -> Forall is_byte buf ->
  csize s <= Z.of_nat (length buf) -> take (Z.to_nat (csize s)) buf = patch off new (cbytes s c) ->
  0 <= off -> off + Z.of_nat (length new) <= csize s ->
  exists s', put_sectors (fat32_cluster_to_lba (g_fat32 s) c) (sectors_per_cluster (g_fat32 s)) buf s = Done true s'
    /\ grown s s' l l (patch (csize s * Z.of_nat k + off) new (fdata s l)).
Proof.
  intros S L Hk HB Hlen Hbuf Hoff Hnew. pose proof (sn_geo _ _ S) as G. pose proof (geo_size _ _ G) as Hsz. pose proof (geo_spc _ _ G) as Hspc.
  pose proof (geo_total _ _ G) as Htot. pose proof (fl_valid _ _ L c (list_elem_of_lookup_2 _ _ _ Hk)) as Hv. pose proof (cluster_sectors _ _ G c Hv) as Hcs.
  rewrite (cluster_lba _ _ G c Hv).
  destruct (data_write s (data_start_lba (g_fat32 s) + (c - 2) * sectors_per_cluster (g_fat32 s)) (sectors_per_cluster (g_fat32 s)) buf S)
    as (s' & E & C); [lia..|done|]. exists s'. split; [done|]. pose proof C as [S' F HE HD]. pose proof F as (Eg & _).
  assert (HC : forall c', valid (g_fat32 s) c' -> c' <> c -> cbytes s' c' = cbytes s c').
  { intros c' Hv' Hn. apply cbytes_ext; [done|]. intros x Hx. rewrite HD by done. rewrite decide_False; [done|]. intros Hin.
    pose proof (cluster_disjoint _ _ G c c' (caddr (g_fat32 s) c' + x - caddr (g_fat32 s) c) x Hv Hv') as Hd. unfold caddr in *. lia. }
  assert (HCc : cbytes s' c = patch off new (cbytes s c)).
  { rewrite <- Hbuf. apply list_eq_same_length with (Z.to_nat (csize s)); [rewrite length_take; lia| |].
    { rewrite cbytes_length by (rewrite Eg; lia). by rewrite Eg. }
    intros i x y Hi Hx Hy. rewrite <- (Nat2Z.id i), cbytes_lookup in Hx by (rewrite Eg; lia). injection Hx as <-.
    rewrite HD by (done || lia). unfold caddr. rewrite decide_True by lia. rewrite lookup_take_lt in Hy by lia.
    apply list_lookup_total_correct. rewrite <- Hy. f_equal. lia. }
  split; [done|done| |done|done| | |].
  - eapply file_frame; [done| |done]. intros c' Hc'. apply HE. by apply (fl_valid _ _ L).
  - intros c' Hv' _. by apply HE.
  - intros c' Hv' Hn. apply HC; [done|]. intros ->. apply Hn. by eapply list_elem_of_lookup_2.
  - eapply fdata_patch; [lia|by eapply file_NoDup|done| |done|done|done]. intros c' Hc' Hn. apply HC; [by apply (fl_valid _ _ L)|done].
Qed.
Lemma buf_count_ok s : sane s -> buf_count (g_fat32 s) = sectors_per_cluster (g_fat32 s).
Proof. intros S. pose proof (geo_spc _ _ (sn_geo _ _ S)). unfold buf_count, BUF_SECTORS. case_match; lia. Qed.

Lemma read_cluster s c buf : sane s -> valid (g_fat32 s) c -> csize s <= Z.of_nat (length buf) ->
  get_sectors (fat32_cluster_to_lba (g_fat32 s) c) (sectors_per_cluster (g_fat32 s)) buf s = Done (cbytes s c ++ drop (Z.to_nat (csize s)) buf, true) s.
Proof.
  intros S Hv Hl. pose proof (sn_geo _ _ S) as G. pose proof (geo_size _ _ G) as Hsz. pose proof (geo_spc _ _ G). pose proof (geo_total _ _ G).
  pose proof (cluster_sectors _ _ G c Hv). rewrite (cluster_lba _ _ G c Hv).
  rewrite ata_read_ok; [|apply (sn_faults _ _ S)|lia|lia|lia]. fold (caddr (g_fat32 s) c). rewrite <- Hsz. fold (cbytes s c).
  unfold patch. rewrite cbytes_length by lia. done.
Qed.

(** The buffer that is written back: [chunk] new bytes in the old contents of
    the cluster. *)
Lemma write_buffer s c coff chunk src buf : sane s -> valid (g_fat32 s) c -> length buf = 4096%nat -> 0 <= coff < csize s ->
  0 < chunk -> chunk = Z.min (Z.of_nat (length src)) (csize s - coff) -> Forall is_byte buf -> Forall is_byte src ->
  exists buf1, (if negb (coff =? 0) || (Z.of_nat (length src) <? csize s)
                then let* (b, _) := get_sectors (fat32_cluster_to_lba (g_fat32 s) c) (sectors_per_cluster (g_fat32 s)) buf in ret b
                else ret buf) s = Done buf1 s
    /\ let buf2 := patch coff (take (Z.to_nat chunk) src) buf1 in
       Forall is_byte buf2 /\ length buf2 = 4096%nat /\ take (Z.to_nat (csize s)) buf2 = patch coff (take (Z.to_nat chunk) src) (cbytes s c).
Proof.
  intros S Hv Hb Hc Hp Ec HB HS. pose proof (sn_geo _ _ S) as G. pose proof (geo_size _ _ G) as Hsz. pose proof (geo_spc _ _ G) as Hspc.
  pose proof (cbytes_length s c ltac:(lia)) as HL.
  assert (Hnew : length (take (Z.to_nat chunk) src) = Z.to_nat chunk) by (rewrite length_take; lia).
  destruct (negb (coff =? 0) || (Z.of_nat (length src) <? csize s)) eqn:Er.
  - exists (cbytes s c ++ drop (Z.to_nat (csize s)) buf). split; [by run (read_cluster s c buf S Hv ltac:(lia))|]. cbv zeta. split_and!.
    + apply patch_bytes; [by apply Forall_take|]. apply Forall_app. split; [apply cbytes_bytes|by apply Forall_drop].
    + rewrite patch_length; rewrite ?length_app, ?length_drop; lia.
    + rewrite patch_app_l by lia. rewrite take_app_length'; [done|]. rewrite patch_length; lia.
  - apply orb_false_iff in Er as [Er1 Er2]. assert (coff = 0) as -> by lia. assert (chunk = csize s) as -> by lia.
    exists buf. split; [done|]. cbv zeta. split_and!.
    + apply patch_bytes; [by apply Forall_take|done].
    + rewrite patch_length; lia.
    + rewrite (patch_all _ (cbytes s c)) by lia. unfold patch. rewrite take_0. cbn [app]. rewrite take_app_length'; [done|lia].
Qed.

Lemma write_loop_ok fuel s l k c coff w0 src buf : sane s -> file s l -> l !! k = Some c -> 0 <= coff < csize s ->
  Forall is_byte src -> Forall is_byte buf -> length buf = 4096%nat -> (length src <= fuel)%nat -> src <> [] ->
  let pos := csize s * Z.of_nat k + coff in
  exists w s' l', write_loop fuel c coff w0 src buf s = Done (Some (w0 + w)) s' /\ 0 < w <= Z.of_nat (length src)
    /\ (w = Z.of_nat (length src) \/ full s') /\ pos + w <= csize s * Z.of_nat (length l')
    /\ (length l' = length l \/ csize s * (Z.of_nat (length l') - 1) < pos + w)
    /\ grown s s' l l' (patch pos (take (Z.to_nat w) src) (pad (csize s * Z.of_nat (length l')) (fdata s l))).
Proof.
  revert s l k c coff w0 src buf. induction fuel as [|fuel IH]; intros s l k c coff w0 src buf S L Hk Hco HS HB Hb Hf Hne; [destruct src; [done|cbn in Hf; lia]|].
  destruct src as [|b0 src0] eqn:Esrc; [done|]. rewrite <- Esrc in *. cbv zeta.
  pose proof (sn_geo _ _ S) as G. pose proof (geo_size _ _ G) as Hsz. pose proof (geo_spc _ _ G) as Hspc.
  pose proof (fdata_length s l ltac:(lia)) as HL. pose proof (lookup_lt_Some _ _ _ Hk) as Hlt.
  pose proof (fl_valid _ _ L c (list_elem_of_lookup_2 _ _ _ Hk)) as Hv.
  assert (Hlen : 0 < Z.of_nat (length src)) by (rewrite Esrc; cbn; lia).
  set (chunk := Z.min (Z.of_nat (length src)) (csize s - coff)).
  destruct (write_buffer s c coff chunk src buf S Hv Hb Hco ltac:(lia) eq_refl HB HS) as (buf1 & E1 & HB2 & Hl2 & Ht2).
  assert (Hnew : length (take (Z.to_nat chunk) src) = Z.to_nat chunk) by (rewrite length_take; lia).
  destruct (write_cluster_ok s l k c _ coff (take (Z.to_nat chunk) src) S L Hk HB2) as (s1 & E2 & G1); [lia|done|lia|lia|].
  cbn [write_loop]. rewrite Esrc. rewrite <- Esrc. unfold bind at 1, geo. change (id (g_fat32 s)) with (g_fat32 s).
  rewrite (buf_count_ok s S). unfold ATA_SECTOR_SIZE. replace (sectors_per_cluster (g_fat32 s) * 512) with (csize s) by lia.
  run E1. destruct (Z.ltb_spec coff (csize s)); [|lia]. fold chunk. destruct (Z.ltb_spec 0 chunk); [|lia]. run E2. cbn [negb].
  pose proof (gr_frame _ _ _ _ _ G1) as (Eg1 & _).
  assert (Hpad : pad (csize s * Z.of_nat (length l)) (fdata s l) = fdata s l) by (rewrite <- HL; apply pad_id).
  destruct (Z.ltb_spec chunk (Z.of_nat (length src))) as [Hch|Hch].
  2: { exists chunk, s1, l. split; [done|]. rewrite Hpad. split; [lia|]. split; [left; lia|]. split; [nia|]. by split; [left|]. }
  assert (chunk = csize s - coff) by lia.
  destruct (next_or_extend_ok s1 l k c (gr_sane _ _ _ _ _ G1) (gr_file _ _ _ _ _ G1) Hk) as (r & s2 & l1 & E3 & G2 & Hr). run E3.
  rewrite Eg1, (gr_bytes _ _ _ _ _ G1) in G2. pose proof (gr_frame _ _ _ _ _ G2) as (Eg2 & _). rewrite Eg1 in Eg2.
  destruct Hr as [(Hr & Hk1 & Hl1)|(-> & -> & Hl & Hfull)].
  2: { exists chunk, s2, l. split; [done|]. split; [lia|]. split; [by right|]. split; [nia|]. split; [by left|].
       rewrite Hpad. eapply chain_grown_trans; [exact G1|]. rewrite pad_patch, Hpad in G2; [done|nia|rewrite Hnew; nia]. }
  destruct (Z.ltb_spec r 2); [lia|].
  destruct (IH s2 l1 (Datatypes.S k) r 0 (w0 + chunk) (drop (Z.to_nat chunk) src) _ (gr_sane _ _ _ _ _ G2) (gr_file _ _ _ _ _ G2) Hk1
    ltac:(rewrite Eg2; lia) ltac:(by apply Forall_drop) HB2 Hl2 ltac:(rewrite length_drop; lia)) as (w & s3 & l2 & E4 & Hw & Hwf & Hp & Hex & G3).
  { intros Hnil%(f_equal length). rewrite length_drop in Hnil. cbn in Hnil. lia. }
  rewrite Eg2, (gr_bytes _ _ _ _ _ G2) in *. rewrite length_drop in Hw, Hwf.
  pose proof (prefix_length _ _ (gr_prefix _ _ _ _ _ G3)) as Hpl.
  exists (chunk + w), s3, l2. split; [rewrite E4; do 2 f_equal; lia|]. split; [lia|]. split; [destruct Hwf; [left; lia|by right]|].
  split; [nia|]. split; [nia|]. eapply chain_grown_trans; [exact G1|]. eapply chain_grown_trans; [exact G2|].
  replace (take (Z.to_nat (chunk + w)) src) with (take (Z.to_nat chunk) src ++ take (Z.to_nat w) (drop (Z.to_nat chunk) src)).
  2: { rewrite take_take_drop. f_equal. lia. }
  rewrite <- patch_patch; rewrite ?Hnew; [|nia|rewrite length_take, length_drop, pad_length by nia; nia].
  rewrite <- pad_patch by (rewrite ?Hnew; nia). rewrite pad_pad in G3 by (rewrite ?patch_length; rewrite ?Hnew; nia).
  replace (csize s * Z.of_nat k + coff + Z.of_nat (Z.to_nat chunk)) with (csize s * Z.of_nat (Datatypes.S k) + 0) by nia. done.
Qed.
(** ** Reading *)

Lemma get_next_locked_ok s c : sane s -> lock s = false -> valid (g_fat32 s) c ->
  exists s', fat32_get_next_cluster c s = Done (entry s c) s' /\ changes s s' (entry s) (dbyte s).
Proof.
  intros S Hl Hv. unfold fat32_get_next_cluster. unfold bind at 1, lock_fat. rewrite Hl.
  assert (S1 : sane (s <| lock := true |>)) by (destruct S; by split).
  destruct (get_next_ok _ c S1 Hv) as (s1 & E1 & [S' F HE HD]). run E1. unfold bind, unlock_fat, modify, ret. eexists. split; [done|].
  destruct F as (F1 & F2 & F3 & F4). split; [destruct S'; by split| |exact HE|exact HD]. unfold frame. cbn. by rewrite Hl.
Qed.

Lemma file_step s l k c c' : sane s -> lock s = false -> file s l -> l !! k = Some c -> l !! S k = Some c' ->
  exists s', fat32_get_next_cluster c s = Done c' s' /\ is_cluster c' = true /\ grown s s' l l (fdata s l).
Proof.
  intros S Hl L Hk Hk'. destruct (get_next_locked_ok s c S Hl) as (s' & E & C); [apply (fl_valid _ _ L); by eapply list_elem_of_lookup_2|].
  pose proof (file_next _ _ _ _ L Hk) as Hn. rewrite Hk' in Hn. unfold nxt in Hn. destruct (is_cluster (entry s c)) eqn:Ec; [|done].
  injection Hn as Hn. rewrite Hn in *. exists s'. split_and!; [done|done|by apply changes_grown].
Qed.

Lemma read_skip_ok n s l k c c' : sane s -> lock s = false -> file s l -> l !! k = Some c -> l !! (k + n)%nat = Some c' ->
  exists s', read_skip n c s = Done (Some c') s' /\ grown s s' l l (fdata s l).
Proof.
  revert s k c. induction n as [|n IH]; intros s k c S Hl L Hk Hn; cbn [read_skip].
  - rewrite Nat.add_0_r, Hk in Hn. injection Hn as <-. exists s. split; [done|]. by apply changes_grown, changes_refl.
  - destruct (lookup_lt_is_Some_2 l (Datatypes.S k)) as [c1 Hc1]; [apply lookup_lt_Some in Hn; lia|].
    destruct (file_step s l k c c1 S Hl L Hk Hc1) as (s1 & E1 & Hc & G1). run E1. rewrite Hc. cbn [negb].
    pose proof (gr_frame _ _ _ _ _ G1) as (_ & _ & Fl & _).
    destruct (IH s1 (Datatypes.S k) c1) as (s2 & E2 & G2); [apply G1|congruence|apply G1|done|by rewrite <- Hn; f_equal; lia|].
    exists s2. split; [done|]. rewrite (gr_bytes _ _ _ _ _ G1) in G2. by eapply chain_grown_trans.
Qed.

Lemma fdata_chunk s l k c off n : 0 <= csize s -> l !! k = Some c -> 0 <= off -> 0 <= n -> off + n <= csize s ->
  take (Z.to_nat n) (drop (Z.to_nat (csize s * Z.of_nat k + off)) (fdata s l)) = take (Z.to_nat n) (drop (Z.to_nat off) (cbytes s c)).
Proof.
  intros Hs Hk Ho Hn Hl. apply list_elem_of_split_length in Hk as (l1 & l2 & -> & ->). rewrite fdata_app.
  change (fdata s (c :: l2)) with (cbytes s c ++ fdata s l2). pose proof (fdata_length s l1 Hs). pose proof (cbytes_length s c Hs).
  rewrite drop_app_ge by lia. rewrite drop_app_le by lia. rewrite take_app_le by (rewrite length_drop; lia). do 2 f_equal. lia.
Qed.

Lemma read_loop_ok fuel s l k c coff todo dst : sane s -> lock s = false -> file s l -> l !! k = Some c -> 0 <= coff < csize s -> 0 <= todo ->
  csize s * Z.of_nat k + coff + todo <= csize s * Z.of_nat (length l) -> (Z.to_nat todo <= fuel)%nat ->
  exists s', read_loop fuel c coff todo dst s
    = Done (Some (dst ++ take (Z.to_nat todo) (drop (Z.to_nat (csize s * Z.of_nat k + coff)) (fdata s l)))) s'
    /\ grown s s' l l (fdata s l).
Proof.
  revert s k c coff todo dst. induction fuel as [|fuel IH]; intros s k c coff todo dst S Hlk L Hk Hco Ht Hpos Hf; cbn [read_loop];
    destruct (Z.ltb_spec 0 todo) as [Hp|Hp]; try lia.
  1,3: assert (todo = 0) as -> by lia; cbn [andb]; exists s; rewrite take_0, app_nil_r; split; [done|by apply changes_grown, changes_refl].
  pose proof (sn_geo _ _ S) as G. pose proof (geo_size _ _ G) as Hsz. pose proof (geo_spc _ _ G) as Hspc. pose proof (geo_total _ _ G).
  pose proof (fl_valid _ _ L c (list_elem_of_lookup_2 _ _ _ Hk)) as Hv. rewrite (valid_cluster _ _ G c Hv). cbn [andb].
  pose proof (cluster_sectors _ _ G c Hv). unfold bind at 1, geo. change (id (g_fat32 s)) with (g_fat32 s).
  unfold bind at 1. rewrite (buf_count_ok s S), (cluster_lba _ _ G c Hv).
  rewrite read_new_ok; [|apply (sn_faults _ _ S)|lia|lia]. fold (caddr (g_fat32 s) c). rewrite <- Hsz. fold (cbytes s c).
  unfold ATA_SECTOR_SIZE. replace (sectors_per_cluster (g_fat32 s) * 512) with (csize s) by lia.
  destruct (Z.ltb_spec coff (csize s)); [|lia]. set (chunk := Z.min todo (csize s - coff)).
  rewrite <- (fdata_chunk s l k c coff chunk) by (done || lia). set (pos := csize s * Z.of_nat k + coff) in *.
  destruct (Z.ltb_spec chunk todo) as [Hch|Hch].
  - assert (Hpn : pos + chunk = csize s * Z.of_nat (Datatypes.S k)) by lia.
    destruct (lookup_lt_is_Some_2 l (Datatypes.S k)) as [c1 Hc1]; [nia|].
    destruct (file_step s l k c c1 S Hlk L Hk Hc1) as (s1 & E1 & _ & G1). run E1. pose proof (gr_frame _ _ _ _ _ G1) as (Eg & _ & Fl & _).
    destruct (IH s1 (Datatypes.S k) c1 0 (todo - chunk) (dst ++ take (Z.to_nat chunk) (drop (Z.to_nat pos) (fdata s l)))) as (s2 & E2 & G2);
      rewrite ?Eg; [apply G1|congruence|apply G1|done|lia|lia|lia|lia|].
    exists s2. rewrite (gr_bytes _ _ _ _ _ G1) in *. split; [|by eapply chain_grown_trans]. rewrite E2, Eg. do 2 f_equal. rewrite <- app_assoc. f_equal.
    replace (Z.to_nat todo) with (Z.to_nat chunk + Z.to_nat (todo - chunk))%nat by lia. rewrite <- take_take_drop, drop_drop. do 3 f_equal. nia.
  - assert (chunk = todo) as -> by lia. unfold bind at 1, ret. rewrite Z.sub_diag. exists s. split; [|by apply changes_grown, changes_refl].
    destruct fuel; done.
Qed.
(** ** Freeing and resizing *)

Lemma free_ok fuel s l c : sane s -> (forall x, x ∈ l -> valid (g_fat32 s) x) ->
  chain (nxt s) (if is_cluster c then Some c else None) l -> (length l <= fuel)%nat ->
  exists s', fat32_free_cluster_chain_unlocked fuel c s = Done tt s'
    /\ changes s s' (fun x => if decide (x ∈ l) then 0 else entry s x) (dbyte s).
Proof.
  revert s l c. induction fuel as [|fuel IH]; intros s l c S Hv Hc Hf; cbn [fat32_free_cluster_chain_unlocked].
  all: destruct l as [|x l]; cbn in Hc, Hf; try lia.
  1,2: destruct (is_cluster c); [done|]; cbn [negb]; exists s; split; [done|]; split; try done; intros x _; by rewrite decide_False by set_solver.
  pose proof (chain_NoDup (nxt s) (Some x) (x :: l)) as Hnd. destruct Hc as [Ec Hc]. destruct (is_cluster c); [|done]. injection Ec as ->. cbn [negb].
  specialize (Hnd (conj eq_refl Hc)). apply NoDup_cons in Hnd as [Hx Hnd].
  assert (Hvx : valid (g_fat32 s) x) by (apply Hv; set_solver).
  destruct (get_next_ok s x S Hvx) as (s1 & E1 & C1). run E1. pose proof (ch_frame _ _ _ _ C1) as (Eg1 & _).
  destruct (set_entry_ok s1 x 0 None (ch_sane _ _ _ _ C1)) as (s2 & E2 & C2); [by rewrite Eg1|by left|]. run E2.
  change (Z.land 0 _) with 0 in C2. pose proof (ch_frame _ _ _ _ C2) as (Eg2 & _). rewrite Eg1 in Eg2.
  assert (C : changes s s2 (put x 0 (entry s)) (dbyte s)).
  { eapply changes_trans; [exact C1|exact C2| |done]. intros c' Hc' HE. unfold put. case_decide; [done|]. by apply HE. }
  destruct (IH s2 l (entry s x)) as (s3 & E3 & C3); [apply C2|intros y Hy; rewrite Eg2; apply Hv; set_solver| |lia|].
  { eapply lseg_frame; [|exact Hc]. intros y Hy. unfold nxt. rewrite (ch_entry _ _ _ _ C) by (apply Hv; set_solver). by rewrite put_ne by set_solver. }
  exists s3. split; [done|]. eapply changes_trans; [exact C|exact C3| |done]. intros y Hy HE. cbn beta. rewrite HE by done. unfold put.
  repeat case_decide; try done; set_solver.
Qed.

Lemma chain_walk_ok n s l k c cnt : sane s -> file s l -> l !! k = Some c ->
  let j := Nat.min (k + n) (length l - 1) in
  exists c' s', l !! j = Some c' /\ chain_walk n c cnt s = Done (c', cnt + Z.of_nat (j - k)) s' /\ changes s s' (entry s) (dbyte s).
Proof.
  cbv zeta. revert s k c cnt. induction n as [|n IH]; intros s k c cnt S L Hk; cbn [chain_walk]; pose proof (lookup_lt_Some _ _ _ Hk) as Hlt.
  - exists c, s. replace (Nat.min (k + 0) (length l - 1)) with k by lia. rewrite Nat.sub_diag, Z.add_0_r. split_and!; [done|done|by apply changes_refl].
  - destruct (get_next_ok s c S) as (s1 & E1 & C1); [apply (fl_valid _ _ L); by eapply list_elem_of_lookup_2|]. run E1.
    pose proof (file_next _ _ _ _ L Hk) as Hn. unfold nxt in Hn. symmetry in Hn. destruct (is_cluster (entry s c)) eqn:Ec.
    + pose proof (lookup_lt_Some _ _ _ Hn) as Hlt2. pose proof (changes_grown _ _ _ L C1) as G1.
      destruct (IH s1 (Datatypes.S k) (entry s c) (cnt + 1)) as (c' & s2 & Hj & E2 & C2); [apply G1|apply G1|done|].
      replace (Nat.min (Datatypes.S k + n) (length l - 1)) with (Nat.min (k + Datatypes.S n) (length l - 1)) in * by lia.
      exists c', s2. split; [done|]. split; [rewrite E2; do 2 f_equal; lia|].
      eapply changes_trans; [exact C1|exact C2|intros x Hx HE; by apply HE|done].
    + apply lookup_ge_None in Hn. exists c, s1. replace (Nat.min (k + Datatypes.S n) (length l - 1)) with k by lia.
      rewrite Nat.sub_diag, Z.add_0_r. done.
Qed.

Lemma chain_grow_ok n s l0 c : sane s -> file s (l0 ++ [c]) ->
  exists e s' l', chain_grow n c s = Done e s' /\ grown s s' (l0 ++ [c]) l' (pad (csize s * Z.of_nat (length l')) (fdata s (l0 ++ [c])))
    /\ ((e = CHIMERA_SUCCESS /\ length l' = (length l0 + 1 + n)%nat) \/ (e = CHIMERA_ERR_NORESOURCE /\ full s')).
Proof.
  revert s l0 c. induction n as [|n IH]; intros s l0 c S L; cbn [chain_grow]; pose proof (sn_geo _ _ S) as G;
    pose proof (geo_size _ _ G) as Hsz; pose proof (geo_spc _ _ G) as Hspc; pose proof (fdata_length s (l0 ++ [c]) ltac:(lia)) as HL;
    pose proof (pad_id (fdata s (l0 ++ [c]))) as Hpad; rewrite HL in Hpad.
  - exists CHIMERA_SUCCESS, s, (l0 ++ [c]). split; [done|]. rewrite Hpad. split; [by apply changes_grown, changes_refl|].
    left. rewrite length_app. split; [done|cbn; lia].
  - destruct (alloc_ok s S) as [(s1 & E1 & C1 & Hfull)|(c' & s1 & E1 & Hv' & Hz & C1)]; run E1.
    + exists CHIMERA_ERR_NORESOURCE, s1, (l0 ++ [c]). split; [done|]. rewrite Hpad. pose proof (changes_grown _ _ _ L C1) as G1.
      split; [done|]. right. split; [done|]. by eapply grown_full.
    + pose proof Hv' as Hr. unfold valid in Hr. destruct (Z.ltb_spec c' 2); [lia|].
      destruct (link_ok s s1 l0 c c' S) as (s2 & E2 & G2); [|done|done|done|].
      { pose proof (file_linked s (l0 ++ [c]) (length l0) c L) as Hl. rewrite take_app_length in Hl. apply Hl.
        by rewrite lookup_app_r, Nat.sub_diag by lia. }
      run E2. pose proof (gr_frame _ _ _ _ _ G2) as (Eg & _). replace (l0 ++ [c; c']) with ((l0 ++ [c]) ++ [c']) in G2 by by rewrite <- app_assoc.
      destruct (IH s2 (l0 ++ [c]) c' (gr_sane _ _ _ _ _ G2) (gr_file _ _ _ _ _ G2)) as (e & s3 & l' & E3 & G3 & He).
      exists e, s3, l'. split; [done|]. rewrite Eg, (gr_bytes _ _ _ _ _ G2) in G3. pose proof (prefix_length _ _ (gr_prefix _ _ _ _ _ G3)) as Hp.
      rewrite !length_app in *. cbn [length] in *. split.
      * replace (fdata s (l0 ++ [c]) ++ replicate (Z.to_nat (csize s)) 0)
          with (pad (csize s * Z.of_nat (length l0 + 2)) (fdata s (l0 ++ [c]))) in G3 by (unfold pad; do 2 f_equal; lia).
        rewrite pad_pad in G3 by nia. by eapply chain_grown_trans.
      * destruct He as [[-> Hl]|He]; [left; split; [done|lia]|by right].
Qed.

(** Links of new clusters behind a cluster in the middle of a chain cut the
    rest of the chain off. *)
Lemma chain_grow_cut n s l0 c : sane s -> linked s l0 c -> (0 < n)%nat ->
  (exists s', chain_grow n c s = Done CHIMERA_ERR_NORESOURCE s' /\ changes s s' (entry s) (dbyte s) /\ full s')
  \/ exists e s' l', chain_grow n c s = Done e s' /\ grown s s' (l0 ++ [c]) l' (pad (csize s * Z.of_nat (length l')) (fdata s (l0 ++ [c])))
    /\ ((e = CHIMERA_SUCCESS /\ length l' = (length l0 + 1 + n)%nat) \/ (e = CHIMERA_ERR_NORESOURCE /\ full s')).
Proof.
  intros S L Hn. destruct n as [|n]; [lia|]. cbn [chain_grow]. pose proof (sn_geo _ _ S) as G. pose proof (geo_size _ _ G) as Hsz.
  pose proof (geo_spc _ _ G) as Hspc. pose proof (fdata_length s (l0 ++ [c]) ltac:(lia)) as HL.
  destruct (alloc_ok s S) as [(s1 & E1 & C1 & Hfull)|(c' & s1 & E1 & Hv' & Hz & C1)].
  - left. exists s1. run E1. split_and!; [done|done|]. intros x Hx. pose proof (ch_frame _ _ _ _ C1) as (Eg & _).
    rewrite Eg in Hx. rewrite (ch_entry _ _ _ _ C1) by done. auto.
  - right. run E1. pose proof Hv' as Hr. unfold valid in Hr. destruct (Z.ltb_spec c' 2); [lia|].
    destruct (link_ok s s1 l0 c c' S L) as (s2 & E2 & G2); [done|done|done|]. run E2. pose proof (gr_frame _ _ _ _ _ G2) as (Eg & _).
    replace (l0 ++ [c; c']) with ((l0 ++ [c]) ++ [c']) in G2 by by rewrite <- app_assoc.
    destruct (chain_grow_ok n s2 (l0 ++ [c]) c' (gr_sane _ _ _ _ _ G2) (gr_file _ _ _ _ _ G2)) as (e & s3 & l' & E3 & G3 & He).
    exists e, s3, l'. split; [done|]. rewrite Eg, (gr_bytes _ _ _ _ _ G2) in G3. pose proof (prefix_length _ _ (gr_prefix _ _ _ _ _ G3)) as Hp.
    rewrite !length_app in *. cbn [length] in *. split.
    + replace (fdata s (l0 ++ [c]) ++ replicate (Z.to_nat (csize s)) 0)
        with (pad (csize s * Z.of_nat (length l0 + 2)) (fdata s (l0 ++ [c]))) in G3 by (unfold pad; do 2 f_equal; lia).
      rewrite pad_pad in G3 by nia. by eapply chain_grown_trans.
    + destruct He as [[-> Hl]|He]; [left; split; [done|lia]|by right].
Qed.
(** ** Sectors of a cluster *)

Definition sector (s : fat) (c k : Z) : list Z := load_bytes (disk s) (caddr (g_fat32 s) c + 512 * k) 512.

Lemma sector_length s c k : length (sector s c k) = 512%nat.
Proof. unfold sector. by rewrite load_bytes_len. Qed.
Lemma sector_lookup s c k i : 0 <= i < 512 -> sector s c k !!! Z.to_nat i = dbyte s c (512 * k + i).
Proof. intros Hi. apply list_lookup_total_correct. unfold sector, dbyte. rewrite load_bytes_at by done. do 2 f_equal. lia. Qed.

Section Sector.
Context (s : fat) (c k : Z) (S : sane s) (Hv : valid (g_fat32 s) c) (Hk : 0 <= k < sectors_per_cluster (g_fat32 s)).

Lemma sector_lba : u32 (fat32_cluster_to_lba (g_fat32 s) c + k) = data_start_lba (g_fat32 s) + (c - 2) * sectors_per_cluster (g_fat32 s) + k
  /\ data_start_lba (g_fat32 s) + (c - 2) * sectors_per_cluster (g_fat32 s) + k + 1 <= sector_count s.
Proof.
  pose proof (sn_geo _ _ S) as G. pose proof (cluster_sectors _ _ G c Hv). pose proof (data_start_pos _ _ G). rewrite (cluster_lba _ _ G c Hv).
  destruct G. rewrite u32_id by lia. lia.
Qed.

Lemma sector_read : read_new (u32 (fat32_cluster_to_lba (g_fat32 s) c + k)) 1 s = Done (Some (sector s c k)) s.
Proof.
  destruct sector_lba as [-> Hs]. rewrite read_new_ok; [|apply (sn_faults _ _ S)|lia|lia]. unfold sector, caddr. do 3 f_equal. lia.
Qed.

(** A sector written back with changes only between [lo] and [hi]. *)
Lemma sector_write sec lo hi : Forall is_byte sec -> length sec = 512%nat -> 0 <= lo -> hi <= 512 ->
  (forall i, 0 <= i < 512 -> ~ (lo <= i < hi) -> sec !!! Z.to_nat i = sector s c k !!! Z.to_nat i) ->
  exists s', put_sectors (u32 (fat32_cluster_to_lba (g_fat32 s) c + k)) 1 sec s = Done true s'
    /\ changes s s' (entry s) (fun c' x => if decide (c' = c /\ 512 * k + lo <= x < 512 * k + hi) then sec !!! Z.to_nat (x - 512 * k) else dbyte s c' x).
Proof.
  intros HB HL Hlo Hhi Hout. pose proof (sn_geo _ _ S) as G. pose proof (cluster_sectors _ _ G c Hv). pose proof (data_start_pos _ _ G).
  destruct sector_lba as [-> Hs]. pose proof (geo_size _ _ G) as Hsz. pose proof (geo_spc _ _ G).
  destruct (data_write s (data_start_lba (g_fat32 s) + (c - 2) * sectors_per_cluster (g_fat32 s) + k) 1 sec S) as (s' & E & C); [lia..|done|].
  exists s'. split; [done|]. destruct C as [S' F HE HD]. split; [done|done|done|]. intros c' x Hc' Hx. rewrite HD by done.
  destruct (decide (c' = c)) as [->|Hn].
  - unfold caddr. case_decide as D1; case_decide as D2; try lia.
    + f_equal. lia.
    + replace (Z.to_nat (512 * (data_start_lba (g_fat32 s) + (c - 2) * sectors_per_cluster (g_fat32 s)) + x
        - 512 * (data_start_lba (g_fat32 s) + (c - 2) * sectors_per_cluster (g_fat32 s) + k))) with (Z.to_nat (x - 512 * k)) by lia.
      rewrite Hout by lia. rewrite sector_lookup by lia. f_equal. lia.
  - rewrite (decide_False (P := c' = c /\ _)) by tauto. rewrite decide_False; [done|]. intros Hin.
    pose proof (cluster_disjoint _ _ G c c' (caddr (g_fat32 s) c' + x - caddr (g_fat32 s) c) x Hv Hc') as Hd. unfold caddr in *. lia.
Qed.
End Sector.

Lemma patch_total off new l i : 0 <= off -> off + Z.of_nat (length new) <= Z.of_nat (length l) -> 0 <= i ->
  patch off new l !!! Z.to_nat i = if decide (off <= i < off + Z.of_nat (length new)) then new !!! Z.to_nat (i - off) else l !!! Z.to_nat i.
Proof. intros Ho Hl Hi. rewrite !list_lookup_total_alt, patch_lookup by done. by case_decide. Qed.

Lemma zero_tail_ok fuel s c off : sane s -> valid (g_fat32 s) c -> 0 <= off -> sectors_per_cluster (g_fat32 s) - off / 512 <= Z.of_nat fuel ->
  exists s', zero_tail fuel (fat32_cluster_to_lba (g_fat32 s) c) off (csize s) s = Done CHIMERA_SUCCESS s'
    /\ changes s s' (entry s) (fun c' x => if decide (c' = c /\ off <= x) then 0 else dbyte s c' x).
Proof.
  revert s off. induction fuel as [|fuel IH]; intros s off S Hv Ho Hf; pose proof (sn_geo _ _ S) as G; pose proof (geo_size _ _ G) as Hsz;
    cbn [zero_tail]; pose proof (Z.div_mod off 512 ltac:(done)) as Hdm; pose proof (Z.mod_pos_bound off 512 ltac:(done)) as Hm;
    (destruct (Z.ltb_spec off (csize s)) as [Hlt|Hge]; [|exists s; split; [done|]; split; try done; intros c' x _ Hx; by rewrite decide_False by lia]).
  { exfalso. assert (off / 512 < sectors_per_cluster (g_fat32 s)); [|lia]. apply Z.div_lt_upper_bound; lia. }
  assert (Hk : 0 <= off / 512 < sectors_per_cluster (g_fat32 s)) by (split; [apply Z.div_pos; lia|apply Z.div_lt_upper_bound; lia]).
  unfold ATA_SECTOR_SIZE. run (sector_read s c (off / 512) S Hv Hk).
  set (z := replicate (Z.to_nat (512 - off mod 512)) 0). assert (Hz : length z = Z.to_nat (512 - off mod 512)) by apply length_replicate.
  destruct (sector_write s c (off / 512) S Hv Hk (patch (off mod 512) z (sector s c (off / 512))) (off mod 512) 512) as (s1 & E1 & C1).
  { apply patch_bytes; [by apply Forall_replicate|apply load_bytes_bytes]. }
  { rewrite patch_length, sector_length; rewrite ?sector_length; lia. }
  { lia. } { lia. }
  { intros i Hi Hn. rewrite patch_total by (rewrite ?sector_length; lia). by rewrite decide_False by lia. }
  run E1. cbn [negb]. pose proof (ch_frame _ _ _ _ C1) as (Eg & _).
  assert (Hoff : off + (512 - off mod 512) = (off / 512 + 1) * 512) by lia.
  destruct (IH s1 (off + (512 - off mod 512))) as (s2 & E2 & C2); [apply C1|by rewrite Eg|lia|rewrite Eg, Hoff, Z.div_mul by done; lia|].
  rewrite Eg in E2. exists s2. split; [done|]. eapply changes_trans; [exact C1|exact C2|intros c' Hc' HE; by apply HE|].
  intros c' x Hc' Hx HD. cbn beta. rewrite HD. clear HD. repeat case_decide; try lia; try done.
  rewrite patch_total by (rewrite ?sector_length; lia). rewrite decide_True by lia. apply lookup_total_replicate_2. lia.
Qed.
(** Within a chain skipping needs no new clusters. *)
Lemma write_skip_inside n s l k c : sane s -> file s l -> l !! k = Some c -> (k + n < length l)%nat ->
  exists c' s', write_skip n c s = Done (Some c') s'.
Proof.
  revert s k c. induction n as [|n IH]; intros s k c S L Hk Hn; cbn [write_skip]; [by eexists _, _|].
  destruct (next_or_extend_ok s l k c S L Hk) as (r & s1 & l1 & E1 & G1 & Hr). run E1. destruct Hr as [(Hr & Hk1 & Hl1)|(_ & _ & Hl & _)]; [|lia].
  destruct (Z.ltb_spec r 2); [lia|]. assert (l1 = l) as ->.
  { destruct (gr_prefix _ _ _ _ _ G1) as [t ->]. rewrite length_app in Hl1. destruct t; [by rewrite app_nil_r|cbn in Hl1; lia]. }
  apply (IH s1 (Datatypes.S k) r); [apply G1|apply G1|done|lia].
Qed.
End Fat32Chain.
