(* ===== verification/Fat32Fs.v ===== *)
(** * The FAT32 file system: directories and the invariant of a volume

    [slot] are the 32 bytes of a directory entry.  [FS] is the invariant of a
    mounted volume: every file and directory owns a chain of clusters, no two
    chains share a cluster, and the entry of each file in its directory says
    where it starts and how long it is. *)

From S2P Require Import Prelude Bytes Fat32 Fat32Spec Fat32Chain.
Import Fat32 Fat32Spec Fat32Chain.

Module Fat32Fs.

(** ** Fields of a sector *)

Definition slice (off n : Z) (l : list Z) : list Z := take (Z.to_nat n) (drop (Z.to_nat off) l).

Lemma slice_lookup off n l i : 0 <= off -> 0 <= i < n -> slice off n l !! Z.to_nat i = l !! Z.to_nat (off + i).
Proof. intros Ho Hi. unfold slice. rewrite lookup_take_lt, lookup_drop by lia. f_equal. lia. Qed.
Lemma slice_slice a n b k l : 0 <= a -> 0 <= b -> 0 <= k -> b + k <= n -> slice b k (slice a n l) = slice (a + b) k l.
Proof.
  intros Ha Hb Hk Hn. unfold slice. rewrite skipn_firstn_comm, drop_drop, take_take. f_equal; [lia|]. f_equal. lia.
Qed.
Lemma slice_patch_same off n new l : 0 <= off -> n = Z.of_nat (length new) -> off + n <= Z.of_nat (length l) -> slice off n (patch off new l) = new.
Proof.
  intros Ho -> Hl. unfold slice, patch. rewrite drop_app_length' by (rewrite length_take; lia). rewrite Nat2Z.id. by apply take_app_length.
Qed.
Lemma slice_patch_other off new l a n : 0 <= off -> off + Z.of_nat (length new) <= Z.of_nat (length l) -> 0 <= a -> 0 <= n ->
  a + n <= off \/ off + Z.of_nat (length new) <= a -> slice a n (patch off new l) = slice a n l.
Proof.
  intros Ho Hl Ha Hn Hd. apply list_eq. intros i. destruct (decide (Z.of_nat i < n)).
  - rewrite <- (Nat2Z.id i), !slice_lookup, patch_lookup by lia. by rewrite decide_False by lia.
  - unfold slice. rewrite !lookup_take_ge by lia. done.
Qed.
Lemma get_u32_slice off l : get_u32 off l = le_value (slice off 4 l).
Proof. done. Qed.
Lemma get_u16_slice off l : get_u16 off l = le_value (slice off 2 l).
Proof. done. Qed.

(** ** Directory entries *)

Definition slot (s : fat) (c off : Z) : list Z := (fun i => dbyte s c (off + i)) <$> seqZ 0 32.
Definition slot_start (e : list Z) : Z := Z.lor (Z.shiftl (get_u16 20 e) 16) (get_u16 26 e).
Definition slot_size (e : list Z) : Z := get_u32 28 e.
Definition slot_live (e : list Z) : Prop := get_u8 0 e <> 0 /\ get_u8 0 e <> 0xE5.

Lemma slot_ext s s' c c' off off' : (forall i, 0 <= i < 32 -> dbyte s' c' (off' + i) = dbyte s c (off + i)) -> slot s' c' off' = slot s c off.
Proof. intros H. unfold slot. apply list_fmap_ext. intros k i Hk. apply lookup_seqZ in Hk. apply H. lia. Qed.
Lemma slot_sector s c off : 0 <= off -> off mod 512 + 32 <= 512 -> slot s c off = slice (off mod 512) 32 (sector s c (off / 512)).
Proof.
  intros Ho Hm. pose proof (Z.div_mod off 512 ltac:(done)). pose proof (Z.mod_pos_bound off 512 ltac:(done)). unfold sector, slice.
  rewrite load_bytes_drop_take by lia. unfold slot, load_bytes. apply list_fmap_ext. intros k i Hk. unfold dbyte. f_equal. lia.
Qed.
Lemma slot_aligned off : off mod 32 = 0 -> off mod 512 + 32 <= 512.
Proof.
  intros Ha. pose proof (Z.mod_pos_bound off 512 ltac:(done)). assert (Hm : (off mod 512) mod 32 = 0) by by rewrite Z.mod_mod_divide by (by exists 16).
  pose proof (Z.div_mod (off mod 512) 32 ltac:(done)). lia.
Qed.

(** What a sector looks like after an entry in it has been updated. *)
Lemma set_fields_slice so start size sec : 0 <= so -> so + 32 <= 512 -> length sec = 512%nat -> 0 <= start < 2 ^ 32 -> 0 <= size < 2 ^ 32 ->
  let sec' := patch (so + 28) (le_bytes 4 size) (set_cluster_fields so start sec) in
  length sec' = 512%nat /\ (Forall is_byte sec -> Forall is_byte sec')
  /\ (forall i, 0 <= i < 512 -> ~ (so <= i < so + 32) -> sec' !!! Z.to_nat i = sec !!! Z.to_nat i)
  /\ slot_start (slice so 32 sec') = start /\ slot_size (slice so 32 sec') = size /\ slice so 20 sec' = slice so 20 sec.
Proof.
  intros Hso Hso' HL Hst Hsz. cbv zeta. unfold set_cluster_fields.
  set (hi := Z.land (Z.shiftr start 16) 65535). set (lo := Z.land start 65535).
  set (s1 := patch (so + 20) (le_bytes 2 hi) sec). assert (L1 : length s1 = 512%nat) by (unfold s1; rewrite patch_length; rewrite ?le_bytes_length; lia).
  set (s2 := patch (so + 26) (le_bytes 2 lo) s1). assert (L2 : length s2 = 512%nat) by (unfold s2; rewrite patch_length; rewrite ?le_bytes_length; lia).
  assert (Hhi : hi = start / 65536) by (unfold hi; change 65535 with (Z.ones 16); rewrite Z.land_ones, Z.shiftr_div_pow2 by done;
    apply Z.mod_small; split; [apply Z.div_pos; lia|apply Z.div_lt_upper_bound; lia]).
  assert (Hlo : lo = start mod 65536) by (unfold lo; change 65535 with (Z.ones 16); by rewrite Z.land_ones by done).
  pose proof (Z.div_mod start 65536 ltac:(done)) as Hdm. pose proof (Z.mod_pos_bound start 65536 ltac:(done)) as Hmb.
  assert (0 <= hi < 65536) by (rewrite Hhi; split; [apply Z.div_pos; lia|apply Z.div_lt_upper_bound; lia]).
  split_and!.
  - rewrite patch_length; rewrite ?le_bytes_length; lia.
  - intros HB. repeat apply patch_bytes; auto using le_bytes_bytes.
  - intros i Hi Hn. rewrite patch_total by (rewrite ?le_bytes_length; lia). rewrite le_bytes_length, decide_False by lia.
    unfold s2. rewrite patch_total by (rewrite ?le_bytes_length; lia). rewrite le_bytes_length, decide_False by lia.
    unfold s1. rewrite patch_total by (rewrite ?le_bytes_length; lia). by rewrite le_bytes_length, decide_False by lia.
  - unfold slot_start. rewrite !get_u16_slice, !slice_slice by lia. rewrite !slice_patch_other by (rewrite ?le_bytes_length; lia).
    unfold s2 at 2. rewrite (slice_patch_same (so + 26)) by (rewrite ?le_bytes_length; lia).
    unfold s2. rewrite slice_patch_other by (rewrite ?le_bytes_length; lia).
    unfold s1. rewrite slice_patch_same by (rewrite ?le_bytes_length; lia).
    rewrite !(le_value_bytes 2) by (change (256 ^ Z.of_nat 2) with 65536; lia).
    rewrite lor_shiftl_add by (change (2 ^ 16) with 65536; lia). lia.
  - unfold slot_size. rewrite get_u32_slice, slice_slice by lia. rewrite slice_patch_same by (rewrite ?le_bytes_length; lia).
    by apply le4_value.
  - rewrite slice_patch_other by (rewrite ?le_bytes_length; lia). unfold s2. rewrite slice_patch_other by (rewrite ?le_bytes_length; lia).
    unfold s1. by rewrite slice_patch_other by (rewrite ?le_bytes_length; lia).
Qed.
(** A step that changes no cluster outside one directory entry. *)
Definition slot_change (s s' : fat) (p off : Z) : Prop :=
  changes s s' (entry s) (fun c x => if decide (c = p /\ off <= x < off + 32) then dbyte s' c x else dbyte s c x).

(** Where an entry may lie for the code to handle it: in the first cluster of
    its directory. *)
Record place (g : fat32_fs) (p off : Z) : Prop := {
  pl_dir : valid g p;
  pl_first : 0 <= off < cluster_size_bytes g;
  pl_aligned : off mod 32 = 0
}.

Lemma place_sector s p off : sane s -> place (g_fat32 s) p off ->
  0 <= off / 512 < sectors_per_cluster (g_fat32 s) /\ 0 <= off mod 512 /\ off mod 512 + 32 <= 512 /\ 512 * (off / 512) + off mod 512 = off.
Proof.
  intros S [Hv Ho Ha]. pose proof (geo_size _ _ (sn_geo _ _ S)). pose proof (Z.div_mod off 512 ltac:(done)).
  pose proof (Z.mod_pos_bound off 512 ltac:(done)). pose proof (slot_aligned off Ha).
  split; [split; [apply Z.div_pos; lia|apply Z.div_lt_upper_bound; lia]|]. lia.
Qed.
Lemma dir_walk_first next fuel cs p off s : off < cs -> dir_walk next fuel cs off p s = Done (p, off) s.
Proof. intros H. destruct fuel; cbn [dir_walk]; destruct (Z.leb_spec cs off); try lia; done. Qed.

(** An entry's sector written back with changes in the entry only. *)
Lemma entry_write s p off sec : sane s -> place (g_fat32 s) p off -> Forall is_byte sec -> length sec = 512%nat ->
  (forall i, 0 <= i < 512 -> ~ (off mod 512 <= i < off mod 512 + 32) -> sec !!! Z.to_nat i = sector s p (off / 512) !!! Z.to_nat i) ->
  exists s', put_sectors (u32 (fat32_cluster_to_lba (g_fat32 s) p + off / 512)) 1 sec s = Done true s'
    /\ slot_change s s' p off /\ slot s' p off = slice (off mod 512) 32 sec.
Proof.
  intros S P HB HL Hout. destruct (place_sector s p off S P) as (Hk & Hm0 & Hm & Ho). destruct P as [Hv Hr Ha].
  destruct (sector_write s p (off / 512) S Hv Hk sec (off mod 512) (off mod 512 + 32)) as (s' & E & C); [done|done|done|done|done|].
  exists s'. split; [done|]. pose proof C as [S' F HE HD].
  split.
  - split; [done|done|done|]. intros c x Hc Hx. case_decide as D; [done|]. rewrite HD by done. by rewrite decide_False by lia.
  - apply list_eq_same_length with 32%nat; [unfold slice; rewrite length_take, length_drop; lia|unfold slot; by rewrite length_fmap, length_seqZ|].
    intros i x y Hi Hx Hy. unfold slot in Hx. rewrite list_lookup_fmap, lookup_seqZ_lt in Hx by lia. injection Hx as <-.
    rewrite <- (Nat2Z.id i), slice_lookup in Hy by lia.
    pose proof (geo_size _ _ (sn_geo _ _ S)). pose proof (Z.mod_pos_bound off 512 ltac:(done)).
    rewrite HD by (done || lia). rewrite decide_True by lia. apply list_lookup_total_correct. rewrite <- Hy. f_equal. lia.
Qed.

Lemma slot_first s p off so sec : slot s p off = slice so 32 sec -> get_u8 0 (slot s p off) = nth 0 (slice so 20 sec) 0.
Proof.
  intros ->. unfold get_u8, slice. by destruct (drop (Z.to_nat so) sec).
Qed.

Lemma update_dir_entry_ok s nd : sane s -> place (g_fat32 s) (parent_dir_cluster nd) (dir_entry_offset nd) ->
  0 <= start_cluster nd < 2 ^ 32 -> 0 <= file_size nd < 2 ^ 32 ->
  exists s', fat32_update_dir_entry nd s = Done CHIMERA_SUCCESS s' /\ slot_change s s' (parent_dir_cluster nd) (dir_entry_offset nd)
    /\ let e := slot s' (parent_dir_cluster nd) (dir_entry_offset nd) in
       slot_start e = start_cluster nd /\ slot_size e = file_size nd
       /\ get_u8 0 e = get_u8 0 (slot s (parent_dir_cluster nd) (dir_entry_offset nd)).
Proof.
  intros S P Hst Hsz. set (p := parent_dir_cluster nd) in *. set (off := dir_entry_offset nd) in *.
  destruct (place_sector s p off S P) as (Hk & Hm0 & Hm & Ho). pose proof P as [Hv Hr Ha]. pose proof (sn_geo _ _ S) as G.
  pose proof (set_fields_slice (off mod 512) (start_cluster nd) (file_size nd) (sector s p (off / 512)) Hm0 Hm (sector_length _ _ _) Hst Hsz)
    as (HL & HB & Hout & E1 & E2 & E3).
  destruct (entry_write s p off _ S P (HB (load_bytes_bytes _ _ _)) HL Hout) as (s' & Ew & C & Es). exists s'. split.
  - unfold fat32_update_dir_entry. fold p off. pose proof Hv as Hv2. unfold valid in Hv2. destruct (Z.ltb_spec p 2); [lia|].
    unfold bind at 1, geo. change (id (g_fat32 s)) with (g_fat32 s). run (dir_walk_first fat32_get_next_cluster (Z.to_nat (off / csize s)) (csize s) p off s (proj2 Hr)).
    rewrite (valid_cluster _ _ G p Hv). cbn [negb]. unfold ATA_SECTOR_SIZE. run (sector_read s p (off / 512) S Hv Hk). by apply put_done in Ew.
  - split; [done|]. cbv zeta. rewrite (slot_first _ _ _ _ _ Es), E3. rewrite Es, E1, E2. split_and!; [done|done|].
    by rewrite (slot_first s p off (off mod 512) (sector s p (off / 512))) by (apply slot_sector; lia).
Qed.
(** ** The invariant of a volume *)

(** The owners of chains: the root directory and the nodes. *)
Notation owner := (option nat).
Definition directory (s : fat) (o : owner) : Prop :=
  match o with None => True | Some j => exists nd, s_fat_data s !! j = Some nd /\ is_dir nd = true end.

Definition located (s : fat) (C : gmap owner (list Z)) (nd : fat32_node) : Prop :=
  place (g_fat32 s) (parent_dir_cluster nd) (dir_entry_offset nd)
  /\ exists o d, directory s o /\ C !! o = Some d /\ head d = Some (parent_dir_cluster nd).

(** The entry on disk describes the node; an empty file may have a cluster
    that its entry does not mention. *)
Definition recorded (s : fat) (nd : fat32_node) : Prop :=
  let e := slot s (parent_dir_cluster nd) (dir_entry_offset nd) in
  slot_live e /\ slot_size e = file_size nd /\ (0 < file_size nd -> slot_start e = start_cluster nd).

Definition node_ok (g : fat32_fs) (nd : fat32_node) (l : list Z) : Prop :=
  start_cluster nd = default 0 (head l) /\ 0 <= file_size nd < 2 ^ 32
  /\ (is_dir nd = false -> file_size nd <= cluster_size_bytes g * Z.of_nat (length l)).

Record FS (s : fat) (C : gmap owner (list Z)) (live : gset nat) : Prop := {
  fs_sane : sane s;
  fs_lock : lock s = false;
  fs_file : forall o l, C !! o = Some l -> file s l;
  fs_disjoint : forall o o' l l' c, o <> o' -> C !! o = Some l -> C !! o' = Some l' -> c ∈ l -> c ∉ l';
  fs_node : forall i nd, s_fat_data s !! i = Some nd -> exists l, C !! Some i = Some l /\ node_ok (g_fat32 s) nd l;
  fs_extra : forall i, (length (s_fat_data s) <= i)%nat -> C !! Some i = None;
  fs_live : forall i, i ∈ live -> exists nd, s_fat_data s !! i = Some nd /\ is_dir nd = false /\ located s C nd /\ recorded s nd;
  fs_slots : forall i j nd nd', i ∈ live -> j ∈ live -> i <> j -> s_fat_data s !! i = Some nd -> s_fat_data s !! j = Some nd' ->
    (parent_dir_cluster nd, dir_entry_offset nd) <> (parent_dir_cluster nd', dir_entry_offset nd');
  fs_root : exists d, C !! None = Some d /\ head d = Some (root_cluster (g_fat32 s))
}.

(** The clusters of a directory are none of a file's. *)
Lemma located_other s C live i nd nd' l : FS s C live -> s_fat_data s !! i = Some nd -> is_dir nd = false -> C !! Some i = Some l ->
  located s C nd' -> parent_dir_cluster nd' ∉ l /\ entry s (parent_dir_cluster nd') <> 0.
Proof.
  intros H Hi Hd Hl (_ & o & d & Hdir & Ho & Hh). destruct d as [|p d]; [done|]. injection Hh as ->. split.
  - eapply (fs_disjoint _ _ _ H o (Some i)); [|done|done|set_solver]. intros ->. destruct Hdir as (nd2 & E & ?). congruence.
  - apply (fl_used _ _ (fs_file _ _ _ H _ _ Ho)). set_solver.
Qed.

Lemma slots_disjoint off off' x : off mod 32 = 0 -> off' mod 32 = 0 -> off <> off' -> off <= x < off + 32 -> ~ (off' <= x < off' + 32).
Proof. intros H1 H2 Hn Hx Hx'. pose proof (Z.div_mod off 32 ltac:(done)). pose proof (Z.div_mod off' 32 ltac:(done)). lia. Qed.

(** One file changes: its chain becomes [l'], its node [nd'], and apart from
    free clusters and its directory entry nothing else does. *)
Section Update.
Context (s s' : fat) (C : gmap owner (list Z)) (live live' : gset nat) (i : nat) (nd nd' : fat32_node) (l l' : list Z).
Context (H : FS s C live) (Hi : s_fat_data s !! i = Some nd) (Hil : i ∈ live) (Hd : is_dir nd = false) (Hl : C !! Some i = Some l).
Context (Hnd : is_dir nd' = false /\ parent_dir_cluster nd' = parent_dir_cluster nd /\ dir_entry_offset nd' = dir_entry_offset nd).
Context (Hsane : sane s') (Hg : g_fat32 s' = g_fat32 s) (Hlock : lock s' = false) (Hdata : s_fat_data s' = <[i := nd']> (s_fat_data s)).
Context (Hfile : file s' l') (Hnode : node_ok (g_fat32 s) nd' l').
Context (Hfresh : forall c, c ∈ l' -> c ∉ l -> entry s c = 0).
Context (Hentry : forall c, valid (g_fat32 s) c -> c ∉ l -> c ∉ l' -> entry s' c = entry s c).
Context (Hbytes : forall c x, valid (g_fat32 s) c -> c ∉ l -> c ∉ l' -> 0 <= x < csize s ->
  ~ (c = parent_dir_cluster nd /\ dir_entry_offset nd <= x < dir_entry_offset nd + 32) -> dbyte s' c x = dbyte s c x).
Context (Hlive : live' ⊆ live) (Hrec : i ∈ live' -> recorded s' nd').

Lemma other_clusters o m c : o <> Some i -> C !! o = Some m -> c ∈ m -> valid (g_fat32 s) c /\ c ∉ l /\ c ∉ l'.
Proof.
  intros Hn Ho Hc. pose proof (fs_file _ _ _ H _ _ Ho) as F. assert (Hcl : c ∉ l) by by eapply (fs_disjoint _ _ _ H o (Some i)).
  split_and!; [by apply (fl_valid _ _ F)|done|]. intros Hin. by apply (fl_used _ _ F c Hc), Hfresh.
Qed.

Lemma other_directory o : directory s' o <-> directory s o.
Proof.
  destruct o as [j|]; [|done]. cbn. rewrite Hdata. destruct (decide (j = i)) as [->|Hn].
  - rewrite list_lookup_insert_eq by by eapply lookup_lt_Some. rewrite Hi. split; intros (x & [= <-] & Hx); destruct Hnd; congruence.
  - by rewrite list_lookup_insert_ne.
Qed.

Lemma dir_not_file o : directory s o -> o <> Some i.
Proof. intros Ho ->. destruct Ho as (nd2 & E & ?). congruence. Qed.

Lemma other_located nd2 : located s C nd2 -> located s' (<[Some i := l']> C) nd2.
Proof.
  intros [P (o & d & Hdir & Ho & Hh)]. split; [by rewrite Hg|]. exists o, d. split; [by apply other_directory|].
  rewrite lookup_insert_ne by (symmetry; by apply dir_not_file). done.
Qed.

(** The entries and contents of the other files stay. *)
Lemma other_slot j nd2 : j ∈ live -> j <> i -> s_fat_data s !! j = Some nd2 ->
  slot s' (parent_dir_cluster nd2) (dir_entry_offset nd2) = slot s (parent_dir_cluster nd2) (dir_entry_offset nd2).
Proof.
  intros Hj Hn Hj2. destruct (fs_live _ _ _ H j Hj) as (nd3 & E & _ & [P (o & d & Hdir & Ho & Hh)] & _). rewrite Hj2 in E. injection E as <-.
  destruct (fs_live _ _ _ H i Hil) as (nd3 & E & _ & [P' _] & _). rewrite Hi in E. injection E as <-.
  destruct d as [|q d]; [done|]. injection Hh as Hh. rewrite <- Hh. destruct (other_clusters o _ q (dir_not_file o Hdir) Ho) as (Hv & Hq1 & Hq2); [set_solver|].
  destruct P as [_ Pr Pa], P' as [_ Pr' Pa']. apply slot_ext. intros x Hx. apply Hbytes; try done.
  - pose proof (geo_size _ _ (sn_geo _ _ (fs_sane _ _ _ H))) as Hsz. pose proof (Z.div_mod (dir_entry_offset nd2) 32 ltac:(done)). lia.
  - intros [Eq Hx2]. assert (dir_entry_offset nd2 <> dir_entry_offset nd).
    { intros Eo. apply (fs_slots _ _ _ H j i nd2 nd Hj Hil Hn Hj2 Hi). congruence. }
    by apply (slots_disjoint (dir_entry_offset nd2) (dir_entry_offset nd) (dir_entry_offset nd2 + x)); [..|lia|].
Qed.
Lemma other_data j nd2 m : j ∈ live -> j <> i -> s_fat_data s !! j = Some nd2 -> C !! Some j = Some m -> fdata s' m = fdata s m.
Proof.
  intros Hj Hn Hj2 Hm. apply fdata_ext. intros c Hc. destruct (other_clusters (Some j) m c) as (Hv & H1 & H2); [congruence|done|done|].
  apply cbytes_ext; [done|]. intros x Hx. apply Hbytes; try done. intros [-> _].
  destruct (fs_live _ _ _ H j Hj) as (nd3 & E & Hd3 & _). rewrite Hj2 in E. injection E as <-.
  destruct (fs_live _ _ _ H i Hil) as (nd3 & E & _ & Hloc & _). rewrite Hi in E. injection E as <-.
  by destruct (located_other _ _ _ j nd2 nd m H Hj2 Hd3 Hm Hloc).
Qed.

Lemma FS_update : FS s' (<[Some i := l']> C) live'.
Proof.
  pose proof (lookup_lt_Some _ _ _ Hi) as Hlt. split; [done|done| | | | | | |].
  - intros o m Ho. destruct (decide (o = Some i)) as [->|Hn]; [rewrite lookup_insert_eq in Ho; by injection Ho as <-|].
    rewrite lookup_insert_ne in Ho by done. eapply file_frame; [done| |by eapply (fs_file _ _ _ H)].
    intros c Hc. destruct (other_clusters o m c Hn Ho Hc) as (? & ? & ?). by apply Hentry.
  - intros o o' m m' c Hn Ho Ho' Hc Hc'. destruct (decide (o = Some i)) as [->|N1]; [|destruct (decide (o' = Some i)) as [->|N2]].
    + rewrite lookup_insert_eq in Ho. injection Ho as <-. rewrite lookup_insert_ne in Ho' by done.
      by destruct (other_clusters o' m' c) as (_ & _ & ?).
    + rewrite lookup_insert_eq in Ho'. injection Ho' as <-. rewrite lookup_insert_ne in Ho by done. by destruct (other_clusters o m c) as (_ & _ & ?).
    + rewrite lookup_insert_ne in Ho, Ho' by done. by eapply (fs_disjoint _ _ _ H o o').
  - intros j nd2 Hj. rewrite Hg. rewrite Hdata in Hj. destruct (decide (j = i)) as [->|Hn].
    + rewrite list_lookup_insert_eq in Hj by done. injection Hj as <-. exists l'. by rewrite lookup_insert_eq.
    + rewrite list_lookup_insert_ne in Hj by done. rewrite lookup_insert_ne by congruence. by apply (fs_node _ _ _ H).
  - intros j Hj. rewrite Hdata, length_insert in Hj. rewrite lookup_insert_ne by (intros [= ->]; lia). by apply (fs_extra _ _ _ H).
  - intros j Hj. destruct (fs_live _ _ _ H j (Hlive _ Hj)) as (nd2 & Hj2 & Hd2 & Hloc & Hr2). rewrite Hdata. destruct (decide (j = i)) as [->|Hn].
    + rewrite list_lookup_insert_eq by done. exists nd'. destruct Hnd as (? & Ep & Eo). split_and!; auto.
      apply other_located. rewrite Hi in Hj2. injection Hj2 as <-. destruct Hloc as [P HP]. split; by rewrite ?Ep, ?Eo.
    + rewrite list_lookup_insert_ne by done. exists nd2. split_and!; [done|done|by apply other_located|]. unfold recorded.
      by rewrite (other_slot j nd2) by auto.
  - intros j k nd1 nd2 Hj Hk Hn E1 E2. rewrite Hdata in E1, E2. destruct Hnd as (_ & Ep & Eo).
    assert (Hsame : forall k x, <[i := nd']> (s_fat_data s) !! k = Some x ->
      exists y, s_fat_data s !! k = Some y /\ parent_dir_cluster x = parent_dir_cluster y /\ dir_entry_offset x = dir_entry_offset y).
    { intros k' x Hx. destruct (decide (k' = i)) as [->|Hn']; [rewrite list_lookup_insert_eq in Hx by done; injection Hx as <-; by exists nd|].
      rewrite list_lookup_insert_ne in Hx by done. by exists x. }
    destruct (Hsame _ _ E1) as (y1 & Y1 & -> & ->). destruct (Hsame _ _ E2) as (y2 & Y2 & -> & ->).
    apply (fs_slots _ _ _ H j k); auto.
  - rewrite lookup_insert_ne by done. rewrite Hg. apply (fs_root _ _ _ H).
Qed.
End Update.

(** A new empty file: a node is added and its directory entry, free before,
    is written; nothing else changes. *)
Section Create.
Context (s s' : fat) (C : gmap owner (list Z)) (live : gset nat) (nd : fat32_node) (o : owner) (d : list Z).
Notation k := (length (s_fat_data s)).
Notation p := (parent_dir_cluster nd).
Notation off := (dir_entry_offset nd).
Context (H : FS s C live) (Hdir : directory s o) (Ho : C !! o = Some d) (Hh : head d = Some p) (P : place (g_fat32 s) p off).
Context (Hempty : start_cluster nd = 0 /\ file_size nd = 0 /\ is_dir nd = false) (Hfree : ~ slot_live (slot s p off)).
Context (Hsane : sane s') (Hg : g_fat32 s' = g_fat32 s) (Hlock : lock s' = false) (Hdata : s_fat_data s' = s_fat_data s ++ [nd]).
Context (Hentry : forall c, valid (g_fat32 s) c -> entry s' c = entry s c).
Context (Hbytes : forall c x, valid (g_fat32 s) c -> 0 <= x < csize s -> ~ (c = p /\ off <= x < off + 32) -> dbyte s' c x = dbyte s c x).
Context (Hrec : recorded s' nd).

Lemma create_old j nd2 : s_fat_data s !! j = Some nd2 -> s_fat_data s' !! j = Some nd2.
Proof. intros Hj. rewrite Hdata. by apply lookup_app_l_Some. Qed.
Lemma create_inv j nd2 : s_fat_data s' !! j = Some nd2 -> s_fat_data s !! j = Some nd2 \/ (j = k /\ nd2 = nd).
Proof. rewrite Hdata. intros [?|[Hj Hn]]%lookup_app_Some; [by left|right]. apply list_lookup_singleton_Some in Hn as [Hn <-]. split; [lia|done]. Qed.
Lemma create_new : s_fat_data s' !! k = Some nd.
Proof. rewrite Hdata. by rewrite lookup_app_r, Nat.sub_diag by lia. Qed.
Lemma create_not_live j : j ∈ live -> j <> k.
Proof. intros Hj ->. destruct (fs_live _ _ _ H _ Hj) as (? & E & _). apply lookup_lt_Some in E. lia. Qed.
Lemma create_chain o' : o' <> Some k -> (<[Some k := []]> C : gmap owner (list Z)) !! o' = C !! o'.
Proof. intros Hn. by rewrite lookup_insert_ne. Qed.
Lemma create_directory o' : directory s o' -> directory s' o' /\ o' <> Some k.
Proof.
  destruct o' as [j|]; [|done]. intros (nd2 & E & Hd). split; [exists nd2; split; [by apply create_old|done]|]. intros [= ->]. apply lookup_lt_Some in E. lia.
Qed.
Lemma create_located nd2 : located s C nd2 -> located s' (<[Some k := []]> C) nd2.
Proof.
  intros [P2 (o2 & d2 & Hdir2 & Ho2 & Hh2)]. destruct (create_directory o2 Hdir2). split; [by rewrite Hg|]. exists o2, d2. by rewrite create_chain.
Qed.
Lemma create_slots j nd2 : j ∈ live -> s_fat_data s !! j = Some nd2 ->
  (parent_dir_cluster nd2, dir_entry_offset nd2) <> (p, off) /\ recorded s' nd2 /\ located s C nd2 /\ is_dir nd2 = false.
Proof.
  intros Hj E. destruct (fs_live _ _ _ H j Hj) as (nd3 & E3 & Hd & Hloc & Hr). rewrite E in E3. injection E3 as <-.
  assert (Hne : (parent_dir_cluster nd2, dir_entry_offset nd2) <> (p, off)) by (intros [= E1 E2]; destruct Hr as [Hr _]; rewrite E1, E2 in Hr; done).
  split; [done|]. split; [|done]. unfold recorded in *. rewrite (slot_ext s s' (parent_dir_cluster nd2) (parent_dir_cluster nd2) (dir_entry_offset nd2) (dir_entry_offset nd2)); [done|].
  intros x Hx. destruct Hloc as [[Pv Pr Pa] _]. destruct P as [_ Pr' Pa']. pose proof (geo_size _ _ (sn_geo _ _ (fs_sane _ _ _ H))) as Hsz.
  pose proof (Z.div_mod (dir_entry_offset nd2) 32 ltac:(done)). apply Hbytes; [done|lia|]. intros [E1 Hx2].
  apply (slots_disjoint (dir_entry_offset nd2) off (dir_entry_offset nd2 + x)); [done|done| |lia|done]. intros E2. apply Hne. congruence.
Qed.
Lemma create_data j nd2 m : j ∈ live -> s_fat_data s !! j = Some nd2 -> C !! Some j = Some m -> fdata s' m = fdata s m.
Proof.
  intros Hj E Hm. apply fdata_ext. intros c Hc. pose proof (fl_valid _ _ (fs_file _ _ _ H _ _ Hm) c Hc) as Hv. apply cbytes_ext; [done|].
  intros x Hx. apply Hbytes; [done|done|]. intros [-> _]. destruct (create_slots j nd2 Hj E) as (_ & _ & _ & Hd).
  destruct (located_other s C live j nd2 nd m H E Hd Hm); [|done]. split; [done|]. by exists o, d.
Qed.

Lemma FS_create : FS s' (<[Some k := []]> C) (live ∪ {[k]}).
Proof.
  destruct Hempty as (He1 & He2 & He3). split; [done|done| | | | | | |].
  - intros o' m Ho'. destruct (decide (o' = Some k)) as [->|Hn]; [rewrite lookup_insert_eq in Ho'; injection Ho' as <-; split; [set_solver|done|set_solver]|].
    rewrite create_chain in Ho' by done. pose proof (fs_file _ _ _ H _ _ Ho') as F. eapply file_frame; [done| |exact F].
    intros c Hc. apply Hentry. by apply (fl_valid _ _ F).
  - intros o1 o2 m1 m2 c Hn H1 H2 Hc Hc'. destruct (decide (o1 = Some k)) as [->|N1]; [rewrite lookup_insert_eq in H1; injection H1 as <-; set_solver|].
    destruct (decide (o2 = Some k)) as [->|N2]; [rewrite lookup_insert_eq in H2; injection H2 as <-; set_solver|].
    rewrite create_chain in H1, H2 by done. by eapply (fs_disjoint _ _ _ H o1 o2).
  - intros j nd2 Hj. rewrite Hg. apply create_inv in Hj as [Hj|[-> ->]].
    + rewrite create_chain by (intros [= ->]; apply lookup_lt_Some in Hj; lia). by apply (fs_node _ _ _ H).
    + exists []. rewrite lookup_insert_eq. split; [done|]. unfold node_ok. rewrite He1, He2. split; [done|]. split; [lia|]. cbn. lia.
  - intros j Hj. rewrite Hdata, length_app in Hj. cbn in Hj. rewrite create_chain by (intros [= ->]; lia). apply (fs_extra _ _ _ H). lia.
  - intros j [Hj| ->%elem_of_singleton]%elem_of_union.
    + destruct (fs_live _ _ _ H j Hj) as (nd2 & E & _). destruct (create_slots j nd2 Hj E) as (_ & Hr & Hloc & Hd).
      exists nd2. split_and!; [by apply create_old|done|by apply create_located|done].
    + exists nd. split_and!; [apply create_new|done| |done]. apply create_located. split; [done|]. by exists o, d.
  - intros j j' nd1 nd2 Hj Hj' Hn E1 E2. apply create_inv in E1 as [E1|[-> ->]], E2 as [E2|[-> ->]]; [| | |done].
    + apply (fs_slots _ _ _ H j j'); try done.
      * apply lookup_lt_Some in E1. assert (j <> k) by lia. set_solver.
      * apply lookup_lt_Some in E2. assert (j' <> k) by lia. set_solver.
    + apply (create_slots j); [|done]. apply lookup_lt_Some in E1. assert (j <> k) by lia. set_solver.
    + apply not_eq_sym, (create_slots j'); [|done]. apply lookup_lt_Some in E2. assert (j' <> k) by lia. set_solver.
  - rewrite create_chain by done. rewrite Hg. apply (fs_root _ _ _ H).
Qed.
End Create.
End Fat32Fs.
