(* ===== verification/Fat32Edit.v ===== *)
(** * The FAT32 file system: changes to one file

    The calls that write, resize and remove a file hold the lock and change
    one chain, one node and one directory entry in several steps.  [edit]
    relates the state before the call to the state at any point of it; the
    lemmas follow the calls step by step. *)

From S2P Require Import Prelude Bytes Fat32 Fat32Spec Fat32Chain Fat32Fs.
Import Fat32 Fat32Spec Fat32Chain Fat32Fs.

Module Fat32Edit.

Lemma alter_insert {A} (f : A -> A) (l : list A) i x : l !! i = Some x -> alter f i l = <[i := f x]> l.
Proof.
  intros Hx. apply list_eq. intros j. destruct (decide (j = i)) as [->|Hn].
  - rewrite list_lookup_alter_eq, Hx, list_lookup_insert_eq; [done|]. by eapply lookup_lt_Some.
  - by rewrite list_lookup_alter_ne, list_lookup_insert_ne.
Qed.
Lemma node_at_lookup i s nd : s_fat_data s !! i = Some nd -> node_at i s = nd.
Proof. intros H. unfold node_at. by apply nth_lookup_Some. Qed.
Lemma cbytes_dbyte s s' c x : g_fat32 s' = g_fat32 s -> cbytes s' c = cbytes s c -> 0 <= x < csize s -> dbyte s' c x = dbyte s c x.
Proof.
  intros Eg E Hx. pose proof (cbytes_lookup s c x Hx) as H. rewrite <- E, cbytes_lookup in H by by rewrite Eg. congruence.
Qed.

(** State [s1] of a call on file [i] that found [s]: the node is [nd1], the
    chain [l1] with the contents [d], and [e] is the directory entry. *)
Record edit (s s1 : fat) (i : nat) (nd nd1 : fat32_node) (l l1 d e : list Z) : Prop := {
  ed_sane : sane s1;
  ed_geo : g_fat32 s1 = g_fat32 s;
  ed_lock : lock s1 = true;
  ed_nodes : s_fat_data s1 = <[i := nd1]> (s_fat_data s);
  ed_same : is_dir nd1 = is_dir nd /\ parent_dir_cluster nd1 = parent_dir_cluster nd /\ dir_entry_offset nd1 = dir_entry_offset nd;
  ed_file : file s1 l1;
  ed_fresh : forall c, c ∈ l1 -> c ∉ l -> entry s c = 0;
  ed_entry : forall c, valid (g_fat32 s) c -> c ∉ l -> c ∉ l1 -> entry s1 c = entry s c;
  ed_bytes : forall c x, valid (g_fat32 s) c -> c ∉ l -> c ∉ l1 -> 0 <= x < csize s ->
    ~ (c = parent_dir_cluster nd /\ dir_entry_offset nd <= x < dir_entry_offset nd + 32) -> dbyte s1 c x = dbyte s c x;
  ed_data : fdata s1 l1 = d;
  ed_slot : slot s1 (parent_dir_cluster nd) (dir_entry_offset nd) = e
}.

Section Edit.
Context (s : fat) (C : gmap owner (list Z)) (live : gset nat) (i : nat) (nd : fat32_node) (l : list Z).
Context (H : FS s C live) (Hi : s_fat_data s !! i = Some nd) (Hil : i ∈ live) (Hl : C !! Some i = Some l).
Notation p := (parent_dir_cluster nd).
Notation off := (dir_entry_offset nd).

Lemma edit_home : is_dir nd = false /\ place (g_fat32 s) p off /\ p ∉ l /\ entry s p <> 0 /\ recorded s nd.
Proof.
  destruct (fs_live _ _ _ H i Hil) as (nd2 & E & Hd & Hloc & Hr). rewrite Hi in E. injection E as <-.
  destruct (located_other _ _ _ i nd nd l H Hi Hd Hl Hloc). by destruct Hloc.
Qed.

Lemma edit_start : edit s (s <| lock := true |>) i nd nd l l (fdata s l) (slot s p off).
Proof.
  split; try done.
  - destruct (fs_sane _ _ _ H). by split.
  - cbn. by rewrite list_insert_id.
  - eapply file_frame; [..|by eapply (fs_file _ _ _ H)]; done.
Qed.

(** The directory is outside the chain. *)
Lemma edit_dir s1 nd1 l1 d e : edit s s1 i nd nd1 l l1 d e -> valid (g_fat32 s1) p /\ p ∉ l1 /\ entry s1 p <> 0.
Proof.
  intros E. destruct edit_home as (_ & P & Hp & He & _). pose proof (pl_dir _ _ _ P) as Hv.
  assert (Hp1 : p ∉ l1) by (intros Hin; by apply He, (ed_fresh _ _ _ _ _ _ _ _ _ E)).
  split_and!; [by rewrite (ed_geo _ _ _ _ _ _ _ _ _ E)|done|]. by rewrite (ed_entry _ _ _ _ _ _ _ _ _ E).
Qed.

Lemma edit_step s1 nd1 l1 d e s2 l2 d2 : edit s s1 i nd nd1 l l1 d e -> sane s2 -> frame s1 s2 -> file s2 l2 ->
  (forall c, c ∈ l2 -> c ∉ l1 -> entry s1 c = 0) -> (forall c, c ∈ l1 -> c ∈ l \/ c ∈ l2) ->
  (forall c, valid (g_fat32 s1) c -> c ∉ l1 -> c ∉ l2 -> entry s2 c = entry s1 c) ->
  (forall c x, valid (g_fat32 s1) c -> c ∉ l1 -> c ∉ l2 -> 0 <= x < csize s1 -> dbyte s2 c x = dbyte s1 c x) ->
  fdata s2 l2 = d2 -> edit s s2 i nd nd1 l l2 d2 e.
Proof.
  intros E S2 (Fg & _ & Flk & Fn) L2 Hfresh Hsub He Hb Hd. destruct (edit_dir _ _ _ _ _ E) as (Hv & Hp & Hpe).
  destruct E as [S1 Eg Elk En Es L1 Ef Ee Eb Ed Esl]. destruct edit_home as (_ & P & _). pose proof P as [_ Pr Pa].
  assert (Hout : forall c, c ∉ l -> c ∉ l2 -> c ∉ l1) by (intros c H1 H2 H3; destruct (Hsub c H3); tauto).
  split; try done; try congruence.
  - intros c H2 Hn. destruct (decide (c ∈ l1)) as [H1|H1]; [auto|]. rewrite <- Ee; [auto| |done|done].
    pose proof (fl_valid _ _ L2 c H2) as Hv2. by rewrite Fg, Eg in Hv2.
  - intros c Hvc H1 H2. rewrite He; [apply Ee; auto|by rewrite Eg|auto|done].
  - intros c x Hvc H1 H2 Hx Hn. rewrite Hb; [apply Eb; auto|by rewrite Eg|auto|done|by rewrite Eg].
  - rewrite <- Esl. assert (p ∉ l2) by (intros Hin; by apply Hpe, Hfresh). apply slot_ext. intros x Hx. apply Hb; try done. rewrite Eg.
    pose proof (geo_size _ _ (sn_geo _ _ (fs_sane _ _ _ H))) as Hsz. pose proof (Z.div_mod off 32 ltac:(done)). lia.
Qed.

Lemma edit_grown s1 nd1 l0 l1 d e s2 l2 d2 : edit s s1 i nd nd1 l l1 d e -> grown s1 s2 l0 l2 d2 ->
  (forall c, c ∈ l0 -> c ∈ l1) -> (forall c, c ∈ l1 -> c ∈ l \/ c ∈ l0) -> edit s s2 i nd nd1 l l2 d2 e.
Proof.
  intros E [S2 F2 L2 P2 R2 E2 D2 B2] Hs1 Hs2. assert (Hp : forall c, c ∈ l0 -> c ∈ l2) by (destruct P2 as [k ->]; set_solver).
  eapply edit_step; try done.
  - intros c Hc Hn. apply R2; auto.
  - intros c Hc. destruct (Hs2 c Hc); auto.
  - intros c Hv _ Hn. auto.
  - intros c x Hv _ Hn Hx. apply cbytes_dbyte; [apply F2|auto|done].
Qed.

Lemma edit_entry s1 nd1 l1 d e s2 e2 : edit s s1 i nd nd1 l l1 d e -> slot_change s1 s2 p off -> slot s2 p off = e2 ->
  edit s s2 i nd nd1 l l1 d e2.
Proof.
  intros E [S2 (Fg & _ & Flk & Fn) HE HD] Hs. destruct (edit_dir _ _ _ _ _ E) as (Hv & Hp & _).
  destruct E as [S1 Eg Elk En Es L1 Ef Ee Eb Ed Esl]. split; try done; try congruence.
  - eapply file_frame; [done| |done]. intros c Hc. apply HE. by apply (fl_valid _ _ L1).
  - intros c Hvc H1 H2. rewrite HE by by rewrite Eg. auto.
  - intros c x Hvc H1 H2 Hx Hn. rewrite HD, decide_False by (by rewrite ?Eg). auto.
  - rewrite <- Ed. apply fdata_ext. intros c Hc. apply cbytes_ext; [done|]. intros x Hx. rewrite HD; [|by apply (fl_valid _ _ L1)|done].
    rewrite decide_False; [done|]. intros [-> _]. done.
Qed.

Lemma edit_node s1 nd1 l1 d e f : edit s s1 i nd nd1 l l1 d e ->
  is_dir (f nd1) = is_dir nd1 /\ parent_dir_cluster (f nd1) = parent_dir_cluster nd1 /\ dir_entry_offset (f nd1) = dir_entry_offset nd1 ->
  exists s2, set_node i f s1 = Done tt s2 /\ edit s s2 i nd (f nd1) l l1 d e /\ (full s1 -> full s2).
Proof.
  intros [S1 Eg Elk En (E1 & E2 & E3) L1 Ef Ee Eb Ed Esl] (F1 & F2 & F3). eexists. split; [done|]. split; [|done]. split; try done.
  - destruct S1. by split.
  - cbn. rewrite En, (alter_insert f _ i nd1); [apply list_insert_insert_eq|]. apply list_lookup_insert_eq. by eapply lookup_lt_Some.
  - split_and!; congruence.
  - eapply file_frame; [..|exact L1]; done.
Qed.
Lemma edit_lookup s1 nd1 l1 d e : edit s s1 i nd nd1 l l1 d e -> s_fat_data s1 !! i = Some nd1 /\ node_at i s1 = nd1.
Proof.
  intros E. assert (Hn : s_fat_data s1 !! i = Some nd1).
  { rewrite (ed_nodes _ _ _ _ _ _ _ _ _ E). apply list_lookup_insert_eq. by eapply lookup_lt_Some. }
  split; [done|by apply node_at_lookup].
Qed.

(** The entry on disk is brought up to date. *)
Lemma edit_update s1 nd1 l1 d e : edit s s1 i nd nd1 l l1 d e -> 0 <= start_cluster nd1 < 2 ^ 32 -> 0 <= file_size nd1 < 2 ^ 32 ->
  exists s2 e2, update_entry_of i s1 = Done CHIMERA_SUCCESS s2 /\ edit s s2 i nd nd1 l l1 d e2
    /\ slot_start e2 = start_cluster nd1 /\ slot_size e2 = file_size nd1 /\ get_u8 0 e2 = get_u8 0 e /\ (full s1 -> full s2).
Proof.
  intros E Hst Hsz. destruct edit_home as (_ & P & _). pose proof (ed_same _ _ _ _ _ _ _ _ _ E) as (_ & Ep & Eo).
  destruct (update_dir_entry_ok s1 nd1 (ed_sane _ _ _ _ _ _ _ _ _ E)) as (s2 & E2 & SC & H1 & H2 & H3);
    [by rewrite Ep, Eo, (ed_geo _ _ _ _ _ _ _ _ _ E)|done|done|].
  rewrite Ep, Eo in *. exists s2, (slot s2 p off). split; [unfold update_entry_of; by rewrite (proj2 (edit_lookup _ _ _ _ _ E))|].
  split; [by eapply edit_entry|]. rewrite H1, H2, H3, (ed_slot _ _ _ _ _ _ _ _ _ E). split_and!; try done. intros Hf c Hc.
  pose proof (ch_frame _ _ _ _ SC) as (Fg & _). rewrite Fg in Hc. rewrite (ch_entry _ _ _ _ SC) by done. by apply Hf.
Qed.

(** The end of a call: the lock is released and the invariant holds again. *)
Lemma edit_done s1 nd1 l1 d e live' : edit s s1 i nd nd1 l l1 d e -> node_ok (g_fat32 s) nd1 l1 -> live' ⊆ live ->
  (i ∈ live' -> slot_live e /\ slot_size e = file_size nd1 /\ (0 < file_size nd1 -> slot_start e = start_cluster nd1)) ->
  let s2 := s1 <| lock := false |> in
  unlock_fat s1 = Done tt s2 /\ FS s2 (<[Some i := l1]> C) live' /\ fdata s2 l1 = d /\ s_fat_data s2 = <[i := nd1]> (s_fat_data s)
  /\ forall j nd2 m, j ∈ live -> j <> i -> s_fat_data s !! j = Some nd2 -> C !! Some j = Some m -> fdata s2 m = fdata s m.
Proof.
  intros [S1 Eg Elk En (E1 & E2 & E3) L1 Ef Ee Eb Ed Esl] Hn Hlv Hrec. destruct edit_home as (Hd & P & _). cbv zeta. split; [done|].
  assert (S2 : sane (s1 <| lock := false |>)) by (destruct S1; by split).
  assert (L2 : file (s1 <| lock := false |>) l1) by (eapply file_frame; [..|exact L1]; done).
  split_and!; [|done|done|].
  - apply (FS_update s _ C live live' i nd nd1 l l1); try done; [by rewrite E1|]. intros Hin. unfold recorded. rewrite E2, E3.
    change (slot _ p off) with (slot s1 p off). rewrite Esl. auto.
  - intros j nd2 m Hj Hn2 Hj2 Hm. by eapply (other_data s (s1 <| lock := false |>) C live i nd l l1).
Qed.
Definition described (e : list Z) (nd1 : fat32_node) : Prop :=
  slot_live e /\ slot_size e = file_size nd1 /\ (0 < file_size nd1 -> slot_start e = start_cluster nd1).

Lemma described_start : described (slot s p off) nd.
Proof. by destruct edit_home as (_ & _ & _ & _ & Hr). Qed.
Lemma node_start : node_ok (g_fat32 s) nd l.
Proof. destruct (fs_node _ _ _ H i nd Hi) as (m & Hm & Hn). rewrite Hl in Hm. by injection Hm as <-. Qed.
Lemma size_pos : 512 <= csize s.
Proof. pose proof (sn_geo _ _ (fs_sane _ _ _ H)) as G. pose proof (geo_size _ _ G). pose proof (geo_spc _ _ G). lia. Qed.

(** The first cluster of a file. *)
Lemma alloc_first s1 : sane s1 ->
  (exists s2, fat32_alloc_cluster s1 = Done 0 s2 /\ grown s1 s2 [] [] [] /\ full s2)
  \/ exists c s2, fat32_alloc_cluster s1 = Done c s2 /\ 2 <= c < 2 ^ 32 /\ grown s1 s2 [] [c] (replicate (Z.to_nat (csize s1)) 0).
Proof.
  intros S1. pose proof (sn_geo _ _ S1) as G. pose proof (geo_size _ _ G) as Hsz. pose proof (geo_spc _ _ G) as Hspc. pose proof (geo_few _ _ G) as Hfew.
  destruct (alloc_ok s1 S1) as [(s2 & E2 & C2 & Hfull)|(c & s2 & E2 & Hv & Hz & C2)]; [left|right].
  - exists s2. split; [done|]. assert (G2 : grown s1 s2 [] [] []) by (apply (changes_grown s1 s2 []); [|done]; split; try done; set_solver).
    split; [done|]. by eapply grown_full.
  - exists c, s2. split; [done|]. pose proof Hv as Hr. unfold valid in Hr. split; [lia|]. destruct C2 as [S2 F2 HE HD]. pose proof F2 as (Eg & _).
    assert (He : entry s2 c = EOC) by (rewrite HE by done; apply put_eq).
    split; [done|done| |apply prefix_nil| | | |].
    + split; [intros x ->%list_elem_of_singleton; by rewrite Eg| |intros x ->%list_elem_of_singleton; by rewrite He].
      cbn. unfold nxt. by rewrite He.
    + intros x ->%list_elem_of_singleton _. done.
    + intros x Hx Hn. rewrite HE by done. apply put_ne. set_solver.
    + intros x Hx Hn. apply cbytes_ext; [done|]. intros y Hy. rewrite HD by done. rewrite decide_False; [done|set_solver].
    + unfold fdata. cbn. rewrite app_nil_r. apply list_eq_same_length with (Z.to_nat (csize s1)); [by rewrite length_replicate| |].
      { rewrite cbytes_length; rewrite Eg; lia. }
      intros k x y Hk Hx Hy. apply lookup_replicate in Hy as [-> _]. rewrite <- (Nat2Z.id k), cbytes_lookup in Hx by (rewrite Eg; lia).
      injection Hx as <-. rewrite HD by (done || lia). by rewrite decide_True.
Qed.

Lemma edit_first s1 nd1 d e : l = [] -> edit s s1 i nd nd1 l [] d e ->
  (exists s2, fat32_alloc_cluster s1 = Done 0 s2 /\ edit s s2 i nd nd1 l [] [] e /\ full s2)
  \/ exists c s2, fat32_alloc_cluster s1 = Done c s2 /\ 2 <= c < 2 ^ 32 /\ edit s s2 i nd nd1 l [c] (pad (csize s) []) e.
Proof.
  intros El E. destruct (alloc_first s1 (ed_sane _ _ _ _ _ _ _ _ _ E)) as [(s2 & E2 & G2 & Hf)|(c & s2 & E2 & Hc & G2)]; [left|right].
  - exists s2. split; [done|]. split; [|done]. eapply edit_grown; [exact E|exact G2|done|set_solver].
  - exists c, s2. split; [done|]. split; [done|]. rewrite (ed_geo _ _ _ _ _ _ _ _ _ E) in G2. unfold pad. cbn [length app]. rewrite Nat.sub_0_r.
    eapply edit_grown; [exact E|exact G2|done|set_solver].
Qed.

Lemma write_start_ok s1 : edit s s1 i nd nd l l (fdata s l) (slot s p off) ->
  exists b s2 nd1 l1 e, (if start_cluster nd <? 2 then
                c <- fat32_alloc_cluster;;
                set_node i (fun nd => nd <| start_cluster := c |>);;;
                if c <? 2 then ret false else update_entry_of i;;; ret true
              else ret true) s1 = Done b s2
    /\ edit s s2 i nd nd1 l l1 (pad (csize s * Z.of_nat (length l1)) (fdata s l)) e /\ described e nd1
    /\ file_size nd1 = file_size nd /\ start_cluster nd1 = default 0 (head l1) /\ l `prefix_of` l1
    /\ if b : bool then l1 <> [] /\ (l1 = l \/ length l1 = 1%nat) else full s2 /\ l1 = [].
Proof.
  intros E. pose proof node_start as (Hst & Hsz & _). pose proof size_pos as Hcs. pose proof described_start as Hde.
  destruct (decide (l = [])) as [El|El].
  - rewrite Hst, El. cbn [default head]. change (0 <? 2) with true. cbv beta iota.
    assert (E' : edit s s1 i nd nd l [] (fdata s []) (slot s p off)) by by rewrite El in E |- *.
    destruct (edit_first s1 nd _ _ El E') as [(s2 & E2 & D2 & Hf)|(c & s2 & E2 & Hc & D2)]; run E2.
    + destruct (edit_node s2 nd [] [] _ (fun nd => nd <| start_cluster := 0 |>) D2) as (s3 & E3 & D3 & Hf3); [done|]. run E3.
      exists false, s3, (nd <| start_cluster := 0 |>), [], (slot s p off). split; [done|]. split; [cbn [length Z.of_nat]; rewrite Z.mul_0_r; by rewrite El in D3|].
      split; [|split_and!; try done; by auto]. rewrite El in Hst. unfold described in *. cbn in Hst |- *. by rewrite Hst in Hde.
    + destruct (edit_node s2 nd [c] _ _ (fun nd => nd <| start_cluster := c |>) D2) as (s3 & E3 & D3 & _); [done|]. run E3.
      destruct (Z.ltb_spec c 2); [lia|]. destruct (edit_update s3 _ _ _ _ D3) as (s4 & e4 & E4 & D4 & H1 & H2 & H3 & _); [cbn; lia|cbn; lia|]. run E4.
      exists true, s4, (nd <| start_cluster := c |>), [c], e4. split; [done|]. change (fdata s []) with (@nil Z).
      replace (csize s * Z.of_nat (length [c])) with (csize s) by (cbn; lia). split; [by rewrite El in D4|]. cbn in H1, H2 |- *. split_and!; try done.
      * destruct Hde as (Hlv & _ & _). split; [unfold slot_live in *; by rewrite H3|]. by split.
      * apply prefix_nil.
      * by right.
  - assert (Hlt : 2 <= default 0 (head l)).
    { destruct l as [|c0 l0]; [done|]. pose proof (fl_valid _ _ (fs_file _ _ _ H _ _ Hl) c0) as Hv. unfold valid in Hv. cbn. apply Hv. set_solver. }
    rewrite Hst. destruct (Z.ltb_spec (default 0 (head l)) 2); [lia|].
    exists true, s1, nd, l, (slot s p off). split; [done|]. rewrite <- fdata_length, pad_id by lia. split_and!; try done. by left.
Qed.
(** The state after a call: file [i] has the node [nd'] and the contents [d'],
    the other files are as before. *)
Definition after (s' : fat) (live' : gset nat) (nd' : fat32_node) (l' d' : list Z) : Prop :=
  FS s' (<[Some i := l']> C) live' /\ s_fat_data s' = <[i := nd']> (s_fat_data s) /\ g_fat32 s' = g_fat32 s /\ fdata s' l' = d'
  /\ forall j nd2 m, j ∈ live -> j <> i -> s_fat_data s !! j = Some nd2 -> C !! Some j = Some m -> fdata s' m = fdata s m.

Lemma edit_after s1 nd1 l1 d e live' : edit s s1 i nd nd1 l l1 d e -> node_ok (g_fat32 s) nd1 l1 -> live' ⊆ live -> (i ∈ live' -> described e nd1) ->
  exists s2, unlock_fat s1 = Done tt s2 /\ after s2 live' nd1 l1 d /\ (full s1 -> full s2).
Proof.
  intros E Hn Hlv Hd. destruct (edit_done _ _ _ _ _ _ E Hn Hlv Hd) as (E1 & E2 & E3 & E4 & E5). eexists. split; [exact E1|].
  split; [|done]. split_and!; try done. apply (ed_geo _ _ _ _ _ _ _ _ _ E).
Qed.

Lemma head_prefix (l1 l2 : list Z) : l1 <> [] -> l1 `prefix_of` l2 -> head l2 = head l1.
Proof. intros Hn [k ->]. by destruct l1. Qed.

(** The last part of [fat32_write_node]. *)
Lemma write_finish_ok {A} (r : A) s1 nd1 l1 d e n : edit s s1 i nd nd1 l l1 d e -> described e nd1 -> node_ok (g_fat32 s) nd1 l1 -> is_dir nd1 = false ->
  0 <= n < 2 ^ 32 -> n <= csize s * Z.of_nat (length l1) ->
  exists s2 nd2, (s <- get;;
          (if file_size (node_at i s) <? n then
             set_node i (fun nd => nd <| file_size := n |> <| va_size := n |>);;; update_entry_of i;;; ret tt
           else ret tt);;; unlock_fat;;; ret r) s1 = Done r s2
    /\ after s2 live nd2 l1 d /\ file_size nd2 = Z.max (file_size nd1) n /\ (full s1 -> full s2).
Proof.
  intros E Hde (Hst & Hsz & Hcap) Hdir Hn Hn2. unfold bind at 1, get. rewrite (proj2 (edit_lookup _ _ _ _ _ E)).
  destruct (Z.ltb_spec (file_size nd1) n).
  - destruct (edit_node s1 nd1 l1 d e (fun nd => nd <| file_size := n |> <| va_size := n |>) E) as (s2 & E2 & D2 & F2); [done|].
    assert (Hst2 : 0 <= start_cluster nd1 < 2 ^ 32).
    { rewrite Hst. destruct l1 as [|c l1]; [done|]. pose proof (fl_valid _ _ (ed_file _ _ _ _ _ _ _ _ _ E) c ltac:(set_solver)) as Hv.
      pose proof (geo_few _ _ (sn_geo _ _ (ed_sane _ _ _ _ _ _ _ _ _ E))). unfold valid in Hv. cbn. lia. }
    destruct (edit_update s2 _ l1 d e D2) as (s3 & e3 & E3 & D3 & H1 & H2 & H3 & F3); [done|cbn; lia|].
    destruct (edit_after s3 _ l1 d e3 live D3) as (s4 & E4 & A4 & F4).
    { cbn. split; [done|]. split; [cbn; lia|]. cbn. lia. } { done. }
    { intros _. destruct Hde as (Hlv & _). split; [unfold slot_live in *; by rewrite H3|by split]. }
    exists s4, (nd1 <| file_size := n |> <| va_size := n |>). split; [unfold bind; rewrite E2; cbv beta iota; rewrite E3; cbv beta iota; unfold ret; by rewrite E4|]. split_and!; [done|cbn; lia|auto].
  - destruct (edit_after s1 nd1 l1 d e live E) as (s2 & E2 & A2 & F2); [done|done|done|]. exists s2, nd1. split; [unfold bind, ret; by rewrite E2|]. split_and!; [done|lia|done].
Qed.

Lemma write_node_ok o src junk : src <> [] -> Forall is_byte src -> Forall is_byte junk -> length junk = 4096%nat ->
  0 <= o -> o + Z.of_nat (length src) < 2 ^ 32 ->
  exists e w s' nd' l' d', fat32_write_node i o src junk s = Done (e, w) s' /\ after s' live nd' l' d'
    /\ ((e = CHIMERA_SUCCESS /\ 0 < w <= Z.of_nat (length src) /\ (w = Z.of_nat (length src) \/ full s')
         /\ o + w <= csize s * Z.of_nat (length l') /\ file_size nd' = Z.max (file_size nd) (o + w)
         /\ (length l' = length l \/ csize s * (Z.of_nat (length l') - 1) < o + w)
         /\ d' = patch o (take (Z.to_nat w) src) (pad (csize s * Z.of_nat (length l')) (fdata s l)) /\ l `prefix_of` l')
        \/ (e = CHIMERA_ERR_NORESOURCE /\ w = 0 /\ full s' /\ file_size nd' = file_size nd
            /\ d' = pad (csize s * Z.of_nat (length l')) (fdata s l) /\ l `prefix_of` l')).
Proof.
  intros Hne HS HB HJ Ho Hlen. pose proof node_start as (Hst & Hsz & Hcap). pose proof size_pos as Hcs. pose proof edit_home as (Hdir & _).
  pose proof (fdata_length s l ltac:(lia)) as HL. specialize (Hcap Hdir).
  assert (Hl0 : 0 < Z.of_nat (length src)) by (destruct src; [done|cbn; lia]).
  pose proof (write_start_ok _ edit_start) as (b & s1 & nd1 & l1 & e1 & E1 & D1 & He1 & Hs1 & Hst1 & Hp1 & Hb).
  assert (Hd1 : is_dir nd1 = false) by (rewrite (proj1 (ed_same _ _ _ _ _ _ _ _ _ D1)); done).
  pose proof (prefix_length _ _ Hp1) as Hpl1.
  assert (Hno : forall l2, l1 = l2 \/ l1 <> [] -> l1 `prefix_of` l2 -> node_ok (g_fat32 s) nd1 l2).
  { intros l2 Hl2 Hp. pose proof (prefix_length _ _ Hp). split; [|split; [lia|intros _; rewrite Hs1; nia]].
    destruct Hl2 as [<-|Hl2]; [done|]. by rewrite (head_prefix l1 l2). }
  unfold fat32_write_node. unfold bind at 1, geo. change (id (g_fat32 s)) with (g_fat32 s).
  rewrite (geo_mounted _ _ (sn_geo _ _ (fs_sane _ _ _ H))). cbn [negb orb]. destruct (Z.eqb_spec (Z.of_nat (length src)) 0); [lia|].
  unfold bind at 1, lock_fat. rewrite (fs_lock _ _ _ H). unfold bind at 1, get. rewrite (proj2 (edit_lookup _ _ _ _ _ edit_start)).
  run E1. destruct b; cbn [negb].
  2: { destruct Hb as [Hf ->]. destruct (edit_after s1 nd1 [] _ e1 live D1) as (s2 & E2 & A2 & F2); [by apply Hno; [left|]|done|done|].
       run E2. exists CHIMERA_ERR_NORESOURCE, 0, s2, nd1, [], (pad (csize s * Z.of_nat (length (@nil Z))) (fdata s l)).
       split; [done|]. split; [done|]. right. split_and!; auto. }
  destruct Hb as [Hn1 Hl1]. unfold bind at 1. rewrite (proj2 (edit_lookup _ _ _ _ _ D1)), Hst1.
  pose proof (ed_geo _ _ _ _ _ _ _ _ _ D1) as Eg1.
  assert (Hk0 : l1 !! 0%nat = Some (default 0 (head l1))) by by destruct l1.
  destruct (write_skip_ok (Z.to_nat (o / csize s)) s1 l1 0 _ (ed_sane _ _ _ _ _ _ _ _ _ D1) (ed_file _ _ _ _ _ _ _ _ _ D1) Hk0) as (r & s2 & l2 & E2 & G2 & Hr).
  run E2. pose proof (prefix_length _ _ (gr_prefix _ _ _ _ _ G2)) as Hpl2. rewrite (ed_data _ _ _ _ _ _ _ _ _ D1), Eg1, pad_pad in G2 by nia.
  assert (D2 : edit s s2 i nd nd1 l l2 (pad (csize s * Z.of_nat (length l2)) (fdata s l)) e1) by (eapply edit_grown; [exact D1|exact G2|done|by right]).
  pose proof (ed_geo _ _ _ _ _ _ _ _ _ D2) as Eg2. pose proof (gr_prefix _ _ _ _ _ G2) as Hp2.
  destruct r as [c'|].
  2: { destruct Hr as [Hf _]. destruct (edit_after s2 nd1 l2 _ e1 live D2) as (s3 & E3 & A3 & F3); [by apply Hno; [right|]|done|done|].
       run E3. eexists CHIMERA_ERR_NORESOURCE, 0, s3, nd1, l2, _. split; [done|]. split; [exact A3|]. right. split_and!; auto. by etrans. }
  destruct Hr as [Hk Hl2]. cbn [Nat.add] in Hk, Hl2. pose proof (Z.div_mod o (csize s) ltac:(lia)) as Hdm.
  pose proof (Z.mod_pos_bound o (csize s) ltac:(lia)) as Hmb. assert (0 <= o / csize s) by (apply Z.div_pos; lia).
  destruct (write_loop_ok (Datatypes.S (length src)) s2 l2 _ c' (o mod csize s) 0 src junk (ed_sane _ _ _ _ _ _ _ _ _ D2) (ed_file _ _ _ _ _ _ _ _ _ D2) Hk
    ltac:(by rewrite Eg2) HS HB HJ ltac:(lia) Hne) as (w & s3 & l3 & E3 & Hw & Hwf & Hpos & Hex & G3).
  rewrite Eg2, Z2Nat.id in Hpos, Hex, G3 by done. rewrite <- Hdm in Hpos, Hex, G3. rewrite (ed_data _ _ _ _ _ _ _ _ _ D2) in G3.
  pose proof (gr_prefix _ _ _ _ _ G3) as Hp3. pose proof (prefix_length _ _ Hp3) as Hpl3. rewrite pad_pad in G3 by nia.
  assert (D3 : edit s s3 i nd nd1 l l3 (patch o (take (Z.to_nat w) src) (pad (csize s * Z.of_nat (length l3)) (fdata s l))) e1)
    by (eapply edit_grown; [exact D2|exact G3|done|by right]).
  run E3. rewrite Z.add_0_l, u32_id by lia.
  destruct (write_finish_ok (CHIMERA_SUCCESS, w) s3 nd1 l3 _ e1 (o + w) D3 He1) as (s4 & nd4 & E4 & A4 & Hsz4 & F4);
    [apply Hno; [by right|by etrans]|done|lia|done|].
  exists CHIMERA_SUCCESS, w, s4, nd4, l3, (patch o (take (Z.to_nat w) src) (pad (csize s * Z.of_nat (length l3)) (fdata s l))).
  split; [exact E4|]. split; [exact A4|]. left. rewrite Hs1 in Hsz4. split_and!; try done; try lia; [destruct Hwf; auto| |by do 2 (etrans; [done|])]. destruct Hex as [Hex|Hex]; [|by right].
  destruct Hl1 as [->|Hl1]; [|right; nia]. destruct (decide (length l2 = length l)); [left; lia|right]. nia.
Qed.
(** ** Reading *)

Lemma read_keeps s' : grown s s' l l (fdata s l) ->
  FS s' C live /\ s_fat_data s' = s_fat_data s /\ g_fat32 s' = g_fat32 s /\ forall j nd2 m, j ∈ live -> s_fat_data s !! j = Some nd2 -> C !! Some j = Some m -> fdata s' m = fdata s m.
Proof.
  intros [S' F L' _ _ HE HD HB]. destruct edit_home as (Hdir & P & Hp & He & Hr). pose proof F as (Eg & _ & Flk & Fn).
  assert (Hb : forall c x, valid (g_fat32 s) c -> c ∉ l -> 0 <= x < csize s -> dbyte s' c x = dbyte s c x) by (intros; apply cbytes_dbyte; auto).
  assert (Hnodes : s_fat_data s' = <[i := nd]> (s_fat_data s)) by (rewrite list_insert_id by done; done).
  assert (Hrec : recorded s' nd).
  { unfold recorded in *. rewrite (slot_ext s s' p p off off); [done|]. intros x Hx. apply Hb; [apply P|done|].
    destruct P as [_ Pr Pa]. pose proof (geo_size _ _ (sn_geo _ _ (fs_sane _ _ _ H))). pose proof (Z.div_mod off 32 ltac:(done)). lia. }
  split; [|split; [done|split; [done|]]].
  - rewrite <- (insert_id C (Some i) l) by done. apply (FS_update s s' C live live i nd nd l l); auto; try done.
    + rewrite Flk. apply (fs_lock _ _ _ H).
    + apply node_start.
  - intros j nd2 m Hj Hj2 Hm. destruct (decide (j = i)) as [->|Hn]; [rewrite Hl in Hm; by injection Hm as <-|].
    apply (other_data s s' C live i nd l l H Hi Hil) with j nd2; auto; done.
Qed.

Lemma read_file_ok o len : 0 <= o -> 0 <= len -> o + len < 2 ^ 32 ->
  exists s', fat32_read_file (start_cluster nd) (file_size nd) o len s
    = Done (CHIMERA_SUCCESS, take (Z.to_nat (Z.min len (file_size nd - o))) (drop (Z.to_nat o) (fdata s l))) s'
    /\ grown s s' l l (fdata s l).
Proof.
  intros Ho Hlen Hsum. pose proof node_start as (Hst & Hsz & Hcap). pose proof size_pos as Hcs. pose proof edit_home as (Hdir & _). specialize (Hcap Hdir).
  pose proof (fs_sane _ _ _ H) as S. pose proof (fs_file _ _ _ H _ _ Hl) as L. pose proof (fs_lock _ _ _ H) as Hlk.
  unfold fat32_read_file. unfold bind at 1, geo. change (id (g_fat32 s)) with (g_fat32 s). rewrite (geo_mounted _ _ (sn_geo _ _ S)). cbn [negb orb].
  destruct ((start_cluster nd <? 2) || (file_size nd <=? o) || (len =? 0)) eqn:Eb.
  - exists s. split; [|by apply changes_grown, changes_refl]. replace (Z.to_nat (Z.min len (file_size nd - o))) with 0%nat; [by rewrite take_0|].
    apply orb_true_iff in Eb as [Eb|Eb]; [apply orb_true_iff in Eb as [Eb|Eb]|]; [|lia|lia].
    assert (l = []) as El; [|rewrite El in Hcap; cbn in Hcap; lia]. destruct l as [|c l0]; [done|].
    pose proof (fl_valid _ _ L c ltac:(set_solver)) as Hv. unfold valid in Hv. cbn in Hst. lia.
  - apply orb_false_iff in Eb as [Eb E3]. apply orb_false_iff in Eb as [E1 E2].
    assert (Ht : (if file_size nd <? u32 (o + len) then file_size nd - o else len) = Z.min len (file_size nd - o))
      by (rewrite u32_id by lia; case_match; lia). rewrite Ht. set (todo := Z.min len (file_size nd - o)).
    pose proof (Z.div_mod o (csize s) ltac:(lia)) as Hdm. pose proof (Z.mod_pos_bound o (csize s) ltac:(lia)) as Hmb.
    assert (0 <= o / csize s) by (apply Z.div_pos; lia).
    assert (Hk0 : l !! 0%nat = Some (start_cluster nd)) by (rewrite Hst; destruct l; [cbn in Hst; lia|done]).
    destruct (lookup_lt_is_Some_2 l (Z.to_nat (o / csize s))) as [c Hc]; [apply Nat2Z.inj_lt; rewrite Z2Nat.id by done; nia|].
    destruct (read_skip_ok (Z.to_nat (o / csize s)) s l 0 _ c S Hlk L Hk0 Hc) as (s1 & R1 & G1). run R1.
    pose proof (gr_frame _ _ _ _ _ G1) as (Eg & _ & Flk & _).
    destruct (read_loop_ok (Datatypes.S (Z.to_nat todo)) s1 l (Z.to_nat (o / csize s)) c (o mod csize s) todo []) as (s2 & R2 & G2);
      rewrite ?Eg, ?Z2Nat.id by done; [apply G1|congruence|apply G1|done|lia|lia|lia|lia|].
    run R2. exists s2. rewrite (gr_bytes _ _ _ _ _ G1) in *. rewrite Eg, Z2Nat.id, <- Hdm by done. split; [done|]. by eapply chain_grown_trans.
Qed.
(** ** Giving clusters back *)

Lemma edit_free fuel s1 nd1 l1 d e : edit s s1 i nd nd1 l l1 d e -> (forall c, c ∈ l1 -> c ∈ l) -> (length l1 <= fuel)%nat ->
  exists s2, fat32_free_cluster_chain_unlocked fuel (default 0 (head l1)) s1 = Done tt s2 /\ edit s s2 i nd nd1 l [] [] e
    /\ forall c, valid (g_fat32 s) c -> entry s2 c = if decide (c ∈ l1) then 0 else entry s1 c.
Proof.
  intros E Hsub Hf. pose proof (ed_file _ _ _ _ _ _ _ _ _ E) as L1. pose proof (ed_sane _ _ _ _ _ _ _ _ _ E) as S1.
  destruct (free_ok fuel s1 l1 (default 0 (head l1)) S1) as (s2 & E2 & C2); [apply L1| |done|].
  { destruct l1 as [|c l1]; [done|]. cbn. rewrite (valid_cluster _ _ (sn_geo _ _ S1) c); [apply L1|apply (fl_valid _ _ L1); set_solver]. }
  exists s2. split; [done|]. destruct C2 as [S2 F2 HE HD]. rewrite (ed_geo _ _ _ _ _ _ _ _ _ E) in *. split; [|done].
  eapply edit_step; [exact E|done|done| |set_solver|auto| | |done].
  - split; [set_solver|done|set_solver].
  - intros c Hv Hn _. rewrite (ed_geo _ _ _ _ _ _ _ _ _ E) in Hv. rewrite HE by done. by rewrite decide_False.
  - intros c x Hv Hn _ Hx. rewrite (ed_geo _ _ _ _ _ _ _ _ _ E) in Hv, Hx. by apply HD.
Qed.

(** The chain is cut behind its first [k] clusters. *)
Lemma edit_cut fuel k s1 nd1 l1 d e c : edit s s1 i nd nd1 l l1 d e -> (forall c, c ∈ l1 -> c ∈ l) -> (length l1 <= fuel)%nat -> l1 !! k = Some c ->
  exists s2, (tail <- fat32_get_next_cluster_unlocked c;;
              fat32_set_fat_entry c EOC;;;
              if is_cluster tail then fat32_free_cluster_chain_unlocked fuel tail else ret tt) s1 = Done tt s2
    /\ edit s s2 i nd nd1 l (take (S k) l1) (take (Z.to_nat (csize s * Z.of_nat (S k))) d) e.
Proof.
  intros E Hsub Hf Hk. pose proof (ed_file _ _ _ _ _ _ _ _ _ E) as L1. pose proof (ed_sane _ _ _ _ _ _ _ _ _ E) as S1.
  pose proof (ed_geo _ _ _ _ _ _ _ _ _ E) as Eg. pose proof (file_NoDup _ _ L1) as Hnd. pose proof (lookup_lt_Some _ _ _ Hk) as Hlt.
  pose proof (fl_valid _ _ L1 c (list_elem_of_lookup_2 _ _ _ Hk)) as Hv. pose proof size_pos as Hcs.
  pose proof (file_linked s1 l1 k c L1 Hk) as [Hlv Hlu Hls _]. pose proof (take_S_r _ _ _ Hk) as Et.
  set (a := take (Datatypes.S k) l1) in *. set (t := drop (Datatypes.S k) l1).
  assert (Hl1 : l1 = a ++ t) by (unfold a, t; by rewrite take_drop). rewrite Hl1 in Hnd. apply NoDup_app in Hnd as (Hna & Hdis & _).
  assert (Hat : c ∈ a) by (rewrite Et; set_solver).
  assert (Ht : chain (nxt s1) (nxt s1 c) t).
  { pose proof (fl_chain _ _ L1) as Hc. rewrite Hl1 in Hc at 2. rewrite Et, <- app_assoc in Hc. apply lseg_app in Hc as (m & _ & [_ Hc]). exact Hc. }
  destruct (get_next_ok s1 c S1 Hv) as (s2 & E2 & C2). run E2. pose proof (ch_frame _ _ _ _ C2) as F2. pose proof F2 as (Eg2 & _).
  destruct (set_entry_ok s2 c EOC None (ch_sane _ _ _ _ C2)) as (s3 & E3 & C3); [by rewrite Eg2|by left|]. run E3.
  change (Z.land EOC 0x0FFFFFFF) with EOC in C3. pose proof (ch_frame _ _ _ _ C3) as F3. pose proof F3 as (Eg3 & _).
  assert (CC : changes s1 s3 (put c EOC (entry s1)) (dbyte s1)).
  { eapply changes_trans; [exact C2|exact C3| |done]. intros x Hx HE. unfold put. case_decide; [done|]. by apply HE. }
  assert (Hfree : exists s4, (if is_cluster (entry s1 c) then fat32_free_cluster_chain_unlocked fuel (entry s1 c) else ret tt) s3 = Done tt s4
    /\ changes s3 s4 (fun x => if decide (x ∈ t) then 0 else entry s3 x) (dbyte s3)).
  { unfold nxt in Ht. destruct (is_cluster (entry s1 c)) eqn:Ec.
    - apply free_ok; [apply CC| | |unfold t; rewrite length_drop; lia].
      + intros x Hx. rewrite Eg3, Eg2. apply (fl_valid _ _ L1). rewrite Hl1. set_solver.
      + rewrite Ec. eapply lseg_frame; [|exact Ht]. intros x Hx. unfold nxt. rewrite (ch_entry _ _ _ _ CC); [|apply (fl_valid _ _ L1); rewrite Hl1; set_solver].
        rewrite put_ne; [done|]. intros ->. by apply (Hdis c).
    - destruct t; [|by destruct Ht]. exists s3. split; [done|]. split; [apply CC|done| |done]. intros x _. by rewrite decide_False by set_solver. }
  destruct Hfree as (s4 & E4 & C4). exists s4. split; [done|].
  assert (C' : changes s1 s4 (fun x => if decide (x ∈ t) then 0 else put c EOC (entry s1) x) (dbyte s1)).
  { eapply changes_trans; [exact CC|exact C4| |done]. intros x Hx HE. cbn beta. case_decide; [done|]. by apply HE. }
  destruct C' as [S4 F4 HE HD]. pose proof F4 as (Eg4 & _).
  assert (HEa : forall x, x ∈ a -> entry s4 x = put c EOC (entry s1) x).
  { intros x Hx. rewrite HE by (apply (fl_valid _ _ L1); rewrite Hl1; set_solver). rewrite decide_False; [done|]. by apply Hdis. }
  eapply edit_step; [exact E|done|done| | | | | |].
  - split.
    + intros x Hx. rewrite Eg4. apply Hlv. by rewrite <- Et.
    + rewrite Et. apply lseg_snoc. split.
      * rewrite Et in Hna. apply NoDup_app in Hna as (_ & Hd2 & _). eapply lseg_frame; [|exact Hls]. intros x Hx. unfold nxt.
        rewrite HEa by (rewrite Et; set_solver). rewrite put_ne; [done|]. intros ->. apply (Hd2 c Hx). set_solver.
      * unfold nxt. by rewrite HEa, put_eq by done.
    + intros x Hx. rewrite HEa by done. unfold put. case_decide; [done|]. apply Hlu. by rewrite <- Et.
  - intros x Hx Hn. exfalso. apply Hn. rewrite Hl1. set_solver.
  - intros x Hx. left. auto.
  - intros x Hx Hn Hn2. rewrite HE by done. rewrite Hl1 in Hn. rewrite decide_False by set_solver. apply put_ne. set_solver.
  - intros x y Hx _ _ Hy. by apply HD.
  - rewrite <- (ed_data _ _ _ _ _ _ _ _ _ E). rewrite Hl1 at 1. rewrite fdata_app, take_app_length'.
    + apply fdata_ext. intros x Hx. apply cbytes_ext; [done|]. intros y Hy. apply HD; [|done]. apply (fl_valid _ _ L1). rewrite Hl1. set_solver.
    + apply Nat2Z.inj. rewrite fdata_length by (rewrite Eg; lia). unfold a. rewrite Eg, length_take, Nat.min_l by lia. lia.
Qed.
(** ** Resizing *)

Definition zeros (d : list Z) : Prop := Forall (fun b => b = 0) d.
Lemma zeros_pad n d : zeros d -> zeros (pad n d).
Proof. intros Hd. apply Forall_app. split; [done|]. by apply Forall_replicate. Qed.
Lemma zeros_lookup d x : zeros d -> 0 <= x < Z.of_nat (length d) -> d !! Z.to_nat x = Some 0.
Proof.
  intros Hd Hx. destruct (lookup_lt_is_Some_2 d (Z.to_nat x)) as [b Hb]; [lia|]. rewrite Hb. f_equal.
  by apply (proj1 (Forall_lookup _ _) Hd (Z.to_nat x)).
Qed.
Lemma pad_beyond n d x : Z.of_nat (length d) <= x < n -> pad n d !! Z.to_nat x = Some 0.
Proof. intros Hx. unfold pad. rewrite lookup_app_r by lia. apply lookup_replicate. split; [done|lia]. Qed.
Lemma take_pad k n d : (k <= length d)%nat -> take k (pad n d) = take k d.
Proof. intros Hk. unfold pad. by rewrite take_app_le. Qed.

Lemma clusters_for_ok x : 0 <= x < 2 ^ 32 -> let k := clusters_for (g_fat32 s) x in
  0 <= k /\ x <= csize s * k /\ (0 < x -> csize s * (k - 1) < x) /\ (x = 0 -> k = 0).
Proof.
  intros Hx. cbv zeta. pose proof size_pos as Hcs. pose proof (sn_geo _ _ (fs_sane _ _ _ H)) as G. pose proof (geo_size _ _ G). pose proof (geo_spc _ _ G).
  unfold clusters_for. rewrite (u64_id (x + csize s)), (u64_id (x + csize s - 1)) by lia.
  pose proof (Z.div_mod (x + csize s - 1) (csize s) ltac:(lia)) as Hdm. pose proof (Z.mod_pos_bound (x + csize s - 1) (csize s) ltac:(lia)) as Hmb.
  set (k := (x + csize s - 1) / csize s) in *. assert (0 <= k) by (apply Z.div_pos; lia). rewrite u32_id by nia. split_and!; nia.
Qed.

Section Resize.
Context (n : Z) (Hn : 0 <= n < 2 ^ 32) (Hzero : file_size nd = 0 -> zeros (fdata s l)).
Notation size := (file_size nd).
Notation old := (clusters_for (g_fat32 s) size).
Notation needed := (clusters_for (g_fat32 s) n).
Notation e0 := (slot s p off).

Lemma old_length : old <= Z.of_nat (length l).
Proof.
  pose proof node_start as (_ & Hsz & Hcap). pose proof edit_home as (Hdir & _). specialize (Hcap Hdir). pose proof size_pos.
  destruct (clusters_for_ok size Hsz) as (H1 & H2 & H3 & H4). destruct (decide (size = 0)) as [E|E]; [rewrite H4 by done; lia|].
  specialize (H3 ltac:(lia)). nia.
Qed.

Lemma resize_start_ok s1 : edit s s1 i nd nd l l (fdata s l) e0 ->
  exists b s2 nd1 l1, (if (0 <? needed) && (start_cluster nd <? 2) then
                c <- fat32_alloc_cluster;;
                if c <? 2 then ret false else set_node i (fun nd => nd <| start_cluster := c |>);;; ret true
              else ret true) s1 = Done b s2
    /\ edit s s2 i nd nd1 l l1 (pad (csize s * Z.of_nat (length l1)) (fdata s l)) e0
    /\ file_size nd1 = size /\ start_cluster nd1 = default 0 (head l1) /\ l `prefix_of` l1 /\ (l1 = l \/ length l1 = 1%nat)
    /\ if b : bool then (0 < needed -> l1 <> []) else full s2 /\ l = [] /\ 0 < needed.
Proof.
  intros E. pose proof node_start as (Hst & Hsz & Hcap). pose proof size_pos as Hcs.
  assert (E1 : edit s s1 i nd nd l l (pad (csize s * Z.of_nat (length l)) (fdata s l)) e0) by by rewrite <- fdata_length, pad_id by lia.
  assert (Hpos : l <> [] -> 2 <= start_cluster nd).
  { intros Hne. rewrite Hst. destruct l as [|c0 l0]; [done|]. pose proof (fl_valid _ _ (fs_file _ _ _ H _ _ Hl) c0) as Hv. unfold valid in Hv. cbn. apply Hv. set_solver. }
  destruct (Z.ltb_spec 0 needed) as [Hnd|Hnd]; cbn [andb]; [destruct (Z.ltb_spec (start_cluster nd) 2) as [Hlt|Hlt]|].
  2: { exists true, s1, nd, l. split; [done|]. split_and!; try done; [by left|]. intros _ El. rewrite El in Hst. cbn in Hst. lia. }
  2: { exists true, s1, nd, l. split; [done|]. split_and!; try done; [by left|]. intros ?. lia. }
  assert (El : l = []) by (destruct (decide (l = [])); [done|]; specialize (Hpos ltac:(done)); lia).
  assert (E' : edit s s1 i nd nd l [] (fdata s []) e0) by (rewrite El in E |- *; exact E).
  destruct (edit_first s1 nd _ _ El E') as [(s2 & E2 & D2 & Hf)|(c & s2 & E2 & Hc & D2)]; run E2.
  - exists false, s2, nd, l. split; [done|]. rewrite <- fdata_length, pad_id by lia. split_and!; try done; [|by left].
    rewrite El in D2 |- *. exact D2.
  - destruct (Z.ltb_spec c 2); [lia|]. destruct (edit_node s2 nd [c] _ _ (fun nd => nd <| start_cluster := c |>) D2) as (s3 & E3 & D3 & _); [done|]. run E3.
    exists true, s3, (nd <| start_cluster := c |>), [c]. split; [done|]. rewrite El. change (fdata s []) with (@nil Z).
    replace (csize s * Z.of_nat (length [c])) with (csize s) by (cbn; lia). rewrite El in D3. split_and!; try done; [apply prefix_nil|by right].
Qed.

(** After the chain has grown, the old bytes are there and what lies behind
    the old clusters is zero. *)
Definition kept (d2 : list Z) : Prop := take (Z.to_nat size) d2 = take (Z.to_nat size) (fdata s l) /\ (size = 0 -> zeros d2).

Lemma kept_pad k : kept (pad k (fdata s l)).
Proof.
  pose proof node_start as (_ & Hsz & Hcap). pose proof edit_home as (Hdir & _). specialize (Hcap Hdir). pose proof size_pos.
  pose proof (fdata_length s l ltac:(lia)). split; [apply take_pad; lia|]. intros. apply zeros_pad. auto.
Qed.
Lemma kept_cut d m k : kept d -> size <= m <= Z.of_nat (length d) -> kept (pad k (take (Z.to_nat m) d)).
Proof.
  intros [K1 K2] Hm. split.
  - rewrite take_pad by (rewrite length_take; lia). rewrite take_take, Nat.min_l by lia. done.
  - intros Hs. apply zeros_pad, Forall_take. by apply K2.
Qed.
Lemma scale a b : a <= b -> csize s * a <= csize s * b.
Proof. intros Hab. pose proof size_pos. apply Z.mul_le_mono_nonneg_l; lia. Qed.

(** New clusters behind the [old] ones, of which an empty file has at most
    one. *)
Lemma resize_link_ok s1 nd1 l1 d1 j c : edit s s1 i nd nd1 l l1 d1 e0 -> kept d1 -> l1 !! j = Some c -> Z.of_nat j = Z.max 0 (old - 1) ->
  (l1 = l \/ length l1 = 1%nat) -> Z.of_nat j + 1 < needed ->
  exists err s2 l2 d2, chain_grow (Z.to_nat (needed - (1 + Z.of_nat j))) c s1 = Done err s2 /\ edit s s2 i nd nd1 l l2 d2 e0 /\ head l2 = head l1
    /\ kept d2 /\ Z.of_nat j + 1 <= Z.of_nat (length l2)
    /\ ((err = CHIMERA_SUCCESS /\ Z.of_nat (length l2) = needed /\ (forall x, csize s * old <= x < n -> d2 !! Z.to_nat x = Some 0))
        \/ (err = CHIMERA_ERR_NORESOURCE /\ full s2)).
Proof.
  intros E Hk1 Hj Hjz H1l Hneed. pose proof size_pos as Hcs. pose proof node_start as (_ & Hsz & _).
  pose proof (ed_geo _ _ _ _ _ _ _ _ _ E) as Eg. pose proof (ed_file _ _ _ _ _ _ _ _ _ E) as L1. pose proof (lookup_lt_Some _ _ _ Hj) as Hlt.
  destruct (clusters_for_ok size Hsz) as (O1 & O2 & _ & O4). destruct (clusters_for_ok n Hn) as (_ & N2 & _).
  destruct (chain_grow_cut (Z.to_nat (needed - (1 + Z.of_nat j))) s1 (take j l1) c (ed_sane _ _ _ _ _ _ _ _ _ E) (file_linked s1 l1 j c L1 Hj) ltac:(lia))
    as [(s3 & E3 & C3 & Hf)|(err & s3 & l3 & E3 & G3 & He)].
  { pose proof (changes_grown _ _ _ L1 C3) as G3. rewrite (ed_data _ _ _ _ _ _ _ _ _ E) in G3.
    exists CHIMERA_ERR_NORESOURCE, s3, l1, d1. split; [done|]. split; [eapply edit_grown; [exact E|exact G3|done|by right]|].
    split; [done|]. split; [done|]. split; [lia|]. by right. }
  rewrite <- (take_S_r _ _ _ Hj), Eg in G3. set (m := csize s * (Z.of_nat j + 1)).
  assert (Ha : fdata s1 (take (Datatypes.S j) l1) = take (Z.to_nat m) d1).
  { rewrite <- (ed_data _ _ _ _ _ _ _ _ _ E). rewrite <- (take_drop (Datatypes.S j) l1) at 2. rewrite fdata_app, take_app_length'; [done|].
    apply Nat2Z.inj. rewrite fdata_length by (rewrite Eg; lia). rewrite Eg, length_take, Nat.min_l by lia. unfold m. lia. }
  assert (Hd1 : Z.of_nat (length d1) = csize s * Z.of_nat (length l1)) by (rewrite <- (ed_data _ _ _ _ _ _ _ _ _ E), fdata_length; rewrite Eg; lia).
  assert (Hm : size <= m <= Z.of_nat (length d1)).
  { rewrite Hd1. unfold m. pose proof (scale old (Z.of_nat j + 1) ltac:(lia)). pose proof (scale (Z.of_nat j + 1) (Z.of_nat (length l1)) ltac:(lia)). lia. }
  rewrite Ha in G3. pose proof (kept_cut d1 m (csize s * Z.of_nat (length l3)) Hk1 Hm) as Hk3.
  pose proof (prefix_length _ _ (gr_prefix _ _ _ _ _ G3)) as Hp3. rewrite length_take, Nat.min_l in Hp3 by lia.
  eexists err, s3, l3, _. split; [done|]. split.
  { eapply edit_grown; [exact E|exact G3|intros x Hx; by eapply subseteq_take|]. intros x Hx.
    destruct H1l as [->|H1l]; [by left|right]. by rewrite firstn_all2 by lia. }
  split. { rewrite (head_prefix (take (Datatypes.S j) l1) l3); [by destruct l1|by destruct l1|apply G3]. }
  split; [done|]. split; [lia|]. destruct He as [[-> Hlen]|He]; [left|by right].
  rewrite length_take, Nat.min_l in Hlen by lia. assert (Hl3 : Z.of_nat (length l3) = needed) by lia. split_and!; [done|done|]. intros x Hx.
  assert (Hlen2 : Z.of_nat (length (take (Z.to_nat m) d1)) = m) by (rewrite length_take; lia).
  pose proof (scale (Z.of_nat j + 1) (Z.of_nat (length l3)) ltac:(lia)) as Hmm. fold m in Hmm. rewrite Hl3 in *.
  destruct (decide (size = 0)) as [Hs0|Hs0]; [apply zeros_lookup; [by apply Hk3|rewrite pad_length; lia]|]. apply pad_beyond. rewrite Hlen2.
  replace m with (csize s * old); [lia|]. unfold m. f_equal. destruct (decide (old = 0)) as [E0|]; [rewrite E0 in O2; lia|lia].
Qed.

Lemma resize_grow_ok s1 nd1 l1 : edit s s1 i nd nd1 l l1 (pad (csize s * Z.of_nat (length l1)) (fdata s l)) e0 -> l `prefix_of` l1 ->
  (l1 = l \/ length l1 = 1%nat) -> (0 < needed -> l1 <> []) ->
  exists err s2 l2 d2, resize_grow (default 0 (head l1)) old needed s1 = Done err s2 /\ edit s s2 i nd nd1 l l2 d2 e0 /\ head l2 = head l1 /\ kept d2
    /\ old <= Z.of_nat (length l2)
    /\ ((err = CHIMERA_SUCCESS /\ needed <= Z.of_nat (length l2)
         /\ (forall x, csize s * old <= x < n -> d2 !! Z.to_nat x = Some 0) /\ (old < needed \/ l2 = l1))
        \/ (err = CHIMERA_ERR_NORESOURCE /\ full s2 /\ size < n)).
Proof.
  intros E Hp H1l Hne. pose proof node_start as (_ & Hsz & _). pose proof size_pos as Hcs. pose proof old_length as Hold. pose proof (prefix_length _ _ Hp) as Hpl.
  destruct (clusters_for_ok size Hsz) as (O1 & O2 & O3 & O4). destruct (clusters_for_ok n Hn) as (N1 & N2 & N3 & N4).
  pose proof (ed_file _ _ _ _ _ _ _ _ _ E) as L1. pose proof (ed_sane _ _ _ _ _ _ _ _ _ E) as S1. pose proof (kept_pad (csize s * Z.of_nat (length l1))) as Hk.
  unfold resize_grow. destruct (Z.ltb_spec old needed) as [Hgr|Hgr]; cbn [andb].
  2: { eexists CHIMERA_SUCCESS, s1, l1, _. split; [done|]. split; [exact E|]. split; [done|]. split; [done|]. split; [lia|]. left.
       split_and!; [done|lia| |by right]. intros x Hx. pose proof (scale needed old Hgr). lia. }
  specialize (Hne ltac:(lia)). assert (Hk0 : l1 !! 0%nat = Some (default 0 (head l1))) by by destruct l1. pose proof (lookup_lt_Some _ _ _ Hk0) as Hlt.
  assert (H2 : 2 <= default 0 (head l1)). { pose proof (fl_valid _ _ L1 _ (list_elem_of_lookup_2 _ _ _ Hk0)) as Hv. unfold valid in Hv. lia. }
  destruct (Z.leb_spec 2 (default 0 (head l1))); [|lia].
  destruct (chain_walk_ok (Z.to_nat (old - 1)) s1 l1 0 _ 1 S1 L1 Hk0) as (c & s2 & Hj & E2 & C2). run E2. cbn [Nat.add] in *.
  set (j := Nat.min (Z.to_nat (old - 1)) (length l1 - 1)) in *. assert (Hjz : Z.of_nat j = Z.max 0 (old - 1)) by (unfold j; lia).
  rewrite Nat.sub_0_r. pose proof (changes_grown _ _ _ L1 C2) as G2. rewrite (ed_data _ _ _ _ _ _ _ _ _ E) in G2.
  assert (D2 := edit_grown _ _ _ _ _ _ _ _ _ E G2 (fun _ Hx => Hx) (fun _ Hx => or_intror Hx)).
  assert (Hsn : size < n). { destruct (decide (size = 0)); [destruct (decide (n = 0)); [lia|lia]|]. pose proof (scale old (needed - 1) ltac:(lia)).
    destruct (decide (n = 0)); lia. }
  destruct (decide (Z.of_nat j + 1 < needed)) as [Hz|Hz].
  - destruct (resize_link_ok s2 nd1 l1 _ j c D2 Hk Hj Hjz H1l Hz) as (err & s3 & l3 & d3 & -> & D3 & Hh & Hk3 & Hl3 & He).
    exists err, s3, l3, d3. split; [done|]. split; [done|]. split; [done|]. split; [done|]. split; [lia|].
    destruct He as [(-> & He1 & He2)|[-> Hf]]; [left|by right]. split_and!; [done|lia|done|by left].
  - replace (needed - (1 + Z.of_nat j)) with 0 by lia. cbn [Z.to_nat chain_grow]. eexists CHIMERA_SUCCESS, s2, l1, _. split; [done|]. split; [exact D2|].
    split; [done|]. split; [done|]. split; [lia|]. left. split_and!; [done|lia| |by left]. intros x Hx. apply zeros_lookup.
    + apply Hk. destruct (decide (size = 0)); [done|]. specialize (O3 ltac:(lia)). destruct (decide (old = 0)) as [E0|]; [rewrite E0 in O2|]; lia.
    + rewrite pad_length; pose proof (fdata_length s l ltac:(lia)); pose proof (scale (Z.of_nat (length l)) (Z.of_nat (length l1)) ltac:(lia));
        pose proof (scale needed (Z.of_nat (length l1)) ltac:(lia)); lia.
Qed.
(** The rest of the last old cluster is zeroed. *)
Lemma zero_rest_ok s1 nd1 l1 d e k c o : edit s s1 i nd nd1 l l1 d e -> l1 !! k = Some c -> 0 <= o < csize s ->
  exists s2, fat32_zero_cluster_tail c o s1 = Done CHIMERA_SUCCESS s2
    /\ edit s s2 i nd nd1 l l1 (patch (csize s * Z.of_nat k + o) (replicate (Z.to_nat (csize s - o)) 0) d) e.
Proof.
  intros E Hk Ho. pose proof size_pos as Hcs. pose proof (ed_geo _ _ _ _ _ _ _ _ _ E) as Eg. pose proof (ed_file _ _ _ _ _ _ _ _ _ E) as L1.
  pose proof (ed_sane _ _ _ _ _ _ _ _ _ E) as S1. pose proof (fl_valid _ _ L1 c (list_elem_of_lookup_2 _ _ _ Hk)) as Hv.
  pose proof (geo_spc _ _ (sn_geo _ _ S1)) as Hspc. assert (0 <= o / 512) by (apply Z.div_pos; lia).
  destruct (zero_tail_ok (Z.to_nat (sectors_per_cluster (g_fat32 s1))) s1 c o S1 Hv ltac:(lia) ltac:(lia)) as (s2 & E2 & [S2 F2 HE HD]).
  pose proof F2 as (Eg2 & _). exists s2. split; [unfold fat32_zero_cluster_tail, bind, geo; exact E2|].
  assert (HC : forall x, x ∈ l1 -> x <> c -> cbytes s2 x = cbytes s1 x).
  { intros x Hx Hxc. apply cbytes_ext; [done|]. intros y Hy. rewrite HD; [|by apply (fl_valid _ _ L1)|done]. by rewrite decide_False by tauto. }
  assert (HCc : cbytes s2 c = patch o (replicate (Z.to_nat (csize s - o)) 0) (cbytes s1 c)).
  { assert (Hc1 : length (cbytes s1 c) = Z.to_nat (csize s)) by (rewrite cbytes_length; rewrite Eg; lia).
    apply list_eq_same_length with (Z.to_nat (csize s)).
    { rewrite patch_length; rewrite ?length_replicate; lia. } { rewrite cbytes_length; rewrite Eg2, Eg; lia. }
    intros y a b Hy Ha Hb. rewrite <- (Nat2Z.id y), cbytes_lookup in Ha by (rewrite Eg2, Eg; lia). injection Ha as <-.
    rewrite HD; [|exact Hv|rewrite Eg; lia]. rewrite <- (Nat2Z.id y), patch_lookup in Hb by (rewrite ?length_replicate; lia). rewrite length_replicate in Hb.
    case_decide as D1; case_decide as D2; try lia.
    - by apply lookup_replicate in Hb as [-> _].
    - rewrite cbytes_lookup in Hb by (rewrite Eg; lia). congruence. }
  eapply edit_step; [exact E|done|done| |tauto|by right| | |].
  - eapply file_frame; [done| |done]. intros x Hx. apply HE. by apply (fl_valid _ _ L1).
  - intros x Hx _ _. by apply HE.
  - intros x y Hx Hxl _ Hy. rewrite HD by done. rewrite decide_False; [done|]. intros [-> _]. apply Hxl. by eapply list_elem_of_lookup_2.
  - rewrite <- (ed_data _ _ _ _ _ _ _ _ _ E), <- Eg. apply (fdata_patch s1 s2 l1 k c);
      [rewrite Eg; lia|by eapply file_NoDup|done|done|by rewrite Eg|lia|rewrite length_replicate, Eg; lia].
Qed.

Lemma resize_zero_ok s1 nd1 l1 d : edit s s1 i nd nd1 l l1 d e0 -> kept d -> old <= Z.of_nat (length l1) ->
  (forall x, csize s * old <= x < n -> d !! Z.to_nat x = Some 0) ->
  exists s2 d2, resize_zero (g_fat32 s) (default 0 (head l1)) size n s1 = Done CHIMERA_SUCCESS s2 /\ edit s s2 i nd nd1 l l1 d2 e0 /\ kept d2
    /\ forall x, size <= x < n -> d2 !! Z.to_nat x = Some 0.
Proof.
  intros E Hk Hlen Hz. pose proof size_pos as Hcs. pose proof node_start as (_ & Hsz & _). destruct (clusters_for_ok size Hsz) as (O1 & O2 & O3 & O4).
  pose proof (Z.div_mod size (csize s) ltac:(lia)) as Hdm. pose proof (Z.mod_pos_bound size (csize s) ltac:(lia)) as Hmb.
  pose proof (ed_geo _ _ _ _ _ _ _ _ _ E) as Eg. pose proof (ed_file _ _ _ _ _ _ _ _ _ E) as L1. pose proof (ed_sane _ _ _ _ _ _ _ _ _ E) as S1.
  unfold resize_zero.
  destruct ((size <? n) && (0 <? size) && negb (size mod csize s =? 0) && (2 <=? default 0 (head l1))) eqn:Eb.
  2: { exists s1, d. split; [done|]. split; [done|]. split; [done|]. intros x Hx. apply Hz. split; [|lia].
       destruct (decide (size = 0)) as [E0|E0]; [rewrite O4 by done; lia|]. specialize (O3 ltac:(lia)).
       assert (Hne : l1 !! 0%nat = Some (default 0 (head l1))) by (destruct l1; [cbn in Hlen; assert (old = 0) by lia; nia|done]).
       pose proof (fl_valid _ _ L1 _ (list_elem_of_lookup_2 _ _ _ Hne)) as Hv. unfold valid in Hv.
       assert (Hm0 : size mod csize s = 0) by lia. rewrite Hm0 in Hdm. assert (old = size / csize s) by nia. nia. }
  assert (Hc : size < n /\ 0 < size /\ size mod csize s <> 0) by lia. destruct Hc as (Hc1 & Hc2 & Hc3). specialize (O3 Hc2).
  assert (Hq : size / csize s = old - 1) by nia.
  assert (Hq2 : (size - 1) / csize s = old - 1).
  { symmetry. apply (Z.div_unique_pos _ _ _ (size mod csize s - 1)); lia. }
  rewrite Hq2. assert (Ho1 : 1 <= old) by nia. assert (Hne : l1 !! 0%nat = Some (default 0 (head l1))) by (destruct l1; [cbn in Hlen; lia|done]).
  destruct (chain_walk_ok (Z.to_nat (old - 1)) s1 l1 0 _ 0 S1 L1 Hne) as (c & s2 & Hj & E2 & C2). run E2. cbn [Nat.add] in Hj.
  replace (Nat.min (Z.to_nat (old - 1)) (length l1 - 1)) with (Z.to_nat (old - 1)) in Hj by lia.
  pose proof (changes_grown _ _ _ L1 C2) as G2. rewrite (ed_data _ _ _ _ _ _ _ _ _ E) in G2.
  assert (D2 := edit_grown _ _ _ _ _ _ _ _ _ E G2 (fun _ Hx => Hx) (fun _ Hx => or_intror Hx)).
  destruct (zero_rest_ok s2 nd1 l1 d e0 _ c (size mod csize s) D2 Hj Hmb) as (s3 & E3 & D3). rewrite E3.
  replace (csize s * Z.of_nat (Z.to_nat (old - 1)) + size mod csize s) with size in D3 by lia.
  set (z := replicate (Z.to_nat (csize s - size mod csize s)) 0) in *. assert (Hlz : Z.of_nat (length z) = csize s - size mod csize s) by (unfold z; rewrite length_replicate; lia).
  assert (Hd : Z.of_nat (length d) = csize s * Z.of_nat (length l1)) by (rewrite <- (ed_data _ _ _ _ _ _ _ _ _ E), fdata_length; rewrite Eg; lia).
  pose proof (scale old (Z.of_nat (length l1)) Hlen) as Hsc.
  exists s3, (patch size z d). split; [done|]. split; [done|]. split.
  - split; [|lia]. rewrite <- (proj1 Hk). unfold patch. rewrite take_app_le by (rewrite length_take; lia). by rewrite take_take, Nat.min_id.
  - intros x Hx. rewrite patch_lookup by lia. case_decide as D; [apply lookup_replicate; split; [done|lia]|]. apply Hz. lia.
Qed.

(** What a file looks like once it has its new size. *)
Definition resized (d : list Z) : Prop :=
  take (Z.to_nat (Z.min size n)) d = take (Z.to_nat (Z.min size n)) (fdata s l) /\ (forall x, size <= x < n -> d !! Z.to_nat x = Some 0)
  /\ (n = 0 -> zeros d).

Lemma resize_shrink_ok fuel s1 nd1 l1 d : edit s s1 i nd nd1 l l1 d e0 -> kept d -> (forall x, size <= x < n -> d !! Z.to_nat x = Some 0) ->
  start_cluster nd1 = default 0 (head l1) -> needed <= Z.of_nat (length l1) -> (old < needed \/ l1 = l \/ old = 0) -> (length l <= fuel)%nat ->
  exists s2 nd2 l2 d2, resize_shrink fuel i (default 0 (head l1)) old needed s1 = Done tt s2 /\ edit s s2 i nd nd2 l l2 d2 e0
    /\ start_cluster nd2 = default 0 (head l2) /\ file_size nd2 = file_size nd1 /\ needed <= Z.of_nat (length l2) /\ resized d2.
Proof.
  intros E Hk Hz Hst1 Hlen Hcase Hf. pose proof size_pos as Hcs. pose proof node_start as (_ & Hsz & _). pose proof old_length as Hold.
  destruct (clusters_for_ok size Hsz) as (O1 & O2 & O3 & O4). destruct (clusters_for_ok n Hn) as (N1 & N2 & N3 & N4).
  pose proof (ed_geo _ _ _ _ _ _ _ _ _ E) as Eg. pose proof (ed_file _ _ _ _ _ _ _ _ _ E) as L1. pose proof (ed_sane _ _ _ _ _ _ _ _ _ E) as S1.
  assert (Htk : forall m, take (Z.to_nat (Z.min size m)) d = take (Z.to_nat (Z.min size m)) (fdata s l)).
  { intros m. destruct Hk as [K _]. apply (f_equal (take (Z.to_nat (Z.min size m)))) in K. rewrite !take_take, !Nat.min_l in K by lia. done. }
  unfold resize_shrink. destruct (Z.ltb_spec needed old) as [Hsh|Hsh]; cbn [andb].
  2: { exists s1, nd1, l1, d. split; [done|]. do 4 (split; [done|]). split; [apply Htk|]. split; [done|]. intros Hn0. apply (proj2 Hk). specialize (N4 Hn0).
       destruct (decide (size = 0)); [done|]. specialize (O3 ltac:(lia)). assert (old = 0) as E0 by lia. rewrite E0 in O2. lia. }
  assert (l1 = l) as -> by (destruct Hcase as [?|[?|?]]; [lia|done|lia]).
  assert (Hsn : n < size). { pose proof (scale needed (old - 1) ltac:(lia)). destruct (decide (size = 0)) as [E0|]; [rewrite (O4 E0) in Hsh; lia|]. specialize (O3 ltac:(lia)). lia. }
  assert (Hne : l !! 0%nat = Some (default 0 (head l))) by (destruct l; [cbn in Hold; lia|done]).
  pose proof (fl_valid _ _ L1 _ (list_elem_of_lookup_2 _ _ _ Hne)) as Hv. unfold valid in Hv. destruct (Z.leb_spec 2 (default 0 (head l))); [|lia].
  destruct (Z.eqb_spec needed 0) as [Hn0|Hn0].
  - destruct (edit_free fuel s1 nd1 l d e0 E ltac:(done) Hf) as (s2 & E2 & D2 & _). run E2.
    destruct (edit_node s2 nd1 [] [] e0 (fun nd => nd <| start_cluster := 0 |>) D2) as (s3 & E3 & D3 & _); [done|].
    exists s3, (nd1 <| start_cluster := 0 |>), [], []. split; [done|]. assert (n = 0) as En by (rewrite Hn0 in N2; lia). split_and!; try done; [cbn; lia|].
    split; [|split; [lia|constructor]]. rewrite En, Z.min_r by lia. done.
  - destruct (chain_walk_ok (Z.to_nat (needed - 1)) s1 l 0 _ 1 S1 L1 Hne) as (c & s2 & Hj & E2 & C2). run E2. cbn [Nat.add] in Hj.
    replace (Nat.min (Z.to_nat (needed - 1)) (length l - 1)) with (Z.to_nat (needed - 1)) in Hj by lia.
    pose proof (changes_grown _ _ _ L1 C2) as G2. rewrite (ed_data _ _ _ _ _ _ _ _ _ E) in G2.
    assert (D2 := edit_grown _ _ _ _ _ _ _ _ _ E G2 (fun _ Hx => Hx) (fun _ Hx => or_intror Hx)).
    destruct (edit_cut fuel _ s2 nd1 l d e0 c D2 ltac:(done) Hf Hj) as (s3 & E3 & D3).
    replace (Datatypes.S (Z.to_nat (needed - 1))) with (Z.to_nat needed) in D3 by lia. rewrite Z2Nat.id in D3 by done.
    exists s3, nd1, (take (Z.to_nat needed) l), (take (Z.to_nat (csize s * needed)) d). split; [exact E3|]. split; [done|].
    split; [rewrite Hst1; by destruct l, (Z.to_nat needed) eqn:?; [..|lia|]|]. split; [done|]. split; [rewrite length_take; lia|].
    split; [|split; [lia|intros Hn1; specialize (N4 Hn1); lia]]. rewrite take_take, Nat.min_l by lia. apply Htk.
Qed.
Lemma first_range s1 nd1 l1 d e : edit s s1 i nd nd1 l l1 d e -> 0 <= default 0 (head l1) < 2 ^ 32.
Proof.
  intros E. destruct l1 as [|c l1]; [done|]. pose proof (fl_valid _ _ (ed_file _ _ _ _ _ _ _ _ _ E) c ltac:(set_solver)) as Hv.
  pose proof (geo_few _ _ (sn_geo _ _ (ed_sane _ _ _ _ _ _ _ _ _ E))). unfold valid in Hv. cbn. lia.
Qed.

(** A call that gives up for lack of space leaves the file as it was, maybe
    with more clusters. *)
Lemma resize_fail_ok s1 nd1 l1 d : edit s s1 i nd nd1 l l1 d e0 -> kept d -> file_size nd1 = size -> start_cluster nd1 = default 0 (head l1) ->
  old <= Z.of_nat (length l1) -> (0 < size -> start_cluster nd1 = start_cluster nd) ->
  exists s2, unlock_fat s1 = Done tt s2 /\ after s2 live nd1 l1 d /\ (full s1 -> full s2).
Proof.
  intros E Hk Hs Hst Hlen Hsame. pose proof node_start as (_ & Hsz & _). destruct (clusters_for_ok size Hsz) as (O1 & O2 & _).
  apply (edit_after s1 nd1 l1 d e0 live E); [|done|].
  - split; [done|]. rewrite Hs. split; [done|]. intros _. pose proof (scale old (Z.of_nat (length l1)) Hlen). lia.
  - intros _. pose proof described_start as (D1 & D2 & D3). split; [done|]. rewrite Hs. split; [done|]. intros Hp. rewrite Hsame by done. auto.
Qed.

Lemma resize_node_ok fuel : (length l <= fuel)%nat ->
  exists e s' nd' l' d', fat32_resize_node fuel i n s = Done e s' /\ after s' live nd' l' d'
    /\ ((e = CHIMERA_SUCCESS /\ file_size nd' = n /\ resized d')
        \/ (e = CHIMERA_ERR_NORESOURCE /\ size < n /\ full s' /\ file_size nd' = size /\ kept d')).
Proof.
  intros Hf. pose proof node_start as (Hst & Hsz & Hcap). pose proof size_pos as Hcs. pose proof old_length as Hold. pose proof edit_home as (Hdir & _).
  destruct (clusters_for_ok size Hsz) as (O1 & O2 & O3 & O4). destruct (clusters_for_ok n Hn) as (N1 & N2 & N3 & N4).
  pose proof (resize_start_ok _ edit_start) as (b & s1 & nd1 & l1 & E1 & D1 & Hs1 & Hst1 & Hp1 & Hl1 & Hb).
  pose proof (prefix_length _ _ Hp1) as Hpl1. pose proof (kept_pad (csize s * Z.of_nat (length l1))) as Hk1.
  assert (Hsame : 0 < size -> l1 = l).
  { intros Hp. destruct Hl1 as [?|Hl1]; [done|]. destruct Hp1 as [t ->]. specialize (O3 Hp). assert (1 <= old) by nia.
    destruct t; [by rewrite app_nil_r|]. rewrite length_app in Hl1. cbn in Hl1. lia. }
  unfold fat32_resize_node. unfold bind at 1, geo. change (id (g_fat32 s)) with (g_fat32 s).
  rewrite (geo_mounted _ _ (sn_geo _ _ (fs_sane _ _ _ H))). cbn [negb]. destruct (Z.ltb_spec 0xFFFFFFFF n); [lia|].
  unfold bind at 1, lock_fat. rewrite (fs_lock _ _ _ H). unfold bind at 1, get. rewrite (proj2 (edit_lookup _ _ _ _ _ edit_start)).
  run E1. destruct b; cbn [negb].
  2: { destruct Hb as (Hfu & El & Hnp). assert (Hsn : size < n). { rewrite El in Hold. cbn in Hold. assert (E0 : old = 0) by lia. rewrite E0 in O2. destruct (decide (n = 0)); lia. }
       destruct (resize_fail_ok s1 nd1 l1 _ D1 Hk1) as (s2 & E2 & A2 & F2); [done|done|lia|rewrite Hst1, Hst; intros Hp; by rewrite Hsame|].
       run E2. eexists CHIMERA_ERR_NORESOURCE, s2, nd1, l1, _. split; [done|]. split; [exact A2|]. right. split_and!; auto; apply Hk1. }
  unfold bind at 1. rewrite (proj2 (edit_lookup _ _ _ _ _ D1)), Hst1.
  destruct (resize_grow_ok s1 nd1 l1 D1 Hp1 Hl1 Hb) as (err & s2 & l2 & d2 & E2 & D2 & Hh2 & Hk2 & Hlen2 & Herr). run E2.
  destruct Herr as [(-> & Hneed & Hz2 & Hcase)|(-> & Hfu & Hsn)].
  2: { do 3 (change (succeeded CHIMERA_ERR_NORESOURCE) with false; cbv beta iota; unfold bind at 1; unfold ret at 1; cbv beta iota).
       destruct (resize_fail_ok s2 nd1 l2 d2 D2 Hk2) as (s3 & E3 & A3 & F3); [done|by rewrite Hh2|done|rewrite Hst1, Hst; intros Hp; by rewrite Hsame|].
       run E3. exists CHIMERA_ERR_NORESOURCE, s3, nd1, l2, d2. split; [done|]. split; [exact A3|]. right. split_and!; auto; apply Hk2. }
  change (succeeded CHIMERA_SUCCESS) with true. cbv beta iota. rewrite <- Hh2.
  destruct (resize_zero_ok s2 nd1 l2 d2 D2 Hk2 Hlen2 Hz2) as (s3 & d3 & E3 & D3 & Hk3 & Hz3). run E3.
  change (succeeded CHIMERA_SUCCESS) with true. cbv beta iota.
  destruct (resize_shrink_ok fuel s3 nd1 l2 d3 D3 Hk3 Hz3) as (s4 & nd4 & l4 & d4 & E4 & D4 & Hst4 & Hsz4 & Hlen4 & Hres); [by rewrite Hh2|done| |done|].
  { destruct Hcase as [?| ->]; [by left|right]. destruct (decide (size = 0)); [right; auto|left]. apply Hsame. lia. }
  run E4. pose proof (first_range _ _ _ _ _ D4) as Hr. rewrite u32_id by lia.
  destruct (edit_node s4 nd4 l4 d4 _ (fun nd => nd <| file_size := n |> <| va_size := n |>) D4) as (s5 & E5 & D5 & _); [done|].
  destruct (edit_update s5 _ l4 d4 _ D5) as (s6 & e6 & E6 & D6 & H1 & H2 & H3 & _); [cbn; by rewrite Hst4|done|].
  assert (E56 : (set_node i (fun nd => nd <| file_size := n |> <| va_size := n |>);;; update_entry_of i) s4 = Done CHIMERA_SUCCESS s6) by (run E5; exact E6).
  run E56. destruct (edit_after s6 _ l4 d4 e6 live D6) as (s7 & E7 & A7 & _); [|done| |].
  { split; [done|]. split; [done|]. intros _. cbn. pose proof (scale needed (Z.of_nat (length l4)) Hlen4). lia. }
  { intros _. destruct described_start as (Hlv & _). split; [unfold slot_live in *; by rewrite H3|by split]. }
  run E7. eexists CHIMERA_SUCCESS, s7, _, l4, d4. split; [done|]. split; [exact A7|]. left. done.
Qed.
End Resize.
(** ** Removing *)

Lemma mark_deleted_ok s1 nd1 l1 d e : edit s s1 i nd nd1 l l1 d e ->
  exists s2 e2, (r <- read_new (u32 (fat32_cluster_to_lba (g_fat32 s) p + off / 512)) 1;;
     match r with
     | Some sec => put_sectors (u32 (fat32_cluster_to_lba (g_fat32 s) p + off / 512)) 1 (patch (off mod 512) [0xE5] sec);;; ret tt
     | None => ret tt
     end) s1 = Done tt s2 /\ edit s s2 i nd nd1 l l1 d e2 /\ get_u8 0 e2 = 0xE5 /\ forall c, valid (g_fat32 s) c -> entry s2 c = entry s1 c.
Proof.
  intros E. destruct edit_home as (_ & P & _). pose proof (ed_geo _ _ _ _ _ _ _ _ _ E) as Eg. rewrite <- Eg in *.
  pose proof (ed_sane _ _ _ _ _ _ _ _ _ E) as S1. destruct (place_sector s1 p off S1 P) as (Hk & Hm0 & Hm & Ho). pose proof P as [Hv _ _].
  run (sector_read s1 p (off / 512) S1 Hv Hk). pose proof (sector_length s1 p (off / 512)) as HL.
  destruct (entry_write s1 p off (patch (off mod 512) [0xE5] (sector s1 p (off / 512))) S1 P) as (s2 & E2 & SC & Hs).
  - apply patch_bytes; [by repeat constructor|apply load_bytes_bytes].
  - rewrite patch_length; cbn [length]; lia.
  - intros x Hx Hn. rewrite patch_total by (cbn [length]; lia). cbn [length]. by rewrite decide_False by lia.
  - run E2. exists s2, (slot s2 p off). split; [done|]. split; [by eapply edit_entry|]. split; [|apply SC].
    rewrite Hs. unfold get_u8, slice. change (Z.to_nat 0) with 0%nat. apply nth_lookup_Some. rewrite lookup_take_lt, lookup_drop by lia.
    pose proof (patch_lookup (off mod 512) [0xE5] (sector s1 p (off / 512)) (off mod 512)) as Hp. rewrite decide_True in Hp by (cbn; lia).
    rewrite Nat.add_0_r, Hp by (cbn [length]; lia). by rewrite Z.sub_diag.
Qed.

(** What [fat32_unlink_file] does once it has found the entry. *)
Lemma unlink_body_ok fuel : (length l <= fuel)%nat ->
  exists s2 nd2 e2, (
    (r <- read_new (u32 (fat32_cluster_to_lba (g_fat32 s) p + off / 512)) 1;;
     match r with
     | Some sec => put_sectors (u32 (fat32_cluster_to_lba (g_fat32 s) p + off / 512)) 1 (patch (off mod 512) [0xE5] sec);;; ret tt
     | None => ret tt
     end);;;
    (if 2 <=? start_cluster nd then
     fat32_free_cluster_chain_unlocked fuel (start_cluster nd);;;
     set_node i (fun nd => nd <| start_cluster := 0 |>)
     else ret tt);;;
    set_node i (fun nd => nd <| file_size := 0 |> <| va_size := 0 |>);;;
    ret CHIMERA_SUCCESS) (s <| lock := true |>) = Done CHIMERA_SUCCESS s2 /\ edit s s2 i nd nd2 l [] [] e2 /\ start_cluster nd2 = 0 /\ file_size nd2 = 0
    /\ get_u8 0 e2 = 0xE5 /\ forall c, valid (g_fat32 s) c -> entry s2 c = if decide (c ∈ l) then 0 else entry s c.
Proof.
  intros Hf. pose proof node_start as (Hst & _).
  destruct (mark_deleted_ok _ _ _ _ _ edit_start) as (s1 & e1 & E1 & D1 & He1 & Hen1). run E1.
  destruct (decide (l = [])) as [El|El].
  - assert (E0 : start_cluster nd = 0) by (rewrite Hst, El; done). rewrite E0. change (2 <=? 0) with false. cbv beta iota. unfold bind at 1. unfold ret at 1.
    destruct (edit_node s1 nd l _ e1 (fun nd => nd <| file_size := 0 |> <| va_size := 0 |>) D1) as (s2 & E2 & D2 & _); [done|].
    assert (Hen2 : forall c, entry s2 c = entry s1 c) by (unfold set_node, modify in E2; by injection E2 as <-). run E2.
    rewrite El in D2. eexists s2, _, e1. split; [done|]. split; [rewrite El; exact D2|]. split_and!; try done.
    intros c Hc. rewrite Hen2, Hen1 by done. rewrite decide_False; [done|]. rewrite El. set_solver.
  - assert (Hne : l !! 0%nat = Some (start_cluster nd)) by (rewrite Hst; by destruct l).
    pose proof (fl_valid _ _ (fs_file _ _ _ H _ _ Hl) _ (list_elem_of_lookup_2 _ _ _ Hne)) as Hvs. unfold valid in Hvs.
    destruct (Z.leb_spec 2 (start_cluster nd)); [|lia].
    destruct (edit_free fuel s1 nd l _ e1 D1 ltac:(done) Hf) as (s2 & E2 & D2 & Hen2).
    destruct (edit_node s2 nd [] [] e1 (fun nd => nd <| start_cluster := 0 |>) D2) as (s3 & E3 & D3 & _); [done|].
    assert (E23 : (fat32_free_cluster_chain_unlocked fuel (start_cluster nd);;; set_node i (fun nd => nd <| start_cluster := 0 |>)) s1 = Done tt s3)
      by (rewrite Hst; run E2; exact E3). run E23.
    destruct (edit_node s3 _ [] [] e1 (fun nd => nd <| file_size := 0 |> <| va_size := 0 |>) D3) as (s4 & E4 & D4 & _); [done|].
    assert (Hen4 : forall c, entry s4 c = entry s2 c) by (unfold set_node, modify in E3, E4; injection E4 as <-; by injection E3 as <-). run E4.
    eexists s4, _, e1. split; [done|]. split; [exact D4|]. split_and!; try done.
    intros c Hc. rewrite Hen4, Hen2 by done. case_decide; [done|]. by apply Hen1.
Qed.

Lemma unlink_ok vfs_lookup path fuel : vfs_lookup path = Some (Some i) -> (length l <= fuel)%nat ->
  exists s' nd', fat32_unlink_file vfs_lookup fuel path s = Done CHIMERA_SUCCESS s' /\ after s' (live ∖ {[i]}) nd' [] [] /\ file_size nd' = 0
    /\ get_u8 0 (slot s' p off) = 0xE5 /\ forall c, valid (g_fat32 s) c -> entry s' c = if decide (c ∈ l) then 0 else entry s c.
Proof.
  intros Hv Hf. pose proof edit_home as (_ & P & _). pose proof (sn_geo _ _ (fs_sane _ _ _ H)) as G. pose proof P as [Pv Pr _]. pose proof Pv as Pv2. unfold valid in Pv2.
  destruct (unlink_body_ok fuel Hf) as (s2 & nd2 & e2 & E2 & D2 & Hst2 & Hsz2 & He2 & Hen2).
  assert (E2' : fat32_unlink_file_locked vfs_lookup fuel path (s <| lock := true |>) = Done CHIMERA_SUCCESS s2).
  { unfold fat32_unlink_file_locked. rewrite Hv. unfold bind at 1, get. rewrite (proj2 (edit_lookup _ _ _ _ _ edit_start)).
    destruct (Z.ltb_spec p 2); [lia|]. change (g_fat32 (s <| lock := true |>)) with (g_fat32 s).
    run (dir_walk_first fat32_get_next_cluster_unlocked (Z.to_nat (off / csize s)) (csize s) p off (s <| lock := true |>) (proj2 Pr)).
    rewrite (valid_cluster _ _ G p Pv). exact E2. }
  unfold fat32_unlink_file. unfold bind at 1, lock_fat. rewrite (fs_lock _ _ _ H). run E2'.
  destruct (edit_after s2 nd2 [] [] e2 (live ∖ {[i]}) D2) as (s3 & E3 & A3 & _); [|set_solver|set_solver|].
  { split; [done|]. rewrite Hsz2. split; [done|]. cbn. lia. }
  assert (Hen3 : forall c, entry s3 c = entry s2 c) by (unfold unlock_fat, modify in E3; by injection E3 as <-).
  assert (Hsl3 : slot s3 p off = e2) by (rewrite <- (ed_slot _ _ _ _ _ _ _ _ _ D2); unfold unlock_fat, modify in E3; by injection E3 as <-).
  run E3. exists s3, nd2. split; [done|]. split; [exact A3|]. split; [done|]. rewrite Hsl3. split; [done|]. intros c Hc. rewrite Hen3. auto.
Qed.
End Edit.
End Fat32Edit.
