(* ===== verification/Fat32Correct.v ===== *)
(** * The FAT32 file system: theorems

    A mounted volume implements a map from open files to lists of bytes, under
    every sequence of creating, reading, writing, resizing and removing files
    whose directory entries lie in the first cluster of their directory;
    for the other entries writing waits for ever for a lock it holds itself.
    Mounting brings the bitmap of free clusters in line with the table, and
    short names survive their encoding in directory entries. *)

From S2P Require Import Prelude Bytes Fat32 Fat32Spec Fat32Chain Fat32Fs Fat32Edit.
Import Fat32 Fat32Spec Fat32Chain Fat32Fs Fat32Edit.

Module Fat32Correct.

(** ** Creating files *)

Definition ascii (c : Z) : Prop := 1 <= c < 128.

Lemma to_upper_ascii c : ascii c -> ascii (to_upper c).
Proof. unfold ascii, to_upper. case_match; lia. Qed.
Lemma blank_pad_length n l : length (blank_pad n l) = n.
Proof. unfold blank_pad. rewrite length_take, length_app, length_replicate. lia. Qed.
Lemma blank_pad_ascii n l : Forall ascii l -> Forall ascii (blank_pad n l).
Proof. intros Hl. apply Forall_take, Forall_app. split; [done|]. by apply Forall_replicate. Qed.
Lemma make_83_name_ok name : Forall ascii name -> length (fat32_make_83_name name) = 11%nat /\ Forall ascii (fat32_make_83_name name).
Proof.
  intros Hn. unfold fat32_make_83_name. assert (Hu : Forall ascii (to_upper <$> take 63 name)).
  { apply Forall_fmap, Forall_take. eapply Forall_impl; [exact Hn|]. intros c. apply to_upper_ascii. }
  destruct (last_dot _); rewrite length_app, !blank_pad_length, Forall_app; split; try done; split; apply blank_pad_ascii;
    auto using Forall_take, Forall_drop, Forall_nil.
Qed.

(** The entry written for a new file. *)
Lemma new_entry_ok so name sec : 0 <= so -> so + 32 <= 512 -> length sec = 512%nat -> Forall is_byte sec -> length name = 11%nat -> Forall ascii name ->
  let sec' := patch (so + 28) (le_bytes 4 0) (new_entry so name 0x20 0 sec) in
  length sec' = 512%nat /\ Forall is_byte sec' /\ (forall i, 0 <= i < 512 -> ~ (so <= i < so + 32) -> sec' !!! Z.to_nat i = sec !!! Z.to_nat i)
  /\ slot_start (slice so 32 sec') = 0 /\ slot_size (slice so 32 sec') = 0 /\ slot_live (slice so 32 sec') /\ slice so 11 sec' = name.
Proof.
  intros H0 H1 HL HB Hn Ha. unfold new_entry.
  set (s1 := patch so (replicate 32 0) sec). assert (L1 : length s1 = 512%nat) by (unfold s1; rewrite patch_length; rewrite ?length_replicate; lia).
  set (s2 := patch so name s1). assert (L2 : length s2 = 512%nat) by (unfold s2; rewrite patch_length; lia).
  set (s3 := patch (so + 11) [0x20] s2). assert (L3 : length s3 = 512%nat) by (unfold s3; rewrite patch_length; cbn [length]; lia).
  assert (B3 : Forall is_byte s3).
  { unfold s3, s2, s1. repeat apply patch_bytes; [by repeat constructor| |by apply Forall_replicate|done].
    eapply Forall_impl; [exact Ha|]. unfold ascii, is_byte. lia. }
  destruct (set_fields_slice so 0 0 s3 H0 H1 L3 ltac:(lia) ltac:(lia)) as (E1 & E2 & E3 & E4 & E5 & E6). cbv zeta.
  set (sec' := patch (so + 28) (le_bytes 4 0) (set_cluster_fields so 0 s3)) in *.
  assert (E7 : slice so 11 sec' = name).
  { pose proof (slice_slice so 20 0 11 sec' H0 ltac:(lia) ltac:(lia) ltac:(lia)) as Es. rewrite Z.add_0_r in Es. rewrite <- Es, E6.
    pose proof (slice_slice so 20 0 11 s3 H0 ltac:(lia) ltac:(lia) ltac:(lia)) as Es2. rewrite Z.add_0_r in Es2. rewrite Es2.
    unfold s3. rewrite slice_patch_other by (cbn [length]; lia). unfold s2. by rewrite slice_patch_same by lia. }
  split_and!; try done; [by apply E2| |].
  - intros i Hi Hn2. rewrite E3 by done. unfold s3. rewrite patch_total by (cbn [length]; lia). cbn [length]. rewrite decide_False by lia.
    unfold s2. rewrite patch_total by lia. rewrite decide_False by lia. unfold s1. rewrite patch_total by (rewrite ?length_replicate; lia).
    by rewrite length_replicate, decide_False by lia.
  - assert (Hf : ascii (get_u8 0 (slice so 32 sec'))); [|unfold ascii, slot_live in *; lia].
    pose proof (slice_slice so 32 0 11 sec' H0 ltac:(lia) ltac:(lia) ltac:(lia)) as Es. rewrite Z.add_0_r, E7 in Es. unfold get_u8.
    destruct (slice so 32 sec') as [|b r]; [by rewrite <- Es in Hn|]. destruct name as [|a name]; [done|]. injection Es as -> _. by apply Forall_cons in Ha as [? _].
Qed.

(** The first free entry of the first cluster of a directory. *)
Definition room (s : fat) (p : Z) : Prop := exists k, 0 <= k < csize s / 32 /\ ~ slot_live (slot s p (32 * k)).

Lemma slot_first_byte s p o : get_u8 0 (slot s p o) = dbyte s p o.
Proof. unfold slot, get_u8. change (seqZ 0 32) with (0 :: seqZ 1 31). cbn. f_equal. lia. Qed.
Lemma cbytes_u8 s p x : 0 <= x < csize s -> get_u8 x (cbytes s p) = dbyte s p x.
Proof. intros Hx. unfold get_u8. apply nth_lookup_Some. by apply cbytes_lookup. Qed.

Lemma free_slot_ok s p : sane s -> room s p -> exists o, free_slot (csize s) (cbytes s p) = Some (Some o)
  /\ 0 <= o < csize s /\ o mod 32 = 0 /\ ~ slot_live (slot s p o).
Proof.
  intros S (k & Hk & Hf). pose proof (geo_size _ _ (sn_geo _ _ S)) as Hsz. pose proof (geo_spc _ _ (sn_geo _ _ S)) as Hspc.
  assert (H32 : csize s / 32 = 16 * sectors_per_cluster (g_fat32 s)) by (symmetry; apply (Z.div_unique_pos _ _ _ 0); lia).
  assert (Hb : forall j, 0 <= j < csize s / 32 -> slot_live (slot s p (32 * j)) <-> ~ (get_u8 (32 * j) (cbytes s p) = 0 \/ get_u8 (32 * j) (cbytes s p) = 0xE5)).
  { intros j Hj. unfold slot_live. rewrite slot_first_byte, cbytes_u8 by lia. lia. }
  unfold free_slot. rewrite Z.min_l by lia. destruct (list_find _ _) as [[m j]|] eqn:El.
  - apply list_find_Some in El as (Hm & Hj & _). apply list_elem_of_lookup_2, elem_of_seqZ in Hm. exists (32 * j). split; [done|]. split; [lia|].
    split; [by rewrite Z.mul_comm, Z_mod_mult|]. rewrite Hb by lia. tauto.
  - apply list_find_None in El. rewrite Forall_forall in El. exfalso. apply Hf, Hb; [done|]. apply El, elem_of_seqZ. lia.
Qed.

Lemma find_slot_ok fuel extend s p : sane s -> valid (g_fat32 s) p -> room s p -> (0 < fuel)%nat ->
  exists o, find_slot fuel extend p 0 s = Done (inr (u32 (fat32_cluster_to_lba (g_fat32 s) p + o / 512), o mod 512, o)) s
    /\ place (g_fat32 s) p o /\ ~ slot_live (slot s p o).
Proof.
  intros S Hv Hr Hf. destruct (free_slot_ok s p S Hr) as (o & E & Ho & Ha & Hl). exists o. destruct fuel as [|fuel]; [lia|].
  pose proof (sn_geo _ _ S) as G. pose proof (geo_size _ _ G) as Hsz. pose proof (geo_spc _ _ G). pose proof (geo_total _ _ G). pose proof (cluster_sectors _ _ G p Hv).
  cbn [find_slot]. rewrite (valid_cluster _ _ G p Hv). cbn [negb]. unfold bind at 1, geo. change (id (g_fat32 s)) with (g_fat32 s).
  assert (Er : read_new (fat32_cluster_to_lba (g_fat32 s) p) (buf_count (g_fat32 s)) s = Done (Some (cbytes s p)) s).
  { rewrite (buf_count_ok s S), (cluster_lba _ _ G p Hv), read_new_ok; [|apply (sn_faults _ _ S)|lia|lia]. unfold cbytes. by rewrite Hsz. }
  run Er. rewrite E. unfold ret, ATA_SECTOR_SIZE. rewrite (u32_id (0 + o)) by lia. done.
Qed.
Lemma fs_node_dir s C live o : FS s C live -> directory s o -> valid (g_fat32 s) (parent_cluster o s) ->
  exists d, C !! o = Some d /\ head d = Some (parent_cluster o s).
Proof.
  intros H Hd Hv. destruct o as [j|]; [|apply (fs_root _ _ _ H)]. destruct Hd as (nd & Hj & _). destruct (fs_node _ _ _ H j nd Hj) as (d & Hd & Hst & _).
  cbn in *. rewrite (node_at_lookup j s nd Hj) in *. exists d. split; [done|]. rewrite Hst in *. destruct d; [|done]. unfold valid in Hv. cbn in Hv. lia.
Qed.

Lemma create_ok s C live vfs_lookup path parent child pdir fuel :
  FS s C live -> vfs_lookup path = None -> split_parent_child_path path = Some (parent, child) -> vfs_lookup parent = Some pdir -> directory s pdir ->
  valid (g_fat32 s) (parent_cluster pdir s) -> room s (parent_cluster pdir s) -> Forall ascii child -> (length (s_fat_data s) < FAT32_MAX_VNODES)%nat -> (0 < fuel)%nat ->
  let k := length (s_fat_data s) in
  exists s' nd, fat32_create_file vfs_lookup fuel path s = Done (CHIMERA_SUCCESS, Some (Some k)) s' /\ FS s' (<[Some k := []]> C) (live ∪ {[k]})
    /\ s_fat_data s' = s_fat_data s ++ [nd] /\ file_size nd = 0 /\ g_fat32 s' = g_fat32 s
    /\ slice 0 11 (slot s' (parent_dir_cluster nd) (dir_entry_offset nd)) = fat32_make_83_name child
    /\ forall j nd2 m, j ∈ live -> s_fat_data s !! j = Some nd2 -> C !! Some j = Some m -> fdata s' m = fdata s m.
Proof.
  intros H Hpath Hsplit Hpar Hdir Hv Hroom Hasc Hk Hf. cbv zeta. set (q := parent_cluster pdir s) in *. set (s0 := s <| lock := true |>).
  assert (S0 : sane s0) by (destruct (fs_sane _ _ _ H); by split).
  destruct (find_slot_ok fuel true s0 q S0 Hv Hroom Hf) as (o & E1 & P & Hfree). destruct (place_sector s0 q o S0 P) as (Hk0 & Hm0 & Hm & Ho).
  destruct (make_83_name_ok child Hasc) as [Hn1 Hn2].
  destruct (new_entry_ok (o mod 512) (fat32_make_83_name child) (sector s0 q (o / 512)) Hm0 Hm (sector_length _ _ _) (load_bytes_bytes _ _ _) Hn1 Hn2)
    as (L & B & Hout & Hst & Hsz & Hlv & Hname).
  destruct (entry_write s0 q o _ S0 P B L Hout) as (s1 & E2 & SC & Hsl). pose proof (ch_frame _ _ _ _ SC) as (Eg & _ & _ & En).
  set (nd := {| start_cluster := 0; file_size := 0; is_dir := false; parent_dir_cluster := q; dir_entry_offset := o; va_size := 0 |}).
  set (s2 := s1 <| s_fat_data ::= (.++ [nd]) |> <| lock := false |>). exists s2, nd.
  assert (Hrun : fat32_create_file vfs_lookup fuel path s = Done (CHIMERA_SUCCESS, Some (Some (length (s_fat_data s)))) s2).
  { unfold fat32_create_file. unfold bind at 1, lock_fat. rewrite (fs_lock _ _ _ H). fold s0.
    assert (E : fat32_create_file_locked vfs_lookup fuel path s0 = Done (CHIMERA_SUCCESS, Some (Some (length (s_fat_data s)))) (s1 <| s_fat_data ::= (.++ [nd]) |>)).
    { unfold fat32_create_file_locked. rewrite Hpath, Hsplit, Hpar. unfold bind at 1, get. change (parent_cluster pdir s0) with q. run E1.
      run (sector_read s0 q (o / 512) S0 Hv Hk0). run E2. cbn [negb]. fold nd. unfold bind, new_node, bind, get.
      assert (Hlen : length (s_fat_data s1) = length (s_fat_data s)) by by rewrite En.
      destruct (Nat.leb_spec FAT32_MAX_VNODES (length (s_fat_data s1))); [lia|]. unfold modify, ret. cbn -[s_fat_data]. by rewrite Hlen. }
    run E. done. }
  assert (Hen : s_fat_data s2 = s_fat_data s ++ [nd]) by (cbn; by rewrite En).
  destruct (fs_node_dir s C live pdir H Hdir Hv) as (d & Hd & Hh).
  assert (Hby : forall c x, valid (g_fat32 s) c -> 0 <= x < csize s -> ~ (c = q /\ o <= x < o + 32) -> dbyte s2 c x = dbyte s c x).
  { intros c x Hc Hx Hn. change (dbyte s2 c x) with (dbyte s1 c x). rewrite (ch_data _ _ _ _ SC) by done. by rewrite decide_False. }
  assert (Hent : forall c, valid (g_fat32 s) c -> entry s2 c = entry s c) by (intros c Hc; apply (ch_entry _ _ _ _ SC); done).
  assert (S2 : sane s2) by (destruct (ch_sane _ _ _ _ SC); by split).
  assert (Hrec : recorded s2 nd).
  { unfold recorded. change (slot s2 _ _) with (slot s1 q o). rewrite Hsl. split; [done|]. split; [done|]. cbn. lia. }
  split; [done|]. split; [|split; [done|split; [done|split; [done|split]]]].
  - by apply (FS_create s s2 C live nd pdir d).
  - change (slot s2 _ _) with (slot s1 q o). rewrite Hsl, slice_slice by lia. by rewrite Z.add_0_r.
  - by apply (create_data s s2 C live nd pdir d).
Qed.
(** ** Files as lists of bytes *)

(** Enough rounds for every loop over a chain: chains have no more clusters
    than the volume. *)
Definition rounds (s : fat) : nat := Z.to_nat (nclusters (g_fat32 s)).

Lemma file_rounds s l : sane s -> file s l -> (length l <= rounds s)%nat.
Proof.
  intros S L. pose proof (nclusters_range _ _ (sn_geo _ _ S)) as [Hn _]. pose proof (submseteq_length l (seqZ 2 (nclusters (g_fat32 s)))) as Hs.
  rewrite length_seqZ in Hs. apply Hs, NoDup_submseteq; [by eapply file_NoDup|]. intros c Hc. apply elem_of_seqZ. pose proof (fl_valid _ _ L c Hc) as Hv. unfold valid in Hv. lia.
Qed.

Definition disk_full (s : fat) : bool := bool_decide (Forall (fun c => entry s c <> 0) (seqZ 2 (nclusters (g_fat32 s)))).
Lemma disk_full_ok s : full s -> disk_full s = true.
Proof. intros Hf. apply bool_decide_eq_true, Forall_forall. intros c Hc%elem_of_seqZ. apply Hf. unfold valid. lia. Qed.

(** The calls.  [Unlink] and [Create] come with what [vfs_lookup] finds, and
    [Write] with what the stack holds where its buffer lies. *)
Inductive call :=
| Read (i : nat) (o len : Z)
| Write (i : nat) (o : Z) (src junk : list Z)
| Resize (i : nat) (n : Z)
| Unlink (look : list Z -> option (option nat)) (path : list Z)
| Create (look : list Z -> option (option nat)) (path : list Z).

Inductive result :=
| Contents (e : chimera_error) (l : list Z)
| Count (e : chimera_error) (w : Z)
| Status (e : chimera_error)
| Vnode (e : chimera_error) (v : option (option nat)).

Definition exec (c : call) : M result := fun s =>
  match c with
  | Read i o len => (let* (e, l) := fat32_read_file (start_cluster (node_at i s)) (file_size (node_at i s)) o len in ret (Contents e l)) s
  | Write i o src junk => (let* (e, w) := fat32_write_node i o src junk in ret (Count e w)) s
  | Resize i n => (e <- fat32_resize_node (rounds s) i n;; ret (Status e)) s
  | Unlink look path => (e <- fat32_unlink_file look (rounds s) path;; ret (Status e)) s
  | Create look path => (let* (e, v) := fat32_create_file look (rounds s) path in ret (Vnode e v)) s
  end.

(** Calls on existing files, offsets below 4 GiB, and new files with ASCII
    names in directories whose first cluster has a free entry. *)
Definition admissible (live : gset nat) (s : fat) (c : call) : Prop :=
  match c with
  | Read i o len => i ∈ live /\ 0 <= o /\ 0 <= len /\ o + len < 2 ^ 32
  | Write i o src junk => i ∈ live /\ 0 <= o /\ o + Z.of_nat (length src) < 2 ^ 32 /\ Forall is_byte src /\ Forall is_byte junk /\ length junk = 4096%nat
  | Resize i n => i ∈ live /\ 0 <= n
  | Unlink look path => exists i, look path = Some (Some i) /\ i ∈ live
  | Create look path => look path = None /\ (length (s_fat_data s) < FAT32_MAX_VNODES)%nat /\
      exists parent child pdir, split_parent_child_path path = Some (parent, child) /\ look parent = Some pdir /\ directory s pdir
        /\ valid (g_fat32 s) (parent_cluster pdir s) /\ room s (parent_cluster pdir s) /\ Forall ascii child
  end.

Definition next_live (c : call) (r : result) (live : gset nat) : gset nat :=
  match c, r with
  | Unlink look path, _ => match look path with Some (Some i) => live ∖ {[i]} | _ => live end
  | Create _ _, Vnode _ (Some (Some k)) => live ∪ {[k]}
  | _, _ => live
  end.

(** The specification: [a] holds the contents of the files, and [b] says that
    no cluster is free after the call.  A write behind the end of a file puts
    [gap], whatever it is, in between. *)
Notation files := (gmap nat (list Z)).
Inductive spec (b : bool) (a : files) : call -> result -> files -> Prop :=
| spec_read i o len f : a !! i = Some f ->
    spec b a (Read i o len) (Contents CHIMERA_SUCCESS (take (Z.to_nat len) (drop (Z.to_nat o) f))) a
| spec_write i o src junk f w gap : a !! i = Some f -> (0 < w <= length src)%nat -> (w = length src \/ b = true) -> length gap = (Z.to_nat o - length f)%nat ->
    spec b a (Write i o src junk) (Count CHIMERA_SUCCESS (Z.of_nat w)) (<[i := take (Z.to_nat o) (f ++ gap) ++ take w src ++ drop (Z.to_nat o + w) f]> a)
| spec_write_none i o junk : spec b a (Write i o [] junk) (Count CHIMERA_SUCCESS 0) a
| spec_write_full i o src junk : b = true -> spec b a (Write i o src junk) (Count CHIMERA_ERR_NORESOURCE 0) a
| spec_resize i n f : a !! i = Some f -> n < 2 ^ 32 -> spec b a (Resize i n) (Status CHIMERA_SUCCESS) (<[i := pad n (take (Z.to_nat n) f)]> a)
| spec_resize_full i n f : a !! i = Some f -> Z.of_nat (length f) < n -> b = true -> spec b a (Resize i n) (Status CHIMERA_ERR_NORESOURCE) a
| spec_resize_big i n : 2 ^ 32 <= n -> spec b a (Resize i n) (Status CHIMERA_ERR_OVERFLOW) a
| spec_unlink look path i : look path = Some (Some i) -> spec b a (Unlink look path) (Status CHIMERA_SUCCESS) (delete i a)
| spec_create look path k : a !! k = None -> spec b a (Create look path) (Vnode CHIMERA_SUCCESS (Some (Some k))) (<[k := []]> a).

(** A volume holds the files [a]. *)
Definition holds (s : fat) (C : gmap owner (list Z)) (i : nat) (f : list Z) : Prop :=
  exists nd l, s_fat_data s !! i = Some nd /\ C !! Some i = Some l /\ f = take (Z.to_nat (file_size nd)) (fdata s l)
    /\ (file_size nd = 0 -> zeros (fdata s l)).
Definition represents (s : fat) (live : gset nat) (a : files) : Prop :=
  exists C, FS s C live /\ dom a = live /\ forall i f, a !! i = Some f -> holds s C i f.

Lemma holds_size s C live i nd l : FS s C live -> i ∈ live -> s_fat_data s !! i = Some nd -> C !! Some i = Some l ->
  0 <= file_size nd < 2 ^ 32 /\ length (take (Z.to_nat (file_size nd)) (fdata s l)) = Z.to_nat (file_size nd) /\ file_size nd <= Z.of_nat (length (fdata s l)).
Proof.
  intros H Hi Hn Hl. pose proof (edit_home s C live i nd l H Hn Hi Hl) as (Hdir & _). destruct (node_start s C live i nd l H Hn Hl) as (_ & Hsz & Hcap).
  specialize (Hcap Hdir). pose proof (size_pos s C live H). pose proof (fdata_length s l ltac:(lia)). split; [done|]. rewrite length_take. lia.
Qed.

(** A call that changed only file [i]. *)
Lemma represents_after s C live a i nd s' nd' l' d' : FS s C live -> dom a = live -> (forall j f, a !! j = Some f -> holds s C j f) ->
  i ∈ live -> s_fat_data s !! i = Some nd -> after s C live i s' live nd' l' d' -> (file_size nd' = 0 -> zeros d') ->
  represents s' live (<[i := take (Z.to_nat (file_size nd')) d']> a).
Proof.
  intros H Hdom Ha Hi Hn (H' & En & _ & Hd & Hoth) Hz. pose proof (lookup_lt_Some _ _ _ Hn) as Hlt. exists (<[Some i := l']> C).
  split; [done|]. split; [rewrite dom_insert_L; set_solver|]. intros j f Hj. destruct (decide (j = i)) as [->|Hne].
  - rewrite lookup_insert_eq in Hj. injection Hj as <-. exists nd', l'. rewrite En, list_lookup_insert_eq, lookup_insert_eq by done. by rewrite Hd.
  - rewrite lookup_insert_ne in Hj by done. destruct (Ha j f Hj) as (nd2 & m & Hj2 & Hm & -> & Hz2). exists nd2, m.
    assert (Hjl : j ∈ live) by (rewrite <- Hdom; apply elem_of_dom; eauto).
    rewrite En, list_lookup_insert_ne, lookup_insert_ne by congruence. by rewrite (Hoth j nd2 m).
Qed.
Lemma write_view (D x : list Z) (o sz : nat) : (o + length x <= length D)%nat -> (sz <= length D)%nat ->
  take (Nat.max sz (o + length x)) (patch (Z.of_nat o) x D)
  = take o (take sz D ++ take (o - sz) (drop sz D)) ++ x ++ drop (o + length x) (take sz D).
Proof.
  intros Hx Hs. unfold patch. rewrite Nat2Z.id, take_take_drop, take_take, Nat.min_l by lia.
  rewrite take_app_ge, length_take by (rewrite length_take; lia). rewrite Nat.min_l by lia. rewrite take_app_ge by lia. rewrite skipn_firstn_comm.
  do 3 f_equal. lia.
Qed.

Lemma step_read s live a i o len : represents s live a -> admissible live s (Read i o len) ->
  exists r s', exec (Read i o len) s = Done r s' /\ spec (disk_full s') a (Read i o len) r a /\ represents s' (next_live (Read i o len) r live) a.
Proof.
  intros (C & H & Hdom & Ha) (Hi & Ho & Hlen & Hsum). assert (Hf : is_Some (a !! i)) by (apply elem_of_dom; by rewrite Hdom). destruct Hf as [f Hf].
  destruct (Ha i f Hf) as (nd & l & Hn & Hl & Ef & _). destruct (holds_size s C live i nd l H Hi Hn Hl) as (Hsz & Hlf & Hcap).
  destruct (read_file_ok s C live i nd l H Hn Hi Hl o len Ho Hlen Hsum) as (s' & E & G).
  destruct (read_keeps s C live i nd l H Hn Hi Hl s' G) as (H' & En & _ & Hoth).
  eexists _, s'. split; [cbn [exec]; rewrite (node_at_lookup i s nd Hn); run E; done|]. split.
  - replace (take _ (drop _ (fdata s l))) with (take (Z.to_nat len) (drop (Z.to_nat o) f)); [by apply spec_read|].
    rewrite Ef, skipn_firstn_comm, take_take. f_equal. lia.
  - exists C. split; [done|]. split; [done|]. intros j g Hj. destruct (Ha j g Hj) as (nd2 & m & Hj2 & Hm & -> & Hz). exists nd2, m. rewrite En.
    rewrite (Hoth j nd2 m); [done| |done|done]. rewrite <- Hdom. apply elem_of_dom. eauto.
Qed.

Lemma step_write s live a i o src junk : represents s live a -> admissible live s (Write i o src junk) ->
  exists r s' a', exec (Write i o src junk) s = Done r s' /\ spec (disk_full s') a (Write i o src junk) r a' /\ represents s' (next_live (Write i o src junk) r live) a'.
Proof.
  intros R (Hi & Ho & Hsum & HS & HJ & HJ2). pose proof R as (C & H & Hdom & Ha).
  assert (Hf : is_Some (a !! i)) by (apply elem_of_dom; by rewrite Hdom). destruct Hf as [f Hf].
  destruct (Ha i f Hf) as (nd & l & Hn & Hl & Ef & Hzero). destruct (holds_size s C live i nd l H Hi Hn Hl) as (Hsz & Hlf & Hcap). rewrite <- Ef in Hlf.
  pose proof (size_pos s C live H) as Hcs. pose proof (fdata_length s l ltac:(lia)) as HL.
  destruct (decide (src = [])) as [->|Hne].
  { exists (Count CHIMERA_SUCCESS 0), s, a. split; [|split; [|done]].
    - cbn [exec]. unfold bind at 1, fat32_write_node, bind at 1, geo. change (id (g_fat32 s)) with (g_fat32 s). by rewrite (geo_mounted _ _ (sn_geo _ _ (fs_sane _ _ _ H))).
    - apply spec_write_none. }
  destruct (write_node_ok s C live i nd l H Hn Hi Hl o src junk Hne HS HJ HJ2 Ho Hsum) as (e & w & s' & nd' & l' & d' & E & A & Hr).
  destruct Hr as [(-> & Hw & Hwf & Hcl & Hs' & _ & Hd' & Hpre)|(-> & -> & Hfull & Hs' & Hd' & Hp)].
  - set (D := pad (csize s * Z.of_nat (length l')) (fdata s l)) in *.
    pose proof (represents_after s C live a i nd s' nd' l' d' H Hdom Ha Hi Hn A ltac:(lia)) as R'.
    assert (Hll : Z.of_nat (length (fdata s l)) <= csize s * Z.of_nat (length l')).
    { rewrite HL. pose proof (prefix_length _ _ Hpre). apply Z.mul_le_mono_nonneg_l; lia. }
    assert (HD : length D = Z.to_nat (csize s * Z.of_nat (length l'))) by by apply pad_length.
    assert (Htk : take (Z.to_nat (file_size nd)) D = f) by (rewrite Ef; apply take_pad; lia).
    assert (Hx : length (take (Z.to_nat w) src) = Z.to_nat w) by (rewrite length_take; lia).
    pose proof (write_view D (take (Z.to_nat w) src) (Z.to_nat o) (Z.to_nat (file_size nd)) ltac:(lia) ltac:(lia)) as V.
    rewrite Htk, Hx, Z2Nat.id, <- Hd' in V by done. replace (Nat.max _ _) with (Z.to_nat (file_size nd')) in V by lia. rewrite V in R'.
    eexists _, s', _. split; [cbn [exec]; by run E|]. split; [|exact R'].
    replace w with (Z.of_nat (Z.to_nat w)) at 1 by lia. apply spec_write; [done|lia| |rewrite length_take, length_drop; lia].
    destruct Hwf as [->|Hfull]; [left; lia|right; by apply disk_full_ok].
  - pose proof (represents_after s C live a i nd s' nd' l' d' H Hdom Ha Hi Hn A) as R'. rewrite Hs', Hd', take_pad, <- Ef, insert_id in R' by (done || lia).
    eexists _, s', a. split; [cbn [exec]; by run E|]. split; [apply spec_write_full; by apply disk_full_ok|]. apply R'. intros. by apply zeros_pad, Hzero.
Qed.

Lemma resize_view (d D : list Z) (sz n : Z) : 0 <= sz <= Z.of_nat (length D) -> 0 <= n <= Z.of_nat (length d) ->
  take (Z.to_nat (Z.min sz n)) d = take (Z.to_nat (Z.min sz n)) D -> (forall x, sz <= x < n -> d !! Z.to_nat x = Some 0) ->
  take (Z.to_nat n) d = pad n (take (Z.to_nat n) (take (Z.to_nat sz) D)).
Proof.
  intros Hs Hn Ht Hz. rewrite take_take. replace (Nat.min (Z.to_nat n) (Z.to_nat sz)) with (Z.to_nat (Z.min sz n)) by lia. rewrite <- Ht.
  unfold pad. rewrite length_take. apply list_eq. intros k. destruct (decide (Z.of_nat k < n)) as [Hk|Hk].
  - rewrite lookup_take_lt by lia. destruct (decide (Z.of_nat k < sz)).
    + by rewrite lookup_app_l, lookup_take_lt by (rewrite ?length_take; lia).
    + rewrite lookup_app_r by (rewrite length_take; lia). rewrite lookup_replicate_2 by (rewrite length_take; lia).
      rewrite <- (Hz (Z.of_nat k)) by lia. by rewrite Nat2Z.id.
  - rewrite lookup_take_ge by lia. symmetry. apply lookup_ge_None_2. rewrite length_app, length_take, length_replicate. lia.
Qed.

Lemma step_resize s live a i n : represents s live a -> admissible live s (Resize i n) ->
  exists r s' a', exec (Resize i n) s = Done r s' /\ spec (disk_full s') a (Resize i n) r a' /\ represents s' (next_live (Resize i n) r live) a'.
Proof.
  intros R (Hi & Hn0). pose proof R as (C & H & Hdom & Ha). assert (Hf : is_Some (a !! i)) by (apply elem_of_dom; by rewrite Hdom). destruct Hf as [f Hf].
  destruct (Ha i f Hf) as (nd & l & Hn & Hl & Ef & Hzero). destruct (holds_size s C live i nd l H Hi Hn Hl) as (Hsz & Hlf & Hcap). rewrite <- Ef in Hlf.
  destruct (decide (n < 2 ^ 32)) as [Hlt|Hge].
  2: { exists (Status CHIMERA_ERR_OVERFLOW), s, a. split; [|split; [apply spec_resize_big; lia|done]].
       cbn [exec]. unfold bind at 1, fat32_resize_node, bind at 1, geo. change (id (g_fat32 s)) with (g_fat32 s).
       rewrite (geo_mounted _ _ (sn_geo _ _ (fs_sane _ _ _ H))). cbn [negb]. by destruct (Z.ltb_spec 0xFFFFFFFF n); [|lia]. }
  destruct (resize_node_ok s C live i nd l H Hn Hi Hl n ltac:(lia) Hzero (rounds s) (file_rounds s l (fs_sane _ _ _ H) (fs_file _ _ _ H _ _ Hl)))
    as (e & s' & nd' & l' & d' & E & A & Hr).
  pose proof (represents_after s C live a i nd s' nd' l' d' H Hdom Ha Hi Hn A) as R'. pose proof A as (H' & En & Eg & Ed & _).
  destruct Hr as [(-> & Hs' & Ht & Hz & Hz0)|(-> & Hsn & Hfull & Hs' & Hk & Hkz)].
  - rewrite Hs' in R'. destruct (holds_size s' _ live i nd' l' H' Hi) as (_ & _ & Hcap'); [rewrite En; apply list_lookup_insert_eq; by eapply lookup_lt_Some|apply lookup_insert_eq|].
    rewrite Ed, Hs' in Hcap'. rewrite (resize_view d' (fdata s l) (file_size nd) n), <- Ef in R' by (done || lia).
    eexists _, s', _. split; [cbn [exec]; by run E|]. split; [by apply spec_resize|]. by apply R'.
  - rewrite Hs', Hk, <- Ef, insert_id in R' by done. eexists _, s', a. split; [cbn [exec]; by run E|].
    split; [apply (spec_resize_full _ a i n f); [done|lia|by apply disk_full_ok]|]. by apply R'.
Qed.

Lemma step_unlink s live a look path : represents s live a -> admissible live s (Unlink look path) ->
  exists r s' a', exec (Unlink look path) s = Done r s' /\ spec (disk_full s') a (Unlink look path) r a' /\ represents s' (next_live (Unlink look path) r live) a'.
Proof.
  intros R (i & Hlook & Hi). pose proof R as (C & H & Hdom & Ha). assert (Hf : is_Some (a !! i)) by (apply elem_of_dom; by rewrite Hdom). destruct Hf as [f Hf].
  destruct (Ha i f Hf) as (nd & l & Hn & Hl & Ef & Hzero).
  destruct (unlink_ok s C live i nd l H Hn Hi Hl look path (rounds s) Hlook (file_rounds s l (fs_sane _ _ _ H) (fs_file _ _ _ H _ _ Hl)))
    as (s' & nd' & E & (H' & En & Eg & Ed & Hoth) & _).
  exists (Status CHIMERA_SUCCESS), s', (delete i a). split; [cbn [exec]; by run E|]. split; [by apply spec_unlink|].
  cbn [next_live]. rewrite Hlook. exists (<[Some i := []]> C). split; [done|]. split; [rewrite dom_delete_L; set_solver|].
  intros j g Hj. apply lookup_delete_Some in Hj as [Hne Hj]. destruct (Ha j g Hj) as (nd2 & m & Hj2 & Hm & -> & Hz). exists nd2, m.
  assert (Hjl : j ∈ live) by (rewrite <- Hdom; apply elem_of_dom; eauto).
  rewrite En, list_lookup_insert_ne, lookup_insert_ne by congruence. by rewrite (Hoth j nd2 m).
Qed.

Lemma step_create s live a look path : represents s live a -> admissible live s (Create look path) ->
  exists r s' a', exec (Create look path) s = Done r s' /\ spec (disk_full s') a (Create look path) r a' /\ represents s' (next_live (Create look path) r live) a'.
Proof.
  intros R (Hlook & Hmax & parent & child & pdir & Hsplit & Hpar & Hdir & Hv & Hroom & Hasc). pose proof R as (C & H & Hdom & Ha).
  assert (Hr : (0 < rounds s)%nat) by (unfold rounds; unfold valid in Hv; lia).
  destruct (create_ok s C live look path parent child pdir (rounds s) H Hlook Hsplit Hpar Hdir Hv Hroom Hasc Hmax Hr) as (s' & nd & E & H' & En & Hsz & _ & _ & Hoth).
  set (k := length (s_fat_data s)) in *. assert (Hk : a !! k = None).
  { apply not_elem_of_dom. rewrite Hdom. intros Hin. destruct (fs_live _ _ _ H k Hin) as (nd2 & Hk & _). apply lookup_lt_Some in Hk. unfold k in Hk. lia. }
  eexists _, s', (<[k := []]> a). split; [cbn [exec]; by run E|]. split; [by apply spec_create|].
  cbn [next_live]. exists (<[Some k := []]> C). split; [done|]. split; [rewrite dom_insert_L; set_solver|]. intros j g Hj. destruct (decide (j = k)) as [->|Hne].
  - rewrite lookup_insert_eq in Hj. injection Hj as <-. exists nd, []. rewrite En, lookup_app_r, lookup_insert_eq by (unfold k; lia).
    replace (k - length (s_fat_data s))%nat with 0%nat by (unfold k; lia). change (fdata s' []) with (@nil Z). rewrite take_nil. split_and!; try done. intros _. constructor.
  - rewrite lookup_insert_ne in Hj by done. destruct (Ha j g Hj) as (nd2 & m & Hj2 & Hm & -> & Hz). exists nd2, m.
    assert (Hjl : j ∈ live) by (rewrite <- Hdom; apply elem_of_dom; eauto).
    rewrite En, lookup_insert_ne by congruence. rewrite (lookup_app_l_Some _ _ _ _ Hj2). by rewrite (Hoth j nd2 m).
Qed.

(** ** Histories *)

(** Every call takes its place in a sequence, with its result and whether the
    disk is full after it. *)
Inductive runs : fat -> gset nat -> list (call * result * bool) -> fat -> gset nat -> Prop :=
| runs_nil s live : runs s live [] s live
| runs_cons s live c r s1 t s2 live2 : admissible live s c -> exec c s = Done r s1 -> runs s1 (next_live c r live) t s2 live2 ->
    runs s live ((c, r, disk_full s1) :: t) s2 live2.
Inductive spec_runs : files -> list (call * result * bool) -> files -> Prop :=
| spec_runs_nil a : spec_runs a [] a
| spec_runs_cons a c r b a1 t a2 : spec b a c r a1 -> spec_runs a1 t a2 -> spec_runs a ((c, r, b) :: t) a2.

Lemma fs_step_ok s live a c : represents s live a -> admissible live s c ->
  exists r s' a', exec c s = Done r s' /\ spec (disk_full s') a c r a' /\ represents s' (next_live c r live) a'.
Proof.
  intros R Hc. destruct c; [|by apply step_write|by apply step_resize|by apply step_unlink|by apply step_create].
  destruct (step_read _ _ _ _ _ _ R Hc) as (r & s' & ?). by exists r, s', a.
Qed.

(** ** Names *)

(** Characters that the encoding keeps: no capitals, blanks or dots. *)
Definition plain (c : Z) : Prop := ascii c /\ c <> 32 /\ c <> 46 /\ ~ (65 <= c <= 90).
Definition dotted (name ext : list Z) : list Z := match ext with [] => name | _ => name ++ 46 :: ext end.

Lemma to_upper_dot c : plain c -> to_upper c <> 46 /\ to_upper c <> 32 /\ to_lower (to_upper c) = c.
Proof. unfold plain, ascii, to_upper, to_lower. repeat case_match; lia. Qed.
Lemma last_dot_plain l : Forall plain l -> last_dot (to_upper <$> l) = None.
Proof.
  induction 1 as [|c l Hc _ IH]; [done|]. cbn. rewrite IH. destruct (to_upper_dot c Hc) as [Hd _]. by destruct (Z.eqb_spec (to_upper c) 46).
Qed.
Lemma last_dot_app l1 l2 : last_dot l2 = None -> last_dot (l1 ++ 46 :: l2) = Some (length l1).
Proof. intros H. induction l1 as [|c l1 IH]; cbn; [by rewrite H|by rewrite IH]. Qed.
Lemma blank_pad_filter n l : Forall plain l -> (length l <= n)%nat ->
  to_lower <$> filter (fun c => c <> 32) (blank_pad n (to_upper <$> l)) = l.
Proof.
  intros Hl Hn. unfold blank_pad. rewrite take_app_ge by by rewrite length_fmap. rewrite take_replicate, filter_app.
  assert (Eb : forall m, filter (fun c => c <> 32) (replicate m 32) = []) by (induction m as [|m IH]; [done|cbn; rewrite decide_False by tauto; exact IH]).
  rewrite Eb, app_nil_r. clear Hn. induction Hl as [|c l Hc _ IH]; [done|]. destruct (to_upper_dot c Hc) as (_ & Hb & He).
  rewrite fmap_cons, filter_cons, decide_True by done. by rewrite fmap_cons, He, IH.
Qed.

(** C30: A name of at most eight characters and an extension of at most three,
    without capitals, blanks and further dots, are read back from the
    directory entry as they were written. *)
Theorem fat32_name_roundtrip name ext : Forall plain name -> Forall plain ext -> (length name <= 8)%nat -> (length ext <= 3)%nat ->
  fat32_format_name (fat32_make_83_name (dotted name ext)) 256 = dotted name ext.
Proof.
  intros Hn He Ln Le.
  assert (Em : fat32_make_83_name (dotted name ext) = blank_pad 8 (to_upper <$> name) ++ blank_pad 3 (to_upper <$> ext)).
  { unfold fat32_make_83_name, dotted. destruct ext as [|x ext].
    - rewrite firstn_all2 by lia. by rewrite last_dot_plain.
    - rewrite firstn_all2 by (rewrite length_app; cbn in *; lia). rewrite fmap_app, fmap_cons. change (to_upper 46) with 46.
      rewrite last_dot_app by by apply last_dot_plain. rewrite take_app_length. rewrite drop_app_ge by lia.
      by replace (S (length (to_upper <$> name)) - length (to_upper <$> name))%nat with 1%nat by lia. }
  rewrite Em. unfold fat32_format_name. rewrite take_app_length' by by rewrite blank_pad_length. rewrite drop_app_length' by by rewrite blank_pad_length.
  rewrite (firstn_all2 (blank_pad 3 _)) by by rewrite blank_pad_length. rewrite !blank_pad_filter by done.
  rewrite firstn_all2; [done|]. destruct ext; rewrite ?length_app; cbn in *; lia.
Qed.
(** ** The lock *)

Lemma update_deadlock s nd : lock s = true -> is_cluster (parent_dir_cluster nd) = true -> 0 < csize s <= dir_entry_offset nd ->
  fat32_update_dir_entry nd s = Deadlock.
Proof.
  intros Hl Hp Ho. unfold fat32_update_dir_entry. assert (2 <= parent_dir_cluster nd) by (unfold is_cluster in Hp; lia).
  destruct (Z.ltb_spec (parent_dir_cluster nd) 2); [lia|]. unfold bind at 1, geo. change (id (g_fat32 s)) with (g_fat32 s).
  assert (1 <= dir_entry_offset nd / csize s) by (apply Z.div_le_lower_bound; lia).
  destruct (Z.to_nat (dir_entry_offset nd / csize s)) as [|fuel] eqn:Ef; [lia|]. unfold bind at 1. cbn [dir_walk].
  destruct (Z.leb_spec (csize s) (dir_entry_offset nd)); [|lia]. rewrite Hp. cbn [andb]. unfold bind, fat32_get_next_cluster, bind, lock_fat. by rewrite Hl.
Qed.

(** C37: Appending to a file whose directory entry lies behind the first
    cluster of its directory never returns: with the lock held,
    [fat32_update_dir_entry] follows the chain of the directory through
    [fat32_get_next_cluster], which takes the lock again. *)
Theorem fat32_write_deadlock s i nd l o src junk : sane s -> lock s = false -> s_fat_data s !! i = Some nd -> file s l -> l <> [] ->
  start_cluster nd = default 0 (head l) -> is_cluster (parent_dir_cluster nd) = true -> csize s <= dir_entry_offset nd ->
  0 <= o -> file_size nd <= o < csize s * Z.of_nat (length l) -> o + Z.of_nat (length src) < 2 ^ 32 ->
  src <> [] -> Forall is_byte src -> Forall is_byte junk -> length junk = 4096%nat ->
  fat32_write_node i o src junk s = Deadlock.
Proof.
  intros S Hlk Hn L Hne Hst Hp Hoff Ho0 Ho Hsum Hsrc HS HJ HJ2. pose proof (sn_geo _ _ S) as G. pose proof (geo_size _ _ G) as Hsz. pose proof (geo_spc _ _ G) as Hspc.
  assert (Hl0 : 0 < Z.of_nat (length src)) by (destruct src; [done|cbn; lia]). set (s0 := s <| lock := true |>).
  assert (S0 : sane s0) by (destruct S; by split). assert (L0 : file s0 l) by (eapply file_frame; [..|exact L]; done).
  assert (Hk0 : l !! 0%nat = Some (start_cluster nd)) by (rewrite Hst; by destruct l).
  pose proof (fl_valid _ _ L _ (list_elem_of_lookup_2 _ _ _ Hk0)) as Hv. unfold valid in Hv.
  destruct (write_skip_ok (Z.to_nat (o / csize s)) s0 l 0 _ S0 L0 Hk0) as (r & s1 & l1 & E1 & G1 & Hr).
  pose proof (Z.div_mod o (csize s) ltac:(lia)) as Hdm. pose proof (Z.mod_pos_bound o (csize s) ltac:(lia)) as Hmb. assert (0 <= o / csize s) by (apply Z.div_pos; lia).
  assert (Hq : (Z.to_nat (o / csize s) < length l)%nat) by (apply Nat2Z.inj_lt; rewrite Z2Nat.id by done; apply Z.div_lt_upper_bound; lia).
  unfold fat32_write_node. unfold bind at 1, geo. change (id (g_fat32 s)) with (g_fat32 s). rewrite (geo_mounted _ _ G). cbn [negb orb].
  destruct (Z.eqb_spec (Z.of_nat (length src)) 0); [lia|]. unfold bind at 1, lock_fat. rewrite Hlk. fold s0. unfold bind at 1, get.
  assert (Hn0 : node_at i s0 = nd) by by apply node_at_lookup. rewrite Hn0. destruct (Z.ltb_spec (start_cluster nd) 2); [lia|].
  unfold bind at 1. unfold ret at 1. cbn [negb]. unfold bind at 1. rewrite Hn0. run E1. pose proof (gr_frame _ _ _ _ _ G1) as (Eg1 & _ & Fl1 & Fn1).
  destruct r as [c'|].
  2: { destruct (write_skip_inside (Z.to_nat (o / csize s)) s0 l 0 _ S0 L0 Hk0 Hq) as (c' & s1' & E1'). rewrite E1 in E1'. done. }
  destruct Hr as [Hk Hl1]. destruct (write_loop_ok (Datatypes.S (length src)) s1 l1 _ c' (o mod csize s) 0 src junk (gr_sane _ _ _ _ _ G1) (gr_file _ _ _ _ _ G1) Hk
    ltac:(by rewrite Eg1) HS HJ HJ2 ltac:(lia) Hsrc) as (w & s2 & l2 & E2 & Hw & _ & _ & _ & G2).
  run E2. pose proof (gr_frame _ _ _ _ _ G2) as (Eg2 & _ & Fl2 & Fn2). unfold bind at 1.
  assert (Hn2 : node_at i s2 = nd) by (apply node_at_lookup; rewrite Fn2, Fn1; exact Hn). rewrite Hn2. rewrite Z.add_0_l, u32_id by lia.
  destruct (Z.ltb_spec (file_size nd) (o + w)); [|lia]. unfold bind at 1, bind at 1, set_node, modify. cbn [bind].
  unfold bind at 1, update_entry_of. rewrite (update_deadlock _ _); [done| | |]; cbn.
  - rewrite Fl2, Fl1. done.
  - unfold node_at. cbn. rewrite Fn2, Fn1. cbn. rewrite (alter_insert _ _ i nd Hn). rewrite (nth_lookup_Some _ i _ _ (list_lookup_insert_eq _ _ _ (lookup_lt_Some _ _ _ Hn))). done.
  - unfold node_at. cbn. rewrite Fn2, Fn1, Eg2, Eg1. cbn. rewrite (alter_insert _ _ i nd Hn). rewrite (nth_lookup_Some _ i _ _ (list_lookup_insert_eq _ _ _ (lookup_lt_Some _ _ _ Hn))).
    cbn. lia.
Qed.
(** ** Mounting *)

(** Everything but the bitmap and its counter is as in [s]. *)
Definition same_disk (s s' : fat) : Prop :=
  g_fat32 s' = g_fat32 s /\ sector_count s' = sector_count s /\ disk s' = disk s /\ faults s' = faults s /\ lock s' = lock s
  /\ s_cached_fat_sec s' = s_cached_fat_sec s /\ s_cached_fat_buf s' = s_cached_fat_buf s /\ s_bitmap_clusters s' = s_bitmap_clusters s
  /\ s_free_hint s' = s_free_hint s /\ s_fat_data s' = s_fat_data s.
#[global] Instance same_disk_preorder : PreOrder same_disk.
Proof. split; unfold same_disk; [done|]. intros x y z. naive_solver congruence. Qed.

Lemma sector_cluster_ok sec k : 0 <= sec < 2 ^ 23 -> 0 <= k < 128 -> sector_cluster sec k = 128 * sec + k.
Proof.
  intros Hs Hk. unfold sector_cluster, ATA_SECTOR_SIZE. rewrite (u32_id (sec * 512)) by lia. rewrite u32_id by lia.
  replace (sec * 512 + 4 * k) with ((128 * sec + k) * 4) by lia. by apply Z.div_mul.
Qed.

(** The used ones among the first [m] clusters are no longer in the bitmap. *)
Definition unbooked (s : fat) (m : Z) (b0 b : gset Z) : Prop :=
  forall j, j ∈ b <-> j ∈ b0 /\ ~ (0 <= j < nclusters (g_fat32 s) /\ j + 2 < m /\ entry s (j + 2) <> 0).

Lemma entry_same_disk s s' c : same_disk s s' -> entry s' c = entry s c.
Proof. intros (Eg & _ & Ed & _). unfold entry, word. by rewrite Eg, Ed. Qed.

Section Fill.
Context (s : fat) (b0 : gset Z) (G : geometry (g_fat32 s) (sector_count s)) (Hb : s_bitmap_clusters s = nclusters (g_fat32 s)) (Hf : faults s = []).

Lemma bitmap_entry_ok sec s1 b k : 0 <= sec < sectors_per_fat (g_fat32 s) -> 0 <= k < 128 -> same_disk s s1 -> s_free_bitmap s1 = Some b -> unbooked s (128 * sec + k) b0 b ->
  let s2 := bitmap_entry sec (load_bytes (disk s) (512 * (reserved_sectors (g_fat32 s) + sec)) 512) s1 k in
  same_disk s s2 /\ exists b', s_free_bitmap s2 = Some b' /\ unbooked s (128 * sec + (k + 1)) b0 b'.
Proof.
  intros Hs Hk SD Eb Hc. cbv zeta. pose proof SD as (_ & _ & _ & _ & _ & _ & _ & En & _). pose proof (nclusters_range _ _ G) as [Hn _]. pose proof (geo_few _ _ G) as Hfew.
  pose proof (geo_per_fat _ _ G) as Hpf. unfold bitmap_entry. rewrite sector_cluster_ok, En, Hb by lia. rewrite u32_id by lia. rewrite get_u32_load by lia.
  assert (He : Z.land (le_value (load_bytes (disk s) (512 * (reserved_sectors (g_fat32 s) + sec) + 4 * k) 4)) 268435455 = entry s (128 * sec + k)).
  { unfold entry, word, eaddr. do 3 f_equal. lia. }
  rewrite He. destruct ((128 * sec + k <? 2) || (nclusters (g_fat32 s) + 2 <=? 128 * sec + k) || (entry s (128 * sec + k) =? 0)) eqn:Ec.
  - split; [done|]. exists b. split; [done|]. intros j. rewrite (Hc j). split; intros [H1 H2]; (split; [done|]); intros (H3 & H4 & H5); apply H2; [|by split_and!; lia].
    split_and!; try lia. destruct (decide (j + 2 = 128 * sec + k)) as [Ej|]; [rewrite Ej in H5; lia|lia].
  - assert (2 <= 128 * sec + k < nclusters (g_fat32 s) + 2 /\ entry s (128 * sec + k) <> 0) as [Hr Hne] by lia.
    split; [by etrans; [exact SD|]|]. exists (b ∖ {[u32 (128 * sec + k - 2)]}). cbn. rewrite Eb. split; [done|]. rewrite u32_id by lia. intros j.
    rewrite elem_of_difference, elem_of_singleton, (Hc j). destruct (decide (j = 128 * sec + k - 2)) as [Ej|Ej].
    + split; [tauto|]. intros [H1 H2]. exfalso. apply H2. replace (j + 2) with (128 * sec + k) by lia. split_and!; [lia|lia|lia|done].
    + split; [intros [[H1 H2] _]|intros [H1 H2]; split; [|done]]; (split; [done|]); intros (H3 & H4 & H5); apply H2; split_and!; lia || done.
Qed.

Lemma bitmap_sector_ok n sec k s1 b : 0 <= sec < sectors_per_fat (g_fat32 s) -> 0 <= k -> k + Z.of_nat n <= 128 -> same_disk s s1 -> s_free_bitmap s1 = Some b ->
  unbooked s (128 * sec + k) b0 b ->
  let s2 := foldl (bitmap_entry sec (load_bytes (disk s) (512 * (reserved_sectors (g_fat32 s) + sec)) 512)) s1 (seqZ k (Z.of_nat n)) in
  same_disk s s2 /\ exists b', s_free_bitmap s2 = Some b' /\ unbooked s (128 * sec + (k + Z.of_nat n)) b0 b'.
Proof.
  revert k s1 b. induction n as [|n IH]; intros k s1 b Hs Hk Hkn SD Eb Hc; cbv zeta.
  - split; [done|]. exists b. by rewrite Z.add_0_r.
  - rewrite seqZ_cons by lia. cbn [foldl]. destruct (bitmap_entry_ok sec s1 b k Hs ltac:(lia) SD Eb Hc) as (SD1 & b1 & Eb1 & Hc1).
    replace (Z.pred (Z.of_nat (Datatypes.S n))) with (Z.of_nat n) by lia. replace (Z.succ k) with (k + 1) by lia.
    destruct (IH (k + 1) _ b1 Hs ltac:(lia) ltac:(lia) SD1 Eb1 Hc1) as (SD2 & b2 & Eb2 & Hc2). split; [done|]. exists b2. split; [done|].
    by replace (k + Z.of_nat (Datatypes.S n)) with (k + 1 + Z.of_nat n) by lia.
Qed.

Lemma bitmap_fill_ok n sec s1 b : 0 <= sec -> sec + Z.of_nat n = sectors_per_fat (g_fat32 s) -> same_disk s s1 -> s_free_bitmap s1 = Some b -> unbooked s (128 * sec) b0 b ->
  exists s2 b', bitmap_fill n sec s1 = Done tt s2 /\ same_disk s s2 /\ s_free_bitmap s2 = Some b' /\ unbooked s (128 * sectors_per_fat (g_fat32 s)) b0 b'.
Proof.
  revert sec s1 b. induction n as [|n IH]; intros sec s1 b Hs Hn SD Eb Hc; cbn [bitmap_fill].
  - exists s1, b. replace (sectors_per_fat (g_fat32 s)) with sec by lia. done.
  - pose proof SD as (Eg & Es & Ed & Ef & _). pose proof (data_start_pos _ _ G). pose proof (geo_total _ _ G). pose proof (geo_sectors _ _ G). pose proof (geo_reserved _ _ G).
    unfold bind at 1, geo. rewrite Eg. rewrite u32_id by lia. unfold bind at 1. rewrite read_new_ok; [|congruence|lia|rewrite Es; lia].
    change (512 * 1) with 512. rewrite Ed. unfold bind at 1, modify.
    destruct (bitmap_sector_ok 128 sec 0 s1 b ltac:(lia) ltac:(lia) ltac:(lia) SD Eb) as (SD2 & b2 & Eb2 & Hc2); [by rewrite Z.add_0_r|].
    apply (IH (sec + 1) _ b2); [lia|lia|exact SD2|exact Eb2|]. by replace (128 * (sec + 1)) with (128 * sec + (0 + Z.of_nat 128)) by lia.
Qed.
End Fill.

Definition mirrored (g : fat32_fs) (m : gmap Z Z) : Prop := forall x, 0 <= x < 512 * sectors_per_fat g ->
  load8 m (512 * (reserved_sectors g + sectors_per_fat g) + x) = load8 m (512 * reserved_sectors g + x).

Lemma build_bitmap_ok s ok : geometry (g_fat32 s) (sector_count s) -> faults s = [] -> length (s_cached_fat_buf s) = 512%nat -> s_cached_fat_sec s = None ->
  s_free_bitmap s = None -> s_free_hint s = 2 -> mirrored (g_fat32 s) (disk s) ->
  exists s', fat32_build_bitmap ok s = Done tt s' /\ sane s' /\ disk s' = disk s /\ g_fat32 s' = g_fat32 s /\ lock s' = lock s /\ s_fat_data s' = s_fat_data s
    /\ sector_count s' = sector_count s.
Proof.
  intros G Hf Hl Hc Hb Hh Hm. pose proof (nclusters_range _ _ G) as [Hn _]. unfold fat32_build_bitmap. unfold bind at 1, geo. change (id (g_fat32 s)) with (g_fat32 s).
  fold (nclusters (g_fat32 s)). unfold bind at 1, modify. set (s1 := s <| s_bitmap_clusters := nclusters (g_fat32 s) |>).
  destruct ((2 <=? nclusters (g_fat32 s)) && (u32 (nclusters (g_fat32 s) + 7) / 8 <=? FAT_BITMAP_MAX_BYTES)) eqn:Ec.
  2: { exists s1. split; [done|]. split; [|done]. split; try done; cbn; [by rewrite Hc|by rewrite Hb|rewrite Hh; lia]. }
  destruct ok.
  2: { exists (s1 <| s_free_bitmap := None |>). split; [done|]. split; [|done]. split; try done; cbn; [by rewrite Hc|rewrite Hh; lia]. }
  set (b0 := list_to_set (seqZ 0 (8 * (u32 (nclusters (g_fat32 s) + 7) / 8))) : gset Z). unfold bind at 1.
  set (s2 := s1 <| s_free_bitmap := Some b0 |> <| s_free_count := nclusters (g_fat32 s) |> <| s_free_hint := 2 |>).
  pose proof (geo_per_fat _ _ G) as Hpf. pose proof (geo_few _ _ G) as Hfew. pose proof (geo_table _ _ G) as Htab.
  destruct (bitmap_fill_ok s2 b0 G eq_refl Hf (Z.to_nat (sectors_per_fat (g_fat32 s))) 0 s2 b0) as (s3 & b3 & E3 & SD & Eb & Hcl); [done|cbn; lia|done|done| |].
  { intros j. split; [|tauto]. intros Hj. split; [done|lia]. }
  exists s3. split; [exact E3|]. pose proof SD as (Eg & Es & Ed & Ef & Elk & Ecs & Ecb & En & Ehi & Eda). split; [|done].
  split; rewrite ?Eg, ?Es, ?Ef, ?Ecb, ?Ecs, ?Ed, ?Ehi; try done.
  - cbn. by rewrite Hc.
  - intros b Hb3. rewrite Eb in Hb3. injection Hb3 as <-. rewrite En. split; [done|]. intros c Hv _. rewrite (Hcl (c - 2)), (entry_same_disk s2 s3 c SD). unfold valid in Hv. cbn in Hv.
    replace (c - 2 + 2) with c by lia. assert (Hin : c - 2 ∈ b0).
    { unfold b0. rewrite elem_of_list_to_set, elem_of_seqZ. rewrite u32_id by lia. pose proof (Z.div_mod (nclusters (g_fat32 s) + 7) 8 ltac:(done)).
      pose proof (Z.mod_pos_bound (nclusters (g_fat32 s) + 7) 8 ltac:(done)). lia. }
    cbn in *. split; [intros [_ H2]; destruct (decide (entry s2 c = 0)); [done|]; exfalso; apply H2; split_and!; [lia|lia|lia|done]|]. intros Hz. split; [done|]. tauto.
  - cbn. lia.
Qed.

Definition good_boot (B : list Z) : bool := (get_u8 510 B =? 0x55) && (get_u8 511 B =? 0xAA).
Definition supported (g : fat32_fs) : bool :=
  (bytes_per_sector g =? 512) && negb (sectors_per_cluster g =? 0) && (sectors_per_cluster g <=? 64) && negb (sectors_per_fat g =? 0).


(** ** A small volume *)

(** Seven sectors: the boot sector, two tables and four clusters, of which 2
    and 3 are in use. *)
Definition demo_boot : list Z := patch 510 [0x55; 0xAA] (patch 44 [2] (patch 36 [1] (patch 32 [7] (patch 11 [0; 2; 1; 1; 0; 2] (replicate 512 0))))).
Definition demo_table : list Z := le_bytes 4 EOC ++ le_bytes 4 EOC.
Definition demo_disk : gmap Z Z := store_bytes 0 demo_boot (store_bytes 520 demo_table (store_bytes 1032 demo_table ∅)).
Definition demo_geo : fat32_fs :=
  {| bytes_per_sector := 512; sectors_per_cluster := 1; reserved_sectors := 1; num_fats := 2; total_sectors := 7; sectors_per_fat := 1;
     root_cluster := 2; data_start_lba := 3; cluster_size_bytes := 512; mounted := true |}.
Definition demo (g : fat32_fs) (b : option (gset Z)) (nodes : list fat32_node) : fat :=
  {| g_fat32 := g; sector_count := 7; disk := demo_disk; faults := []; lock := false; s_cached_fat_sec := None; s_cached_fat_buf := replicate 512 0;
     s_free_bitmap := b; s_bitmap_clusters := 4; s_free_hint := 2; s_free_count := 2; s_fat_data := nodes |}.
Notation volume := (demo demo_geo (Some {[2; 3]})).

Lemma demo_boot_bytes : Forall is_byte demo_boot.
Proof. unfold demo_boot. repeat apply patch_bytes; [by repeat constructor..|by apply Forall_replicate]. Qed.
Lemma demo_table_bytes : Forall is_byte demo_table.
Proof. apply Forall_app. split; apply le_bytes_bytes. Qed.
Lemma demo_byte x : load8 demo_disk x
  = if decide (0 <= x < 512) then demo_boot !!! Z.to_nat x else if decide (520 <= x < 528) then demo_table !!! Z.to_nat (x - 520)
    else if decide (1032 <= x < 1040) then demo_table !!! Z.to_nat (x - 1032) else 0.
Proof.
  unfold demo_disk. rewrite load8_store_bytes by apply demo_boot_bytes. change (Z.of_nat (length demo_boot)) with 512. rewrite Z.sub_0_r, Z.add_0_l. case_decide; [done|].
  rewrite load8_store_bytes by apply demo_table_bytes. change (520 + Z.of_nat (length demo_table)) with 528. case_decide; [done|].
  rewrite load8_store_bytes by apply demo_table_bytes. change (1032 + Z.of_nat (length demo_table)) with 1040. case_decide; [done|].
  unfold load8, load. rewrite lookup_empty. cbn. by rewrite Z.shiftr_0_l.
Qed.
Lemma demo_geometry : geometry demo_geo 7.
Proof. by split. Qed.
Lemma demo_mirrored : mirrored demo_geo demo_disk.
Proof.
  intros x Hx. cbn in Hx. change (512 * (reserved_sectors demo_geo + sectors_per_fat demo_geo)) with 1024. change (512 * reserved_sectors demo_geo) with 512.
  rewrite !demo_byte. repeat case_decide; try lia; try done. f_equal. lia.
Qed.
Lemma demo_boot_read : load_bytes demo_disk 0 512 = demo_boot.
Proof.
  apply list_eq_same_length with 512%nat; [done|by rewrite load_bytes_len|]. intros k x y Hk Hx Hy. rewrite <- (Nat2Z.id k), load_bytes_at in Hx by lia. injection Hx as <-.
  rewrite demo_byte, decide_True by lia. apply list_lookup_total_correct. rewrite <- Hy. f_equal. lia.
Qed.
Lemma demo_entry b nodes c : 2 <= c < 6 -> entry (demo demo_geo b nodes) c = if decide (c < 4) then EOC else 0.
Proof.
  intros Hc. unfold entry, word, eaddr. cbn [g_fat32 disk demo]. change (512 * reserved_sectors demo_geo) with 512.
  assert (Hcs : c = 2 \/ c = 3 \/ c = 4 \/ c = 5) by lia.
  assert (El : forall a, load_bytes demo_disk a 4 = [load8 demo_disk a; load8 demo_disk (a + 1); load8 demo_disk (a + 2); load8 demo_disk (a + 3)])
    by (intros a; unfold load_bytes; change (seqZ 0 4) with [0; 1; 2; 3]; cbn [fmap list_fmap]; by rewrite Z.add_0_r).
  rewrite El, !demo_byte. destruct Hcs as [->|[->|[->| ->]]]; vm_compute; done.
Qed.
Lemma demo_sane nodes : sane (volume nodes).
Proof.
  split; [apply demo_geometry|reflexivity|reflexivity|discriminate|apply demo_mirrored| |change (nclusters _) with 4; cbn [s_free_hint demo]; lia].
  intros b [= <-]. split; [done|]. intros c Hc _. unfold valid in Hc. change (nclusters _) with 4 in Hc.
  rewrite demo_entry by lia. case_decide; [|set_solver by lia]. split; [set_solver by lia|done].
Qed.
Lemma demo_file nodes c : c = 2 \/ c = 3 -> file (volume nodes) [c].
Proof.
  intros Hc. assert (He : entry (volume nodes) c = EOC) by (rewrite demo_entry by lia; by rewrite decide_True by lia).
  split; [intros x ->%list_elem_of_singleton; unfold valid; change (nclusters _) with 4; lia| |intros x ->%list_elem_of_singleton; by rewrite He].
  cbn. unfold nxt. by rewrite He.
Qed.

Lemma demo_represents : represents (volume []) ∅ ∅.
Proof.
  exists {[None := [2]]}. split; [|split; [by rewrite dom_empty_L|by intros i f Hf]].
  split; [apply demo_sane|reflexivity| | |discriminate|intros i _; by rewrite lookup_singleton_ne|set_solver|set_solver|].
  - intros o l [<- <-]%lookup_singleton_Some. apply demo_file. by left.
  - intros o o' l l' c Hn [<- _]%lookup_singleton_Some [<- _]%lookup_singleton_Some. done.
  - exists [2]. by rewrite lookup_singleton_eq.
Qed.
(** The names of a file system with nothing but the root directory. *)
Definition demo_look (path : list Z) : option (option nat) := if decide (path = [47]) then Some None else None.

Lemma demo_create : admissible ∅ (volume []) (Create demo_look [47; 97]).
Proof.
  split; [done|]. split; [cbn; unfold FAT32_MAX_VNODES; lia|]. exists [47], [97], None. split; [done|]. split; [done|]. split; [done|].
  change (parent_cluster None (volume [])) with 2. split; [unfold valid; change (nclusters _) with 4; lia|]. split; [|repeat constructor; done].
  exists 0. split; [by vm_compute|]. unfold slot_live. rewrite slot_first_byte. change (dbyte _ _ _) with (load8 demo_disk 1536). rewrite demo_byte.
  rewrite !decide_False by lia. tauto.
Qed.

(** A file is created, written and read. *)
Lemma three_calls s a look path : represents s ∅ a -> admissible ∅ s (Create look path) -> exists t s' live', length t = 3%nat /\ runs s ∅ t s' live'.
Proof.
  intros R A1. destruct (fs_step_ok _ _ _ _ R A1) as (r1 & s1 & a1 & E1 & H1 & R1). inversion H1 as [| | | | | | | |look' path' k Hk]; subst.
  cbn [next_live] in R1. assert (Hin : k ∈ (∅ ∪ {[k]} : gset nat)) by (apply elem_of_union_r; by apply elem_of_singleton).
  assert (A2 : admissible (∅ ∪ {[k]}) s1 (Write k 0 [104; 105] (replicate 4096 0))).
  { split; [exact Hin|]. split; [lia|]. split; [cbn; lia|]. split; [repeat constructor; lia|]. split; [apply Forall_replicate; split; lia|apply length_replicate]. }
  destruct (fs_step_ok _ _ _ _ R1 A2) as (r2 & s2 & a2 & E2 & H2 & R2).
  assert (A3 : admissible (∅ ∪ {[k]}) s2 (Read k 0 2)) by (split; [exact Hin|lia]).
  destruct (fs_step_ok _ _ _ _ R2 A3) as (r3 & s3 & a3 & E3 & H3 & R3).
  eexists _, s3, _. split; [|eapply runs_cons; [exact A1|exact E1|]; eapply runs_cons; [exact A2|exact E2|]; eapply runs_cons; [exact A3|exact E3|apply runs_nil]].
  reflexivity.
Qed.


Lemma fat32_name_roundtrip_witness :
  fat32_format_name (fat32_make_83_name (dotted [104; 105] [116; 120; 116])) 256 = dotted [104; 105] [116; 120; 116].
Proof. apply (fat32_name_roundtrip [104; 105] [116; 120; 116]); [repeat constructor; lia|repeat constructor; lia|cbn; lia|cbn; lia]. Defined.

(** A file of one cluster with its entry in the second cluster of a directory. *)
Definition demo_far : fat32_node :=
  {| start_cluster := 3; file_size := 10; is_dir := false; parent_dir_cluster := 2; dir_entry_offset := 512; va_size := 10 |}.

Lemma fat32_write_deadlock_witness : fat32_write_node 0 10 [1; 2; 3] (replicate 4096 0) (volume [demo_far]) = Deadlock.
Proof.
  apply (fat32_write_deadlock (volume [demo_far]) 0 demo_far [3] 10 [1; 2; 3] (replicate 4096 0)).
  - apply demo_sane.
  - reflexivity.
  - reflexivity.
  - apply demo_file. right. reflexivity.
  - discriminate.
  - reflexivity.
  - reflexivity.
  - cbn. lia.
  - lia.
  - cbn. lia.
  - cbn. lia.
  - discriminate.
  - repeat constructor; lia.
  - apply Forall_replicate. split; lia.
  - apply length_replicate.
Defined.

Definition demo_unmounted : fat := demo no_geometry None [].
Lemma demo_start : lock demo_unmounted = false /\ faults demo_unmounted = [] /\ 1 <= sector_count demo_unmounted /\ length (s_cached_fat_buf demo_unmounted) = 512%nat
  /\ s_cached_fat_sec demo_unmounted = None /\ s_free_bitmap demo_unmounted = None /\ s_free_hint demo_unmounted = 2.
Proof. by vm_compute. Qed.
Lemma demo_mountable : let B := load_bytes (disk demo_unmounted) 0 512 in let g := mounted_geometry (boot_geometry B) in
  good_boot B = true /\ supported (boot_geometry B) = true /\ geometry g (sector_count demo_unmounted) /\ mirrored g (disk demo_unmounted) /\ root_cluster g = 2.
Proof.
  cbv zeta. change (disk demo_unmounted) with demo_disk. rewrite demo_boot_read.
  assert (E : mounted_geometry (boot_geometry demo_boot) = demo_geo) by by vm_compute. rewrite E.
  split; [by vm_compute|]. split; [by vm_compute|]. split; [apply demo_geometry|]. split; [apply demo_mirrored|done].
Qed.

End Fat32Correct.
