(* ===== verification/Checksum.v ===== *)
(** * The Internet checksum

    Model of [in_checksum] and [in_pseudo_checksum] in [kernel/net/ip.c] and
    of the byte order functions in [kernel/include/net/protocols.h].  Buffers
    are lists of bytes; 16-bit loads are little endian, as on the machine the
    kernel runs on. *)

From S2P Require Import Prelude.

Module Checksum.

(** ** Byte order *)

Definition htons (v : Z) : Z := u16 (Z.lor (Z.shiftl (Z.land v 0xFF) 8) (Z.land (Z.shiftr v 8) 0xFF)).
Definition ntohs (v : Z) : Z := htons v.

Definition htonl (v : Z) : Z :=
  u32 (Z.lor (Z.lor (Z.lor (Z.shiftl (Z.land v 0xFF) 24) (Z.shiftl (Z.land (Z.shiftr v 8) 0xFF) 16))
    (Z.shiftl (Z.land (Z.shiftr v 16) 0xFF) 8)) (Z.land (Z.shiftr v 24) 0xFF)).
Definition ntohl (v : Z) : Z := htonl v.

(** ** The checksum *)

(** The loop over 16-bit words and the odd byte, in a 32-bit accumulator. *)
Fixpoint sum16 (l : list Z) (sum : Z) : Z :=
  match l with
  | b0 :: b1 :: l' => sum16 l' (u32 (sum + (b0 + 256 * b1)))
  | [b] => u32 (sum + b)
  | [] => sum
  end.

(** [while (sum >> 16)]; three rounds always suffice ([fold_carries_done]). *)
Fixpoint fold_carries (n : nat) (sum : Z) : Z :=
  match n with
  | O => sum
  | S n => if Z.shiftr sum 16 =? 0 then sum else fold_carries n (u32 (Z.land sum 0xFFFF + Z.shiftr sum 16))
  end.

Definition in_checksum (buf : list Z) : Z := u16 (Z.lnot (fold_carries 3 (sum16 buf 0))).

(** The words of the pseudo header, then the payload. *)
Definition pseudo_sum (src dst proto proto_len : Z) : Z :=
  let sum := u32 (0 + Z.land (Z.shiftr src 16) 0xFFFF) in
  let sum := u32 (sum + Z.land src 0xFFFF) in
  let sum := u32 (sum + Z.land (Z.shiftr dst 16) 0xFFFF) in
  let sum := u32 (sum + Z.land dst 0xFFFF) in
  let sum := u32 (sum + htons (u16 proto)) in
  u32 (sum + htons proto_len).

Definition in_pseudo_checksum (src dst proto proto_len : Z) (payload : list Z) : Z :=
  u16 (Z.lnot (fold_carries 3 (sum16 payload (pseudo_sum src dst proto proto_len)))).

(** ** Byte order by arithmetic *)

Ltac divmod := Z.to_euclidean_division_equations; lia.

Lemma land_255 v : Z.land v 0xFF = v mod 256.
Proof. apply (Z.land_ones v 8). lia. Qed.

Lemma land_65535 v : Z.land v 0xFFFF = v mod 65536.
Proof. apply (Z.land_ones v 16). lia. Qed.

Lemma htons_swap v : 0 <= v < 65536 -> htons v = 256 * (v mod 256) + v / 256.
Proof.
  intros Hv. unfold htons. rewrite !land_255, Z.shiftr_div_pow2 by lia. change (2 ^ 8) with 256.
  assert (0 <= v / 256 < 256) by divmod. assert (0 <= v mod 256 < 256) by divmod. rewrite (Z.mod_small (v / 256)) by lia.
  rewrite lor_shiftl_add by lia. rewrite u16_id by lia. lia.
Qed.

Lemma htons_range v : 0 <= htons v < 65536.
Proof. apply u16_range. Qed.

Lemma htons_htons v : 0 <= v < 65536 -> htons (htons v) = v.
Proof.
  intros Hv. rewrite (htons_swap (htons v)), (htons_swap v) by (auto using htons_range).
  divmod.
Qed.

(** ** The fold is a remainder modulo [65535] *)

(** [s] reduced into [1 .. 65535], zero only for zero. *)
Definition oc (s : Z) : Z := if s =? 0 then 0 else (s - 1) mod 65535 + 1.

Lemma oc_range s : 0 <= oc s <= 65535.
Proof. unfold oc. destruct (s =? 0); [lia|]. pose proof (Z.mod_pos_bound (s - 1) 65535 ltac:(lia)). lia. Qed.

Lemma oc_small s : 0 <= s <= 65535 -> oc s = s.
Proof. intros Hs. unfold oc. destruct (s =? 0) eqn:E; [lia|]. apply Z.eqb_neq in E. rewrite Z.mod_small by lia. lia. Qed.

Lemma oc_fold s k : 0 < s -> 0 < s - 65535 * k -> oc (s - 65535 * k) = oc s.
Proof.
  intros Hs Hk. unfold oc. rewrite !(proj2 (Z.eqb_neq _ _)) by lia. f_equal.
  replace (s - 65535 * k - 1) with (s - 1 + (- k) * 65535) by lia. apply Z.mod_add. lia.
Qed.

Lemma fold_round s : 65536 <= s < 2 ^ 32 ->
  u32 (Z.land s 0xFFFF + Z.shiftr s 16) = s - 65535 * (s / 65536) /\ 0 < s - 65535 * (s / 65536) <= 131070.
Proof.
  intros Hs. rewrite land_65535, Z.shiftr_div_pow2 by lia. change (2 ^ 16) with 65536. rewrite u32_id by divmod. divmod.
Qed.

Lemma shiftr_small s : 0 <= s -> (Z.shiftr s 16 =? 0) = (s <? 65536).
Proof.
  intros Hs. rewrite Z.shiftr_div_pow2 by lia. change (2 ^ 16) with 65536.
  destruct (s <? 65536) eqn:E; [apply Z.eqb_eq|apply Z.eqb_neq]; divmod.
Qed.

(** The loop ends within its rounds. *)
Lemma fold_carries_done s : 0 <= s < 2 ^ 32 -> fold_carries 3 s = oc s.
Proof.
  intros Hs. cbn [fold_carries]. rewrite shiftr_small by lia. destruct (s <? 65536) eqn:E; [rewrite oc_small; lia|].
  destruct (fold_round s) as [-> Hr]; [lia|]. rewrite shiftr_small by lia.
  rewrite <- (oc_fold s (s / 65536)) by lia. set (s1 := s - 65535 * (s / 65536)) in *.
  destruct (s1 <? 65536) eqn:E1; [rewrite oc_small; lia|].
  destruct (fold_round s1) as [-> Hr1]; [lia|]. rewrite <- (oc_fold s1 (s1 / 65536)) by lia.
  assert (s1 / 65536 = 1) as -> by divmod. rewrite shiftr_small by lia. rewrite oc_small, (proj2 (Z.ltb_lt _ _)) by lia. done.
Qed.

Lemma lnot_oc s : 0 <= s <= 65535 -> u16 (Z.lnot s) = 65535 - s.
Proof.
  intros Hs. unfold Z.lnot, Z.pred, u16. change (2 ^ 16) with 65536. divmod.
Qed.

(** ** What the sum adds up *)

(** The little-endian words of a buffer, the last byte padded with zero. *)
Fixpoint words (l : list Z) : list Z :=
  match l with
  | b0 :: b1 :: l' => (b0 + 256 * b1) :: words l'
  | [b] => [b]
  | [] => []
  end.

Definition total (l : list Z) : Z := foldr Z.add 0 l.

Lemma list_pair_ind {A} (P : list A -> Prop) :
  P [] -> (forall a, P [a]) -> (forall a b l, P l -> P (a :: b :: l)) -> forall l, P l.
Proof. intros H0 H1 H2. fix IH 1. intros [|a [|b l]]; [done|done|]. apply H2, IH. Qed.

Lemma words_range l : Forall is_byte l -> Forall (fun w => 0 <= w < 65536) (words l).
Proof.
  unfold is_byte. induction l as [|a|a b l IH] using list_pair_ind; cbn; intros Hl; repeat constructor; decompose_Forall_hyps; try lia. auto.
Qed.

Lemma words_length l : Z.of_nat (length (words l)) = (Z.of_nat (length l) + 1) / 2.
Proof. induction l as [|a|a b l IH] using list_pair_ind; cbn [words length]; [done..|]. rewrite !Nat2Z.inj_succ, IH. divmod. Qed.

Lemma total_cons a l : total (a :: l) = a + total l.
Proof. done. Qed.

Lemma total_bound l : Forall (fun w => 0 <= w < 65536) l -> 0 <= total l <= 65535 * Z.of_nat (length l).
Proof. unfold total. induction 1; cbn [foldr length]; lia. Qed.

Lemma sum16_total l s : Forall is_byte l -> 0 <= s -> s + total (words l) < 2 ^ 32 -> sum16 l s = s + total (words l).
Proof.
  unfold is_byte. revert s. induction l as [|a|a b l IH] using list_pair_ind; intros s Hl Hs Hb; cbn [sum16 words] in *; rewrite ?total_cons in *; decompose_Forall_hyps.
  - cbn. lia.
  - cbn in *. rewrite u32_id; lia.
  - pose proof (total_bound _ (words_range l ltac:(done))). rewrite u32_id, IH by (done || lia). lia.
Qed.

Lemma in_checksum_oc l : Forall is_byte l -> Z.of_nat (length l) <= 2 ^ 17 -> in_checksum l = 65535 - oc (total (words l)).
Proof.
  intros Hl Hn. pose proof (total_bound _ (words_range l Hl)) as Ht. pose proof (words_length l).
  assert (total (words l) < 2 ^ 32) by divmod.
  unfold in_checksum. rewrite sum16_total, Z.add_0_l, fold_carries_done by (done || lia). apply lnot_oc, oc_range.
Qed.

(** ** RFC 1071

    The checksum of a buffer is the complement of the ones' complement sum of
    its 16-bit words in network order, an odd last byte padded with zero. *)

Fixpoint be_words (l : list Z) : list Z :=
  match l with
  | b0 :: b1 :: l' => (256 * b0 + b1) :: be_words l'
  | [b] => [256 * b]
  | [] => []
  end.

(** Addition with end-around carry. *)
Definition oc_add (a b : Z) : Z := let s := a + b in if s <? 65536 then s else s - 65535.
Definition rfc1071 (l : list Z) : Z := 65535 - foldr oc_add 0 (be_words l).

Lemma oc_add_oc a b : 0 <= a <= 65535 -> 0 <= b -> oc_add a (oc b) = oc (a + b).
Proof.
  intros Ha Hb. pose proof (oc_range b). unfold oc_add, oc in *. destruct (b =? 0) eqn:Eb.
  - assert (b = 0) as -> by lia. rewrite !Z.add_0_r. destruct (a =? 0) eqn:Ea; destruct (_ <? _) eqn:E; divmod.
  - rewrite (proj2 (Z.eqb_neq (a + b) 0)) by lia. destruct (_ <? _) eqn:E; divmod.
Qed.

Lemma foldr_oc_add l : Forall (fun w => 0 <= w < 65536) l -> foldr oc_add 0 l = oc (total l).
Proof.
  induction 1 as [|w l Hw Hl IH]; [done|]. cbn. rewrite IH, oc_add_oc; [done|lia|]. by apply total_bound.
Qed.

Lemma be_words_total l : Forall is_byte l ->
  Forall (fun w => 0 <= w < 65536) (be_words l) /\ total (be_words l) mod 65535 = (256 * total (words l)) mod 65535 /\
  (total (be_words l) = 0 <-> total (words l) = 0).
Proof.
  unfold is_byte. induction l as [|a|a b l IH] using list_pair_ind; cbn [words be_words]; rewrite ?total_cons; intros Hl; decompose_Forall_hyps.
  - done.
  - change (total []) with 0. split; [repeat constructor; lia|]. split; [f_equal; lia|lia].
  - destruct IH as (Hr & Hm & Hz); [done|]. pose proof (total_bound _ (words_range l ltac:(done))). pose proof (total_bound _ Hr).
    split; [constructor; [lia|done]|]. split; [|lia].
    rewrite Z.mul_add_distr_l, <- Z.add_mod_idemp_r, Hm, Z.add_mod_idemp_r by lia.
    replace (256 * (a + 256 * b) + 256 * total (words l)) with (256 * a + b + 256 * total (words l) + b * 65535) by lia.
    by rewrite Z.mod_add by lia.
Qed.

(** Swapping the bytes of a reduced sum multiplies it by [256]. *)
Lemma oc_swap s t : 0 <= s -> 0 <= t -> t mod 65535 = (256 * s) mod 65535 -> (t = 0 <-> s = 0) -> htons (oc s) = oc t.
Proof.
  intros Hs Ht Hm Hz. pose proof (oc_range s). rewrite htons_swap by lia. unfold oc in *.
  destruct (s =? 0) eqn:Es; [by rewrite (proj2 (Z.eqb_eq t 0)) by lia|].
  rewrite (proj2 (Z.eqb_neq t 0)) by lia. set (f := (s - 1) mod 65535 + 1) in *. set (g := (t - 1) mod 65535 + 1).
  assert (exists k, s = f + 65535 * k) as [k Hk] by (exists ((s - 1) / 65535); unfold f; divmod).
  assert (exists j, t = g + 65535 * j) as [j Hj] by (exists ((t - 1) / 65535); unfold g; divmod).
  assert (1 <= g <= 65535) by (unfold g; divmod). assert (1 <= f <= 65535) by (unfold f; divmod). clearbody f g.
  subst s t. rewrite Z.mul_add_distr_l in Hm. replace (256 * (65535 * k)) with (256 * k * 65535) in Hm by lia.
  rewrite (Z.mul_comm 65535 j), !Z.mod_add in Hm by lia. clear Es Hz Hs Ht. divmod.
Qed.

(** C28: The checksum the kernel computes by summing little-endian words in a
    32-bit register and folding the carries is, for every buffer of up to 128
    KiB, the RFC 1071 checksum: stored in host order it reads, in network
    order, as the complement of the ones' complement sum of the big-endian
    words of the buffer. *)
Theorem in_checksum_rfc1071 (buf : list Z) : Forall is_byte buf -> Z.of_nat (length buf) <= 2 ^ 17 ->
  htons (in_checksum buf) = rfc1071 buf.
Proof.
  intros Hb Hn. rewrite in_checksum_oc by done. unfold rfc1071.
  destruct (be_words_total buf Hb) as (Hr & Hm & Hz). rewrite foldr_oc_add by done.
  pose proof (total_bound _ (words_range buf Hb)). pose proof (total_bound _ Hr).
  rewrite <- (oc_swap (total (words buf)) (total (be_words buf))) by (done || lia).
  pose proof (oc_range (total (words buf))). rewrite !htons_swap by lia. divmod.
Qed.

Lemma in_checksum_rfc1071_witness :
  htons (in_checksum [0x45; 0; 0; 0x73; 0; 0; 0x40; 0; 0x40; 0x11; 0; 0; 0xc0; 0xa8; 0; 1; 0xc0; 0xa8; 0; 0xc7]) = 0xb861.
Proof. rewrite in_checksum_rfc1071; [reflexivity|repeat constructor; lia|by vm_compute]. Defined.

(** ** Verification *)

(** A sum that contains its own complement comes out as zero. *)
Lemma oc_complement s : 0 <= s -> oc (s + (65535 - oc s)) = 65535.
Proof. intros Hs. pose proof (oc_range s). unfold oc in *. destruct (s =? 0) eqn:E; [assert (s = 0) as -> by lia; done|].
  rewrite (proj2 (Z.eqb_neq _ _)) by lia. divmod. Qed.

Lemma words_app a b : Nat.Even (length a) -> words (a ++ b) = words a ++ words b.
Proof.
  induction a as [|x|x y a IH] using list_pair_ind; cbn [app length words]; intros He; [done| |].
  - by apply Nat.even_spec in He.
  - by rewrite IH by (apply Nat.even_spec in He; by apply Nat.even_spec).
Qed.

Lemma total_app a b : total (a ++ b) = total a + total b.
Proof. induction a; cbn; [done|]. unfold total in *. lia. Qed.

Definition le16 (v : Z) : list Z := [v mod 256; v / 256 mod 256].

Lemma le16_bytes v : Forall is_byte (le16 v).
Proof. unfold le16, is_byte. repeat constructor; divmod. Qed.

Lemma words_field a v b : Nat.Even (length a) -> 0 <= v < 65536 ->
  total (words (a ++ le16 v ++ b)) = total (words a) + v + total (words b).
Proof.
  intros Ha Hv. rewrite words_app, total_app by done. cbn [app le16 words]. rewrite total_cons. unfold le16. divmod.
Qed.

(** Checksums as seen from the sum they start from. *)
Definition checksum_from (init : Z) (l : list Z) : Z := u16 (Z.lnot (fold_carries 3 (sum16 l init))).

Lemma checksum_from_oc init l : Forall is_byte l -> Z.of_nat (length l) <= 2 ^ 16 -> 0 <= init <= 2 ^ 20 ->
  checksum_from init l = 65535 - oc (init + total (words l)).
Proof.
  intros Hl Hn Hi. pose proof (total_bound _ (words_range l Hl)) as Ht. pose proof (words_length l).
  assert (init + total (words l) < 2 ^ 32) by divmod.
  unfold checksum_from. rewrite sum16_total, fold_carries_done by (done || lia). apply lnot_oc, oc_range.
Qed.

(** A buffer that carries its own checksum sums to zero. *)
Lemma checksum_verifies init a b : Nat.Even (length a) -> Forall is_byte a -> Forall is_byte b ->
  Z.of_nat (length a) + Z.of_nat (length b) + 2 <= 2 ^ 16 -> 0 <= init <= 2 ^ 20 ->
  checksum_from init (a ++ le16 (checksum_from init (a ++ [0; 0] ++ b)) ++ b) = 0.
Proof.
  intros He Ha Hb Hn Hi. change [0; 0] with (le16 0).
  assert (Hl : forall v, Z.of_nat (length (a ++ le16 v ++ b)) <= 2 ^ 16) by (intros; rewrite !app_length; cbn; lia).
  assert (Hf : forall v, Forall is_byte (a ++ le16 v ++ b)) by (intros; apply Forall_app; split; [done|apply Forall_app; split; [apply le16_bytes|done]]).
  rewrite !checksum_from_oc by auto. rewrite !words_field by (done || (pose proof (oc_range (init + total (words (a ++ le16 0 ++ b)))); lia)).
  pose proof (total_bound _ (words_range a Ha)). pose proof (total_bound _ (words_range b Hb)).
  set (t := total (words a)) in *. set (u := total (words b)) in *.
  replace (init + (t + (65535 - oc (init + (t + 0 + u))) + u)) with (init + (t + 0 + u) + (65535 - oc (init + (t + 0 + u)))) by lia.
  rewrite oc_complement by lia. done.
Qed.

Lemma pseudo_sum_bound src dst proto n : 0 <= pseudo_sum src dst proto n <= 2 ^ 20.
Proof.
  unfold pseudo_sum. rewrite !land_65535. pose proof (htons_range (u16 proto)). pose proof (htons_range n).
  pose proof (Z.mod_pos_bound (Z.shiftr src 16) 65536 ltac:(lia)). pose proof (Z.mod_pos_bound src 65536 ltac:(lia)).
  pose proof (Z.mod_pos_bound (Z.shiftr dst 16) 65536 ltac:(lia)). pose proof (Z.mod_pos_bound dst 65536 ltac:(lia)).
  cbv zeta. repeat match goal with |- context [u32 ?e] => lazymatch e with context [u32 _] => fail | _ => rewrite (u32_id e) by lia end end. lia.
Qed.
End Checksum.
