(* ===== verification/Mbuf.v ===== *)
(** * Network buffers

    Model of [kernel/net/mbuf.c]: the static pool of message buffers, its free
    list, and the operations on chains.  The storage of a buffer is its own
    256 bytes, of which a packet header takes the first 16, or its cluster of
    2048 bytes ([M_EXT]); [m_data] is an offset into whichever is in use.
    Access outside the storage is a fault. *)

From S2P Require Import Prelude.

(** ** Faults

    [Undefined]: an access outside an object or to memory never written;
    [Endless]: a loop over a list that does not end;
    [Overread]: a read past the end of a received DHCP packet;
    [Deadlock]: spinning on a lock the caller itself holds;
    [Depth]: more nested calls than the model was given. *)
Inductive fault := Undefined | Endless | Overread | Deadlock | Depth.
Inductive res (A : Type) := Ret (a : A) | Err (f : fault).
Arguments Ret {A} a.
Arguments Err {A} f.

#[global] Instance res_ret : MRet res := @Ret.
#[global] Instance res_bind : MBind res := fun A B f r => match r with Ret a => f a | Err e => Err e end.

Definition guard_res (b : bool) (f : fault) : res unit := if b then Ret tt else Err f.

(** ** Byte buffers *)

Definition get_at (b : gmap Z Z) (o n : Z) : list Z := (fun i => default 0 (b !! i)) <$> seqZ o n.

Fixpoint put_at (o : Z) (l : list Z) (b : gmap Z Z) : gmap Z Z :=
  match l with
  | [] => b
  | x :: l => put_at (o + 1) l (<[o := x]> b)
  end.

Lemma put_at_lookup o l b i :
  put_at o l b !! i = if decide (o <= i < o + Z.of_nat (length l)) then l !! Z.to_nat (i - o) else b !! i.
Proof.
  revert o b. induction l as [|x l IH]; intros o b; cbn [put_at length].
  - case_decide; [lia|done].
  - rewrite IH. repeat case_decide; try lia.
    + replace (Z.to_nat (i - o)) with (S (Z.to_nat (i - (o + 1)))) by lia. done.
    + assert (i = o) as -> by lia. by rewrite lookup_insert_eq, Z.sub_diag.
    + rewrite lookup_insert_ne; [done|lia].
Qed.

Lemma get_put_same o l b : get_at (put_at o l b) o (Z.of_nat (length l)) = l.
Proof.
  apply list_eq. intros i. unfold get_at. rewrite list_lookup_fmap. destruct (decide (i < length l)%nat) as [Hi|Hi].
  - rewrite lookup_seqZ_lt by lia. cbn. rewrite put_at_lookup, decide_True by lia.
    replace (Z.to_nat (o + Z.of_nat i - o)) with i by lia. destruct (lookup_lt_is_Some_2 l i Hi) as [x ->]. done.
  - rewrite lookup_seqZ_ge by lia. symmetry. apply lookup_ge_None_2. lia.
Qed.

Lemma get_put_other o l b o' n : o' + n <= o \/ o + Z.of_nat (length l) <= o' -> get_at (put_at o l b) o' n = get_at b o' n.
Proof.
  intros Hd. unfold get_at. apply list_fmap_ext. intros k i Hi. apply lookup_seqZ in Hi.
  rewrite put_at_lookup, decide_False; [done|lia].
Qed.

Lemma get_at_app b o n m : 0 <= n -> 0 <= m -> get_at b o (n + m) = get_at b o n ++ get_at b (o + n) m.
Proof. intros Hn Hm. unfold get_at. by rewrite seqZ_app, fmap_app. Qed.

Lemma get_at_length b o n : 0 <= n -> length (get_at b o n) = Z.to_nat n.
Proof. intros. unfold get_at. rewrite length_fmap, length_seqZ. done. Qed.

Lemma put_at_app o l1 l2 b : put_at (o + Z.of_nat (length l1)) l2 (put_at o l1 b) = put_at o (l1 ++ l2) b.
Proof.
  revert o b. induction l1 as [|x l1 IH]; intros o b; cbn [put_at app]; [by rewrite Z.add_0_r|].
  rewrite <- IH. f_equal. cbn [length]. lia.
Qed.

Module Mbuf.

Definition MBUF_POOL_SIZE : nat := 512.
Definition MLEN : Z := 256.
Definition MCLBYTES : Z := 2048.
Definition PKTHDR : Z := 16.       (* sizeof(struct pkthdr) *)
Definition MT_FREE : Z := 0.
Definition MT_DATA : Z := 1.
Definition MT_HEADER : Z := 2.
Definition M_EXT : Z := 2 ^ 0.
Definition M_PKTHDR : Z := 2 ^ 1.

Record mbuf := {
  m_next : option nat;
  m_nextpkt : option nat;
  m_data : Z;
  m_len : Z;
  m_type : Z;
  m_flags : Z;
  pkt_rcvif : option nat;
  pkt_len : Z;
  m_dat : gmap Z Z;
  m_cluster : gmap Z Z             (* its row of s_cluster_pool *)
}.
#[global] Instance mbuf_eta : Eta mbuf := fun r =>
  {| m_next := m_next r; m_nextpkt := m_nextpkt r; m_data := m_data r; m_len := m_len r; m_type := m_type r;
     m_flags := m_flags r; pkt_rcvif := pkt_rcvif r; pkt_len := pkt_len r; m_dat := m_dat r; m_cluster := m_cluster r |}.

(** All zero, the cluster as it was. *)
Definition zeroed (c : gmap Z Z) : mbuf :=
  {| m_next := None; m_nextpkt := None; m_data := 0; m_len := 0; m_type := 0; m_flags := 0; pkt_rcvif := None;
     pkt_len := 0; m_dat := ∅; m_cluster := c |}.
#[global] Instance mbuf_inhabited : Inhabited mbuf := populate (zeroed ∅).

Record mbufs := {
  s_mbuf_pool : gmap nat mbuf;
  s_mbuf_freelist : option nat
}.
#[global] Instance mbufs_eta : Eta mbufs := fun r =>
  {| s_mbuf_pool := s_mbuf_pool r; s_mbuf_freelist := s_mbuf_freelist r |}.

(** ** Operations *)

Definition mb (i : nat) (s : mbufs) : mbuf := s_mbuf_pool s !!! i.
Definition upd (i : nat) (f : mbuf -> mbuf) (s : mbufs) : mbufs := s <| s_mbuf_pool ::= <[i := f (mb i s)]> |>.

Definition mbuf_init_one (s : mbufs) (i : nat) : mbufs :=
  (upd i (fun m => (zeroed (m_cluster m)) <| m_type := MT_FREE |> <| m_next := s_mbuf_freelist s |>) s) <| s_mbuf_freelist := Some i |>.
Definition mbuf_init (s : mbufs) : mbufs := foldl mbuf_init_one (s <| s_mbuf_freelist := None |>) (seq 0 MBUF_POOL_SIZE).

Definition m_get (type : Z) (s : mbufs) : mbufs * option nat :=
  match s_mbuf_freelist s with
  | None => (s, None)
  | Some i =>
      let s := s <| s_mbuf_freelist := m_next (mb i s) |> in
      (upd i (fun m => (zeroed (m_cluster m)) <| m_type := type |> <| m_data := 0 |> <| m_len := 0 |>) s, Some i)
  end.

Definition m_gethdr (type : Z) (s : mbufs) : mbufs * option nat :=
  match m_get type s with
  | (s, None) => (s, None)
  | (s, Some i) => (upd i (fun m => m <| m_flags ::= Z.lor M_PKTHDR |> <| m_data := PKTHDR |>) s, Some i)
  end.

Definition m_getcl (type : Z) (s : mbufs) : mbufs * option nat :=
  match m_gethdr type s with
  | (s, None) => (s, None)
  | (s, Some i) => (upd i (fun m => m <| m_flags ::= Z.lor M_EXT |> <| m_data := 0 |>) s, Some i)
  end.

Definition freed (nxt : option nat) (m : mbuf) : mbuf :=
  m <| m_type := MT_FREE |> <| m_flags := 0 |> <| m_len := 0 |> <| m_nextpkt := None |> <| m_next := nxt |>.
Definition m_free (i : nat) (s : mbufs) : mbufs :=
  (upd i (freed (s_mbuf_freelist s)) s) <| s_mbuf_freelist := Some i |>.

(** Loops over chains; a chain is no longer than the pool. *)
Definition CHAIN : nat := S MBUF_POOL_SIZE.

Fixpoint freem (n : nat) (m : option nat) (s : mbufs) : res mbufs :=
  match m with
  | None => Ret s
  | Some i => match n with
              | O => Err Endless
              | S n => let next := m_next (mb i s) in freem n next (m_free i s)
              end
  end.
Definition m_freem (m : option nat) (s : mbufs) : res mbufs := freem CHAIN m s.

(** ** Data *)

Definition capacity (m : mbuf) : Z := if has (m_flags m) M_EXT then MCLBYTES else MLEN.
Definition storage (m : mbuf) : gmap Z Z := if has (m_flags m) M_EXT then m_cluster m else m_dat m.

Definition in_storage (m : mbuf) (o n : Z) : bool :=
  (0 <=? m_data m + o) && (0 <=? n) && (m_data m + o + n <=? capacity m).

(** [n] bytes at [m->m_data + o]. *)
Definition read (i : nat) (o n : Z) (s : mbufs) : res (list Z) :=
  let m := mb i s in
  guard_res (in_storage m o n) Undefined ≫= fun _ => Ret (get_at (storage m) (m_data m + o) n).

(** Bytes stored at [m->m_data + o]. *)
Definition write (i : nat) (o : Z) (l : list Z) (s : mbufs) : res mbufs :=
  let m := mb i s in
  guard_res (in_storage m o (Z.of_nat (length l))) Undefined ≫= fun _ =>
  Ret (upd i (fun m => if has (m_flags m) M_EXT then m <| m_cluster ::= put_at (m_data m + o) l |>
                       else m <| m_dat ::= put_at (m_data m + o) l |>) s).

(** The loop that skips [off] bytes; [None] where it runs off the chain. *)
Fixpoint copy_skip (n : nat) (m : option nat) (off : Z) (s : mbufs) : res (option (option nat * Z)) :=
  if negb (0 <? off) then Ret (Some (m, off)) else
  match m with
  | None => Ret None
  | Some i => if off <? m_len (mb i s) then Ret (Some (m, off)) else
              match n with
              | O => Err Endless
              | S n => copy_skip n (m_next (mb i s)) (off - m_len (mb i s)) s
              end
  end.

Fixpoint copy_loop (n : nat) (m : option nat) (off len : Z) (s : mbufs) : res (list Z) :=
  if negb (0 <? len) then Ret [] else
  match m with
  | None => Ret []
  | Some i => match n with
              | O => Err Endless
              | S n => let count := m_len (mb i s) - off in
                       let count := if len <? count then len else count in
                       l ← read i off count s;
                       l' ← copy_loop n (m_next (mb i s)) 0 (len - count) s;
                       Ret (l ++ l')
              end
  end.

(** The bytes written to the destination. *)
Definition m_copydata (m : option nat) (off len : Z) (s : mbufs) : res (list Z) :=
  r ← copy_skip CHAIN m off s;
  match r with
  | None => Ret []
  | Some (m, off) => copy_loop CHAIN m off len s
  end.

Fixpoint last_mbuf (n : nat) (i : nat) (s : mbufs) : res nat :=
  match m_next (mb i s) with
  | None => Ret i
  | Some j => match n with O => Err Endless | S n => last_mbuf n j s end
  end.

Definition m_append (m : option nat) (cp : list Z) (s : mbufs) : res (mbufs * chimera_error) :=
  let len := Z.of_nat (length cp) in
  match m with
  | None => Ret (s, CHIMERA_ERR_INVALID)
  | Some i =>
      if len <=? 0 then Ret (s, CHIMERA_ERR_INVALID) else
      i ← last_mbuf CHAIN i s;
      let m := mb i s in
      if m_data m + m_len m + len <=? capacity m then
        s ← write i (m_len m) cp s;
        Ret (upd i (fun m => m <| m_len ::= Z.add len |>) s, CHIMERA_SUCCESS)
      else
        match (if MLEN <? len then m_getcl (m_type m) s else m_get (m_type m) s) with
        | (s, None) => Ret (s, CHIMERA_ERR_NOMEM)
        | (s, Some j) =>
            s ← write j 0 cp s;
            let s := upd j (fun m => m <| m_len := len |>) s in
            Ret (upd i (fun m => m <| m_next := Some j |>) s, CHIMERA_SUCCESS)
        end
  end.

(** ** The pool

    [free] is the free list, [rest] every other buffer. *)

Definition next (b : mbufs) (i : nat) : option nat := m_next (mb i b).

Record pool_inv (b : mbufs) (free rest : list nat) : Prop := {
  pi_free : chain (next b) (s_mbuf_freelist b) free;
  pi_all : free ++ rest ≡ₚ seq 0 MBUF_POOL_SIZE
}.

Lemma mb_upd i f b j : mb j (upd i f b) = if decide (j = i) then f (mb i b) else mb j b.
Proof.
  unfold mb, upd. cbn. case_decide as E; [subst; by rewrite lookup_total_insert_eq|by rewrite lookup_total_insert_ne].
Qed.

Lemma mb_upd_ne i f b j : j ≠ i -> mb j (upd i f b) = mb j b.
Proof. intros. by rewrite mb_upd, decide_False. Qed.

Lemma mb_upd_eq i f b : mb i (upd i f b) = f (mb i b).
Proof. by rewrite mb_upd, decide_True. Qed.

Lemma pool_NoDup b free rest : pool_inv b free rest -> NoDup (free ++ rest).
Proof. intros [_ H]. rewrite H. apply NoDup_seq. Qed.

Lemma pool_perm b free rest rest' : pool_inv b free rest -> rest ≡ₚ rest' -> pool_inv b free rest'.
Proof. intros [H1 H2] H. split; [done|]. by rewrite <- H. Qed.

(** Changes to buffers that are not free. *)
Lemma pool_upd b free rest i f : pool_inv b free rest -> i ∈ rest -> pool_inv (upd i f b) free rest.
Proof.
  intros HI Hi. pose proof (pool_NoDup _ _ _ HI) as Hn. destruct HI as [H1 H2]. split; [|done].
  apply (lseg_frame (next b)); [|done]. intros j Hj. unfold next. rewrite mb_upd_ne; [done|].
  intros ->. apply NoDup_app in Hn as (_ & Hd & _). by apply (Hd i).
Qed.

Definition fresh_buf (type : Z) (c : gmap Z Z) : mbuf := (zeroed c) <| m_type := type |> <| m_data := 0 |> <| m_len := 0 |>.

Lemma m_get_spec type b free rest : pool_inv b free rest ->
  match m_get type b with
  | (b', None) => b' = b /\ free = []
  | (b', Some i) => exists free', free = i :: free' /\ pool_inv b' free' (i :: rest) /\
      mb i b' = fresh_buf type (m_cluster (mb i b)) /\ forall j, j ≠ i -> mb j b' = mb j b
  end.
Proof.
  intros HI. pose proof (pool_NoDup _ _ _ HI) as Hn. destruct HI as [H1 H2]. unfold m_get.
  destruct (s_mbuf_freelist b) as [i|] eqn:E; [|split; [done|by apply chain_nil_inv in H1]].
  destruct free as [|i' free']; [done|]. destruct H1 as [[= <-] H1]. exists free'. split; [done|].
  set (b1 := b <| s_mbuf_freelist := m_next (mb i b) |>). change (mb i b) with (mb i b1). split; [|split].
  - split; [|by rewrite <- Permutation_middle]. apply (lseg_frame (next b)); [|done].
    intros j Hj. unfold next. rewrite mb_upd_ne; [done|]. intros ->. cbn in Hn. apply NoDup_cons in Hn as [Hn _]. apply Hn, elem_of_app. by left.
  - by rewrite mb_upd_eq.
  - intros j Hj. by rewrite mb_upd_ne.
Qed.

(** What each kind of allocation gives. *)
Definition allocates (b b' : mbufs) (free rest : list nat) (r : option nat) (new : mbuf -> mbuf) : Prop :=
  match r with
  | None => b' = b /\ free = []
  | Some i => exists free', free = i :: free' /\ pool_inv b' free' (i :: rest) /\ mb i b' = new (mb i b) /\
      forall j, j ≠ i -> mb j b' = mb j b
  end.

Lemma allocates_upd b b' free rest i new f : allocates b b' free rest (Some i) new ->
  allocates b (upd i f b') free rest (Some i) (fun m => f (new m)).
Proof.
  intros (free' & -> & HI & E & Hf). exists free'. split; [done|]. split; [apply pool_upd; [done|left]|].
  split; [by rewrite mb_upd_eq, E|]. intros j Hj. rewrite mb_upd_ne by done. by apply Hf.
Qed.

Definition hdr_buf (type : Z) (m : mbuf) : mbuf :=
  (fresh_buf type (m_cluster m)) <| m_flags ::= Z.lor M_PKTHDR |> <| m_data := PKTHDR |>.
Definition cl_buf (type : Z) (m : mbuf) : mbuf := (hdr_buf type m) <| m_flags ::= Z.lor M_EXT |> <| m_data := 0 |>.

Lemma m_gethdr_spec type b free rest : pool_inv b free rest ->
  allocates b (m_gethdr type b).1 free rest (m_gethdr type b).2 (hdr_buf type).
Proof.
  intros HI. pose proof (m_get_spec type _ _ _ HI) as H. unfold m_gethdr. destruct (m_get type b) as [b' [i|]]; [|done]. cbn [fst snd].
  apply (allocates_upd b b' free rest i (fun m => fresh_buf type (m_cluster m))). done.
Qed.

Lemma m_getcl_spec type b free rest : pool_inv b free rest ->
  allocates b (m_getcl type b).1 free rest (m_getcl type b).2 (cl_buf type).
Proof.
  intros HI. pose proof (m_gethdr_spec type _ _ _ HI) as H. unfold m_getcl. destruct (m_gethdr type b) as [b' [i|]]; [|done].
  cbn [fst snd] in *. by apply (allocates_upd b b' free rest i (hdr_buf type)).
Qed.

(** ** Freeing *)

Lemma m_free_spec b free rest i : pool_inv b free (i :: rest) ->
  pool_inv (m_free i b) (i :: free) rest /\ forall j, j ≠ i -> mb j (m_free i b) = mb j b.
Proof.
  intros HI. pose proof (pool_NoDup _ _ _ HI) as Hn. destruct HI as [H1 H2].
  assert (Ho : forall j, j ≠ i -> mb j (m_free i b) = mb j b) by (intros j Hj; apply (mb_upd_ne _ _ b); done).
  split; [|done]. split.
  - split; [done|]. unfold next. replace (m_next (mb i (m_free i b))) with (s_mbuf_freelist b); [|symmetry; exact (f_equal m_next (mb_upd_eq i (freed _) b))].
    apply (lseg_frame (next b)); [|done]. intros j Hj. unfold next. rewrite Ho; [done|].
    intros ->. apply NoDup_app in Hn as (_ & Hd & _). apply (Hd i Hj). left.
  - rewrite <- H2. cbn. by rewrite Permutation_middle.
Qed.

Lemma freem_spec n m b free rest L : pool_inv b free (L ++ rest) -> chain (next b) m L -> (length L <= n)%nat ->
  exists b', freem n m b = Ret b' /\ pool_inv b' (reverse L ++ free) rest /\ forall j, j ∉ L -> mb j b' = mb j b.
Proof.
  revert n m b free. induction L as [|i L IH]; intros n m b free HI Hc Hn.
  - cbn in Hc. subst. exists b. by destruct n.
  - destruct Hc as [-> Hc]. destruct n as [|n]; [cbn in Hn; lia|]. cbn [freem]. change (m_next (mb i b)) with (next b i). change (m_next (mb i b)) with (next b i).
    pose proof (pool_NoDup _ _ _ HI) as Hd. destruct (m_free_spec b free (L ++ rest) i HI) as [HI' Ho].
    assert (HiL : i ∉ L) by (apply NoDup_app in Hd as (_ & _ & Hd); apply NoDup_cons in Hd as [Hd _]; set_solver).
    destruct (IH n (next b i) (m_free i b) (i :: free)) as (b' & -> & HI'' & Ho'); [done| |cbn in Hn; lia|].
    + apply (lseg_frame (next b)); [|done]. intros j Hj. unfold next. rewrite Ho; [done|]. by intros ->.
    + exists b'. split; [done|]. split; [rewrite reverse_cons, <- app_assoc; done|].
      intros j Hj. rewrite Ho' by set_solver. apply Ho. set_solver.
Qed.

Lemma pool_length b free rest : pool_inv b free rest -> (length rest <= MBUF_POOL_SIZE)%nat.
Proof. intros [_ H]. apply Permutation_length in H. rewrite app_length, length_seq in H. lia. Qed.

Lemma m_freem_spec m b free rest L : pool_inv b free (L ++ rest) -> chain (next b) m L ->
  exists b', m_freem m b = Ret b' /\ pool_inv b' (reverse L ++ free) rest /\ forall j, j ∉ L -> mb j b' = mb j b.
Proof.
  intros HI Hc. apply freem_spec; [done..|]. apply pool_length in HI. rewrite app_length in HI. unfold CHAIN. lia.
Qed.

(** ** Data of buffers *)

Definition seg_ok (m : mbuf) : Prop := 0 <= m_data m /\ 0 <= m_len m /\ m_data m + m_len m <= capacity m.

(** The bytes a buffer holds. *)
Definition data (m : mbuf) : list Z := get_at (storage m) (m_data m) (m_len m).

Lemma read_spec i o n b : 0 <= m_data (mb i b) + o -> 0 <= n -> m_data (mb i b) + o + n <= capacity (mb i b) ->
  read i o n b = Ret (get_at (storage (mb i b)) (m_data (mb i b) + o) n).
Proof. intros. unfold read, in_storage. rewrite !(proj2 (Z.leb_le _ _)) by lia. done. Qed.

Definition stored (o : Z) (l : list Z) (m : mbuf) : mbuf :=
  if has (m_flags m) M_EXT then m <| m_cluster ::= put_at (m_data m + o) l |> else m <| m_dat ::= put_at (m_data m + o) l |>.

Lemma write_spec i o l b : 0 <= m_data (mb i b) + o -> m_data (mb i b) + o + Z.of_nat (length l) <= capacity (mb i b) ->
  write i o l b = Ret (upd i (stored o l) b).
Proof. intros. unfold write, in_storage. rewrite !(proj2 (Z.leb_le _ _)) by lia. done. Qed.

Lemma stored_storage o l m : storage (stored o l m) = put_at (m_data m + o) l (storage m).
Proof. unfold stored, storage. destruct (has (m_flags m) M_EXT) eqn:E; cbn; by rewrite E. Qed.

(** Everything but the bytes stays. *)
Lemma stored_same o l m : m_next (stored o l m) = m_next m /\ m_nextpkt (stored o l m) = m_nextpkt m /\
  m_data (stored o l m) = m_data m /\ m_len (stored o l m) = m_len m /\ m_flags (stored o l m) = m_flags m /\
  pkt_len (stored o l m) = pkt_len m /\ capacity (stored o l m) = capacity m.
Proof. unfold stored, capacity. destruct (has (m_flags m) M_EXT) eqn:E; cbn; rewrite ?E; done. Qed.

Lemma stored_app o l1 l2 m : stored (o + Z.of_nat (length l1)) l2 (stored o l1 m) = stored o (l1 ++ l2) m.
Proof.
  unfold stored. destruct (has (m_flags m) M_EXT) eqn:E; cbn; rewrite E.
  - unfold fupd. cbn. f_equal. rewrite <- put_at_app. by rewrite Z.add_assoc.
  - unfold fupd. cbn. f_equal. rewrite <- put_at_app. by rewrite Z.add_assoc.
Qed.

Lemma data_length m : seg_ok m -> Z.of_nat (length (data m)) = m_len m.
Proof. intros (_ & H & _). unfold data. rewrite get_at_length by done. lia. Qed.
End Mbuf.
