(* ===== verification/Net.v ===== *)
(** * The state of the network stack

    Data of [kernel/net]: packet headers and their bytes, interfaces, protocol
    control blocks, sockets and socket buffers, and the operations that touch
    nothing but these tables ([if.c], the cache of [arp.c], the control blocks
    of [udp.c] and [tcp.c], the sockets of [uipc_socket.c]).  Pointers are
    indices into the static pools; addresses and ports are kept as they are
    loaded from memory, in network byte order where the code does so. *)

From S2P Require Import Prelude Checksum Mbuf.
Export Checksum Mbuf.

Module Net.

(** ** Packet headers *)

Definition b8 (l : list Z) (o : nat) : Z := nth o l 0.
Definition w16 (l : list Z) (o : nat) : Z := b8 l o + 256 * b8 l (S o).
Definition w32 (l : list Z) (o : nat) : Z := w16 l o + 65536 * w16 l (S (S o)).
Definition le32 (v : Z) : list Z := le16 (v mod 65536) ++ le16 (v / 65536).

Record ether_header := { ether_dhost : list Z; ether_shost : list Z; ether_type : Z }.
Definition ether_bytes (h : ether_header) : list Z := ether_dhost h ++ ether_shost h ++ le16 (ether_type h).
Definition ether_of (l : list Z) : ether_header :=
  {| ether_dhost := take 6 l; ether_shost := take 6 (drop 6 l); ether_type := w16 l 12 |}.

Record ether_arp := {
  ea_hdr : Z; ea_pro : Z; ea_hln : Z; ea_pln : Z; ea_op : Z;
  arp_sha : list Z; arp_spa : Z; arp_tha : list Z; arp_tpa : Z
}.
Definition arp_bytes (a : ether_arp) : list Z :=
  le16 (ea_hdr a) ++ le16 (ea_pro a) ++ [ea_hln a; ea_pln a] ++ le16 (ea_op a) ++ arp_sha a ++ le32 (arp_spa a) ++
  arp_tha a ++ le32 (arp_tpa a).
Definition arp_of (l : list Z) : ether_arp :=
  {| ea_hdr := w16 l 0; ea_pro := w16 l 2; ea_hln := b8 l 4; ea_pln := b8 l 5; ea_op := w16 l 6;
     arp_sha := take 6 (drop 8 l); arp_spa := w32 l 14; arp_tha := take 6 (drop 18 l); arp_tpa := w32 l 24 |}.

Record ip_header := {
  ip_vhl : Z; ip_tos : Z; ip_len : Z; ip_id : Z; ip_off : Z; ip_ttl : Z; ip_p : Z; ip_sum : Z; ip_src : Z; ip_dst : Z
}.
#[global] Instance ip_header_eta : Eta ip_header := fun r =>
  {| ip_vhl := ip_vhl r; ip_tos := ip_tos r; ip_len := ip_len r; ip_id := ip_id r; ip_off := ip_off r;
     ip_ttl := ip_ttl r; ip_p := ip_p r; ip_sum := ip_sum r; ip_src := ip_src r; ip_dst := ip_dst r |}.
Definition ip_bytes (h : ip_header) : list Z :=
  [ip_vhl h; ip_tos h] ++ le16 (ip_len h) ++ le16 (ip_id h) ++ le16 (ip_off h) ++ [ip_ttl h; ip_p h] ++ le16 (ip_sum h) ++
  le32 (ip_src h) ++ le32 (ip_dst h).
Definition ip_of (l : list Z) : ip_header :=
  {| ip_vhl := b8 l 0; ip_tos := b8 l 1; ip_len := w16 l 2; ip_id := w16 l 4; ip_off := w16 l 6; ip_ttl := b8 l 8;
     ip_p := b8 l 9; ip_sum := w16 l 10; ip_src := w32 l 12; ip_dst := w32 l 16 |}.
Definition IP_V (h : ip_header) : Z := Z.land (Z.shiftr (ip_vhl h) 4) 0x0F.
Definition IP_HL (h : ip_header) : Z := Z.land (ip_vhl h) 0x0F.

Record icmp_header := { icmp_type : Z; icmp_code : Z; icmp_cksum : Z; icmp_id : Z; icmp_seq : Z }.
#[global] Instance icmp_header_eta : Eta icmp_header := fun r =>
  {| icmp_type := icmp_type r; icmp_code := icmp_code r; icmp_cksum := icmp_cksum r; icmp_id := icmp_id r; icmp_seq := icmp_seq r |}.
Definition icmp_bytes (h : icmp_header) : list Z :=
  [icmp_type h; icmp_code h] ++ le16 (icmp_cksum h) ++ le16 (icmp_id h) ++ le16 (icmp_seq h).
Definition icmp_of (l : list Z) : icmp_header :=
  {| icmp_type := b8 l 0; icmp_code := b8 l 1; icmp_cksum := w16 l 2; icmp_id := w16 l 4; icmp_seq := w16 l 6 |}.

Record udp_header := { uh_sport : Z; uh_dport : Z; uh_ulen : Z; uh_sum : Z }.
Definition udp_bytes (h : udp_header) : list Z := le16 (uh_sport h) ++ le16 (uh_dport h) ++ le16 (uh_ulen h) ++ le16 (uh_sum h).
Definition udp_of (l : list Z) : udp_header :=
  {| uh_sport := w16 l 0; uh_dport := w16 l 2; uh_ulen := w16 l 4; uh_sum := w16 l 6 |}.

Record tcp_header := {
  th_sport : Z; th_dport : Z; th_seq : Z; th_ack : Z; th_off_x2 : Z; th_flags : Z; th_win : Z; th_sum : Z; th_urp : Z
}.
#[global] Instance tcp_header_eta : Eta tcp_header := fun r =>
  {| th_sport := th_sport r; th_dport := th_dport r; th_seq := th_seq r; th_ack := th_ack r; th_off_x2 := th_off_x2 r;
     th_flags := th_flags r; th_win := th_win r; th_sum := th_sum r; th_urp := th_urp r |}.
Definition tcp_bytes (h : tcp_header) : list Z :=
  le16 (th_sport h) ++ le16 (th_dport h) ++ le32 (th_seq h) ++ le32 (th_ack h) ++ [th_off_x2 h; th_flags h] ++
  le16 (th_win h) ++ le16 (th_sum h) ++ le16 (th_urp h).
Definition tcp_of (l : list Z) : tcp_header :=
  {| th_sport := w16 l 0; th_dport := w16 l 2; th_seq := w32 l 4; th_ack := w32 l 8; th_off_x2 := b8 l 12;
     th_flags := b8 l 13; th_win := w16 l 14; th_sum := w16 l 16; th_urp := w16 l 18 |}.
Definition TH_OFF (h : tcp_header) : Z := Z.land (Z.shiftr (th_off_x2 h) 4) 0x0F.

(** ** Constants *)

Definition ETHERTYPE_IP : Z := 0x0800.
Definition ETHERTYPE_ARP : Z := 0x0806.
Definition ARPHRD_ETHER : Z := 1.
Definition ARPOP_REQUEST : Z := 1.
Definition ARPOP_REPLY : Z := 2.
Definition IP_OFF_DF : Z := 0x4000.
Definition ICMP_ECHOREPLY : Z := 0.
Definition ICMP_ECHO : Z := 8.
Definition TH_FIN : Z := 2 ^ 0.
Definition TH_SYN : Z := 2 ^ 1.
Definition TH_PUSH : Z := 2 ^ 3.
Definition TH_ACK : Z := 2 ^ 4.
Definition IPPROTO_ICMP : Z := 1.
Definition IPPROTO_TCP : Z := 6.
Definition IPPROTO_UDP : Z := 17.
Definition AF_UNIX : Z := 1.
Definition AF_INET : Z := 2.
Definition SOCK_STREAM : Z := 1.
Definition SOCK_DGRAM : Z := 2.
Definition SS_ISCONNECTED : Z := 2 ^ 1.
Definition SS_ISCONNECTING : Z := 2 ^ 2.
Definition SS_CANTSENDMORE : Z := 2 ^ 4.
Definition SS_CANTRCVMORE : Z := 2 ^ 5.
Definition IFF_UP : Z := 2 ^ 0.
Definition IFF_LOOPBACK : Z := 2 ^ 3.
Definition INADDR_LOOPBACK : Z := 0x7F000001.
Definition INADDR_BROADCAST : Z := 0xFFFFFFFF.
Definition SB_MAX : Z := 256 * 1024.
Definition SOL_SOCKET : Z := 0xffff.
Definition SO_DEBUG : Z := 2 ^ 0.
Definition SO_REUSEADDR : Z := 2 ^ 2.
Definition SO_KEEPALIVE : Z := 2 ^ 3.
Definition SO_DONTROUTE : Z := 2 ^ 4.
Definition SO_BROADCAST : Z := 2 ^ 5.
Definition SO_SNDBUF : Z := 0x1001.
Definition SO_RCVBUF : Z := 0x1002.
Definition SO_SNDTIMEO : Z := 0x1005.
Definition SO_RCVTIMEO : Z := 0x1006.
Definition SO_ERROR : Z := 0x1007.
Definition SO_TYPE : Z := 0x1008.
Definition CHIMERA_SOCKET_MAGIC : Z := 0x534F434B45542121.
Definition ARP_TABLE_SIZE : nat := 64.
Definition PING_LISTENERS : nat := 16.
Definition UDP_MAX_SOCKETS : nat := 64.
Definition TCP_MAX_SOCKETS : nat := 64.
Definition MAX_SOCKETS : nat := 128.

(** ** Tables *)

(** The functions [if_output] points to. *)
Inductive driver := loopback_output | e1000_ifnet_output.

Record ifnet := {
  if_name : string;
  if_flags : Z;
  if_mtu : Z;
  if_mac : list Z;
  if_ip : Z;
  if_netmask : Z;
  if_bcast : Z;
  if_gateway : Z;
  if_dns : Z;
  ifi_ipackets : Z;
  ifi_opackets : Z;
  ifi_ibytes : Z;
  ifi_obytes : Z;
  if_output : option driver
}.
#[global] Instance ifnet_eta : Eta ifnet := fun r =>
  {| if_name := if_name r; if_flags := if_flags r; if_mtu := if_mtu r; if_mac := if_mac r; if_ip := if_ip r;
     if_netmask := if_netmask r; if_bcast := if_bcast r; if_gateway := if_gateway r; if_dns := if_dns r; ifi_ipackets := ifi_ipackets r;
     ifi_opackets := ifi_opackets r; ifi_ibytes := ifi_ibytes r; ifi_obytes := ifi_obytes r; if_output := if_output r |}.
#[global] Instance ifnet_inhabited : Inhabited ifnet := populate
  {| if_name := EmptyString; if_flags := 0; if_mtu := 0; if_mac := [0; 0; 0; 0; 0; 0]; if_ip := 0; if_netmask := 0; if_bcast := 0;
     if_gateway := 0; if_dns := 0; ifi_ipackets := 0; ifi_opackets := 0; ifi_ibytes := 0; ifi_obytes := 0; if_output := None |}.

Record arp_entry := { ae_ip : Z; ae_mac : list Z; ae_valid : bool }.
#[global] Instance arp_entry_inhabited : Inhabited arp_entry := populate {| ae_ip := 0; ae_mac := [0; 0; 0; 0; 0; 0]; ae_valid := false |}.
#[global] Instance arp_entry_eta : Eta arp_entry := fun r => {| ae_ip := ae_ip r; ae_mac := ae_mac r; ae_valid := ae_valid r |}.

Record ping_listener := { pl_id : Z; pl_seq : Z; pl_received : bool }.
#[global] Instance ping_listener_inhabited : Inhabited ping_listener := populate {| pl_id := 0; pl_seq := 0; pl_received := false |}.
#[global] Instance ping_listener_eta : Eta ping_listener := fun r =>
  {| pl_id := pl_id r; pl_seq := pl_seq r; pl_received := pl_received r |}.

Record udp_pcb := {
  u_so : option nat;
  u_local_ip : Z;
  u_local_port : Z;
  u_remote_ip : Z;
  u_remote_port : Z;
  u_bound : bool
}.
#[global] Instance udp_pcb_eta : Eta udp_pcb := fun r =>
  {| u_so := u_so r; u_local_ip := u_local_ip r; u_local_port := u_local_port r; u_remote_ip := u_remote_ip r;
     u_remote_port := u_remote_port r; u_bound := u_bound r |}.
#[global] Instance udp_pcb_inhabited : Inhabited udp_pcb := populate
  {| u_so := None; u_local_ip := 0; u_local_port := 0; u_remote_ip := 0; u_remote_port := 0; u_bound := false |}.

Inductive tcp_state :=
| TCPS_CLOSED | TCPS_LISTEN | TCPS_SYN_SENT | TCPS_SYN_RECEIVED | TCPS_ESTABLISHED | TCPS_CLOSE_WAIT
| TCPS_FIN_WAIT_1 | TCPS_CLOSING | TCPS_LAST_ACK | TCPS_FIN_WAIT_2 | TCPS_TIME_WAIT.
#[global] Instance tcp_state_eq_dec : EqDecision tcp_state.
Proof. solve_decision. Defined.

Record tcp_pcb := {
  t_so : option nat;
  t_state : tcp_state;
  t_local_ip : Z;
  t_local_port : Z;
  t_remote_ip : Z;
  t_remote_port : Z;
  t_iss : Z;
  t_snd_una : Z;
  t_snd_nxt : Z;
  t_snd_wnd : Z;
  t_irs : Z;
  t_rcv_nxt : Z;
  t_rcv_wnd : Z;
  t_bound : bool
}.
#[global] Instance tcp_pcb_eta : Eta tcp_pcb := fun r =>
  {| t_so := t_so r; t_state := t_state r; t_local_ip := t_local_ip r; t_local_port := t_local_port r;
     t_remote_ip := t_remote_ip r; t_remote_port := t_remote_port r; t_iss := t_iss r; t_snd_una := t_snd_una r;
     t_snd_nxt := t_snd_nxt r; t_snd_wnd := t_snd_wnd r; t_irs := t_irs r; t_rcv_nxt := t_rcv_nxt r;
     t_rcv_wnd := t_rcv_wnd r; t_bound := t_bound r |}.
#[global] Instance tcp_pcb_inhabited : Inhabited tcp_pcb := populate
  {| t_so := None; t_state := TCPS_CLOSED; t_local_ip := 0; t_local_port := 0; t_remote_ip := 0; t_remote_port := 0;
     t_iss := 0; t_snd_una := 0; t_snd_nxt := 0; t_snd_wnd := 0; t_irs := 0; t_rcv_nxt := 0; t_rcv_wnd := 0; t_bound := false |}.

(** What [so_pcb] points to. *)
Inductive pcbptr := UdpPcb (i : nat) | TcpPcb (i : nat).

Record sockbuf := { sb_cc : Z; sb_hiwat : Z; sb_mb : option nat; sb_last : option nat }.
#[global] Instance sockbuf_eta : Eta sockbuf := fun r =>
  {| sb_cc := sb_cc r; sb_hiwat := sb_hiwat r; sb_mb := sb_mb r; sb_last := sb_last r |}.
Definition sockbuf0 : sockbuf := {| sb_cc := 0; sb_hiwat := 0; sb_mb := None; sb_last := None |}.

Record socket := {
  so_signature : Z;
  so_type : Z;
  so_state : Z;
  so_pcb : option pcbptr;
  so_head : option nat;
  so_q0 : option nat;
  so_q : option nat;
  so_qlimit : Z;
  so_qlen : Z;
  so_snd : sockbuf;
  so_rcv : sockbuf;
  so_error : Z;
  so_options : Z;
  so_rcvtimeo : Z;
  so_sndtimeo : Z;
  so_refcount : Z
}.
#[global] Instance socket_eta : Eta socket := fun r =>
  {| so_signature := so_signature r; so_type := so_type r; so_state := so_state r; so_pcb := so_pcb r; so_head := so_head r;
     so_q0 := so_q0 r; so_q := so_q r; so_qlimit := so_qlimit r; so_qlen := so_qlen r; so_snd := so_snd r; so_rcv := so_rcv r;
     so_error := so_error r; so_options := so_options r; so_rcvtimeo := so_rcvtimeo r; so_sndtimeo := so_sndtimeo r;
     so_refcount := so_refcount r |}.
Definition socket0 : socket :=
  {| so_signature := 0; so_type := 0; so_state := 0; so_pcb := None; so_head := None; so_q0 := None; so_q := None;
     so_qlimit := 0; so_qlen := 0; so_snd := sockbuf0; so_rcv := sockbuf0; so_error := 0; so_options := 0;
     so_rcvtimeo := 0; so_sndtimeo := 0; so_refcount := 0 |}.
#[global] Instance socket_inhabited : Inhabited socket := populate socket0.

(** [rx_ring]: the receive descriptors in the order the device fills them, each
    with its frame until it is given back, [rx_cur] the one to look at next;
    [arrivals]: the frames that come in before each poll of the ring;
    [wire]: frames transmitted, newest first. *)
Record net := {
  bufs : mbufs;
  ifnets : gmap nat ifnet;
  s_if_list : list nat;
  s_net_input_lock : bool;
  s_arp_table : gmap nat arp_entry;
  s_ping_listeners : gmap nat ping_listener;
  s_ip_id_counter : Z;
  s_udp_pcbs : gmap nat udp_pcb;
  s_ephemeral_port : Z;
  s_tcp_pcbs : gmap nat tcp_pcb;
  s_ephemeral_tcp_port : Z;
  s_iss_counter : Z;
  s_socket_pool : gmap nat socket;
  g_e1000_present : bool;
  rx_ring : list (option (list Z));
  rx_cur : nat;
  arrivals : list (list (list Z));
  wire : list (list Z)
}.
#[global] Instance net_eta : Eta net := fun r =>
  {| bufs := bufs r; ifnets := ifnets r; s_if_list := s_if_list r; s_net_input_lock := s_net_input_lock r;
     s_arp_table := s_arp_table r; s_ping_listeners := s_ping_listeners r; s_ip_id_counter := s_ip_id_counter r;
     s_udp_pcbs := s_udp_pcbs r; s_ephemeral_port := s_ephemeral_port r; s_tcp_pcbs := s_tcp_pcbs r;
     s_ephemeral_tcp_port := s_ephemeral_tcp_port r; s_iss_counter := s_iss_counter r; s_socket_pool := s_socket_pool r;
     g_e1000_present := g_e1000_present r; rx_ring := rx_ring r; rx_cur := rx_cur r; arrivals := arrivals r; wire := wire r |}.

Implicit Types s : net.

Definition ifp s (i : nat) : ifnet := ifnets s !!! i.
Definition so s (i : nat) : socket := s_socket_pool s !!! i.
Definition udp s (i : nat) : udp_pcb := s_udp_pcbs s !!! i.
Definition tcp s (i : nat) : tcp_pcb := s_tcp_pcbs s !!! i.
Definition upd_so (i : nat) (f : socket -> socket) s : net := s <| s_socket_pool ::= <[i := f (so s i)]> |>.
Definition upd_udp (i : nat) (f : udp_pcb -> udp_pcb) s : net := s <| s_udp_pcbs ::= <[i := f (udp s i)]> |>.
Definition upd_tcp (i : nat) (f : tcp_pcb -> tcp_pcb) s : net := s <| s_tcp_pcbs ::= <[i := f (tcp s i)]> |>.

(** The first slot of a table that satisfies a test. *)
Definition scan (n : nat) (P : nat -> bool) : option nat := snd <$> list_find (fun i => P i = true) (seq 0 n).

(** ** Buffers of the stack *)

Definition lift {A} (f : mbufs -> mbufs * A) s : net * A := let '(b, a) := f (bufs s) in (s <| bufs := b |>, a).
Definition on_bufs (f : mbufs -> res mbufs) s : res net := b ← f (bufs s); Ret (s <| bufs := b |>).
Definition buf s (i : nat) : mbuf := mb i (bufs s).
Definition upd_buf (i : nat) (f : mbuf -> mbuf) s : net := s <| bufs ::= upd i f |>.
Definition freem_net (m : nat) s : res net := on_bufs (m_freem (Some m)) s.

(** [m->m_len] and [m->m_pkthdr.len] of a packet built in one buffer. *)
Definition set_len (m : nat) (n : Z) s : net := upd_buf m (fun b => b <| m_len := n |> <| pkt_len := n |>) s.

(** Step over a header of [n] bytes. *)
Definition advance (m : nat) (n : Z) s : net :=
  upd_buf m (fun b => b <| m_data ::= Z.add n |> <| m_len ::= fun k => k - n |> <| pkt_len ::= fun k => k - n |>) s.

(** ** Interfaces: [if.c] *)

Definition if_attach (i : nat) s : net := s <| s_if_list ::= cons i |>.
Definition if_detach (i : nat) s : net :=
  s <| s_if_list ::= fun l => match list_find (fun j => j = i) l with Some (k, _) => delete k l | None => l end |>.
Definition if_lookup (name : string) s : option nat := snd <$> list_find (fun i => if_name (ifp s i) = name) (s_if_list s).
Definition if_get_default s : option nat :=
  match list_find (fun i => has (if_flags (ifp s i)) IFF_LOOPBACK = false /\ has (if_flags (ifp s i)) IFF_UP = true) (s_if_list s) with
  | Some (_, i) => Some i
  | None => head (s_if_list s)
  end.

(** ** The ARP cache: [arp.c] *)

Definition arp_find (ip : Z) s : option nat :=
  scan ARP_TABLE_SIZE (fun i => let e := s_arp_table s !!! i in ae_valid e && (ae_ip e =? ip)).

Definition arp_cache_insert (ip : Z) (mac : list Z) s : net :=
  match arp_find ip s with
  | Some i => s <| s_arp_table ::= fun t => <[i := (t !!! i) <| ae_mac := mac |>]> t |>
  | None =>
      let e := {| ae_ip := ip; ae_mac := mac; ae_valid := true |} in
      match scan ARP_TABLE_SIZE (fun i => negb (ae_valid (s_arp_table s !!! i))) with
      | Some i => s <| s_arp_table ::= <[i := e]> |>
      | None => s <| s_arp_table ::= <[O := e]> |>
      end
  end.

(** ** Socket buffers: [uipc_socket.c] *)

(** [sb_cc] grows by the length of every buffer of the packet. *)
Fixpoint chain_len (n : nat) (m : option nat) (b : mbufs) : res Z :=
  match m with
  | None => Ret 0
  | Some i => match n with O => Err Endless | S n => r ← chain_len n (m_next (mb i b)) b; Ret (m_len (mb i b) + r) end
  end.

Definition sbappend (i m : nat) s : res net :=
  let sb := so_rcv (so s i) in
  b ← match sb_mb sb, sb_last sb with
      | None, _ => Ret (bufs s)
      | Some _, Some l => Ret (upd l (fun x => x <| m_nextpkt := Some m |>) (bufs s))
      | Some _, None => Err Undefined
      end;
  let b := upd m (fun x => x <| m_nextpkt := None |>) b in
  n ← chain_len CHAIN (Some m) b;
  let sb := {| sb_cc := u32 (sb_cc sb + n); sb_hiwat := sb_hiwat sb;
               sb_mb := match sb_mb sb with None => Some m | x => x end; sb_last := Some m |} in
  Ret ((upd_so i (fun o => o <| so_rcv := sb |>) s) <| bufs := b |>).

Fixpoint flush_loop (n : nat) (m : option nat) s : res net :=
  match m with
  | None => Ret s
  | Some i => match n with
              | O => Err Endless
              | S n => let nextpkt := m_nextpkt (buf s i) in s ← freem_net i s; flush_loop n nextpkt s
              end
  end.
Definition empty_sb (b : sockbuf) : sockbuf := b <| sb_mb := None |> <| sb_last := None |> <| sb_cc := 0 |>.
Definition sbflush_rcv (i : nat) s : res net :=
  let m := sb_mb (so_rcv (so s i)) in flush_loop CHAIN m (upd_so i (fun o => o <| so_rcv ::= empty_sb |>) s).
Definition sbflush_snd (i : nat) s : res net :=
  let m := sb_mb (so_snd (so s i)) in flush_loop CHAIN m (upd_so i (fun o => o <| so_snd ::= empty_sb |>) s).

(** ** Control blocks *)

Record sockaddr_in := { sin_family : Z; sin_port : Z; sin_addr : Z }.
Definition auto_sin : sockaddr_in := {| sin_family := AF_INET; sin_port := 0; sin_addr := 0 |}.

Definition udp_attach (i : nat) s : net * chimera_error :=
  match scan UDP_MAX_SOCKETS (fun k => bool_decide (u_so (udp s k) = None)) with
  | Some k =>
      let p := {| u_so := Some i; u_local_ip := 0; u_local_port := 0; u_remote_ip := 0; u_remote_port := 0; u_bound := false |} in
      (upd_so i (fun o => o <| so_pcb := Some (UdpPcb k) |>) (upd_udp k (fun _ => p) s), CHIMERA_SUCCESS)
  | None => (s, CHIMERA_ERR_NOMEM)
  end.

Definition udp_detach (i : nat) s : res net :=
  match so_pcb (so s i) with
  | None => Ret s
  | Some (TcpPcb _) => Err Undefined
  | Some (UdpPcb k) =>
      Ret (upd_so i (fun o => o <| so_pcb := None |>) (upd_udp k (fun p => p <| u_so := None |> <| u_bound := false |>) s))
  end.

(** The next port nobody asked for. *)
Definition next_ephemeral (p : Z) : Z := let p := u16 (p + 1) in if 65530 <? p then 49152 else p.

Definition udp_port_taken (port : Z) s (k : nat) : bool :=
  bool_decide (u_so (udp s k) ≠ None) && u_bound (udp s k) && (u_local_port (udp s k) =? port).

Definition udp_bind (i : nat) (sin : sockaddr_in) s : res (net * chimera_error) :=
  match so_pcb (so s i) with
  | None => Ret (s, CHIMERA_ERR_INVALID)
  | Some (TcpPcb _) => Err Undefined
  | Some (UdpPcb k) =>
      let port := ntohs (sin_port sin) in
      let '(port, s) := if port =? 0 then (s_ephemeral_port s, s <| s_ephemeral_port ::= next_ephemeral |>) else (port, s) in
      match scan UDP_MAX_SOCKETS (udp_port_taken port s) with
      | Some _ => Ret (s, CHIMERA_ERR_BUSY)
      | None => Ret (upd_udp k (fun p => p <| u_local_port := port |> <| u_local_ip := sin_addr sin |> <| u_bound := true |>) s,
                     CHIMERA_SUCCESS)
      end
  end.

Definition tcp_attach (i : nat) s : net * chimera_error :=
  match scan TCP_MAX_SOCKETS (fun k => bool_decide (t_so (tcp s k) = None)) with
  | Some k =>
      let iss := u32 (s_iss_counter s + 64000) in
      let s := s <| s_iss_counter := iss |> in
      let f := fun p => p <| t_so := Some i |> <| t_state := TCPS_CLOSED |> <| t_local_ip := 0 |> <| t_local_port := 0 |>
                 <| t_remote_ip := 0 |> <| t_remote_port := 0 |> <| t_iss := iss |> <| t_snd_una := iss |> <| t_snd_nxt := iss |>
                 <| t_snd_wnd := 65535 |> <| t_rcv_wnd := 65535 |> <| t_bound := false |> in
      (upd_so i (fun o => o <| so_pcb := Some (TcpPcb k) |>) (upd_tcp k f s), CHIMERA_SUCCESS)
  | None => (s, CHIMERA_ERR_NOMEM)
  end.

Definition tcp_port_taken (port : Z) s (k : nat) : bool :=
  bool_decide (t_so (tcp s k) ≠ None) && t_bound (tcp s k) && (t_local_port (tcp s k) =? port).

Definition tcp_bind (i : nat) (sin : sockaddr_in) s : res (net * chimera_error) :=
  match so_pcb (so s i) with
  | None => Ret (s, CHIMERA_ERR_INVALID)
  | Some (UdpPcb _) => Err Undefined
  | Some (TcpPcb k) =>
      let port := ntohs (sin_port sin) in
      let '(port, s) := if port =? 0 then (s_ephemeral_tcp_port s, s <| s_ephemeral_tcp_port ::= next_ephemeral |>) else (port, s) in
      match scan TCP_MAX_SOCKETS (tcp_port_taken port s) with
      | Some _ => Ret (s, CHIMERA_ERR_BUSY)
      | None =>
          let ip := if sin_addr sin =? 0 then match if_get_default s with Some d => if_ip (ifp s d) | None => 0 end else sin_addr sin in
          Ret (upd_tcp k (fun p => p <| t_local_port := port |> <| t_local_ip := ip |> <| t_bound := true |>) s, CHIMERA_SUCCESS)
      end
  end.

Definition tcp_listen (i : nat) s : res (net * chimera_error) :=
  match so_pcb (so s i) with
  | None => Ret (s, CHIMERA_ERR_INVALID)
  | Some (UdpPcb _) => Err Undefined
  | Some (TcpPcb k) => if negb (t_bound (tcp s k)) then Ret (s, CHIMERA_ERR_INVALID)
                       else Ret (upd_tcp k (fun p => p <| t_state := TCPS_LISTEN |>) s, CHIMERA_SUCCESS)
  end.
End Net.
