(* ===== verification/NetStack.v ===== *)
(** * The protocols

    The functions of [kernel/net] that call each other, and the packet path of
    the e1000 driver ([kernel/drivers/net/e1000.c]).  They are written over a
    record [calls] of the functions through which packets re-enter the stack,
    and [stack n] ties the knot with [n] nested entries. *)

From S2P Require Import Prelude Checksum Mbuf Net.
Export Checksum Mbuf Net.

Module NetStack.

Implicit Types s : net.

Definition lo0 : nat := 0.
Definition en0 : nat := 1.

(** What packet processing calls recursively. *)
Record calls := {
  c_ip_output : nat -> Z -> Z -> Z -> net -> res (net * chimera_error);
  c_ethernet_output : nat -> nat -> Z -> Z -> net -> res (net * chimera_error);
  c_if_input : nat -> nat -> net -> res net
}.

Definition unit_of {A} (r : res (net * A)) : res net := '(s, _) ← r; Ret s.

(** ** Sockets: [uipc_socket.c] *)

Definition free_socket s : option nat :=
  scan MAX_SOCKETS (fun i => negb (so_signature (so s i) =? CHIMERA_SOCKET_MAGIC)).

Definition i16 (z : Z) : Z := u16 (z + 2 ^ 15) - 2 ^ 15.

Definition fresh_socket (type : Z) (head : option nat) : socket :=
  socket0 <| so_signature := CHIMERA_SOCKET_MAGIC |> <| so_type := type |> <| so_refcount := 1 |> <| so_head := head |>
    <| so_snd := sockbuf0 <| sb_hiwat := SB_MAX |> |> <| so_rcv := sockbuf0 <| sb_hiwat := SB_MAX |> |>.

Definition socreate (dom type proto : Z) s : net * (chimera_error * option nat) :=
  if negb (dom =? AF_INET) && negb (dom =? AF_UNIX) then (s, (CHIMERA_ERR_NOTSUP, None)) else
  match free_socket s with
  | None => (s, (CHIMERA_ERR_NOMEM, None))
  | Some i =>
      let s := upd_so i (fun _ => fresh_socket (i16 type) None) s in
      let '(s, err) := if (type =? SOCK_DGRAM) || (proto =? IPPROTO_UDP) then udp_attach i s
                       else if (type =? SOCK_STREAM) || (proto =? IPPROTO_TCP) then tcp_attach i s
                       else (s, CHIMERA_SUCCESS) in
      if succeeded err then (s, (CHIMERA_SUCCESS, Some i))
      else (upd_so i (fun o => o <| so_signature := 0 |>) s, (err, None))
  end.

Definition sobind (i : nat) (sin : sockaddr_in) s : res (net * chimera_error) :=
  if negb (sin_family sin =? AF_INET) then Ret (s, CHIMERA_ERR_NOTSUP) else
  if so_type (so s i) =? SOCK_DGRAM then udp_bind i sin s else
  if so_type (so s i) =? SOCK_STREAM then tcp_bind i sin s else
  Ret (s, CHIMERA_ERR_NOTSUP).

Definition solisten (i : nat) (backlog : Z) s : res (net * chimera_error) :=
  if negb (so_type (so s i) =? SOCK_STREAM) then Ret (s, CHIMERA_ERR_NOTSUP) else
  let limit := if 0 <? backlog then if 16 <? backlog then 16 else backlog else 5 in
  tcp_listen i (upd_so i (fun o => o <| so_qlimit := limit |> <| so_head := Some i |>) s).

Definition so_new_child (head : nat) s : net * option nat :=
  match free_socket s with
  | None => (s, None)
  | Some i =>
      let s := upd_so i (fun _ => fresh_socket (so_type (so s head)) (Some head)) s in
      let s := upd_so i (fun o => o <| so_q0 := so_q0 (so s head) |>) s in
      (upd_so head (fun o => o <| so_q0 := Some i |>) s, Some i)
  end.

(** The socket whose [so_q0] points to [child]. *)
Fixpoint q0_owner (n o child : nat) s : res (option nat) :=
  match so_q0 (so s o) with
  | None => Ret None
  | Some c => if (c =? child)%nat then Ret (Some o) else match n with O => Err Endless | S n => q0_owner n c child s end
  end.

Fixpoint q_tail (n t : nat) s : res nat :=
  match so_q (so s t) with
  | None => Ret t
  | Some c => match n with O => Err Endless | S n => q_tail n c s end
  end.

Definition so_q0_to_q (child : nat) s : res net :=
  match so_head (so s child) with
  | None => Ret s
  | Some head =>
      o ← q0_owner MAX_SOCKETS head child s;
      match o with
      | None => Ret s
      | Some o =>
          let s := upd_so o (fun x => x <| so_q0 := so_q0 (so s child) |>) s in
          let s := upd_so child (fun x => x <| so_q0 := None |>) s in
          s ← match so_q (so s head) with
              | None => Ret (upd_so head (fun x => x <| so_q := Some child |>) s)
              | Some t => t ← q_tail MAX_SOCKETS t s; Ret (upd_so t (fun x => x <| so_q := Some child |>) s)
              end;
          let s := upd_so child (fun x => x <| so_q := None |>) s in
          Ret (upd_so head (fun x => x <| so_qlen ::= Z.add 1 |>) s)
      end
  end.

Definition so_free (i : nat) s : net :=
  if negb (so_signature (so s i) =? CHIMERA_SOCKET_MAGIC) then s
  else upd_so i (fun o => o <| so_signature := 0 |> <| so_pcb := None |>) s.

Definition so_discard_child (child : nat) s : res net :=
  s ← match so_head (so s child) with
      | None => Ret s
      | Some head =>
          o ← q0_owner MAX_SOCKETS head child s;
          match o with
          | None => Ret s
          | Some o => Ret (upd_so o (fun x => x <| so_q0 := so_q0 (so s child) |>) s)
          end
      end;
  Ret (so_free child s).

Definition soaccept (i : nat) s : net * (chimera_error * option nat) :=
  match so_q (so s i) with
  | None => (s, (CHIMERA_ERR_WOULDBLOCK, None))
  | Some conn =>
      let s := upd_so i (fun o => o <| so_q := so_q (so s conn) |>) s in
      let s := upd_so conn (fun o => o <| so_q := None |> <| so_head := None |>) s in
      (upd_so i (fun o => o <| so_qlen ::= fun n => if 0 <? n then n - 1 else n |>) s, (CHIMERA_SUCCESS, Some conn))
  end.

Definition soshutdown (i : nat) (how : Z) s : net :=
  let s := if (how =? 0) || (how =? 2) then upd_so i (fun o => o <| so_state ::= Z.lor SS_CANTRCVMORE |>) s else s in
  if (how =? 1) || (how =? 2) then upd_so i (fun o => o <| so_state ::= Z.lor SS_CANTSENDMORE |>) s else s.

(** The options kept in a bit of [so_options]. *)
Definition flag_option (optname : Z) : bool :=
  bool_decide (optname ∈ [SO_REUSEADDR; SO_KEEPALIVE; SO_DONTROUTE; SO_BROADCAST; SO_DEBUG]).

Definition i32 (z : Z) : Z := u32 (z + 2 ^ 31) - 2 ^ 31.

(** [optval] are the [optlen] bytes of the option's value. *)
Definition sosetopt (i : nat) (level optname : Z) (optval : list Z) s : net * chimera_error :=
  if negb (so_signature (so s i) =? CHIMERA_SOCKET_MAGIC) then (s, CHIMERA_ERR_INVALID) else
  if (length optval =? 0)%nat then (s, CHIMERA_ERR_INVALID) else
  let put f := if (length optval <? 4)%nat then (s, CHIMERA_ERR_INVALID) else (upd_so i (f (w32 optval 0)) s, CHIMERA_SUCCESS) in
  if level =? SOL_SOCKET then
    if flag_option optname then
      put (fun v o => o <| so_options ::= fun x => if i32 v =? 0 then Z.ldiff x optname else Z.lor x optname |>)
    else if optname =? SO_RCVTIMEO then put (fun v o => o <| so_rcvtimeo := v |>)
    else if optname =? SO_SNDTIMEO then put (fun v o => o <| so_sndtimeo := v |>)
    else if optname =? SO_RCVBUF then
      put (fun v o => if (0 <? i32 v) && (i32 v <=? SB_MAX) then o <| so_rcv ::= fun b => b <| sb_hiwat := u32 (i32 v) |> |> else o)
    else if optname =? SO_SNDBUF then
      put (fun v o => if (0 <? i32 v) && (i32 v <=? SB_MAX) then o <| so_snd ::= fun b => b <| sb_hiwat := u32 (i32 v) |> |> else o)
    else (s, CHIMERA_ERR_NOTSUP)
  else if level =? IPPROTO_TCP then
    if optname =? 1 then (s, CHIMERA_SUCCESS) else (s, CHIMERA_ERR_NOTSUP)
  else (s, CHIMERA_ERR_NOTSUP).

(** The value comes back cut to the caller's [optlen] bytes. *)
Definition sogetopt (i : nat) (level optname optlen : Z) s : net * (chimera_error * list Z) :=
  let o := so s i in
  if negb (so_signature o =? CHIMERA_SOCKET_MAGIC) then (s, (CHIMERA_ERR_INVALID, [])) else
  if optlen =? 0 then (s, (CHIMERA_ERR_INVALID, [])) else
  let get v s := (s, (CHIMERA_SUCCESS, take (Z.to_nat (if optlen <? 4 then optlen else 4)) (le32 (u32 v)))) in
  if level =? SOL_SOCKET then
    if flag_option optname then get (if has (so_options o) optname then 1 else 0) s
    else if optname =? SO_TYPE then get (so_type o) s
    else if optname =? SO_ERROR then get (so_error o) (upd_so i (fun o => o <| so_error := 0 |>) s)
    else if optname =? SO_RCVTIMEO then get (so_rcvtimeo o) s
    else if optname =? SO_SNDTIMEO then get (so_sndtimeo o) s
    else if optname =? SO_RCVBUF then get (sb_hiwat (so_rcv o)) s
    else if optname =? SO_SNDBUF then get (sb_hiwat (so_snd o)) s
    else (s, (CHIMERA_ERR_NOTSUP, []))
  else (s, (CHIMERA_ERR_NOTSUP, [])).

Definition POLLIN : Z := 2 ^ 0.
Definition POLLOUT : Z := 2 ^ 2.
Definition POLLERR : Z := 2 ^ 3.
Definition POLLHUP : Z := 2 ^ 4.
Definition POLLNVAL : Z := 2 ^ 5.

Definition sopoll (i : nat) (events : Z) s : Z :=
  let o := so s i in
  if negb (so_signature o =? CHIMERA_SOCKET_MAGIC) then POLLNVAL else
  let r := if has events POLLIN && ((0 <? sb_cc (so_rcv o)) || has (so_state o) SS_CANTRCVMORE || (0 <? so_qlen o) ||
                                    negb (so_error o =? 0)) then POLLIN else 0 in
  let out := if so_type o =? SOCK_DGRAM then negb (has (so_state o) SS_CANTSENDMORE)
             else (so_type o =? SOCK_STREAM) && has (so_state o) SS_ISCONNECTED && (sb_cc (so_snd o) <? sb_hiwat (so_snd o)) in
  let r := if has events POLLOUT && out then Z.lor r POLLOUT else r in
  let r := if negb (so_error o =? 0) then Z.lor r POLLERR else r in
  let both := Z.lor SS_CANTRCVMORE SS_CANTSENDMORE in
  if Z.land (so_state o) both =? both then Z.lor r POLLHUP else r.

(** ** The driver: [e1000.c] *)

Definition pad60 (l : list Z) : list Z := l ++ replicate (60 - length l) 0.

Definition e1000_transmit_frame (data : list Z) s : net * chimera_error :=
  let len := Z.of_nat (length data) in
  if negb (g_e1000_present s) || (len =? 0) || (2048 <? len) then (s, CHIMERA_ERR_INVALID) else
  let f := pad60 data in
  (s <| wire ::= cons f |>
     <| ifnets ::= fun t => <[en0 := (t !!! en0) <| ifi_opackets ::= fun n => u64 (n + 1) |>
                                                 <| ifi_obytes ::= fun n => u64 (n + Z.of_nat (length f)) |>]> t |>,
   CHIMERA_SUCCESS).

(** The chain is gathered into a buffer of 1536 bytes, as far as it fits. *)
Fixpoint gather (n : nat) (m : option nat) (acc : list Z) s : res (list Z) :=
  match m with
  | None => Ret acc
  | Some i =>
      let len := m_len (buf s i) in
      if 1536 <? Z.of_nat (length acc) + u64 len then Ret acc else
      match n with
      | O => Err Endless
      | S n => l ← read i 0 len (bufs s); gather n (m_next (buf s i)) (acc ++ l) s
      end
  end.

Definition e1000_output (m : nat) s : res (net * chimera_error) :=
  l ← gather CHAIN (Some m) [] s;
  s ← freem_net m s;
  Ret (e1000_transmit_frame l s).

Section Calls.
Variable c : calls.

(** One frame of the receive ring. *)
Definition e1000_receive (frame : list Z) s : res net :=
  let len := Z.of_nat (length frame) in
  if negb (0 <? len) then Ret s else
  match lift (m_getcl MT_DATA) s with
  | (s, None) => Ret s
  | (s, Some m) =>
      s ← on_bufs (write m 0 frame) s;
      let s := upd_buf m (fun b => b <| pkt_rcvif := Some en0 |>) (set_len m len s) in
      let s := s <| ifnets ::= fun t => <[en0 := (t !!! en0) <| ifi_ipackets ::= fun n => u64 (n + 1) |>
                                                           <| ifi_ibytes ::= fun n => u64 (n + len) |>]> t |> in
      c_if_input c en0 m s
  end.

(** A descriptor is given back only after its frame has been processed. *)
Fixpoint poll_loop (n : nat) s : res net :=
  match rx_ring s !! rx_cur s with
  | Some (Some frame) =>
      match n with
      | O => Err Endless
      | S n => let cur := rx_cur s in
               s ← e1000_receive frame s;
               poll_loop n (s <| rx_ring ::= <[cur := None]> |> <| rx_cur := S cur |>)
      end
  | _ => Ret s
  end.

Definition e1000_poll_rx s : res net :=
  if negb (g_e1000_present s) then Ret s else
  let s := s <| rx_ring ::= fun r => r ++ (Some <$> hd [] (arrivals s)) |> <| arrivals ::= tail |> in
  poll_loop (length (rx_ring s) + length (concat (arrivals s))) s.

(** ** Ethernet and ARP: [ethernet.c], [arp.c], [if_loop.c] *)

Definition off_link (i : nat) (dest_ip : Z) s : bool :=
  let f := ifp s i in
  negb (if_gateway f =? 0) && negb (Z.land dest_ip (if_netmask f) =? Z.land (if_ip f) (if_netmask f)).

Definition arp_packet (i : nat) (op : Z) (tha : list Z) (tpa : Z) s : ether_arp :=
  {| ea_hdr := htons ARPHRD_ETHER; ea_pro := htons ETHERTYPE_IP; ea_hln := 6; ea_pln := 4; ea_op := htons op;
     arp_sha := if_mac (ifp s i); arp_spa := if_ip (ifp s i); arp_tha := tha; arp_tpa := tpa |}.

Definition arp_send (i : nat) (op : Z) (tha : list Z) (tpa dest : Z) s : res net :=
  match lift (m_gethdr MT_DATA) s with
  | (s, None) => Ret s
  | (s, Some m) =>
      s ← on_bufs (write m 0 (arp_bytes (arp_packet i op tha tpa s))) s;
      unit_of (c_ethernet_output c i m dest ETHERTYPE_ARP (set_len m 28 s))
  end.
Definition arp_send_request (i : nat) (target_ip : Z) s : res net :=
  arp_send i ARPOP_REQUEST (replicate 6 0) target_ip INADDR_BROADCAST s.
Definition arp_send_reply (i : nat) (req : ether_arp) s : res net :=
  arp_send i ARPOP_REPLY (arp_sha req) (arp_spa req) (arp_spa req) s.

Definition arp_input (i m : nat) s : res net :=
  if m_len (buf s m) <? 28 then freem_net m s else
  l ← read m 0 28 (bufs s);
  let arp := arp_of l in
  s ← freem_net m s;
  if negb (ntohs (ea_hdr arp) =? ARPHRD_ETHER) || negb (ntohs (ea_pro arp) =? ETHERTYPE_IP) then Ret s else
  if negb (Z.land (b8 (arp_sha arp) 0) 1 =? 0) then Ret s else
  if bool_decide (arp_sha arp = replicate 6 0) then Ret s else
  if (arp_spa arp =? 0) || (arp_spa arp =? INADDR_BROADCAST) || (arp_spa arp =? if_ip (ifp s i)) then Ret s else
  let op := ntohs (ea_op arp) in
  if (op =? ARPOP_REQUEST) && (arp_tpa arp =? if_ip (ifp s i)) then
    arp_send_reply i arp (arp_cache_insert (arp_spa arp) (arp_sha arp) s)
  else if (op =? ARPOP_REPLY) && (arp_tpa arp =? if_ip (ifp s i)) then
    Ret (arp_cache_insert (arp_spa arp) (arp_sha arp) s)
  else Ret s.

Definition arp_mac (ip : Z) s : option (list Z) := (fun k => ae_mac (s_arp_table s !!! k)) <$> arp_find ip s.

Fixpoint arp_poll (n : nat) (ip : Z) s : res (net * option (list Z)) :=
  match n with
  | O => Ret (s, None)
  | S n => s ← e1000_poll_rx s;
           match arp_mac ip s with Some mac => Ret (s, Some mac) | None => arp_poll n ip s end
  end.

(** [None] is [CHIMERA_ERR_TIMEOUT]. *)
Definition arp_resolve (i : nat) (dest_ip : Z) s : res (net * option (list Z)) :=
  let dest_ip := if off_link i dest_ip s then if_gateway (ifp s i) else dest_ip in
  match arp_mac dest_ip s with
  | Some mac => Ret (s, Some mac)
  | None => s ← arp_send_request i dest_ip s; arp_poll 500 dest_ip s
  end.

Definition loopback_output_fn (i m : nat) s : res (net * chimera_error) :=
  let n := u64 (pkt_len (buf s m)) in
  let s := s <| ifnets ::= fun t => <[i := (t !!! i) <| ifi_opackets ::= fun k => u64 (k + 1) |> <| ifi_obytes ::= fun k => u64 (k + n) |>
                                        <| ifi_ipackets ::= fun k => u64 (k + 1) |> <| ifi_ibytes ::= fun k => u64 (k + n) |>]> t |> in
  s ← c_if_input c i m s;
  Ret (s, CHIMERA_SUCCESS).

(** Prepend a header buffer to the packet [m]. *)
Definition prepend (m : nat) (h : list Z) (hdr : nat) s : res net :=
  s ← on_bufs (write hdr 0 h) s;
  let n := Z.of_nat (length h) in
  Ret (upd_buf hdr (fun b => b <| m_len := n |> <| pkt_len := pkt_len (buf s m) + n |> <| m_next := Some m |>) s).

Definition ethernet_output (i m : nat) (dest_ip ethertype : Z) s : res (net * chimera_error) :=
  let f := ifp s i in
  '(s, mac) ← (if (ntohl dest_ip =? INADDR_BROADCAST) || (negb (if_bcast f =? 0) && (dest_ip =? if_bcast f))
               then Ret (s, Some (replicate 6 0xFF))
               else arp_resolve i (if off_link i dest_ip s then if_gateway f else dest_ip) s);
  match mac with
  | None => s ← freem_net m s; Ret (s, CHIMERA_ERR_TIMEOUT)
  | Some mac =>
      match lift (m_gethdr MT_HEADER) s with
      | (s, None) => s ← freem_net m s; Ret (s, CHIMERA_ERR_NOMEM)
      | (s, Some hdr) =>
          s ← prepend m (ether_bytes {| ether_dhost := mac; ether_shost := if_mac (ifp s i); ether_type := htons ethertype |}) hdr s;
          match if_output (ifp s i) with
          | Some loopback_output => loopback_output_fn i hdr s
          | Some e1000_ifnet_output => e1000_output hdr s
          | None => s ← freem_net hdr s; Ret (s, CHIMERA_ERR_NOTSUP)
          end
      end
  end.

(** ** IP: [ip.c] *)

(** The source and the interface [ip_output] chooses. *)
Definition route (src_ip dst_ip : Z) s : option nat :=
  if (dst_ip =? htonl INADDR_LOOPBACK) || (src_ip =? htonl INADDR_LOOPBACK) then if_lookup "lo0" s else if_get_default s.

Definition ip_packet (src_ip dst_ip proto len id : Z) : ip_header :=
  let h := {| ip_vhl := 69; ip_tos := 0; ip_len := htons (u16 (20 + len)); ip_id := htons id; ip_off := htons IP_OFF_DF;
              ip_ttl := 64; ip_p := proto; ip_sum := 0; ip_src := src_ip; ip_dst := dst_ip |} in
  h <| ip_sum := in_checksum (ip_bytes h) |>.

(** Copy the buffers of a chain one after the other into the cluster of [pkt]. *)
Fixpoint flatten (n : nat) (m : option nat) (pkt : nat) (o : Z) s : res net :=
  match m with
  | None => Ret s
  | Some i => match n with
              | O => Err Endless
              | S n => l ← read i 0 (m_len (buf s i)) (bufs s);
                       s ← on_bufs (write pkt o l) s;
                       flatten n (m_next (buf s i)) pkt (o + m_len (buf s i)) s
              end
  end.

(** [ip_input] with the transport protocols as arguments. *)
Definition ip_deliver (icmp udp tcp : nat -> nat -> ip_header -> net -> res net) (i m : nat) s : res net :=
  if m_len (buf s m) <? 20 then freem_net m s else
  l ← read m 0 20 (bufs s);
  let ip := ip_of l in
  if negb (IP_V ip =? 4) then freem_net m s else
  let hlen := u16 (IP_HL ip * 4) in
  if (hlen <? 20) || (m_len (buf s m) <? hlen) then freem_net m s else
  let s := advance m hlen s in
  if ip_p ip =? IPPROTO_ICMP then icmp i m ip s else
  if ip_p ip =? IPPROTO_UDP then udp i m ip s else
  if ip_p ip =? IPPROTO_TCP then tcp i m ip s else
  freem_net m s.

(** ** ICMP: [icmp.c] *)

Definition icmp_echo_reply (m : nat) (ip : ip_header) (icmp : icmp_header) s : res net :=
  let icmp := icmp <| icmp_type := ICMP_ECHOREPLY |> <| icmp_code := 0 |> <| icmp_cksum := 0 |> in
  s ← on_bufs (write m 0 (icmp_bytes icmp)) s;
  let icmp_len := u64 (pkt_len (buf s m)) in
  let icmp_len := if 1024 <? icmp_len then 1024 else icmp_len in
  temp_buf ← m_copydata (Some m) 0 icmp_len (bufs s);
  _ ← guard_res ((icmp_len <=? Z.of_nat (length temp_buf)) && (8 <=? Z.of_nat (length temp_buf))) Undefined;
  let temp_hdr := (icmp_of temp_buf) <| icmp_cksum := 0 |> in
  let temp_hdr := temp_hdr <| icmp_cksum := in_checksum (icmp_bytes temp_hdr ++ drop 8 temp_buf) |> in
  s ← on_bufs (write m 0 (icmp_bytes temp_hdr)) s;
  unit_of (c_ip_output c m (ip_dst ip) (ip_src ip) IPPROTO_ICMP s).

Definition icmp_input (i m : nat) (ip : ip_header) s : res net :=
  if m_len (buf s m) <? 8 then freem_net m s else
  l ← read m 0 8 (bufs s);
  let icmp := icmp_of l in
  if icmp_type icmp =? ICMP_ECHO then icmp_echo_reply m ip icmp s else
  let s := if icmp_type icmp =? ICMP_ECHOREPLY then
             match scan PING_LISTENERS (fun k => pl_id (s_ping_listeners s !!! k) =? ntohs (icmp_id icmp)) with
             | Some k => s <| s_ping_listeners ::= fun t => <[k := (t !!! k) <| pl_seq := ntohs (icmp_seq icmp) |> <| pl_received := true |>]> t |>
             | None => s
             end
           else s in
  freem_net m s.

Definition icmp_send_echo (dst_ip id seq : Z) (payload : list Z) s : res (net * chimera_error) :=
  let total_len := 8 + Z.of_nat (length payload) in
  match lift (m_gethdr MT_DATA) s with
  | (s, None) => Ret (s, CHIMERA_ERR_NOMEM)
  | (s, Some m) =>
      if 512 <? total_len then Ret (s, CHIMERA_ERR_INVALID) else
      let icmp := {| icmp_type := ICMP_ECHO; icmp_code := 0; icmp_cksum := 0; icmp_id := htons id; icmp_seq := htons seq |} in
      let icmp := icmp <| icmp_cksum := in_checksum (icmp_bytes icmp ++ payload) |> in
      s ← on_bufs (write m 0 (icmp_bytes icmp ++ payload)) s;
      let s := set_len m total_len s in
      let s := match scan PING_LISTENERS (fun k => (pl_id (s_ping_listeners s !!! k) =? 0) || (pl_id (s_ping_listeners s !!! k) =? id)) with
               | Some k => s <| s_ping_listeners ::= <[k := {| pl_id := id; pl_seq := seq; pl_received := false |}]> |>
               | None => s
               end in
      c_ip_output c m 0 dst_ip IPPROTO_ICMP s
  end.

Definition icmp_poll_reply (id : Z) s : res (net * option Z) :=
  s ← e1000_poll_rx s;
  Ret (match scan PING_LISTENERS (fun k => (pl_id (s_ping_listeners s !!! k) =? id) && pl_received (s_ping_listeners s !!! k)) with
       | Some k => (s <| s_ping_listeners ::= fun t => <[k := (t !!! k) <| pl_received := false |>]> t |>,
                    Some (pl_seq (s_ping_listeners s !!! k)))
       | None => (s, None)
       end).

(** ** UDP: [udp.c] *)

Definition udp_input (i m : nat) (ip : ip_header) s : res net :=
  if m_len (buf s m) <? 8 then freem_net m s else
  l ← read m 0 8 (bufs s);
  let uh := udp_of l in
  let dport := ntohs (uh_dport uh) in
  let ulen := ntohs (uh_ulen uh) in
  if (ulen <? 8) || (m_len (buf s m) <? ulen) then freem_net m s else
  let s := advance m 8 s in
  match scan UDP_MAX_SOCKETS (udp_port_taken dport s) with
  | Some k => match u_so (udp s k) with Some o => sbappend o m s | None => freem_net m s end
  | None => freem_net m s
  end.

Definition udp_sendto (i : nat) (data : list Z) (dest : sockaddr_in) s : res (net * chimera_error) :=
  let len := Z.of_nat (length data) in
  match so_pcb (so s i) with
  | None => Ret (s, CHIMERA_ERR_INVALID)
  | Some (TcpPcb _) => if 1472 <? len then Ret (s, CHIMERA_ERR_INVALID) else Err Undefined
  | Some (UdpPcb k) =>
      if 1472 <? len then Ret (s, CHIMERA_ERR_INVALID) else
      s ← (if u_bound (udp s k) then Ret s else unit_of (udp_bind i auto_sin s));
      match lift (m_getcl MT_DATA) s with
      | (s, None) => Ret (s, CHIMERA_ERR_NOMEM)
      | (s, Some m) =>
          let uh := {| uh_sport := htons (u_local_port (udp s k)); uh_dport := sin_port dest; uh_ulen := htons (u16 (8 + len)); uh_sum := 0 |} in
          s ← on_bufs (write m 0 (udp_bytes uh ++ data)) s;
          let src_ip := if u_local_ip (udp s k) =? 0 then match if_get_default s with Some d => if_ip (ifp s d) | None => 0 end
                        else u_local_ip (udp s k) in
          c_ip_output c m src_ip (sin_addr dest) IPPROTO_UDP (set_len m (8 + len) s)
      end
  end.

(** ** TCP: [tcp.c] *)

(** One of the queues of a closing listener; [next] follows it. *)
Fixpoint detach_children (n : nat) (next : socket -> option nat) (l : option nat) s : res net :=
  match l with
  | None => Ret s
  | Some i =>
      match n with
      | O => Err Endless
      | S n =>
          let nxt := next (so s i) in
          s ← match so_pcb (so s i) with
              | None => Ret s
              | Some (UdpPcb _) => Err Undefined
              | Some (TcpPcb k) =>
                  Ret (upd_so i (fun o => o <| so_pcb := None |>)
                        (upd_tcp k (fun p => p <| t_so := None |> <| t_state := TCPS_CLOSED |>) s))
              end;
          detach_children n next nxt (so_free i s)
      end
  end.

Definition tcp_detach (i : nat) s : res net :=
  match so_pcb (so s i) with
  | None => Ret s
  | Some (UdpPcb _) => Err Undefined
  | Some (TcpPcb k) =>
      let s := upd_tcp k (fun p => p <| t_so := None |> <| t_state := TCPS_CLOSED |> <| t_bound := false |>) s in
      let s := upd_so i (fun o => o <| so_pcb := None |>) s in
      if bool_decide (so_head (so s i) = Some i \/ so_head (so s i) = None) then
        s ← detach_children MAX_SOCKETS so_q0 (so_q0 (so s i)) s;
        s ← detach_children MAX_SOCKETS so_q (so_q (so s i)) s;
        Ret (upd_so i (fun o => o <| so_q0 := None |> <| so_q := None |> <| so_qlen := 0 |>) s)
      else Ret s
  end.

(** The peer's address, for [accept]. *)
Definition tcp_fill_peer (i : nat) s : res sockaddr_in :=
  match so_pcb (so s i) with
  | None => Ret auto_sin
  | Some (UdpPcb _) => Err Undefined
  | Some (TcpPcb k) => Ret {| sin_family := AF_INET; sin_port := htons (t_remote_port (tcp s k)); sin_addr := t_remote_ip (tcp s k) |}
  end.

Definition tcp_alloc_child (listen_pcb listen_so : nat) (local_ip remote_ip remote_port irs : Z) s : res (net * option nat) :=
  match so_new_child listen_so s with
  | (s, None) => Ret (s, None)
  | (s, Some child_so) =>
      match scan TCP_MAX_SOCKETS (fun k => bool_decide (t_so (tcp s k) = None)) with
      | None => s ← so_discard_child child_so s; Ret (s, None)
      | Some k =>
          let iss := u32 (s_iss_counter s + 64000) in
          let s := s <| s_iss_counter := iss |> in
          let p := {| t_so := Some child_so; t_state := TCPS_SYN_RECEIVED; t_local_ip := local_ip;
                      t_local_port := t_local_port (tcp s listen_pcb); t_remote_ip := remote_ip; t_remote_port := remote_port;
                      t_iss := iss; t_snd_una := iss; t_snd_nxt := iss; t_snd_wnd := 65535; t_irs := irs; t_rcv_nxt := u32 (irs + 1);
                      t_rcv_wnd := 65535; t_bound := true |} in
          let s := upd_tcp k (fun _ => p) s in
          Ret (upd_so child_so (fun o => o <| so_pcb := Some (TcpPcb k) |> <| so_state ::= Z.lor SS_ISCONNECTED |>) s, Some k)
      end
  end.

(** The segment as it is sent: header, the option of a SYN, data. *)
Definition syn_options (flags : Z) : list Z := if has flags TH_SYN then [2; 4; 5; 180] else [].

Definition tcp_segment (p : tcp_pcb) (flags : Z) (data : list Z) : list Z :=
  let hdr_len := 20 + Z.of_nat (length (syn_options flags)) in
  let th := {| th_sport := htons (t_local_port p); th_dport := htons (t_remote_port p); th_seq := htonl (t_snd_nxt p);
               th_ack := htonl (t_rcv_nxt p); th_off_x2 := u8 (Z.shiftl (hdr_len / 4) 4); th_flags := flags;
               th_win := htons (u16 (t_rcv_wnd p)); th_sum := 0; th_urp := 0 |} in
  let body := syn_options flags ++ data in
  let sum := in_pseudo_checksum (t_local_ip p) (t_remote_ip p) IPPROTO_TCP (u16 (hdr_len + Z.of_nat (length data))) (tcp_bytes th ++ body) in
  tcp_bytes (th <| th_sum := sum |>) ++ body.

Definition tcp_send_packet (k : nat) (flags : Z) (data : list Z) s : res (net * chimera_error) :=
  let s := if t_local_ip (tcp s k) =? 0
           then match if_get_default s with Some d => upd_tcp k (fun p => p <| t_local_ip := if_ip (ifp s d) |>) s | None => s end
           else s in
  match lift (m_getcl MT_DATA) s with
  | (s, None) => Ret (s, CHIMERA_ERR_NOMEM)
  | (s, Some m) =>
      let hdr_len := 20 + Z.of_nat (length (syn_options flags)) in
      let len := Z.of_nat (length data) in
      let seg := tcp_segment (tcp s k) flags data in
      if MCLBYTES - hdr_len - 64 <? len then s ← freem_net m s; Ret (s, CHIMERA_ERR_OVERFLOW) else
        s ← on_bufs (write m 0 seg) s;
        let s := set_len m (hdr_len + len) s in
        let s := upd_tcp k (fun p => p <| t_snd_nxt ::= fun n => u32 (n + if has flags (Z.lor TH_SYN TH_FIN) then 1 else len) |>) s in
        c_ip_output c m (t_local_ip (tcp s k)) (t_remote_ip (tcp s k)) IPPROTO_TCP s
  end.

(** The control block a segment belongs to: the connection, else for a SYN a listener. *)
Definition tcp_exact (dport src sport : Z) s (k : nat) : bool :=
  let p := tcp s k in
  bool_decide (t_so p ≠ None) && t_bound p && (t_local_port p =? dport) && negb (bool_decide (t_state p = TCPS_LISTEN)) &&
  (t_remote_ip p =? src) && (t_remote_port p =? sport).
Definition tcp_listener (dport : Z) s (k : nat) : bool :=
  let p := tcp s k in
  bool_decide (t_so p ≠ None) && t_bound p && (t_local_port p =? dport) && bool_decide (t_state p = TCPS_LISTEN).
Definition tcp_demux (dport src sport flags : Z) s : option nat :=
  match scan TCP_MAX_SOCKETS (tcp_exact dport src sport s) with
  | Some k => Some k
  | None => if has flags TH_SYN && negb (has flags TH_ACK) then scan TCP_MAX_SOCKETS (tcp_listener dport s) else None
  end.

(** The state machine, for a segment that belongs to [k]. *)
Definition tcp_transition (k m : nat) (ip : ip_header) (th : tcp_header) s : res net :=
  let p := tcp s k in
  let sport := ntohs (th_sport th) in
  let seq := ntohl (th_seq th) in
  let ack := ntohl (th_ack th) in
  let len := m_len (buf s m) in
  let so_i := default O (t_so p) in
  match t_state p with
  | TCPS_LISTEN =>
      if has (th_flags th) TH_SYN && negb (has (th_flags th) TH_ACK) then
        if so_qlimit (so s so_i) <=? so_qlen (so s so_i) then freem_net m s else
        '(s, child) ← tcp_alloc_child k so_i (ip_dst ip) (ip_src ip) sport seq s;
        match child with
        | None => freem_net m s
        | Some ch => s ← unit_of (tcp_send_packet ch (Z.lor TH_SYN TH_ACK) [] s); freem_net m s
        end
      else freem_net m s
  | TCPS_SYN_RECEIVED =>
      if has (th_flags th) TH_ACK then
        if ack =? t_snd_nxt p then
          let s := upd_tcp k (fun p => p <| t_state := TCPS_ESTABLISHED |>) s in
          s ← so_q0_to_q so_i s;
          if 0 <? len then sbappend so_i m (upd_tcp k (fun p => p <| t_rcv_nxt ::= fun n => u32 (n + len) |>) s)
          else freem_net m s
        else freem_net m s
      else freem_net m s
  | TCPS_SYN_SENT =>
      if has (th_flags th) (Z.lor TH_SYN TH_ACK) then
        let s := upd_tcp k (fun p => p <| t_irs := seq |> <| t_rcv_nxt := u32 (seq + 1) |> <| t_snd_una := ack |>
                                        <| t_state := TCPS_ESTABLISHED |>) s in
        s ← unit_of (tcp_send_packet k TH_ACK [] s);
        freem_net m s
      else freem_net m s
  | TCPS_ESTABLISHED =>
      if (0 <? len) && negb (seq =? t_rcv_nxt p) then freem_net m s else
      if 0 <? len then
        s ← sbappend so_i m (upd_tcp k (fun p => p <| t_rcv_nxt ::= fun n => u32 (n + len) |>) s);
        unit_of (tcp_send_packet k TH_ACK [] s)
      else if has (th_flags th) TH_FIN then
        let s := upd_tcp k (fun p => p <| t_rcv_nxt ::= fun n => u32 (n + 1) |> <| t_state := TCPS_CLOSE_WAIT |>) s in
        let s := upd_so so_i (fun o => o <| so_state ::= Z.lor SS_CANTRCVMORE |>) s in
        s ← unit_of (tcp_send_packet k TH_ACK [] s);
        freem_net m s
      else freem_net m s
  | _ => freem_net m s
  end.

Definition tcp_input (i m : nat) (ip : ip_header) s : res net :=
  if m_len (buf s m) <? 20 then freem_net m s else
  l ← read m 0 (m_len (buf s m)) (bufs s);
  if negb (in_pseudo_checksum (ip_src ip) (ip_dst ip) IPPROTO_TCP (u16 (m_len (buf s m))) l =? 0) then freem_net m s else
  let th := tcp_of l in
  let hlen := u8 (TH_OFF th * 4) in
  if (hlen <? 20) || (m_len (buf s m) <? hlen) then freem_net m s else
  let s := advance m hlen s in
  match tcp_demux (ntohs (th_dport th)) (ip_src ip) (ntohs (th_sport th)) (th_flags th) s with
  | None => freem_net m s
  | Some k => tcp_transition k m ip th s
  end.

(** The polling loop of [tcp_connect], [n] rounds from the end. *)
Fixpoint connect_loop (n k i : nat) s : res (net * chimera_error) :=
  match n with
  | O => Ret (upd_tcp k (fun p => p <| t_state := TCPS_CLOSED |>)
                (upd_so i (fun o => o <| so_state ::= fun x => Z.ldiff x SS_ISCONNECTING |>) s), CHIMERA_ERR_TIMEOUT)
  | S n' =>
      let retry := 1000 - Z.of_nat n in
      s ← e1000_poll_rx s;
      if bool_decide (t_state (tcp s k) = TCPS_ESTABLISHED) then
        Ret (upd_so i (fun o => o <| so_state ::= fun x => Z.lor (Z.ldiff x SS_ISCONNECTING) SS_ISCONNECTED |>) s, CHIMERA_SUCCESS)
      else
        s ← (if (retry mod 250 =? 0) && (0 <? retry) then
               unit_of (tcp_send_packet k TH_SYN [] (upd_tcp k (fun p => p <| t_snd_nxt := t_iss p |>) s))
             else Ret s);
        connect_loop n' k i s
  end.

Definition tcp_connect (i : nat) (sin : sockaddr_in) s : res (net * chimera_error) :=
  match so_pcb (so s i) with
  | None => Ret (s, CHIMERA_ERR_INVALID)
  | Some (UdpPcb _) => Err Undefined
  | Some (TcpPcb k) =>
      s ← (if t_bound (tcp s k) then Ret s else unit_of (tcp_bind i auto_sin s));
      let s := upd_tcp k (fun p => p <| t_remote_ip := sin_addr sin |> <| t_remote_port := ntohs (sin_port sin) |>
                                     <| t_state := TCPS_SYN_SENT |>) s in
      let s := upd_so i (fun o => o <| so_state ::= Z.lor SS_ISCONNECTING |>) s in
      s ← unit_of (tcp_send_packet k TH_SYN [] s);
      connect_loop 1000 k i s
  end.

(** The loop of [tcp_send] over chunks of at most 1460 bytes. *)
Fixpoint tcp_send_loop (n k : nat) (data : list Z) s : res (net * chimera_error) :=
  match data with
  | [] => Ret (s, CHIMERA_SUCCESS)
  | _ =>
      match n with
      | O => Err Endless
      | S n =>
          let chunk := take 1460 data in
          let flags := if (length data <=? 1460)%nat then Z.lor TH_ACK TH_PUSH else TH_ACK in
          '(s, err) ← tcp_send_packet k flags chunk s;
          if succeeded err then tcp_send_loop n k (drop 1460 data) s else Ret (s, err)
      end
  end.
Definition tcp_send (i : nat) (data : list Z) s : res (net * chimera_error) :=
  if negb (has (so_state (so s i)) SS_ISCONNECTED) then Ret (s, CHIMERA_ERR_NOTCONN) else
  match so_pcb (so s i) with
  | None => Ret (s, CHIMERA_ERR_NOTCONN)
  | Some (UdpPcb _) => match data with [] => Ret (s, CHIMERA_SUCCESS) | _ => Err Undefined end
  | Some (TcpPcb k) => tcp_send_loop (length data) k data s
  end.

Definition tcp_close (i : nat) s : res net :=
  match so_pcb (so s i) with
  | None => Ret s
  | Some (UdpPcb _) => Err Undefined
  | Some (TcpPcb k) =>
      s ← (if bool_decide (t_state (tcp s k) = TCPS_ESTABLISHED) then
             unit_of (tcp_send_packet k (Z.lor TH_FIN TH_ACK) [] (upd_tcp k (fun p => p <| t_state := TCPS_FIN_WAIT_1 |>) s))
           else Ret s);
      tcp_detach i s
  end.

(** ** Sending, receiving and closing: [uipc_socket.c] *)

Definition soconnect (i : nat) (sin : sockaddr_in) s : res (net * chimera_error) :=
  if negb (sin_family sin =? AF_INET) then Ret (s, CHIMERA_ERR_NOTSUP) else
  if so_type (so s i) =? SOCK_STREAM then tcp_connect i sin s else Ret (s, CHIMERA_ERR_NOTSUP).

Definition sosend (i : nat) (addr : option sockaddr_in) (data : list Z) s : res (net * chimera_error) :=
  if so_type (so s i) =? SOCK_DGRAM then
    match addr with None => Ret (s, CHIMERA_ERR_INVALID) | Some a => udp_sendto i data a s end
  else if so_type (so s i) =? SOCK_STREAM then tcp_send i data s
  else Ret (s, CHIMERA_ERR_NOTSUP).

(** Polling for data; [true] is end of file. *)
Fixpoint receive_poll (n i : nat) s : res (net * bool) :=
  match n with
  | O => Ret (s, false)
  | S n =>
      if negb (sb_cc (so_rcv (so s i)) =? 0) then Ret (s, false) else
      s ← e1000_poll_rx s;
      if 0 <? sb_cc (so_rcv (so s i)) then Ret (s, false) else
      if has (so_state (so s i)) SS_CANTRCVMORE then Ret (s, true) else
      receive_poll n i s
  end.

(** Copying out of the receive queue, [len] bytes wanted. *)
Fixpoint receive_copy (n i : nat) (m : option nat) (len : Z) (acc : list Z) s : res (net * list Z) :=
  match m with
  | None => Ret (s, acc)
  | Some x =>
      let copied := Z.of_nat (length acc) in
      if len <=? copied then Ret (s, acc) else
      match n with
      | O => Err Endless
      | S n =>
          let chunk := m_len (buf s x) in
          let chunk := if len <? copied + chunk then len - copied else chunk in
          l ← read x 0 chunk (bufs s);
          let s := upd_buf x (fun b => b <| m_data ::= Z.add chunk |> <| m_len ::= fun k => k - chunk |>) s in
          let s := upd_so i (fun o => o <| so_rcv ::= fun b => b <| sb_cc ::= fun k => u32 (k - chunk) |> |>) s in
          if m_len (buf s x) =? 0 then
            let next := match m_next (buf s x) with Some y => Some y | None => m_nextpkt (buf s x) end in
            let s := s <| bufs ::= m_free x |> in
            let s := upd_so i (fun o => o <| so_rcv ::= fun b => b <| sb_mb := next |> |>) s in
            receive_copy n i next len (acc ++ l) s
          else receive_copy n i m len (acc ++ l) s
      end
  end.

Definition soreceive (i : nat) (len : Z) s : res (net * (chimera_error * list Z)) :=
  '(s, eof) ← receive_poll 500 i s;
  if eof : bool then Ret (s, (CHIMERA_SUCCESS, [])) else
  match sb_mb (so_rcv (so s i)) with
  | None => Ret (s, (if has (so_state (so s i)) SS_CANTRCVMORE then CHIMERA_SUCCESS else CHIMERA_ERR_WOULDBLOCK, []))
  | Some m => '(s, l) ← receive_copy CHAIN i (Some m) len [] s; Ret (s, (CHIMERA_SUCCESS, l))
  end.

Definition soclose (i : nat) s : res (net * chimera_error) :=
  if negb (so_signature (so s i) =? CHIMERA_SOCKET_MAGIC) then Ret (s, CHIMERA_ERR_INVALID) else
  s ← (if so_type (so s i) =? SOCK_DGRAM then udp_detach i s
       else if so_type (so s i) =? SOCK_STREAM then tcp_close i s else Ret s);
  s ← sbflush_rcv i s;
  s ← sbflush_snd i s;
  Ret (upd_so i (fun o => o <| so_signature := 0 |>) s, CHIMERA_SUCCESS).

(** ** Input and output *)

Definition ip_input (i m : nat) s : res net := ip_deliver icmp_input udp_input tcp_input i m s.

Definition ip_loopback (i hdr : nat) s : res (net * chimera_error) :=
  let total := u64 (pkt_len (buf s hdr)) in
  if MCLBYTES <? total then s ← freem_net hdr s; Ret (s, CHIMERA_ERR_OVERFLOW) else
  match lift (m_getcl MT_DATA) s with
  | (s, None) => s ← freem_net hdr s; Ret (s, CHIMERA_ERR_NOMEM)
  | (s, Some pkt) =>
      s ← flatten CHAIN (Some hdr) pkt 0 s;
      let s := upd_buf pkt (fun b => b <| pkt_rcvif := Some i |>) (set_len pkt total s) in
      s ← freem_net hdr s;
      s ← ip_input i pkt s;
      Ret (s, CHIMERA_SUCCESS)
  end.

Definition ip_output (m : nat) (src_ip dst_ip proto : Z) s : res (net * chimera_error) :=
  match route src_ip dst_ip s with
  | None => s ← freem_net m s; Ret (s, CHIMERA_ERR_NOTFOUND)
  | Some i =>
      let src_ip := if src_ip =? 0 then if_ip (ifp s i) else src_ip in
      match lift (m_gethdr MT_HEADER) s with
      | (s, None) => s ← freem_net m s; Ret (s, CHIMERA_ERR_NOMEM)
      | (s, Some hdr) =>
          let h := ip_packet src_ip dst_ip proto (pkt_len (buf s m)) (s_ip_id_counter s) in
          s ← prepend m (ip_bytes h) hdr (s <| s_ip_id_counter ::= fun n => u16 (n + 1) |>);
          if has (if_flags (ifp s i)) IFF_LOOPBACK then ip_loopback i hdr s
          else c_ethernet_output c i hdr dst_ip ETHERTYPE_IP s
      end
  end.

Definition ethernet_input (i m : nat) s : res net :=
  if m_len (buf s m) <? 14 then freem_net m s else
  l ← read m 0 14 (bufs s);
  let s := advance m 14 s in
  let ethertype := ntohs (ether_type (ether_of l)) in
  if ethertype =? ETHERTYPE_ARP then arp_input i m s else
  if ethertype =? ETHERTYPE_IP then ip_input i m s else
  freem_net m s.

Definition if_input (i m : nat) s : res net :=
  if s_net_input_lock s then Err Deadlock else
  let s := s <| s_net_input_lock := true |> in
  s ← (if has (if_flags (ifp s i)) IFF_LOOPBACK then ip_input i m s else ethernet_input i m s);
  Ret (s <| s_net_input_lock := false |>).
End Calls.

(** The stack with up to [n] nested entries. *)
Fixpoint stack (n : nat) : calls :=
  match n with
  | O => {| c_ip_output := fun _ _ _ _ _ => Err Depth; c_ethernet_output := fun _ _ _ _ _ => Err Depth; c_if_input := fun _ _ _ => Err Depth |}
  | S n => {| c_ip_output := ip_output (stack n); c_ethernet_output := ethernet_output (stack n); c_if_input := if_input (stack n) |}
  end.

(** ** Start-up *)

Definition loopback_if : ifnet :=
  inhabitant <| if_name := "lo0" |> <| if_flags := Z.lor (Z.lor IFF_UP IFF_LOOPBACK) 0x40 |> <| if_mtu := 16384 |>
    <| if_ip := htonl INADDR_LOOPBACK |> <| if_netmask := htonl 0xFF000000 |> <| if_bcast := htonl 0x7FFFFFFF |>
    <| if_output := Some loopback_output |>.
Definition loopback_init (s : net) : net := if_attach lo0 (s <| ifnets ::= <[lo0 := loopback_if]> |>).

Definition en0_if (mac : list Z) : ifnet :=
  inhabitant <| if_name := "en0" |> <| if_flags := 0x8043 |> <| if_mtu := 1500 |> <| if_mac := mac |>
    <| if_output := Some e1000_ifnet_output |>.
Definition e1000_attach (mac : list Z) (s : net) : net :=
  (if_attach en0 (s <| ifnets ::= <[en0 := en0_if mac]> |>)) <| g_e1000_present := true |>.

Definition blank : net :=
  {| bufs := mbuf_init {| s_mbuf_pool := ∅; s_mbuf_freelist := None |}; ifnets := ∅; s_if_list := []; s_net_input_lock := false;
     s_arp_table := ∅; s_ping_listeners := ∅; s_ip_id_counter := 1; s_udp_pcbs := ∅; s_ephemeral_port := 49152;
     s_tcp_pcbs := ∅; s_ephemeral_tcp_port := 49152; s_iss_counter := 0x12345678; s_socket_pool := ∅;
     g_e1000_present := false; rx_ring := []; rx_cur := O; arrivals := []; wire := [] |}.
End NetStack.
