(* ===== verification/NetInv.v ===== *)
(** * The invariant of the network stack

    Every buffer of the pool is free, in flight (held by the code that is
    running), in the receive queue of one socket, or lost with a socket that
    was reused; the accept queues of listening sockets are proper lists; the
    control blocks in use belong to live sockets. *)

From stdpp Require Import functions.
From S2P Require Import Prelude Checksum Mbuf Net NetStack.

(** Of the faults only a spinning lock or a lack of depth may happen. *)
Definition safe {A} (r : res A) (Q : A -> Prop) : Prop :=
  match r with
  | Ret a => Q a
  | Err Undefined | Err Endless | Err Overread => False
  | Err Deadlock | Err Depth => True
  end.

Lemma safe_bind {A B} (r : res A) (f : A -> res B) P Q :
  safe r P -> (forall a, P a -> safe (f a) Q) -> safe (r ≫= f) Q.
Proof. destruct r as [a|[]]; cbn; auto. Qed.

Lemma safe_mono {A} (r : res A) (P Q : A -> Prop) : safe r P -> (forall a, P a -> Q a) -> safe r Q.
Proof. destruct r as [a|[]]; cbn; auto. Qed.

Module NetInv.

Import Checksum Mbuf Net NetStack.

Implicit Types (s : net) (b : mbufs).

(** ** Receive queues *)

Definition nextpkt b (i : nat) : option nat := m_nextpkt (mb i b).
Definition sum_len b (l : list nat) : Z := foldr (fun i n => m_len (mb i b) + n) 0 l.

(** [l] are the packets of a socket buffer, one buffer each. *)
Record queue b (sb : sockbuf) (l : list nat) : Prop := {
  qu_chain : chain (nextpkt b) (sb_mb sb) l;
  qu_last : l ≠ [] -> last l = sb_last sb;
  qu_single : forall i, i ∈ l -> next b i = None /\ seg_ok (mb i b);
  qu_cc : sb_cc sb = u32 (sum_len b l)
}.

Definition queued (q : nat -> list nat) : list nat := concat (q <$> seq 0 MAX_SOCKETS).
Arguments queued : simpl never.

(** ** Sockets *)

Definition live_so s (i : nat) : Prop := (i < MAX_SOCKETS)%nat /\ so_signature (so s i) = CHIMERA_SOCKET_MAGIC.
Definition is_head s (h : nat) : Prop := so_head (so s h) = None \/ so_head (so s h) = Some h.

(** The control block of a socket fits its type and points back to it. *)
Definition owned s (i : nat) : Prop :=
  match so_pcb (so s i) with
  | None => True
  | Some (UdpPcb k) => so_type (so s i) = SOCK_DGRAM /\ u_so (udp s k) = Some i
  | Some (TcpPcb k) => so_type (so s i) = SOCK_STREAM /\ t_so (tcp s k) = Some i
  end.

(** Connections of [h] are streams, those that are complete have no queue of
    their own, and only a stream socket with a control block has connections. *)
Definition kids s (h : nat) (L0 L : list nat) : Prop :=
  (forall c, c ∈ L0 ++ L -> so_type (so s c) = SOCK_STREAM) /\ (forall c, c ∈ L -> so_q0 (so s c) = None) /\
  (L0 ++ L = [] \/ exists k, so_pcb (so s h) = Some (TcpPcb k)).

(** [Q0 h] and [Q h] are the incomplete and the complete connections of [h]. *)
Record sock_inv s (Q0 Q : nat -> list nat) : Prop := {
  si_tcp : forall k i, t_so (tcp s k) = Some i -> t_bound (tcp s k) = true ->
    live_so s i /\ so_pcb (so s i) = Some (TcpPcb k) /\ (t_state (tcp s k) = TCPS_LISTEN -> is_head s i);
  si_udp : forall k i, u_so (udp s k) = Some i -> u_bound (udp s k) = true -> live_so s i /\ so_pcb (so s i) = Some (UdpPcb k);
  si_heads : forall h, live_so s h -> is_head s h ->
    chain (fun i => so_q0 (so s i)) (so_q0 (so s h)) (Q0 h) /\ chain (fun i => so_q (so s i)) (so_q (so s h)) (Q h) /\
    NoDup (Q0 h ++ Q h) /\ forall c, c ∈ Q0 h ++ Q h -> live_so s c /\ so_head (so s c) = Some h /\ c ≠ h;
  si_child : forall c h, live_so s c -> so_head (so s c) = Some h -> c ≠ h -> live_so s h /\ is_head s h;
  si_owned : forall i, live_so s i -> owned s i;
  si_kids : forall h, live_so s h -> is_head s h -> kids s h (Q0 h) (Q h)
}.

Definition all_kids s (Q0 Q : nat -> list nat) : Prop :=
  forall c h, live_so s c -> so_head (so s c) = Some h -> c ≠ h -> c ∈ Q0 h ++ Q h.

(** ** The whole *)

(** Frames fit the buffers of the receive ring. *)
Definition short (f : list Z) : Prop := Z.of_nat (length f) <= MCLBYTES.
Definition pending s : list (option (list Z)) := rx_ring s ++ (Some <$> concat (arrivals s)).
Definition rx_ok s : Prop := Forall (fun d => default True (short <$> d)) (pending s).
Definition frames s : nat := length (omap id (pending s)).

(** Descriptors are given back, nothing else happens to them. *)
Definition given d d' : Prop := d' = d \/ d' = (None : option (list Z)).
Definition rx_le s s' : Prop := Forall2 given (pending s) (pending s') /\ (length (rx_ring s) <= length (rx_ring s'))%nat.

#[global] Instance given_preorder : PreOrder given.
Proof. split; [by left|]. intros x y z [-> | ->] [-> | ->]; unfold given; auto. Qed.

Lemma rx_le_refl s s' : rx_ring s' = rx_ring s -> arrivals s' = arrivals s -> rx_le s s'.
Proof. intros E1 E2. unfold rx_le, pending. rewrite E1, E2. done. Qed.

Lemma rx_le_trans s1 s2 s3 : rx_le s1 s2 -> rx_le s2 s3 -> rx_le s1 s3.
Proof. intros [H1 L1] [H2 L2]. split; [by etrans|lia]. Qed.

Lemma given_frames l l' : Forall2 given l l' -> (length (omap id l') <= length (omap id l))%nat.
Proof. induction 1 as [|d d' l l' [-> | ->] _ IH]; cbn; [done|destruct d; cbn; lia|destruct d; cbn; lia]. Qed.

Lemma given_less l l' k f : Forall2 given l l' -> l !! k = Some (Some f) -> l' !! k = Some None -> (length (omap id l') < length (omap id l))%nat.
Proof.
  intros H. revert k. induction H as [|d d' l l' Hd H IH]; intros [|k]; cbn; try done.
  - intros [= ->] [= ->]. cbn. pose proof (given_frames _ _ H). lia.
  - intros H1 H2. specialize (IH k H1 H2). destruct Hd as [-> | ->], d; cbn; lia.
Qed.

Lemma rx_le_ok s s' : rx_le s s' -> rx_ok s -> rx_ok s'.
Proof. intros [H _]. unfold rx_ok. induction H as [|d d' l l' [-> | ->] _ IH]; [done|..]; intros [Hd Hl]%Forall_cons; apply Forall_cons; (split; [done|auto]). Qed.

Record net_inv s (fly free leaked : list nat) (q Q0 Q : nat -> list nat) : Prop := {
  ni_pool : pool_inv (bufs s) free (fly ++ queued q ++ leaked);
  ni_queue : forall i, (i < MAX_SOCKETS)%nat -> queue (bufs s) (so_rcv (so s i)) (q i);
  ni_snd : forall i, sb_mb (so_snd (so s i)) = None;
  ni_sock : sock_inv s Q0 Q;
  ni_kids : all_kids s Q0 Q;
  ni_mac : forall i, length (if_mac (ifp s i)) = 6%nat;
  ni_lo : forall i, if_output (ifp s i) = Some loopback_output -> has (if_flags (ifp s i)) IFF_LOOPBACK = true;
  ni_arp : forall k, length (ae_mac (s_arp_table s !!! k)) = 6%nat;
  ni_rx : rx_ok s
}.

Definition NInv s (fly : list nat) : Prop := exists free leaked q Q0 Q, net_inv s fly free leaked q Q0 Q.

(** A packet in flight: a chain of buffers whose lengths add up. *)
Definition packet b (m : nat) (L : list nat) : Prop :=
  chain (next b) (Some m) L /\ Forall (fun i => seg_ok (mb i b)) L /\ pkt_len (mb m b) = sum_len b L.

(** What a function may rely on after a call: the invariant, and that nobody
    touched the packets it still holds. *)
Definition agree (l : list nat) b b' : Prop := forall i, i ∈ l -> mb i b' = mb i b.
Definition same_ifs s s' : Prop := forall i, if_flags (ifp s' i) = if_flags (ifp s i).
(** Sockets that are nobody's children stay so. *)
Definition keeps_heads s s' : Prop := forall i, live_so s i -> is_head s i -> live_so s' i /\ is_head s' i /\ so_type (so s' i) = so_type (so s i).

Lemma keeps_heads_same s s' : (forall i, so_signature (so s' i) = so_signature (so s i) /\ so_head (so s' i) = so_head (so s i) /\ so_type (so s' i) = so_type (so s i)) -> keeps_heads s s'.
Proof. intros E i. unfold live_so, is_head. by destruct (E i) as (-> & -> & ->). Qed.

Lemma keeps_heads_pool s s' : s_socket_pool s' = s_socket_pool s -> keeps_heads s s'.
Proof. intros E. apply keeps_heads_same. intros i. unfold so. by rewrite E. Qed.

Lemma keeps_heads_trans s1 s2 s3 : keeps_heads s1 s2 -> keeps_heads s2 s3 -> keeps_heads s1 s3.
Proof. intros K1 K2 i Hl Hh. destruct (K1 i Hl Hh) as (H1 & H2 & H3). destruct (K2 i H1 H2) as (H4 & H5 & H6). by rewrite H6, H3. Qed.

Record post (held : list nat) s s' : Prop := {
  po_inv : NInv s' held;
  po_agree : agree held (bufs s) (bufs s');
  po_ifs : same_ifs s s';
  po_rx : rx_le s s';
  po_heads : keeps_heads s s'
}.

Lemma post_trans held s1 s2 s3 : post held s1 s2 -> post held s2 s3 -> post held s1 s3.
Proof.
  intros [H1 A1 F1 N1 K1] [H2 A2 F2 N2 K2]. split; [done| | | |].
  - intros i Hi. by rewrite A2, A1.
  - intros i. by rewrite F2, F1.
  - by eapply rx_le_trans.
  - by eapply keeps_heads_trans.
Qed.

(** ** States that differ elsewhere only *)

(** What the invariant says of a socket, apart from its buffers. *)
Definition shape (o : socket) := (so_signature o, so_pcb o, so_head o, so_q0 o, so_q o, so_type o).

Lemma shape_eq o o' : shape o' = shape o ->
  so_signature o' = so_signature o /\ so_pcb o' = so_pcb o /\ so_head o' = so_head o /\ so_q0 o' = so_q0 o /\ so_q o' = so_q o /\ so_type o' = so_type o.
Proof. unfold shape. intros E. by simplify_eq. Qed.

Definition tcp_kept (p p' : tcp_pcb) : Prop :=
  t_so p' = t_so p /\ t_bound p' = t_bound p /\ (t_state p' = TCPS_LISTEN -> t_state p = TCPS_LISTEN).

Lemma sock_ext s s' Q0 Q : sock_inv s Q0 Q -> (forall i, shape (so s' i) = shape (so s i)) ->
  (forall k, tcp_kept (tcp s k) (tcp s' k)) ->
  (forall k, u_so (udp s' k) = u_so (udp s k) /\ u_bound (udp s' k) = u_bound (udp s k)) -> sock_inv s' Q0 Q.
Proof.
  intros [A B C D O K] Es Et Eu.
  assert (El : forall i, live_so s' i <-> live_so s i) by (intros i; unfold live_so; by destruct (shape_eq _ _ (Es i)) as (-> & _)).
  assert (Eh : forall i, is_head s' i <-> is_head s i) by (intros i; unfold is_head; by destruct (shape_eq _ _ (Es i)) as (_ & _ & -> & _)).
  split.
  - intros k i. destruct (Et k) as (-> & -> & Hs). intros H1 H2. destruct (A k i H1 H2) as (X1 & X2 & X3).
    destruct (shape_eq _ _ (Es i)) as (_ & -> & _). rewrite El, Eh. auto.
  - intros k i. destruct (Eu k) as (-> & ->). destruct (shape_eq _ _ (Es i)) as (_ & -> & _). rewrite El. auto.
  - intros h. rewrite El, Eh. intros Hl Hh. destruct (C h Hl Hh) as (X1 & X2 & X3 & X4).
    destruct (shape_eq _ _ (Es h)) as (_ & _ & _ & -> & -> & _). split; [|split; [|split; [done|]]].
    + eapply lseg_frame; [|exact X1]. intros i _. cbn. by destruct (shape_eq _ _ (Es i)) as (_ & _ & _ & -> & _).
    + eapply lseg_frame; [|exact X2]. intros i _. cbn. by destruct (shape_eq _ _ (Es i)) as (_ & _ & _ & _ & -> & _).
    + intros c Hc. destruct (shape_eq _ _ (Es c)) as (_ & _ & -> & _). rewrite El. auto.
  - intros c h. destruct (shape_eq _ _ (Es c)) as (_ & _ & -> & _). rewrite !El, Eh. apply D.
  - intros i. rewrite El. intros Hl. specialize (O i Hl). unfold owned in *. destruct (shape_eq _ _ (Es i)) as (_ & -> & _ & _ & _ & ->).
    destruct (so_pcb (so s i)) as [[k|k]|]; [by destruct (Eu k) as [-> _]|by destruct (Et k) as (-> & _)|done].
  - intros h. rewrite El, Eh. intros Hl Hh. destruct (K h Hl Hh) as (K1 & K2 & K3). split; [|split].
    + intros c Hc. destruct (shape_eq _ _ (Es c)) as (_ & _ & _ & _ & _ & ->). auto.
    + intros c Hc. destruct (shape_eq _ _ (Es c)) as (_ & _ & _ & -> & _). auto.
    + by destruct (shape_eq _ _ (Es h)) as (_ & -> & _).
Qed.

Lemma kids_ext s s' Q0 Q : all_kids s Q0 Q -> (forall i, shape (so s' i) = shape (so s i)) -> all_kids s' Q0 Q.
Proof. intros H Es c h. unfold live_so. destruct (shape_eq _ _ (Es c)) as (-> & _ & -> & _). apply H. Qed.

Definition if_kept (f f' : ifnet) : Prop := if_mac f' = if_mac f /\ if_flags f' = if_flags f /\ if_output f' = if_output f.

Lemma NInv_ext s s' fly : NInv s fly -> bufs s' = bufs s ->
  (forall i, shape (so s' i) = shape (so s i) /\ so_rcv (so s' i) = so_rcv (so s i) /\ sb_mb (so_snd (so s' i)) = sb_mb (so_snd (so s i))) ->
  (forall k, tcp_kept (tcp s k) (tcp s' k)) ->
  (forall k, u_so (udp s' k) = u_so (udp s k) /\ u_bound (udp s' k) = u_bound (udp s k)) ->
  (forall i, if_kept (ifp s i) (ifp s' i)) ->
  (forall k, length (ae_mac (s_arp_table s' !!! k)) = 6%nat) -> rx_le s s' -> post fly s s'.
Proof.
  intros (free & leaked & q & Q0 & Q & [H1 H2 H3 H4 HK H5 H6 H7 H8]) Eb Es Et Eu Ei Ea Er.
  split; [|intros i _; by rewrite Eb|intros i; by destruct (Ei i) as (_ & -> & _)|done|].
  2:{ apply keeps_heads_same. intros i. destruct (Es i) as [E _]. by destruct (shape_eq _ _ E) as (-> & _ & -> & _ & _ & ->). }
  exists free, leaked, q, Q0, Q. split; try done.
  - by rewrite Eb.
  - intros i Hlt. destruct (Es i) as (_ & -> & _). rewrite Eb. auto.
  - intros i. destruct (Es i) as (_ & _ & ->). auto.
  - eapply sock_ext; [done| |done|done]. intros i. apply Es.
  - eapply kids_ext; [done|]. intros i. apply Es.
  - intros i. destruct (Ei i) as (-> & _ & _). done.
  - intros i. destruct (Ei i) as (_ & -> & ->). auto.
  - by eapply rx_le_ok.
Qed.

Lemma so_upd s i f j : so (upd_so i f s) j = if decide (j = i) then f (so s i) else so s j.
Proof. unfold so, upd_so. cbn. case_decide as E; [subst; by rewrite lookup_total_insert_eq|by rewrite lookup_total_insert_ne]. Qed.

Lemma tcp_upd s i f j : tcp (upd_tcp i f s) j = if decide (j = i) then f (tcp s i) else tcp s j.
Proof. unfold tcp, upd_tcp. cbn. case_decide as E; [subst; by rewrite lookup_total_insert_eq|by rewrite lookup_total_insert_ne]. Qed.

Lemma udp_upd s i f j : udp (upd_udp i f s) j = if decide (j = i) then f (udp s i) else udp s j.
Proof. unfold udp, upd_udp. cbn. case_decide as E; [subst; by rewrite lookup_total_insert_eq|by rewrite lookup_total_insert_ne]. Qed.

Lemma ni_arp_of s fly k : NInv s fly -> length (ae_mac (s_arp_table s !!! k)) = 6%nat.
Proof. intros (? & ? & ? & ? & ? & H). apply H. Qed.

(** Changes of a control block or a socket that the invariant does not mention. *)
Lemma post_tcp s fly k f : NInv s fly -> tcp_kept (tcp s k) (f (tcp s k)) -> post fly s (upd_tcp k f s).
Proof.
  intros HI Hf. apply (NInv_ext s); try done.
  - intros j. rewrite tcp_upd. case_decide; [by subst|done].
  - intros j. exact (ni_arp_of s fly j HI).
Qed.

Lemma post_so s fly i f : NInv s fly ->
  shape (f (so s i)) = shape (so s i) -> so_rcv (f (so s i)) = so_rcv (so s i) -> sb_mb (so_snd (f (so s i))) = sb_mb (so_snd (so s i)) ->
  post fly s (upd_so i f s).
Proof.
  intros HI H1 H2 H3. apply (NInv_ext s); try done.
  - intros j. rewrite so_upd. case_decide; [by subst|done].
  - intros j. exact (ni_arp_of s fly j HI).
Qed.

(** Changes outside buffers, sockets, control blocks and interfaces. *)
Lemma post_other s s' fly : NInv s fly ->
  bufs s' = bufs s -> s_socket_pool s' = s_socket_pool s -> s_tcp_pcbs s' = s_tcp_pcbs s -> s_udp_pcbs s' = s_udp_pcbs s ->
  (forall i, if_kept (ifp s i) (ifp s' i)) -> s_arp_table s' = s_arp_table s -> rx_ring s' = rx_ring s -> arrivals s' = arrivals s ->
  post fly s s'.
Proof.
  intros HI Eb Es Et Eu Ei Ea Er1 Er2. apply (NInv_ext s); try done.
  - intros i. unfold so. by rewrite Es.
  - intros k. unfold tcp. rewrite Et. done.
  - intros k. unfold udp. by rewrite Eu.
  - intros k. rewrite Ea. exact (ni_arp_of s fly k HI).
  - by apply rx_le_refl.
Qed.

(** ** Buffers in flight *)

Lemma sum_len_frame b b' l : (forall j, j ∈ l -> mb j b' = mb j b) -> sum_len b' l = sum_len b l.
Proof.
  induction l as [|x l IH]; intros Hs; [done|]. cbn. rewrite Hs by left. f_equal. apply IH. intros; apply Hs. by right.
Qed.

Lemma queue_frame b b' sb l : (forall j, j ∈ l -> mb j b' = mb j b) -> queue b sb l -> queue b' sb l.
Proof.
  intros Hs [A B C D]. split.
  - eapply lseg_frame; [|exact A]. intros j Hj. unfold nextpkt. by rewrite Hs.
  - done.
  - intros j Hj. unfold next. rewrite Hs by done. by apply C.
  - by rewrite (sum_len_frame b).
Qed.

Lemma elem_of_queued q i j : (i < MAX_SOCKETS)%nat -> j ∈ q i -> j ∈ queued q.
Proof.
  intros Hi Hj. unfold queued. apply elem_of_concat. exists (q i). split; [done|]. apply list_elem_of_fmap_2. apply elem_of_seq. lia.
Qed.

Lemma net_bufs s b' fly fly' free free' leaked q Q0 Q : net_inv s fly free leaked q Q0 Q ->
  pool_inv b' free' (fly' ++ queued q ++ leaked) -> (forall j, j ∈ queued q -> mb j b' = mb j (bufs s)) ->
  net_inv (s <| bufs := b' |>) fly' free' leaked q Q0 Q.
Proof.
  intros [H1 H2 H3 H4 HK H5 H6 H7 H8] Hp Hq. split; try done.
  - intros i Hi. eapply queue_frame; [|by apply H2]. intros j Hj. by eapply Hq, elem_of_queued.
  - by eapply sock_ext.
Qed.

(** The three kinds of buffers in use are disjoint. *)
Lemma fly_disjoint s fly free leaked q Q0 Q j : net_inv s fly free leaked q Q0 Q -> j ∈ fly -> j ∉ free /\ j ∉ queued q.
Proof.
  intros HI Hj. pose proof (pool_NoDup _ _ _ (ni_pool _ _ _ _ _ _ _ HI)) as Hd. apply NoDup_app in Hd as (_ & H1 & Hd).
  apply NoDup_app in Hd as (_ & H2 & _). split; [intros Hf; apply (H1 j Hf); set_solver|intros Hq; apply (H2 j Hj); set_solver].
Qed.

Lemma NInv_perm s fly fly' : fly ≡ₚ fly' -> NInv s fly -> NInv s fly'.
Proof.
  intros Hp (free & leaked & q & Q0 & Q & [H1 H2 H3 H4 HK H5 H6 H7 H8]). exists free, leaked, q, Q0, Q. split; try done.
  eapply pool_perm; [done|]. by rewrite Hp.
Qed.

Lemma NInv_NoDup s fly : NInv s fly -> NoDup fly.
Proof.
  intros (free & leaked & q & Q0 & Q & [H1 _ _ _ _ _ _ _ _]). apply pool_NoDup in H1. apply NoDup_app in H1 as (_ & _ & H1). by apply NoDup_app in H1 as (H1 & _).
Qed.

Lemma fly_upd s fly m f : NInv s fly -> m ∈ fly -> NInv (upd_buf m f s) fly.
Proof.
  intros (free & leaked & q & Q0 & Q & HI) Hm. exists free, leaked, q, Q0, Q.
  apply (net_bufs s (upd m f (bufs s)) fly fly free free); [done|apply pool_upd; [apply HI|set_solver]|].
  intros j Hj. apply mb_upd_ne. intros ->. by apply (fly_disjoint _ _ _ _ _ _ _ m HI) in Hm as [_ ?].
Qed.

Lemma buf_upd s m f j : buf (upd_buf m f s) j = if decide (j = m) then f (buf s m) else buf s j.
Proof. apply mb_upd. Qed.

Lemma same_ifs_refl s s' : ifnets s' = ifnets s -> same_ifs s s'.
Proof. intros E i. unfold ifp. by rewrite E. Qed.

Lemma net_eta_bufs s : s <| bufs := bufs s |> = s.
Proof. by destruct s. Qed.

(** Two ways to leave a function. *)
Lemma free_spec s m L held : NInv s (L ++ held) -> chain (next (bufs s)) (Some m) L -> safe (freem_net m s) (post held s).
Proof.
  intros (free & leaked & q & Q0 & Q & HI) Hc. pose proof (ni_pool _ _ _ _ _ _ _ HI) as Hp. rewrite <- app_assoc in Hp.
  destruct (m_freem_spec (Some m) (bufs s) free (held ++ queued q ++ leaked) L Hp Hc) as (b' & E & Hp' & Ho).
  unfold freem_net, on_bufs. rewrite E. cbn [mbind res_bind safe]. split; [| | |by apply rx_le_refl|by apply keeps_heads_pool].
  - exists (reverse L ++ free), leaked, q, Q0, Q. apply (net_bufs s b' (L ++ held) held free); [done|done|].
    intros j Hj. apply Ho. intros Hl. destruct (fly_disjoint _ _ _ _ _ _ _ j HI) as [_ ?]; [set_solver|done].
  - intros j Hj. apply Ho. intros Hl. pose proof (NInv_NoDup s (L ++ held)) as Hd. apply NoDup_app in Hd as (_ & Hd & _); [by apply (Hd j)|].
    by exists free, leaked, q, Q0, Q.
  - by apply same_ifs_refl.
Qed.

Lemma free_one s m held : NInv s (m :: held) -> next (bufs s) m = None -> safe (freem_net m s) (post held s).
Proof. intros HI Hn. by apply (free_spec s m [m]). Qed.

Lemma alloc_spec f new s fly : (forall b free rest, pool_inv b free rest -> allocates b (f b).1 free rest (f b).2 new) -> NInv s fly ->
  match lift f s with
  | (s', None) => s' = s
  | (s', Some m) => NInv s' (m :: fly) /\ buf s' m = new (buf s m) /\ (forall j, j ≠ m -> buf s' j = buf s j) /\ s' = s <| bufs := bufs s' |>
  end.
Proof.
  intros Hf (free & leaked & q & Q0 & Q & HI). pose proof (Hf _ _ _ (ni_pool _ _ _ _ _ _ _ HI)) as H. unfold lift.
  destruct (f (bufs s)) as [b' [m|]]; cbn in *; [|destruct H as [-> _]; apply net_eta_bufs].
  destruct H as (free' & -> & Hp & E & Ho). split; [|done]. exists free', leaked, q, Q0, Q.
  apply (net_bufs s b' fly (m :: fly) (m :: free')); [done|done|]. intros j Hj. apply Ho. intros ->.
  pose proof (pool_NoDup _ _ _ (ni_pool _ _ _ _ _ _ _ HI)) as Hd. cbn in Hd. apply NoDup_cons in Hd as [Hd _]. apply Hd. rewrite !elem_of_app. auto.
Qed.

Lemma fly_fresh s m fly j : NInv s (m :: fly) -> j ∈ fly -> j ≠ m.
Proof. intros HI%NInv_NoDup Hj ->. apply NoDup_cons in HI as [? _]. done. Qed.

(** ** Queueing a packet *)

Lemma queued_put q i l : (i < MAX_SOCKETS)%nat ->
  queued (<[i := l]> q) ++ q i ≡ₚ l ++ queued q.
Proof.
  unfold queued. intros Hi. assert (Hs : i ∈ seq 0 MAX_SOCKETS) by (apply elem_of_seq; lia).
  apply list_elem_of_split in Hs as (l1 & l2 & Hs). pose proof (NoDup_seq 0 MAX_SOCKETS) as Hn. rewrite Hs in *.
  assert (Hx : forall l' : list nat, i ∉ l' -> (<[i := l]> q : nat -> list nat) <$> l' = q <$> l').
  { intros l' Hl'. apply list_fmap_ext. intros k j Hj. apply fn_lookup_insert_ne. intros ->. apply Hl'. by eapply list_elem_of_lookup_2. }
  apply NoDup_app in Hn as (_ & H1 & Hn). apply NoDup_cons in Hn as [H2 _].
  rewrite !fmap_app, !fmap_cons, !Hx by (done || (intros Hc; apply (H1 i Hc); left)). rewrite fn_lookup_insert, !concat_app. cbn. solve_Permutation.
Qed.

#[local] Opaque queued.

Definition with_rcv s (i : nat) (sb : sockbuf) : net := upd_so i (fun o => o <| so_rcv := sb |>) s.

(** Replacing the contents of one receive queue. *)
Lemma net_queue s i sb l b' fly fly' free free' leaked q Q0 Q : net_inv s fly free leaked q Q0 Q -> (i < MAX_SOCKETS)%nat ->
  pool_inv b' free' (fly' ++ queued (<[i := l]> q) ++ leaked) -> queue b' sb l ->
  (forall k j, (k < MAX_SOCKETS)%nat -> k ≠ i -> j ∈ q k -> mb j b' = mb j (bufs s)) ->
  net_inv ((with_rcv s i sb) <| bufs := b' |>) fly' free' leaked (<[i := l]> q) Q0 Q.
Proof.
  intros [H1 H2 H3 H4 HK H5 H6 H7 H8] Hi Hp Hq Ho. set (s' := (with_rcv s i sb) <| bufs := b' |>).
  assert (Es : forall j, so s' j = if decide (j = i) then (so s i) <| so_rcv := sb |> else so s j) by (intros; apply so_upd).
  split; try done.
  - intros j Hj. rewrite Es. case_decide as Ej; [subst j; by rewrite fn_lookup_insert|]. rewrite fn_lookup_insert_ne by done.
    eapply queue_frame; [|by apply H2]. intros x Hx. eapply Ho; done.
  - intros j. rewrite Es. case_decide; [apply (H3 i)|apply H3].
  - eapply sock_ext; [done| |done|done]. intros j. rewrite Es. case_decide; [by subst|done].
  - eapply kids_ext; [done|]. intros j. rewrite Es. case_decide; [by subst|done].
Qed.

Lemma sum_len_app b l1 l2 : sum_len b (l1 ++ l2) = sum_len b l1 + sum_len b l2.
Proof. induction l1; cbn; [done|]. unfold sum_len in *. lia. Qed.

(** Linking [m] behind the packets [l] of a queue. *)
Lemma queue_append b sb l m : queue b sb l -> m ∉ l -> next b m = None -> seg_ok (mb m b) ->
  exists b', match sb_mb sb, sb_last sb with
             | None, _ => Ret b
             | Some _, Some l => Ret (upd l (fun x => x <| m_nextpkt := Some m |>) b)
             | Some _, None => Err Undefined
             end = Ret b' /\
  (b' = b \/ exists x, x ∈ l /\ b' = upd x (fun y => y <| m_nextpkt := Some m |>) b) /\
  queue (upd m (fun x => x <| m_nextpkt := None |>) b')
    {| sb_cc := u32 (sb_cc sb + m_len (mb m b)); sb_hiwat := sb_hiwat sb;
       sb_mb := match sb_mb sb with None => Some m | x => x end; sb_last := Some m |} (l ++ [m]).
Proof.
  intros [A B C D] Hm Hn Hs. destruct (decide (l = [])) as [->|Hl].
  - cbn in A. rewrite A. exists b. split; [done|]. split; [by left|]. split; cbn.
    + unfold nextpkt. by rewrite mb_upd_eq.
    + done.
    + intros i Hi%list_elem_of_singleton. subst i. unfold next. by rewrite mb_upd_eq.
    + rewrite D, u32_add_l. f_equal. cbn. rewrite mb_upd_eq. cbn. lia.
  - destruct (exists_last Hl) as (l' & x & ->). rewrite last_snoc in B. rewrite <- B by done.
    pose proof (chain_NoDup _ _ _ A) as Hd. apply NoDup_app in Hd as (_ & Hd & _). apply lseg_snoc in A as [A Ex]. set (g := fun y => y <| m_nextpkt := Some m |>). exists (upd x g b).
    assert (Hxm : x ≠ m) by (intros ->; apply Hm; set_solver). set (b' := upd m (fun y => y <| m_nextpkt := None |>) (upd x g b)).
    assert (Eo : forall j, j ≠ m -> j ≠ x -> mb j b' = mb j b) by (intros; unfold b'; by rewrite !mb_upd_ne).
    assert (Em : mb m b' = (mb m b) <| m_nextpkt := None |>) by (unfold b'; by rewrite mb_upd_eq, mb_upd_ne).
    assert (Ex' : mb x b' = g (mb x b)) by (unfold b'; by rewrite mb_upd_ne, mb_upd_eq).
    assert (El : forall j, m_len (mb j b') = m_len (mb j b) /\ next b' j = next b j /\ (seg_ok (mb j b) -> seg_ok (mb j b'))).
    { intros j. unfold next. destruct (decide (j = m)) as [->|]; [by rewrite Em|]. destruct (decide (j = x)) as [->|]; [by rewrite Ex'|]. by rewrite Eo. }
    assert (Hsm : exists y, sb_mb sb = Some y) by (destruct l'; cbn in A; [eauto|destruct A; eauto]). destruct Hsm as [y Hy].
    split; [by rewrite Hy|]. split; [right; exists x; split; [set_solver|done]|]. split; cbn.
    + apply lseg_snoc. split; [|unfold nextpkt; by rewrite Em]. apply lseg_snoc. split; [|unfold nextpkt; by rewrite Ex'].
      rewrite Hy in *. apply (lseg_frame (nextpkt b)); [|done].
      intros j Hj. unfold nextpkt. rewrite Eo; [done|set_solver|]. intros ->. apply (Hd x Hj). left.
    + intros _. by rewrite last_snoc.
    + intros j Hj. destruct (El j) as (_ & -> & Hk). apply elem_of_app in Hj as [Hj|Hj%list_elem_of_singleton]; [|subst; auto]. destruct (C j Hj). auto.
    + rewrite D, u32_add_l, (sum_len_app b' (l' ++ [x])). f_equal. cbn. destruct (El m) as (-> & _). rewrite Z.add_0_r. f_equal.
      unfold sum_len. apply foldr_ext; [|done|done]. intros j n. by destruct (El j) as (-> & _).
Qed.

Lemma queued_disjoint q i k j : NoDup (queued q) -> (i < MAX_SOCKETS)%nat -> (k < MAX_SOCKETS)%nat -> j ∈ q i -> j ∈ q k -> k = i.
Proof.
  intros Hd Hi Hk Hji Hjk. destruct (decide (k = i)) as [|Hne]; [done|]. pose proof (queued_put q i [] Hi) as Hp. cbn in Hp.
  rewrite <- Hp in Hd. apply NoDup_app in Hd as (_ & Hd & _). exfalso. eapply Hd; [|exact Hji]. apply (elem_of_queued _ k); [done|]. by rewrite fn_lookup_insert_ne.
Qed.

Lemma queued_NoDup s fly free leaked q Q0 Q : net_inv s fly free leaked q Q0 Q -> NoDup (queued q).
Proof.
  intros [H1 _ _ _ _ _ _ _ _]. apply pool_NoDup in H1. apply NoDup_app in H1 as (_ & _ & H1). apply NoDup_app in H1 as (_ & _ & H1). by apply NoDup_app in H1 as (H1 & _).
Qed.

Lemma sbappend_full s i m held free leaked q Q0 Q : net_inv s (m :: held) free leaked q Q0 Q -> (i < MAX_SOCKETS)%nat -> packet (bufs s) m [m] ->
  exists sb b', let s' := (with_rcv s i sb) <| bufs := b' |> in
  sbappend i m s = Ret s' /\ net_inv s' held free leaked (<[i := q i ++ [m]]> q) Q0 Q /\
  (forall j, j ≠ m -> j ∉ q i -> mb j b' = mb j (bufs s)) /\ (forall j, exists x, mb j b' = (mb j (bufs s)) <| m_nextpkt := x |>).
Proof.
  intros HI Hi ((_ & Hn) & Hs & _). apply Forall_cons in Hs as [Hs _]. destruct (fly_disjoint _ _ _ _ _ _ _ m HI) as [_ Hmq]; [left|].
  assert (Hmi : m ∉ q i) by (intros Hx; by eapply Hmq, elem_of_queued).
  destruct (queue_append _ _ (q i) m (ni_queue _ _ _ _ _ _ _ HI i Hi) Hmi Hn Hs) as (b' & E & Hb & Hq).
  pose proof (ni_pool _ _ _ _ _ _ _ HI) as Hpool.
  assert (Ho : pool_inv b' free ((m :: held) ++ queued q ++ leaked) /\ (forall j, j ∉ q i -> mb j b' = mb j (bufs s)) /\
               (forall j, exists x, mb j b' = (mb j (bufs s)) <| m_nextpkt := x |>)).
  { destruct Hb as [->|(x & Hx & ->)]; [split; [done|split; [done|]]; intros j; exists (m_nextpkt (mb j (bufs s))); by destruct (mb j (bufs s))|].
    split; [|split; [intros j Hj; apply mb_upd_ne; by intros ->|]].
    - apply pool_upd; [done|]. rewrite !elem_of_app. right. left. by eapply elem_of_queued.
    - intros j. rewrite mb_upd. case_decide; [subst; eauto|]. exists (m_nextpkt (mb j (bufs s))). by destruct (mb j (bufs s)). }
  destruct Ho as (Hpool' & Ho & Hx). eexists _, (upd m (fun x => x <| m_nextpkt := None |>) b'). cbv zeta. unfold sbappend. rewrite E. cbn [mbind res_bind]. set (b'' := upd m _ b') in *.
  assert (Em : mb m b'' = (mb m (bufs s)) <| m_nextpkt := None |>) by (unfold b''; by rewrite mb_upd_eq, Ho).
  assert (Ho' : forall j, j ≠ m -> j ∉ q i -> mb j b'' = mb j (bufs s)) by (intros; unfold b''; rewrite mb_upd_ne by done; by apply Ho).
  unfold CHAIN. cbn [chain_len]. rewrite Em. cbn [m_next m_len]. unfold next in Hn. cbn. rewrite Hn. cbn [chain_len mbind res_bind]. cbn. rewrite Z.add_0_r.
  assert (Hp : queued (<[i := q i ++ [m]]> q) ≡ₚ m :: queued q).
  { pose proof (queued_put q i (q i ++ [m]) Hi) as Hp. rewrite (Permutation_app_comm (queued _)) in Hp.
    apply (Permutation_app_inv_l (q i)). rewrite Hp, <- app_assoc. done. }
  split; [done|]. split; [|split; [done|]].
  - apply (net_queue s i _ (q i ++ [m]) b'' (m :: held) held free free); try done.
    + apply (pool_perm _ _ ((m :: held) ++ queued q ++ leaked)); [apply pool_upd; [done|left]|]. rewrite Hp. cbn. by rewrite Permutation_middle.
    + intros k j Hk Hki Hj. apply Ho'; [intros ->; by eapply Hmq, elem_of_queued|]. intros Hy. eapply Hki, queued_disjoint; eauto using queued_NoDup.
  - intros j. destruct (decide (j = m)) as [->|Hj]; [rewrite Em; eauto|]. unfold b''. rewrite mb_upd_ne by done. apply Hx.
Qed.

Lemma sbappend_spec s i m held : NInv s (m :: held) -> (i < MAX_SOCKETS)%nat -> packet (bufs s) m [m] ->
  safe (sbappend i m s) (post held s).
Proof.
  intros HN Hi Hp. pose proof HN as (free & leaked & q & Q0 & Q & HI).
  destruct (sbappend_full s i m held free leaked q Q0 Q HI Hi Hp) as (sb & b' & -> & HI' & Ho & _). split; [| | |by apply rx_le_refl|].
  - by exists free, leaked, (<[i := q i ++ [m]]> q), Q0, Q.
  - intros j Hj. apply Ho; [by eapply fly_fresh|]. intros Hx. destruct (fly_disjoint _ _ _ _ _ _ _ j HI) as [_ Hd]; [by right|]. by eapply Hd, elem_of_queued.
  - by apply same_ifs_refl.
  - apply keeps_heads_same. intros j. change (so _ j) with (so (with_rcv s i sb) j) at 1 3 5. unfold with_rcv. rewrite so_upd. by case_decide; subst.
Qed.

(** ** Accept queues *)

Lemma scan_spec n P i : scan n P = Some i -> (i < n)%nat /\ P i = true.
Proof.
  unfold scan. intros E. apply fmap_Some in E as ([k j] & E & ->). apply list_find_Some in E as (E & HP & _).
  apply lookup_seq in E as [-> ?]. split; [cbn; lia|done].
Qed.

(** The sockets after a child of [h] was made in the free slot [c]. *)
Definition child_of s (h c : nat) : socket :=
  (fresh_socket (so_type (so s h)) (Some h)) <| so_q0 := so_q0 (so s h) |>.

Lemma new_child_so s h s' c : so_new_child h s = (s', Some c) -> h ≠ c ->
  free_socket s = Some c /\ s' = s <| s_socket_pool := s_socket_pool s' |> /\
  forall j, so s' j = if decide (j = h) then (so s h) <| so_q0 := Some c |> else if decide (j = c) then child_of s h c else so s j.
Proof.
  unfold so_new_child. destruct (free_socket s) as [c'|]; [|done]. intros [= <- <-] Hne. split; [done|]. split; [done|].
  intros j. rewrite !so_upd. repeat (case_decide; subst; try done; rewrite ?so_upd).
Qed.

Lemma child_sock s s' h c kh Q0 Q : sock_inv s Q0 Q -> live_so s h -> is_head s h -> so_pcb (so s h) = Some (TcpPcb kh) -> (c < MAX_SOCKETS)%nat -> ~ live_so s c ->
  (forall j, so s' j = if decide (j = h) then (so s h) <| so_q0 := Some c |> else if decide (j = c) then child_of s h c else so s j) ->
  s_tcp_pcbs s' = s_tcp_pcbs s -> s_udp_pcbs s' = s_udp_pcbs s -> sock_inv s' (<[h := c :: Q0 h]> Q0) Q.
Proof.
  intros [A B C D O K] Hlh Hhh Hpcb Hc Hd Es Et Eu. assert (Hne : h ≠ c) by (by intros ->).
  assert (Etc : forall k, tcp s' k = tcp s k) by (intros; unfold tcp; by rewrite Et).
  assert (Eud : forall k, udp s' k = udp s k) by (intros; unfold udp; by rewrite Eu).
  assert (Hlc : live_so s' c) by (split; [done|]; by rewrite Es, decide_False, decide_True).
  assert (El : forall j, j ≠ c -> live_so s' j <-> live_so s j) by (intros j Hj; unfold live_so; rewrite Es; repeat case_decide; by subst).
  assert (Eh : forall j, j ≠ c -> so_head (so s' j) = so_head (so s j)) by (intros j Hj; rewrite Es; repeat case_decide; by subst).
  assert (Hlive : forall j, live_so s j -> j ≠ c) by (by intros j Hj ->).
  split.
  - intros k i. rewrite Etc. intros H1 H2. destruct (A k i H1 H2) as (X1 & X2 & X3). pose proof (Hlive i X1) as Hi.
    rewrite El by done. split; [done|]. split; [rewrite Es; repeat case_decide; by subst|]. unfold is_head. by rewrite Eh.
  - intros k i. rewrite Eud. intros H1 H2. destruct (B k i H1 H2) as (X1 & X2). pose proof (Hlive i X1) as Hi.
    rewrite El by done. split; [done|]. rewrite Es; repeat case_decide; by subst.
  - intros h' Hl Hh. assert (Hh'c : h' ≠ c).
    { intros ->. unfold is_head in Hh. rewrite Es, decide_False, decide_True in Hh by done. destruct Hh as [Hh|Hh]; [done|]. cbn in Hh. congruence. }
    rewrite El in Hl by done. unfold is_head in Hh. rewrite Eh in Hh by done. destruct (C h' Hl Hh) as (X1 & X2 & X3 & X4).
    assert (Esame : forall j, j ∈ Q0 h' ++ Q h' -> so s' j = so s j).
    { intros j Hj. destruct (X4 j Hj) as (Y1 & Y2 & Y3). rewrite Es, decide_False, decide_False; [done|by apply Hlive|].
      intros ->. destruct Hhh as [Hhh|Hhh]; congruence. }
    assert (Hmem : forall j, j ∈ Q0 h' ++ Q h' -> live_so s' j /\ so_head (so s' j) = Some h' /\ j ≠ h').
    { intros j Hj. destruct (X4 j Hj) as (Y1 & Y2 & Y3). rewrite Esame, El by auto. auto. }
    assert (XQ : chain (fun i => so_q (so s' i)) (so_q (so s' h')) (Q h')).
    { replace (so_q (so s' h')) with (so_q (so s h')) by (rewrite Es; repeat case_decide; by subst).
      eapply lseg_frame; [|exact X2]. intros j Hj. cbn. rewrite Esame; [done|set_solver]. }
    assert (X0 : chain (fun i => so_q0 (so s' i)) (so_q0 (so s h')) (Q0 h')).
    { eapply lseg_frame; [|exact X1]. intros j Hj. cbn. rewrite Esame; [done|set_solver]. }
    destruct (decide (h' = h)) as [->|Hhh'].
    + rewrite fn_lookup_insert. split; [|split; [done|split]].
      * split; [by rewrite Es, decide_True|]. by rewrite Es, decide_False, decide_True.
      * cbn. apply NoDup_cons. split; [|done]. intros Hx. destruct (X4 c Hx) as (Y1 & _). by apply (Hlive c).
      * intros j Hj. cbn in Hj. apply elem_of_cons in Hj as [->|Hj]; [|by apply Hmem]. split; [done|]. split; [by rewrite Es, decide_False, decide_True|done].
    + rewrite fn_lookup_insert_ne by done. split; [|done]. by rewrite Es, !decide_False.
  - intros c' h0 Hl Hh Hn. assert (Hkeep : forall j, live_so s j -> is_head s j -> live_so s' j /\ is_head s' j).
    { intros j Hj Hj'. pose proof (Hlive j Hj). unfold is_head. by rewrite El, Eh. }
    destruct (decide (c' = c)) as [->|Hc'].
    + rewrite Es, decide_False, decide_True in Hh by done. cbn in Hh. simplify_eq. auto.
    + rewrite El in Hl by done. rewrite Eh in Hh by done. destruct (D c' h0 Hl Hh Hn). auto.
  - intros i Hl. unfold owned. destruct (decide (i = c)) as [->|Hic]; [by rewrite Es, decide_False, decide_True|]. rewrite El in Hl by done. specialize (O i Hl).
    unfold owned, tcp, udp in *. rewrite Et, Eu, Es, (decide_False (P := i = c)) by done. by case_decide; subst.
  - intros h' Hl Hh. assert (Hh'c : h' ≠ c).
    { intros ->. unfold is_head in Hh. rewrite Es, decide_False, decide_True in Hh by done. destruct Hh as [Hh|Hh]; [done|]. cbn in Hh. congruence. }
    rewrite El in Hl by done. unfold is_head in Hh. rewrite Eh in Hh by done. destruct (K h' Hl Hh) as (K1 & K2 & K3). destruct (C h' Hl Hh) as (_ & _ & _ & X4).
    assert (Esame : forall j, j ∈ Q0 h' ++ Q h' -> so s' j = so s j).
    { intros j Hj. destruct (X4 j Hj) as (Y1 & Y2 & Y3). rewrite Es, decide_False, decide_False; [done|by apply Hlive|]. intros ->. destruct Hhh as [Hhh|Hhh]; congruence. }
    assert (Hty : so_type (so s h) = SOCK_STREAM) by (specialize (O h Hlh); unfold owned in O; rewrite Hpcb in O; apply O).
    assert (Kq : forall j, j ∈ Q h' -> so_q0 (so s' j) = None) by (intros j Hj; rewrite Esame by set_solver; auto).
    assert (Kt : forall j, j ∈ Q0 h' ++ Q h' -> so_type (so s' j) = SOCK_STREAM) by (intros j Hj; rewrite Esame by done; auto).
    destruct (decide (h' = h)) as [->|Hhh'].
    + rewrite fn_lookup_insert. split; [|split; [done|right; exists kh; by rewrite Es, decide_True]].
      intros j Hj. cbn in Hj. apply elem_of_cons in Hj as [->|Hj]; [by rewrite Es, decide_False, decide_True|by apply Kt].
    + rewrite fn_lookup_insert_ne by done. split; [done|]. split; [done|]. by rewrite Es, !decide_False.
Qed.

(** A socket slot that is reused loses the packets it still had. *)
Lemma new_child_spec s h s' c kh fly : NInv s fly -> live_so s h -> is_head s h -> so_pcb (so s h) = Some (TcpPcb kh) -> so_new_child h s = (s', Some c) ->
  post fly s s' /\ live_so s' c /\ so_pcb (so s' c) = None /\ so_head (so s' c) = Some h /\ so_q0 (so s' h) = Some c /\ h ≠ c /\
  so_type (so s' c) = so_type (so s h).
Proof.
  intros (free & leaked & q & Q0 & Q & [H1 H2 H3 H4 HK H5 H6 H7 H8]) Hl Hh Hpcb E.
  assert (Hc : free_socket s = Some c) by (unfold so_new_child in E; destruct (free_socket s); [|done]; by simplify_eq).
  apply scan_spec in Hc as [Hc Hdead]. assert (Hd : ~ live_so s c) by (intros [_ Hs]; rewrite Hs, Z.eqb_refl in Hdead; done).
  assert (Hne : h ≠ c) by (by intros ->). destruct (new_child_so s h s' c E Hne) as (_ & Es' & Eso).
  assert (Eb : bufs s' = bufs s) by (by rewrite Es'). assert (Et : s_tcp_pcbs s' = s_tcp_pcbs s) by (by rewrite Es').
  assert (Eu : s_udp_pcbs s' = s_udp_pcbs s) by (by rewrite Es'). assert (Ei : ifnets s' = ifnets s) by (by rewrite Es').
  assert (Ea : s_arp_table s' = s_arp_table s) by (by rewrite Es'). unfold live_so. rewrite !Eso, decide_False, !decide_True by done.
  split; [|done]. split; [|intros j _; by rewrite Eb|by apply same_ifs_refl|by apply rx_le_refl; rewrite Es'|].
  2:{ intros i Hli Hhi. assert (i ≠ c) by (by intros ->). unfold live_so, is_head in *. rewrite Eso. repeat case_decide; by subst. }
  exists free, (q c ++ leaked), (<[c := []]> q), (<[h := c :: Q0 h]> Q0), Q. split.
  - rewrite Eb. eapply pool_perm; [done|]. rewrite (app_assoc (queued _) (q c)), (queued_put q c [] Hc). done.
  - intros i Hi. rewrite Eb, Eso. repeat case_decide; subst.
    + rewrite fn_lookup_insert_ne by done. cbn. auto.
    + rewrite fn_lookup_insert. split; [done|done|set_solver|done].
    + rewrite fn_lookup_insert_ne by done. auto.
  - intros i. rewrite Eso. repeat case_decide; subst; cbn; auto.
  - by eapply child_sock.
  - intros c' h' [Hlt Hsig] Hhd Hn. rewrite Eso in Hsig, Hhd. unfold all_kids, live_so in HK. repeat case_decide; subst.
    + destruct (decide (h' = h)) as [->|]; [done|]. rewrite fn_lookup_insert_ne by done. by apply (HK h h').
    + cbn in Hhd. simplify_eq. rewrite fn_lookup_insert. left.
    + pose proof (HK c' h' (conj Hlt Hsig) Hhd Hn). destruct (decide (h' = h)) as [->|]; [rewrite fn_lookup_insert; by right|by rewrite fn_lookup_insert_ne].
  - intros i. unfold ifp. rewrite Ei. apply H5.
  - intros i. unfold ifp. rewrite Ei. apply H6.
  - intros k. rewrite Ea. apply H7.
  - unfold rx_ok, pending. by rewrite Es'.
Qed.

(** Relinking the queues of one listener [h]. *)
Lemma relink_sock s s' h L0 L Q0 Q : sock_inv s Q0 Q -> live_so s h -> is_head s h ->
  (forall j, so_signature (so s' j) = so_signature (so s j) /\ so_pcb (so s' j) = so_pcb (so s j) /\ so_head (so s' j) = so_head (so s j) /\
     so_type (so s' j) = so_type (so s j)) ->
  (forall j, j ≠ h -> j ∉ Q0 h ++ Q h -> so_q0 (so s' j) = so_q0 (so s j) /\ so_q (so s' j) = so_q (so s j)) ->
  s_tcp_pcbs s' = s_tcp_pcbs s -> s_udp_pcbs s' = s_udp_pcbs s ->
  chain (fun i => so_q0 (so s' i)) (so_q0 (so s' h)) L0 -> chain (fun i => so_q (so s' i)) (so_q (so s' h)) L ->
  NoDup (L0 ++ L) -> (forall c, c ∈ L0 ++ L -> c ∈ Q0 h ++ Q h) -> (forall c, c ∈ L -> so_q0 (so s' c) = None) ->
  sock_inv s' (<[h := L0]> Q0) (<[h := L]> Q).
Proof.
  intros [A B C D O K] Hl Hh E3 Eq Et Eu HL0 HL Hnd Hin Hdone.
  assert (El : forall j, live_so s' j <-> live_so s j) by (intros j; unfold live_so; by destruct (E3 j) as (-> & _)).
  assert (Eh : forall j, is_head s' j <-> is_head s j) by (intros j; unfold is_head; by destruct (E3 j) as (_ & _ & -> & _)).
  split.
  - intros k i. unfold tcp. rewrite Et, El, Eh. destruct (E3 i) as (_ & -> & _). apply A.
  - intros k i. unfold udp. rewrite Eu, El. destruct (E3 i) as (_ & -> & _). apply B.
  - intros h'. rewrite El, Eh. intros Hl' Hh'. destruct (decide (h' = h)) as [->|Hne].
    + rewrite !fn_lookup_insert. split; [done|]. split; [done|]. split; [done|]. intros c Hc.
      destruct (C h Hl Hh) as (_ & _ & _ & X). destruct (X c (Hin c Hc)) as (Y1 & Y2 & Y3). rewrite El. destruct (E3 c) as (_ & _ & -> & _). done.
    + rewrite !fn_lookup_insert_ne by done. destruct (C h' Hl' Hh') as (X1 & X2 & X3 & X4).
      assert (Eo : forall j, j = h' \/ j ∈ Q0 h' ++ Q h' -> so_q0 (so s' j) = so_q0 (so s j) /\ so_q (so s' j) = so_q (so s j)).
      { intros j Hj. destruct (C h Hl Hh) as (_ & _ & _ & X). apply Eq.
        - intros ->. destruct Hj as [->|Hj]; [done|]. destruct (X4 h Hj) as (_ & Y2 & Y3). destruct Hh; congruence.
        - intros Hx. destruct (X j Hx) as (_ & Y2 & Y3). destruct Hj as [->|Hj]; [destruct Hh'; congruence|].
          destruct (X4 j Hj) as (_ & Y2' & _). congruence. }
      destruct (Eo h' ltac:(by left)) as [-> ->]. split; [|split; [|split; [done|]]].
      * eapply lseg_frame; [|exact X1]. intros j Hj. apply Eo. right. set_solver.
      * eapply lseg_frame; [|exact X2]. intros j Hj. apply Eo. right. set_solver.
      * intros c Hc. rewrite El. destruct (E3 c) as (_ & _ & -> & _). auto.
  - intros c h'. rewrite !El, Eh. destruct (E3 c) as (_ & _ & -> & _). apply D.
  - intros i. rewrite El. intros Hli. specialize (O i Hli). unfold owned, tcp, udp in *. rewrite Et, Eu. by destruct (E3 i) as (_ & -> & _ & ->).
  - intros h'. rewrite El, Eh. intros Hl' Hh'. destruct (K h' Hl' Hh') as (K1 & K2 & K3). unfold kids. destruct (E3 h') as (_ & -> & _).
    destruct (decide (h' = h)) as [->|Hne].
    + rewrite !fn_lookup_insert. split; [|split; [done|]].
      * intros c Hc. destruct (E3 c) as (_ & _ & _ & ->). apply K1, Hin, Hc.
      * destruct K3 as [K3|K3]; [left|by right]. destruct (L0 ++ L) as [|x l]; [done|]. specialize (Hin x). rewrite K3 in Hin. set_solver.
    + rewrite !fn_lookup_insert_ne by done. split; [|split; [|done]].
      * intros c Hc. destruct (E3 c) as (_ & _ & _ & ->). auto.
      * intros c Hc. destruct (C h Hl Hh) as (_ & _ & _ & X). destruct (C h' Hl' Hh') as (_ & _ & _ & X'). destruct (X' c) as (Y1 & Y2 & Y3); [set_solver|].
        destruct (Eq c) as [-> _]; [| |auto].
        -- intros ->. destruct Hh; congruence.
        -- intros Hx. destruct (X c Hx) as (_ & Y2' & _). congruence.
Qed.

Definition keeps_rcv s s' : Prop := forall j, so_rcv (so s' j) = so_rcv (so s j) /\ so_snd (so s' j) = so_snd (so s j).

(** What is outside sockets and control blocks. *)
Definition rest_same s s' : Prop :=
  bufs s' = bufs s /\ ifnets s' = ifnets s /\ s_arp_table s' = s_arp_table s /\ rx_ring s' = rx_ring s /\ arrivals s' = arrivals s.

(** A change of the sockets that keeps their buffers. *)
Lemma relink_post s s' fly free leaked q Q0 Q Q0' Q' : net_inv s fly free leaked q Q0 Q -> sock_inv s' Q0' Q' -> all_kids s' Q0' Q' ->
  rest_same s s' -> keeps_rcv s s' -> keeps_heads s s' -> post fly s s'.
Proof.
  intros [H1 H2 H3 H4 HK H5 H6 H7 H8] HS HK' (Eb & Ei & Ea & Er1 & Er2) Ek Eh.
  split; [|intros j _; by rewrite Eb|by apply same_ifs_refl|by apply rx_le_refl|done]. exists free, leaked, q, Q0', Q'. split.
  - by rewrite Eb.
  - intros i Hi. rewrite Eb. destruct (Ek i) as [-> _]. auto.
  - intros i. destruct (Ek i) as [_ ->]. auto.
  - done.
  - done.
  - intros i. unfold ifp. rewrite Ei. apply H5.
  - intros i. unfold ifp. rewrite Ei. apply H6.
  - intros k. rewrite Ea. apply H7.
  - unfold rx_ok, pending. by rewrite Er1, Er2.
Qed.

Lemma q0_owner_spec s n o child l : chain (fun i => so_q0 (so s i)) (so_q0 (so s o)) l -> (length l <= n)%nat ->
  exists r, q0_owner n o child s = Ret r /\
  match r with
  | None => child ∉ l
  | Some x => exists l1 l2, l = l1 ++ child :: l2 /\ x = default o (last l1)
  end.
Proof.
  revert n o. induction l as [|c l IH]; intros n o Hc Hn.
  - cbn in Hc. destruct n; cbn; rewrite Hc; exists None; (split; [done|set_solver]).
  - destruct Hc as [Hc Hl]. cbn in Hn. destruct n as [|n]; [lia|]. cbn [q0_owner]. rewrite Hc. destruct (Nat.eqb_spec c child) as [->|Hne].
    + exists (Some o). split; [done|]. by exists [], l.
    + destruct (IH n c Hl ltac:(lia)) as ([x|] & -> & Hx); [|exists None; split; [done|set_solver]].
      destruct Hx as (l1 & l2 & -> & ->). eexists. split; [done|]. exists (c :: l1), l2. split; [done|].
      destruct l1 as [|y l1] using rev_ind; [done|]. rewrite app_comm_cons, !last_snoc. done.
Qed.

Lemma q_tail_spec s n t l : chain (fun i => so_q (so s i)) (so_q (so s t)) l -> (length l <= n)%nat ->
  q_tail n t s = Ret (default t (last l)).
Proof.
  revert n t. induction l as [|c l IH]; intros n t Hc Hn.
  - cbn in Hc. destruct n; cbn; by rewrite Hc.
  - destruct Hc as [Hc Hl]. cbn in Hn. destruct n as [|n]; [lia|]. cbn [q_tail]. rewrite Hc, (IH n c Hl ltac:(lia)).
    f_equal. destruct l as [|y l] using rev_ind; [done|]. by rewrite app_comm_cons, !last_snoc.
Qed.

(** A queue is no longer than the pool of sockets. *)
Lemma queue_length s l : (forall c, c ∈ l -> live_so s c) -> NoDup l -> (length l <= MAX_SOCKETS)%nat.
Proof. intros Hl Hd. apply NoDup_below_length; [done|]. intros c Hc. by destruct (Hl c Hc). Qed.

Lemma post_refl s fly : NInv s fly -> post fly s s.
Proof. intros H. split; [done|by intros i _|by intros i|by apply rx_le_refl|by apply keeps_heads_pool]. Qed.

Ltac socks := rewrite ?so_upd; repeat (case_decide; subst; cbn; rewrite ?so_upd; try done); try congruence.

(** The sockets after [child] moved from the incomplete queue, where [x] comes
    before it, to the end of the complete queue, behind [t]. *)
Definition moved_child s (head child x t : nat) : net :=
  let s := upd_so x (fun o => o <| so_q0 := so_q0 (so s child) |>) s in
  let s := upd_so child (fun o => o <| so_q0 := None |>) s in
  let s := upd_so t (fun o => o <| so_q := Some child |>) s in
  let s := upd_so child (fun o => o <| so_q := None |>) s in
  upd_so head (fun o => o <| so_qlen ::= Z.add 1 |>) s.

Lemma moved_child_fields s head child x t j : x ≠ child -> t ≠ child ->
  let o := so (moved_child s head child x t) j in
  so_q0 o = (if decide (j = child) then None else if decide (j = x) then so_q0 (so s child) else so_q0 (so s j)) /\
  so_q o = (if decide (j = child) then None else if decide (j = t) then Some child else so_q (so s j)) /\
  so_signature o = so_signature (so s j) /\ so_pcb o = so_pcb (so s j) /\ so_head o = so_head (so s j) /\
  so_rcv o = so_rcv (so s j) /\ so_snd o = so_snd (so s j) /\ so_type o = so_type (so s j).
Proof. intros Hx Ht. cbn. unfold moved_child. socks. Qed.

Lemma last_default_in {A} (o x : A) l : x = default o (last l) -> x = o \/ x ∈ l.
Proof. destruct (last l) eqn:E; cbn; intros ->; [right; by apply last_Some_elem_of|by left]. Qed.

Lemma moved_child_sock s head child l1 l2 Q0 Q : sock_inv s Q0 Q -> live_so s head -> is_head s head -> Q0 head = l1 ++ child :: l2 ->
  sock_inv (moved_child s head child (default head (last l1)) (default head (last (Q head)))) (<[head := l1 ++ l2]> Q0) (<[head := Q head ++ [child]]> Q).
Proof.
  intros HS Hl Hh El. destruct (si_heads _ _ _ HS head Hl Hh) as (X1 & X2 & X3 & X4). rewrite El in *.
  assert (Hho : head ∉ (l1 ++ child :: l2) ++ Q head) by (intros Hx; by destruct (X4 head Hx) as (_ & _ & ?)).
  assert (Hd : child ∉ l1 ++ l2 /\ child ∉ Q head /\ NoDup ((l1 ++ l2) ++ Q head ++ [child])).
  { assert (Hp : (l1 ++ child :: l2) ++ Q head ≡ₚ child :: (l1 ++ l2) ++ Q head) by (by rewrite <- Permutation_middle).
    rewrite Hp in X3. apply NoDup_cons in X3 as [X3 X5]. split; [set_solver|]. split; [set_solver|].
    rewrite app_assoc. apply NoDup_app. split; [done|]. split; [set_solver|apply NoDup_singleton]. }
  destruct Hd as (Hd1 & Hd2 & Hd3).
  remember (default head (last l1)) as x eqn:Ex. remember (default head (last (Q head))) as t eqn:Et.
  pose proof (last_default_in _ _ _ Ex) as Hx. pose proof (last_default_in _ _ _ Et) as Ht.
  assert (Hxc : x ≠ child) by (intros ->; set_solver). assert (Htc : t ≠ child) by (intros ->; set_solver).
  pose proof (fun j => moved_child_fields s head child x t j Hxc Htc) as F. cbv zeta in F. set (s' := moved_child s head child x t) in *.
  eapply (relink_sock s s' head); try done.
  - intros j. destruct (F j) as (_ & _ & -> & -> & -> & _ & _ & ->). done.
  - intros j Hj Hn. destruct (F j) as (-> & -> & _). rewrite El in Hn. rewrite !decide_False; [done|..]; intros ->; set_solver.
  - apply (chain_unlink (fun i => so_q0 (so s i)) (fun i => so_q0 (so s' i)) head child); [done|set_solver|]. intros j Hj.
    destruct (F j) as (-> & _). rewrite <- Ex, decide_False; [done|]. intros ->. set_solver.
  - apply (chain_push_back (fun i => so_q (so s i)) (fun i => so_q (so s' i)) head child); [done|set_solver|done| |].
    + destruct (F child) as (_ & -> & _). by rewrite decide_True.
    + intros j Hj. destruct (F j) as (_ & -> & _). rewrite <- Et, decide_False; [done|]. intros ->. set_solver.
  - intros c Hc. rewrite El. set_solver.
  - intros c Hc. destruct (F c) as (-> & _). case_decide as Ec; [done|]. assert (Hcq : c ∈ Q head) by set_solver.
    rewrite decide_False; [by apply (si_kids _ _ _ HS head Hl Hh)|]. intros ->. rewrite <- Permutation_middle in X3. cbn in X3. apply NoDup_cons in X3 as [_ X3].
    destruct Hx as [->|Hx]; [set_solver|]. apply NoDup_app in X3 as (_ & X3 & _). apply (X3 x); [set_solver|done].
Qed.

Lemma so_q0_to_q_spec s child fly : NInv s fly -> live_so s child -> safe (so_q0_to_q child s) (post fly s).
Proof.
  intros HI Hl. pose proof HI as (free & leaked & q & Q0 & Q & HN). pose proof (ni_sock _ _ _ _ _ _ _ HN) as HS.
  unfold so_q0_to_q. destruct (so_head (so s child)) as [head|] eqn:Eh; [|by apply post_refl].
  assert (Hh : live_so s head /\ is_head s head).
  { destruct (decide (child = head)) as [->|Hne]; [split; [done|by right]|]. by eapply (si_child _ _ _ HS). }
  destruct Hh as [Hlh Hh]. destruct (si_heads _ _ _ HS head Hlh Hh) as (X1 & X2 & X3 & X4). apply NoDup_app in X3 as (Hd0 & _ & Hd).
  destruct (q0_owner_spec s MAX_SOCKETS head child (Q0 head) X1) as (r & -> & Hr); [eapply queue_length; [|done]; intros c Hc; apply X4; set_solver|].
  cbn [mbind res_bind]. destruct r as [x|]; [|by apply post_refl]. destruct Hr as (l1 & l2 & El & Ex).
  assert (Hne : child ≠ head) by (destruct (X4 child) as (_ & _ & ?); [rewrite El; set_solver|done]).
  assert (Hxc : x ≠ child).
  { intros E. rewrite E in Ex. apply last_default_in in Ex as [|Ex]; [done|]. rewrite El in Hd0. apply NoDup_app in Hd0 as (_ & Hd0 & _). apply (Hd0 child Ex). left. }
  set (s2 := upd_so child _ _).
  assert (Eq : forall j, so_q (so s2 j) = so_q (so s j)) by (intros j; unfold s2; socks).
  assert (Et : (match so_q (so s2 head) with
                | Some t => t ← q_tail MAX_SOCKETS t s2; Ret (upd_so t (fun o => o <| so_q := Some child |>) s2)
                | None => Ret (upd_so head (fun o => o <| so_q := Some child |>) s2)
                end) = Ret (upd_so (default head (last (Q head))) (fun o => o <| so_q := Some child |>) s2)).
  { rewrite Eq. destruct (Q head) as [|t l] eqn:EQ; [cbn in X2; by rewrite X2|]. destruct X2 as [-> X2].
    rewrite (q_tail_spec s2 MAX_SOCKETS t l).
    - cbn [mbind res_bind]. do 2 f_equal. destruct l as [|y l] using rev_ind; [done|]. by rewrite app_comm_cons, !last_snoc.
    - rewrite Eq. eapply lseg_frame; [|exact X2]. intros j _. apply Eq.
    - apply NoDup_cons in Hd as [_ Hd]. eapply queue_length; [|done]. intros c Hc. apply X4. set_solver. }
  rewrite Et. cbn [mbind res_bind safe].
  pose proof (moved_child_sock s head child l1 l2 Q0 Q HS Hlh Hh El) as HS'. rewrite <- Ex in HS'.
  assert (Htc : default head (last (Q head)) ≠ child).
  { intros E. symmetry in E. apply last_default_in in E as [|E]; [done|]. destruct (si_heads _ _ _ HS head Hlh Hh) as (_ & _ & X3 & _).
    apply NoDup_app in X3 as (_ & X3 & _). apply (X3 child); [rewrite El; set_solver|done]. }
  pose proof (fun j => moved_child_fields s head child x (default head (last (Q head))) j Hxc Htc) as F. cbv zeta in F.
  apply (relink_post s (moved_child s head child x (default head (last (Q head)))) fly free leaked q Q0 Q _ _ HN HS'); [|done|..].
  - intros c h [Hlt Hsig] Hhd Hn. destruct (F c) as (_ & _ & Es & _ & Eh' & _). rewrite Es in Hsig. rewrite Eh' in Hhd.
    pose proof (ni_kids _ _ _ _ _ _ _ HN c h (conj Hlt Hsig) Hhd Hn) as Hin. destruct (decide (h = head)) as [->|]; [|by rewrite !fn_lookup_insert_ne].
    rewrite !fn_lookup_insert. rewrite El in Hin. set_solver.
  - intros j. by destruct (F j) as (_ & _ & _ & _ & _ & -> & -> & _).
  - apply keeps_heads_same. intros j. by destruct (F j) as (_ & _ & -> & _ & -> & _ & _ & ->).
Qed.

(** A socket that dies: it is in no queue and nothing refers to it. *)
Lemma kill_sock s s' c Q0 Q : sock_inv s Q0 Q -> so_pcb (so s c) = None ->
  (forall h, live_so s h -> is_head s h -> c ∉ Q0 h ++ Q h) -> (forall c', live_so s c' -> so_head (so s c') = Some c -> c' = c) ->
  so_signature (so s' c) ≠ CHIMERA_SOCKET_MAGIC -> (forall j, j ≠ c -> so s' j = so s j) ->
  s_tcp_pcbs s' = s_tcp_pcbs s -> s_udp_pcbs s' = s_udp_pcbs s -> sock_inv s' Q0 Q.
Proof.
  intros [A B C D O K] Hp Hq Hc Hdead Eo Et Eu. assert (Hn : ~ live_so s' c) by (by intros [_ ?]).
  assert (El : forall j, j ≠ c -> live_so s' j <-> live_so s j) by (intros j Hj; unfold live_so; by rewrite Eo).
  assert (Eh : forall j, j ≠ c -> is_head s' j <-> is_head s j) by (intros j Hj; unfold is_head; by rewrite Eo).
  split.
  - intros k i. unfold tcp. rewrite Et. intros H1 H2. destruct (A k i H1 H2) as (X1 & X2 & X3). assert (i ≠ c) by congruence.
    rewrite El, Eh, Eo by done. auto.
  - intros k i. unfold udp. rewrite Eu. intros H1 H2. destruct (B k i H1 H2) as (X1 & X2). assert (i ≠ c) by congruence. rewrite El, Eo by done. auto.
  - intros h Hl Hh. assert (Hne : h ≠ c) by (by intros ->). rewrite El in Hl by done. rewrite Eh in Hh by done.
    destruct (C h Hl Hh) as (X1 & X2 & X3 & X4). rewrite (Eo h) by done. specialize (Hq h Hl Hh).
    assert (Em : forall j, j ∈ Q0 h ++ Q h -> j ≠ c) by (intros j Hj ->; done). split; [|split; [|split; [done|]]].
    + eapply lseg_frame; [|exact X1]. intros j Hj. cbn. rewrite Eo; [done|]. apply Em. set_solver.
    + eapply lseg_frame; [|exact X2]. intros j Hj. cbn. rewrite Eo; [done|]. apply Em. set_solver.
    + intros j Hj. rewrite El, Eo by auto. auto.
  - intros c' h Hl Hh Hne. assert (Hc' : c' ≠ c) by (by intros ->). rewrite El in Hl by done. rewrite Eo in Hh by done.
    destruct (D c' h Hl Hh Hne) as [Y1 Y2]. assert (h ≠ c) by (intros ->; by apply Hc' , Hc). by rewrite El, Eh.
  - intros i Hl. assert (Hi : i ≠ c) by (by intros ->). rewrite El in Hl by done. specialize (O i Hl). unfold owned, tcp, udp in *. by rewrite Et, Eu, Eo.
  - intros h Hl Hh. assert (Hne : h ≠ c) by (by intros ->). rewrite El in Hl by done. rewrite Eh in Hh by done. destruct (K h Hl Hh) as (K1 & K2 & K3).
    specialize (Hq h Hl Hh). split; [|split; [|by rewrite Eo]]; intros j Hj; rewrite Eo by (intros ->; set_solver); auto.
Qed.

Lemma discard_child_spec s c h fly : NInv s fly -> live_so s c -> so_pcb (so s c) = None -> so_head (so s c) = Some h ->
  so_q0 (so s h) = Some c -> h ≠ c -> safe (so_discard_child c s) (post fly s).
Proof.
  intros (free & leaked & q & Q0 & Q & HN) Hl Hp Hh Hq Hne. pose proof (ni_sock _ _ _ _ _ _ _ HN) as HS.
  destruct (si_child _ _ _ HS c h Hl Hh) as [Hlh Hhh]; [done|]. destruct (si_heads _ _ _ HS h Hlh Hhh) as (X1 & X2 & X3 & X4).
  rewrite Hq in X1. destruct (Q0 h) as [|c' l] eqn:EQ; [done|]. destruct X1 as [[= <-] X1].
  unfold so_discard_child. rewrite Hh. unfold MAX_SOCKETS at 1. cbn [q0_owner]. rewrite Hq, Nat.eqb_refl. cbn [mbind res_bind safe].
  set (s1 := upd_so h _ s). set (s2 := so_free c s1).
  assert (E1 : forall j, so s1 j = if decide (j = h) then (so s h) <| so_q0 := so_q0 (so s c) |> else so s j) by (intros; apply so_upd).
  assert (E2 : forall j, so s2 j = if decide (j = c) then (so s1 c) <| so_signature := 0 |> <| so_pcb := None |> else so s1 j).
  { intros j. assert (Hs1 : so_signature (so s1 c) = CHIMERA_SOCKET_MAGIC) by (rewrite E1, decide_False by done; apply Hl).
    unfold s2, so_free. rewrite Hs1, Z.eqb_refl. apply so_upd. }
  assert (Es2 : s2 = s <| s_socket_pool := s_socket_pool s2 |> <| s_tcp_pcbs := s_tcp_pcbs s2 |>) by (unfold s2, so_free; by destruct (negb _)).
  assert (Et : s_tcp_pcbs s2 = s_tcp_pcbs s1) by (unfold s2, so_free; by destruct (negb _)).
  assert (Eu : s_udp_pcbs s2 = s_udp_pcbs s1) by (unfold s2, so_free; by destruct (negb _)).
  apply NoDup_cons in X3 as [X3 X3']. cbn in X3.
  assert (HS1 : sock_inv s1 (<[h := l]> Q0) (<[h := Q h]> Q)).
  { apply (relink_sock s s1 h); try done.
    - intros j. rewrite E1. socks.
    - intros j Hj _. by rewrite E1, decide_False.
    - rewrite E1, decide_True by done. eapply lseg_frame; [|exact X1]. intros j Hj. cbn. rewrite E1, decide_False; [done|]. apply X4. set_solver.
    - rewrite E1, decide_True by done. eapply lseg_frame; [|exact X2]. intros j Hj. cbn. rewrite E1, decide_False; [done|]. apply X4. set_solver.
    - intros j Hj. rewrite EQ. set_solver.
    - intros j Hj. rewrite E1, decide_False by (apply X4; set_solver). by apply (si_kids _ _ _ HS h Hlh Hhh). }
  eapply (relink_post _ _ _ _ _ _ _ _ (<[h := l]> Q0) (<[h := Q h]> Q)); [exact HN| | | | |].
  - eapply (kill_sock s1 s2 c); try done.
    + by rewrite E1, decide_False.
    + intros h' Hl' Hh' Hin. destruct (decide (h' = h)) as [->|Hn']; [rewrite !fn_lookup_insert in Hin; done|].
      destruct (si_heads _ _ _ HS1 h' Hl' Hh') as (_ & _ & _ & Y). destruct (Y c Hin) as (_ & Y2 & _). rewrite E1, decide_False in Y2 by done. congruence.
    + intros c' Hl' Hc'. destruct (decide (c' = c)) as [|Hn']; [done|]. destruct (si_child _ _ _ HS1 c' c Hl' Hc' Hn') as [_ Y].
      unfold is_head in Y. rewrite E1, decide_False in Y by done. destruct Y; congruence.
    + by rewrite E2, decide_True.
    + intros j Hj. by rewrite E2, decide_False.
  - intros c' h' [Hlt Hsig] Hhd Hn. rewrite E2 in Hsig, Hhd. case_decide as Ecc; [done|]. rewrite E1 in Hsig, Hhd.
    assert (Hin : c' ∈ Q0 h' ++ Q h') by (apply (ni_kids _ _ _ _ _ _ _ HN); [split; [done|]|..]; by case_decide; subst).
    destruct (decide (h' = h)) as [->|]; [|by rewrite !fn_lookup_insert_ne]. rewrite !fn_lookup_insert. rewrite EQ in Hin. set_solver.
  - rewrite Es2. done.
  - intros j. rewrite E2, E1. repeat (case_decide; subst; try done). rewrite E1. by socks.
  - intros i Hli Hhi. assert (Hic : i ≠ c) by (intros ->; unfold is_head in Hhi; rewrite Hh in Hhi; destruct Hhi; congruence).
    unfold live_so, is_head in *. rewrite E2, decide_False, E1 by done. by case_decide; subst.
Qed.
End NetInv.
