(* ===== verification/NetSafe.v ===== *)
(** * Nothing a packet contains can corrupt the kernel

    Every function that handles packets keeps the invariant of the network
    stack, whatever bytes the packets hold. *)

From stdpp Require Import functions.
From S2P Require Import Prelude Checksum Mbuf Net NetStack NetInv.

Module NetSafe.

Import Checksum Mbuf Net NetStack NetInv.

Implicit Types (s : net) (b : mbufs).

(** ** Steps that leave the held packets alone *)

Record near (held : list nat) s s' : Prop := {
  nr_agree : agree held (bufs s) (bufs s');
  nr_ifs : same_ifs s s';
  nr_rx : rx_le s s';
  nr_heads : keeps_heads s s'
}.

Lemma near_refl held s : near held s s.
Proof. split; [by intros i _|by intros i|by apply rx_le_refl|by apply keeps_heads_pool]. Qed.

Lemma near_trans held s1 s2 s3 : near held s1 s2 -> near held s2 s3 -> near held s1 s3.
Proof.
  intros [A1 F1 N1 K1] [A2 F2 N2 K2]. split; [intros i Hi; by rewrite A2, A1|intros i; by rewrite F2, F1|by eapply rx_le_trans|by eapply keeps_heads_trans].
Qed.

Lemma post_near held held' s s' : post held s s' -> (forall i, i ∈ held' -> i ∈ held) -> near held' s s'.
Proof. intros [_ A F N K] Hh. split; [intros i Hi; auto|done|done|done]. Qed.

Lemma near_post held s s' s'' : near held s s' -> post held s' s'' -> post held s s''.
Proof.
  intros [A1 F1 N1 K1] [H A2 F2 N2 K2].
  split; [done|intros i Hi; by rewrite A2, A1|intros i; by rewrite F2, F1|by eapply rx_le_trans|by eapply keeps_heads_trans].
Qed.

Lemma near_sub held held' s s' : near held s s' -> (forall i, i ∈ held' -> i ∈ held) -> near held' s s'.
Proof. intros [A F N K] Hh. split; [intros i Hi; auto|done|done|done]. Qed.

Lemma safe_near held s s' r : near held s s' -> safe r (post held s') -> safe r (post held s).
Proof. intros Hn Hr. eapply safe_mono; [exact Hr|]. intros a. by apply near_post. Qed.

Lemma safe_near_pair {A} held s s' (r : res (net * A)) : near held s s' -> safe r (fun x => post held s' x.1) -> safe r (fun x => post held s x.1).
Proof. intros Hn Hr. eapply safe_mono; [exact Hr|]. intros a. by apply near_post. Qed.

Lemma near_upd_buf held m f s : m ∉ held -> near held s (upd_buf m f s).
Proof. intros Hm. split; [|by apply same_ifs_refl|by apply rx_le_refl|by apply keeps_heads_pool]. intros i Hi. apply mb_upd_ne. by intros ->. Qed.

Lemma near_upd_tcp held k f s : near held s (upd_tcp k f s).
Proof. split; [by intros i _|by apply same_ifs_refl|by apply rx_le_refl|by apply keeps_heads_pool]. Qed.

(** ** Packets of one buffer *)

Definition single b (m : nat) : Prop := next b m = None /\ seg_ok (mb m b) /\ pkt_len (mb m b) = m_len (mb m b).

Lemma packet_single b m : packet b m [m] <-> single b m.
Proof.
  unfold packet, single. cbn. rewrite Forall_singleton. split.
  - intros ((_ & H1) & H2 & H3). split; [done|]. split; [done|lia].
  - intros (H1 & H2 & H3). split; [done|]. split; [done|lia].
Qed.

Lemma single_agree b b' m : mb m b' = mb m b -> single b m -> single b' m.
Proof. unfold single, next. by intros ->. Qed.

Lemma fly_notin s m held : NInv s (m :: held) -> m ∉ held.
Proof. intros H%NInv_NoDup. by apply NoDup_cons in H as [? _]. Qed.

(** Reading the first [n] bytes of a packet. *)
Lemma read_header b m n : seg_ok (mb m b) -> 0 <= n <= m_len (mb m b) -> exists l, read m 0 n b = Ret l /\ Z.of_nat (length l) = n.
Proof.
  intros (H1 & H2 & H3) Hn. eexists. split; [apply read_spec; lia|]. rewrite get_at_length by lia. lia.
Qed.

(** Writing inside the data of a buffer. *)
Lemma write_net s m o l : 0 <= m_data (buf s m) + o -> m_data (buf s m) + o + Z.of_nat (length l) <= capacity (buf s m) ->
  on_bufs (write m o l) s = Ret (upd_buf m (stored o l) s).
Proof. intros H1 H2. unfold on_bufs. by rewrite write_spec. Qed.

Lemma advance_single s m n held : NInv s (m :: held) -> single (bufs s) m -> 0 <= n <= m_len (buf s m) ->
  NInv (advance m n s) (m :: held) /\ single (bufs (advance m n s)) m /\ near held s (advance m n s) /\
  m_len (buf (advance m n s) m) = m_len (buf s m) - n.
Proof.
  intros HI (H1 & (H2 & H3 & H4) & H5) Hn. split; [apply fly_upd; [done|left]|]. split.
  - unfold single, next, advance, seg_ok. change (bufs (upd_buf m ?f s)) with (upd m f (bufs s)). rewrite mb_upd_eq. cbn.
    unfold buf in Hn. unfold capacity in *. cbn in *. split; [done|]. split; [|lia]. split; [lia|]. split; [lia|]. unfold MCLBYTES, MLEN in *. destruct (has _ _); lia.
  - split; [apply near_upd_buf; by eapply fly_notin|]. unfold advance. rewrite buf_upd, decide_True by done. done.
Qed.

(** ** What the functions called back promise *)

Record calls_ok (c : calls) : Prop := {
  co_ip : forall s m L held src dst proto, NInv s (L ++ held) -> packet (bufs s) m L ->
    safe (c_ip_output c m src dst proto s) (fun r => post held s r.1);
  co_eth : forall s i m L held dest type, NInv s (L ++ held) -> packet (bufs s) m L -> has (if_flags (ifp s i)) IFF_LOOPBACK = false ->
    safe (c_ethernet_output c i m dest type s) (fun r => post held s r.1);
  co_in : forall s i m held, NInv s (m :: held) -> single (bufs s) m -> safe (c_if_input c i m s) (post held s)
}.

Lemma unit_safe {A} (r : res (net * A)) held s : safe r (fun x => post held s x.1) -> safe (unit_of r) (post held s).
Proof. intros H. unfold unit_of. eapply safe_bind; [exact H|]. by intros [s' a]. Qed.

(** A packet freshly built in one cluster or header buffer. *)
Lemma built_single s m l n : next (bufs s) m = None -> m_data (buf s m) + Z.of_nat (length l) <= capacity (buf s m) -> 0 <= m_data (buf s m) ->
  n = Z.of_nat (length l) -> single (bufs (set_len m n (upd_buf m (stored 0 l) s))) m.
Proof.
  intros H1 H2 H3 ->. unfold single, next, set_len. change (bufs (upd_buf m ?f (upd_buf m ?g s))) with (upd m f (upd m g (bufs s))).
  rewrite !mb_upd_eq. cbn. destruct (stored_same 0 l (mb m (bufs s))) as (E1 & _ & E3 & _ & E5 & _ & E7). unfold next in H1. rewrite E1, H1. split; [done|].
  split; [|done]. unfold seg_ok. cbn. unfold capacity in *. cbn. rewrite E3, E5. unfold buf in *. unfold MCLBYTES, MLEN in *. destruct (has _ _); lia.
Qed.

(** The two kinds of new buffers: empty, with room for [room] bytes. *)
Definition empty_buf (new : mbuf -> mbuf) (room : Z) : Prop :=
  forall x, m_next (new x) = None /\ 0 <= m_data (new x) /\ m_data (new x) + room <= capacity (new x).

Lemma hdr_empty type : empty_buf (hdr_buf type) 240.
Proof. intros x. done. Qed.

Lemma cl_empty type : empty_buf (cl_buf type) 2048.
Proof. intros x. done. Qed.

Lemma near_bufs held s s' : s' = s <| bufs := bufs s' |> -> agree held (bufs s) (bufs s') -> near held s s'.
Proof. intros E Ha. split; [done|rewrite E; by apply same_ifs_refl|by apply rx_le_refl; rewrite E|by apply keeps_heads_pool; rewrite E]. Qed.

(** Changes of a packet that keep its shape. *)
Lemma single_upd s m held g : (forall x, m_next (g x) = m_next x /\ m_data (g x) = m_data x /\ m_len (g x) = m_len x /\ m_flags (g x) = m_flags x /\ pkt_len (g x) = pkt_len x) ->
  NInv s (m :: held) -> single (bufs s) m -> NInv (upd_buf m g s) (m :: held) /\ single (bufs (upd_buf m g s)) m /\ near held s (upd_buf m g s).
Proof.
  intros Hg HI Hs. split; [apply fly_upd; [done|left]|]. split; [|apply near_upd_buf; by eapply fly_notin].
  unfold single, next, seg_ok, capacity in *. change (bufs (upd_buf m g s)) with (upd m g (bufs s)). rewrite mb_upd_eq.
  destruct (Hg (mb m (bufs s))) as (-> & -> & -> & -> & ->). done.
Qed.

(** Allocate a buffer and fill it with a packet. *)
Lemma build_spec f new room s held l :
  (forall b free rest, pool_inv b free rest -> allocates b (f b).1 free rest (f b).2 new) -> empty_buf new room ->
  NInv s held -> Z.of_nat (length l) <= room ->
  match lift f s with
  | (s1, None) => s1 = s
  | (s1, Some m) => s1 = s <| bufs := bufs s1 |> /\ on_bufs (write m 0 l) s1 = Ret (upd_buf m (stored 0 l) s1) /\
      let s2 := set_len m (Z.of_nat (length l)) (upd_buf m (stored 0 l) s1) in
      NInv s2 (m :: held) /\ single (bufs s2) m /\ near held s s2
  end.
Proof.
  intros Hf He HI Hl. pose proof (alloc_spec f new s held Hf HI) as Ha. destruct (lift f s) as [s1 [m|]]; [|done].
  destruct Ha as (HI1 & Em & Eo & Es). destruct (He (buf s m)) as (E1 & E2 & E3). rewrite <- Em in E1, E2, E3.
  assert (Hn : near held s s1) by (apply near_bufs; [done|]; intros j Hj; apply Eo; by eapply fly_fresh).
  split; [exact Es|]. split; [apply write_net; lia|]. split; [|split].
  - repeat (apply fly_upd; [|left]). done.
  - apply built_single; [done|lia|done|done].
  - pose proof (fly_notin _ _ _ HI1). eapply near_trans; [exact Hn|]. eapply near_trans; [|by apply near_upd_buf]. by apply near_upd_buf.
Qed.

(** ** Chains in flight *)

Lemma packet_agree b b' m L : agree L b b' -> packet b m L -> packet b' m L.
Proof.
  intros Ha (H1 & H2 & H3). split; [|split].
  - eapply lseg_frame; [|exact H1]. intros j Hj. unfold next. by rewrite Ha.
  - apply Forall_forall. intros j Hj. rewrite Ha by done. by eapply (proj1 (Forall_forall _ _) H2).
  - rewrite (sum_len_frame b) by done. rewrite Ha; [done|]. destruct L; [done|]. destruct H1 as [[= ->] _]. left.
Qed.

Lemma packet_head b m L : packet b m L -> exists L', L = m :: L'.
Proof. intros (H & _). destruct L as [|x L]; [done|]. destruct H as [[= ->] _]. eauto. Qed.

Lemma prepend_safe s m L h hdr held room : NInv s ((hdr :: L) ++ held) -> packet (bufs s) m L ->
  0 <= m_data (buf s hdr) -> m_data (buf s hdr) + room <= capacity (buf s hdr) -> Z.of_nat (length h) <= room ->
  safe (prepend m h hdr s) (fun s' => NInv s' ((hdr :: L) ++ held) /\ packet (bufs s') hdr (hdr :: L) /\ near held s s').
Proof.
  intros HI Hp H1 H2 H3. unfold prepend. rewrite write_net by lia. cbn [mbind res_bind safe].
  pose proof (fly_notin _ _ _ HI) as Hn. set (s1 := upd_buf hdr (stored 0 h) s). set (g := fun x : mbuf => _). set (s2 := upd_buf hdr g s1).
  assert (Ho : forall j, j ≠ hdr -> mb j (bufs s2) = mb j (bufs s)) by (intros j Hj; unfold s2, s1; cbn; by rewrite !mb_upd_ne).
  assert (Hm : m ≠ hdr) by (destruct (packet_head _ _ _ Hp) as [L' ->]; set_solver).
  assert (Eh : mb hdr (bufs s2) = g (stored 0 h (mb hdr (bufs s)))) by (unfold s2, s1; cbn; by rewrite !mb_upd_eq).
  assert (Em : pkt_len (buf s1 m) = pkt_len (mb m (bufs s))) by (unfold s1; by rewrite buf_upd, decide_False).
  destruct (stored_same 0 h (mb hdr (bufs s))) as (_ & _ & E3 & _ & E5 & _ & _).
  split; [repeat (apply fly_upd; [|left]); done|].
  assert (Ha : agree L (bufs s) (bufs s2)) by (intros j Hj; apply Ho; set_solver).
  destruct (packet_agree _ _ _ _ Ha Hp) as (P1 & P2 & P3). split.
  - split; [|split].
    + split; [done|]. unfold next. rewrite Eh. exact P1.
    + apply Forall_cons. split; [|done]. rewrite Eh. unfold seg_ok, capacity in *. cbn. rewrite E3, E5. unfold buf in *. lia.
    + change (sum_len (bufs s2) (hdr :: L)) with (m_len (mb hdr (bufs s2)) + sum_len (bufs s2) L). rewrite <- P3, Eh, Ho by done. cbn. rewrite Em. lia.
  - eapply near_trans; [|apply near_upd_buf; set_solver]. apply near_upd_buf. set_solver.
Qed.

(** A fresh buffer for the header of a packet. *)
Lemma header_spec s m L held : NInv s (L ++ held) -> packet (bufs s) m L ->
  match lift (m_gethdr MT_HEADER) s with
  | (s', None) => s' = s
  | (s', Some hdr) => NInv s' ((hdr :: L) ++ held) /\ packet (bufs s') m L /\ near held s s' /\
                      0 <= m_data (buf s' hdr) /\ m_data (buf s' hdr) + 240 <= capacity (buf s' hdr)
  end.
Proof.
  intros HI Hp. pose proof (alloc_spec (m_gethdr MT_HEADER) (hdr_buf MT_HEADER) s (L ++ held) (m_gethdr_spec _) HI) as Ha.
  destruct (lift (m_gethdr MT_HEADER) s) as [s2 [hdr|]]; [|done]. destruct Ha as (HI2 & Eh & Eo & Es2). pose proof (fly_notin _ _ _ HI2) as Hnot.
  destruct (hdr_empty MT_HEADER (buf s hdr)) as (_ & B1 & B2). rewrite <- Eh in B1, B2. split; [done|]. split; [|split; [|done]].
  - eapply packet_agree; [|exact Hp]. intros j Hj. apply Eo. set_solver.
  - apply near_bufs; [done|]. intros j Hj. apply Eo. set_solver.
Qed.

(** ** Transmission *)

Lemma gather_safe n s m L acc : chain (next (bufs s)) m L -> Forall (fun i => seg_ok (mb i (bufs s))) L -> (length L <= n)%nat ->
  safe (gather n m acc s) (fun _ => True).
Proof.
  revert m n acc. induction L as [|i L IH]; intros m n acc Hc Hs Hn.
  - cbn in Hc. subst. by destruct n.
  - destruct Hc as [-> Hc]. apply Forall_cons in Hs as [Hi Hs]. cbn in Hn. destruct n as [|n]; [lia|]. cbn [gather]. destruct (_ <? _); [done|].
    destruct (read_header (bufs s) i (m_len (buf s i))) as (l & -> & _); [done|destruct Hi as (_ & ? & _); unfold buf; lia|]. cbn [mbind res_bind]. apply IH; [done|done|lia].
Qed.

Lemma fly_length s L held : NInv s (L ++ held) -> (length L <= CHAIN)%nat.
Proof.
  intros (? & ? & ? & ? & ? & H). pose proof (pool_length _ _ _ (ni_pool _ _ _ _ _ _ _ H)) as Hl. rewrite !app_length in Hl. unfold CHAIN. lia.
Qed.

Lemma transmit_post s held l : NInv s held -> post held s (e1000_transmit_frame l s).1.
Proof.
  intros HI. unfold e1000_transmit_frame. destruct (_ || _); [by apply post_refl|]. apply post_other; try done.
  intros i. unfold ifp. cbn. destruct (decide (i = en0)) as [->|]; [by rewrite lookup_total_insert_eq|by rewrite lookup_total_insert_ne].
Qed.

Lemma e1000_output_safe s m L held : NInv s (L ++ held) -> packet (bufs s) m L -> safe (e1000_output m s) (fun r => post held s r.1).
Proof.
  intros HI (H1 & H2 & _). unfold e1000_output. eapply safe_bind; [by eapply gather_safe, fly_length|]. intros l _. cbn beta.
  eapply safe_bind; [by eapply free_spec|]. intros s1 Hp. cbn beta. eapply post_trans; [exact Hp|]. apply transmit_post, Hp.
Qed.

(** ** Copying a chain *)

(** The lengths of a chain are not negative. *)
Lemma sum_len_nonneg b L : Forall (fun i => seg_ok (mb i b)) L -> 0 <= sum_len b L <= 2048 * Z.of_nat (length L).
Proof.
  induction L as [|i L IH]; [done|]. intros [(H1 & H2 & H3) HL]%Forall_cons. specialize (IH HL). unfold capacity, MCLBYTES, MLEN in H3.
  unfold sum_len in *. cbn [foldr length]. destruct (has _ _); lia.
Qed.

(** The bytes of a chain. *)
Definition bytes b (L : list nat) : list Z := concat ((fun i => data (mb i b)) <$> L).

Lemma read_data s i : seg_ok (buf s i) -> read i 0 (m_len (buf s i)) (bufs s) = Ret (data (buf s i)).
Proof. intros (H1 & H2 & H3). unfold data, buf in *. rewrite read_spec by lia. by rewrite Z.add_0_r. Qed.

Lemma bytes_length b L : Forall (fun i => seg_ok (mb i b)) L -> Z.of_nat (length (bytes b L)) = sum_len b L.
Proof.
  unfold bytes, sum_len. induction L as [|i L IH]; [done|]. intros [Hi HL]%Forall_cons. cbn [fmap list_fmap concat foldr].
  rewrite app_length, Nat2Z.inj_add, (data_length _ Hi), IH by done. done.
Qed.

Lemma upd_buf_twice s i f g : upd_buf i g (upd_buf i f s) = upd_buf i (fun m => g (f m)) s.
Proof.
  assert (E : upd i g (upd i f (bufs s)) = upd i (fun m => g (f m)) (bufs s)).
  { unfold upd, mb, fupd. cbn. by rewrite lookup_total_insert_eq, insert_insert_eq. }
  unfold upd_buf, fupd. cbn. by rewrite E.
Qed.

Lemma upd_buf_ext s i f g : f (buf s i) = g (buf s i) -> upd_buf i f s = upd_buf i g s.
Proof. intros E. unfold upd_buf, upd, fupd. cbn. unfold buf in E. by rewrite E. Qed.

(** The chain is copied byte for byte. *)
Lemma flatten_spec n s m pkt o L : pkt ∉ L -> L ≠ [] -> chain (next (bufs s)) m L -> Forall (fun i => seg_ok (mb i (bufs s))) L ->
  (length L <= n)%nat -> 0 <= m_data (buf s pkt) -> 0 <= o -> m_data (buf s pkt) + o + sum_len (bufs s) L <= capacity (buf s pkt) ->
  flatten n m pkt o s = Ret (upd_buf pkt (stored o (bytes (bufs s) L)) s).
Proof.
  revert n s m o. induction L as [|i L IH]; intros n s m o Hpkt Hne Hc Hs Hn Hd Ho Hcap; [done|]. clear Hne.
  apply not_elem_of_cons in Hpkt as [Hi Hpkt]. destruct Hc as [-> Hc]. apply Forall_cons in Hs as [Hsi Hs]. cbn in Hn. destruct n as [|n]; [lia|].
  pose proof (data_length _ Hsi) as Hlen. pose proof (sum_len_nonneg _ _ Hs) as Hsum.
  change (sum_len (bufs s) (i :: L)) with (m_len (mb i (bufs s)) + sum_len (bufs s) L) in Hcap.
  change (bytes (bufs s) (i :: L)) with (data (mb i (bufs s)) ++ bytes (bufs s) L).
  cbn [flatten]. rewrite (read_data s i Hsi). cbn [mbind res_bind]. rewrite write_net by (unfold buf in *; lia). cbn [mbind res_bind].
  set (s1 := upd_buf pkt _ s).
  assert (Eo : forall j, j ≠ pkt -> mb j (bufs s1) = mb j (bufs s)) by (intros j Hj; by apply mb_upd_ne).
  assert (EL : forall j, j ∈ L -> mb j (bufs s1) = mb j (bufs s)) by (intros j Hj; apply Eo; by intros ->).
  assert (Ep : buf s1 pkt = stored o (data (buf s i)) (buf s pkt)) by apply mb_upd_eq.
  destruct (stored_same o (data (buf s i)) (buf s pkt)) as (_ & _ & E3 & _ & _ & _ & E7).
  change (buf s1 i) with (mb i (bufs s1)). rewrite Eo by done. destruct L as [|j L].
  { change (m_next (mb i (bufs s)) = None) in Hc. rewrite Hc, app_nil_r. by destruct n. }
  rewrite IH; [|done|done|eapply lseg_frame; [|exact Hc]; intros x Hx; unfold next; by rewrite EL| |lia|rewrite Ep, E3; done| |].
  - assert (Eb : bytes (bufs s1) (j :: L) = bytes (bufs s) (j :: L)) by (unfold bytes; f_equal; apply list_fmap_ext; intros ? x Hx; rewrite EL; [done|by eapply list_elem_of_lookup_2]).
    rewrite Eb. unfold s1 at 1. rewrite upd_buf_twice. f_equal. apply upd_buf_ext. unfold buf. rewrite <- Hlen. by rewrite <- stored_app.
  - apply Forall_forall. intros x Hx. rewrite EL by done. by eapply (proj1 (Forall_forall _ _) Hs).
  - lia.
  - rewrite Ep, E3, E7, (sum_len_frame (bufs s)) by done. lia.
Qed.

Section Safe.
Variable c : calls.
Hypothesis Hc : calls_ok c.

(** ** The driver *)

Lemma e1000_receive_safe s frame held : NInv s held -> short frame -> safe (e1000_receive c frame s) (post held s).
Proof.
  intros HI Hs. unfold e1000_receive. destruct (negb _); [by apply post_refl|].
  pose proof (build_spec (m_getcl MT_DATA) (cl_buf MT_DATA) 2048 s held frame (m_getcl_spec _) (cl_empty _) HI Hs) as Hb.
  destruct (lift (m_getcl MT_DATA) s) as [s1 [m|]]; [|subst; by apply post_refl]. destruct Hb as (_ & -> & HI1 & Hs1 & Hn1). cbn [mbind res_bind].
  destruct (single_upd _ m held (fun x => x <| pkt_rcvif := Some en0 |>) ltac:(done) HI1 Hs1) as (HI2 & Hsg & Hn2). set (s2 := upd_buf m _ (set_len _ _ _)) in *.
  assert (Hn : near held s s2) by (by eapply near_trans). set (s3 := s2 <| ifnets ::= _ |>).
  assert (Hp : post (m :: held) s2 s3).
  { apply post_other; try done. intros i. unfold ifp, s3. cbn. destruct (decide (i = en0)) as [->|]; [by rewrite lookup_total_insert_eq|by rewrite lookup_total_insert_ne]. }
  eapply safe_near; [exact Hn|]. eapply safe_near; [eapply post_near; [exact Hp|by right]|]. apply (co_in c Hc); [apply Hp|done].
Qed.

(** A descriptor is given back. *)
Lemma given_clear l k d : l !! k = Some d -> Forall2 given l (<[k := None]> l).
Proof. intros Hd. rewrite <- (list_insert_id _ _ _ Hd) at 1. apply Forall2_insert; [done|by right]. Qed.

Lemma post_given s k held : NInv s held -> (k < length (rx_ring s))%nat -> post held s (s <| rx_ring ::= <[k := None]> |> <| rx_cur := S k |>).
Proof.
  intros HI Hk. apply (NInv_ext s); try done; [intros j; by apply (ni_arp_of s held)|]. unfold rx_le, pending. cbn. split; [|by rewrite length_insert].
  apply Forall2_app; [|done]. apply lookup_lt_is_Some_2 in Hk as [d Hd]. by eapply given_clear.
Qed.

Lemma poll_loop_safe n s held : NInv s held -> (frames s <= n)%nat -> safe (poll_loop c n s) (post held s).
Proof.
  revert s. induction n as [|n IH]; intros s HI Hn; cbn [poll_loop]; destruct (rx_ring s !! rx_cur s) as [[f|]|] eqn:Er; try by apply post_refl.
  all: assert (Ep : pending s !! rx_cur s = Some (Some f)) by (by apply lookup_app_l_Some).
  - pose proof (given_less _ _ _ _ (given_clear _ _ _ Ep) Ep ltac:(apply list_lookup_insert_eq; by eapply lookup_lt_Some)). unfold frames in Hn. lia.
  - assert (Hf : short f) by (destruct HI as (? & ? & ? & ? & ? & HN); exact (proj1 (Forall_lookup _ _) (ni_rx _ _ _ _ _ _ _ HN) _ _ Ep)).
    eapply safe_bind; [by apply e1000_receive_safe|]. intros s1 Hp. cbn beta. set (k := rx_cur s) in *.
    assert (Hk : (k < length (rx_ring s1))%nat) by (apply lookup_lt_Some in Er; pose proof (proj2 (po_rx _ _ _ Hp)); lia).
    pose proof (post_given s1 k held (po_inv _ _ _ Hp) Hk) as Hp2. set (s2 := s1 <| rx_ring ::= _ |> <| rx_cur := _ |>) in *.
    assert (Hp3 : post held s s2) by (by eapply post_trans). eapply safe_near; [eapply post_near; [exact Hp3|done]|]. apply IH; [apply Hp3|].
    assert (Hl : (frames s2 < frames s)%nat); [|lia]. eapply (given_less _ _ k f); [apply (po_rx _ _ _ Hp3)|done|].
    apply lookup_app_l_Some. unfold s2. cbn. by apply list_lookup_insert_eq.
Qed.

(** The frames that came in since the last poll join the ring. *)
Lemma post_polled s held : NInv s held -> post held s (s <| rx_ring ::= fun r => r ++ (Some <$> hd [] (arrivals s)) |> <| arrivals ::= tail |>).
Proof.
  intros HI. apply (NInv_ext s); try done; [intros j; by apply (ni_arp_of s held)|]. unfold rx_le, pending. cbn. split; [|rewrite app_length; lia].
  destruct (arrivals s) as [|a r]; cbn; rewrite ?app_nil_r; [done|]. by rewrite fmap_app, <- app_assoc.
Qed.

Lemma frames_pending s : (frames s <= length (rx_ring s) + length (concat (arrivals s)))%nat.
Proof.
  unfold frames, pending. rewrite omap_app, app_length. assert (Hl : forall l : list (option (list Z)), (length (omap id l) <= length l)%nat).
  { induction l as [|[d|] l IH]; cbn; lia. }
  pose proof (Hl (rx_ring s)). pose proof (Hl (Some <$> concat (arrivals s))) as H2. rewrite length_fmap in H2. lia.
Qed.

Lemma e1000_poll_rx_safe s held : NInv s held -> safe (e1000_poll_rx c s) (post held s).
Proof.
  intros HI. unfold e1000_poll_rx. destruct (negb _); [by apply post_refl|]. pose proof (post_polled s held HI) as Hp.
  eapply safe_near; [eapply post_near; [exact Hp|done]|]. apply poll_loop_safe; [apply Hp|apply frames_pending].
Qed.

(** ** ARP *)

Lemma arp_bytes_length a : length (arp_sha a) = 6%nat -> length (arp_tha a) = 6%nat -> length (arp_bytes a) = 28%nat.
Proof. intros H1 H2. unfold arp_bytes, le32, le16. rewrite !app_length, H1, H2. done. Qed.

Lemma mac_length s fly i : NInv s fly -> length (if_mac (ifp s i)) = 6%nat.
Proof. intros (? & ? & ? & ? & ? & H). apply H. Qed.

Lemma arp_send_safe s i op tha tpa dest held : NInv s held -> length tha = 6%nat -> has (if_flags (ifp s i)) IFF_LOOPBACK = false ->
  safe (arp_send c i op tha tpa dest s) (post held s).
Proof.
  intros HI Ht Hl. unfold arp_send. set (l := arp_bytes (arp_packet i op tha tpa s)).
  assert (Hlen : length l = 28%nat) by (apply arp_bytes_length; [by eapply mac_length|done]).
  pose proof (build_spec (m_gethdr MT_DATA) (hdr_buf MT_DATA) 240 s held l (m_gethdr_spec _) (hdr_empty _) HI ltac:(lia)) as Hb.
  destruct (lift (m_gethdr MT_DATA) s) as [s1 [m|]]; [|subst; by apply post_refl]. destruct Hb as (Es & Ew & HI2 & Hs2 & Hn).
  replace (arp_packet i op tha tpa s1) with (arp_packet i op tha tpa s) by (by rewrite Es). fold l. rewrite Ew. cbn [mbind res_bind]. rewrite Hlen in *.
  eapply safe_near; [exact Hn|]. apply unit_safe, (co_eth c Hc _ _ _ [m]); [done|by apply packet_single|]. by rewrite (nr_ifs _ _ _ Hn).
Qed.

Lemma post_arp s fly ip mac : NInv s fly -> length mac = 6%nat -> post fly s (arp_cache_insert ip mac s).
Proof.
  intros HI Hm. assert (Hk : forall k e, length (ae_mac e) = 6%nat -> forall j, length (ae_mac ((<[k := e]> (s_arp_table s) : gmap nat arp_entry) !!! j)) = 6%nat).
  { intros k e He j. destruct (decide (j = k)) as [->|]; [by rewrite lookup_total_insert_eq|]. rewrite lookup_total_insert_ne by done. by eapply ni_arp_of. }
  unfold arp_cache_insert. destruct (arp_find ip s) as [k|]; [|destruct (scan _ _) as [k|]]; apply (NInv_ext s); try done; intros j; by apply Hk.
Qed.

Lemma arp_input_safe s i m held : NInv s (m :: held) -> single (bufs s) m -> has (if_flags (ifp s i)) IFF_LOOPBACK = false ->
  safe (arp_input c i m s) (post held s).
Proof.
  intros HI Hs Hl. unfold arp_input. destruct (m_len (buf s m) <? 28) eqn:E; [apply free_one; [done|apply Hs]|].
  destruct (read_header (bufs s) m 28) as (l & -> & Hlen); [apply Hs|unfold buf in E; lia|]. cbn [mbind res_bind].
  eapply safe_bind; [apply free_one; [done|apply Hs]|]. intros s1 Hp. cbn beta. pose proof (po_inv _ _ _ Hp) as HI1.
  assert (Hm : length (arp_sha (arp_of l)) = 6%nat) by (cbn; rewrite length_take, length_drop; lia).
  repeat (match goal with |- safe (if ?x then Ret _ else _) _ => destruct x; [exact Hp|] end).
  pose proof (post_arp s1 held (arp_spa (arp_of l)) (arp_sha (arp_of l)) HI1 Hm) as Hp2.
  destruct (_ && _); [|destruct (_ && _); [by eapply post_trans|exact Hp]].
  eapply safe_near; [eapply post_near; [exact Hp|done]|]. eapply safe_near; [eapply post_near; [exact Hp2|done]|].
  unfold arp_send_reply. apply arp_send_safe; [exact (po_inv _ _ _ Hp2)|exact Hm|]. by rewrite (po_ifs _ _ _ Hp2), (po_ifs _ _ _ Hp).
Qed.

Definition resolved (held : list nat) s (r : net * option (list Z)) : Prop :=
  post held s r.1 /\ forall mac, r.2 = Some mac -> length mac = 6%nat.

Lemma arp_mac_length s fly ip mac : NInv s fly -> arp_mac ip s = Some mac -> length mac = 6%nat.
Proof. intros HI E. apply fmap_Some in E as (k & _ & ->). by eapply ni_arp_of. Qed.

Lemma arp_poll_safe n ip s held : NInv s held -> safe (arp_poll c n ip s) (resolved held s).
Proof.
  revert s. induction n as [|n IH]; intros s HI; cbn [arp_poll]; [split; [by apply post_refl|done]|].
  eapply safe_bind; [by apply e1000_poll_rx_safe|]. intros s1 Hp. cbn beta. pose proof (po_inv _ _ _ Hp) as HI1.
  destruct (arp_mac ip s1) as [mac|] eqn:E; [split; [done|]; intros ? [= <-]; by eapply arp_mac_length|].
  eapply safe_mono; [by apply IH|]. intros [s2 r] [Hp2 Hr]. split; [by eapply post_trans|done].
Qed.

Lemma arp_resolve_safe s i dest held : NInv s held -> has (if_flags (ifp s i)) IFF_LOOPBACK = false ->
  safe (arp_resolve c i dest s) (resolved held s).
Proof.
  intros HI Hl. unfold arp_resolve. set (ip := if off_link i dest s then _ else _). destruct (arp_mac ip s) as [mac|] eqn:E.
  - split; [by apply post_refl|]. intros ? [= <-]. by eapply arp_mac_length.
  - eapply safe_bind; [unfold arp_send_request; by apply arp_send_safe|]. intros s1 Hp. cbn beta. eapply safe_mono; [apply arp_poll_safe; apply Hp|].
    intros [s2 r] [Hp2 Hr]. split; [by eapply post_trans|done].
Qed.

(** ** Ethernet *)

Lemma free_packet {A} s m L held (e : A) : NInv s (L ++ held) -> packet (bufs s) m L ->
  safe (s ← freem_net m s; Ret (s, e)) (fun r => post held s r.1).
Proof. intros HI (H1 & _). eapply safe_bind; [by eapply free_spec|]. by intros s1 Hp. Qed.

Lemma ni_lo_of s fly i : NInv s fly -> if_output (ifp s i) = Some loopback_output -> has (if_flags (ifp s i)) IFF_LOOPBACK = true.
Proof. intros (? & ? & ? & ? & ? & H). apply H. Qed.

Lemma ethernet_output_safe s i m L held dest type : NInv s (L ++ held) -> packet (bufs s) m L -> has (if_flags (ifp s i)) IFF_LOOPBACK = false ->
  safe (ethernet_output c i m dest type s) (fun r => post held s r.1).
Proof.
  intros HI Hp Hl. unfold ethernet_output. eapply (safe_bind _ _ (resolved (L ++ held) s)).
  { destruct (_ || _); [|by apply arp_resolve_safe]. split; [by apply post_refl|]. by intros mac [= <-]. }
  intros [s1 r] [Hp1 Hr]. cbn [fst snd] in *. pose proof (po_inv _ _ _ Hp1) as HI1.
  assert (Hn1 : near held s s1) by (eapply post_near; [exact Hp1|set_solver]).
  assert (Hpk : packet (bufs s1) m L) by (eapply packet_agree; [|exact Hp]; intros j Hj; apply (po_agree _ _ _ Hp1); set_solver).
  destruct r as [mac|]; [|eapply safe_near_pair; [exact Hn1|by eapply free_packet]].
  pose proof (header_spec s1 m L held HI1 Hpk) as Ha.
  destruct (lift (m_gethdr MT_HEADER) s1) as [s2 [hdr|]]; [|subst; eapply safe_near_pair; [exact Hn1|by eapply free_packet]].
  destruct Ha as (HI2 & Hpk2 & Hn2 & B1 & B2).
  eapply safe_bind; [eapply (prepend_safe s2 m L _ hdr held 240); try done|].
  { unfold ether_bytes. cbn. rewrite !app_length, (Hr mac eq_refl), (mac_length _ _ i HI2). done. }
  intros s3 (HI3 & Hpk3 & Hn3). cbn beta. assert (Hn : near held s s3) by (eapply near_trans; [exact Hn1|]; by eapply near_trans).
  destruct (if_output (ifp s3 i)) as [[]|] eqn:Ed.
  - exfalso. pose proof (ni_lo_of _ _ i HI3 Ed) as Hx. rewrite (nr_ifs _ _ _ Hn i) in Hx. congruence.
  - eapply safe_near_pair; [exact Hn|]. by eapply e1000_output_safe.
  - eapply safe_near_pair; [exact Hn|]. by eapply free_packet.
Qed.

(** ** ICMP *)

Lemma single_cap b m : single b m -> 0 <= m_len (mb m b) <= 2048.
Proof. intros (_ & (H1 & H2 & H3) & _). unfold capacity, MCLBYTES, MLEN in H3. destruct (has _ _); lia. Qed.

Lemma copy_loop_done n m off b : copy_loop n m off 0 b = Ret [].
Proof. by destruct n. Qed.

Lemma copy_skip_done n m b : copy_skip n m 0 b = Ret (Some (m, 0)).
Proof. by destruct n. Qed.

Lemma copy_loop_one n m len l b : 0 < len <= m_len (mb m b) -> read m 0 len b = Ret l -> copy_loop (S n) (Some m) 0 len b = Ret l.
Proof.
  intros Hl Hr. cbn [copy_loop]. rewrite (proj2 (Z.ltb_lt 0 len)), Z.sub_0_r by lia. cbn [negb].
  replace (if len <? m_len (mb m b) then len else m_len (mb m b)) with len by (destruct (len <? _) eqn:E; lia).
  rewrite Hr, Z.sub_diag, copy_loop_done. cbn [mbind res_bind]. by rewrite app_nil_r.
Qed.

Lemma copydata_single b m len : single b m -> 0 < len <= m_len (mb m b) ->
  exists l, m_copydata (Some m) 0 len b = Ret l /\ Z.of_nat (length l) = len.
Proof.
  intros (_ & Hs & _) Hl. destruct (read_header b m len) as (l & Hr & Hlen); [done|lia|]. exists l. split; [|done].
  unfold m_copydata. rewrite copy_skip_done. by apply copy_loop_one.
Qed.

Lemma icmp_bytes_length h : length (icmp_bytes h) = 8%nat.
Proof. done. Qed.

(** Overwriting the header of a packet. *)
Lemma write_header s m l held : NInv s (m :: held) -> single (bufs s) m -> Z.of_nat (length l) <= m_len (buf s m) ->
  on_bufs (write m 0 l) s = Ret (upd_buf m (stored 0 l) s) /\ NInv (upd_buf m (stored 0 l) s) (m :: held) /\
  single (bufs (upd_buf m (stored 0 l) s)) m /\ near held s (upd_buf m (stored 0 l) s) /\ m_len (buf (upd_buf m (stored 0 l) s) m) = m_len (buf s m).
Proof.
  intros HI Hs Hl. pose proof Hs as (_ & (H1 & H2 & H3) & _). split; [apply write_net; unfold buf in *; lia|].
  destruct (single_upd s m held (stored 0 l)) as (X1 & X2 & X3); [|done|done|].
  { intros x. destruct (stored_same 0 l x) as (-> & _ & -> & -> & -> & -> & _). done. }
  split; [done|]. split; [done|]. split; [done|]. rewrite buf_upd, decide_True by done. apply stored_same.
Qed.

Lemma icmp_echo_reply_safe s m ip icmp held : NInv s (m :: held) -> single (bufs s) m -> 8 <= m_len (buf s m) ->
  safe (icmp_echo_reply c m ip icmp s) (post held s).
Proof.
  intros HI Hs Hl. unfold icmp_echo_reply. set (h := icmp_bytes _).
  destruct (write_header s m h held HI Hs) as (-> & HI1 & Hs1 & Hn1 & El1); [cbn; lia|]. cbn [mbind res_bind]. set (s1 := upd_buf m (stored 0 h) s) in *.
  pose proof (single_cap _ _ Hs1) as Hcap. assert (Ep : pkt_len (buf s1 m) = m_len (buf s m)) by (rewrite <- El1; apply Hs1).
  assert (Eu : u64 (pkt_len (buf s1 m)) = m_len (buf s m)) by (rewrite Ep, u64_id; [done|]; unfold buf in *; rewrite El1 in Hcap; lia). rewrite Eu.
  set (n := if 1024 <? m_len (buf s m) then 1024 else m_len (buf s m)).
  assert (Hn : 8 <= n <= m_len (buf s1 m)) by (rewrite El1; unfold n; destruct (1024 <? _) eqn:E; lia).
  destruct (copydata_single (bufs s1) m n Hs1) as (t & -> & Ht); [unfold buf in Hn; lia|]. cbn [mbind res_bind].
  rewrite (proj2 (Z.leb_le n _)), (proj2 (Z.leb_le 8 _)) by lia. cbn [andb guard_res].
  set (h2 := icmp_bytes _). destruct (write_header s1 m h2 held HI1 Hs1) as (-> & HI2 & Hs2 & Hn2 & _); [rewrite El1; change (Z.of_nat (length h2)) with 8; lia|]. cbn [mbind res_bind].
  eapply safe_near; [eapply near_trans; [exact Hn1|exact Hn2]|]. apply unit_safe, (co_ip c Hc _ _ [m]); [done|by apply packet_single].
Qed.

Lemma icmp_input_safe s i m ip held : NInv s (m :: held) -> single (bufs s) m -> safe (icmp_input c i m ip s) (post held s).
Proof.
  intros HI Hs. unfold icmp_input. destruct (m_len (buf s m) <? 8) eqn:E; [apply free_one; [done|apply Hs]|].
  destruct (read_header (bufs s) m 8) as (l & -> & Hlen); [apply Hs|unfold buf in E; lia|]. cbn [mbind res_bind].
  destruct (_ =? ICMP_ECHO); [apply icmp_echo_reply_safe; [done|done|lia]|].
  destruct (_ =? ICMP_ECHOREPLY); [|apply free_one; [done|apply Hs]]. destruct (scan _ _) as [k|]; [|apply free_one; [done|apply Hs]].
  set (s1 := s <| s_ping_listeners ::= _ |>). assert (Hp : post (m :: held) s s1) by (by apply post_other).
  eapply safe_near; [eapply post_near; [exact Hp|by right]|]. apply free_one; [apply Hp|apply Hs].
Qed.

(** ** UDP *)

Lemma udp_input_safe s i m ip held : NInv s (m :: held) -> single (bufs s) m -> safe (udp_input i m ip s) (post held s).
Proof.
  intros HI Hs. unfold udp_input. destruct (m_len (buf s m) <? 8) eqn:E; [apply free_one; [done|apply Hs]|].
  destruct (read_header (bufs s) m 8) as (l & -> & Hlen); [apply Hs|unfold buf in E; lia|]. cbn [mbind res_bind].
  destruct (_ || _); [apply free_one; [done|apply Hs]|].
  destruct (advance_single s m 8 held HI Hs) as (HI1 & Hs1 & Hn1 & _); [lia|]. eapply safe_near; [exact Hn1|].
  destruct (scan _ _) as [k|] eqn:Ek; [|apply free_one; [done|apply Hs1]].
  destruct (u_so _) as [o|] eqn:Eo; [|apply free_one; [done|apply Hs1]].
  apply sbappend_spec; [done| |by apply packet_single]. apply scan_spec in Ek as [_ Ek]. unfold udp_port_taken in Ek.
  apply andb_prop in Ek as [Ek _]. apply andb_prop in Ek as [_ Ek]. destruct HI1 as (? & ? & ? & ? & ? & HN).
  destruct (si_udp _ _ _ (ni_sock _ _ _ _ _ _ _ HN) k o Eo Ek) as [[? _] _]. done.
Qed.

(** ** TCP *)

Lemma syn_options_length flags : (length (syn_options flags) <= 4)%nat.
Proof. unfold syn_options. destruct (has _ _); cbn; lia. Qed.

Lemma tcp_segment_length p flags data :
  Z.of_nat (length (tcp_segment p flags data)) = 20 + Z.of_nat (length (syn_options flags)) + Z.of_nat (length data).
Proof. unfold tcp_segment. cbv zeta. rewrite !app_length. change (length (tcp_bytes _)) with 20%nat. lia. Qed.

Lemma post_local_ip s k held : NInv s held ->
  post held s (if t_local_ip (tcp s k) =? 0
               then match if_get_default s with Some d => upd_tcp k (fun p => p <| t_local_ip := if_ip (ifp s d) |>) s | None => s end
               else s).
Proof.
  intros HI. destruct (_ =? _); [|by apply post_refl]. destruct (if_get_default s); [|by apply post_refl]. by apply post_tcp.
Qed.

Lemma tcp_send_packet_safe s k flags data held : NInv s held -> safe (tcp_send_packet c k flags data s) (fun r => post held s r.1).
Proof.
  intros HI. unfold tcp_send_packet. pose proof (post_local_ip s k held HI) as Hp0. set (s0 := if t_local_ip _ =? 0 then _ else _) in *. clearbody s0.
  pose proof (po_inv _ _ _ Hp0) as HI0. eapply safe_near_pair; [eapply post_near; [exact Hp0|done]|]. clear s HI Hp0.
  pose proof (alloc_spec (m_getcl MT_DATA) (cl_buf MT_DATA) s0 held (m_getcl_spec _) HI0) as Ha.
  set (seg := tcp_segment (tcp s0 k) flags data). pose proof (tcp_segment_length (tcp s0 k) flags data) as Hlen. fold seg in Hlen.
  pose proof (syn_options_length flags) as Ho.
  destruct (MCLBYTES - (20 + Z.of_nat (length (syn_options flags))) - 64 <? Z.of_nat (length data)) eqn:E.
  - destruct (lift (m_getcl MT_DATA) s0) as [s1 [m|]]; [|subst; by apply post_refl]. destruct Ha as (HI1 & Em & Eo & Es).
    assert (Hn : near held s0 s1) by (apply near_bufs; [done|]; intros j Hj; apply Eo; by eapply fly_fresh).
    eapply safe_near_pair; [exact Hn|]. eapply safe_bind; [apply free_one; [done|]|by intros s2 Hp]. unfold next. change (mb m (bufs s1)) with (buf s1 m). by rewrite Em.
  - assert (Hroom : Z.of_nat (length seg) <= 2048) by (unfold MCLBYTES in E; lia).
    pose proof (build_spec (m_getcl MT_DATA) (cl_buf MT_DATA) 2048 s0 held seg (m_getcl_spec _) (cl_empty _) HI0 Hroom) as Hb. clear Ha.
    destruct (lift (m_getcl MT_DATA) s0) as [s1 [m|]]; [|subst; by apply post_refl]. destruct Hb as (Es & Ew & HI2 & Hs2 & Hn2).
    assert (Et : tcp s1 k = tcp s0 k) by (by rewrite Es). rewrite Et. fold seg. rewrite Ew. cbn [mbind res_bind]. rewrite <- Hlen.
    set (s2 := set_len m _ _) in *. set (f := fun p : tcp_pcb => _).
    pose proof (post_tcp s2 (m :: held) k f HI2 ltac:(done)) as Hp3.
    eapply safe_near_pair; [exact Hn2|]. eapply safe_near_pair; [eapply post_near; [exact Hp3|by right]|].
    apply (co_ip c Hc _ _ [m]); [apply Hp3|by apply packet_single].
Qed.

(** A fresh child socket gets its control block. *)
Lemma attach_post s fly ch k p : NInv s fly -> live_so s ch -> so_pcb (so s ch) = None -> t_so (tcp s k) = None ->
  t_so p = Some ch -> t_state p ≠ TCPS_LISTEN -> so_type (so s ch) = SOCK_STREAM ->
  post fly s (upd_so ch (fun o => o <| so_pcb := Some (TcpPcb k) |> <| so_state ::= Z.lor SS_ISCONNECTED |>) (upd_tcp k (fun _ => p) s)).
Proof.
  intros (free & leaked & q & Q0 & Q & HN) Hl Hpcb Hk Hp Hst Hty. pose proof (ni_sock _ _ _ _ _ _ _ HN) as [A B C D O K].
  set (s' := upd_so ch _ _).
  assert (Es : forall j, so s' j = if decide (j = ch) then (so s ch) <| so_pcb := Some (TcpPcb k) |> <| so_state ::= Z.lor SS_ISCONNECTED |> else so s j) by (intros j; unfold s'; by rewrite so_upd).
  assert (Et : forall j, tcp s' j = if decide (j = k) then p else tcp s j) by (intros j; exact (tcp_upd s k (fun _ => p) j)).
  assert (El : forall j, live_so s' j <-> live_so s j) by (intros j; unfold live_so; rewrite Es; by case_decide; subst).
  assert (Eh : forall j, is_head s' j <-> is_head s j) by (intros j; unfold is_head; rewrite Es; by case_decide; subst).
  assert (Eq : forall j, so_q0 (so s' j) = so_q0 (so s j) /\ so_q (so s' j) = so_q (so s j) /\ so_head (so s' j) = so_head (so s j)) by (intros j; rewrite Es; by case_decide; subst).
  eapply (relink_post _ _ _ _ _ _ _ _ Q0 Q); [exact HN| |intros c' h' Hl' Hh'; apply El in Hl'; rewrite (proj2 (proj2 (Eq c'))) in Hh'; by apply (ni_kids _ _ _ _ _ _ _ HN)|done|intros j; rewrite Es; by case_decide; subst|apply keeps_heads_same; intros j; rewrite Es; by case_decide; subst]. split.
  - intros k' i. rewrite Et, El, Eh, Es. case_decide as Ek.
    + intros E _. rewrite Hp in E. injection E as <-. subst. rewrite decide_True by done. done.
    + intros H1 H2. destruct (A k' i H1 H2) as (X1 & X2 & X3). rewrite decide_False by congruence. done.
  - intros k' i H1 H2. destruct (B k' i H1 H2) as (X1 & X2). rewrite El, Es, decide_False by congruence. done.
  - intros h. rewrite El, Eh. intros H1 H2. destruct (C h H1 H2) as (X1 & X2 & X3 & X4). destruct (Eq h) as (-> & -> & _). split; [|split; [|split; [done|]]].
    + eapply lseg_frame; [|exact X1]. intros j _. apply Eq.
    + eapply lseg_frame; [|exact X2]. intros j _. apply Eq.
    + intros j Hj. rewrite El. destruct (Eq j) as (_ & _ & ->). auto.
  - intros c' h. rewrite !El, Eh. destruct (Eq c') as (_ & _ & ->). apply D.
  - intros i. rewrite El. intros Hi. specialize (O i Hi). unfold owned in *. rewrite Es. case_decide as Ei; [subst; cbn; by rewrite Et, decide_True|].
    destruct (so_pcb (so s i)) as [[k'|k']|]; [done| |done]. rewrite Et, decide_False; [done|]. intros ->. destruct O. congruence.
  - intros h. rewrite El, Eh. intros H1 H2. destruct (K h H1 H2) as (K1 & K2 & K3). split; [|split].
    + intros j Hj. rewrite Es. case_decide; [by subst|auto].
    + intros j Hj. rewrite (proj1 (Eq j)). auto.
    + destruct K3 as [K3|[k' K3]]; [by left|right]. rewrite Es. case_decide; [by exists k|by exists k'].
Qed.

Lemma tcp_alloc_child_safe s lp h kh lip rip rport irs held : NInv s held -> live_so s h -> is_head s h -> so_pcb (so s h) = Some (TcpPcb kh) -> so_type (so s h) = SOCK_STREAM ->
  safe (tcp_alloc_child lp h lip rip rport irs s) (fun r => post held s r.1).
Proof.
  intros HI Hl Hh Hpc Hty. unfold tcp_alloc_child. destruct (so_new_child h s) as [s1 [ch|]] eqn:E.
  - destruct (new_child_spec s h s1 ch kh held HI Hl Hh Hpc E) as (Hp & Hlc & Hpcb & Hhd & Hq0 & Hne & Ety). pose proof (po_inv _ _ _ Hp) as HI1.
    eapply safe_near_pair; [eapply post_near; [exact Hp|done]|]. destruct (scan _ _) as [k|] eqn:Ek.
    + apply scan_spec in Ek as [_ Ek]. apply bool_decide_eq_true in Ek. cbn [safe fst]. set (s2 := s1 <| s_iss_counter := _ |>).
      assert (Hp2 : post held s1 s2) by (by apply post_other). eapply post_trans; [exact Hp2|]. apply attach_post; [apply Hp2|done..|]. by rewrite <- Hty.
    + eapply safe_bind; [by eapply discard_child_spec|]. by intros s2 Hp2.
  - unfold so_new_child in E. destruct (free_socket s); [done|]. injection E as <-. by apply post_refl.
Qed.

Lemma tcp_owner s fly k i : NInv s fly -> t_so (tcp s k) = Some i -> t_bound (tcp s k) = true ->
  live_so s i /\ so_type (so s i) = SOCK_STREAM /\ so_pcb (so s i) = Some (TcpPcb k) /\ (t_state (tcp s k) = TCPS_LISTEN -> is_head s i).
Proof.
  intros (? & ? & ? & ? & ? & HN) H1 H2. pose proof (ni_sock _ _ _ _ _ _ _ HN) as HS. destruct (si_tcp _ _ _ HS k i H1 H2) as (Hl & Hp & ?). split; [done|]. split; [|split; done].
  pose proof (si_owned _ _ _ HS i Hl) as Ho. unfold owned in Ho. rewrite Hp in Ho. apply Ho.
Qed.

Lemma tcp_demux_spec dport src sport flags s k : tcp_demux dport src sport flags s = Some k ->
  exists i, t_so (tcp s k) = Some i /\ t_bound (tcp s k) = true.
Proof.
  intros H. assert (Hk : bool_decide (t_so (tcp s k) ≠ None) && t_bound (tcp s k) = true).
  { unfold tcp_demux in H. destruct (scan _ (tcp_exact _ _ _ _)) eqn:E.
    - injection H as ->. apply scan_spec in E as [_ E]. unfold tcp_exact in E. destruct (bool_decide _); [|done]. by destruct (t_bound _).
    - destruct (_ && _); [|done]. apply scan_spec in H as [_ H]. unfold tcp_listener in H. destruct (bool_decide _); [|done]. by destruct (t_bound _). }
  apply andb_prop in Hk as [H1 H2]. apply bool_decide_eq_true in H1. destruct (t_so _); [eauto|done].
Qed.

(** Work done while a packet is held, then the packet is freed. *)
Lemma then_free s m held (r : res net) : single (bufs s) m -> safe r (post (m :: held) s) -> safe (s' ← r; freem_net m s') (post held s).
Proof.
  intros Hs Hr. eapply safe_bind; [exact Hr|]. intros s1 Hp. cbn beta. eapply safe_near; [eapply post_near; [exact Hp|by right]|].
  apply free_one; [apply Hp|]. unfold next. rewrite (po_agree _ _ _ Hp m); [apply Hs|left].
Qed.

Lemma post_single s s' m held : post (m :: held) s s' -> single (bufs s) m -> single (bufs s') m.
Proof. intros Hp. apply single_agree, (po_agree _ _ _ Hp). left. Qed.

Lemma then_sent s m held s' k flags data : post (m :: held) s s' -> single (bufs s) m ->
  safe (s2 ← unit_of (tcp_send_packet c k flags data s'); freem_net m s2) (post held s).
Proof.
  intros Hp Hs. apply then_free; [done|]. eapply safe_near; [eapply post_near; [exact Hp|done]|]. apply unit_safe, tcp_send_packet_safe, Hp.
Qed.

Lemma then_append s m held s' i : post (m :: held) s s' -> single (bufs s) m -> (i < MAX_SOCKETS)%nat -> safe (sbappend i m s') (post held s).
Proof.
  intros Hp Hs Hi. eapply safe_near; [eapply post_near; [exact Hp|by right]|]. apply sbappend_spec; [apply Hp|done|]. by eapply packet_single, post_single.
Qed.

Lemma tcp_transition_safe s k i m ip th held : NInv s (m :: held) -> single (bufs s) m -> t_so (tcp s k) = Some i -> t_bound (tcp s k) = true ->
  safe (tcp_transition c k m ip th s) (post held s).
Proof.
  intros HI Hs Hso Hb. destruct (tcp_owner s _ k i HI Hso Hb) as (Hl & Hty & Hpc & Hh). unfold tcp_transition. rewrite Hso. cbn [default].
  pose proof (free_one s m held HI (proj1 Hs)) as Hf.
  assert (Hu : forall f, tcp_kept (tcp s k) (f (tcp s k)) -> post (m :: held) s (upd_tcp k f s)) by (intros f; by apply post_tcp).
  destruct (t_state (tcp s k)) eqn:Est; try done.
  - destruct (_ && _); [|done]. destruct (_ <=? _); [done|].
    eapply safe_bind; [apply (tcp_alloc_child_safe s _ i k _ _ _ _ (m :: held)); [done|done|by apply Hh|done|done]|]. intros [s1 [ch|]] Hp; cbn [fst] in Hp; cbn beta iota.
    + by apply then_sent.
    + by apply (then_free s m held (Ret s1)).
  - destruct (has _ _); [|done]. by apply then_sent; [apply Hu|].
  - destruct (has _ _); [|done]. destruct (_ =? _); [|done]. set (s1 := upd_tcp k _ s).
    assert (Hp1 : post (m :: held) s s1) by (by apply Hu).
    assert (Hr : safe (so_q0_to_q i s1) (post (m :: held) s)).
    { eapply safe_near; [eapply post_near; [exact Hp1|done]|]. apply so_q0_to_q_spec; [apply Hp1|done]. }
    destruct (0 <? _); [|by apply then_free]. eapply safe_bind; [exact Hr|]. intros s2 Hp2. cbn beta.
    apply then_append; [|done|apply Hl]. eapply post_trans; [exact Hp2|]. apply post_tcp; [apply Hp2|done].
  - destruct (_ && _); [done|]. destruct (0 <? _).
    + eapply safe_bind; [apply then_append; [by apply Hu|done|apply Hl]|]. intros s2 Hp2. cbn beta.
      eapply safe_near; [eapply post_near; [exact Hp2|done]|]. apply unit_safe, tcp_send_packet_safe, Hp2.
    + destruct (has _ _); [|done]. apply then_sent; [|done]. set (s1 := upd_tcp k _ s). assert (Hp1 : post (m :: held) s s1) by (by apply Hu).
      eapply post_trans; [exact Hp1|]. apply post_so; [apply Hp1|done..].
Qed.

Lemma tcp_input_safe s i m ip held : NInv s (m :: held) -> single (bufs s) m -> safe (tcp_input c i m ip s) (post held s).
Proof.
  intros HI Hs. pose proof (free_one s m held HI (proj1 Hs)) as Hf. unfold tcp_input. destruct (m_len (buf s m) <? 20) eqn:E; [done|].
  destruct (read_header (bufs s) m (m_len (buf s m))) as (l & -> & Hlen); [apply Hs|unfold buf in *; lia|]. cbn [mbind res_bind].
  destruct (negb _); [done|]. destruct (_ || _) eqn:Eh; [done|]. apply orb_false_elim in Eh as [E1 E2].
  destruct (advance_single s m (u8 (TH_OFF (tcp_of l) * 4)) held HI Hs) as (HI1 & Hs1 & Hn1 & _); [lia|]. eapply safe_near; [exact Hn1|].
  destruct (tcp_demux _ _ _ _ _) as [k|] eqn:Ek; [|apply free_one; [done|apply Hs1]].
  apply tcp_demux_spec in Ek as (o & Eo & Eb). by eapply tcp_transition_safe.
Qed.

(** ** IP *)

Lemma ip_input_safe s i m held : NInv s (m :: held) -> single (bufs s) m -> safe (ip_input c i m s) (post held s).
Proof.
  intros HI Hs. pose proof (free_one s m held HI (proj1 Hs)) as Hf. unfold ip_input, ip_deliver. destruct (m_len (buf s m) <? 20) eqn:E; [done|].
  destruct (read_header (bufs s) m 20) as (l & -> & Hlen); [apply Hs|unfold buf in *; lia|]. cbn [mbind res_bind].
  destruct (negb _); [done|]. destruct (_ || _) eqn:Eh; [done|]. apply orb_false_elim in Eh as [E1 E2].
  destruct (advance_single s m (u16 (IP_HL (ip_of l) * 4)) held HI Hs) as (HI1 & Hs1 & Hn1 & _); [lia|]. eapply safe_near; [exact Hn1|].
  destruct (_ =? IPPROTO_ICMP); [by apply icmp_input_safe|]. destruct (_ =? IPPROTO_UDP); [by apply udp_input_safe|].
  destruct (_ =? IPPROTO_TCP); [by apply tcp_input_safe|]. apply free_one; [done|apply Hs1].
Qed.

Lemma packet_total s m L held : NInv s (L ++ held) -> packet (bufs s) m L -> u64 (pkt_len (buf s m)) = sum_len (bufs s) L.
Proof.
  intros HI (_ & Hs & Hl). pose proof (sum_len_nonneg _ _ Hs). pose proof (fly_length _ _ _ HI) as Hn.
  assert (Z.of_nat CHAIN = 513) by done. unfold buf. rewrite Hl. apply u64_id. lia.
Qed.

Lemma ip_loopback_safe s i m L held : NInv s (L ++ held) -> packet (bufs s) m L -> safe (ip_loopback c i m s) (fun r => post held s r.1).
Proof.
  intros HI Hp. unfold ip_loopback. rewrite (packet_total s m L held HI Hp). destruct (MCLBYTES <? _) eqn:E; [by eapply free_packet|].
  pose proof (alloc_spec (m_getcl MT_DATA) (cl_buf MT_DATA) s (L ++ held) (m_getcl_spec _) HI) as Ha.
  destruct (lift (m_getcl MT_DATA) s) as [s1 [pkt|]]; [|subst; by eapply free_packet]. destruct Ha as (HI1 & Em & Eo & Es).
  destruct (cl_empty MT_DATA (buf s pkt)) as (B1 & B2 & B3). rewrite <- Em in B1, B2, B3. pose proof (fly_notin _ _ _ HI1) as Hnot.
  assert (Ha : agree L (bufs s) (bufs s1)) by (intros j Hj; apply Eo; set_solver).
  assert (Hn1 : near held s s1) by (apply near_bufs; [done|]; intros j Hj; apply Eo; set_solver).
  assert (Hsum : sum_len (bufs s1) L = sum_len (bufs s) L) by (by apply sum_len_frame). rewrite <- Hsum in *. clear Hsum.
  pose proof (packet_agree _ _ _ _ Ha Hp) as (P1 & P2 & P3). destruct (packet_head _ _ _ Hp) as [L' EL].
  rewrite (flatten_spec _ _ _ _ _ L); [|set_solver|by rewrite EL|done|done|by eapply fly_length|done|lia|unfold MCLBYTES in E; lia].
  cbn [mbind res_bind]. pose proof (bytes_length _ _ P2) as Hb. set (s2 := upd_buf pkt (stored _ _) s1).
  assert (HI2 : NInv (set_len pkt (sum_len (bufs s1) L) s2) (pkt :: L ++ held)) by (repeat (apply fly_upd; [|left]); done).
  assert (Hs2 : single (bufs (set_len pkt (sum_len (bufs s1) L) s2)) pkt) by (apply built_single; [done|unfold MCLBYTES in E; lia|done|done]).
  assert (Hn2 : near (L ++ held) s1 (set_len pkt (sum_len (bufs s1) L) s2)) by (eapply near_trans; apply near_upd_buf; done).
  destruct (single_upd _ pkt (L ++ held) (fun x => x <| pkt_rcvif := Some i |>) ltac:(done) HI2 Hs2) as (HI3 & Hs3 & Hn3).
  set (s3 := upd_buf pkt _ (set_len _ _ _)) in *. assert (Hn13 : near (L ++ held) s1 s3) by (by eapply near_trans). clear HI2 Hs2 Hn2 Hn3.
  assert (P1' : chain (next (bufs s3)) (Some m) L) by (eapply lseg_frame; [|exact P1]; intros j Hj; unfold next; rewrite (nr_agree _ _ _ Hn13); [done|set_solver]).
  eapply safe_bind; [apply (free_spec s3 m L (pkt :: held)); [eapply NInv_perm; [|exact HI3]; by rewrite <- Permutation_middle|done]|]. intros s4 Hp4. cbn beta.
  eapply safe_bind; [apply ip_input_safe; [apply Hp4|by eapply post_single]|]. intros s5 Hp5. cbn [safe fst].
  eapply near_post; [|eapply near_post; [eapply post_near; [exact Hp4|by right]|exact Hp5]]. eapply near_trans; [exact Hn1|]. eapply near_sub; [exact Hn13|set_solver].
Qed.

Lemma ip_output_safe s m L held src dst proto : NInv s (L ++ held) -> packet (bufs s) m L ->
  safe (ip_output c m src dst proto s) (fun r => post held s r.1).
Proof.
  intros HI Hp. unfold ip_output. destruct (route src dst s) as [i|]; [|by eapply free_packet].
  pose proof (header_spec s m L held HI Hp) as Ha. destruct (lift (m_gethdr MT_HEADER) s) as [s1 [hdr|]]; [|subst; by eapply free_packet].
  destruct Ha as (HI1 & Hp1 & Hn1 & B1 & B2). set (s2 := s1 <| s_ip_id_counter ::= _ |>).
  assert (Hp2 : post ((hdr :: L) ++ held) s1 s2) by (by apply post_other).
  eapply safe_bind; [eapply (prepend_safe s2 m L _ hdr held 240); [apply Hp2|done|done|done|done]|].
  intros s3 (HI3 & Hpk3 & Hn3). cbn beta.
  assert (Hn : near held s s3) by (eapply near_trans; [exact Hn1|]; eapply near_trans; [eapply post_near; [exact Hp2|set_solver]|done]).
  eapply safe_near_pair; [exact Hn|]. destruct (has _ _) eqn:El; [by eapply ip_loopback_safe|by eapply (co_eth c Hc)].
Qed.

Lemma ethernet_input_safe s i m held : NInv s (m :: held) -> single (bufs s) m -> has (if_flags (ifp s i)) IFF_LOOPBACK = false ->
  safe (ethernet_input c i m s) (post held s).
Proof.
  intros HI Hs Hl. pose proof (free_one s m held HI (proj1 Hs)) as Hf. unfold ethernet_input. destruct (m_len (buf s m) <? 14) eqn:E; [done|].
  destruct (read_header (bufs s) m 14) as (l & -> & Hlen); [apply Hs|unfold buf in *; lia|]. cbn [mbind res_bind].
  destruct (advance_single s m 14 held HI Hs) as (HI1 & Hs1 & Hn1 & _); [lia|]. eapply safe_near; [exact Hn1|].
  destruct (_ =? ETHERTYPE_ARP); [by apply arp_input_safe|]. destruct (_ =? ETHERTYPE_IP); [by apply ip_input_safe|]. apply free_one; [done|apply Hs1].
Qed.

Lemma if_input_safe s i m held : NInv s (m :: held) -> single (bufs s) m -> safe (if_input c i m s) (post held s).
Proof.
  intros HI Hs. unfold if_input. destruct (s_net_input_lock s); [done|]. set (s1 := s <| s_net_input_lock := true |>).
  assert (Hp1 : post (m :: held) s s1) by (by apply post_other). pose proof (po_inv _ _ _ Hp1) as HI1. eapply safe_near; [eapply post_near; [exact Hp1|by right]|].
  eapply (safe_bind _ _ (post held s1)); [destruct (has _ _) eqn:E; [by apply ip_input_safe|by apply ethernet_input_safe]|].
  intros s2 Hp2. cbn [safe]. eapply post_trans; [exact Hp2|]. apply post_other; try done. apply Hp2.
Qed.
End Safe.

(** Every depth of nesting keeps the promises. *)
Lemma stack_ok n : calls_ok (stack n).
Proof.
  induction n as [|n IH]; [by split|]. split; cbn [stack c_ip_output c_ethernet_output c_if_input].
  - intros. by eapply ip_output_safe.
  - intros. by eapply ethernet_output_safe.
  - intros. by eapply if_input_safe.
Qed.
End NetSafe.
