(* ===== verification/NetFlow.v ===== *)
(** * The way of a packet

    What the stack does to the bytes of a packet: buffers are filled, headers
    prepended, chains copied, headers stripped, packets queued on sockets and
    read from them.  The receive queues are tracked along the way. *)

From stdpp Require Import functions.
From S2P Require Import Prelude Checksum Mbuf Net NetStack NetInv NetSafe.

Module NetFlow.

Import Checksum Mbuf Net NetStack NetInv NetSafe.

Implicit Types (s : net) (b : mbufs).

#[local] Opaque queued.

(** The invariant with the packets [q] of each socket and the number of free buffers. *)
Definition NQ s (fly : list nat) (q : nat -> list nat) (n : nat) : Prop :=
  exists free leaked Q0 Q, net_inv s fly free leaked q Q0 Q /\ length free = n.

(** Steps that leave the queued packets alone. *)
Record quiet (q : nat -> list nat) s s' : Prop := {
  qt_rest : s' = s <| bufs := bufs s' |> <| s_ip_id_counter := s_ip_id_counter s' |>;
  qt_data : forall j, j ∈ queued q -> buf s' j = buf s j
}.

(** The datagrams waiting on a socket. *)
Definition datagrams s (q : nat -> list nat) (i : nat) : list (list Z) := (fun j => data (buf s j)) <$> q i.

Lemma quiet_refl q s : quiet q s s.
Proof. split; [by destruct s|done]. Qed.

Lemma quiet_trans q s1 s2 s3 : quiet q s1 s2 -> quiet q s2 s3 -> quiet q s1 s3.
Proof. intros [E1 D1] [E2 D2]. split; [rewrite E2; rewrite E1; done|]. intros j Hj. by rewrite D2, D1. Qed.

Lemma NQ_NInv s fly q n : NQ s fly q n -> NInv s fly.
Proof. intros (free & leaked & Q0 & Q & H & _). by exists free, leaked, q, Q0, Q. Qed.

Lemma NQ_queue s fly q n i : NQ s fly q n -> (i < MAX_SOCKETS)%nat -> queue (bufs s) (so_rcv (so s i)) (q i).
Proof. intros (free & leaked & Q0 & Q & H & _). apply H. Qed.

Lemma NQ_disjoint s fly q n j : NQ s fly q n -> j ∈ fly -> j ∉ queued q.
Proof. intros (free & leaked & Q0 & Q & H & _) Hj. by apply (fly_disjoint _ _ _ _ _ _ _ j H). Qed.

Lemma NQ_perm s fly fly' q n : fly ≡ₚ fly' -> NQ s fly q n -> NQ s fly' q n.
Proof.
  intros Hp (free & leaked & Q0 & Q & [H1 H2 H3 H4 HK H5 H6 H7 H8] & Hn). exists free, leaked, Q0, Q. split; [|done]. split; try done.
  eapply pool_perm; [done|]. by rewrite Hp.
Qed.

Lemma NQ_counter s fly q n x : NQ s fly q n -> NQ (s <| s_ip_id_counter := x |>) fly q n.
Proof.
  intros (free & leaked & Q0 & Q & [H1 H2 H3 H4 HK H5 H6 H7 H8] & Hn). exists free, leaked, Q0, Q. split; [|done]. split; try done. by eapply sock_ext.
Qed.

Lemma quiet_upd s fly q n m f : NQ s fly q n -> m ∈ fly -> NQ (upd_buf m f s) fly q n /\ quiet q s (upd_buf m f s).
Proof.
  intros HI Hm. assert (Hd : forall j, j ∈ queued q -> mb j (upd m f (bufs s)) = mb j (bufs s)).
  { intros j Hj. apply mb_upd_ne. intros ->. by eapply NQ_disjoint. }
  split; [|split; [by destruct s|done]]. destruct HI as (free & leaked & Q0 & Q & HI & Hn). exists free, leaked, Q0, Q. split; [|done].
  apply (net_bufs s (upd m f (bufs s)) fly fly free free); [done|apply pool_upd; [apply HI|set_solver]|done].
Qed.

Lemma quiet_alloc f new s fly q n : (forall b free rest, pool_inv b free rest -> allocates b (f b).1 free rest (f b).2 new) -> NQ s fly q (S n) ->
  exists s' m, lift f s = (s', Some m) /\ NQ s' (m :: fly) q n /\ quiet q s s' /\ buf s' m = new (buf s m) /\ forall j, j ≠ m -> buf s' j = buf s j.
Proof.
  intros Hf (free & leaked & Q0 & Q & HI & Hn). pose proof (Hf _ _ _ (ni_pool _ _ _ _ _ _ _ HI)) as H. unfold lift.
  destruct (f (bufs s)) as [b' [m|]]; cbn in H; [|destruct H as [_ ->]; done].
  destruct H as (free' & -> & Hp & E & Ho). exists (s <| bufs := b' |>), m. split; [done|].
  assert (Hd : forall j, j ∈ queued q -> mb j b' = mb j (bufs s)).
  { intros j Hj. apply Ho. intros ->. pose proof (pool_NoDup _ _ _ (ni_pool _ _ _ _ _ _ _ HI)) as Hd. cbn in Hd. apply NoDup_cons in Hd as [Hd _]. apply Hd. rewrite !elem_of_app. auto. }
  split; [|split; [by split|done]]. exists free', leaked, Q0, Q. split; [by apply (net_bufs s b' fly (m :: fly) (m :: free'))|]. by injection Hn.
Qed.

Lemma quiet_free s m L held q n : NQ s (L ++ held) q n -> chain (next (bufs s)) (Some m) L ->
  exists s', freem_net m s = Ret s' /\ NQ s' held q (length L + n) /\ quiet q s s' /\ forall j, j ∉ L -> buf s' j = buf s j.
Proof.
  intros (free & leaked & Q0 & Q & HI & Hn) Hc. pose proof (ni_pool _ _ _ _ _ _ _ HI) as Hp. rewrite <- app_assoc in Hp.
  destruct (m_freem_spec (Some m) (bufs s) free (held ++ queued q ++ leaked) L Hp Hc) as (b' & E & Hp' & Ho).
  exists (s <| bufs := b' |>). unfold freem_net, on_bufs. rewrite E. split; [done|].
  assert (Hd : forall j, j ∈ queued q -> mb j b' = mb j (bufs s)).
  { intros j Hj. apply Ho. intros Hl. destruct (fly_disjoint _ _ _ _ _ _ _ j HI) as [_ ?]; [set_solver|done]. }
  split; [|split; [by split|done]]. exists (reverse L ++ free), leaked, Q0, Q. split; [by apply (net_bufs s b' (L ++ held) held free)|].
  rewrite app_length, length_reverse. lia.
Qed.

Lemma datagrams_quiet q s s' i : quiet q s s' -> (i < MAX_SOCKETS)%nat -> datagrams s' q i = datagrams s q i.
Proof.
  intros [_ Hd] Hi. unfold datagrams. apply list_fmap_ext. intros k j Hj. rewrite Hd; [done|]. eapply elem_of_queued; [done|]. by eapply list_elem_of_lookup_2.
Qed.

(** ** A packet and its bytes *)

Record carries s (m : nat) (L held : list nat) (q : nat -> list nat) (n : nat) (l : list Z) : Prop := {
  ca_inv : NQ s (L ++ held) q n;
  ca_packet : packet (bufs s) m L;
  ca_bytes : bytes (bufs s) L = l
}.

Lemma carries_length s m L held q n l : carries s m L held q n l -> pkt_len (buf s m) = Z.of_nat (length l).
Proof. intros [_ (_ & Hs & Hp) <-]. unfold buf. by rewrite Hp, bytes_length. Qed.

Lemma carries_one s m held q n l : carries s m [m] held q n l -> data (buf s m) = l /\ m_len (buf s m) = Z.of_nat (length l) /\ single (bufs s) m.
Proof.
  intros [_ Hp Hb]. apply packet_single in Hp. unfold bytes in Hb. cbn in Hb. rewrite app_nil_r in Hb. split; [done|]. split; [|done].
  unfold buf in *. rewrite <- Hb. symmetry. apply data_length, Hp.
Qed.

Lemma one_carries s m held q n l : NQ s (m :: held) q n -> single (bufs s) m -> data (buf s m) = l -> carries s m [m] held q n l.
Proof. intros HI Hs <-. split; [done|by apply packet_single|]. unfold bytes. cbn. by rewrite app_nil_r. Qed.

Lemma bytes_frame b b' L : agree L b b' -> bytes b' L = bytes b L.
Proof. intros Ha. unfold bytes. f_equal. apply list_fmap_ext. intros k j Hj. rewrite Ha; [done|]. by eapply list_elem_of_lookup_2. Qed.

Lemma carries_frame s s' m L held held' q n n' l : carries s m L held q n l -> NQ s' (L ++ held') q n' -> agree L (bufs s) (bufs s') -> carries s' m L held' q n' l.
Proof. intros [_ Hp Hb] HI Ha. split; [done|by eapply packet_agree|]. by rewrite (bytes_frame (bufs s)). Qed.

(** A buffer freshly filled with [l]. *)
Lemma stored_data x l : data ((stored 0 l x) <| m_len := Z.of_nat (length l) |> <| pkt_len := Z.of_nat (length l) |>) = l.
Proof.
  destruct (stored_same 0 l x) as (_ & _ & E & _). unfold data. cbn [m_data m_len]. cbn. rewrite E.
  change (storage _) with (storage (stored 0 l x)). rewrite stored_storage, Z.add_0_r. apply get_put_same.
Qed.

Lemma build_carries f new room s held q n l :
  (forall b free rest, pool_inv b free rest -> allocates b (f b).1 free rest (f b).2 new) -> empty_buf new room ->
  NQ s held q (S n) -> Z.of_nat (length l) <= room ->
  exists s1 m, let s2 := set_len m (Z.of_nat (length l)) (upd_buf m (stored 0 l) s1) in
    lift f s = (s1, Some m) /\ on_bufs (write m 0 l) s1 = Ret (upd_buf m (stored 0 l) s1) /\ quiet q s s1 /\
    carries s2 m [m] held q n l /\ quiet q s s2.
Proof.
  intros Hf He HI Hl. destruct (quiet_alloc f new s held q n Hf HI) as (s1 & m & E & HI1 & Q1 & Em & Eo). exists s1, m. cbv zeta.
  destruct (He (buf s m)) as (E1 & E2 & E3). rewrite <- Em in E1, E2, E3. split; [done|]. split; [apply write_net; lia|]. split; [done|].
  destruct (quiet_upd s1 _ q n m (stored 0 l) HI1) as [HI2 Q2]; [left|]. set (s2 := upd_buf m (stored 0 l) s1) in *.
  destruct (quiet_upd s2 _ q n m (fun x => x <| m_len := Z.of_nat (length l) |> <| pkt_len := Z.of_nat (length l) |>) HI2) as [HI3 Q3]; [left|].
  split; [|eapply quiet_trans; [exact Q1|]; by eapply quiet_trans]. apply one_carries; [done|apply built_single; [done|lia|done|done]|].
  unfold set_len. rewrite buf_upd, decide_True by done. unfold s2. rewrite buf_upd, decide_True by done. apply stored_data.
Qed.

(** Prepending a header. *)
Lemma push_carries s m L held q n l : carries s m L held q (S n) l ->
  exists s1 hdr, lift (m_gethdr MT_HEADER) s = (s1, Some hdr) /\ quiet q s s1 /\ pkt_len (buf s1 m) = Z.of_nat (length l) /\
    forall h x, Z.of_nat (length h) <= 240 -> exists s2, prepend m h hdr (s1 <| s_ip_id_counter := x |>) = Ret s2 /\ carries s2 hdr (hdr :: L) held q n (h ++ l) /\ quiet q s s2.
Proof.
  intros Hc. pose proof (carries_length _ _ _ _ _ _ _ Hc) as Hpl. destruct Hc as [HI Hp Hb].
  destruct (quiet_alloc (m_gethdr MT_HEADER) (hdr_buf MT_HEADER) s (L ++ held) q n (m_gethdr_spec _) HI) as (s1 & hdr & E & HI1 & Q1 & Em & Eo).
  destruct (hdr_empty MT_HEADER (buf s hdr)) as (_ & B1 & B2). rewrite <- Em in B1, B2. pose proof (fly_notin _ _ _ (NQ_NInv _ _ _ _ HI1)) as Hnot.
  assert (Hm : m ≠ hdr) by (destruct (packet_head _ _ _ Hp) as [L' ->]; set_solver).
  exists s1, hdr. split; [done|]. split; [done|]. rewrite Eo by done. split; [done|]. intros h x Hh. set (s2 := s1 <| s_ip_id_counter := x |>).
  pose proof (NQ_counter _ _ _ _ x HI1) as HI2. assert (Q2 : quiet q s1 s2) by (by split).
  pose proof (prepend_safe s2 m L h hdr held 240 (NQ_NInv _ _ _ _ HI2)) as Hs.
  assert (Hp2 : packet (bufs s2) m L) by (eapply packet_agree; [|exact Hp]; intros j Hj; apply Eo; set_solver).
  specialize (Hs Hp2 B1 B2 Hh). unfold prepend in *. rewrite write_net in * by (unfold buf in *; cbn in *; lia). cbn [mbind res_bind safe] in *. eexists. split; [done|].
  set (s3 := upd_buf hdr (stored 0 h) s2) in *. set (g := fun y : mbuf => _) in *. destruct Hs as (_ & Hp4 & _).
  destruct (quiet_upd s2 _ q n hdr (stored 0 h) HI2) as [HI3 Q3]; [left|]. destruct (quiet_upd s3 _ q n hdr g HI3) as [HI4 Q4]; [left|].
  split; [|eapply quiet_trans; [exact Q1|]; eapply quiet_trans; [exact Q2|]; by eapply quiet_trans]. split; [done|done|].
  change (bytes ?b (hdr :: L)) with (data (mb hdr b) ++ bytes b L). f_equal.
  - change (data (buf (upd_buf hdr g s3) hdr) = h). rewrite buf_upd, decide_True by done. unfold s3. rewrite buf_upd, decide_True by done. apply (stored_data (buf s2 hdr) h).
  - rewrite <- Hb. apply bytes_frame. intros j Hj. change (buf (upd_buf hdr g s3) j = buf s j). assert (j ≠ hdr) by set_solver.
    rewrite buf_upd, decide_False by done. unfold s3. rewrite buf_upd, decide_False by done. by apply Eo.
Qed.

(** Stripping a header. *)
Lemma advance_data x k : 0 <= k <= m_len x -> data x = take (Z.to_nat k) (data x) ++ data (x <| m_data ::= Z.add k |> <| m_len ::= fun n => n - k |>).
Proof.
  intros Hk. unfold data. cbn. change (storage _) with (storage x) at 3. replace (m_len x) with (k + (m_len x - k)) at 1 2 by lia.
  rewrite get_at_app by lia. rewrite take_app_le by (rewrite get_at_length; lia). rewrite take_ge by (rewrite get_at_length; lia). f_equal. f_equal. lia.
Qed.

Lemma advance_carries s m held q n h l k : carries s m [m] held q n (h ++ l) -> k = Z.of_nat (length h) ->
  carries (advance m k s) m [m] held q n l /\ quiet q s (advance m k s).
Proof.
  intros Hc ->. pose proof (carries_one _ _ _ _ _ _ Hc) as (Hd & Hl & Hs). rewrite app_length in Hl. pose proof (ca_inv _ _ _ _ _ _ _ Hc) as HI.
  destruct (quiet_upd s _ q n m (fun x => x <| m_data ::= Z.add (Z.of_nat (length h)) |> <| m_len ::= fun k => k - Z.of_nat (length h) |> <| pkt_len ::= fun k => k - Z.of_nat (length h) |>) HI) as [HI1 Q1]; [left|].
  split; [|exact Q1]. destruct (advance_single s m (Z.of_nat (length h)) held) as (_ & Hs1 & _); [by eapply NQ_NInv|done|lia|].
  apply one_carries; [exact HI1|done|]. unfold advance. rewrite buf_upd, decide_True by done.
  pose proof (advance_data (buf s m) (Z.of_nat (length h))) as Ha. rewrite Hd in Ha. rewrite Nat2Z.id, take_app_length in Ha. apply (app_inv_head h). symmetry. apply Ha. lia.
Qed.

(** Reading a header. *)
Lemma read_prefix s m held q n h l : carries s m [m] held q n (h ++ l) -> read m 0 (Z.of_nat (length h)) (bufs s) = Ret h.
Proof.
  intros Hc. destruct (carries_one _ _ _ _ _ _ Hc) as (Hd & Hl & _ & (H1 & H2 & H3) & _). rewrite app_length in Hl. unfold buf in *.
  rewrite read_spec by lia. f_equal. rewrite Z.add_0_r. apply (app_inj_1 _ h (get_at (storage (mb m (bufs s))) (m_data (mb m (bufs s)) + Z.of_nat (length h)) (Z.of_nat (length l))) l).
  - rewrite get_at_length by lia. lia.
  - rewrite <- get_at_app by lia. rewrite <- Hd. unfold data. f_equal. lia.
Qed.

(** ** The loopback interface *)

Section Flow.
Context (c : calls).

Lemma loopback_carries s i m L held q n l : carries s m L held q (S n) l -> Z.of_nat (length l) <= MCLBYTES ->
  exists s' pkt, ip_loopback c i m s = (s2 ← ip_input c i pkt s'; Ret (s2, CHIMERA_SUCCESS)) /\
    carries s' pkt [pkt] held q (length L + n) l /\ quiet q s s'.
Proof.
  intros Hc Hl. destruct Hc as [HI Hp Hb]. pose proof (NQ_NInv _ _ _ _ HI) as HN. unfold ip_loopback. rewrite (packet_total s m L held HN Hp).
  pose proof (bytes_length (bufs s) L (proj1 (proj2 Hp))) as Hlen. rewrite Hb in Hlen. rewrite <- Hlen. rewrite (proj2 (Z.ltb_ge _ _)) by lia.
  destruct (quiet_alloc (m_getcl MT_DATA) (cl_buf MT_DATA) s (L ++ held) q n (m_getcl_spec _) HI) as (s1 & pkt & -> & HI1 & Q1 & Em & Eo).
  destruct (cl_empty MT_DATA (buf s pkt)) as (B1 & B2 & B3). rewrite <- Em in B1, B2, B3. pose proof (fly_notin _ _ _ (NQ_NInv _ _ _ _ HI1)) as Hnot.
  assert (Ha : agree L (bufs s) (bufs s1)) by (intros j Hj; apply Eo; set_solver).
  pose proof (packet_agree _ _ _ _ Ha Hp) as (P1 & P2 & P3). destruct (packet_head _ _ _ Hp) as [L' EL].
  assert (Hb1 : bytes (bufs s1) L = l) by (by rewrite (bytes_frame (bufs s))). pose proof (bytes_length _ _ P2) as Hl1. rewrite Hb1 in Hl1. unfold MCLBYTES in Hl.
  rewrite (flatten_spec _ _ _ _ _ L); [|set_solver|by rewrite EL|done|done|by eapply fly_length|done|lia|lia]. rewrite Hb1. cbn [mbind res_bind].
  destruct (quiet_upd s1 _ q n pkt (stored 0 l) HI1) as [HI2 Q2]; [left|]. set (s2 := upd_buf pkt (stored 0 l) s1) in *.
  destruct (quiet_upd s2 _ q n pkt (fun x => x <| m_len := Z.of_nat (length l) |> <| pkt_len := Z.of_nat (length l) |>) HI2) as [HI3 Q3]; [left|].
  fold (set_len pkt (Z.of_nat (length l)) s2) in HI3, Q3. set (s3 := set_len pkt (Z.of_nat (length l)) s2) in *.
  destruct (quiet_upd s3 _ q n pkt (fun x => x <| pkt_rcvif := Some i |>) HI3) as [HI4 Q4]; [left|]. set (s4 := upd_buf pkt _ s3) in *.
  assert (Hs4 : single (bufs s4) pkt /\ data (buf s4 pkt) = l).
  { split; [apply (single_upd s3 pkt (L ++ held) (fun x => x <| pkt_rcvif := Some i |>)); [done|by eapply NQ_NInv|apply built_single; [done|lia|done|done]]|].
    unfold s4, s3, set_len, s2. do 3 (rewrite buf_upd, decide_True by done). apply (stored_data (buf s1 pkt) l). }
  destruct Hs4 as [Hs4 Hd4].
  assert (P4 : chain (next (bufs s4)) (Some m) L).
  { eapply lseg_frame; [|exact P1]. intros j Hj. assert (j ≠ pkt) by set_solver. unfold next. change (mb j (bufs s4)) with (buf s4 j).
    unfold s4, s3, set_len, s2. do 3 (rewrite buf_upd, decide_False by done). done. }
  destruct (quiet_free s4 m L (pkt :: held) q n) as (s5 & -> & HI5 & Q5 & Eo5); [eapply NQ_perm; [|exact HI4]; by rewrite <- Permutation_middle|done|].
  cbn [mbind res_bind]. exists s5, pkt. split; [done|]. rewrite <- (Eo5 pkt) in Hd4 by set_solver. split.
  - apply one_carries; [done| |done]. eapply single_agree; [|exact Hs4]. apply Eo5. set_solver.
  - eapply quiet_trans; [exact Q1|]. eapply quiet_trans; [exact Q2|]. eapply quiet_trans; [exact Q3|]. by eapply quiet_trans.
Qed.

(** ** Input *)

Lemma ip_input_udp s i m held q n h l : carries s m [m] held q n (ip_bytes h ++ l) -> ip_vhl h = 69 -> ip_p h = IPPROTO_UDP ->
  ip_input c i m s = udp_input i m (ip_of (ip_bytes h)) (advance m 20 s).
Proof.
  intros Hc Hv Hp. pose proof (read_prefix _ _ _ _ _ _ _ Hc) as Hr. change (Z.of_nat (length (ip_bytes h))) with 20 in Hr.
  destruct (carries_one _ _ _ _ _ _ Hc) as (_ & Hl & _). rewrite app_length, Nat2Z.inj_add in Hl. change (Z.of_nat (length (ip_bytes h))) with 20 in Hl.
  assert (E1 : IP_V (ip_of (ip_bytes h)) = 4) by (unfold IP_V; cbn [ip_of ip_vhl b8 nth ip_bytes app]; by rewrite Hv).
  assert (E2 : IP_HL (ip_of (ip_bytes h)) = 5) by (unfold IP_HL; cbn [ip_of ip_vhl b8 nth ip_bytes app]; by rewrite Hv).
  unfold ip_input, ip_deliver. rewrite (proj2 (Z.ltb_ge _ _)), Hr by lia. cbn [mbind res_bind]. rewrite E1, E2. change (u16 (5 * 4)) with 20. cbn [negb Z.eqb Pos.eqb orb].
  rewrite !(proj2 (Z.ltb_ge _ 20)) by lia. cbn [orb]. change (ip_p (ip_of (ip_bytes h))) with (ip_p h). rewrite Hp. done.
Qed.

Lemma w16_le16 v l : 0 <= v < 65536 -> w16 (le16 v ++ l) 0 = v.
Proof. intros Hv. unfold w16, le16, b8. cbn. pose proof (Z.div_mod v 256). rewrite (Z.mod_small (v / 256)); [lia|]. split; [apply Z.div_pos; lia|apply Z.div_lt_upper_bound; lia]. Qed.

Lemma udp_of_bytes h : 0 <= uh_dport h < 65536 -> 0 <= uh_ulen h < 65536 ->
  uh_dport (udp_of (udp_bytes h)) = uh_dport h /\ uh_ulen (udp_of (udp_bytes h)) = uh_ulen h.
Proof. intros H1 H2. split; [apply (w16_le16 (uh_dport h) []); done|apply (w16_le16 (uh_ulen h) []); done]. Qed.

(** A datagram joins the queue of the socket its port belongs to. *)
Definition delivered s s' (held : list nat) (q q' : nat -> list nat) (n o : nat) (l : list Z) : Prop :=
  NQ s' held q' n /\ forall k, (k < MAX_SOCKETS)%nat -> datagrams s' q' k = if decide (k = o) then datagrams s q k ++ [l] else datagrams s q k.

Lemma sbappend_delivers s o m held q n l : carries s m [m] held q n l -> (o < MAX_SOCKETS)%nat ->
  exists s', sbappend o m s = Ret s' /\ delivered s s' held q (<[o := q o ++ [m]]> q) n o l /\
    s' = s <| bufs := bufs s' |> <| s_socket_pool := s_socket_pool s' |> /\ forall j, shape (so s' j) = shape (so s j) /\ so_state (so s' j) = so_state (so s j).
Proof.
  intros Hc Ho. destruct (carries_one _ _ _ _ _ _ Hc) as (Hd & _ & _). destruct Hc as [(free & leaked & Q0 & Q & HI & Hn) Hp _].
  destruct (sbappend_full s o m held free leaked q Q0 Q HI Ho Hp) as (sb & b' & -> & HI' & _ & Hx). eexists. split; [done|]. split; [|split].
  - split; [by exists free, leaked, Q0, Q|]. intros k Hk.
    set (s' := (with_rcv s o sb) <| bufs := b' |>).
    assert (Ed : forall j, data (buf s' j) = data (buf s j)) by (intros j; change (buf s' j) with (mb j b'); destruct (Hx j) as [x ->]; done).
    assert (Ef : forall L, (fun j => data (buf s' j)) <$> L = (fun j => data (buf s j)) <$> L) by (intros L; apply list_fmap_ext; intros; apply Ed).
    unfold datagrams. rewrite Ef. case_decide; [subst k; rewrite fn_lookup_insert, fmap_app|by rewrite fn_lookup_insert_ne]. f_equal. cbn. by rewrite Hd.
  - by destruct s.
  - intros j. change (so ((with_rcv s o sb) <| bufs := b' |>) j) with (so (with_rcv s o sb) j). unfold with_rcv. rewrite so_upd. case_decide; [by subst|done].
Qed.

Lemma udp_input_delivers s i m ip held q n uh l k o : carries s m [m] held q n (udp_bytes uh ++ l) ->
  0 <= uh_dport uh < 65536 -> uh_ulen uh = htons (8 + Z.of_nat (length l)) -> 8 + Z.of_nat (length l) < 65536 ->
  scan UDP_MAX_SOCKETS (udp_port_taken (ntohs (uh_dport uh)) s) = Some k -> u_so (udp s k) = Some o -> (o < MAX_SOCKETS)%nat ->
  exists s', udp_input i m ip s = Ret s' /\ delivered s s' held q (<[o := q o ++ [m]]> q) n o l /\
    s' = s <| bufs := bufs s' |> <| s_socket_pool := s_socket_pool s' |> /\ forall j, shape (so s' j) = shape (so s j) /\ so_state (so s' j) = so_state (so s j).
Proof.
  intros Hc Hdp Hul Hlen Hk Hu Ho. pose proof (read_prefix _ _ _ _ _ _ _ Hc) as Hr. change (Z.of_nat (length (udp_bytes uh))) with 8 in Hr.
  destruct (carries_one _ _ _ _ _ _ Hc) as (_ & Hl & _). rewrite app_length, Nat2Z.inj_add in Hl. change (Z.of_nat (length (udp_bytes uh))) with 8 in Hl.
  destruct (udp_of_bytes uh) as [E1 E2]; [done|rewrite Hul; apply htons_range|]. unfold udp_input. rewrite (proj2 (Z.ltb_ge _ _)), Hr by lia. cbn [mbind res_bind].
  rewrite E1, E2, Hul. assert (En : ntohs (htons (8 + Z.of_nat (length l))) = 8 + Z.of_nat (length l)) by (apply htons_htons; lia). rewrite En.
  rewrite !(proj2 (Z.ltb_ge _ _)) by lia. cbn [orb]. change (udp_port_taken ?d (advance m 8 s)) with (udp_port_taken d s). rewrite Hk.
  change (udp (advance m 8 s) k) with (udp s k). rewrite Hu.
  destruct (advance_carries s m held q n (udp_bytes uh) l 8 Hc eq_refl) as [Hc1 Q1].
  destruct (sbappend_delivers _ o m held q n l Hc1 Ho) as (s' & -> & (HI' & Hd') & Es & Hsh). exists s'. split; [done|]. split; [|split; [|exact Hsh]].
  - split; [done|]. intros j Hj. rewrite Hd' by done. by rewrite (datagrams_quiet q s).
  - rewrite Es. by destruct s.
Qed.
End Flow.

(** ** Sending a datagram to this machine *)

Lemma udp_owner s fly q n k o : NQ s fly q n -> u_so (udp s k) = Some o -> u_bound (udp s k) = true -> (o < MAX_SOCKETS)%nat.
Proof. intros (? & ? & ? & ? & HN & _) H1 H2. by destruct (si_udp _ _ _ (ni_sock _ _ _ _ _ _ _ HN) k o H1 H2) as [[? _] _]. Qed.

Lemma udp_taken_bound port s k : udp_port_taken port s k = true -> u_bound (udp s k) = true.
Proof. unfold udp_port_taken. intros H. apply andb_prop in H as [H _]. by apply andb_prop in H as [_ H]. Qed.

(** The packet on its way through [ip_output]. *)
Lemma ip_output_loopback d s m q n uh l src dst i k o : carries s m [m] [] q (S (S n)) (udp_bytes uh ++ l) -> dst = htonl INADDR_LOOPBACK ->
  if_lookup "lo0" s = Some i -> has (if_flags (ifp s i)) IFF_LOOPBACK = true -> Z.of_nat (length l) <= 1472 ->
  0 <= uh_dport uh < 65536 -> uh_ulen uh = htons (8 + Z.of_nat (length l)) ->
  scan UDP_MAX_SOCKETS (udp_port_taken (ntohs (uh_dport uh)) s) = Some k -> u_so (udp s k) = Some o ->
  exists s' pkt, ip_output (stack d) m src dst IPPROTO_UDP s = Ret (s', CHIMERA_SUCCESS) /\
    delivered s s' [] q (<[o := q o ++ [pkt]]> q) (S (S n)) o l /\ forall j, shape (so s' j) = shape (so s j) /\ so_state (so s' j) = so_state (so s j).
Proof.
  intros Hc -> Hlo Hfl Hl Hdp Hul Hk Hu. assert (Ho : (o < MAX_SOCKETS)%nat) by (eapply udp_owner; [apply Hc|done|]; apply scan_spec in Hk as [_ Hk]; by eapply udp_taken_bound).
  unfold ip_output, route. rewrite Z.eqb_refl. cbn [orb]. rewrite Hlo. set (src' := if src =? 0 then _ else _).
  destruct (push_carries s m [m] [] q (S n) (udp_bytes uh ++ l) Hc) as (s1 & hdr & -> & Q1 & Ep & Hpush). rewrite Ep. set (h := ip_packet _ _ _ _ _).
  destruct (Hpush (ip_bytes h) (u16 (s_ip_id_counter s1 + 1))) as (s2 & E2 & Hc2 & Q2); [done|].
  change (s1 <| s_ip_id_counter ::= _ |>) with (s1 <| s_ip_id_counter := u16 (s_ip_id_counter s1 + 1) |>). rewrite E2. cbn [mbind res_bind].
  assert (Ei : ifp s2 i = ifp s i) by (rewrite (qt_rest _ _ _ Q2); done). rewrite Ei, Hfl.
  destruct (loopback_carries (stack d) s2 i hdr [hdr; m] [] q n (ip_bytes h ++ udp_bytes uh ++ l) Hc2) as (s3 & pkt & -> & Hc3 & Q3).
  { rewrite !app_length. change (length (ip_bytes h)) with 20%nat. change (length (udp_bytes uh)) with 8%nat. unfold MCLBYTES. lia. }
  rewrite (ip_input_udp (stack d) s3 i pkt [] q _ h (udp_bytes uh ++ l) Hc3) by done.
  destruct (advance_carries s3 pkt [] q _ (ip_bytes h) (udp_bytes uh ++ l) 20 Hc3 eq_refl) as [Hc4 Q4]. set (s4 := advance pkt 20 s3) in *.
  assert (Q : quiet q s s4) by (eapply quiet_trans; [exact Q2|]; by eapply quiet_trans).
  assert (Eu : s_udp_pcbs s4 = s_udp_pcbs s) by (rewrite (qt_rest _ _ _ Q); done). assert (Es : s_socket_pool s4 = s_socket_pool s) by (rewrite (qt_rest _ _ _ Q); done).
  destruct (udp_input_delivers s4 i pkt (ip_of (ip_bytes h)) [] q _ uh l k o Hc4) as (s5 & -> & (HI5 & Hd5) & _ & Hsh); [done|done|lia| | |done|].
  { rewrite <- Hk. unfold udp_port_taken, udp. by rewrite Eu. }
  { rewrite <- Hu. unfold udp. by rewrite Eu. }
  cbn [mbind res_bind]. exists s5, pkt. split; [done|]. split; [split; [exact HI5|]|].
  - intros j Hj. rewrite Hd5 by done. by rewrite (datagrams_quiet q s).
  - intros j. rewrite (proj1 (Hsh j)), (proj2 (Hsh j)). unfold so. by rewrite Es.
Qed.

Lemma udp_sendto_delivers d s i l dest q n lo ki k o : NQ s [] q (S (S (S n))) ->
  so_pcb (so s i) = Some (UdpPcb ki) -> u_bound (udp s ki) = true -> Z.of_nat (length l) <= 1472 ->
  sin_addr dest = htonl INADDR_LOOPBACK -> 0 <= sin_port dest < 65536 -> if_lookup "lo0" s = Some lo -> has (if_flags (ifp s lo)) IFF_LOOPBACK = true ->
  scan UDP_MAX_SOCKETS (udp_port_taken (ntohs (sin_port dest)) s) = Some k -> u_so (udp s k) = Some o ->
  exists s' pkt, udp_sendto (stack (S d)) i l dest s = Ret (s', CHIMERA_SUCCESS) /\ delivered s s' [] q (<[o := q o ++ [pkt]]> q) (S (S n)) o l /\
    forall j, shape (so s' j) = shape (so s j) /\ so_state (so s' j) = so_state (so s j).
Proof.
  intros HI Hpcb Hb Hl Hda Hdp Hlo Hfl Hk Hu. unfold udp_sendto. rewrite Hpcb, Hb. rewrite (proj2 (Z.ltb_ge _ _)) by lia. cbn [mbind res_bind].
  set (uh := fun s1 => {| uh_sport := htons (u_local_port (udp s1 ki)); uh_dport := sin_port dest; uh_ulen := htons (u16 (8 + Z.of_nat (length l))); uh_sum := 0 |}).
  destruct (build_carries (m_getcl MT_DATA) (cl_buf MT_DATA) 2048 s [] q (S (S n)) (udp_bytes (uh s) ++ l) (m_getcl_spec _) (cl_empty _) HI) as (s1 & m & E & Ew & Q1 & Hc & Q2).
  { rewrite app_length. change (length (udp_bytes (uh s))) with 8%nat. lia. }
  rewrite E. assert (Eu : udp s1 ki = udp s ki) by (rewrite (qt_rest _ _ _ Q1); done). rewrite Eu. fold (uh s). rewrite Ew. cbn [mbind res_bind].
  set (src := if u_local_ip _ =? 0 then _ else _). assert (El : 8 + Z.of_nat (length l) = Z.of_nat (length (udp_bytes (uh s) ++ l))) by (rewrite app_length; change (length (udp_bytes (uh s))) with 8%nat; lia).
  rewrite <- El in Hc, Q2. set (s2 := set_len m _ _) in *. change (c_ip_output (stack (S d))) with (ip_output (stack d)).
  assert (Eu2 : s_udp_pcbs s2 = s_udp_pcbs s) by (rewrite (qt_rest _ _ _ Q2); done). assert (Es : s_socket_pool s2 = s_socket_pool s) by (rewrite (qt_rest _ _ _ Q2); done).
  assert (Ei : if_lookup "lo0" s2 = if_lookup "lo0" s) by (rewrite (qt_rest _ _ _ Q2); done). assert (Ef : ifp s2 lo = ifp s lo) by (rewrite (qt_rest _ _ _ Q2); done).
  destruct (ip_output_loopback d s2 m q n (uh s) l src (sin_addr dest) lo k o Hc) as (s' & pkt & -> & (HI' & Hd') & Hsh); try done.
  { by rewrite Ei. } { by rewrite Ef. } { cbn. rewrite u16_id by lia. done. } { cbn. rewrite <- Hk. unfold udp_port_taken, udp. by rewrite Eu2. } { rewrite <- Hu. unfold udp. by rewrite Eu2. }
  exists s', pkt. split; [done|]. split; [split; [done|]|].
  - intros j Hj. rewrite Hd' by done. by rewrite (datagrams_quiet q s).
  - intros j. rewrite (proj1 (Hsh j)), (proj2 (Hsh j)). unfold so. by rewrite Es.
Qed.

(** ** Receiving *)

Lemma queue_consume b sb x L k : queue b sb (x :: L) -> 0 <= k <= m_len (mb x b) ->
  queue (upd x (fun y => y <| m_data ::= Z.add k |> <| m_len ::= fun n => n - k |>) b) (sb <| sb_cc ::= fun n => u32 (n - k) |>) (x :: L).
Proof.
  intros [A B C D] Hk. pose proof (chain_NoDup _ _ _ A) as Hd. apply NoDup_cons in Hd as [Hx _]. set (b' := upd x _ b).
  assert (Eo : forall j, j ≠ x -> mb j b' = mb j b) by (intros; by apply mb_upd_ne). split.
  - eapply lseg_frame; [|exact A]. intros j _. unfold nextpkt. destruct (decide (j = x)) as [->|]; [unfold b'; by rewrite mb_upd_eq|by rewrite Eo].
  - done.
  - intros j Hj. destruct (C j Hj) as [C1 (C2 & C3 & C4)]. unfold next. destruct (decide (j = x)) as [->|]; [|by rewrite Eo]. unfold b'. rewrite mb_upd_eq. split; [done|].
    unfold seg_ok, capacity in *. cbn. unfold MCLBYTES, MLEN in *. destruct (has _ _); lia.
  - cbn. rewrite D, u32_sub_l. f_equal. unfold b' at 1. rewrite mb_upd_eq. cbn. fold (sum_len b L). fold (sum_len b' L).
    rewrite (sum_len_frame b b' L); [lia|]. intros j Hj. apply Eo. by intros ->.
Qed.

Lemma queue_pop b sb x L : queue b sb (x :: L) -> m_len (mb x b) = 0 -> queue b (sb <| sb_mb := nextpkt b x |>) L.
Proof.
  intros [[A1 A2] B C D] Hl. split; cbn.
  - done.
  - intros HL. rewrite <- B by done. destruct L; done.
  - intros j Hj. apply C. by right.
  - rewrite D. cbn. by rewrite Hl.
Qed.

(** The queues of the other sockets. *)
Definition others s s' (q q' : nat -> list nat) (i : nat) : Prop :=
  forall k, (k < MAX_SOCKETS)%nat -> k ≠ i -> datagrams s' q' k = datagrams s q k.

Lemma others_trans s1 s2 s3 q1 q2 q3 i : others s1 s2 q1 q2 i -> others s2 s3 q2 q3 i -> others s1 s3 q1 q3 i.
Proof. intros H1 H2 k Hk Hki. by rewrite H2, H1. Qed.

(** Replacing the queue of a socket by [l], of its own buffers. *)
Lemma requeue s i sb l b' q n free' : NQ s [] q n -> (i < MAX_SOCKETS)%nat -> queue b' sb l ->
  (forall free leaked, pool_inv (bufs s) free ([] ++ queued q ++ leaked) -> length free = n ->
     exists fr, pool_inv b' fr ([] ++ queued (<[i := l]> q) ++ leaked) /\ length fr = free') ->
  (forall j, j ∉ q i -> mb j b' = mb j (bufs s)) ->
  let s' := (with_rcv s i sb) <| bufs := b' |> in NQ s' [] (<[i := l]> q) free' /\ others s s' q (<[i := l]> q) i.
Proof.
  intros (free & leaked & Q0 & Q & HI & Hn) Hi Hq Hp Ho s'.
  assert (Hx : forall k j, (k < MAX_SOCKETS)%nat -> k ≠ i -> j ∈ q k -> mb j b' = mb j (bufs s)).
  { intros k j Hk Hki Hj. apply Ho. intros Hj'. eapply Hki, queued_disjoint; eauto using queued_NoDup. }
  split.
  - destruct (Hp free leaked (ni_pool _ _ _ _ _ _ _ HI) Hn) as (fr & Hp' & Hn'). exists fr, leaked, Q0, Q. split; [|done]. by apply (net_queue s i sb l b' [] [] free).
  - intros k Hk Hki. unfold datagrams. rewrite fn_lookup_insert_ne by done. apply list_fmap_ext. intros x j Hj. f_equal. eapply Hx; [exact Hk|done|by eapply list_elem_of_lookup_2].
Qed.

Lemma queued_same q i l (leaked : list nat) : (i < MAX_SOCKETS)%nat -> q i = l -> queued (<[i := l]> q) ++ leaked ≡ₚ queued q ++ leaked.
Proof.
  intros Hi <-. pose proof (queued_put q i (q i) Hi) as Hp. rewrite (Permutation_app_comm (queued _) (q i)) in Hp.
  apply (Permutation_app_inv_l (q i)) in Hp. by rewrite Hp.
Qed.

Definition consumed (i x : nat) (k : Z) s : net :=
  upd_so i (fun o => o <| so_rcv ::= fun sb => sb <| sb_cc ::= fun n => u32 (n - k) |> |>)
    (upd_buf x (fun y => y <| m_data ::= Z.add k |> <| m_len ::= fun n => n - k |>) s).

Lemma consume_step s i x L k q n : NQ s [] q n -> (i < MAX_SOCKETS)%nat -> q i = x :: L -> 0 <= k <= m_len (buf s x) ->
  NQ (consumed i x k s) [] (<[i := x :: L]> q) n /\ others s (consumed i x k s) q (<[i := x :: L]> q) i /\
  forall j, j ≠ x -> buf (consumed i x k s) j = buf s j.
Proof.
  intros HI Hi Eq Hk. pose proof (NQ_queue _ _ _ _ i HI Hi) as Hq. rewrite Eq in Hq. pose proof (queue_consume _ _ _ _ k Hq Hk) as Hq'.
  assert (Ho : forall j, j ≠ x -> buf (consumed i x k s) j = buf s j) by (intros j Hj; by apply mb_upd_ne).
  destruct (requeue s i _ _ _ q n n HI Hi Hq') as [H1 H2]; [|intros j Hj; apply Ho; intros ->; apply Hj; rewrite Eq; left|done].
  intros free leaked Hp Hn. exists free. split; [|done]. eapply pool_perm; [|cbn; symmetry; by apply queued_same].
  apply pool_upd; [done|]. cbn. apply elem_of_app. left. eapply elem_of_queued; [exact Hi|]. rewrite Eq. left.
Qed.

Definition popped (i x : nat) s : net :=
  upd_so i (fun o => o <| so_rcv ::= fun sb => sb <| sb_mb := nextpkt (bufs s) x |> |>) (s <| bufs ::= m_free x |>).

Lemma pop_step s i x L q n : NQ s [] q n -> (i < MAX_SOCKETS)%nat -> q i = x :: L -> m_len (buf s x) = 0 ->
  NQ (popped i x s) [] (<[i := L]> q) (S n) /\ others s (popped i x s) q (<[i := L]> q) i /\ forall j, j ≠ x -> buf (popped i x s) j = buf s j.
Proof.
  intros HI Hi Eq Hl. pose proof (NQ_queue _ _ _ _ i HI Hi) as Hq. rewrite Eq in Hq. pose proof (queue_pop _ _ _ _ Hq Hl) as Hq'.
  pose proof (chain_NoDup _ _ _ (qu_chain _ _ _ Hq)) as Hd. apply NoDup_cons in Hd as [Hx _].
  assert (Hf : forall free leaked, pool_inv (bufs s) free ([] ++ queued q ++ leaked) -> pool_inv (bufs s) free (x :: queued (<[i := L]> q) ++ leaked)).
  { intros free leaked Hp. eapply pool_perm; [exact Hp|]. change ([] ++ ?z) with z. pose proof (queued_put q i L Hi) as Hqi. rewrite Eq in Hqi.
    apply (Permutation_app_inv_l L). rewrite app_assoc, <- Hqi. generalize (queued (<[i := L]> q)). intros B. solve_Permutation. }
  assert (Ho : forall j, j ≠ x -> mb j (m_free x (bufs s)) = mb j (bufs s)) by (intros j Hj; apply (mb_upd_ne _ _ (bufs s)); done).
  destruct (requeue s i _ L (m_free x (bufs s)) q n (S n) HI Hi (queue_frame _ _ _ _ (fun j Hj => Ho j (fun E => Hx (eq_ind j (fun y => y ∈ L) Hj x E))) Hq')) as [H1 H2]; [| |done].
  - intros free leaked Hp Hn. exists (x :: free). split; [by apply m_free_spec, Hf|]. cbn. by rewrite Hn.
  - intros j Hj. apply Ho. intros ->. apply Hj. rewrite Eq. left.
Qed.

Lemma consumed_data s i x k : 0 <= k <= m_len (buf s x) -> data (buf (consumed i x k s) x) = drop (Z.to_nat k) (data (buf s x)).
Proof.
  intros Hk. change (buf (consumed i x k s) x) with (mb x (upd x (fun y => y <| m_data ::= Z.add k |> <| m_len ::= fun n => n - k |>) (bufs s))).
  rewrite mb_upd_eq. pose proof (advance_data (buf s x) k Hk) as Ha. set (y := _ <| m_len ::= _ |>) in *.
  assert (Hd : drop (Z.to_nat k) (take (Z.to_nat k) (data (buf s x)) ++ data y) = data y); [|by rewrite <- Ha in Hd].
  apply drop_app_length'. unfold data. rewrite length_take, get_at_length by lia. lia.
Qed.

Lemma read_take s x k : seg_ok (buf s x) -> 0 <= k <= m_len (buf s x) -> read x 0 k (bufs s) = Ret (take (Z.to_nat k) (data (buf s x))).
Proof.
  intros (H1 & H2 & H3) Hk. unfold data, buf in *. rewrite read_spec, Z.add_0_r by lia. f_equal.
  replace (m_len (mb x (bufs s))) with (k + (m_len (mb x (bufs s)) - k)) by lia. rewrite get_at_app by lia.
  rewrite take_app_le by (rewrite get_at_length; lia). rewrite take_ge; [done|]. rewrite get_at_length; lia.
Qed.

Lemma datagrams_cons s q i x L : q i = x :: L -> concat (datagrams s q i) = data (buf s x) ++ concat ((fun j => data (buf s j)) <$> L).
Proof. intros E. unfold datagrams. by rewrite E. Qed.

Lemma datagrams_tail s s' x (L : list nat) : x ∉ L -> (forall j, j ≠ x -> buf s' j = buf s j) -> (fun j => data (buf s' j)) <$> L = (fun j => data (buf s j)) <$> L.
Proof. intros Hx Ho. apply list_fmap_ext. intros k j Hj. rewrite Ho; [done|]. intros ->. apply Hx. by eapply list_elem_of_lookup_2. Qed.

(** A receive call takes the bytes from the front of the queue. *)
Definition takes s s' (q q' : nat -> list nat) (i k : nat) : Prop :=
  (exists n, NQ s' [] q' n) /\ others s s' q q' i /\ concat (datagrams s' q' i) = drop k (concat (datagrams s q i)).

Lemma takes_0 s q i n : NQ s [] q n -> takes s s q q i 0.
Proof. intros HI. split; [by exists n|]. split; [by intros k _ _|by rewrite drop_0]. Qed.

Lemma receive_copy_spec len i L : (i < MAX_SOCKETS)%nat -> forall n s q f acc, NQ s [] q f -> q i = L -> (length L <= n)%nat -> Z.of_nat (length acc) <= len ->
  let w := Z.to_nat (len - Z.of_nat (length acc)) in
  exists s' q', receive_copy n i (sb_mb (so_rcv (so s i))) len acc s = Ret (s', acc ++ take w (concat (datagrams s q i))) /\ takes s s' q q' i w.
Proof.
  intros Hi. induction L as [|x L IH]; intros n s q f acc HI Eq Hn Hacc w; pose proof (NQ_queue _ _ _ _ i HI Hi) as Hq; rewrite Eq in Hq; pose proof (qu_chain _ _ _ Hq) as Hch.
  - cbn in Hch. rewrite Hch. exists s, q. assert (E0 : concat (datagrams s q i) = []) by (unfold datagrams; by rewrite Eq). unfold takes. rewrite E0, take_nil, drop_nil, app_nil_r.
    split; [by destruct n|]. split; [by exists f|]. split; [by intros k _ _|done].
  - destruct Hch as [Em Hch]. rewrite Em. cbn in Hn. destruct n as [|n]; [lia|]. cbn [receive_copy]. destruct (len <=? _) eqn:El.
    { exists s, q. assert (w = O) as -> by lia. rewrite take_0, app_nil_r. split; [done|]. by eapply takes_0. }
    apply Z.leb_gt in El. destruct (qu_single _ _ _ Hq x) as [Hnx Hsx]; [left|]. set (d := data (buf s x)). pose proof (data_length (buf s x) Hsx) as Hd. fold d in Hd.
    pose proof (chain_NoDup _ _ _ (qu_chain _ _ _ Hq)) as HND. apply NoDup_cons in HND as [HxL _].
    set (chunk := if len <? _ then _ else _).
    assert (Hk : 0 <= chunk <= m_len (buf s x)) by (unfold chunk; destruct (_ <? _) eqn:E; lia).
    rewrite (read_take s x chunk Hsx Hk). cbn [mbind res_bind]. fold d. fold (consumed i x chunk s).
    destruct (consume_step s i x L chunk q f HI Hi Eq Hk) as (HI2 & Ho2 & Eb2). set (s2 := consumed i x chunk s) in *. set (q2 := <[i := x :: L]> q) in *.
    assert (Eq2 : q2 i = x :: L) by apply fn_lookup_insert. pose proof (consumed_data s i x chunk Hk) as Ed2. fold s2 d in Ed2.
    assert (El2 : m_len (buf s2 x) = m_len (buf s x) - chunk) by (unfold s2; change (buf (consumed i x chunk s) x) with (mb x (upd x (fun y => y <| m_data ::= Z.add chunk |> <| m_len ::= fun n => n - chunk |>) (bufs s))); by rewrite mb_upd_eq).
    pose proof (datagrams_tail s s2 x L HxL Eb2) as Et2. rewrite (datagrams_cons s q i x L Eq). fold d. set (rest := concat ((fun j => data (buf s j)) <$> L)) in *.
    destruct (m_len (buf s2 x) =? 0) eqn:Ez.
    + pose proof (NQ_queue _ _ _ _ i HI2 Hi) as Hq2. rewrite Eq2 in Hq2. destruct (qu_single _ _ _ Hq2 x) as [Hnx2 _]; [left|].
      change (m_next (buf s2 x) = None) in Hnx2. rewrite Hnx2. change (m_nextpkt (buf s2 x)) with (nextpkt (bufs s2) x). fold (popped i x s2).
      destruct (pop_step s2 i x L q2 f HI2 Hi Eq2) as (HI3 & Ho3 & Eb3); [lia|]. set (s3 := popped i x s2) in *. set (q3 := <[i := L]> q2) in *.
      assert (Em3 : nextpkt (bufs s2) x = sb_mb (so_rcv (so s3 i))) by (unfold s3, popped; by rewrite so_upd, decide_True by done). rewrite Em3.
      assert (Eq3 : q3 i = L) by apply fn_lookup_insert. assert (Hr3 : concat (datagrams s3 q3 i) = rest) by (unfold datagrams; rewrite Eq3, (datagrams_tail s2 s3 x L HxL Eb3), Et2; done).
      assert (Ew : Z.to_nat chunk = length d) by lia. rewrite Ew, take_ge by done. assert (Hw : (length d <= w)%nat) by (unfold w, chunk in *; destruct (_ <? _) eqn:E; lia).
      destruct (IH n s3 q3 (S f) (acc ++ d) HI3 Eq3) as (s' & q' & E' & [HN' [Ho' Hr']]); [lia|rewrite app_length; lia|].
      assert (Ew' : Z.to_nat (len - Z.of_nat (length (acc ++ d))) = (w - length d)%nat) by (rewrite app_length; lia). rewrite Ew', Hr3 in *.
      exists s', q'. rewrite E', <- app_assoc, (take_app_ge d) by done. split; [done|]. split; [done|]. split; [eapply others_trans; [exact Ho2|]; by eapply others_trans|].
      rewrite Hr', (datagrams_cons s q i x L Eq). fold d rest. by rewrite drop_app_ge.
    + assert (Ec : chunk = Z.of_nat w /\ (w < length d)%nat) by (unfold chunk, w in *; destruct (_ <? _) eqn:E; lia). destruct Ec as [Ec Hw]. rewrite Ec, Nat2Z.id in *.
      exists s2, q2. assert (Hlen : len <= Z.of_nat (length (acc ++ take w d))) by (rewrite app_length, length_take; lia).
      split; [destruct n; cbn [receive_copy]; rewrite (proj2 (Z.leb_le _ _)) by done; by rewrite take_app_le by lia|].
      split; [by exists f|]. split; [done|]. rewrite (datagrams_cons s2 q2 i x L Eq2), (datagrams_cons s q i x L Eq), Ed2, Et2. fold d rest. by rewrite drop_app_le by lia.
Qed.

Lemma queue_room s q n i : NQ s [] q n -> (i < MAX_SOCKETS)%nat -> (length (q i) <= MBUF_POOL_SIZE)%nat.
Proof.
  intros (free & leaked & Q0 & Q & HI & _) Hi. pose proof (pool_length _ _ _ (ni_pool _ _ _ _ _ _ _ HI)) as Hl. rewrite !app_length in Hl.
  pose proof (Permutation_length (queued_put q i [] Hi)) as Hp. rewrite !app_length in Hp. cbn [length] in *. lia.
Qed.

Lemma queue_count s q n i : NQ s [] q n -> (i < MAX_SOCKETS)%nat -> sb_cc (so_rcv (so s i)) = Z.of_nat (length (concat (datagrams s q i))).
Proof.
  intros HI Hi. pose proof (NQ_queue _ _ _ _ i HI Hi) as Hq. pose proof (queue_room _ _ _ _ HI Hi) as Hr.
  assert (Hs : Forall (fun j => seg_ok (mb j (bufs s))) (q i)) by (apply Forall_forall; intros j Hj; by apply (qu_single _ _ _ Hq)).
  pose proof (sum_len_nonneg _ _ Hs) as Hb. assert (Hm : Z.of_nat MBUF_POOL_SIZE = 512) by done.
  rewrite (qu_cc _ _ _ Hq), u32_id by lia. symmetry. exact (bytes_length _ _ Hs).
Qed.

Lemma receive_poll_ready c n i s : sb_cc (so_rcv (so s i)) ≠ 0 -> receive_poll c n i s = Ret (s, false).
Proof. intros H. destruct n; [done|]. cbn [receive_poll]. apply Z.eqb_neq in H. by rewrite H. Qed.

(** With data waiting a receive call returns the first [len] bytes of it. *)
Lemma soreceive_takes c s q n i len : NQ s [] q n -> (i < MAX_SOCKETS)%nat -> concat (datagrams s q i) ≠ [] -> 0 <= len ->
  exists s' q', soreceive c i len s = Ret (s', (CHIMERA_SUCCESS, take (Z.to_nat len) (concat (datagrams s q i)))) /\ takes s s' q q' i (Z.to_nat len).
Proof.
  intros HI Hi Hd Hlen. pose proof (NQ_queue _ _ _ _ i HI Hi) as Hq. unfold soreceive. rewrite receive_poll_ready.
  2:{ rewrite (queue_count s q n i HI Hi). destruct (concat (datagrams s q i)); [done|]. cbn [length]. lia. }
  cbn [mbind res_bind]. pose proof (receive_copy_spec len i (q i) Hi CHAIN s q n [] HI eq_refl) as Hrc. cbv zeta in Hrc. cbn [length app] in Hrc. rewrite Z.sub_0_r in Hrc.
  destruct Hrc as (s' & q' & E & Ht); [pose proof (queue_room _ _ _ _ HI Hi); unfold CHAIN; lia|done|].
  destruct (sb_mb (so_rcv (so s i))) as [m|] eqn:Em; [|exfalso; apply Hd; pose proof (qu_chain _ _ _ Hq) as Hch; unfold datagrams; rewrite Em in Hch; destruct (q i); [done|by destruct Hch]].
  rewrite E. cbn [mbind res_bind]. by exists s', q'.
Qed.
End NetFlow.
