(* ===== verification/NetApi.v ===== *)
(** * The socket calls

    Every call a program can make on a socket it holds keeps the invariant of
    the network stack, together with everything that frames arriving meanwhile
    cause. *)

From stdpp Require Import functions.
From S2P Require Import Prelude Checksum Mbuf Net NetStack NetInv NetSafe NetFlow.

Module NetApi.

Import Checksum Mbuf Net NetStack NetInv NetSafe NetFlow.

Implicit Types (s : net) (b : mbufs).

#[local] Opaque queued.

(** ** Creation *)

(** A socket without connections and buffers in a slot nobody uses. *)
Definition blank_socket (o : socket) : Prop :=
  so_pcb o = None /\ so_head o = None /\ so_q0 o = None /\ so_q o = None /\
  sb_mb (so_rcv o) = None /\ sb_cc (so_rcv o) = 0 /\ sb_mb (so_snd o) = None.

Lemma slot_sock s s' i o Q0 Q : sock_inv s Q0 Q -> ~ live_so s i -> blank_socket o ->
  (forall j, so s' j = if decide (j = i) then o else so s j) -> s_tcp_pcbs s' = s_tcp_pcbs s -> s_udp_pcbs s' = s_udp_pcbs s ->
  sock_inv s' (<[i := []]> Q0) (<[i := []]> Q).
Proof.
  intros [A B C D O K] Hd (P1 & P2 & P3 & P4 & _) Es Et Eu.
  assert (Eo : forall j, j ≠ i -> so s' j = so s j) by (intros j Hj; by rewrite Es, decide_False).
  assert (Ei : so s' i = o) by (by rewrite Es, decide_True).
  assert (El : forall j, j ≠ i -> live_so s' j <-> live_so s j) by (intros j Hj; unfold live_so; by rewrite Eo).
  assert (Eh : forall j, j ≠ i -> is_head s' j <-> is_head s j) by (intros j Hj; unfold is_head; by rewrite Eo).
  assert (Hlive : forall j, live_so s j -> j ≠ i) by (by intros j Hj ->). split.
  - intros k j. unfold tcp. rewrite Et. intros H1 H2. destruct (A k j H1 H2) as (X1 & X2 & X3). pose proof (Hlive j X1). rewrite El, Eh, Eo by done. done.
  - intros k j. unfold udp. rewrite Eu. intros H1 H2. destruct (B k j H1 H2) as (X1 & X2). pose proof (Hlive j X1). rewrite El, Eo by done. done.
  - intros h Hl Hh. destruct (decide (h = i)) as [->|Hne].
    + rewrite Ei, !fn_lookup_insert, P3, P4. split; [done|]. split; [done|]. split; [constructor|]. intros c' Hc'. by apply not_elem_of_nil in Hc'.
    + rewrite !fn_lookup_insert_ne by done. rewrite El in Hl by done. rewrite Eh in Hh by done. destruct (C h Hl Hh) as (X1 & X2 & X3 & X4). rewrite Eo by done.
      assert (Em : forall j, j ∈ Q0 h ++ Q h -> j ≠ i) by (intros j Hj; apply Hlive, (X4 j Hj)). split; [|split; [|split; [done|]]].
      * eapply lseg_frame; [|exact X1]. intros j Hj. cbn. rewrite Eo; [done|]. apply Em. set_solver.
      * eapply lseg_frame; [|exact X2]. intros j Hj. cbn. rewrite Eo; [done|]. apply Em. set_solver.
      * intros j Hj. rewrite El, Eo by auto. auto.
  - intros c' h Hl Hh Hn. assert (Hc : c' ≠ i) by (intros ->; rewrite Ei in Hh; congruence). rewrite El in Hl by done. rewrite Eo in Hh by done.
    destruct (D c' h Hl Hh Hn) as [Y1 Y2]. pose proof (Hlive h Y1). by rewrite El, Eh.
  - intros j Hl. unfold owned. destruct (decide (j = i)) as [->|Hne]; [by rewrite Ei, P1|]. rewrite El in Hl by done. specialize (O j Hl). unfold owned, tcp, udp in *. by rewrite Et, Eu, Eo.
  - intros h Hl Hh. destruct (decide (h = i)) as [->|Hne].
    + rewrite !fn_lookup_insert. split; [|split; [|by left]]; intros j Hj; by apply not_elem_of_nil in Hj.
    + rewrite !fn_lookup_insert_ne by done. rewrite El in Hl by done. rewrite Eh in Hh by done. destruct (K h Hl Hh) as (K1 & K2 & K3). destruct (C h Hl Hh) as (_ & _ & _ & X4).
      assert (Em : forall j, j ∈ Q0 h ++ Q h -> j ≠ i) by (intros j Hj; apply Hlive, (X4 j Hj)).
      split; [|split; [|by rewrite Eo]]; intros j Hj; rewrite Eo by (apply Em; set_solver); auto.
Qed.

Lemma slot_post s i o fly : NInv s fly -> (i < MAX_SOCKETS)%nat -> ~ live_so s i -> blank_socket o -> post fly s (upd_so i (fun _ => o) s).
Proof.
  intros (free & leaked & q & Q0 & Q & [H1 H2 H3 H4 HK H5 H6 H7 H8]) Hi Hd Ho. pose proof Ho as (P1 & P2 & P3 & P4 & P5 & P6 & P7). set (s' := upd_so i _ s).
  assert (Es : forall j, so s' j = if decide (j = i) then o else so s j) by (intros; exact (so_upd s i (fun _ => o) j)).
  assert (Eo : forall j, j ≠ i -> so s' j = so s j) by (intros j Hj; by rewrite Es, decide_False).
  split; [|by intros j _|by apply same_ifs_refl|by apply rx_le_refl|].
  2:{ intros j Hl Hh. assert (j ≠ i) by (by intros ->). unfold live_so, is_head. by rewrite Eo. }
  exists free, (q i ++ leaked), (<[i := []]> q), (<[i := []]> Q0), (<[i := []]> Q). split; try done.
  - eapply pool_perm; [done|]. rewrite (app_assoc (queued _) (q i)), (queued_put q i [] Hi). done.
  - intros j Hj. rewrite Es. case_decide as Ej; [subst j; rewrite fn_lookup_insert; split; [done|done|intros x Hx; by apply not_elem_of_nil in Hx|done]|].
    rewrite fn_lookup_insert_ne by done. auto.
  - intros j. rewrite Es. by case_decide.
  - by eapply slot_sock.
  - intros c' h [Hlt Hsig] Hh Hn. rewrite Es in Hsig, Hh. case_decide as Ec; [congruence|]. pose proof (HK c' h (conj Hlt Hsig) Hh Hn) as Hin.
    assert (h ≠ i). { intros ->. destruct (si_child _ _ _ H4 c' i (conj Hlt Hsig) Hh Hn). done. } by rewrite !fn_lookup_insert_ne.
Qed.

(** ** Control blocks *)

Lemma NInv_tcp s fly k i : NInv s fly -> t_so (tcp s k) = Some i -> t_bound (tcp s k) = true ->
  live_so s i /\ so_pcb (so s i) = Some (TcpPcb k) /\ (t_state (tcp s k) = TCPS_LISTEN -> is_head s i).
Proof. intros (? & ? & ? & ? & ? & HN). apply (si_tcp _ _ _ (ni_sock _ _ _ _ _ _ _ HN)). Qed.

Lemma NInv_udp s fly k i : NInv s fly -> u_so (udp s k) = Some i -> u_bound (udp s k) = true -> live_so s i /\ so_pcb (so s i) = Some (UdpPcb k).
Proof. intros (? & ? & ? & ? & ? & HN). apply (si_udp _ _ _ (ni_sock _ _ _ _ _ _ _ HN)). Qed.

Lemma NInv_owned s fly i : NInv s fly -> live_so s i -> owned s i.
Proof. intros (? & ? & ? & ? & ? & HN). apply (si_owned _ _ _ (ni_sock _ _ _ _ _ _ _ HN)). Qed.

(** Sockets that differ in their control blocks and state flags only. *)
Definition same_links s s' : Prop := forall j,
  so_signature (so s' j) = so_signature (so s j) /\ so_head (so s' j) = so_head (so s j) /\ so_q0 (so s' j) = so_q0 (so s j) /\
  so_q (so s' j) = so_q (so s j) /\ so_type (so s' j) = so_type (so s j) /\ so_rcv (so s' j) = so_rcv (so s j) /\ so_snd (so s' j) = so_snd (so s j).

Lemma pcb_post s s' fly : NInv s fly -> same_links s s' -> rest_same s s' ->
  (forall k j, t_so (tcp s' k) = Some j -> t_bound (tcp s' k) = true ->
     live_so s j /\ so_pcb (so s' j) = Some (TcpPcb k) /\ (t_state (tcp s' k) = TCPS_LISTEN -> is_head s j)) ->
  (forall k j, u_so (udp s' k) = Some j -> u_bound (udp s' k) = true -> live_so s j /\ so_pcb (so s' j) = Some (UdpPcb k)) ->
  (forall j, live_so s j -> owned s' j) -> (forall h k, so_pcb (so s h) = Some (TcpPcb k) -> exists k', so_pcb (so s' h) = Some (TcpPcb k')) -> post fly s s'.
Proof.
  intros (free & leaked & q & Q0 & Q & HN) Es Er Ht Hu Ho Hk. pose proof (ni_sock _ _ _ _ _ _ _ HN) as [A B C D O K].
  assert (El : forall j, live_so s' j <-> live_so s j) by (intros j; unfold live_so; by destruct (Es j) as (-> & _)).
  assert (Eh : forall j, is_head s' j <-> is_head s j) by (intros j; unfold is_head; by destruct (Es j) as (_ & -> & _)).
  apply (relink_post s s' fly free leaked q Q0 Q Q0 Q); [done| | |done| |].
  - split.
    + intros k j. rewrite El, Eh. apply Ht.
    + intros k j. rewrite El. apply Hu.
    + intros h. rewrite El, Eh. intros H1 H2. destruct (C h H1 H2) as (X1 & X2 & X3 & X4). destruct (Es h) as (_ & _ & -> & -> & _). split; [|split; [|split; [done|]]].
      * eapply lseg_frame; [|exact X1]. intros j _. by destruct (Es j) as (_ & _ & -> & _).
      * eapply lseg_frame; [|exact X2]. intros j _. by destruct (Es j) as (_ & _ & _ & -> & _).
      * intros j Hj. rewrite El. destruct (Es j) as (_ & -> & _). auto.
    + intros c' h. rewrite !El, Eh. destruct (Es c') as (_ & -> & _). apply D.
    + intros j. rewrite El. apply Ho.
    + intros h. rewrite El, Eh. intros H1 H2. destruct (K h H1 H2) as (K1 & K2 & K3). split; [|split].
      * intros j Hj. destruct (Es j) as (_ & _ & _ & _ & -> & _). auto.
      * intros j Hj. destruct (Es j) as (_ & _ & -> & _). auto.
      * destruct K3 as [K3|[k K3]]; [by left|right]. by eapply Hk.
  - intros c' h. rewrite El. destruct (Es c') as (_ & -> & _). apply (ni_kids _ _ _ _ _ _ _ HN).
  - intros j. by destruct (Es j) as (_ & _ & _ & _ & _ & -> & ->).
  - apply keeps_heads_same. intros j. by destruct (Es j) as (-> & -> & _ & _ & -> & _).
Qed.

Lemma same_links_upd s s' i f : (forall j, so s' j = if decide (j = i) then f (so s i) else so s j) ->
  (so_signature (f (so s i)) = so_signature (so s i) /\ so_head (f (so s i)) = so_head (so s i) /\ so_q0 (f (so s i)) = so_q0 (so s i) /\
   so_q (f (so s i)) = so_q (so s i) /\ so_type (f (so s i)) = so_type (so s i) /\ so_rcv (f (so s i)) = so_rcv (so s i) /\ so_snd (f (so s i)) = so_snd (so s i)) ->
  same_links s s'.
Proof. intros Es Hf j. rewrite Es. case_decide; [by subst|done]. Qed.

Lemma udp_attach_post s i k p fly : NInv s fly -> live_so s i -> so_pcb (so s i) = None -> so_type (so s i) = SOCK_DGRAM -> u_so (udp s k) = None ->
  u_so p = Some i -> u_bound p = false -> post fly s (upd_so i (fun o => o <| so_pcb := Some (UdpPcb k) |>) (upd_udp k (fun _ => p) s)).
Proof.
  intros HI Hl Hp Hty Hk Hpi Hpb. set (s' := upd_so i _ _).
  assert (Es : forall j, so s' j = if decide (j = i) then (so s i) <| so_pcb := Some (UdpPcb k) |> else so s j) by (intros j; unfold s'; by rewrite so_upd).
  assert (Eu : forall j, udp s' j = if decide (j = k) then p else udp s j) by (intros j; exact (udp_upd s k (fun _ => p) j)).
  apply pcb_post; [done| |done|..].
  - by apply (same_links_upd s s' i (fun o => o <| so_pcb := Some (UdpPcb k) |>)).
  - intros k' j H1 H2. destruct (NInv_tcp s fly k' j HI H1 H2) as (X1 & X2 & X3). rewrite Es, decide_False by congruence. done.
  - intros k' j. rewrite Eu. case_decide; [congruence|]. intros H1 H2. destruct (NInv_udp s fly k' j HI H1 H2) as (X1 & X2). rewrite Es, decide_False by congruence. done.
  - intros j Hj. pose proof (NInv_owned s fly j HI Hj) as Ho. unfold owned in *. rewrite Es. case_decide; [subst; cbn; by rewrite Eu, decide_True|].
    destruct (so_pcb (so s j)) as [[k'|k']|]; [|done|done]. rewrite Eu, decide_False; [done|]. intros ->. destruct Ho. congruence.
  - intros h k' H. exists k'. rewrite Es, decide_False; [done|congruence].
Qed.

Lemma tcp_attach_post s i k p fly : NInv s fly -> live_so s i -> so_pcb (so s i) = None -> so_type (so s i) = SOCK_STREAM -> t_so (tcp s k) = None ->
  t_so p = Some i -> t_bound p = false -> post fly s (upd_so i (fun o => o <| so_pcb := Some (TcpPcb k) |>) (upd_tcp k (fun _ => p) s)).
Proof.
  intros HI Hl Hp Hty Hk Hpi Hpb. set (s' := upd_so i _ _).
  assert (Es : forall j, so s' j = if decide (j = i) then (so s i) <| so_pcb := Some (TcpPcb k) |> else so s j) by (intros j; unfold s'; by rewrite so_upd).
  assert (Et : forall j, tcp s' j = if decide (j = k) then p else tcp s j) by (intros j; exact (tcp_upd s k (fun _ => p) j)).
  apply pcb_post; [done| |done|..].
  - by apply (same_links_upd s s' i (fun o => o <| so_pcb := Some (TcpPcb k) |>)).
  - intros k' j. rewrite Et. case_decide; [congruence|]. intros H1 H2. destruct (NInv_tcp s fly k' j HI H1 H2) as (X1 & X2 & X3). rewrite Es, decide_False by congruence. done.
  - intros k' j H1 H2. destruct (NInv_udp s fly k' j HI H1 H2) as (X1 & X2). rewrite Es, decide_False by congruence. done.
  - intros j Hj. pose proof (NInv_owned s fly j HI Hj) as Ho. unfold owned in *. rewrite Es. case_decide; [subst; cbn; by rewrite Et, decide_True|].
    destruct (so_pcb (so s j)) as [[k'|k']|]; [done| |done]. rewrite Et, decide_False; [done|]. intros ->. destruct Ho. congruence.
  - intros h k' H. rewrite Es. case_decide; [by exists k|by exists k'].
Qed.

(** The protocol fits the type of the socket. *)
Definition consistent (type proto : Z) : Prop := (proto = IPPROTO_UDP -> type = SOCK_DGRAM) /\ (proto = IPPROTO_TCP -> type = SOCK_STREAM \/ type = SOCK_DGRAM).

Lemma upd_so_twice s i f g : upd_so i g (upd_so i f s) = upd_so i (fun o => g (f o)) s.
Proof.
  unfold upd_so, fupd. cbn. f_equal. unfold so. cbn. by rewrite lookup_total_insert_eq, insert_insert_eq.
Qed.

Definition opened s (r : net * (chimera_error * option nat)) : Prop :=
  post [] s r.1 /\ forall i, r.2.2 = Some i -> live_so r.1 i /\ is_head r.1 i.

Lemma socreate_post dom type proto s : NInv s [] -> consistent type proto -> opened s (socreate dom type proto s).
Proof.
  intros HI [C1 C2]. unfold socreate. destruct (_ && _); [split; [by apply post_refl|done]|]. destruct (free_socket s) as [i|] eqn:Ei; [|split; [by apply post_refl|done]].
  apply scan_spec in Ei as [Hi Hd]. assert (Hdead : ~ live_so s i) by (intros [_ Hs]; rewrite Hs, Z.eqb_refl in Hd; done).
  set (s1 := upd_so i _ s). assert (Hp1 : post [] s s1) by (by apply slot_post). pose proof (po_inv _ _ _ Hp1) as HI1.
  assert (E1 : so s1 i = fresh_socket (i16 type) None) by (unfold s1; by rewrite so_upd, decide_True).
  assert (Hl1 : live_so s1 i) by (split; [done|]; by rewrite E1). assert (Hh1 : is_head s1 i) by (left; by rewrite E1).
  assert (Hfail : forall err, opened s (upd_so i (fun o => o <| so_signature := 0 |>) s1, (err, None))).
  { intros err. split; [|done]. unfold s1. cbn [fst]. rewrite upd_so_twice. by apply (slot_post s i ((fresh_socket (i16 type) None) <| so_signature := 0 |>)). }
  assert (Hok : forall s2, post [] s1 s2 -> opened s (s2, (CHIMERA_SUCCESS, Some i))).
  { intros s2 Hp2. split; [by eapply post_trans|]. intros j [= <-]. by destruct (po_heads _ _ _ Hp2 i Hl1 Hh1) as (? & ? & _). }
  destruct ((type =? SOCK_DGRAM) || (proto =? IPPROTO_UDP)) eqn:E2; [|destruct ((type =? SOCK_STREAM) || (proto =? IPPROTO_TCP)) eqn:E3; [|by apply Hok, post_refl]].
  - assert (type = SOCK_DGRAM) as -> by (apply orb_prop in E2 as [E2|E2]; apply Z.eqb_eq in E2; auto). unfold udp_attach.
    destruct (scan _ _) as [k|] eqn:Ek; [|by apply Hfail]. apply scan_spec in Ek as [_ Ek]. apply bool_decide_eq_true in Ek. apply Hok.
    apply udp_attach_post; try done; by rewrite E1.
  - assert (type = SOCK_STREAM) as -> by (apply orb_false_elim in E2 as [E2 _]; apply Z.eqb_neq in E2; apply orb_prop in E3 as [E3|E3]; apply Z.eqb_eq in E3; [done|]; destruct (C2 E3); done).
    unfold tcp_attach. destruct (scan _ _) as [k|] eqn:Ek; [|by apply Hfail]. apply scan_spec in Ek as [_ Ek]. apply bool_decide_eq_true in Ek. apply Hok.
    set (s2 := s1 <| s_iss_counter := _ |>). assert (Hp2 : post [] s1 s2) by (by apply post_other). eapply post_trans; [exact Hp2|].
    apply (tcp_attach_post s2 i k _ []); [apply Hp2|done|..]; try done; change (so s2 i) with (so s1 i); by rewrite E1.
Qed.

(** ** Binding, listening, detaching *)

Lemma udp_set_post s i k f fly : NInv s fly -> live_so s i -> so_pcb (so s i) = Some (UdpPcb k) -> u_so (f (udp s k)) = u_so (udp s k) -> post fly s (upd_udp k f s).
Proof.
  intros HI Hl Hp Hf. assert (Eu : forall j, udp (upd_udp k f s) j = if decide (j = k) then f (udp s k) else udp s j) by (intros; apply udp_upd).
  assert (Hk : u_so (udp s k) = Some i) by (pose proof (NInv_owned s fly i HI Hl) as Ho; unfold owned in Ho; rewrite Hp in Ho; apply Ho).
  apply pcb_post; [done|done|done|..].
  - intros k' j. apply (NInv_tcp s fly k' j HI).
  - intros k' j. rewrite Eu. case_decide; [|apply (NInv_udp s fly k' j HI)]. subst. rewrite Hf, Hk. intros [= <-] _. done.
  - intros j Hj. pose proof (NInv_owned s fly j HI Hj) as Ho. unfold owned in *. change (so (upd_udp k f s) j) with (so s j).
    destruct (so_pcb (so s j)) as [[k'|k']|]; [|done|done]. rewrite Eu. case_decide; [subst; by rewrite Hf|done].
  - eauto.
Qed.

Lemma tcp_set_post s i k f fly : NInv s fly -> live_so s i -> is_head s i -> so_pcb (so s i) = Some (TcpPcb k) -> t_so (f (tcp s k)) = t_so (tcp s k) -> post fly s (upd_tcp k f s).
Proof.
  intros HI Hl Hh Hp Hf. assert (Et : forall j, tcp (upd_tcp k f s) j = if decide (j = k) then f (tcp s k) else tcp s j) by (intros; apply tcp_upd).
  assert (Hk : t_so (tcp s k) = Some i) by (pose proof (NInv_owned s fly i HI Hl) as Ho; unfold owned in Ho; rewrite Hp in Ho; apply Ho).
  apply pcb_post; [done|done|done|..].
  - intros k' j. rewrite Et. case_decide; [|apply (NInv_tcp s fly k' j HI)]. subst. rewrite Hf, Hk. intros [= <-] _. done.
  - intros k' j. apply (NInv_udp s fly k' j HI).
  - intros j Hj. pose proof (NInv_owned s fly j HI Hj) as Ho. unfold owned in *. change (so (upd_tcp k f s) j) with (so s j).
    destruct (so_pcb (so s j)) as [[k'|k']|]; [done| |done]. rewrite Et. case_decide; [subst; by rewrite Hf|done].
  - eauto.
Qed.

(** A call on an open socket. *)
Definition on_open s (i : nat) : Prop := NInv s [] /\ live_so s i /\ is_head s i.

Lemma pcb_dgram s i : on_open s i -> so_type (so s i) = SOCK_DGRAM -> so_pcb (so s i) = None \/ exists k, so_pcb (so s i) = Some (UdpPcb k).
Proof.
  intros (HI & Hl & _) Hty. pose proof (NInv_owned s [] i HI Hl) as Ho. unfold owned in Ho. destruct (so_pcb (so s i)) as [[k|k]|]; [eauto| |by left].
  destruct Ho as [Ho _]. rewrite Hty in Ho. done.
Qed.

Lemma pcb_stream s i : on_open s i -> so_type (so s i) = SOCK_STREAM -> so_pcb (so s i) = None \/ exists k, so_pcb (so s i) = Some (TcpPcb k).
Proof.
  intros (HI & Hl & _) Hty. pose proof (NInv_owned s [] i HI Hl) as Ho. unfold owned in Ho. destruct (so_pcb (so s i)) as [[k|k]|]; [|eauto|by left].
  destruct Ho as [Ho _]. rewrite Hty in Ho. done.
Qed.

Lemma on_open_post s s' i : on_open s i -> post [] s s' -> on_open s' i.
Proof. intros (HI & Hl & Hh) Hp. destruct (po_heads _ _ _ Hp i Hl Hh) as (? & ? & _). split; [apply Hp|done]. Qed.

Lemma udp_bind_safe s i sin : on_open s i -> so_type (so s i) = SOCK_DGRAM -> safe (udp_bind i sin s) (fun r => post [] s r.1).
Proof.
  intros Ho Hty. pose proof Ho as (HI & Hl & Hh). unfold udp_bind. destruct (pcb_dgram s i Ho Hty) as [Hp|[k Hp]]; rewrite Hp; [by apply post_refl|].
  destruct (ntohs (sin_port sin) =? 0).
  - set (s1 := s <| s_ephemeral_port ::= _ |>). assert (Hp1 : post [] s s1) by (by apply post_other). destruct (scan _ _); [done|].
    eapply post_trans; [exact Hp1|]. apply (udp_set_post s1 i k); [apply Hp1|done..].
  - destruct (scan _ _); [by apply post_refl|]. by apply (udp_set_post s i k).
Qed.

Lemma tcp_bind_safe s i sin : on_open s i -> so_type (so s i) = SOCK_STREAM -> safe (tcp_bind i sin s) (fun r => post [] s r.1).
Proof.
  intros Ho Hty. pose proof Ho as (HI & Hl & Hh). unfold tcp_bind. destruct (pcb_stream s i Ho Hty) as [Hp|[k Hp]]; rewrite Hp; [by apply post_refl|].
  destruct (ntohs (sin_port sin) =? 0).
  - set (s1 := s <| s_ephemeral_tcp_port ::= _ |>). assert (Hp1 : post [] s s1) by (by apply post_other). destruct (scan _ _); [done|].
    eapply post_trans; [exact Hp1|]. apply (tcp_set_post s1 i k); [apply Hp1|done..].
  - destruct (scan _ _); [by apply post_refl|]. by apply (tcp_set_post s i k).
Qed.

Lemma sobind_safe s i sin : on_open s i -> safe (sobind i sin s) (fun r => post [] s r.1).
Proof.
  intros Ho. unfold sobind. destruct (negb _); [by apply post_refl, Ho|]. destruct (_ =? SOCK_DGRAM) eqn:E1; [apply Z.eqb_eq in E1; by apply udp_bind_safe|].
  destruct (_ =? SOCK_STREAM) eqn:E2; [apply Z.eqb_eq in E2; by apply tcp_bind_safe|]. by apply post_refl, Ho.
Qed.

(** A socket that becomes a listening head. *)
Lemma listen_post s i f fly : NInv s fly -> live_so s i -> is_head s i ->
  (forall o, so_signature (f o) = so_signature o /\ so_pcb (f o) = so_pcb o /\ so_head (f o) = Some i /\ so_q0 (f o) = so_q0 o /\ so_q (f o) = so_q o /\
     so_type (f o) = so_type o /\ so_rcv (f o) = so_rcv o /\ so_snd (f o) = so_snd o) -> post fly s (upd_so i f s).
Proof.
  intros (free & leaked & q & Q0 & Q & HN) Hl Hh Hf. pose proof (ni_sock _ _ _ _ _ _ _ HN) as [A B C D O K]. set (s' := upd_so i f s).
  assert (Es : forall j, so s' j = if decide (j = i) then f (so s i) else so s j) by (intros; apply so_upd).
  assert (Ef : forall j, so_signature (so s' j) = so_signature (so s j) /\ so_pcb (so s' j) = so_pcb (so s j) /\ so_q0 (so s' j) = so_q0 (so s j) /\ so_q (so s' j) = so_q (so s j) /\
     so_type (so s' j) = so_type (so s j) /\ so_rcv (so s' j) = so_rcv (so s j) /\ so_snd (so s' j) = so_snd (so s j)).
  { intros j. rewrite Es. case_decide; [|done]. subst. by destruct (Hf (so s i)) as (-> & -> & _ & -> & -> & -> & -> & ->). }
  assert (Ehd : forall j, j ≠ i -> so_head (so s' j) = so_head (so s j)) by (intros j Hj; by rewrite Es, decide_False).
  assert (Ehi : so_head (so s' i) = Some i) by (rewrite Es, decide_True by done; by destruct (Hf (so s i)) as (_ & _ & -> & _)).
  assert (El : forall j, live_so s' j <-> live_so s j) by (intros j; unfold live_so; by destruct (Ef j) as (-> & _)).
  assert (Eh : forall j, is_head s' j <-> is_head s j).
  { intros j. destruct (decide (j = i)) as [->|Hj]; [split; intros _; [done|by right]|]. unfold is_head. by rewrite Ehd. }
  apply (relink_post s s' fly free leaked q Q0 Q Q0 Q); [done| | |done| |].
  - split.
    + intros k j. rewrite El, Eh. destruct (Ef j) as (_ & -> & _). apply A.
    + intros k j. rewrite El. destruct (Ef j) as (_ & -> & _). apply B.
    + intros h. rewrite El, Eh. intros H1 H2. destruct (C h H1 H2) as (X1 & X2 & X3 & X4). destruct (Ef h) as (_ & _ & -> & -> & _). split; [|split; [|split; [done|]]].
      * eapply lseg_frame; [|exact X1]. intros j _. by destruct (Ef j) as (_ & _ & -> & _).
      * eapply lseg_frame; [|exact X2]. intros j _. by destruct (Ef j) as (_ & _ & _ & -> & _).
      * intros j Hj. destruct (X4 j Hj) as (Y1 & Y2 & Y3). rewrite El, Ehd; [done|]. intros ->. destruct Hh; congruence.
    + intros c' h. rewrite !El, Eh. intros H1 H2 H3. destruct (decide (c' = i)) as [->|Hc]; [congruence|]. rewrite Ehd in H2 by done. by apply (D c').
    + intros j. rewrite El. intros Hj. specialize (O j Hj). unfold owned in *. by destruct (Ef j) as (_ & -> & _ & _ & -> & _).
    + intros h. rewrite El, Eh. intros H1 H2. destruct (K h H1 H2) as (K1 & K2 & K3). split; [|split].
      * intros j Hj. destruct (Ef j) as (_ & _ & _ & _ & -> & _). auto.
      * intros j Hj. destruct (Ef j) as (_ & _ & -> & _). auto.
      * by destruct (Ef h) as (_ & -> & _).
  - intros c' h. rewrite El. intros H1 H2 H3. destruct (decide (c' = i)) as [->|Hc]; [congruence|]. rewrite Ehd in H2 by done. by apply (ni_kids _ _ _ _ _ _ _ HN).
  - intros j. by destruct (Ef j) as (_ & _ & _ & _ & _ & -> & ->).
  - intros j. destruct (Ef j) as (_ & _ & _ & _ & -> & _). by rewrite El, Eh.
Qed.

Lemma solisten_safe s i backlog : on_open s i -> safe (solisten i backlog s) (fun r => post [] s r.1).
Proof.
  intros Ho. unfold solisten. destruct (_ =? SOCK_STREAM) eqn:E1; cbn [negb]; [apply Z.eqb_eq in E1|by apply post_refl, Ho]. set (f := fun o : socket => _).
  assert (Hp1 : post [] s (upd_so i f s)) by (destruct Ho as (? & ? & ?); by apply listen_post). set (s1 := upd_so i f s) in *.
  assert (Ep : so_pcb (so s1 i) = so_pcb (so s i)) by (unfold s1; by rewrite so_upd, decide_True). pose proof (on_open_post _ _ _ Ho Hp1) as (HI1 & Hl1 & Hh1).
  unfold tcp_listen. rewrite Ep. destruct (pcb_stream s i Ho E1) as [Hp|[k Hp]]; rewrite Hp; [done|]. destruct (negb _); [done|].
  eapply post_trans; [exact Hp1|]. apply (tcp_set_post s1 i k); try done. by rewrite Ep.
Qed.

(** ** Accepting *)

Definition accepted s (i conn : nat) : net :=
  let s := upd_so i (fun o => o <| so_q := so_q (so s conn) |>) s in
  let s := upd_so conn (fun o => o <| so_q := None |> <| so_head := None |>) s in
  upd_so i (fun o => o <| so_qlen ::= fun n => if 0 <? n then n - 1 else n |>) s.

Lemma accepted_fields s i conn j : conn ≠ i -> let o := so (accepted s i conn) j in
  so_q o = (if decide (j = conn) then None else if decide (j = i) then so_q (so s conn) else so_q (so s j)) /\
  so_head o = (if decide (j = conn) then None else so_head (so s j)) /\
  so_signature o = so_signature (so s j) /\ so_pcb o = so_pcb (so s j) /\ so_q0 o = so_q0 (so s j) /\
  so_rcv o = so_rcv (so s j) /\ so_snd o = so_snd (so s j) /\ so_type o = so_type (so s j).
Proof. intros Hne. cbn. unfold accepted. socks. Qed.

Section Accept.
Context (s : net) (i conn : nat) (l : list nat) (Q0 Q : nat -> list nat).
Hypotheses (HS : sock_inv s Q0 Q) (Hl : live_so s i) (Hh : is_head s i) (HQ : Q i = conn :: l).

Let s' := accepted s i conn.

Lemma conn_facts : live_so s conn /\ so_head (so s conn) = Some i /\ conn ≠ i /\ conn ∉ Q0 i ++ l /\ so_q0 (so s conn) = None /\ ~ is_head s conn.
Proof.
  destruct (si_heads _ _ _ HS i Hl Hh) as (_ & _ & X3 & X4). destruct (si_kids _ _ _ HS i Hl Hh) as (_ & K2 & _). rewrite HQ in *.
  destruct (X4 conn) as (Y1 & Y2 & Y3); [set_solver|]. split_and!; try done.
  - apply NoDup_app in X3 as (_ & X3 & X5). apply NoDup_cons in X5 as [X5 _]. intros [Hx|Hx]%elem_of_app; [|done]. apply (X3 conn Hx). left.
  - apply K2. left.
  - unfold is_head. rewrite Y2. intros [?|?]; congruence.
Qed.

Lemma accepted_live j : live_so s' j <-> live_so s j.
Proof. destruct conn_facts as (_ & _ & Hne & _). unfold live_so, s'. by destruct (accepted_fields s i conn j Hne) as (_ & _ & -> & _). Qed.

Lemma accepted_head j : is_head s' j <-> j = conn \/ is_head s j.
Proof.
  destruct conn_facts as (_ & _ & Hne & _). unfold is_head, s'. destruct (accepted_fields s i conn j Hne) as (_ & -> & _). case_decide; [|naive_solver].
  split; [by left|]. intros _. by left.
Qed.

Lemma accepted_sock : sock_inv s' (<[conn := []]> Q0) (<[conn := []]> (<[i := l]> Q)).
Proof.
  pose proof HS as [A B C D O K]. destruct conn_facts as (Lc & Hc & Hne & Hni & Hq0 & Hnh). pose proof (fun j => accepted_fields s i conn j Hne) as F. cbv zeta in F. fold s' in F.
  assert (Hno : forall h, live_so s h -> is_head s h -> forall j, j ∈ Q0 h ++ Q h -> j ≠ i /\ (h ≠ i -> j ≠ conn)).
  { intros h H1 H2 j Hj. destruct (C h H1 H2) as (_ & _ & _ & X4). destruct (X4 j Hj) as (_ & Y2 & Y3). split; intros; intros ->; [destruct Hh; congruence|congruence]. }
  split.
  - intros k j H1 H2. destruct (A k j H1 H2) as (X1 & X2 & X3). rewrite accepted_live, accepted_head. destruct (F j) as (_ & _ & _ & -> & _). split_and!; auto.
  - intros k j H1 H2. rewrite accepted_live. destruct (F j) as (_ & _ & _ & -> & _). auto.
  - intros h. rewrite accepted_live, accepted_head. intros H1 [-> | H2].
    { rewrite !fn_lookup_insert. destruct (F conn) as (-> & _ & _ & _ & -> & _). rewrite decide_True, Hq0 by done. split_and!; [done|done|constructor|]. intros c Hx. by apply not_elem_of_nil in Hx. }
    assert (h ≠ conn) by congruence. rewrite !(fn_lookup_insert_ne _ conn) by done. destruct (C h H1 H2) as (X1 & X2 & X3 & X4). destruct (F h) as (-> & _ & _ & _ & -> & _). rewrite decide_False by done.
    assert (E0 : chain (fun x => so_q0 (so s' x)) (so_q0 (so s h)) (Q0 h)) by (eapply lseg_frame; [|exact X1]; intros j _; by destruct (F j) as (_ & _ & _ & _ & -> & _)).
    destruct (decide (h = i)) as [->|Hi].
    + rewrite fn_lookup_insert. rewrite HQ in *. split; [done|]. split; [|split].
      * destruct X2 as [_ X2]. eapply lseg_frame; [|exact X2]. intros j Hj. destruct (F j) as (-> & _). rewrite !decide_False; [done|apply (Hno i Hl Hh j); rewrite HQ; set_solver|intros ->; set_solver].
      * clear - X3. apply NoDup_app in X3 as (Y1 & Y2 & Y3). apply NoDup_cons in Y3 as [_ Y3]. apply NoDup_app. set_solver.
      * intros j Hj. destruct (X4 j) as (Y1 & Y2 & Y3); [set_solver|]. rewrite accepted_live. destruct (F j) as (_ & -> & _). rewrite decide_False; [done|]. by intros ->.
    + rewrite fn_lookup_insert_ne by done. split; [done|]. split; [|split; [done|]].
      * eapply lseg_frame; [|exact X2]. intros j Hj. destruct (Hno h H1 H2 j) as [N1 N2]; [set_solver|]. destruct (F j) as (-> & _). by rewrite !decide_False by auto.
      * intros j Hj. destruct (Hno h H1 H2 j Hj) as [N1 N2]. rewrite accepted_live. destruct (F j) as (_ & -> & _). rewrite decide_False by auto. auto.
  - intros c h. rewrite !accepted_live, accepted_head. destruct (F c) as (_ & -> & _). case_decide; [done|]. intros H1 H2 H3. destruct (D c h H1 H2 H3). auto.
  - intros j. rewrite accepted_live. intros Hj. specialize (O j Hj). unfold owned in *. by destruct (F j) as (_ & _ & _ & -> & _ & _ & _ & ->).
  - intros h. rewrite accepted_live, accepted_head. intros H1 [-> | H2].
    { rewrite !fn_lookup_insert. split; [|split; [|by left]]; intros c Hx; by apply not_elem_of_nil in Hx. }
    assert (h ≠ conn) by congruence. rewrite !(fn_lookup_insert_ne _ conn) by done. destruct (K h H1 H2) as (K1 & K2 & K3).
    assert (Hsub : forall c, c ∈ (<[i := l]> Q) h -> c ∈ Q h) by (intros c; destruct (decide (h = i)) as [->|]; [rewrite fn_lookup_insert, HQ; by right|by rewrite fn_lookup_insert_ne]).
    split; [|split].
    + intros c Hx. destruct (F c) as (_ & _ & _ & _ & _ & _ & _ & ->). apply K1. set_solver.
    + intros c Hx. destruct (F c) as (_ & _ & _ & _ & -> & _). auto.
    + destruct (F h) as (_ & _ & _ & -> & _). destruct K3 as [K3|K3]; [left|by right]. apply app_eq_nil in K3 as [-> K3]. cbn.
      destruct ((<[i := l]> Q) h) as [|c r] eqn:Eq; [done|]. specialize (Hsub c). rewrite K3 in Hsub. exfalso. eapply not_elem_of_nil, Hsub. left.
Qed.
End Accept.

Lemma soaccept_post s i : on_open s i -> opened s (soaccept i s).
Proof.
  intros ((free & leaked & q & Q0 & Q & HN) & Hl & Hh). pose proof (ni_sock _ _ _ _ _ _ _ HN) as HS. destruct (si_heads _ _ _ HS i Hl Hh) as (_ & X2 & _ & _).
  unfold soaccept. destruct (Q i) as [|conn l] eqn:EQ; [rewrite X2; split; [apply post_refl; by eexists _, _, _, _, _|done]|]. destruct X2 as [X2 _]. rewrite X2. fold (accepted s i conn).
  destruct (conn_facts s i conn l Q0 Q HS Hl Hh EQ) as (Lc & Hc & Hne & _ & _ & Hnh). pose proof (fun j => accepted_fields s i conn j Hne) as F. cbv zeta in F.
  pose proof (accepted_live s i conn l Q0 Q HS Hl Hh EQ) as El. pose proof (accepted_head s i conn l Q0 Q HS Hl Hh EQ) as Eh.
  split; [|intros j [= <-]; cbn [fst]; rewrite El, Eh; auto].
  eapply (relink_post _ _ _ _ _ _ _ _ _ _ HN (accepted_sock s i conn l Q0 Q HS Hl Hh EQ)); [|done|..].
  - intros c h. rewrite El. destruct (F c) as (_ & -> & _). case_decide as Ec; [done|]. intros H1 H2 H3. pose proof (ni_kids _ _ _ _ _ _ _ HN c h H1 H2 H3) as Hin.
    destruct (si_child _ _ _ HS c h H1 H2 H3) as [_ Hhh]. assert (h ≠ conn) by (by intros ->). rewrite !(fn_lookup_insert_ne _ conn) by done.
    destruct (decide (h = i)) as [->|]; [rewrite fn_lookup_insert; rewrite EQ in Hin; set_solver|by rewrite fn_lookup_insert_ne].
  - intros j. by destruct (F j) as (_ & _ & _ & _ & _ & -> & -> & _).
  - intros j H1 H2. cbn [fst]. rewrite El, Eh. destruct (F j) as (_ & _ & _ & _ & _ & _ & _ & ->). auto.
Qed.

Lemma soshutdown_post s i how : on_open s i -> post [] s (soshutdown i how s).
Proof.
  intros (HI & _). unfold soshutdown. set (s1 := if _ || (how =? 2) then _ else s). assert (Hp : post [] s s1) by (unfold s1; destruct (_ || _); [by apply post_so|by apply post_refl]).
  clearbody s1. destruct ((how =? 1) || _); [|done]. eapply post_trans; [exact Hp|]. apply post_so; [apply Hp|done..].
Qed.

(** ** Sending and connecting *)

Section Calls.
Context (c : calls) (Hc : calls_ok c).

Lemma udp_sendto_safe s i data dest : on_open s i -> so_type (so s i) = SOCK_DGRAM -> safe (udp_sendto c i data dest s) (fun r => post [] s r.1).
Proof.
  intros Ho Hty. pose proof Ho as (HI & _). unfold udp_sendto. destruct (pcb_dgram s i Ho Hty) as [Hp|[k Hp]]; rewrite Hp; [by apply post_refl|].
  destruct (1472 <? _) eqn:El; [by apply post_refl|]. apply Z.ltb_ge in El. eapply (safe_bind _ _ (post [] s)).
  { destruct (u_bound _); [by apply post_refl|]. apply unit_safe. by apply udp_bind_safe. }
  intros s1 Hp1. pose proof (po_inv _ _ _ Hp1) as HI1.
  set (l := udp_bytes {| uh_sport := htons (u_local_port (udp s1 k)); uh_dport := sin_port dest; uh_ulen := htons (u16 (8 + Z.of_nat (length data))); uh_sum := 0 |} ++ data).
  assert (Hlen : Z.of_nat (length l) = 8 + Z.of_nat (length data)) by (unfold l; rewrite app_length; change (length (udp_bytes _)) with 8%nat; lia).
  pose proof (build_spec (m_getcl MT_DATA) (cl_buf MT_DATA) 2048 s1 [] l (m_getcl_spec _) (cl_empty _) HI1 ltac:(lia)) as Hb.
  destruct (lift (m_getcl MT_DATA) s1) as [s2 [m|]]; [|by subst]. destruct Hb as (Es & Ew & HI2 & Hs2 & Hn).
  assert (Eu : udp s2 k = udp s1 k) by (by rewrite Es). rewrite Eu. fold l. rewrite Ew. cbn [mbind res_bind]. rewrite <- Hlen. cbv zeta.
  eapply safe_near_pair; [by eapply post_near|]. eapply safe_near_pair; [exact Hn|]. apply (co_ip c Hc _ _ [m]); [done|by apply packet_single].
Qed.

Lemma tcp_send_loop_safe n k data s : NInv s [] -> (length data <= n)%nat -> safe (tcp_send_loop c n k data s) (fun r => post [] s r.1).
Proof.
  revert data s. induction n as [|n IH]; intros data s HI Hn; destruct data as [|x data]; try (by apply post_refl); [cbn in Hn; lia|].
  cbn [tcp_send_loop]. eapply safe_bind; [by apply tcp_send_packet_safe|]. intros [s1 err] Hp. cbn [fst] in Hp. destruct (succeeded err); [|done].
  eapply safe_near_pair; [by eapply post_near|]. apply IH; [apply Hp|]. rewrite length_drop. cbn in *. lia.
Qed.

Lemma sosend_safe s i addr data : on_open s i -> safe (sosend c i addr data s) (fun r => post [] s r.1).
Proof.
  intros Ho. pose proof Ho as (HI & _). unfold sosend. destruct (_ =? SOCK_DGRAM) eqn:E1; [apply Z.eqb_eq in E1; destruct addr; [by apply udp_sendto_safe|by apply post_refl]|].
  destruct (_ =? SOCK_STREAM) eqn:E2; [|by apply post_refl]. apply Z.eqb_eq in E2. unfold tcp_send. destruct (negb _); [by apply post_refl|].
  destruct (pcb_stream s i Ho E2) as [Hp|[k Hp]]; rewrite Hp; [by apply post_refl|by apply tcp_send_loop_safe].
Qed.

Lemma then_post s s' (r : res (net * chimera_error)) : post [] s s' -> safe r (fun x => post [] s' x.1) -> safe r (fun x => post [] s x.1).
Proof. intros Hp. apply safe_near_pair. by eapply post_near. Qed.

Lemma connect_loop_safe n k i s : NInv s [] -> safe (connect_loop c n k i s) (fun r => post [] s r.1).
Proof.
  revert s. induction n as [|n IH]; intros s HI; cbn [connect_loop].
  { cbn [safe fst]. set (s1 := upd_so i _ s). assert (Hp : post [] s s1) by (by apply post_so). eapply post_trans; [exact Hp|]. apply post_tcp; [apply Hp|done]. }
  eapply safe_bind; [by apply e1000_poll_rx_safe|]. intros s1 Hp1. apply (then_post _ _ _ Hp1). pose proof (po_inv _ _ _ Hp1) as HI1. clear s HI Hp1.
  case_bool_decide; [by apply post_so|]. eapply (safe_bind _ _ (post [] s1)); [|intros s2 Hp2; apply (then_post _ _ _ Hp2), IH, Hp2].
  destruct (_ && _); [|by apply post_refl]. set (s2 := upd_tcp k _ s1). assert (Hp2 : post [] s1 s2) by (by apply post_tcp).
  apply unit_safe, (then_post _ _ _ Hp2), tcp_send_packet_safe, Hp2; done.
Qed.

Lemma soconnect_safe s i sin : on_open s i -> safe (soconnect c i sin s) (fun r => post [] s r.1).
Proof.
  intros Ho. pose proof Ho as (HI & _). unfold soconnect. destruct (negb _); [by apply post_refl|]. destruct (_ =? SOCK_STREAM) eqn:E2; [|by apply post_refl]. apply Z.eqb_eq in E2.
  unfold tcp_connect. destruct (pcb_stream s i Ho E2) as [Hp|[k Hp]]; rewrite Hp; [by apply post_refl|]. eapply (safe_bind _ _ (post [] s)).
  { destruct (t_bound _); [by apply post_refl|]. by apply unit_safe, tcp_bind_safe. }
  intros s1 Hp1. apply (then_post _ _ _ Hp1). set (s2 := upd_tcp k _ s1). assert (Hp2 : post [] s1 s2) by (apply post_tcp; [apply Hp1|done]). apply (then_post _ _ _ Hp2).
  set (s3 := upd_so i _ s2). assert (Hp3 : post [] s2 s3) by (apply post_so; [apply Hp2|done..]). apply (then_post _ _ _ Hp3).
  eapply safe_bind; [apply unit_safe, tcp_send_packet_safe; [done|apply Hp3]|]. intros s4 Hp4. apply (then_post _ _ _ Hp4), connect_loop_safe, Hp4.
Qed.

(** ** Receiving *)

(** Only buffers and receive queues differ. *)
Definition rcv_only s s' : Prop :=
  (forall j, shape (so s' j) = shape (so s j)) /\ ifnets s' = ifnets s /\ rx_ring s' = rx_ring s /\ arrivals s' = arrivals s.

Lemma rcv_only_trans s1 s2 s3 : rcv_only s1 s2 -> rcv_only s2 s3 -> rcv_only s1 s3.
Proof. intros (A1 & A2 & A3 & A4) (B1 & B2 & B3 & B4). split_and!; [intros j; by rewrite B1|congruence..]. Qed.

Lemma rcv_only_post s s' : NInv s' [] -> rcv_only s s' -> post [] s s'.
Proof.
  intros HI (E1 & E2 & E3 & E4). split; [done|intros j Hj; by apply not_elem_of_nil in Hj|by apply same_ifs_refl|by apply rx_le_refl|].
  apply keeps_heads_same. intros j. by destruct (shape_eq _ _ (E1 j)) as (-> & _ & -> & _ & _ & ->).
Qed.

Lemma rcv_only_upd s i b f : rcv_only s (upd_so i (fun o => o <| so_rcv ::= f |>) (s <| bufs := b |>)).
Proof. split_and!; try done. intros j. rewrite so_upd. by case_decide; subst. Qed.

Lemma receive_copy_only n i m len acc s s' l : receive_copy n i m len acc s = Ret (s', l) -> rcv_only s s'.
Proof.
  revert m acc s. induction n as [|n IH]; intros m acc s; cbn [receive_copy]; destruct m as [x|]; try (by intros [= <- _]); destruct (len <=? _); try (by intros [= <- _]).
  destruct (read _ _ _ _) as [d|]; [|done]. cbn [mbind res_bind]. set (s1 := upd_so i _ _). assert (H1 : rcv_only s s1) by exact (rcv_only_upd s i _ _).
  destruct (_ =? 0); intros E; [|by eapply rcv_only_trans, IH]. apply IH in E. eapply rcv_only_trans; [exact H1|]. eapply rcv_only_trans; [|exact E]. exact (rcv_only_upd s1 i _ _).
Qed.

Lemma receive_poll_safe n i s : NInv s [] -> safe (receive_poll c n i s) (fun r => post [] s r.1).
Proof.
  revert s. induction n as [|n IH]; intros s HI; cbn [receive_poll]; [by apply post_refl|]. destruct (negb _); [by apply post_refl|].
  eapply safe_bind; [by apply e1000_poll_rx_safe|]. intros s1 Hp1. destruct (0 <? _); [done|]. destruct (has _ _); [done|].
  eapply safe_near_pair; [by eapply post_near|]. apply IH, Hp1.
Qed.

Lemma soreceive_safe s i len : on_open s i -> 0 <= len -> safe (soreceive c i len s) (fun r => post [] s r.1).
Proof.
  intros (HI & [Hi _] & _) Hlen. unfold soreceive. eapply safe_bind; [by apply receive_poll_safe|]. intros [s1 eof] Hp1. cbn [fst] in Hp1. destruct eof; [done|].
  destruct (sb_mb _) as [m|] eqn:Em; [|done]. eapply safe_near_pair; [by eapply post_near|]. destruct (po_inv _ _ _ Hp1) as (free & leaked & q & Q0 & Q & HN).
  assert (HQ : NQ s1 [] q (length free)) by (by exists free, leaked, Q0, Q).
  destruct (receive_copy_spec len i (q i) Hi CHAIN s1 q (length free) [] HQ eq_refl) as (s2 & q2 & E & (n2 & H2) & _); [pose proof (queue_room _ _ _ _ HQ Hi); unfold CHAIN; lia|done|].
  rewrite <- Em, E. cbn [mbind res_bind safe fst]. apply rcv_only_post; [by eapply NQ_NInv|by eapply receive_copy_only].
Qed.
End Calls.

(** ** Closing *)

Lemma udp_detach_safe s i : on_open s i -> so_type (so s i) = SOCK_DGRAM -> safe (udp_detach i s) (fun s' => post [] s s' /\ so_pcb (so s' i) = None).
Proof.
  intros Ho Hty. pose proof Ho as (HI & Hl & Hh). unfold udp_detach. destruct (pcb_dgram s i Ho Hty) as [Hp|[k Hp]]; rewrite Hp; [split; [by apply post_refl|done]|].
  set (s' := upd_so i _ _). assert (Es : forall j, so s' j = if decide (j = i) then (so s i) <| so_pcb := None |> else so s j) by (intros; apply (so_upd (upd_udp k _ s))).
  assert (Eu : forall j, udp s' j = if decide (j = k) then (udp s k) <| u_so := None |> <| u_bound := false |> else udp s j) by (intros; exact (udp_upd s k _ j)).
  assert (Hk : u_so (udp s k) = Some i) by (pose proof (NInv_owned s [] i HI Hl) as Hw; unfold owned in Hw; rewrite Hp in Hw; apply Hw).
  split; [|by rewrite Es, decide_True]. apply pcb_post; [done|by eapply same_links_upd|done|..].
  - intros k' j H1 H2. destruct (NInv_tcp s [] k' j HI H1 H2) as (X1 & X2 & X3). rewrite Es, decide_False; [done|]. intros ->. congruence.
  - intros k' j. rewrite Eu. case_decide; [done|]. intros H1 H2. destruct (NInv_udp s [] k' j HI H1 H2) as (X1 & X2). rewrite Es, decide_False; [done|]. intros ->. congruence.
  - intros j Hj. pose proof (NInv_owned s [] j HI Hj) as Hw. unfold owned in *. rewrite Es. case_decide; [done|]. destruct (so_pcb (so s j)) as [[k'|k']|]; [|done|done].
    rewrite Eu, decide_False; [done|]. intros ->. destruct Hw. congruence.
  - intros h k' Hk'. rewrite Es. case_decide; [congruence|eauto].
Qed.

(** The effect of detaching the connections [l]. *)
Record detached (l : list nat) s s' : Prop := {
  dt_other : forall j, j ∉ l -> so s' j = so s j;
  dt_dead : forall j, j ∈ l -> so s' j = (so s j) <| so_signature := 0 |> <| so_pcb := None |>;
  dt_tcp : forall k, (tcp s' k = tcp s k /\ forall j, j ∈ l -> so_pcb (so s j) ≠ Some (TcpPcb k)) \/
                     (t_so (tcp s' k) = None /\ exists j, j ∈ l /\ so_pcb (so s j) = Some (TcpPcb k));
  dt_udp : s_udp_pcbs s' = s_udp_pcbs s;
  dt_rest : rest_same s s'
}.

Lemma detached_nil s : detached [] s s.
Proof. split; try done. - intros j Hj. by apply not_elem_of_nil in Hj. - intros k. left. split; [done|]. intros j Hj. by apply not_elem_of_nil in Hj. Qed.

Lemma detached_app l1 l2 s1 s2 s3 : (forall j, j ∈ l1 -> j ∉ l2) -> detached l1 s1 s2 -> detached l2 s2 s3 -> detached (l1 ++ l2) s1 s3.
Proof.
  intros Hd [A1 A2 A3 A4 A5] [B1 B2 B3 B4 B5].
  assert (E : forall j, j ∈ l2 -> so s2 j = so s1 j) by (intros j Hj; apply A1; intros Hj'; by apply (Hd j)). split.
  - intros j Hj. rewrite not_elem_of_app in Hj. by rewrite B1, A1 by apply Hj.
  - intros j [Hj|Hj]%elem_of_app; [by rewrite B1, A2 by auto|by rewrite B2, E].
  - intros k. destruct (A3 k) as [[X1 X2]|[X1 X2]], (B3 k) as [[Y1 Y2]|[Y1 (j & Y2 & Y3)]].
    + left. split; [congruence|]. intros j [Hj|Hj]%elem_of_app; [auto|]. rewrite <- E by done. auto.
    + right. split; [done|]. exists j. rewrite <- E by done. set_solver.
    + right. split; [congruence|]. destruct X2 as (j & X2 & X3). exists j. set_solver.
    + right. split; [done|]. destruct X2 as (j' & X2 & X3). exists j'. set_solver.
  - congruence.
  - destruct A5 as (? & ? & ? & ? & ?), B5 as (? & ? & ? & ? & ?). split_and!; congruence.
Qed.

Lemma detach_children_spec n next (l : list nat) m s : (forall o, next (o <| so_signature := 0 |> <| so_pcb := None |>) = next o) ->
  chain (fun j => next (so s j)) m l -> NoDup l -> (length l <= n)%nat ->
  (forall j, j ∈ l -> so_signature (so s j) = CHIMERA_SOCKET_MAGIC /\ forall k, so_pcb (so s j) ≠ Some (UdpPcb k)) ->
  exists s', detach_children n next m s = Ret s' /\ detached l s s'.
Proof.
  intros Hnext. revert n m s. induction l as [|i l IH]; intros n m s Hch Hnd Hn Hl.
  { cbn in Hch. subst. exists s. split; [by destruct n|apply detached_nil]. }
  destruct Hch as [-> Hch]. cbn in Hn. destruct n as [|n]; [lia|]. cbn [detach_children]. apply NoDup_cons in Hnd as [Hni Hnd]. destruct (Hl i) as [Hsig Hudp]; [left|].
  assert (Hstep : exists s0, (match so_pcb (so s i) with None => Ret s | Some (UdpPcb _) => Err Undefined
      | Some (TcpPcb k) => Ret (upd_so i (fun o => o <| so_pcb := None |>) (upd_tcp k (fun p => p <| t_so := None |> <| t_state := TCPS_CLOSED |>) s)) end) = Ret s0 /\ detached [i] s (so_free i s0)).
  { unfold so_free. destruct (so_pcb (so s i)) as [[k|k]|] eqn:Ep; [by destruct (Hudp k)| |]; eexists; (split; [reflexivity|]).
    - rewrite so_upd, decide_True by done. change (so_signature ?x =? ?y) with (so_signature (so s i) =? y). rewrite Hsig, Z.eqb_refl. cbn [negb]. rewrite upd_so_twice. split; try done.
      + intros j Hj. rewrite so_upd, decide_False; [done|set_solver].
      + intros j Hj%list_elem_of_singleton. subst. by rewrite so_upd, decide_True.
      + intros k'. change (tcp (upd_so i _ ?z) k') with (tcp z k'). rewrite tcp_upd. case_decide; subst; [right|left]; (split; [done|]); [exists i; set_solver|].
        intros j Hj%list_elem_of_singleton. subst. congruence.
    - rewrite Hsig, Z.eqb_refl. cbn [negb]. split; try done.
      + intros j Hj. rewrite so_upd, decide_False; [done|set_solver].
      + intros j Hj%list_elem_of_singleton. subst. by rewrite so_upd, decide_True.
      + intros k'. left. split; [done|]. intros j Hj%list_elem_of_singleton. subst. congruence. }
  destruct Hstep as (s0 & -> & Hd). cbn [mbind res_bind]. set (s1 := so_free i s0) in *.
  destruct (IH n (next (so s i)) s1) as (s' & E & Hd'); [|done|lia| |].
  - eapply lseg_frame; [|exact Hch]. intros j Hj. cbn. by rewrite (dt_other _ _ _ Hd) by set_solver.
  - intros j Hj. rewrite (dt_other _ _ _ Hd) by set_solver. apply Hl. by right.
  - exists s'. split; [done|]. apply (detached_app [i] l s s1 s'); [set_solver|done|done].
Qed.

Section Detach.
Context (s s' : net) (i k : nat) (Q0 Q : nat -> list nat).
Hypotheses (HS : sock_inv s Q0 Q) (HK : all_kids s Q0 Q) (Hl : live_so s i) (Hh : is_head s i) (Hp : so_pcb (so s i) = Some (TcpPcb k)).

Let L := Q0 i ++ Q i.

Hypotheses (Eo : forall j, j ∉ L -> j ≠ i -> so s' j = so s j)
  (Ei : so s' i = (so s i) <| so_pcb := None |> <| so_q0 := None |> <| so_q := None |> <| so_qlen := 0 |>)
  (Ed : forall j, j ∈ L -> so_signature (so s' j) = 0)
  (Et : forall k', (tcp s' k' = tcp s k' /\ k' ≠ k /\ forall j, j ∈ L -> so_pcb (so s j) ≠ Some (TcpPcb k')) \/
                   (t_so (tcp s' k') = None /\ (k' = k \/ exists j, j ∈ L /\ so_pcb (so s j) = Some (TcpPcb k'))))
  (Eu : s_udp_pcbs s' = s_udp_pcbs s).

Lemma detach_kid j : j ∈ L -> live_so s j /\ so_head (so s j) = Some i /\ j ≠ i /\ so_type (so s j) = SOCK_STREAM /\ ~ is_head s j /\ ~ live_so s' j.
Proof.
  intros Hj. destruct (si_heads _ _ _ HS i Hl Hh) as (_ & _ & _ & X4). destruct (X4 j Hj) as (Y1 & Y2 & Y3). split_and!; try done.
  - by apply (si_kids _ _ _ HS i Hl Hh).
  - unfold is_head. rewrite Y2. intros [?|?]; congruence.
  - intros [_ Hx]. rewrite Ed in Hx by done. done.
Qed.

Lemma detach_same j : live_so s' j -> j ≠ i -> j ∉ L /\ so s' j = so s j /\ live_so s j.
Proof.
  intros Hj Hn. assert (Hnl : j ∉ L) by (intros Hx; by apply (detach_kid j Hx)). split_and!; [done|by apply Eo|]. unfold live_so in *. by rewrite <- (Eo j Hnl Hn).
Qed.

Lemma detach_kept j : live_so s j -> j ∉ L -> live_so s' j /\ (is_head s j -> is_head s' j).
Proof. intros Hj Hn. unfold live_so, is_head in *. destruct (decide (j = i)) as [->|Hi]; [by rewrite Ei|by rewrite Eo]. Qed.

Lemma detach_sock : sock_inv s' (<[i := []]> Q0) (<[i := []]> Q).
Proof.
  pose proof HS as [A B C D O K]. split.
  - intros k' j H1 H2. destruct (Et k') as [(X1 & X2 & X3)|(X1 & _)]; [|congruence]. rewrite X1 in *. destruct (A k' j H1 H2) as (Y1 & Y2 & Y3).
    assert (Hn : j ∉ L) by (intros Hx; by apply (X3 j Hx)). destruct (detach_kept j Y1 Hn). rewrite Eo; [auto|done|congruence].
  - intros k' j. unfold udp. rewrite Eu. intros H1 H2. destruct (B k' j H1 H2) as (Y1 & Y2). assert (Hn : j ∉ L).
    { intros Hx. destruct (detach_kid j Hx) as (_ & _ & _ & Z4 & _). specialize (O j Y1). unfold owned in O. rewrite Y2, Z4 in O. by destruct O. }
    destruct (detach_kept j Y1 Hn). rewrite Eo; [auto|done|congruence].
  - intros h H1 H2. destruct (decide (h = i)) as [->|Hi].
    { rewrite !fn_lookup_insert, Ei. cbn. split_and!; [done|done|constructor|]. intros c Hx. by apply not_elem_of_nil in Hx. }
    rewrite !fn_lookup_insert_ne by done. destruct (detach_same h H1 Hi) as (N1 & N2 & N3). assert (N4 : is_head s h) by (unfold is_head in *; by rewrite <- N2). rewrite N2.
    destruct (C h N3 N4) as (X1 & X2 & X3 & X4). assert (Hx : forall j, j ∈ Q0 h ++ Q h -> j ∉ L /\ j ≠ i).
    { intros j Hj. destruct (X4 j Hj) as (Z1 & Z2 & Z3). split; [intros Hx; destruct (detach_kid j Hx) as (_ & ? & _); congruence|intros ->; destruct Hh; congruence]. }
    split; [|split; [|split; [done|]]].
    + eapply lseg_frame; [|exact X1]. intros j Hj. destruct (Hx j) as [? ?]; [set_solver|]. by rewrite Eo.
    + eapply lseg_frame; [|exact X2]. intros j Hj. destruct (Hx j) as [? ?]; [set_solver|]. by rewrite Eo.
    + intros j Hj. destruct (Hx j Hj), (X4 j Hj) as (Z1 & Z2 & Z3). destruct (detach_kept j Z1); [done|]. by rewrite Eo.
  - intros c h H1 H2 H3. assert (Hi : c ≠ i) by (intros ->; rewrite Ei in H2; destruct Hh as [E|E]; cbn in H2; congruence). destruct (detach_same c H1 Hi) as (N1 & N2 & N3). rewrite N2 in H2.
    destruct (D c h N3 H2 H3) as [Y1 Y2]. destruct (detach_kept h Y1); [intros Hx; by destruct (detach_kid h Hx) as (_ & _ & _ & _ & ? & _)|auto].
  - intros j H1. destruct (decide (j = i)) as [->|Hi]; [unfold owned; by rewrite Ei|]. destruct (detach_same j H1 Hi) as (N1 & N2 & N3). pose proof (O j N3) as Oj. unfold owned in *. rewrite N2.
    destruct (so_pcb (so s j)) as [[k'|k']|] eqn:Ep; [unfold udp in *; by rewrite Eu| |done]. destruct Oj as [Oj1 Oj2]. split; [done|]. destruct (Et k') as [(-> & _)|(_ & [-> | (c & Hc & Ec)])]; [done| |].
    + pose proof (O i Hl) as Oi. unfold owned in Oi. rewrite Hp in Oi. destruct Oi. congruence.
    + destruct (detach_kid c Hc) as (Lc & _). pose proof (O c Lc) as Oc. unfold owned in Oc. rewrite Ec in Oc. destruct Oc. assert (c = j) by congruence. by subst.
  - intros h H1 H2. destruct (decide (h = i)) as [->|Hi].
    { rewrite !fn_lookup_insert. split; [|split; [|by left]]; intros c Hx; by apply not_elem_of_nil in Hx. }
    rewrite !fn_lookup_insert_ne by done. destruct (detach_same h H1 Hi) as (N1 & N2 & N3). assert (N4 : is_head s h) by (unfold is_head in *; by rewrite <- N2). destruct (K h N3 N4) as (K1 & K2 & K3).
    destruct (C h N3 N4) as (_ & _ & _ & X4). assert (Hx : forall j, j ∈ Q0 h ++ Q h -> so s' j = so s j).
    { intros j Hj. destruct (X4 j Hj) as (Z1 & Z2 & Z3). apply Eo; [intros Hx; destruct (detach_kid j Hx) as (_ & ? & _); congruence|intros ->; destruct Hh; congruence]. }
    split; [|split; [|by rewrite N2]]; intros j Hj; rewrite Hx by set_solver; auto.
Qed.

Lemma detach_all_kids : all_kids s' (<[i := []]> Q0) (<[i := []]> Q).
Proof.
  intros c h H1 H2 H3. assert (Hi : c ≠ i) by (intros ->; rewrite Ei in H2; destruct Hh as [E|E]; cbn in H2; congruence). destruct (detach_same c H1 Hi) as (N1 & N2 & N3). rewrite N2 in H2.
  pose proof (HK c h N3 H2 H3) as Hin. destruct (decide (h = i)) as [->|]; [done|]. by rewrite !fn_lookup_insert_ne.
Qed.

Lemma detach_heads : keeps_heads s s'.
Proof.
  intros j H1 H2. assert (Hn : j ∉ L) by (intros Hx; by destruct (detach_kid j Hx) as (_ & _ & _ & _ & ? & _)). destruct (detach_kept j H1 Hn). split_and!; [done|auto|].
  destruct (decide (j = i)) as [->|]; [by rewrite Ei|by rewrite Eo].
Qed.
End Detach.

Lemma kid_not_udp s Q0 Q i j k : sock_inv s Q0 Q -> live_so s i -> is_head s i -> j ∈ Q0 i ++ Q i -> so_pcb (so s j) ≠ Some (UdpPcb k).
Proof.
  intros HS Hl Hh Hj E. destruct (si_heads _ _ _ HS i Hl Hh) as (_ & _ & _ & X4). destruct (X4 j Hj) as (Lj & _). pose proof (si_owned _ _ _ HS j Lj) as Ho.
  destruct (si_kids _ _ _ HS i Hl Hh) as (K1 & _). unfold owned in Ho. rewrite E, (K1 j Hj) in Ho. by destruct Ho.
Qed.

(** The two loops of [tcp_detach], in a state [s1] where the sockets are as in [s] but for [i]'s control block. *)
Lemma detach_both s s1 i Q0 Q : sock_inv s Q0 Q -> live_so s i -> is_head s i ->
  (forall j, so s1 j = if decide (j = i) then (so s i) <| so_pcb := None |> else so s j) ->
  exists s3, (s ← detach_children MAX_SOCKETS so_q0 (so_q0 (so s1 i)) s1; s ← detach_children MAX_SOCKETS so_q (so_q (so s i)) s;
    Ret (upd_so i (fun o => o <| so_q0 := None |> <| so_q := None |> <| so_qlen := 0 |>) s)) =
  Ret (upd_so i (fun o => o <| so_q0 := None |> <| so_q := None |> <| so_qlen := 0 |>) s3) /\ detached (Q0 i ++ Q i) s1 s3.
Proof.
  intros HS Hl Hh E1. assert (E1i : so s1 i = (so s i) <| so_pcb := None |>) by (by rewrite E1, decide_True).
  destruct (si_heads _ _ _ HS i Hl Hh) as (X1 & X2 & X3 & X4). apply NoDup_app in X3 as (N1 & N2 & N3).
  assert (Hlen : forall l, (forall j, j ∈ l -> j ∈ Q0 i ++ Q i) -> NoDup l -> (length l <= MAX_SOCKETS)%nat) by (intros l Hsub Hnd; apply (queue_length s); [|done]; intros j Hj; by apply X4, Hsub).
  assert (Hkid : forall j, j ∈ Q0 i ++ Q i -> so s1 j = so s j /\ so_signature (so s j) = CHIMERA_SOCKET_MAGIC /\ forall k, so_pcb (so s j) ≠ Some (UdpPcb k)).
  { intros j Hj. destruct (X4 j Hj) as ((_ & Y1) & Y2 & Y3). rewrite E1, decide_False by done. split_and!; [done|done|]. intros k'. by eapply kid_not_udp. }
  destruct (detach_children_spec MAX_SOCKETS so_q0 (Q0 i) (so_q0 (so s1 i)) s1) as (s2 & -> & D2); [done| |done|by apply Hlen; set_solver| |].
  { rewrite E1i. eapply lseg_frame; [|exact X1]. intros j Hj. cbn. destruct (Hkid j) as [-> _]; [set_solver|done]. }
  { intros j Hj. destruct (Hkid j) as (-> & ? & ?); [set_solver|done]. }
  assert (Hi0 : i ∉ Q0 i ++ Q i) by (intros Hx; by destruct (X4 i Hx) as (_ & _ & ?)). assert (E2i : so s2 i = so s1 i) by (apply (dt_other _ _ _ D2); set_solver).
  assert (E2 : forall j, j ∈ Q i -> so s2 j = so s j) by (intros j Hj; rewrite (dt_other _ _ _ D2) by (intros Hx; by apply (N2 j)); apply Hkid; set_solver).
  destruct (detach_children_spec MAX_SOCKETS so_q (Q i) (so_q (so s2 i)) s2) as (s3 & E3 & D3); [done| |done|by apply Hlen; set_solver| |].
  { rewrite E2i, E1i. eapply lseg_frame; [|exact X2]. intros j Hj. cbn. by rewrite E2. }
  { intros j Hj. rewrite E2 by done. apply Hkid. set_solver. }
  exists s3. cbn [mbind res_bind]. rewrite E3.
  split; [done|by eapply detached_app].
Qed.

Lemma tcp_detach_safe s i : on_open s i -> so_type (so s i) = SOCK_STREAM -> safe (tcp_detach i s) (fun s' => post [] s s' /\ so_pcb (so s' i) = None).
Proof.
  intros Ho Hty. pose proof Ho as (HI & Hl & Hh). unfold tcp_detach. destruct (pcb_stream s i Ho Hty) as [Hp|[k Hp]]; rewrite Hp; [split; [by apply post_refl|done]|].
  destruct HI as (free & leaked & q & Q0 & Q & HN). pose proof (ni_sock _ _ _ _ _ _ _ HN) as HS. pose proof (ni_kids _ _ _ _ _ _ _ HN) as HK. set (s1 := upd_so i _ _).
  assert (E1 : forall j, so s1 j = if decide (j = i) then (so s i) <| so_pcb := None |> else so s j) by (intros; exact (so_upd (upd_tcp k _ s) i _ j)).
  assert (T1 : forall j, tcp s1 j = if decide (j = k) then (tcp s k) <| t_so := None |> <| t_state := TCPS_CLOSED |> <| t_bound := false |> else tcp s j) by (intros; exact (tcp_upd s k _ j)).
  assert (E1i : so s1 i = (so s i) <| so_pcb := None |>) by (by rewrite E1, decide_True). rewrite (bool_decide_eq_true_2 (_ \/ _)) by (rewrite E1i; destruct Hh; auto).
  destruct (detach_both s s1 i Q0 Q HS Hl Hh E1) as (s3 & Er & D).
  refine (eq_ind_r (fun r => safe r _) _ Er). cbn [safe]. clear Er. set (s4 := upd_so i _ s3).
  assert (Hi0 : i ∉ Q0 i ++ Q i) by (intros Hx; by apply (si_heads _ _ _ HS i Hl Hh) in Hx as (_ & _ & ?)).
  assert (Hkid : forall j, j ∈ Q0 i ++ Q i -> so s1 j = so s j) by (intros j Hj; rewrite E1, decide_False; [done|by intros ->]).
  assert (E4 : forall j, so s4 j = if decide (j = i) then (so s3 i) <| so_q0 := None |> <| so_q := None |> <| so_qlen := 0 |> else so s3 j) by (intros; apply so_upd).
  assert (E4i : so s4 i = (so s i) <| so_pcb := None |> <| so_q0 := None |> <| so_q := None |> <| so_qlen := 0 |>) by (by rewrite E4, decide_True, (dt_other _ _ _ D), E1i by done).
  assert (Eo : forall j, j ∉ Q0 i ++ Q i -> j ≠ i -> so s4 j = so s j) by (intros j H1 H2; by rewrite E4, decide_False, (dt_other _ _ _ D), E1, decide_False by done).
  assert (Ed : forall j, j ∈ Q0 i ++ Q i -> so s4 j = (so s j) <| so_signature := 0 |> <| so_pcb := None |>).
  { intros j Hj. rewrite E4, decide_False by (by intros ->). rewrite (dt_dead _ _ _ D) by done. by rewrite Hkid. }
  assert (Ed0 : forall j, j ∈ Q0 i ++ Q i -> so_signature (so s4 j) = 0) by (intros j Hj; by rewrite Ed).
  assert (Et : forall k', (tcp s4 k' = tcp s k' /\ k' ≠ k /\ forall j, j ∈ Q0 i ++ Q i -> so_pcb (so s j) ≠ Some (TcpPcb k')) \/
                   (t_so (tcp s4 k') = None /\ (k' = k \/ exists j, j ∈ Q0 i ++ Q i /\ so_pcb (so s j) = Some (TcpPcb k')))).
  { intros k'. change (tcp s4 k') with (tcp s3 k'). destruct (dt_tcp _ _ _ D k') as [[Y1 Y2]|[Y1 (j & Y2 & Y3)]].
    - rewrite Y1, T1. case_decide; [right; auto|left]. split_and!; [done|done|]. intros j Hj. rewrite <- Hkid by done. auto.
    - right. split; [done|]. right. exists j. by rewrite <- Hkid. }
  assert (Eu : s_udp_pcbs s4 = s_udp_pcbs s) by exact (dt_udp _ _ _ D). split; [|by rewrite E4i].
  eapply relink_post; [exact HN|by eapply (detach_sock s s4 i k)|by eapply (detach_all_kids s s4 i)|exact (dt_rest _ _ _ D)| |by eapply (detach_heads s s4 i)].
  intros j. destruct (decide (j ∈ Q0 i ++ Q i)) as [Hj|Hj]; [by rewrite Ed|]. destruct (decide (j = i)) as [->|]; [by rewrite E4i|by rewrite Eo].
Qed.

(** *** Flushing and the end of a socket *)

Lemma flush_loop_safe n m l s held : NInv s (l ++ held) -> chain (nextpkt (bufs s)) m l -> (forall j, j ∈ l -> next (bufs s) j = None) -> (length l <= n)%nat ->
  safe (flush_loop n m s) (fun s' => post held s s' /\ s_socket_pool s' = s_socket_pool s).
Proof.
  revert n m s. induction l as [|i l IH]; intros n m s HI Hch Hn Hlen; [cbn in Hch; subst; destruct n; (split; [by apply post_refl|done])|].
  destruct Hch as [-> Hch]. cbn in Hlen. destruct n as [|n]; [lia|]. cbn [flush_loop].
  eapply (safe_bind _ _ (fun s1 => post (l ++ held) s s1 /\ s_socket_pool s1 = s_socket_pool s)).
  { pose proof (free_one s i (l ++ held) HI (Hn i ltac:(left))) as Hf. unfold freem_net, on_bufs in *. by destruct (m_freem _ _). }
  intros s1 [Hp1 E1]. pose proof (po_agree _ _ _ Hp1) as Ha. eapply safe_mono; [apply (IH n (nextpkt (bufs s) i) s1); [apply Hp1| | |lia]|].
  - eapply lseg_frame; [|exact Hch]. intros j Hj. unfold nextpkt. by rewrite Ha by set_solver.
  - intros j Hj. unfold next. rewrite Ha by set_solver. apply Hn. by right.
  - intros s2 [Hp2 E2]. split; [|congruence]. eapply near_post; [|exact Hp2]. eapply post_near; [exact Hp1|set_solver].
Qed.

Lemma near_rcv s i f : near [] s (upd_so i (fun o => o <| so_rcv ::= f |>) s).
Proof.
  split; [intros j Hj; by apply not_elem_of_nil in Hj|by apply same_ifs_refl|by apply rx_le_refl|]. apply keeps_heads_same. intros j. rewrite so_upd. by case_decide; subst.
Qed.

Lemma sbflush_rcv_safe s i : NInv s [] -> (i < MAX_SOCKETS)%nat -> safe (sbflush_rcv i s) (fun s' => post [] s s' /\ so_pcb (so s' i) = so_pcb (so s i)).
Proof.
  intros (free & leaked & q & Q0 & Q & HN) Hi. unfold sbflush_rcv. set (s1 := upd_so i _ s). pose proof (ni_queue _ _ _ _ _ _ _ HN i Hi) as Hq.
  assert (HN1 : net_inv s1 (q i) free leaked (<[i := []]> q) Q0 Q).
  { assert (E1 : s1 = (with_rcv s i (empty_sb (so_rcv (so s i)))) <| bufs := bufs s |>) by (symmetry; apply (net_eta_bufs s1)). rewrite E1. eapply net_queue; [exact HN|done| |split; [done|done|intros j Hj; by apply not_elem_of_nil in Hj|done]|done].
    eapply pool_perm; [apply (ni_pool _ _ _ _ _ _ _ HN)|]. cbn [app]. rewrite app_assoc, (Permutation_app_comm (q i)). by rewrite (queued_put q i [] Hi). }
  assert (Hlen : (length (q i) <= CHAIN)%nat).
  { pose proof (pool_length _ _ _ (ni_pool _ _ _ _ _ _ _ HN1)) as Hl. rewrite !app_length in Hl. unfold CHAIN. lia. }
  assert (HI1 : NInv s1 (q i ++ [])) by (rewrite app_nil_r; by eexists _, _, _, _, _).
  eapply safe_mono; [eapply (flush_loop_safe CHAIN _ (q i) s1 [] HI1); [apply (qu_chain _ _ _ Hq)|apply (qu_single _ _ _ Hq)|done]|].
  intros s2 [Hp E]. split; [eapply near_post; [apply near_rcv|exact Hp]|]. unfold so at 1. rewrite E. change (so_pcb (so s1 i) = so_pcb (so s i)). unfold s1. by rewrite so_upd, decide_True.
Qed.

Lemma sbflush_snd_safe s i : NInv s [] -> safe (sbflush_snd i s) (fun s' => post [] s s' /\ so_pcb (so s' i) = so_pcb (so s i)).
Proof.
  intros HI. pose proof HI as (free & leaked & q & Q0 & Q & HN). unfold sbflush_snd. pose proof (ni_snd _ _ _ _ _ _ _ HN i) as Hs. rewrite Hs.
  split; [by apply post_so|by rewrite so_upd, decide_True].
Qed.

(** A socket nobody refers to any more goes away; the others stay. *)
Definition closed (i : nat) s s' : Prop := NInv s' [] /\ forall j, j ≠ i -> live_so s j -> is_head s j -> live_so s' j /\ is_head s' j.

Lemma kill_closed s i : on_open s i -> so_pcb (so s i) = None -> closed i s (upd_so i (fun o => o <| so_signature := 0 |>) s).
Proof.
  intros ((free & leaked & q & Q0 & Q & HN) & Hl & Hh) Hp. set (s' := upd_so i _ s).
  assert (Es : forall j, so s' j = if decide (j = i) then (so s i) <| so_signature := 0 |> else so s j) by (intros; apply so_upd).
  pose proof HN as [H1 H2 H3 H4 HK H5 H6 H7 H8]. destruct (si_kids _ _ _ H4 i Hl Hh) as (_ & _ & [HQ|[k Hk]]); [|congruence].
  assert (HC : forall c, live_so s c -> so_head (so s c) = Some i -> c = i).
  { intros c Lc Ec. destruct (decide (c = i)) as [|Hn]; [done|]. pose proof (HK c i Lc Ec Hn) as Hin. rewrite HQ in Hin. by apply not_elem_of_nil in Hin. }
  split; [|intros j Hj; unfold live_so, is_head; by rewrite Es, decide_False].
  exists free, leaked, q, Q0, Q. split; try done.
  - intros j Hj. rewrite Es. case_decide; [subst|]; by apply H2.
  - intros j. rewrite Es. case_decide; [subst|]; apply H3.
  - apply (kill_sock s s' i); try done.
    + intros h Lh Eh Hin. destruct (si_heads _ _ _ H4 h Lh Eh) as (_ & _ & _ & X4). destruct (X4 i Hin) as (_ & Y2 & Y3). destruct Hh; congruence.
    + by rewrite Es, decide_True.
    + intros j Hj. by rewrite Es, decide_False.
  - intros c h [Hlt Hsig] Hhd Hn. rewrite Es in Hsig, Hhd. case_decide; [done|]. by apply HK.
Qed.

Section Close.
Context (c : calls) (Hc : calls_ok c).

Lemma tcp_close_safe s i : on_open s i -> so_type (so s i) = SOCK_STREAM -> safe (tcp_close c i s) (fun s' => post [] s s' /\ so_pcb (so s' i) = None).
Proof.
  intros Ho Hty. pose proof Ho as (HI & Hl & Hh). unfold tcp_close. destruct (pcb_stream s i Ho Hty) as [Hp|[k Hp]]; rewrite Hp; [split; [by apply post_refl|done]|].
  eapply (safe_bind _ _ (post [] s)).
  - case_bool_decide; [|by apply post_refl]. set (s1 := upd_tcp k _ s). assert (Hp1 : post [] s s1) by (by apply post_tcp).
    apply unit_safe, (then_post _ _ _ Hp1), (tcp_send_packet_safe c Hc), Hp1.
  - intros s1 Hp1. destruct (po_heads _ _ _ Hp1 i Hl Hh) as (_ & _ & Ety). eapply safe_mono; [apply tcp_detach_safe; [by eapply on_open_post|congruence]|].
    intros s2 [Hp2 E2]. split; [by eapply post_trans|done].
Qed.

Lemma soclose_safe s i : on_open s i -> safe (soclose c i s) (fun r => closed i s r.1).
Proof.
  intros Ho. pose proof Ho as (HI & Hl & Hh). unfold soclose. rewrite (proj2 (Z.eqb_eq _ _) (proj2 Hl)). cbn [negb].
  eapply (safe_bind _ _ (fun s1 => post [] s s1 /\ so_pcb (so s1 i) = None)).
  { destruct (_ =? SOCK_DGRAM) eqn:E1; [apply Z.eqb_eq in E1; by apply udp_detach_safe|]. destruct (_ =? SOCK_STREAM) eqn:E2; [apply Z.eqb_eq in E2; by apply tcp_close_safe|].
    split; [by apply post_refl|]. apply Z.eqb_neq in E1, E2. pose proof (NInv_owned s [] i HI Hl) as Hw. unfold owned in Hw. destruct (so_pcb (so s i)) as [[k|k]|]; [| |done]; by destruct Hw. }
  intros s1 [Hp1 E1]. eapply safe_bind; [apply (sbflush_rcv_safe s1 i); [apply Hp1|apply Hl]|]. intros s2 [Hp2 E2].
  eapply safe_bind; [apply (sbflush_snd_safe s2 i), Hp2|]. intros s3 [Hp3 E3]. assert (Hp : post [] s s3) by (eapply post_trans; [exact Hp1|]; by eapply post_trans).
  destruct (kill_closed s3 i) as [HI4 Hk]; [by eapply on_open_post|congruence|]. split; [done|]. intros j Hj H1 H2. destruct (po_heads _ _ _ Hp j H1 H2) as (H3 & H4 & _). by apply Hk.
Qed.
End Close.

(** ** Options *)

Lemma hiwat_post s i h : NInv s [] -> (i < MAX_SOCKETS)%nat -> post [] s (upd_so i (fun o => o <| so_rcv ::= fun sb => sb <| sb_hiwat := h |> |>) s).
Proof.
  intros (free & leaked & q & Q0 & Q & HN) Hi. pose proof (ni_queue _ _ _ _ _ _ _ HN i Hi) as [X1 X2 X3 X4]. eapply near_post; [apply near_rcv|]. set (s1 := upd_so i _ s). apply post_refl.
  assert (E1 : s1 = (with_rcv s i ((so_rcv (so s i)) <| sb_hiwat := h |>)) <| bufs := bufs s |>) by (symmetry; apply (net_eta_bufs s1)). rewrite E1.
  exists free, leaked, (<[i := q i]> q), Q0, Q. eapply net_queue; [exact HN|done| |by split|done].
  eapply pool_perm; [apply (ni_pool _ _ _ _ _ _ _ HN)|]. cbn [app]. symmetry. by apply queued_same.
Qed.

(** What setting an option does to the socket. *)
Definition set_option (name v : Z) (o : socket) : socket :=
  if flag_option name then o <| so_options ::= fun x => if i32 v =? 0 then Z.ldiff x name else Z.lor x name |>
  else if name =? SO_RCVTIMEO then o <| so_rcvtimeo := v |>
  else if name =? SO_SNDTIMEO then o <| so_sndtimeo := v |>
  else if name =? SO_RCVBUF then if (0 <? i32 v) && (i32 v <=? SB_MAX) then o <| so_rcv ::= fun sb => sb <| sb_hiwat := u32 (i32 v) |> |> else o
  else if (0 <? i32 v) && (i32 v <=? SB_MAX) then o <| so_snd ::= fun sb => sb <| sb_hiwat := u32 (i32 v) |> |> else o.

Lemma sosetopt_cases s i level name v : (exists e, sosetopt i level name v s = (s, e)) \/
  sosetopt i level name v s = (upd_so i (set_option name (w32 v 0)) s, CHIMERA_SUCCESS).
Proof.
  unfold sosetopt, set_option. destruct (negb _); [by left; eexists|]. destruct (_ =? 0)%nat; [by left; eexists|].
  destruct (level =? SOL_SOCKET); [|left; destruct (level =? IPPROTO_TCP), (name =? 1); by eexists].
  destruct (length v <? 4)%nat; destruct (flag_option name), (name =? SO_RCVTIMEO), (name =? SO_SNDTIMEO), (name =? SO_RCVBUF), (name =? SO_SNDBUF);
    (by left; eexists) || by right.
Qed.

Lemma sosetopt_post s i level name v : on_open s i -> post [] s (sosetopt i level name v s).1.
Proof.
  intros (HI & [Hi _] & _). destruct (sosetopt_cases s i level name v) as [[e ->]| ->]; [by apply post_refl|]. cbn [fst]. unfold set_option.
  destruct (flag_option name); [by apply post_so|]. repeat (destruct (name =? _); [try (by apply post_so)|]).
  - destruct (_ && _); [by apply hiwat_post|by apply post_so].
  - destruct (_ && _); by apply post_so.
Qed.

Lemma sogetopt_post s i level name n : NInv s [] -> post [] s (sogetopt i level name n s).1.
Proof.
  intros HI. unfold sogetopt. destruct (negb _); [by apply post_refl|]. destruct (n =? 0); [by apply post_refl|]. destruct (level =? _); [|by apply post_refl].
  destruct (flag_option name); [by apply post_refl|]. repeat (destruct (name =? _); [by apply post_refl || by apply post_so|]). by apply post_refl.
Qed.

(** ** Echo requests *)

Section Ping.
Context (c : calls) (Hc : calls_ok c).

Lemma leak_post s fly s' m : NInv s' (m :: fly) -> near fly s s' -> post fly s s'.
Proof.
  intros (free & leaked & q & Q0 & Q & HN) [A1 A2 A3 A4]. split; try done. exists free, (m :: leaked), q, Q0, Q. destruct HN. split; try done.
  eapply pool_perm; [done|]. change ((m :: fly) ++ ?x) with (m :: (fly ++ x)). rewrite !app_assoc. apply Permutation_middle.
Qed.

Lemma post_ping s fly f : NInv s fly -> post fly s (s <| s_ping_listeners ::= f |>).
Proof. intros HI. by apply post_other. Qed.

(** The bytes of a request. *)
Definition echo_bytes (id seq : Z) (payload : list Z) : list Z :=
  let h := {| icmp_type := ICMP_ECHO; icmp_code := 0; icmp_cksum := 0; icmp_id := htons id; icmp_seq := htons seq |} in
  icmp_bytes (h <| icmp_cksum := in_checksum (icmp_bytes h ++ payload) |>) ++ payload.

Lemma echo_length id seq payload : Z.of_nat (length (echo_bytes id seq payload)) = 8 + Z.of_nat (length payload).
Proof. unfold echo_bytes. rewrite app_length, icmp_bytes_length. lia. Qed.

Lemma icmp_send_echo_safe s dst id seq payload : NInv s [] -> Z.of_nat (length payload) <= 232 \/ 504 < Z.of_nat (length payload) ->
  safe (icmp_send_echo c dst id seq payload s) (fun r => post [] s r.1).
Proof.
  intros HI Hlen. unfold icmp_send_echo. destruct (512 <? _) eqn:E.
  - pose proof (alloc_spec (m_gethdr MT_DATA) (hdr_buf MT_DATA) s [] (m_gethdr_spec _) HI) as Ha. destruct (lift (m_gethdr MT_DATA) s) as [s1 [m|]]; [|subst; by apply post_refl].
    destruct Ha as (HI1 & _ & Eo & Es). apply (leak_post _ _ _ m); [done|]. apply near_bufs; [done|]. intros j Hj. by apply not_elem_of_nil in Hj.
  - apply Z.ltb_ge in E. pose proof (echo_length id seq payload) as El.
    pose proof (build_spec (m_gethdr MT_DATA) (hdr_buf MT_DATA) 240 s [] (echo_bytes id seq payload) (m_gethdr_spec _) (hdr_empty _) HI ltac:(lia)) as Hb.
    destruct (lift (m_gethdr MT_DATA) s) as [s1 [m|]]; [|subst; by apply post_refl]. destruct Hb as (Es & Ew & HI2 & Hs2 & Hn). fold (echo_bytes id seq payload). rewrite Ew. cbn [mbind res_bind]. rewrite <- El.
    set (s2 := set_len m _ _) in *. apply (safe_near_pair _ _ _ _ Hn). set (s3 := match scan _ _ with Some _ => _ | None => _ end).
    assert (Hp : post [m] s2 s3) by (unfold s3; destruct (scan _ _); [by apply post_ping|by apply post_refl]).
    eapply safe_near_pair; [eapply post_near; [exact Hp|intros j Hj; by apply not_elem_of_nil in Hj]|].
    apply (co_ip c Hc _ _ [m]); [apply Hp|]. apply packet_single. by eapply post_single.
Qed.

Lemma icmp_send_echo_overrun s dst id seq payload : s_mbuf_freelist (bufs s) ≠ None -> 232 < Z.of_nat (length payload) <= 504 ->
  icmp_send_echo c dst id seq payload s = Err Undefined.
Proof.
  intros Hf Hlen. unfold icmp_send_echo. unfold lift, m_gethdr, m_get. destruct (s_mbuf_freelist (bufs s)) as [m|]; [|done].
  rewrite (proj2 (Z.ltb_ge 512 _)) by lia. fold (echo_bytes id seq payload). unfold on_bufs, write. change (bufs (_ <| bufs := ?b |>)) with b. set (x := mb m (upd _ _ _)).
  assert (Hx : m_data x = PKTHDR /\ capacity x = MLEN) by (unfold x; by rewrite !mb_upd_eq). unfold in_storage. destruct Hx as [-> ->]. rewrite echo_length. unfold guard_res.
  destruct (_ && _) eqn:E; [|done]. exfalso. unfold PKTHDR, MLEN in E. lia.
Qed.

Lemma icmp_poll_reply_safe s id : NInv s [] -> safe (icmp_poll_reply c id s) (fun r => post [] s r.1).
Proof.
  intros HI. unfold icmp_poll_reply. eapply safe_bind; [by apply e1000_poll_rx_safe|]. intros s1 Hp. cbn [safe]. destruct (scan _ _); [|done].
  eapply post_trans; [exact Hp|]. apply post_ping, Hp.
Qed.
End Ping.
End NetApi.
