(* ===== verification/NetCorrect.v ===== *)
(** * What the network stack guarantees

    The machine after start-up satisfies the invariant of the stack, and no
    sequence of received frames can break it. *)

From stdpp Require Import functions.
From S2P Require Import Prelude Checksum Mbuf Net NetStack NetInv NetSafe NetFlow NetApi.

Module NetCorrect.

Import Checksum Mbuf Net NetStack NetInv NetSafe NetFlow NetApi.

Implicit Types (s : net) (b : mbufs).

(** ** Start-up *)

(** [mbuf_init], [loopback_init] and the attachment of the e1000 as [net_init] orders them. *)
Definition boot (mac : list Z) : net := e1000_attach mac (loopback_init blank).

Lemma mbuf_init_chain l b f : NoDup (l ++ f) -> chain (next b) (s_mbuf_freelist b) f ->
  chain (next (foldl mbuf_init_one b l)) (s_mbuf_freelist (foldl mbuf_init_one b l)) (reverse l ++ f).
Proof.
  revert b f. induction l as [|i l IH]; intros b f Hn Hc; [done|]. rewrite reverse_cons, <- app_assoc. cbn [foldl app]. apply IH.
  - rewrite <- Permutation_middle. exact Hn.
  - split; [done|]. cbn in Hn. apply NoDup_cons in Hn as [Hi _]. unfold mbuf_init_one, next. change (mb ?j (?x <| s_mbuf_freelist := _ |>)) with (mb j x).
    rewrite mb_upd_eq. cbn [m_next]. eapply lseg_frame; [|exact Hc]. intros j Hj. unfold next. change (mb ?j (?x <| s_mbuf_freelist := _ |>)) with (mb j x).
    rewrite mb_upd_ne; [done|]. intros ->. apply Hi. set_solver.
Qed.

Lemma mbuf_init_spec b : pool_inv (mbuf_init b) (reverse (seq 0 MBUF_POOL_SIZE)) [].
Proof.
  split.
  - rewrite <- (app_nil_r (reverse _)). apply mbuf_init_chain; [rewrite app_nil_r; apply NoDup_seq|done].
  - rewrite app_nil_r. apply reverse_Permutation.
Qed.

Lemma queued_nil : queued (fun _ => []) = [].
Proof. unfold queued. induction (seq 0 MAX_SOCKETS) as [|i l IH]; [done|]. by rewrite fmap_cons. Qed.

Lemma queue_empty b : queue b sockbuf0 [].
Proof. split; [done|done|intros i Hi; by apply not_elem_of_nil in Hi|done]. Qed.

Lemma boot_if mac i : ifp (boot mac) i = if decide (i = en0) then en0_if mac else if decide (i = lo0) then loopback_if else inhabitant.
Proof.
  unfold ifp, boot. cbn. repeat case_decide; subst; [by rewrite lookup_total_insert_eq|by rewrite lookup_total_insert_ne, lookup_total_insert_eq|].
  by rewrite !lookup_total_insert_ne.
Qed.

(** A machine without sockets and traffic. *)
Lemma fresh_inv s : (exists b, bufs s = mbuf_init b) -> s_socket_pool s = ∅ -> s_tcp_pcbs s = ∅ -> s_udp_pcbs s = ∅ -> s_arp_table s = ∅ ->
  pending s = [] -> (forall i, length (if_mac (ifp s i)) = 6%nat /\ (if_output (ifp s i) = Some loopback_output -> has (if_flags (ifp s i)) IFF_LOOPBACK = true)) -> NInv s [].
Proof.
  intros [b Eb] Es Et Eu Ea Er Hi. assert (Hso : forall i, so s i = socket0) by (intros i; unfold so; rewrite Es; exact (lookup_total_empty i)).
  exists (reverse (seq 0 MBUF_POOL_SIZE)), [], (fun _ => []), (fun _ => []), (fun _ => []). split.
  - rewrite queued_nil, Eb. apply mbuf_init_spec.
  - intros i _. rewrite Hso. apply queue_empty.
  - intros i. by rewrite Hso.
  - split.
    + intros k i. unfold tcp. by rewrite Et, lookup_total_empty.
    + intros k i. unfold udp. by rewrite Eu, lookup_total_empty.
    + intros h [_ H]. by rewrite Hso in H.
    + intros c h [_ H]. by rewrite Hso in H.
    + intros i [_ H]. by rewrite Hso in H.
    + intros h [_ H]. by rewrite Hso in H.
  - intros c h [_ H]. by rewrite Hso in H.
  - intros i. apply Hi.
  - intros i. apply Hi.
  - intros k. by rewrite Ea, lookup_total_empty.
  - unfold rx_ok. by rewrite Er.
Qed.

Lemma boot_inv mac : length mac = 6%nat -> NInv (boot mac) [].
Proof. intros Hm. apply fresh_inv; [by eexists|reflexivity..|]. intros i. rewrite boot_if. by repeat case_decide. Qed.

(** ** Received frames *)

Lemma arrivals_inv s fs fly : NInv s fly -> Forall (Forall short) fs -> NInv (s <| arrivals := fs |>) fly.
Proof.
  intros (free & leaked & q & Q0 & Q & [H1 H2 H3 H4 HK H5 H6 H7 H8]) Hf. exists free, leaked, q, Q0, Q. split; try done; [by eapply sock_ext|].
  unfold rx_ok, pending in *. cbn. apply Forall_app in H8 as [H8 _]. apply Forall_app. split; [done|].
  apply Forall_fmap, Forall_concat. eapply Forall_impl; [exact Hf|]. intros l Hl. exact Hl.
Qed.

(** A ping from 10.0.2.2 to 10.0.2.15, and the machine it is sent to. *)
Definition en0_mac : list Z := [0x52; 0x54; 0; 0x12; 0x34; 0x56].
Definition ping_frame : list Z :=
  ether_bytes {| ether_dhost := en0_mac; ether_shost := [0x52; 0x55; 10; 0; 2; 2]; ether_type := htons ETHERTYPE_IP |} ++
  ip_bytes (ip_packet (htonl 0x0A000202) (htonl 0x0A00020F) IPPROTO_ICMP 8 7) ++
  icmp_bytes {| icmp_type := ICMP_ECHO; icmp_code := 0; icmp_cksum := htons 0xF7FE; icmp_id := htons 1; icmp_seq := 0 |}.
Definition configured : net :=
  (boot en0_mac) <| ifnets ::= <[en0 := (en0_if en0_mac) <| if_ip := htonl 0x0A00020F |> <| if_netmask := htonl 0xFFFFFF00 |>]> |>.

(** ** A lock taken twice *)


(** Addresses given to an interface. *)
Lemma post_if s fly i f : NInv s fly -> if_kept (ifp s i) f -> post fly s (s <| ifnets ::= <[i := f]> |>).
Proof.
  intros HI Hf. apply post_other; try done. intros j. unfold ifp at 2. change (ifnets (_ <| ifnets ::= ?g |>)) with (g (ifnets s)).
  destruct (decide (j = i)) as [->|Hj]; [by rewrite lookup_total_insert_eq|by rewrite lookup_total_insert_ne].
Qed.

Lemma configured_inv : NInv configured [].
Proof. apply (post_if (boot en0_mac) [] en0); [by apply boot_inv|]. by rewrite boot_if. Qed.

(** The ping is the frame, the machine has not seen its sender before. *)
Lemma ping_deadlock : e1000_poll_rx (stack 8) (configured <| arrivals := [[ping_frame]] |>) = Err Deadlock.
Proof. by vm_compute. Qed.

Definition reentered : net := configured <| rx_ring := [Some ping_frame] |> <| s_net_input_lock := true |>.


(** ** Histories *)

(** The calls on an open socket. *)
Inductive op :=
  | Bind (sin : sockaddr_in) | Listen (backlog : Z) | Connect (sin : sockaddr_in) | Accept
  | Send (addr : option sockaddr_in) (data : list Z) | Receive (len : Z) | Shutdown (how : Z)
  | SetOpt (level optname : Z) (optval : list Z) | GetOpt (level optname optlen : Z) | Peer | Close.

(** What happens to the machine: calls of programs, polls of the network card,
    and frames arriving between two polls. *)
Inductive event :=
  | Create (dom type proto : Z) | On (i : nat) (o : op) | Ping (dst id seq : Z) (payload : list Z) | PingReply (id : Z)
  | Poll | Arrive (fs : list (list Z)).

(** The stack and the sockets programs hold. *)
Notation world := (net * gset nat)%type.

Definition keep {A} (open : gset nat) (r : res (net * A)) : res world := '(s, _) ← r; Ret (s, open).
Definition add (open : gset nat) (r : net * (chimera_error * option nat)) : world :=
  (r.1, match r.2.2 with Some i => {[i]} ∪ open | None => open end).

Definition do_op (c : calls) (i : nat) (o : op) (w : world) : res world :=
  let '(s, open) := w in
  match o with
  | Bind sin => keep open (sobind i sin s)
  | Listen backlog => keep open (solisten i backlog s)
  | Connect sin => keep open (soconnect c i sin s)
  | Accept => Ret (add open (soaccept i s))
  | Send addr data => keep open (sosend c i addr data s)
  | Receive len => keep open (soreceive c i len s)
  | Shutdown how => Ret (soshutdown i how s, open)
  | SetOpt level optname optval => Ret ((sosetopt i level optname optval s).1, open)
  | GetOpt level optname optlen => Ret ((sogetopt i level optname optlen s).1, open)
  | Peer => if so_type (so s i) =? SOCK_STREAM then _ ← tcp_fill_peer i s; Ret w else Ret w
  | Close => keep (open ∖ {[i]}) (soclose c i s)
  end.

(** A call on a socket that is not open reaches no socket. *)
Definition do_event (c : calls) (e : event) (w : world) : res world :=
  let '(s, open) := w in
  match e with
  | Create dom type proto => Ret (add open (socreate dom type proto s))
  | On i o => if decide (i ∈ open) then do_op c i o w else Ret w
  | Ping dst id seq payload => keep open (icmp_send_echo c dst id seq payload s)
  | PingReply id => keep open (icmp_poll_reply c id s)
  | Poll => s ← e1000_poll_rx c s; Ret (s, open)
  | Arrive fs => Ret (s <| arrivals ::= fun l => l ++ [fs] |>, open)
  end.

Fixpoint history (c : calls) (es : list event) (w : world) : res world :=
  match es with [] => Ret w | e :: es => w ← do_event c e w; history c es w end.

(** What is excluded: stream sockets over UDP, echo requests too long for their
    buffer, and frames longer than a receive buffer. *)
Definition allowed (e : event) : Prop :=
  match e with
  | Create _ type proto => consistent type proto
  | On _ (Receive len) => 0 <= len
  | Ping _ _ _ payload => Z.of_nat (length payload) <= 232 \/ 504 < Z.of_nat (length payload)
  | Arrive fs => Forall short fs
  | _ => True
  end.

Definition world_ok (w : world) : Prop := NInv w.1 [] /\ forall i, i ∈ w.2 -> live_so w.1 i /\ is_head w.1 i.

Lemma world_post s s' open : world_ok (s, open) -> post [] s s' -> world_ok (s', open).
Proof. intros [HI Ho] Hp. split; [apply Hp|]. intros i Hi. destruct (Ho i Hi) as [H1 H2]. by destruct (po_heads _ _ _ Hp i H1 H2) as (? & ? & _). Qed.

Lemma keep_safe {A} (r : res (net * A)) s open : world_ok (s, open) -> safe r (fun x => post [] s x.1) -> safe (keep open r) world_ok.
Proof. intros Hw Hr. unfold keep. eapply safe_bind; [exact Hr|]. intros [s' a] Hp. by eapply world_post. Qed.

Lemma add_ok s open r : world_ok (s, open) -> opened s r -> world_ok (add open r).
Proof.
  intros Hw [Hp Hn]. destruct (world_post _ _ _ Hw Hp) as [HI Ho]. split; [done|]. unfold add. cbn [fst snd] in *. intros i. destruct r.2.2 as [j|] eqn:E; [|apply Ho].
  rewrite elem_of_union, elem_of_singleton. intros [-> | Hi]; [by apply Hn|by apply Ho].
Qed.

Lemma arrive_inv s fs fly : NInv s fly -> Forall short fs -> NInv (s <| arrivals ::= fun l => l ++ [fs] |>) fly.
Proof.
  intros HI Hf. apply (arrivals_inv s (arrivals s ++ [fs]) fly HI). destruct HI as (? & ? & ? & ? & ? & HN). pose proof (ni_rx _ _ _ _ _ _ _ HN) as Hr.
  unfold rx_ok, pending in Hr. apply Forall_app in Hr as [_ Hr]. apply Forall_fmap, Forall_concat in Hr. apply Forall_app. split; [exact Hr|by repeat constructor].
Qed.

Section History.
Context (c : calls) (Hc : calls_ok c).

Lemma do_op_safe i o w : world_ok w -> i ∈ w.2 -> allowed (On i o) -> safe (do_op c i o w) world_ok.
Proof.
  destruct w as [s open]. intros Hw Hi Ha. cbn [snd] in Hi. assert (Ho : on_open s i) by (split; [apply Hw|by apply Hw]). destruct o; cbn [do_op].
  - by eapply keep_safe, sobind_safe.
  - by eapply keep_safe, solisten_safe.
  - by eapply keep_safe, soconnect_safe.
  - by eapply add_ok, soaccept_post.
  - by eapply keep_safe, sosend_safe.
  - by eapply keep_safe, soreceive_safe.
  - by eapply world_post, soshutdown_post.
  - by eapply world_post, sosetopt_post.
  - eapply world_post; [done|]. apply sogetopt_post, Hw.
  - destruct (_ =? SOCK_STREAM) eqn:E; [|done]. apply Z.eqb_eq in E. unfold tcp_fill_peer. by destruct (pcb_stream s i Ho E) as [-> | [k ->]].
  - unfold keep. eapply safe_bind; [by apply soclose_safe|]. intros [s' e] [HI Hk]. split; [done|]. cbn [fst snd] in *. intros j Hj. apply elem_of_difference in Hj as [Hj Hji].
    rewrite elem_of_singleton in Hji. by apply Hk; [|apply Hw..].
Qed.

Lemma do_event_safe e w : world_ok w -> allowed e -> safe (do_event c e w) world_ok.
Proof.
  destruct w as [s open]. intros Hw Ha. pose proof Hw as [HI Ho]. destruct e; cbn [do_event].
  - by eapply add_ok, socreate_post.
  - case_decide; [by apply do_op_safe|done].
  - by eapply keep_safe, icmp_send_echo_safe.
  - by eapply keep_safe, icmp_poll_reply_safe.
  - eapply safe_bind; [by apply e1000_poll_rx_safe|]. intros s' Hp. by eapply world_post.
  - split; [by apply arrive_inv|done].
Qed.

Lemma history_safe es w : world_ok w -> Forall allowed es -> safe (history c es w) world_ok.
Proof.
  intros Hw Ha. revert w Hw. induction Ha as [|e es He Ha IH]; intros w Hw; [done|]. cbn [history]. eapply safe_bind; [by apply do_event_safe|]. exact IH.
Qed.
End History.

Lemma boot_world mac : length mac = 6%nat -> world_ok (boot mac, ∅).
Proof. intros Hm. split; [by apply boot_inv|]. intros i Hi. by apply elem_of_empty in Hi. Qed.


(** A server that accepts, pings and closes. *)
Definition port (addr p : Z) : sockaddr_in := {| sin_family := AF_INET; sin_port := htons p; sin_addr := htonl addr |}.
Definition session : list event :=
  [Create AF_INET SOCK_DGRAM IPPROTO_UDP; On 0 (Bind (port 0 53)); Create AF_INET SOCK_STREAM 0; On 1 (Bind (port 0 80)); On 1 (Listen 5);
   Arrive [[1; 2; 3]]; Poll; On 1 Accept; Ping (htonl INADDR_LOOPBACK) 7 1 [1; 2; 3]; PingReply 7;
   On 0 (Send (Some (port INADDR_LOOPBACK 53)) [104; 105]); On 0 (Receive 2); On 1 Close].

Lemma session_allowed : Forall allowed session.
Proof. repeat constructor; cbn; try done; try (by left); lia. Qed.


Definition ended (r : res world) : world := match r with Ret w => w | Err _ => (blank, ∅) end.
Definition served : world := ended (history (stack 8) session (boot en0_mac, ∅)).

Lemma session_ends : history (stack 8) session (boot en0_mac, ∅) = Ret served /\ served.2 = {[0%nat]}.
Proof. by vm_compute. Qed.



(** ** What the histories exclude *)

(** [socreate] gives a stream socket created with the protocol UDP a UDP
    control block; binding it, and closing it, then treat the block as a TCP one. *)
Theorem socket_type_confusion c s dom s' i sin : socreate dom SOCK_STREAM IPPROTO_UDP s = (s', (CHIMERA_SUCCESS, Some i)) ->
  sin_family sin = AF_INET -> sobind i sin s' = Err Undefined /\ soclose c i s' = Err Undefined.
Proof.
  unfold socreate. destruct (_ && _); [done|]. destruct (free_socket s) as [j|]; [|done]. cbn [orb Z.eqb SOCK_STREAM SOCK_DGRAM Pos.eqb]. change (IPPROTO_UDP =? IPPROTO_UDP) with true. unfold udp_attach.
  change ((SOCK_STREAM =? SOCK_DGRAM) || true) with true. cbn [andb orb]. destruct (scan _ _) as [k|]; [|done]. cbn [succeeded]. intros [= <- <-] Hs.
  set (s1 := upd_so j _ (upd_udp k _ _)). assert (E : so s1 j = (fresh_socket (i16 SOCK_STREAM) None) <| so_pcb := Some (UdpPcb k) |>).
  { unfold s1. rewrite so_upd, decide_True by done. change (so (upd_udp k ?f ?x) j) with (so x j). by rewrite so_upd, decide_True. }
  unfold sobind, soclose, tcp_bind, tcp_close. rewrite E, Hs. done.
Qed.

Definition confused : net := (socreate AF_INET SOCK_STREAM IPPROTO_UDP (boot en0_mac)).1.

Lemma socket_type_confusion_witness : sobind 0 (port 0 80) confused = Err Undefined /\ soclose (stack 8) 0 confused = Err Undefined.
Proof.
  assert (E : socreate AF_INET SOCK_STREAM IPPROTO_UDP (boot en0_mac) = (confused, (CHIMERA_SUCCESS, Some 0%nat))) by (vm_compute; reflexivity).
  exact (socket_type_confusion (stack 8) (boot en0_mac) AF_INET confused 0 (port 0 80) E eq_refl).
Defined.

(** C35: With a free buffer, an echo request overruns its buffer exactly when its
    payload has more than 232 and at most 504 bytes: [icmp_send_echo] admits 512
    bytes with the header, the header buffer has room for 240. *)
Theorem icmp_echo_bounds n s dst id seq payload : NInv s [] -> s_mbuf_freelist (bufs s) ≠ None ->
  icmp_send_echo (stack n) dst id seq payload s = Err Undefined <-> 232 < Z.of_nat (length payload) <= 504.
Proof.
  intros HI Hf. split; [|by apply icmp_send_echo_overrun]. intros E. destruct (decide (232 < Z.of_nat (length payload) <= 504)) as [|Hn]; [done|].
  pose proof (icmp_send_echo_safe (stack n) (stack_ok n) s dst id seq payload HI ltac:(lia)) as H. by rewrite E in H.
Qed.

Lemma icmp_echo_bounds_witness : icmp_send_echo (stack 8) (htonl 0x0A000202) 1 1 (replicate 256 0) (boot en0_mac) = Err Undefined.
Proof.
  apply (icmp_echo_bounds 8 (boot en0_mac) (htonl 0x0A000202) 1 1 (replicate 256 0)); [by apply boot_inv|by vm_compute|]. rewrite length_replicate. lia.
Defined.
End NetCorrect.
