(* ===== verification/Dhcp.v ===== *)
(** * Address configuration

    [kernel/net/dhcp.c] and [net_init]: the request, the loop that waits for a
    reply, the walk over the options of the reply, and the start-up of the
    network as a whole. *)

From S2P Require Import Prelude Checksum Mbuf Net NetStack NetInv NetSafe NetFlow NetApi NetCorrect.

Module Dhcp.

Import Checksum Mbuf Net NetStack NetInv NetSafe NetFlow NetApi NetCorrect.

Implicit Types (s : net) (f : ifnet).

(** ** The exchange *)

Definition DHCP_SERVER_PORT : Z := 67.
Definition DHCP_CLIENT_PORT : Z := 68.
Definition DHCP_MAGIC_COOKIE : Z := 0x63825363.
Definition DHCPDISCOVER : Z := 1.

(** [sizeof(dhcp_packet_t)], and where its fields are. *)
Definition DHCP_PACKET : nat := 548.
Definition yiaddr (p : list Z) : Z := w32 p 16.
Definition magic (p : list Z) : Z := w32 p 236.
Definition options (p : list Z) : list Z := drop 240 p.

Definition dhcp_request (mac : list Z) : list Z :=
  [1; 1; 6; 0] ++ le32 (htonl 0x3903F326) ++ le16 0 ++ le16 (htons 0x8000) ++ replicate 16 0 ++ mac ++ replicate 10 0 ++ replicate 192 0 ++
  le32 (htonl DHCP_MAGIC_COOKIE) ++ [53; 1; DHCPDISCOVER; 55; 3; 1; 3; 6; 255] ++ replicate 299 0.

Definition byte_at (l : list Z) (o : nat) : res Z := match l !! o with Some x => Ret x | None => Err Overread end.
Definition addr_at (l : list Z) (o : nat) : res Z := if (o + 4 <=? length l)%nat then Ret (w32 l o) else Err Overread.

(** The options from offset [o] on; a read past the packet is a fault. *)
Fixpoint dhcp_options (n : nat) (opts : list Z) (o : nat) f : res ifnet :=
  match n with
  | O => Err Endless
  | S n =>
      code ← byte_at opts o;
      if (code =? 255) || negb (o <? 300)%nat then Ret f else
      if code =? 0 then dhcp_options n opts (S o) f else
      len ← byte_at opts (S o);
      f ← (if (code =? 1) && (len =? 4) then v ← addr_at opts (o + 2); Ret (f <| if_netmask := v |>)
           else if (code =? 3) && (4 <=? len) then v ← addr_at opts (o + 2); Ret (f <| if_gateway := v |>)
           else if (code =? 6) && (4 <=? len) then v ← addr_at opts (o + 2); Ret (f <| if_dns := v |>)
           else Ret f);
      dhcp_options n opts (o + 2 + Z.to_nat len) f
  end.

Definition set_if (i : nat) f s : net := s <| ifnets ::= <[i := f]> |>.

(** An offer taken over into the interface. *)
Definition dhcp_accept (i : nat) (reply : list Z) s : res net :=
  f ← dhcp_options 301 (options reply) 0 ((ifp s i) <| if_ip := yiaddr reply |>);
  Ret (set_if i (f <| if_bcast := Z.lor (if_ip f) (Z.lxor (if_netmask f) 0xFFFFFFFF) |>) s).

Fixpoint dhcp_poll (c : calls) (n i so_ : nat) s : res net :=
  match n with
  | O => Ret s
  | S n =>
      s ← e1000_poll_rx c s;
      if Z.of_nat DHCP_PACKET <=? sb_cc (so_rcv (so s so_)) then
        '(s, (_, reply)) ← soreceive c so_ (Z.of_nat DHCP_PACKET) s;
        _ ← guard_res (length reply =? DHCP_PACKET)%nat Undefined;
        if (ntohl (magic reply) =? DHCP_MAGIC_COOKIE) && negb (yiaddr reply =? 0) then dhcp_accept i reply s
        else dhcp_poll c n i so_ s
      else dhcp_poll c n i so_ s
  end.

Definition fallback f : ifnet :=
  f <| if_ip := htonl 0x0A00020F |> <| if_netmask := htonl 0xFFFFFF00 |> <| if_gateway := htonl 0x0A000202 |>
    <| if_dns := htonl 0x0A000203 |> <| if_bcast := htonl 0x0A0002FF |>.

Definition dhcp_discover (c : calls) (i : nat) s : res net :=
  if has (if_flags (ifp s i)) IFF_LOOPBACK then Ret s else
  match socreate AF_INET SOCK_DGRAM IPPROTO_UDP s with
  | (s, (_, None)) => Ret s
  | (s, (_, Some o)) =>
      s ← unit_of (sobind o {| sin_family := AF_INET; sin_port := htons DHCP_CLIENT_PORT; sin_addr := 0 |} s);
      s ← unit_of (udp_sendto c o (dhcp_request (if_mac (ifp s i)))
                     {| sin_family := AF_INET; sin_port := htons DHCP_SERVER_PORT; sin_addr := INADDR_BROADCAST |} s);
      s ← dhcp_poll c 50 i o s;
      s ← unit_of (soclose c o s);
      Ret (if if_ip (ifp s i) =? 0 then set_if i (fallback (ifp s i)) s else s)
  end.

(** [net_init]; [nic] is the address of the network card, if there is one, and
    [fs] what arrives while the machine waits for its own address. *)
Definition net_init (c : calls) (nic : option (list Z)) (fs : list (list (list Z))) : res net :=
  let s := loopback_init blank in
  match nic with
  | None => Ret s
  | Some mac =>
      let s := (e1000_attach mac s) <| arrivals := fs |> in
      match if_lookup "en0" s with Some i => dhcp_discover c i s | None => Ret s end
  end.

(** ** The options *)

(** Offsets at which the walk looks for an option. *)
Inductive option_at (opts : list Z) : nat -> Prop :=
  | oa_start : option_at opts 0
  | oa_pad o : option_at opts o -> (o < 300)%nat -> opts !! o = Some 0 -> option_at opts (S o)
  | oa_next o code len : option_at opts o -> (o < 300)%nat -> opts !! o = Some code -> code ≠ 0 -> code ≠ 255 -> opts !! S o = Some len ->
      option_at opts (o + 2 + Z.to_nat len).

Definition overrun (opts : list Z) : Prop := exists o, option_at opts o /\ (length opts <= o)%nat.

Lemma byte_lt l o : (o < length l)%nat -> exists x, l !! o = Some x /\ byte_at l o = Ret x.
Proof. intros H. destruct (lookup_lt_is_Some_2 l o H) as [x Hx]. exists x. unfold byte_at. by rewrite Hx. Qed.

Lemma addr_ok l o : (o + 4 <= length l)%nat -> addr_at l o = Ret (w32 l o).
Proof. intros H. unfold addr_at. by rewrite (proj2 (Nat.leb_le _ _) H). Qed.

(** What one option does to the interface. *)
Definition apply_option (code len v : Z) f : ifnet :=
  if (code =? 1) && (len =? 4) then f <| if_netmask := v |>
  else if (code =? 3) && (4 <=? len) then f <| if_gateway := v |>
  else if (code =? 6) && (4 <=? len) then f <| if_dns := v |> else f.

Section Options.
Context (opts : list Z) (Hlen : length opts = 308%nat).

Lemma options_stop n o f code : opts !! o = Some code -> code = 255 \/ (300 <= o)%nat -> dhcp_options (S n) opts o f = Ret f.
Proof.
  intros Hx Hs. cbn [dhcp_options]. unfold byte_at. rewrite Hx. cbn [mbind res_bind]. destruct Hs as [-> | Hs]; [done|]. rewrite (proj2 (Nat.ltb_ge _ _) Hs). by rewrite orb_true_r.
Qed.

Lemma options_end n o f : (308 <= o)%nat -> dhcp_options (S n) opts o f = Err Overread.
Proof. intros Ho. cbn [dhcp_options]. unfold byte_at. rewrite (lookup_ge_None_2 opts o) by lia. cbn [mbind res_bind]. reflexivity. Qed.

Lemma options_pad n o f : (o < 300)%nat -> opts !! o = Some 0 -> dhcp_options (S n) opts o f = dhcp_options n opts (S o) f.
Proof. intros Ho Hx. cbn [dhcp_options]. unfold byte_at. rewrite Hx. cbn [mbind res_bind]. rewrite (proj2 (Nat.ltb_lt _ _) Ho). reflexivity. Qed.

Lemma options_next n o f code len : (o < 300)%nat -> opts !! o = Some code -> code ≠ 0 -> code ≠ 255 -> opts !! S o = Some len ->
  dhcp_options (S n) opts o f = dhcp_options n opts (o + 2 + Z.to_nat len) (apply_option code len (w32 opts (o + 2)) f).
Proof.
  intros Ho Hx H0 H255 Hl. cbn [dhcp_options]. unfold byte_at. rewrite Hx. cbn [mbind res_bind]. rewrite (proj2 (Nat.ltb_lt _ _) Ho). cbn [negb]. rewrite orb_false_r.
  rewrite (proj2 (Z.eqb_neq _ _) H0), (proj2 (Z.eqb_neq _ _) H255), Hl. cbn [mbind res_bind]. rewrite addr_ok by lia. unfold apply_option. by repeat destruct (_ && _).
Qed.

Lemma options_result n o f : option_at opts o -> (300 < n + o)%nat -> (0 < n)%nat ->
  match dhcp_options n opts o f with Ret _ => True | Err Overread => overrun opts | Err _ => False end.
Proof.
  revert o f. induction n as [|n IH]; intros o f Ho Hn Hpos; [lia|]. destruct (decide (308 <= o)%nat) as [Hge|Hlt]; [rewrite options_end by done; exists o; split; [done|lia]|].
  destruct (byte_lt opts o) as (code & Hx & _); [lia|]. destruct (decide (code = 255 \/ (300 <= o)%nat)) as [Hs|Hs]; [by rewrite (options_stop n o f code)|].
  destruct (decide (code = 0)) as [->|H0]; [rewrite options_pad by (done || lia); apply IH; [apply oa_pad; [done|lia|done]|lia|lia]|].
  destruct (byte_lt opts (S o)) as (len & Hl & _); [lia|]. rewrite (options_next n o f code len) by (done || lia || naive_solver).
  apply IH; [eapply oa_next; try done; [lia|naive_solver]|lia|lia].
Qed.

Lemma options_reach f o : option_at opts o -> exists n f', dhcp_options 301 opts 0 f = dhcp_options (S n) opts o f' /\ (300 <= n + o)%nat.
Proof.
  induction 1 as [|o Ho (n & f' & E & Hn) Hlt Hx|o code len Ho (n & f' & E & Hn) Hlt Hx H0 H255 Hl].
  - exists 300%nat, f. split; [done|lia].
  - destruct n as [|n]; [lia|]. exists n, f'. rewrite E, options_pad by done. split; [done|lia].
  - destruct n as [|n]; [lia|]. eexists n, _. rewrite E, (options_next _ o f' code len) by done. split; [done|lia].
Qed.
End Options.

Lemma dhcp_options_result opts f : length opts = 308%nat ->
  match dhcp_options 301 opts 0 f with Ret _ => ~ overrun opts | Err e => e = Overread /\ overrun opts end.
Proof.
  intros Hlen. pose proof (options_result opts Hlen 301 0 f (oa_start opts) ltac:(lia) ltac:(lia)) as H.
  destruct (dhcp_options 301 opts 0 f) as [f'|[]] eqn:E; try done. intros (o & Ho & Hge). rewrite Hlen in Hge.
  destruct (options_reach opts Hlen f o Ho) as (n & f'' & E' & _). rewrite E', options_end in E by done. done.
Qed.

(** The walk over the 308 option bytes of a reply ends, and it stays within
    the packet exactly when no option reaches past its end: the length byte of
    an option is trusted, and the next option is looked at before its offset is
    checked. *)
Theorem dhcp_options_bounds opts f : length opts = 308%nat ->
  (dhcp_options 301 opts 0 f = Err Overread <-> overrun opts) /\ (~ overrun opts -> exists f', dhcp_options 301 opts 0 f = Ret f').
Proof.
  intros Hlen. pose proof (dhcp_options_result opts f Hlen) as H. destruct (dhcp_options 301 opts 0 f) as [f'|e]; [naive_solver|]. destruct H as [-> H]. naive_solver.
Qed.

(** One option, of an unknown kind, that claims 255 bytes at the end of the packet. *)
Definition hostile : list Z := replicate 299 0 ++ [12; 255] ++ replicate 7 0.

Lemma dhcp_options_bounds_witness : length hostile = 308%nat /\ overrun hostile.
Proof.
  split; [reflexivity|]. apply (dhcp_options_bounds hostile inhabitant eq_refl). by vm_compute.
Defined.

(** Options as a server writes them: code, length, value. *)
Definition encode (os : list (Z * list Z)) : list Z := concat ((fun '(code, v) => code :: Z.of_nat (length v) :: v) <$> os).
Definition meaning f (o : Z * list Z) : ifnet := apply_option o.1 (Z.of_nat (length o.2)) (w32 o.2 0) f.
Definition proper (o : Z * list Z) : Prop := o.1 ≠ 0 /\ o.1 ≠ 255.

Lemma apply_option_ext code len v v' f : (4 <= len -> v = v') -> apply_option code len v f = apply_option code len v' f.
Proof.
  intros H. destruct (decide (4 <= len)) as [Hl|Hl]; [by rewrite H|]. unfold apply_option.
  rewrite (proj2 (Z.eqb_neq len 4)), (proj2 (Z.leb_gt 4 len)), !andb_false_r by lia. done.
Qed.

Lemma w32_middle pre l post' : (4 <= length l)%nat -> w32 (pre ++ l ++ post') (length pre) = w32 l 0.
Proof.
  intros Hl. assert (H : forall k, (k < 4)%nat -> nth (length pre + k) (pre ++ l ++ post') 0 = nth k l 0) by (intros k Hk; rewrite app_nth2_plus, app_nth1 by lia; done).
  unfold w32, w16, b8. rewrite <- (H 0%nat), <- (H 1%nat), <- (H 2%nat), <- (H 3%nat) by lia. by rewrite Nat.add_0_r, !Nat.add_succ_r, Nat.add_0_r.
Qed.

Lemma options_encode n pre os pad f : length (pre ++ encode os ++ 255 :: pad) = 308%nat -> Forall proper os -> (length pre + length (encode os) <= 300)%nat ->
  (length os < n)%nat -> dhcp_options n (pre ++ encode os ++ 255 :: pad) (length pre) f = Ret (foldl meaning f os).
Proof.
  revert n pre f. induction os as [|[code v] os IH]; intros n pre f Hlen Hp Hend Hn; (destruct n as [|n]; [cbn in Hn; lia|]).
  - eapply options_stop; [by rewrite lookup_app_r, Nat.sub_diag by lia|by left].
  - apply Forall_cons in Hp as [[H0 H255] Hp]. set (opts := pre ++ _) in *.
    assert (E : opts = (pre ++ code :: Z.of_nat (length v) :: v) ++ encode os ++ 255 :: pad) by (unfold opts, encode; rewrite fmap_cons; cbn [concat]; by rewrite <- !app_assoc).
    assert (Hl : length (encode ((code, v) :: os)) = (2 + length v + length (encode os))%nat) by (unfold encode; rewrite fmap_cons; cbn [concat]; rewrite app_length; cbn [length]; lia).
    rewrite (options_next opts Hlen n (length pre) f code (Z.of_nat (length v))); try done; [|lia|..].
    + rewrite Nat2Z.id. rewrite (apply_option_ext _ _ _ (w32 v 0)).
      * rewrite E in *. replace (length pre + 2 + length v)%nat with (length (pre ++ code :: Z.of_nat (length v) :: v)) by (rewrite app_length; cbn; lia).
        apply IH; [done|done|rewrite app_length; cbn in *; lia|cbn in Hn; lia].
      * intros H4. rewrite E. replace (pre ++ code :: Z.of_nat (length v) :: v) with ((pre ++ [code; Z.of_nat (length v)]) ++ v) by (by rewrite <- app_assoc). rewrite <- app_assoc.
        replace (length pre + 2)%nat with (length (pre ++ [code; Z.of_nat (length v)])) by (rewrite app_length; cbn; lia). apply w32_middle. lia.
    + unfold opts. rewrite lookup_app_r, Nat.sub_diag by lia. done.
    + unfold opts. rewrite lookup_app_r by lia. by replace (S (length pre) - length pre)%nat with 1%nat by lia.
Qed.

(** Options a server encodes in at most 300 bytes and ends with 255 are read
    back: mask, gateway and name server end up as the last option of each kind says,
    the rest of the interface is unchanged. *)
Theorem dhcp_options_roundtrip os pad f : Forall proper os -> (length (encode os) <= 300)%nat -> length (encode os ++ 255 :: pad) = 308%nat ->
  dhcp_options 301 (encode os ++ 255 :: pad) 0 f = Ret (foldl meaning f os).
Proof.
  intros Hp Hend Hlen. apply (options_encode 301 [] os pad f); [done|done|done|].
  assert (Hl : forall l : list (Z * list Z), (length l <= length (encode l))%nat) by (induction l as [|[x v] l IH]; [done|unfold encode in *; cbn; rewrite app_length; lia]).
  specialize (Hl os). lia.
Qed.

Definition offer : list (Z * list Z) := [(53, [2]); (1, [255; 255; 255; 0]); (3, [10; 0; 2; 2]); (6, [10; 0; 2; 3; 8; 8; 8; 8])].

Lemma dhcp_options_roundtrip_witness : exists f, dhcp_options 301 (encode offer ++ 255 :: replicate 282 0) 0 inhabitant = Ret f /\
  if_netmask f = htonl 0xFFFFFF00 /\ if_gateway f = htonl 0x0A000202 /\ if_dns f = htonl 0x0A000203.
Proof.
  exists (foldl meaning inhabitant offer). split; [|by vm_compute].
  apply (dhcp_options_roundtrip offer (replicate 282 0) inhabitant); [by repeat constructor|vm_compute; lia|reflexivity].
Defined.

(** ** The exchange is safe but for the options *)

(** As [safe], but the options of a reply may be overread. *)
Definition safe_but {A} (r : res A) (Q : A -> Prop) : Prop :=
  match r with Ret a => Q a | Err Undefined | Err Endless => False | Err _ => True end.

Lemma safe_but_bind {A B} (r : res A) (g : A -> res B) Q R : safe_but r Q -> (forall a, Q a -> safe_but (g a) R) -> safe_but (r ≫= g) R.
Proof. destruct r as [a|[]]; cbn; auto. Qed.

Lemma safe_weaken {A} (r : res A) Q : safe r Q -> safe_but r Q.
Proof. by destruct r as [a|[]]. Qed.

Lemma safe_but_mono {A} (r : res A) (Q R : A -> Prop) : safe_but r Q -> (forall a, Q a -> R a) -> safe_but r R.
Proof. destruct r as [a|[]]; cbn; auto. Qed.

Lemma options_kept n opts o f f' : dhcp_options n opts o f = Ret f' -> if_kept f f' /\ if_ip f' = if_ip f.
Proof.
  revert o f. induction n as [|n IH]; intros o f; cbn [dhcp_options]; [done|]. destruct (byte_at opts o) as [code|]; [|done]. cbn [mbind res_bind].
  destruct (_ || _); [by intros [= <-]|]. destruct (code =? 0); [apply IH|]. destruct (byte_at opts (S o)) as [len|]; [|done]. cbn [mbind res_bind].
  destruct (addr_at opts (o + 2)) as [v|]; cbn [mbind res_bind].
  - repeat (destruct (_ && _); [intros E; by apply IH in E|]). intros E. by apply IH in E.
  - repeat (destruct (_ && _); [done|]). intros E. by apply IH in E.
Qed.

Lemma dhcp_accept_ok i reply s : NInv s [] -> length reply = DHCP_PACKET -> yiaddr reply ≠ 0 ->
  safe_but (dhcp_accept i reply s) (post [] s).
Proof.
  intros HI Hl Hy. unfold dhcp_accept. assert (Hlo : length (options reply) = 308%nat) by (unfold options; rewrite length_drop, Hl; done).
  pose proof (dhcp_options_result (options reply) ((ifp s i) <| if_ip := yiaddr reply |>) Hlo) as H. destruct (dhcp_options _ _ _ _) as [f|e] eqn:E; [|by destruct H as [-> H]].
  apply options_kept in E as [E _]. cbn [mbind res_bind safe_but]. apply post_if; [done|]. destruct E as (E1 & E2 & E3). done.
Qed.

Section Exchange.
Context (c : calls) (Hc : calls_ok c).

Lemma soreceive_full s o len : on_open s o -> 0 < len <= sb_cc (so_rcv (so s o)) ->
  exists s' l, soreceive c o len s = Ret (s', (CHIMERA_SUCCESS, l)) /\ Z.of_nat (length l) = len /\ post [] s s'.
Proof.
  intros Ho Hlen. pose proof Ho as (HI & [Hi _] & _). pose proof HI as (free & leaked & q & Q0 & Q & HN). assert (HQ : NQ s [] q (length free)) by (by exists free, leaked, Q0, Q).
  rewrite (queue_count _ _ _ _ HQ Hi) in Hlen. destruct (soreceive_takes c s q _ o len HQ Hi) as (s' & q' & E & _); [intros Hn; rewrite Hn in Hlen; cbn in Hlen; lia|lia|].
  eexists s', _. split; [exact E|]. split; [rewrite length_take; lia|]. pose proof (soreceive_safe c Hc s o len Ho ltac:(lia)) as H. rewrite E in H. exact H.
Qed.

Lemma dhcp_poll_ok n i o s : on_open s o -> safe_but (dhcp_poll c n i o s) (post [] s).
Proof.
  revert s. induction n as [|n IH]; intros s Ho; cbn [dhcp_poll]; [apply post_refl, Ho|]. eapply safe_but_bind; [apply safe_weaken, (e1000_poll_rx_safe c Hc), Ho|]. intros s1 Hp1.
  assert (Ho1 : on_open s1 o) by (by eapply on_open_post). assert (Hnext : forall s2, post [] s s2 -> safe_but (dhcp_poll c n i o s2) (post [] s)).
  { intros s2 Hp2. eapply safe_but_mono; [exact (IH s2 (on_open_post s s2 o Ho Hp2))|]. intros s3 Hp3. by eapply post_trans. }
  destruct (_ <=? _) eqn:El; [|by apply Hnext]. apply Z.leb_le in El. destruct (soreceive_full s1 o (Z.of_nat DHCP_PACKET) Ho1) as (s2 & l & -> & Hl & Hp2); [split; [done|exact El]|].
  cbn [mbind res_bind]. apply Nat2Z.inj in Hl. rewrite Hl, Nat.eqb_refl. cbn [guard_res mbind res_bind]. assert (Hp : post [] s s2) by (by eapply post_trans).
  destruct (_ && _) eqn:Eb; [|by apply Hnext]. apply andb_prop in Eb as [_ Eb]. eapply safe_but_mono; [apply dhcp_accept_ok; [apply Hp|done|intros E0; by rewrite E0 in Eb]|].
  intros s3 Hp3. by eapply post_trans.
Qed.

Lemma socreate_type dom type proto s s' e o : socreate dom type proto s = (s', (e, Some o)) -> so_type (so s' o) = i16 type.
Proof.
  unfold socreate. destruct (_ && _); [done|]. destruct (free_socket s) as [j|]; [|done]. set (s1 := upd_so j _ s).
  assert (E1 : so s1 j = fresh_socket (i16 type) None) by (unfold s1; by rewrite so_upd, decide_True). clearbody s1. unfold udp_attach, tcp_attach.
  destruct (_ || _); [destruct (scan _ _)|destruct (_ || _); [destruct (scan _ _)|]]; cbn [succeeded]; intros [= <- <- <-]; [| |by rewrite E1];
    rewrite so_upd, decide_True by done; change (so_type (_ <| so_pcb := _ |>)) with (so_type (so s1 j)); by rewrite E1.
Qed.

Lemma dhcp_discover_ok i s : NInv s [] -> safe_but (dhcp_discover c i s)
  (fun s' => NInv s' [] /\ (has (if_flags (ifp s i)) IFF_LOOPBACK = false -> (socreate AF_INET SOCK_DGRAM IPPROTO_UDP s).2.2 ≠ None -> if_ip (ifp s' i) ≠ 0)).
Proof.
  intros HI. unfold dhcp_discover. destruct (has _ _); [by split|]. pose proof (socreate_post AF_INET SOCK_DGRAM IPPROTO_UDP s HI ltac:(by split)) as [Hp1 Hn].
  pose proof (socreate_type AF_INET SOCK_DGRAM IPPROTO_UDP s) as Hty. destruct (socreate _ _ _ s) as [s1 [e [o|]]]; [|split; [apply Hp1|done]]. cbn [fst snd] in *.
  assert (Ho : on_open s1 o) by (split; [apply Hp1|by apply Hn]). specialize (Hty s1 e o eq_refl). change (i16 SOCK_DGRAM) with SOCK_DGRAM in Hty.
  eapply safe_but_bind; [apply safe_weaken, unit_safe, (sobind_safe s1 o _ Ho)|]. intros s2 Hp2. pose proof (on_open_post _ _ _ Ho Hp2) as Ho2.
  assert (Hty2 : so_type (so s2 o) = SOCK_DGRAM) by (destruct Ho as (_ & H1 & H2); destruct (po_heads _ _ _ Hp2 o H1 H2) as (_ & _ & ->); done).
  eapply safe_but_bind; [apply safe_weaken, unit_safe, (udp_sendto_safe c Hc s2 o _ _ Ho2 Hty2)|]. intros s3 Hp3. pose proof (on_open_post _ _ _ Ho2 Hp3) as Ho3.
  eapply safe_but_bind; [apply (dhcp_poll_ok 50 i o s3 Ho3)|]. intros s4 Hp4. pose proof (on_open_post _ _ _ Ho3 Hp4) as Ho4.
  eapply (safe_but_bind _ _ (fun s5 => NInv s5 [])).
  { apply safe_weaken. unfold unit_of. eapply safe_bind; [apply (soclose_safe c Hc s4 o Ho4)|]. intros [s5 e5] [HI5 _]. exact HI5. }
  intros s5 HI5. cbn [safe_but]. destruct (if_ip (ifp s5 i) =? 0) eqn:Ei; [|split; [done|]; intros _ _ E0; by rewrite E0 in Ei].
  split; [apply (post_if s5 [] i); done|]. intros _ _. unfold ifp, set_if. change (ifnets (s5 <| ifnets ::= ?g |>)) with (g (ifnets s5)). by rewrite lookup_total_insert_eq.
Qed.
End Exchange.

(** ** Start-up *)

Lemma loopback_inv : NInv (loopback_init blank) [].
Proof.
  apply fresh_inv; [by eexists|reflexivity..|]. intros i. unfold ifp. change (ifnets (loopback_init blank)) with (<[lo0 := loopback_if]> (∅ : gmap nat ifnet)).
  destruct (decide (i = lo0)) as [->|Hi]; [by rewrite lookup_total_insert_eq|]. by rewrite lookup_total_insert_ne, lookup_total_empty.
Qed.

Lemma first_socket s : s_socket_pool s = ∅ -> s_udp_pcbs s = ∅ -> (socreate AF_INET SOCK_DGRAM IPPROTO_UDP s).2.2 = Some 0%nat.
Proof.
  intros Es Eu. unfold socreate. cbn [andb negb Z.eqb AF_INET AF_UNIX Pos.eqb].
  assert (E0 : free_socket s = Some 0%nat) by (unfold free_socket, MAX_SOCKETS, so; rewrite Es; reflexivity). rewrite E0. unfold udp_attach.
  assert (E1 : forall s1, s_udp_pcbs s1 = ∅ -> scan UDP_MAX_SOCKETS (fun k => bool_decide (u_so (udp s1 k) = None)) = Some 0%nat) by (intros s1 E1; unfold udp; rewrite E1; reflexivity).
  rewrite E1 by exact Eu. reflexivity.
Qed.


End Dhcp.
