(* ===== verification/SocketSpec.v ===== *)
(** * What programs see of sockets

    Datagrams sent over the loopback interface arrive unchanged and in order,
    and options read back as they were set. *)

From stdpp Require Import functions.
From S2P Require Import Prelude Checksum Mbuf Net NetStack NetInv NetSafe NetFlow NetApi NetCorrect.

Module SocketSpec.

Import Checksum Mbuf Net NetStack NetInv NetSafe NetFlow NetApi NetCorrect.

Implicit Types (s : net) (b : mbufs).

#[local] Opaque queued.

(** ** Datagrams over the loopback interface *)

(** The bytes in a queue of packets, and the length of the free list. *)
Fixpoint packets (n : nat) (m : option nat) b : list Z :=
  match n, m with S n, Some i => data (mb i b) ++ packets n (m_nextpkt (mb i b)) b | _, _ => [] end.
Fixpoint count (n : nat) (m : option nat) b : nat :=
  match n, m with S n, Some i => S (count n (m_next (mb i b)) b) | _, _ => O end.

(** What a receive call on socket [i] can return, and the buffers left. *)
Definition waiting s (i : nat) : list Z := packets CHAIN (sb_mb (so_rcv (so s i))) (bufs s).
Definition free_buffers s : nat := count CHAIN (s_mbuf_freelist (bufs s)) (bufs s).

Lemma packets_chain b m l n : chain (nextpkt b) m l -> (length l <= n)%nat -> packets n m b = concat ((fun j => data (mb j b)) <$> l).
Proof.
  revert m n. induction l as [|i l IH]; intros m n Hch Hn; [cbn in Hch; subst; by destruct n|]. destruct Hch as [-> Hch]. cbn in Hn. destruct n as [|n]; [lia|].
  cbn [packets fmap list_fmap concat]. f_equal. apply IH; [done|lia].
Qed.

Lemma count_chain b m l n : chain (next b) m l -> (length l <= n)%nat -> count n m b = length l.
Proof.
  revert m n. induction l as [|i l IH]; intros m n Hch Hn; [cbn in Hch; subst; by destruct n|]. destruct Hch as [-> Hch]. cbn in Hn. destruct n as [|n]; [lia|].
  cbn [count length]. f_equal. apply IH; [done|lia].
Qed.

Lemma waiting_datagrams s fly q n i : NQ s fly q n -> (i < MAX_SOCKETS)%nat -> waiting s i = concat (datagrams s q i).
Proof.
  intros HI Hi. pose proof (NQ_queue _ _ _ _ i HI Hi) as Hq. unfold waiting. rewrite (packets_chain _ _ (q i)); [done|apply Hq|].
  destruct HI as (free & leaked & Q0 & Q & HN & _). pose proof (pool_length _ _ _ (ni_pool _ _ _ _ _ _ _ HN)) as Hl. rewrite !app_length in Hl.
  pose proof (queued_put q i [] Hi) as Hp%Permutation_length. rewrite !app_length in Hp. unfold CHAIN. cbn in Hp. lia.
Qed.

Lemma free_buffers_count s q n : NQ s [] q n -> free_buffers s = n.
Proof.
  intros (free & leaked & Q0 & Q & HN & <-). pose proof (ni_pool _ _ _ _ _ _ _ HN) as Hp. unfold free_buffers. apply count_chain; [apply Hp|].
  destruct Hp as [_ Hp%Permutation_length]. rewrite app_length, length_seq in Hp. unfold CHAIN. lia.
Qed.

Lemma NInv_NQ s : NInv s [] -> exists q, NQ s [] q (free_buffers s).
Proof.
  intros (free & leaked & q & Q0 & Q & HN). assert (HI : NQ s [] q (length free)) by (by exists free, leaked, Q0, Q). exists q. by rewrite (free_buffers_count _ _ _ HI).
Qed.

(** C11: A datagram of at most 1472 bytes that a bound UDP socket [i] sends to a
    port of the loopback address goes to the socket [o] bound to that port: a
    receive call there returns what was waiting before followed by the
    datagram, cut to the length asked for, what does not fit stays for the next call,
    and the sockets other than [o] keep what they have waiting. *)
Theorem udp_loopback_roundtrip d s i ki k o lo l dest len : NInv s [] -> (3 <= free_buffers s)%nat ->
  so_type (so s i) = SOCK_DGRAM -> so_pcb (so s i) = Some (UdpPcb ki) -> u_bound (udp s ki) = true ->
  l ≠ [] -> Z.of_nat (length l) <= 1472 -> sin_addr dest = htonl INADDR_LOOPBACK -> 0 <= sin_port dest < 65536 ->
  if_lookup "lo0" s = Some lo -> has (if_flags (ifp s lo)) IFF_LOOPBACK = true ->
  scan UDP_MAX_SOCKETS (udp_port_taken (ntohs (sin_port dest)) s) = Some k -> u_so (udp s k) = Some o -> 0 <= len ->
  exists s1 s2, sosend (stack (S d)) i (Some dest) l s = Ret (s1, CHIMERA_SUCCESS) /\
    soreceive (stack (S d)) o len s1 = Ret (s2, (CHIMERA_SUCCESS, take (Z.to_nat len) (waiting s o ++ l))) /\
    waiting s2 o = drop (Z.to_nat len) (waiting s o ++ l) /\
    (forall j, (j < MAX_SOCKETS)%nat -> j ≠ o -> waiting s2 j = waiting s j) /\ NInv s2 [].
Proof.
  intros HI Hfree Hty Hpcb Hb Hne Hl Hda Hdp Hlo Hfl Hk Hu Hlen. destruct (NInv_NQ s HI) as (q & HQ).
  destruct (free_buffers s) as [|[|[|n]]]; [lia..|]. assert (Ho : (o < MAX_SOCKETS)%nat) by (eapply udp_owner; [exact HQ|done|]; apply scan_spec in Hk as [_ Hk]; by eapply udp_taken_bound).
  destruct (udp_sendto_delivers d s i l dest q n lo ki k o) as (s1 & pkt & E1 & [HQ1 Hd1] & _); [done..|]. set (q1 := <[o := q o ++ [pkt]]> q) in *.
  assert (E : concat (datagrams s1 q1 o) = waiting s o ++ l) by (rewrite (Hd1 o Ho), decide_True, (waiting_datagrams s [] q _ o HQ Ho), concat_app by done; cbn; by rewrite app_nil_r).
  destruct (soreceive_takes (stack (S d)) s1 q1 _ o len HQ1 Ho) as (s2 & q2 & E2 & (n2 & HQ2) & Hoth & Hrest); [rewrite E; by destruct (waiting s o)|done|].
  exists s1, s2. rewrite E in E2, Hrest. split; [unfold sosend; by rewrite Hty|]. split; [exact E2|]. split; [by rewrite (waiting_datagrams s2 [] q2 n2)|]. split; [|by eapply NQ_NInv].
  intros j Hj Hjo. rewrite (waiting_datagrams s2 [] q2 n2), (waiting_datagrams s [] q _ j HQ), Hoth, Hd1, decide_False by done. done.
Qed.

(** Two sockets bound to the ports 53 and 54. *)
Definition two_bound : list event :=
  [Create AF_INET SOCK_DGRAM IPPROTO_UDP; On 0 (Bind (port 0 53)); Create AF_INET SOCK_DGRAM 0; On 1 (Bind (port 0 54))].
Definition pair_bound : world := ended (history (stack 8) two_bound (boot en0_mac, ∅)).

Lemma pair_bound_inv : NInv pair_bound.1 [].
Proof.
  assert (Ha : Forall allowed two_bound) by (repeat constructor; cbn; auto; done).
  pose proof (history_safe (stack 8) (stack_ok 8) two_bound _ (boot_world en0_mac eq_refl) Ha) as H. unfold pair_bound.
  assert (Hr : match history (stack 8) two_bound (boot en0_mac, ∅) with Ret _ => true | Err _ => false end = true) by (by vm_compute).
  destruct (history _ _ _); [apply H|done].
Qed.

Lemma udp_loopback_roundtrip_witness : exists s1 s2,
  sosend (stack 3) 0 (Some (port INADDR_LOOPBACK 54)) [104; 105; 33] pair_bound.1 = Ret (s1, CHIMERA_SUCCESS) /\
  soreceive (stack 3) 1 2 s1 = Ret (s2, (CHIMERA_SUCCESS, [104; 105])) /\ waiting s2 1 = [33].
Proof.
  assert (Hw : waiting pair_bound.1 1 = []) by (by vm_compute).
  assert (Hf : (3 <= free_buffers pair_bound.1)%nat) by (apply Nat.leb_le; by vm_compute).
  destruct (udp_loopback_roundtrip 2 pair_bound.1 0 0 1 1 lo0 [104; 105; 33] (port INADDR_LOOPBACK 54) 2 pair_bound_inv Hf
    ltac:(by vm_compute) ltac:(by vm_compute) ltac:(by vm_compute) ltac:(done) ltac:(by vm_compute) eq_refl ltac:(by vm_compute)
    ltac:(by vm_compute) ltac:(by vm_compute) ltac:(by vm_compute) ltac:(by vm_compute) ltac:(done)) as (s1 & s2 & E1 & E2 & E3 & _).
  rewrite Hw in E2, E3. change (take _ _) with [104; 105] in E2. change (drop _ _) with [33] in E3.
  exists s1, s2. split; [exact E1|]. split; [exact E2|exact E3].
Defined.

(** ** Options *)

Definition flag_options : list Z := [SO_REUSEADDR; SO_KEEPALIVE; SO_DONTROUTE; SO_BROADCAST; SO_DEBUG].
Definition settable : list Z := flag_options ++ [SO_RCVTIMEO; SO_SNDTIMEO; SO_RCVBUF; SO_SNDBUF].

(** What an option reads as after [v] was written over [old]. *)
Definition kept (name v old : Z) : Z :=
  if flag_option name then if v =? 0 then 0 else 1
  else if (name =? SO_RCVBUF) || (name =? SO_SNDBUF) then if (0 <? v) && (v <=? SB_MAX) then v else old
  else v.

Definition option_of (o : socket) (name : Z) : Z :=
  if flag_option name then if has (so_options o) name then 1 else 0
  else if name =? SO_TYPE then so_type o else if name =? SO_ERROR then so_error o
  else if name =? SO_RCVTIMEO then so_rcvtimeo o else if name =? SO_SNDTIMEO then so_sndtimeo o
  else if name =? SO_RCVBUF then sb_hiwat (so_rcv o) else if name =? SO_SNDBUF then sb_hiwat (so_snd o) else 0.

Lemma flag_bit name : flag_option name = true -> exists k, 0 <= k /\ name = 2 ^ k.
Proof.
  intros H. apply bool_decide_eq_true in H. repeat (apply elem_of_cons in H as [-> | H]); [exists 2|exists 3|exists 4|exists 5|exists 0|by apply not_elem_of_nil in H]; done.
Qed.

Lemma has_set x a y (on : bool) : flag_option a = true -> flag_option y = true ->
  has (if on then Z.lor x a else Z.ldiff x a) y = if decide (y = a) then on else has x y.
Proof.
  intros (k & Hk & ->)%flag_bit (j & Hj & ->)%flag_bit. rewrite !has_bit by done.
  assert (E : Z.testbit (2 ^ k) j = bool_decide (j = k)) by (rewrite Z.pow2_bits_eqb by done; destruct (Z.eqb_spec k j); case_bool_decide; congruence).
  assert (Ed : (if decide (2 ^ j = 2 ^ k) then on else Z.testbit x j) = if decide (j = k) then on else Z.testbit x j).
  { destruct (decide (j = k)) as [->|Hn]; [by rewrite decide_True|]. rewrite decide_False; [done|]. intros Hp. by apply Z.pow_inj_r in Hp. }
  rewrite Ed. destruct (decide (j = k)) as [->|Hn]; destruct on; rewrite ?Z.lor_spec, ?Z.ldiff_spec, E; [rewrite bool_decide_eq_true_2|rewrite bool_decide_eq_true_2|rewrite bool_decide_eq_false_2|rewrite bool_decide_eq_false_2];
    try done; destruct (Z.testbit x _); done.
Qed.

Lemma i32_cases v : 0 <= v < 2 ^ 32 -> i32 v = if v <? 2 ^ 31 then v else v - 2 ^ 32.
Proof.
  intros Hv. unfold i32. destruct (Z.ltb_spec v (2 ^ 31)); [rewrite u32_id by lia; lia|]. replace (v + 2 ^ 31) with (v - 2 ^ 31 + 1 * 2 ^ 32) by lia. unfold u32. rewrite Z.mod_add, Z.mod_small by lia. lia.
Qed.

Lemma i32_small v : 0 <= v < 2 ^ 32 -> (i32 v =? 0) = (v =? 0) /\ (0 <? i32 v) && (i32 v <=? SB_MAX) = (0 <? v) && (v <=? SB_MAX) /\ (v <= SB_MAX -> u32 (i32 v) = v).
Proof.
  intros Hv. rewrite i32_cases by done. unfold SB_MAX. destruct (Z.ltb_spec v (2 ^ 31)); split_and!; try done; try lia. intros _. by rewrite u32_id.
Qed.

Lemma w32_le32 v : 0 <= v < 2 ^ 32 -> w32 (le32 v) 0 = v.
Proof.
  intros Hv. unfold le32, le16, w32, w16, b8. cbn [app nth]. cbn. Z.div_mod_to_equations. lia.
Qed.

(** Setting an option changes that option only. *)
Lemma set_option_of o name v name' : name ∈ settable -> 0 <= v < 2 ^ 32 ->
  option_of (set_option name v o) name' = if decide (name' = name) then kept name v (option_of o name) else option_of o name'.
Proof.
  intros Hn Hv. destruct (i32_small v Hv) as (I1 & I2 & I3). unfold set_option, kept. rewrite I1, I2. destruct (flag_option name) eqn:Ef.
  - unfold option_of. destruct (flag_option name') eqn:Ef'.
    + change (so_options (_ <| so_options ::= ?f |>)) with (f (so_options o)). pose proof (has_set (so_options o) name name' (negb (v =? 0)) Ef Ef') as H.
      cbv beta. destruct (v =? 0); cbn [negb] in H; rewrite H; by case_decide.
    + rewrite decide_False by congruence. done.
  - assert (Hn' : name ∈ [SO_RCVTIMEO; SO_SNDTIMEO; SO_RCVBUF; SO_SNDBUF]) by (apply elem_of_app in Hn as [Hn|Hn]; [by apply bool_decide_eq_false in Ef|done]).
    repeat (apply elem_of_cons in Hn' as [-> | Hn']); [| | | |by apply not_elem_of_nil in Hn']; destruct (decide (name' = _)) as [->|Hne]; try reflexivity;
      try (apply Z.eqb_neq in Hne; unfold option_of; rewrite Hne; try reflexivity); try (destruct ((0 <? v) && _) eqn:E; try reflexivity; rewrite I3 by lia; reflexivity).
Qed.

Definition readable (name : Z) : bool :=
  flag_option name || bool_decide (name ∈ [SO_TYPE; SO_ERROR; SO_RCVTIMEO; SO_SNDTIMEO; SO_RCVBUF; SO_SNDBUF]).

Lemma sogetopt_value s i name n : so_signature (so s i) = CHIMERA_SOCKET_MAGIC ->
  (sogetopt i SOL_SOCKET name n s).2 =
    if n =? 0 then (CHIMERA_ERR_INVALID, []) else if readable name then (CHIMERA_SUCCESS, take (Z.to_nat (if n <? 4 then n else 4)) (le32 (u32 (option_of (so s i) name))))
    else (CHIMERA_ERR_NOTSUP, []).
Proof.
  intros Hs. unfold sogetopt, option_of, readable. rewrite Hs, !Z.eqb_refl. cbn [negb]. destruct (n =? 0); [done|]. destruct (flag_option name); [done|]. cbn [orb].
  destruct (bool_decide _) eqn:Hb; [apply bool_decide_eq_true in Hb|apply bool_decide_eq_false in Hb; rewrite !not_elem_of_cons in Hb].
  - repeat (apply elem_of_cons in Hb as [-> | Hb]; [done|]). by apply not_elem_of_nil in Hb.
  - destruct Hb as (H1 & H2 & H3 & H4 & H5 & H6 & _). by rewrite !(proj2 (Z.eqb_neq _ _)) by done.
Qed.

Lemma settable_readable name : name ∈ settable -> readable name = true.
Proof. intros H. unfold settable, flag_options in H. cbn [app] in H. repeat (apply elem_of_cons in H as [-> | H]; [done|]). by apply not_elem_of_nil in H. Qed.

Lemma sosetopt_success s i name v : so_signature (so s i) = CHIMERA_SOCKET_MAGIC -> name ∈ settable -> 0 <= v < 2 ^ 32 ->
  sosetopt i SOL_SOCKET name (le32 v) s = (upd_so i (set_option name v) s, CHIMERA_SUCCESS).
Proof.
  intros Hs H Hv. rewrite <- (w32_le32 v Hv) at 2. unfold sosetopt, set_option. rewrite Hs, !Z.eqb_refl. cbn [negb]. change (length (le32 v)) with 4%nat. cbn [Nat.eqb Nat.ltb Nat.leb].
  unfold settable, flag_options in H. cbn [app] in H. repeat (apply elem_of_cons in H as [-> | H]; [done|]). by apply not_elem_of_nil in H.
Qed.

(** Setting an option of a live socket succeeds, and reading it back gives
    the value, 0 or 1 for the flags; a buffer size outside 1..[SB_MAX] is
    accepted and ignored.  No other option of the socket changes. *)
Theorem sockopt_roundtrip s i name v : so_signature (so s i) = CHIMERA_SOCKET_MAGIC -> name ∈ settable -> 0 <= v < 2 ^ 32 ->
  exists s', sosetopt i SOL_SOCKET name (le32 v) s = (s', CHIMERA_SUCCESS) /\
    (sogetopt i SOL_SOCKET name 4 s').2 = (CHIMERA_SUCCESS, le32 (u32 (kept name v (option_of (so s i) name)))) /\
    forall name' n, name' ≠ name -> (sogetopt i SOL_SOCKET name' n s').2 = (sogetopt i SOL_SOCKET name' n s).2.
Proof.
  intros Hs Hn Hv. eexists. split; [by apply sosetopt_success|]. set (s' := upd_so i _ s).
  assert (Es : so s' i = set_option name v (so s i)) by (unfold s'; by rewrite so_upd, decide_True).
  assert (Hs' : so_signature (so s' i) = CHIMERA_SOCKET_MAGIC).
  { rewrite Es, <- Hs. unfold set_option. destruct (flag_option name), (name =? SO_RCVTIMEO), (name =? SO_SNDTIMEO), (name =? SO_RCVBUF), ((0 <? i32 v) && (i32 v <=? SB_MAX)); done. }
  split.
  - rewrite sogetopt_value, (settable_readable name), Es, set_option_of, decide_True by done. done.
  - intros name' n Hne. rewrite !sogetopt_value, Es, set_option_of, decide_False by done. done.
Qed.

Lemma sockopt_roundtrip_witness : exists s', sosetopt 0 SOL_SOCKET SO_RCVBUF (le32 4096) pair_bound.1 = (s', CHIMERA_SUCCESS) /\
  (sogetopt 0 SOL_SOCKET SO_RCVBUF 4 s').2 = (CHIMERA_SUCCESS, le32 4096).
Proof.
  destruct (sockopt_roundtrip pair_bound.1 0 SO_RCVBUF 4096) as (s' & E1 & E2 & _); [by vm_compute|unfold settable; set_solver|lia|].
  exists s'. split; [exact E1|exact E2].
Defined.
End SocketSpec.
